(* ===== verification/_CoqProject ===== *)
-Q . S2P
Prelude.v
Arith64.v
KList.v
KListOps.v
KListSort.v
KListSpec.v
Bytes.v
Bitmap.v
Block.v
Store.v
Cache.v
Inode.v
InodeTree.v
InodeGrow.v
InodeShrink.v
InodeResize.v
InodeRollback.v
InodeExtend.v
InodeIO.v
InodeWrite.v
InodeLife.v
File.v
FreeMap.v
FileDemo.v
FileProps.v
Mem.v
Str.v
Directory.v
DirSpec.v
NameInv.v
Filesys.v
PathSpec.v
PathWalk.v
FileSteps.v
DirWrite.v
FilesysCreate.v
FilesysProps.v
Heapsort.v
Random.v
Printf.v
Ustar.v
Hash.v
Kernel.v
SchedInv.v
SchedStep.v
SchedCreate.v
Fair.v
SchedProps.v
Vaddr.v
Args.v
Palloc.v
Malloc.v
MallocProps.v
MallocSpec.v
Pagedir.v
PagedirInv.v
PagedirStep.v
PagedirOps.v
PagedirDestroy.v
PagedirInit.v
PagedirProps.v
Load.v
LoadSteps.v
LoadProps.v
Syscall.v
UserMem.v
SyscallSteps.v
SyscallProps.v
Wait.v
WaitInv.v
WaitProps.v
