(* ===== verification/Prelude.v ===== *)
(** * Pintos: a verification development

    Pintos is a small operating system for the 32-bit PC.  Its C sources are
    under src/pintos/src; the paths below are relative to that directory.  This
    library translates the parts of the kernel that hold state or compute
    something into executable functions and proves what their callers rely on.

    ** The program

    threads/ schedules threads round robin under timer interrupts, with
    semaphores, locks and condition variables, and allocates pages and blocks.
    lib/ and lib/kernel/ have the data structures and the C library the kernel
    is written with.  filesys/ stores files in sectors behind a buffer cache,
    with a free map, inodes that grow, directories and paths.  userprog/ gives
    each process an address space, loads programs, handles system calls and
    lets a parent wait for its children.  devices/ drives the hardware.

    ** How code is modelled

    An operation is a function of the state it works on.  Its result is an
    [outcome]: [Done], or a [Fault] for a failed ASSERT, a PANIC, an access
    outside allocated memory, a trap of a division, a wait that another thread
    has to end, or fuel that ran out.  A theorem that an operation is [Done]
    therefore excludes all of these.  [M S A] threads a state [S] through such
    operations.  Integers are in [Z] with the wrap-around of their C type
    written out ([u32], [i32], [u64], ...), pointers are numbers, and memory,
    heaps and tables of structures are finite maps.  Definitions have the names
    of the C functions; a loop has the name of its function and a suffix.

    ** Files

    - Prelude: this header, outcomes, the monad, machine integers, tactics and
      shared lemmas.  Bytes, Mem: little-endian data and byte-addressed memory.
    - Arith64: lib/arithmetic.c.  Heapsort, Printf: lib/stdlib.c, lib/stdio.c.
      Random: lib/random.c.  Str: lib/string.c.  Ustar: lib/ustar.c.
    - KList, KListOps, KListSort, KListSpec: lib/kernel/list.c on a heap of
      cells, and as sequences.  Bitmap, Hash: lib/kernel/bitmap.c and hash.c.
    - Kernel, SchedInv, SchedStep, SchedCreate, Fair, SchedProps:
      threads/thread.c, synch.c, interrupt.c and the timer interrupt, as
      steps of threads and interrupts; the invariant and its preservation.
    - Vaddr: threads/vaddr.h and pte.h.  Palloc: threads/palloc.c.  Malloc,
      MallocProps, MallocSpec: threads/malloc.c and the abstract heap.
    - Pagedir, PagedirInv, PagedirStep, PagedirOps, PagedirDestroy, PagedirInit,
      PagedirProps: userprog/pagedir.c and paging_init of threads/init.c, and
      abstract address spaces.
    - Block: devices/block.c.  Store: the class [SectorStore], what the file
      system needs of a device.  Cache: the buffer cache of filesys/inode.c, an
      instance of it.
    - Inode, InodeTree, InodeGrow, InodeShrink, InodeResize, InodeRollback,
      InodeExtend, InodeIO, InodeWrite, InodeLife: filesys/inode.c.  File:
      filesys/file.c.  FreeMap: filesys/free-map.c.  FileDemo: a file system the
      examples run on.  FileProps: the theorems on files.
    - Directory, DirSpec, DirWrite: filesys/directory.c.  Filesys, NameInv,
      PathSpec, PathWalk, FileSteps, FilesysCreate, FilesysProps:
      filesys/filesys.c and the theorems on names.
    - Args: the arguments of a program, userprog/process.c.  Load, LoadSteps,
      LoadProps: load of process.c.  Syscall, UserMem, SyscallSteps,
      SyscallProps: userprog/syscall.c.  Wait, WaitInv, WaitProps: the wait
      statuses of process.c and thread.c.

    ** What the theorems show

    - Scheduler: no interleaving of threads, calls and timer interrupts fails an
      assertion; locks exclude each other; a ready thread runs after a bounded
      number of turns; start-up reaches a state of the invariant.
    - Data structures: lists, bitmaps, hash tables and the heap of malloc
      simulate sequences, lists of booleans, sets and maps of blocks; sorting
      sorts; hash iteration ends after visiting each element once.
    - Library: division, memory and string functions, printing, parsing and
      archive headers compute what their specifications say, at machine width.
    - Memory: the page allocator hands out free pages once; page directories
      simulate partial maps from pages to frames, caches of translations
      included; no operation on one address space changes another.
    - Files: the cache implements the device; what is written is read back; a
      write changes no other file; deleting frees exactly the sectors of the
      file; opening a path reaches the file its parts name; creating adds one
      name; listing returns each name once.
    - Processes: an accepted executable is mapped as its headers say; main
      receives the words of the command line; file calls do to the abstract
      file system what they promise; arguments are read from memory the process
      owns; waiting returns each exit status once.
    - Defects: several theorems state what the code does where that is not what
      it means to, on every input of a kind: a partial write to a sector that
      is not cached, growth that fails for lack of space, sizes that wrap
      around in malloc, failed changes of directory, lost references of open,
      arguments longer than a page, short user buffers, unknown descriptors, and
      the exit of an orphan.

    ** Bounds and fuel

    Recursion that is not structural takes fuel, and running out is the fault
    [OutOfFuel].  Loops over arrays, lists, sectors and pages take their bound
    from the state; strings take the size of the memory; paths take a depth, and
    the theorems ask for more than the number of its parts.
    Every theorem that says what an operation returns shows that it is [Done],
    so the fuel is enough.  The free memory an operation finds is a stream of
    answers of malloc in the file system and the pools themselves in userprog/.

    ** Not modelled

    The file system and the system calls are modelled as one thread runs them,
    with the state of each lock but without interleaving; interleaving is the
    subject of Kernel and, in whole operations, of Wait.  The thread structures
    of Kernel and the wait statuses of Wait are separate states.  Of process.c
    the interrupt frame and the release of files and pages at exit are not
    composed into one operation; their parts are in File and Pagedir.

    Device drivers (ide, kbd, serial, vga, rtc, pit, speaker, shutdown), the
    interrupt controller, segments, task state, context switch and boot code are
    port and processor instructions whose effect the sources do not define.
    devices/partition.c and the registry of block.c run once at start-up.
    devices/intq.c and input.c serve the keyboard, which no modelled call reads.
    userprog/exception.c, debug.c and console.c print and stop.  fsutil.c, the
    command line of init.c, lib/user, examples, tests and utils are outside of
    the kernel proper or run only for tests.  threads/fixed-point.h is used by
    no function. *)

From stdpp Require Export base tactics numbers list list_numbers gmap fin_maps sets.
From stdpp Require Import options.
From Stdlib Require Export ZArith Lia.

#[export] Set Default Goal Selector "!".

(** ** Outcomes

    The kernel stops on a failed [ASSERT] or a [PANIC], traps on a hardware
    fault, and sleeps when it waits for another thread.  Each is a value, so a
    theorem that an operation is [Done] excludes all of them. *)

Inductive fault :=
  | AssertFailed
  | Panic
  | BadPointer
  | DivideError
  | WouldSleep
  | OutOfFuel.

Inductive outcome (A : Type) : Type :=
  | Done (a : A)
  | Fault (f : fault).
Arguments Done {A} a.
Arguments Fault {A} f.

Definition obind {A B : Type} (m : outcome A) (k : A -> outcome B) : outcome B :=
  match m with
  | Done a => k a
  | Fault f => Fault f
  end.

(** State-passing code with faults: [S] is the state a component owns. *)

Definition M (S A : Type) : Type := S -> outcome (A * S).

Definition ret {S A : Type} (a : A) : M S A := fun s => Done (a, s).

Definition bind {S A B : Type} (m : M S A) (k : A -> M S B) : M S B :=
  fun s =>
    match m s with
    | Done (a, s') => k a s'
    | Fault f => Fault f
    end.

Definition fail {S A : Type} (f : fault) : M S A := fun _ => Fault f.

Definition get {S : Type} : M S S := fun s => Done (s, s).

Definition gets {S A : Type} (f : S -> A) : M S A := fun s => Done (f s, s).

Definition modify {S : Type} (f : S -> S) : M S unit := fun s => Done (tt, f s).

Definition assert {S : Type} (b : bool) : M S unit :=
  if b then ret tt else fail AssertFailed.

Definition oassert (b : bool) : outcome unit :=
  if b then Done tt else Fault AssertFailed.

Definition lift {S A : Type} (o : outcome A) : M S A :=
  fun s =>
    match o with
    | Done a => Done (a, s)
    | Fault f => Fault f
    end.

Declare Scope kernel_scope.
Delimit Scope kernel_scope with kernel.

Notation "'let!' x ':=' m 'in' k" := (bind m (fun x => k))
  (at level 10, x pattern, m at level 100, k at level 200) : kernel_scope.
Notation "m ';;' k" := (bind m (fun _ => k))
  (at level 100, right associativity) : kernel_scope.
Notation "'let?' x ':=' m 'in' k" := (obind m (fun x => k))
  (at level 10, x pattern, m at level 100, k at level 200) : kernel_scope.

(** ** Machine integers

    A [w]-bit integer is the [Z] it denotes; wrap-around is written out. *)

Definition u32 (z : Z) : Z := (z mod 2 ^ 32)%Z.
Definition u64 (z : Z) : Z := (z mod 2 ^ 64)%Z.
Definition u8 (z : Z) : Z := (z mod 2 ^ 8)%Z.
Definition i32 (z : Z) : Z := ((z + 2 ^ 31) mod 2 ^ 32 - 2 ^ 31)%Z.
Definition i64 (z : Z) : Z := ((z + 2 ^ 63) mod 2 ^ 64 - 2 ^ 63)%Z.

Definition is_u32 (z : Z) : Prop := (0 <= z < 2 ^ 32)%Z.
Definition is_u64 (z : Z) : Prop := (0 <= z < 2 ^ 64)%Z.
Definition is_i32 (z : Z) : Prop := (- 2 ^ 31 <= z < 2 ^ 31)%Z.
Definition is_i64 (z : Z) : Prop := (- 2 ^ 63 <= z < 2 ^ 63)%Z.

Create HintDb kernel.

Section monad_lemmas.
Context {S A B : Type}.
Implicit Types (s : S) (a : A).

Lemma bind_done (m : M S A) (k : A -> M S B) s a s' :
  m s = Done (a, s') -> bind m k s = k a s'.
Proof. unfold bind. by intros ->. Qed.

Lemma bind_fault (m : M S A) (k : A -> M S B) s f :
  m s = Fault f -> bind m k s = Fault f.
Proof. unfold bind. by intros ->. Qed.

Lemma bind_inv (m : M S A) (k : A -> M S B) s r :
  bind m k s = Done r -> exists a s', m s = Done (a, s') /\ k a s' = Done r.
Proof. unfold bind. destruct (m s) as [[a s']|f]; naive_solver. Qed.

Lemma bind_ret a (k : A -> M S B) s : bind (ret a) k s = k a s.
Proof. done. Qed.

Lemma bind_bind {C} (m : M S A) (k : A -> M S B) (k' : B -> M S C) s : bind m (fun a => bind (k a) k') s = bind (bind m k) k' s.
Proof. unfold bind. by destruct (m s) as [[a s']|]. Qed.

Lemma assert_true (k : unit -> M S B) b s :
  b = true -> bind (assert b) k s = k tt s.
Proof. by intros ->. Qed.

Lemma assert_inv (b : bool) (s : S) r :
  @assert S b s = Done r -> b = true /\ r = (tt, s).
Proof. destruct b; simpl; [intros [= <-]; done | done]. Qed.
End monad_lemmas.

Lemma obind_inv {A B} (m : outcome A) (k : A -> outcome B) r :
  obind m k = Done r -> exists a, m = Done a /\ k a = Done r.
Proof. destruct m; naive_solver. Qed.

(** Runs the first command of a sequence with the equation that says what it
    does. *)

Ltac mrun := first
  [ rewrite bind_ret
  | erewrite bind_done; [| solve [eauto with kernel | reflexivity] ] ].
Tactic Notation "mrun" uconstr(H) := erewrite bind_done; [| eapply H ].

(** Inverts a run that ended without a fault. *)

Ltac minv H :=
  repeat match type of H with
  | bind _ _ _ = Done _ =>
      let a := fresh "a" in let s := fresh "s" in let E := fresh "E" in
      apply bind_inv in H as (a & s & E & H)
  end.

(** Splits a conjunction and leaves what is neither trivial nor arithmetic. *)
Ltac split_lia := split_and!; try done; try lia.

Section words.
Local Open Scope Z_scope.

Lemma u32_small z : 0 <= z < 2 ^ 32 -> u32 z = z.
Proof. apply Z.mod_small. Qed.

Lemma u64_small z : 0 <= z < 2 ^ 64 -> u64 z = z.
Proof. apply Z.mod_small. Qed.

Lemma i32_small z : is_i32 z -> i32 z = z.
Proof. unfold is_i32, i32. intros. rewrite Z.mod_small; lia. Qed.

Lemma i64_small z : is_i64 z -> i64 z = z.
Proof. unfold is_i64, i64. intros. rewrite Z.mod_small; lia. Qed.

Lemma u32_range z : 0 <= u32 z < 2 ^ 32.
Proof. apply Z.mod_pos_bound. lia. Qed.

Lemma u64_range z : 0 <= u64 z < 2 ^ 64.
Proof. apply Z.mod_pos_bound. lia. Qed.

Lemma i32_range z : is_i32 (i32 z).
Proof.
  unfold i32, is_i32. pose proof (Z.mod_pos_bound (z + 2 ^ 31) (2 ^ 32)). lia.
Qed.

Lemma i64_range z : is_i64 (i64 z).
Proof.
  unfold i64, is_i64. pose proof (Z.mod_pos_bound (z + 2 ^ 63) (2 ^ 64)). lia.
Qed.
End words.

#[export] Hint Resolve u32_range u64_range i32_range i64_range : kernel.

(** ** Lists *)

Lemma filter_all {A} (P : A -> Prop) `{!forall x, Decision (P x)} (l : list A) : (forall x, x ∈ l -> P x) -> filter P l = l.
Proof.
  induction l as [|x l IH]; intros Hl; [done|]. rewrite filter_cons_True by (apply Hl; left). f_equal. apply IH.
  intros y Hy. apply Hl. by right.
Qed.

Lemma filter_ext_elem {A} (P Q : A -> Prop) `{!forall x, Decision (P x), !forall x, Decision (Q x)} (l : list A) :
  (forall x, x ∈ l -> P x <-> Q x) -> filter P l = filter Q l.
Proof.
  induction l as [|y l IH]; intros HPQ; [done|]. rewrite !filter_cons, IH by (intros x Hx; apply HPQ; by right).
  pose proof (HPQ y (list_elem_of_here _ _)). destruct (decide (P y)), (decide (Q y)); tauto.
Qed.

Lemma filter_without {A} `{EqDecision A} (l : list A) (i : A) : NoDup l -> i ∈ l -> length l = S (length (filter (fun j => j <> i) l)).
Proof.
  induction l as [|x l IH]; intros Hnd Hi; [by apply elem_of_nil in Hi|]. apply NoDup_cons in Hnd as [Hx Hnd].
  rewrite filter_cons. destruct (decide (x = i)) as [->|Hne].
  - rewrite decide_False by (intros ?; done). simpl. f_equal. f_equal. symmetry. apply filter_all. intros y Hy ->. done.
  - rewrite decide_True by done. simpl. f_equal. apply IH; [done|]. apply elem_of_cons in Hi as [->|?]; done.
Qed.
