(* ===== verification/Arith64.v ===== *)
(** * lib/arithmetic.c: 64-bit division on a 32-bit machine

    [udiv64] builds a 64-by-64-bit division out of the x86 [DIVL] instruction
    (64 by 32 bits, trapping when the quotient does not fit); [umod64],
    [sdiv64] and [smod64] are derived from it, and the four libgcc entry points
    call them.  The trap of [DIVL] is the fault [DivideError]. *)

From stdpp Require Import options.
From S2P Require Import Prelude.

Local Open Scope Z_scope.
Local Open Scope kernel_scope.

(** ** Definitions *)

Definition divl (n d : Z) : outcome Z :=
  let n1 := u32 (Z.shiftr n 32) in
  let n0 := u32 n in
  let q := (n1 * 2 ^ 32 + n0) / d in
  if (d =? 0) || (2 ^ 32 <=? q) then Fault DivideError else Done q.

Definition nlz (x : Z) : Z :=
  let n := 0 in
  let '(n, x) := if x <=? 0x0000FFFF then (n + 16, u32 (Z.shiftl x 16)) else (n, x) in
  let '(n, x) := if x <=? 0x00FFFFFF then (n + 8, u32 (Z.shiftl x 8)) else (n, x) in
  let '(n, x) := if x <=? 0x0FFFFFFF then (n + 4, u32 (Z.shiftl x 4)) else (n, x) in
  let '(n, x) := if x <=? 0x3FFFFFFF then (n + 2, u32 (Z.shiftl x 2)) else (n, x) in
  if x <=? 0x7FFFFFFF then n + 1 else n.

Definition udiv64 (n d : Z) : outcome Z :=
  if Z.shiftr d 32 =? 0 then
    let b := 2 ^ 32 in
    let n1 := u32 (Z.shiftr n 32) in
    let n0 := u32 n in
    let d0 := u32 d in
    if d0 =? 0 then Fault DivideError
    else
      let? q := divl (u64 (b * (n1 mod d0) + n0)) d0 in
      Done (u64 (q + u64 (b * (n1 / d0))))
  else if n <? d then Done 0
  else
    let d1 := u32 (Z.shiftr d 32) in
    let s := nlz d1 in
    let? q1 := divl (Z.shiftr n 1) (u32 (Z.shiftr (u64 (Z.shiftl d s)) 32)) in
    let q := Z.shiftr q1 (31 - s) in
    Done (if u64 (n - u64 (u64 (q - 1) * d)) <? d then u64 (q - 1) else q).

Definition umod64 (n d : Z) : outcome Z :=
  let? q := udiv64 n d in
  Done (u32 (u64 (n - u64 (d * q)))).

Definition sdiv64 (n d : Z) : outcome Z :=
  let n_abs := if 0 <=? n then u64 n else u64 (- u64 n) in
  let d_abs := if 0 <=? d then u64 d else u64 (- u64 d) in
  let? q_abs := udiv64 n_abs d_abs in
  Done (if eqb (n <? 0) (d <? 0) then i64 q_abs else i64 (- i64 q_abs)).

Definition smod64 (n d : Z) : outcome Z :=
  let? q := sdiv64 n d in
  Done (i32 (i64 (n - i64 (d * q)))).

Definition divdi3 (n d : Z) : outcome Z := sdiv64 n d.
Definition moddi3 (n d : Z) : outcome Z := smod64 n d.
Definition udivdi3 (n d : Z) : outcome Z := udiv64 n d.
Definition umoddi3 (n d : Z) : outcome Z := umod64 n d.

(** ** The DIVL instruction and the leading-zero count *)

Lemma divl_done n d :
  is_u64 n -> 0 < d -> n / d < 2 ^ 32 -> divl n d = Done (n / d).
Proof.
  unfold is_u64. intros Hn Hd Hq. unfold divl.
  assert (u32 (Z.shiftr n 32) * 2 ^ 32 + u32 n = n) as ->.
  { unfold u32. rewrite Z.shiftr_div_pow2 by lia.
    rewrite (Z.mod_small (n / 2 ^ 32)).
    - pose proof (Z.div_mod n (2 ^ 32)). lia.
    - split; [apply Z.div_pos; lia | apply Z.div_lt_upper_bound; lia]. }
  destruct (Z.eqb_spec d 0); [lia|].
  destruct (Z.leb_spec (2 ^ 32) (n / d)); [lia | done].
Qed.

(** One step of the binary search: the top [w] bits are clear, so shifting by
    [w] loses nothing. *)
Lemma nlz_shift x w k :
  0 < w < 32 -> 0 <= k -> 0 < x < 2 ^ (32 - w) -> u32 (Z.shiftl x w) = x * 2 ^ w.
Proof.
  intros Hw Hk Hx. rewrite Z.shiftl_mul_pow2 by lia. apply u32_small.
  assert (2 ^ 32 = 2 ^ (32 - w) * 2 ^ w) as E.
  { rewrite <- Z.pow_add_r by lia. f_equal. lia. }
  pose proof (Z.pow_pos_nonneg 2 w). nia.
Qed.

Lemma nlz_spec x :
  0 < x < 2 ^ 32 -> 0 <= nlz x <= 31 /\ 2 ^ 31 <= x * 2 ^ nlz x < 2 ^ 32.
Proof.
  intros Hx. unfold nlz.
  destruct (Z.leb_spec x 0x0000FFFF); [rewrite (nlz_shift x 16 0) by lia|];
  match goal with |- context [if ?a <=? 0x00FFFFFF then _ else _] =>
    destruct (Z.leb_spec a 0x00FFFFFF); [rewrite (nlz_shift a 8 0) by lia|] end;
  match goal with |- context [if ?a <=? 0x0FFFFFFF then _ else _] =>
    destruct (Z.leb_spec a 0x0FFFFFFF); [rewrite (nlz_shift a 4 0) by lia|] end;
  match goal with |- context [if ?a <=? 0x3FFFFFFF then _ else _] =>
    destruct (Z.leb_spec a 0x3FFFFFFF); [rewrite (nlz_shift a 2 0) by lia|] end;
  match goal with |- context [if ?a <=? 0x7FFFFFFF then _ else _] =>
    destruct (Z.leb_spec a 0x7FFFFFFF) end; lia.
Qed.

(** ** The two-step quotient

    With [m = 2 ^ (32 - s)], [d' = d / m] is the top half of the normalised
    divisor and the estimate is [q = (n / 2) / (d' * (m / 2))]: never below the
    true quotient and at most one above it. *)

Lemma estimate_bounds n d m :
  0 <= n < 2 ^ 64 -> 0 < d -> 2 <= m -> (2 | m) -> (m = 2 \/ 4 <= m) ->
  2 ^ 31 <= d / m ->
  n / d <= (n / 2) / (d / m * (m / 2)) <= n / d + 1.
Proof.
  intros Hn Hd Hm [h ->] Hm' Hd'.
  rewrite (Z.div_mul h 2) by lia.
  assert (0 < h) as Hh by lia.
  pose proof (Z.div_mod d (h * 2)) as Ed.
  pose proof (Z.mod_pos_bound d (h * 2)) as Hr.
  set (d' := d / (h * 2)) in *. set (r := d mod (h * 2)) in *.
  pose proof (Z.div_mod n d) as En. pose proof (Z.mod_pos_bound n d) as Hrn.
  set (Q := n / d) in *. pose proof (Z.div_mod n 2) as E2.
  pose proof (Z.mod_pos_bound n 2) as H2. set (u := n / 2) in *.
  assert (0 < d' * h) as Hpos by nia.
  assert (0 <= Q) as HQ by (apply Z.div_pos; lia).
  split.
  - apply Z.div_le_lower_bound; [done|]. nia.
  - assert (u / (d' * h) < Q + 2); [|lia].
    apply Z.div_lt_upper_bound; [done|].
    destruct (Z.lt_ge_cases u (d' * h * (Q + 2))) as [|Hge]; [done|exfalso].
    assert (d' * (h * 2) < (Q + 1) * r) as Hlt by nia.
    assert (Q * (d' * (h * 2)) < 2 ^ 64) as HQd by nia.
    assert (d' < Q + 1) as HdQ.
    { apply Z.nle_gt. intros ?.
      assert ((Q + 1) * r <= (Q + 1) * (h * 2)) by (apply Z.mul_le_mono_nonneg_l; lia).
      assert ((Q + 1) * (h * 2) <= d' * (h * 2)) by (apply Z.mul_le_mono_nonneg_r; lia).
      lia. }
    destruct Hm' as [Hm2|Hm4].
    + assert (h = 1) as -> by lia.
      assert ((Q + 1) * r <= (Q + 1) * 1) by (apply Z.mul_le_mono_nonneg_l; lia).
      assert (2 ^ 32 * 2 ^ 32 <= Q * (d' * (1 * 2)))
        by (apply Z.mul_le_mono_nonneg; lia).
      lia.
    + assert (2 ^ 31 * 4 <= d' * (h * 2)) by (apply Z.mul_le_mono_nonneg; lia).
      assert (2 ^ 31 * (2 ^ 31 * 4) <= Q * (d' * (h * 2)))
        by (apply Z.mul_le_mono_nonneg; lia).
      lia.
Qed.

Lemma shift_div d s :
  0 <= s <= 31 -> d * 2 ^ s / 2 ^ 32 = d / 2 ^ (32 - s).
Proof.
  intros Hs. replace (2 ^ 32) with (2 ^ (32 - s) * 2 ^ s).
  - apply Z.div_mul_cancel_r; apply Z.pow_nonzero; lia.
  - rewrite <- Z.pow_add_r by lia. f_equal. lia.
Qed.

(** Normalising a divisor of more than 32 bits: its top word becomes a 32-bit
    number with the high bit set, and nothing is shifted out. *)
Lemma normalised d s :
  2 ^ 32 <= d < 2 ^ 64 -> s = nlz (d / 2 ^ 32) ->
  0 <= s <= 31 /\ d * 2 ^ s < 2 ^ 64 /\ 2 ^ 31 <= d / 2 ^ (32 - s) < 2 ^ 32.
Proof.
  intros Hd ->.
  assert (0 < d / 2 ^ 32 < 2 ^ 32) as Hd1.
  { split; [apply Z.div_str_pos; lia | apply Z.div_lt_upper_bound; lia]. }
  pose proof (nlz_spec _ Hd1) as [Hs Hn]. set (s := nlz (d / 2 ^ 32)) in *.
  assert (0 < 2 ^ s) as Hp by (apply Z.pow_pos_nonneg; lia).
  assert (2 ^ 32 = 2 ^ (32 - s) * 2 ^ s) as E32.
  { rewrite <- Z.pow_add_r by lia. f_equal. lia. }
  assert (d * 2 ^ s < 2 ^ 64) as Hlt.
  { pose proof (Z.div_mod d (2 ^ 32)). pose proof (Z.mod_pos_bound d (2 ^ 32)).
    assert (d / 2 ^ 32 + 1 <= 2 ^ (32 - s)) by nia.
    assert (d < 2 ^ (32 - s) * 2 ^ 32) by nia.
    replace (2 ^ 64) with (2 ^ (32 - s) * 2 ^ 32 * 2 ^ s) by nia. nia. }
  split; [done|]. split; [done|]. rewrite <- shift_div by done. split.
  - apply Z.div_le_lower_bound; [lia|].
    pose proof (Z.mul_div_le d (2 ^ 32)). nia.
  - apply Z.div_lt_upper_bound; lia.
Qed.

Lemma udiv64_short n d :
  is_u64 n -> 0 < d < 2 ^ 32 -> udiv64 n d = Done (n / d).
Proof.
  unfold is_u64. intros Hn Hd. unfold udiv64.
  rewrite !Z.shiftr_div_pow2 by lia. rewrite (Z.div_small d) by lia.
  change (0 =? 0) with true. cbv iota zeta. rewrite (u32_small d) by lia.
  destruct (Z.eqb_spec d 0) as [|_]; [lia|].
  rewrite (u32_small (n / 2 ^ 32))
    by (split; [apply Z.div_pos; lia | apply Z.div_lt_upper_bound; lia]).
  set (n1 := n / 2 ^ 32). unfold u32 at 1. set (n0 := n mod 2 ^ 32).
  assert (0 <= n1 < 2 ^ 32) as Hn1
    by (split; [apply Z.div_pos; lia | apply Z.div_lt_upper_bound; lia]).
  assert (0 <= n0 < 2 ^ 32) as Hn0 by (apply Z.mod_pos_bound; lia).
  assert (n = 2 ^ 32 * n1 + n0) as En by (apply Z.div_mod; lia).
  pose proof (Z.mod_pos_bound n1 d ltac:(lia)) as Hm.
  assert (2 ^ 32 * (n1 mod d) + n0 < 2 ^ 32 * d) as Hx by nia.
  rewrite u64_small by nia. rewrite divl_done.
  - simpl. pose proof (Z.div_mod n1 d ltac:(lia)) as E1.
    assert (0 <= n1 / d <= n1) by (split; [apply Z.div_pos; lia | apply Z.div_le_upper_bound; nia]).
    assert (n / d = (2 ^ 32 * (n1 mod d) + n0) / d + 2 ^ 32 * (n1 / d)) as Eq.
    { rewrite <- Z.div_add by lia. f_equal. lia. }
    assert (0 <= n / d <= n) by (split; [apply Z.div_pos; lia | apply Z.div_le_upper_bound; nia]).
    assert (0 <= (2 ^ 32 * (n1 mod d) + n0) / d) by (apply Z.div_pos; lia).
    f_equal. rewrite (u64_small (2 ^ 32 * (n1 / d))) by lia. rewrite u64_small; lia.
  - unfold is_u64. nia.
  - lia.
  - apply Z.div_lt_upper_bound; lia.
Qed.

Lemma udiv64_long n d :
  is_u64 n -> 2 ^ 32 <= d < 2 ^ 64 -> udiv64 n d = Done (n / d).
Proof.
  unfold is_u64. intros Hn Hd. unfold udiv64.
  rewrite !(Z.shiftr_div_pow2 d) by lia.
  assert (0 < d / 2 ^ 32 < 2 ^ 32) as Hd1
    by (split; [apply Z.div_str_pos; lia | apply Z.div_lt_upper_bound; lia]).
  destruct (Z.eqb_spec (d / 2 ^ 32) 0) as [|_]; [lia|].
  destruct (Z.ltb_spec n d) as [|Hnd]; [by rewrite Z.div_small by lia|].
  cbv zeta. rewrite (u32_small (d / 2 ^ 32)) by lia.
  destruct (normalised d _ Hd eq_refl) as (Hs & Hlt & Hv).
  set (s := nlz (d / 2 ^ 32)) in *.
  assert (0 < 2 ^ s) by (apply Z.pow_pos_nonneg; lia).
  rewrite (Z.shiftl_mul_pow2 d s) by lia. rewrite u64_small by nia.
  rewrite (Z.shiftr_div_pow2 (d * 2 ^ s)), shift_div, u32_small by lia.
  rewrite (Z.shiftr_div_pow2 n 1) by lia. change (2 ^ 1) with 2.
  assert (0 <= n / 2 < 2 ^ 63) as Hn2
    by (split; [apply Z.div_pos; lia | apply Z.div_lt_upper_bound; lia]).
  rewrite divl_done; [|unfold is_u64; lia|lia|apply Z.div_lt_upper_bound; nia].
  simpl obind. rewrite Z.shiftr_div_pow2 by lia.
  rewrite Z.div_div by lia.
  assert (2 ^ (32 - s) = 2 ^ (31 - s) * 2) as Em.
  { rewrite <- (Z.pow_1_r 2) at 3. rewrite <- Z.pow_add_r by lia. f_equal. lia. }
  assert (0 < 2 ^ (31 - s)) as Hp by (apply Z.pow_pos_nonneg; lia).
  pose proof (estimate_bounds n d (2 ^ (32 - s)) ltac:(lia) ltac:(lia)
    ltac:(lia) ltac:(exists (2 ^ (31 - s)); lia) ltac:(lia) ltac:(lia)) as He.
  rewrite Em, Z.div_mul, <- Em in He by lia.
  set (q := n / 2 / (d / 2 ^ (32 - s) * 2 ^ (31 - s))) in *.
  pose proof (Z.div_mod n d) as En. pose proof (Z.mod_pos_bound n d) as Hr.
  assert (1 <= n / d) by (apply Z.div_le_lower_bound; lia).
  assert (n / d <= n) by (apply Z.div_le_upper_bound; nia).
  rewrite (u64_small (q - 1)) by lia.
  assert (q = n / d \/ q = n / d + 1) as [-> | ->] by lia.
  - rewrite (u64_small ((n / d - 1) * d)) by nia. rewrite u64_small by nia.
    destruct (Z.ltb_spec (n - (n / d - 1) * d) d); [nia | done].
  - replace (n / d + 1 - 1) with (n / d) by lia.
    rewrite (u64_small (n / d * d)) by nia. rewrite u64_small by nia.
    destruct (Z.ltb_spec (n - n / d * d) d); [done | nia].
Qed.

Lemma udiv64_done n d :
  is_u64 n -> is_u64 d -> d <> 0 -> udiv64 n d = Done (n / d).
Proof.
  intros Hn Hd Hd0. unfold is_u64 in Hd.
  destruct (Z.lt_ge_cases d (2 ^ 32)); [apply udiv64_short | apply udiv64_long]; auto; lia.
Qed.

(** ** Signed division by way of magnitudes *)

Lemma magnitude n : is_i64 n -> (if 0 <=? n then u64 n else u64 (- u64 n)) = Z.abs n.
Proof.
  unfold is_i64. intros Hn. destruct (Z.leb_spec 0 n).
  - rewrite u64_small; lia.
  - assert (u64 n = n + 2 ^ 64) as ->.
    { unfold u64. rewrite <- (Z.mod_small (n + 2 ^ 64) (2 ^ 64)) by lia.
      by rewrite <- (Z.mod_add n 1 (2 ^ 64)) by lia. }
    unfold u64. rewrite <- (Z.mod_add _ 1 (2 ^ 64)) by lia.
    rewrite Z.mod_small; lia.
Qed.

Lemma quot_magnitude n d :
  d <> 0 ->
  Z.quot n d = if eqb (n <? 0) (d <? 0) then Z.abs n / Z.abs d else - (Z.abs n / Z.abs d).
Proof.
  intros Hd. rewrite (Z.quot_div n d) by done.
  destruct (Z.ltb_spec n 0), (Z.ltb_spec d 0); simpl;
    rewrite ?(Z.sgn_neg n), ?(Z.sgn_neg d), ?(Z.sgn_pos d) by lia; try lia.
  - destruct (Z.eq_dec n 0) as [->|]; [by rewrite Z.div_0_l by lia|].
    rewrite (Z.sgn_pos n) by lia. lia.
  - destruct (Z.eq_dec n 0) as [->|]; [by rewrite Z.div_0_l by lia|].
    rewrite (Z.sgn_pos n) by lia. lia.
Qed.

Lemma i64_opp_i64 q : i64 (- i64 q) = i64 (- q).
Proof.
  unfold i64. f_equal.
  rewrite <- (Z.mod_add (- q + 2 ^ 63) (- - ((q + 2 ^ 63) / 2 ^ 64)) (2 ^ 64)) by lia.
  f_equal. pose proof (Z.div_mod (q + 2 ^ 63) (2 ^ 64)). lia.
Qed.

Lemma sdiv64_done n d :
  is_i64 n -> is_i64 d -> d <> 0 -> sdiv64 n d = Done (i64 (Z.quot n d)).
Proof.
  intros Hn Hd Hd0. unfold sdiv64. rewrite !magnitude by done.
  unfold is_i64 in *. rewrite udiv64_done by (unfold is_u64; lia). simpl.
  rewrite quot_magnitude by done. destruct (eqb _ _); [done|].
  by rewrite i64_opp_i64.
Qed.

Lemma sub_mul_u64 n d : is_u64 n -> is_u64 d -> d <> 0 ->
  u64 (n - u64 (d * (n / d))) = n mod d.
Proof.
  unfold is_u64. intros Hn Hd Hd0.
  pose proof (Z.div_mod n d). pose proof (Z.mod_pos_bound n d).
  assert (0 <= n / d) by (apply Z.div_pos; lia).
  rewrite (u64_small (d * (n / d))) by nia. rewrite u64_small; lia.
Qed.

Lemma sub_mul_i64 n d : is_i64 n -> is_i64 d -> d <> 0 ->
  i64 (n - i64 (d * i64 (Z.quot n d))) = Z.rem n d.
Proof.
  intros Hn Hd Hd0. pose proof (Z.quot_rem n d Hd0) as E.
  assert (is_i64 (Z.rem n d)) as Hr.
  { pose proof (Z.rem_bound_abs n d Hd0). unfold is_i64 in *. lia. }
  rewrite <- (i64_small _ Hr). unfold i64. f_equal.
  set (q := Z.quot n d) in *. set (r := Z.rem n d) in *.
  pose proof (Z.div_mod (q + 2 ^ 63) (2 ^ 64) ltac:(lia)) as Eq.
  set (k := (q + 2 ^ 63) / 2 ^ 64) in *.
  set (q' := (q + 2 ^ 63) mod 2 ^ 64) in *.
  pose proof (Z.div_mod (d * (q' - 2 ^ 63) + 2 ^ 63) (2 ^ 64) ltac:(lia)) as Ed.
  set (j := (d * (q' - 2 ^ 63) + 2 ^ 63) / 2 ^ 64) in *.
  set (p' := (d * (q' - 2 ^ 63) + 2 ^ 63) mod 2 ^ 64) in *.
  rewrite <- (Z.mod_add (r + 2 ^ 63) (j + d * k) (2 ^ 64)) by lia.
  f_equal. assert (q' = q + 2 ^ 63 - 2 ^ 64 * k) as -> by lia. lia.
Qed.

(** ** Properties *)

Lemma divdi3_done n d : is_i64 n -> is_i64 d -> d <> 0 ->
  divdi3 n d = Done (i64 (Z.quot n d)) /\
  (~ (n = - 2 ^ 63 /\ d = -1) -> divdi3 n d = Done (Z.quot n d)).
Proof.
  intros Hn Hd Hd0. unfold divdi3. rewrite sdiv64_done by done. split; [done|].
  intros Hov. f_equal. apply i64_small. unfold is_i64 in *.
  pose proof (Z.quot_rem n d Hd0). pose proof (Z.rem_bound_abs n d Hd0).
  assert (Z.abs (Z.quot n d) * Z.abs d <= Z.abs n).
  { rewrite <- Z.abs_mul. pose proof (Z.mul_quot_le (Z.abs n) (Z.abs d) ltac:(lia) ltac:(lia)).
    rewrite Z.quot_abs in H1 by done. rewrite Z.abs_mul. lia. }
  destruct (Z.eq_dec (Z.abs d) 1); nia.
Qed.

(** C25: 64-bit division agrees with the integers.  For every pair of unsigned
    operands [__udivdi3] returns the exact quotient, and no [DIVL] it issues
    traps; it faults exactly when the divisor is zero.  For signed operands
    [__divdi3] truncates toward zero as C requires, and wraps only for the one
    quotient that does not fit. *)
Theorem division_correct n d n' d' : is_u64 n -> is_u64 d -> is_i64 n' -> is_i64 d' -> d' <> 0 ->
  udivdi3 n d = (if d =? 0 then Fault DivideError else Done (n / d)) /\
  divdi3 n' d' = Done (i64 (Z.quot n' d')) /\
  (~ (n' = - 2 ^ 63 /\ d' = -1) -> divdi3 n' d' = Done (Z.quot n' d')).
Proof.
  intros Hn Hd Hn' Hd' H0. split; [|by apply divdi3_done]. destruct (Z.eqb_spec d 0) as [->|]; [done|]. by apply udiv64_done.
Qed.

Lemma division_correct_witness :
  udivdi3 (2 ^ 64 - 1) (2 ^ 33 + 7) = Done ((2 ^ 64 - 1) / (2 ^ 33 + 7)) /\ divdi3 (- 7 * 2 ^ 40) (2 ^ 33 + 1) = Done (-895).
Proof.
  destruct (division_correct (2 ^ 64 - 1) (2 ^ 33 + 7) (- 7 * 2 ^ 40) (2 ^ 33 + 1)) as (E & _ & E');
    [unfold is_u64; lia | unfold is_u64; lia | unfold is_i64; lia | unfold is_i64; lia | lia |].
  split; [exact E | apply E'; lia].
Defined.

(** The remainder entry points keep only the low 32 bits of the remainder
    ([umod64] and [smod64] return 32-bit types), so [__umoddi3] and [__moddi3]
    are right exactly when the remainder fits in 32 bits. *)
Lemma moddi3_truncates n d n' d' :
  is_u64 n -> is_u64 d -> d <> 0 -> is_i64 n' -> is_i64 d' -> d' <> 0 ->
  umoddi3 n d = Done (u32 (n mod d)) /\
  (umoddi3 n d = Done (n mod d) <-> n mod d < 2 ^ 32) /\
  moddi3 n' d' = Done (i32 (Z.rem n' d')) /\
  (moddi3 n' d' = Done (Z.rem n' d') <-> is_i32 (Z.rem n' d')).
Proof.
  intros Hn Hd Hd0 Hn' Hd' Hd0'.
  assert (umoddi3 n d = Done (u32 (n mod d))) as E1.
  { unfold umoddi3, umod64. rewrite udiv64_done by done. simpl. by rewrite sub_mul_u64. }
  assert (moddi3 n' d' = Done (i32 (Z.rem n' d'))) as E2.
  { unfold moddi3, smod64. rewrite sdiv64_done by done. simpl. by rewrite sub_mul_i64. }
  rewrite E1, E2. unfold is_u64 in *. pose proof (Z.mod_pos_bound n d ltac:(lia)).
  split_and!; try done; split.
  - intros [= <-]. apply u32_range.
  - intros ?. by rewrite u32_small by lia.
  - intros [= <-]. apply i32_range.
  - intros ?. by rewrite i32_small.
Qed.

