(* ===== verification/KList.v ===== *)
(** * lib/kernel/list.c: doubly linked lists

    The heap holds the [struct list_elem] cells the lists are made of, as a
    finite map from addresses to the two links.  A [struct list] at address [l]
    is its two sentinels, [&l->head] and [&l->tail]; cells are read and written
    through their addresses as the C code does, and an access through an unmapped
    address is [BadPointer].  Ordering functions are the caller's, applied to
    element addresses (they read the enclosing structures, never the links).

    Loops take a bound: a list has at most as many elements as the heap has
    cells, so [S (size h)] iterations of a traversal are enough. *)

From stdpp Require Import options.
From S2P Require Import Prelude.

Local Open Scope Z_scope.
Local Open Scope kernel_scope.

(** ** Cells *)

Definition NULL : Z := 0.

Record list_elem := mk_elem { prev : Z; next : Z }.

Abbreviation heap := (gmap Z list_elem).

Definition head (l : Z) : Z := l.
Definition tail (l : Z) : Z := l + 8.

Definition set_prev (a v : Z) (h : heap) : heap :=
  alter (fun n => mk_elem v (next n)) a h.
Definition set_next (a v : Z) (h : heap) : heap :=
  alter (fun n => mk_elem (prev n) v) a h.

Definition load_prev (a : Z) : M heap Z := fun h =>
  match h !! a with Some n => Done (prev n, h) | None => Fault BadPointer end.
Definition load_next (a : Z) : M heap Z := fun h =>
  match h !! a with Some n => Done (next n, h) | None => Fault BadPointer end.
Definition store_prev (a v : Z) : M heap unit := fun h =>
  match h !! a with Some _ => Done (tt, set_prev a v h) | None => Fault BadPointer end.
Definition store_next (a v : Z) : M heap unit := fun h =>
  match h !! a with Some _ => Done (tt, set_next a v h) | None => Fault BadPointer end.

Definition list_fuel : M heap nat := gets (fun h => S (size h)).

(** ** Classification and traversal *)

Definition is_head (elem : Z) : M heap bool :=
  if elem =? NULL then ret false
  else
    let! p := load_prev elem in
    if negb (p =? NULL) then ret false
    else let! n := load_next elem in ret (negb (n =? NULL)).

Definition is_interior (elem : Z) : M heap bool :=
  if elem =? NULL then ret false
  else
    let! p := load_prev elem in
    if p =? NULL then ret false
    else let! n := load_next elem in ret (negb (n =? NULL)).

Definition is_tail (elem : Z) : M heap bool :=
  if elem =? NULL then ret false
  else
    let! p := load_prev elem in
    if p =? NULL then ret false
    else let! n := load_next elem in ret (n =? NULL).

(** [f elem || g elem], evaluated left to right. *)
Definition either (f g : M heap bool) : M heap bool :=
  let! b := f in if b then ret true else g.

Definition list_init (list : Z) : M heap unit :=
  assert (negb (list =? NULL)) ;;
  store_prev (head list) NULL ;;
  store_next (head list) (tail list) ;;
  store_prev (tail list) (head list) ;;
  store_next (tail list) NULL.

Definition list_begin (list : Z) : M heap Z :=
  assert (negb (list =? NULL)) ;; load_next (head list).

Definition list_next (elem : Z) : M heap Z :=
  let! ok := either (is_head elem) (is_interior elem) in
  assert ok ;; load_next elem.

Definition list_end (list : Z) : M heap Z :=
  assert (negb (list =? NULL)) ;; ret (tail list).

Definition list_rbegin (list : Z) : M heap Z :=
  assert (negb (list =? NULL)) ;; load_prev (tail list).

Definition list_prev (elem : Z) : M heap Z :=
  let! ok := either (is_interior elem) (is_tail elem) in
  assert ok ;; load_prev elem.

Definition list_rend (list : Z) : M heap Z :=
  assert (negb (list =? NULL)) ;; ret (head list).

Definition list_head (list : Z) : M heap Z :=
  assert (negb (list =? NULL)) ;; ret (head list).

Definition list_tail (list : Z) : M heap Z :=
  assert (negb (list =? NULL)) ;; ret (tail list).

(** ** Insertion and removal *)

Definition list_insert (before elem : Z) : M heap unit :=
  let! ok := either (is_interior before) (is_tail before) in
  assert ok ;;
  assert (negb (elem =? NULL)) ;;
  let! p := load_prev before in
  store_prev elem p ;;
  store_next elem before ;;
  let! p := load_prev before in
  store_next p elem ;;
  store_prev before elem.

Definition list_splice (before first last : Z) : M heap unit :=
  let! ok := either (is_interior before) (is_tail before) in
  assert ok ;;
  if first =? last then ret tt
  else
    let! last := list_prev last in
    let! ok := is_interior first in
    assert ok ;;
    let! ok := is_interior last in
    assert ok ;;
    let! p := load_prev first in
    let! n := load_next last in
    store_next p n ;;
    let! n := load_next last in
    let! p := load_prev first in
    store_prev n p ;;
    let! p := load_prev before in
    store_prev first p ;;
    store_next last before ;;
    let! p := load_prev before in
    store_next p first ;;
    store_prev before last.

Definition list_push_front (list elem : Z) : M heap unit :=
  let! b := list_begin list in list_insert b elem.

Definition list_push_back (list elem : Z) : M heap unit :=
  let! e := list_end list in list_insert e elem.

Definition list_remove (elem : Z) : M heap Z :=
  let! ok := is_interior elem in
  assert ok ;;
  let! p := load_prev elem in
  let! n := load_next elem in
  store_next p n ;;
  let! n := load_next elem in
  let! p := load_prev elem in
  store_prev n p ;;
  load_next elem.

Definition list_empty (list : Z) : M heap bool :=
  let! b := list_begin list in
  let! e := list_end list in
  ret (b =? e).

Definition list_front (list : Z) : M heap Z :=
  let! e := list_empty list in
  assert (negb e) ;; load_next (head list).

Definition list_back (list : Z) : M heap Z :=
  let! e := list_empty list in
  assert (negb e) ;; load_prev (tail list).

Definition list_pop_front (list : Z) : M heap Z :=
  let! front := list_front list in
  list_remove front ;; ret front.

Definition list_pop_back (list : Z) : M heap Z :=
  let! back := list_back list in
  list_remove back ;; ret back.

Fixpoint list_size_loop (fuel : nat) (list e cnt : Z) : M heap Z :=
  match fuel with
  | O => fail OutOfFuel
  | S fuel =>
      let! stop := list_end list in
      if e =? stop then ret cnt
      else let! e' := list_next e in list_size_loop fuel list e' (u32 (cnt + 1))
  end.

Definition list_size (list : Z) : M heap Z :=
  let! fuel := list_fuel in
  let! e := list_begin list in
  list_size_loop fuel list e 0.

(** ** Reversal *)

(** [swap (&e->prev, &e->next)] on one cell. *)
Definition swap_links (e : Z) : M heap unit :=
  let! p := load_prev e in
  let! n := load_next e in
  store_prev e n ;; store_next e p.

Fixpoint list_reverse_loop (fuel : nat) (list e : Z) : M heap unit :=
  match fuel with
  | O => fail OutOfFuel
  | S fuel =>
      let! stop := list_end list in
      if e =? stop then ret tt
      else
        swap_links e ;;
        let! e' := load_prev e in
        list_reverse_loop fuel list e'
  end.

Definition list_reverse (list : Z) : M heap unit :=
  let! empty := list_empty list in
  if empty then ret tt
  else
    let! fuel := list_fuel in
    let! e := list_begin list in
    list_reverse_loop fuel list e ;;
    let! n := load_next (head list) in
    let! p := load_prev (tail list) in
    store_next (head list) p ;;
    store_prev (tail list) n ;;
    let! n := load_next (head list) in
    let! p := load_prev (tail list) in
    let! np := load_prev n in
    let! pn := load_next p in
    store_prev n pn ;;
    store_next p np.

(** ** Ordered lists *)

Section ordered.
Context (less : Z -> Z -> bool).

Fixpoint is_sorted_loop (fuel : nat) (a b : Z) : M heap bool :=
  match fuel with
  | O => fail OutOfFuel
  | S fuel =>
      let! a := list_next a in
      if a =? b then ret true
      else
        let! p := list_prev a in
        if less a p then ret false else is_sorted_loop fuel a b
  end.

Definition is_sorted (a b : Z) : M heap bool :=
  if a =? b then ret true
  else let! fuel := list_fuel in is_sorted_loop fuel a b.

Fixpoint find_end_of_run_loop (fuel : nat) (a b : Z) : M heap Z :=
  match fuel with
  | O => fail OutOfFuel
  | S fuel =>
      let! a := list_next a in
      if a =? b then ret a
      else
        let! p := list_prev a in
        if less a p then ret a else find_end_of_run_loop fuel a b
  end.

Definition find_end_of_run (a b : Z) : M heap Z :=
  assert (negb (a =? NULL)) ;;
  assert (negb (b =? NULL)) ;;
  assert (negb (a =? b)) ;;
  let! fuel := list_fuel in
  find_end_of_run_loop fuel a b.

Fixpoint inplace_merge_loop (fuel : nat) (a0 a1b0 b1 : Z) : M heap unit :=
  match fuel with
  | O => fail OutOfFuel
  | S fuel =>
      if (a0 =? a1b0) || (a1b0 =? b1) then ret tt
      else if negb (less a1b0 a0) then
        let! a0 := list_next a0 in
        inplace_merge_loop fuel a0 a1b0 b1
      else
        let! a1b0 := list_next a1b0 in
        let! p := list_prev a1b0 in
        list_splice a0 p a1b0 ;;
        inplace_merge_loop fuel a0 a1b0 b1
  end.

Definition inplace_merge (a0 a1b0 b1 : Z) : M heap unit :=
  assert (negb (a0 =? NULL)) ;;
  assert (negb (a1b0 =? NULL)) ;;
  assert (negb (b1 =? NULL)) ;;
  let! ok := is_sorted a0 a1b0 in
  assert ok ;;
  let! ok := is_sorted a1b0 b1 in
  assert ok ;;
  let! fuel := list_fuel in
  inplace_merge_loop fuel a0 a1b0 b1.

(** One pass of [list_sort]: the [for] loop.  Returns [output_run_cnt]. *)
Fixpoint list_sort_pass (fuel : nat) (list a0 output_run_cnt : Z) : M heap Z :=
  match fuel with
  | O => fail OutOfFuel
  | S fuel =>
      let! stop := list_end list in
      if a0 =? stop then ret output_run_cnt
      else
        let output_run_cnt := u32 (output_run_cnt + 1) in
        let! a1b0 := find_end_of_run a0 stop in
        if a1b0 =? stop then ret output_run_cnt
        else
          let! b1 := find_end_of_run a1b0 stop in
          inplace_merge a0 a1b0 b1 ;;
          list_sort_pass fuel list b1 output_run_cnt
  end.

Fixpoint list_sort_loop (fuel : nat) (list : Z) : M heap unit :=
  match fuel with
  | O => fail OutOfFuel
  | S fuel =>
      let! pass_fuel := list_fuel in
      let! a0 := list_begin list in
      let! output_run_cnt := list_sort_pass pass_fuel list a0 0 in
      if 1 <? output_run_cnt then list_sort_loop fuel list else ret tt
  end.

Definition list_sort (list : Z) : M heap unit :=
  assert (negb (list =? NULL)) ;;
  let! fuel := list_fuel in
  list_sort_loop fuel list ;;
  let! b := list_begin list in
  let! e := list_end list in
  let! ok := is_sorted b e in
  assert ok.

Fixpoint insert_ordered_loop (fuel : nat) (list elem e : Z) : M heap Z :=
  match fuel with
  | O => fail OutOfFuel
  | S fuel =>
      let! stop := list_end list in
      if e =? stop then ret e
      else if less elem e then ret e
      else let! e' := list_next e in insert_ordered_loop fuel list elem e'
  end.

Definition list_insert_ordered (list elem : Z) : M heap unit :=
  assert (negb (list =? NULL)) ;;
  assert (negb (elem =? NULL)) ;;
  let! fuel := list_fuel in
  let! b := list_begin list in
  let! e := insert_ordered_loop fuel list elem b in
  list_insert e elem.

Fixpoint list_unique_loop (fuel : nat) (list duplicates elem : Z) : M heap unit :=
  match fuel with
  | O => fail OutOfFuel
  | S fuel =>
      let! next := list_next elem in
      let! stop := list_end list in
      if next =? stop then ret tt
      else if negb (less elem next) && negb (less next elem) then
        list_remove next ;;
        (if negb (duplicates =? NULL) then list_push_back duplicates next else ret tt) ;;
        list_unique_loop fuel list duplicates elem
      else list_unique_loop fuel list duplicates next
  end.

Definition list_unique (list duplicates : Z) : M heap unit :=
  assert (negb (list =? NULL)) ;;
  let! empty := list_empty list in
  if empty then ret tt
  else
    let! fuel := list_fuel in
    let! elem := list_begin list in
    list_unique_loop fuel list duplicates elem.

Fixpoint list_max_loop (fuel : nat) (list max e : Z) : M heap Z :=
  match fuel with
  | O => fail OutOfFuel
  | S fuel =>
      let! stop := list_end list in
      if e =? stop then ret max
      else
        let max := if less max e then e else max in
        let! e' := list_next e in
        list_max_loop fuel list max e'
  end.

Definition list_max (list : Z) : M heap Z :=
  let! max := list_begin list in
  let! stop := list_end list in
  if max =? stop then ret max
  else
    let! fuel := list_fuel in
    let! e := list_next max in
    list_max_loop fuel list max e.

Fixpoint list_min_loop (fuel : nat) (list min e : Z) : M heap Z :=
  match fuel with
  | O => fail OutOfFuel
  | S fuel =>
      let! stop := list_end list in
      if e =? stop then ret min
      else
        let min := if less e min then e else min in
        let! e' := list_next e in
        list_min_loop fuel list min e'
  end.

Definition list_min (list : Z) : M heap Z :=
  let! min := list_begin list in
  let! stop := list_end list in
  if min =? stop then ret min
  else
    let! fuel := list_fuel in
    let! e := list_next min in
    list_min_loop fuel list min e.
End ordered.

(** ** Representation

    [ring h ns]: the cells [ns], sentinels included, are linked in that order.
    [list_rep h l xs]: the list at [l] holds the elements [xs]. *)

Definition nx (h : heap) (a : Z) : option Z := next <$> h !! a.
Definition pv (h : heap) (a : Z) : option Z := prev <$> h !! a.

Definition link (h : heap) (a b : Z) : Prop := nx h a = Some b /\ pv h b = Some a.

Fixpoint chain (h : heap) (ns : list Z) : Prop :=
  match ns with
  | a :: ((b :: _) as t) => link h a b /\ chain h t
  | _ => True
  end.

Definition ring (h : heap) (ns : list Z) : Prop :=
  chain h ns /\ NoDup ns /\ (NULL ∉ ns) /\
  (forall a, list.head ns = Some a -> pv h a = Some NULL) /\
  (forall a, last ns = Some a -> nx h a = Some NULL).

Definition nodes (l : Z) (xs : list Z) : list Z := head l :: xs ++ [tail l].

Definition list_rep (h : heap) (l : Z) (xs : list Z) : Prop := ring h (nodes l xs).

(** Cells outside [ns] are untouched. *)
Definition same_outside (ns : list Z) (h h' : heap) : Prop :=
  forall a, a ∉ ns -> h' !! a = h !! a.

(** ** Cell updates *)

Section cells.
Implicit Types (h : heap) (a b v : Z).

Lemma lookup_set_next h a v b :
  set_next a v h !! b = if decide (a = b) then (fun n => mk_elem (prev n) v) <$> h !! b else h !! b.
Proof. unfold set_next. rewrite lookup_alter. by case_decide; subst. Qed.

Lemma lookup_set_prev h a v b :
  set_prev a v h !! b = if decide (a = b) then (fun n => mk_elem v (next n)) <$> h !! b else h !! b.
Proof. unfold set_prev. rewrite lookup_alter. by case_decide; subst. Qed.

Lemma pv_set_next h a v b : pv (set_next a v h) b = pv h b.
Proof. unfold pv. rewrite lookup_set_next. case_decide; [|done]. by destruct (h !! b). Qed.

Lemma nx_set_prev h a v b : nx (set_prev a v h) b = nx h b.
Proof. unfold nx. rewrite lookup_set_prev. case_decide; [|done]. by destruct (h !! b). Qed.

Lemma nx_set_next_ne h a v b : a <> b -> nx (set_next a v h) b = nx h b.
Proof. intros. unfold nx. rewrite lookup_set_next. by case_decide. Qed.

Lemma pv_set_prev_ne h a v b : a <> b -> pv (set_prev a v h) b = pv h b.
Proof. intros. unfold pv. rewrite lookup_set_prev. by case_decide. Qed.

Lemma nx_set_next_eq h a v : is_Some (h !! a) -> nx (set_next a v h) a = Some v.
Proof. intros [n Hn]. unfold nx. rewrite lookup_set_next, Hn. by case_decide. Qed.

Lemma pv_set_prev_eq h a v : is_Some (h !! a) -> pv (set_prev a v h) a = Some v.
Proof. intros [n Hn]. unfold pv. rewrite lookup_set_prev, Hn. by case_decide. Qed.

Lemma cell_set_next h a v b : is_Some (set_next a v h !! b) <-> is_Some (h !! b).
Proof. rewrite lookup_set_next. case_decide; [apply fmap_is_Some | done]. Qed.

Lemma cell_set_prev h a v b : is_Some (set_prev a v h !! b) <-> is_Some (h !! b).
Proof. rewrite lookup_set_prev. case_decide; [apply fmap_is_Some | done]. Qed.

Lemma nx_cell h a b : nx h a = Some b -> is_Some (h !! a).
Proof. unfold nx. intros H. eapply fmap_is_Some. eauto. Qed.

Lemma pv_cell h a b : pv h a = Some b -> is_Some (h !! a).
Proof. unfold pv. intros H. eapply fmap_is_Some. eauto. Qed.

Lemma size_set_next h a v : size (set_next a v h) = size h.
Proof. unfold set_next. by rewrite <- !size_dom, dom_alter_L. Qed.

Lemma size_set_prev h a v : size (set_prev a v h) = size h.
Proof. unfold set_prev. by rewrite <- !size_dom, dom_alter_L. Qed.

Lemma load_next_ok h a b : nx h a = Some b -> load_next a h = Done (b, h).
Proof. unfold nx, load_next. destruct (h !! a); simpl; naive_solver. Qed.

Lemma load_prev_ok h a b : pv h a = Some b -> load_prev a h = Done (b, h).
Proof. unfold pv, load_prev. destruct (h !! a); simpl; naive_solver. Qed.

Lemma store_next_ok h a v : is_Some (h !! a) -> store_next a v h = Done (tt, set_next a v h).
Proof. unfold store_next. by intros [? ->]. Qed.

Lemma store_prev_ok h a v : is_Some (h !! a) -> store_prev a v h = Done (tt, set_prev a v h).
Proof. unfold store_prev. by intros [? ->]. Qed.
End cells.

Create Rewrite HintDb cells.
#[export] Hint Rewrite pv_set_next nx_set_prev cell_set_next cell_set_prev
  size_set_next size_set_prev : cells.
#[export] Hint Resolve nx_cell pv_cell : kernel.

(** Rewrites links of updated heaps; the disequalities come from the context
    or from [tac]. *)
Ltac cell_step tac :=
  match goal with
  | |- context [pv (set_next _ _ _) _] => rewrite pv_set_next
  | |- context [nx (set_prev _ _ _) _] => rewrite nx_set_prev
  | |- context [nx (set_next ?a _ _) ?a] => rewrite nx_set_next_eq; [|cell_is tac]
  | |- context [pv (set_prev ?a _ _) ?a] => rewrite pv_set_prev_eq; [|cell_is tac]
  | |- context [nx (set_next _ _ _) _] => rewrite nx_set_next_ne by tac
  | |- context [pv (set_prev _ _ _) _] => rewrite pv_set_prev_ne by tac
  end
with cell_is tac :=
  repeat first [rewrite cell_set_next | rewrite cell_set_prev]; solve [eauto with kernel].
Ltac cells tac := repeat (cell_step tac).

(** ** Chains *)

Section chains.
Implicit Types (h : heap) (X Y F ns : list Z) (a b : Z).

Lemma chain_cons h a b Y : chain h (a :: b :: Y) <-> link h a b /\ chain h (b :: Y).
Proof. done. Qed.

Lemma chain_app h X a Y : chain h (X ++ a :: Y) <-> chain h (X ++ [a]) /\ chain h (a :: Y).
Proof.
  induction X as [|x X IH]; simpl; [by intuition idtac|].
  destruct X as [|x' X]; simpl in *; [by intuition idtac|]. rewrite IH. by intuition idtac.
Qed.

(** A chain only reads the forward links of all but its last cell and the back
    links of all but its first. *)
Lemma chain_frame h h' ns :
  NoDup ns ->
  (forall a, a ∈ ns -> last ns <> Some a -> nx h' a = nx h a) ->
  (forall a, a ∈ ns -> list.head ns <> Some a -> pv h' a = pv h a) ->
  chain h ns -> chain h' ns.
Proof.
  induction ns as [|a [|b ns] IH]; [done | done |].
  intros Hnd Hn Hp [[Hab Hba] Hc]. apply NoDup_cons in Hnd as [Ha Hnd].
  split; [split|].
  - rewrite Hn; [done | set_solver |]. intros Hl. apply Ha.
    change (last (b :: ns) = Some a) in Hl. by apply last_Some_elem_of.
  - rewrite Hp; [done | set_solver |]. simpl. intros [= ->]. set_solver.
  - apply IH; [done | | | done].
    + intros x Hx Hl. apply Hn; [set_solver | done].
    + intros x Hx Hh. apply Hp; [set_solver |]. simpl. intros [= ->]. set_solver.
Qed.
End chains.

(** ** Surgery on rings *)

Definition cut (h : heap) (a b : Z) : heap := set_prev b a (set_next a b h).

Definition paste (h : heap) (a b f l : Z) : heap :=
  set_prev b l (set_next a f (set_next l b (set_prev f a h))).

Section rings.
Implicit Types (h : heap) (X Y F ns : list Z) (a b f l : Z).

Lemma ring_link h X a b Y : ring h (X ++ a :: b :: Y) -> link h a b.
Proof. intros [Hc _]. rewrite chain_app, chain_cons in Hc. tauto. Qed.

Lemma ring_nonnull h ns a : ring h ns -> a ∈ ns -> a <> NULL.
Proof. intros (_ & _ & H & _) ? ->. done. Qed.

Lemma ring_last h X a : ring h (X ++ [a]) -> nx h a = Some NULL.
Proof. intros (_ & _ & _ & _ & H). apply H, last_snoc. Qed.

Lemma ring_head h a X : ring h (a :: X) -> pv h a = Some NULL.
Proof. intros (_ & _ & _ & H & _). by apply H. Qed.

Lemma ring_cell h ns a : ring h ns -> a ∈ ns -> is_Some (h !! a).
Proof.
  intros Hr Ha. apply list_elem_of_split in Ha as (X & Y & ->).
  destruct Y as [|b Y]; [by eapply nx_cell, ring_last|].
  eapply nx_cell. by eapply (proj1 (ring_link _ _ _ _ _ Hr)).
Qed.

Lemma nodup_mid X a F b Y :
  NoDup (X ++ a :: F ++ b :: Y) ->
  NoDup (X ++ [a]) /\ NoDup F /\ NoDup (b :: Y) /\ a <> b /\
  (forall x, x ∈ F -> (x ∉ X) /\ x <> a /\ x <> b /\ (x ∉ Y)) /\
  (a ∉ X) /\ (a ∉ Y) /\ (b ∉ X) /\ (b ∉ Y) /\ (forall x, x ∈ X -> x ∉ Y).
Proof.
  rewrite NoDup_app, NoDup_cons, NoDup_app. intros (H1 & H2 & H3 & H4 & H5 & H6).
  rewrite NoDup_app. apply NoDup_cons in H6 as H7.
  split_and!; try done; try apply NoDup_singleton; set_solver.
Qed.

Lemma nodup_insert X a F b Y :
  NoDup (X ++ a :: b :: Y) -> NoDup F ->
  (forall x, x ∈ F -> x ∉ X ++ a :: b :: Y) -> NoDup (X ++ a :: F ++ b :: Y).
Proof.
  rewrite !NoDup_app, !NoDup_cons, NoDup_app, NoDup_cons.
  intros (H1 & H2 & H3 & H4 & H5) HF Hd. split_and!; try done; set_solver.
Qed.

Lemma cut_ring h X a F b Y :
  ring h (X ++ a :: F ++ b :: Y) ->
  ring (cut h a b) (X ++ a :: b :: Y) /\ chain (cut h a b) F.
Proof.
  intros Hr. pose proof Hr as (Hc & Hnd & H0 & Hh & Hl).
  pose proof (nodup_mid _ _ _ _ _ Hnd) as (N1 & N2 & N3 & Nab & NF & Na1 & Na2 & Nb1 & Nb2 & NXY).
  assert (is_Some (h !! a)) as Ca by (eapply ring_cell; [done | set_solver]).
  assert (is_Some (h !! b)) as Cb by (eapply ring_cell; [done | set_solver]).
  rewrite chain_app in Hc. destruct Hc as [Hc1 Hc2].
  change (a :: F ++ b :: Y) with ((a :: F) ++ b :: Y) in Hc2.
  rewrite chain_app in Hc2. destruct Hc2 as [Hc2 Hc3].
  assert (forall x, x <> a -> nx (cut h a b) x = nx h x) as Fn.
  { intros x ?. unfold cut. cells congruence. done. }
  assert (forall x, x <> b -> pv (cut h a b) x = pv h x) as Fp.
  { intros x ?. unfold cut. cells congruence. done. }
  split.
  - split_and!.
    + rewrite chain_app, chain_cons. split_and!.
      * eapply chain_frame; [done | | | done].
        -- intros x Hx Hne. apply Fn. intros ->. by rewrite last_snoc in Hne.
        -- intros x Hx _. apply Fp. set_solver.
      * unfold cut. split; cells congruence; done.
      * eapply chain_frame; [done | | | done].
        -- intros x Hx _. apply Fn. set_solver.
        -- intros x Hx Hne. apply Fp. intros ->. by destruct Hne.
    + change (X ++ a :: b :: Y) with (X ++ a :: [] ++ b :: Y).
      rewrite NoDup_app, NoDup_cons. apply NoDup_app in N1 as (? & ? & ?).
      split_and!; [done | set_solver | set_solver | done].
    + set_solver.
    + intros x Hx. rewrite Fp; [apply Hh | intros ->]; destruct X; simplify_eq/=; set_solver.
    + intros x Hx. rewrite last_app_cons in Hx, Hl.
      change (last (b :: Y) = Some x) in Hx.
      rewrite app_comm_cons, last_app_cons in Hl.
      rewrite Fn; [by apply Hl | intros ->].
      apply last_Some_elem_of in Hx. clear -Hx Nab Na2. set_solver.
  - destruct F as [|f F]; [done|]. destruct Hc2 as [_ Hc2].
    rewrite <- app_comm_cons, app_comm_cons in Hc2.
    destruct (exists_last (l := f :: F)) as (F' & z & EF); [done|].
    rewrite EF in *. rewrite <- app_assoc in Hc2. simpl in Hc2.
    rewrite chain_app in Hc2. destruct Hc2 as [Hc2 _].
    eapply chain_frame; [done | | | done]; intros x Hx _; [apply Fn | apply Fp]; set_solver.
Qed.

Lemma paste_ring h X a b Y F f l :
  ring h (X ++ a :: b :: Y) -> chain h F -> NoDup F ->
  list.head F = Some f -> last F = Some l ->
  (forall x, x ∈ F -> x ∉ X ++ a :: b :: Y) ->
  (forall x, x ∈ F -> is_Some (h !! x)) -> (NULL ∉ F) ->
  ring (paste h a b f l) (X ++ a :: F ++ b :: Y).
Proof.
  intros Hr HcF HdF Hf Hl Hdisj Hcell H0F.
  pose proof Hr as (Hc & Hnd & H0 & Hh & Hla).
  pose proof (nodup_insert _ _ _ _ _ Hnd HdF Hdisj) as Hnd'.
  pose proof (nodup_mid _ _ _ _ _ Hnd') as (N1 & N2 & N3 & Nab & NF & Na1 & Na2 & Nb1 & Nb2 & NXY).
  assert (is_Some (h !! a)) as Ca by (eapply ring_cell; [done | set_solver]).
  assert (is_Some (h !! b)) as Cb by (eapply ring_cell; [done | set_solver]).
  pose proof (head_Some_elem_of _ _ Hf) as Hfin.
  pose proof (last_Some_elem_of _ _ Hl) as Hlin.
  pose proof (Hcell f Hfin) as Cf. pose proof (Hcell l Hlin) as Cl.
  pose proof (NF f Hfin) as (HfX & Hfa & Hfb & HfY).
  pose proof (NF l Hlin) as (HlX & Hla' & Hlb & HlY).
  rewrite chain_app, chain_cons in Hc. destruct Hc as (Hc1 & _ & Hc3).
  assert (forall x, x <> a -> x <> l -> nx (paste h a b f l) x = nx h x) as Fn.
  { intros x ??. unfold paste. cells congruence. done. }
  assert (forall x, x <> b -> x <> f -> pv (paste h a b f l) x = pv h x) as Fp.
  { intros x ??. unfold paste. cells congruence. done. }
  assert (chain (paste h a b f l) F) as HcF'.
  { eapply chain_frame; [done | | | done]; intros x Hx Hne; [apply Fn | apply Fp];
      try congruence; intros ->; set_solver. }
  assert (link (paste h a b f l) a f) as Laf by (unfold paste; split; cells congruence; done).
  assert (link (paste h a b f l) l b) as Llb by (unfold paste; split; cells congruence; done).
  split_and!; [| done | set_solver | |].
  - rewrite chain_app. split.
    + eapply chain_frame; [done | | | done].
      * intros x Hx Hne. apply Fn; [intros ->; by rewrite last_snoc in Hne | set_solver].
      * intros x Hx _. apply Fp; set_solver.
    + destruct F as [|f' F']; [done|]. injection Hf as ->.
      rewrite <- app_comm_cons, chain_cons. split; [done|].
      apply last_Some in Hl as [F'' EF]. rewrite app_comm_cons, EF.
      rewrite <- app_assoc. simpl. rewrite chain_app, chain_cons. rewrite <- EF.
      split_and!; [done | done |].
      eapply chain_frame; [done | | | done].
      * intros x Hx _. apply Fn; set_solver.
      * intros x Hx Hne. apply Fp; [intros ->; by destruct Hne | set_solver].
  - intros x Hx. rewrite Fp; [apply Hh | |]; [|intros ->..]; destruct X; simplify_eq/=; set_solver.
  - intros x Hx. rewrite last_app_cons in Hx, Hla.
    rewrite app_comm_cons, last_app_cons in Hx.
    rewrite Fn; [by apply Hla | intros -> | intros ->];
      apply last_Some_elem_of in Hx; clear -Hx Nab Na2 Hlb HlY; set_solver.
Qed.

Lemma cut_outside h a b : same_outside [a; b] h (cut h a b).
Proof.
  intros x Hx. unfold cut. rewrite lookup_set_prev, lookup_set_next.
  repeat case_decide; set_solver.
Qed.

Lemma paste_outside h a b f l : same_outside [a; b; f; l] h (paste h a b f l).
Proof.
  intros x Hx. unfold paste. rewrite lookup_set_prev, !lookup_set_next, lookup_set_prev.
  repeat case_decide; set_solver.
Qed.

Lemma cut_size h a b : size (cut h a b) = size h.
Proof. unfold cut. by autorewrite with cells. Qed.

Lemma paste_size h a b f l : size (paste h a b f l) = size h.
Proof. unfold paste. by autorewrite with cells. Qed.
End rings.

(** ** Primitive operations on rings *)

Ltac mload := erewrite bind_done;
  [| first [apply load_next_ok | apply load_prev_ok]; solve [eauto with kernel] ].

Section prims.
Implicit Types (h : heap) (X Y F ns : list Z) (a b e f l x y : Z).

Lemma nonnull_eqb a : a <> NULL -> (a =? NULL) = false.
Proof. by intros ?%Z.eqb_neq. Qed.

Lemma is_interior_run h a p n :
  a <> NULL -> pv h a = Some p -> nx h a = Some n ->
  is_interior a h = Done (negb (p =? NULL) && negb (n =? NULL), h).
Proof.
  intros Ha Hp Hn. unfold is_interior. rewrite nonnull_eqb by done.
  mload. destruct (p =? NULL); [done|]. mload. done.
Qed.

Lemma is_tail_run h a p n :
  a <> NULL -> pv h a = Some p -> nx h a = Some n ->
  is_tail a h = Done (negb (p =? NULL) && (n =? NULL), h).
Proof.
  intros Ha Hp Hn. unfold is_tail. rewrite nonnull_eqb by done.
  mload. destruct (p =? NULL); [done|]. mload. done.
Qed.

Lemma is_head_run h a p n :
  a <> NULL -> pv h a = Some p -> nx h a = Some n ->
  is_head a h = Done ((p =? NULL) && negb (n =? NULL), h).
Proof.
  intros Ha Hp Hn. unfold is_head. rewrite nonnull_eqb by done.
  mload. destruct (p =? NULL); simpl; [|done]. mload. done.
Qed.

Lemma ring_pv h X x y Y : ring h (X ++ x :: y :: Y) -> pv h y = Some x.
Proof. intros Hr. by apply ring_link in Hr as [_ ?]. Qed.

Lemma ring_nx h X x y Y : ring h (X ++ x :: y :: Y) -> nx h x = Some y.
Proof. intros Hr. by apply ring_link in Hr as [? _]. Qed.

(** The link after a non-first cell, at the end of the ring or inside it. *)
Lemma ring_nx_any h X x y Y :
  ring h (X ++ x :: y :: Y) -> exists n, nx h y = Some n /\ (n = NULL <-> Y = []).
Proof.
  intros Hr. destruct Y as [|z Y].
  - exists NULL. split; [|done].
    apply (ring_last h (X ++ [x])). by rewrite <- app_assoc.
  - exists z. change (x :: y :: z :: Y) with ([x] ++ y :: z :: Y) in Hr.
    rewrite app_assoc in Hr. split; [by eapply ring_nx|].
    split; [|done]. intros ->. by eapply (ring_nonnull _ _ NULL) in Hr; [|set_solver].
Qed.

Lemma ring_pv_any h X x y Y :
  ring h (X ++ x :: y :: Y) -> exists p, pv h x = Some p /\ (p = NULL <-> X = []).
Proof.
  intros Hr. destruct X as [|z X] using rev_ind.
  - exists NULL. split; [by eapply ring_head | done].
  - exists z. rewrite <- app_assoc in Hr. simpl in Hr. split; [by eapply ring_pv|].
    split; [|intros E; by destruct X]. intros ->. by eapply (ring_nonnull _ _ NULL) in Hr; [|set_solver].
Qed.

Lemma insertable h X x y Y :
  ring h (X ++ x :: y :: Y) -> either (is_interior y) (is_tail y) h = Done (true, h).
Proof.
  intros Hr. destruct (ring_nx_any _ _ _ _ _ Hr) as (n & Hn & _).
  pose proof (ring_pv _ _ _ _ _ Hr) as Hp.
  assert (y <> NULL) as Hy by (eapply ring_nonnull; [done | set_solver]).
  assert (x <> NULL) as Hx by (eapply ring_nonnull; [done | set_solver]).
  unfold either. erewrite bind_done by by eapply is_interior_run.
  rewrite nonnull_eqb by done. destruct (Z.eqb_spec n NULL); simpl; [|done].
  erewrite is_tail_run by done. rewrite nonnull_eqb by done. by subst n.
Qed.

Lemma removable h X x y z Y :
  ring h (X ++ x :: y :: z :: Y) -> is_interior y h = Done (true, h).
Proof.
  intros Hr. pose proof (ring_pv _ _ _ _ _ Hr) as Hp.
  assert (nx h y = Some z) as Hn.
  { change (x :: y :: z :: Y) with ([x] ++ y :: z :: Y) in Hr.
    rewrite app_assoc in Hr. by eapply ring_nx. }
  erewrite is_interior_run; [| |done|done].
  - rewrite !nonnull_eqb; [done | |]; (eapply ring_nonnull; [done | set_solver]).
  - eapply ring_nonnull; [done | set_solver].
Qed.

Lemma list_next_run h X x y Y :
  ring h (X ++ x :: y :: Y) -> list_next x h = Done (y, h).
Proof.
  intros Hr. destruct (ring_pv_any _ _ _ _ _ Hr) as (p & Hp & _).
  pose proof (ring_nx _ _ _ _ _ Hr) as Hn.
  assert (y <> NULL) as Hy by (eapply ring_nonnull; [done | set_solver]).
  assert (x <> NULL) as Hx by (eapply ring_nonnull; [done | set_solver]).
  unfold list_next, either. rewrite (bind_done _ _ h true h).
  - rewrite assert_true by done. by apply load_next_ok.
  - erewrite bind_done by by eapply is_head_run. rewrite (nonnull_eqb y) by done.
    destruct (p =? NULL) eqn:Ep; simpl; [done|].
    erewrite is_interior_run by done. by rewrite Ep, nonnull_eqb.
Qed.

Lemma list_prev_run h X x y Y :
  ring h (X ++ x :: y :: Y) -> list_prev y h = Done (x, h).
Proof.
  intros Hr. unfold list_prev. erewrite bind_done by by eapply insertable.
  rewrite assert_true by done. by eapply load_prev_ok, ring_pv.
Qed.

Lemma list_insert_run h X a b Y e :
  ring h (X ++ a :: b :: Y) -> (e ∉ X ++ a :: b :: Y) -> e <> NULL -> is_Some (h !! e) ->
  list_insert b e h = Done (tt, paste h a b e e).
Proof.
  intros Hr He He0 Hc. pose proof (ring_pv _ _ _ _ _ Hr) as Hp.
  assert (e <> b) by set_solver. assert (e <> a) by set_solver.
  assert (is_Some (h !! a)) by (eapply ring_cell; [done | set_solver]).
  assert (is_Some (h !! b)) by (eapply ring_cell; [done | set_solver]).
  unfold list_insert. erewrite bind_done by by eapply insertable.
  rewrite assert_true by done. rewrite assert_true by by rewrite nonnull_eqb.
  mload. rewrite (bind_done _ _ _ _ _ (store_prev_ok _ _ _ Hc)).
  erewrite bind_done by (apply store_next_ok; by rewrite cell_set_prev).
  erewrite bind_done by (apply load_prev_ok; cells congruence; done).
  erewrite bind_done by (apply store_next_ok; by rewrite cell_set_next, cell_set_prev).
  by rewrite store_prev_ok by by rewrite !cell_set_next, cell_set_prev.
Qed.

Lemma list_remove_run h X a e b Y :
  ring h (X ++ a :: e :: b :: Y) -> list_remove e h = Done (b, cut h a b).
Proof.
  intros Hr. pose proof (ring_pv _ _ _ _ _ Hr) as Hp.
  pose proof Hr as (_ & Hnd & _).
  apply (nodup_mid X a [e] b Y) in Hnd as (_ & _ & _ & Hab & HF & _).
  destruct (HF e) as (_ & Hea & Heb & _); [set_solver|].
  assert (nx h e = Some b) as Hn.
  { change (a :: e :: b :: Y) with ([a] ++ e :: b :: Y) in Hr.
    rewrite app_assoc in Hr. by eapply ring_nx. }
  assert (is_Some (h !! a)) by (eapply ring_cell; [done | set_solver]).
  assert (is_Some (h !! b)) by (eapply ring_cell; [done | set_solver]).
  unfold list_remove. erewrite bind_done by by eapply removable.
  rewrite assert_true by done. mload. mload.
  erewrite bind_done by by apply store_next_ok.
  erewrite bind_done by (apply load_next_ok; cells congruence; done).
  erewrite bind_done by (apply load_prev_ok; cells congruence; done).
  erewrite bind_done by (apply store_prev_ok; by rewrite cell_set_next).
  unfold cut. apply load_next_ok. cells congruence. done.
Qed.

Lemma list_splice_run h X a F b Y f l X' a' before Y' :
  ring h (X ++ a :: F ++ b :: Y) -> list.head F = Some f -> last F = Some l ->
  either (is_interior before) (is_tail before) h = Done (true, h) ->
  ring (cut h a b) (X' ++ a' :: before :: Y') ->
  (forall x, x ∈ F -> x ∉ X' ++ a' :: before :: Y') ->
  list_splice before f b h = Done (tt, paste (cut h a b) a' before f l).
Proof.
  intros Hr Hf Hl Hins Hr' Hdisj.
  pose proof (head_Some_elem_of _ _ Hf) as Hfin. pose proof (last_Some_elem_of _ _ Hl) as Hlin.
  pose proof Hr as (_ & Hnd & _).
  apply nodup_mid in Hnd as (_ & _ & _ & Hab & HF & _).
  destruct (HF f Hfin) as (_ & Hfa & Hfb & _). destruct (HF l Hlin) as (_ & Hla & Hlb & _).
  assert (pv h f = Some a /\ is_interior f h = Done (true, h)) as [Hpf Hif].
  { destruct F as [|f' F]; [done|]. injection Hf as ->. split; [by eapply ring_pv|].
    destruct F; eapply removable, Hr. }
  assert (nx h l = Some b /\ list_prev b h = Done (l, h) /\ is_interior l h = Done (true, h))
    as (Hnl & Hpb & Hil).
  { apply last_Some in Hl as [F' ->]. rewrite <- app_assoc in Hr. simpl in Hr.
    rewrite app_comm_cons, app_assoc in Hr. split_and!;
      [by eapply ring_nx | by eapply list_prev_run |].
    destruct F' as [|z F' _] using rev_ind.
    - rewrite <- app_assoc in Hr. simpl in Hr. by eapply removable.
    - rewrite app_comm_cons, app_assoc, <- app_assoc in Hr. simpl in Hr. by eapply removable. }
  assert (forall x, x ∈ F -> is_Some (h !! x)) as HcF.
  { intros x ?. eapply ring_cell; [done | set_solver]. }
  assert (is_Some (h !! a)) by (eapply ring_cell; [done | set_solver]).
  assert (is_Some (h !! b)) by (eapply ring_cell; [done | set_solver]).
  pose proof (ring_pv _ _ _ _ _ Hr') as Hpb'.
  assert (f <> before) by (specialize (Hdisj f Hfin); set_solver).
  assert (is_Some (cut h a b !! a')) as Ca' by (eapply ring_cell; [done | set_solver]).
  assert (is_Some (cut h a b !! before)) as Cb' by (eapply ring_cell; [done | set_solver]).
  unfold list_splice. rewrite (bind_done _ _ _ _ _ Hins), assert_true by done.
  destruct (Z.eqb_spec f b); [done|]. rewrite (bind_done _ _ _ _ _ Hpb).
  rewrite (bind_done _ _ _ _ _ Hif), assert_true, (bind_done _ _ _ _ _ Hil), assert_true by done.
  mload. mload. erewrite bind_done by by apply store_next_ok.
  erewrite bind_done by (apply load_next_ok; cells congruence; done).
  erewrite bind_done by (apply load_prev_ok; cells congruence; done).
  erewrite bind_done by (apply store_prev_ok; by rewrite cell_set_next).
  fold (cut h a b). mload.
  erewrite bind_done
    by (apply store_prev_ok; unfold cut; rewrite cell_set_prev, cell_set_next; auto).
  erewrite bind_done
    by (apply store_next_ok; unfold cut; rewrite !cell_set_prev, cell_set_next; auto).
  erewrite bind_done
    by (apply load_prev_ok; rewrite pv_set_next, pv_set_prev_ne by done; done).
  erewrite bind_done by (apply store_next_ok; by rewrite cell_set_next, cell_set_prev).
  by rewrite store_prev_ok by by rewrite !cell_set_next, cell_set_prev.
Qed.
End prims.
