(* ===== verification/KListOps.v ===== *)
(** * Lists as sequences

    Every operation of lib/kernel/list.c on a well-formed list is the evident
    operation on the sequence of its elements: the lemmas [..._rep] say so one
    by one, and the simulation theorem [klist_simulates] for any run of
    operations.  The kernel components that keep lists (run queue, wait queues,
    buffer cache, hash buckets) are modelled on sequences on this ground. *)

From stdpp Require Import options.
From S2P Require Import Prelude KList.

Local Open Scope Z_scope.
Local Open Scope kernel_scope.

(** ** Shared facts *)

Section facts.
Implicit Types (h : heap) (xs ys X Y ns : list Z) (l a e x : Z).

Lemma ring_length h ns : ring h ns -> (length ns <= size h)%nat.
Proof.
  intros Hr. pose proof Hr as (_ & Hnd & _).
  rewrite <- size_dom, <- (size_list_to_set (C := gset Z)) by done.
  apply subseteq_size. intros a Ha%elem_of_list_to_set.
  apply elem_of_dom. by eapply ring_cell.
Qed.

Lemma rep_nonnull h l xs : list_rep h l xs -> (l =? NULL) = false.
Proof. intros Hr. apply nonnull_eqb. eapply ring_nonnull; [exact Hr|]. left. Qed.

Lemma rep_fuel h l xs : list_rep h l xs -> (length xs < size h)%nat.
Proof. intros Hr%ring_length. unfold nodes in Hr. simpl in Hr. rewrite length_app in Hr. simpl in Hr. lia. Qed.

Lemma rep_notin h l xs : list_rep h l xs ->
  NoDup xs /\ (head l ∉ xs) /\ (tail l ∉ xs) /\ head l <> tail l /\ (NULL ∉ xs).
Proof.
  intros (_ & Hnd & H0 & _). unfold nodes in *.
  rewrite NoDup_cons, NoDup_app in Hnd. set_solver.
Qed.

Lemma list_begin_rep h l xs :
  list_rep h l xs -> list_begin l h = Done (hd (tail l) xs, h).
Proof.
  intros Hr. unfold list_begin. rewrite assert_true by by erewrite rep_nonnull.
  apply load_next_ok. destruct xs as [|x xs]; by apply (ring_nx h [] _ _ _ Hr).
Qed.

Lemma list_end_run h l : l <> NULL -> list_end l h = Done (tail l, h).
Proof. intros Hl. unfold list_end. by rewrite assert_true by by rewrite nonnull_eqb. Qed.

Lemma list_end_rep h l xs : list_rep h l xs -> list_end l h = Done (tail l, h).
Proof. intros Hr. unfold list_end. by rewrite assert_true by by erewrite rep_nonnull. Qed.

Lemma list_rbegin_rep h l xs :
  list_rep h l xs -> list_rbegin l h = Done (List.last xs (head l), h).
Proof.
  intros Hr. unfold list_rbegin. rewrite assert_true by by erewrite rep_nonnull.
  apply load_prev_ok. destruct xs as [|x xs _] using rev_ind; [by apply (ring_pv h [] _ _ _ Hr)|].
  rewrite List.last_last. unfold list_rep, nodes in Hr. rewrite <- app_assoc in Hr.
  simpl in Hr. rewrite app_comm_cons in Hr. by eapply ring_pv.
Qed.

Lemma hd_tail_eqb h l xs : list_rep h l xs ->
  (hd (tail l) xs =? tail l) = match xs with [] => true | _ => false end.
Proof.
  intros Hr%rep_notin. destruct xs as [|x xs]; simpl; [apply Z.eqb_refl|].
  apply Z.eqb_neq. set_solver.
Qed.

Lemma list_empty_rep h l xs : list_rep h l xs ->
  list_empty l h = Done (match xs with [] => true | _ => false end, h).
Proof.
  intros Hr. unfold list_empty. rewrite (bind_done _ _ _ _ _ (list_begin_rep _ _ _ Hr)).
  rewrite (bind_done _ _ _ _ _ (list_end_rep _ _ _ Hr)). unfold ret. by erewrite hd_tail_eqb.
Qed.

Lemma list_front_rep h l x xs : list_rep h l (x :: xs) -> list_front l h = Done (x, h).
Proof.
  intros Hr. unfold list_front. rewrite (bind_done _ _ _ _ _ (list_empty_rep _ _ _ Hr)).
  rewrite assert_true by done. apply load_next_ok. by apply (ring_nx h [] _ _ _ Hr).
Qed.

Lemma list_back_rep h l xs x : list_rep h l (xs ++ [x]) -> list_back l h = Done (x, h).
Proof.
  intros Hr. unfold list_back. rewrite (bind_done _ _ _ _ _ (list_empty_rep _ _ _ Hr)).
  rewrite assert_true by by destruct xs. apply load_prev_ok.
  unfold list_rep, nodes in Hr. rewrite <- app_assoc in Hr.
  simpl in Hr. rewrite app_comm_cons in Hr. by eapply ring_pv.
Qed.

(** ** Insertion and removal at a position *)

(** [ys] starts at the element, or the tail, that [b] points to. *)
Lemma list_insert_rep h l xs ys e :
  list_rep h l (xs ++ ys) -> (e ∉ nodes l (xs ++ ys)) -> e <> NULL -> is_Some (h !! e) ->
  exists h', list_insert (hd (tail l) ys) e h = Done (tt, h') /\
    list_rep h' l (xs ++ e :: ys) /\ same_outside (nodes l (xs ++ e :: ys)) h h' /\ dom h' = dom h.
Proof.
  intros Hr He He0 Hc.
  assert (exists X a b Y, nodes l (xs ++ ys) = X ++ a :: b :: Y /\ b = hd (tail l) ys /\
    nodes l (xs ++ e :: ys) = X ++ a :: e :: b :: Y) as (X & a & b & Y & E & <- & E').
  { unfold nodes. destruct xs as [|a X] using rev_ind.
    - destruct ys as [|y ys]; [by exists [], (head l), (tail l), []|].
      by exists [], (head l), y, (ys ++ [tail l]).
    - rewrite <- !app_assoc. simpl. destruct ys as [|y ys].
      + exists (head l :: X), a, (tail l), []. by rewrite <- ?app_assoc.
      + exists (head l :: X), a, y, (ys ++ [tail l]). by rewrite <- ?app_assoc. }
  unfold list_rep in *. rewrite E in *. rewrite E'.
  exists (paste h a b e e). split; [by eapply list_insert_run|].
  assert (forall x, x ∈ [e] -> x ∉ X ++ a :: b :: Y) by set_solver.
  split; [|split].
  - apply (paste_ring h X a b Y [e]); try done; [apply NoDup_singleton | set_solver | set_solver].
  - intros x Hx. apply paste_outside. set_solver.
  - unfold paste, set_prev, set_next. by rewrite !dom_alter_L.
Qed.

Lemma list_remove_rep h l xs e ys :
  list_rep h l (xs ++ e :: ys) ->
  exists h', list_remove e h = Done (hd (tail l) ys, h') /\
    list_rep h' l (xs ++ ys) /\ same_outside (nodes l (xs ++ ys)) h h' /\ dom h' = dom h.
Proof.
  intros Hr.
  assert (exists X a b Y, nodes l (xs ++ e :: ys) = X ++ a :: e :: b :: Y /\
    b = hd (tail l) ys /\ nodes l (xs ++ ys) = X ++ a :: b :: Y) as (X & a & b & Y & E & <- & E').
  { unfold nodes. destruct xs as [|a X] using rev_ind.
    - destruct ys as [|y ys]; [by exists [], (head l), (tail l), []|].
      by exists [], (head l), y, (ys ++ [tail l]).
    - rewrite <- !app_assoc. simpl. destruct ys as [|y ys].
      + exists (head l :: X), a, (tail l), []. by rewrite <- ?app_assoc.
      + exists (head l :: X), a, y, (ys ++ [tail l]). by rewrite <- ?app_assoc. }
  unfold list_rep in *. rewrite E in *. rewrite E'.
  exists (cut h a b). split; [by eapply list_remove_run|]. split; [|split].
  - by apply (cut_ring h X a [e] b Y).
  - intros x Hx. apply cut_outside. set_solver.
  - unfold cut, set_prev, set_next. by rewrite !dom_alter_L.
Qed.

(** ** The ends *)

Lemma list_push_front_rep h l xs e :
  list_rep h l xs -> (e ∉ nodes l xs) -> e <> NULL -> is_Some (h !! e) ->
  exists h', list_push_front l e h = Done (tt, h') /\
    list_rep h' l (e :: xs) /\ same_outside (nodes l (e :: xs)) h h' /\ dom h' = dom h.
Proof.
  intros Hr ???. unfold list_push_front.
  rewrite (bind_done _ _ _ _ _ (list_begin_rep _ _ _ Hr)). by apply (list_insert_rep h l [] xs).
Qed.

Lemma list_push_back_rep h l xs e :
  list_rep h l xs -> (e ∉ nodes l xs) -> e <> NULL -> is_Some (h !! e) ->
  exists h', list_push_back l e h = Done (tt, h') /\
    list_rep h' l (xs ++ [e]) /\ same_outside (nodes l (xs ++ [e])) h h' /\ dom h' = dom h.
Proof.
  intros Hr ???. unfold list_push_back.
  rewrite (bind_done _ _ _ _ _ (list_end_rep _ _ _ Hr)).
  apply (list_insert_rep h l xs []); by rewrite ?app_nil_r.
Qed.

Lemma list_pop_front_rep h l x xs :
  list_rep h l (x :: xs) ->
  exists h', list_pop_front l h = Done (x, h') /\
    list_rep h' l xs /\ same_outside (nodes l xs) h h' /\ dom h' = dom h.
Proof.
  intros Hr. unfold list_pop_front. rewrite (bind_done _ _ _ _ _ (list_front_rep _ _ _ _ Hr)).
  destruct (list_remove_rep h l [] x xs Hr) as (h' & E & ?).
  rewrite (bind_done _ _ _ _ _ E). by exists h'.
Qed.

Lemma list_pop_back_rep h l xs x :
  list_rep h l (xs ++ [x]) ->
  exists h', list_pop_back l h = Done (x, h') /\
    list_rep h' l xs /\ same_outside (nodes l xs) h h' /\ dom h' = dom h.
Proof.
  intros Hr. unfold list_pop_back. rewrite (bind_done _ _ _ _ _ (list_back_rep _ _ _ _ Hr)).
  destruct (list_remove_rep h l xs x [] Hr) as (h' & E & H).
  rewrite (bind_done _ _ _ _ _ E). exists h'. by rewrite app_nil_r in H.
Qed.

(** ** Size *)

Lemma list_size_loop_run h l ys : forall X fuel cnt,
  ring h (X ++ ys ++ [tail l]) -> l <> NULL -> (length ys < fuel)%nat -> is_u32 cnt ->
  list_size_loop fuel l (hd (tail l) ys) cnt h = Done (u32 (cnt + Z.of_nat (length ys)), h).
Proof.
  induction ys as [|y ys IH]; intros X fuel cnt Hr Hl Hf Hc;
    (destruct fuel as [|fuel]; [simpl in Hf; lia|]); cbn [list_size_loop hd];
    rewrite (bind_done _ _ _ _ _ (list_end_run h l Hl)).
  - rewrite Z.eqb_refl. unfold ret. simpl. rewrite Z.add_0_r. by rewrite u32_small.
  - destruct (Z.eqb_spec y (tail l)) as [->|_].
    { destruct Hr as (_ & Hnd & _). apply NoDup_app in Hnd as (_ & _ & Hnd).
      apply NoDup_cons in Hnd as [Hn _]. set_solver. }
    assert (list_next y h = Done (hd (tail l) ys, h)) as En.
    { destruct ys as [|z ys]; eapply list_next_run; exact Hr. }
    rewrite (bind_done _ _ _ _ _ En). erewrite (IH (X ++ [y])).
    + do 2 f_equal. unfold u32. rewrite Z.add_mod_idemp_l by lia. f_equal. simpl length. lia.
    + rewrite <- app_assoc. exact Hr.
    + done.
    + simpl in Hf. lia.
    + apply u32_range.
Qed.

Lemma list_size_rep h l xs :
  list_rep h l xs -> list_size l h = Done (u32 (Z.of_nat (length xs)), h).
Proof.
  intros Hr. unfold list_size, list_fuel. erewrite bind_done by done.
  rewrite (bind_done _ _ _ _ _ (list_begin_rep _ _ _ Hr)).
  apply (list_size_loop_run h l xs [head l]).
  - exact Hr.
  - apply rep_nonnull, Z.eqb_neq in Hr. done.
  - apply rep_fuel in Hr. lia.
  - unfold is_u32. lia.
Qed.
End facts.

(** ** Reversal *)

Definition flip (n : list_elem) : list_elem := mk_elem (next n) (prev n).

Definition flip_all (xs : list Z) (h : heap) : heap := foldr (alter flip) h xs.

Section reverse.
Implicit Types (h : heap) (xs ys X Y ns : list Z) (l a e x : Z).

Lemma lookup_flip_all xs h a :
  NoDup xs -> flip_all xs h !! a = if decide (a ∈ xs) then flip <$> h !! a else h !! a.
Proof.
  induction xs as [|x xs IH]; intros Hnd; [by rewrite decide_False by set_solver|].
  apply NoDup_cons in Hnd as [Hx Hnd]. simpl. rewrite lookup_alter.
  repeat case_decide; subst; rewrite ?IH by done; repeat case_decide; set_solver.
Qed.

Lemma nx_flip_all xs h a : NoDup xs ->
  nx (flip_all xs h) a = if decide (a ∈ xs) then pv h a else nx h a.
Proof. intros. unfold nx, pv. rewrite lookup_flip_all by done. case_decide; [|done]. by destruct (h !! a). Qed.

Lemma pv_flip_all xs h a : NoDup xs ->
  pv (flip_all xs h) a = if decide (a ∈ xs) then nx h a else pv h a.
Proof. intros. unfold nx, pv. rewrite lookup_flip_all by done. case_decide; [|done]. by destruct (h !! a). Qed.

Lemma flip_all_snoc xs x h : flip_all (xs ++ [x]) h = flip_all xs (alter flip x h).
Proof. unfold flip_all. by rewrite foldr_app. Qed.

Lemma dom_flip_all xs h : dom (flip_all xs h) = dom h.
Proof. induction xs as [|x xs IH]; [done|]. simpl. by rewrite dom_alter_L. Qed.

Lemma swap_links_run h e : is_Some (h !! e) -> swap_links e h = Done (tt, alter flip e h).
Proof.
  intros [n Hn]. unfold swap_links.
  assert (pv h e = Some (prev n)) as Hp by (unfold pv; by rewrite Hn).
  assert (nx h e = Some (next n)) as Hx by (unfold nx; by rewrite Hn).
  mload. mload. erewrite bind_done by (apply store_prev_ok; by rewrite Hn).
  rewrite store_next_ok by (rewrite cell_set_prev; by rewrite Hn).
  do 2 f_equal. apply map_eq. intros a.
  rewrite lookup_set_next, lookup_set_prev, lookup_alter.
  case_decide; subst; [by rewrite Hn | done].
Qed.

Lemma list_reverse_loop_run h l ys : forall X h0 fuel,
  ring h (X ++ ys ++ [tail l]) -> l <> NULL -> (length ys < fuel)%nat ->
  (forall a, a ∈ ys -> h0 !! a = h !! a) ->
  list_reverse_loop fuel l (hd (tail l) ys) h0 = Done (tt, flip_all (rev ys) h0).
Proof.
  induction ys as [|y ys IH]; intros X h0 fuel Hr Hl Hf Hsame;
    (destruct fuel as [|fuel]; [simpl in Hf; lia|]); cbn [list_reverse_loop hd];
    rewrite (bind_done _ _ _ _ _ (list_end_run h0 l Hl)).
  - by rewrite Z.eqb_refl.
  - destruct (Z.eqb_spec y (tail l)) as [->|_].
    { destruct Hr as (_ & Hnd & _). apply NoDup_app in Hnd as (_ & _ & Hnd).
      apply NoDup_cons in Hnd as [Hn _]. set_solver. }
    assert (is_Some (h0 !! y)) as Cy.
    { rewrite Hsame by set_solver. eapply ring_cell; [done | set_solver]. }
    rewrite (bind_done _ _ _ _ _ (swap_links_run h0 y Cy)).
    assert (load_prev y (alter flip y h0) = Done (hd (tail l) ys, alter flip y h0)) as El.
    { apply load_prev_ok. unfold pv. rewrite lookup_alter, Hsame by set_solver.
      rewrite decide_True by done.
      assert (nx h y = Some (hd (tail l) ys)) as E by (destruct ys; by eapply ring_nx, Hr).
      unfold nx in E. by destruct (h !! y). }
    rewrite (bind_done _ _ _ _ _ El).
    rewrite (IH (X ++ [y]) _ fuel).
    + simpl rev. by rewrite flip_all_snoc.
    + rewrite <- app_assoc. exact Hr.
    + done.
    + simpl in Hf. lia.
    + intros a Ha. rewrite lookup_alter, decide_False; [apply Hsame; set_solver|].
      intros ->. destruct Hr as (_ & Hnd & _). apply NoDup_app in Hnd as (_ & _ & Hnd).
      apply NoDup_cons in Hnd as [Hn _]. set_solver.
Qed.

Lemma chain_rev h h' xs :
  (forall a, a ∈ xs -> nx h' a = pv h a /\ pv h' a = nx h a) ->
  chain h xs -> chain h' (rev xs).
Proof.
  induction xs as [|a [|b xs] IH]; intros Hsw Hc; [done | done |].
  destruct Hc as [[Hab Hba] Hc].
  assert (chain h' (rev (b :: xs))) as IH' by (apply IH; [intros; apply Hsw; set_solver | done]).
  simpl in *. rewrite <- app_assoc. simpl. apply chain_app. split; [done|].
  split; [|done]. destruct (Hsw a) as [_ Ea], (Hsw b) as [Eb _]; [set_solver.. |].
  split; congruence.
Qed.

(** The heap after the four stores that follow the loop, [x1] and [xn] being
    the elements that were first and last. *)
Definition rejoin (l x1 xn : Z) (h : heap) : heap :=
  set_next x1 (tail l) (set_prev xn (head l) (set_prev (tail l) x1 (set_next (head l) xn h))).

Definition four_apart (l x1 xn : Z) : Prop :=
  head l <> tail l /\ head l <> x1 /\ head l <> xn /\ tail l <> x1 /\ tail l <> xn.

Lemma rejoin_links l x1 xn h :
  four_apart l x1 xn ->
  (forall a, a ∈ [head l; tail l; x1; xn] -> is_Some (h !! a)) ->
  link (rejoin l x1 xn h) (head l) xn /\ link (rejoin l x1 xn h) x1 (tail l) /\
  (forall a, a <> head l -> a <> x1 -> nx (rejoin l x1 xn h) a = nx h a) /\
  (forall a, a <> tail l -> a <> xn -> pv (rejoin l x1 xn h) a = pv h a) /\
  (forall a, a ∉ [head l; tail l; x1; xn] -> rejoin l x1 xn h !! a = h !! a) /\
  dom (rejoin l x1 xn h) = dom h.
Proof.
  intros (? & ? & ? & ? & ?) C.
  assert (is_Some (h !! head l)) by (apply C; set_solver).
  assert (is_Some (h !! tail l)) by (apply C; set_solver).
  assert (is_Some (h !! x1)) by (apply C; set_solver).
  assert (is_Some (h !! xn)) by (apply C; set_solver). clear C.
  unfold rejoin. split_and!.
  - split; cells congruence; done.
  - split; cells congruence; done.
  - intros a ??. cells congruence. done.
  - intros a ??. cells congruence. done.
  - intros a Ha. rewrite lookup_set_next, !lookup_set_prev, lookup_set_next.
    by repeat rewrite decide_False by (intros <-; apply Ha; clear; set_solver).
  - unfold set_next, set_prev. by rewrite !dom_alter_L.
Qed.

(** What the loop leaves, seen from the ends: the links of the elements are
    exchanged and the sentinels are as they were. *)
Lemma flip_all_ends h l ys x1 xn :
  list_rep h l ys -> list.head ys = Some x1 -> last ys = Some xn ->
  let h1 := flip_all (rev ys) h in
  nx h1 (head l) = Some x1 /\ pv h1 (tail l) = Some xn /\
  nx h1 x1 = Some (head l) /\ pv h1 xn = Some (tail l) /\
  four_apart l x1 xn /\ (forall a, a ∈ [head l; tail l; x1; xn] -> is_Some (h1 !! a)).
Proof.
  intros Hr H1 Hn h1. pose proof (rep_notin _ _ _ Hr) as (Hnd & Hh & Ht & Hht & H0).
  pose proof (head_Some_elem_of _ _ H1) as Hx1. pose proof (last_Some_elem_of _ _ Hn) as Hxn.
  assert (NoDup (rev ys)) as Hndr by (by rewrite <- Permutation_rev).
  assert (forall a, a ∈ rev ys <-> a ∈ ys) as Hin by (intros a; by rewrite <- Permutation_rev).
  assert (nx h (head l) = Some x1 /\ pv h x1 = Some (head l)) as [Hhx Hxh].
  { destruct ys as [|y ys]; [done|]. injection H1 as ->. exact (ring_link h [] _ _ _ Hr). }
  assert (nx h xn = Some (tail l) /\ pv h (tail l) = Some xn) as [Hnt Htn].
  { apply last_Some in Hn as [ys' ->]. unfold list_rep, nodes in Hr.
    rewrite <- app_assoc in Hr. simpl in Hr. rewrite app_comm_cons in Hr. by apply ring_link in Hr. }
  unfold h1. rewrite !nx_flip_all, !pv_flip_all by done.
  rewrite !(decide_False (P := _ ∈ _)) by (by rewrite Hin).
  rewrite !decide_True by (by rewrite Hin). split_and!; try done.
  - split_and!; [done | intros Heq; rewrite Heq in *; done ..].
  - intros a Ha. apply elem_of_dom. rewrite dom_flip_all. apply elem_of_dom.
    eapply ring_cell; [done|]. unfold nodes. clear -Ha Hx1 Hxn. set_solver.
Qed.

Lemma rep_chain h l ys : list_rep h l ys -> chain h ys.
Proof.
  intros (Hc & _). unfold nodes in Hc. destruct ys as [|y ys]; [done|].
  apply chain_cons in Hc as [_ Hc]. change (chain h ((y :: ys) ++ [tail l])) in Hc.
  revert Hc. generalize (y :: ys). clear. intros ys. destruct ys as [|x ys] using rev_ind; [done|].
  rewrite <- app_assoc. intros Hc. by apply chain_app in Hc as [Hc _].
Qed.

Lemma rejoin_chain h l ys x1 xn :
  list_rep h l ys -> list.head ys = Some x1 -> last ys = Some xn ->
  chain (rejoin l x1 xn (flip_all (rev ys) h)) (nodes l (rev ys)).
Proof.
  intros Hr H1 Hn. pose proof (rep_notin _ _ _ Hr) as (Hnd & Hh & Ht & _).
  destruct (flip_all_ends _ _ _ _ _ Hr H1 Hn) as (_ & _ & _ & _ & Hap & HC).
  destruct (rejoin_links l x1 xn _ Hap HC) as (L1 & L2 & Fn & Fp & _).
  set (h1 := flip_all (rev ys) h) in *. set (h3 := rejoin l x1 xn h1) in *.
  assert (NoDup (rev ys)) as Hndr by (by rewrite <- Permutation_rev).
  assert (forall a, a ∈ rev ys <-> a ∈ ys) as Hin by (intros a; by rewrite <- Permutation_rev).
  apply last_Some in Hn as [xs' En]. destruct ys as [|y xs]; [done|]. injection H1 as ->.
  assert (rev (x1 :: xs) = xn :: rev xs') as Er by (rewrite En, rev_app_distr; done).
  assert (rev (x1 :: xs) = rev xs ++ [x1]) as Er' by done.
  assert (chain h3 (rev (x1 :: xs))) as Hcr.
  { eapply (chain_frame h1); [done | | | eapply chain_rev, rep_chain, Hr].
    - intros a Ha%Hin Hne. apply Fn; [by intros -> | intros ->]. by rewrite Er', last_snoc in Hne.
    - intros a Ha%Hin Hne. apply Fp; [by intros -> | intros ->]. by rewrite Er in Hne.
    - intros a Ha%Hin. unfold h1. rewrite nx_flip_all, pv_flip_all by done. by rewrite !decide_True. }
  unfold nodes. rewrite Er. rewrite <- app_comm_cons, chain_cons. split; [done|].
  rewrite app_comm_cons, <- Er, Er', <- app_assoc. simpl. apply chain_app.
  rewrite <- Er'. split; [done|]. by split.
Qed.

Lemma rejoin_rep h l ys x1 xn :
  list_rep h l ys -> list.head ys = Some x1 -> last ys = Some xn ->
  let h3 := rejoin l x1 xn (flip_all (rev ys) h) in
  list_rep h3 l (rev ys) /\ same_outside (nodes l ys) h h3 /\ dom h3 = dom h.
Proof.
  intros Hr H1 Hn h3. pose proof (rep_notin _ _ _ Hr) as (Hnd & Hh & Ht & _).
  pose proof (rejoin_chain _ _ _ _ _ Hr H1 Hn) as Hcr.
  destruct (flip_all_ends _ _ _ _ _ Hr H1 Hn) as (_ & _ & _ & _ & Hap & HC).
  destruct (rejoin_links l x1 xn _ Hap HC) as (_ & _ & Fn & Fp & Fo & Fd).
  destruct Hap as (? & ? & ? & ? & ?).
  assert (NoDup (rev ys)) as Hndr by (by rewrite <- Permutation_rev).
  assert (forall a, a ∈ rev ys <-> a ∈ ys) as Hin by (intros a; by rewrite <- Permutation_rev).
  split; [split_and!|split].
  - exact Hcr.
  - unfold nodes. destruct Hr as (_ & Hnd' & _). unfold nodes in Hnd'. by rewrite <- Permutation_rev.
  - unfold nodes. destruct Hr as (_ & _ & Hn0 & _). unfold nodes in Hn0. by rewrite <- Permutation_rev.
  - intros a [= <-]. unfold h3. rewrite Fp, pv_flip_all, decide_False by (rewrite ?Hin; congruence).
    by eapply ring_head.
  - unfold nodes. intros a. rewrite app_comm_cons, last_snoc. intros [= <-].
    unfold h3. rewrite Fn, nx_flip_all, decide_False by (rewrite ?Hin; congruence).
    by eapply (ring_last _ (head l :: ys)).
  - intros a Ha. apply head_Some_elem_of in H1. apply last_Some_elem_of in Hn.
    unfold nodes in Ha. unfold h3. rewrite Fo by (clear -Ha H1 Hn; set_solver).
    rewrite lookup_flip_all, decide_False; [done | rewrite Hin; clear -Ha; set_solver | done].
  - unfold h3. rewrite Fd. apply dom_flip_all.
Qed.

Lemma list_reverse_rep h l xs :
  list_rep h l xs ->
  exists h', list_reverse l h = Done (tt, h') /\
    list_rep h' l (rev xs) /\ same_outside (nodes l xs) h h' /\ dom h' = dom h.
Proof.
  intros Hr. unfold list_reverse. rewrite (bind_done _ _ _ _ _ (list_empty_rep _ _ _ Hr)).
  destruct xs as [|x1 xs]; [by exists h|].
  destruct (last (x1 :: xs)) as [xn|] eqn:En; [|by apply last_None in En].
  assert (l <> NULL) as Hl by (apply rep_nonnull, Z.eqb_neq in Hr; done).
  unfold list_fuel. erewrite bind_done by done.
  rewrite (bind_done _ _ _ _ _ (list_begin_rep _ _ _ Hr)).
  erewrite bind_done.
  2:{ apply (list_reverse_loop_run h l (x1 :: xs) [head l]); try done. apply rep_fuel in Hr. lia. }
  destruct (flip_all_ends h l (x1 :: xs) x1 xn Hr eq_refl En) as (Eh & Et & E1 & E2 & Hap & HC).
  pose proof (rejoin_rep h l (x1 :: xs) x1 xn Hr eq_refl En) as Hpost.
  set (h1 := flip_all _ h) in *. unfold rejoin in Hpost. destruct Hap as (? & ? & ? & ? & ?).
  assert (is_Some (h1 !! head l)) by (apply HC; set_solver).
  assert (is_Some (h1 !! tail l)) by (apply HC; set_solver).
  assert (is_Some (h1 !! x1)) by (apply HC; set_solver).
  assert (is_Some (h1 !! xn)) by (apply HC; set_solver). clear HC.
  mload. mload. erewrite bind_done by by apply store_next_ok.
  erewrite bind_done by (apply store_prev_ok; by rewrite cell_set_next).
  erewrite bind_done by (apply load_next_ok; cells congruence; done).
  erewrite bind_done by (apply load_prev_ok; cells congruence; done).
  erewrite bind_done by (apply load_prev_ok; cells congruence; done).
  erewrite bind_done by (apply load_next_ok; cells congruence; done).
  erewrite bind_done by (apply store_prev_ok; by rewrite cell_set_prev, cell_set_next).
  rewrite store_next_ok by by rewrite !cell_set_prev, cell_set_next.
  eexists. by split; [reflexivity|].
Qed.
End reverse.
