(* ===== verification/KListSort.v ===== *)
(** * Sorting kernel lists

    [list_sort] is a natural merge sort: passes over the list merge adjacent
    runs in place, by splicing cells, until one run is left.  The functional
    counterparts of its helpers are [split_run], [merge] and the number of runs
    [nruns], which bounds the number of passes. *)

From stdpp Require Import options.
From S2P Require Import Prelude KList KListOps.
From Stdlib Require Import Sorting.Sorted.

Local Open Scope Z_scope.
Local Open Scope kernel_scope.

Section sorting.
Context (less : Z -> Z -> bool).

Definition le (x y : Z) : Prop := less y x = false.

Definition equiv (x y : Z) : Prop := le x y /\ le y x.

#[global] Instance equiv_dec x y : Decision (equiv x y).
Proof. unfold equiv, le. apply _. Defined.

(** The rest of the run that starts at [x], and what follows it. *)
Fixpoint split_run (x : Z) (ys : list Z) : list Z * list Z :=
  match ys with
  | [] => ([], [])
  | y :: ys' => if less y x then ([], ys) else let '(r, t) := split_run y ys' in (y :: r, t)
  end.

Fixpoint merge (A : list Z) : list Z -> list Z :=
  fix merge_aux (B : list Z) : list Z :=
    match A, B with
    | [], _ => B
    | _, [] => A
    | a :: A', b :: B' => if less b a then b :: merge_aux B' else a :: merge A' B
    end.

Fixpoint sorted_from (x : Z) (ys : list Z) : bool :=
  match ys with
  | [] => true
  | y :: ys => if less y x then false else sorted_from y ys
  end.

Fixpoint descents (x : Z) (ys : list Z) : nat :=
  match ys with
  | [] => 0
  | y :: ys => (if less y x then 1 else 0) + descents y ys
  end.

Definition nruns (ys : list Z) : nat :=
  match ys with [] => 0 | x :: ys => S (descents x ys) end.

(** ** Runs and merges *)

Lemma sorted_from_spec x ys : sorted_from x ys = true <-> Sorted le (x :: ys).
Proof.
  revert x. induction ys as [|y ys IH]; intros x; simpl.
  - split; [intros _; by repeat constructor | done].
  - destruct (less y x) eqn:E.
    + split; [done|]. intros H. inversion H as [|? ? ? H2]. inversion H2. unfold le in *. congruence.
    + rewrite IH. split; [intros; constructor; [done | by constructor] | intros H; by inversion H].
Qed.

Lemma descents_sorted x ys : descents x ys = 0%nat <-> sorted_from x ys = true.
Proof.
  revert x. induction ys as [|y ys IH]; intros x; simpl; [done|].
  destruct (less y x); [done | apply IH].
Qed.

Lemma nruns_sorted ys : (nruns ys <= 1)%nat <-> Sorted le ys.
Proof.
  destruct ys as [|x ys]; simpl; [split; [constructor | lia]|].
  rewrite <- sorted_from_spec, <- descents_sorted. lia.
Qed.

Lemma descents_app x ys zs : (descents x (ys ++ zs) <= descents x ys + nruns zs)%nat.
Proof.
  revert x. induction ys as [|y ys IH]; intros x; simpl.
  - destruct zs as [|z zs]; simpl; [lia|]. destruct (less z x); lia.
  - specialize (IH y). lia.
Qed.

Lemma nruns_app ys zs : (nruns (ys ++ zs) <= nruns ys + nruns zs)%nat.
Proof. destruct ys as [|y ys]; simpl; [lia|]. pose proof (descents_app y ys zs). lia. Qed.

Lemma nruns_length ys : (nruns ys <= length ys)%nat.
Proof.
  destruct ys as [|x ys]; simpl; [lia|]. apply le_n_S. revert x.
  induction ys as [|y ys IH]; intros x; simpl; [lia|]. specialize (IH y). destruct (less y x); lia.
Qed.

Lemma split_run_spec x ys r t :
  split_run x ys = (r, t) ->
  ys = r ++ t /\ sorted_from x r = true /\ nruns (x :: ys) = S (nruns t).
Proof.
  revert x r t. induction ys as [|y ys IH]; intros x r t; simpl; [by intros [= <- <-]|].
  destruct (less y x) eqn:E; [by intros [= <- <-]|].
  destruct (split_run y ys) as [r' t'] eqn:Er. intros [= <- <-].
  destruct (IH y r' t' Er) as (-> & Hs & Hn). simpl. rewrite E. simpl in Hn. auto with lia.
Qed.

Lemma merge_nil_r A : merge A [] = A.
Proof. by destruct A. Qed.

Lemma merge_cons a A b B :
  merge (a :: A) (b :: B) = if less b a then b :: merge (a :: A) B else a :: merge A (b :: B).
Proof. done. Qed.

Lemma merge_perm A : forall B, merge A B ≡ₚ A ++ B.
Proof.
  induction A as [|a A IHA]; [by destruct 0|]. induction B as [|b B IHB].
  - by rewrite merge_nil_r, app_nil_r.
  - rewrite merge_cons. destruct (less b a).
    + rewrite IHB. by rewrite <- Permutation_middle.
    + simpl. by rewrite IHA.
Qed.

Hypothesis less_asym : forall x y, less x y = true -> less y x = false.

Lemma merge_hdrel x A B : HdRel le x A -> HdRel le x B -> HdRel le x (merge A B).
Proof.
  intros HA HB. destruct A as [|a A]; [by destruct B|].
  destruct B as [|b B]; [done|]. rewrite merge_cons.
  inversion HA; inversion HB; subst. destruct (less b a); by constructor.
Qed.

Lemma merge_sorted A : forall B, Sorted le A -> Sorted le B -> Sorted le (merge A B).
Proof using less_asym.
  induction A as [|a A IHA]; [by destruct 0|]. induction B as [|b B IHB]; intros HA HB.
  - by rewrite merge_nil_r.
  - rewrite merge_cons. apply Sorted_inv in HA as HA'. apply Sorted_inv in HB as HB'.
    destruct HA' as [HA1 HA2], HB' as [HB1 HB2]. destruct (less b a) eqn:E.
    + constructor; [by apply IHB|]. apply merge_hdrel; [|done].
      constructor. unfold le. by apply less_asym.
    + constructor; [by apply IHA|]. apply merge_hdrel; [done|]. by constructor.
Qed.

Lemma merge_length A B : length (merge A B) = (length A + length B)%nat.
Proof. by rewrite merge_perm, length_app. Qed.

(** Equivalent elements keep their order, those of the first run first. *)
Lemma merge_stable (le_trans : forall x y z, le x y -> le y z -> le x z) x A :
  forall B, Sorted le A -> Sorted le B ->
  filter (equiv x) (merge A B) = filter (equiv x) A ++ filter (equiv x) B.
Proof using less_asym.
  assert (Transitive le) as Ht by exact le_trans.
  induction A as [|a A IHA]; [by destruct 0|]. induction B as [|b B IHB]; intros HA HB.
  - by rewrite merge_nil_r, filter_nil, app_nil_r.
  - rewrite merge_cons. apply Sorted_inv in HA as HA'. apply Sorted_inv in HB as HB'.
    destruct HA' as [HA1 _], HB' as [HB1 _]. destruct (less b a) eqn:E.
    + destruct (decide (equiv x b)) as [Hb|Hb].
      * rewrite !(filter_cons_True _ b) by done. rewrite IHB by done.
        assert (filter (equiv x) (a :: A) = []) as ->; [|done].
        apply Sorted_StronglySorted in HA; [|done].
        assert (forall z, z ∈ a :: A -> ~ equiv x z) as Hno.
        { intros z Hz [H1 H2]. assert (le a z) as Haz.
          { apply elem_of_cons in Hz as [->|Hz]; [|inversion HA; subst; by eapply Forall_forall].
            unfold le. destruct (less a a) eqn:Ea; [|done]. by rewrite (less_asym _ _ Ea) in Ea. }
          assert (le a b) as Hab by (destruct Hb; eauto). unfold le in Hab. congruence. }
        clear -Hno. induction (a :: A) as [|z l IH]; [done|].
        rewrite filter_cons_False by set_solver. apply IH. set_solver.
      * rewrite !(filter_cons_False _ b) by done. by apply IHB.
    + destruct (decide (equiv x a)) as [Hx|Hx].
      * rewrite !(filter_cons_True _ a) by done. rewrite IHA by done. done.
      * rewrite !(filter_cons_False _ a) by done. by apply IHA.
Qed.
End sorting.

(** ** The helpers on the heap *)

Section heap_moves.
Implicit Types (h : heap) (A B X Y xs ys : list Z) (a b x y l : Z).

Lemma ring_split_ne h X x ys b Y : ring h (X ++ x :: ys ++ b :: Y) -> x <> b /\ (b ∉ ys).
Proof.
  intros (_ & Hnd & _). apply NoDup_app in Hnd as (_ & _ & Hnd).
  apply NoDup_cons in Hnd as [H1 H2]. apply NoDup_app in H2 as (_ & H2 & _). set_solver.
Qed.

Lemma ring_next_hd h X x ys b Y :
  ring h (X ++ x :: ys ++ b :: Y) -> list_next x h = Done (hd b ys, h).
Proof. intros Hr. destruct ys; by eapply list_next_run, Hr. Qed.

Lemma ring_shift h X x ys b Y :
  ring h (X ++ x :: ys ++ b :: Y) -> ring h ((X ++ [x]) ++ ys ++ b :: Y).
Proof. by rewrite <- app_assoc. Qed.

(** Moving the element [b] before [a], as a merge step does. *)
Lemma splice_one_left h X a A b n Y :
  X <> [] -> ring h (X ++ a :: A ++ b :: n :: Y) ->
  exists h', list_splice a b n h = Done (tt, h') /\
    ring h' (X ++ b :: a :: A ++ n :: Y) /\
    same_outside (X ++ b :: a :: A ++ n :: Y) h h' /\ dom h' = dom h.
Proof.
  intros HX Hr. destruct (exists_last HX) as (X1 & a' & ->).
  destruct (exists_last (l := a :: A)) as (A1 & p & EA); [done|].
  rewrite <- app_assoc in *. simpl in *.
  assert (ring h ((X1 ++ a' :: A1) ++ p :: [b] ++ n :: Y)) as Hr1.
  { rewrite <- app_assoc. simpl. rewrite app_comm_cons in Hr. rewrite EA in Hr.
    rewrite <- app_assoc in Hr. exact Hr. }
  destruct (cut_ring _ _ _ _ _ _ Hr1) as [Hr2 Hc2].
  assert ((X1 ++ a' :: A1) ++ p :: n :: Y = X1 ++ a' :: a :: A ++ n :: Y) as E2.
  { rewrite <- app_assoc. simpl. rewrite (app_comm_cons A). rewrite EA. by rewrite <- app_assoc. }
  rewrite E2 in Hr2.
  assert (b ∉ X1 ++ a' :: a :: A ++ n :: Y) as Hb.
  { destruct Hr as (_ & Hnd & _). clear -Hnd. rewrite NoDup_app, !NoDup_cons, NoDup_app, NoDup_cons in Hnd.
    set_solver. }
  exists (paste (cut h p n) a' a b b). split.
  { eapply (list_splice_run h _ p [b] n Y b b); try done; [by eapply insertable | set_solver]. }
  split; [|split].
  - apply (paste_ring _ X1 a' a (A ++ n :: Y) [b]); try done.
    + apply NoDup_singleton.
    + set_solver.
    + intros x Hx%list_elem_of_singleton. subst x. unfold cut.
      rewrite cell_set_prev, cell_set_next. eapply ring_cell; [exact Hr | set_solver].
    + intros Hx%list_elem_of_singleton. eapply (ring_nonnull _ _ b); [exact Hr | set_solver | done].
  - intros x Hx. rewrite paste_outside by set_solver. apply cut_outside.
    assert (p ∈ a :: A) by (rewrite EA; set_solver). clear -Hx H. set_solver.
  - unfold paste, cut, set_prev, set_next. by rewrite !dom_alter_L.
Qed.

Lemma same_outside_trans ns ns' h h' h'' :
  same_outside ns h h' -> same_outside ns' h' h'' -> ns ≡ₚ ns' -> same_outside ns' h h''.
Proof. intros H1 H2 Hp a Ha. rewrite H2 by done. apply H1. by rewrite Hp. Qed.

End heap_moves.

Section on_heap.
Context (less : Z -> Z -> bool).
Implicit Types (h : heap) (A B X Y xs ys : list Z) (a b x y l : Z).

Lemma is_sorted_loop_run h b Y ys : forall X x fuel,
  ring h (X ++ x :: ys ++ b :: Y) -> (length ys < fuel)%nat ->
  is_sorted_loop less fuel x b h = Done (sorted_from less x ys, h).
Proof.
  induction ys as [|y ys IH]; intros X x fuel Hr Hf;
    (destruct fuel as [|fuel]; [simpl in Hf; lia|]); cbn [is_sorted_loop sorted_from];
    rewrite (bind_done _ _ _ _ _ (ring_next_hd _ _ _ _ _ _ Hr)); cbn [hd].
  - by rewrite Z.eqb_refl.
  - destruct (ring_split_ne _ _ _ _ _ _ Hr) as [_ Hb].
    destruct (Z.eqb_spec y b); [set_solver|].
    rewrite (bind_done _ _ _ _ _ (list_prev_run _ _ _ _ _ Hr)).
    destruct (less y x); [done|]. apply (IH (X ++ [x])); [exact (ring_shift _ _ _ _ _ _ Hr) | simpl in Hf; lia].
Qed.

Lemma is_sorted_run h X x ys b Y :
  ring h (X ++ x :: ys ++ b :: Y) ->
  is_sorted less x b h = Done (sorted_from less x ys, h).
Proof.
  intros Hr. unfold is_sorted. destruct (ring_split_ne _ _ _ _ _ _ Hr) as [Hne _].
  destruct (Z.eqb_spec x b); [done|]. unfold list_fuel. erewrite bind_done by done.
  eapply is_sorted_loop_run; [done|]. apply ring_length in Hr.
  rewrite length_app in Hr. simpl in Hr. rewrite length_app in Hr. lia.
Qed.

Lemma find_end_of_run_loop_run h b Y ys : forall X x fuel,
  ring h (X ++ x :: ys ++ b :: Y) -> (length ys < fuel)%nat ->
  find_end_of_run_loop less fuel x b h = Done (hd b (snd (split_run less x ys)), h).
Proof.
  induction ys as [|y ys IH]; intros X x fuel Hr Hf;
    (destruct fuel as [|fuel]; [simpl in Hf; lia|]); cbn [find_end_of_run_loop split_run];
    rewrite (bind_done _ _ _ _ _ (ring_next_hd _ _ _ _ _ _ Hr)); cbn [hd].
  - by rewrite Z.eqb_refl.
  - destruct (ring_split_ne _ _ _ _ _ _ Hr) as [_ Hb].
    destruct (Z.eqb_spec y b); [set_solver|].
    rewrite (bind_done _ _ _ _ _ (list_prev_run _ _ _ _ _ Hr)).
    destruct (less y x); [done|].
    rewrite (IH (X ++ [x]) y fuel); [|exact (ring_shift _ _ _ _ _ _ Hr) | simpl in Hf; lia].
    by destruct (split_run less y ys).
Qed.

Lemma find_end_of_run_run h X x ys b Y :
  ring h (X ++ x :: ys ++ b :: Y) ->
  find_end_of_run less x b h = Done (hd b (snd (split_run less x ys)), h).
Proof.
  intros Hr. unfold find_end_of_run. destruct (ring_split_ne _ _ _ _ _ _ Hr) as [Hne _].
  rewrite !assert_true.
  - unfold list_fuel. erewrite bind_done by done.
    eapply find_end_of_run_loop_run; [done|]. apply ring_length in Hr.
    rewrite length_app in Hr. simpl in Hr. rewrite length_app in Hr. lia.
  - by apply negb_true_iff, Z.eqb_neq.
  - rewrite nonnull_eqb; [done|]. eapply ring_nonnull; [done | set_solver].
  - rewrite nonnull_eqb; [done|]. eapply ring_nonnull; [done | set_solver].
Qed.

Lemma inplace_merge_loop_run b1 Y : forall fuel A B X h,
  X <> [] -> ring h (X ++ A ++ B ++ b1 :: Y) -> (length A + length B < fuel)%nat ->
  exists h', inplace_merge_loop less fuel (hd (hd b1 B) A) (hd b1 B) b1 h = Done (tt, h') /\
    ring h' (X ++ merge less A B ++ b1 :: Y) /\
    same_outside (X ++ merge less A B ++ b1 :: Y) h h' /\ dom h' = dom h.
Proof.
  induction fuel as [|fuel IH]; intros A B X h HX Hr Hf; [lia|]. cbn [inplace_merge_loop].
  destruct A as [|a A]; [cbn [hd]; rewrite Z.eqb_refl; exists h; by destruct B|].
  destruct B as [|b B]; [cbn [hd]; rewrite Z.eqb_refl, orb_true_r, merge_nil_r; by exists h|].
  cbn [hd]. rewrite merge_cons.
  assert (ring h (X ++ a :: A ++ b :: (B ++ b1 :: Y))) as Hr1 by exact Hr.
  assert (ring h ((X ++ a :: A) ++ b :: B ++ b1 :: Y)) as Hr2 by by rewrite <- app_assoc.
  destruct (ring_split_ne _ _ _ _ _ _ Hr1) as [Hab _].
  destruct (ring_split_ne _ _ _ _ _ _ Hr2) as [Hbb _].
  destruct (Z.eqb_spec a b) as [|_]; [done|].
  destruct (Z.eqb_spec b b1) as [|_]; [done|].
  destruct (less b a) eqn:E; cbn [negb orb].
  - rewrite (bind_done _ _ _ _ _ (ring_next_hd _ _ _ _ _ _ Hr2)).
    assert (exists n Z', n = hd b1 B /\ B ++ b1 :: Y = n :: Z') as (n & Z' & En & EB).
    { destruct B as [|n B]; [by exists b1, Y | by exists n, (B ++ b1 :: Y)]. }
    rewrite <- En. rewrite EB in Hr1, Hr2.
    rewrite (bind_done _ _ _ _ _ (list_prev_run _ _ _ _ _ Hr2)).
    destruct (splice_one_left _ _ _ _ _ _ _ HX Hr1) as (h1 & E1 & R1 & S1 & D1).
    rewrite (bind_done _ _ _ _ _ E1). rewrite En.
    destruct (IH (a :: A) B (X ++ [b]) h1) as (h2 & E2 & R2 & S2 & D2).
    + by destruct X.
    + rewrite <- EB in R1. rewrite <- app_assoc. exact R1.
    + simpl in *. lia.
    + exists h2. rewrite <- app_assoc in R2, S2. split; [exact E2|]. split; [exact R2|].
      split; [|congruence]. rewrite <- EB in S1.
      eapply same_outside_trans; [exact S1 | exact S2 |].
      rewrite merge_perm. simpl. by rewrite <- app_assoc.
  - rewrite (bind_done _ _ _ _ _ (ring_next_hd _ _ _ _ _ _ Hr1)).
    destruct (IH A (b :: B) (X ++ [a]) h) as (h2 & E2 & R2 & S2 & D2).
    + by destruct X.
    + rewrite <- app_assoc. exact Hr.
    + simpl in *. lia.
    + exists h2. rewrite <- app_assoc in R2, S2. by split.
Qed.

Lemma inplace_merge_run h X a A b B b1 Y :
  X <> [] -> ring h (X ++ (a :: A) ++ (b :: B) ++ b1 :: Y) ->
  sorted_from less a A = true -> sorted_from less b B = true ->
  exists h', inplace_merge less a b b1 h = Done (tt, h') /\
    ring h' (X ++ merge less (a :: A) (b :: B) ++ b1 :: Y) /\
    same_outside (X ++ merge less (a :: A) (b :: B) ++ b1 :: Y) h h' /\ dom h' = dom h.
Proof.
  intros HX Hr HA HB. unfold inplace_merge.
  assert (forall x, x = a \/ x = b \/ x = b1 -> negb (x =? NULL) = true) as Hn.
  { intros x Hx. rewrite nonnull_eqb; [done|]. eapply ring_nonnull; [done | set_solver]. }
  rewrite !assert_true by auto.
  erewrite bind_done by exact (is_sorted_run h X a A b (B ++ b1 :: Y) Hr).
  rewrite assert_true by done.
  erewrite bind_done.
  2:{ apply (is_sorted_run h (X ++ a :: A) b B b1 Y). rewrite <- app_assoc. exact Hr. }
  rewrite assert_true by done. unfold list_fuel. erewrite bind_done by done.
  apply (inplace_merge_loop_run b1 Y (S (size h)) (a :: A) (b :: B)); [done | exact Hr |].
  apply ring_length in Hr. rewrite !length_app in Hr. simpl in *. lia.
Qed.
End on_heap.

(** ** Passes *)

Section passes.
Context (less : Z -> Z -> bool).
Hypothesis less_asym : forall x y, less x y = true -> less y x = false.
Hypothesis le_trans : forall x y z, le less x y -> le less y z -> le less x z.
Implicit Types (h : heap) (X Y xs ys : list Z) (l : Z).

(** What a pass that outputs [k] runs makes of [ys]. *)
Definition pass_post (ys ys' : list Z) (k : nat) : Prop :=
  ys' ≡ₚ ys /\ (nruns less ys' <= k)%nat /\ (2 * k <= nruns less ys + 1)%nat /\
  (forall x, filter (equiv less x) ys' = filter (equiv less x) ys).

Lemma pass_post_refl ys : (nruns less ys <= 1)%nat -> pass_post ys ys (nruns less ys).
Proof. intros. by split_and!; [done | lia | lia |]. Qed.

Lemma pass_post_merge x r y r2 t t' k :
  sorted_from less x r = true -> sorted_from less y r2 = true ->
  nruns less (x :: r ++ y :: r2 ++ t) = S (S (nruns less t)) ->
  pass_post t t' k ->
  pass_post (x :: r ++ y :: r2 ++ t) (merge less (x :: r) (y :: r2) ++ t') (S k).
Proof using less_asym le_trans.
  intros H1%sorted_from_spec H2%sorted_from_spec Hn (Hp & Hk1 & Hk2 & Hst).
  split_and!.
  - rewrite merge_perm, Hp. simpl. by rewrite <- app_assoc.
  - pose proof (nruns_app less (merge less (x :: r) (y :: r2)) t').
    pose proof (proj2 (nruns_sorted less _) (merge_sorted less less_asym _ _ H1 H2)). lia.
  - lia.
  - intros z. rewrite filter_app, merge_stable by done. rewrite Hst.
    change (x :: r ++ y :: r2 ++ t) with ((x :: r) ++ (y :: r2) ++ t).
    by rewrite !filter_app, app_assoc.
Qed.

Lemma list_sort_pass_run l (Hl : l <> NULL) : forall fuel ys X h c,
  X <> [] -> ring h (X ++ ys ++ [tail l]) -> (length ys < fuel)%nat ->
  0 <= c -> c + Z.of_nat (length ys) < 2 ^ 32 ->
  exists h' ys' k,
    list_sort_pass less fuel l (hd (tail l) ys) c h = Done (c + Z.of_nat k, h') /\
    ring h' (X ++ ys' ++ [tail l]) /\ pass_post ys ys' k /\
    same_outside (X ++ ys' ++ [tail l]) h h' /\ dom h' = dom h.
Proof using less_asym le_trans.
  induction fuel as [|fuel IH]; intros ys X h c HX Hr Hf Hc Hlen; [lia|].
  cbn [list_sort_pass]. rewrite (bind_done _ _ _ _ _ (list_end_run h l Hl)).
  destruct ys as [|x ys]; cbn [hd].
  { rewrite Z.eqb_refl. exists h, [], 0%nat. rewrite Z.add_0_r. by split_and!; [..|apply pass_post_refl; simpl; lia| |]. }
  destruct (ring_split_ne _ _ _ _ _ _ Hr) as [Hne _].
  destruct (Z.eqb_spec x (tail l)) as [|_]; [done|]. cbv zeta.
  rewrite (u32_small (c + 1)) by (simpl in Hlen; lia).
  rewrite (bind_done _ _ _ _ _ (find_end_of_run_run less _ _ _ _ _ _ Hr)).
  destruct (split_run less x ys) as [r t] eqn:E1.
  destruct (split_run_spec less x ys r t E1) as (-> & S1 & N1). cbn [snd].
  destruct t as [|y t]; cbn [hd].
  { rewrite Z.eqb_refl. exists h, (x :: r ++ []), 1%nat. split_and!; try done.
    pose proof (pass_post_refl (x :: r ++ [])) as Hp. rewrite N1 in Hp. by apply Hp. }
  rewrite app_comm_cons, <- app_assoc in Hr. rewrite app_assoc in Hr. simpl in Hr.
  destruct (ring_split_ne _ _ _ _ _ _ Hr) as [Hny _].
  destruct (Z.eqb_spec y (tail l)) as [|_]; [done|].
  rewrite (bind_done _ _ _ _ _ (find_end_of_run_run less _ _ _ _ _ _ Hr)).
  destruct (split_run less y t) as [r2 t2] eqn:E2.
  destruct (split_run_spec less y t r2 t2 E2) as (-> & S2 & N2). cbn [snd].
  assert (exists n Y, n = hd (tail l) t2 /\ t2 ++ [tail l] = n :: Y) as (n & Y & En & EY).
  { destruct t2 as [|n t2]; [by exists (tail l), [] | by exists n, (t2 ++ [tail l])]. }
  rewrite <- En. rewrite <- !app_assoc, EY in Hr. 
  destruct (inplace_merge_run less h X x r y r2 n Y HX Hr S1 S2) as (h1 & M1 & R1 & O1 & D1).
  rewrite (bind_done _ _ _ _ _ M1).
  destruct (IH t2 (X ++ merge less (x :: r) (y :: r2)) h1 (c + 1)) as (h2 & t2' & k & P2 & R2 & Q2 & O2 & D2).
  - by destruct X.
  - rewrite <- app_assoc, EY. exact R1.
  - simpl in Hf. rewrite length_app in Hf. simpl in Hf. rewrite length_app in Hf. lia.
  - lia.
  - simpl in Hlen. rewrite length_app in Hlen. simpl in Hlen. rewrite length_app in Hlen. lia.
  - exists h2, (merge less (x :: r) (y :: r2) ++ t2'), (S k). rewrite En, P2.
    split; [do 2 f_equal; lia|]. rewrite <- app_assoc in R2, O2. rewrite <- app_assoc.
    split; [exact R2|]. split; [|split; [|congruence]].
    + apply pass_post_merge; try done. rewrite N1, N2. done.
    + eapply same_outside_trans; [exact O1 | exact O2 |].
      rewrite <- EY. destruct Q2 as [Hp _]. by rewrite Hp.
Qed.

Lemma list_sort_loop_run l (Hl : l <> NULL) : forall fuel ys h,
  list_rep h l ys -> (nruns less ys < fuel)%nat -> Z.of_nat (length ys) < 2 ^ 32 ->
  exists h' ys', list_sort_loop less fuel l h = Done (tt, h') /\
    list_rep h' l ys' /\ ys' ≡ₚ ys /\ Sorted (le less) ys' /\
    (forall x, filter (equiv less x) ys' = filter (equiv less x) ys) /\
    same_outside (nodes l ys) h h' /\ dom h' = dom h.
Proof using less_asym le_trans.
  induction fuel as [|fuel IH]; intros ys h Hr Hf Hlen; [lia|]. cbn [list_sort_loop].
  unfold list_fuel. erewrite bind_done by done.
  rewrite (bind_done _ _ _ _ _ (list_begin_rep _ _ _ Hr)).
  destruct (list_sort_pass_run l Hl (S (size h)) ys [head l] h 0)
    as (h1 & ys1 & k & P1 & R1 & (Q1 & Q2 & Q3 & Q4) & O1 & D1); try done.
  { apply rep_fuel in Hr. lia. }
  rewrite (bind_done _ _ _ _ _ P1).
  assert (same_outside (nodes l ys) h h1) as O1'.
  { intros a Ha. apply O1. by rewrite Q1. }
  destruct (Z.ltb_spec 1 (0 + Z.of_nat k)).
  - destruct (IH ys1 h1) as (h2 & ys2 & P & R & Hp & Hs & Hf2 & O2 & D2).
    + exact R1.
    + lia.
    + by rewrite Q1.
    + exists h2, ys2. split_and!; try done.
      * by rewrite Hp.
      * intros x. by rewrite Hf2.
      * apply (same_outside_trans (nodes l ys) (nodes l ys) h h1 h2); [done | | done].
        intros a Ha. apply O2. unfold nodes in *. by rewrite Q1.
      * congruence.
  - exists h1, ys1. split_and!; try done. apply nruns_sorted. lia.
Qed.

Lemma list_sort_rep h l xs :
  list_rep h l xs -> Z.of_nat (length xs) < 2 ^ 32 ->
  exists h' xs', list_sort less l h = Done (tt, h') /\
    list_rep h' l xs' /\ xs' ≡ₚ xs /\ Sorted (le less) xs' /\
    (forall x, filter (equiv less x) xs' = filter (equiv less x) xs) /\
    same_outside (nodes l xs) h h' /\ dom h' = dom h.
Proof using less_asym le_trans.
  intros Hr Hlen. pose proof (rep_nonnull _ _ _ Hr) as Hl.
  assert (l <> NULL) as Hl' by by apply Z.eqb_neq.
  unfold list_sort. rewrite assert_true by by rewrite Hl.
  unfold list_fuel. erewrite bind_done by done.
  destruct (list_sort_loop_run l Hl' (S (size h)) xs h) as (h' & xs' & P & R & Hp & Hs & Hrest); try done.
  { pose proof (nruns_length less xs). apply rep_fuel in Hr. lia. }
  rewrite (bind_done _ _ _ _ _ P). rewrite (bind_done _ _ _ _ _ (list_begin_rep _ _ _ R)).
  rewrite (bind_done _ _ _ _ _ (list_end_rep _ _ _ R)). exists h', xs'.
  assert (is_sorted less (hd (tail l) xs') (tail l) h' = Done (true, h')) as E.
  { destruct xs' as [|x xs']; cbn [hd]; [unfold is_sorted; by rewrite Z.eqb_refl|].
    rewrite (is_sorted_run less h' [head l] x xs' (tail l) []) by exact R.
    by rewrite (proj2 (sorted_from_spec less x xs') Hs). }
  by rewrite (bind_done _ _ _ _ _ E).
Qed.
End passes.
