(* ===== verification/KListSpec.v ===== *)
(** * What lib/kernel/list.c promises

    The ordered operations that KListSort leaves ([list_insert_ordered],
    [list_unique], [list_max], [list_min]), an abstract list with one step per
    operation of the interface, and the theorem that any sequence of calls on
    the linked list behaves as the sequence of abstract steps. *)

From stdpp Require Import options.
From Stdlib Require Import Sorting.Sorted.
From S2P Require Import Prelude.
From S2P Require Import KList.
From S2P Require Import KListOps.
From S2P Require Import KListSort.
Local Open Scope Z_scope.
Local Open Scope kernel_scope.

(** ** Abstract lists *)

Section abstract.
Context (less : Z -> Z -> bool).

Fixpoint ordered_insert (e : Z) (ys : list Z) : list Z :=
  match ys with
  | [] => [e]
  | y :: ys => if less e y then e :: y :: ys else y :: ordered_insert e ys
  end.

(** Reference sort: insert the elements one after the other. *)
Definition insertion_sort (xs : list Z) : list Z :=
  foldl (fun acc x => ordered_insert x acc) [] xs.

(** First of each group of adjacent equal elements, and the others. *)
Fixpoint uniq_from (x : Z) (ys : list Z) : list Z * list Z :=
  match ys with
  | [] => ([], [])
  | y :: ys =>
      if negb (less x y) && negb (less y x) then
        let '(keep, dups) := uniq_from x ys in (keep, y :: dups)
      else
        let '(keep, dups) := uniq_from y ys in (y :: keep, dups)
  end.

Definition uniq (xs : list Z) : list Z * list Z :=
  match xs with
  | [] => ([], [])
  | x :: ys => let '(keep, dups) := uniq_from x ys in (x :: keep, dups)
  end.

Definition max_from (x : Z) (ys : list Z) : Z :=
  foldl (fun m e => if less m e then e else m) x ys.

Definition min_from (x : Z) (ys : list Z) : Z :=
  foldl (fun m e => if less e m then e else m) x ys.

(** ** The interface, as operations on an abstract list *)

Inductive list_op :=
  | PushFront (e : Z)
  | PushBack (e : Z)
  | InsertBefore (b e : Z)
  | InsertOrdered (e : Z)
  | Remove (e : Z)
  | PopFront
  | PopBack
  | Front
  | Back
  | Size
  | Empty
  | Reverse
  | Sort
  | Unique
  | Max
  | Min.

Fixpoint insert_before (b e : Z) (xs : list Z) : list Z :=
  match xs with
  | [] => [e]
  | x :: xs => if x =? b then e :: x :: xs else x :: insert_before b e xs
  end.

(** The element after [e], [d] at the end. *)
Fixpoint after (e d : Z) (xs : list Z) : Z :=
  match xs with
  | [] => d
  | x :: xs => if x =? e then hd d xs else after e d xs
  end.

Fixpoint remove_first (e : Z) (xs : list Z) : list Z :=
  match xs with
  | [] => []
  | x :: xs => if x =? e then xs else x :: remove_first e xs
  end.

(** Result and next list; the empty list stops the four operations that read an
    end of it on [list_front]'s and [list_back]'s assertion. *)
Definition spec_op (l : Z) (op : list_op) (xs : list Z) : outcome (Z * list Z) :=
  match op with
  | PushFront e => Done (0, e :: xs)
  | PushBack e => Done (0, xs ++ [e])
  | InsertBefore b e => Done (0, insert_before b e xs)
  | InsertOrdered e => Done (0, ordered_insert e xs)
  | Remove e => Done (after e (tail l) xs, remove_first e xs)
  | PopFront => match xs with [] => Fault AssertFailed | x :: xs => Done (x, xs) end
  | PopBack => match last xs with None => Fault AssertFailed | Some x => Done (x, removelast xs) end
  | Front => match xs with [] => Fault AssertFailed | x :: _ => Done (x, xs) end
  | Back => match last xs with None => Fault AssertFailed | Some x => Done (x, xs) end
  | Size => Done (u32 (Z.of_nat (length xs)), xs)
  | Empty => Done (if xs then 1 else 0, xs)
  | Reverse => Done (0, rev xs)
  | Sort => Done (0, insertion_sort xs)
  | Unique => Done (0, fst (uniq xs))
  | Max => Done (match xs with [] => tail l | x :: ys => max_from x ys end, xs)
  | Min => Done (match xs with [] => tail l | x :: ys => min_from x ys end, xs)
  end.

(** The same operations on the heap. *)
Definition run_op (l : Z) (op : list_op) : M heap Z :=
  match op with
  | PushFront e => list_push_front l e ;; ret 0
  | PushBack e => list_push_back l e ;; ret 0
  | InsertBefore b e => list_insert b e ;; ret 0
  | InsertOrdered e => list_insert_ordered less l e ;; ret 0
  | Remove e => list_remove e
  | PopFront => list_pop_front l
  | PopBack => list_pop_back l
  | Front => list_front l
  | Back => list_back l
  | Size => list_size l
  | Empty => let! b := list_empty l in ret (if b : bool then 1 else 0)
  | Reverse => list_reverse l ;; ret 0
  | Sort => list_sort less l ;; ret 0
  | Unique => list_unique less l NULL ;; ret 0
  | Max => list_max less l
  | Min => list_min less l
  end.

(** What a caller owes: an element to insert is a node of memory that is not in
    the list; an element to remove, or to insert before, is in the list; the
    counters of [list_sort] are 32 bits wide. *)
Definition op_ok (cells : gset Z) (l : Z) (xs : list Z) (op : list_op) : Prop :=
  match op with
  | PushFront e | PushBack e | InsertOrdered e =>
      (e ∉ nodes l xs) /\ e <> NULL /\ e ∈ cells
  | InsertBefore b e => (e ∉ nodes l xs) /\ e <> NULL /\ e ∈ cells /\ b ∈ xs ++ [tail l]
  | Remove e => e ∈ xs
  | Sort => Z.of_nat (length xs) < 2 ^ 32
  | _ => True
  end.

#[export] Instance op_ok_dec cells l xs op : Decision (op_ok cells l xs op).
Proof. destruct op; simpl; apply _. Defined.

(** Elements an operation may write besides the nodes of the list. *)
Definition op_elem (op : list_op) : list Z :=
  match op with
  | PushFront e | PushBack e | InsertOrdered e | InsertBefore _ e => [e]
  | _ => []
  end.

Fixpoint spec_ops (l : Z) (ops : list list_op) (xs : list Z) : outcome (list Z * list Z) :=
  match ops with
  | [] => Done ([], xs)
  | op :: ops =>
      let? rx := spec_op l op xs in
      let? rsx := spec_ops l ops (snd rx) in
      Done (fst rx :: fst rsx, snd rsx)
  end.

Fixpoint run_ops (l : Z) (ops : list list_op) : M heap (list Z) :=
  match ops with
  | [] => ret []
  | op :: ops => let! r := run_op l op in let! rs := run_ops l ops in ret (r :: rs)
  end.

Fixpoint ops_ok (cells : gset Z) (l : Z) (xs : list Z) (ops : list list_op) : Prop :=
  match ops with
  | [] => True
  | op :: ops =>
      op_ok cells l xs op /\
      match spec_op l op xs with
      | Done (_, xs') => ops_ok cells l xs' ops
      | Fault _ => True
      end
  end.

#[export] Instance ops_ok_dec cells l xs ops : Decision (ops_ok cells l xs ops).
Proof.
  revert xs. induction ops as [|op ops IH]; intros xs; simpl; [apply _|].
  apply and_dec; [apply _|]. destruct (spec_op l op xs) as [[r xs']|f]; apply _.
Defined.
End abstract.

(** ** Reference sort *)

Section reference.
Context (less : Z -> Z -> bool).
Hypothesis less_asym : forall x y, less x y = true -> less y x = false.
Hypothesis le_trans : forall x y z, le less x y -> le less y z -> le less x z.

Lemma ordered_insert_perm e ys : ordered_insert less e ys ≡ₚ e :: ys.
Proof.
  induction ys as [|y ys IH]; simpl; [done|]. destruct (less e y); [done|].
  rewrite IH. apply Permutation_swap.
Qed.

Lemma ordered_insert_hdrel x e ys :
  HdRel (le less) x ys -> le less x e -> HdRel (le less) x (ordered_insert less e ys).
Proof.
  destruct ys as [|y ys]; simpl; [by constructor|]. intros H1 H2.
  destruct (less e y); constructor; [done | by inversion H1].
Qed.

Lemma ordered_insert_sorted e ys : Sorted (le less) ys -> Sorted (le less) (ordered_insert less e ys).
Proof using less_asym.
  induction 1 as [|y ys Hs IH Hh]; simpl; [by repeat constructor|].
  destruct (less e y) eqn:E.
  - constructor; [by constructor|]. constructor. unfold le. by apply less_asym.
  - constructor; [done|]. by apply ordered_insert_hdrel.
Qed.

Lemma ordered_insert_stable x e ys : Sorted (le less) ys ->
  filter (equiv less x) (ordered_insert less e ys) = filter (equiv less x) (ys ++ [e]).
Proof using less_asym le_trans.
  intros Hs. apply Sorted_StronglySorted in Hs; [|exact le_trans].
  induction Hs as [|y ys Hs IH Hall]; [done|]. cbn [ordered_insert].
  destruct (less e y) eqn:E.
  - rewrite filter_cons. case_decide as He; [|by rewrite filter_app, (filter_cons_False _ e), app_nil_r].
    rewrite filter_app, !(filter_cons_True _ e) by done.
    destruct (filter (equiv less x) (y :: ys)) as [|z zs] eqn:Ez; [done|].
    assert (equiv less x z /\ z ∈ y :: ys) as [Hz Hin].
    { apply (list_elem_of_filter (equiv less x)). rewrite Ez. set_solver. }
    assert (le less y z) as Hyz.
    { apply elem_of_cons in Hin as [->|Hin]; [|rewrite Forall_forall in Hall; by apply Hall].
      unfold le. destruct (less y y) eqn:Eyy; [|done]. by rewrite (less_asym _ _ Eyy) in Eyy. }
    assert (le less y e) as Hye by (eapply le_trans; [exact Hyz|]; eapply le_trans; [apply Hz | apply He]).
    unfold le in Hye. congruence.
  - cbn [app]. rewrite !filter_cons. by case_decide; rewrite IH.
Qed.

Lemma insertion_sort_snoc xs x :
  insertion_sort less (xs ++ [x]) = ordered_insert less x (insertion_sort less xs).
Proof. unfold insertion_sort. by rewrite foldl_app. Qed.

Lemma insertion_sort_spec xs :
  Sorted (le less) (insertion_sort less xs) /\
  forall x, filter (equiv less x) (insertion_sort less xs) = filter (equiv less x) xs.
Proof using less_asym le_trans.
  induction xs as [|x xs IH] using rev_ind; [by repeat constructor|].
  destruct IH as [Hs Hf]. rewrite insertion_sort_snoc. split; [by apply ordered_insert_sorted|].
  intros z. rewrite ordered_insert_stable by done. by rewrite !filter_app, Hf.
Qed.

Lemma equiv_refl x : equiv less x x.
Proof using less_asym.
  unfold equiv, le. destruct (less x x) eqn:E; [|done]. by rewrite (less_asym _ _ E) in E.
Qed.

(** A sorted list is determined by its groups of equal elements. *)
Lemma stable_sort_unique xs : forall ys,
  Sorted (le less) xs -> Sorted (le less) ys ->
  (forall x, filter (equiv less x) xs = filter (equiv less x) ys) -> xs = ys.
Proof using less_asym le_trans.
  assert (forall z zs, filter (equiv less z) (z :: zs) = z :: filter (equiv less z) zs) as Hz.
  { intros. apply filter_cons_True, equiv_refl. }
  induction xs as [|x xs IH]; intros ys Hx Hy Hf.
  { destruct ys as [|y ys]; [done|]. specialize (Hf y). by rewrite Hz in Hf. }
  destruct ys as [|y ys]; [specialize (Hf x); by rewrite Hz in Hf|].
  assert (equiv less x y) as Hxy.
  { apply Sorted_StronglySorted in Hx, Hy; [|exact le_trans..].
    apply StronglySorted_inv in Hx as [_ Hx]. apply StronglySorted_inv in Hy as [_ Hy].
    rewrite Forall_forall in Hx, Hy. split.
    - assert (y ∈ x :: xs) as Hin by (apply (list_elem_of_filter (equiv less y)); rewrite (Hf y), Hz; set_solver).
      apply elem_of_cons in Hin as [->|Hin]; [apply equiv_refl | by apply Hx].
    - assert (x ∈ y :: ys) as Hin by (apply (list_elem_of_filter (equiv less x)); rewrite <- (Hf x), Hz; set_solver).
      apply elem_of_cons in Hin as [->|Hin]; [apply equiv_refl | by apply Hy]. }
  assert (x = y) as ->.
  { specialize (Hf x). rewrite Hz, filter_cons_True in Hf by done. by injection Hf. }
  f_equal. apply Sorted_inv in Hx as [Hx _], Hy as [Hy _]. apply IH; [done..|].
  intros z. specialize (Hf z). rewrite !filter_cons in Hf. case_decide; congruence.
Qed.
End reference.

(** ** The ordered operations on the heap *)

Section ordered_ops.
Context (less : Z -> Z -> bool).
Implicit Types (h : heap) (X Y xs ys ds ns : list Z) (e l d x y : Z).

(** Where [ordered_insert] inserts. *)
Fixpoint insertion_point (e : Z) (ys : list Z) : list Z * list Z :=
  match ys with
  | [] => ([], [])
  | y :: ys =>
      if less e y then ([], y :: ys)
      else let '(X, Y) := insertion_point e ys in (y :: X, Y)
  end.

Lemma insertion_point_spec e ys X Y :
  insertion_point e ys = (X, Y) -> ys = X ++ Y /\ ordered_insert less e ys = X ++ e :: Y.
Proof.
  revert X Y. induction ys as [|y ys IH]; simpl; intros X Y.
  - by intros [= <- <-].
  - destruct (less e y); [by intros [= <- <-]|].
    destruct (insertion_point e ys) as [X' Y'].
    destruct (IH X' Y' eq_refl) as [E1 ->]. intros [= <- <-]. simpl. by rewrite <- E1.
Qed.

Lemma insert_ordered_loop_run h l e ys : l <> NULL -> forall X fuel,
  ring h (X ++ ys ++ [tail l]) -> (length ys < fuel)%nat ->
  insert_ordered_loop less fuel l e (hd (tail l) ys) h =
    Done (hd (tail l) (snd (insertion_point e ys)), h).
Proof.
  intros Hl. induction ys as [|y ys IH]; intros X fuel Hr Hf;
    (destruct fuel as [|fuel]; [simpl in Hf; lia|]); cbn [insert_ordered_loop insertion_point hd];
    rewrite (bind_done _ _ _ _ _ (list_end_run h l Hl)).
  - by rewrite Z.eqb_refl.
  - destruct (ring_split_ne _ _ _ _ _ _ Hr) as [Hne _].
    destruct (Z.eqb_spec y (tail l)) as [|_]; [done|].
    destruct (less e y); [done|]. rewrite (bind_done _ _ _ _ _ (ring_next_hd _ _ _ _ _ _ Hr)).
    rewrite (IH (X ++ [y]) fuel); [|exact (ring_shift _ _ _ _ _ _ Hr) | simpl in Hf; lia].
    by destruct (insertion_point e ys).
Qed.

Lemma list_insert_ordered_rep h l xs e :
  list_rep h l xs -> (e ∉ nodes l xs) -> e <> NULL -> is_Some (h !! e) ->
  exists h', list_insert_ordered less l e h = Done (tt, h') /\
    list_rep h' l (ordered_insert less e xs) /\
    same_outside (nodes l (ordered_insert less e xs)) h h' /\ dom h' = dom h.
Proof.
  intros Hr He He0 Hc. pose proof (rep_nonnull _ _ _ Hr) as Hl0.
  assert (l <> NULL) as Hl by (by apply Z.eqb_neq).
  unfold list_insert_ordered. rewrite !assert_true by (by rewrite ?Hl0, ?nonnull_eqb).
  unfold list_fuel. erewrite bind_done by done.
  rewrite (bind_done _ _ _ _ _ (list_begin_rep _ _ _ Hr)).
  erewrite bind_done.
  2:{ apply (insert_ordered_loop_run h l e xs Hl [head l]); [exact Hr|]. apply rep_fuel in Hr. lia. }
  destruct (insertion_point e xs) as [X Y] eqn:E.
  destruct (insertion_point_spec _ _ _ _ E) as [-> ->]. by apply list_insert_rep.
Qed.

Lemma list_max_loop_run h l ys : l <> NULL -> forall X m fuel,
  ring h (X ++ ys ++ [tail l]) -> (length ys < fuel)%nat ->
  list_max_loop less fuel l m (hd (tail l) ys) h = Done (max_from less m ys, h).
Proof.
  intros Hl. induction ys as [|y ys IH]; intros X m fuel Hr Hf;
    (destruct fuel as [|fuel]; [simpl in Hf; lia|]); cbn [list_max_loop hd];
    rewrite (bind_done _ _ _ _ _ (list_end_run h l Hl)).
  - by rewrite Z.eqb_refl.
  - destruct (ring_split_ne _ _ _ _ _ _ Hr) as [Hne _].
    destruct (Z.eqb_spec y (tail l)) as [|_]; [done|]. cbv zeta.
    rewrite (bind_done _ _ _ _ _ (ring_next_hd _ _ _ _ _ _ Hr)).
    apply (IH (X ++ [y])); [exact (ring_shift _ _ _ _ _ _ Hr) | simpl in Hf; lia].
Qed.

Lemma list_min_loop_run h l ys : l <> NULL -> forall X m fuel,
  ring h (X ++ ys ++ [tail l]) -> (length ys < fuel)%nat ->
  list_min_loop less fuel l m (hd (tail l) ys) h = Done (min_from less m ys, h).
Proof.
  intros Hl. induction ys as [|y ys IH]; intros X m fuel Hr Hf;
    (destruct fuel as [|fuel]; [simpl in Hf; lia|]); cbn [list_min_loop hd];
    rewrite (bind_done _ _ _ _ _ (list_end_run h l Hl)).
  - by rewrite Z.eqb_refl.
  - destruct (ring_split_ne _ _ _ _ _ _ Hr) as [Hne _].
    destruct (Z.eqb_spec y (tail l)) as [|_]; [done|]. cbv zeta.
    rewrite (bind_done _ _ _ _ _ (ring_next_hd _ _ _ _ _ _ Hr)).
    apply (IH (X ++ [y])); [exact (ring_shift _ _ _ _ _ _ Hr) | simpl in Hf; lia].
Qed.

Lemma list_max_rep h l xs : list_rep h l xs ->
  list_max less l h =
    Done (match xs with [] => tail l | x :: ys => max_from less x ys end, h).
Proof.
  intros Hr. assert (l <> NULL) as Hl by by eapply Z.eqb_neq, rep_nonnull. unfold list_max.
  rewrite (bind_done _ _ _ _ _ (list_begin_rep _ _ _ Hr)).
  rewrite (bind_done _ _ _ _ _ (list_end_rep _ _ _ Hr)).
  rewrite (hd_tail_eqb _ _ _ Hr). destruct xs as [|x ys]; [done|].
  unfold list_fuel. erewrite bind_done by done. cbn [hd].
  rewrite (bind_done _ _ _ _ _ (ring_next_hd _ [head l] x ys (tail l) [] Hr)).
  apply (list_max_loop_run h l ys Hl [head l; x]); [exact Hr|]. apply rep_fuel in Hr. simpl in Hr. lia.
Qed.

Lemma list_min_rep h l xs : list_rep h l xs ->
  list_min less l h =
    Done (match xs with [] => tail l | x :: ys => min_from less x ys end, h).
Proof.
  intros Hr. assert (l <> NULL) as Hl by by eapply Z.eqb_neq, rep_nonnull. unfold list_min.
  rewrite (bind_done _ _ _ _ _ (list_begin_rep _ _ _ Hr)).
  rewrite (bind_done _ _ _ _ _ (list_end_rep _ _ _ Hr)).
  rewrite (hd_tail_eqb _ _ _ Hr). destruct xs as [|x ys]; [done|].
  unfold list_fuel. erewrite bind_done by done. cbn [hd].
  rewrite (bind_done _ _ _ _ _ (ring_next_hd _ [head l] x ys (tail l) [] Hr)).
  apply (list_min_loop_run h l ys Hl [head l; x]); [exact Hr|]. apply rep_fuel in Hr. simpl in Hr. lia.
Qed.
End ordered_ops.

(** ** Removing duplicates *)

Section uniqueness.
Implicit Types (h : heap) (X Y xs ys ds ns : list Z) (e l d x y : Z).

Lemma rep_frame h h' ns d ds :
  same_outside ns h h' -> (forall a, a ∈ nodes d ds -> a ∉ ns) ->
  list_rep h d ds -> list_rep h' d ds.
Proof.
  intros Hs Hd (Hc & Hnd & H0 & Hh & Hl).
  assert (forall a, a ∈ nodes d ds -> nx h' a = nx h a /\ pv h' a = pv h a) as Hsame.
  { intros a Ha. unfold nx, pv. by rewrite Hs by by apply Hd. }
  split_and!; [|done..| |].
  - eapply chain_frame; [done | | | done]; intros; by apply Hsame.
  - intros a Ha. rewrite (proj2 (Hsame a (head_Some_elem_of _ _ Ha))). by apply Hh.
  - intros a Ha. rewrite (proj1 (Hsame a (last_Some_elem_of _ _ Ha))). by apply Hl.
Qed.

(** The list that collects the duplicates, if there is one. *)
Definition dups_rep (h : heap) (d : Z) (ds : list Z) : Prop := d = NULL \/ list_rep h d ds.

Definition dups_nodes (d : Z) (ds : list Z) : list Z := if d =? NULL then [] else nodes d ds.

Definition apart (ns ms : list Z) : Prop := forall a, a ∈ ns -> a ∉ ms.

(** Moving the element [y] from the list [l] to the list of duplicates. *)
Lemma move_duplicate h l d xs y ys ds :
  list_rep h l (xs ++ y :: ys) -> dups_rep h d ds ->
  apart (dups_nodes d ds) (nodes l (xs ++ y :: ys)) ->
  exists h',
    (list_remove y ;; (if negb (d =? NULL) then list_push_back d y else ret tt)) h = Done (tt, h') /\
    list_rep h' l (xs ++ ys) /\ dups_rep h' d (ds ++ [y]) /\
    apart (dups_nodes d (ds ++ [y])) (nodes l (xs ++ ys)) /\
    same_outside (dups_nodes d ds ++ nodes l (xs ++ y :: ys)) h h' /\ dom h' = dom h.
Proof.
  intros Hr Hd Hap. destruct (list_remove_rep _ _ _ _ _ Hr) as (h1 & E1 & R1 & O1 & D1).
  rewrite (bind_done _ _ _ _ _ E1).
  assert (y ∉ nodes l (xs ++ ys)) as Hy.
  { destruct Hr as (_ & Hnd & _). unfold nodes in *. clear -Hnd.
    assert (NoDup (y :: (head l :: xs) ++ ys ++ [tail l])) as [Hn _]%NoDup_cons.
    { rewrite Permutation_middle. simpl. by rewrite <- app_assoc in Hnd. }
    by rewrite <- app_assoc. }
  assert (y <> NULL) as Hy0 by (eapply ring_nonnull; [exact Hr | unfold nodes; set_solver]).
  assert (forall a, a ∈ nodes l (xs ++ ys) -> a ∈ nodes l (xs ++ y :: ys)) as Hsub
    by (unfold nodes; clear; set_solver).
  unfold dups_nodes in *. destruct (Z.eqb_spec d NULL) as [->|Hd0].
  { exists h1. split_and!; [done | done | by left | by intros a ?%not_elem_of_nil | | done].
    intros a Ha. apply O1. intros ?%Hsub. by apply Ha. }
  destruct Hd as [|Hd]; [done|].
  assert (list_rep h1 d ds) as Hd1.
  { eapply rep_frame; [exact O1 | | exact Hd]. intros a Ha ?%Hsub. by apply (Hap a). }
  destruct (list_push_back_rep h1 d ds y Hd1) as (h2 & E2 & R2 & O2 & D2); [| done | |].
  - intros Hin. apply (Hap _ Hin). unfold nodes. set_solver.
  - apply elem_of_dom. rewrite D1. apply elem_of_dom. eapply ring_cell; [exact Hr|]. unfold nodes. set_solver.
  - assert (forall a, a ∈ nodes d (ds ++ [y]) -> a ∈ nodes d ds \/ a = y) as Hsub2
      by (unfold nodes; clear; set_solver).
    exists h2. split_and!.
    + done.
    + eapply rep_frame; [exact O2 | | exact R1]. intros a Ha Hin.
      apply Hsub2 in Hin as [Hin| ->]; [|done]. apply (Hap _ Hin). by apply Hsub.
    + by right.
    + intros a Ha Hin. apply Hsub2 in Ha as [Ha| ->]; [|done]. apply (Hap _ Ha). by apply Hsub.
    + intros a Ha. rewrite O2, O1; [done | |]; intros Hin; apply Ha, elem_of_app.
      * right. by apply Hsub.
      * apply Hsub2 in Hin as [Hin| ->]; [by left | right; unfold nodes; set_solver].
    + congruence.
Qed.

Lemma rep_next h l xs x ys :
  list_rep h l (xs ++ x :: ys) -> list_next x h = Done (hd (tail l) ys, h).
Proof.
  intros Hr. apply (ring_next_hd h (head l :: xs) x ys (tail l) []).
  unfold list_rep, nodes in Hr. by rewrite <- app_assoc in Hr.
Qed.

Context (less : Z -> Z -> bool).

Lemma list_unique_loop_run l d (Hl : l <> NULL) : forall ys xs x ds h fuel keep dups,
  list_rep h l (xs ++ x :: ys) -> dups_rep h d ds ->
  apart (dups_nodes d ds) (nodes l (xs ++ x :: ys)) -> (length ys < fuel)%nat ->
  uniq_from less x ys = (keep, dups) ->
  exists h', list_unique_loop less fuel l d x h = Done (tt, h') /\
    list_rep h' l (xs ++ x :: keep) /\ dups_rep h' d (ds ++ dups) /\
    same_outside (dups_nodes d ds ++ nodes l (xs ++ x :: ys)) h h' /\ dom h' = dom h.
Proof.
  induction ys as [|y ys IH]; intros xs x ds h fuel keep dups Hr Hd Hap Hf Hu;
    (destruct fuel as [|fuel]; [simpl in Hf; lia|]); cbn [list_unique_loop uniq_from] in *.
  { injection Hu as <- <-. rewrite (bind_done _ _ _ _ _ (rep_next _ _ _ _ _ Hr)).
    rewrite (bind_done _ _ _ _ _ (list_end_run h l Hl)). cbn [hd]. rewrite Z.eqb_refl, app_nil_r.
    by exists h. }
  rewrite (bind_done _ _ _ _ _ (rep_next _ _ _ _ _ Hr)).
  rewrite (bind_done _ _ _ _ _ (list_end_run h l Hl)). cbn [hd].
  destruct (Z.eqb_spec y (tail l)) as [->|_].
  { apply rep_notin in Hr as (_ & _ & Ht & _). exfalso. apply Ht. clear. set_solver. }
  assert (xs ++ x :: y :: ys = (xs ++ [x]) ++ y :: ys) as Ea by (by rewrite <- app_assoc).
  destruct (negb (less x y) && negb (less y x)).
  - destruct (uniq_from less x ys) as [k2 d2] eqn:Eu. injection Hu as <- <-.
    rewrite Ea in Hr, Hap |- *.
    destruct (move_duplicate h l d (xs ++ [x]) y ys ds Hr Hd Hap) as (h1 & E1 & R1 & Hd1 & Hap1 & O1 & D1).
    rewrite <- app_assoc in R1, Hap1. simpl in R1, Hap1.
    destruct (IH xs x (ds ++ [y]) h1 fuel k2 d2 R1 Hd1 Hap1) as (h2 & E2 & R2 & Hd2 & O2 & D2); [simpl in Hf; lia | done |].
    exists h2. split_and!; [|done | by rewrite <- app_assoc in Hd2 | | congruence].
    + rewrite <- E2. revert E1. unfold bind. destruct (list_remove y h) as [[? h0]|]; [|done].
      by intros ->.
    + intros a Ha. rewrite O2, O1; [done | done |]. clear -Ha. unfold dups_nodes, nodes in *.
      destruct (d =? NULL); set_solver.
  - destruct (uniq_from less y ys) as [k2 d2] eqn:Eu. injection Hu as <- <-.
    rewrite Ea in Hr, Hap |- *.
    destruct (IH (xs ++ [x]) y ds h fuel k2 d2 Hr Hd Hap) as (h2 & E2 & R2 & Hd2 & O2 & D2); [simpl in Hf; lia | done |].
    exists h2. by rewrite <- app_assoc in R2.
Qed.

Lemma list_unique_rep h l d xs ds :
  list_rep h l xs -> dups_rep h d ds -> apart (dups_nodes d ds) (nodes l xs) ->
  exists h', list_unique less l d h = Done (tt, h') /\
    list_rep h' l (fst (uniq less xs)) /\ dups_rep h' d (ds ++ snd (uniq less xs)) /\
    same_outside (dups_nodes d ds ++ nodes l xs) h h' /\ dom h' = dom h.
Proof.
  intros Hr Hd Hap. pose proof (rep_nonnull _ _ _ Hr) as Hl0.
  assert (l <> NULL) as Hl by (by apply Z.eqb_neq).
  unfold list_unique. rewrite assert_true by (by rewrite Hl0).
  rewrite (bind_done _ _ _ _ _ (list_empty_rep _ _ _ Hr)).
  destruct xs as [|x xs]; [exists h; by rewrite app_nil_r|].
  unfold list_fuel. erewrite bind_done by done.
  rewrite (bind_done _ _ _ _ _ (list_begin_rep _ _ _ Hr)). cbn [uniq hd].
  destruct (uniq_from less x xs) as [keep dups] eqn:Eu.
  apply (list_unique_loop_run l d Hl xs [] x ds h _ keep dups); try done.
  apply rep_fuel in Hr. simpl in Hr. lia.
Qed.
End uniqueness.

(** ** Simulation *)

Section simulation.
Implicit Types (h : heap) (xs ys : list Z) (op : list_op) (b e l x : Z).

Lemma insert_before_split b e l xs :
  b ∈ xs ++ [tail l] -> exists X Y,
    xs = X ++ Y /\ hd (tail l) Y = b /\ insert_before b e xs = X ++ e :: Y.
Proof.
  induction xs as [|x xs IH]; intros Hb; simpl.
  - exists [], []. set_solver.
  - destruct (Z.eqb_spec x b) as [->|Hne]; [by exists [], (b :: xs)|].
    destruct IH as (X & Y & -> & E & ->); [set_solver|]. by exists (x :: X), Y.
Qed.

Lemma remove_split e d xs :
  e ∈ xs -> exists X Y,
    xs = X ++ e :: Y /\ after e d xs = hd d Y /\ remove_first e xs = X ++ Y.
Proof.
  induction xs as [|x xs IH]; intros He; [by apply not_elem_of_nil in He|]. simpl.
  destruct (Z.eqb_spec x e) as [->|Hne]; [by exists [], xs|].
  destruct IH as (X & Y & -> & E & ->); [set_solver|]. by exists (x :: X), Y.
Qed.

Lemma same_outside_sub ns ms h h' :
  same_outside ns h h' -> (forall a, a ∈ ns -> a ∈ ms) -> same_outside ms h h'.
Proof. intros H1 Hs a Ha. apply H1. intros ?%Hs. done. Qed.

Definition op_post (op : list_op) (l : Z) (xs xs' : list Z) (h h' : heap) : Prop :=
  list_rep h' l xs' /\ same_outside (op_elem op ++ nodes l xs) h h' /\ dom h' = dom h.

Lemma op_post_id op l xs h : list_rep h l xs -> op_post op l xs xs h h.
Proof. done. Qed.

(** An insertion at any place, in the form the operations share. *)
Lemma insert_post h l X Y e :
  list_rep h l (X ++ Y) -> (e ∉ nodes l (X ++ Y)) -> e <> NULL -> e ∈ dom h ->
  exists h', list_insert (hd (tail l) Y) e h = Done (tt, h') /\
    list_rep h' l (X ++ e :: Y) /\ same_outside (e :: nodes l (X ++ Y)) h h' /\ dom h' = dom h.
Proof.
  intros Hr He He0 Hc%elem_of_dom. destruct (list_insert_rep _ _ _ _ _ Hr He He0 Hc) as (h' & E & R & O & D).
  exists h'. split_and!; try done. eapply same_outside_sub; [exact O|]. unfold nodes. clear. set_solver.
Qed.

Lemma remove_post h l X e Y :
  list_rep h l (X ++ e :: Y) ->
  exists h', list_remove e h = Done (hd (tail l) Y, h') /\
    list_rep h' l (X ++ Y) /\ same_outside (nodes l (X ++ e :: Y)) h h' /\ dom h' = dom h.
Proof.
  intros Hr. destruct (list_remove_rep _ _ _ _ _ Hr) as (h' & E & R & O & D).
  exists h'. split_and!; try done. eapply same_outside_sub; [exact O|]. unfold nodes. clear. set_solver.
Qed.

Context (less : Z -> Z -> bool).
Hypothesis less_asym : forall x y, less x y = true -> less y x = false.
Hypothesis le_trans : forall x y z, le less x y -> le less y z -> le less x z.

Lemma list_sort_insertion h l xs :
  list_rep h l xs -> Z.of_nat (length xs) < 2 ^ 32 ->
  exists h', list_sort less l h = Done (tt, h') /\
    list_rep h' l (insertion_sort less xs) /\ same_outside (nodes l xs) h h' /\ dom h' = dom h.
Proof using less_asym le_trans.
  intros Hr Hlen.
  destruct (list_sort_rep less less_asym le_trans h l xs Hr Hlen) as (h' & xs' & E & R & _ & Hs & Hf & O & D).
  destruct (insertion_sort_spec less less_asym le_trans xs) as [Hs' Hf'].
  exists h'. split_and!; try done.
  rewrite <- (stable_sort_unique less less_asym le_trans xs'); [done..|].
  intros x. by rewrite Hf, Hf'.
Qed.

Lemma run_op_insert h l X Y e (op : list_op) (m : M heap unit) :
  list_rep h l (X ++ Y) -> (e ∉ nodes l (X ++ Y)) -> e <> NULL -> e ∈ dom h ->
  op_elem op = [e] -> m h = list_insert (hd (tail l) Y) e h ->
  exists h', (m ;; ret 0) h = Done (0, h') /\ op_post op l (X ++ Y) (X ++ e :: Y) h h'.
Proof.
  intros Hr He He0 Hc Ho Em. destruct (insert_post _ _ _ _ _ Hr He He0 Hc) as (h' & E & P).
  exists h'. unfold op_post. rewrite Ho. split; [|done]. unfold bind. by rewrite Em, E.
Qed.

Lemma ends_of_empty h l : list_rep h l [] ->
  list_front l h = Fault AssertFailed /\ list_back l h = Fault AssertFailed.
Proof.
  intros Hr. unfold list_front, list_back.
  by rewrite !(bind_done _ _ _ _ _ (list_empty_rep _ _ _ Hr)).
Qed.

Lemma run_insert_sim op h l xs e :
  op = PushFront e \/ op = PushBack e \/ op = InsertOrdered e \/ (exists b, op = InsertBefore b e) ->
  list_rep h l xs -> op_ok (dom h) l xs op ->
  exists xs' h', spec_op less l op xs = Done (0, xs') /\
    run_op less l op h = Done (0, h') /\ op_post op l xs xs' h h'.
Proof.
  intros Hop Hr Hok. assert (is_Some (h !! e) /\ e <> NULL /\ (e ∉ nodes l xs)) as (Hc & He0 & He).
  { destruct Hop as [->|[->|[->|[b ->]]]]; simpl in Hok; rewrite elem_of_dom in Hok; by intuition. }
  apply elem_of_dom in Hc. destruct Hop as [->|[->|[->|[b ->]]]]; simpl in *.
  - exists (e :: xs). destruct (run_op_insert h l [] xs e (PushFront e) (list_push_front l e)) as (h' & E & P); try done.
    + unfold list_push_front. by rewrite (bind_done _ _ _ _ _ (list_begin_rep _ _ _ Hr)).
    + by exists h'.
  - exists (xs ++ [e]). destruct (run_op_insert h l xs [] e (PushBack e) (list_push_back l e)) as (h' & E & P);
      rewrite ?app_nil_r; try done.
    + unfold list_push_back. by rewrite (bind_done _ _ _ _ _ (list_end_rep _ _ _ Hr)).
    + exists h'. by rewrite app_nil_r in P.
  - exists (ordered_insert less e xs). apply elem_of_dom in Hc.
    destruct (list_insert_ordered_rep less h l xs e Hr He He0 Hc) as (h' & E & R & O & D).
    exists h'. rewrite (bind_done _ _ _ _ _ E). split_and!; try done. split_and!; try done.
    eapply same_outside_sub; [exact O|]. intros a. unfold nodes, op_elem.
    rewrite ordered_insert_perm. clear. set_solver.
  - destruct Hok as (_ & _ & _ & Hb). destruct (insert_before_split b e l xs Hb) as (X & Y & -> & <- & ->).
    exists (X ++ e :: Y). destruct (run_op_insert h l X Y e (InsertBefore (hd (tail l) Y) e)
      (list_insert (hd (tail l) Y) e)) as (h' & E & P); try done. by exists h'.
Qed.

Lemma run_take_sim op h l xs :
  op = PopFront \/ op = PopBack \/ (exists e, op = Remove e) ->
  list_rep h l xs -> op_ok (dom h) l xs op ->
  match spec_op less l op xs with
  | Done (r, xs') => exists h', run_op less l op h = Done (r, h') /\ op_post op l xs xs' h h'
  | Fault f => run_op less l op h = Fault f
  end.
Proof.
  intros Hop Hr Hok. unfold op_post. destruct Hop as [->|[->|[e ->]]]; simpl in *.
  - destruct xs as [|x xs]; unfold list_pop_front.
    { by rewrite (bind_fault _ _ _ _ (proj1 (ends_of_empty _ _ Hr))). }
    rewrite (bind_done _ _ _ _ _ (list_front_rep _ _ _ _ Hr)).
    destruct (remove_post h l [] x xs Hr) as (h' & E & P). exists h'. by rewrite (bind_done _ _ _ _ _ E).
  - unfold list_pop_back. destruct xs as [|x xs _] using rev_ind.
    { by rewrite (bind_fault _ _ _ _ (proj2 (ends_of_empty _ _ Hr))). }
    rewrite last_snoc, removelast_last. rewrite (bind_done _ _ _ _ _ (list_back_rep _ _ _ _ Hr)).
    destruct (remove_post h l xs x [] Hr) as (h' & E & P). exists h'. rewrite (bind_done _ _ _ _ _ E).
    by rewrite app_nil_r in P.
  - destruct (remove_split e (tail l) xs Hok) as (X & Y & -> & -> & ->). by apply remove_post.
Qed.

Lemma run_op_sim op h l xs :
  list_rep h l xs -> op_ok (dom h) l xs op ->
  match spec_op less l op xs with
  | Done (r, xs') => exists h', run_op less l op h = Done (r, h') /\ op_post op l xs xs' h h'
  | Fault f => run_op less l op h = Fault f
  end.
Proof using less_asym le_trans.
  intros Hr Hok. destruct op as [e|e|b e|e|e| | | | | | | | | | | ].
  1-4: match type of Hok with op_ok _ _ _ ?o =>
    destruct (run_insert_sim o h l xs e) as (xs' & h' & -> & ?); [naive_solver | exact Hr | exact Hok | by exists h']
  end.
  1-3: apply run_take_sim; naive_solver.
  - simpl. destruct xs as [|x xs]; [by apply ends_of_empty|]. exists h. by rewrite (list_front_rep _ _ _ _ Hr).
  - simpl. destruct xs as [|x xs _] using rev_ind; [by apply ends_of_empty|]. rewrite last_snoc.
    exists h. by rewrite (list_back_rep _ _ _ _ Hr).
  - exists h. simpl. by rewrite (list_size_rep _ _ _ Hr).
  - exists h. simpl. rewrite (bind_done _ _ _ _ _ (list_empty_rep _ _ _ Hr)). by destruct xs.
  - simpl. destruct (list_reverse_rep h l xs Hr) as (h' & E & P). exists h'. by rewrite (bind_done _ _ _ _ _ E).
  - simpl. destruct (list_sort_insertion h l xs Hr Hok) as (h' & E & P). exists h'. by rewrite (bind_done _ _ _ _ _ E).
  - simpl. destruct (list_unique_rep less h l NULL xs [] Hr) as (h' & E & R & _ & O & D).
    { by left. } { by intros a ?%not_elem_of_nil. }
    exists h'. by rewrite (bind_done _ _ _ _ _ E).
  - exists h. simpl. by rewrite (list_max_rep less _ _ _ Hr).
  - exists h. simpl. by rewrite (list_min_rep less _ _ _ Hr).
Qed.

Lemma uniq_from_elems x ys : forall a, a ∈ fst (uniq_from less x ys) -> a ∈ ys.
Proof.
  clear less_asym le_trans.
  revert x. induction ys as [|y ys IH]; intros x a; simpl; [done|].
  specialize (IH (if negb (less x y) && negb (less y x) then x else y) a).
  destruct (negb (less x y) && negb (less y x)); destruct (uniq_from less _ ys); simpl in *; set_solver.
Qed.

Lemma insertion_sort_elems xs a : a ∈ insertion_sort less xs -> a ∈ xs.
Proof.
  clear less_asym le_trans.
  induction xs as [|x xs IH] using rev_ind; [done|].
  rewrite insertion_sort_snoc, ordered_insert_perm. set_solver.
Qed.

Lemma spec_op_elems op l xs r xs' :
  spec_op less l op xs = Done (r, xs') -> forall a, a ∈ xs' -> a ∈ op_elem op ++ xs.
Proof.
  clear less_asym le_trans.
  intros E a. assert (forall e ys, a ∈ remove_first e ys -> a ∈ ys) as Hrem.
  { clear. intros e ys. induction ys as [|y ys IH]; simpl; [set_solver|]. case_match; set_solver. }
  assert (forall b e ys, a ∈ insert_before b e ys -> a ∈ e :: ys) as Hins.
  { clear. intros b e ys. induction ys as [|y ys IH]; simpl; [done|]. case_match; set_solver. }
  destruct op as [e|e|b e|e|e| | | | | | | | | | | ]; simpl in *; simplify_eq; try done.
  - set_solver.
  - apply Hins.
  - by rewrite ordered_insert_perm.
  - apply Hrem.
  - destruct xs; simplify_eq; set_solver.
  - destruct xs as [|x xs _] using rev_ind; [done|]. rewrite last_snoc, removelast_last in E.
    simplify_eq. set_solver.
  - destruct xs; by simplify_eq.
  - destruct (last xs); by simplify_eq.
  - by rewrite <- Permutation_rev.
  - apply insertion_sort_elems.
  - destruct xs as [|x xs]; [done|]. simpl. pose proof (uniq_from_elems x xs a).
    destruct (uniq_from less x xs); set_solver.
Qed.

Lemma run_ops_sim ops l : forall xs h,
  list_rep h l xs -> ops_ok less (dom h) l xs ops ->
  match spec_ops less l ops xs with
  | Done (rs, xs') => exists h', run_ops less l ops h = Done (rs, h') /\ list_rep h' l xs' /\
      same_outside (concat (map op_elem ops) ++ nodes l xs) h h' /\ dom h' = dom h
  | Fault f => run_ops less l ops h = Fault f
  end.
Proof using less_asym le_trans.
  induction ops as [|op ops IH]; intros xs h Hr Hok; [by exists h|].
  destruct Hok as [Hop Hok]. pose proof (run_op_sim op h l xs Hr Hop) as Hsim. cbn [spec_ops run_ops].
  destruct (spec_op less l op xs) as [[r xs1]|f] eqn:E1; cbn [obind fst snd].
  2:{ by rewrite (bind_fault _ _ _ _ Hsim). }
  destruct Hsim as (h1 & Eh & R1 & O1 & D1). rewrite (bind_done _ _ _ _ _ Eh).
  rewrite <- D1 in Hok. specialize (IH xs1 h1 R1 Hok).
  destruct (spec_ops less l ops xs1) as [[rs xs2]|f]; cbn [obind fst snd].
  2:{ by rewrite (bind_fault _ _ _ _ IH). }
  destruct IH as (h2 & E2 & R2 & O2 & D2). exists h2. rewrite (bind_done _ _ _ _ _ E2).
  split_and!; [done | done | | congruence].
  pose proof (spec_op_elems op l xs r xs1 E1) as Hel.
  intros a Ha. rewrite O2, O1; [done | |]; intros Hin; apply Ha; revert Hin; cbn [map concat];
    unfold nodes; rewrite !elem_of_app, !elem_of_cons, !elem_of_app; [tauto|].
  specialize (Hel a). rewrite elem_of_app in Hel. tauto.
Qed.
End simulation.

(** ** Properties *)

Lemma list_init_rep h l :
  l <> NULL -> tail l <> NULL -> is_Some (h !! head l) -> is_Some (h !! tail l) ->
  exists h', list_init l h = Done (tt, h') /\ list_rep h' l [] /\
    same_outside (nodes l []) h h' /\ dom h' = dom h.
Proof.
  intros Hl Ht Ch Ct. unfold list_init. rewrite assert_true by by rewrite nonnull_eqb.
  assert (head l <> tail l) by (unfold head, tail; lia).
  erewrite bind_done by by apply store_prev_ok.
  erewrite bind_done by (apply store_next_ok; by rewrite cell_set_prev).
  erewrite bind_done by (apply store_prev_ok; by rewrite cell_set_next, cell_set_prev).
  rewrite store_next_ok by by rewrite cell_set_prev, cell_set_next, cell_set_prev.
  eexists. split; [reflexivity|]. split_and!.
  - split_and!.
    + split; [|done]. split; cells congruence; done.
    + unfold nodes. simpl. apply NoDup_cons. split; [|apply NoDup_singleton]. by rewrite list_elem_of_singleton.
    + unfold nodes. simpl. rewrite !elem_of_cons. intros [?|[?|?%not_elem_of_nil]]; done.
    + intros a [= <-]. cells congruence. done.
    + intros a [= <-]. cells congruence. done.
  - intros a Ha. unfold nodes in Ha. simpl in Ha. apply not_elem_of_cons in Ha as [H1 Ha].
    apply not_elem_of_cons in Ha as [H2 _].
    rewrite lookup_set_next, lookup_set_prev, lookup_set_next, lookup_set_prev.
    by repeat rewrite decide_False by congruence.
  - unfold set_next, set_prev. by rewrite !dom_alter_L.
Qed.

(** C10: a kernel list refines an abstract list.  From any memory that holds the
    two sentinels, [list_init] followed by any sequence of calls whose callers
    keep their obligations returns exactly the results of the abstract
    operations, stops on an assertion exactly where the abstract run does, ends
    with the abstract contents linked in memory, and writes no node that is
    neither in the list nor handed to it. *)
Theorem klist_simulates (less : Z -> Z -> bool) (ops : list list_op) (l : Z) (h : heap)
  (Hasym : forall x y, less x y = true -> less y x = false)
  (Htrans : forall x y z, le less x y -> le less y z -> le less x z)
  (Hl : l <> NULL) (Ht : tail l <> NULL)
  (Hch : is_Some (h !! head l)) (Hct : is_Some (h !! tail l))
  (Hok : ops_ok less (dom h) l [] ops) :
  match spec_ops less l ops [] with
  | Done (rs, xs) => exists h', (list_init l ;; run_ops less l ops) h = Done (rs, h') /\
      list_rep h' l xs /\
      same_outside (concat (map op_elem ops) ++ nodes l []) h h' /\ dom h' = dom h
  | Fault f => (list_init l ;; run_ops less l ops) h = Fault f
  end.
Proof.
  destruct (list_init_rep h l Hl Ht Hch Hct) as (h0 & E0 & R0 & O0 & D0).
  rewrite <- D0 in Hok. pose proof (run_ops_sim less Hasym Htrans ops l [] h0 R0 Hok) as Hsim.
  rewrite (bind_done _ _ _ _ _ E0). destruct (spec_ops less l ops []) as [[rs xs]|f]; [|done].
  destruct Hsim as (h' & E & R & O & D). exists h'. split_and!; [done | done | | congruence].
  intros a Ha. rewrite O by done. apply O0. intros ?. apply Ha, elem_of_app. by right.
Qed.

Lemma ltb_asym x y : (x <? y) = true -> (y <? x) = false.
Proof. rewrite Z.ltb_lt, Z.ltb_ge. lia. Qed.

Lemma ltb_le_trans x y z : le Z.ltb x y -> le Z.ltb y z -> le Z.ltb x z.
Proof. unfold le. rewrite !Z.ltb_ge. lia. Qed.

Definition demo_heap : heap :=
  list_to_map ((fun a => (a, mk_elem 7 9)) <$> [100; 108; 200; 210; 220; 230]).

Definition demo_ops : list list_op :=
  [PushBack 220; PushFront 230; InsertOrdered 200; Sort; InsertBefore 220 210;
   Size; PopFront; Remove 220; Reverse; Max].

Lemma klist_simulates_witness :
  exists h', (list_init 100 ;; run_ops Z.ltb 100 demo_ops) demo_heap
    = Done ([0; 0; 0; 0; 0; 4; 200; 230; 0; 230], h') /\ list_rep h' 100 [230; 210].
Proof.
  assert (spec_ops Z.ltb 100 demo_ops [] = Done ([0; 0; 0; 0; 0; 4; 200; 230; 0; 230], [230; 210])) as ES
    by reflexivity.
  pose proof (klist_simulates Z.ltb demo_ops 100 demo_heap) as H. rewrite ES in H.
  destruct H as (h' & E & R & _).
  - exact ltb_asym.
  - exact ltb_le_trans.
  - done.
  - done.
  - by eexists.
  - by eexists.
  - apply (bool_decide_unpack _). by vm_compute.
  - exists h'. split; [exact E | exact R].
Defined.

(** C22: [list_sort] terminates without a fault on every list shorter than 2^32,
    leaves a list that is sorted, is a permutation of the original and keeps
    equal elements in their order, and equals the list that inserting the
    elements one after the other with [list_insert_ordered] would build. *)
Theorem list_sort_correct (less : Z -> Z -> bool) (h : heap) (l : Z) (xs : list Z)
  (Hasym : forall x y, less x y = true -> less y x = false)
  (Htrans : forall x y z, le less x y -> le less y z -> le less x z)
  (Hr : list_rep h l xs) (Hlen : Z.of_nat (length xs) < 2 ^ 32) :
  exists h' xs', list_sort less l h = Done (tt, h') /\ list_rep h' l xs' /\
    xs' ≡ₚ xs /\ Sorted (le less) xs' /\
    (forall x, filter (equiv less x) xs' = filter (equiv less x) xs) /\
    xs' = insertion_sort less xs /\
    same_outside (nodes l xs) h h' /\ dom h' = dom h.
Proof.
  destruct (list_sort_rep less Hasym Htrans h l xs Hr Hlen) as (h' & xs' & E & R & Hp & Hs & Hf & O & D).
  exists h', xs'. split_and!; try done.
  destruct (insertion_sort_spec less Hasym Htrans xs) as [Hs' Hf'].
  apply (stable_sort_unique less Hasym Htrans); [done..|]. intros x. by rewrite Hf, Hf'.
Qed.

(** Three elements linked in the order 210, 220, 200. *)
Definition demo_list : heap :=
  list_to_map [(100, mk_elem 0 210); (210, mk_elem 100 220); (220, mk_elem 210 200);
               (200, mk_elem 220 108); (108, mk_elem 200 0)].

Lemma demo_list_rep : list_rep demo_list 100 [210; 220; 200].
Proof.
  split_and!; [done | | | by intros a [= <-] | by intros a [= <-]];
    apply (bool_decide_unpack _); by vm_compute.
Qed.

Lemma list_sort_correct_witness :
  exists h' xs', list_sort Z.ltb 100 demo_list = Done (tt, h') /\ list_rep h' 100 xs' /\
    xs' = [200; 210; 220].
Proof.
  destruct (list_sort_correct Z.ltb demo_list 100 [210; 220; 200] ltb_asym ltb_le_trans demo_list_rep)
    as (h' & xs' & E & R & _ & _ & _ & Ex & _); [done|].
  exists h', xs'. split; [exact E|]. split; [exact R|]. rewrite Ex. reflexivity.
Defined.

(** [list_unique] with a second list moves every element that equals the one
    before it to the end of the second list, in order, and keeps the others; the
    two lists stay well formed and nothing else is written. *)
Lemma list_unique_correct (less : Z -> Z -> bool) (h : heap) (l d : Z) (xs ds : list Z)
  (Hr : list_rep h l xs) (Hd : list_rep h d ds)
  (Hap : forall a, a ∈ nodes d ds -> a ∉ nodes l xs) :
  exists h', list_unique less l d h = Done (tt, h') /\
    list_rep h' l (fst (uniq less xs)) /\ list_rep h' d (ds ++ snd (uniq less xs)) /\
    same_outside (nodes d ds ++ nodes l xs) h h' /\ dom h' = dom h.
Proof.
  assert ((d =? NULL) = false) as Hd0 by by eapply rep_nonnull.
  destruct (list_unique_rep less h l d xs ds Hr) as (h' & E & R1 & R2 & O & D).
  - by right.
  - unfold apart, dups_nodes. by rewrite Hd0.
  - unfold dups_nodes in O. rewrite Hd0 in O. exists h'. split_and!; try done.
    destruct R2 as [->|R2]; [done | exact R2].
Qed.
