(* ===== verification/Bytes.v ===== *)
(** * Bytes in memory and on disk

    Little-endian integers, arrays of 32-bit words, and the two ways the code
    touches part of a buffer: reading a slice of it and copying bytes over a
    part of it, as [memcpy] does. *)

From stdpp Require Import options.
From S2P Require Import Prelude.
Local Open Scope Z_scope.

Definition is_byte (b : Z) : Prop := 0 <= b < 256.

Fixpoint le_encode (n : nat) (z : Z) : list Z :=
  match n with
  | O => []
  | S n => u8 z :: le_encode n (z / 256)
  end.

Fixpoint le_decode (bs : list Z) : Z :=
  match bs with
  | [] => 0
  | b :: bs => b + 256 * le_decode bs
  end.

Definition words_to_bytes (ws : list Z) : list Z := concat (map (le_encode 4) ws).

(** The first [n] words of a buffer. *)
Fixpoint bytes_to_words (n : nat) (bs : list Z) : list Z :=
  match n with
  | O => []
  | S n => le_decode (take 4 bs) :: bytes_to_words n (drop 4 bs)
  end.

Definition slice {A} (off n : nat) (l : list A) : list A := take n (drop off l).

(** [memcpy (buf + off, data, length data)] *)
Definition patch {A} (off : nat) (data buf : list A) : list A :=
  take off buf ++ data ++ drop (off + length data) buf.

Section encoding.
Implicit Types (z b : Z) (bs ws : list Z) (n : nat).

Lemma length_le_encode n z : length (le_encode n z) = n.
Proof. revert z. induction n as [|n IH]; intros z; simpl; [done | by rewrite IH]. Qed.

Lemma le_encode_bytes n z : Forall is_byte (le_encode n z).
Proof.
  revert z. induction n as [|n IH]; intros z; simpl; constructor; [|done].
  unfold is_byte, u8. pose proof (Z.mod_pos_bound z (2 ^ 8)). lia.
Qed.

Lemma le_decode_encode n z : le_decode (le_encode n z) = z mod 2 ^ (8 * Z.of_nat n).
Proof.
  revert z. induction n as [|n IH]; intros z; simpl le_encode; cbn [le_decode].
  - by rewrite Z.mod_1_r.
  - rewrite IH. unfold u8. replace (8 * Z.of_nat (S n)) with (8 + 8 * Z.of_nat n) by lia.
    rewrite Z.pow_add_r by lia. change 256 with (2 ^ 8). rewrite Z.rem_mul_r; lia.
Qed.

Lemma le_decode_bound bs : Forall is_byte bs -> 0 <= le_decode bs < 2 ^ (8 * Z.of_nat (length bs)).
Proof.
  induction 1 as [|b bs Hb _ IH]; cbn [le_decode length]; [lia|].
  replace (8 * Z.of_nat (S (length bs))) with (8 + 8 * Z.of_nat (length bs)) by lia.
  rewrite Z.pow_add_r by lia. change (2 ^ 8) with 256. unfold is_byte in Hb. lia.
Qed.

Lemma le_encode_decode bs : Forall is_byte bs -> le_encode (length bs) (le_decode bs) = bs.
Proof.
  induction 1 as [|b bs Hb _ IH]; [done|]. cbn [le_decode length le_encode]. unfold is_byte in Hb.
  f_equal.
  - unfold u8. change (2 ^ 8) with 256. rewrite (Z.mul_comm 256), Z.mod_add by lia. by apply Z.mod_small.
  - rewrite (Z.mul_comm 256), Z.div_add, (Z.div_small b) by lia. exact IH.
Qed.

Lemma length_words_to_bytes ws : length (words_to_bytes ws) = (4 * length ws)%nat.
Proof.
  induction ws as [|w ws IH]; [done|]. change (words_to_bytes (w :: ws)) with (le_encode 4 w ++ words_to_bytes ws).
  rewrite length_app, length_le_encode, IH. simpl. lia.
Qed.

Lemma words_to_bytes_bytes ws : Forall is_byte (words_to_bytes ws).
Proof.
  induction ws as [|w ws IH]; [constructor|].
  change (words_to_bytes (w :: ws)) with (le_encode 4 w ++ words_to_bytes ws).
  apply Forall_app. by split; [apply le_encode_bytes|].
Qed.

Lemma words_roundtrip ws rest :
  Forall is_u32 ws -> bytes_to_words (length ws) (words_to_bytes ws ++ rest) = ws.
Proof.
  induction 1 as [|w ws Hw _ IH]; [done|].
  change (words_to_bytes (w :: ws)) with (le_encode 4 w ++ words_to_bytes ws).
  cbn [length bytes_to_words]. rewrite <- app_assoc.
  rewrite take_app_length', drop_app_length' by by rewrite length_le_encode.
  rewrite IH, le_decode_encode. f_equal. by apply Z.mod_small.
Qed.

Lemma length_bytes_to_words n bs : length (bytes_to_words n bs) = n.
Proof. revert bs. induction n as [|n IH]; intros bs; simpl; [done | by rewrite IH]. Qed.

Lemma bytes_to_words_u32 n bs : Forall is_byte bs -> Forall is_u32 (bytes_to_words n bs).
Proof.
  revert bs. induction n as [|n IH]; intros bs Hb; simpl; constructor.
  - pose proof (le_decode_bound (take 4 bs) (Forall_take _ _ _ Hb)) as [H0 H1]. split; [done|].
    eapply Z.lt_le_trans; [exact H1|]. apply Z.pow_le_mono_r; [lia|]. rewrite length_take. lia.
  - apply IH. by apply Forall_drop.
Qed.
End encoding.

Section buffers.
Context {A : Type}.
Implicit Types (l data buf : list A) (off n i : nat).

Lemma length_slice off n l : (off + n <= length l)%nat -> length (slice off n l) = n.
Proof. intros. unfold slice. rewrite length_take, length_drop. lia. Qed.

Lemma lookup_slice off n l i : (i < n)%nat -> slice off n l !! i = l !! (off + i)%nat.
Proof. intros. unfold slice. rewrite lookup_take_lt by done. by rewrite lookup_drop. Qed.

Lemma length_patch off data buf :
  (off + length data <= length buf)%nat -> length (patch off data buf) = length buf.
Proof. intros. unfold patch. rewrite !length_app, length_take, length_drop. lia. Qed.

Lemma lookup_patch off data buf i :
  (off + length data <= length buf)%nat ->
  patch off data buf !! i =
    if decide (off <= i < off + length data)%nat then data !! (i - off)%nat else buf !! i.
Proof.
  intros Hlen. unfold patch. destruct (decide (i < off)%nat) as [Hi|Hi].
  - rewrite lookup_app_l by (rewrite length_take; lia). rewrite lookup_take_lt by done.
    rewrite decide_False by lia. done.
  - rewrite lookup_app_r by (rewrite length_take; lia). rewrite length_take, Nat.min_l by lia.
    case_decide as Hd.
    + by rewrite lookup_app_l by lia.
    + rewrite lookup_app_r by lia. rewrite lookup_drop. f_equal. lia.
Qed.

Lemma slice_patch_same off data buf :
  (off + length data <= length buf)%nat -> slice off (length data) (patch off data buf) = data.
Proof.
  intros Hlen. apply list_eq_same_length with (n := length data).
  - done.
  - apply length_slice. by rewrite length_patch.
  - intros i x y Hi. rewrite lookup_slice, lookup_patch by done. rewrite decide_True by lia.
    replace (off + i - off)%nat with i by lia. congruence.
Qed.

Lemma slice_patch_len off n data buf :
  length data = n -> (off + n <= length buf)%nat -> slice off n (patch off data buf) = data.
Proof. intros <-. apply slice_patch_same. Qed.

Lemma slice_patch_disjoint off data buf o n :
  (off + length data <= length buf)%nat -> (o + n <= length buf)%nat ->
  (o + n <= off \/ off + length data <= o)%nat -> slice o n (patch off data buf) = slice o n buf.
Proof.
  intros Hlen Hn Hd. apply list_eq_same_length with (n := n).
  - by apply length_slice.
  - apply length_slice. by rewrite length_patch.
  - intros i x y Hi. rewrite !lookup_slice, lookup_patch by done. rewrite decide_False by lia. congruence.
Qed.

Lemma slice_app off m n l : slice off (m + n) l = slice off m l ++ slice (off + m) n l.
Proof.
  unfold slice. rewrite <- drop_drop. generalize (drop off l). clear l off. induction m as [|m IH]; intros l; [done|].
  destruct l as [|x l]; simpl; [by rewrite take_nil | by rewrite IH].
Qed.

Lemma slice_all n l : length l = n -> slice 0 n l = l.
Proof. intros <-. unfold slice. by rewrite drop_0, firstn_all. Qed.

Lemma patch_all data buf : length data = length buf -> patch 0 data buf = data.
Proof. intros E. unfold patch. simpl. rewrite E, drop_all. apply app_nil_r. Qed.

Lemma Forall_slice (P : A -> Prop) off n l : Forall P l -> Forall P (slice off n l).
Proof. intros. by apply Forall_take, Forall_drop. Qed.

Lemma Forall_patch (P : A -> Prop) off data buf :
  Forall P data -> Forall P buf -> Forall P (patch off data buf).
Proof. intros. unfold patch. rewrite !Forall_app. by split_and!; [apply Forall_take | | apply Forall_drop]. Qed.
End buffers.

(** ** Copy loops

    [for (i = 0; i < n; i++) dst[i + dst_ofs] = src[i + src_ofs]], from [i] on. *)

Fixpoint copy_loop (n i src_ofs dst_ofs : nat) (src dst : list Z) : outcome (list Z) :=
  match n with
  | O => Done dst
  | S n =>
      match src !! (i + src_ofs)%nat, dst !! (i + dst_ofs)%nat with
      | Some b, Some _ => copy_loop n (S i) src_ofs dst_ofs src (<[(i + dst_ofs)%nat := b]> dst)
      | _, _ => Fault BadPointer
      end
  end.

Lemma copy_loop_run n : forall i so d_o src dst,
  (i + so + n <= length src)%nat -> (i + d_o + n <= length dst)%nat ->
  copy_loop n i so d_o src dst = Done (patch (i + d_o) (slice (i + so) n src) dst).
Proof.
  induction n as [|n IH]; intros i so d_o src dst Hs Hd; cbn [copy_loop].
  - unfold patch, slice. simpl. by rewrite Nat.add_0_r, take_drop.
  - destruct (lookup_lt_is_Some_2 src (i + so)) as [b Hb]; [lia|].
    destruct (lookup_lt_is_Some_2 dst (i + d_o)) as [b' Hb']; [lia|].
    rewrite Hb, Hb', IH by (rewrite ?length_insert; lia). f_equal.
    assert (length (slice (i + so) (S n) src) = S n) as L1 by (apply length_slice; lia).
    assert (length (slice (S i + so) n src) = n) as L2 by (apply length_slice; lia).
    apply list_eq. intros k. rewrite !lookup_patch by (rewrite ?length_insert; lia). rewrite L1, L2.
    destruct (decide (k = (i + d_o)%nat)) as [->|Hk].
    + rewrite decide_False, decide_True by lia. rewrite list_lookup_insert_eq by lia.
      rewrite lookup_slice by lia. rewrite <- Hb. f_equal. lia.
    + rewrite list_lookup_insert_ne by lia. repeat case_decide; try lia; [|done].
      rewrite !lookup_slice by lia. f_equal. lia.
Qed.
