(* ===== verification/Bitmap.v ===== *)
(** * lib/kernel/bitmap.c: bitmaps

    A bitmap is its bit count and its array of 32-bit elements, as in
    [struct bitmap].  Every function of the file is here, with its assertions;
    an access outside the array is a [BadPointer].  The theorems relate the
    array to the list of booleans a caller sees: single bits, ranges, the
    first-fit search, and what a bitmap looks like after it went through a
    file. *)

From stdpp Require Import options.
From S2P Require Import Prelude Bytes.
Local Open Scope Z_scope.
Local Open Scope kernel_scope.

Definition ELEM_BITS : Z := 32.

Definition BITMAP_ERROR : Z := 2 ^ 32 - 1.

Record bitmap := mk_bitmap { bit_cnt : Z; bits : list Z }.

Definition elem_idx (bit_idx : Z) : Z := bit_idx / ELEM_BITS.

Definition bit_mask (bit_idx : Z) : Z := u32 (Z.shiftl 1 (bit_idx mod ELEM_BITS)).

(** [DIV_ROUND_UP] of round.h, in [size_t]. *)
Definition div_round_up (x step : Z) : Z := u32 (x + step - 1) / step.

Definition elem_cnt (bit_cnt : Z) : Z := div_round_up bit_cnt ELEM_BITS.

Definition byte_cnt (bit_cnt : Z) : Z := u32 (4 * elem_cnt bit_cnt).

Definition last_mask (b : bitmap) : Z :=
  let last_bits := bit_cnt b mod ELEM_BITS in
  if negb (last_bits =? 0) then u32 (u32 (Z.shiftl 1 last_bits) - 1) else u32 (-1).

(** [b->bits[idx] = f (b->bits[idx])] *)
Definition update_elem (b : bitmap) (idx : Z) (f : Z -> Z) : outcome bitmap :=
  match bits b !! Z.to_nat idx with
  | Some w => Done (mk_bitmap (bit_cnt b) (<[Z.to_nat idx := f w]> (bits b)))
  | None => Fault BadPointer
  end.

Definition bitmap_size (b : bitmap) : Z := bit_cnt b.

Definition bitmap_mark (b : bitmap) (bit_idx : Z) : outcome bitmap :=
  let idx := elem_idx bit_idx in
  let mask := bit_mask bit_idx in
  update_elem b idx (fun w => Z.lor w mask).

Definition bitmap_reset (b : bitmap) (bit_idx : Z) : outcome bitmap :=
  let idx := elem_idx bit_idx in
  let mask := bit_mask bit_idx in
  update_elem b idx (fun w => Z.land w (u32 (Z.lnot mask))).

Definition bitmap_flip (b : bitmap) (bit_idx : Z) : outcome bitmap :=
  let idx := elem_idx bit_idx in
  let mask := bit_mask bit_idx in
  update_elem b idx (fun w => Z.lxor w mask).

Definition bitmap_set (b : bitmap) (idx : Z) (value : bool) : outcome bitmap :=
  let? _ := oassert (idx <? bit_cnt b) in
  if value then bitmap_mark b idx else bitmap_reset b idx.

Definition bitmap_test (b : bitmap) (idx : Z) : outcome bool :=
  let? _ := oassert (idx <? bit_cnt b) in
  match bits b !! Z.to_nat (elem_idx idx) with
  | Some w => Done (negb (Z.land w (bit_mask idx) =? 0))
  | None => Fault BadPointer
  end.

Definition range_asserts (b : bitmap) (start cnt : Z) : outcome unit :=
  let? _ := oassert (start <=? bit_cnt b) in
  oassert (u32 (start + cnt) <=? bit_cnt b).

(** The loops run [n] more times, [i] being the index of the source. *)
Fixpoint set_multiple_loop (n : nat) (b : bitmap) (start i : Z) (value : bool) : outcome bitmap :=
  match n with
  | O => Done b
  | S n =>
      let? b := bitmap_set b (u32 (start + i)) value in
      set_multiple_loop n b start (i + 1) value
  end.

Definition bitmap_set_multiple (b : bitmap) (start cnt : Z) (value : bool) : outcome bitmap :=
  let? _ := range_asserts b start cnt in
  set_multiple_loop (Z.to_nat cnt) b start 0 value.

Definition bitmap_set_all (b : bitmap) (value : bool) : outcome bitmap :=
  bitmap_set_multiple b 0 (bitmap_size b) value.

Fixpoint count_loop (n : nat) (b : bitmap) (start i : Z) (value : bool) (value_cnt : Z) : outcome Z :=
  match n with
  | O => Done value_cnt
  | S n =>
      let? t := bitmap_test b (u32 (start + i)) in
      count_loop n b start (i + 1) value (if Bool.eqb t value then value_cnt + 1 else value_cnt)
  end.

Definition bitmap_count (b : bitmap) (start cnt : Z) (value : bool) : outcome Z :=
  let? _ := range_asserts b start cnt in
  count_loop (Z.to_nat cnt) b start 0 value 0.

Fixpoint contains_loop (n : nat) (b : bitmap) (start i : Z) (value : bool) : outcome bool :=
  match n with
  | O => Done false
  | S n =>
      let? t := bitmap_test b (u32 (start + i)) in
      if Bool.eqb t value then Done true else contains_loop n b start (i + 1) value
  end.

Definition bitmap_contains (b : bitmap) (start cnt : Z) (value : bool) : outcome bool :=
  let? _ := range_asserts b start cnt in
  contains_loop (Z.to_nat cnt) b start 0 value.

Definition bitmap_any (b : bitmap) (start cnt : Z) : outcome bool := bitmap_contains b start cnt true.

Definition bitmap_none (b : bitmap) (start cnt : Z) : outcome bool :=
  let? c := bitmap_contains b start cnt true in Done (negb c).

Definition bitmap_all (b : bitmap) (start cnt : Z) : outcome bool :=
  let? c := bitmap_contains b start cnt false in Done (negb c).

(** [for (i = start; i <= last; i++)], [n] being the iterations left. *)
Fixpoint scan_loop (n : nat) (b : bitmap) (i cnt : Z) (value : bool) : outcome Z :=
  match n with
  | O => Done BITMAP_ERROR
  | S n =>
      let? c := bitmap_contains b i cnt (negb value) in
      if negb c then Done i else scan_loop n b (i + 1) cnt value
  end.

Definition bitmap_scan (b : bitmap) (start cnt : Z) (value : bool) : outcome Z :=
  let? _ := oassert (start <=? bit_cnt b) in
  if cnt <=? bit_cnt b then
    let last := bit_cnt b - cnt in
    scan_loop (Z.to_nat (last - start + 1)) b start cnt value
  else Done BITMAP_ERROR.

Definition bitmap_scan_and_flip (b : bitmap) (start cnt : Z) (value : bool) : outcome (Z * bitmap) :=
  let? idx := bitmap_scan b start cnt value in
  let? b := (if negb (idx =? BITMAP_ERROR) then bitmap_set_multiple b idx cnt (negb value) else Done b) in
  Done (idx, b).

(** [b_ok]: the first [malloc] succeeds; [block]: the words the second one
    returns, or [None]. *)
Definition bitmap_create (cnt : Z) (b_ok : bool) (block : option (list Z)) : outcome (option bitmap) :=
  if b_ok then
    match block with
    | Some ws => let? b := bitmap_set_all (mk_bitmap cnt ws) false in Done (Some b)
    | None =>
        if cnt =? 0 then let? b := bitmap_set_all (mk_bitmap cnt []) false in Done (Some b)
        else Done None
    end
  else Done None.

Definition bitmap_buf_size (cnt : Z) : Z := u32 (8 + byte_cnt cnt).

(** [ws]: the words of the block after the header. *)
Definition bitmap_create_in_buf (cnt : Z) (ws : list Z) (block_size : Z) : outcome bitmap :=
  let? _ := oassert (bitmap_buf_size cnt <=? block_size) in
  bitmap_set_all (mk_bitmap cnt ws) false.

Definition bitmap_file_size (b : bitmap) : Z := byte_cnt (bit_cnt b).

(** [bitmap_read] and [bitmap_write], given the file operation they call: the
    read returns the bytes it stored at the start of the buffer. *)
Definition bitmap_read {S} (file_read_at : Z -> Z -> M S (list Z)) (b : bitmap) : M S (bool * bitmap) :=
  if 0 <? bit_cnt b then
    let size := byte_cnt (bit_cnt b) in
    let! data := file_read_at size 0 in
    let success := Z.of_nat (length data) =? size in
    let ws := bytes_to_words (length (bits b)) (patch 0 data (words_to_bytes (bits b))) in
    let! b := lift (update_elem (mk_bitmap (bit_cnt b) ws) (elem_cnt (bit_cnt b) - 1)
                      (fun w => Z.land w (last_mask b))) in
    ret (success, b)
  else ret (true, b).

Definition bitmap_write {S} (file_write_at : list Z -> Z -> Z -> M S Z) (b : bitmap) : M S bool :=
  let size := byte_cnt (bit_cnt b) in
  let! n := file_write_at (words_to_bytes (bits b)) size 0 in
  ret (n =? size).

(** ** The bits a caller sees *)

Definition bit (b : bitmap) (i : Z) : bool :=
  Z.testbit (nth (Z.to_nat (elem_idx i)) (bits b) 0) (i mod ELEM_BITS).

Definition bits_of (b : bitmap) : list bool := map (bit b) (seqZ 0 (bit_cnt b)).

Definition bitmap_ok (b : bitmap) : Prop :=
  0 <= bit_cnt b <= 2 ^ 32 - 32 /\
  Z.of_nat (length (bits b)) = elem_cnt (bit_cnt b) /\
  Forall is_u32 (bits b).

(** All [cnt] bits from [i] on are [value]. *)
Definition group (b : bitmap) (i cnt : Z) (value : bool) : Prop :=
  forall j, i <= j < i + cnt -> bit b j = value.

(** ** Elements and masks *)

Section elements.
Implicit Types (b : bitmap) (i j w : Z) (v : bool).

Lemma elem_cnt_small c : 0 <= c <= 2 ^ 32 - 32 -> elem_cnt c = (c + 31) / 32.
Proof.
  intros. unfold elem_cnt, div_round_up, ELEM_BITS. rewrite u32_small by lia. f_equal. lia.
Qed.

Lemma byte_cnt_small c : 0 <= c <= 2 ^ 32 - 32 -> byte_cnt c = 4 * elem_cnt c.
Proof.
  intros. unfold byte_cnt. apply u32_small. rewrite elem_cnt_small by done.
  pose proof (Z.div_mod (c + 31) 32). pose proof (Z.mod_pos_bound (c + 31) 32). lia.
Qed.

Lemma elem_idx_bound c i : 0 <= c <= 2 ^ 32 - 32 -> 0 <= i < c -> 0 <= elem_idx i < elem_cnt c.
Proof.
  intros. rewrite elem_cnt_small by done. unfold elem_idx, ELEM_BITS.
  pose proof (Z.div_mod (c + 31) 32). pose proof (Z.mod_pos_bound (c + 31) 32).
  pose proof (Z.div_mod i 32). pose proof (Z.mod_pos_bound i 32). lia.
Qed.

Lemma bit_mask_pow i : bit_mask i = 2 ^ (i mod 32).
Proof.
  unfold bit_mask, ELEM_BITS. rewrite Z.shiftl_1_l. apply u32_small.
  pose proof (Z.mod_pos_bound i 32). split; [apply Z.pow_nonneg; lia | apply Z.pow_lt_mono_r; lia].
Qed.

Lemma testbit_mask i j : 0 <= j -> Z.testbit (bit_mask i) j = (j =? i mod 32).
Proof.
  intros. rewrite bit_mask_pow. pose proof (Z.mod_pos_bound i 32).
  rewrite Z.pow2_bits_eqb by lia. apply Z.eqb_sym.
Qed.

Lemma testbit_u32 w j : 0 <= j < 32 -> Z.testbit (u32 w) j = Z.testbit w j.
Proof. intros. unfold u32. by rewrite Z.mod_pow2_bits_low by lia. Qed.

Lemma is_u32_high w : is_u32 w <-> 0 <= w /\ forall j, 32 <= j -> Z.testbit w j = false.
Proof.
  unfold is_u32. split.
  - intros Hw. split; [lia|]. intros j Hj. destruct (decide (w = 0)) as [->|]; [apply Z.bits_0|].
    apply Z.bits_above_log2; [lia|]. apply Z.log2_lt_pow2; [lia|].
    eapply Z.lt_le_trans; [apply Hw | apply Z.pow_le_mono_r; lia].
  - intros [H0 Hj]. split; [done|]. destruct (decide (w = 0)) as [->|]; [lia|].
    apply Z.log2_lt_pow2; [lia|]. destruct (Z.lt_ge_cases (Z.log2 w) 32); [done|].
    specialize (Hj (Z.log2 w)). rewrite Z.bit_log2 in Hj by lia. by specialize (Hj H).
Qed.

Lemma u32_lor w m : is_u32 w -> is_u32 m -> is_u32 (Z.lor w m).
Proof.
  rewrite !is_u32_high. intros [H1 H2] [H3 H4]. split; [by apply Z.lor_nonneg|].
  intros j Hj. by rewrite Z.lor_spec, H2, H4.
Qed.

Lemma u32_land w m : is_u32 w -> is_u32 (Z.land w m).
Proof.
  rewrite !is_u32_high. intros [H1 H2]. split; [apply Z.land_nonneg; by left|].
  intros j Hj. by rewrite Z.land_spec, H2.
Qed.

Lemma u32_lxor w m : is_u32 w -> is_u32 m -> is_u32 (Z.lxor w m).
Proof.
  rewrite !is_u32_high. intros [H1 H2] [H3 H4]. split; [by apply Z.lxor_nonneg|].
  intros j Hj. by rewrite Z.lxor_spec, H2, H4.
Qed.

Lemma bit_mask_u32 i : is_u32 (bit_mask i).
Proof. apply u32_range. Qed.

(** ** Single bits *)

Lemma elem_lookup b i : bitmap_ok b -> 0 <= i < bit_cnt b ->
  bits b !! Z.to_nat (elem_idx i) = Some (nth (Z.to_nat (elem_idx i)) (bits b) 0).
Proof.
  intros (Hc & Hl & _) Hi. pose proof (elem_idx_bound _ _ Hc Hi).
  destruct (lookup_lt_is_Some_2 (bits b) (Z.to_nat (elem_idx i))) as [w Hw]; [lia|].
  rewrite Hw. f_equal. symmetry. by apply nth_lookup_Some.
Qed.

(** One update of an element that changes only the addressed bit. *)
Lemma update_elem_bit b i (f : Z -> Z) (g : bool -> bool) :
  bitmap_ok b -> 0 <= i < bit_cnt b ->
  (forall w, is_u32 w -> is_u32 (f w)) ->
  (forall w j, 0 <= j < 32 ->
    Z.testbit (f w) j = if j =? i mod 32 then g (Z.testbit w j) else Z.testbit w j) ->
  exists b', update_elem b (elem_idx i) f = Done b' /\ bitmap_ok b' /\ bit_cnt b' = bit_cnt b /\
    forall j, 0 <= j < bit_cnt b -> bit b' j = if j =? i then g (bit b j) else bit b j.
Proof.
  intros Hb Hi Hu Hf. pose proof (elem_lookup b i Hb Hi) as Hw.
  unfold update_elem. rewrite Hw. eexists. split; [reflexivity|].
  destruct Hb as (Hc & Hl & Hall). set (w := nth _ _ _) in *.
  split; [split_and!|split]; simpl.
  - lia. - lia. - by rewrite length_insert.
  - apply Forall_insert; [done|]. apply Hu. by eapply Forall_lookup_1.
  - done.
  - intros j Hj. unfold bit. simpl. unfold ELEM_BITS.
    pose proof (Z.mod_pos_bound j 32). pose proof (Z.mod_pos_bound i 32).
    pose proof (elem_idx_bound _ _ Hc Hi). pose proof (elem_idx_bound _ _ Hc Hj).
    pose proof (Z.div_mod i 32). pose proof (Z.div_mod j 32). unfold elem_idx, ELEM_BITS in *.
    destruct (decide (j / 32 = i / 32)) as [E|E].
    + rewrite E. rewrite (nth_lookup_Some _ _ _ (f w)) by (apply list_lookup_insert_eq; lia).
      rewrite Hf by lia. unfold w. destruct (Z.eqb_spec (j mod 32) (i mod 32)), (Z.eqb_spec j i); try done; lia.
    + rewrite (nth_lookup (<[_ := _]> _)), list_lookup_insert_ne by lia. rewrite <- nth_lookup.
      destruct (Z.eqb_spec j i) as [->|]; done.
Qed.

Lemma bitmap_mark_bit b i : bitmap_ok b -> 0 <= i < bit_cnt b ->
  exists b', bitmap_mark b i = Done b' /\ bitmap_ok b' /\ bit_cnt b' = bit_cnt b /\
    forall j, 0 <= j < bit_cnt b -> bit b' j = if j =? i then true else bit b j.
Proof.
  intros Hb Hi. apply (update_elem_bit b i _ (fun _ => true)); [done | done | |].
  - intros w Hw. apply u32_lor; [done | apply bit_mask_u32].
  - intros w j Hj. rewrite Z.lor_spec, testbit_mask by lia. case_match; [apply orb_true_r | apply orb_false_r].
Qed.

Lemma bitmap_reset_bit b i : bitmap_ok b -> 0 <= i < bit_cnt b ->
  exists b', bitmap_reset b i = Done b' /\ bitmap_ok b' /\ bit_cnt b' = bit_cnt b /\
    forall j, 0 <= j < bit_cnt b -> bit b' j = if j =? i then false else bit b j.
Proof.
  intros Hb Hi. apply (update_elem_bit b i _ (fun _ => false)); [done | done | |].
  - intros w Hw. by apply u32_land.
  - intros w j Hj. rewrite Z.land_spec, testbit_u32, Z.lnot_spec, testbit_mask by lia.
    case_match; [apply andb_false_r | apply andb_true_r].
Qed.

Lemma bitmap_flip_bit b i : bitmap_ok b -> 0 <= i < bit_cnt b ->
  exists b', bitmap_flip b i = Done b' /\ bitmap_ok b' /\ bit_cnt b' = bit_cnt b /\
    forall j, 0 <= j < bit_cnt b -> bit b' j = if j =? i then negb (bit b j) else bit b j.
Proof.
  intros Hb Hi. apply (update_elem_bit b i _ negb); [done | done | |].
  - intros w Hw. apply u32_lxor; [done | apply bit_mask_u32].
  - intros w j Hj. rewrite Z.lxor_spec, testbit_mask by lia. case_match; [apply xorb_true_r | apply xorb_false_r].
Qed.

Lemma bitmap_set_bit b i v : bitmap_ok b -> 0 <= i < bit_cnt b ->
  exists b', bitmap_set b i v = Done b' /\ bitmap_ok b' /\ bit_cnt b' = bit_cnt b /\
    forall j, 0 <= j < bit_cnt b -> bit b' j = if j =? i then v else bit b j.
Proof.
  intros Hb Hi. unfold bitmap_set. rewrite (proj2 (Z.ltb_lt _ _)) by lia. simpl.
  destruct v; [by apply bitmap_mark_bit | by apply bitmap_reset_bit].
Qed.

Lemma bitmap_test_bit b i : bitmap_ok b -> 0 <= i < bit_cnt b -> bitmap_test b i = Done (bit b i).
Proof.
  intros Hb Hi. unfold bitmap_test. rewrite (proj2 (Z.ltb_lt _ _)) by lia. simpl.
  rewrite elem_lookup by done. f_equal. unfold bit. set (w := nth _ _ _).
  rewrite bit_mask_pow. unfold ELEM_BITS. pose proof (Z.mod_pos_bound i 32).
  destruct (Z.testbit w (i mod 32)) eqn:E.
  - apply negb_true_iff, Z.eqb_neq. intros H0.
    assert (Z.testbit (Z.land w (2 ^ (i mod 32))) (i mod 32) = false) as H1 by (rewrite H0; apply Z.bits_0).
    rewrite Z.land_spec, E, Z.pow2_bits_true in H1 by lia. done.
  - apply negb_false_iff, Z.eqb_eq. apply Z.bits_inj'. intros j Hj.
    rewrite Z.land_spec, Z.pow2_bits_eqb, Z.bits_0 by lia.
    destruct (Z.eqb_spec (i mod 32) j) as [<-|]; [by rewrite E | apply andb_false_r].
Qed.
End elements.

(** ** Ranges *)

Section ranges.
Implicit Types (b : bitmap) (i j start cnt : Z) (v : bool).

Lemma range_asserts_ok b start cnt :
  bitmap_ok b -> 0 <= start -> 0 <= cnt -> start + cnt <= bit_cnt b ->
  range_asserts b start cnt = Done tt.
Proof.
  intros (Hc & _) H1 H2 H3. unfold range_asserts. rewrite u32_small by lia.
  by rewrite !(proj2 (Z.leb_le _ _)) by lia.
Qed.

Lemma set_multiple_loop_bits v n : forall b start i,
  bitmap_ok b -> 0 <= start + i -> start + i + Z.of_nat n <= bit_cnt b ->
  exists b', set_multiple_loop n b start i v = Done b' /\ bitmap_ok b' /\ bit_cnt b' = bit_cnt b /\
    forall j, 0 <= j < bit_cnt b ->
      bit b' j = if (start + i <=? j) && (j <? start + i + Z.of_nat n) then v else bit b j.
Proof.
  induction n as [|n IH]; intros b start i Hb H1 H2; simpl.
  - exists b. split_and!; try done. intros j Hj.
    destruct (_ && _) eqn:E; [|done]. apply andb_true_iff in E. rewrite Z.leb_le, Z.ltb_lt in E. lia.
  - assert (bit_cnt b <= 2 ^ 32 - 32) by apply Hb. rewrite u32_small by lia.
    destruct (bitmap_set_bit b (start + i) v Hb) as (b1 & -> & Hb1 & Hc1 & Hbit1); [lia|].
    destruct (IH b1 start (i + 1) Hb1) as (b2 & E2 & Hb2 & Hc2 & Hbit2); [lia | lia |].
    exists b2. split_and!; [done | done | congruence |]. intros j Hj.
    rewrite Hbit2, Hbit1 by lia.
    destruct (Z.leb_spec (start + (i + 1)) j), (Z.ltb_spec j (start + (i + 1) + Z.of_nat n)),
      (Z.leb_spec (start + i) j), (Z.ltb_spec j (start + i + Z.of_nat (S n))),
      (Z.eqb_spec j (start + i)); simpl; try done; lia.
Qed.

Lemma bitmap_set_multiple_bits b start cnt v :
  bitmap_ok b -> 0 <= start -> 0 <= cnt -> start + cnt <= bit_cnt b ->
  exists b', bitmap_set_multiple b start cnt v = Done b' /\ bitmap_ok b' /\ bit_cnt b' = bit_cnt b /\
    forall j, 0 <= j < bit_cnt b ->
      bit b' j = if (start <=? j) && (j <? start + cnt) then v else bit b j.
Proof.
  intros Hb H1 H2 H3. unfold bitmap_set_multiple. rewrite range_asserts_ok by done. simpl.
  destruct (set_multiple_loop_bits v (Z.to_nat cnt) b start 0 Hb) as (b' & E & Hb' & Hc & Hbit); [lia | lia |].
  exists b'. split_and!; try done. intros j Hj. rewrite Hbit by done.
  by rewrite Z.add_0_r, Z2Nat.id by done.
Qed.

(** Which of [cnt] bits from [start] on are [v]. *)
Definition matching (b : bitmap) (start cnt : Z) (v : bool) : list Z :=
  filter (fun j => bit b j = v) (seqZ start cnt).

Lemma count_loop_bits v n : forall b start i c,
  bitmap_ok b -> 0 <= start + i -> start + i + Z.of_nat n <= bit_cnt b ->
  count_loop n b start i v c = Done (c + Z.of_nat (length (matching b (start + i) (Z.of_nat n) v))).
Proof.
  induction n as [|n IH]; intros b start i c Hb H1 H2.
  - simpl. unfold matching. simpl. f_equal. lia.
  - assert (bit_cnt b <= 2 ^ 32 - 32) by apply Hb. cbn [count_loop]. rewrite u32_small by lia.
    rewrite bitmap_test_bit by (done || lia). cbn [obind]. rewrite IH by (done || lia).
    unfold matching. rewrite (seqZ_cons (start + i)) by lia. rewrite filter_cons. f_equal.
    replace (Z.succ (start + i)) with (start + (i + 1)) by lia.
    replace (Z.pred (Z.of_nat (S n))) with (Z.of_nat n) by lia.
    destruct (Bool.eqb_spec (bit b (start + i)) v); case_decide; try done; simpl length; lia.
Qed.

Lemma bitmap_count_bits b start cnt v :
  bitmap_ok b -> 0 <= start -> 0 <= cnt -> start + cnt <= bit_cnt b ->
  bitmap_count b start cnt v = Done (Z.of_nat (length (matching b start cnt v))).
Proof.
  intros Hb H1 H2 H3. unfold bitmap_count. rewrite range_asserts_ok by done. cbn [obind].
  rewrite count_loop_bits by (done || lia). by rewrite Z.add_0_r, Z2Nat.id by done.
Qed.

Lemma contains_loop_bits v n : forall b start i,
  bitmap_ok b -> 0 <= start + i -> start + i + Z.of_nat n <= bit_cnt b ->
  exists c, contains_loop n b start i v = Done c /\
    (c = false <-> group b (start + i) (Z.of_nat n) (negb v)).
Proof.
  induction n as [|n IH]; intros b start i Hb H1 H2.
  - exists false. split; [done|]. split; [|done]. intros _ j Hj. lia.
  - assert (bit_cnt b <= 2 ^ 32 - 32) by apply Hb. cbn [contains_loop]. rewrite u32_small by lia.
    rewrite bitmap_test_bit by (done || lia). cbn [obind].
    destruct (Bool.eqb_spec (bit b (start + i)) v) as [E|E].
    + exists true. split; [done|]. split; [done|]. intros Hg.
      specialize (Hg (start + i) ltac:(lia)). rewrite E in Hg. by destruct v.
    + destruct (IH b start (i + 1) Hb) as (c & -> & Hc); [lia | lia |]. exists c. split; [done|].
      rewrite Hc. split; intros Hg j Hj.
      * destruct (decide (j = start + i)) as [->|]; [|apply Hg; lia].
        by destruct (bit b (start + i)), v.
      * apply Hg. lia.
Qed.

Lemma bitmap_contains_bits b start cnt v :
  bitmap_ok b -> 0 <= start -> 0 <= cnt -> start + cnt <= bit_cnt b ->
  exists c, bitmap_contains b start cnt v = Done c /\ (c = false <-> group b start cnt (negb v)).
Proof.
  intros Hb H1 H2 H3. unfold bitmap_contains. rewrite range_asserts_ok by done. cbn [obind].
  destruct (contains_loop_bits v (Z.to_nat cnt) b start 0 Hb) as (c & E & Hc); [lia | lia |].
  exists c. by rewrite Z.add_0_r, Z2Nat.id in Hc by done.
Qed.
End ranges.

(** ** Searching *)

Section searching.
Implicit Types (b : bitmap) (i j r start cnt : Z) (v : bool).

(** [r] is the first group of [cnt] bits at or after [start], or the error value
    if there is none. *)
Definition first_fit (b : bitmap) (start cnt : Z) (v : bool) (r : Z) : Prop :=
  (r = BITMAP_ERROR /\ forall i, start <= i -> i + cnt <= bit_cnt b -> ~ group b i cnt v) \/
  (start <= r /\ r + cnt <= bit_cnt b /\ group b r cnt v /\
   forall i, start <= i < r -> ~ group b i cnt v).

Lemma scan_loop_first b cnt v n : forall i,
  bitmap_ok b -> 0 <= i -> 0 <= cnt -> (0 < Z.of_nat n -> i + Z.of_nat n - 1 + cnt <= bit_cnt b) ->
  exists r, scan_loop n b i cnt v = Done r /\
    ((r = BITMAP_ERROR /\ forall k, i <= k < i + Z.of_nat n -> ~ group b k cnt v) \/
     (i <= r < i + Z.of_nat n /\ group b r cnt v /\ forall k, i <= k < r -> ~ group b k cnt v)).
Proof.
  induction n as [|n IH]; intros i Hb Hi Hc Hn.
  - exists BITMAP_ERROR. split; [done|]. left. split; [done|]. lia.
  - cbn [scan_loop].
    destruct (bitmap_contains_bits b i cnt (negb v) Hb Hi Hc) as (c & -> & Hg); [lia|].
    cbn [obind]. rewrite negb_involutive in Hg. destruct c; simpl negb.
    + assert (~ group b i cnt v) as Hno by (intros ?%Hg; done).
      destruct (IH (i + 1) Hb) as (r & -> & Hr); [lia | lia | lia |]. exists r. split; [done|].
      destruct Hr as [[-> Hr]|(Hr1 & Hr2 & Hr3)].
      * left. split; [done|]. intros k Hk. destruct (decide (k = i)) as [->|]; [done | apply Hr; lia].
      * right. split_and!; [lia | lia | done |]. intros k Hk.
        destruct (decide (k = i)) as [->|]; [done | apply Hr3; lia].
    + exists i. split; [done|]. right. split_and!; [lia | lia | by apply Hg |]. lia.
Qed.

Lemma bitmap_scan_first b start cnt v :
  bitmap_ok b -> 0 <= start <= bit_cnt b -> 0 <= cnt ->
  exists r, bitmap_scan b start cnt v = Done r /\ first_fit b start cnt v r.
Proof.
  intros Hb Hs Hc. unfold bitmap_scan. rewrite (proj2 (Z.leb_le _ _)) by lia. cbn [oassert obind].
  destruct (Z.leb_spec cnt (bit_cnt b)).
  - destruct (scan_loop_first b cnt v (Z.to_nat (bit_cnt b - cnt - start + 1)) start Hb)
      as (r & -> & Hr); [lia | lia | lia |]. exists r. split; [done|].
    destruct Hr as [[-> Hr]|(Hr1 & Hr2 & Hr3)].
    + left. split; [done|]. intros i Hi1 Hi2. apply Hr. lia.
    + right. split_and!; [lia | lia | done | done].
  - exists BITMAP_ERROR. split; [done|]. left. split; [done|]. lia.
Qed.

Lemma bitmap_scan_and_flip_first b start cnt v :
  bitmap_ok b -> 0 <= start <= bit_cnt b -> 0 <= cnt ->
  exists r b', bitmap_scan_and_flip b start cnt v = Done (r, b') /\ first_fit b start cnt v r /\
    bitmap_ok b' /\ bit_cnt b' = bit_cnt b /\
    forall j, 0 <= j < bit_cnt b -> bit b' j =
      if negb (r =? BITMAP_ERROR) && (r <=? j) && (j <? r + cnt) then negb v else bit b j.
Proof.
  intros Hb Hs Hc. unfold bitmap_scan_and_flip.
  destruct (bitmap_scan_first b start cnt v Hb Hs Hc) as (r & -> & Hr). cbn [obind].
  assert (bit_cnt b <= 2 ^ 32 - 32) by apply Hb.
  destruct (Z.eqb_spec r BITMAP_ERROR) as [->|Hne].
  - exists BITMAP_ERROR, b. by split_and!.
  - destruct Hr as [[? _]|Hr]; [done|]. cbn [negb].
    destruct (bitmap_set_multiple_bits b r cnt (negb v) Hb) as (b' & -> & Hb' & Hc' & Hbit); [lia | lia | lia |].
    exists r, b'. split_and!; [done | by right | done | done |].
    intros j Hj. rewrite Hbit by done. by destruct (Z.eqb_spec r BITMAP_ERROR).
Qed.
End searching.

(** ** Bits as a list *)

Section as_list.
Implicit Types (b : bitmap) (i j : Z) (v : bool).

Lemma length_bits_of b : 0 <= bit_cnt b -> Z.of_nat (length (bits_of b)) = bit_cnt b.
Proof. intros. unfold bits_of. rewrite length_map, length_seqZ. lia. Qed.

Lemma lookup_bits_of b i : 0 <= i < bit_cnt b -> bits_of b !! Z.to_nat i = Some (bit b i).
Proof.
  intros. unfold bits_of. rewrite list_lookup_fmap, lookup_seqZ_lt by lia. simpl. do 2 f_equal. lia.
Qed.

(** Bitmaps of one size that agree on [g] are the list [g] tabulates. *)
Lemma bits_of_ext b (l : list bool) :
  0 <= bit_cnt b -> Z.of_nat (length l) = bit_cnt b ->
  (forall j, 0 <= j < bit_cnt b -> l !! Z.to_nat j = Some (bit b j)) -> bits_of b = l.
Proof.
  intros Hc Hl Hj. apply list_eq_same_length with (n := length l).
  - done.
  - pose proof (length_bits_of b Hc). lia.
  - intros i x y Hi. rewrite <- (Nat2Z.id i). rewrite lookup_bits_of, Hj by lia. congruence.
Qed.

Lemma bits_of_update b b' i v :
  0 <= i < bit_cnt b -> bit_cnt b' = bit_cnt b ->
  (forall j, 0 <= j < bit_cnt b -> bit b' j = if j =? i then v else bit b j) ->
  bits_of b' = <[Z.to_nat i := v]> (bits_of b).
Proof.
  intros Hi Hc Hbit. apply bits_of_ext.
  - lia.
  - rewrite length_insert, length_bits_of by lia. done.
  - rewrite Hc. intros j Hj. rewrite Hbit by done. destruct (Z.eqb_spec j i) as [->|Hne].
    + apply list_lookup_insert_eq. pose proof (length_bits_of b). lia.
    + rewrite list_lookup_insert_ne by lia. by apply lookup_bits_of.
Qed.

Lemma bits_of_agree b b' :
  0 <= bit_cnt b -> bit_cnt b' = bit_cnt b ->
  (forall j, 0 <= j < bit_cnt b -> bit b' j = bit b j) -> bits_of b' = bits_of b.
Proof.
  intros H0 Hc Hj. apply bits_of_ext; [lia | rewrite length_bits_of; lia |].
  rewrite Hc. intros j Hb. rewrite Hj by done. by apply lookup_bits_of.
Qed.
End as_list.

(** ** Files *)

Section files.
Implicit Types (b : bitmap) (i j : Z).

Lemma last_mask_pow b : 0 <= bit_cnt b ->
  last_mask b = 2 ^ (if bit_cnt b mod 32 =? 0 then 32 else bit_cnt b mod 32) - 1.
Proof.
  intros. unfold last_mask, ELEM_BITS. pose proof (Z.mod_pos_bound (bit_cnt b) 32).
  destruct (Z.eqb_spec (bit_cnt b mod 32) 0); simpl negb; cbv iota; [done|].
  rewrite Z.shiftl_1_l.
  assert (0 < 2 ^ (bit_cnt b mod 32) < 2 ^ 32).
  { split; [apply Z.pow_pos_nonneg; lia | apply Z.pow_lt_mono_r; lia]. }
  by rewrite !u32_small by (rewrite ?u32_small by lia; lia).
Qed.

(** Masking the last element keeps every bit of the bitmap. *)
Lemma mask_last_bits b : bitmap_ok b -> 0 < bit_cnt b ->
  exists b', update_elem b (elem_cnt (bit_cnt b) - 1) (fun w => Z.land w (last_mask b)) = Done b' /\
    bitmap_ok b' /\ bits_of b' = bits_of b.
Proof.
  intros (Hc & Hl & Hu) H0.
  assert (0 <= elem_cnt (bit_cnt b) - 1 < Z.of_nat (length (bits b))) as Hidx.
  { pose proof (elem_idx_bound (bit_cnt b) 0 Hc). unfold elem_idx in *. lia. }
  destruct (lookup_lt_is_Some_2 (bits b) (Z.to_nat (elem_cnt (bit_cnt b) - 1))) as [w Hw]; [lia|].
  unfold update_elem. rewrite Hw. eexists. split; [reflexivity|]. split; [split_and!|].
  - simpl. lia. - simpl. lia. - simpl. by rewrite length_insert.
  - simpl. apply Forall_insert; [done|]. apply u32_land. by eapply Forall_lookup_1.
  - apply bits_of_agree; [lia | done |]. intros j Hj. unfold bit. simpl. unfold ELEM_BITS.
    rewrite !nth_lookup. destruct (decide (elem_idx j = elem_cnt (bit_cnt b) - 1)) as [E|E].
    + rewrite E, list_lookup_insert_eq, Hw by lia. simpl.
      rewrite Z.land_spec, last_mask_pow by lia. rewrite Z.sub_1_r, <- Z.ones_equiv.
      pose proof (Z.mod_pos_bound j 32). pose proof (Z.div_mod j 32).
      rewrite elem_cnt_small in E by lia. unfold elem_idx, ELEM_BITS in E.
      pose proof (Z.div_mod (bit_cnt b) 32). pose proof (Z.mod_pos_bound (bit_cnt b) 32).
      pose proof (Z.div_mod (bit_cnt b + 31) 32). pose proof (Z.mod_pos_bound (bit_cnt b + 31) 32).
      rewrite Z.ones_spec_low; [apply andb_true_r|].
      destruct (Z.eqb_spec (bit_cnt b mod 32) 0); lia.
    + rewrite list_lookup_insert_ne; [done|]. pose proof (elem_idx_bound _ _ Hc Hj). lia.
Qed.

Lemma bitmap_bytes b : bitmap_ok b ->
  Z.of_nat (length (words_to_bytes (bits b))) = byte_cnt (bit_cnt b).
Proof.
  intros (Hc & Hl & _). rewrite length_words_to_bytes, byte_cnt_small by done. lia.
Qed.
End files.

(** ** Properties *)


Lemma demo_bitmap_ok (ws : list Z) : length ws = 2%nat -> Forall is_u32 ws -> bitmap_ok (mk_bitmap 40 ws).
Proof. intros Hl Hu. split_and!; simpl; [lia | lia | by rewrite Hl | done]. Qed.


(** [bitmap_scan_and_flip] is first fit.  For every start in range and every
    count it returns without a fault; it returns the least index at or after
    the start of a group of [cnt] bits with the wanted value and inverts
    exactly that group, or returns BITMAP_ERROR when no such group exists and
    changes no bit. *)
Lemma bitmap_scan_and_flip_first_fit (b : bitmap) (start cnt : Z) (v : bool)
  (Hb : bitmap_ok b) (Hs : 0 <= start <= bit_cnt b) (Hc : is_u32 cnt) :
  exists r b', bitmap_scan_and_flip b start cnt v = Done (r, b') /\ first_fit b start cnt v r /\
    bitmap_ok b' /\ bit_cnt b' = bit_cnt b /\
    (r = BITMAP_ERROR -> bits_of b' = bits_of b) /\
    (r <> BITMAP_ERROR -> group b' r cnt (negb v) /\
       forall j, 0 <= j < bit_cnt b -> ~ (r <= j < r + cnt) -> bit b' j = bit b j).
Proof.
  unfold is_u32 in Hc.
  destruct (bitmap_scan_and_flip_first b start cnt v Hb Hs) as (r & b' & E & Hf & Hb' & Hc' & Hbit); [lia|].
  exists r, b'. split_and!; try done.
  - intros ->. apply bits_of_agree; [apply Hb | done | done].
  - intros Hr. destruct Hf as [[? _]|Hf]; [done|]. split; intros j Hj.
    + rewrite Hbit by lia. rewrite (proj2 (Z.eqb_neq _ _) Hr), (proj2 (Z.leb_le _ _)), (proj2 (Z.ltb_lt _ _)) by lia.
      done.
    + intros Hout. rewrite Hbit by done. destruct (_ && _) eqn:Eb; [|done].
      rewrite !andb_true_iff, Z.leb_le, Z.ltb_lt in Eb. lia.
Qed.

(** A zero-length search returns its start.  For every start in range and
    either value, [bitmap_scan_and_flip] with a count of zero returns the
    start and changes nothing; the comment on the function says it returns
    0. *)
Lemma bitmap_scan_zero (b : bitmap) (start : Z) (v : bool)
  (Hb : bitmap_ok b) (Hs : 0 <= start <= bit_cnt b) :
  bitmap_scan_and_flip b start 0 v = Done (start, b).
Proof.
  unfold bitmap_scan_and_flip, bitmap_scan. assert (bit_cnt b <= 2 ^ 32 - 32) by apply Hb.
  rewrite !(proj2 (Z.leb_le _ _)) by lia. cbn [oassert obind].
  replace (Z.to_nat (bit_cnt b - 0 - start + 1)) with (S (Z.to_nat (bit_cnt b - start))) by lia.
  cbn [scan_loop]. unfold bitmap_contains. rewrite range_asserts_ok by (done || lia).
  change (Z.to_nat 0) with 0%nat. cbn [obind contains_loop negb].
  rewrite (proj2 (Z.eqb_neq _ _)) by (unfold BITMAP_ERROR; lia). cbn [negb].
  unfold bitmap_set_multiple. by rewrite range_asserts_ok by (done || lia).
Qed.

(** A bitmap survives a round trip through a file.  If the file returns the
    bytes that were last written to its start, then [bitmap_write] succeeds,
    and [bitmap_read] into any well-formed bitmap of the same size succeeds and
    leaves exactly the bits that were written. *)
Lemma bitmap_file_roundtrip {S : Type}
  (file_write_at : list Z -> Z -> Z -> M S Z) (file_read_at : Z -> Z -> M S (list Z))
  (b b0 : bitmap) (s s' : S)
  (Hb : bitmap_ok b) (Hb0 : bitmap_ok b0) (Hc : bit_cnt b0 = bit_cnt b)
  (Hw : file_write_at (words_to_bytes (bits b)) (byte_cnt (bit_cnt b)) 0 s
        = Done (byte_cnt (bit_cnt b), s'))
  (Hr : file_read_at (byte_cnt (bit_cnt b)) 0 s'
        = Done (take (Z.to_nat (byte_cnt (bit_cnt b))) (words_to_bytes (bits b)), s')) :
  bitmap_write file_write_at b s = Done (true, s') /\
  exists b', bitmap_read file_read_at b0 s' = Done ((true, b'), s') /\ bitmap_ok b' /\
    bits_of b' = bits_of b.
Proof.
  split; [unfold bitmap_write; rewrite (bind_done _ _ _ _ _ Hw); by rewrite Z.eqb_refl|].
  unfold bitmap_read. rewrite Hc. destruct (Z.ltb_spec 0 (bit_cnt b)) as [H0|H0].
  - rewrite (bind_done _ _ _ _ _ Hr). pose proof (bitmap_bytes b Hb) as Hlen.
    rewrite firstn_all2 by lia. rewrite Hlen, Z.eqb_refl.
    assert (length (bits b0) = length (bits b)) as El.
    { destruct Hb as (_ & Hl & _), Hb0 as (_ & Hl0 & _). rewrite Hc in Hl0. lia. }
    rewrite patch_all by (rewrite !length_words_to_bytes; lia).
    rewrite <- (app_nil_r (words_to_bytes _)), El, words_roundtrip by apply Hb.
    assert (mk_bitmap (bit_cnt b) (bits b) = b) as -> by by destruct b.
    destruct (mask_last_bits b Hb H0) as (b' & E & Hb' & Hbits). unfold last_mask in *. rewrite Hc.
    exists b'. erewrite bind_done by (unfold lift; by rewrite E). done.
  - exists b0. split_and!; try done. assert (0 <= bit_cnt b) by apply Hb.
    apply bits_of_agree; [lia | done | lia].
Qed.

(** A file is its bytes. *)
