(* ===== verification/Block.v ===== *)
(** * devices/block.c: block devices

    A block device is what [struct block] holds, with the state of its driver
    in place of the [aux] pointer.  A driver is an instance of [BlockOps], the
    two operations of [struct block_operations] and what the kernel relies on:
    a read returns the bytes last written to that sector.  The drivers
    themselves (the IDE disk and the partitions on it) are other components;
    [memory_disk] is an instance to run the code with. *)

From stdpp Require Import options strings.
From S2P Require Import Prelude Bytes.
Local Open Scope Z_scope.
Local Open Scope kernel_scope.

Definition BLOCK_SECTOR_SIZE : Z := 512.

(** The contents of one sector. *)
Definition sector_ok (d : list Z) : Prop := length d = 512%nat /\ Forall is_byte d.

Class BlockOps (D : Type) := {
  ops_read : D -> Z -> list Z;
  ops_write : D -> Z -> list Z -> D;
  driver_ok : D -> Prop;
  ops_read_ok d s : driver_ok d -> sector_ok (ops_read d s);
  ops_write_ok d s data : driver_ok d -> sector_ok data -> driver_ok (ops_write d s data);
  ops_read_write d s s' data : driver_ok d -> sector_ok data ->
    ops_read (ops_write d s data) s' = if s' =? s then data else ops_read d s'
}.

Inductive block_type :=
  | BLOCK_KERNEL
  | BLOCK_FILESYS
  | BLOCK_SCRATCH
  | BLOCK_SWAP
  | BLOCK_RAW
  | BLOCK_FOREIGN.

#[export] Instance block_type_eq_dec : EqDecision block_type.
Proof. solve_decision. Defined.

Record block (D : Type) := mk_block {
  block_name : string;
  type : block_type;
  block_size : Z;
  aux : D;
  read_cnt : Z;
  write_cnt : Z
}.
Arguments mk_block {D}.
Arguments block_name {D}.
Arguments type {D}.
Arguments block_size {D}.
Arguments aux {D}.
Arguments read_cnt {D}.
Arguments write_cnt {D}.

Section operations.
Context {D : Type} `{!BlockOps D}.

Definition check_sector (b : block D) (sector : Z) : outcome unit :=
  if block_size b <=? sector then Fault Panic else Done tt.

Definition block_read (sector : Z) : M (block D) (list Z) := fun b =>
  let? _ := check_sector b sector in
  let buffer := ops_read (aux b) sector in
  Done (buffer, mk_block (block_name b) (type b) (block_size b) (aux b) (u64 (read_cnt b + 1)) (write_cnt b)).

Definition block_write (sector : Z) (buffer : list Z) : M (block D) unit := fun b =>
  let? _ := check_sector b sector in
  let? _ := oassert (negb (bool_decide (type b = BLOCK_FOREIGN))) in
  Done (tt, mk_block (block_name b) (type b) (block_size b) (ops_write (aux b) sector buffer)
              (read_cnt b) (u64 (write_cnt b + 1))).

(** A device the kernel may write, in working order. *)
Definition block_ok (b : block D) : Prop := driver_ok (aux b) /\ type b <> BLOCK_FOREIGN.

Definition block_sector (b : block D) (s : Z) : list Z := ops_read (aux b) s.

Lemma block_read_run b s : block_ok b -> s < block_size b ->
  exists b', block_read s b = Done (block_sector b s, b') /\ block_ok b' /\
    block_size b' = block_size b /\ aux b' = aux b.
Proof.
  intros Hb Hs. unfold block_read, check_sector. rewrite (proj2 (Z.leb_gt _ _)) by lia.
  by eexists.
Qed.

Lemma block_write_run b s data : block_ok b -> s < block_size b -> sector_ok data ->
  exists b', block_write s data b = Done (tt, b') /\ block_ok b' /\ block_size b' = block_size b /\
    forall s', block_sector b' s' = if s' =? s then data else block_sector b s'.
Proof.
  intros [Hd Ht] Hs Hok. unfold block_write, check_sector. rewrite (proj2 (Z.leb_gt _ _)) by lia.
  cbn [obind]. rewrite bool_decide_false by done. eexists. split; [reflexivity|].
  split; [split; [by apply ops_write_ok | done]|]. split; [done|].
  intros s'. by apply ops_read_write.
Qed.

Lemma block_sector_ok b s : block_ok b -> sector_ok (block_sector b s).
Proof. intros [Hd _]. by apply ops_read_ok. Qed.
End operations.

(** ** A disk in memory *)

Abbreviation memory_disk := (gmap Z (list Z)).

Definition blank_sector : list Z := replicate 512 0.

Lemma blank_sector_ok : sector_ok blank_sector.
Proof. split; [done|]. apply Forall_replicate. by unfold is_byte. Qed.

#[export, refine] Instance memory_disk_ops : BlockOps memory_disk := {
  ops_read d s := default blank_sector (d !! s);
  ops_write d s data := <[s := data]> d;
  driver_ok d := map_Forall (fun _ data => sector_ok data) d
}.
Proof.
  - intros d s Hd. destruct (d !! s) as [data|] eqn:E; simpl; [by eapply Hd | apply blank_sector_ok].
  - intros d s data Hd Hs. by apply map_Forall_insert_2.
  - intros d s s' data _ _. rewrite lookup_insert.
    destruct (Z.eqb_spec s' s) as [->|]; case_decide; try done; congruence.
Defined.
