(* ===== verification/Store.v ===== *)
(** * What the buffer cache promises to the file system

    The inode layer reads and writes sectors through four operations.
    [SectorStore] names them and what a caller may rely on: reads return the
    contents, writes of whole sectors set them, and a write of part of a sector
    sets that part; the rest of that sector keeps its contents or is zeroed,
    and the caller cannot tell which.  Cache.v proves that the buffer cache is
    an instance; the inode theorems use only the interface. *)

From stdpp Require Import options.
From S2P Require Import Prelude Bytes Block.
Local Open Scope Z_scope.

Class SectorStore (S : Type) := {
  store_read : Z -> M S (list Z);
  store_write : Z -> list Z -> M S unit;
  store_read_at : Z -> Z -> Z -> M S (list Z);
  store_write_at : Z -> list Z -> Z -> Z -> M S unit;
  contents : S -> Z -> list Z;
  store_size : S -> Z;
  store_ok : S -> Prop;
  contents_ok s x : store_ok s -> sector_ok (contents s x);
  store_read_run s x : store_ok s -> 0 <= x < store_size s ->
    exists s', store_read x s = Done (contents s x, s') /\ store_ok s' /\
      store_size s' = store_size s /\ forall y, contents s' y = contents s y;
  store_write_run s x buf : store_ok s -> 0 <= x < store_size s -> sector_ok buf ->
    exists s', store_write x buf s = Done (tt, s') /\ store_ok s' /\
      store_size s' = store_size s /\ forall y, contents s' y = if y =? x then buf else contents s y;
  store_read_at_run s x size ofs : store_ok s -> 0 <= x < store_size s ->
    0 <= size -> 0 <= ofs -> ofs + size <= 512 ->
    exists s', store_read_at x size ofs s = Done (slice (Z.to_nat ofs) (Z.to_nat size) (contents s x), s') /\
      store_ok s' /\ store_size s' = store_size s /\ forall y, contents s' y = contents s y;
  store_write_at_run s x buf size ofs : store_ok s -> 0 <= x < store_size s ->
    0 <= size -> 0 <= ofs -> ofs + size <= 512 -> size <= Z.of_nat (length buf) -> Forall is_byte buf ->
    exists s' base, store_write_at x buf size ofs s = Done (tt, s') /\ store_ok s' /\
      store_size s' = store_size s /\ (base = contents s x \/ base = blank_sector) /\
      contents s' x = patch (Z.to_nat ofs) (take (Z.to_nat size) buf) base /\
      forall y, y <> x -> contents s' y = contents s y
}.
