(* ===== verification/Cache.v ===== *)
(** * filesys/inode.c: the buffer cache

    The cache is a list of at most 64 cached sectors in front of a block
    device.  [view] is the contents of the file system device as its users see
    it: the cached copy of a sector if there is one, the device's otherwise.
    One thread runs; its locks are flags, and taking a lock it already holds
    fails the assertion of [lock_acquire]. *)

From stdpp Require Import options strings.
From S2P Require Import Prelude Bytes Block Store.
Local Open Scope Z_scope.
Local Open Scope kernel_scope.

Record cached_sector := mk_cs {
  sector_idx : Z;
  dirty : bool;
  sector_lock : bool;
  data : list Z
}.

Record cache (D : Type) := mk_cache {
  fs_device : block D;
  buffer_cache : list cached_sector;
  buffer_cache_lock : bool
}.
Arguments mk_cache {D}.
Arguments fs_device {D}.
Arguments buffer_cache {D}.
Arguments buffer_cache_lock {D}.

Definition CACHE_SECTORS : Z := 64.

Section code.
Context {D : Type} `{!BlockOps D}.
Abbreviation MC := (M (cache D)).

Definition on_device {A} (m : M (block D) A) : MC A := fun c =>
  match m (fs_device c) with
  | Done (a, b) => Done (a, mk_cache b (buffer_cache c) (buffer_cache_lock c))
  | Fault f => Fault f
  end.

Definition set_buffer_cache (l : list cached_sector) : MC unit :=
  modify (fun c => mk_cache (fs_device c) l (buffer_cache_lock c)).

Definition acquire_cache_lock : MC unit :=
  let! c := get in
  assert (negb (buffer_cache_lock c)) ;;
  modify (fun c => mk_cache (fs_device c) (buffer_cache c) true).

Definition release_cache_lock : MC unit :=
  let! c := get in
  assert (buffer_cache_lock c) ;;
  modify (fun c => mk_cache (fs_device c) (buffer_cache c) false).

(** A pointer to a cached sector is its place in the list. *)
Definition load_cs (k : nat) : MC cached_sector :=
  let! c := get in
  match buffer_cache c !! k with
  | Some cs => ret cs
  | None => fail BadPointer
  end.

Definition store_cs (k : nat) (cs : cached_sector) : MC unit :=
  let! c := get in
  match buffer_cache c !! k with
  | Some _ => set_buffer_cache (<[k := cs]> (buffer_cache c))
  | None => fail BadPointer
  end.

Definition acquire_sector_lock (k : nat) : MC unit :=
  let! cs := load_cs k in
  assert (negb (sector_lock cs)) ;;
  store_cs k (mk_cs (sector_idx cs) (dirty cs) true (data cs)).

Definition release_sector_lock (k : nat) : MC unit :=
  let! cs := load_cs k in
  assert (sector_lock cs) ;;
  store_cs k (mk_cs (sector_idx cs) (dirty cs) false (data cs)).

(** The place of the first entry for [idx]. *)
Definition find_sector (idx : Z) (l : list cached_sector) : option nat :=
  fst <$> list_find (fun cs => sector_idx cs = idx) l.

(** The frame a missing sector goes to: a new one, or the last of the list,
    written back if dirty and taken off the list.  Its lock is held. *)
Definition take_frame : MC unit :=
  let! c := get in
  if u32 (Z.of_nat (length (buffer_cache c))) <? CACHE_SECTORS then ret tt
  else
    match last (buffer_cache c) with
    | None => fail AssertFailed
    | Some cs =>
        assert (negb (sector_lock cs)) ;;
        set_buffer_cache (removelast (buffer_cache c)) ;;
        (if dirty cs then on_device (block_write (sector_idx cs) (data cs)) else ret tt)
    end.

(** [fuel] bounds the retries after a sector changed while its lock was
    awaited. *)
Fixpoint get_cached_sector (fuel : nat) (idx : Z) (is_write : bool) : MC nat :=
  match fuel with
  | O => fail OutOfFuel
  | S fuel =>
      acquire_cache_lock ;;
      let! c := get in
      match find_sector idx (buffer_cache c) with
      | Some k =>
          release_cache_lock ;;
          acquire_sector_lock k ;;
          let! cs := load_cs k in
          if sector_idx cs =? idx then ret k
          else release_sector_lock k ;; get_cached_sector fuel idx is_write
      | None =>
          take_frame ;;
          let! d := (if is_write then ret (blank_sector) else on_device (block_read idx)) in
          let! c := get in
          set_buffer_cache (mk_cs idx false true d :: buffer_cache c) ;;
          release_cache_lock ;;
          ret 0%nat
      end
  end.

(** Without another thread no retry is needed. *)
Definition retries : nat := 1.

Fixpoint write_dirty_loop (n k : nat) : MC unit :=
  match n with
  | O => ret tt
  | S n =>
      let! cs := load_cs k in
      (if dirty cs then
         on_device (block_write (sector_idx cs) (data cs)) ;;
         store_cs k (mk_cs (sector_idx cs) false (sector_lock cs) (data cs))
       else ret tt) ;;
      write_dirty_loop n (S k)
  end.

Definition write_all_dirty_sectors : MC unit :=
  acquire_cache_lock ;;
  let! c := get in
  assert (negb (bool_decide (buffer_cache c = []))) ;;
  write_dirty_loop (length (buffer_cache c)) 0 ;;
  release_cache_lock.

Definition cache_write_with_size_and_offset (idx : Z) (buffer : list Z) (size sector_ofs : Z) : MC unit :=
  assert (u32 (sector_ofs + size) <=? BLOCK_SECTOR_SIZE) ;;
  let! k := get_cached_sector retries idx true in
  let! cs := load_cs k in
  let! d := lift (copy_loop (Z.to_nat size) 0 0 (Z.to_nat sector_ofs) buffer (data cs)) in
  store_cs k (mk_cs (sector_idx cs) true (sector_lock cs) d) ;;
  release_sector_lock k.

Definition cache_write (idx : Z) (buffer : list Z) : MC unit :=
  cache_write_with_size_and_offset idx buffer BLOCK_SECTOR_SIZE 0.

(** The bytes that the source copies to its buffer. *)
Definition cache_read_with_size_and_offset (idx size sector_ofs : Z) : MC (list Z) :=
  assert (u32 (sector_ofs + size) <=? BLOCK_SECTOR_SIZE) ;;
  let! k := get_cached_sector retries idx false in
  let! cs := load_cs k in
  let! buff := lift (copy_loop (Z.to_nat size) 0 (Z.to_nat sector_ofs) 0 (data cs)
                       (replicate (Z.to_nat size) 0)) in
  release_sector_lock k ;;
  ret buff.

Definition cache_read (idx : Z) : MC (list Z) :=
  cache_read_with_size_and_offset idx BLOCK_SECTOR_SIZE 0.

(** ** Contents and invariant *)

Definition resident (c : cache D) (s : Z) : bool :=
  match find_sector s (buffer_cache c) with Some _ => true | None => false end.

Definition view (c : cache D) (s : Z) : list Z :=
  match list_find (fun cs => sector_idx cs = s) (buffer_cache c) with
  | Some (_, cs) => data cs
  | None => block_sector (fs_device c) s
  end.

(** An entry at rest: a sector of the device, unlocked, equal to the device
    unless dirty. *)
Definition entry_ok (b : block D) (cs : cached_sector) : Prop :=
  0 <= sector_idx cs < block_size b /\ sector_ok (data cs) /\ sector_lock cs = false /\
  (dirty cs = false -> data cs = block_sector b (sector_idx cs)).

Definition cache_ok (c : cache D) : Prop :=
  block_ok (fs_device c) /\ buffer_cache_lock c = false /\
  Z.of_nat (length (buffer_cache c)) <= CACHE_SECTORS /\
  NoDup (map sector_idx (buffer_cache c)) /\
  Forall (entry_ok (fs_device c)) (buffer_cache c).

(** The same, but for the entry [cs] at [k], which the thread has locked. *)
Definition held (c : cache D) (k : nat) (cs : cached_sector) : Prop :=
  block_ok (fs_device c) /\ buffer_cache_lock c = false /\
  Z.of_nat (length (buffer_cache c)) <= CACHE_SECTORS /\
  NoDup (map sector_idx (buffer_cache c)) /\
  buffer_cache c !! k = Some cs /\ sector_lock cs = true /\
  0 <= sector_idx cs < block_size (fs_device c) /\ sector_ok (data cs) /\
  (forall j cs', j <> k -> buffer_cache c !! j = Some cs' -> entry_ok (fs_device c) cs').
End code.

(** ** Lookups *)

Section lookups.
Implicit Types (l : list cached_sector) (cs : cached_sector) (s : Z) (k : nat).

Lemma find_spec l s :
  NoDup (map sector_idx l) ->
  match list_find (fun cs => sector_idx cs = s) l with
  | Some (k, cs) => l !! k = Some cs /\ sector_idx cs = s
  | None => s ∉ map sector_idx l
  end.
Proof.
  intros Hnd. destruct (list_find _ l) as [[k cs]|] eqn:E.
  - apply list_find_Some in E as (H1 & H2 & _). done.
  - apply list_find_None in E. rewrite list_elem_of_fmap. intros (cs & -> & Hcs).
    rewrite Forall_forall in E. by apply (E cs Hcs).
Qed.

Lemma find_unique l s k cs :
  NoDup (map sector_idx l) -> l !! k = Some cs -> sector_idx cs = s ->
  list_find (fun cs => sector_idx cs = s) l = Some (k, cs).
Proof.
  intros Hnd Hk <-. pose proof (find_spec l (sector_idx cs) Hnd) as Hf.
  destruct (list_find _ l) as [[k' cs']|].
  - destruct Hf as [Hk' E]. assert (k' = k) as ->; [|congruence].
    apply (NoDup_lookup (map sector_idx l) _ _ (sector_idx cs)); [exact Hnd | |].
    + rewrite list_lookup_fmap, Hk'. simpl. by f_equal.
    + rewrite list_lookup_fmap, Hk. done.
  - exfalso. apply Hf. apply list_elem_of_fmap. exists cs. split; [done|]. by eapply list_elem_of_lookup_2.
Qed.

Lemma find_absent l s : (s ∉ map sector_idx l) -> list_find (fun cs => sector_idx cs = s) l = None.
Proof.
  intros Hs. apply list_find_None. rewrite Forall_forall. intros cs Hcs E. apply Hs.
  apply list_elem_of_fmap. by exists cs.
Qed.
End lookups.

Section views.
Context {D : Type} `{!BlockOps D}.
Implicit Types (c : cache D) (b : block D) (cs : cached_sector) (s : Z) (k : nat).

Lemma view_hit c k cs : NoDup (map sector_idx (buffer_cache c)) ->
  buffer_cache c !! k = Some cs -> view c (sector_idx cs) = data cs.
Proof. intros Hnd Hk. unfold view. by rewrite (find_unique _ _ k cs). Qed.

Lemma view_miss c s : (s ∉ map sector_idx (buffer_cache c)) -> view c s = block_sector (fs_device c) s.
Proof. intros Hs. unfold view. by rewrite find_absent. Qed.

Lemma cache_entry c k cs : cache_ok c -> buffer_cache c !! k = Some cs -> entry_ok (fs_device c) cs.
Proof. intros (_ & _ & _ & _ & Hall) Hk. by eapply Forall_lookup_1. Qed.

Lemma view_ok c s : cache_ok c -> sector_ok (view c s).
Proof.
  intros Hc. pose proof Hc as (Hb & _ & _ & Hnd & _). pose proof (find_spec (buffer_cache c) s Hnd) as Hf.
  unfold view. destruct (list_find _ _) as [[k cs]|].
  - destruct Hf as [Hk _]. by destruct (cache_entry c k cs Hc Hk) as (_ & ? & _).
  - by apply block_sector_ok.
Qed.

(** Replacing an entry by one for the same sector. *)
Lemma map_sector_idx_insert (l : list cached_sector) k cs cs' :
  l !! k = Some cs -> sector_idx cs' = sector_idx cs ->
  map sector_idx (<[k := cs']> l) = map sector_idx l.
Proof.
  intros Hk E. change (map sector_idx (<[k:=cs']> l)) with (sector_idx <$> <[k:=cs']> l).
  rewrite list_fmap_insert. apply list_insert_id. rewrite list_lookup_fmap, Hk. simpl. by rewrite E.
Qed.

(** What can differ in the view after entries changed: sectors whose lookup is
    the same on both sides look the same. *)
Lemma view_insert c k cs cs' b lk :
  NoDup (map sector_idx (buffer_cache c)) ->
  buffer_cache c !! k = Some cs -> sector_idx cs' = sector_idx cs ->
  (forall s, block_sector b s = block_sector (fs_device c) s) ->
  forall s, view (mk_cache b (<[k := cs']> (buffer_cache c)) lk) s =
    if s =? sector_idx cs then data cs' else view c s.
Proof.
  intros Hnd Hk E Hb s.
  assert (NoDup (map sector_idx (<[k := cs']> (buffer_cache c)))) as Hnd' by (by rewrite (map_sector_idx_insert _ _ cs)).
  assert (k < length (buffer_cache c))%nat as Hlt by (by eapply lookup_lt_Some).
  pose proof (find_spec (buffer_cache c) s Hnd) as Hf. destruct (Z.eqb_spec s (sector_idx cs)) as [->|Hne].
  - unfold view. simpl. rewrite (find_unique _ _ k cs'); [done | done | | done]. by apply list_lookup_insert_eq.
  - unfold view. simpl. destruct (list_find _ (buffer_cache c)) as [[j csj]|].
    + destruct Hf as [Hj Ej]. assert (j <> k) by (intros ->; congruence).
      rewrite (find_unique _ _ j csj); [done | done | | done]. by rewrite list_lookup_insert_ne.
    + rewrite find_absent; [done|]. by rewrite (map_sector_idx_insert _ _ cs).
Qed.

(** Putting a locked entry back. *)
Lemma held_release c k cs cs' :
  held c k cs -> sector_idx cs' = sector_idx cs -> entry_ok (fs_device c) cs' ->
  let c' := mk_cache (fs_device c) (<[k := cs']> (buffer_cache c)) false in
  cache_ok c' /\ forall s, view c' s = if s =? sector_idx cs then data cs' else view c s.
Proof.
  intros (Hb & Hlk & Hlen & Hnd & Hk & _ & _ & _ & Hrest) E Hok c'. split.
  - split_and!; simpl; try done; [by rewrite length_insert | by rewrite (map_sector_idx_insert _ _ cs) |].
    apply Forall_lookup_2. intros j csj Hj. destruct (decide (j = k)) as [->|].
    + rewrite list_lookup_insert_eq in Hj by (by eapply lookup_lt_Some). congruence.
    + rewrite list_lookup_insert_ne in Hj by done. by eapply Hrest.
  - by apply view_insert.
Qed.
End views.

(** ** Frames *)

Section frames.
Context {D : Type} `{!BlockOps D}.
Implicit Types (c : cache D) (b : block D) (cs : cached_sector) (s idx : Z) (k : nat).

(** The cache with its lock held and room for one more sector. *)
Definition has_room (c c' : cache D) : Prop :=
  block_ok (fs_device c') /\ buffer_cache_lock c' = true /\
  Z.of_nat (length (buffer_cache c')) < CACHE_SECTORS /\
  NoDup (map sector_idx (buffer_cache c')) /\
  Forall (entry_ok (fs_device c')) (buffer_cache c') /\
  block_size (fs_device c') = block_size (fs_device c) /\
  (forall s, view c' s = view c s) /\
  (forall s, s ∈ map sector_idx (buffer_cache c') -> s ∈ map sector_idx (buffer_cache c)).

Definition locked (c : cache D) : cache D := mk_cache (fs_device c) (buffer_cache c) true.

(** Taking the last entry off, once the device holds its data. *)
Lemma evict_room c l cs b' :
  cache_ok c -> buffer_cache c = l ++ [cs] -> block_ok b' ->
  block_size b' = block_size (fs_device c) ->
  (forall s, block_sector b' s = if s =? sector_idx cs then data cs else block_sector (fs_device c) s) ->
  has_room c (mk_cache b' l true).
Proof.
  intros (Hb & Hlk & Hlen & Hnd & Hall) El Hb' Hsz Hs'. rewrite El in *.
  rewrite Forall_app in Hall. destruct Hall as [Hall _].
  rewrite length_app in Hlen. simpl in Hlen.
  pose proof Hnd as Hnd0. rewrite map_app in Hnd. apply NoDup_app in Hnd as (Hnd & Hnotin & _).
  assert (forall s, s ∈ map sector_idx l -> s <> sector_idx cs) as Hne.
  { intros s Hin ->. apply (Hnotin _ Hin). simpl. set_solver. }
  split_and!; simpl; try done; [lia | | |].
  - apply Forall_forall. intros cs' Hin. rewrite Forall_forall in Hall.
    destruct (Hall cs' Hin) as (H1 & H2 & H3 & H4). unfold entry_ok. rewrite Hsz, Hs'.
    rewrite (proj2 (Z.eqb_neq _ _)); [done|]. apply Hne. apply list_elem_of_fmap. by exists cs'.
  - intros s. pose proof (find_spec l s Hnd) as Hf. unfold view. simpl.
    destruct (list_find _ l) as [[k cs']|].
    + destruct Hf as [Hk Ek]. rewrite El, (find_unique _ _ k cs'); [done | done | | done].
      by apply lookup_app_l_Some.
    + rewrite Hs', El. destruct (Z.eqb_spec s (sector_idx cs)) as [->|Hsn].
      * rewrite (find_unique _ _ (length l) cs); [done | done | | done]. by apply list_lookup_middle.
      * rewrite find_absent; [done|]. rewrite map_app. simpl. set_solver.
  - intros s Hin. rewrite El, map_app. set_solver.
Qed.

Lemma take_frame_run c :
  cache_ok c -> exists c', take_frame (locked c) = Done (tt, c') /\ has_room c c'.
Proof.
  intros Hc. pose proof Hc as (Hb & Hlk & Hlen & Hnd & Hall).
  unfold take_frame. rewrite (bind_done _ _ _ _ _ eq_refl).
  cbv beta. change (buffer_cache (locked c)) with (buffer_cache c). unfold CACHE_SECTORS in *.
  rewrite u32_small by lia.
  destruct (Z.ltb_spec (Z.of_nat (length (buffer_cache c))) 64) as [Hlt|Hge].
  { exists (locked c). split; [done|]. by split_and!. }
  destruct (last (buffer_cache c)) as [cs|] eqn:El; [|apply last_None in El; rewrite El in Hge; simpl in Hge; lia].
  apply last_Some in El as [l El]. assert (removelast (buffer_cache c) = l) as -> by (rewrite El; apply removelast_last).
  assert (entry_ok (fs_device c) cs) as (Hidx & Hsec & Hl & Hclean).
  { rewrite El, Forall_app, Forall_singleton in Hall. apply Hall. }
  rewrite assert_true by by rewrite Hl. erewrite bind_done by done. destruct (dirty cs) eqn:Ed.
  - destruct (block_write_run (fs_device c) (sector_idx cs) (data cs) Hb) as (b' & E & Hb' & Hsz & Hs'); [lia | done |].
    unfold on_device. simpl. rewrite E. eexists. split; [reflexivity|]. by apply (evict_room c l cs).
  - eexists. split; [reflexivity|]. apply (evict_room c l cs); try done.
    intros s. destruct (Z.eqb_spec s (sector_idx cs)) as [->|]; [|done]. symmetry. by apply Hclean.
Qed.

(** What [get_cached_sector] leaves: the sector's entry, locked, holding the
    sector's contents, or zeros when it was not resident and is about to be
    written. *)
Definition got (c : cache D) (idx : Z) (w : bool) (k : nat) (c' : cache D) (cs : cached_sector) : Prop :=
  held c' k cs /\ sector_idx cs = idx /\
  data cs = (if w && negb (resident c idx) then blank_sector else view c idx) /\
  (w = false -> dirty cs = false -> data cs = block_sector (fs_device c') idx) /\
  block_size (fs_device c') = block_size (fs_device c) /\
  (forall s, s <> idx -> view c' s = view c s).

Lemma hit_got c idx w k cs :
  cache_ok c -> list_find (fun cs => sector_idx cs = idx) (buffer_cache c) = Some (k, cs) ->
  let cs' := mk_cs (sector_idx cs) (dirty cs) true (data cs) in
  got c idx w k (mk_cache (fs_device c) (<[k := cs']> (buffer_cache c)) false) cs'.
Proof.
  intros Hc Ef cs'. pose proof Hc as (Hb & Hlk & Hlen & Hnd & Hall).
  pose proof (find_spec (buffer_cache c) idx Hnd) as Hf. rewrite Ef in Hf. destruct Hf as [Hk Ek].
  destruct (cache_entry c k cs Hc Hk) as (Hi & Hs & Hl & Hcl). split_and!; try done.
  - split_and!; simpl; try done.
    + by rewrite length_insert.
    + by rewrite (map_sector_idx_insert _ _ cs).
    + apply list_lookup_insert_eq. by eapply lookup_lt_Some.
    + apply Hi.
    + apply Hi.
    + intros j csj Hj Hjk. rewrite list_lookup_insert_ne in Hjk by done. by eapply Forall_lookup_1.
  - unfold resident, find_sector. rewrite Ef. simpl. rewrite andb_false_r, <- Ek. symmetry. by eapply view_hit.
  - simpl. rewrite <- Ek. auto.
  - intros s Hne. rewrite (view_insert c k cs) by done. by rewrite (proj2 (Z.eqb_neq _ _)) by congruence.
Qed.

(** A sector enters at the front. *)
Lemma miss_got c c1 idx (w : bool) (d : list Z) b :
  (idx ∉ map sector_idx (buffer_cache c)) -> 0 <= idx < block_size (fs_device c) ->
  has_room c c1 -> block_ok b -> sector_ok d -> block_size b = block_size (fs_device c) ->
  (forall s, block_sector b s = block_sector (fs_device c1) s) ->
  d = (if w then blank_sector else view c idx) ->
  got c idx w 0 (mk_cache b (mk_cs idx false true d :: buffer_cache c1) false) (mk_cs idx false true d).
Proof.
  intros Hmiss Hidx (Hb1 & Hlk1 & Hlen1 & Hnd1 & Hall1 & Hsz1 & Hv1 & Hsub) Hb Hd Hsz Hbs Ed.
  assert (idx ∉ map sector_idx (buffer_cache c1)) as Hnew by (by intros ?%Hsub).
  split_and!; simpl; try done.
  - split_and!; simpl; try done; [unfold CACHE_SECTORS in *; lia | by apply NoDup_cons | lia | lia |].
    intros [|j] csj Hj Hjk; [done|]. simpl in Hjk. eapply Forall_lookup_1 in Hall1; [|exact Hjk].
    unfold entry_ok in *. by rewrite Hsz, <- Hsz1, Hbs.
  - rewrite Ed. unfold resident, find_sector. rewrite find_absent by done. simpl. by destruct w.
  - intros -> _. rewrite Ed, Hbs, <- Hv1. by apply view_miss.
  - intros s Hne. rewrite <- Hv1. unfold view. simpl. rewrite decide_False by done.
    destruct (list_find _ (buffer_cache c1)) as [[j csj]|]; simpl; [done | apply Hbs].
Qed.

(** Filling the frame: zeros for a write, the device's sector for a read. *)
Lemma fill_run c c1 idx (w : bool) :
  (idx ∉ map sector_idx (buffer_cache c)) -> 0 <= idx < block_size (fs_device c) -> has_room c c1 ->
  exists d b, (if w then ret blank_sector else on_device (block_read idx)) c1
      = Done (d, mk_cache b (buffer_cache c1) true) /\ block_ok b /\ sector_ok d /\
    block_size b = block_size (fs_device c) /\
    (forall s, block_sector b s = block_sector (fs_device c1) s) /\
    d = if w then blank_sector else view c idx.
Proof.
  intros Hmiss Hidx (Hb1 & Hlk1 & Hlen1 & Hnd1 & Hall1 & Hsz1 & Hv1 & Hsub). destruct w.
  - exists blank_sector, (fs_device c1). split_and!; try done; [by destruct c1; simpl in *; subst |].
    apply blank_sector_ok.
  - destruct (block_read_run (fs_device c1) idx Hb1) as (b & Er & Hbb & Hs & Ha); [lia|].
    exists (block_sector (fs_device c1) idx), b. unfold on_device. rewrite Er, Hlk1.
    split_and!; try done; [by apply block_sector_ok | congruence | |].
    + intros s. unfold block_sector. by rewrite Ha.
    + rewrite <- Hv1. symmetry. apply view_miss. by intros ?%Hsub.
Qed.

Lemma get_cached_sector_run c idx w fuel :
  cache_ok c -> 0 <= idx < block_size (fs_device c) ->
  exists k c' cs, get_cached_sector (S fuel) idx w c = Done (k, c') /\ got c idx w k c' cs.
Proof.
  intros Hc Hidx. pose proof Hc as (Hb & Hlk & Hlen & Hnd & Hall).
  cbn [get_cached_sector]. unfold acquire_cache_lock.
  erewrite bind_done by (unfold bind, get; rewrite Hlk; reflexivity).
  rewrite (bind_done _ _ _ _ _ eq_refl). cbn [buffer_cache].
  pose proof (find_spec (buffer_cache c) idx Hnd) as Hf. unfold find_sector at 1.
  destruct (list_find _ (buffer_cache c)) as [[k cs]|] eqn:Ef; cbn [fmap option_fmap option_map fst].
  - pose proof (hit_got c idx w k cs Hc Ef) as Hg. destruct Hf as [Hk Ek].
    destruct (cache_entry c k cs Hc Hk) as (_ & _ & Hl & _).
    do 3 eexists. split; [|exact Hg].
    unfold release_cache_lock. erewrite bind_done by reflexivity.
    unfold acquire_sector_lock, load_cs, store_cs, set_buffer_cache, modify.
    erewrite bind_done by (unfold bind, get, assert, ret; simpl; rewrite Hk; rewrite Hl; simpl;
      rewrite Hk; reflexivity).
    unfold bind, get, ret. simpl. rewrite list_lookup_insert_eq by (by eapply lookup_lt_Some). simpl.
    by rewrite (proj2 (Z.eqb_eq _ _) Ek).
  - destruct (take_frame_run c Hc) as (c1 & E1 & Hroom). rewrite (bind_done _ _ _ _ _ E1).
    destruct (fill_run c c1 idx w Hf Hidx Hroom) as (d & b & E2 & Hb2 & Hd & Hsz2 & Hbs & Ed).
    rewrite (bind_done _ _ _ _ _ E2). do 3 eexists. split; [reflexivity|]. by apply (miss_got c c1).
Qed.
End frames.

(** ** Reading and writing through the cache *)

Section access.
Context {D : Type} `{!BlockOps D}.
Implicit Types (c : cache D) (b : block D) (cs : cached_sector) (s idx : Z) (k : nat).

(** Same device, same contents. *)
Definition same_view (c c' : cache D) : Prop :=
  block_size (fs_device c') = block_size (fs_device c) /\ forall s, view c' s = view c s.

Lemma release_sector_run c k cs :
  buffer_cache c !! k = Some cs -> sector_lock cs = true ->
  release_sector_lock k c = Done (tt, mk_cache (fs_device c)
    (<[k := mk_cs (sector_idx cs) (dirty cs) false (data cs)]> (buffer_cache c)) (buffer_cache_lock c)).
Proof.
  intros Hk Hl. unfold release_sector_lock, load_cs, store_cs, set_buffer_cache, modify, bind, get, ret, assert.
  rewrite Hk, Hl. simpl. by rewrite Hk.
Qed.

Lemma cache_read_at_run c idx size ofs :
  cache_ok c -> 0 <= idx < block_size (fs_device c) -> 0 <= size -> 0 <= ofs -> ofs + size <= 512 ->
  exists c', cache_read_with_size_and_offset idx size ofs c =
      Done (slice (Z.to_nat ofs) (Z.to_nat size) (view c idx), c') /\
    cache_ok c' /\ same_view c c'.
Proof.
  intros Hc Hidx Hs Ho Hle. unfold cache_read_with_size_and_offset, BLOCK_SECTOR_SIZE.
  rewrite assert_true by (apply Z.leb_le; rewrite u32_small; lia).
  destruct (get_cached_sector_run c idx false 0 Hc Hidx) as (k & c1 & cs & E1 & Hh & Hi & Hd & Hcl & Hsz & Hv).
  rewrite (bind_done _ _ _ _ _ E1). pose proof Hh as (_ & Hlk & _ & _ & Hk & Hl & Hri & Hso & _).
  erewrite bind_done by (unfold load_cs, bind, get; rewrite Hk; reflexivity).
  simpl in Hd. pose proof (view_ok c idx Hc) as [Hlen Hbytes].
  erewrite bind_done.
  2:{ unfold lift. rewrite copy_loop_run by (rewrite ?Hd, ?length_replicate, ?Hlen; lia). reflexivity. }
  rewrite (bind_done _ _ _ _ _ (release_sector_run c1 k cs Hk Hl)). rewrite Hlk.
  simpl plus. rewrite patch_all by (rewrite length_replicate; apply length_slice; rewrite Hd, Hlen; lia).
  destruct (held_release c1 k cs (mk_cs (sector_idx cs) (dirty cs) false (data cs)) Hh) as [Hok Hv2]; [done | |].
  { split_and!; simpl; try done; [lia | lia |]. rewrite Hi. by apply Hcl. }
  rewrite <- Hd. eexists. split; [reflexivity|]. split; [exact Hok|]. split; [done|].
  intros s. rewrite Hv2. simpl. destruct (Z.eqb_spec s (sector_idx cs)) as [->|]; [by rewrite Hd, Hi|].
  apply Hv. congruence.
Qed.

Lemma cache_read_run c idx :
  cache_ok c -> 0 <= idx < block_size (fs_device c) ->
  exists c', cache_read idx c = Done (view c idx, c') /\ cache_ok c' /\ same_view c c'.
Proof.
  intros Hc Hidx. destruct (cache_read_at_run c idx 512 0 Hc Hidx) as (c' & E & H); [lia | lia | lia |].
  exists c'. unfold cache_read, BLOCK_SECTOR_SIZE. rewrite E. split; [|done].
  do 2 f_equal. apply slice_all, view_ok, Hc.
Qed.

(** A write of part of a sector changes that part.  The rest keeps its contents
    if the sector is resident and becomes zero if it is not. *)
Lemma cache_write_at_run c idx (buf : list Z) size ofs :
  cache_ok c -> 0 <= idx < block_size (fs_device c) -> 0 <= size -> 0 <= ofs -> ofs + size <= 512 ->
  size <= Z.of_nat (length buf) -> Forall is_byte buf ->
  exists c', cache_write_with_size_and_offset idx buf size ofs c = Done (tt, c') /\ cache_ok c' /\
    block_size (fs_device c') = block_size (fs_device c) /\
    view c' idx = patch (Z.to_nat ofs) (take (Z.to_nat size) buf)
                    (if resident c idx then view c idx else blank_sector) /\
    forall s, s <> idx -> view c' s = view c s.
Proof.
  intros Hc Hidx Hs Ho Hle Hbuf Hbytes. unfold cache_write_with_size_and_offset, BLOCK_SECTOR_SIZE.
  rewrite assert_true by (apply Z.leb_le; rewrite u32_small; lia).
  destruct (get_cached_sector_run c idx true 0 Hc Hidx) as (k & c1 & cs & E1 & Hh & Hi & Hd & _ & Hsz & Hv).
  rewrite (bind_done _ _ _ _ _ E1). pose proof Hh as (_ & Hlk & _ & _ & Hk & Hl & Hri & Hso & _).
  erewrite bind_done by (unfold load_cs, bind, get; rewrite Hk; reflexivity).
  destruct Hso as [Hlen Hcb]. assert (k < length (buffer_cache c1))%nat as Hlt by (by eapply lookup_lt_Some).
  erewrite bind_done.
  2:{ unfold lift. rewrite copy_loop_run by lia. reflexivity. }
  assert (length (take (Z.to_nat size) buf) = Z.to_nat size) as Ht by (rewrite length_take; lia).
  set (d := patch _ _ (data cs)). set (cs1 := mk_cs (sector_idx cs) true (sector_lock cs) d).
  assert (d = patch (Z.to_nat ofs) (take (Z.to_nat size) buf) (data cs)) as Ed by done.
  assert (sector_ok d) as Hdok.
  { split; [rewrite Ed, length_patch; lia|]. rewrite Ed. apply Forall_patch; [by apply Forall_take | done]. }
  erewrite bind_done by (unfold store_cs, bind, get; rewrite Hk; reflexivity). cbv beta.
  erewrite release_sector_run; [|simpl; by apply list_lookup_insert_eq | done]. simpl. rewrite list_insert_insert_eq, Hlk.
  destruct (held_release c1 k cs (mk_cs (sector_idx cs) true false d) Hh) as [Hok Hv2]; [done | |].
  { split_and!; simpl; [lia | lia | exact Hdok | done | done]. }
  eexists. split; [reflexivity|]. split; [exact Hok|]. split; [exact Hsz|]. split.
  - rewrite Hv2, <- Hi at 1. rewrite Z.eqb_refl. simpl. rewrite Ed, Hd. simpl. by destruct (resident c idx).
  - intros s Hne. rewrite Hv2, (proj2 (Z.eqb_neq _ _)) by congruence. by apply Hv.
Qed.

Lemma cache_write_run c idx (buf : list Z) :
  cache_ok c -> 0 <= idx < block_size (fs_device c) -> sector_ok buf ->
  exists c', cache_write idx buf c = Done (tt, c') /\ cache_ok c' /\
    block_size (fs_device c') = block_size (fs_device c) /\
    forall s, view c' s = if s =? idx then buf else view c s.
Proof.
  intros Hc Hidx [Hl Hb].
  destruct (cache_write_at_run c idx buf 512 0 Hc Hidx) as (c' & E & Hok & Hsz & H1 & H2); try lia; [done|].
  exists c'. split_and!; try done. intros s. destruct (Z.eqb_spec s idx) as [->|]; [|by apply H2].
  rewrite H1, firstn_all2 by lia. apply patch_all. rewrite Hl.
  destruct (resident c idx); [|done]. symmetry. apply view_ok, Hc.
Qed.
End access.

(** ** Writing back *)

Section flush.
Context {D : Type} `{!BlockOps D}.
Implicit Types (c : cache D) (b : block D) (cs : cached_sector) (s idx : Z) (k : nat).

Definition unlocked (c : cache D) : cache D := mk_cache (fs_device c) (buffer_cache c) false.

Definition cleaned (cs : cached_sector) : cached_sector :=
  mk_cs (sector_idx cs) false (sector_lock cs) (data cs).

(** One dirty entry goes to the device. *)
Lemma write_back_entry c k cs b' :
  cache_ok c -> buffer_cache c !! k = Some cs -> block_ok b' ->
  block_size b' = block_size (fs_device c) ->
  (forall s, block_sector b' s = if s =? sector_idx cs then data cs else block_sector (fs_device c) s) ->
  let c' := mk_cache b' (<[k := cleaned cs]> (buffer_cache c)) false in
  cache_ok c' /\ forall s, view c' s = view c s.
Proof.
  intros Hc Hk Hb' Hsz Hs' c'. pose proof Hc as (Hb & Hlk & Hlen & Hnd & Hall).
  destruct (cache_entry c k cs Hc Hk) as (Hi & Hso & Hl & _).
  assert (k < length (buffer_cache c))%nat as Hlt by (by eapply lookup_lt_Some). split.
  - split_and!; simpl; try done; [by rewrite length_insert | by rewrite (map_sector_idx_insert _ _ cs) |].
    apply Forall_lookup_2. intros j csj Hj. destruct (decide (j = k)) as [->|Hne].
    + rewrite list_lookup_insert_eq in Hj by done. injection Hj as <-. split_and!; simpl; try done; [lia | lia |].
      intros _. by rewrite Hs', Z.eqb_refl.
    + rewrite list_lookup_insert_ne in Hj by done.
      destruct (cache_entry c j csj Hc Hj) as (? & ? & ? & Hcl). split_and!; try done; [lia | lia |].
      rewrite Hs'. destruct (Z.eqb_spec (sector_idx csj) (sector_idx cs)) as [E|]; [|done].
      exfalso. apply Hne. apply (NoDup_lookup (map sector_idx (buffer_cache c)) _ _ (sector_idx cs)); [done | |].
      * rewrite list_lookup_fmap, Hj. simpl. by f_equal.
      * by rewrite list_lookup_fmap, Hk.
  - intros s. pose proof (find_spec (buffer_cache c) s Hnd) as Hf. destruct (decide (s = sector_idx cs)) as [->|Hne].
    + rewrite (view_hit c k cs) by done. apply (view_hit c' k (cleaned cs)).
      * simpl. by rewrite (map_sector_idx_insert _ _ cs).
      * by apply list_lookup_insert_eq.
    + unfold view. destruct (list_find _ (buffer_cache c)) as [[j csj]|].
      * destruct Hf as [Hj Ej]. assert (j <> k) by (intros ->; congruence). simpl.
        rewrite (find_unique _ _ j csj); [done | by rewrite (map_sector_idx_insert _ _ cs) | | done].
        by rewrite list_lookup_insert_ne.
      * simpl. rewrite find_absent by by rewrite (map_sector_idx_insert _ _ cs).
        by rewrite Hs', (proj2 (Z.eqb_neq _ _)).
Qed.

Lemma write_dirty_loop_run n : forall k c,
  cache_ok c -> (k + n = length (buffer_cache c))%nat ->
  (forall j cs, (j < k)%nat -> buffer_cache c !! j = Some cs -> dirty cs = false) ->
  exists c', write_dirty_loop n k (locked c) = Done (tt, locked c') /\ cache_ok c' /\ same_view c c' /\
    Forall (fun cs => dirty cs = false) (buffer_cache c').
Proof.
  induction n as [|n IH]; intros k c Hc Hlen Hcl.
  - exists c. split_and!; try done. apply Forall_lookup_2. intros j cs Hj. eapply Hcl; [|done].
    apply lookup_lt_Some in Hj. lia.
  - destruct (lookup_lt_is_Some_2 (buffer_cache c) k) as [cs Hk]; [lia|]. cbn [write_dirty_loop].
    erewrite bind_done by (unfold load_cs, bind, get; simpl; rewrite Hk; reflexivity).
    destruct (cache_entry c k cs Hc Hk) as (Hi & Hso & Hl & _).
    destruct (dirty cs) eqn:Ed.
    + destruct (block_write_run (fs_device c) (sector_idx cs) (data cs)) as (b' & E & Hb' & Hsz & Hs'); [apply Hc | lia | done |].
      destruct (write_back_entry c k cs b' Hc Hk Hb' Hsz Hs') as [Hok Hv].
      erewrite bind_done.
      2:{ unfold bind, on_device. simpl. rewrite E. unfold store_cs, bind, get. simpl. rewrite Hk. reflexivity. }
      destruct (IH (S k) (mk_cache b' (<[k := cleaned cs]> (buffer_cache c)) false) Hok) as (c' & E' & Hok' & [Hsz' Hv'] & Hcl').
      * simpl. rewrite length_insert. lia.
      * simpl. intros j csj Hj Hjk. destruct (decide (j = k)) as [->|].
        { rewrite list_lookup_insert_eq in Hjk by lia. by injection Hjk as <-. }
        rewrite list_lookup_insert_ne in Hjk by done. eapply Hcl; [|done]. lia.
      * exists c'. split_and!; try done. split; [simpl in Hsz'; congruence|]. intros s. by rewrite Hv', Hv.
    + erewrite bind_done by reflexivity. apply IH; [done | lia |].
      intros j csj Hj Hjk. destruct (decide (j = k)) as [->|]; [congruence|]. eapply Hcl; [|done]. lia.
Qed.

Lemma write_all_dirty_sectors_run c :
  cache_ok c ->
  match buffer_cache c with
  | [] => write_all_dirty_sectors c = Fault AssertFailed
  | _ => exists c', write_all_dirty_sectors c = Done (tt, c') /\ cache_ok c' /\ same_view c c' /\
      forall s, block_sector (fs_device c') s = view c s
  end.
Proof.
  intros Hc. pose proof Hc as (_ & Hlk & _). unfold write_all_dirty_sectors, acquire_cache_lock.
  erewrite bind_done by (unfold bind, get; rewrite Hlk; reflexivity).
  rewrite (bind_done _ _ _ _ _ eq_refl). cbv beta. cbn [buffer_cache].
  destruct (buffer_cache c) as [|cs0 l] eqn:El; [done|].
  rewrite assert_true by done. rewrite <- El.
  destruct (write_dirty_loop_run (length (buffer_cache c)) 0 c Hc) as (c' & E & Hok & [Hsz Hv] & Hcl); [lia | lia |].
  rewrite (bind_done _ _ _ _ _ E). exists c'.
  split_and!; try done.
  - unfold release_cache_lock, bind, get, modify, assert. simpl. destruct Hok as (_ & Hlk' & _).
    by destruct c'; simpl in *; subst.
  - intros s. rewrite <- Hv. unfold view. pose proof Hok as (_ & _ & _ & Hnd & Hall).
    pose proof (find_spec (buffer_cache c') s Hnd) as Hf. destruct (list_find _ (buffer_cache c')) as [[k cs]|]; [|done].
    destruct Hf as [Hk <-]. destruct (cache_entry c' k cs Hok Hk) as (_ & _ & _ & Hclean).
    symmetry. apply Hclean. by eapply Forall_lookup_1 in Hcl.
Qed.
End flush.

(** ** The interface *)

#[export, refine] Instance cache_store {D} `{!BlockOps D} : SectorStore (cache D) := {
  store_read := cache_read;
  store_write := cache_write;
  store_read_at := cache_read_with_size_and_offset;
  store_write_at := cache_write_with_size_and_offset;
  contents := view;
  store_size c := block_size (fs_device c);
  store_ok := cache_ok
}.
Proof.
  - intros. by apply view_ok.
  - intros s x Hs Hx. destruct (cache_read_run s x Hs Hx) as (s' & ? & ? & ? & ?). by exists s'.
  - intros s x buf Hs Hx Hb. by apply cache_write_run.
  - intros s x size ofs Hs Hx H1 H2 H3.
    destruct (cache_read_at_run s x size ofs Hs Hx H1 H2 H3) as (s' & ? & ? & ? & ?). by exists s'.
  - intros s x buf size ofs Hs Hx H1 H2 H3 H4 H5.
    destruct (cache_write_at_run s x buf size ofs Hs Hx H1 H2 H3 H4 H5) as (s' & ? & ? & ? & ? & ?).
    exists s', (if resident s x then view s x else blank_sector). split_and!; try done.
    destruct (resident s x); [by left | by right].
Defined.

(** ** Histories

    What a sequence of accesses may return, on a device that is a function from
    sectors to their bytes. *)

Inductive access :=
  | Read (s size ofs : Z)
  | Write (s : Z) (buf : list Z)
  | WritePart (s : Z) (buf : list Z) (size ofs : Z).

Definition access_ok (n : Z) (a : access) : Prop :=
  match a with
  | Read s size ofs => 0 <= s < n /\ 0 <= size /\ 0 <= ofs /\ ofs + size <= 512
  | Write s buf => 0 <= s < n /\ sector_ok buf
  | WritePart s buf size ofs =>
      0 <= s < n /\ 0 <= size /\ 0 <= ofs /\ ofs + size <= 512 /\
      size <= Z.of_nat (length buf) /\ Forall is_byte buf
  end.

(** One access on the abstract device: the bytes it returns and the device
    after it. *)
Inductive device_step (m : Z -> list Z) : access -> list Z -> (Z -> list Z) -> Prop :=
  | step_read s size ofs m' :
      (forall x, m' x = m x) ->
      device_step m (Read s size ofs) (slice (Z.to_nat ofs) (Z.to_nat size) (m s)) m'
  | step_write s buf m' :
      (forall x, m' x = if x =? s then buf else m x) ->
      device_step m (Write s buf) [] m'
  | step_write_part s buf size ofs base m' :
      base = m s \/ base = blank_sector ->
      (forall x, m' x = if x =? s then patch (Z.to_nat ofs) (take (Z.to_nat size) buf) base else m x) ->
      device_step m (WritePart s buf size ofs) [] m'.

Inductive device_steps : (Z -> list Z) -> list access -> list (list Z) -> (Z -> list Z) -> Prop :=
  | steps_nil m : device_steps m [] [] m
  | steps_cons m a r m1 l rs m2 :
      device_step m a r m1 -> device_steps m1 l rs m2 -> device_steps m (a :: l) (r :: rs) m2.

Section histories.
Context {D : Type} `{!BlockOps D}.
Implicit Types (c : cache D).

Definition run_access (a : access) : M (cache D) (list Z) :=
  match a with
  | Read s size ofs => cache_read_with_size_and_offset s size ofs
  | Write s buf => cache_write s buf ;; ret []
  | WritePart s buf size ofs => cache_write_with_size_and_offset s buf size ofs ;; ret []
  end.

Fixpoint run_accesses (l : list access) : M (cache D) (list (list Z)) :=
  match l with
  | [] => ret []
  | a :: l => let! r := run_access a in let! rs := run_accesses l in ret (r :: rs)
  end.

Lemma run_access_step c a : cache_ok c -> access_ok (block_size (fs_device c)) a ->
  exists r c', run_access a c = Done (r, c') /\ cache_ok c' /\
    block_size (fs_device c') = block_size (fs_device c) /\ device_step (view c) a r (view c').
Proof.
  intros Hc Ha. destruct a as [s size ofs|s buf|s buf size ofs]; simpl in Ha |- *.
  - destruct Ha as (H1 & H2 & H3 & H4).
    destruct (cache_read_at_run c s size ofs Hc H1 H2 H3 H4) as (c' & E & Hok & Hsz & Hv).
    do 2 eexists. split; [exact E|]. split_and!; try done. by constructor.
  - destruct Ha as [H1 H2]. destruct (cache_write_run c s buf Hc H1 H2) as (c' & E & Hok & Hsz & Hv).
    exists [], c'. rewrite (bind_done _ _ _ _ _ E). split_and!; try done. by constructor.
  - destruct Ha as (H1 & H2 & H3 & H4 & H5 & H6).
    destruct (cache_write_at_run c s buf size ofs Hc H1 H2 H3 H4 H5 H6) as (c' & E & Hok & Hsz & Hv1 & Hv2).
    exists [], c'. rewrite (bind_done _ _ _ _ _ E). split_and!; try done.
    apply (step_write_part _ s buf size ofs (if resident c s then view c s else blank_sector)).
    + destruct (resident c s); [by left | by right].
    + intros x. destruct (Z.eqb_spec x s) as [->|]; [done | by apply Hv2].
Qed.

Lemma run_accesses_steps l : forall c,
  cache_ok c -> Forall (access_ok (block_size (fs_device c))) l ->
  exists rs c', run_accesses l c = Done (rs, c') /\ cache_ok c' /\ device_steps (view c) l rs (view c').
Proof.
  induction l as [|a l IH]; intros c Hc Hl; [exists [], c; by split_and!; [..|constructor]|].
  apply Forall_cons in Hl as [Ha Hl]. cbn [run_accesses].
  destruct (run_access_step c a Hc Ha) as (r & c1 & E1 & Hc1 & Hsz & Hst). rewrite (bind_done _ _ _ _ _ E1).
  rewrite <- Hsz in Hl. destruct (IH c1 Hc1 Hl) as (rs & c2 & E2 & Hc2 & Hsts).
  rewrite (bind_done _ _ _ _ _ E2). exists (r :: rs), c2. split_and!; try done. by econstructor.
Qed.
End histories.

(** ** Properties *)


Definition filled (b : Z) : list Z := replicate 512 b.

Lemma filled_ok b : is_byte b -> sector_ok (filled b).
Proof. intros. split; [done|]. by apply Forall_replicate. Qed.

Definition demo_disk : cache memory_disk :=
  mk_cache (mk_block "hda2"%string BLOCK_FILESYS 100 {[5 := filled 7]} 0 0) [] false.

Lemma demo_disk_ok : cache_ok demo_disk.
Proof.
  split_and!; try done; [split; [|done] | constructor].
  apply map_Forall_singleton. by apply filled_ok.
Qed.


(** C38: a partial write to a sector that is not resident destroys the rest of
    the sector.  [cache_write_with_size_and_offset] asks for the sector as a
    write, a miss then zero-fills the frame instead of reading the device, and
    every byte outside the written range reads as zero afterwards, whatever the
    device held. *)
Theorem partial_write_miss_zeroes {D} `{!BlockOps D} (c : cache D) (s size ofs : Z) (buf : list Z)
  (Hc : cache_ok c) (Hs : 0 <= s < block_size (fs_device c)) (Hmiss : resident c s = false)
  (H1 : 0 <= size) (H2 : 0 <= ofs) (H3 : ofs + size <= 512)
  (H4 : size <= Z.of_nat (length buf)) (H5 : Forall is_byte buf) :
  exists c' c'' d, cache_write_with_size_and_offset s buf size ofs c = Done (tt, c') /\
    cache_read s c' = Done (d, c'') /\
    slice (Z.to_nat ofs) (Z.to_nat size) d = take (Z.to_nat size) buf /\
    forall i, (i < 512)%nat -> ~ (ofs <= Z.of_nat i < ofs + size) -> d !! i = Some 0.
Proof.
  destruct (cache_write_at_run c s buf size ofs Hc Hs H1 H2 H3 H4 H5) as (c' & E & Hok & Hsz & Hv & _).
  rewrite Hmiss in Hv. rewrite <- Hsz in Hs. destruct (cache_read_run c' s Hok Hs) as (c'' & E' & _).
  exists c', c'', (view c' s). rewrite Hv in *.
  assert (length (take (Z.to_nat size) buf) = Z.to_nat size) as Ht by (rewrite length_take; lia).
  assert (length blank_sector = 512%nat) as Hb by done. split_and!; try done.
  - rewrite <- Ht at 1. apply slice_patch_same. rewrite Ht, Hb. lia.
  - intros i Hi Hout. rewrite lookup_patch by (rewrite Ht, Hb; lia). rewrite Ht, decide_False by lia.
    by apply lookup_replicate_2.
Qed.

(** The sector held 512 sevens; one byte is written. *)
Lemma partial_write_miss_zeroes_witness :
  exists c' c'' d, cache_write_with_size_and_offset 5 [1] 1 0 demo_disk = Done (tt, c') /\
    cache_read 5 c' = Done (d, c'') /\ d !! 1%nat = Some 0 /\ view demo_disk 5 !! 1%nat = Some 7.
Proof.
  destruct (partial_write_miss_zeroes demo_disk 5 1 0 [1] demo_disk_ok) as (c' & c'' & d & E1 & E2 & _ & Hz);
    try (simpl; lia); [reflexivity | repeat constructor; lia |].
  exists c', c'', d. split_and!; [exact E1 | exact E2 | apply Hz; simpl; lia | reflexivity].
Defined.
