(* ===== verification/Inode.v ===== *)
(** * filesys/inode.c: inodes

    The state of the file system in memory, the on-disk inode and its two levels
    of pointer sectors, and every function of inode.c above the buffer cache.
    The code runs over any [SectorStore] and over an allocator of sectors,
    which FreeMap.v ties to the functions of free-map.c.  Struct pointers are
    the keys of a map; a freed one is a [BadPointer].  A thread that would wait
    on an inode's condition variable stops with [WouldSleep]. *)

From stdpp Require Import options.
From S2P Require Import Prelude Bytes Bitmap Block Store.
Local Open Scope Z_scope.
Local Open Scope kernel_scope.

Definition INODE_MAGIC : Z := 0x494e4f44.
Definition NUM_POINTERS : Z := 128.
Definition SECTOR_NONE : Z := 2 ^ 32 - 1.

(** ** State *)

Record inode := mk_inode {
  i_sector : Z;
  open_cnt : Z;
  removed : bool;
  deny_write_cnt : Z;
  active_writers : Z;
  active_readers : Z;
  waiting_writers : Z;
  waiting_readers : Z
}.

Record file := mk_file { f_inode : Z; f_pos : Z; deny_write : bool }.

Record dir := mk_dir { dir_inode : Z; dir_pos : Z }.

Record fs (S : Type) := mk_fs {
  store : S;
  free_map : bitmap;
  free_map_file : Z;
  free_map_lock : bool;
  open_inodes : list Z;
  open_inodes_lock : bool;
  inodes : gmap Z inode;
  files : gmap Z file;
  dirs : gmap Z dir;
  cwd : Z;
  next_ptr : Z;
  oom : list bool
}.
Arguments mk_fs {S}.
Arguments store {S}.
Arguments free_map {S}.
Arguments free_map_file {S}.
Arguments free_map_lock {S}.
Arguments open_inodes {S}.
Arguments open_inodes_lock {S}.
Arguments inodes {S}.
Arguments files {S}.
Arguments dirs {S}.
Arguments cwd {S}.
Arguments next_ptr {S}.
Arguments oom {S}.

(** ** [struct inode_disk]

    One sector: [isdir] at byte 0, [indirect_ptr_idx] at 4, [length] at 8,
    [magic] at 12. *)

Definition d_isdir (d : list Z) : bool := negb (le_decode (slice 0 1 d) =? 0).
Definition d_indirect (d : list Z) : Z := le_decode (slice 4 4 d).
Definition d_length (d : list Z) : Z := i32 (le_decode (slice 8 4 d)).
Definition d_magic (d : list Z) : Z := le_decode (slice 12 4 d).

Definition set_isdir (b : bool) (d : list Z) : list Z := patch 0 [if b then 1 else 0] d.
Definition set_indirect (s : Z) (d : list Z) : list Z := patch 4 (le_encode 4 s) d.
Definition set_length (n : Z) (d : list Z) : list Z := patch 8 (le_encode 4 (u32 n)) d.
Definition set_magic (m : Z) (d : list Z) : list Z := patch 12 (le_encode 4 m) d.

(** [struct indirect]: the 128 sector numbers in a sector. *)
Definition pointers (d : list Z) : list Z := bytes_to_words 128 d.

Definition bytes_to_sectors (size : Z) : Z := Z.quot (size + BLOCK_SECTOR_SIZE - 1) BLOCK_SECTOR_SIZE.

Section code.
Context {St : Type} `{!SectorStore St}.
Abbreviation MF := (M (fs St)).

Definition on_store {A} (m : M St A) : MF A := fun f =>
  match m (store f) with
  | Done (a, s) =>
      Done (a, mk_fs s (free_map f) (free_map_file f) (free_map_lock f) (open_inodes f)
                 (open_inodes_lock f) (inodes f) (files f) (dirs f) (cwd f) (next_ptr f) (oom f))
  | Fault e => Fault e
  end.

Definition set_inodes (m : gmap Z inode) : MF unit :=
  modify (fun f => mk_fs (store f) (free_map f) (free_map_file f) (free_map_lock f) (open_inodes f)
                     (open_inodes_lock f) m (files f) (dirs f) (cwd f) (next_ptr f) (oom f)).

Definition set_open_inodes (l : list Z) : MF unit :=
  modify (fun f => mk_fs (store f) (free_map f) (free_map_file f) (free_map_lock f) l
                     (open_inodes_lock f) (inodes f) (files f) (dirs f) (cwd f) (next_ptr f) (oom f)).

Definition set_open_inodes_lock (b : bool) : MF unit :=
  modify (fun f => mk_fs (store f) (free_map f) (free_map_file f) (free_map_lock f) (open_inodes f)
                     b (inodes f) (files f) (dirs f) (cwd f) (next_ptr f) (oom f)).

Definition load_inode (p : Z) : MF inode :=
  let! f := get in
  match inodes f !! p with
  | Some i => ret i
  | None => fail BadPointer
  end.

Definition store_inode (p : Z) (i : inode) : MF unit :=
  let! f := get in set_inodes (<[p := i]> (inodes f)).

(** [malloc] of an object that outlives the call: 0 when memory is exhausted,
    which the stream [oom] decides. *)
Definition malloc_ptr : MF Z := fun f =>
  let give oom :=
    Done (next_ptr f, mk_fs (store f) (free_map f) (free_map_file f) (free_map_lock f) (open_inodes f)
            (open_inodes_lock f) (inodes f) (files f) (dirs f) (cwd f) (next_ptr f + 1) oom) in
  match oom f with
  | true :: o =>
      Done (0, mk_fs (store f) (free_map f) (free_map_file f) (free_map_lock f) (open_inodes f)
                 (open_inodes_lock f) (inodes f) (files f) (dirs f) (cwd f) (next_ptr f) o)
  | false :: o => give o
  | [] => give []
  end.

Definition acquire_open_inodes_lock : MF unit :=
  let! f := get in assert (negb (open_inodes_lock f)) ;; set_open_inodes_lock true.

Definition release_open_inodes_lock : MF unit :=
  let! f := get in assert (open_inodes_lock f) ;; set_open_inodes_lock false.

(** ** Readers and writers of an inode *)

Definition set_counts (i : inode) (aw ar : Z) : inode :=
  mk_inode (i_sector i) (open_cnt i) (removed i) (deny_write_cnt i) aw ar
    (waiting_writers i) (waiting_readers i).

Definition reader_checkin (p : Z) : MF unit :=
  let! i := load_inode p in
  if 0 <? u32 (active_writers i + waiting_writers i) then fail WouldSleep
  else store_inode p (set_counts i (active_writers i) (u32 (active_readers i + 1))).

Definition reader_checkout (p : Z) : MF unit :=
  let! i := load_inode p in
  store_inode p (set_counts i (active_writers i) (u32 (active_readers i - 1))).

Definition writer_checkin (p : Z) : MF unit :=
  let! i := load_inode p in
  if 0 <? u32 (active_writers i + active_readers i) then fail WouldSleep
  else store_inode p (set_counts i (u32 (active_writers i + 1)) (active_readers i)).

Definition writer_checkout (p : Z) : MF unit :=
  let! i := load_inode p in
  store_inode p (set_counts i (u32 (active_writers i - 1)) (active_readers i)).

(** ** Blocks of a file *)

Definition read_pointers (s : Z) : MF (list Z) :=
  let! d := on_store (store_read s) in ret (pointers d).

Definition write_pointers (s : Z) (ps : list Z) : MF unit :=
  on_store (store_write s (words_to_bytes ps)).

(** [ptrs[k]], outside the array a bad access. *)
Definition load_pointer (ps : list Z) (k : Z) : MF Z :=
  if 0 <=? k then
    match ps !! Z.to_nat k with
    | Some s => ret s
    | None => fail BadPointer
    end
  else fail BadPointer.

Definition byte_to_sector (p pos : Z) : MF Z :=
  let! i := load_inode p in
  let! disk_inode := on_store (store_read (i_sector i)) in
  if pos <? d_length disk_inode then
    let level1_position := Z.quot (Z.quot pos BLOCK_SECTOR_SIZE) NUM_POINTERS in
    let level2_position := Z.rem (Z.quot pos BLOCK_SECTOR_SIZE) NUM_POINTERS in
    let! doubly_indirect := read_pointers (d_indirect disk_inode) in
    let! s := load_pointer doubly_indirect level1_position in
    let! indirect := read_pointers s in
    load_pointer indirect level2_position
  else ret SECTOR_NONE.

Definition inode_length (p : Z) : MF Z :=
  let! i := load_inode p in
  let! disk_inode := on_store (store_read (i_sector i)) in
  ret (d_length disk_inode).

Definition is_dir (p : Z) : MF bool :=
  let! i := load_inode p in
  let! disk_inode := on_store (store_read (i_sector i)) in
  ret (d_isdir disk_inode).

Definition inode_get_inumber (p : Z) : MF Z :=
  let! i := load_inode p in ret (i_sector i).

Definition inode_sector (p : Z) : MF Z :=
  let! i := load_inode p in ret (i_sector i).

(** [free_map_allocate] and [free_map_release] of free-map.c. *)
Record allocator := mk_allocator {
  allocate : Z -> MF (option Z);
  release : Z -> Z -> MF unit
}.
End code.
Arguments allocator : clear implicits.

(** ** Growing and shrinking *)

Section resizing.
Context {St : Type} `{!SectorStore St} (al : allocator St).
Abbreviation MF := (M (fs St)).

(** [Some s]: the sector [s] was added and zeroed. *)
Definition add_sector_to_file : MF (option Z) :=
  let! r := allocate al 1 in
  match r with
  | Some s => on_store (store_write s blank_sector) ;; ret (Some s)
  | None => ret None
  end.

(** The loop over level 2, [n] more pointers from [j] on; [None] if a sector
    could not be allocated. *)
Fixpoint resize_level2 (n : nat) (i j size : Z) (indirect : list Z) : MF (option (list Z)) :=
  match n with
  | O => ret (Some indirect)
  | S n =>
      let bound := i * (BLOCK_SECTOR_SIZE * NUM_POINTERS) + j * BLOCK_SECTOR_SIZE in
      let! s := load_pointer indirect j in
      let! r := (if (bound <? size) && (s =? 0) then
                   let! a := add_sector_to_file in
                   match a with
                   | Some s' => ret (Some (<[Z.to_nat j := s']> indirect))
                   | None => ret None
                   end
                 else ret (Some indirect)) in
      match r with
      | None => ret None
      | Some indirect =>
          let! s := load_pointer indirect j in
          let! indirect := (if (size <=? bound) && negb (s =? 0) then
                              release al s 1 ;; ret (<[Z.to_nat j := 0]> indirect)
                            else ret indirect) in
          resize_level2 n i (j + 1) size indirect
      end
  end.

(** The pointers in the indirect sector [s], read, resized and committed; false
    if a sector could not be allocated. *)
Definition resize_indirect (i size s : Z) : MF bool :=
  if negb (s =? 0) then
    let! indirect := read_pointers s in
    let! r := resize_level2 128 i 0 size indirect in
    match r with
    | None => ret false
    | Some indirect => write_pointers s indirect ;; ret true
    end
  else ret true.

(** The loop over level 1. *)
Fixpoint resize_level1 (n : nat) (i size : Z) (doubly_indirect : list Z) : MF (option (list Z)) :=
  match n with
  | O => ret (Some doubly_indirect)
  | S n =>
      let bound := i * (BLOCK_SECTOR_SIZE * NUM_POINTERS) in
      let! s := load_pointer doubly_indirect i in
      let! r := (if (bound <? size) && (s =? 0) then
                   let! a := add_sector_to_file in
                   match a with
                   | Some s' => ret (Some (<[Z.to_nat i := s']> doubly_indirect))
                   | None => ret None
                   end
                 else ret (Some doubly_indirect)) in
      match r with
      | None => ret None
      | Some doubly_indirect =>
          let! s := load_pointer doubly_indirect i in
          let! r := resize_indirect i size s in
          if r : bool then
            let! doubly_indirect := (if (size <=? bound) && negb (s =? 0) then
                                       release al s 1 ;; ret (<[Z.to_nat i := 0]> doubly_indirect)
                                     else ret doubly_indirect) in
            resize_level1 n (i + 1) size doubly_indirect
          else ret None
      end
  end.

(** The part of [inode_resize] after the doubly indirect sector is there;
    [roll_back] is what it does when the device is full. *)
Definition resize_tree (roll_back : list Z -> MF (bool * list Z)) (disk_inode : list Z) (size : Z)
    : MF (bool * list Z) :=
  let! doubly_indirect := read_pointers (d_indirect disk_inode) in
  let! r := resize_level1 128 0 size doubly_indirect in
  match r with
  | None => roll_back disk_inode
  | Some doubly_indirect =>
      write_pointers (d_indirect disk_inode) doubly_indirect ;;
      let! disk_inode := (if size =? 0 then
                            release al (d_indirect disk_inode) 1 ;;
                            ret (set_indirect 0 disk_inode)
                          else ret disk_inode) in
      ret (true, set_length size disk_inode)
  end.

(** Success and the on-disk inode as the call leaves it.  [fuel] bounds the
    nesting of roll backs. *)
Fixpoint inode_resize (fuel : nat) (disk_inode : list Z) (size : Z) : MF (bool * list Z) :=
  match fuel with
  | O => fail OutOfFuel
  | S fuel =>
      if (d_indirect disk_inode =? 0) && (size =? 0) then ret (true, disk_inode)
      else
        let original_length := u32 (d_length disk_inode) in
        let roll_back disk_inode :=
          let! r := inode_resize fuel disk_inode (i32 original_length) in ret (false, snd r) in
        if d_indirect disk_inode =? 0 then
          let! a := add_sector_to_file in
          match a with
          | Some s => resize_tree roll_back (set_indirect s disk_inode) size
          | None => roll_back disk_inode
          end
        else resize_tree roll_back disk_inode size
  end.

(** A resize and, if it runs out of sectors, one roll back. *)
Definition resize_depth : nat := 2.

Definition inode_create (s length : Z) : MF bool :=
  assert (0 <=? length) ;;
  let disk_inode := set_magic INODE_MAGIC blank_sector in
  let! a := allocate al 1 in
  match a with
  | None => ret false
  | Some idx =>
      let disk_inode := set_indirect idx disk_inode in
      on_store (store_write idx blank_sector) ;;
      let! r := (if 0 <? length then inode_resize resize_depth disk_inode length
                 else ret (true, disk_inode)) in
      if fst r then on_store (store_write s (snd r)) ;; ret true else ret false
  end.

Definition inode_create_dir (s length : Z) : MF bool :=
  let! success := inode_create s length in
  if success then
    let! disk_inode := on_store (store_read s) in
    on_store (store_write s (set_isdir true disk_inode)) ;;
    ret true
  else ret false.

(** ** Opening and closing *)

Definition inode_reopen (p : Z) : MF Z :=
  if negb (p =? 0) then
    writer_checkin p ;;
    let! i := load_inode p in
    store_inode p (mk_inode (i_sector i) (open_cnt i + 1) (removed i) (deny_write_cnt i)
                     (active_writers i) (active_readers i) (waiting_writers i) (waiting_readers i)) ;;
    writer_checkout p ;;
    ret p
  else ret p.

(** The search of [inode_open] along the list of open inodes. *)
Fixpoint find_open (l : list Z) (s : Z) : MF (option Z) :=
  match l with
  | [] => ret None
  | p :: l =>
      let! i := load_inode p in
      if i_sector i =? s then ret (Some p) else find_open l s
  end.

Definition inode_open (s : Z) : MF Z :=
  acquire_open_inodes_lock ;;
  let! f := get in
  let! r := find_open (open_inodes f) s in
  match r with
  | Some p => release_open_inodes_lock ;; inode_reopen p
  | None =>
      let! p := malloc_ptr in
      if p =? 0 then ret 0
      else
        let! f := get in
        set_open_inodes (p :: open_inodes f) ;;
        store_inode p (mk_inode s 1 false 0 0 0 0 0) ;;
        release_open_inodes_lock ;;
        ret p
  end.

Definition free_all_data_sectors (p : Z) : MF unit :=
  let! i := load_inode p in
  let! disk_inode := on_store (store_read (i_sector i)) in
  inode_resize resize_depth disk_inode 0 ;; ret tt.

Definition inode_close (p : Z) : MF unit :=
  if p =? 0 then ret tt
  else
    writer_checkin p ;;
    let! i := load_inode p in
    let i := mk_inode (i_sector i) (open_cnt i - 1) (removed i) (deny_write_cnt i)
               (active_writers i) (active_readers i) (waiting_writers i) (waiting_readers i) in
    store_inode p i ;;
    if open_cnt i =? 0 then
      acquire_open_inodes_lock ;;
      let! f := get in
      set_open_inodes (filter (fun q => q <> p) (open_inodes f)) ;;
      release_open_inodes_lock ;;
      (if removed i then free_all_data_sectors p ;; release al (i_sector i) 1 else ret tt) ;;
      writer_checkout p ;;
      let! f := get in
      set_inodes (delete p (inodes f))
    else writer_checkout p.

Definition inode_remove (p : Z) : MF unit :=
  writer_checkin p ;;
  let! i := load_inode p in
  store_inode p (mk_inode (i_sector i) (open_cnt i) true (deny_write_cnt i)
                   (active_writers i) (active_readers i) (waiting_writers i) (waiting_readers i)) ;;
  writer_checkout p.

Definition set_deny (i : inode) (n : Z) : inode :=
  mk_inode (i_sector i) (open_cnt i) (removed i) n
    (active_writers i) (active_readers i) (waiting_writers i) (waiting_readers i).

Definition inode_deny_write (p : Z) : MF unit :=
  writer_checkin p ;;
  let! i := load_inode p in
  store_inode p (set_deny i (deny_write_cnt i + 1)) ;;
  assert (deny_write_cnt i + 1 <=? open_cnt i) ;;
  writer_checkout p.

Definition inode_allow_write (p : Z) : MF unit :=
  writer_checkin p ;;
  let! i := load_inode p in
  assert (0 <? deny_write_cnt i) ;;
  assert (deny_write_cnt i <=? open_cnt i) ;;
  store_inode p (set_deny i (deny_write_cnt i - 1)) ;;
  writer_checkout p.

(** ** Reading and writing *)

(** The number of bytes the next step of either loop moves, from the length of
    the file, the bytes asked for and the offset. *)
Definition chunk (len size offset : Z) : Z :=
  let sector_ofs := offset mod BLOCK_SECTOR_SIZE in
  let inode_left := i32 (len - offset) in
  let sector_left := BLOCK_SECTOR_SIZE - sector_ofs in
  let min_left := if inode_left <? sector_left then inode_left else sector_left in
  i32 (if size <? u32 min_left then size else min_left).

(** The loop of [inode_read_at]; [acc] is the bytes already in the buffer. *)
Fixpoint read_loop (fuel : nat) (p size offset : Z) (acc : list Z) : MF (list Z) :=
  match fuel with
  | O => fail OutOfFuel
  | S fuel =>
      if 0 <? size then
        let! sector_idx := byte_to_sector p (i32 offset) in
        if sector_idx =? SECTOR_NONE then ret acc
        else
          let! len := inode_length p in
          let chunk_size := chunk len size offset in
          if chunk_size <=? 0 then ret acc
          else
            let! d := on_store (store_read_at sector_idx chunk_size (offset mod BLOCK_SECTOR_SIZE)) in
            read_loop fuel p (u32 (size - chunk_size)) (u32 (offset + chunk_size)) (acc ++ d)
      else ret acc
  end.

(** The bytes read, in order; the source returns their number. *)
Definition inode_read_at (p size offset : Z) : MF (list Z) :=
  reader_checkin p ;;
  let! bytes := read_loop (S (Z.to_nat size)) p size offset [] in
  reader_checkout p ;;
  ret bytes.

(** [size] bytes at [buffer + k]. *)
Definition load_bytes (buffer : list Z) (k size : Z) : MF (list Z) :=
  if k + size <=? Z.of_nat (length buffer) then ret (slice (Z.to_nat k) (Z.to_nat size) buffer)
  else fail BadPointer.

Fixpoint write_loop (fuel : nat) (p : Z) (buffer : list Z) (size offset bytes_written : Z) : MF Z :=
  match fuel with
  | O => fail OutOfFuel
  | S fuel =>
      if 0 <? size then
        let! sector_idx := byte_to_sector p (i32 offset) in
        let! len := inode_length p in
        let chunk_size := chunk len size offset in
        if chunk_size <=? 0 then ret bytes_written
        else
          let! d := load_bytes buffer bytes_written chunk_size in
          on_store (store_write_at sector_idx d chunk_size (offset mod BLOCK_SECTOR_SIZE)) ;;
          write_loop fuel p buffer (u32 (size - chunk_size)) (u32 (offset + chunk_size))
            (bytes_written + chunk_size)
      else ret bytes_written
  end.

Definition inode_write_at (p : Z) (buffer : list Z) (size offset : Z) : MF Z :=
  assert (negb (p =? 0)) ;;
  reader_checkin p ;;
  let! i := load_inode p in
  if negb (deny_write_cnt i =? 0) then reader_checkout p ;; ret 0
  else
    let! len := inode_length p in
    if u32 len <? u32 (size + offset) then
      reader_checkout p ;;
      writer_checkin p ;;
      let! disk_inode := on_store (store_read (i_sector i)) in
      let! r := inode_resize resize_depth disk_inode (i32 (size + offset)) in
      if fst r then
        on_store (store_write (i_sector i) (snd r)) ;;
        let! n := write_loop (S (Z.to_nat size)) p buffer size offset 0 in
        writer_checkout p ;;
        ret n
      else writer_checkout p ;; ret 0
    else
      let! n := write_loop (S (Z.to_nat size)) p buffer size offset 0 in
      reader_checkout p ;;
      ret n.
End resizing.
