(* ===== verification/InodeTree.v ===== *)
(** * The blocks of a file

    A file is a tree of sectors: the on-disk inode, the doubly indirect sector,
    up to 128 indirect sectors and up to 128 data sectors under each.  This
    file says when the tree of a file is well formed, what the allocator
    promises, and proves that [inode_resize] grows and shrinks trees: the loops
    allocate and release exactly the sectors the new length calls for, a failed
    growth is rolled back, and sectors of other files are never touched. *)

From stdpp Require Import options.
From S2P Require Import Prelude Bytes Bitmap Block Store Inode.
Local Open Scope Z_scope.
Local Open Scope kernel_scope.

(** The [k]th pointer of an array. *)
Definition pk (ps : list Z) (k : Z) : Z := nth (Z.to_nat k) ps 0.

Definition level1_bytes : Z := 65536.

Definition MAX_FILE_BYTES : Z := 2 ^ 23.

(** The sectors of a file, by their role. *)
Inductive node :=
  | Self
  | Root
  | Ind (i : Z)
  | Dat (i j : Z).

Definition node_valid (nd : node) : Prop :=
  match nd with
  | Self | Root => True
  | Ind i => 0 <= i < 128
  | Dat i j => 0 <= i < 128 /\ 0 <= j < 128
  end.

Section trees.
Context (v : Z -> list Z).

(** Pointers of the levels below the doubly indirect sector [idx]; 0 is no
    sector. *)
Definition level1 (idx i : Z) : Z := if idx =? 0 then 0 else pk (pointers (v idx)) i.

Definition level2 (idx i j : Z) : Z :=
  let s := level1 idx i in if s =? 0 then 0 else pk (pointers (v s)) j.

(** The sector of a node, for the inode at [s] with doubly indirect sector
    [idx]. *)
Definition addr (s idx : Z) (nd : node) : Z :=
  match nd with
  | Self => s
  | Root => idx
  | Ind i => level1 idx i
  | Dat i j => level2 idx i j
  end.

Definition live (s idx : Z) (nd : node) : Prop :=
  node_valid nd /\ (nd = Self \/ addr s idx nd <> 0).

(** Byte [k] of the file under [idx]. *)
Definition tree_byte (idx k : Z) : Z :=
  nth (Z.to_nat (k mod 512)) (v (level2 idx (k / level1_bytes) (k / 512 mod 128))) 0.

(** The tree holds exactly the sectors that [len] bytes need, all distinct;
    bytes past the end in the last sector are zero. *)
Definition tree_ok (s idx len : Z) : Prop :=
  0 <= len <= MAX_FILE_BYTES /\
  (0 < len -> idx <> 0) /\
  (forall i, 0 <= i < 128 -> level1 idx i <> 0 <-> i * level1_bytes < len) /\
  (forall i j, 0 <= i < 128 -> 0 <= j < 128 ->
     level2 idx i j <> 0 <-> i * level1_bytes + j * 512 < len) /\
  (forall a b, live s idx a -> live s idx b -> addr s idx a = addr s idx b -> a = b) /\
  (forall k, len <= k -> k / 512 * 512 < len -> tree_byte idx k = 0).

Definition tree_bytes (idx len : Z) : list Z := map (tree_byte idx) (seqZ 0 len).
End trees.

(** ** Files of a state *)

Section files.
Context {St : Type} `{!SectorStore St}.
Implicit Types (f g : fs St) (x s : Z).

Definition sector_of (f : fs St) (x : Z) : list Z := contents (store f) x.

Definition device_size (f : fs St) : Z := store_size (store f).

(** Marked in the free map. *)
Definition used (f : fs St) (x : Z) : bool := bit (free_map f) x.

(** Everything but the sectors and the free map. *)
Definition env (f : fs St) :=
  (free_map_file f, free_map_lock f, open_inodes f, open_inodes_lock f, inodes f, files f,
   dirs f, cwd f, next_ptr f, oom f).

(** A step that changes nothing a client can see. *)
Definition quiet (f g : fs St) : Prop :=
  store_ok (store g) /\ device_size g = device_size f /\ env g = env f /\ free_map g = free_map f /\
  forall x, sector_of g x = sector_of f x.

(** ** What the allocator promises

    [priv] are the sectors the allocator keeps for itself, those of the free
    map file; [ok] holds of the states it can work in. *)

Class AllocSpec (al : allocator St) (priv : Z -> Prop) (ok : fs St -> Prop) := {
  ok_store f : ok f -> store_ok (store f);
  ok_bitmap f : ok f -> bitmap_ok (free_map f) /\ bit_cnt (free_map f) = device_size f;
  ok_zero f : ok f -> used f 0 = true /\ 0 < device_size f;
  ok_priv f x : ok f -> priv x -> used f x = true;
  ok_stable f g : ok f -> store_ok (store g) -> device_size g = device_size f -> env g = env f ->
    free_map g = free_map f -> (forall x, priv x -> sector_of g x = sector_of f x) -> ok g;
  allocate_run f : ok f -> exists r g, allocate al 1 f = Done (r, g) /\
    ok g /\ device_size g = device_size f /\ env g = env f /\
    (forall x, ~ priv x -> sector_of g x = sector_of f x) /\
    match r with
    | Some s => 0 <= s < device_size f /\ used f s = false /\
        forall x, 0 <= x < device_size f -> used g x = if x =? s then true else used f x
    | None => (forall x, 0 <= x < device_size f -> used f x = true) /\
        forall x, 0 <= x < device_size f -> used g x = used f x
    end
}.

Class ReleaseSpec (al : allocator St) (priv : Z -> Prop) (ok : fs St -> Prop) := {
  release_run f s : ok f -> 0 < s < device_size f -> used f s = true -> ~ priv s ->
    exists g, release al s 1 f = Done (tt, g) /\
      ok g /\ device_size g = device_size f /\ env g = env f /\
      (forall x, ~ priv x -> sector_of g x = sector_of f x) /\
      forall x, 0 <= x < device_size f -> used g x = if x =? s then false else used f x
}.
End files.

(** ** The on-disk inode *)

Section disk_inode.
Implicit Types (d : list Z) (n s : Z).

Lemma set_indirect_ok s d : sector_ok d -> sector_ok (set_indirect s d).
Proof.
  intros [Hl Hb]. split; unfold set_indirect.
  - rewrite length_patch; rewrite ?length_le_encode; lia.
  - apply Forall_patch; [apply le_encode_bytes | done].
Qed.

Lemma set_length_ok n d : sector_ok d -> sector_ok (set_length n d).
Proof.
  intros [Hl Hb]. split; unfold set_length.
  - rewrite length_patch; rewrite ?length_le_encode; lia.
  - apply Forall_patch; [apply le_encode_bytes | done].
Qed.

Lemma set_magic_ok n d : sector_ok d -> sector_ok (set_magic n d).
Proof.
  intros [Hl Hb]. split; unfold set_magic.
  - rewrite length_patch; rewrite ?length_le_encode; lia.
  - apply Forall_patch; [apply le_encode_bytes | done].
Qed.

Lemma set_isdir_ok b d : sector_ok d -> sector_ok (set_isdir b d).
Proof.
  intros [Hl Hb]. split; unfold set_isdir.
  - rewrite length_patch; simpl; lia.
  - apply Forall_patch; [|done]. repeat constructor; destruct b; lia.
Qed.

(** Fields are apart. *)
Lemma slice_field (o n off : nat) (data : list Z) d :
  length d = 512%nat -> (off + length data <= 512)%nat -> (o + n <= 512)%nat ->
  (o + n <= off \/ off + length data <= o)%nat -> slice o n (patch off data d) = slice o n d.
Proof. intros Hl H1 H2 H3. apply slice_patch_disjoint; lia. Qed.

Lemma indirect_set_indirect s d : sector_ok d -> is_u32 s -> d_indirect (set_indirect s d) = s.
Proof.
  intros [Hl _] Hs. unfold d_indirect, set_indirect.
  rewrite slice_patch_len by (rewrite ?length_le_encode; lia).
  rewrite le_decode_encode. by apply Z.mod_small.
Qed.

Lemma length_set_length n d : sector_ok d -> is_i32 n -> d_length (set_length n d) = n.
Proof.
  intros [Hl _] Hn. unfold d_length, set_length.
  rewrite slice_patch_len by (rewrite ?length_le_encode; lia).
  rewrite le_decode_encode. change (2 ^ (8 * Z.of_nat 4)) with (2 ^ 32). unfold u32, i32, is_i32 in *.
  rewrite Z.mod_mod by lia. rewrite Zplus_mod_idemp_l. rewrite Z.mod_small; lia.
Qed.

Lemma length_set_indirect s d : sector_ok d -> d_length (set_indirect s d) = d_length d.
Proof.
  intros [Hl _]. unfold d_length, set_indirect. rewrite slice_field; rewrite ?length_le_encode; lia || done.
Qed.

Lemma indirect_set_length n d : sector_ok d -> d_indirect (set_length n d) = d_indirect d.
Proof.
  intros [Hl _]. unfold d_indirect, set_length. rewrite slice_field; rewrite ?length_le_encode; lia || done.
Qed.

Lemma isdir_set_length n d : sector_ok d -> d_isdir (set_length n d) = d_isdir d.
Proof.
  intros [Hl _]. unfold d_isdir, set_length. rewrite slice_field; rewrite ?length_le_encode; lia || done.
Qed.

Lemma isdir_set_indirect s d : sector_ok d -> d_isdir (set_indirect s d) = d_isdir d.
Proof.
  intros [Hl _]. unfold d_isdir, set_indirect. rewrite slice_field; rewrite ?length_le_encode; lia || done.
Qed.

Lemma d_indirect_u32 d : sector_ok d -> is_u32 (d_indirect d).
Proof.
  intros [Hl Hb]. unfold d_indirect. pose proof (le_decode_bound (slice 4 4 d) (Forall_slice _ _ _ _ Hb)) as H.
  rewrite length_slice in H by lia. exact H.
Qed.

Lemma d_length_i32 d : is_i32 (d_length d).
Proof. apply i32_range. Qed.

(** ** Pointer arrays *)

Lemma length_pointers d : length (pointers d) = 128%nat.
Proof. apply length_bytes_to_words. Qed.

Lemma pointers_u32 d : sector_ok d -> Forall is_u32 (pointers d).
Proof. intros [_ Hb]. by apply bytes_to_words_u32. Qed.

Lemma pk_u32 ps k : Forall is_u32 ps -> is_u32 (pk ps k).
Proof.
  intros Hp. unfold pk. destruct (nth_in_or_default (Z.to_nat k) ps 0) as [Hin| ->]; [|unfold is_u32; lia].
  rewrite Forall_forall in Hp. apply Hp. by apply list_elem_of_In.
Qed.

Lemma pk_forall (P : Z -> Prop) ps :
  (forall k, 0 <= k < Z.of_nat (length ps) -> P (pk ps k)) -> Forall P ps.
Proof.
  intros HP. apply Forall_lookup_2. intros k q Hk. pose proof (lookup_lt_Some _ _ _ Hk).
  specialize (HP (Z.of_nat k)). unfold pk in HP. rewrite Nat2Z.id, (nth_lookup_Some _ _ _ _ Hk) in HP. apply HP. lia.
Qed.

Lemma pointers_words ps : Forall is_u32 ps -> length ps = 128%nat -> pointers (words_to_bytes ps) = ps.
Proof.
  intros Hp Hl. unfold pointers. rewrite <- Hl, <- (app_nil_r (words_to_bytes ps)). by apply words_roundtrip.
Qed.

Lemma words_sector_ok ps : length ps = 128%nat -> sector_ok (words_to_bytes ps).
Proof. intros Hl. split; [rewrite length_words_to_bytes; lia | apply words_to_bytes_bytes]. Qed.

Lemma pk_blank k : pk (pointers blank_sector) k = 0.
Proof.
  assert (pointers blank_sector = replicate 128 0) as -> by reflexivity.
  unfold pk. rewrite nth_lookup. destruct (replicate 128 0 !! Z.to_nat k) eqn:E; [|done].
  by apply lookup_replicate in E as [-> _].
Qed.

Lemma pk_insert ps j s k : (0 <= j < Z.of_nat (length ps)) -> 0 <= k ->
  pk (<[Z.to_nat j := s]> ps) k = if k =? j then s else pk ps k.
Proof.
  intros Hj Hk. unfold pk. rewrite !nth_lookup. destruct (Z.eqb_spec k j) as [->|].
  - rewrite list_lookup_insert_eq by lia. done.
  - by rewrite list_lookup_insert_ne by lia.
Qed.
End disk_inode.

(** The facts above are all that proofs need of the array of pointers. *)
#[global] Opaque pointers.

(** ** Steps of the code *)

Section steps.
Context {St : Type} `{!SectorStore St}.
Implicit Types (f g h : fs St) (x s : Z).

Lemma quiet_refl f : store_ok (store f) -> quiet f f.
Proof. by intros. Qed.

Lemma quiet_trans f g h : quiet f g -> quiet g h -> quiet f h.
Proof.
  intros (H1 & H2 & H3 & H4 & H5) (G1 & G2 & G3 & G4 & G5).
  split_and!; [done | congruence | congruence | congruence |]. intros x. by rewrite G5.
Qed.

Lemma store_read_fs f x : store_ok (store f) -> 0 <= x < device_size f ->
  exists g, on_store (store_read x) f = Done (sector_of f x, g) /\ quiet f g.
Proof.
  intros Hs Hx. destruct (store_read_run (store f) x Hs Hx) as (s' & E & Hs' & Hsz & Hc).
  unfold on_store. rewrite E. eexists. split; [reflexivity|]. by split_and!.
Qed.

Lemma read_pointers_run f x : store_ok (store f) -> 0 <= x < device_size f ->
  exists g, read_pointers x f = Done (pointers (sector_of f x), g) /\ quiet f g.
Proof.
  intros Hs Hx. destruct (store_read_fs f x Hs Hx) as (g & E & Hq). unfold read_pointers.
  rewrite (bind_done _ _ _ _ _ E). by exists g.
Qed.

Lemma store_write_fs f x buf : store_ok (store f) -> 0 <= x < device_size f -> sector_ok buf ->
  exists g, on_store (store_write x buf) f = Done (tt, g) /\ store_ok (store g) /\
    device_size g = device_size f /\ env g = env f /\ free_map g = free_map f /\
    forall y, sector_of g y = if y =? x then buf else sector_of f y.
Proof.
  intros Hs Hx Hb. destruct (store_write_run (store f) x buf Hs Hx Hb) as (s' & E & Hs' & Hsz & Hc).
  unfold on_store. rewrite E. eexists. split; [reflexivity|]. by split_and!.
Qed.

Lemma load_pointer_run ps k f : 0 <= k < Z.of_nat (length ps) -> load_pointer ps k f = Done (pk ps k, f).
Proof.
  intros Hk. unfold load_pointer. rewrite (proj2 (Z.leb_le _ _)) by lia.
  destruct (lookup_lt_is_Some_2 ps (Z.to_nat k)) as [s Hs]; [lia|]. rewrite Hs. unfold pk.
  by rewrite (nth_lookup_Some _ _ _ _ Hs).
Qed.
End steps.

(** ** Growing *)

Section growth.
Context {St : Type} `{!SectorStore St} {al : allocator St} {priv : Z -> Prop} {ok : fs St -> Prop}.
Context `{!AllocSpec al priv ok}.
Implicit Types (f g h : fs St) (x s : Z) (W : Z -> Prop).

(** From [f] to [g] sectors were only added, and of the sectors in use only
    those in [W] were written. *)
Definition grown (W : Z -> Prop) (f g : fs St) : Prop :=
  ok g /\ device_size g = device_size f /\ env g = env f /\
  (forall x, 0 <= x < device_size f -> used f x = true -> used g x = true) /\
  (forall x, 0 <= x < device_size f -> used f x = true -> ~ priv x -> ~ W x -> sector_of g x = sector_of f x).

Definition none : Z -> Prop := fun _ => False.

Lemma grown_refl W f : ok f -> grown W f f.
Proof. by intros. Qed.

Lemma grown_trans W f g h : grown W f g -> grown W g h -> grown W f h.
Proof.
  intros (H1 & H2 & H3 & H4 & H5) (G1 & G2 & G3 & G4 & G5). rewrite H2 in *.
  split_and!; [done | congruence | congruence | auto |].
  intros x Hx Hu Hp Hw. rewrite G5 by auto. by apply H5.
Qed.

Lemma grown_weaken W W' f g : (forall x, W x -> W' x) -> grown W f g -> grown W' f g.
Proof. intros Hw (H1 & H2 & H3 & H4 & H5). split_and!; try done. intros x Hx Hu Hp Hn. apply H5; auto. Qed.

Lemma quiet_grown W f g : ok f -> quiet f g -> grown W f g.
Proof using AllocSpec0.
  intros Hf (H1 & H2 & H3 & H4 & H5). split_and!; try done.
  - eapply ok_stable; [exact Hf | done..|]. auto.
  - intros x _. unfold used. by rewrite H4.
Qed.

(** Newly allocated between [f] and [g]. *)
Definition fresh (f g : fs St) (s : Z) : Prop :=
  0 < s < device_size f /\ used f s = false /\ used g s = true /\ ~ priv s.

Lemma fresh_later f g h s W : fresh f g s -> grown W g h -> device_size g = device_size f -> fresh f h s.
Proof.
  intros (H1 & H2 & H3 & H4) (G1 & G2 & G3 & G4 & G5) Hd. split_and!; try done; [lia | lia |].
  apply G4; [lia | done].
Qed.

Lemma fresh_earlier f g h s W : grown W f g -> fresh g h s -> fresh f h s.
Proof.
  intros (G1 & G2 & G3 & G4 & G5) (H1 & H2 & H3 & H4). rewrite G2 in H1. split_and!; try done; [lia | lia |].
  destruct (used f s) eqn:E; [|done]. rewrite G4 in H2; [done | lia | done].
Qed.

Lemma add_sector_run f : ok f ->
  exists r g, add_sector_to_file al f = Done (r, g) /\ grown none f g /\
    match r with
    | Some s => fresh f g s /\ sector_of g s = blank_sector
    | None => forall x, 0 <= x < device_size f -> used f x = true
    end.
Proof using AllocSpec0.
  intros Hf. unfold add_sector_to_file.
  destruct (allocate_run f Hf) as (r & g & E & Hg & Hsz & Henv & Hc & Hr). rewrite (bind_done _ _ _ _ _ E).
  destruct r as [s|].
  - destruct Hr as (Hs & Hu & Hused).
    assert (~ priv s) as Hp by (intros Hp; by rewrite (ok_priv f s Hf Hp) in Hu).
    assert (s <> 0) as Hs0 by (intros ->; destruct (ok_zero f Hf) as [H0 _]; congruence).
    destruct (store_write_fs g s blank_sector) as (g' & E' & Hso & Hsz' & Henv' & Hfm & Hc').
    { by apply ok_store. } { lia. } { apply blank_sector_ok. }
    rewrite (bind_done _ _ _ _ _ E'). exists (Some s), g'. split; [done|]. split; [|split].
    + split_and!; [|congruence | congruence | |].
      * eapply ok_stable; [exact Hg | done..|]. intros x Hx. rewrite Hc'.
        destruct (Z.eqb_spec x s) as [->|]; done.
      * intros x Hx Hux. unfold used. rewrite Hfm. fold (used g x). rewrite Hused by done.
        by destruct (x =? s).
      * intros x Hx Hux Hpx _. rewrite Hc'. destruct (Z.eqb_spec x s) as [->|]; [congruence | by apply Hc].
    + split_and!; [lia | lia | done | | done]. unfold used. rewrite Hfm. fold (used g s). rewrite Hused by done.
      by rewrite Z.eqb_refl.
    + rewrite Hc', Z.eqb_refl. done.
  - destruct Hr as [Hfull Hused]. exists None, g. split; [done|]. split; [|done]. split_and!; try done.
    + intros x Hx. by rewrite Hused.
    + intros x Hx _ Hp _. by apply Hc.
Qed.

(** All sectors of the device are in use. *)
Definition full (f : fs St) : Prop := forall x, 0 <= x < device_size f -> used f x = true.

Lemma full_grown W f g : full f -> grown W f g -> full g.
Proof. intros Hf (H1 & H2 & H3 & H4 & H5) x Hx. rewrite H2 in Hx. auto. Qed.

(** What becomes of a pointer [p] that is [needed] or not: [q]. *)
Definition settled (f g : fs St) (needed : bool) (p q : Z) : Prop :=
  if p =? 0 then if needed then fresh f g q else q = 0 else q = p.

Lemma settled_later W f g h needed p q :
  settled f g needed p q -> grown W g h -> device_size g = device_size f -> settled f h needed p q.
Proof. unfold settled. intros Hs Hg Hd. repeat case_match; try done. by eapply fresh_later. Qed.

Lemma settled_earlier W f g h needed p q :
  grown W f g -> settled g h needed p q -> settled f h needed p q.
Proof. unfold settled. intros Hg Hs. repeat case_match; try done. by eapply fresh_earlier. Qed.

Lemma fresh_u32 f g s : ok f -> fresh f g s -> is_u32 s.
Proof using AllocSpec0.
  intros Hf (Hs & _). destruct (ok_bitmap f Hf) as [[Hb _] Hc]. unfold is_u32. lia.
Qed.

Lemma settled_u32 f g needed p q : ok f -> is_u32 p -> settled f g needed p q -> is_u32 q.
Proof using AllocSpec0.
  unfold settled. intros Hf Hp. repeat case_match; [by apply fresh_u32 | intros ->; unfold is_u32; lia | by intros ->].
Qed.

Definition bound2 (i j : Z) : Z := i * level1_bytes + j * 512.

(** The pointers [ind'] that the loop over level 2 makes of [ind] between [j]
    and [j + n]. *)
Definition level2_grown (f g : fs St) (i j size : Z) (n : nat) (ind ind' : list Z) : Prop :=
  length ind' = 128%nat /\
  (forall k, 0 <= k < 128 -> ~ (j <= k < j + Z.of_nat n) -> pk ind' k = pk ind k) /\
  (forall k, j <= k < j + Z.of_nat n ->
     settled f g (bound2 i k <? size) (pk ind k) (pk ind' k) /\
     (pk ind k = 0 -> bound2 i k < size -> sector_of g (pk ind' k) = blank_sector)) /\
  (forall k1 k2, j <= k1 < j + Z.of_nat n -> j <= k2 < j + Z.of_nat n ->
     pk ind k1 = 0 -> pk ind k2 = 0 -> pk ind' k1 = pk ind' k2 -> pk ind' k1 <> 0 -> k1 = k2).

Lemma level2_grown_keep f g i j size n ind ind' :
  0 <= j -> j + Z.of_nat (S n) <= 128 -> (pk ind j = 0 -> size <= bound2 i j) ->
  level2_grown f g i (j + 1) size n ind ind' -> level2_grown f g i j size (S n) ind ind'.
Proof.
  intros Hj Hn Hkeep (Hl & Hout & Hin & Hinj). split_and!; [done | | |].
  - intros k Hk Hr. apply Hout; lia.
  - intros k Hk. destruct (decide (k = j)) as [->|]; [|apply Hin; lia].
    rewrite (Hout j) by lia. unfold settled. destruct (Z.eqb_spec (pk ind j) 0) as [E|]; [|done].
    specialize (Hkeep E). rewrite (proj2 (Z.ltb_ge _ _)) by lia. split; [done | lia].
  - intros k1 k2 Hk1 Hk2 E1 E2 Heq Hne.
    destruct (decide (k1 = j)) as [->|]; [by rewrite (Hout j), E1 in Hne by lia|].
    destruct (decide (k2 = j)) as [->|]; [by rewrite Heq, (Hout j), E2 in Hne by lia|].
    apply Hinj; try done; lia.
Qed.

Lemma level2_grown_add f g1 g i j size n ind ind' s :
  length ind = 128%nat -> 0 <= j -> j + Z.of_nat (S n) <= 128 -> pk ind j = 0 -> bound2 i j < size ->
  grown none f g1 -> fresh f g1 s -> sector_of g1 s = blank_sector -> grown none g1 g ->
  level2_grown g1 g i (j + 1) size n (<[Z.to_nat j := s]> ind) ind' ->
  level2_grown f g i j size (S n) ind ind'.
Proof.
  intros Hlen Hj Hn E Hb Hg1 Hs Hblank Hg (Hl & Hout & Hin & Hinj).
  assert (forall k, 0 <= k -> pk (<[Z.to_nat j := s]> ind) k = if k =? j then s else pk ind k) as Hpk
    by (intros; apply pk_insert; lia).
  assert (pk ind' j = s) as Ej by (rewrite Hout, Hpk, Z.eqb_refl by lia; done).
  assert (device_size g1 = device_size f) as Hd by apply Hg1.
  assert (fresh f g s) as Hsg by by eapply fresh_later.
  assert (forall k, j + 1 <= k < j + 1 + Z.of_nat n -> pk (<[Z.to_nat j := s]> ind) k = pk ind k) as Hpk'.
  { intros k Hk. rewrite Hpk by lia. by rewrite (proj2 (Z.eqb_neq _ _)) by lia. }
  split_and!; [done | | |].
  - intros k Hk Hr. rewrite Hout, Hpk by lia. by rewrite (proj2 (Z.eqb_neq _ _)) by lia.
  - intros k Hk. destruct (decide (k = j)) as [->|].
    + rewrite Ej, E. unfold settled. rewrite Z.eqb_refl, (proj2 (Z.ltb_lt _ _)) by lia. split; [done|]. intros _ _.
      rewrite <- Hblank. destruct Hg as (_ & _ & _ & _ & Hsame). destruct Hs as (? & ? & ? & ?).
      apply Hsame; [lia | done | done | by intros []].
    + destruct (Hin k) as [H1 H2]; [lia|]. rewrite Hpk' in H1, H2 by lia. split; [|done].
      by eapply settled_earlier.
  - assert (forall k, j + 1 <= k < j + 1 + Z.of_nat n -> pk ind k = 0 -> pk ind' k <> 0 -> pk ind' k <> s) as Hne.
    { intros k Hk E0 Hne Heq. destruct (Hin k Hk) as [H1 _]. rewrite Hpk' in H1 by lia. unfold settled in H1.
      rewrite E0 in H1. simpl in H1. case_match; [|done]. destruct H1 as (_ & Hu & _). rewrite Heq in Hu.
      destruct Hs as (_ & _ & Hu1 & _). congruence. }
    intros k1 k2 Hk1 Hk2 E1 E2 Heq Hnz.
    destruct (decide (k1 = j)) as [->|], (decide (k2 = j)) as [->|]; try done.
    + exfalso. apply (Hne k2); [lia | done | congruence | congruence].
    + exfalso. apply (Hne k1); [lia | done | congruence | congruence].
    + apply Hinj; try done; rewrite ?Hpk' by lia; try done; lia.
Qed.

Lemma resize_level2_grow i size n : forall j ind f,
  ok f -> length ind = 128%nat -> 0 <= j -> j + Z.of_nat n <= 128 ->
  (forall k, j <= k < j + Z.of_nat n -> pk ind k <> 0 -> bound2 i k < size) ->
  exists r g, resize_level2 al n i j size ind f = Done (r, g) /\ grown none f g /\
    match r with
    | Some ind' => level2_grown f g i j size n ind ind'
    | None => full g
    end.
Proof using AllocSpec0.
  induction n as [|n IH]; intros j ind f Hf Hlen Hj Hn Hkeep.
  { exists (Some ind), f. split; [done|]. split; [by apply grown_refl|]. split_and!; try done; lia. }
  cbn [resize_level2]. change (i * (BLOCK_SECTOR_SIZE * NUM_POINTERS) + j * BLOCK_SECTOR_SIZE) with (bound2 i j).
  rewrite (bind_done _ _ _ _ _ (load_pointer_run ind j f ltac:(lia))).
  destruct ((bound2 i j <? size) && (pk ind j =? 0)) eqn:E.
  - apply andb_true_iff in E as [E1%Z.ltb_lt E2%Z.eqb_eq].
    destruct (add_sector_run f Hf) as (r & g1 & Ea & Hg1 & Hr).
    destruct r as [s|]; (erewrite bind_done; [|erewrite bind_done by exact Ea; reflexivity]); cbv beta iota.
    + destruct Hr as [Hs Hblank].
      assert (length (<[Z.to_nat j := s]> ind) = 128%nat) as Hlen' by by rewrite length_insert.
      assert (0 <= j < Z.of_nat (length (<[Z.to_nat j := s]> ind))) as Hj' by lia.
      rewrite (bind_done _ _ _ _ _ (load_pointer_run _ j g1 Hj')).
      rewrite (proj2 (Z.leb_gt _ _)) by lia. cbn [andb]. rewrite bind_ret.
      destruct (IH (j + 1) (<[Z.to_nat j := s]> ind) g1) as (r & g & E' & Hg & Hr'); [apply Hg1 | done | lia | lia | |].
      { intros k Hk. rewrite pk_insert by lia. rewrite (proj2 (Z.eqb_neq _ _)) by lia. apply Hkeep. lia. }
      exists r, g. split; [done|]. split; [by eapply grown_trans|]. destruct r as [ind'|]; [|done].
      by eapply level2_grown_add.
    + exists None, g1. split; [done|]. split; [done|]. by eapply full_grown.
  - rewrite bind_ret. rewrite (bind_done _ _ _ _ _ (load_pointer_run ind j f ltac:(lia))).
    assert ((size <=? bound2 i j) && negb (pk ind j =? 0) = false) as ->.
    { destruct (Z.eqb_spec (pk ind j) 0) as [|Hne]; [apply andb_false_r|]. rewrite andb_true_r.
      apply Z.leb_gt. apply Hkeep; [lia | done]. }
    rewrite bind_ret. destruct (IH (j + 1) ind f) as (r & g & E' & Hg & Hr); [done | done | lia | lia | |].
    { intros k Hk. apply Hkeep. lia. }
    exists r, g. split; [done|]. split; [done|]. destruct r as [ind'|]; [|done].
    apply level2_grown_keep; try done. intros E0. rewrite E0, andb_true_r in E. by apply Z.ltb_ge in E.
Qed.

(** The loop of one indirect sector, committed. *)
Lemma resize_indirect_grow f i size s :
  ok f -> 0 < s < device_size f -> used f s = true -> ~ priv s ->
  (forall j, 0 <= j < 128 -> pk (pointers (sector_of f s)) j <> 0 -> bound2 i j < size) ->
  exists b g, resize_indirect al i size s f = Done (b, g) /\
    if b : bool then
      grown (fun x => x = s) f g /\
      level2_grown f g i 0 size 128 (pointers (sector_of f s)) (pointers (sector_of g s))
    else grown none f g /\ full g.
Proof using AllocSpec0.
  intros Hf Hs Hu Hp Hkeep. unfold resize_indirect. rewrite (proj2 (Z.eqb_neq _ _)) by lia. cbn [negb].
  destruct (read_pointers_run f s) as (f1 & E1 & Hq); [by apply ok_store | lia |].
  rewrite (bind_done _ _ _ _ _ E1). pose proof (quiet_grown none f f1 Hf Hq) as Hg1.
  destruct (resize_level2_grow i size 128 0 (pointers (sector_of f s)) f1) as (r & f2 & E2 & Hg2 & Hr).
  { apply Hg1. } { apply length_pointers. } { lia. } { lia. } { intros k Hk. apply Hkeep. lia. }
  rewrite (bind_done _ _ _ _ _ E2). pose proof (grown_trans none _ _ _ Hg1 Hg2) as Hg12.
  destruct r as [ind'|]; [|by exists false, f2].
  assert (level2_grown f f2 i 0 size 128 (pointers (sector_of f s)) ind') as (Hl & Hout & Hin & Hinj).
  { destruct Hr as (? & ? & Hin & ?). split_and!; try done. intros k Hk. destruct (Hin k Hk). split; [|done].
    eapply settled_earlier; [exact Hg1 | done]. }
  assert (Forall is_u32 ind') as Hu32.
  { apply pk_forall. intros k Hk. eapply settled_u32; [exact Hf | | apply Hin; lia]. apply pk_u32, pointers_u32, contents_ok. by apply ok_store. }
  pose proof Hg12 as (Hok2 & Hd2 & Henv2 & Hmono & Hsame).
  destruct (store_write_fs f2 s (words_to_bytes ind')) as (g & E3 & Hso & Hd & Henv & Hfm & Hc);
    [by apply ok_store | lia | by apply words_sector_ok |].
  rewrite (bind_done _ _ _ _ _ E3). exists true, g. split; [done|].
  assert (grown (fun x => x = s) f2 g) as Hg.
  { split_and!; try done.
    - eapply ok_stable; [exact Hok2 | done..|]. intros x Hx. rewrite Hc. by destruct (Z.eqb_spec x s) as [->|].
    - intros x _. unfold used. by rewrite Hfm.
    - intros x _ _ _ Hx. rewrite Hc. by rewrite (proj2 (Z.eqb_neq _ _)). }
  split; [eapply grown_trans; [|exact Hg]; eapply grown_weaken; [|exact Hg12]; by intros ? [] |].
  rewrite (Hc s), Z.eqb_refl, pointers_words by done. split_and!; try done.
  intros k Hk. destruct (Hin k Hk) as [H1 H2]. split; [by eapply settled_later|].
  intros E0 Hb. rewrite Hc. destruct (Z.eqb_spec (pk ind' k) s) as [Eq|]; [|by apply H2].
  unfold settled in H1. rewrite E0, (proj2 (Z.ltb_lt _ _)) in H1 by done. destruct H1 as (_ & H1 & _). congruence.
Qed.
End growth.
