(* ===== verification/InodeGrow.v ===== *)
(** * Growing a file

    The loop over level 1 of [inode_resize] when the new length is not smaller:
    it adds the missing sectors, all distinct and zeroed, and keeps the others.
    If the device fills up it stops with the committed pointers still intact. *)

From stdpp Require Import options.
From S2P Require Import Prelude Bytes Bitmap Block Store Inode InodeTree.
Local Open Scope Z_scope.
Local Open Scope kernel_scope.

Section level1.
Context {St : Type} `{!SectorStore St} {al : allocator St} {priv : Z -> Prop} {ok : fs St -> Prop}.
Context `{!AllocSpec al priv ok}.
Implicit Types (f g h : fs St) (x s i j k : Z) (dbl : list Z).
Abbreviation grown := (grown (priv := priv) (ok := ok)).
Abbreviation fresh := (fresh (priv := priv)).
Abbreviation settled := (settled (priv := priv)).
Abbreviation level2_grown := (level2_grown (priv := priv)).

Definition in_range (i : Z) (n : nat) (k : Z) : Prop := i <= k < i + Z.of_nat n.

(** Pointer [j] of the indirect sector [s], if there is one. *)
Definition ptr2 (f : fs St) (s j : Z) : Z := if s =? 0 then 0 else pk (pointers (sector_of f s)) j.

(** The indirect sectors a loop from [i] may rewrite. *)
Definition rewritten (dbl : list Z) (i : Z) (n : nat) (x : Z) : Prop :=
  exists k, in_range i n k /\ pk dbl k = x /\ x <> 0.

(** What the loop finds: needed or not, a pointer that is there is to a sector
    in use that no other pointer names, and the new length keeps it. *)
Definition level1_pre (f : fs St) (size i : Z) (n : nat) (dbl : list Z) : Prop :=
  length dbl = 128%nat /\ 0 <= i /\ i + Z.of_nat n <= 128 /\
  (forall k, in_range i n k -> pk dbl k <> 0 ->
     k * level1_bytes < size /\ 0 < pk dbl k < device_size f /\ used f (pk dbl k) = true /\ ~ priv (pk dbl k)) /\
  (forall k k', in_range i n k -> in_range i n k' -> pk dbl k = pk dbl k' -> pk dbl k <> 0 -> k = k') /\
  (forall k j, in_range i n k -> 0 <= j < 128 -> ptr2 f (pk dbl k) j <> 0 ->
     bound2 k j < size /\ 0 < ptr2 f (pk dbl k) j < device_size f /\ used f (ptr2 f (pk dbl k) j) = true).

Definition naddr (f : fs St) (dbl : list Z) (nd : node) : Z :=
  match nd with
  | Ind k => pk dbl k
  | Dat k j => ptr2 f (pk dbl k) j
  | _ => 0
  end.

Definition node_in (i : Z) (n : nat) (nd : node) : Prop :=
  match nd with
  | Ind k => in_range i n k
  | Dat k j => in_range i n k /\ 0 <= j < 128
  | _ => False
  end.

(** New nodes have sectors of their own. *)
Definition new_distinct (f g : fs St) (i : Z) (n : nat) (dbl : list Z) : Prop :=
  forall a b, node_in i n a -> node_in i n b -> naddr g dbl a = naddr g dbl b ->
    naddr g dbl a <> 0 -> used f (naddr g dbl a) = false -> a = b.

Definition level1_grown (f g : fs St) (size i : Z) (n : nat) (dbl dbl' : list Z) : Prop :=
  length dbl' = 128%nat /\
  (forall k, 0 <= k < 128 -> ~ in_range i n k -> pk dbl' k = pk dbl k) /\
  (forall k, in_range i n k -> settled f g (k * level1_bytes <? size) (pk dbl k) (pk dbl' k)) /\
  (forall k j, in_range i n k -> 0 <= j < 128 ->
     settled f g (bound2 k j <? size) (ptr2 f (pk dbl k) j) (ptr2 g (pk dbl' k) j) /\
     (ptr2 f (pk dbl k) j = 0 -> bound2 k j < size ->
        sector_of g (ptr2 g (pk dbl' k) j) = blank_sector)) /\
  new_distinct f g i n dbl'.

(** What a loop that ran out of sectors leaves behind the committed pointers. *)
Definition level1_partial (f g : fs St) (i : Z) (n : nat) (dbl : list Z) : Prop :=
  (forall k j, in_range i n k -> 0 <= j < 128 ->
     ptr2 g (pk dbl k) j = ptr2 f (pk dbl k) j \/
     (ptr2 f (pk dbl k) j = 0 /\ fresh f g (ptr2 g (pk dbl k) j))) /\
  (forall k j k' j', in_range i n k -> in_range i n k' -> 0 <= j < 128 -> 0 <= j' < 128 ->
     ptr2 g (pk dbl k) j = ptr2 g (pk dbl k') j' -> ptr2 g (pk dbl k) j <> 0 ->
     used f (ptr2 g (pk dbl k) j) = false -> k = k' /\ j = j').

Lemma used_fresh f g s : used f s = true -> ~ fresh f g s.
Proof. intros Hu (_ & Hn & _). congruence. Qed.

(** A sector in use at [f] that the steps did not write reads the same. *)
Lemma ptr2_same (W : Z -> Prop) f g s j :
  grown W f g -> (s <> 0 -> 0 < s < device_size f /\ used f s = true /\ ~ priv s /\ ~ W s) ->
  ptr2 g s j = ptr2 f s j.
Proof.
  intros (_ & _ & _ & _ & Hsame) Hs. unfold ptr2. destruct (Z.eqb_spec s 0); [done|].
  destruct (Hs n) as (? & ? & ? & ?). by rewrite Hsame by (done || lia).
Qed.

(** One iteration: the pointer [p] of entry [i] becomes [q], and the sector it
    names is resized. *)
Definition entry_grown (f g : fs St) (size i p q : Z) : Prop :=
  grown (fun x => x = p /\ p <> 0) f g /\
  settled f g (i * level1_bytes <? size) p q /\
  (forall j, 0 <= j < 128 ->
     settled f g (bound2 i j <? size) (ptr2 f p j) (ptr2 g q j) /\
     (ptr2 f p j = 0 -> bound2 i j < size -> sector_of g (ptr2 g q j) = blank_sector)) /\
  (forall j j', 0 <= j < 128 -> 0 <= j' < 128 -> ptr2 g q j = ptr2 g q j' ->
     ptr2 g q j <> 0 -> used f (ptr2 g q j) = false -> j = j') /\
  (forall j, 0 <= j < 128 -> ptr2 g q j = q -> q <> 0 -> used f q = true).

Lemma bound2_ge i j : 0 <= j -> i * level1_bytes <= bound2 i j.
Proof. unfold bound2. lia. Qed.

(** Not needed, not there. *)
Lemma entry_absent f size i : ok f -> 0 <= i -> size <= i * level1_bytes -> entry_grown f f size i 0 0.
Proof.
  intros Hf Hi Hs. split_and!; try done.
  - unfold settled. simpl. rewrite (proj2 (Z.ltb_ge _ _)) by lia. done.
  - intros j Hj. pose proof (bound2_ge i j). unfold ptr2, settled. simpl.
    rewrite (proj2 (Z.ltb_ge _ _)) by lia. split; [done | lia].
Qed.

(** There before. *)
Lemma entry_kept f g size i p :
  ok f -> 0 < p < device_size f -> used f p = true ->
  i * level1_bytes < size -> (forall j, 0 <= j < 128 -> ptr2 f p j <> 0 -> used f (ptr2 f p j) = true) ->
  grown (fun x => x = p) f g ->
  level2_grown f g i 0 size 128 (pointers (sector_of f p)) (pointers (sector_of g p)) ->
  entry_grown f g size i p p.
Proof.
  intros Hf Hp Hu Hs Hu2 Hg (Hl & _ & Hin & Hinj).
  assert (forall h j, ptr2 h p j = pk (pointers (sector_of h p)) j) as E.
  { intros. unfold ptr2. by rewrite (proj2 (Z.eqb_neq _ _)) by lia. }
  split_and!.
  - eapply grown_weaken; [|exact Hg]. intros x ->. split; [done | lia].
  - unfold settled. by rewrite (proj2 (Z.eqb_neq _ _)) by lia.
  - intros j Hj. rewrite !E. apply Hin. lia.
  - intros j j' Hj Hj'. rewrite !E. intros Heq Hne Huf.
    assert (forall j, 0 <= j < 128 -> used f (pk (pointers (sector_of g p)) j) = false ->
      pk (pointers (sector_of g p)) j <> 0 -> pk (pointers (sector_of f p)) j = 0) as Hnew.
    { intros k Hk Hun Hz. destruct (Hin k ltac:(lia)) as [H1 _]. unfold settled in H1.
      destruct (Z.eqb_spec (pk (pointers (sector_of f p)) k) 0) as [|Hn]; [done|].
      rewrite H1, <- E, Hu2 in Hun; [done | done | by rewrite E]. }
    apply Hinj; try lia; apply Hnew; congruence.
  - intros j Hj _ _. done.
Qed.

(** Added now. *)
Lemma entry_added f f1 g size i s :
  ok f -> grown none f f1 -> fresh f f1 s -> sector_of f1 s = blank_sector ->
  i * level1_bytes < size -> grown (fun x => x = s) f1 g ->
  level2_grown f1 g i 0 size 128 (pointers (sector_of f1 s)) (pointers (sector_of g s)) ->
  entry_grown f g size i 0 s.
Proof.
  intros Hf Hg1 Hs Hb Hsz Hg (Hl & _ & Hin & Hinj). rewrite Hb in *.
  pose proof Hs as (Hs1 & Hs2 & Hs3 & Hs4). assert (device_size f1 = device_size f) as Hd by apply Hg1.
  assert (forall j, ptr2 g s j = pk (pointers (sector_of g s)) j) as E.
  { intros. unfold ptr2. by rewrite (proj2 (Z.eqb_neq _ _)) by lia. }
  split_and!.
  - destruct Hg1 as (_ & _ & Henv1 & Hm1 & Hsame1), Hg as (Hok & Hd2 & Henv & Hm & Hsame).
    split_and!; [done | congruence | congruence | intros; apply Hm; [lia | auto] |].
    intros x Hx Hu Hp _. rewrite Hsame, Hsame1; try done; [by intros [] | lia | auto |]. intros ->. congruence.
  - unfold settled. simpl. rewrite (proj2 (Z.ltb_lt _ _)) by done. by eapply fresh_later.
  - intros j Hj. rewrite E. destruct (Hin j ltac:(lia)) as [H1 H2]. rewrite pk_blank in *.
    change (ptr2 f 0 j) with 0. split; [|done]. by eapply settled_earlier.
  - intros j j' Hj Hj'. rewrite !E. intros Heq Hne _. apply Hinj; try lia; rewrite ?pk_blank; done.
  - intros j Hj. rewrite E. intros Heq Hne. destruct (Hin j ltac:(lia)) as [H1 _]. rewrite pk_blank, Heq in H1.
    unfold settled in H1. simpl in H1. case_match; [|done]. destruct H1 as (_ & H1 & _). congruence.
Qed.

(** ** Iterations in sequence *)

Lemma settled_used W f g needed p q :
  settled f g needed p q -> grown W f g -> (p <> 0 -> 0 <= p < device_size f /\ used f p = true) ->
  q <> 0 -> used g q = true.
Proof.
  unfold settled. intros Hs (_ & _ & _ & Hm & _) Hp Hq. destruct (Z.eqb_spec p 0).
  - case_match; [apply Hs | done].
  - subst q. destruct (Hp Hq). by apply Hm.
Qed.

Lemma settled_new f g needed p q :
  settled f g needed p q -> (p <> 0 -> used f p = true) -> q <> 0 -> used f q = false -> fresh f g q.
Proof.
  unfold settled. intros Hs Hp Hq Hu. destruct (Z.eqb_spec p 0); [by case_match|].
  subst q. rewrite Hp in Hu by done. done.
Qed.

(** The state between iteration [i] and the rest. *)
Section sequence.
Context (f g1 : fs St) (size i : Z) (n : nat) (dbl dbl1 : list Z) (q : Z).
Hypothesis Hpre : level1_pre f size i (S n) dbl.
Hypothesis Hf : ok f.
Hypothesis Hstep : entry_grown f g1 size i (pk dbl i) q.
Hypothesis Hdbl1 : forall k, 0 <= k < 128 -> pk dbl1 k = if k =? i then q else pk dbl k.

Lemma entry_pre : pk dbl i <> 0 ->
  0 < pk dbl i < device_size f /\ used f (pk dbl i) = true /\ ~ priv (pk dbl i).
Proof using All.
  intros Hne. destruct Hpre as (_ & H0 & Hn & Hu & _). destruct (Hu i) as (_ & ? & ? & ?); [unfold in_range; lia | done |].
  done.
Qed.

Lemma later_entry k : in_range (i + 1) n k -> pk dbl1 k = pk dbl k.
Proof using All.
  intros Hk. destruct Hpre as (_ & H0 & Hn & _). unfold in_range in *. rewrite Hdbl1 by lia.
  by rewrite (proj2 (Z.eqb_neq _ _)) by lia.
Qed.

Lemma later_used k : in_range (i + 1) n k -> pk dbl k <> 0 ->
  0 < pk dbl k < device_size f /\ used f (pk dbl k) = true /\ ~ priv (pk dbl k) /\ pk dbl k <> pk dbl i.
Proof using All.
  intros Hk Hne. destruct Hpre as (_ & H0 & Hn & Hu & Hd & _). unfold in_range in *.
  destruct (Hu k) as (_ & ? & ? & ?); [lia | done |]. split_and!; try done; [lia | lia |].
  intros E. assert (k = i) by (apply Hd; lia || done). lia.
Qed.

Lemma later_ptr2 k j : in_range (i + 1) n k -> ptr2 g1 (pk dbl k) j = ptr2 f (pk dbl k) j.
Proof using All.
  intros Hk. eapply ptr2_same; [apply Hstep|]. intros Hne. destruct (later_used k Hk Hne) as (? & ? & ? & ?).
  split_lia.
Qed.

Lemma entry_used : q <> 0 -> 0 < q < device_size f /\ used g1 q = true /\ ~ priv q.
Proof using All.
  intros Hq. destruct Hstep as (Hg & Hs & _). unfold settled in Hs. destruct (Z.eqb_spec (pk dbl i) 0).
  - case_match; [|done]. by destruct Hs as (? & ? & ? & ?).
  - rewrite Hs. destruct (entry_pre n0) as (? & ? & ?). destruct Hg as (_ & _ & _ & Hm & _).
    split_and!; try done; [lia | lia |]. apply Hm; [lia | done].
Qed.

(** What iteration [i] made is not written later. *)
Lemma not_rewritten x : used f x = false \/ x = pk dbl i -> ~ rewritten dbl1 (i + 1) n x.
Proof using All.
  intros Hx (k & Hk & <- & Hne). rewrite later_entry in * by done.
  destruct (later_used k Hk Hne) as (? & Hu & ? & ?). destruct Hx as [Hx|]; [congruence | done].
Qed.

Lemma entry_not_rewritten : ~ rewritten dbl1 (i + 1) n q.
Proof using All.
  intros Hrw. pose proof Hrw as (k & Hk & Ek & Hne). revert Hrw. apply not_rewritten.
  destruct Hstep as (_ & Hs & _). unfold settled in Hs. destruct (Z.eqb_spec (pk dbl i) 0); [|by right].
  case_match; [|done]. left. apply Hs.
Qed.

Lemma rest_pre : length dbl1 = 128%nat -> level1_pre g1 size (i + 1) n dbl1.
Proof using All.
  intros Hlen1. pose proof Hpre as (Hl & H0 & Hn & Hu & Hd & Hu2). pose proof Hstep as ((_ & Hdev & _ & Hm & _) & _).
  assert (forall k, in_range (i + 1) n k -> in_range i (S n) k) as Hr by (unfold in_range; lia).
  unfold level1_pre. rewrite Hdev. split_and!; [done | lia | lia | | |].
  - intros k Hk. rewrite later_entry by done. intros Hne. destruct (Hu k) as (? & ? & ? & ?); [by apply Hr | done |].
    split_lia. apply Hm; [lia | done].
  - intros k k' Hk Hk'. rewrite !later_entry by done. intros. apply Hd; auto.
  - intros k j Hk Hj. rewrite later_entry by done. rewrite later_ptr2 by done. intros Hne.
    destruct (Hu2 k j) as (? & ? & ?); [by apply Hr | done | done |]. split_lia. apply Hm; [lia | done].
Qed.

Context (g : fs St).
Hypothesis Hrest : grown (rewritten dbl1 (i + 1) n) g1 g.

Lemma entry_ptr2 j : ptr2 g q j = ptr2 g1 q j.
Proof using All.
  eapply ptr2_same; [exact Hrest|]. intros Hq. destruct (entry_used Hq) as (? & ? & ?).
  pose proof Hstep as ((_ & Hdev & _) & _). rewrite Hdev. split_lia.
  apply entry_not_rewritten.
Qed.

(** A node of iteration [i] is in use before the rest runs. *)
Lemma entry_node_used nd (dbl' : list Z) : pk dbl' i = q -> node_in i 1 nd -> naddr g dbl' nd <> 0 ->
  used g1 (naddr g dbl' nd) = true.
Proof using All.
  intros Eq Hin Hne. pose proof Hpre as (_ & H0 & Hn & Hu & Hd & Hu2). destruct nd as [| |k|k j]; try done; simpl in *.
  - unfold in_range in Hin. assert (k = i) as -> by lia. rewrite Eq in *. by apply entry_used.
  - destruct Hin as [Hk Hj]. unfold in_range in Hk. assert (k = i) as -> by lia. rewrite Eq, entry_ptr2 in *.
    destruct Hstep as (Hg & _ & Hs & _). destruct (Hs j Hj) as [Hs1 _].
    eapply settled_used; [exact Hs1 | exact Hg | | done]. intros Hp. destruct (Hu2 i j) as (? & ? & ?); [unfold in_range; lia | done | done |].
    split; [lia | done].
Qed.

(** A node of the rest that was not in use is added by the rest. *)
Lemma rest_node_new nd (dbl' : list Z) : level1_grown g1 g size (i + 1) n dbl1 dbl' ->
  node_in (i + 1) n nd -> naddr g dbl' nd <> 0 -> used f (naddr g dbl' nd) = false ->
  used g1 (naddr g dbl' nd) = false.
Proof using All.
  intros (_ & _ & HC & HD & _) Hin Hne Huf. pose proof Hpre as (_ & H0 & Hn & Hu & Hd & Hu2).
  assert (forall k, in_range (i + 1) n k -> in_range i (S n) k) as Hr by (unfold in_range; lia).
  destruct nd as [| |k|k j]; try done; simpl in *.
  - specialize (HC k Hin). rewrite later_entry in HC by done. unfold settled in HC.
    destruct (Z.eqb_spec (pk dbl k) 0); [case_match; [apply HC | done]|].
    rewrite HC in Huf. destruct (Hu k (Hr k Hin) n0) as (_ & _ & ? & _). congruence.
  - destruct Hin as [Hk Hj]. destruct (HD k j Hk Hj) as [HD1 _].
    rewrite later_entry, later_ptr2 in HD1 by done. unfold settled in HD1.
    destruct (Z.eqb_spec (ptr2 f (pk dbl k) j) 0); [case_match; [apply HD1 | done]|].
    rewrite HD1 in Huf. destruct (Hu2 k j (Hr k Hk) Hj n0) as (_ & _ & ?). congruence.
Qed.

Lemma node_split nd : node_in i (S n) nd -> node_in i 1 nd \/ node_in (i + 1) n nd.
Proof. destruct nd; simpl; unfold in_range; lia. Qed.

Lemma sequence_distinct (dbl' : list Z) : pk dbl' i = q ->
  level1_grown g1 g size (i + 1) n dbl1 dbl' -> new_distinct f g i (S n) dbl'.
Proof using All.
  intros Eq Hlg a b Ha Hb Heq Hne Huf. pose proof Hlg as (_ & _ & _ & _ & HE).
  apply node_split in Ha as [Ha|Ha], Hb as [Hb|Hb].
  - destruct Hstep as (_ & _ & _ & Hjj & Hself).
    destruct a as [| |k|k j], b as [| |k'|k' j']; try done; simpl in *; unfold in_range in *.
    + f_equal. lia.
    + destruct Hb as [Hb Hj]. assert (k = i) as -> by lia. assert (k' = i) as -> by lia.
      rewrite Eq, entry_ptr2 in *. rewrite (Hself j') in Huf; congruence.
    + destruct Ha as [Ha Hj]. assert (k = i) as -> by lia. assert (k' = i) as -> by lia.
      rewrite Eq, entry_ptr2 in *. rewrite Heq, (Hself j) in Huf; congruence.
    + destruct Ha as [Ha Hj], Hb as [Hb Hj']. assert (k = i) as -> by lia. assert (k' = i) as -> by lia.
      rewrite Eq, !entry_ptr2 in *. f_equal. by apply Hjj.
  - pose proof (entry_node_used a dbl' Eq Ha Hne) as H1. rewrite Heq in *.
    rewrite (rest_node_new b dbl' Hlg Hb Hne Huf) in H1. done.
  - rewrite Heq in Hne, Huf. pose proof (entry_node_used b dbl' Eq Hb Hne) as H1. rewrite <- Heq in *.
    rewrite (rest_node_new a dbl' Hlg Ha Hne Huf) in H1. done.
  - apply HE; try done. by apply (rest_node_new a dbl' Hlg).
Qed.

Lemma sequence_frame : grown (rewritten dbl i (S n)) f g.
Proof using All.
  pose proof Hpre as (_ & H0 & Hn & _). destruct Hstep as (Hg & _). eapply grown_trans.
  - eapply grown_weaken; [|exact Hg]. intros x [-> Hne]. exists i. unfold in_range. split_lia.
  - eapply grown_weaken; [|exact Hrest]. intros x (k & Hk & <- & Hne). rewrite later_entry in * by done.
    exists k. unfold in_range in *. split_lia.
Qed.

Lemma sequence_grown (dbl' : list Z) :
  level1_grown g1 g size (i + 1) n dbl1 dbl' -> level1_grown f g size i (S n) dbl dbl'.
Proof using All.
  intros Hlg. pose proof Hlg as (Hl' & HB & HC & HD & _). pose proof Hpre as (_ & H0 & Hn & _).
  pose proof Hstep as (Hg & Hsi & Hsj & _). assert (device_size g1 = device_size f) as Hdev by apply Hg.
  assert (pk dbl' i = q) as Eq.
  { rewrite HB by (unfold in_range; lia). rewrite Hdbl1 by lia. by rewrite Z.eqb_refl. }
  split_and!; [done | | | | by apply sequence_distinct].
  - intros k Hk Hr. unfold in_range in *. rewrite HB, Hdbl1 by lia. by rewrite (proj2 (Z.eqb_neq _ _)) by lia.
  - intros k Hk. destruct (decide (k = i)) as [->|].
    + rewrite Eq. by eapply settled_later.
    + assert (in_range (i + 1) n k) as Hk' by (unfold in_range in *; lia). specialize (HC k Hk').
      rewrite later_entry in HC by done. by eapply settled_earlier.
  - intros k j Hk Hj. destruct (decide (k = i)) as [->|].
    + rewrite Eq, entry_ptr2. destruct (Hsj j Hj) as [H1 H2]. split; [by eapply settled_later|].
      intros E Hb. rewrite <- (H2 E Hb). unfold settled in H1. rewrite E, (proj2 (Z.ltb_lt _ _)) in H1 by done.
      destruct H1 as (? & Hu & ? & ?). destruct Hrest as (_ & _ & _ & _ & Hsame). apply Hsame; try done; [lia|].
      apply not_rewritten. by left.
    + assert (in_range (i + 1) n k) as Hk' by (unfold in_range in *; lia). destruct (HD k j Hk' Hj) as [H1 H2].
      rewrite later_entry, later_ptr2 in H1, H2 by done. split; [by eapply settled_earlier | done].
Qed.

(** Behind the committed pointers, once the rest ran out of sectors. *)

Hypothesis Hpart : level1_partial g1 g (i + 1) n dbl1.

Lemma kept_entry j : 0 <= j < 128 -> pk dbl i <> 0 ->
  ptr2 g (pk dbl i) j = ptr2 g1 q j /\
  settled f g1 (bound2 i j <? size) (ptr2 f (pk dbl i) j) (ptr2 g (pk dbl i) j).
Proof using All.
  intros Hj Hne. pose proof Hstep as (_ & Hsi & Hsj & _).
  assert (q = pk dbl i) as Hq by (unfold settled in Hsi; by rewrite (proj2 (Z.eqb_neq _ _)) in Hsi).
  rewrite <- Hq at 1 3. rewrite entry_ptr2. split; [done | by apply Hsj].
Qed.

Lemma rest_entry k j : in_range i (S n) k -> 0 <= j < 128 -> k <> i ->
  ptr2 g (pk dbl k) j = ptr2 f (pk dbl k) j \/
  (ptr2 f (pk dbl k) j = 0 /\ fresh g1 g (ptr2 g (pk dbl k) j)).
Proof using All.
  intros Hk Hj Hne. assert (in_range (i + 1) n k) as Hk' by (unfold in_range in *; lia).
  destruct Hpart as [HP _]. specialize (HP k j Hk' Hj). by rewrite later_entry, later_ptr2 in HP.
Qed.

Lemma rest_entry_new k j : in_range i (S n) k -> 0 <= j < 128 -> k <> i ->
  ptr2 g (pk dbl k) j <> 0 -> used f (ptr2 g (pk dbl k) j) = false ->
  used g1 (ptr2 g (pk dbl k) j) = false.
Proof using All.
  intros Hk Hj Hne Hnz Huf. pose proof Hpre as (_ & _ & _ & _ & _ & Hu2).
  destruct (rest_entry k j Hk Hj Hne) as [E|[_ (_ & Hug & _)]]; [|done].
  rewrite E in Hnz, Huf. destruct (Hu2 k j Hk Hj Hnz) as (_ & _ & ?). congruence.
Qed.

Lemma kept_entry_used j : 0 <= j < 128 -> ptr2 g (pk dbl i) j <> 0 -> used g1 (ptr2 g (pk dbl i) j) = true.
Proof using All.
  intros Hj Hnz. pose proof Hpre as (_ & H0 & Hn & _ & _ & Hu2). pose proof Hstep as (Hg & _).
  destruct (decide (pk dbl i = 0)) as [E0|Hp]; [by rewrite E0 in Hnz|].
  destruct (kept_entry j Hj Hp) as [_ Hs]. eapply settled_used; [exact Hs | exact Hg | | exact Hnz].
  intros Hp2. destruct (Hu2 i j) as (? & ? & ?); [unfold in_range; lia | done | done |]. split; [lia | done].
Qed.

Lemma sequence_partial : level1_partial f g i (S n) dbl.
Proof using All.
  pose proof Hstep as (Hg & _ & _ & Hjj & _). assert (device_size g1 = device_size f) as Hdev by apply Hg. split.
  - intros k j Hk Hj. destruct (decide (k = i)) as [->|Hne].
    + destruct (decide (pk dbl i = 0)) as [E|Hp]; [rewrite E; by left|].
      destruct (kept_entry j Hj Hp) as [_ Hs]. unfold settled in Hs.
      destruct (Z.eqb_spec (ptr2 f (pk dbl i) j) 0) as [E|]; [|by left].
      case_match; [|left; congruence]. right. split; [done|]. by eapply fresh_later.
    + destruct (rest_entry k j Hk Hj Hne) as [|[? ?]]; [by left|]. right. split; [done|]. by eapply fresh_earlier.
  - intros k j k' j' Hk Hk' Hj Hj' Heq Hnz Huf.
    destruct (decide (k = i)) as [->|Hne], (decide (k' = i)) as [->|Hne'].
    + split; [done|]. destruct (decide (pk dbl i = 0)) as [E0|Hp]; [by rewrite E0 in Hnz|].
      destruct (kept_entry j Hj Hp) as [E _], (kept_entry j' Hj' Hp) as [E' _]. rewrite E, E' in *. by apply Hjj.
    + pose proof (kept_entry_used j Hj Hnz) as H1. rewrite Heq in *.
      rewrite (rest_entry_new k' j' Hk' Hj' Hne' Hnz Huf) in H1. done.
    + pose proof (rest_entry_new k j Hk Hj Hne Hnz Huf) as H1. rewrite Heq in *.
      rewrite (kept_entry_used j' Hj' Hnz) in H1. done.
    + destruct Hpart as [_ HQ]. specialize (HQ k j k' j').
      rewrite !later_entry in HQ by (unfold in_range in *; lia). apply HQ; try done; try (unfold in_range in *; lia).
      by apply rest_entry_new.
Qed.
End sequence.

(** ** The loop *)

Lemma partial_unchanged f g size i n dbl :
  level1_pre f size i n dbl -> grown none f g -> level1_partial f g i n dbl.
Proof.
  intros (_ & _ & _ & Hu & _ & Hu2) Hg.
  assert (forall k j, in_range i n k -> ptr2 g (pk dbl k) j = ptr2 f (pk dbl k) j) as E.
  { intros k j Hk. eapply ptr2_same; [exact Hg|]. intros Hne. destruct (Hu k Hk Hne) as (_ & ? & ? & ?).
    split_lia. by intros []. }
  split; [intros k j Hk _; left; by apply E|].
  intros k j k' j' Hk Hk' Hj Hj' _ Hnz Huf. rewrite E in Hnz, Huf by done.
  destruct (Hu2 k j Hk Hj Hnz) as (_ & _ & ?). congruence.
Qed.

Definition level1_post (f g : fs St) (size i : Z) (n : nat) (dbl : list Z) (r : option (list Z)) : Prop :=
  grown (rewritten dbl i n) f g /\
  match r with
  | Some dbl' => level1_grown f g size i n dbl dbl'
  | None => full g /\ level1_partial f g i n dbl
  end.

Lemma level1_post_seq f g1 g size i n dbl dbl1 q r :
  level1_pre f size i (S n) dbl -> ok f -> entry_grown f g1 size i (pk dbl i) q ->
  (forall k, 0 <= k < 128 -> pk dbl1 k = if k =? i then q else pk dbl k) ->
  level1_post g1 g size (i + 1) n dbl1 r -> level1_post f g size i (S n) dbl r.
Proof using AllocSpec0.
  intros Hpre Hf Hstep Hdbl1 [Hrest Hr]. split; [by eapply sequence_frame|].
  destruct r as [dbl'|]; [by eapply sequence_grown|]. destruct Hr as [Hfull Hp]. split; [done|].
  by eapply sequence_partial.
Qed.

Lemma level1_post_fail f g size i n dbl :
  level1_pre f size i n dbl -> grown none f g -> full g -> level1_post f g size i n dbl None.
Proof.
  intros Hpre Hg Hfull. split; [eapply grown_weaken; [|exact Hg]; by intros ? []|].
  split; [done | by eapply partial_unchanged].
Qed.

(** The entry after its pointer [q] is known. *)
Lemma resize_level1_entry n i size dbl dbl1 q f0 f :
  (forall dbl g, ok g -> level1_pre g size (i + 1) n dbl ->
     exists r h, resize_level1 al n (i + 1) size dbl g = Done (r, h) /\ level1_post g h size (i + 1) n dbl r) ->
  ok f0 -> level1_pre f0 size i (S n) dbl -> grown none f0 f ->
  length dbl1 = 128%nat -> (forall k, 0 <= k < 128 -> pk dbl1 k = if k =? i then q else pk dbl k) ->
  (q <> 0 -> i * level1_bytes < size) ->
  (exists b g1, resize_indirect al i size q f = Done (b, g1) /\
     if b : bool then entry_grown f0 g1 size i (pk dbl i) q else grown none f g1 /\ full g1) ->
  exists r g,
    (let! r := resize_indirect al i size q in
     if r : bool then
       let! dbl1 := (if (size <=? i * (BLOCK_SECTOR_SIZE * NUM_POINTERS)) && negb (q =? 0) then
                       release al q 1 ;; ret (<[Z.to_nat i := 0]> dbl1)
                     else ret dbl1) in
       resize_level1 al n (i + 1) size dbl1
     else ret None) f = Done (r, g) /\ level1_post f0 g size i (S n) dbl r.
Proof using AllocSpec0.
  intros IH Hf0 Hpre Hg0 Hlen Hdbl1 Hq (b & g1 & E & Hb). rewrite (bind_done _ _ _ _ _ E). destruct b.
  - assert ((size <=? i * (BLOCK_SECTOR_SIZE * NUM_POINTERS)) && negb (q =? 0) = false) as ->.
    { destruct (Z.eqb_spec q 0) as [|Hne]; [apply andb_false_r|]. rewrite andb_true_r. apply Z.leb_gt.
      change (BLOCK_SECTOR_SIZE * NUM_POINTERS) with level1_bytes. auto. }
    rewrite bind_ret. assert (ok g1) as Hok by apply Hb.
    destruct (IH dbl1 g1 Hok) as (r & h & E' & Hpost); [by eapply rest_pre|].
    exists r, h. split; [done|]. by eapply level1_post_seq.
  - destruct Hb as [Hg1 Hfull]. exists None, g1. split; [done|]. apply level1_post_fail; try done.
    by eapply grown_trans.
Qed.

Lemma resize_level1_grow size n : forall i dbl f,
  ok f -> level1_pre f size i n dbl ->
  exists r g, resize_level1 al n i size dbl f = Done (r, g) /\ level1_post f g size i n dbl r.
Proof using AllocSpec0.
  induction n as [|n IH]; intros i dbl f Hf Hpre.
  { exists (Some dbl), f. split; [done|]. pose proof Hpre as (Hl & _). unfold in_range in *.
    split; [by apply grown_refl|]. split_and!; try done; [unfold in_range; lia | unfold in_range; lia |].
    intros [] b Ha; simpl in Ha; unfold in_range in Ha; lia. }
  pose proof Hpre as (Hl & H0 & Hn & Hu & Hd & Hu2). cbn [resize_level1].
  rewrite (bind_done _ _ _ _ _ (load_pointer_run dbl i f ltac:(lia))).
  assert (in_range i (S n) i) as Hi by (unfold in_range; lia).
  change (i * (BLOCK_SECTOR_SIZE * NUM_POINTERS) <? size) with (i * level1_bytes <? size).
  destruct ((i * level1_bytes <? size) && (pk dbl i =? 0)) eqn:E.
  - apply andb_true_iff in E as [E1%Z.ltb_lt E2%Z.eqb_eq].
    destruct (add_sector_run f Hf) as (r & g1 & Ea & Hg1 & Hr).
    destruct r as [s|]; (erewrite bind_done; [|erewrite bind_done by exact Ea; reflexivity]); cbv beta iota.
    + destruct Hr as [Hs Hblank].
      assert (length (<[Z.to_nat i := s]> dbl) = 128%nat) as Hlen' by by rewrite length_insert.
      assert (0 <= i < Z.of_nat (length (<[Z.to_nat i := s]> dbl))) as Hi' by lia.
      rewrite (bind_done _ _ _ _ _ (load_pointer_run _ i g1 Hi')). rewrite pk_insert, Z.eqb_refl by lia.
      apply (resize_level1_entry n i size dbl (<[Z.to_nat i := s]> dbl) s f g1); try done.
      * intros. by apply IH.
      * intros k Hk. by rewrite pk_insert by lia.
      * pose proof Hs as (Hs1 & Hs2 & Hs3 & Hs4). assert (device_size g1 = device_size f) as Hdev by apply Hg1.
        destruct (resize_indirect_grow g1 i size s) as (b & g & Er & Hb); try done; [apply Hg1 | lia | |].
        { intros j Hj. rewrite Hblank, pk_blank. done. }
        exists b, g. split; [done|]. destruct b; [|done]. destruct Hb as [Hg2 Hl2]. rewrite E2.
        by eapply entry_added.
    + exists None, g1. split; [done|]. apply level1_post_fail; try done. by eapply full_grown.
  - rewrite bind_ret. rewrite (bind_done _ _ _ _ _ (load_pointer_run dbl i f ltac:(lia))).
    apply (resize_level1_entry n i size dbl dbl (pk dbl i) f f); try done.
    + intros. by apply IH.
    + intros k Hk. by destruct (Z.eqb_spec k i) as [->|].
    + intros Hne. by apply (Hu i Hi Hne).
    + destruct (Z.eqb_spec (pk dbl i) 0) as [E0|Hne].
      * rewrite E0, andb_true_r in *. apply Z.ltb_ge in E. exists true, f. split; [done|]. by apply entry_absent.
      * destruct (Hu i Hi Hne) as (? & ? & ? & ?).
        assert (forall j, pk (pointers (sector_of f (pk dbl i))) j = ptr2 f (pk dbl i) j) as Ep.
        { intros j. unfold ptr2. by rewrite (proj2 (Z.eqb_neq _ _)). }
        destruct (resize_indirect_grow f i size (pk dbl i)) as (b & g & Er & Hb); try done.
        { intros j Hj. rewrite Ep. intros Hnz. by apply (Hu2 i j Hi Hj). }
        exists b, g. split; [done|]. destruct b; [|done]. destruct Hb as [Hg2 Hl2].
        eapply entry_kept; try done. intros j Hj Hnz. by apply (Hu2 i j Hi Hj).
Qed.
End level1.
