(* ===== verification/InodeShrink.v ===== *)
(** * Shrinking a file

    The loops of [inode_resize] when every sector the new length needs is there
    already: they release exactly the sectors past the new length and clear the
    pointers to them.  This is what deleting a file does, and what rolls back a
    growth that ran out of sectors. *)

From stdpp Require Import options.
From S2P Require Import Prelude Bytes Bitmap Block Store Inode InodeTree InodeGrow.
Local Open Scope Z_scope.
Local Open Scope kernel_scope.

Section shrinking.
Context {St : Type} `{!SectorStore St} {al : allocator St} {priv : Z -> Prop} {ok : fs St -> Prop}.
Context `{!AllocSpec al priv ok} `{!ReleaseSpec al priv ok}.
Implicit Types (f g h : fs St) (x s i j k : Z) (dbl ind : list Z) (W R : Z -> Prop).

(** From [f] to [g] exactly the sectors [R] were released, and only those in [W]
    were written. *)
Definition shrunk (W R : Z -> Prop) (f g : fs St) : Prop :=
  ok g /\ device_size g = device_size f /\ env g = env f /\
  (forall x, 0 <= x < device_size f -> R x -> used g x = false) /\
  (forall x, 0 <= x < device_size f -> ~ R x -> used g x = used f x) /\
  (forall x, ~ priv x -> ~ W x -> sector_of g x = sector_of f x).

Lemma shrunk_refl W f : ok f -> shrunk W (fun _ => False) f f.
Proof. intros. split_lia. Qed.

Lemma shrunk_trans W R1 R2 f g h :
  (forall x, Decision (R2 x)) -> shrunk W R1 f g -> shrunk W R2 g h -> shrunk W (fun x => R1 x \/ R2 x) f h.
Proof.
  intros Hdec (H1 & H2 & H3 & H4 & H5 & H6) (G1 & G2 & G3 & G4 & G5 & G6). rewrite H2 in *.
  split_and!; [done | congruence | congruence | | |].
  - intros x Hx [Hr|Hr]; [|by apply G4]. destruct (Hdec x); [by apply G4|]. rewrite G5 by done. by apply H4.
  - intros x Hx Hn. rewrite G5, H5; [done | done | tauto | done | tauto].
  - intros x Hp Hw. rewrite G6 by done. by apply H6.
Qed.

Lemma shrunk_weaken W W' R R' f g :
  (forall x, W x -> W' x) -> (forall x, R x <-> R' x) -> shrunk W R f g -> shrunk W' R' f g.
Proof.
  intros Hw Hr (H1 & H2 & H3 & H4 & H5 & H6). split_and!; try done.
  - intros x Hx HR. apply H4; [done | by apply Hr].
  - intros x Hx HR. apply H5; [done|]. by rewrite Hr.
  - intros x Hp Hn. apply H6; auto.
Qed.

Lemma quiet_shrunk W f g : ok f -> quiet f g -> shrunk W (fun _ => False) f g.
Proof using AllocSpec0.
  intros Hf (H1 & H2 & H3 & H4 & H5). split_and!; try done.
  - eapply ok_stable; [exact Hf | done..|]. auto.
  - intros x _ _. unfold used. by rewrite H4.
Qed.

Lemma release_shrunk f s : ok f -> 0 < s < device_size f -> used f s = true -> ~ priv s ->
  exists g, release al s 1 f = Done (tt, g) /\ shrunk none (fun x => x = s) f g.
Proof using ReleaseSpec0.
  intros Hf Hs Hu Hp. destruct (release_run f s Hf Hs Hu Hp) as (g & E & Hok & Hd & He & Hc & Hus).
  exists g. split; [done|]. split_and!; try done.
  - intros x Hx ->. rewrite Hus by done. by rewrite Z.eqb_refl.
  - intros x Hx Hn. rewrite Hus by done. by rewrite (proj2 (Z.eqb_neq _ _)).
  - intros x Hpx _. by apply Hc.
Qed.

(** ** Level 2 *)

(** The sectors past the new length that [ind] names. *)
Definition dead2 (ind : list Z) (i size j : Z) (n : nat) (x : Z) : Prop :=
  Exists (fun k => size <= bound2 i k /\ pk ind k = x /\ x <> 0) (seqZ j (Z.of_nat n)).

#[local] Instance dead2_dec ind i size j n x : Decision (dead2 ind i size j n x).
Proof. apply _. Qed.

Lemma dead2_spec ind i size j n x :
  dead2 ind i size j n x <-> exists k, in_range j n k /\ size <= bound2 i k /\ pk ind k = x /\ x <> 0.
Proof.
  unfold dead2. rewrite Exists_exists. setoid_rewrite elem_of_seqZ. unfold in_range. naive_solver.
Qed.

Definition level2_pre (f : fs St) (i size j : Z) (n : nat) (ind : list Z) : Prop :=
  length ind = 128%nat /\ 0 <= j /\ j + Z.of_nat n <= 128 /\
  (forall k, in_range j n k -> bound2 i k < size -> pk ind k <> 0) /\
  (forall k, in_range j n k -> size <= bound2 i k -> pk ind k <> 0 ->
     0 < pk ind k < device_size f /\ used f (pk ind k) = true /\ ~ priv (pk ind k)) /\
  (forall k k', in_range j n k -> in_range j n k' -> pk ind k = pk ind k' -> pk ind k <> 0 -> k = k').

Lemma dead2_cons ind i size j n x :
  dead2 ind i size j (S n) x <->
  (size <= bound2 i j /\ pk ind j = x /\ x <> 0) \/ dead2 ind i size (j + 1) n x.
Proof.
  unfold dead2. rewrite seqZ_cons by lia. rewrite Exists_cons.
  replace (Z.succ j) with (j + 1) by lia. by replace (Z.pred (Z.of_nat (S n))) with (Z.of_nat n) by lia.
Qed.

Lemma dead2_ext ind ind' i size j n x :
  (forall k, in_range j n k -> pk ind' k = pk ind k) -> dead2 ind' i size j n x <-> dead2 ind i size j n x.
Proof.
  intros E. rewrite !dead2_spec. split; intros (k & Hk & ? & ? & ?); exists k; rewrite E in * by done; done.
Qed.

(** Pointer [k] once the loop is through with [j .. j + n). *)
Definition cleared (ind : list Z) (i size j : Z) (n : nat) (k : Z) : Z :=
  if bool_decide (in_range j n k) && (size <=? bound2 i k) then 0 else pk ind k.

Lemma cleared_step ind ind1 i size j n k :
  (forall k, 0 <= k < 128 -> pk ind1 k = if (k =? j) && (size <=? bound2 i k) then 0 else pk ind k) ->
  0 <= k < 128 -> cleared ind1 i size (j + 1) n k = cleared ind i size j (S n) k.
Proof.
  intros E Hk. unfold cleared, in_range. rewrite E by done. destruct (Z.eqb_spec k j) as [->|].
  - rewrite bool_decide_false, (bool_decide_true (j <= j < _)) by lia. simpl. done.
  - by rewrite (bool_decide_ext (j + 1 <= k < j + 1 + Z.of_nat n) (j <= k < j + Z.of_nat (S n))) by lia.
Qed.

(** The rest of the loop, after entry [j] was cleared or kept. *)
Lemma level2_pre_rest f f1 i size j n ind ind1 R :
  level2_pre f i size j (S n) ind -> shrunk none R f f1 ->
  (forall x, R x -> x = pk ind j /\ x <> 0) -> length ind1 = 128%nat ->
  (forall k, in_range (j + 1) n k -> pk ind1 k = pk ind k) ->
  level2_pre f1 i size (j + 1) n ind1.
Proof.
  intros (Hl & Hj & Hn & Hneed & Hown & Hdist) (Hok & Hd & _ & _ & Hu & _) HR Hl1 E.
  assert (forall k, in_range (j + 1) n k -> in_range j (S n) k) as Hr by (unfold in_range; lia).
  split_and!; [done | lia | lia | | |].
  - intros k Hk. rewrite E by done. auto.
  - intros k Hk Hb. rewrite E by done. intros Hne. destruct (Hown k (Hr k Hk) Hb Hne) as (? & ? & ?).
    rewrite Hd. split_lia. rewrite Hu; [done | lia|]. intros [Heq _]%HR.
    assert (k = j) by (apply Hdist; auto; unfold in_range; lia). unfold in_range in Hk. lia.
  - intros k k' Hk Hk'. rewrite !E by done. auto.
Qed.

Lemma resize_level2_shrink i size n : forall j ind f,
  ok f -> level2_pre f i size j n ind ->
  exists ind' g, resize_level2 al n i j size ind f = Done (Some ind', g) /\
    shrunk none (dead2 ind i size j n) f g /\ length ind' = 128%nat /\
    forall k, 0 <= k < 128 -> pk ind' k = cleared ind i size j n k.
Proof using AllocSpec0 ReleaseSpec0.
  induction n as [|n IH]; intros j ind f Hf Hpre; pose proof Hpre as (Hl & Hj & Hn & Hneed & Hown & Hdist).
  { exists ind, f. split; [done|]. split; [|split; [done|]].
    - eapply shrunk_weaken; [done| | by apply shrunk_refl]. intros x. split; [done|]. intros Hx. by inversion Hx.
    - intros k Hk. unfold cleared. rewrite bool_decide_false; [done|]. unfold in_range. lia. }
  assert (in_range j (S n) j) as Hjj by (unfold in_range; lia).
  cbn [resize_level2]. change (i * (BLOCK_SECTOR_SIZE * NUM_POINTERS) + j * BLOCK_SECTOR_SIZE) with (bound2 i j).
  rewrite (bind_done _ _ _ _ _ (load_pointer_run ind j f ltac:(lia))).
  assert ((bound2 i j <? size) && (pk ind j =? 0) = false) as ->.
  { destruct (Z.ltb_spec (bound2 i j) size); [|done]. simpl. apply Z.eqb_neq. by apply Hneed. }
  rewrite bind_ret. rewrite (bind_done _ _ _ _ _ (load_pointer_run ind j f ltac:(lia))).
  assert (exists ind1 f1 R, (if (size <=? bound2 i j) && negb (pk ind j =? 0)
      then release al (pk ind j) 1 ;; ret (<[Z.to_nat j := 0]> ind) else ret ind) f = Done (ind1, f1) /\
    shrunk none R f f1 /\ (forall x, R x <-> size <= bound2 i j /\ pk ind j = x /\ x <> 0) /\
    length ind1 = 128%nat /\
    forall k, 0 <= k < 128 -> pk ind1 k = if (k =? j) && (size <=? bound2 i k) then 0 else pk ind k)
    as (ind1 & f1 & R & E1 & Hs1 & HR & Hl1 & Hpk).
  { destruct ((size <=? bound2 i j) && negb (pk ind j =? 0)) eqn:E.
    - apply andb_true_iff in E as [E1%Z.leb_le E2%negb_true_iff%Z.eqb_neq].
      destruct (Hown j Hjj E1 E2) as (H1 & H2 & H3).
      destruct (release_shrunk f (pk ind j) Hf H1 H2 H3) as (f1 & Er & Hs1).
      eexists _, f1, _. split; [erewrite bind_done by exact Er; reflexivity|]. split; [exact Hs1|].
      split; [intros x; naive_solver|]. split; [by rewrite length_insert|].
      intros k Hk. rewrite pk_insert by lia. destruct (Z.eqb_spec k j) as [->|]; [|done].
      by rewrite (proj2 (Z.leb_le _ _) E1).
    - exists ind, f, (fun _ => False). split_and!; [done | by apply shrunk_refl | | done |].
      + intros x. split; [done|]. intros (Hb & <- & Hne). rewrite (proj2 (Z.leb_le _ _) Hb) in E.
        by apply negb_false_iff, Z.eqb_eq in E.
      + intros k Hk. destruct (Z.eqb_spec k j) as [->|]; [|done]. simpl.
        destruct (size <=? bound2 i j); [|done]. by apply negb_false_iff, Z.eqb_eq in E. }
  rewrite (bind_done _ _ _ _ _ E1).
  assert (forall k, in_range (j + 1) n k -> pk ind1 k = pk ind k) as Hpk'.
  { intros k Hk. unfold in_range in Hk. rewrite Hpk by lia. by rewrite (proj2 (Z.eqb_neq _ _)) by lia. }
  destruct (IH (j + 1) ind1 f1) as (ind' & g & E' & Hs & Hl' & Hp'); [apply Hs1 | |].
  { eapply level2_pre_rest; try done. intros x (_ & <- & Hne)%HR. done. }
  exists ind', g. split; [done|]. split; [|split; [done|]].
  - eapply shrunk_weaken; [done | | eapply shrunk_trans; [|exact Hs1 | exact Hs]; apply _].
    intros x. cbv beta. by rewrite dead2_cons, HR, (dead2_ext ind ind1).
  - intros k Hk. rewrite Hp' by done. by apply cleared_step.
Qed.

(** ** Level 1 *)

(** The tree below [dbl] is complete for the new length, and all its sectors are
    in use and distinct. *)
Definition level1_whole (f : fs St) (size i : Z) (n : nat) (dbl : list Z) : Prop :=
  length dbl = 128%nat /\ 0 <= i /\ i + Z.of_nat n <= 128 /\
  (forall k, in_range i n k -> k * level1_bytes < size -> pk dbl k <> 0) /\
  (forall k j, in_range i n k -> 0 <= j < 128 -> pk dbl k <> 0 -> bound2 k j < size -> ptr2 f (pk dbl k) j <> 0) /\
  (forall nd, node_in i n nd -> naddr f dbl nd <> 0 ->
     0 < naddr f dbl nd < device_size f /\ used f (naddr f dbl nd) = true /\ ~ priv (naddr f dbl nd)) /\
  (forall a b, node_in i n a -> node_in i n b -> naddr f dbl a = naddr f dbl b -> naddr f dbl a <> 0 -> a = b).

(** What goes with entry [k], whose indirect sector is [p]. *)
Definition entry_dead (f : fs St) (size k p x : Z) : Prop :=
  p <> 0 /\ ((size <= k * level1_bytes /\ x = p) \/ dead2 (pointers (sector_of f p)) k size 0 128 x).

#[local] Instance entry_dead_dec f size k p x : Decision (entry_dead f size k p x).
Proof. apply _. Qed.

Definition dead1 (f : fs St) (dbl : list Z) (size i : Z) (n : nat) (x : Z) : Prop :=
  Exists (fun k => entry_dead f size k (pk dbl k) x) (seqZ i (Z.of_nat n)).

#[local] Instance dead1_dec f dbl size i n x : Decision (dead1 f dbl size i n x).
Proof. apply _. Qed.

Lemma dead1_spec f dbl size i n x :
  dead1 f dbl size i n x <-> exists k, in_range i n k /\ entry_dead f size k (pk dbl k) x.
Proof. unfold dead1. rewrite Exists_exists. setoid_rewrite elem_of_seqZ. unfold in_range. naive_solver. Qed.

Lemma dead1_cons f dbl size i n x :
  dead1 f dbl size i (S n) x <-> entry_dead f size i (pk dbl i) x \/ dead1 f dbl size (i + 1) n x.
Proof.
  unfold dead1. rewrite seqZ_cons by lia. rewrite Exists_cons.
  replace (Z.succ i) with (i + 1) by lia. by replace (Z.pred (Z.of_nat (S n))) with (Z.of_nat n) by lia.
Qed.

(** A dead sector of an entry is one of the entry's nodes. *)
Lemma entry_dead_node f size i n dbl k x :
  in_range i n k -> entry_dead f size k (pk dbl k) x ->
  x <> 0 /\ exists nd, node_in i n nd /\ naddr f dbl nd = x /\ (nd = Ind k \/ exists j, nd = Dat k j).
Proof.
  intros Hk [Hp [[Hs ->]|Hd]]; [split; [done|]; exists (Ind k); naive_solver|].
  apply dead2_spec in Hd as (j & Hj & _ & <- & Hne). split; [done|]. exists (Dat k j).
  unfold in_range in Hj. split; [simpl; split; [done | lia]|]. split; [|naive_solver].
  simpl. unfold ptr2. by rewrite (proj2 (Z.eqb_neq _ _)).
Qed.

Lemma resize_indirect_shrink f size i s :
  ok f -> 0 < s < device_size f -> used f s = true -> ~ priv s ->
  level2_pre f i size 0 128 (pointers (sector_of f s)) -> ~ dead2 (pointers (sector_of f s)) i size 0 128 s ->
  exists g, resize_indirect al i size s f = Done (true, g) /\
    shrunk (fun x => x = s) (dead2 (pointers (sector_of f s)) i size 0 128) f g /\
    forall j, 0 <= j < 128 -> ptr2 g s j = if size <=? bound2 i j then 0 else ptr2 f s j.
Proof using AllocSpec0 ReleaseSpec0.
  intros Hf Hs Hu Hp Hpre Hnd. unfold resize_indirect. rewrite (proj2 (Z.eqb_neq _ _)) by lia. cbn [negb].
  destruct (read_pointers_run f s) as (f1 & E1 & Hq); [by apply ok_store | lia |].
  rewrite (bind_done _ _ _ _ _ E1). pose proof (quiet_shrunk none f f1 Hf Hq) as Hs1.
  destruct (resize_level2_shrink i size 128 0 (pointers (sector_of f s)) f1) as (ind' & f2 & E2 & Hs2 & Hl & Hpk).
  { apply Hs1. }
  { destruct Hpre as (? & ? & ? & ? & Hown & ?), Hs1 as (_ & Hd & _ & _ & Hus & _). split_and!; try done.
    rewrite Hd. intros k Hk Hb Hne. destruct (Hown k Hk Hb Hne) as (? & ? & ?). split_lia. rewrite Hus; [done | lia | by intros []]. }
  rewrite (bind_done _ _ _ _ _ E2). set (R := dead2 _ _ _ _ _) in *.
  assert (shrunk none R f f2) as Hs12.
  { eapply shrunk_weaken; [done | | eapply shrunk_trans; [|exact Hs1 | exact Hs2]; apply _]. intros x. cbv beta. tauto. }
  pose proof Hs12 as (Hok2 & Hd2 & Henv2 & HR1 & HR2 & Hc2).
  assert (Forall is_u32 ind') as Hu32.
  { apply pk_forall. intros k Hk. rewrite Hpk by lia. unfold cleared. case_match; [unfold is_u32; lia|].
    apply pk_u32, pointers_u32, contents_ok. by apply ok_store. }
  destruct (store_write_fs f2 s (words_to_bytes ind')) as (g & E3 & Hso & Hd & Henv & Hfm & Hc);
    [by apply ok_store | lia | by apply words_sector_ok |].
  erewrite bind_done by exact E3. exists g. split; [done|]. split.
  - split_and!; [| congruence | congruence | | |].
    + eapply ok_stable; [exact Hok2 | done..|]. intros x Hx. rewrite Hc. by destruct (Z.eqb_spec x s) as [->|].
    + intros x Hx HR. unfold used. rewrite Hfm. by apply HR1.
    + intros x Hx HR. unfold used. rewrite Hfm. by apply HR2.
    + intros x Hx Hne. rewrite Hc, (proj2 (Z.eqb_neq _ _)) by done. apply Hc2; [done | by intros []].
  - intros j Hj. unfold ptr2. rewrite (proj2 (Z.eqb_neq _ _)) by lia. rewrite Hc, Z.eqb_refl, pointers_words by done.
    rewrite Hpk by done. unfold cleared. rewrite bool_decide_true by (unfold in_range; lia). done.
Qed.

Lemma whole_level2 f size i n dbl :
  level1_whole f size i (S n) dbl -> pk dbl i <> 0 ->
  level2_pre f i size 0 128 (pointers (sector_of f (pk dbl i))) /\
  ~ dead2 (pointers (sector_of f (pk dbl i))) i size 0 128 (pk dbl i).
Proof.
  intros (Hl & Hi & Hn & Hneed1 & Hneed2 & Hown & Hinj) Hp.
  assert (in_range i (S n) i) as Hii by (unfold in_range; lia).
  assert (forall j, pk (pointers (sector_of f (pk dbl i))) j = naddr f dbl (Dat i j)) as E.
  { intros j. simpl. unfold ptr2. by rewrite (proj2 (Z.eqb_neq _ _)). }
  assert (forall j, in_range 0 128 j -> node_in i (S n) (Dat i j)) as Hnode by (intros j Hj; simpl; unfold in_range in *; lia).
  split; [split_and!|].
  - apply length_pointers. - lia. - lia.
  - intros k Hk Hb. rewrite E. by apply Hneed2.
  - intros k Hk _. rewrite E. apply Hown. auto.
  - intros k k' Hk Hk'. rewrite !E. intros Heq Hne. by injection (Hinj (Dat i k) (Dat i k') (Hnode k Hk) (Hnode k' Hk') Heq Hne).
  - intros (k & Hk & _ & Heq & Hne)%dead2_spec. rewrite E in Heq.
    by apply (Hinj (Dat i k) (Ind i)) in Heq; [..| auto | simpl in *; congruence].
Qed.

(** Entry [i] of the loop, up to the next iteration [K]. *)
Lemma shrink_entry {A} f size i n dbl (K : list Z -> M (fs St) (option A)) :
  ok f -> level1_whole f size i (S n) dbl ->
  exists g1 dbl1,
    (let! r := resize_indirect al i size (pk dbl i) in
     if r : bool then
       let! dbl := (if (size <=? i * (BLOCK_SECTOR_SIZE * NUM_POINTERS)) && negb (pk dbl i =? 0) then
                      release al (pk dbl i) 1 ;; ret (<[Z.to_nat i := 0]> dbl)
                    else ret dbl) in
       K dbl
     else ret None) f = K dbl1 g1 /\
    shrunk (fun x => x = pk dbl i /\ pk dbl i <> 0) (entry_dead f size i (pk dbl i)) f g1 /\
    length dbl1 = 128%nat /\
    (forall k, 0 <= k < 128 -> pk dbl1 k = if (k =? i) && (size <=? i * level1_bytes) then 0 else pk dbl k) /\
    (forall j, 0 <= j < 128 -> i * level1_bytes < size ->
       ptr2 g1 (pk dbl i) j = if size <=? bound2 i j then 0 else ptr2 f (pk dbl i) j).
Proof using AllocSpec0 ReleaseSpec0.
  intros Hf Hw. pose proof Hw as (Hl & Hi & Hn & Hneed1 & _ & Hown & _).
  assert (in_range i (S n) i) as Hii by (unfold in_range; lia).
  change (BLOCK_SECTOR_SIZE * NUM_POINTERS) with level1_bytes.
  destruct (Z.eqb_spec (pk dbl i) 0) as [E0|Hp].
  { rewrite E0. exists f, dbl. rewrite andb_false_r. split; [done|]. split_and!.
    - apply (shrunk_weaken none _ (fun _ => False)); [by intros ? [] | | by apply shrunk_refl].
      intros x. unfold entry_dead. naive_solver.
    - done.
    - intros k Hk. destruct (Z.eqb_spec k i) as [->|]; [|done]. simpl. rewrite E0. by case_match.
    - intros j Hj Hs. by specialize (Hneed1 i Hii Hs). }
  destruct (whole_level2 _ _ _ _ _ Hw Hp) as [Hpre Hnd]. destruct (Hown (Ind i) Hii Hp) as (H1 & H2 & H3). simpl in H1, H2, H3.
  destruct (resize_indirect_shrink f size i (pk dbl i) Hf H1 H2 H3 Hpre Hnd) as (f1 & E1 & Hs1 & Hp2).
  rewrite (bind_done _ _ _ _ _ E1). cbn [negb]. rewrite andb_true_r.
  destruct (Z.leb_spec size (i * level1_bytes)) as [Hle|Hgt].
  - pose proof Hs1 as (Hok1 & Hd1 & _ & _ & Hu1 & _).
    destruct (release_shrunk f1 (pk dbl i) Hok1) as (g1 & Er & Hs2); [lia | rewrite Hu1; [done | lia | done] | done |].
    exists g1, (<[Z.to_nat i := 0]> dbl). erewrite bind_done by (erewrite bind_done by exact Er; reflexivity).
    split; [done|]. split_and!.
    + apply (shrunk_weaken (fun x => x = pk dbl i) _
        (fun x => dead2 (pointers (sector_of f (pk dbl i))) i size 0 128 x \/ x = pk dbl i)); [by intros x -> | |].
      * intros x. unfold entry_dead. naive_solver.
      * eapply shrunk_trans; [apply _ | exact Hs1 |]. eapply shrunk_weaken; [| | exact Hs2]; [by intros x [] | done].
    + by rewrite length_insert.
    + intros k Hk. rewrite pk_insert by lia. by destruct (Z.eqb_spec k i).
    + lia.
  - exists f1, dbl. rewrite bind_ret. split; [done|]. split_and!; [| done | | auto].
    + eapply shrunk_weaken; [| | exact Hs1]; [by intros x ->|]. intros x. unfold entry_dead. split; [naive_solver|].
      intros [_ [[? _]|]]; [lia | done].
    + intros k Hk. by rewrite andb_false_r.
Qed.

Definition level1_shrunk (f g : fs St) (size i : Z) (n : nat) (dbl dbl' : list Z) : Prop :=
  shrunk (rewritten dbl i n) (dead1 f dbl size i n) f g /\ length dbl' = 128%nat /\
  (forall k, 0 <= k < 128 -> pk dbl' k =
     if bool_decide (in_range i n k) && (size <=? k * level1_bytes) then 0 else pk dbl k) /\
  (forall k j, in_range i n k -> 0 <= j < 128 -> k * level1_bytes < size ->
     ptr2 g (pk dbl k) j = if size <=? bound2 k j then 0 else ptr2 f (pk dbl k) j).

(** After entry [i] the rest of the tree is as it was. *)
Lemma whole_rest f g1 size i n dbl dbl1 :
  level1_whole f size i (S n) dbl ->
  shrunk (fun x => x = pk dbl i /\ pk dbl i <> 0) (entry_dead f size i (pk dbl i)) f g1 ->
  length dbl1 = 128%nat -> (forall k, in_range (i + 1) n k -> pk dbl1 k = pk dbl k) ->
  (forall nd, node_in (i + 1) n nd -> naddr g1 dbl1 nd = naddr f dbl nd) /\
  level1_whole g1 size (i + 1) n dbl1.
Proof.
  intros (Hl & Hi & Hn & Hneed1 & Hneed2 & Hown & Hinj) (Hok & Hd & _ & _ & Hu & Hc) Hl1 E.
  assert (forall k, in_range (i + 1) n k -> in_range i (S n) k) as Hr by (unfold in_range; lia).
  assert (forall nd, node_in (i + 1) n nd -> node_in i (S n) nd) as Hrn by (intros [| |k|k j]; simpl; intuition auto).
  assert (in_range i (S n) i) as Hii by (unfold in_range; lia).
  assert (forall k j, in_range (i + 1) n k -> ptr2 g1 (pk dbl k) j = ptr2 f (pk dbl k) j) as Ep.
  { intros k j Hk. unfold ptr2. destruct (Z.eqb_spec (pk dbl k) 0) as [|Hne]; [done|]. rewrite Hc; [done | |].
    - by apply (Hown (Ind k)); [apply Hr|].
    - intros [Heq _]. assert (Ind k = Ind i) as [= ->] by (apply Hinj; [by apply Hr | done..]). unfold in_range in Hk. lia. }
  assert (forall nd, node_in (i + 1) n nd -> naddr g1 dbl1 nd = naddr f dbl nd) as En.
  { intros [| |k|k j] Hin; try done; simpl in *; [by apply E|]. destruct Hin. by rewrite E, Ep. }
  split; [done|]. split_and!; [done | lia | lia | | | |].
  - intros k Hk. rewrite E by done. auto.
  - intros k j Hk Hj. rewrite E by done. rewrite Ep by done. auto.
  - intros nd Hin. rewrite En by done. intros Hne. destruct (Hown nd (Hrn nd Hin) Hne) as (? & ? & ?).
    rewrite Hd. split_lia. rewrite Hu; [done | lia |]. intros Hdead.
    destruct (entry_dead_node _ _ _ _ _ _ _ Hii Hdead) as (_ & nd' & Hin' & Heq & Hnd').
    assert (nd = nd') as -> by (apply Hinj; auto).
    destruct Hnd' as [->|[j ->]]; simpl in Hin; unfold in_range in Hin; lia.
  - intros a b Ha Hb. rewrite !En by done. auto.
Qed.

Lemma level1_shrunk_seq f g1 g size i n dbl dbl1 dbl' :
  level1_whole f size i (S n) dbl ->
  shrunk (fun x => x = pk dbl i /\ pk dbl i <> 0) (entry_dead f size i (pk dbl i)) f g1 ->
  length dbl1 = 128%nat ->
  (forall k, 0 <= k < 128 -> pk dbl1 k = if (k =? i) && (size <=? i * level1_bytes) then 0 else pk dbl k) ->
  (forall j, 0 <= j < 128 -> i * level1_bytes < size ->
     ptr2 g1 (pk dbl i) j = if size <=? bound2 i j then 0 else ptr2 f (pk dbl i) j) ->
  level1_shrunk g1 g size (i + 1) n dbl1 dbl' -> level1_shrunk f g size i (S n) dbl dbl'.
Proof.
  intros Hw Hs1 Hl1 E Hp2 (Hs & Hl' & Hpk' & Hptr). pose proof Hw as (Hl & Hi & Hn & Hneed1 & _ & Hown & Hinj).
  assert (forall k, in_range (i + 1) n k -> pk dbl1 k = pk dbl k) as E'.
  { intros k Hk. unfold in_range in Hk. rewrite E by lia. by rewrite (proj2 (Z.eqb_neq _ _)) by lia. }
  destruct (whole_rest f g1 size i n dbl dbl1 Hw Hs1 Hl1 E') as [En Hw1].
  assert (in_range i (S n) i) as Hii by (unfold in_range; lia).
  assert (forall k, in_range (i + 1) n k -> in_range i (S n) k) as Hr by (unfold in_range; lia).
  split_and!; [| done | |].
  - apply (shrunk_weaken (rewritten dbl i (S n)) _
      (fun x => entry_dead f size i (pk dbl i) x \/ dead1 g1 dbl1 size (i + 1) n x)); [done | |].
    + intros x. rewrite dead1_cons, !dead1_spec. apply or_iff_compat_l. split; intros (k & Hk & Hd); exists k; (split; [done|]).
      all: assert (forall j, 0 <= j < 128 -> pk dbl k <> 0 ->
        pk (pointers (sector_of g1 (pk dbl k))) j = pk (pointers (sector_of f (pk dbl k))) j) as Ej.
      1, 3: intros j Hj Hne; pose proof (En (Dat k j) (conj Hk Hj)) as E0; simpl in E0; rewrite E' in E0 by done;
        unfold ptr2 in E0; by rewrite (proj2 (Z.eqb_neq _ _)) in E0 by done.
      * rewrite E' in Hd by done. destruct Hd as [Hne Hd]. split; [done|].
        rewrite (dead2_ext (pointers (sector_of f (pk dbl k)))) in Hd; [done|]. intros j Hj. apply Ej; [unfold in_range in Hj; lia | done].
      * rewrite E' by done. destruct Hd as [Hne Hd]. split; [done|].
        rewrite (dead2_ext (pointers (sector_of f (pk dbl k)))); [done|]. intros j Hj. apply Ej; [unfold in_range in Hj; lia | done].
    + eapply shrunk_trans; [apply _ | |].
      * eapply shrunk_weaken; [| |exact Hs1]; [|done]. intros x [-> Hne]. by exists i.
      * eapply shrunk_weaken; [| |exact Hs]; [|done]. intros x (k & Hk & <- & Hne). rewrite E' in * by done. exists k. auto.
  - intros k Hk. rewrite Hpk', E by done. unfold in_range. destruct (Z.eqb_spec k i) as [->|].
    + rewrite bool_decide_false, bool_decide_true by lia. done.
    + by rewrite (bool_decide_ext (i + 1 <= k < i + 1 + Z.of_nat n) (i <= k < i + Z.of_nat (S n))) by lia.
  - intros k j Hk Hj Hlt. destruct (decide (k = i)) as [->|].
    + rewrite <- Hp2 by done. assert (pk dbl i <> 0) as Hne by auto. destruct Hs as (_ & _ & _ & _ & _ & Hc).
      unfold ptr2. rewrite (proj2 (Z.eqb_neq _ _)) by done. rewrite Hc; [done | by apply (Hown (Ind i)) |].
      intros (k & Hk' & Heq & _). rewrite E' in Heq by done.
      assert (Ind k = Ind i) as [= ->] by (apply Hinj; [by apply Hr | done | done | simpl; congruence]). unfold in_range in Hk'. lia.
    + assert (in_range (i + 1) n k) as Hk' by (unfold in_range in *; lia).
      specialize (Hptr k j Hk' Hj Hlt). rewrite E' in Hptr by done. rewrite Hptr.
      pose proof (En (Dat k j) (conj Hk' Hj)) as E0. simpl in E0. rewrite E' in E0 by done. by rewrite E0.
Qed.

Lemma resize_level1_shrink size n : forall i dbl f,
  ok f -> level1_whole f size i n dbl ->
  exists dbl' g, resize_level1 al n i size dbl f = Done (Some dbl', g) /\ level1_shrunk f g size i n dbl dbl'.
Proof using AllocSpec0 ReleaseSpec0.
  induction n as [|n IH]; intros i dbl f Hf Hw; pose proof Hw as (Hl & Hi & Hn & Hneed1 & _).
  { exists dbl, f. split; [done|]. split_and!; [| done | |].
    - eapply shrunk_weaken; [done | | by apply shrunk_refl]. intros x. split; [done|]. intros Hx. by inversion Hx.
    - intros k Hk. rewrite bool_decide_false; [done|]. unfold in_range. lia.
    - unfold in_range. lia. }
  cbn [resize_level1]. rewrite (bind_done _ _ _ _ _ (load_pointer_run dbl i f ltac:(lia))).
  assert ((i * (BLOCK_SECTOR_SIZE * NUM_POINTERS) <? size) && (pk dbl i =? 0) = false) as ->.
  { destruct (Z.ltb_spec (i * (BLOCK_SECTOR_SIZE * NUM_POINTERS)) size); [|done]. simpl. apply Z.eqb_neq.
    apply Hneed1; [unfold in_range; lia | done]. }
  rewrite bind_ret. rewrite (bind_done _ _ _ _ _ (load_pointer_run dbl i f ltac:(lia))).
  destruct (shrink_entry f size i n dbl (resize_level1 al n (i + 1) size) Hf Hw) as (g1 & dbl1 & -> & Hs1 & Hl1 & E & Hp2).
  assert (forall k, in_range (i + 1) n k -> pk dbl1 k = pk dbl k) as E'.
  { intros k Hk. unfold in_range in Hk. rewrite E by lia. by rewrite (proj2 (Z.eqb_neq _ _)) by lia. }
  destruct (whole_rest f g1 size i n dbl dbl1 Hw Hs1 Hl1 E') as [_ Hw1].
  destruct (IH (i + 1) dbl1 g1) as (dbl' & g & E2 & Hsh); [apply Hs1 | done |].
  exists dbl', g. split; [done|]. by eapply level1_shrunk_seq.
Qed.
End shrinking.
