(* ===== verification/InodeResize.v ===== *)
(** * Resizing a file

    [inode_resize] on well-formed files.  Growing keeps the bytes of the file
    and adds zeros; a growth that runs out of sectors is rolled back; resizing
    to zero releases every sector below the inode.  In all cases the sectors in
    use by anything else keep their contents and stay in use. *)

From stdpp Require Import options.
From S2P Require Import Prelude Bytes Bitmap Block Store Inode InodeTree InodeGrow InodeShrink.
Local Open Scope Z_scope.
Local Open Scope kernel_scope.

(** ** Positions of bytes *)

Lemma byte_pos k : 0 <= k -> k / 512 * 512 < MAX_FILE_BYTES ->
  0 <= k / level1_bytes < 128 /\ 0 <= k / 512 mod 128 < 128 /\
  bound2 (k / level1_bytes) (k / 512 mod 128) = k / 512 * 512.
Proof.
  intros Hk Hb. unfold bound2, level1_bytes, MAX_FILE_BYTES in *.
  pose proof (Z.mod_pos_bound (k / 512) 128). pose proof (Z.div_mod (k / 512) 128).
  replace (k / 65536) with (k / 512 / 128) by (rewrite Z.div_div by lia; done).
  assert (0 <= k / 512) by (apply Z.div_pos; lia).
  assert (k / 512 < 2 ^ 14) by lia. assert (0 <= k / 512 / 128) by (apply Z.div_pos; lia).
  assert (k / 512 / 128 < 128) by (apply Z.div_lt_upper_bound; lia). lia.
Qed.

Lemma nth_blank n : nth n blank_sector 0 = 0.
Proof.
  rewrite nth_lookup. destruct (blank_sector !! n) eqn:E; [|done]. by apply lookup_replicate in E as [-> _].
Qed.

Section resize.
Context {St : Type} `{!SectorStore St} {al : allocator St} {priv : Z -> Prop} {ok : fs St -> Prop}.
Context `{!AllocSpec al priv ok}.
Implicit Types (f g h : fs St) (x s i j k idx len size : Z) (d : list Z) (nd : node).
Abbreviation grown := (grown (priv := priv) (ok := ok)).

(** The nodes of the file at [s] are sectors in use that are not the
    allocator's. *)
Definition owned (f : fs St) (s idx : Z) : Prop :=
  forall nd, live (sector_of f) s idx nd ->
    0 <= addr (sector_of f) s idx nd < device_size f /\
    used f (addr (sector_of f) s idx nd) = true /\ ~ priv (addr (sector_of f) s idx nd).

Definition file_tree (f : fs St) (s idx len : Z) : Prop :=
  tree_ok (sector_of f) s idx len /\ owned f s idx.

(** Sectors of the file's pointers, which a resize may write. *)
Definition pointer_sector (f : fs St) (s idx x : Z) : Prop :=
  x <> 0 /\ (x = idx \/ exists k, 0 <= k < 128 /\ x = level1 (sector_of f) idx k).

(** A node of the new tree is a node of the old one or was free before. *)
Definition extends (f g : fs St) (s idx idx' : Z) : Prop :=
  forall nd, live (sector_of g) s idx' nd -> used f (addr (sector_of g) s idx' nd) = true ->
    live (sector_of f) s idx nd /\ addr (sector_of f) s idx nd = addr (sector_of g) s idx' nd.

Lemma level2_ptr2 f idx i j : level2 (sector_of f) idx i j = ptr2 f (level1 (sector_of f) idx i) j.
Proof. done. Qed.

Lemma level1_pk f idx i : idx <> 0 -> level1 (sector_of f) idx i = pk (pointers (sector_of f idx)) i.
Proof. intros Hne. unfold level1. by rewrite (proj2 (Z.eqb_neq _ _)). Qed.

Section tree_facts.
Context (f : fs St) (s idx len : Z).
Hypothesis Htree : file_tree f s idx len.
Hypothesis Hidx : idx <> 0.
Let dbl := pointers (sector_of f idx).

Lemma tree_ind k : 0 <= k < 128 -> pk dbl k <> 0 -> live (sector_of f) s idx (Ind k).
Proof using Hidx. intros Hk Hne. split; [done|]. right. simpl. by rewrite level1_pk. Qed.

Lemma tree_dat k j : 0 <= k < 128 -> 0 <= j < 128 -> ptr2 f (pk dbl k) j <> 0 -> live (sector_of f) s idx (Dat k j).
Proof using Hidx. intros Hk Hj Hne. split; [done|]. right. simpl. by rewrite level2_ptr2, level1_pk. Qed.

Lemma tree_root : live (sector_of f) s idx Root.
Proof using Hidx. split; [done|]. by right. Qed.

Lemma tree_self : live (sector_of f) s idx Self.
Proof. split; [done|]. by left. Qed.

(** The loop starts with what the tree has. *)
Lemma tree_level1_pre size : len <= size -> level1_pre (priv := priv) f size 0 128 dbl.
Proof using Htree Hidx.
  intros Hsize. destruct Htree as [(Hlen & _ & H1 & H2 & Hinj & _) Hown]. split_and!; [apply length_pointers | lia | lia | | |].
  - intros k Hk Hne. assert (0 <= k < 128) as Hk' by (unfold in_range in Hk; lia).
    pose proof (tree_ind k Hk' Hne) as Hl. destruct (Hown _ Hl) as (Ha & Hb & Hc). simpl in Ha, Hb, Hc.
    rewrite level1_pk in Ha, Hb, Hc by done. fold dbl in Ha, Hb, Hc.
    assert (k * level1_bytes < len) by (apply H1; [done | by rewrite level1_pk]). split_lia.
  - intros k k' Hk Hk' Heq Hne. unfold in_range in Hk, Hk'.
    assert (Ind k = Ind k') as [= ->]; [|done]. apply Hinj; [apply tree_ind; lia || done | apply tree_ind; lia || congruence |].
    simpl. by rewrite !level1_pk.
  - intros k j Hk Hj Hne. assert (0 <= k < 128) as Hk' by (unfold in_range in Hk; lia).
    pose proof (tree_dat k j Hk' Hj Hne) as Hl. destruct (Hown _ Hl) as (Ha & Hb & Hc). simpl in Ha, Hb, Hc.
    rewrite level2_ptr2, level1_pk in Ha, Hb, Hc by done. fold dbl in Ha, Hb, Hc.
    assert (bound2 k j < len) by (apply H2; [done.. | by rewrite level2_ptr2, level1_pk]). split_lia.
Qed.
End tree_facts.

(** ** The grown tree *)

Section grown_tree.
Context (f g1 g : fs St) (s idx len size : Z) (dbl' : list Z).
Hypothesis Hf : ok f.
Hypothesis Htree : file_tree f s idx len.
Hypothesis Hidx : idx <> 0.
Hypothesis Hsize : len <= size <= MAX_FILE_BYTES.
Let dbl := pointers (sector_of f idx).
Hypothesis Hgrown : grown (rewritten dbl 0 128) f g1.
Hypothesis Hlevel1 : level1_grown (priv := priv) f g1 size 0 128 dbl dbl'.
Hypothesis Hokg : ok g.
Hypothesis Hdev : device_size g = device_size f.
Hypothesis Henv : env g = env f.
Hypothesis Hmap : free_map g = free_map g1.
Hypothesis Hcont : forall y, sector_of g y = if y =? idx then words_to_bytes dbl' else sector_of g1 y.

Lemma range128 k : 0 <= k < 128 -> in_range 0 128 k.
Proof. unfold in_range. lia. Qed.

Lemma grown_entry k : 0 <= k < 128 -> settled (priv := priv) f g1 (k * level1_bytes <? size) (pk dbl k) (pk dbl' k).
Proof using Hlevel1. intros Hk. destruct Hlevel1 as (_ & _ & HC & _). by apply HC, range128. Qed.

Lemma grown_level1 k : 0 <= k < 128 -> level1 (sector_of g) idx k = pk dbl' k.
Proof using Hf Hlevel1 Hcont Hidx AllocSpec0.
  intros Hk. destruct Hlevel1 as (Hl & _). rewrite level1_pk by done. rewrite Hcont, Z.eqb_refl.
  rewrite pointers_words; [done | | done]. apply pk_forall. intros k' Hk'. rewrite Hl in Hk'.
  eapply settled_u32; [exact Hf | | apply grown_entry; lia]. apply pk_u32, pointers_u32, contents_ok. by apply ok_store.
Qed.

Lemma root_facts : 0 < idx < device_size f /\ used f idx = true /\ ~ priv idx.
Proof using Htree Hidx.
  destruct Htree as [_ Hown]. destruct (Hown Root) as (H1 & H2 & H3); [by apply tree_root|]. simpl in *. split_lia.
Qed.

Lemma entry_not_root k : 0 <= k < 128 -> pk dbl' k <> idx.
Proof using Hlevel1 Htree Hidx.
  intros Hk Heq. pose proof (grown_entry k Hk) as Hs. destruct root_facts as (Hr & Hu & _).
  unfold settled in Hs. destruct (Z.eqb_spec (pk dbl k) 0) as [E|Hne].
  - case_match; [|congruence]. destruct Hs as (_ & Hn & _). congruence.
  - destruct Htree as [(_ & _ & _ & _ & Hinj & _) _].
    assert (Ind k = Root); [|done]. apply Hinj; [by apply tree_ind | by apply tree_root |]. simpl.
    rewrite level1_pk by done. fold dbl. congruence.
Qed.

Lemma grown_level2 k j : 0 <= k < 128 -> level2 (sector_of g) idx k j = ptr2 g1 (pk dbl' k) j.
Proof using Hf Hlevel1 Hcont Htree Hidx AllocSpec0.
  intros Hk. rewrite level2_ptr2, grown_level1 by done. unfold ptr2. case_match; [done|].
  rewrite Hcont, (proj2 (Z.eqb_neq _ _)); [done|]. by apply entry_not_root.
Qed.

Lemma grown_entry2 k j : 0 <= k < 128 -> 0 <= j < 128 ->
  settled (priv := priv) f g1 (bound2 k j <? size) (level2 (sector_of f) idx k j) (level2 (sector_of g) idx k j) /\
  (level2 (sector_of f) idx k j = 0 -> bound2 k j < size -> sector_of g1 (level2 (sector_of g) idx k j) = blank_sector).
Proof using Hf Hlevel1 Hcont Htree Hidx AllocSpec0.
  intros Hk Hj. rewrite grown_level2 by done. rewrite level2_ptr2, level1_pk by done. fold dbl.
  destruct Hlevel1 as (_ & _ & _ & HD & _). by apply HD; [apply range128|].
Qed.

(** A node of the new tree is a node of the old one or is new. *)
Lemma grown_node nd : live (sector_of g) s idx nd ->
  (live (sector_of f) s idx nd /\ addr (sector_of g) s idx nd = addr (sector_of f) s idx nd) \/
  (fresh (priv := priv) f g1 (addr (sector_of g) s idx nd) /\ node_in 0 128 nd /\
   addr (sector_of g) s idx nd = naddr g1 dbl' nd).
Proof using Hf Hlevel1 Hcont Htree Hidx AllocSpec0.
  intros [Hv Hl]. destruct nd as [| |k|k j].
  - left. split; [apply tree_self | done].
  - left. split; [by apply tree_root | done].
  - destruct Hl as [|Hl]; [done|]. simpl in *. rewrite grown_level1 in * by done.
    pose proof (grown_entry k Hv) as Hs. unfold settled in Hs. destruct (Z.eqb_spec (pk dbl k) 0) as [E|Hne].
    + case_match; [|done]. right. split; [done|]. split; [by apply range128 | done].
    + left. split; [by apply tree_ind|]. rewrite level1_pk by done. done.
  - destruct Hl as [|Hl]; [done|]. destruct Hv as [Hk Hj]. simpl in *. destruct (grown_entry2 k j Hk Hj) as [Hs _].
    unfold settled in Hs. destruct (Z.eqb_spec (level2 (sector_of f) idx k j) 0) as [E|Hne].
    + case_match; [|congruence]. right. split; [exact Hs|]. split; [split; [by apply range128 | exact Hj] | by apply grown_level2].
    + left. split; [|exact Hs]. split; [split; [exact Hk | exact Hj] | by right].
Qed.

Lemma grown_inj a b : live (sector_of g) s idx a -> live (sector_of g) s idx b ->
  addr (sector_of g) s idx a = addr (sector_of g) s idx b -> a = b.
Proof using Hf Hlevel1 Hcont Htree Hidx AllocSpec0.
  intros Ha Hb Heq. destruct Htree as [(_ & _ & _ & _ & Hinj & _) Hown].
  destruct (grown_node a Ha) as [[La Ea]|(Fa & Na & Ea)], (grown_node b Hb) as [[Lb Eb]|(Fb & Nb & Eb)].
  - apply Hinj; congruence.
  - destruct (Hown a La) as (_ & Hu & _). destruct Fb as (_ & Hn & _). congruence.
  - destruct (Hown b Lb) as (_ & Hu & _). destruct Fa as (_ & Hn & _). congruence.
  - destruct Hlevel1 as (_ & _ & _ & _ & HE). destruct Fa as (Hp & Hn & _).
    apply HE; try done; rewrite <- Ea; [congruence | lia | done].
Qed.

(** A sector of data of the old tree keeps its contents. *)
Lemma old_data k j : 0 <= k < 128 -> 0 <= j < 128 -> level2 (sector_of f) idx k j <> 0 ->
  level2 (sector_of g) idx k j = level2 (sector_of f) idx k j /\
  sector_of g (level2 (sector_of g) idx k j) = sector_of f (level2 (sector_of f) idx k j).
Proof using Hf Hgrown Hlevel1 Hcont Htree Hidx AllocSpec0.
  intros Hk Hj Hne. destruct (grown_entry2 k j Hk Hj) as [Hs _]. unfold settled in Hs.
  rewrite (proj2 (Z.eqb_neq _ _) Hne) in Hs. split; [done|]. rewrite Hs.
  assert (live (sector_of f) s idx (Dat k j)) as Hl by (split; [split; [exact Hk | exact Hj] | by right]).
  destruct Htree as [(_ & _ & _ & _ & Hinj & _) Hown]. destruct (Hown _ Hl) as (H1 & H2 & H3). simpl in *.
  rewrite Hcont, (proj2 (Z.eqb_neq _ _)).
  - destruct Hgrown as (_ & _ & _ & _ & Hsame). apply Hsame; [exact H1 | exact H2 | exact H3 |]. intros (i & Hi & Heq & Hni). unfold in_range in Hi.
    assert (Ind i = Dat k j); [|done]. apply Hinj; [apply tree_ind; [done | lia | fold dbl; congruence] | done |].
    simpl. by rewrite level1_pk.
  - intros Heq. assert (Root = Dat k j); [|done]. apply Hinj; [by apply tree_root | done | done].
Qed.

Lemma new_data k j : 0 <= k < 128 -> 0 <= j < 128 -> level2 (sector_of f) idx k j = 0 -> bound2 k j < size ->
  sector_of g (level2 (sector_of g) idx k j) = blank_sector.
Proof using Hf Hlevel1 Hcont Htree Hidx AllocSpec0.
  intros Hk Hj E Hb. destruct (grown_entry2 k j Hk Hj) as [Hs Hbl]. rewrite Hcont.
  destruct (Z.eqb_spec (level2 (sector_of g) idx k j) idx) as [Heq|]; [|by apply Hbl].
  exfalso. unfold settled in Hs. rewrite E, (proj2 (Z.ltb_lt _ _) Hb) in Hs. simpl in Hs. destruct Hs as (_ & Hn & _).
  destruct root_facts as (_ & Hu & _). congruence.
Qed.

Lemma grown_level1_needed k : 0 <= k < 128 -> level1 (sector_of g) idx k <> 0 <-> k * level1_bytes < size.
Proof using All.
  intros Hk. rewrite grown_level1 by done. pose proof (grown_entry k Hk) as Hs. unfold settled in Hs.
  destruct Htree as [(_ & _ & H1 & _) _]. specialize (H1 k Hk). rewrite level1_pk in H1 by done. fold dbl in H1.
  destruct (Z.eqb_spec (pk dbl k) 0) as [E|Hne].
  - destruct (Z.ltb_spec (k * level1_bytes) size); [|lia]. destruct Hs as (? & _). lia.
  - rewrite Hs. split; [|done]. intros ?%H1. lia.
Qed.

Lemma grown_level2_needed k j : 0 <= k < 128 -> 0 <= j < 128 ->
  level2 (sector_of g) idx k j <> 0 <-> bound2 k j < size.
Proof using All.
  intros Hk Hj. destruct (grown_entry2 k j Hk Hj) as [Hs _]. unfold settled in Hs.
  destruct Htree as [(_ & _ & _ & H2 & _) _]. specialize (H2 k j Hk Hj). fold (bound2 k j) in H2.
  destruct (Z.eqb_spec (level2 (sector_of f) idx k j) 0) as [E|Hne].
  - destruct (Z.ltb_spec (bound2 k j) size); [|lia]. destruct Hs as (? & _). lia.
  - rewrite Hs. split; [|intros _; exact Hne]. intros ?%H2. lia.
Qed.

Lemma grown_byte k : 0 <= k -> k / 512 * 512 < size ->
  tree_byte (sector_of g) idx k = if k <? len then tree_byte (sector_of f) idx k else 0.
Proof using All.
  intros Hk Hb. destruct (byte_pos k Hk) as (Hi & Hj & Eb); [lia|].
  destruct Htree as [(_ & _ & _ & H2 & _ & Htail) _]. specialize (H2 _ _ Hi Hj).
  fold (bound2 (k / level1_bytes) (k / 512 mod 128)) in H2. rewrite Eb in H2.
  destruct (decide (level2 (sector_of f) idx (k / level1_bytes) (k / 512 mod 128) = 0)) as [E|Hne].
  - assert (len <= k / 512 * 512).
    { destruct (Z.lt_ge_cases (k / 512 * 512) len) as [Hlt|]; [|done]. by apply H2 in Hlt. }
    pose proof (Z.div_mod k 512). pose proof (Z.mod_pos_bound k 512). rewrite (proj2 (Z.ltb_ge _ _)) by lia.
    unfold tree_byte. rewrite (new_data _ _ Hi Hj E) by lia. apply nth_blank.
  - destruct (old_data _ _ Hi Hj Hne) as [_ Hd]. unfold tree_byte. rewrite Hd.
    destruct (Z.ltb_spec k len) as [|Hge]; [done|]. apply Htail; [done | by apply H2].
Qed.

Lemma grown_file :
  file_tree g s idx size /\
  (forall k, 0 <= k -> k / 512 * 512 < size ->
     tree_byte (sector_of g) idx k = if k <? len then tree_byte (sector_of f) idx k else 0) /\
  grown (pointer_sector f s idx) f g /\ extends f g s idx idx.
Proof using All.
  pose proof Hgrown as (Hok1 & Hd1 & He1 & Hm1 & Hc1). destruct root_facts as (Hr & Hu & Hp).
  assert (forall x, used g x = used g1 x) as Eu by (intros x; unfold used; by rewrite Hmap).
  split; [split; [split_and!|]|split; [apply grown_byte|split]].
  - destruct Htree as [(? & _) _]. lia.
  - lia.
  - intros _. done.
  - apply grown_level1_needed.
  - apply grown_level2_needed.
  - apply grown_inj.
  - intros k Hk Hb. assert (0 <= k) by (destruct Htree as [(? & _) _]; lia).
    rewrite grown_byte by done. by rewrite (proj2 (Z.ltb_ge _ _)) by lia.
  - intros nd Hl. rewrite Hdev, Eu. destruct (grown_node nd Hl) as [[Lf Ef]|((H1 & H2 & H3 & H4) & _ & _)].
    + rewrite Ef. destruct Htree as [_ Hown]. destruct (Hown nd Lf) as (Ha & Hb & Hc).
      split; [exact Ha|]. split; [apply Hm1; [exact Ha | exact Hb] | exact Hc].
    + split_and!; [lia | lia | exact H3 | exact H4].
  - split_and!; [done | done | done | intros x Hx Hux; rewrite Eu; by apply Hm1 |].
    intros x Hx Hux Hpx Hn. rewrite Hcont. destruct (Z.eqb_spec x idx) as [->|Hne].
    + exfalso. apply Hn. split; [lia | by left].
    + apply Hc1; [done | done | done |]. intros (k & Hk & Heq & Hnz). apply Hn. split; [done|]. right. exists k.
      unfold in_range in Hk. split; [lia|]. rewrite level1_pk by done. by fold dbl.
  - intros nd Hl Huf. destruct (grown_node nd Hl) as [[Lf Ef]|((_ & Hn & _) & _)].
    + split; [exact Lf | symmetry; exact Ef].
    + rewrite Hn in Huf. discriminate.
Qed.
End grown_tree.

(** ** Growing, step by step *)

Lemma write_pointers_run f x (ps : list Z) : ok f -> 0 <= x < device_size f -> ~ priv x -> length ps = 128%nat ->
  exists g, write_pointers x ps f = Done (tt, g) /\ ok g /\ device_size g = device_size f /\ env g = env f /\
    free_map g = free_map f /\
    forall y, sector_of g y = if y =? x then words_to_bytes ps else sector_of f y.
Proof using AllocSpec0.
  intros Hf Hx Hp Hl. destruct (store_write_fs f x (words_to_bytes ps)) as (g & E & Hso & Hd & He & Hfm & Hc);
    [by apply ok_store | done | by apply words_sector_ok |].
  exists g. split_and!; try done. eapply ok_stable; [exact Hf | done..|].
  intros y Hy. rewrite Hc. by destruct (Z.eqb_spec y x) as [->|].
Qed.

(** Two states whose trees name the same sectors. *)
Lemma file_tree_shape f g s idx len :
  file_tree f s idx len -> device_size g = device_size f ->
  (forall nd, node_valid nd -> addr (sector_of g) s idx nd = addr (sector_of f) s idx nd) ->
  (forall k, len <= k -> k / 512 * 512 < len -> tree_byte (sector_of g) idx k = 0) ->
  (forall nd, live (sector_of f) s idx nd -> used g (addr (sector_of f) s idx nd) = true) ->
  file_tree g s idx len.
Proof.
  intros [(H1 & H2 & H3 & H4 & H5 & H6) Ho] Hd Ha Hb Hu.
  assert (forall nd, live (sector_of g) s idx nd -> live (sector_of f) s idx nd /\
    addr (sector_of g) s idx nd = addr (sector_of f) s idx nd) as El.
  { intros nd [Hv Hl]. rewrite Ha in Hl by done. split; [by split | by apply Ha]. }
  split; [split_and!|].
  - apply H1. - apply H1. - done.
  - intros i Hi. pose proof (Ha (Ind i) Hi) as E. simpl in E. rewrite E. by apply H3.
  - intros i j Hi Hj. pose proof (Ha (Dat i j) (conj Hi Hj)) as E. simpl in E. rewrite E. by apply H4.
  - intros a b [La Ea]%El [Lb Eb]%El Heq. apply H5; [done | done | congruence].
  - exact Hb.
  - intros nd [Hl ->]%El. rewrite Hd. destruct (Ho nd Hl) as (? & ? & ?). split_and!; [lia | lia | by apply Hu | done].
Qed.

Lemma file_tree_ext f g s idx len :
  file_tree f s idx len -> device_size g = device_size f ->
  (forall nd, node_valid nd -> addr (sector_of g) s idx nd = addr (sector_of f) s idx nd) ->
  (forall i j, 0 <= i < 128 -> 0 <= j < 128 -> level2 (sector_of f) idx i j <> 0 ->
     sector_of g (level2 (sector_of f) idx i j) = sector_of f (level2 (sector_of f) idx i j)) ->
  (forall nd, live (sector_of f) s idx nd -> used g (addr (sector_of f) s idx nd) = true) ->
  file_tree g s idx len /\
  (forall k, 0 <= k -> k / 512 * 512 < len -> tree_byte (sector_of g) idx k = tree_byte (sector_of f) idx k).
Proof.
  intros Ht Hd Ha Hc Hu. pose proof Ht as [(H1 & _ & _ & H4 & _ & H6) _].
  assert (forall k, 0 <= k -> k / 512 * 512 < len -> tree_byte (sector_of g) idx k = tree_byte (sector_of f) idx k) as Hb.
  { intros k Hk Hlt. destruct (byte_pos k Hk) as (Hi & Hj & Eb); [lia|]. unfold tree_byte.
    pose proof (Ha (Dat (k / level1_bytes) (k / 512 mod 128)) (conj Hi Hj)) as E. simpl in E. rewrite E.
    rewrite Hc; [reflexivity | exact Hi | exact Hj |]. apply H4; [exact Hi | exact Hj |]. unfold bound2 in Eb. lia. }
  split; [|exact Hb]. eapply file_tree_shape; [exact Ht | exact Hd | exact Ha | | exact Hu].
  intros k Hk Hlt. rewrite Hb by lia. by apply H6.
Qed.

(** Steps that write no sector of a file's tree and only add sectors leave the
    file alone. *)
Lemma file_tree_frame f g s idx len :
  file_tree f s idx len -> device_size g = device_size f ->
  (forall nd, live (sector_of f) s idx nd ->
     used g (addr (sector_of f) s idx nd) = true /\
     sector_of g (addr (sector_of f) s idx nd) = sector_of f (addr (sector_of f) s idx nd)) ->
  file_tree g s idx len /\
  (forall k, 0 <= k -> k / 512 * 512 < len -> tree_byte (sector_of g) idx k = tree_byte (sector_of f) idx k).
Proof.
  intros Ht Hd Hf.
  assert (forall i, 0 <= i < 128 -> level1 (sector_of g) idx i = level1 (sector_of f) idx i) as E1.
  { intros i Hi. unfold level1. destruct (Z.eqb_spec idx 0) as [|Hne]; [done|].
    destruct (Hf Root) as [_ E]; [by apply tree_root|]. simpl in E. by rewrite E. }
  assert (forall i j, 0 <= i < 128 -> level2 (sector_of g) idx i j = level2 (sector_of f) idx i j) as E2.
  { intros i j Hi. unfold level2. rewrite E1 by done. destruct (Z.eqb_spec (level1 (sector_of f) idx i) 0) as [|Hne]; [done|].
    destruct (Hf (Ind i)) as [_ E]; [split; [exact Hi | by right]|]. simpl in E. by rewrite E. }
  apply (file_tree_ext f); [done | done | | | intros nd Hl; by apply Hf].
  - intros [| |i|i j] Hv; simpl; [done | done | by apply E1 | destruct Hv; by apply E2].
  - intros i j Hi Hj Hne. apply (Hf (Dat i j)). split; [split; [exact Hi | exact Hj] | by right].
Qed.

Lemma quiet_file_tree f g s idx len : quiet f g -> file_tree f s idx len -> file_tree g s idx len.
Proof.
  intros (_ & Hd & _ & Hm & Hc) Ht. apply (file_tree_frame f); [done | done |].
  intros nd Hl. rewrite Hc. split; [|done]. unfold used. rewrite Hm. by apply Ht.
Qed.

(** Reading changes nothing. *)
Section quiet.
Context (f g : fs St).
Hypothesis Hq : quiet f g.

Lemma quiet_sector x : sector_of g x = sector_of f x.
Proof using Hq. apply Hq. Qed.

Lemma quiet_used x : used g x = used f x.
Proof using Hq. destruct Hq as (_ & _ & _ & Hm & _). unfold used. by rewrite Hm. Qed.

Lemma quiet_ptr2 x j : ptr2 g x j = ptr2 f x j.
Proof using Hq. unfold ptr2. by rewrite quiet_sector. Qed.

Lemma quiet_naddr dbl nd : naddr g dbl nd = naddr f dbl nd.
Proof using Hq. destruct nd; simpl; [done.. | apply quiet_ptr2]. Qed.

Lemma quiet_level1 idx i : level1 (sector_of g) idx i = level1 (sector_of f) idx i.
Proof using Hq. unfold level1. by rewrite quiet_sector. Qed.

Lemma quiet_addr s idx nd : addr (sector_of g) s idx nd = addr (sector_of f) s idx nd.
Proof using Hq. destruct nd; simpl; [done | done | apply quiet_level1 |]. unfold level2. by rewrite quiet_level1, quiet_sector. Qed.

Lemma quiet_byte idx k : tree_byte (sector_of g) idx k = tree_byte (sector_of f) idx k.
Proof using Hq. unfold tree_byte, level2. by rewrite quiet_level1, !quiet_sector. Qed.

Lemma quiet_grown_from W h : grown W g h -> grown W f h.
Proof using Hq.
  intros (H1 & H2 & H3 & H4 & H5). destruct Hq as (_ & Hd & He & _). rewrite Hd in *.
  split_and!; [done | done | congruence | |].
  - intros x. rewrite <- quiet_used. apply H4.
  - intros x. rewrite <- quiet_used, <- quiet_sector. apply H5.
Qed.

Lemma quiet_partial_from h i n dbl :
  level1_partial (priv := priv) g h i n dbl -> level1_partial (priv := priv) f h i n dbl.
Proof using Hq.
  intros [H1 H2]. destruct Hq as (_ & Hd & _). split.
  - intros k j. rewrite <- quiet_ptr2. unfold fresh. rewrite <- quiet_used, <- Hd. apply H1.
  - intros k j k' j'. rewrite <- quiet_used. apply H2.
Qed.
End quiet.

Lemma resize_tree_grow rb f s d idx len size :
  ok f -> sector_ok d -> d_indirect d = idx -> idx <> 0 -> file_tree f s idx len ->
  len <= size <= MAX_FILE_BYTES -> 0 < size ->
  (exists g, resize_tree al rb d size f = Done ((true, set_length size d), g) /\
     file_tree g s idx size /\
     (forall k, 0 <= k -> k / 512 * 512 < size ->
        tree_byte (sector_of g) idx k = if k <? len then tree_byte (sector_of f) idx k else 0) /\
     grown (pointer_sector f s idx) f g /\ extends f g s idx idx) \/
  (exists g, resize_tree al rb d size f = rb d g /\
     grown (rewritten (pointers (sector_of f idx)) 0 128) f g /\ full g /\
     level1_partial (priv := priv) f g 0 128 (pointers (sector_of f idx))).
Proof using AllocSpec0.
  intros Hf Hd Eidx Hidx Htree Hsize Hpos. unfold resize_tree. rewrite Eidx.
  destruct (root_facts f s idx len Htree Hidx) as (Hr & Hu & Hp).
  destruct (read_pointers_run f idx) as (f1 & E1 & Hq); [by apply ok_store | lia |].
  rewrite (bind_done _ _ _ _ _ E1). pose proof (quiet_grown none f f1 Hf Hq) as Hg1.
  assert (ok f1) as Hok1 by apply Hg1. pose proof (quiet_file_tree _ _ _ _ _ Hq Htree) as Htree1.
  pose proof Hq as (_ & Hd1 & He1 & Hm1 & Hc1).
  assert (level1_pre (priv := priv) f1 size 0 128 (pointers (sector_of f idx))) as Hpre.
  { rewrite <- Hc1. eapply tree_level1_pre; [exact Htree1 | done | lia]. }
  destruct (resize_level1_grow size 128 0 _ f1 Hok1 Hpre) as (r & g1 & E2 & Hgr & Hpost).
  rewrite (bind_done _ _ _ _ _ E2). destruct r as [dbl'|].
  - left. pose proof Hgr as (Hokg1 & Hdg1 & Heg1 & _). pose proof Hpost as (Hl' & _).
    destruct (write_pointers_run g1 idx dbl') as (g & E3 & Hokg & Hdg & Heg & Hmg & Hcg); [done | lia | done | done |].
    rewrite (bind_done _ _ _ _ _ E3). rewrite (proj2 (Z.eqb_neq size 0)) by lia. rewrite bind_ret.
    exists g. split; [done|]. rewrite <- Hc1 in Hgr, Hpost.
    assert (device_size g = device_size f1) as Hdev by congruence. assert (env g = env f1) as Henv by congruence.
    destruct (grown_file f1 g1 g s idx len size dbl' Hok1 Htree1 Hidx Hsize Hgr Hpost Hokg Hdev Henv Hmg Hcg)
      as (Ht & Hb & Hgf & Hex).
    split; [exact Ht|]. split; [|split].
    + intros k Hk Hkb. rewrite Hb by done. by rewrite (quiet_byte f f1 Hq).
    + eapply grown_weaken; [|by eapply quiet_grown_from]. intros x [Hnz Hor]. split; [done|].
      destruct Hor as [|(k & Hk & ->)]; [by left|]. right. exists k. by rewrite (quiet_level1 f f1 Hq).
    + intros nd Hl Huf. destruct (Hex nd Hl) as [Hl1 Ea1]; [by rewrite (quiet_used f f1 Hq)|].
      rewrite (quiet_addr f f1 Hq) in Ea1. split; [|exact Ea1]. destruct Hl1 as [Hv Hnz]. split; [exact Hv|].
      by rewrite (quiet_addr f f1 Hq) in Hnz.
  - right. exists g1. destruct Hpost as [Hfull Hpart].
    split_and!; [done | by eapply quiet_grown_from | done | by eapply quiet_partial_from].
Qed.
End resize.
