(* ===== verification/InodeRollback.v ===== *)
(** * Rolling back and deleting

    [inode_resize] to a length the committed pointers already cover: after a
    growth ran out of sectors it restores the file, and to length zero it
    releases everything below the inode.  The last section puts growth and
    roll back together. *)

From stdpp Require Import options.
From S2P Require Import Prelude Bytes Bitmap Block Store Inode InodeTree InodeGrow InodeShrink InodeResize.
Local Open Scope Z_scope.
Local Open Scope kernel_scope.

Section shrink_tree.
Context {St : Type} `{!SectorStore St} {al : allocator St} {priv : Z -> Prop} {ok : fs St -> Prop}.
Context `{!AllocSpec al priv ok} `{!ReleaseSpec al priv ok}.
Implicit Types (f g h : fs St) (x s i j k idx len size : Z) (d : list Z) (nd : node).
Abbreviation grown := (grown (priv := priv) (ok := ok)).
Abbreviation shrunk := (shrunk (priv := priv) (ok := ok)).
Abbreviation file_tree := (file_tree (priv := priv)).

(** The sectors a shrink to [size] releases below the doubly indirect sector
    [idx] with pointers [dbl], and that sector itself when nothing is left. *)
Definition dead (f : fs St) (dbl : list Z) (size idx x : Z) : Prop :=
  dead1 f dbl size 0 128 x \/ (size = 0 /\ x = idx).

Definition shrunk_inode (size : Z) (d : list Z) : list Z :=
  set_length size (if size =? 0 then set_indirect 0 d else d).

Lemma whole_no_idx f size idx dbl :
  level1_whole (priv := priv) f size 0 128 dbl ->
  (forall nd, node_in 0 128 nd -> naddr f dbl nd <> 0 -> naddr f dbl nd <> idx) -> ~ dead1 f dbl size 0 128 idx.
Proof.
  intros Hw Hne (k & Hk & Hd)%dead1_spec. destruct (entry_dead_node _ _ _ _ _ _ _ Hk Hd) as (Hnz & nd & Hin & E & _).
  apply (Hne nd Hin); congruence.
Qed.

(** ** Reading changes nothing *)

Section quiet.
Context (f g : fs St).
Hypothesis Hq : quiet f g.

Lemma quiet_whole size i n dbl :
  level1_whole (priv := priv) f size i n dbl -> level1_whole (priv := priv) g size i n dbl.
Proof using Hq.
  intros (H1 & H2 & H3 & H4 & H5 & H6 & H7). destruct Hq as (_ & Hd & _).
  split_and!; [exact H1 | exact H2 | exact H3 | exact H4 | | |].
  - intros k j. rewrite (quiet_ptr2 f g Hq). apply H5.
  - intros nd. rewrite (quiet_naddr f g Hq), Hd, (quiet_used f g Hq). apply H6.
  - intros a b. rewrite !(quiet_naddr f g Hq). apply H7.
Qed.

Lemma quiet_dead1 dbl size i n x : dead1 g dbl size i n x <-> dead1 f dbl size i n x.
Proof using Hq.
  rewrite !dead1_spec. unfold entry_dead. by setoid_rewrite (quiet_sector f g Hq).
Qed.
End quiet.

(** The end of [resize_tree], once the loop has run. *)
Lemma shrink_finish f1 g1 d idx size (dbl dbl' : list Z) :
  d_indirect d = idx -> 0 < idx < device_size f1 -> used f1 idx = true -> ~ priv idx ->
  ~ dead1 f1 dbl size 0 128 idx -> level1_shrunk (priv := priv) (ok := ok) f1 g1 size 0 128 dbl dbl' ->
  exists g, (write_pointers idx dbl' ;;
      let! d := (if size =? 0 then release al idx 1 ;; ret (set_indirect 0 d) else ret d) in
      ret (true, set_length size d)) g1 = Done ((true, shrunk_inode size d), g) /\
    shrunk (fun x => x = idx \/ rewritten dbl 0 128 x) (dead f1 dbl size idx) f1 g /\
    (forall x, ~ priv x -> sector_of g x = if x =? idx then words_to_bytes dbl' else sector_of g1 x).
Proof using AllocSpec0 ReleaseSpec0.
  intros Eidx Hidx Hu Hp Hnd (Hs & Hl' & _). pose proof Hs as (Hok1 & Hd1 & He1 & HR1 & HU1 & Hc1).
  destruct (write_pointers_run g1 idx dbl') as (g & E & Hok & Hd & He & Hm & Hc); [done | lia | done | done |].
  rewrite (bind_done _ _ _ _ _ E).
  assert (shrunk (fun x => x = idx \/ rewritten dbl 0 128 x) (dead1 f1 dbl size 0 128) f1 g) as Hsg.
  { split_and!; [done | congruence | congruence | | |].
    - intros x Hx HR. unfold used. rewrite Hm. by apply HR1.
    - intros x Hx HR. unfold used. rewrite Hm. by apply HU1.
    - intros x Hpx Hn. rewrite Hc. destruct (Z.eqb_spec x idx); [tauto|]. apply Hc1; [done | tauto]. }
  unfold shrunk_inode. destruct (Z.eqb_spec size 0) as [->|Hne].
  - destruct (release_shrunk g idx Hok) as (h & Er & Hsr); [lia | | done |].
    { unfold used. rewrite Hm. fold (used g1 idx). rewrite HU1; [done | lia | done]. }
    erewrite bind_done by (erewrite bind_done by exact Er; reflexivity). exists h. split; [done|]. split.
    + apply (shrunk_weaken (fun x => x = idx \/ rewritten dbl 0 128 x) _ (fun x => dead1 f1 dbl 0 0 128 x \/ x = idx)); [done | |].
      * intros x. unfold dead. tauto.
      * eapply shrunk_trans; [apply _ | exact Hsg |]. eapply shrunk_weaken; [| |exact Hsr]; [by intros ? [] | done].
    + intros x Hx. destruct Hsr as (_ & _ & _ & _ & _ & Hcr). rewrite Hcr, Hc; [done | done | by intros []].
  - rewrite bind_ret. exists g. split; [done|]. split; [|intros x _; apply Hc].
    eapply shrunk_weaken; [| | exact Hsg]; [done|]. intros x. unfold dead. tauto.
Qed.

Lemma resize_tree_shrink rb f d idx size :
  ok f -> d_indirect d = idx -> 0 < idx < device_size f -> used f idx = true -> ~ priv idx ->
  level1_whole (priv := priv) f size 0 128 (pointers (sector_of f idx)) ->
  (forall nd, node_in 0 128 nd -> naddr f (pointers (sector_of f idx)) nd <> 0 ->
     naddr f (pointers (sector_of f idx)) nd <> idx) ->
  exists g, resize_tree al rb d size f = Done ((true, shrunk_inode size d), g) /\
    shrunk (fun x => x = idx \/ rewritten (pointers (sector_of f idx)) 0 128 x)
      (dead f (pointers (sector_of f idx)) size idx) f g /\
    (forall k, 0 <= k < 128 -> level1 (sector_of g) idx k =
       if size <=? k * level1_bytes then 0 else level1 (sector_of f) idx k) /\
    (forall k j, 0 <= k < 128 -> 0 <= j < 128 -> k * level1_bytes < size ->
       level2 (sector_of g) idx k j = if size <=? bound2 k j then 0 else level2 (sector_of f) idx k j).
Proof using AllocSpec0 ReleaseSpec0.
  intros Hf Eidx Hidx Hu Hp Hw Hne. unfold resize_tree. rewrite Eidx. set (dbl := pointers (sector_of f idx)) in *.
  destruct (read_pointers_run f idx) as (f1 & E1 & Hq); [by apply ok_store | lia |]. fold dbl in E1.
  rewrite (bind_done _ _ _ _ _ E1). pose proof (quiet_shrunk none f f1 Hf Hq) as Hs1.
  assert (ok f1) as Hok1 by apply Hs1. pose proof (quiet_whole f f1 Hq _ _ _ _ Hw) as Hw1.
  assert (device_size f1 = device_size f) as Hd1 by apply Hq.
  destruct (resize_level1_shrink size 128 0 dbl f1 Hok1 Hw1) as (dbl' & g1 & E2 & Hsh).
  rewrite (bind_done _ _ _ _ _ E2). pose proof (whole_no_idx f size idx dbl Hw Hne) as Hnd.
  destruct (shrink_finish f1 g1 d idx size dbl dbl' Eidx) as (g & E3 & Hs & Hc); [lia | by rewrite (quiet_used f f1 Hq) | done | | done |].
  { by rewrite (quiet_dead1 f f1 Hq). }
  exists g. split; [done|]. pose proof Hsh as (_ & Hl' & Hpk & Hptr).
  assert (Forall is_u32 dbl') as Hu32.
  { apply pk_forall. intros k Hk. rewrite Hpk by lia. destruct (_ && _); [unfold is_u32; lia|].
    apply pk_u32, pointers_u32, contents_ok. by apply ok_store. }
  assert (forall k, 0 <= k < 128 -> level1 (sector_of g) idx k = if size <=? k * level1_bytes then 0 else pk dbl k) as E1'.
  { intros k Hk. rewrite level1_pk by lia. rewrite Hc, Z.eqb_refl, pointers_words, Hpk by done.
    rewrite bool_decide_true by (unfold in_range; lia). done. }
  split; [|split].
  - eapply shrunk_weaken; [| | eapply shrunk_trans; [| | exact Hs]; [|eapply shrunk_weaken; [| |exact Hs1]]]; try done.
    + intros x. cbv beta. unfold dead. rewrite (quiet_dead1 f f1 Hq). tauto.
    + intros x. unfold dead. apply _.
  - intros k Hk. rewrite E1' by done. by rewrite level1_pk by lia.
  - intros k j Hk Hj Hlt. rewrite !level2_ptr2, E1', level1_pk by (done || lia). fold dbl.
    rewrite (proj2 (Z.leb_gt _ _)) by lia. rewrite <- (quiet_ptr2 f f1 Hq). rewrite <- Hptr; [|by apply range128 | done | done].
    unfold ptr2. destruct (Z.eqb_spec (pk dbl k) 0) as [|Hnz]; [done|].
    assert (node_in 0 128 (Ind k)) as Hin by by apply range128.
    rewrite Hc; [|by apply (proj1 (proj2 (proj2 (proj2 (proj2 (proj2 Hw))))) (Ind k))].
    by rewrite (proj2 (Z.eqb_neq _ _)) by by apply (Hne (Ind k)).
Qed.

(** ** The tree after a growth that failed *)

Section failed.
Context (f g : fs St) (s idx len : Z).
Hypothesis Htree : file_tree f s idx len.
Hypothesis Hidx : idx <> 0.
Let dbl := pointers (sector_of f idx).
Hypothesis Hgrown : grown (rewritten dbl 0 128) f g.
Hypothesis Hpart : level1_partial (priv := priv) f g 0 128 dbl.

Lemma old_node nd : node_in 0 128 nd -> naddr f dbl nd <> 0 ->
  live (sector_of f) s idx nd /\ naddr f dbl nd = addr (sector_of f) s idx nd.
Proof using Hidx.
  intros Hin Hnz. destruct nd as [| |k|k j]; try (by exfalso); simpl in *.
  - unfold in_range in Hin. split; [apply tree_ind; [done | lia | exact Hnz] | by rewrite level1_pk].
  - destruct Hin as [Hk Hj]. unfold in_range in Hk.
    split; [apply tree_dat; [done | lia | done | exact Hnz] | by rewrite level2_ptr2, level1_pk].
Qed.

Lemma failed_node nd : node_in 0 128 nd ->
  naddr g dbl nd = naddr f dbl nd \/ (exists k j, nd = Dat k j) /\ fresh (priv := priv) f g (naddr g dbl nd).
Proof using Hpart.
  intros Hin. destruct nd as [| |k|k j]; [by left.. |]. destruct Hin as [Hk Hj].
  destruct Hpart as [HP _]. destruct (HP k j Hk Hj) as [E|[_ Hfr]]; [by left | right]. split; [by exists k, j | done].
Qed.

Lemma failed_node_facts nd : node_in 0 128 nd -> naddr g dbl nd <> 0 ->
  0 < naddr g dbl nd < device_size g /\ used g (naddr g dbl nd) = true /\ ~ priv (naddr g dbl nd) /\
  naddr g dbl nd <> idx.
Proof using Htree Hidx Hpart Hgrown.
  intros Hin Hnz. destruct Hgrown as (_ & Hd & _ & Hm & _). rewrite Hd. destruct Htree as [(_ & _ & _ & _ & Hinj & _) Hown].
  destruct (root_facts f s idx len Htree Hidx) as (_ & Hur & _).
  destruct (failed_node nd Hin) as [E|[_ (H1 & H2 & H3 & H4)]]; [|split_and!; [lia | lia | done | done | congruence]].
  rewrite E in *. destruct (old_node nd Hin Hnz) as [Hl Ea]. destruct (Hown nd Hl) as (H1 & H2 & H3). rewrite Ea in *.
  split_and!; [lia | lia | by apply Hm | done |]. intros Heq.
  assert (nd = Root) as ->; [|done]. apply Hinj; [done | by apply tree_root | done].
Qed.

Lemma failed_inj a b : node_in 0 128 a -> node_in 0 128 b -> naddr g dbl a = naddr g dbl b -> naddr g dbl a <> 0 -> a = b.
Proof using Htree Hidx Hpart.
  intros Ha Hb Heq Hnz. destruct Htree as [(_ & _ & _ & _ & Hinj & _) Hown].
  assert (forall nd, node_in 0 128 nd -> naddr f dbl nd <> 0 -> used f (naddr f dbl nd) = true) as Hu.
  { intros nd Hin Hne. destruct (old_node nd Hin Hne) as [Hl ->]. by apply Hown. }
  destruct (failed_node a Ha) as [Ea|[(k & j & ->) (_ & Na & _)]], (failed_node b Hb) as [Eb|[(k' & j' & ->) (_ & Nb & _)]].
  - destruct (old_node a Ha) as [La Aa]; [congruence|]. destruct (old_node b Hb) as [Lb Ab]; [congruence|].
    apply Hinj; [done | done | congruence].
  - rewrite <- Heq, Ea, Hu in Nb; [done | done | congruence].
  - rewrite Heq, Eb, Hu in Na; [done | done | congruence].
  - destruct Ha as [Hk Hj], Hb as [Hk' Hj']. destruct Hpart as [_ HD]. by destruct (HD k j k' j') as [-> ->].
Qed.

Lemma failed_whole : level1_whole (priv := priv) g len 0 128 dbl.
Proof using Htree Hidx Hpart Hgrown.
  pose proof Htree as [(_ & _ & H1 & H2 & _) _]. unfold level1_whole. split_and!; [apply length_pointers | lia | lia | | | |].
  - intros k Hk Hlt. unfold in_range in Hk. specialize (H1 k). rewrite level1_pk in H1 by done. apply H1; lia.
  - intros k j Hk Hj Hp Hlt. assert (0 <= k < 128) as Hk' by (unfold in_range in Hk; lia).
    specialize (H2 k j Hk' Hj). rewrite level2_ptr2, level1_pk in H2 by done. fold dbl in H2.
    apply H2 in Hlt. destruct (failed_node (Dat k j)) as [E|[_ (? & _)]]; [done | | simpl in *; lia].
    simpl in E. by rewrite E.
  - intros nd Hin Hnz. destruct (failed_node_facts nd Hin Hnz) as (? & ? & ? & _). done.
  - apply failed_inj.
Qed.

Lemma failed_root : sector_of g idx = sector_of f idx.
Proof using Htree Hidx Hgrown.
  destruct (root_facts f s idx len Htree Hidx) as (Hr & Hur & Hpr). destruct Hgrown as (_ & _ & _ & _ & Hsame).
  apply Hsame; [lia | done | done |]. intros (k & Hk & Heq & Hnz). unfold in_range in Hk.
  destruct Htree as [(_ & _ & _ & _ & Hinj & _) _]. assert (Ind k = Root); [|done].
  apply Hinj; [apply tree_ind; [done | lia | fold dbl; congruence] | by apply tree_root |].
  simpl. by rewrite level1_pk.
Qed.

Lemma failed_level1 k : level1 (sector_of g) idx k = level1 (sector_of f) idx k.
Proof using Htree Hidx Hgrown. rewrite !level1_pk by done. by rewrite failed_root. Qed.

(** What the roll back releases was free before the growth. *)
Lemma failed_dead x : 0 < len -> dead g dbl len idx x -> used f x = false.
Proof using Htree Hidx Hgrown Hpart.
  intros Hpos [(k & Hk & Hnz & Hd)%dead1_spec|[? _]]; [|lia].
  assert (0 <= k < 128) as Hk' by (unfold in_range in Hk; lia). destruct Htree as [(_ & _ & H1 & H2 & _) _].
  assert (k * level1_bytes < len) as Hlt by (apply H1; [done | by rewrite level1_pk]).
  destruct Hd as [[? _]|(j & Hj & Hb & Ex & Hx)%dead2_spec]; [lia|].
  assert (0 <= j < 128) as Hj' by (unfold in_range in Hj; lia). specialize (H2 k j Hk' Hj').
  assert (naddr g dbl (Dat k j) = x) as En by (simpl; unfold ptr2; by rewrite (proj2 (Z.eqb_neq _ _) Hnz)).
  destruct (failed_node (Dat k j)) as [E|[_ (_ & Hn & _)]]; [done | | congruence].
  rewrite level2_ptr2, level1_pk in H2 by done. fold dbl in H2. simpl in E, En.
  assert (bound2 k j < len) by (apply H2; congruence). lia.
Qed.

Section rolled_back.
Context (h : fs St).
Hypothesis Hpos : 0 < len.
Hypothesis Hshrunk : shrunk (fun x => x = idx \/ rewritten dbl 0 128 x) (dead g dbl len idx) g h.
Hypothesis H1 : forall k, 0 <= k < 128 -> level1 (sector_of h) idx k =
  if len <=? k * level1_bytes then 0 else level1 (sector_of g) idx k.
Hypothesis H2 : forall k j, 0 <= k < 128 -> 0 <= j < 128 -> k * level1_bytes < len ->
  level2 (sector_of h) idx k j = if len <=? bound2 k j then 0 else level2 (sector_of g) idx k j.

Lemma rolled_level1 k : 0 <= k < 128 -> level1 (sector_of h) idx k = level1 (sector_of f) idx k.
Proof using Htree Hidx Hgrown H1.
  intros Hk. rewrite H1, failed_level1 by done. destruct (Z.leb_spec len (k * level1_bytes)) as [Hle|]; [|done].
  destruct Htree as [(_ & _ & Hn & _) _]. specialize (Hn k Hk).
  destruct (Z.eq_dec (level1 (sector_of f) idx k) 0) as [|Hne]; [done | apply Hn in Hne; lia].
Qed.

Lemma rolled_level2 k j : 0 <= k < 128 -> 0 <= j < 128 -> level2 (sector_of h) idx k j = level2 (sector_of f) idx k j.
Proof using Htree Hidx Hgrown Hpart H1 H2.
  intros Hk Hj. destruct Htree as [(_ & _ & Hn1 & Hn2 & _) _]. specialize (Hn1 k Hk). specialize (Hn2 k j Hk Hj).
  fold (bound2 k j) in Hn2. destruct (Z.lt_ge_cases (k * level1_bytes) len) as [Hlt|Hge].
  - rewrite H2 by done. destruct (Z.leb_spec len (bound2 k j)) as [Hle|Hlt2].
    + destruct (Z.eq_dec (level2 (sector_of f) idx k j) 0) as [|Hne]; [congruence | apply Hn2 in Hne; lia].
    + apply Hn2 in Hlt2. rewrite !level2_ptr2, failed_level1 in *. rewrite level1_pk in * by done. fold dbl in Hlt2 |- *.
      destruct Hpart as [HP _]. destruct (HP k j) as [E|[E _]]; [by apply range128 | done | exact E | congruence].
  - rewrite !level2_ptr2, rolled_level1 by done. destruct (Z.eq_dec (level1 (sector_of f) idx k) 0) as [->|Hne]; [done|].
    apply Hn1 in Hne. lia.
Qed.

(** A sector of data keeps its contents. *)
Lemma rolled_data k j : 0 <= k < 128 -> 0 <= j < 128 -> level2 (sector_of f) idx k j <> 0 ->
  sector_of h (level2 (sector_of f) idx k j) = sector_of f (level2 (sector_of f) idx k j).
Proof using Htree Hidx Hgrown Hshrunk.
  intros Hk Hj Hne. assert (live (sector_of f) s idx (Dat k j)) as Hl by (split; [split; [exact Hk | exact Hj] | by right]).
  destruct Htree as [(_ & _ & _ & _ & Hinj & _) Hown]. destruct (Hown _ Hl) as (Ha & Hb & Hc). simpl in *.
  assert (~ rewritten dbl 0 128 (level2 (sector_of f) idx k j)) as Hnr.
  { intros (i & Hi & Heq & Hni). unfold in_range in Hi. assert (Ind i = Dat k j); [|done].
    apply Hinj; [apply tree_ind; [done | lia | fold dbl; congruence] | done |]. simpl. by rewrite level1_pk. }
  destruct Hshrunk as (_ & _ & _ & _ & _ & Hs). destruct Hgrown as (_ & _ & _ & _ & Hs').
  rewrite Hs, Hs'; [done | exact Ha | exact Hb | exact Hc | exact Hnr | exact Hc |]. intros [Heq|Hr]; [|by apply Hnr].
  assert (Root = Dat k j); [|done]. apply Hinj; [by apply tree_root | done | done].
Qed.

Lemma rolled_back_file :
  file_tree h s idx len /\
  (forall k, 0 <= k -> k / 512 * 512 < len -> tree_byte (sector_of h) idx k = tree_byte (sector_of f) idx k) /\
  (forall nd, node_valid nd -> addr (sector_of h) s idx nd = addr (sector_of f) s idx nd) /\
  grown (pointer_sector f s idx) f h.
Proof using All.
  pose proof Hshrunk as (Hok & Hd & He & _ & HU & Hs). pose proof Hgrown as (_ & Hd' & He' & Hm & Hs').
  assert (forall x, 0 <= x < device_size f -> used f x = true -> used h x = true) as Huse.
  { intros x Hx Hux. rewrite HU, Hm; [done | done | done | lia |]. intros Hdx. apply failed_dead in Hdx; congruence. }
  assert (forall nd, node_valid nd -> addr (sector_of h) s idx nd = addr (sector_of f) s idx nd) as Ha.
  { intros [| |i|i j] Hv; simpl; [done | done | by apply rolled_level1 | destruct Hv; by apply rolled_level2]. }
  destruct (file_tree_ext (priv := priv) f h s idx len) as [Ht Hb].
  - done.
  - congruence.
  - exact Ha.
  - apply rolled_data.
  - intros nd Hl. destruct Htree as [_ Hown]. destruct (Hown nd Hl) as (? & ? & ?). by apply Huse.
  - split; [done | split; [done|]]. split; [exact Ha|]. split_and!; [done | congruence | congruence | done |].
    intros x Hx Hux Hp Hn. assert (~ rewritten dbl 0 128 x) as Hnr.
    { intros (k & Hk & Heq & Hnz). apply Hn. split; [done|]. right. exists k. unfold in_range in Hk.
      split; [lia | by rewrite level1_pk]. }
    rewrite Hs, Hs'; [done.. |]. intros [->|]; [|done]. apply Hn. by split; [|left].
Qed.
End rolled_back.
End failed.

(** ** [inode_resize] to a larger size *)

Lemma resize_back fuel f g s d idx len :
  file_tree f s idx len -> idx <> 0 -> d_indirect d = idx -> grown (rewritten (pointers (sector_of f idx)) 0 128) f g ->
  level1_partial (priv := priv) f g 0 128 (pointers (sector_of f idx)) ->
  exists h, inode_resize al (S fuel) d len g = Done ((true, shrunk_inode len d), h) /\
    shrunk (fun x => x = idx \/ rewritten (pointers (sector_of f idx)) 0 128 x)
      (dead g (pointers (sector_of f idx)) len idx) g h /\
    (0 < len -> file_tree h s idx len /\
       (forall k, 0 <= k -> k / 512 * 512 < len -> tree_byte (sector_of h) idx k = tree_byte (sector_of f) idx k) /\
       (forall nd, node_valid nd -> addr (sector_of h) s idx nd = addr (sector_of f) s idx nd) /\
       grown (pointer_sector f s idx) f h).
Proof using AllocSpec0 ReleaseSpec0.
  intros Ht Hidx Ed Hg Hp. simpl. rewrite Ed, (proj2 (Z.eqb_neq _ _) Hidx). simpl.
  destruct (root_facts f s idx len Ht Hidx) as (Hr & Hu & Hpr).
  pose proof Hg as (Hokg & Hd & _ & Hm & _).
  pose proof (failed_whole f g s idx len Ht Hidx Hg Hp) as Hw. pose proof (failed_root f g s idx len Ht Hidx Hg) as Er.
  rewrite <- Er in Hw. 
  destruct (resize_tree_shrink
    (fun d' => let! r := inode_resize al fuel d' (i32 (u32 (d_length d))) in ret (false, snd r)) g d idx len) as (h & E & Hs & H1 & H2).
  - done. - done. - lia. - apply Hm; [lia | done]. - done. - exact Hw.
  - intros nd Hin Hnz. rewrite Er in *. by apply (failed_node_facts f g s idx len Ht Hidx Hg Hp nd).
  - rewrite Er in Hs. exists h. split; [exact E|]. split; [exact Hs|]. intros Hpos.
    by apply (rolled_back_file f g s idx len Ht Hidx Hg Hp h).
Qed.

Lemma level1_empty f s idx len k : file_tree f s idx len -> len <= 0 -> 0 <= k < 128 -> level1 (sector_of f) idx k = 0.
Proof.
  intros [(_ & _ & H1 & _) _] Hlen Hk. destruct (Z.eq_dec (level1 (sector_of f) idx k) 0) as [|Hne]; [done|].
  apply H1 in Hne; [|done]. unfold level1_bytes in Hne. lia.
Qed.

Lemma rewritten_empty f s idx len x : file_tree f s idx len -> idx <> 0 -> len <= 0 ->
  ~ rewritten (pointers (sector_of f idx)) 0 128 x.
Proof.
  intros Ht Hidx Hlen (k & Hk & Heq & Hnz). unfold in_range in Hk. apply Hnz. rewrite <- Heq, <- level1_pk by done.
  eapply level1_empty; [exact Ht | done | lia].
Qed.

Lemma dead_empty f g s idx len size x : file_tree f s idx len -> idx <> 0 -> len <= 0 ->
  dead g (pointers (sector_of f idx)) size idx x -> size = 0 /\ x = idx.
Proof.
  intros Ht Hidx Hlen [(k & Hk & Hnz & _)%dead1_spec|?]; [|done]. exfalso. apply Hnz. unfold in_range in Hk.
  rewrite <- level1_pk by done. eapply level1_empty; [exact Ht | done | lia].
Qed.

(** The tree of a file whose doubly indirect sector was just added. *)
Lemma empty_tree f g s i : ok f -> file_tree f s 0 0 -> grown none f g -> fresh (priv := priv) f g i ->
  sector_of g i = blank_sector -> file_tree g s i 0.
Proof.
  intros Hf [_ Hown] (_ & Hd & _ & Hm & _) (Hi & Hn & Hu & Hp) Hb.
  destruct (Hown Self) as (Hs & Hus & Hps); [apply tree_self|]. simpl in *.
  assert (forall k, level1 (sector_of g) i k = 0) as E1.
  { intros k. rewrite level1_pk by lia. rewrite Hb. apply pk_blank. }
  assert (forall k j, level2 (sector_of g) i k j = 0) as E2 by (intros; unfold level2; by rewrite E1).
  assert (forall nd, live (sector_of g) s i nd -> nd = Self \/ nd = Root) as El.
  { intros [| |k|k j] [_ Hl]; [by left | by right | |]; exfalso; destruct Hl as [[=]|Hl]; apply Hl; simpl; done. }
  split; [split_and!|].
  - lia. - unfold MAX_FILE_BYTES. lia. - lia.
  - intros k Hk. rewrite E1. unfold level1_bytes. lia.
  - intros k j Hk Hj. rewrite E2. unfold level1_bytes. lia.
  - intros a b [->| ->]%El [->| ->]%El; simpl; try done; intros ->; congruence.
  - intros k H1 H2. pose proof (Z.div_pos k 512). lia.
  - intros nd [->| ->]%El; simpl; rewrite Hd; split_and!; try done; try lia. by apply Hm.
Qed.
End shrink_tree.
