(* ===== verification/InodeExtend.v ===== *)
(** * inode_resize, as its callers see it

    Growth with its roll back, and release of everything a deleted file holds,
    for the on-disk inode a caller passes and with the fuel [resize_depth]. *)

From stdpp Require Import options.
From S2P Require Import Prelude Bytes Bitmap Block Store Inode InodeTree InodeGrow InodeShrink InodeResize InodeRollback.
Local Open Scope Z_scope.
Local Open Scope kernel_scope.

Section extend.
Context {St : Type} `{!SectorStore St} {al : allocator St} {priv : Z -> Prop} {ok : fs St -> Prop}.
Context `{!AllocSpec al priv ok} `{!ReleaseSpec al priv ok}.
Implicit Types (f g h : fs St) (x s i j k idx len size : Z) (d : list Z) (nd : node).
Abbreviation grown := (grown (priv := priv) (ok := ok)).
Abbreviation shrunk := (shrunk (priv := priv) (ok := ok)).
Abbreviation file_tree := (file_tree (priv := priv)).

(** A growth to [size] that worked left the inode [d'] and the state [g]. *)
Definition grow_done (f g : fs St) (s : Z) (d d' : list Z) (size : Z) : Prop :=
  sector_ok d' /\ d_length d' = size /\ (d_isdir d' = d_isdir d /\ (d_indirect d <> 0 -> d_indirect d' = d_indirect d)) /\
  file_tree g s (d_indirect d') size /\
  (forall k, 0 <= k -> k / 512 * 512 < size ->
     tree_byte (sector_of g) (d_indirect d') k =
     if k <? d_length d then tree_byte (sector_of f) (d_indirect d) k else 0) /\
  grown (pointer_sector f s (d_indirect d)) f g /\
  extends f g s (d_indirect d) (d_indirect d').

(** The device ran full on the way. *)
Definition ran_full (f : fs St) (s idx : Z) : Prop := exists g', grown (pointer_sector f s idx) f g' /\ full g'.

(** The file is as it was. *)
Definition restored (f g : fs St) (s idx len : Z) : Prop :=
  file_tree g s idx len /\
  (forall k, 0 <= k -> k / 512 * 512 < len -> tree_byte (sector_of g) idx k = tree_byte (sector_of f) idx k) /\
  (forall nd, node_valid nd -> addr (sector_of g) s idx nd = addr (sector_of f) s idx nd) /\
  grown (pointer_sector f s idx) f g.

(** The doubly indirect sector [idx] was released, everything else in use is as
    it was. *)
Definition root_lost (f g : fs St) (idx : Z) : Prop :=
  ok g /\ device_size g = device_size f /\ env g = env f /\ used g idx = false /\
  (forall x, 0 <= x < device_size f -> used f x = true -> x <> idx -> used g x = true) /\
  (forall x, 0 <= x < device_size f -> used f x = true -> x <> idx -> ~ priv x -> sector_of g x = sector_of f x).

Definition grow_failed (f g : fs St) (s : Z) (d : list Z) : Prop :=
  ran_full f s (d_indirect d) /\
  if (d_length d =? 0) && negb (d_indirect d =? 0) then root_lost f g (d_indirect d)
  else restored f g s (d_indirect d) (d_length d).

Lemma rewritten_pointer f s idx x : idx <> 0 -> rewritten (pointers (sector_of f idx)) 0 128 x -> pointer_sector f s idx x.
Proof.
  intros Hidx (k & Hk & Heq & Hnz). split; [done|]. right. exists k. unfold in_range in Hk.
  split; [lia | by rewrite level1_pk].
Qed.

(** Growing below a doubly indirect sector that is there, the roll back
    included. *)
Lemma resize_rooted_grow fuel f s d size orig :
  ok f -> sector_ok d -> d_indirect d <> 0 -> file_tree f s (d_indirect d) orig -> is_i32 orig ->
  orig <= size <= MAX_FILE_BYTES -> 0 < size ->
  exists b d' g,
    resize_tree al (fun d => let! r := inode_resize al (S fuel) d orig in ret (false, snd r)) d size f
      = Done ((b, d'), g) /\
    if b : bool then
      d' = set_length size d /\ file_tree g s (d_indirect d) size /\
      (forall k, 0 <= k -> k / 512 * 512 < size -> tree_byte (sector_of g) (d_indirect d) k =
         if k <? orig then tree_byte (sector_of f) (d_indirect d) k else 0) /\
      grown (pointer_sector f s (d_indirect d)) f g /\ extends f g s (d_indirect d) (d_indirect d)
    else
      ran_full f s (d_indirect d) /\
      if orig =? 0 then root_lost f g (d_indirect d)
      else restored f g s (d_indirect d) orig.
Proof using AllocSpec0 ReleaseSpec0.
  intros Hf Hd Hidx Ht Hor Hsize Hpos. set (idx := d_indirect d) in *.
  destruct (resize_tree_grow (fun d => let! r := inode_resize al (S fuel) d orig in ret (false, snd r))
    f s d idx orig size) as [(g & E & H1 & H2 & H3 & H4)|(g & E & Hg & Hfull & Hp)]; try done.
  { exists true, (set_length size d), g. split; [exact E|]. split; [reflexivity|].
    split; [exact H1|]. split; [exact H2|]. split; [exact H3 | exact H4]. }
  destruct (resize_back fuel f g s d idx orig Ht Hidx eq_refl Hg Hp) as (h & E2 & Hs & Hback).
  rewrite E, (bind_done _ _ _ _ _ E2). exists false, (shrunk_inode orig d), h. split; [done|]. split.
  { exists g. split; [|done]. eapply grown_weaken; [|exact Hg]. intros x. by apply rewritten_pointer. }
  destruct (Z.eqb_spec orig 0) as [->|Hne].
  - destruct Hs as (Hok & Hdv & Hev & HR & HU & Hc). destruct Hg as (_ & Hdg & Heg & Hm & Hcg).
    destruct (root_facts f s idx 0 Ht Hidx) as (Hr & _ & _).
    split_and!; [done | congruence | congruence | apply HR; [lia | by right] | |].
    + intros x Hx Hux Hxi. rewrite HU; [by apply Hm | lia |]. 
      intros Hdx. by destruct (dead_empty f g s idx 0 0 x Ht Hidx ltac:(lia) Hdx).
    + intros x Hx Hux Hxi Hpx. pose proof (rewritten_empty f s idx 0 x Ht Hidx ltac:(lia)) as Hnr.
      rewrite Hc, Hcg; [done.. |]. intros [|]; done.
  - apply Hback. destruct Ht as [(? & _) _]. lia.
Qed.

(** The nodes of an empty file. *)
Lemma empty_nodes f s idx nd : file_tree f s idx 0 -> live (sector_of f) s idx nd -> nd = Self \/ nd = Root.
Proof.
  intros [(_ & _ & H1 & H2 & _) _] [Hv Hl]. destruct nd as [| |k|k j]; [by left | by right | |]; exfalso;
    (destruct Hl as [[=]|Hl]); simpl in Hl, Hv; unfold level1_bytes in *.
  - apply H1 in Hl; [lia | done].
  - destruct Hv as [Hk Hj]. apply H2 in Hl; [lia | done | done].
Qed.

Lemma tree_no_root f s len : file_tree f s 0 len -> len = 0.
Proof. intros [((? & ?) & Hnz & _) _]. destruct (Z.eq_dec len 0); [done|]. exfalso. apply Hnz; lia. Qed.

Lemma restored_rootless f g s : file_tree f s 0 0 -> grown none f g -> restored f g s 0 0.
Proof.
  intros Ht Hg. destruct Hg as (Hok & Hd & He & Hm & Hc).
  destruct (file_tree_frame (priv := priv) f g s 0 0 Ht Hd) as [Ht' Hb].
  { intros nd Hl. destruct Ht as [_ Hown]. destruct (Hown nd Hl) as (? & ? & ?). split; [by apply Hm|].
    apply Hc; [done | done | done | by intros []]. }
  split; [done|]. split; [done|]. split; [by intros []|]. split_and!; try done. intros x Hx Hu Hp _. apply Hc; [done | done | done | by intros []].
Qed.

(** One unfolding of [inode_resize], by the branch it takes. *)
Lemma inode_resize_nothing fuel d f : d_indirect d = 0 -> inode_resize al (S fuel) d 0 f = Done ((true, d), f).
Proof. intros E. simpl. by rewrite E. Qed.

Lemma inode_resize_rooted fuel d size f : d_indirect d <> 0 -> inode_resize al (S fuel) d size f =
  resize_tree al (fun d' => let! r := inode_resize al fuel d' (i32 (u32 (d_length d))) in ret (false, snd r)) d size f.
Proof. intros E. simpl. by rewrite (proj2 (Z.eqb_neq _ _) E). Qed.

Lemma inode_resize_unrooted fuel d size f : d_indirect d = 0 -> size <> 0 -> inode_resize al (S fuel) d size f =
  (let roll_back d' := let! r := inode_resize al fuel d' (i32 (u32 (d_length d))) in ret (false, snd r) in
   let! a := add_sector_to_file al in
   match a with
   | Some i => resize_tree al roll_back (set_indirect i d) size
   | None => roll_back d
   end) f.
Proof. intros E Hs. simpl. by rewrite E, (proj2 (Z.eqb_neq _ _) Hs). Qed.

(** With no doubly indirect sector the first step is to add one. *)
Lemma resize_unrooted_grow fuel f s d size :
  ok f -> sector_ok d -> d_indirect d = 0 -> d_length d = 0 -> file_tree f s 0 0 -> 0 < size <= MAX_FILE_BYTES ->
  exists b d' g, inode_resize al (S (S fuel)) d size f = Done ((b, d'), g) /\
    if b : bool then grow_done f g s d d' size else ran_full f s 0 /\ restored f g s 0 0.
Proof using AllocSpec0 ReleaseSpec0.
  intros Hf Hd Ei El Ht Hsize. rewrite inode_resize_unrooted, El by (done || lia). change (i32 (u32 0)) with 0.
  destruct (add_sector_run f Hf) as (r & f1 & E & Hg & Hr). cbv zeta.
  rewrite (bind_done _ _ _ _ _ E). destruct r as [i|].
  - destruct Hr as [Hfr Hb]. pose proof (empty_tree f f1 s i Hf Ht Hg Hfr Hb) as Ht1.
    assert (is_u32 i) as Hi32 by by eapply fresh_u32. assert (d_indirect (set_indirect i d) = i) as Ei' by by apply indirect_set_indirect.
    assert (i <> 0) as Hi0 by (destruct Hfr as (? & _); lia).
    destruct (resize_rooted_grow fuel f1 s (set_indirect i d) size 0) as (b & d' & g & E1 & Hb1).
    { apply Hg. } { by apply set_indirect_ok. } { congruence. } { by rewrite Ei'. } { unfold is_i32. lia. } { lia. } { lia. }
    rewrite Ei' in Hb1. exists b, d', g. split; [exact E1|].
    assert (forall x, used f x = true -> x <> i) as Hxi by (destruct Hfr as (_ & Hn & _); intros x Hx ->; congruence).
    assert (forall x, pointer_sector f1 s i x -> x = i) as Hps.
    { intros x [Hnz [|(k & Hk & ->)]]; [done|]. by rewrite (level1_empty f1 s i 0 k Ht1) in Hnz by lia. }
    assert (forall h, grown (pointer_sector f1 s i) f1 h -> grown none f h) as Hframe.
    { intros h (H1 & H2 & H3 & H4 & H5). destruct Hg as (G1 & G2 & G3 & G4 & G5). rewrite G2 in *.
      split_and!; [done | congruence | congruence | auto |]. intros x Hx Hu Hp _.
      rewrite H5, G5; try done; [by intros [] | by apply G4 | by intros ?%Hps%Hxi]. }
    destruct b.
    + destruct Hb1 as (-> & H1 & H2 & H3 & H4). unfold grow_done. rewrite El, Ei, indirect_set_length, Ei' by by apply set_indirect_ok.
      split; [by apply set_length_ok, set_indirect_ok|]. split.
      { apply length_set_length; [by apply set_indirect_ok | unfold is_i32, MAX_FILE_BYTES in *; lia]. }
      split; [split; [rewrite isdir_set_length by (by apply set_indirect_ok); by apply isdir_set_indirect | done]|].
      split; [exact H1|]. split; [|split].
      * intros k Hk Hks. rewrite H2 by done. by rewrite (proj2 (Z.ltb_ge k 0)) by lia.
      * eapply grown_weaken; [|by apply Hframe]. by intros x [].
      * intros nd Hl Huf. destruct Hg as (_ & G2 & _ & G4 & _). destruct H1 as [_ Hown]. destruct (Hown nd Hl) as (Hra & _).
        destruct H3 as (_ & D3 & _). destruct (H4 nd Hl) as [Hl1 Ea]; [apply G4; [lia | exact Huf]|].
        destruct (empty_nodes f1 s i nd Ht1 Hl1) as [->| ->]; [split; [apply tree_self | exact Ea]|].
        exfalso. apply (Hxi _ Huf). symmetry. exact Ea.
    + destruct Hb1 as [(g' & Hg' & Hfull) Hl]. simpl in Hl. split.
      { exists g'. split; [|done]. eapply grown_weaken; [|by apply Hframe]. by intros x []. }
      apply restored_rootless; [done|]. destruct Hl as (L1 & L2 & L3 & _ & L4 & L5). destruct Hg as (G1 & G2 & G3 & G4 & G5).
      rewrite G2 in *. split_and!; [done | congruence | congruence | |].
      * intros x Hx Hu. apply L4; [done | by apply G4 | by apply Hxi].
      * intros x Hx Hu Hp _. rewrite L5, G5; try done; [by intros [] | by apply G4 | by apply Hxi].
  - rewrite (bind_done _ _ _ _ _ (inode_resize_nothing fuel d f1 Ei)). exists false, d, f1. split; [done|].
    split; [|by apply restored_rootless]. exists f1. split; [|by eapply full_grown].
    eapply grown_weaken; [|exact Hg]. by intros x [].
Qed.

Lemma inode_resize_grow f s d size :
  ok f -> sector_ok d -> file_tree f s (d_indirect d) (d_length d) ->
  d_length d <= size <= MAX_FILE_BYTES -> 0 < size ->
  exists b d' g, inode_resize al resize_depth d size f = Done ((b, d'), g) /\
    if b : bool then grow_done f g s d d' size else grow_failed f g s d.
Proof using AllocSpec0 ReleaseSpec0.
  intros Hf Hd Ht Hsize Hpos. unfold grow_failed, resize_depth. destruct (Z.eq_dec (d_indirect d) 0) as [E|Hne].
  - rewrite E in *. pose proof (tree_no_root f s _ Ht) as El. rewrite El in *.
    destruct (resize_unrooted_grow 0 f s d size) as (b & d' & g & E1 & Hb); try done; [lia|].
    exists b, d', g. split; [done|]. by destruct b.
  - rewrite (proj2 (Z.eqb_neq (d_indirect d) 0)), inode_resize_rooted by done.
    assert (0 <= d_length d) as Hl0 by (destruct Ht as [(? & _) _]; lia).
    pose proof (d_length_i32 d) as Hl32. assert (i32 (u32 (d_length d)) = d_length d) as ->.
    { unfold i32, u32, is_i32 in *. rewrite (Z.mod_small (d_length d)) by lia. rewrite Z.mod_small; lia. }
    destruct (resize_rooted_grow 0 f s d size (d_length d)) as (b & d' & g & E1 & Hb); try done.
    exists b, d', g. split; [exact E1|]. rewrite andb_true_r. destruct b; [|exact Hb].
    destruct Hb as (-> & H1 & H2 & H3 & H4). unfold grow_done. rewrite indirect_set_length by done.
    split; [by apply set_length_ok|]. split; [|split; [split; [by apply isdir_set_length | done] | by split_and!]].
    apply length_set_length; [done | unfold is_i32, MAX_FILE_BYTES in *; lia].
Qed.

(** ** [inode_resize] to zero *)

(** Every sector below the inode is free again, nothing else is. *)
Definition freed (f g : fs St) (s idx : Z) : Prop :=
  ok g /\ device_size g = device_size f /\ env g = env f /\
  (forall nd, live (sector_of f) s idx nd -> nd <> Self -> used g (addr (sector_of f) s idx nd) = false) /\
  (forall x, 0 <= x < device_size f ->
     (forall nd, live (sector_of f) s idx nd -> nd <> Self -> addr (sector_of f) s idx nd <> x) -> used g x = used f x) /\
  (forall x, ~ priv x -> ~ pointer_sector f s idx x -> sector_of g x = sector_of f x).

Lemma tree_whole f s idx len : file_tree f s idx len -> idx <> 0 ->
  level1_whole (priv := priv) f 0 0 128 (pointers (sector_of f idx)) /\
  (forall nd, node_in 0 128 nd -> naddr f (pointers (sector_of f idx)) nd <> 0 ->
     naddr f (pointers (sector_of f idx)) nd <> idx).
Proof.
  intros Ht Hidx. destruct Ht as [(_ & _ & _ & _ & Hinj & _) Hown]. split.
  - unfold level1_whole. split_and!; [apply length_pointers | lia | lia | | | |].
    + unfold in_range, level1_bytes. lia.
    + unfold in_range, bound2, level1_bytes. lia.
    + intros nd Hin Hnz. destruct (old_node f s idx Hidx nd Hin Hnz) as [Hl Ea].
      destruct (Hown nd Hl) as (? & ? & ?). rewrite Ea in *. split_and!; [lia | lia | done | done].
    + intros a b Ha Hb Heq Hnz. destruct (old_node f s idx Hidx a Ha Hnz) as [La Ea].
      destruct (old_node f s idx Hidx b Hb) as [Lb Eb]; [congruence|]. apply Hinj; [done | done | congruence].
  - intros nd Hin Hnz Heq. destruct (old_node f s idx Hidx nd Hin Hnz) as [Hl Ea].
    assert (nd = Root) as ->; [|done]. apply Hinj; [done | by apply tree_root | simpl; congruence].
Qed.

Lemma dead_all f s idx x : idx <> 0 -> dead f (pointers (sector_of f idx)) 0 idx x <->
  exists nd, live (sector_of f) s idx nd /\ nd <> Self /\ addr (sector_of f) s idx nd = x.
Proof.
  intros Hidx. split.
  - intros [(k & Hk & Hd)%dead1_spec|[_ ->]].
    + destruct (entry_dead_node _ _ _ _ _ _ _ Hk Hd) as (Hnz & nd & Hin & E & _). rewrite <- E in Hnz.
      destruct (old_node f s idx Hidx nd Hin Hnz) as [Hl Ea]. exists nd. split; [done|].
      split; [by intros -> | congruence].
    + exists Root. by split; [apply tree_root|].
  - intros (nd & [Hv Hl] & Hns & <-). destruct nd as [| |k|k j]; [done | by right | |];
      left; apply dead1_spec; exists k; simpl in Hv, Hl |- *; (destruct Hl as [|Hl]; [done|]).
    + split; [by apply range128|]. unfold entry_dead. rewrite level1_pk in * by done. split; [done|]. left.
      split; [unfold level1_bytes; lia | done].
    + destruct Hv as [Hk Hj]. split; [by apply range128|]. unfold entry_dead. rewrite level2_ptr2, level1_pk in * by done.
      unfold ptr2 in *. destruct (Z.eqb_spec (pk (pointers (sector_of f idx)) k) 0) as [|Hnz]; [done|].
      split; [done|]. right. apply dead2_spec. exists j. unfold bound2, level1_bytes.
      split; [by apply range128 | split; [lia | done]].
Qed.

Lemma inode_resize_delete f s d :
  ok f -> sector_ok d -> file_tree f s (d_indirect d) (d_length d) ->
  exists d' g, inode_resize al resize_depth d 0 f = Done ((true, d'), g) /\
    sector_ok d' /\ d_indirect d' = 0 /\ d_length d' = 0 /\ freed f g s (d_indirect d).
Proof using AllocSpec0 ReleaseSpec0.
  intros Hf Hd Ht. unfold resize_depth. destruct (Z.eq_dec (d_indirect d) 0) as [E|Hne].
  - exists d, f. rewrite inode_resize_nothing by done. rewrite E in *. pose proof (tree_no_root f s _ Ht).
    split; [done|]. split; [done|]. split; [done|]. split; [done|]. split_and!; try done.
    intros [| |k|k j] [_ Hl] Hns; destruct Hl as [|Hl]; done.
  - rewrite inode_resize_rooted by done. destruct (tree_whole f s _ _ Ht Hne) as [Hw Hnn].
    destruct (root_facts f s _ _ Ht Hne) as (Hr & Hu & Hp).
    destruct (resize_tree_shrink
      (fun d' => let! r := inode_resize al 1 d' (i32 (u32 (d_length d))) in ret (false, snd r)) f d (d_indirect d) 0 Hf eq_refl Hr Hu Hp Hw Hnn) as (g & E & Hs & _).
    exists (shrunk_inode 0 d), g. split; [exact E|]. unfold shrunk_inode. simpl.
    split; [by apply set_length_ok, set_indirect_ok|].
    split; [rewrite indirect_set_length by (by apply set_indirect_ok); apply indirect_set_indirect; [done | unfold is_u32; lia]|].
    split; [apply length_set_length; [by apply set_indirect_ok | unfold is_i32; lia]|].
    destruct Hs as (H1 & H2 & H3 & H4 & H5 & H6). split_and!; [done | done | done | | |].
    + intros nd Hl Hns. destruct Ht as [_ Hown]. destruct (Hown nd Hl) as (? & _). apply H4; [done|].
      apply (dead_all f s); [done|]. by exists nd.
    + intros x Hx Hn. apply H5; [done|]. rewrite (dead_all f s) by done. intros (nd & Hl & Hns & Heq). by apply (Hn nd).
    + intros x Hpx Hn. apply H6; [done|]. intros [->|Hrw]; apply Hn; [by split; [|left] | by apply rewritten_pointer].
Qed.
End extend.
