(* ===== verification/InodeIO.v ===== *)
(** * Reading and writing a file

    [byte_to_sector] finds the sector of a byte, [inode_read_at] returns the
    bytes of the file, and [inode_write_at] within the length of the file sets
    the bytes it is given. *)

From stdpp Require Import options.
From S2P Require Import Prelude Bytes Bitmap Block Store Inode InodeTree InodeGrow InodeResize.
Local Open Scope Z_scope.
Local Open Scope kernel_scope.

(** ** The file at an inode sector *)

Section files.
Context {St : Type} `{!SectorStore St}.
Implicit Types (f g : fs St) (s k : Z).

Definition file_idx (f : fs St) (s : Z) : Z := d_indirect (sector_of f s).
Definition file_len (f : fs St) (s : Z) : Z := d_length (sector_of f s).
Definition file_byte (f : fs St) (s k : Z) : Z := tree_byte (sector_of f) (file_idx f s) k.

(** The sector of byte [k]. *)
Definition data_sector (f : fs St) (s k : Z) : Z :=
  level2 (sector_of f) (file_idx f s) (k / level1_bytes) (k / 512 mod 128).

Definition file_ok (priv : Z -> Prop) (f : fs St) (s : Z) : Prop :=
  file_tree (priv := priv) f s (file_idx f s) (file_len f s).

(** The bytes a read of [size] bytes at [offset] finds. *)
Definition file_slice (f : fs St) (s size offset : Z) : list Z :=
  map (file_byte f s) (seqZ offset (Z.min size (file_len f s - offset))).

Lemma file_byte_sector f s k : file_byte f s k = nth (Z.to_nat (k mod 512)) (sector_of f (data_sector f s k)) 0.
Proof. done. Qed.

(** Bytes of one sector. *)
Lemma data_sector_same f s k k' : k / 512 = k' / 512 -> data_sector f s k = data_sector f s k'.
Proof.
  intros E. unfold data_sector. replace level1_bytes with (512 * 128) by done. rewrite <- !Z.div_div by lia. by rewrite E.
Qed.
End files.

(** Bytes [ofs .. ofs + n) of a buffer, one by one. *)
Lemma slice_map (l : list Z) ofs n : 0 <= ofs -> 0 <= n -> ofs + n <= Z.of_nat (length l) ->
  slice (Z.to_nat ofs) (Z.to_nat n) l = map (fun k => nth (Z.to_nat k) l 0) (seqZ ofs n).
Proof.
  intros Ho Hn Hl. apply list_eq_same_length with (n := Z.to_nat n).
  - by rewrite length_map, length_seqZ.
  - apply length_slice. lia.
  - intros k a b Hk. rewrite lookup_slice, list_lookup_fmap, lookup_seqZ_lt by lia. simpl.
    intros Ha [= <-]. rewrite nth_lookup. replace (Z.to_nat (ofs + Z.of_nat k)) with (Z.to_nat ofs + k)%nat by lia.
    by rewrite Ha.
Qed.

Lemma in_sector offset t : 0 <= t < 512 - offset mod 512 ->
  (offset + t) / 512 = offset / 512 /\ (offset + t) mod 512 = offset mod 512 + t.
Proof.
  intros Ht. pose proof (Z.div_mod offset 512). pose proof (Z.mod_pos_bound offset 512).
  split; [symmetry; eapply Z.div_unique with (r := offset mod 512 + t) | symmetry; eapply Z.mod_unique with (q := offset / 512)]; lia.
Qed.

Lemma chunk_value len size offset : 0 <= offset < len -> len <= MAX_FILE_BYTES -> 0 < size ->
  chunk len size offset = Z.min size (Z.min (len - offset) (512 - offset mod 512)).
Proof.
  intros Ho Hl Hs. unfold chunk, BLOCK_SECTOR_SIZE. unfold MAX_FILE_BYTES in Hl. pose proof (Z.mod_pos_bound offset 512).
  rewrite (i32_small (len - offset)) by (unfold is_i32; lia). destruct (Z.ltb_spec (len - offset) (512 - offset mod 512)).
  - rewrite u32_small by lia. destruct (Z.ltb_spec size (len - offset)); rewrite i32_small by (unfold is_i32; lia); lia.
  - rewrite u32_small by lia. destruct (Z.ltb_spec size (512 - offset mod 512)); rewrite i32_small by (unfold is_i32; lia); lia.
Qed.

Lemma div_mul_le k : k / 512 * 512 <= k.
Proof. pose proof (Z.div_mod k 512). pose proof (Z.mod_pos_bound k 512). lia. Qed.

Section reading.
Context {St : Type} `{!SectorStore St} {priv : Z -> Prop}.
Context (p : Z) (ino : inode).
Let s := i_sector ino.
Implicit Types (f g : fs St).

(** The inode [p] is in memory and its file is well formed. *)
Definition opened (f : fs St) : Prop :=
  store_ok (store f) /\ device_size f < 2 ^ 32 /\ inodes f !! p = Some ino /\ file_ok priv f s.

Lemma quiet_opened f g : opened f -> quiet f g ->
  opened g /\ file_len g s = file_len f s /\ file_idx g s = file_idx f s /\ (forall k, file_byte g s k = file_byte f s k).
Proof.
  intros (Hs & Hd & Hi & Hf) Hq. pose proof Hq as (Hs' & Hd' & He & _ & Hc).
  assert (file_idx g s = file_idx f s) as Ei by (unfold file_idx; by rewrite Hc).
  assert (file_len g s = file_len f s) as El by (unfold file_len; by rewrite Hc).
  split; [|split; [exact El | split; [exact Ei|]]].
  - split; [exact Hs'|]. split; [lia|]. split.
    + assert (inodes g = inodes f) as -> by (unfold env in He; congruence). done.
    + unfold file_ok. rewrite Ei, El. by eapply quiet_file_tree.
  - intros k. unfold file_byte. rewrite Ei. by rewrite (quiet_byte f g Hq).
Qed.

Lemma load_inode_run f : opened f -> load_inode p f = Done (ino, f).
Proof. intros (_ & _ & Hi & _). unfold load_inode, bind, get. by rewrite Hi. Qed.

Lemma self_range f : opened f -> 0 <= s < device_size f.
Proof. intros (_ & _ & _ & [_ Ho]). apply (Ho Self). apply tree_self. Qed.

Lemma inode_length_run f : opened f -> exists g, inode_length p f = Done (file_len f s, g) /\ quiet f g.
Proof.
  intros Ho. unfold inode_length. rewrite (bind_done _ _ _ _ _ (load_inode_run f Ho)).
  destruct (store_read_fs f s) as (g & E & Hq); [apply Ho | by apply self_range |].
  rewrite (bind_done _ _ _ _ _ E). by exists g.
Qed.

Lemma file_length_bound f : opened f -> 0 <= file_len f s <= MAX_FILE_BYTES.
Proof. intros (_ & _ & _ & [(? & _) _]). done. Qed.

Lemma data_sector_range f k : opened f -> 0 <= k < file_len f s ->
  0 < data_sector f s k < device_size f /\ data_sector f s k <> SECTOR_NONE.
Proof.
  intros Ho Hk. pose proof (file_length_bound f Ho). pose proof Ho as (_ & Hd & _ & [(_ & _ & _ & H2 & _) Hown]).
  assert (k / 512 * 512 <= k) by (pose proof (Z.div_mod k 512); pose proof (Z.mod_pos_bound k 512); lia).
  destruct (byte_pos k) as (Hi & Hj & Eb); [lia | lia |].
  assert (data_sector f s k <> 0) as Hnz.
  { apply H2; [done | done |]. unfold bound2 in Eb. lia. }
  destruct (Hown (Dat (k / level1_bytes) (k / 512 mod 128))) as (Hr & _ & _); [split; [split; [exact Hi | exact Hj] | by right]|].
  fold (data_sector f s k) in Hnz. change (addr _ _ _ _) with (data_sector f s k) in Hr. unfold SECTOR_NONE. lia.
Qed.

Lemma byte_to_sector_run f pos : opened f -> 0 <= pos ->
  exists g, byte_to_sector p pos f = Done (if pos <? file_len f s then data_sector f s pos else SECTOR_NONE, g) /\ quiet f g.
Proof.
  intros Ho Hpos. unfold byte_to_sector. rewrite (bind_done _ _ _ _ _ (load_inode_run f Ho)).
  destruct (store_read_fs f s) as (g1 & E1 & Hq1); [apply Ho | by apply self_range |].
  rewrite (bind_done _ _ _ _ _ E1). fold (file_len f s). destruct (Z.ltb_spec pos (file_len f s)) as [Hlt|]; [|by exists g1].
  pose proof (file_length_bound f Ho) as Hmax. pose proof Ho as (Hs & _ & _ & Ht). pose proof Ht as [(_ & Hroot & H1 & H2 & _) Hown].
  assert (file_idx f s <> 0) as Hidx by (apply Hroot; lia).
  assert (pos / 512 * 512 <= pos) by (pose proof (Z.div_mod pos 512); pose proof (Z.mod_pos_bound pos 512); lia).
  destruct (byte_pos pos) as (Hi & Hj & Eb); [lia | lia |].
  assert (Z.quot (Z.quot pos BLOCK_SECTOR_SIZE) NUM_POINTERS = pos / level1_bytes) as ->.
  { unfold BLOCK_SECTOR_SIZE, NUM_POINTERS, level1_bytes. rewrite !Z.quot_div_nonneg by (lia || apply Z.quot_pos; lia).
    by rewrite Z.div_div by lia. }
  assert (Z.rem (Z.quot pos BLOCK_SECTOR_SIZE) NUM_POINTERS = pos / 512 mod 128) as ->.
  { unfold BLOCK_SECTOR_SIZE, NUM_POINTERS. rewrite Z.quot_div_nonneg, Z.rem_mod_nonneg by (lia || apply Z.div_pos; lia). done. }
  fold (file_idx f s). destruct (root_facts f s _ _ Ht Hidx) as (Hr & _).
  destruct (read_pointers_run g1 (file_idx f s)) as (g2 & E2 & Hq2); [apply Hq1 | destruct Hq1 as (_ & -> & _); lia |].
  rewrite (bind_done _ _ _ _ _ E2), (quiet_sector f g1 Hq1).
  rewrite (bind_done _ _ _ _ _ (load_pointer_run (pointers (sector_of f (file_idx f s))) (pos / level1_bytes) g2 ltac:(rewrite length_pointers; lia))).
  rewrite <- level1_pk by done. set (s1 := level1 (sector_of f) (file_idx f s) (pos / level1_bytes)).
  assert (s1 <> 0) as Hs1 by (apply H1; [done | unfold bound2 in Eb; lia]).
  destruct (Hown (Ind (pos / level1_bytes))) as (Hr1 & _); [split; [exact Hi | by right]|]. change (0 <= s1 < device_size f) in Hr1.
  destruct (read_pointers_run g2 s1) as (g3 & E3 & Hq3); [apply Hq2 | destruct Hq2 as (_ & -> & _), Hq1 as (_ & -> & _); lia |].
  pose proof (quiet_trans _ _ _ Hq1 Hq2) as Hq12.
  rewrite (bind_done _ _ _ _ _ E3), (quiet_sector f g2 Hq12).
  rewrite load_pointer_run by (rewrite length_pointers; lia). exists g3. split; [|by eapply quiet_trans].
  unfold data_sector. rewrite level2_ptr2. fold s1. unfold ptr2. by rewrite (proj2 (Z.eqb_neq _ _) Hs1).
Qed.

Lemma sector_slice f offset c : opened f -> 0 <= offset -> 0 <= c <= 512 - offset mod 512 ->
  slice (Z.to_nat (offset mod 512)) (Z.to_nat c) (sector_of f (data_sector f s offset)) =
  map (file_byte f s) (seqZ offset c).
Proof.
  intros Ho Hoff Hc. pose proof (Z.mod_pos_bound offset 512).
  assert (length (sector_of f (data_sector f s offset)) = 512%nat) as Hl by (apply contents_ok, Ho).
  rewrite slice_map by lia. apply list_eq_same_length with (n := Z.to_nat c); rewrite ?length_map, ?length_seqZ; [done..|].
  intros t a b Ht. rewrite !list_lookup_fmap, !lookup_seqZ_lt by lia. intros [= <-] [= <-].
  destruct (in_sector offset (Z.of_nat t)) as [E1 E2]; [lia|].
  rewrite file_byte_sector, E2, (data_sector_same f s (offset + Z.of_nat t) offset) by done. done.
Qed.

Lemma file_slice_step f size offset c : 0 <= c <= Z.min size (file_len f s - offset) ->
  file_slice f s size offset = map (file_byte f s) (seqZ offset c) ++ file_slice f s (size - c) (offset + c).
Proof. intros Hc. unfold file_slice. rewrite <- map_app, <- seqZ_app by lia. do 2 f_equal. lia. Qed.

Lemma quiet_slice f g size offset : opened f -> quiet f g -> file_slice g s size offset = file_slice f s size offset.
Proof.
  intros Ho Hq. destruct (quiet_opened f g Ho Hq) as (_ & El & _ & Eb). unfold file_slice. rewrite El.
  apply map_ext. exact Eb.
Qed.

Lemma file_slice_nil f size offset : size <= 0 \/ file_len f s <= offset -> file_slice f s size offset = [].
Proof. intros H. unfold file_slice. by rewrite seqZ_nil by lia. Qed.

Lemma read_loop_run fuel : forall size offset acc f,
  opened f -> 0 <= offset < 2 ^ 31 -> 0 <= size < 2 ^ 32 -> (Z.to_nat size < fuel)%nat ->
  exists g, read_loop fuel p size offset acc f = Done (acc ++ file_slice f s size offset, g) /\ quiet f g.
Proof.
  induction fuel as [|fuel IH]; intros size offset acc f Ho Hoff Hsize Hfuel; [lia|]. cbn [read_loop].
  destruct (Z.ltb_spec 0 size) as [Hpos|]; [|].
  2: { exists f. rewrite file_slice_nil, app_nil_r by lia. split; [done | apply quiet_refl, Ho]. }
  rewrite (i32_small offset) by (unfold is_i32; lia).
  destruct (byte_to_sector_run f offset Ho) as (g1 & E1 & Hq1); [lia|]. rewrite (bind_done _ _ _ _ _ E1).
  destruct (quiet_opened f g1 Ho Hq1) as (Ho1 & El1 & _).
  destruct (Z.ltb_spec offset (file_len f s)) as [Hlt|Hge].
  2: { rewrite Z.eqb_refl. exists g1. by rewrite file_slice_nil, app_nil_r by lia. }
  destruct (data_sector_range f offset Ho) as [Hr Hnone]; [lia|]. rewrite (proj2 (Z.eqb_neq _ _) Hnone).
  destruct (inode_length_run g1 Ho1) as (g2 & E2 & Hq2). rewrite (bind_done _ _ _ _ _ E2), El1.
  pose proof (quiet_trans _ _ _ Hq1 Hq2) as Hq12. destruct (quiet_opened f g2 Ho Hq12) as (Ho2 & El2 & Ei2 & Eb2).
  pose proof (file_length_bound f Ho). rewrite chunk_value by lia. pose proof (Z.mod_pos_bound offset 512).
  set (c := Z.min size _). rewrite (proj2 (Z.leb_gt c 0)) by lia.
  destruct (store_read_at_run (store g2) (data_sector f s offset) c (offset mod 512)) as (st & E3 & Hst & Hsz & Hc);
    [apply Ho2 | destruct Hq12 as (_ & Hd & _); unfold device_size in Hd; rewrite Hd; fold (device_size f); lia | lia | lia | lia |].
  unfold on_store at 1. unfold bind at 1. change BLOCK_SECTOR_SIZE with 512. rewrite E3.
  set (g3 := mk_fs st _ _ _ _ _ _ _ _ _ _ _).
  assert (quiet f g3) as Hq3.
  { eapply quiet_trans; [exact Hq12|]. by split_and!. }
  destruct (quiet_opened f g3 Ho Hq3) as (Ho3 & El3 & Ei3 & Eb3). unfold MAX_FILE_BYTES in *.
  rewrite (u32_small (size - c)), (u32_small (offset + c)) by lia.
  fold (sector_of g2 (data_sector f s offset)). 
  rewrite (quiet_sector f g2 Hq12), (sector_slice f offset c Ho) by lia.
  destruct (IH (size - c) (offset + c) (acc ++ map (file_byte f s) (seqZ offset c)) g3) as (g & E & Hq); [done | lia | lia | lia |].
  exists g. split; [|by eapply quiet_trans]. rewrite E, <- app_assoc, (quiet_slice f g3) by assumption.
  by rewrite (file_slice_step f size offset c) by lia.
Qed.
End reading.

(** ** Inodes in memory *)

Section counts.
Context {St : Type} `{!SectorStore St} {priv : Z -> Prop}.
Implicit Types (f g : fs St) (p : Z) (i : inode).

Definition with_inodes (f : fs St) (m : gmap Z inode) : fs St :=
  mk_fs (store f) (free_map f) (free_map_file f) (free_map_lock f) (open_inodes f)
    (open_inodes_lock f) m (files f) (dirs f) (cwd f) (next_ptr f) (oom f).

(** No writer is in or waits; then no reader has to wait. *)
Definition readable (i : inode) : Prop :=
  active_writers i = 0 /\ waiting_writers i = 0 /\ is_u32 (active_readers i).

Definition idle (i : inode) : Prop := readable i /\ active_readers i = 0.

Lemma load_inode_at p i f : inodes f !! p = Some i -> load_inode p f = Done (i, f).
Proof. intros Hi. unfold load_inode, bind, get. by rewrite Hi. Qed.

Lemma store_inode_run p i f : store_inode p i f = Done (tt, with_inodes f (<[p := i]> (inodes f))).
Proof. done. Qed.

Lemma reader_checkin_run p i f : inodes f !! p = Some i -> readable i ->
  reader_checkin p f = Done (tt, with_inodes f (<[p := set_counts i 0 (u32 (active_readers i + 1))]> (inodes f))).
Proof.
  intros Hi (E1 & E2 & _). unfold reader_checkin. rewrite (bind_done _ _ _ _ _ (load_inode_at p i f Hi)). by rewrite E1, E2.
Qed.

Lemma reader_checkout_run p i f : inodes f !! p = Some (set_counts i 0 (u32 (active_readers i + 1))) -> readable i ->
  reader_checkout p f = Done (tt, with_inodes f (<[p := i]> (inodes f))).
Proof.
  intros Hi (E1 & E2 & Hr). unfold reader_checkout. rewrite (bind_done _ _ _ _ _ (load_inode_at p _ f Hi)). simpl.
  assert (u32 (u32 (active_readers i + 1) - 1) = active_readers i) as ->.
  { unfold u32, is_u32 in *. rewrite Zminus_mod_idemp_l. rewrite Z.mod_small; lia. }
  rewrite store_inode_run. unfold set_counts. simpl. rewrite <- E1. by destruct i.
Qed.

Lemma writer_checkin_run p i f : inodes f !! p = Some i -> idle i ->
  writer_checkin p f = Done (tt, with_inodes f (<[p := set_counts i 1 0]> (inodes f))).
Proof.
  intros Hi ((E1 & E2 & _) & E3). unfold writer_checkin. rewrite (bind_done _ _ _ _ _ (load_inode_at p i f Hi)).
  by rewrite E1, E3.
Qed.

(** Leaving restores the counts; the rest of the inode [j] is what the writer
    made it. *)
Lemma writer_checkout_run p i f : inodes f !! p = Some (set_counts i 1 0) -> idle i ->
  writer_checkout p f = Done (tt, with_inodes f (<[p := i]> (inodes f))).
Proof.
  intros Hi ((E1 & E2 & _) & E3). unfold writer_checkout. rewrite (bind_done _ _ _ _ _ (load_inode_at p _ f Hi)). simpl.
  change (u32 (1 - 1)) with 0. rewrite store_inode_run. unfold set_counts. simpl. rewrite <- E1 at 1. rewrite <- E3. by destruct i.
Qed.

Lemma opened_counts p i aw ar f : opened (priv := priv) p i f ->
  opened (priv := priv) p (set_counts i aw ar) (with_inodes f (<[p := set_counts i aw ar]> (inodes f))).
Proof. intros (H1 & H2 & H3 & H4). split; [done|]. split; [done|]. split; [apply lookup_insert_eq | exact H4]. Qed.

(** A quiet run between checking in and out is quiet. *)
Lemma quiet_between p i j f g : inodes f !! p = Some i -> quiet (with_inodes f (<[p := j]> (inodes f))) g ->
  inodes g !! p = Some j /\ quiet f (with_inodes g (<[p := i]> (inodes g))).
Proof.
  intros Hi (H1 & H2 & H3 & H4 & H5). unfold env in H3. simpl in H3. injection H3. intros. split.
  - assert (inodes g = <[p := j]> (inodes f)) as -> by done. apply lookup_insert_eq.
  - split; [exact H1|]. split; [exact H2|]. split; [|split; [exact H4 | exact H5]]. unfold env. simpl.
    assert (inodes g = <[p := j]> (inodes f)) as -> by done. rewrite insert_insert_eq, insert_id by done. congruence.
Qed.

Lemma inode_read_at_run p i f size offset :
  opened (priv := priv) p i f -> readable i -> 0 <= offset < 2 ^ 31 -> 0 <= size < 2 ^ 32 ->
  exists g, inode_read_at p size offset f = Done (file_slice f (i_sector i) size offset, g) /\ quiet f g.
Proof.
  intros Ho Hr Hoff Hsize. pose proof Ho as (_ & _ & Hi & _). unfold inode_read_at.
  rewrite (bind_done _ _ _ _ _ (reader_checkin_run p i f Hi Hr)).
  pose proof (opened_counts p i 0 (u32 (active_readers i + 1)) f Ho) as Ho1. set (f1 := with_inodes f _) in *.
  destruct (read_loop_run p _ (S (Z.to_nat size)) size offset [] f1 Ho1) as (g1 & E & Hq); [done | done | lia |].
  rewrite (bind_done _ _ _ _ _ E). destruct (quiet_between p i _ f g1 Hi Hq) as [Hj Hq'].
  rewrite (bind_done _ _ _ _ _ (reader_checkout_run p i g1 Hj Hr)). eexists. split; [reflexivity | exact Hq'].
Qed.
End counts.

(** ** Writing within the file *)

Section writing.
Context {St : Type} `{!SectorStore St} {priv : Z -> Prop}.
Context (p : Z) (ino : inode).
Let s := i_sector ino.
Implicit Types (f g : fs St) (data : list Z).
Abbreviation opened := (opened (priv := priv) p ino).

(** Of all sectors only those of bytes [o .. o + n) were written. *)
Definition only_data (f g : fs St) (o n : Z) : Prop :=
  forall x, (forall k, o <= k < o + n -> data_sector f s k <> x) -> sector_of g x = sector_of f x.

(** [data] was written at [o]: the sectors of those bytes hold it, and where it
    does not cover them they kept their contents or were zeroed: those with
    numbers in [z]. *)
Definition wrote (f g : fs St) (o : Z) (data : list Z) : Prop :=
  store_ok (store g) /\ device_size g = device_size f /\ env g = env f /\ free_map g = free_map f /\
  only_data f g o (Z.of_nat (length data)) /\
  (forall k, o <= k < o + Z.of_nat (length data) -> file_byte g s k = nth (Z.to_nat (k - o)) data 0) /\
  exists z : Z -> bool, forall k, 0 <= k -> k / 512 * 512 < file_len f s -> ~ o <= k < o + Z.of_nat (length data) ->
     file_byte g s k = if z (k / 512) then 0 else file_byte f s k.

Lemma wrote_nil f o : opened f -> wrote f f o [].
Proof.
  intros Ho. split; [apply Ho|]. split; [done|]. split; [done|]. split; [done|]. split; [done|].
  split; [simpl; lia|]. by exists (fun _ => false).
Qed.

Lemma data_node f k : opened f -> 0 <= k -> k / 512 * 512 < file_len f s ->
  live (sector_of f) s (file_idx f s) (Dat (k / level1_bytes) (k / 512 mod 128)) /\
  0 <= k / level1_bytes < 128 /\ 0 <= k / 512 mod 128 < 128.
Proof.
  intros Ho Hk Hlt. pose proof (file_length_bound p ino f Ho). destruct Ho as (_ & _ & _ & [(_ & _ & _ & H2 & _) _]).
  destruct (byte_pos k) as (Hi & Hj & Eb); [lia | unfold s in *; lia |]. split; [|done].
  split; [split; [exact Hi | exact Hj]|]. right. apply H2; [done | done |]. unfold bound2 in Eb. unfold s in *. lia.
Qed.

Lemma data_sector_inj f k k' : opened f -> 0 <= k -> 0 <= k' ->
  k / 512 * 512 < file_len f s -> k' / 512 * 512 < file_len f s ->
  data_sector f s k = data_sector f s k' -> k / 512 = k' / 512.
Proof.
  intros Ho Hk Hk' Hl Hl' Heq. destruct (data_node f k Ho Hk Hl) as [L1 _]. destruct (data_node f k' Ho Hk' Hl') as [L2 _].
  destruct Ho as (_ & _ & _ & [(_ & _ & _ & _ & Hinj & _) _]). pose proof (Hinj _ _ L1 L2 Heq) as [= E1 E2].
  replace level1_bytes with (512 * 128) in E1 by done. rewrite <- !Z.div_div in E1 by lia.
  pose proof (Z.div_mod (k / 512) 128). pose proof (Z.div_mod (k' / 512) 128). lia.
Qed.

Section after_write.
Context (f g : fs St) (o n : Z).
Hypothesis Ho : opened f.
Hypothesis Hoff : 0 <= o.
Hypothesis Hend : o + n <= file_len f s.
Hypothesis Hw : only_data f g o n.

(** Sectors of the tree that hold no data are not written. *)
Lemma wrote_keeps nd : live (sector_of f) s (file_idx f s) nd -> (forall i j, nd <> Dat i j) ->
  sector_of g (addr (sector_of f) s (file_idx f s) nd) = sector_of f (addr (sector_of f) s (file_idx f s) nd).
Proof using Ho Hoff Hend Hw.
  intros Hl Hnd. apply Hw. intros k Hk Heq.
  pose proof (div_mul_le k). destruct (data_node f k Ho) as [Lk _]; [lia | lia |].
  destruct Ho as (_ & _ & _ & [(_ & _ & _ & _ & Hinj & _) _]). by apply (Hnd (k / level1_bytes) (k / 512 mod 128)), Hinj.
Qed.

Lemma wrote_self : sector_of g s = sector_of f s.
Proof using Ho Hoff Hend Hw. apply (wrote_keeps Self); [apply tree_self | done]. Qed.

Lemma wrote_idx : file_idx g s = file_idx f s.
Proof using Ho Hoff Hend Hw. unfold file_idx. by rewrite wrote_self. Qed.

Lemma wrote_len : file_len g s = file_len f s.
Proof using Ho Hoff Hend Hw. unfold file_len. by rewrite wrote_self. Qed.

Lemma wrote_level1 i : 0 <= i < 128 -> level1 (sector_of g) (file_idx f s) i = level1 (sector_of f) (file_idx f s) i.
Proof using Ho Hoff Hend Hw.
  intros Hi. unfold level1. destruct (Z.eqb_spec (file_idx f s) 0) as [|Hne]; [done|].
  pose proof (wrote_keeps Root (tree_root f s _ Hne)) as E. simpl in E. by rewrite E.
Qed.

Lemma wrote_level2 i j : 0 <= i < 128 -> level2 (sector_of g) (file_idx f s) i j = level2 (sector_of f) (file_idx f s) i j.
Proof using Ho Hoff Hend Hw.
  intros Hi. unfold level2. rewrite wrote_level1 by done.
  destruct (Z.eqb_spec (level1 (sector_of f) (file_idx f s) i) 0) as [|Hne]; [done|].
  pose proof (wrote_keeps (Ind i)) as E. simpl in E. rewrite E; [reflexivity | | done]. split; [exact Hi | by right].
Qed.

Lemma wrote_data_sector k : 0 <= k -> k / 512 * 512 < file_len f s -> data_sector g s k = data_sector f s k.
Proof using Ho Hoff Hend Hw.
  intros Hk Hlt. destruct (data_node f k Ho Hk Hlt) as (_ & Hi & _). unfold data_sector.
  rewrite wrote_idx. by apply wrote_level2.
Qed.

End after_write.

Lemma wrote_opened f g o data :
  opened f -> 0 <= o -> o + Z.of_nat (length data) <= file_len f s -> wrote f g o data -> opened g.
Proof.
  intros Ho Hoff Hend (H1 & H2 & H3 & H4 & Hw & _ & H7). pose proof Ho as (_ & Hd & Hi & Ht).
  split; [exact H1|]. split; [lia|]. split.
  { assert (inodes g = inodes f) as -> by (unfold env in H3; congruence). exact Hi. }
  pose proof (wrote_idx f g o _ Ho Hoff Hend Hw) as Ei. unfold file_ok. fold s.
  rewrite Ei, (wrote_len f g o _ Ho Hoff Hend Hw). eapply file_tree_shape; [exact Ht | exact H2 | | |].
  - intros [| |i|i j] Hv; simpl; [done | done | by eapply wrote_level1 | destruct Hv; by eapply wrote_level2].
  - intros k Hk Hlt. pose proof Ht as [((H & _) & _ & _ & _ & _ & Htail) _].
    specialize (Htail k Hk Hlt). fold s in H, Htail. change (file_byte f s k = 0) in Htail.
    rewrite <- Ei. change (file_byte g s k = 0).
    destruct H7 as [z H7]. rewrite H7 by (done || lia). by destruct (z (k / 512)).
  - intros nd Hl. unfold used. rewrite H4. by apply Ht.
Qed.

(** Consecutive writes that meet at the start of a sector. *)
Lemma wrote_app f g h o d1 d2 : opened f -> 0 <= o -> o + Z.of_nat (length (d1 ++ d2)) <= file_len f s ->
  (d2 <> [] -> (o + Z.of_nat (length d1)) mod 512 = 0) ->
  wrote f g o d1 -> wrote g h (o + Z.of_nat (length d1)) d2 -> wrote f h o (d1 ++ d2).
Proof.
  intros Ho Hoff Hend Hmod Hw1 Hw2. rewrite length_app, Nat2Z.inj_add in Hend. set (m := o + Z.of_nat (length d1)) in *.
  assert (o + Z.of_nat (length d1) <= file_len f s) as Hend1 by lia.
  pose proof Hw1 as (A1 & A2 & A3 & A4 & A5 & A6 & A7).
  pose proof (wrote_opened f g o d1 Ho Hoff Hend1 Hw1) as Hog. pose proof (wrote_len f g o _ Ho Hoff Hend1 A5) as El.
  assert (forall k, 0 <= k -> k / 512 * 512 < file_len f s -> data_sector g s k = data_sector f s k) as Eds
    by exact (wrote_data_sector f g o _ Ho Hoff Hend1 A5).
  pose proof Hw2 as (B1 & B2 & B3 & B4 & B5 & B6 & B7).
  rewrite El in *.
  assert (forall k, 0 <= k -> k < m -> k / 512 * 512 < file_len f s -> file_byte h s k = file_byte g s k) as Hlow.
  { intros k Hk Hkm Hkl. rewrite !file_byte_sector.
    rewrite (wrote_data_sector g h m (Z.of_nat (length d2)) Hog) by (exact B5 || lia || (rewrite El; lia)). rewrite B5; [done|].
    intros k' Hk' Heq. assert (d2 <> []) as Hne by (intros ->; simpl in Hk'; lia). specialize (Hmod Hne).
    assert (k / 512 = k' / 512) as E.
    { pose proof (div_mul_le k'). apply (data_sector_inj g); [done | done | lia | lia | lia | done]. }
    pose proof (Z.div_mod m 512). pose proof (Z.div_mod k 512). pose proof (Z.mod_pos_bound k 512).
    assert (m / 512 <= k' / 512) by (apply Z.div_le_mono; lia). lia. }
  unfold wrote. rewrite length_app, Nat2Z.inj_add.
  split; [exact B1|]. split; [congruence|]. split; [congruence|]. split; [congruence|]. split; [|split].
  - intros x Hx. rewrite B5, A5; [done | |].
    + intros k Hk. apply Hx. lia.
    + intros k Hk. pose proof (div_mul_le k). rewrite Eds by lia. apply Hx. lia.
  - intros k Hk. destruct (Z.lt_ge_cases k m) as [Hlt|Hge].
    + pose proof (div_mul_le k). rewrite Hlow, A6 by lia. by rewrite app_nth1 by lia.
    + rewrite B6 by lia. rewrite app_nth2 by lia. f_equal. lia.
  - destruct A7 as [z1 A7], B7 as [z2 B7]. destruct d2 as [|b d2].
    { exists z1. intros k Hk Hkl Hn. rewrite !file_byte_sector. rewrite (wrote_data_sector g h m 0 Hog) by (exact B5 || lia || (rewrite El; lia)).
      rewrite B5 by (simpl; lia). rewrite <- file_byte_sector. rewrite A7 by (done || (simpl in Hn; lia)). by rewrite !file_byte_sector. }
    specialize (Hmod ltac:(done)). exists (fun b => if b <? m / 512 then z1 b else z1 b || z2 b). intros k Hk Hkl Hn.
    pose proof (Z.div_mod m 512). destruct (Z.lt_ge_cases k m) as [Hlt|Hge].
    + rewrite Hlow by done. rewrite (proj2 (Z.ltb_lt _ _)) by (apply Z.div_lt_upper_bound; lia). apply A7; [done | done | lia].
    + rewrite (proj2 (Z.ltb_ge _ _)) by (apply Z.div_le_mono; lia). rewrite B7 by (done || lia). destruct (z2 (k / 512)); [by rewrite orb_true_r|].
      rewrite orb_false_r. apply A7; [done | done | lia].
Qed.

(** One step of the loop: bytes of one sector. *)
Lemma write_sector_run f o data :
  opened f -> 0 <= o -> 0 < Z.of_nat (length data) <= 512 - o mod 512 -> o + Z.of_nat (length data) <= file_len f s ->
  Forall is_byte data ->
  exists g, on_store (store_write_at (data_sector f s o) data (Z.of_nat (length data)) (o mod 512)) f = Done (tt, g) /\
    wrote f g o data.
Proof.
  intros Ho Hoff Hlen Hend Hb. pose proof (Z.mod_pos_bound o 512). pose proof Ho as (Hs & _).
  destruct (data_sector_range p ino f o Ho) as [Hr _]; [fold s; lia|]. fold s in Hr. set (x := data_sector f s o) in *.
  destruct (store_write_at_run (store f) x data (Z.of_nat (length data)) (o mod 512))
    as (st & base & E & Hst & Hsz & Hbase & Hc & Hsame); [done | unfold device_size in Hr; lia | lia | lia | lia | lia | done |].
  unfold on_store. rewrite E. eexists. split; [reflexivity|]. set (g := mk_fs st _ _ _ _ _ _ _ _ _ _ _).
  rewrite Nat2Z.id, firstn_all in Hc. change (sector_of g x = patch (Z.to_nat (o mod 512)) data base) in Hc.
  assert (only_data f g o (Z.of_nat (length data))) as Hod.
  { intros y Hy. apply Hsame. intros ->. apply (Hy o); [lia | done]. }
  assert (length base = 512%nat) as Hbl by (destruct Hbase as [->| ->]; [by apply contents_ok | done]).
  assert (forall k, 0 <= k -> k / 512 * 512 < file_len f s -> k / 512 = o / 512 ->
    file_byte g s k = if decide (o <= k < o + Z.of_nat (length data)) then nth (Z.to_nat (k - o)) data 0
      else nth (Z.to_nat (k mod 512)) base 0) as Hin.
  { intros k Hk Hkl Ek. rewrite file_byte_sector, (wrote_data_sector f g o _ Ho Hoff Hend Hod k) by done.
    rewrite (data_sector_same f s k o Ek). fold x. rewrite Hc, !nth_lookup, lookup_patch by lia.
    pose proof (Z.div_mod k 512). pose proof (Z.div_mod o 512). pose proof (Z.mod_pos_bound k 512).
    destruct (decide (o <= k < _)); [rewrite decide_True by lia; do 2 f_equal; lia | by rewrite decide_False by lia]. }
  split; [exact Hst|]. split; [exact Hsz|]. split; [done|]. split; [done|]. split; [exact Hod|]. split.
  - intros k Hk. destruct (in_sector o (k - o)) as [Ek _]; [lia|]. replace (o + (k - o)) with k in Ek by lia.
    pose proof (div_mul_le k). rewrite Hin by lia. by rewrite decide_True by lia.
  - exists (fun b => (b =? o / 512) && bool_decide (base = blank_sector)). intros k Hk Hkl Hn. destruct (Z.eqb_spec (k / 512) (o / 512)) as [Ek|Hne]; cbn [andb].
    + rewrite Hin by done. rewrite decide_False by done. destruct (bool_decide_reflect (base = blank_sector)) as [->|Hnb]; [apply nth_blank|].
      destruct Hbase as [->|?]; [|done]. rewrite file_byte_sector. by rewrite (data_sector_same f s k o Ek).
    + rewrite !file_byte_sector, (wrote_data_sector f g o _ Ho Hoff Hend Hod k) by done. rewrite Hod; [done|].
      intros k' Hk' Heq. apply Hne. pose proof (div_mul_le k'). destruct (in_sector o (k' - o)) as [Ek' _]; [lia|].
      replace (o + (k' - o)) with k' in Ek' by lia. rewrite <- Ek'. apply (data_sector_inj f); done || lia.
Qed.

Lemma wrote_quiet f f1 g o data : opened f -> quiet f f1 -> wrote f1 g o data -> wrote f g o data.
Proof.
  intros Ho Hq (H1 & H2 & H3 & H4 & H5 & H6 & H7). destruct (quiet_opened p ino f f1 Ho Hq) as (_ & El & Ei & Eb). fold s in El, Ei.
  assert (forall k, file_byte f1 s k = file_byte f s k) as Eb' by exact Eb.
  assert (forall k, data_sector f1 s k = data_sector f s k) as Ed.
  { intros k. unfold data_sector. rewrite Ei. unfold level2. by rewrite (quiet_level1 f f1 Hq), (quiet_sector f f1 Hq). }
  destruct Hq as (_ & Q2 & Q3 & Q4 & Q5). split; [exact H1|]. split; [congruence|]. split; [congruence|]. split; [congruence|].
  split; [|split; [exact H6|]].
  - intros x Hx. rewrite H5, Q5; [done|]. intros k. rewrite Ed. apply Hx.
  - destruct H7 as [z H7]. exists z. intros k. rewrite <- El, <- Eb'. apply H7.
Qed.

Lemma write_loop_run (buffer : list Z) fuel : forall size offset bw f,
  opened f -> 0 <= offset -> 0 <= size -> offset + size <= file_len f s ->
  0 <= bw -> bw + size <= Z.of_nat (length buffer) -> Forall is_byte buffer -> (Z.to_nat size < fuel)%nat ->
  exists g, write_loop fuel p buffer size offset bw f = Done (bw + size, g) /\
    wrote f g offset (slice (Z.to_nat bw) (Z.to_nat size) buffer).
Proof.
  induction fuel as [|fuel IH]; intros size offset bw f Ho Hoff Hsize Hend Hbw Hbuf Hb Hfuel; [lia|]. cbn [write_loop].
  destruct (Z.ltb_spec 0 size) as [Hpos|].
  2: { exists f. replace size with 0 by lia. rewrite Z.add_0_r. split; [done | by apply wrote_nil]. }
  pose proof (file_length_bound p ino f Ho) as Hmax. fold s in Hmax. pose proof (Z.mod_pos_bound offset 512).
  rewrite (i32_small offset) by (unfold is_i32, MAX_FILE_BYTES in *; lia).
  destruct (byte_to_sector_run p ino f offset Ho) as (g1 & E1 & Hq1); [lia|]. fold s in E1. rewrite (bind_done _ _ _ _ _ E1).
  rewrite (proj2 (Z.ltb_lt offset _)) by lia. destruct (quiet_opened p ino f g1 Ho Hq1) as (Ho1 & El1 & _). fold s in El1.
  destruct (inode_length_run p ino g1 Ho1) as (g2 & E2 & Hq2). fold s in E2. rewrite (bind_done _ _ _ _ _ E2), El1.
  pose proof (quiet_trans _ _ _ Hq1 Hq2) as Hq. destruct (quiet_opened p ino f g2 Ho Hq) as (Ho2 & El2 & Ei2 & _). fold s in El2, Ei2.
  rewrite chunk_value by lia. set (c := Z.min size _). rewrite (proj2 (Z.leb_gt c 0)) by lia.
  unfold load_bytes. rewrite (proj2 (Z.leb_le (bw + c) _)), bind_ret by lia.
  set (d := slice (Z.to_nat bw) (Z.to_nat c) buffer).
  assert (Z.of_nat (length d) = c) as Hld by (unfold d; rewrite length_slice; lia).
  assert (data_sector f s offset = data_sector g2 s offset) as ->.
  { unfold data_sector. rewrite Ei2. unfold level2. by rewrite (quiet_level1 f g2 Hq), (quiet_sector f g2 Hq). }
  destruct (write_sector_run g2 offset d Ho2) as (g3 & E3 & Hw3); [lia | lia | lia | by apply Forall_slice |].
  rewrite Hld in E3. change BLOCK_SECTOR_SIZE with 512. rewrite (bind_done _ _ _ _ _ E3).
  pose proof Hw3 as (_ & _ & _ & _ & Hod & _). rewrite Hld in Hod.
  assert (opened g3) as Ho3 by (eapply (wrote_opened g2 g3 offset d); done || lia).
  assert (file_len g3 s = file_len f s) as El3 
    by (rewrite (wrote_len g2 g3 offset c Ho2 Hoff ltac:(lia) Hod); exact El2).
  unfold MAX_FILE_BYTES in *. rewrite (u32_small (size - c)), (u32_small (offset + c)) by lia.
  destruct (IH (size - c) (offset + c) (bw + c) g3) as (g & E & Hw); [exact Ho3 | lia | lia | lia | lia | lia | exact Hb | lia |].
  exists g. split; [rewrite E; do 2 f_equal; lia|]. apply (wrote_quiet f g2); [exact Ho | exact Hq |].
  replace (Z.to_nat size) with (Z.to_nat c + Z.to_nat (size - c))%nat by lia. rewrite slice_app. fold d.
  replace (Z.to_nat bw + Z.to_nat c)%nat with (Z.to_nat (bw + c)) by lia.
  apply (wrote_app g2 g3 g); [exact Ho2 | exact Hoff | | | exact Hw3 | rewrite Hld; exact Hw].
  - rewrite length_app, length_slice by lia. lia.
  - intros Hne. rewrite Hld. destruct (Z.eq_dec c size) as [Ec|].
    { exfalso. apply Hne. by rewrite Ec, Z.sub_diag. }
    assert (c = 512 - offset mod 512) as -> by lia. pose proof (Z.div_mod offset 512).
    replace (offset + (512 - offset mod 512)) with ((offset / 512 + 1) * 512) by lia. apply Z.mod_mul. lia.
Qed.
End writing.
