(* ===== verification/InodeWrite.v ===== *)
(** * inode_write_at

    The three branches: writes denied, within the length of the file, and past
    the end, where [inode_resize] first makes room. *)

From stdpp Require Import options.
From S2P Require Import Prelude Bytes Bitmap Block Store Inode InodeTree InodeGrow InodeShrink InodeResize.
From S2P Require Import InodeRollback InodeExtend InodeIO.
Local Open Scope Z_scope.
Local Open Scope kernel_scope.

(** States differ for the allocator only in what it keeps: the stores, the free
    map with its file, and the inodes [own] that it has open. *)
Class AllocFrame {St} `{!SectorStore St} (ok : fs St -> Prop) (own : Z -> Prop) := {
  ok_frame (f g : fs St) : ok f -> store g = store f -> free_map g = free_map f ->
    free_map_file g = free_map_file f -> free_map_lock g = free_map_lock f ->
    (forall p, own p -> inodes g !! p = inodes f !! p) ->
    files g !! free_map_file f = files f !! free_map_file f -> ok g
}.

(** A sector of the file at [s]. *)
Definition node_of {St} `{!SectorStore St} (f : fs St) (s x : Z) : Prop :=
  exists nd, live (sector_of f) s (file_idx f s) nd /\ addr (sector_of f) s (file_idx f s) nd = x.

(** ** Files that a step leaves alone *)

Section frame.
Context {St : Type} `{!SectorStore St} {priv : Z -> Prop} (f g : fs St) (s : Z).
Hypothesis Hf : file_ok priv f s.
Hypothesis Hdev : device_size g = device_size f.
Hypothesis Hsame : forall x, node_of f s x -> used g x = true /\ sector_of g x = sector_of f x.

Lemma frame_self : sector_of g s = sector_of f s.
Proof using Hsame. apply Hsame. exists Self. split; [apply tree_self | done]. Qed.

Lemma frame_idx : file_idx g s = file_idx f s.
Proof using Hsame. unfold file_idx. by rewrite frame_self. Qed.

Lemma frame_len : file_len g s = file_len f s.
Proof using Hsame. unfold file_len. by rewrite frame_self. Qed.

Lemma frame_addr nd : node_valid nd ->
  addr (sector_of g) s (file_idx f s) nd = addr (sector_of f) s (file_idx f s) nd.
Proof using Hsame.
  assert (forall i, 0 <= i < 128 -> level1 (sector_of g) (file_idx f s) i = level1 (sector_of f) (file_idx f s) i) as E1.
  { intros i Hi. unfold level1. destruct (Z.eqb_spec (file_idx f s) 0) as [|Hne]; [reflexivity|].
    destruct (Hsame (file_idx f s)) as [_ E]; [exists Root; split; [by apply tree_root | reflexivity]|]. by rewrite E. }
  intros Hv. destruct nd as [| |i|i j]; simpl; [done | done | by apply E1 |]. destruct Hv as [Hi Hj].
  unfold level2. rewrite E1 by exact Hi. destruct (Z.eqb_spec (level1 (sector_of f) (file_idx f s) i) 0) as [|Hne]; [reflexivity|].
  destruct (Hsame (level1 (sector_of f) (file_idx f s) i)) as [_ E]; [|by rewrite E].
  exists (Ind i). split; [split; [exact Hi | right; exact Hne] | reflexivity].
Qed.

Lemma frame_node x : node_of g s x <-> node_of f s x.
Proof using Hsame.
  unfold node_of. rewrite frame_idx. split; intros (nd & [Hv Hl] & Ha); exists nd; pose proof (frame_addr nd Hv) as E.
  - rewrite E in Hl, Ha. split; [split; [exact Hv | exact Hl] | exact Ha].
  - rewrite E. split; [|exact Ha]. split; [exact Hv|]. rewrite E. exact Hl.
Qed.

Lemma frame_file : file_ok priv g s /\
  (forall k, 0 <= k -> k / 512 * 512 < file_len f s -> file_byte g s k = file_byte f s k).
Proof using Hf Hdev Hsame.
  unfold file_ok, file_byte. rewrite frame_idx, frame_len. apply (file_tree_frame f); [exact Hf | exact Hdev |].
  intros nd Hl. apply Hsame. by exists nd.
Qed.
End frame.

Section within.
Context {St : Type} `{!SectorStore St} {priv : Z -> Prop} (al : allocator St).
Implicit Types (f g : fs St) (p : Z) (i j : inode).

(** A write between checking in and out. *)
Lemma wrote_between p i j f g o data : i_sector j = i_sector i -> inodes f !! p = Some i ->
  wrote j (with_inodes f (<[p := j]> (inodes f))) g o data ->
  inodes g !! p = Some j /\ wrote i f (with_inodes g (<[p := i]> (inodes g))) o data.
Proof.
  intros Es Hi (H1 & H2 & H3 & H4 & H5 & H6 & H7). unfold env in H3. simpl in H3. injection H3. intros.
  assert (inodes g = <[p := j]> (inodes f)) as Ein by done. split; [rewrite Ein; apply lookup_insert_eq|].
  unfold only_data in H5. rewrite Es in *.
  split; [exact H1|]. split; [exact H2|]. split; [|split; [exact H4 | split; [exact H5 | split; [exact H6 | exact H7]]]].
  unfold env. simpl. rewrite Ein, insert_insert_eq, insert_id by done. congruence.
Qed.

Lemma inode_write_denied p i f (buffer : list Z) size offset :
  p <> 0 -> opened (priv := priv) p i f -> readable i -> deny_write_cnt i <> 0 ->
  exists g, inode_write_at al p buffer size offset f = Done (0, g) /\ quiet f g.
Proof.
  intros Hp Ho Hr Hdeny. pose proof Ho as (Hs & _ & Hi & _). unfold inode_write_at.
  rewrite assert_true by (by rewrite (proj2 (Z.eqb_neq _ _) Hp)).
  rewrite (bind_done _ _ _ _ _ (reader_checkin_run p i f Hi Hr)). set (j := set_counts i 0 _).
  rewrite (bind_done _ _ _ _ _ (load_inode_at p j _ (lookup_insert_eq _ _ _))). change (deny_write_cnt j) with (deny_write_cnt i).
  rewrite (proj2 (Z.eqb_neq _ _) Hdeny). cbn [negb].
  destruct (quiet_between p i j f _ Hi (quiet_refl (with_inodes f (<[p := j]> (inodes f))) Hs)) as [Hj Hq].
  rewrite (bind_done _ _ _ _ _ (reader_checkout_run p i _ Hj Hr)). eexists. split; [reflexivity | exact Hq].
Qed.

Lemma inode_write_within p i f (buffer : list Z) size offset :
  p <> 0 -> opened (priv := priv) p i f -> readable i -> deny_write_cnt i = 0 ->
  0 <= offset -> 0 <= size <= Z.of_nat (length buffer) -> Forall is_byte buffer ->
  offset + size <= file_len f (i_sector i) ->
  exists g, inode_write_at al p buffer size offset f = Done (size, g) /\
    wrote i f g offset (take (Z.to_nat size) buffer).
Proof.
  intros Hp Ho Hr Hdeny Hoff Hsize Hb Hend. pose proof Ho as (Hs & _ & Hi & _). unfold inode_write_at.
  rewrite assert_true by (by rewrite (proj2 (Z.eqb_neq _ _) Hp)).
  rewrite (bind_done _ _ _ _ _ (reader_checkin_run p i f Hi Hr)).
  pose proof (opened_counts p i 0 (u32 (active_readers i + 1)) f Ho) as Ho1. set (j := set_counts i 0 _) in *.
  set (f1 := with_inodes f _) in *.
  rewrite (bind_done _ _ _ _ _ (load_inode_at p j f1 (lookup_insert_eq _ _ _))). change (deny_write_cnt j) with (deny_write_cnt i).
  rewrite Hdeny. cbn [negb Z.eqb]. destruct (inode_length_run p j f1 Ho1) as (f2 & E2 & Hq2). rewrite (bind_done _ _ _ _ _ E2).
  change (file_len f1 (i_sector j)) with (file_len f (i_sector i)). pose proof (file_length_bound p i f Ho) as Hl.
  unfold MAX_FILE_BYTES in Hl. rewrite !u32_small, (proj2 (Z.ltb_ge _ _)) by lia.
  destruct (quiet_opened p j f1 f2 Ho1 Hq2) as (Ho2 & El2 & _). change (i_sector j) with (i_sector i) in El2.
  change (file_len f1 (i_sector i)) with (file_len f (i_sector i)) in El2.
  destruct (write_loop_run p j buffer (S (Z.to_nat size)) size offset 0 f2 Ho2 Hoff) as (g & E & Hw);
    [lia | change (i_sector j) with (i_sector i); lia | lia | lia | exact Hb | lia |].
  rewrite (bind_done _ _ _ _ _ E). pose proof (wrote_quiet p j f1 f2 g offset _ Ho1 Hq2 Hw) as Hw1.
  destruct (wrote_between p i j f g offset _ eq_refl Hi Hw1) as [Hj Hw'].
  rewrite (bind_done _ _ _ _ _ (reader_checkout_run p i g Hj Hr)). eexists. split; [reflexivity|].
  change (slice (Z.to_nat 0) (Z.to_nat size) buffer) with (take (Z.to_nat size) buffer) in Hw'. exact Hw'.
Qed.
End within.

(** ** Past the end *)

Section past_end.
Context {St : Type} `{!SectorStore St} {al : allocator St} {priv own : Z -> Prop} {ok : fs St -> Prop}.
Context `{!AllocSpec al priv ok} `{!ReleaseSpec al priv ok} `{!AllocFrame ok own}.
Implicit Types (f g h : fs St) (p s o k x : Z) (i j : inode) (d data : list Z) (nd : node).
Abbreviation file_tree := (file_tree (priv := priv)).
Abbreviation opened := (opened (priv := priv)).
Abbreviation grow_done := (grow_done (priv := priv) (ok := ok)).
Abbreviation grow_failed := (grow_failed (priv := priv) (ok := ok)).

(** [data] was written at [o] and ends the file: before it are the old bytes,
    then zeros, except that old bytes in the sector where the data starts may
    have been zeroed.  No sector of another file changed. *)
Definition extended (f g : fs St) (s o : Z) (data : list Z) : Prop :=
  ok g /\ device_size g = device_size f /\ env g = env f /\
  file_ok priv g s /\ file_len g s = o + Z.of_nat (length data) /\ 
  (d_isdir (sector_of g s) = d_isdir (sector_of f s) /\ (file_idx f s <> 0 -> file_idx g s = file_idx f s)) /\
  (forall k, o <= k < o + Z.of_nat (length data) -> file_byte g s k = nth (Z.to_nat (k - o)) data 0) /\
  (exists z : bool, forall k, 0 <= k < o ->
     file_byte g s k = if z && (k / 512 =? o / 512) then 0 else if k <? file_len f s then file_byte f s k else 0) /\
  (forall x, 0 <= x < device_size f -> used f x = true -> used g x = true) /\
  (forall x, 0 <= x < device_size f -> used f x = true -> ~ priv x -> ~ node_of f s x -> sector_of g x = sector_of f x) /\
  (forall x, node_of g s x -> used f x = true -> node_of f s x).

(** Writing the on-disk inode of a tree makes it the tree of the file. *)
Lemma commit_inode g s d :
  ok g -> sector_ok d -> file_tree g s (d_indirect d) (d_length d) ->
  exists h, on_store (store_write s d) g = Done (tt, h) /\ ok h /\ device_size h = device_size g /\ env h = env g /\
    free_map h = free_map g /\ sector_of h s = d /\ (forall x, x <> s -> sector_of h x = sector_of g x) /\
    file_ok priv h s /\
    (forall nd, node_valid nd -> addr (sector_of h) s (d_indirect d) nd = addr (sector_of g) s (d_indirect d) nd) /\
    (forall k, 0 <= k -> k / 512 * 512 < d_length d -> file_byte h s k = tree_byte (sector_of g) (d_indirect d) k).
Proof using AllocSpec0.
  intros Hg Hd Ht. pose proof Ht as [(_ & _ & _ & _ & Hinj & _) Hown]. destruct (Hown Self) as (Hs & Hu & Hp); [apply tree_self|].
  simpl in Hs, Hu, Hp. destruct (store_write_fs g s d) as (h & E & Hso & Hdv & He & Hm & Hc); [by apply ok_store | done | done |].
  assert (forall nd, live (sector_of g) s (d_indirect d) nd -> nd <> Self ->
    sector_of h (addr (sector_of g) s (d_indirect d) nd) = sector_of g (addr (sector_of g) s (d_indirect d) nd)) as Hk.
  { intros nd Hl Hns. rewrite Hc. destruct (Z.eqb_spec (addr (sector_of g) s (d_indirect d) nd) s) as [Heq|]; [|reflexivity].
    exfalso. apply Hns. apply Hinj; [exact Hl | apply tree_self | exact Heq]. }
  assert (sector_of h s = d) as Es by by rewrite Hc, Z.eqb_refl.
  assert (forall k, 0 <= k < 128 -> level1 (sector_of h) (d_indirect d) k = level1 (sector_of g) (d_indirect d) k) as E1.
  { intros k Hk1. unfold level1. destruct (Z.eqb_spec (d_indirect d) 0) as [|Hne]; [reflexivity|].
    pose proof (Hk Root (tree_root g s _ Hne)) as Er. simpl in Er. rewrite Er; done. }
  assert (forall nd, node_valid nd -> addr (sector_of h) s (d_indirect d) nd = addr (sector_of g) s (d_indirect d) nd) as Ha.
  { intros [| |k|k j] Hv; simpl; [done | done | by apply E1 |]. destruct Hv as [Hk1 Hj]. unfold level2. rewrite E1 by exact Hk1.
    destruct (Z.eqb_spec (level1 (sector_of g) (d_indirect d) k) 0) as [|Hne]; [reflexivity|].
    pose proof (Hk (Ind k)) as Ei. simpl in Ei. rewrite Ei; [reflexivity | split; [exact Hk1 | by right] | done]. }
  destruct (file_tree_ext (priv := priv) g h s (d_indirect d) (d_length d)) as [Ht' Hb]; [done | done | done | | |].
  { intros k j Hk1 Hj Hnz. apply (Hk (Dat k j)); [|done]. split; [split; [exact Hk1 | exact Hj] | right; exact Hnz]. }
  { intros nd Hl. unfold used. rewrite Hm. by apply Hown. }
  exists h. split; [exact E|]. split.
  { eapply ok_stable; [exact Hg | exact Hso | exact Hdv | exact He | exact Hm |]. intros x Hx. rewrite Hc.
    destruct (Z.eqb_spec x s) as [->|]; done. }
  split; [exact Hdv|]. split; [exact He|]. split; [exact Hm|]. split; [exact Es|]. split.
  { intros x Hx. rewrite Hc. by rewrite (proj2 (Z.eqb_neq _ _) Hx). }
  unfold file_ok, file_byte, file_idx, file_len. rewrite Es. split; [exact Ht'|]. split; [exact Ha | exact Hb].
Qed.

Lemma quiet_pointer_sector f f1 s idx x : quiet f f1 -> pointer_sector f1 s idx x <-> pointer_sector f s idx x.
Proof. intros Hq. unfold pointer_sector. by setoid_rewrite (quiet_level1 f f1 Hq). Qed.

Lemma quiet_grow_done f f1 g s d d' n : quiet f f1 -> grow_done f1 g s d d' n -> grow_done f g s d d' n.
Proof.
  intros Hq (H1 & H2 & H3 & H4 & H5 & H6 & H7). split; [exact H1|]. split; [exact H2|]. split; [exact H3|]. split; [exact H4|].
  split; [|split].
  - intros k Hk Hkn. rewrite H5 by done. by rewrite (quiet_byte f f1 Hq).
  - eapply grown_weaken; [|eapply quiet_grown_from; [exact Hq | exact H6]]. intros x Hx. by rewrite (quiet_pointer_sector f f1 s _ x Hq) in Hx.
  - intros nd Hl Hu. destruct (H7 nd Hl) as [[Hv Hnz] Ea]; [by rewrite (quiet_used f f1 Hq)|].
    rewrite (quiet_addr f f1 Hq) in Hnz, Ea. by split.
Qed.

Lemma wrote_alloc p j f g o data :
  ok f -> opened p j f -> 0 <= o -> o + Z.of_nat (length data) <= file_len f (i_sector j) -> wrote j f g o data -> ok g.
Proof using AllocSpec0.
  intros Hf Ho Hoff Hend (H1 & H2 & H3 & H4 & H5 & _). eapply ok_stable; [exact Hf | exact H1 | exact H2 | exact H3 | exact H4 |].
  intros x Hx. apply H5. intros k Hk Heq. pose proof (div_mul_le k).
  destruct (data_node p j f k Ho) as [Hl _]; [lia | lia |]. destruct Ho as (_ & _ & _ & [_ Hown]).
  destruct (Hown _ Hl) as (_ & _ & Hnp). apply Hnp. rewrite <- Heq in Hx. exact Hx.
Qed.

Section extension.
Context (p : Z) (j : inode) (f g1 h g : fs St) (o : Z) (d' data : list Z).
Let s := i_sector j.
Hypothesis Hf : ok f.
Hypothesis Ho : opened p j f.
Hypothesis Hoff : 0 <= o.
Let n := o + Z.of_nat (length data).
Hypothesis Hn : 0 < n <= MAX_FILE_BYTES.
Hypothesis Hgrow : grow_done f g1 s (sector_of f s) d' n.
Hypothesis Hdev : device_size h = device_size g1.
Hypothesis Hmap : free_map h = free_map g1.
Hypothesis Henv : env h = env g1.
Hypothesis Hoh : opened p j h.
Hypothesis Hokh : ok h.
Hypothesis Hself : sector_of h s = d'.
Hypothesis Hother : forall x, x <> s -> sector_of h x = sector_of g1 x.
Hypothesis Haddr : forall nd, node_valid nd -> addr (sector_of h) s (d_indirect d') nd = addr (sector_of g1) s (d_indirect d') nd.
Hypothesis Hbytes : forall k, 0 <= k -> k / 512 * 512 < n -> file_byte h s k = tree_byte (sector_of g1) (d_indirect d') k.
Hypothesis Hw : wrote j h g o data.

Lemma grown_len : file_len h s = n.
Proof using Hself Hgrow. unfold file_len. rewrite Hself. apply Hgrow. Qed.

Lemma extension_frame x : 0 <= x < device_size f -> used f x = true -> ~ priv x -> ~ node_of f s x -> sector_of g x = sector_of f x.
Proof using Hf Ho Hoff Hn Hgrow Hother Haddr Hw Hself Hoh.
  intros Hx Hu Hp Hnode. assert (x <> s) as Hxs.
  { intros ->. apply Hnode. exists Self. split; [apply tree_self | done]. }
  pose proof Hgrow as (_ & _ & _ & _ & _ & (_ & _ & _ & _ & Hsame) & Hext). pose proof Hw as (_ & _ & _ & _ & Hod & _).
  rewrite Hod; [rewrite (Hother x Hxs)|].
  - apply Hsame; [exact Hx | exact Hu | exact Hp |]. intros [Hnz [Heq|(k & Hk & Heq)]]; apply Hnode.
    + exists Root. split; [apply tree_root; unfold file_idx; congruence | symmetry; exact Heq].
    + exists (Ind k). split; [|symmetry; exact Heq]. split; [exact Hk | right; simpl; unfold file_idx; congruence].
  - intros k Hk Heq. apply Hnode. pose proof (div_mul_le k).
    destruct (data_node p j h k Hoh) as (Hl & Hi & Hj); [lia | fold s; rewrite grown_len; unfold n; lia |].
    set (nd := Dat (k / level1_bytes) (k / 512 mod 128)) in *. fold s in Hl.
    assert (file_idx h s = d_indirect d') as Ei by (unfold file_idx; by rewrite Hself).
    assert (addr (sector_of h) s (file_idx h s) nd = x) as Ea by exact Heq. rewrite Ei, Haddr in Ea by exact (conj Hi Hj).
    destruct (Hext nd) as [Hlf Eaf].
    + split; [exact (conj Hi Hj)|]. right. rewrite Ea. destruct Hl as [_ [|Hl]]; [done|].
      rewrite Ei, Haddr, Ea in Hl by exact (conj Hi Hj). exact Hl.
    + rewrite Ea. exact Hu.
    + exists nd. split; [exact Hlf|]. rewrite <- Ea. exact Eaf.
Qed.

Lemma extension_nodes x : node_of g s x -> used f x = true -> node_of f s x.
Proof using Hoff Hgrow Hself Haddr Hw Hoh.
  intros (nd & [Hv Hl] & Ha) Hu. pose proof grown_len as El.
  assert (o + Z.of_nat (length data) <= file_len h s) as Hend by (rewrite El; unfold n; lia).
  pose proof Hw as (_ & _ & _ & _ & Wod & _). pose proof (wrote_idx p j h g o _ Hoh Hoff Hend Wod) as Ei. fold s in Ei.
  assert (file_idx h s = d_indirect d') as Eh by (unfold file_idx; by rewrite Hself).
  assert (addr (sector_of g) s (file_idx g s) nd = addr (sector_of g1) s (d_indirect d') nd) as E.
  { rewrite Ei, Eh, <- (Haddr nd Hv), <- Eh. destruct nd as [| |k|k l]; simpl; [reflexivity | reflexivity | |].
    - exact (wrote_level1 p j h g o _ Hoh Hoff Hend Wod k Hv).
    - exact (wrote_level2 p j h g o _ Hoh Hoff Hend Wod k l (proj1 Hv)). }
  rewrite E in Hl, Ha. destruct Hgrow as (_ & _ & _ & _ & _ & _ & Hext). destruct (Hext nd) as [Hlf Ea].
  { split; [exact Hv | exact Hl]. } { rewrite Ha. exact Hu. }
  exists nd. split; [exact Hlf|]. rewrite <- Ha. exact Ea.
Qed.

Lemma extension_bytes : exists z : bool, forall k, 0 <= k < o ->
  file_byte g s k = if z && (k / 512 =? o / 512) then 0 else if k <? file_len f s then file_byte f s k else 0.
Proof using Ho Hoff Hn Hgrow Hself Hbytes Hw Hoh.
  pose proof Hw as (_ & _ & _ & _ & Hod & _ & z & Hrest). exists (z (o / 512)). intros k Hk. pose proof Hgrow as (_ & _ & _ & _ & Hb & _). pose proof (div_mul_le k). pose proof grown_len as El.
  assert (k / 512 * 512 < n) as Hkn by (unfold n; lia). pose proof (Hb k ltac:(lia) Hkn) as Eb.
  rewrite <- Hbytes in Eb by lia. change (d_length (sector_of f s)) with (file_len f s) in Eb.
  change (tree_byte (sector_of f) (d_indirect (sector_of f s)) k) with (file_byte f s k) in Eb. rewrite <- Eb.
  destruct (Z.eqb_spec (k / 512) (o / 512)) as [E|Hne]; rewrite ?andb_true_r, ?andb_false_r.
  - fold s in Hrest. rewrite <- E. apply Hrest; [lia | rewrite El; exact Hkn | lia].
  - rewrite !file_byte_sector, (wrote_data_sector p j h g o (Z.of_nat (length data)) Hoh Hoff) by (fold s; rewrite ?El; done || lia).
    fold s. rewrite Hod; [done|]. intros k' Hk' Heq. apply Hne. pose proof (div_mul_le k').
    assert (k / 512 = k' / 512) as E.
    { apply (data_sector_inj p j h k k' Hoh); [lia | lia | | | symmetry; exact Heq]; fold s; rewrite El; unfold n in *; lia. }
    assert (k / 512 <= o / 512) by (apply Z.div_le_mono; lia). assert (o / 512 <= k' / 512) by (apply Z.div_le_mono; lia). lia.
Qed.

Lemma extension_done : extended f g s o data.
Proof using All.
  pose proof Hgrow as (_ & _ & [Hdir Hroot] & _ & _ & (_ & Hd1 & He1 & Hm1 & _) & _). pose proof grown_len as El.
  assert (o + Z.of_nat (length data) <= file_len h s) as Hend by (rewrite El; unfold n; lia).
  pose proof Hw as (_ & Wd & We & Wm & Wod & Wb & _).
  pose proof (wrote_self p j h g o (Z.of_nat (length data)) Hoh Hoff Hend Wod) as Es. fold s in Es.
  split; [eapply (wrote_alloc p j h); [exact Hokh | exact Hoh | exact Hoff | exact Hend | exact Hw]|].
  split; [congruence|]. split; [congruence|]. split.
  { pose proof (wrote_opened p j h g o data Hoh Hoff Hend Hw) as (_ & _ & _ & Ht). exact Ht. }
  split; [unfold file_len; rewrite Es; exact El|]. split; [split; [rewrite Es, Hself; exact Hdir | unfold file_idx at 2; rewrite Es, Hself; exact Hroot]|].
  split; [exact Wb|]. split; [exact extension_bytes|].
  split; [|split; [exact extension_frame | exact extension_nodes]].
  intros x Hx Hu. unfold used. rewrite Wm, Hmap. apply Hm1; [exact Hx | exact Hu].
Qed.
End extension.

(** ** Checking in and out around an operation *)

Section between.
Context (f : fs St) (m : gmap Z inode).
Hypothesis Hm : forall q, own q -> m !! q = inodes f !! q.
Let f' := with_inodes f m.

Lemma env_between g : env g = env f' -> inodes g = m /\ env (with_inodes g (inodes f)) = env f.
Proof. unfold env. simpl. intros He. injection He. intros. split; [done | congruence]. Qed.

Lemma ok_between g : ok g -> env g = env f' -> ok (with_inodes g (inodes f)).
Proof using Hm AllocFrame0.
  intros Hg He. destruct (env_between g He) as [Em _]. apply (ok_frame g); try done. simpl. intros q Hq. by rewrite Em, Hm.
Qed.

Lemma ok_enter : ok f -> ok f'.
Proof using Hm AllocFrame0. intros Hf. by apply (ok_frame f). Qed.

Lemma grown_between W g : grown (priv := priv) (ok := ok) W f' g ->
  grown (priv := priv) (ok := ok) W f (with_inodes g (inodes f)).
Proof using Hm AllocFrame0.
  intros (H1 & H2 & H3 & H4 & H5). split; [by apply ok_between|]. split; [exact H2|]. split; [by apply env_between|].
  split; [exact H4 | exact H5].
Qed.

Lemma extended_between g s o data : extended f' g s o data -> extended f (with_inodes g (inodes f)) s o data.
Proof using Hm AllocFrame0.
  intros (H1 & H2 & H3 & H4). split; [by apply ok_between|]. split; [exact H2|]. split; [by apply env_between | exact H4].
Qed.

Lemma grow_failed_between g s d : grow_failed f' g s d -> grow_failed f (with_inodes g (inodes f)) s d.
Proof using Hm AllocFrame0.
  intros [(g' & Hg' & Hfull) Hr]. split; [exists (with_inodes g' (inodes f)); split; [by apply grown_between | exact Hfull]|].
  destruct (_ && _).
  - destruct Hr as (H1 & H2 & H3 & H4). split; [by apply ok_between|]. split; [exact H2|]. split; [by apply env_between | exact H4].
  - destruct Hr as (H1 & H2 & H3 & H4). split; [exact H1|]. split; [exact H2|]. split; [exact H3 | by apply grown_between].
Qed.
End between.

Lemma quiet_grow_failed f f1 g s d : quiet f f1 -> grow_failed f1 g s d -> grow_failed f g s d.
Proof.
  intros Hq [(g' & Hg' & Hfull) Hr].
  assert (forall h, grown (priv := priv) (ok := ok) (pointer_sector f1 s (d_indirect d)) f1 h ->
    grown (priv := priv) (ok := ok) (pointer_sector f s (d_indirect d)) f h) as Hgr.
  { intros h Hh. eapply grown_weaken; [|eapply quiet_grown_from; [exact Hq | exact Hh]].
    intros x Hx. by rewrite (quiet_pointer_sector f f1 s _ x Hq) in Hx. }
  split; [exists g'; split; [by apply Hgr | exact Hfull]|]. destruct (_ && _).
  - destruct Hq as (Q1 & Q2 & Q3 & Q4 & Q5). destruct Hr as (H1 & H2 & H3 & H4 & H5 & H6).
    split; [exact H1|]. split; [congruence|]. split; [congruence|]. split; [exact H4|]. rewrite Q2 in *.
    unfold used in *. rewrite Q4 in *. split; [exact H5|]. intros x Hx Hu Hne Hp. rewrite H6 by done. apply Q5.
  - destruct Hr as (H1 & H2 & H3 & H4). split; [exact H1|]. split; [|split; [|by apply Hgr]].
    + intros k Hk Hkl. rewrite H2 by done. by rewrite (quiet_byte f f1 Hq).
    + intros nd Hv. rewrite H3 by exact Hv. apply (quiet_addr f f1 Hq).
Qed.

(** ** The write *)

Lemma leave_writer p i f g :
  inodes f !! p = Some i -> idle i -> env g = env (with_inodes f (<[p := set_counts i 1 0]> (inodes f))) ->
  writer_checkout p g = Done (tt, with_inodes g (inodes f)).
Proof.
  intros Hi Hidle He. destruct (env_between f _ g He) as [Em _]. rewrite (writer_checkout_run p i); [|by rewrite Em; apply lookup_insert_eq | done].
  by rewrite Em, insert_insert_eq, insert_id.
Qed.

Lemma own_apart p i f : ~ own p -> forall q, own q -> <[p := i]> (inodes f) !! q = inodes f !! q.
Proof. intros Hp q Hq. rewrite lookup_insert_ne; [done|]. by intros ->. Qed.

(** From checking in as a writer on. *)
Lemma past_end_run p i f (buffer : list Z) size offset :
  ~ own p -> ok f -> opened p i f -> idle i -> 0 <= offset -> 0 <= size <= Z.of_nat (length buffer) ->
  Forall is_byte buffer -> file_len f (i_sector i) < offset + size <= MAX_FILE_BYTES ->
  exists n g, (let! disk_inode := on_store (store_read (i_sector i)) in
      let! r := inode_resize al resize_depth disk_inode (i32 (size + offset)) in
      if fst r then
        on_store (store_write (i_sector i) (snd r)) ;;
        let! n := write_loop (S (Z.to_nat size)) p buffer size offset 0 in
        writer_checkout p ;;
        ret n
      else writer_checkout p ;; ret 0) (with_inodes f (<[p := set_counts i 1 0]> (inodes f))) = Done (n, g) /\
    ((n = size /\ extended f g (i_sector i) offset (take (Z.to_nat size) buffer)) \/
     (n = 0 /\ grow_failed f g (i_sector i) (sector_of f (i_sector i)))).
Proof using All.
  intros Hown Hf Ho Hidle Hoff Hsize Hb Hlen. pose proof Ho as (_ & _ & Hi & _).
  pose proof (opened_counts p i 1 0 f Ho) as Ho'. set (j := set_counts i 1 0) in *. set (s := i_sector i) in *.
  pose proof (own_apart p j f Hown) as Hap. pose proof (ok_enter f _ Hap Hf) as Hf'. set (f' := with_inodes f _) in *.
  pose proof (file_length_bound p i f Ho) as Hlb. fold s in Hlb.
  destruct (store_read_fs f' s) as (f1 & E1 & Hq1); [apply Ho' | exact (self_range p j f' Ho') |].
  rewrite (bind_done _ _ _ _ _ E1). destruct (quiet_opened p j f' f1 Ho' Hq1) as (Ho1 & El1 & Ei1 & _).
  pose proof (quiet_grown (al := al) (priv := priv) none f' f1 Hf' Hq1) as (Hok1 & _).
  unfold MAX_FILE_BYTES in Hlen, Hlb. rewrite (i32_small (size + offset)) by (unfold is_i32; lia).
  destruct (inode_resize_grow f1 s (sector_of f' s) (size + offset)) as (b & d' & g1 & E2 & Hb2).
  { exact Hok1. } { apply contents_ok, Ho'. }
  { pose proof Ho1 as (_ & _ & _ & Ht1). rewrite <- (quiet_sector f' f1 Hq1). exact Ht1. }
  { change (file_len f s <= size + offset <= MAX_FILE_BYTES). unfold MAX_FILE_BYTES. lia. } { lia. }
  rewrite (bind_done _ _ _ _ _ E2). cbn [fst snd]. destruct b.
  - pose proof (quiet_grow_done f' f1 g1 s _ d' _ Hq1 Hb2) as Hgd. pose proof Hgd as (Hd' & Hl' & _ & Ht' & _ & Hgr & _).
    destruct (commit_inode g1 s d') as (h & E3 & Hokh & Hdh & Heh & Hmh & Hsh & Hxh & Hth & Hah & Hbh).
    { apply Hgr. } { exact Hd'. } { rewrite Hl'. exact Ht'. }
    rewrite (bind_done _ _ _ _ _ E3). pose proof Hgr as (_ & Hd1 & He1 & _).
    assert (opened p j h) as Hoh.
    { split; [by apply ok_store|]. split; [pose proof Ho' as (_ & ? & _); lia|]. split; [|exact Hth].
      destruct (env_between f _ h (eq_trans Heh He1)) as [-> _]. apply lookup_insert_eq. }
    assert (file_len h (i_sector j) = size + offset) as Elh by (unfold file_len; change (i_sector j) with s; rewrite Hsh; exact Hl').
    destruct (write_loop_run p j buffer (S (Z.to_nat size)) size offset 0 h Hoh Hoff) as (g & E4 & Hw);
      [lia | rewrite Elh; lia | lia | lia | exact Hb | lia |].
    rewrite (bind_done _ _ _ _ _ E4). change (slice (Z.to_nat 0) (Z.to_nat size) buffer) with (take (Z.to_nat size) buffer) in Hw.
    assert (Z.of_nat (length (take (Z.to_nat size) buffer)) = size) as Hlt by (rewrite length_take; lia).
    assert (extended f' g s offset (take (Z.to_nat size) buffer)) as Hex.
    { set (data := take (Z.to_nat size) buffer) in *. assert (size + offset = offset + Z.of_nat (length data)) as En by lia.
      rewrite En in Hgd, Hl'. rewrite Hl' in Hbh.
      refine (extension_done p j f' g1 h g offset d' data Hf' Ho' Hoff _ Hgd Hdh Hmh Heh Hoh Hokh Hsh Hxh Hah Hbh Hw).
      unfold MAX_FILE_BYTES. lia. }
    pose proof Hex as (_ & _ & Heg & _). rewrite (bind_done _ _ _ _ _ (leave_writer p i f g Hi Hidle Heg)).
    exists size, (with_inodes g (inodes f)). split; [done|]. left. split; [done | by eapply extended_between].
  - pose proof (quiet_grow_failed f' f1 g1 s _ Hq1 Hb2) as Hgf. assert (env g1 = env f') as Heg.
    { destruct Hgf as [_ Hr]. destruct (_ && _); [apply Hr | apply Hr]. }
    rewrite (bind_done _ _ _ _ _ (leave_writer p i f g1 Hi Hidle Heg)).
    exists 0, (with_inodes g1 (inodes f)). split; [done|]. right. split; [done | by eapply grow_failed_between].
Qed.

Lemma quiet_opened_len p i f g : opened p i f -> quiet f g ->
  opened p i g /\ file_len g (i_sector i) = file_len f (i_sector i).
Proof. intros Ho Hq. destruct (quiet_opened p i f g Ho Hq) as (H1 & H2 & _). by split. Qed.

Lemma quiet_extended f f1 g s o data : quiet f f1 -> extended f1 g s o data -> extended f g s o data.
Proof.
  intros Hq (H1 & H2 & H3 & H4 & H5 & H6 & H7 & H8 & H9 & H10 & H11). pose proof Hq as (_ & Q2 & Q3 & Q4 & Q5).
  assert (file_idx f1 s = file_idx f s) as Ei by (unfold file_idx; by rewrite Q5).
  assert (file_len f1 s = file_len f s) as El by (unfold file_len; by rewrite Q5).
  split; [exact H1|]. split; [congruence|]. split; [congruence|]. split; [exact H4|]. split; [exact H5|].
  split; [by rewrite <- Q5, <- Ei|]. split; [exact H7|]. rewrite Q2 in *.
  assert (forall x, node_of f1 s x -> node_of f s x) as Hno.
  { intros x (nd & [Hv Hl] & Ha). exists nd. rewrite Ei, (quiet_addr f f1 Hq) in Hl, Ha. by split. }
  split; [|split; [|split]].
  - destruct H8 as [z H8]. exists z. intros k Hk. specialize (H8 k Hk). rewrite El in H8. unfold file_byte in H8 at 2. rewrite Ei, (quiet_byte f f1 Hq) in H8. exact H8.
  - intros x Hx Hu. apply H9; [exact Hx | by rewrite (quiet_used f f1 Hq)].
  - intros x Hx Hu Hp Hn. rewrite H10; [apply Q5 | exact Hx | by rewrite (quiet_used f f1 Hq) | exact Hp |].
    intros Hx1. by apply Hn, Hno.
  - intros x Hx Hu. apply Hno, H11; [exact Hx | by rewrite (quiet_used f f1 Hq)].
Qed.

Lemma inode_write_past p i f (buffer : list Z) size offset :
  p <> 0 -> ~ own p -> ok f -> opened p i f -> idle i -> deny_write_cnt i = 0 ->
  0 <= offset -> 0 <= size <= Z.of_nat (length buffer) -> Forall is_byte buffer ->
  file_len f (i_sector i) < offset + size <= MAX_FILE_BYTES ->
  exists n g, inode_write_at al p buffer size offset f = Done (n, g) /\
    ((n = size /\ extended f g (i_sector i) offset (take (Z.to_nat size) buffer)) \/
     (n = 0 /\ grow_failed f g (i_sector i) (sector_of f (i_sector i)))).
Proof using All.
  intros Hp Hown Hf Ho Hidle Hdeny Hoff Hsize Hb Hlen. pose proof Ho as (Hs & _ & Hi & _). pose proof Hidle as [Hr _].
  unfold inode_write_at. rewrite assert_true by (by rewrite (proj2 (Z.eqb_neq _ _) Hp)).
  rewrite (bind_done _ _ _ _ _ (reader_checkin_run p i f Hi Hr)).
  pose proof (opened_counts p i 0 (u32 (active_readers i + 1)) f Ho) as Ho1. set (j := set_counts i 0 _) in *.
  set (f1 := with_inodes f _) in *.
  rewrite (bind_done _ _ _ _ _ (load_inode_at p j f1 (lookup_insert_eq _ _ _))). change (deny_write_cnt j) with (deny_write_cnt i).
  rewrite Hdeny. cbn [negb Z.eqb]. destruct (inode_length_run p j f1 Ho1) as (f2 & E2 & Hq2). rewrite (bind_done _ _ _ _ _ E2).
  change (file_len f1 (i_sector j)) with (file_len f (i_sector i)). pose proof (file_length_bound p i f Ho) as Hlb.
  unfold MAX_FILE_BYTES in Hlb, Hlen. rewrite !u32_small, (proj2 (Z.ltb_lt _ _)) by lia.
  destruct (quiet_between p i j f f2 Hi Hq2) as [Hj Hq]. rewrite (bind_done _ _ _ _ _ (reader_checkout_run p i f2 Hj Hr)).
  set (f3 := with_inodes f2 _) in *. destruct (quiet_opened_len p i f f3 Ho Hq) as [Ho3 El3]. pose proof Ho3 as (_ & _ & Hi3 & _).
  pose proof (quiet_grown (al := al) (priv := priv) none f f3 Hf Hq) as (Hok3 & _).
  rewrite (bind_done _ _ _ _ _ (writer_checkin_run p i f3 Hi3 Hidle)).
  destruct (past_end_run p i f3 buffer size offset Hown Hok3 Ho3 Hidle Hoff Hsize Hb) as (n & g & E & Hres).
  { rewrite El3. unfold MAX_FILE_BYTES. lia. }
  exists n, g. split; [exact E|]. destruct Hres as [[-> Hex]|[-> Hgf]]; [left | right]; (split; [reflexivity|]).
  - by eapply quiet_extended.
  - rewrite <- (quiet_sector f f3 Hq). by eapply quiet_grow_failed.
Qed.
End past_end.
