(* ===== verification/InodeLife.v ===== *)
(** * The life of a file

    [inode_create] makes a file of zeros, [inode_open] and [inode_close] keep
    one inode in memory per open file, and the last close of a removed file
    gives back exactly its sectors. *)

From stdpp Require Import options.
From S2P Require Import Prelude Bytes Bitmap Block Store Inode InodeTree InodeGrow InodeShrink InodeResize.
From S2P Require Import InodeRollback InodeExtend InodeIO InodeWrite.
Local Open Scope Z_scope.
Local Open Scope kernel_scope.

Section create.
Context {St : Type} `{!SectorStore St} {al : allocator St} {priv : Z -> Prop} {ok : fs St -> Prop}.
Context `{!AllocSpec al priv ok} `{!ReleaseSpec al priv ok}.
Implicit Types (f g h : fs St) (p s o k x : Z) (i j : inode) (d data : list Z) (nd : node).
Abbreviation file_tree := (file_tree (priv := priv)).

(** Every sector in use but [s] is as it was. *)
Definition others_kept (f g : fs St) (s : Z) : Prop :=
  ok g /\ device_size g = device_size f /\ env g = env f /\
  (forall x, 0 <= x < device_size f -> used f x = true -> used g x = true) /\
  (forall x, 0 <= x < device_size f -> used f x = true -> ~ priv x -> x <> s -> sector_of g x = sector_of f x).

(** A file of [length] zeros at [s], made of [s] and of sectors that were free. *)
Definition created (f g : fs St) (s length : Z) : Prop :=
  file_ok priv g s /\ file_len g s = length /\ d_isdir (sector_of g s) = false /\
  (forall k, 0 <= k < length -> file_byte g s k = 0) /\
  (forall x, node_of g s x -> x = s \/ used f x = false).

Lemma bare_tree f s : 0 <= s < device_size f -> used f s = true -> ~ priv s -> file_tree f s 0 0.
Proof.
  intros Hs Hu Hp. assert (forall nd, live (sector_of f) s 0 nd -> nd = Self) as El.
  { intros [| |k|k j] [_ [[=]|Hl]]; [done | done |..]; exfalso; apply Hl; reflexivity. }
  split; [split_and!|].
  - lia. - unfold MAX_FILE_BYTES. lia. - lia.
  - intros i Hi. change (level1 (sector_of f) 0 i) with 0. unfold level1_bytes. lia.
  - intros i j Hi Hj. change (level2 (sector_of f) 0 i j) with 0. unfold level1_bytes. lia.
  - intros a b ->%El ->%El. done.
  - intros k Hk Hlt. pose proof (Z.div_pos k 512). lia.
  - intros nd ->%El. simpl. done.
Qed.

(** The on-disk inode of a new file. *)
Definition new_inode (idx : Z) : list Z := set_indirect idx (set_magic INODE_MAGIC blank_sector).

Lemma new_inode_ok idx : is_u32 idx ->
  sector_ok (new_inode idx) /\ d_indirect (new_inode idx) = idx /\ d_length (new_inode idx) = 0 /\ d_isdir (new_inode idx) = false.
Proof.
  intros Hi. assert (sector_ok (set_magic INODE_MAGIC blank_sector)) as Hm by apply set_magic_ok, blank_sector_ok.
  unfold new_inode. split; [by apply set_indirect_ok|]. split; [by apply indirect_set_indirect|].
  rewrite length_set_indirect, isdir_set_indirect by done. split; vm_compute; reflexivity.
Qed.

Lemma others_kept_trans f g h s : others_kept f g s -> others_kept g h s -> others_kept f h s.
Proof.
  intros (A1 & A2 & A3 & A4 & A5) (B1 & B2 & B3 & B4 & B5). rewrite A2 in *.
  split; [exact B1|]. split; [congruence|]. split; [congruence|]. split; [auto|].
  intros x Hx Hu Hp Hne. rewrite B5 by auto. by apply A5.
Qed.

Lemma grown_others f g s : grown (priv := priv) (ok := ok) none f g -> others_kept f g s.
Proof.
  intros (A1 & A2 & A3 & A4 & A5). split; [done|]. split; [done|]. split; [done|]. split; [done|].
  intros x Hx Hu Hp _. apply A5; [done | done | done | by intros []].
Qed.

(** The last step of [inode_create]. *)
Lemma create_commit f g s d length :
  others_kept f g s -> sector_ok d -> d_length d = length -> d_isdir d = false -> 0 <= s < device_size f ->
  file_tree g s (d_indirect d) length ->
  (forall k, 0 <= k -> k / 512 * 512 < length -> tree_byte (sector_of g) (d_indirect d) k = 0) ->
  (forall nd, live (sector_of g) s (d_indirect d) nd ->
     addr (sector_of g) s (d_indirect d) nd = s \/ used f (addr (sector_of g) s (d_indirect d) nd) = false) ->
  exists h, on_store (store_write s d) g = Done (tt, h) /\ others_kept f h s /\ created f h s length.
Proof using AllocSpec0.
  intros (A1 & A2 & A3 & A4 & A5) Hd Hl Hdir Hs Ht Hz Hn. rewrite <- Hl in Ht.
  destruct (commit_inode g s d A1 Hd Ht) as (h & E & Hok & Hdv & He & Hm & Es & Hx & Hf & Ha & Hb).
  exists h. split; [exact E|]. split.
  - split; [exact Hok|]. split; [congruence|]. split; [congruence|]. split.
    + intros x Hxr Hu. unfold used. rewrite Hm. by apply A4.
    + intros x Hxr Hu Hp Hne. rewrite Hx by exact Hne. by apply A5.
  - split; [exact Hf|]. split; [unfold file_len; by rewrite Es|]. split; [by rewrite Es|]. split.
    + intros k Hk. pose proof (div_mul_le k). rewrite Hb by lia. apply Hz; lia.
    + intros x (nd & [Hv Hlv] & Hax). unfold file_idx in Hlv, Hax. rewrite Es, (Ha nd Hv) in Hlv, Hax. rewrite <- Hax.
      apply Hn. split; [exact Hv | exact Hlv].
Qed.

(** The new doubly indirect sector [idx] of the file at [s]. *)
Section with_root.
Context (f f1 : fs St) (s idx : Z).
Hypothesis Hf : ok f.
Hypothesis Hs : 0 <= s < device_size f.
Hypothesis Hus : used f s = true.
Hypothesis Hps : ~ priv s.
Hypothesis Hgr : grown (priv := priv) (ok := ok) none f f1.
Hypothesis Hfr : fresh (priv := priv) f f1 idx.
Hypothesis Hbl : sector_of f1 idx = blank_sector.

Lemma rooted_tree : file_tree f1 s idx 0.
Proof using All. apply (empty_tree f f1 s idx Hf); [by apply bare_tree | exact Hgr | exact Hfr | exact Hbl]. Qed.

Lemma rooted_pointer x : pointer_sector f1 s idx x -> x = idx.
Proof using All.
  intros [Hnz [|(k & Hk & ->)]]; [done|]. by rewrite (level1_empty f1 s idx 0 k rooted_tree) in Hnz by lia.
Qed.

Lemma used_not_root x : used f x = true -> x <> idx.
Proof using Hfr. destruct Hfr as (_ & Hn & _). intros Hx ->. congruence. Qed.

Lemma rooted_grown g : grown (priv := priv) (ok := ok) (pointer_sector f1 s idx) f1 g -> others_kept f g s.
Proof using All.
  intros (B1 & B2 & B3 & B4 & B5). destruct Hgr as (A1 & A2 & A3 & A4 & A5). rewrite A2 in *.
  split; [exact B1|]. split; [congruence|]. split; [congruence|]. split; [auto|]. intros x Hx Hu Hp Hne.
  rewrite B5; [| exact Hx | by apply A4 | exact Hp |].
  - apply A5; [exact Hx | exact Hu | exact Hp | by intros []].
  - intros Hpt%rooted_pointer. by apply (used_not_root x Hu).
Qed.

Lemma rooted_lost g : root_lost (priv := priv) (ok := ok) f1 g idx -> others_kept f g s.
Proof using Hgr Hfr.
  intros (B1 & B2 & B3 & _ & B4 & B5). destruct Hgr as (A1 & A2 & A3 & A4 & A5). rewrite A2 in *.
  split; [exact B1|]. split; [congruence|]. split; [congruence|]. split.
  - intros x Hx Hu. apply B4; [exact Hx | by apply A4 | by apply used_not_root].
  - intros x Hx Hu Hp Hne. rewrite B5; [| exact Hx | by apply A4 | by apply used_not_root | exact Hp].
    apply A5; [exact Hx | exact Hu | exact Hp | by intros []].
Qed.

Lemma rooted_nodes g idx' nd : device_size g = device_size f1 -> extends f1 g s idx idx' ->
  live (sector_of g) s idx' nd -> 0 <= addr (sector_of g) s idx' nd < device_size f ->
  addr (sector_of g) s idx' nd = s \/ used f (addr (sector_of g) s idx' nd) = false.
Proof using All.
  intros Hd Hext Hl Hr. destruct (used f (addr (sector_of g) s idx' nd)) eqn:Eu; [left | by right].
  destruct Hgr as (_ & _ & _ & A4 & _). destruct (Hext nd Hl) as [Hl1 Ea]; [apply A4; [exact Hr | exact Eu]|].
  destruct (empty_nodes f1 s idx nd rooted_tree Hl1) as [->| ->]; [symmetry; exact Ea|].
  exfalso. apply (used_not_root _ Eu). symmetry. exact Ea.
Qed.
End with_root.

Lemma inode_create_run f s length :
  ok f -> 0 <= s < device_size f -> used f s = true -> ~ priv s -> 0 <= length <= MAX_FILE_BYTES ->
  exists b g, inode_create al s length f = Done (b, g) /\ others_kept f g s /\
    (if b : bool then created f g s length else True).
Proof using AllocSpec0 ReleaseSpec0.
  intros Hf Hs Hus Hps Hlen. unfold inode_create. rewrite assert_true by (apply Z.leb_le; lia).
  destruct (add_sector_run f Hf) as (r & f1 & E & Hgr & Hr). unfold add_sector_to_file in E.
  apply bind_inv in E as (a & f0 & Ea & E). rewrite (bind_done _ _ _ _ _ Ea). destruct a as [idx|].
  2: { injection E as <- <-. exists false, f0. split; [reflexivity|]. split; [by apply grown_others | done]. }
  apply bind_inv in E as ([] & f1' & Ew & E). injection E as <- <-. rewrite (bind_done _ _ _ _ _ Ew).
  destruct Hr as [Hfr Hbl]. pose proof (rooted_tree f f1' s idx Hf Hs Hus Hps Hgr Hfr Hbl) as Ht.
  assert (is_u32 idx) as Hi32 by by eapply fresh_u32. fold (new_inode idx).
  destruct (new_inode_ok idx Hi32) as (Hd & Ei & El & Edir). assert (idx <> 0) as Hi0 by (destruct Hfr as (? & _); lia).
  assert (device_size f1' = device_size f) as Hdv by apply Hgr.
  destruct (Z.ltb_spec 0 length) as [Hpos|Hz].
  - destruct (inode_resize_grow f1' s (new_inode idx) length) as (b & d' & g & E & Hb);
      [apply Hgr | exact Hd | rewrite Ei, El; exact Ht | lia | exact Hpos |].
    rewrite (bind_done _ _ _ _ _ E). cbn [fst snd]. destruct b.
    + destruct Hb as (H1 & H2 & H3 & H4 & H5 & H6 & H7). rewrite Ei in *.
      destruct (create_commit f g s d' length) as (h & E' & Ho & Hc); [|exact H1 | exact H2 | destruct H3; congruence | exact Hs | exact H4 | | |].
      { by eapply (rooted_grown f f1' s idx). }
      { intros k Hk Hkl. rewrite H5 by done. rewrite El. by rewrite (proj2 (Z.ltb_ge _ _)) by lia. }
      { intros nd Hl. assert (device_size g = device_size f1') as Hdg by apply H6.
        eapply (rooted_nodes f f1' s idx Hf Hs Hus Hps Hgr Hfr Hbl g); [exact Hdg | exact H7 | exact Hl |].
        destruct H4 as [_ Hown]. destruct (Hown nd Hl) as (? & _). lia. }
      rewrite (bind_done _ _ _ _ _ E'). by exists true, h.
    + destruct Hb as [_ Hlost]. rewrite El, Ei, (proj2 (Z.eqb_neq _ _) Hi0) in Hlost. simpl in Hlost.
      exists false, g. split; [reflexivity|]. split; [by eapply rooted_lost | done].
  - rewrite bind_ret. cbn [fst snd]. assert (length = 0) as -> by lia.
    destruct (create_commit f f1' s (new_inode idx) 0) as (h & E' & Ho & Hc);
      [by apply grown_others | exact Hd | exact El | exact Edir | exact Hs | rewrite Ei; exact Ht | | |].
    { intros k Hk Hkl. pose proof (Z.div_pos k 512). lia. }
    { rewrite Ei. intros nd Hl. destruct (empty_nodes f1' s idx nd Ht Hl) as [->| ->]; [by left|]. right. apply Hfr. }
    rewrite (bind_done _ _ _ _ _ E'). by exists true, h.
Qed.
End create.

(** ** The table of open inodes *)

Section table.
Context {St : Type} `{!SectorStore St}.
Implicit Types (f g : fs St) (p s : Z) (i : inode).

(** The list names each inode in memory once, no two for one sector. *)
Record table_ok (f : fs St) : Prop := {
  table_nodup : NoDup (open_inodes f);
  table_dom p : p ∈ open_inodes f <-> is_Some (inodes f !! p);
  table_inj p q i j : inodes f !! p = Some i -> inodes f !! q = Some j -> i_sector i = i_sector j -> p = q;
  table_open p i : inodes f !! p = Some i -> 0 < p < next_ptr f /\ 1 <= open_cnt i;
  table_lock : open_inodes_lock f = false;
  table_next : 0 < next_ptr f
}.

Definition with_table (f : fs St) (l : list Z) (m : gmap Z inode) (n : Z) (o : list bool) : fs St :=
  mk_fs (store f) (free_map f) (free_map_file f) (free_map_lock f) l
    (open_inodes_lock f) m (files f) (dirs f) (cwd f) n o.

(** The inode in memory for sector [s]. *)
Definition open_at (f : fs St) (s p : Z) : Prop := exists i, inodes f !! p = Some i /\ i_sector i = s.

Lemma find_open_run l s f : (forall p, p ∈ l -> is_Some (inodes f !! p)) ->
  (exists p, find_open l s f = Done (Some p, f) /\ open_at f s p) \/
  (find_open l s f = Done (None, f) /\ forall p, p ∈ l -> ~ open_at f s p).
Proof.
  induction l as [|p l IH]; intros Hl; [right; split; [done | by intros p ?%elem_of_nil]|].
  destruct (Hl p) as [i Hi]; [by left|]. cbn [find_open]. rewrite (bind_done _ _ _ _ _ (load_inode_at p i f Hi)).
  destruct (Z.eqb_spec (i_sector i) s) as [E|Hne]; [left; exists p; split; [done | by exists i]|].
  destruct IH as [(q & E & Hq)|[E Hno]]; [intros q Hq; apply Hl; by right | left; by exists q|].
  right. split; [done|]. intros q [->|Hq]%elem_of_cons; [|by apply Hno]. intros (j & Hj & Ej). congruence.
Qed.

Definition bump (n : Z) (i : inode) : inode :=
  mk_inode (i_sector i) (open_cnt i + n) (removed i) (deny_write_cnt i)
    (active_writers i) (active_readers i) (waiting_writers i) (waiting_readers i).

Lemma inode_reopen_run f p i : p <> 0 -> inodes f !! p = Some i -> idle i ->
  inode_reopen p f = Done (p, with_inodes f (<[p := bump 1 i]> (inodes f))).
Proof.
  intros Hp Hi Hidle. unfold inode_reopen. rewrite (proj2 (Z.eqb_neq _ _) Hp). cbn [negb].
  rewrite (bind_done _ _ _ _ _ (writer_checkin_run p i f Hi Hidle)).
  rewrite (bind_done _ _ _ _ _ (load_inode_at p _ _ (lookup_insert_eq _ _ _))). rewrite (bind_done _ _ _ _ _ (store_inode_run p _ _)).
  cbn [inodes with_inodes]. rewrite insert_insert_eq.
  rewrite (bind_done _ _ _ _ _ (writer_checkout_run p (bump 1 i) _ (lookup_insert_eq _ _ _) Hidle)).
  cbn [inodes with_inodes]. rewrite insert_insert_eq. reflexivity.
Qed.

(** [inode_open] of a sector that is open shares the inode. *)
Lemma inode_open_shared f s p i : table_ok f -> inodes f !! p = Some i -> i_sector i = s -> idle i ->
  inode_open s f = Done (p, with_inodes f (<[p := bump 1 i]> (inodes f))).
Proof.
  intros Ht Hi Hs Hidle. unfold inode_open, acquire_open_inodes_lock.
  rewrite (bind_done _ _ f tt (snd (tt, mk_fs (store f) (free_map f) (free_map_file f) (free_map_lock f) (open_inodes f)
    true (inodes f) (files f) (dirs f) (cwd f) (next_ptr f) (oom f)))) by (unfold bind, get; by rewrite (table_lock f Ht)).
  cbn [snd]. set (f1 := mk_fs _ _ _ _ _ true _ _ _ _ _ _). rewrite (bind_done _ _ f1 f1 f1) by reflexivity.
  destruct (find_open_run (open_inodes f1) s f1) as [(q & E & Hq)|[E Hno]].
  { intros q. apply (table_dom f Ht). }
  - rewrite (bind_done _ _ _ _ _ E). destruct Hq as (j & Hj & Ej). assert (q = p) as -> by (eapply (table_inj f Ht); [exact Hj | exact Hi | congruence]).
    rewrite (bind_done _ _ f1 tt (with_inodes f (inodes f))).
    + apply (inode_reopen_run (with_inodes f (inodes f))); [|exact Hi | exact Hidle]. pose proof (table_open f Ht p i Hi). lia.
    + unfold release_open_inodes_lock, bind, get. simpl. unfold with_inodes. by rewrite (table_lock f Ht).
  - exfalso. apply (Hno p); [|by exists i]. apply (table_dom f Ht). by exists i.
Qed.

Definition new_entry (s : Z) : inode := mk_inode s 1 false 0 0 0 0 0.

(** Opening a sector that is not open. *)
Lemma inode_open_fresh f s : table_ok f -> (forall p, ~ open_at f s p) -> hd false (oom f) = false ->
  inode_open s f = Done (next_ptr f,
    with_table f (next_ptr f :: open_inodes f) (<[next_ptr f := new_entry s]> (inodes f)) (next_ptr f + 1) (tl (oom f))).
Proof.
  intros Ht Hno Hoom. pose proof (table_next f Ht) as Hn. unfold inode_open, acquire_open_inodes_lock.
  unfold bind at 1 2. unfold get at 1. rewrite (table_lock f Ht). unfold assert at 1. cbn [negb]. unfold bind at 1. cbn [ret].
  unfold set_open_inodes_lock at 1, modify at 1. set (f1 := mk_fs _ _ _ _ _ true _ _ _ _ _ _).
  rewrite (bind_done _ _ f1 f1 f1) by reflexivity.
  destruct (find_open_run (open_inodes f1) s f1) as [(q & E & Hq)|[E _]].
  { intros q. apply (table_dom f Ht). } { by destruct (Hno q). }
  rewrite (bind_done _ _ _ _ _ E). unfold bind at 1, malloc_ptr at 1. change (oom f1) with (oom f). change (next_ptr f1) with (next_ptr f).
  unfold with_table. rewrite (table_lock f Ht).
  destruct (oom f) as [|[] o]; [|done|]; rewrite (proj2 (Z.eqb_neq _ _)) by lia; reflexivity.
Qed.

Lemma table_bump f p i n : table_ok f -> inodes f !! p = Some i -> 1 <= open_cnt i + n ->
  table_ok (with_inodes f (<[p := bump n i]> (inodes f))).
Proof.
  intros Ht Hi Hn. assert (forall q j, <[p := bump n i]> (inodes f) !! q = Some j ->
    exists j', inodes f !! q = Some j' /\ i_sector j = i_sector j' /\ (1 <= open_cnt j' -> 1 <= open_cnt j)) as Hold.
  { intros q j. destruct (decide (p = q)) as [<-|Hne].
    - rewrite lookup_insert_eq. intros [= <-]. exists i. split_and!; [done | done | simpl; lia].
    - rewrite lookup_insert_ne by done. intros Hq. by exists j. }
  split; simpl; try apply Ht.
  - intros q. rewrite (table_dom f Ht). destruct (decide (p = q)) as [<-|Hne].
    + rewrite lookup_insert_eq, Hi. split; intros _; by eexists.
    + by rewrite lookup_insert_ne by done.
  - intros q r j k (j' & Hj & Ej & _)%Hold (k' & Hk & Ek & _)%Hold Heq. eapply (table_inj f Ht); [exact Hj | exact Hk | congruence].
  - intros q j (j' & Hj & _ & Hc)%Hold. destruct (table_open f Ht q j' Hj). split; [done | auto].
Qed.

Lemma table_add f s : table_ok f -> (forall p, ~ open_at f s p) ->
  table_ok (with_table f (next_ptr f :: open_inodes f) (<[next_ptr f := new_entry s]> (inodes f)) (next_ptr f + 1) (tl (oom f))).
Proof.
  intros Ht Hno. pose proof (table_next f Ht).
  assert (inodes f !! next_ptr f = None) as Hnew.
  { destruct (inodes f !! next_ptr f) eqn:E; [|done]. apply (table_open f Ht) in E. lia. }
  split; simpl.
  - constructor; [|apply Ht]. rewrite (table_dom f Ht), Hnew. by intros [].
  - intros p. rewrite elem_of_cons, (table_dom f Ht). destruct (decide (next_ptr f = p)) as [<-|Hne].
    + rewrite lookup_insert_eq. split; [by eexists | by left].
    + rewrite lookup_insert_ne by done. split; [intros [|]; congruence | by right].
  - intros p q i j. destruct (decide (next_ptr f = p)) as [<-|Hp], (decide (next_ptr f = q)) as [<-|Hq];
      rewrite ?lookup_insert_eq, ?lookup_insert_ne by done; [done | | | apply Ht].
    + intros [= <-] Hj Heq. exfalso. apply (Hno q). by exists j.
    + intros Hi [= <-] Heq. exfalso. apply (Hno p). by exists i.
  - intros p i. destruct (decide (next_ptr f = p)) as [<-|Hp].
    + rewrite lookup_insert_eq. intros [= <-]. simpl. lia.
    + rewrite lookup_insert_ne by done. intros Hi%(table_open f Ht). lia.
  - apply Ht.
  - lia.
Qed.
End table.

(** ** Closing *)

Section close.
Context {St : Type} `{!SectorStore St} {al : allocator St} {priv own : Z -> Prop} {ok : fs St -> Prop}.
Context `{!AllocSpec al priv ok} `{!ReleaseSpec al priv ok} `{!AllocFrame ok own}.
Implicit Types (f g h : fs St) (p s x : Z) (i : inode).

Lemma inode_close_shared f p i : p <> 0 -> inodes f !! p = Some i -> idle i -> open_cnt i <> 1 ->
  inode_close al p f = Done (tt, with_inodes f (<[p := bump (-1) i]> (inodes f))).
Proof.
  intros Hp Hi Hidle Hc. unfold inode_close. rewrite (proj2 (Z.eqb_neq _ _) Hp).
  rewrite (bind_done _ _ _ _ _ (writer_checkin_run p i f Hi Hidle)).
  rewrite (bind_done _ _ _ _ _ (load_inode_at p _ _ (lookup_insert_eq _ _ _))). rewrite (bind_done _ _ _ _ _ (store_inode_run p _ _)).
  cbn [inodes with_inodes open_cnt set_counts]. rewrite (proj2 (Z.eqb_neq _ _)) by lia. rewrite insert_insert_eq.
  rewrite (writer_checkout_run p (bump (-1) i) _ (lookup_insert_eq _ _ _) Hidle). cbn [inodes with_inodes]. by rewrite insert_insert_eq.
Qed.

Definition unlisted (f : fs St) (p : Z) (m : gmap Z inode) : fs St :=
  with_table f (filter (fun q => q <> p) (open_inodes f)) m (next_ptr f) (oom f).

(** Up to the point where the sectors of a removed file are released. *)
Lemma close_last f p i (k : inode -> M (fs St) unit) : open_inodes_lock f = false ->
  inodes f !! p = Some i -> idle i -> open_cnt i = 1 ->
  (writer_checkin p ;;
    let! i := load_inode p in
    let i := mk_inode (i_sector i) (open_cnt i - 1) (removed i) (deny_write_cnt i)
               (active_writers i) (active_readers i) (waiting_writers i) (waiting_readers i) in
    store_inode p i ;;
    if open_cnt i =? 0 then
      acquire_open_inodes_lock ;;
      let! f := get in
      set_open_inodes (filter (fun q => q <> p) (open_inodes f)) ;;
      release_open_inodes_lock ;; k i
    else writer_checkout p) f =
  k (set_counts (bump (-1) i) 1 0) (unlisted f p (<[p := set_counts (bump (-1) i) 1 0]> (inodes f))).
Proof.
  intros Hl Hi Hidle Hc. rewrite (bind_done _ _ _ _ _ (writer_checkin_run p i f Hi Hidle)).
  rewrite (bind_done _ _ _ _ _ (load_inode_at p _ _ (lookup_insert_eq _ _ _))). rewrite (bind_done _ _ _ _ _ (store_inode_run p _ _)).
  cbn [inodes with_inodes open_cnt set_counts i_sector removed deny_write_cnt active_writers active_readers waiting_writers waiting_readers].
  rewrite Hc, insert_insert_eq. change (1 - 1 =? 0) with true. cbv iota.
  unfold acquire_open_inodes_lock, release_open_inodes_lock. cbv beta delta [bind get]. cbn [open_inodes_lock with_inodes].
  rewrite Hl. unfold set_counts, bump, unlisted, with_table. rewrite Hc. cbn. rewrite Hl. reflexivity.
Qed.

(** The end: the writer leaves and the inode is freed. *)
Lemma close_end g p i : inodes g !! p = Some (set_counts i 1 0) -> idle i ->
  (writer_checkout p ;; let! f := get in set_inodes (delete p (inodes f))) g = Done (tt, with_inodes g (delete p (inodes g))).
Proof.
  intros Hi Hidle. rewrite (bind_done _ _ _ _ _ (writer_checkout_run p i g Hi Hidle)).
  rewrite (bind_done _ _ _ _ _ eq_refl). unfold set_inodes, modify. cbn [inodes with_inodes]. by rewrite delete_insert_eq.
Qed.

Lemma inode_close_last f p i : p <> 0 -> open_inodes_lock f = false -> inodes f !! p = Some i -> idle i ->
  open_cnt i = 1 -> removed i = false ->
  inode_close al p f = Done (tt, unlisted f p (delete p (inodes f))).
Proof.
  intros Hp Hl Hi Hidle Hc Hr. unfold inode_close. rewrite (proj2 (Z.eqb_neq _ _) Hp).
  rewrite (close_last f p i (fun i => (if removed i then free_all_data_sectors al p ;; release al (i_sector i) 1 else ret tt) ;;
    writer_checkout p ;; let! f := get in set_inodes (delete p (inodes f)))) by done.
  cbn [removed set_counts bump]. rewrite Hr, bind_ret.
  rewrite (close_end _ p (bump (-1) i)); [|apply lookup_insert_eq | exact Hidle].
  unfold unlisted, with_table, with_inodes. cbn. by rewrite delete_insert_eq.
Qed.

(** The file at [s] is gone: its sectors are free, all others are as they were. *)
Definition deleted (f g : fs St) (s : Z) : Prop :=
  ok g /\ device_size g = device_size f /\
  (forall x, node_of f s x -> used g x = false) /\
  (forall x, 0 <= x < device_size f -> ~ node_of f s x -> used g x = used f x) /\
  (forall x, ~ priv x -> ~ node_of f s x -> sector_of g x = sector_of f x).

Lemma free_sectors_run f p i : ok f -> opened (priv := priv) p i f -> i_sector i <> 0 ->
  exists g, (free_all_data_sectors al p ;; release al (i_sector i) 1) f = Done (tt, g) /\
    deleted f g (i_sector i) /\ env g = env f.
Proof using AllocSpec0 ReleaseSpec0.
  intros Hf Ho Hnz. set (s := i_sector i) in *. pose proof Ho as (Hs & _ & Hi & Ht). pose proof (self_range p i f Ho) as Hr.
  pose proof Ht as [(_ & _ & _ & _ & Hinj & _) Hown]. fold s in Hr, Ht, Hinj, Hown.
  destruct (store_read_fs f s Hs Hr) as (f1 & E1 & Hq). pose proof (quiet_shrunk (al := al) (priv := priv) none f f1 Hf Hq) as (Hok1 & _).
  pose proof (quiet_file_tree f f1 s _ _ Hq Ht) as Ht1.
  destruct (inode_resize_delete (al := al) f1 s (sector_of f s) Hok1) as (d' & g1 & E2 & _ & _ & _ & Hfreed); [by apply contents_ok | exact Ht1 |].
  destruct Hfreed as (F1 & F2 & F3 & F4 & F5 & F6). pose proof Hq as (_ & Q2 & Q3 & Q4 & Q5). rewrite Q2 in *.
  assert (forall nd, live (sector_of f) s (file_idx f s) nd <-> live (sector_of f1) s (d_indirect (sector_of f s)) nd) as Hlive.
  { intros nd. unfold live. by rewrite (quiet_addr f f1 Hq). }
  assert (forall nd, addr (sector_of f1) s (d_indirect (sector_of f s)) nd = addr (sector_of f) s (file_idx f s) nd) as Haddr
    by (intros nd; apply (quiet_addr f f1 Hq)).
  destruct (Hown Self) as (_ & Hus & Hps); [apply tree_self|]. simpl in Hus, Hps.
  assert (used g1 s = true) as Hus1.
  { rewrite F5; [by rewrite (quiet_used f f1 Hq) | exact Hr |]. intros nd Hl Hns Heq. apply Hns. rewrite Haddr in Heq.
    apply Hinj; [exact (proj2 (Hlive nd) Hl) | apply tree_self | exact Heq]. }
  destruct (release_run g1 s F1) as (g & E3 & R1 & R2 & R3 & R4 & R5); [rewrite F2; lia | exact Hus1 | exact Hps |]. rewrite F2 in R5.
  exists g. split.
  { unfold free_all_data_sectors. rewrite (bind_done _ _ f tt g1); [exact E3|].
    rewrite (bind_done _ _ _ _ _ (load_inode_at p i f Hi)). rewrite (bind_done _ _ _ _ _ E1). by rewrite (bind_done _ _ _ _ _ E2). }
  split; [|congruence]. split; [exact R1|]. split; [congruence|]. split; [|split].
  - intros x (nd & Hl & <-). destruct (Hown nd Hl) as (Hx & _). rewrite R5 by exact Hx.
    destruct (Z.eqb_spec (addr (sector_of f) s (file_idx f s) nd) s) as [|Hne]; [reflexivity|].
    rewrite <- Haddr. apply F4; [exact (proj1 (Hlive nd) Hl)|]. intros ->. by apply Hne.
  - intros x Hx Hn. rewrite R5 by exact Hx. destruct (Z.eqb_spec x s) as [->|Hne].
    { exfalso. apply Hn. exists Self. split; [apply tree_self | reflexivity]. }
    rewrite F5; [by rewrite (quiet_used f f1 Hq) | exact Hx |]. intros nd Hl Hns Heq. apply Hn. exists nd. rewrite Haddr in Heq.
    split; [exact (proj2 (Hlive nd) Hl) | exact Heq].
  - intros x Hp Hn. rewrite R4, F6, Q5; [reflexivity | exact Hp | | exact Hp]. intros [Hxz [Heq|(k & Hk & Heq)]]; apply Hn.
    + exists Root. split; [apply tree_root; unfold file_idx; congruence | symmetry; exact Heq].
    + rewrite (quiet_level1 f f1 Hq) in Heq. exists (Ind k). split; [|symmetry; exact Heq]. split; [exact Hk|]. right. simpl. unfold file_idx. congruence.
Qed.

Lemma inode_close_removed f p i : p <> 0 -> ~ own p -> open_inodes_lock f = false -> ok f -> opened (priv := priv) p i f -> idle i ->
  i_sector i <> 0 -> open_cnt i = 1 -> removed i = true ->
  exists g, inode_close al p f = Done (tt, g) /\ deleted f g (i_sector i) /\
    env g = env (unlisted f p (delete p (inodes f))).
Proof using All.
  intros Hp Hown Hl Hf Ho Hidle Hnz Hc Hr. pose proof Ho as (Hs & Hd & Hi & Ht). unfold inode_close. rewrite (proj2 (Z.eqb_neq _ _) Hp).
  rewrite (close_last f p i (fun i => (if removed i then free_all_data_sectors al p ;; release al (i_sector i) 1 else ret tt) ;;
    writer_checkout p ;; let! f := get in set_inodes (delete p (inodes f)))) by done.
  set (j := set_counts (bump (-1) i) 1 0). change (removed j) with (removed i). rewrite Hr. change (i_sector j) with (i_sector i).
  set (f1 := unlisted f p _).
  assert (ok f1) as Hok1.
  { apply (ok_frame f); try done. intros q Hq. simpl. rewrite lookup_insert_ne; [done|]. by intros ->. }
  assert (opened (priv := priv) p j f1) as Ho1.
  { split; [exact Hs|]. split; [exact Hd|]. split; [apply lookup_insert_eq | exact Ht]. }
  destruct (free_sectors_run f1 p j Hok1 Ho1 Hnz) as (g & E & Hdel & He). change (i_sector j) with (i_sector i) in *.
  rewrite (bind_done _ _ _ _ _ E). unfold env in He. injection He. intros.
  assert (inodes g = <[p := j]> (inodes f)) as Ein by done.
  rewrite (close_end g p (bump (-1) i)); [|by rewrite Ein; apply lookup_insert_eq | exact Hidle].
  exists (with_inodes g (delete p (inodes g))). split; [reflexivity|]. rewrite Ein, delete_insert_eq. split.
  - destruct Hdel as (D1 & D2 & D3 & D4 & D5). split; [|split; [exact D2 | split; [exact D3 | split; [exact D4 | exact D5]]]].
    apply (ok_frame g); try done. intros q Hq. rewrite Ein. simpl. rewrite lookup_delete_ne, lookup_insert_ne; [done | |]; by intros ->.
  - unfold env. simpl. congruence.
Qed.
End close.
