(* ===== verification/File.v ===== *)
(** * filesys/file.c: open files

    A file is an inode with a position.  The functions run over the same state
    and allocator as the inode layer. *)

From stdpp Require Import options.
From S2P Require Import Prelude Bytes Bitmap Block Store Inode.
Local Open Scope Z_scope.
Local Open Scope kernel_scope.

Section code.
Context {St : Type} `{!SectorStore St} (al : allocator St).
Abbreviation MF := (M (fs St)).

Definition set_files (m : gmap Z file) : MF unit :=
  modify (fun f => mk_fs (store f) (free_map f) (free_map_file f) (free_map_lock f) (open_inodes f)
                     (open_inodes_lock f) (inodes f) m (dirs f) (cwd f) (next_ptr f) (oom f)).

Definition load_file (p : Z) : MF file :=
  let! f := get in
  match files f !! p with
  | Some x => ret x
  | None => fail BadPointer
  end.

Definition store_file (p : Z) (x : file) : MF unit :=
  let! f := get in set_files (<[p := x]> (files f)).

Definition file_open (inode : Z) : MF Z :=
  let! file := malloc_ptr in
  if negb (inode =? 0) && negb (file =? 0) then
    store_file file (mk_file inode 0 false) ;;
    ret file
  else
    inode_close al inode ;;
    ret 0.

Definition file_reopen (file : Z) : MF Z :=
  let! x := load_file file in
  let! inode := inode_reopen (f_inode x) in
  file_open inode.

Definition file_deny_write (file : Z) : MF unit :=
  assert (negb (file =? 0)) ;;
  let! x := load_file file in
  if negb (deny_write x) then
    store_file file (mk_file (f_inode x) (f_pos x) true) ;;
    inode_deny_write (f_inode x)
  else ret tt.

Definition file_allow_write (file : Z) : MF unit :=
  assert (negb (file =? 0)) ;;
  let! x := load_file file in
  if deny_write x then
    store_file file (mk_file (f_inode x) (f_pos x) false) ;;
    inode_allow_write (f_inode x)
  else ret tt.

Definition file_close (file : Z) : MF unit :=
  if negb (file =? 0) then
    file_allow_write file ;;
    let! x := load_file file in
    inode_close al (f_inode x) ;;
    let! f := get in
    set_files (delete file (files f))
  else ret tt.

Definition file_get_inode (file : Z) : MF Z :=
  let! x := load_file file in ret (f_inode x).

(** Reads return the bytes; the source stores them in the caller's buffer and
    returns their number.  [off_t] arguments are converted to [size_t]. *)
Definition file_read (file size : Z) : MF (list Z) :=
  let! x := load_file file in
  let! data := inode_read_at (f_inode x) (u32 size) (u32 (f_pos x)) in
  let! x := load_file file in
  store_file file (mk_file (f_inode x) (i32 (f_pos x + Z.of_nat (length data))) (deny_write x)) ;;
  ret data.

Definition file_read_at (file size file_ofs : Z) : MF (list Z) :=
  let! x := load_file file in
  inode_read_at (f_inode x) (u32 size) (u32 file_ofs).

Definition file_write (file : Z) (buffer : list Z) (size : Z) : MF Z :=
  let! x := load_file file in
  let! bytes_written := inode_write_at al (f_inode x) buffer (u32 size) (u32 (f_pos x)) in
  let! x := load_file file in
  store_file file (mk_file (f_inode x) (i32 (f_pos x + bytes_written)) (deny_write x)) ;;
  ret bytes_written.

Definition file_write_at (file : Z) (buffer : list Z) (size file_ofs : Z) : MF Z :=
  let! x := load_file file in
  inode_write_at al (f_inode x) buffer (u32 size) (u32 file_ofs).

Definition file_length (file : Z) : MF Z :=
  assert (negb (file =? 0)) ;;
  let! x := load_file file in
  inode_length (f_inode x).

Definition file_seek (file new_pos : Z) : MF unit :=
  assert (negb (file =? 0)) ;;
  assert (0 <=? new_pos) ;;
  let! x := load_file file in
  store_file file (mk_file (f_inode x) new_pos (deny_write x)).

Definition file_tell (file : Z) : MF Z :=
  assert (negb (file =? 0)) ;;
  let! x := load_file file in
  ret (f_pos x).

Definition file_inumber (file : Z) : MF Z :=
  let! x := load_file file in
  let! s := inode_sector (f_inode x) in
  ret (i32 s).
End code.
