(* ===== verification/FreeMap.v ===== *)
(** * filesys/free-map.c: the map of free sectors

    Allocation and release of sectors, each followed by a write of the map to
    its file.  The functions call the file layer, which calls them back when a
    file grows; [free_map_ops] ties the knot to a given depth.  The map's own
    file never grows, so one level is enough, and the instances of the
    allocator's interface at the end say so. *)

From stdpp Require Import options.
From S2P Require Import Prelude Bytes Bitmap Block Store Inode InodeTree InodeGrow InodeShrink InodeResize.
From S2P Require Import InodeRollback InodeExtend InodeIO InodeWrite File.
Local Open Scope Z_scope.
Local Open Scope kernel_scope.

Definition FREE_MAP_SECTOR : Z := 0.
Definition ROOT_DIR_SECTOR : Z := 1.

Section code.
Context {St : Type} `{!SectorStore St}.
Abbreviation MF := (M (fs St)).

Definition set_free_map (b : bitmap) : MF unit :=
  modify (fun f => mk_fs (store f) b (free_map_file f) (free_map_lock f) (open_inodes f)
                     (open_inodes_lock f) (inodes f) (files f) (dirs f) (cwd f) (next_ptr f) (oom f)).

Definition set_free_map_file (p : Z) : MF unit :=
  modify (fun f => mk_fs (store f) (free_map f) p (free_map_lock f) (open_inodes f)
                     (open_inodes_lock f) (inodes f) (files f) (dirs f) (cwd f) (next_ptr f) (oom f)).

Definition set_free_map_lock (b : bool) : MF unit :=
  modify (fun f => mk_fs (store f) (free_map f) (free_map_file f) b (open_inodes f)
                     (open_inodes_lock f) (inodes f) (files f) (dirs f) (cwd f) (next_ptr f) (oom f)).

(** Acquiring a lock one holds fails an assertion in [lock_acquire]. *)
Definition acquire_free_map_lock : MF unit :=
  let! f := get in assert (negb (free_map_lock f)) ;; set_free_map_lock true.

Definition release_free_map_lock : MF unit :=
  let! f := get in assert (free_map_lock f) ;; set_free_map_lock false.

(** [free_map_init] with the block [malloc] returns for the bits. *)
Definition free_map_init (block : option (list Z)) : MF unit :=
  let! f := get in
  let! r := lift (bitmap_create (store_size (store f)) true block) in
  match r with
  | None => fail Panic
  | Some b =>
      let! b := lift (bitmap_mark b FREE_MAP_SECTOR) in
      let! b := lift (bitmap_mark b ROOT_DIR_SECTOR) in
      set_free_map b ;;
      set_free_map_lock false
  end.

Section over.
Context (al : allocator St).

(** [bitmap_write (free_map, free_map_file)] *)
Definition write_free_map : MF bool :=
  let! f := get in
  bitmap_write (file_write_at al (free_map_file f)) (free_map f).

Definition free_map_allocate (cnt : Z) : MF (option Z) :=
  let! f := get in
  let release_lock := negb (free_map_lock f) in
  (if release_lock then acquire_free_map_lock else ret tt) ;;
  let! f := get in
  let! r := lift (bitmap_scan_and_flip (free_map f) 0 cnt false) in
  set_free_map (snd r) ;;
  let sector := fst r in
  let! failed := (if negb (sector =? BITMAP_ERROR) && negb (free_map_file f =? 0) then
                    let! w := write_free_map in ret (negb w)
                  else ret false) in
  let! sector := (if failed : bool then
                    let! f := get in
                    let! b := lift (bitmap_set_multiple (free_map f) sector cnt false) in
                    set_free_map b ;;
                    ret BITMAP_ERROR
                  else ret sector) in
  (if release_lock then release_free_map_lock else ret tt) ;;
  ret (if negb (sector =? BITMAP_ERROR) then Some sector else None).

Definition free_map_release (sector cnt : Z) : MF unit :=
  acquire_free_map_lock ;;
  let! f := get in
  let! all := lift (bitmap_all (free_map f) sector cnt) in
  assert all ;;
  let! b := lift (bitmap_set_multiple (free_map f) sector cnt false) in
  set_free_map b ;;
  write_free_map ;;
  release_free_map_lock.

(** [free_map_file = file_open (inode_open (FREE_MAP_SECTOR))] *)
Definition open_free_map_file : MF Z :=
  let! p := inode_open FREE_MAP_SECTOR in
  let! q := file_open al p in
  set_free_map_file q ;;
  ret q.

Definition free_map_open : MF unit :=
  acquire_free_map_lock ;;
  let! q := open_free_map_file in
  if q =? 0 then fail Panic
  else
    let! f := get in
    let! r := bitmap_read (file_read_at q) (free_map f) in
    set_free_map (snd r) ;;
    if fst r then release_free_map_lock else fail Panic.

Definition free_map_close : MF unit :=
  acquire_free_map_lock ;;
  let! w := write_free_map in
  if w : bool then
    let! f := get in
    file_close al (free_map_file f) ;;
    release_free_map_lock
  else fail Panic.

Definition free_map_create : MF unit :=
  acquire_free_map_lock ;;
  let! f := get in
  let! c := inode_create al FREE_MAP_SECTOR (i32 (bitmap_file_size (free_map f))) in
  if c : bool then
    let! q := open_free_map_file in
    if q =? 0 then fail Panic
    else
      let! w := write_free_map in
      if w : bool then release_free_map_lock else fail Panic
  else fail Panic.
End over.

(** The calls of the two functions from the inode layer, [depth] levels deep. *)
Fixpoint free_map_ops (depth : nat) : allocator St :=
  match depth with
  | O => mk_allocator (fun _ => fail OutOfFuel) (fun _ _ => fail OutOfFuel)
  | S depth => mk_allocator (free_map_allocate (free_map_ops depth)) (free_map_release (free_map_ops depth))
  end.

(** The inner level only writes the map to its file. *)
Definition the_free_map : allocator St := free_map_ops 1.
End code.

(** ** The free map implements the allocator's interface *)

Section spec.
Context {St : Type} `{!SectorStore St} (q p : Z) (ino : inode) (priv : Z -> Prop).
Implicit Types (f g : fs St) (x k : Z) (b : bitmap).

(** The map is in memory and on disk: its file is open as [q], with inode [p];
    [priv] are the sectors of that file. *)
Record fm_ok (f : fs St) : Prop := {
  fm_inode : opened (priv := none) p ino f;
  fm_bitmap : bitmap_ok (free_map f);
  fm_size : bit_cnt (free_map f) = device_size f;
  fm_lock : free_map_lock f = false;
  fm_file : free_map_file f = q;
  fm_open : exists pos d, files f !! q = Some (mk_file p pos d);
  fm_len : file_len f FREE_MAP_SECTOR = byte_cnt (device_size f);
  fm_priv x : priv x <-> node_of f FREE_MAP_SECTOR x;
  fm_disk k : 0 <= k < byte_cnt (device_size f) ->
    file_byte f FREE_MAP_SECTOR k = nth (Z.to_nat k) (words_to_bytes (bits (free_map f))) 0
}.

Hypothesis Hq : q <> 0.
Hypothesis Hp : p <> 0.
Hypothesis Hsector : i_sector ino = FREE_MAP_SECTOR.
Hypothesis Hread : readable ino.
Hypothesis Hdeny : deny_write_cnt ino = 0.

Definition with_map (f : fs St) (b : bitmap) (lock : bool) : fs St :=
  mk_fs (store f) b (free_map_file f) lock (open_inodes f)
    (open_inodes_lock f) (inodes f) (files f) (dirs f) (cwd f) (next_ptr f) (oom f).

Lemma fm_used f x : fm_ok f -> priv x -> 0 <= x < device_size f /\ used f x = true.
Proof using Hsector.
  intros Hf (nd & Hl & <-)%(fm_priv f Hf). destruct (fm_inode f Hf) as (_ & _ & _ & [_ Hown]).
  rewrite Hsector in Hown. by destruct (Hown nd Hl) as (? & ? & _).
Qed.

(** Steps that keep the map and its sectors keep everything. *)
Lemma fm_stable f g : fm_ok f -> store_ok (store g) -> device_size g = device_size f -> env g = env f ->
  free_map g = free_map f -> (forall x, priv x -> sector_of g x = sector_of f x) -> fm_ok g.
Proof using Hsector.
  intros Hf Hs Hd He Hm Hc. pose proof (fm_inode f Hf) as (_ & Hsz & Hi & Ht). rewrite Hsector in Ht.
  unfold env in He. injection He. intros.
  assert (forall x, node_of f FREE_MAP_SECTOR x -> used g x = true /\ sector_of g x = sector_of f x) as Hsame.
  { intros x Hx%(fm_priv f Hf). split; [|by apply Hc]. unfold used. rewrite Hm. by apply (fm_used f x Hf). }
  destruct (frame_file f g FREE_MAP_SECTOR Ht Hd Hsame) as [Ht' Hb]. pose proof (frame_len f g _ Hsame) as El.
  split.
  - split; [exact Hs|]. split; [congruence|]. split; [congruence|]. rewrite Hsector. exact Ht'.
  - rewrite Hm. apply Hf.
  - rewrite Hm, Hd. apply Hf.
  - assert (free_map_lock g = free_map_lock f) as -> by congruence. apply Hf.
  - assert (free_map_file g = free_map_file f) as -> by congruence. apply Hf.
  - assert (files g = files f) as -> by congruence. apply Hf.
  - rewrite El, Hd. apply Hf.
  - intros x. rewrite (frame_node f g _ Hsame). apply Hf.
  - intros k. rewrite Hd, Hm. intros Hk. rewrite Hb; [exact (fm_disk f Hf k Hk) | lia |]. rewrite (fm_len f Hf). pose proof (div_mul_le k). lia.
Qed.

Section write_map.
Context (f : fs St) (b : bitmap).
Hypothesis Hf : fm_ok f.
Hypothesis Hb : bitmap_ok b.
Hypothesis Hbc : bit_cnt b = device_size f.
Hypothesis Hbits : forall x, priv x -> bit b x = true.
Let f1 := with_map f b true.
Let data := words_to_bytes (bits b).

Lemma map_opened : opened (priv := none) p ino f1.
Proof using Hf Hbits Hsector.
  pose proof (fm_inode f Hf) as (Hs & Hsz & Hi & Ht). rewrite Hsector in Ht.
  split; [exact Hs|]. split; [exact Hsz|]. split; [exact Hi|]. rewrite Hsector.
  apply (frame_file f f1 FREE_MAP_SECTOR Ht eq_refl). intros x Hx%(fm_priv f Hf). split; [by apply Hbits | reflexivity].
Qed.

Lemma map_length : Z.of_nat (length data) = file_len f1 (i_sector ino) /\ 0 <= Z.of_nat (length data) <= MAX_FILE_BYTES.
Proof using Hf Hb Hbc Hsector.
  unfold data. rewrite (bitmap_bytes b Hb), Hbc, Hsector. pose proof (fm_len f Hf) as El.
  pose proof (file_length_bound p ino f (fm_inode f Hf)) as Hmax. rewrite Hsector, El in Hmax.
  split; [symmetry; exact El | exact Hmax].
Qed.

(** Writing the map, with the lock held. *)
Lemma write_map_run al : exists g, write_free_map al f1 = Done (true, g) /\ wrote ino f1 g 0 data.
Proof using Hf Hb Hbc Hbits Hp Hsector Hread Hdeny.
  pose proof map_length as [El Hmax]. unfold MAX_FILE_BYTES in Hmax.
  destruct (inode_write_within (priv := none) al p ino f1 data (Z.of_nat (length data)) 0) as (g & E & Hw);
    [exact Hp | exact map_opened | exact Hread | exact Hdeny | lia | lia | apply words_to_bytes_bytes | lia |].
  rewrite firstn_all2 in Hw by lia. exists g. split; [|exact Hw].
  unfold write_free_map. rewrite (bind_done _ _ f1 f1 f1) by reflexivity. unfold bitmap_write, file_write_at, load_file.
  destruct (fm_open f Hf) as (pos & d & Hfile). change (free_map f1) with b. change (free_map_file f1) with (free_map_file f).
  rewrite (fm_file f Hf), <- (bitmap_bytes b Hb). fold data. rewrite (u32_small (Z.of_nat (length data))) by lia. change (u32 0) with 0.
  rewrite (bind_done _ _ f1 (Z.of_nat (length data)) g); [by rewrite Z.eqb_refl|].
  unfold bind, get. change (files f1) with (files f). rewrite Hfile. exact E.
Qed.

Lemma map_written g : wrote ino f1 g 0 data ->
  fm_ok (with_map g b false) /\ device_size g = device_size f /\ env (with_map g b false) = env f /\
  free_map_lock g = true /\ free_map g = b /\ (forall x, ~ priv x -> sector_of g x = sector_of f x).
Proof using Hf Hb Hbc Hbits Hsector.
  intros Hw. pose proof map_length as [El Hmax]. pose proof Hw as (W1 & W2 & W3 & W4 & W5 & W6 & _).
  assert (0 + Z.of_nat (length data) <= file_len f1 (i_sector ino)) as Hend by lia.
  pose proof (wrote_opened p ino f1 g 0 data map_opened ltac:(lia) Hend Hw) as Hog.
  pose proof (wrote_idx p ino f1 g 0 _ map_opened ltac:(lia) Hend W5) as Ei.
  pose proof (wrote_len p ino f1 g 0 _ map_opened ltac:(lia) Hend W5) as Elen.
  unfold env in W3. injection W3. intros.
  assert (forall nd, node_valid nd -> addr (sector_of g) FREE_MAP_SECTOR (file_idx f1 FREE_MAP_SECTOR) nd =
    addr (sector_of f) FREE_MAP_SECTOR (file_idx f FREE_MAP_SECTOR) nd) as Ha.
  { rewrite <- Hsector. intros [| |i|i j] Hv; simpl; [done | done | |].
    - exact (wrote_level1 p ino f1 g 0 _ map_opened ltac:(lia) Hend W5 i Hv).
    - exact (wrote_level2 p ino f1 g 0 _ map_opened ltac:(lia) Hend W5 i j (proj1 Hv)). }
  rewrite Hsector in Ei, Elen, W6, El.
  split; [|split; [exact W2|]]; [split|].
  - destruct Hog as (O1 & O2 & O3 & O4). split; [exact O1|]. split; [exact O2|]. split; [exact O3|].
    apply (frame_file g (with_map g b false) _ O4 eq_refl). intros x (nd & Hl & <-). split; [|reflexivity].
    unfold used. simpl. change b with (free_map f1). rewrite <- W4. by apply O4.
  - exact Hb.
  - simpl. change (bit_cnt b = device_size g). rewrite W2. exact Hbc.
  - reflexivity.
  - simpl. transitivity (free_map_file f); [congruence | apply Hf].
  - simpl. assert (files g = files f) as -> by congruence. apply Hf.
  - change (file_len g FREE_MAP_SECTOR = byte_cnt (device_size g)). rewrite Elen, W2. apply Hf.
  - intros x. rewrite (fm_priv f Hf). change (node_of f FREE_MAP_SECTOR x <-> node_of g FREE_MAP_SECTOR x). unfold node_of. rewrite Ei.
    split; intros (nd & [Hv Hl] & E); exists nd; pose proof (Ha nd Hv) as Ea.
    + rewrite Ea. split; [|exact E]. split; [exact Hv|]. rewrite Ea. exact Hl.
    + rewrite Ea in Hl, E. split; [split; [exact Hv | exact Hl] | exact E].
  - intros k Hk. change (file_byte g FREE_MAP_SECTOR k = nth (Z.to_nat k) data 0). rewrite W6, Z.sub_0_r; [reflexivity|].
    change (0 <= k < byte_cnt (device_size g)) in Hk. rewrite El. change (file_len f1 FREE_MAP_SECTOR) with (file_len f FREE_MAP_SECTOR).
    rewrite (fm_len f Hf). rewrite W2 in Hk. exact Hk.
  - split; [unfold env; simpl; pose proof (fm_lock f Hf); congruence|]. split; [congruence|]. split; [exact W4|].
    intros x Hx. apply W5. intros k Hk Heq. apply Hx. apply (fm_priv f Hf).
    pose proof (div_mul_le k). destruct (data_node p ino f1 k map_opened) as [Hl _]; [lia | rewrite Hsector; lia |].
    rewrite Hsector in Hl, Heq. eexists. split; [exact Hl | exact Heq].
Qed.
End write_map.

Lemma with_map_id f : fm_ok f -> with_map f (free_map f) false = f.
Proof. intros Hf. unfold with_map. rewrite <- (fm_lock f Hf). by destruct f. Qed.

(** The end of both functions. *)
Lemma unlock_run g b : free_map_lock g = true -> free_map g = b -> release_free_map_lock g = Done (tt, with_map g b false).
Proof. intros Hl <-. unfold release_free_map_lock, bind, get. by rewrite Hl. Qed.

Lemma allocate_spec al f : fm_ok f -> exists r g, free_map_allocate al 1 f = Done (r, g) /\
  fm_ok g /\ device_size g = device_size f /\ env g = env f /\
  (forall x, ~ priv x -> sector_of g x = sector_of f x) /\
  match r with
  | Some s => 0 <= s < device_size f /\ used f s = false /\
      forall x, 0 <= x < device_size f -> used g x = if x =? s then true else used f x
  | None => (forall x, 0 <= x < device_size f -> used f x = true) /\
      forall x, 0 <= x < device_size f -> used g x = used f x
  end.
Proof using Hq Hp Hsector Hread Hdeny.
  intros Hf. pose proof (fm_bitmap f Hf) as Hb. pose proof (fm_size f Hf) as Hbc. unfold free_map_allocate.
  rewrite (bind_done _ _ f f f) by reflexivity. rewrite (fm_lock f Hf). cbn [negb].
  assert (0 <= bit_cnt (free_map f) <= 2 ^ 32 - 32) as Hcnt by apply Hb.
  destruct (bitmap_scan_and_flip_first (free_map f) 0 1 false) as (r & b & E & Hfit & Hb' & Hbc' & Hbit); [done | lia | lia |].
  rewrite (bind_done _ _ f tt (with_map f (free_map f) true)) by (unfold acquire_free_map_lock, bind, get; by rewrite (fm_lock f Hf)).
  rewrite (bind_done _ _ _ _ _ eq_refl). cbv beta. change (free_map (with_map f (free_map f) true)) with (free_map f).
  rewrite (bind_done _ _ _ (r, b) (with_map f (free_map f) true)) by (unfold lift; by rewrite E).
  rewrite (bind_done _ _ _ tt (with_map f b true)) by reflexivity. cbn [fst].
  change (free_map_file (with_map f (free_map f) true)) with (free_map_file f).
  rewrite (fm_file f Hf), (proj2 (Z.eqb_neq _ _) Hq). rewrite Hbc in *.
  destruct Hfit as [[-> Hnone]|(Hr1 & Hr2 & Hgrp & _)].
  - rewrite Z.eqb_refl. cbn [negb andb]. rewrite bind_ret, bind_ret. exists None, f.
    assert (b = free_map f) as ->.
    { unfold bitmap_scan_and_flip in E. apply obind_inv in E as (r0 & E0 & E). destruct (Z.eqb_spec r0 BITMAP_ERROR) as [->|Hne].
      - by injection E. - apply obind_inv in E as (b0 & _ & E). injection E. intros. congruence. }
    rewrite (bind_done _ _ _ _ _ (unlock_run (with_map f (free_map f) true) (free_map f) eq_refl eq_refl)).
    rewrite Z.eqb_refl. 
    split; [transitivity (Done (@None Z, with_map f (free_map f) false)); [reflexivity | by rewrite (with_map_id f Hf)]|]. split_and!; try done.
    intros x Hx. destruct (used f x) eqn:Eu; [done|]. exfalso. apply (Hnone x); [lia | lia |]. intros k Hk. by replace k with x by lia.
  - assert (r <> BITMAP_ERROR) as Hne by (unfold BITMAP_ERROR; lia). rewrite (proj2 (Z.eqb_neq _ _) Hne) in *. cbn [negb andb] in *.
    assert (forall x, 0 <= x < device_size f -> bit b x = if x =? r then true else used f x) as Hbx.
    { intros x Hx. rewrite Hbit by done. destruct (Z.eqb_spec x r) as [->|].
      - by rewrite (proj2 (Z.leb_le _ _)), (proj2 (Z.ltb_lt _ _)) by lia.
      - destruct (Z.leb_spec r x); [|done]. by rewrite (proj2 (Z.ltb_ge _ _)) by lia. }
    assert (forall x, priv x -> bit b x = true) as Hpx.
    { intros x Hx. destruct (fm_used f x Hf Hx) as [Hr Hu]. rewrite Hbx by done. by destruct (x =? r). }
    destruct (write_map_run f b Hf Hb' Hbc' Hpx al) as (g & Ew & Hw).
    destruct (map_written f b Hf Hb' Hbc' Hpx g Hw) as (Hok & Hd & He & Hl & Hm & Hc).
    rewrite (bind_done _ _ _ false g) by (by rewrite (bind_done _ _ _ _ _ Ew)). rewrite bind_ret.
    rewrite (bind_done _ _ _ _ _ (unlock_run g b Hl Hm)). rewrite (proj2 (Z.eqb_neq _ _) Hne).
    exists (Some r), (with_map g b false). split; [reflexivity|]. split_and!; try done; [lia|].
    specialize (Hgrp r). apply Hgrp. lia.
Qed.

Lemma release_spec al f s : fm_ok f -> 0 < s < device_size f -> used f s = true -> ~ priv s ->
  exists g, free_map_release al s 1 f = Done (tt, g) /\
    fm_ok g /\ device_size g = device_size f /\ env g = env f /\
    (forall x, ~ priv x -> sector_of g x = sector_of f x) /\
    forall x, 0 <= x < device_size f -> used g x = if x =? s then false else used f x.
Proof using Hp Hsector Hread Hdeny.
  intros Hf Hs Hu Hps. pose proof (fm_bitmap f Hf) as Hb. pose proof (fm_size f Hf) as Hbc. unfold free_map_release.
  rewrite (bind_done _ _ f tt (with_map f (free_map f) true)) by (unfold acquire_free_map_lock, bind, get; by rewrite (fm_lock f Hf)).
  rewrite (bind_done _ _ _ _ _ eq_refl). cbv beta. change (free_map (with_map f (free_map f) true)) with (free_map f).
  destruct (bitmap_contains_bits (free_map f) s 1 false) as (c & Ec & Hall); [done | lia | lia | lia |].
  assert (c = false) as ->.
  { apply Hall. intros k Hk. by replace k with s by lia. }
  rewrite (bind_done _ _ _ true (with_map f (free_map f) true)) by (unfold lift, bitmap_all; by rewrite Ec).
  rewrite assert_true by done.
  destruct (bitmap_set_multiple_bits (free_map f) s 1 false) as (b & Eb & Hb' & Hbc' & Hbit); [done | lia | lia | lia |].
  rewrite (bind_done _ _ _ b (with_map f (free_map f) true)) by (unfold lift; by rewrite Eb).
  rewrite (bind_done _ _ _ tt (with_map f b true)) by reflexivity. rewrite Hbc in *.
  assert (forall x, 0 <= x < device_size f -> bit b x = if x =? s then false else used f x) as Hbx.
  { intros x Hx. rewrite Hbit by done. destruct (Z.eqb_spec x s) as [->|].
    - by rewrite (proj2 (Z.leb_le _ _)), (proj2 (Z.ltb_lt _ _)) by lia.
    - destruct (Z.leb_spec s x); [|done]. by rewrite (proj2 (Z.ltb_ge _ _)) by lia. }
  assert (forall x, priv x -> bit b x = true) as Hpx.
  { intros x Hx. destruct (fm_used f x Hf Hx) as [Hr Hux]. rewrite Hbx by done. by destruct (Z.eqb_spec x s) as [->|]. }
  destruct (write_map_run f b Hf Hb' Hbc' Hpx al) as (g & Ew & Hw).
  destruct (map_written f b Hf Hb' Hbc' Hpx g Hw) as (Hok & Hd & He & Hl & Hm & Hc).
  rewrite (bind_done _ _ _ _ _ Ew), (unlock_run g b Hl Hm). exists (with_map g b false). split; [reflexivity|]. by split_and!.
Qed.

(** The free map as the inode layer sees it. *)
Lemma free_map_allocates : AllocSpec the_free_map priv fm_ok.
Proof using Hq Hp Hsector Hread Hdeny.
  split.
  - intros f Hf. apply (fm_inode f Hf).
  - intros f Hf. split; [apply Hf | apply (fm_size f Hf)].
  - intros f Hf. assert (priv FREE_MAP_SECTOR) as H0 by (apply (fm_priv f Hf); exists Self; split; [apply tree_self | reflexivity]).
    destruct (fm_used f _ Hf H0) as [? Hu]. split; [exact Hu | lia].
  - intros f x Hf Hx. by apply (fm_used f x Hf).
  - apply fm_stable.
  - intros f Hf. by apply allocate_spec.
Qed.

Lemma free_map_releases : ReleaseSpec the_free_map priv fm_ok.
Proof using Hp Hsector Hread Hdeny. split. intros f s. apply release_spec. Qed.

Lemma free_map_frame : AllocFrame fm_ok (fun r => r = p).
Proof using Hsector.
  split. intros f g Hf Es Em Ef El Hi Hfl. pose proof (fm_inode f Hf) as (H1 & H2 & H3 & H4).
  assert (forall x, sector_of g x = sector_of f x) as Ec by (intros; unfold sector_of; by rewrite Es).
  assert (device_size g = device_size f) as Ed by (unfold device_size; by rewrite Es).
  assert (forall x, node_of f (i_sector ino) x -> used g x = true /\ sector_of g x = sector_of f x) as Hsame.
  { intros x (nd & Hl & <-). split; [unfold used; rewrite Em; by apply H4 | apply Ec]. }
  destruct (frame_file f g _ H4 Ed Hsame) as [Ht Hb]. pose proof (frame_len f g _ Hsame) as Elen. rewrite Hsector in *.
  split.
  - split; [by rewrite Es|]. split; [lia|]. split; [by rewrite Hi|]. by rewrite Hsector.
  - rewrite Em. apply Hf.
  - rewrite Em, Ed. apply Hf.
  - rewrite El. apply Hf.
  - rewrite Ef. apply Hf.
  - rewrite <- (fm_file f Hf), Hfl, (fm_file f Hf). apply Hf.
  - rewrite Elen, Ed. apply Hf.
  - intros x. rewrite (frame_node f g _ Hsame). apply Hf.
  - intros k. rewrite Ed, Em. intros Hk. rewrite Hb; [exact (fm_disk f Hf k Hk) | lia |].
    rewrite (fm_len f Hf). pose proof (div_mul_le k). lia.
Qed.
End spec.
