(* ===== verification/FileDemo.v ===== *)
(** * A small file system

    A device of 64 sectors with the free map's file in sectors 0, 2, 3 and 4, an
    empty file whose inode is sector 5, both open, and a root directory in
    sectors 1, 7, 8 and 9 that names the file "a".  The theorems about files
    and about names are applied to it. *)

From stdpp Require Import options.
From stdpp Require Import strings.
From S2P Require Import Prelude Bytes Bitmap Block Store Cache Inode InodeTree InodeGrow InodeShrink InodeResize.
From S2P Require Import InodeRollback InodeExtend InodeIO InodeWrite InodeLife File FreeMap.
Local Open Scope Z_scope.

(** ** A file of one sector *)

Section one_sector.
Context (v : Z -> list Z) (s idx i1 d1 len : Z).
Hypothesis Hlen : 0 < len <= 512.
Hypothesis Hnz : idx <> 0 /\ i1 <> 0 /\ d1 <> 0.
Hypothesis Hdist : NoDup [s; idx; i1; d1].
Hypothesis Hroot : forall k, 0 <= k < 128 -> pk (pointers (v idx)) k = if k =? 0 then i1 else 0.
Hypothesis Hind : forall k, 0 <= k < 128 -> pk (pointers (v i1)) k = if k =? 0 then d1 else 0.
Hypothesis Htail : forall k, len <= k < 512 -> nth (Z.to_nat k) (v d1) 0 = 0.

Lemma one_level1 k : 0 <= k < 128 -> level1 v idx k = if k =? 0 then i1 else 0.
Proof using All. intros Hk. unfold level1. rewrite (proj2 (Z.eqb_neq _ _)) by tauto. by apply Hroot. Qed.

Lemma one_level2 k j : 0 <= k < 128 -> 0 <= j < 128 -> level2 v idx k j = if (k =? 0) && (j =? 0) then d1 else 0.
Proof using All.
  intros Hk Hj. unfold level2. rewrite one_level1 by done. destruct (Z.eqb_spec k 0); [|reflexivity].
  rewrite (proj2 (Z.eqb_neq i1 0)) by tauto. rewrite Hind by done. reflexivity.
Qed.

Lemma one_live nd : live v s idx nd ->
  (nd = Self \/ nd = Root \/ nd = Ind 0 \/ nd = Dat 0 0) /\
  addr v s idx nd = match nd with Self => s | Root => idx | Ind _ => i1 | Dat _ _ => d1 end.
Proof using All.
  intros [Hv Hl]. destruct nd as [| |k|k j]; simpl; [tauto | tauto | |]; (destruct Hl as [[=]|Hl]); simpl in Hl, Hv.
  - rewrite one_level1 in * by done. destruct (Z.eqb_spec k 0) as [->|]; [tauto | done].
  - destruct Hv as [Hk Hj]. rewrite one_level2 in * by done. destruct (Z.eqb_spec k 0) as [->|], (Z.eqb_spec j 0) as [->|]; simpl in *; tauto.
Qed.

Lemma one_tree : tree_ok v s idx len.
Proof using All.
  split; [unfold MAX_FILE_BYTES; lia|]. split; [tauto|]. split; [|split; [|split]].
  - intros k Hk. rewrite one_level1 by done. unfold level1_bytes. destruct (Z.eqb_spec k 0); [|lia]. split; [lia | tauto].
  - intros k j Hk Hj. rewrite one_level2 by done. unfold level1_bytes.
    destruct (Z.eqb_spec k 0), (Z.eqb_spec j 0); simpl; lia || (split; [lia | tauto]).
  - pose proof Hdist as Hd. rewrite !NoDup_cons, !not_elem_of_cons in Hd. destruct Hd as ((D1 & D2 & D3 & _) & (D4 & D5 & _) & (D6 & _) & _).
    intros a b [Ha Ea]%one_live [Hb Eb]%one_live Heq. rewrite Ea, Eb in Heq.
    destruct Ha as [->|[->|[->| ->]]], Hb as [->|[->|[->| ->]]]; first [reflexivity | exfalso; congruence].
  - intros k Hk Hlt. assert (k / 512 = 0) as E0.
    { pose proof (Z.div_pos k 512). destruct (Z.eq_dec (k / 512) 0); lia. }
    unfold tree_byte. rewrite E0. replace (k / level1_bytes) with (k / 512 / 128) by (unfold level1_bytes; by rewrite Z.div_div by lia).
    rewrite E0. change (0 / 128) with 0. change (0 mod 128) with 0. rewrite one_level2 by lia. cbn [Z.eqb andb].
    apply Htail. pose proof (Z.div_mod k 512). pose proof (Z.mod_pos_bound k 512). lia.
Qed.
End one_sector.

Lemma pk_single x k : 0 <= k < 128 -> pk (x :: replicate 127 0) k = if k =? 0 then x else 0.
Proof.
  intros Hk. unfold pk. destruct (Z.eqb_spec k 0) as [->|]; [reflexivity|]. rewrite nth_lookup.
  replace (Z.to_nat k) with (S (Z.to_nat (k - 1))) by lia. cbn [lookup list_lookup].
  destruct (replicate 127 0 !! Z.to_nat (k - 1)) as [y|] eqn:E; [|reflexivity]. by apply lookup_replicate in E as [-> _].
Qed.

Lemma pointers_single x : is_u32 x -> pointers (words_to_bytes (x :: replicate 127 0)) = x :: replicate 127 0.
Proof.
  intros Hx. apply pointers_words; [|by rewrite length_cons, length_replicate].
  constructor; [done|]. apply Forall_replicate. unfold is_u32. lia.
Qed.

(** ** The device *)

(** The on-disk inode of the free map's file: 8 bytes under sector 2. *)
Definition demo_map_inode : list Z := set_length 8 (set_indirect 2 (set_magic INODE_MAGIC blank_sector)).

(** The on-disk inode of the root directory: 60 bytes under sector 7. *)
Definition demo_root_inode : list Z := set_isdir true (set_length 60 (new_inode 7)).

(** A directory entry: the sector, the name in 15 bytes, and that it is in use. *)
Definition demo_dirent (s : Z) (name : list Z) : list Z :=
  le_encode 4 s ++ name ++ replicate (15 - length name) 0 ++ [1].

(** "..", "." and "a". *)
Definition demo_root_data : list Z :=
  demo_dirent 1 [46; 46] ++ demo_dirent 1 [46] ++ demo_dirent 5 [97] ++ replicate 452 0.

Definition demo_sectors (ws : list Z) : memory_disk :=
  {[ 0 := demo_map_inode; 1 := demo_root_inode; 2 := words_to_bytes (3 :: replicate 127 0); 3 := words_to_bytes (4 :: replicate 127 0);
     4 := patch 0 (words_to_bytes ws) blank_sector; 5 := new_inode 6;
     7 := words_to_bytes (8 :: replicate 127 0); 8 := words_to_bytes (9 :: replicate 127 0); 9 := demo_root_data ]}.

Definition demo_cache (ws : list Z) : cache memory_disk :=
  mk_cache (mk_block "hdb"%string BLOCK_FILESYS 64 (demo_sectors ws) 0 0) [] false.

Definition demo_map_entry : inode := mk_inode 0 1 false 0 0 0 0 0.

Definition demo_entry (removed : bool) : inode := mk_inode 5 1 removed 0 0 0 0 0.

(** [ws]: the words of the free map; [r]: whether the file at 5 is removed. *)
Definition demo_fs (ws : list Z) (r : bool) : fs (cache memory_disk) :=
  mk_fs (demo_cache ws) (mk_bitmap 64 ws) 1 false [2; 1] false
    {[ 1 := demo_map_entry; 2 := demo_entry r ]} {[ 1 := mk_file 1 0 false ]} ∅ 0 3 [].

Definition demo_priv (x : Z) : Prop := x = 0 \/ x = 2 \/ x = 3 \/ x = 4.

Section demo.
Context (w0 w1 : Z) (r : bool).
Hypothesis Hw : is_u32 w0 /\ is_u32 w1.
(** Sectors 0 to 6 are marked. *)
Hypothesis Hlow : Z.land w0 127 = 127.
Let ws := [w0; w1].
Let f := demo_fs ws r.

Lemma demo_sector x : sector_of f x =
  if x =? 0 then demo_map_inode else if x =? 1 then demo_root_inode else if x =? 2 then words_to_bytes (3 :: replicate 127 0)
  else if x =? 3 then words_to_bytes (4 :: replicate 127 0) else if x =? 4 then patch 0 (words_to_bytes ws) blank_sector
  else if x =? 5 then new_inode 6 else if x =? 7 then words_to_bytes (8 :: replicate 127 0)
  else if x =? 8 then words_to_bytes (9 :: replicate 127 0) else if x =? 9 then demo_root_data else blank_sector.
Proof.
  change (sector_of f x) with (default blank_sector (demo_sectors ws !! x)). unfold demo_sectors.
  destruct (Z.eqb_spec x 0) as [->|]; [by rewrite lookup_insert_eq|]. rewrite lookup_insert_ne by done.
  destruct (Z.eqb_spec x 1) as [->|]; [by rewrite lookup_insert_eq|]. rewrite lookup_insert_ne by done.
  destruct (Z.eqb_spec x 2) as [->|]; [by rewrite lookup_insert_eq|]. rewrite lookup_insert_ne by done.
  destruct (Z.eqb_spec x 3) as [->|]; [by rewrite lookup_insert_eq|]. rewrite lookup_insert_ne by done.
  destruct (Z.eqb_spec x 4) as [->|]; [by rewrite lookup_insert_eq|]. rewrite lookup_insert_ne by done.
  destruct (Z.eqb_spec x 5) as [->|]; [by rewrite lookup_insert_eq|]. rewrite lookup_insert_ne by done.
  destruct (Z.eqb_spec x 7) as [->|]; [by rewrite lookup_insert_eq|]. rewrite lookup_insert_ne by done.
  destruct (Z.eqb_spec x 8) as [->|]; [by rewrite lookup_insert_eq|]. rewrite lookup_insert_ne by done.
  destruct (Z.eqb_spec x 9) as [->|]; [by rewrite lookup_singleton_eq|]. by rewrite lookup_singleton_ne by done.
Qed.

Lemma demo_used x : 0 <= x < 7 -> used f x = true.
Proof using Hlow.
  intros Hx. unfold used, bit, elem_idx, ELEM_BITS. cbn [free_map f demo_fs bits]. rewrite Z.div_small, Z.mod_small by lia. simpl.
  assert (Z.testbit (Z.land w0 127) x = true) as E.
  { rewrite Hlow. assert (x = 0 \/ x = 1 \/ x = 2 \/ x = 3 \/ x = 4 \/ x = 5 \/ x = 6) as [->|[->|[->|[->|[->|[->| ->]]]]]] by lia; reflexivity. }
  rewrite Z.land_spec in E. by apply andb_true_iff in E as [E _].
Qed.

Lemma demo_data_ok : sector_ok (patch 0 (words_to_bytes ws) blank_sector).
Proof.
  split; [rewrite length_patch; [reflexivity | rewrite length_words_to_bytes; simpl; lia]|].
  apply Forall_patch; [apply words_to_bytes_bytes | apply blank_sector_ok].
Qed.

Lemma demo_root_data_ok : sector_ok demo_root_data.
Proof.
  split; [reflexivity|]. unfold demo_root_data, demo_dirent. rewrite !Forall_app. split_and!; try apply le_encode_bytes;
    try (apply Forall_replicate; unfold is_byte; lia); repeat constructor; unfold is_byte; lia.
Qed.

Lemma demo_store : store_ok (store f).
Proof.
  cbn [store_ok cache_store store f demo_fs]. split; [split; [|done]|split; [done|split; [simpl; unfold CACHE_SECTORS; lia|split; [constructor | constructor]]]].
  cbn [driver_ok memory_disk_ops aux fs_device demo_cache]. unfold demo_sectors.
  assert (sector_ok (set_magic INODE_MAGIC blank_sector)) as Hm by apply set_magic_ok, blank_sector_ok.
  apply map_Forall_insert_2; [by apply set_length_ok, set_indirect_ok|].
  apply map_Forall_insert_2; [by apply set_isdir_ok, set_length_ok, set_indirect_ok|].
  apply map_Forall_insert_2; [apply words_sector_ok; by rewrite length_cons, length_replicate|].
  apply map_Forall_insert_2; [apply words_sector_ok; by rewrite length_cons, length_replicate|].
  apply map_Forall_insert_2; [apply demo_data_ok|].
  apply map_Forall_insert_2; [by apply set_indirect_ok|].
  apply map_Forall_insert_2; [apply words_sector_ok; by rewrite length_cons, length_replicate|].
  apply map_Forall_insert_2; [apply words_sector_ok; by rewrite length_cons, length_replicate|].
  apply map_Forall_singleton. exact demo_root_data_ok.
Qed.

Lemma demo_map_fields : d_indirect demo_map_inode = 2 /\ d_length demo_map_inode = 8.
Proof. split; vm_compute; reflexivity. Qed.

Lemma demo_map_idx : file_idx f 0 = 2 /\ file_len f 0 = 8.
Proof. unfold file_idx, file_len. rewrite !demo_sector. exact demo_map_fields. Qed.

Lemma demo_user_idx : file_idx f 5 = 6 /\ file_len f 5 = 0.
Proof. unfold file_idx, file_len. rewrite !demo_sector. split; vm_compute; reflexivity. Qed.

Lemma demo_root k : 0 <= k < 128 -> pk (pointers (sector_of f 2)) k = if k =? 0 then 3 else 0.
Proof. intros Hk. rewrite demo_sector. cbn [Z.eqb Pos.eqb]. rewrite pointers_single by (unfold is_u32; lia). by apply pk_single. Qed.

Lemma demo_ind k : 0 <= k < 128 -> pk (pointers (sector_of f 3)) k = if k =? 0 then 4 else 0.
Proof. intros Hk. rewrite demo_sector. cbn [Z.eqb Pos.eqb]. rewrite pointers_single by (unfold is_u32; lia). by apply pk_single. Qed.

Lemma demo_map_byte k : 0 <= k < 512 -> nth (Z.to_nat k) (sector_of f 4) 0 = if k <? 8 then nth (Z.to_nat k) (words_to_bytes ws) 0 else 0.
Proof.
  intros Hk. rewrite demo_sector. cbn [Z.eqb Pos.eqb]. rewrite !nth_lookup.
  assert (length (words_to_bytes ws) = 8%nat) as Hl by by rewrite length_words_to_bytes.
  rewrite lookup_patch by (rewrite Hl; simpl; lia). rewrite Hl. destruct (Z.ltb_spec k 8).
  - rewrite decide_True by lia. by rewrite Nat.sub_0_r.
  - rewrite decide_False by lia. unfold blank_sector. destruct (replicate 512 0 !! Z.to_nat k) as [y|] eqn:E; [|done].
    by apply lookup_replicate in E as [-> _].
Qed.

Lemma demo_map_live nd : live (sector_of f) 0 2 nd ->
  (nd = Self \/ nd = Root \/ nd = Ind 0 \/ nd = Dat 0 0) /\
  addr (sector_of f) 0 2 nd = match nd with Self => 0 | Root => 2 | Ind _ => 3 | Dat _ _ => 4 end.
Proof using All.
  apply (one_live (sector_of f) 0 2 3 4 8); [lia | lia | | exact demo_root | exact demo_ind |].
  - repeat constructor; set_solver.
  - intros k Hk. rewrite demo_map_byte by lia. by rewrite (proj2 (Z.ltb_ge _ _)) by lia.
Qed.

Lemma demo_map_tree : tree_ok (sector_of f) 0 2 8.
Proof using All.
  apply (one_tree (sector_of f) 0 2 3 4 8); [lia | lia | | exact demo_root | exact demo_ind |].
  - repeat constructor; set_solver.
  - intros k Hk. rewrite demo_map_byte by lia. by rewrite (proj2 (Z.ltb_ge _ _)) by lia.
Qed.

Lemma demo_priv_nodes x : demo_priv x <-> node_of f FREE_MAP_SECTOR x.
Proof using All.
  unfold node_of, FREE_MAP_SECTOR. rewrite (proj1 demo_map_idx). split.
  - assert (level1 (sector_of f) 2 0 = 3) as E1 by exact (demo_root 0 ltac:(lia)).
    assert (level2 (sector_of f) 2 0 0 = 4) as E2 by (unfold level2; rewrite E1; exact (demo_ind 0 ltac:(lia))).
    intros [->|[->|[->| ->]]]; [exists Self | exists Root | exists (Ind 0) | exists (Dat 0 0)].
    + split; [apply tree_self | reflexivity].
    + split; [by apply tree_root | reflexivity].
    + split; [|exact E1]. split; [simpl; lia | right; simpl; rewrite E1; lia].
    + split; [|exact E2]. split; [simpl; lia | right; simpl; rewrite E2; lia].
  - intros (nd & Hl & <-). apply demo_map_live in Hl as [Hn ->]. unfold demo_priv. destruct Hn as [->|[->|[->| ->]]]; tauto.
Qed.

Lemma demo_map_owned (P : Z -> Prop) : (forall x, demo_priv x -> ~ P x) -> file_ok P f 0.
Proof using All.
  intros HP. destruct demo_map_idx as [Ei El]. unfold file_ok. rewrite Ei, El. split; [exact demo_map_tree|].
  intros nd Hl. assert (demo_priv (addr (sector_of f) 0 2 nd)) as Hd.
  { apply demo_priv_nodes. exists nd. unfold FREE_MAP_SECTOR. rewrite Ei. split; [exact Hl | reflexivity]. }
  change (device_size f) with 64. unfold demo_priv in Hd.
  split; [lia|]. split; [apply demo_used; lia | by apply HP].
Qed.

Lemma demo_fm_ok : fm_ok 1 1 demo_map_entry demo_priv f.
Proof using All.
  destruct demo_map_idx as [Ei El]. split.
  - split; [exact demo_store|]. split; [change (64 < 2 ^ 32); lia|]. split; [reflexivity | apply demo_map_owned; by intros x _ []].
  - split; [simpl; lia|]. split; [reflexivity|]. repeat constructor; apply Hw.
  - reflexivity.
  - reflexivity.
  - reflexivity.
  - by exists 0, false.
  - exact El.
  - exact demo_priv_nodes.
  - intros k Hk. change (byte_cnt (device_size f)) with 8 in Hk. unfold file_byte, FREE_MAP_SECTOR. rewrite Ei. unfold tree_byte.
    rewrite (Z.div_small k level1_bytes), (Z.div_small k 512), (Z.mod_small k 512) by (unfold level1_bytes; lia).
    change (0 mod 128) with 0. assert (level2 (sector_of f) 2 0 0 = 4) as ->.
    { unfold level2. change (level1 (sector_of f) 2 0) with (pk (pointers (sector_of f 2)) 0). rewrite demo_root by lia.
      exact (demo_ind 0 ltac:(lia)). }
    rewrite demo_map_byte by lia. by rewrite (proj2 (Z.ltb_lt _ _)) by lia.
Qed.

Lemma demo_user_live nd : live (sector_of f) 5 6 nd -> nd = Self \/ nd = Root.
Proof using All.
  assert (forall k, level1 (sector_of f) 6 k = 0) as E1 by (intros k; unfold level1; rewrite demo_sector; apply pk_blank).
  intros [_ Hl]. destruct nd as [| |k|k j]; [by left | by right | |]; exfalso; (destruct Hl as [[=]|Hl]); apply Hl; simpl; [apply E1|].
  unfold level2. by rewrite E1.
Qed.

Lemma demo_user_file : file_ok demo_priv f 5.
Proof using All.
  destruct demo_user_idx as [Ei El]. unfold file_ok. rewrite Ei, El.
  assert (forall k, level1 (sector_of f) 6 k = 0) as E1 by (intros k; unfold level1; rewrite demo_sector; apply pk_blank).
  split; [split; [unfold MAX_FILE_BYTES; lia|split; [lia|split; [|split; [|split]]]]|].
  - intros k Hk. rewrite E1. unfold level1_bytes. lia.
  - intros k j Hk Hj. unfold level2. rewrite E1. simpl. unfold level1_bytes. lia.
  - intros a b [->| ->]%demo_user_live [->| ->]%demo_user_live; simpl; done.
  - intros k Hk Hlt. pose proof (Z.div_pos k 512). lia.
  - intros nd [->| ->]%demo_user_live; simpl; change (device_size f) with 64; unfold demo_priv;
      (split; [lia | split; [apply demo_used; lia | lia]]).
Qed.

Lemma demo_table : table_ok f.
Proof using All.
  split.
  - repeat constructor; set_solver.
  - intros p. change (p ∈ [2; 1] <-> is_Some (({[1 := demo_map_entry; 2 := demo_entry r]} : gmap Z inode) !! p)).
    rewrite <- elem_of_dom, dom_insert_L, dom_singleton_L. set_solver.
  - intros p q i j Hi Hj Heq. change (inodes f) with ({[1 := demo_map_entry; 2 := demo_entry r]} : gmap Z inode) in *.
    apply lookup_insert_Some in Hi as [[<- <-]|[_ [<- <-]%lookup_singleton_Some]];
      apply lookup_insert_Some in Hj as [[<- <-]|[_ [<- <-]%lookup_singleton_Some]]; done.
  - intros p i Hi. change (inodes f) with ({[1 := demo_map_entry; 2 := demo_entry r]} : gmap Z inode) in *.
    apply lookup_insert_Some in Hi as [[<- <-]|[_ [<- <-]%lookup_singleton_Some]]; simpl; lia.
  - reflexivity.
  - simpl. lia.
Qed.

(** *** The root directory *)

Hypothesis Hten : Z.land w0 1023 = 1023.

Lemma demo_used_dir x : 0 <= x < 10 -> used f x = true.
Proof using Hten.
  intros Hx. unfold used, bit, elem_idx, ELEM_BITS. cbn [free_map f demo_fs bits]. rewrite Z.div_small, Z.mod_small by lia. simpl.
  assert (Z.testbit (Z.land w0 1023) x = true) as E by (rewrite Hten; change 1023 with (Z.ones 10); apply Z.ones_spec_low; lia).
  rewrite Z.land_spec in E. by apply andb_true_iff in E as [E _].
Qed.

Lemma demo_dir_idx : file_idx f 1 = 7 /\ file_len f 1 = 60 /\ d_isdir (sector_of f 1) = true.
Proof. unfold file_idx, file_len. rewrite !demo_sector. split_and!; vm_compute; reflexivity. Qed.

Lemma demo_dir_root k : 0 <= k < 128 -> pk (pointers (sector_of f 7)) k = if k =? 0 then 8 else 0.
Proof. intros Hk. rewrite demo_sector. cbn [Z.eqb Pos.eqb]. rewrite pointers_single by (unfold is_u32; lia). by apply pk_single. Qed.

Lemma demo_dir_ind k : 0 <= k < 128 -> pk (pointers (sector_of f 8)) k = if k =? 0 then 9 else 0.
Proof. intros Hk. rewrite demo_sector. cbn [Z.eqb Pos.eqb]. rewrite pointers_single by (unfold is_u32; lia). by apply pk_single. Qed.

Lemma demo_dir_tail k : 60 <= k < 512 -> nth (Z.to_nat k) (sector_of f 9) 0 = 0.
Proof.
  intros Hk. rewrite demo_sector. cbn [Z.eqb Pos.eqb]. unfold demo_root_data. rewrite !app_nth2 by (simpl; lia).
  rewrite nth_lookup. simpl length. destruct (replicate 452 0 !! _) as [y|] eqn:E; [|reflexivity]. by apply lookup_replicate in E as [-> _].
Qed.

Lemma demo_dir_live nd : live (sector_of f) 1 7 nd ->
  (nd = Self \/ nd = Root \/ nd = Ind 0 \/ nd = Dat 0 0) /\
  addr (sector_of f) 1 7 nd = match nd with Self => 1 | Root => 7 | Ind _ => 8 | Dat _ _ => 9 end.
Proof using All.
  apply (one_live (sector_of f) 1 7 8 9 60); [lia | lia | | exact demo_dir_root | exact demo_dir_ind | exact demo_dir_tail].
  repeat constructor; set_solver.
Qed.

Lemma demo_dir_file : file_ok demo_priv f 1.
Proof using All.
  destruct demo_dir_idx as (Ei & El & _). unfold file_ok. rewrite Ei, El. split.
  - apply (one_tree (sector_of f) 1 7 8 9 60); [lia | lia | | exact demo_dir_root | exact demo_dir_ind | exact demo_dir_tail].
    repeat constructor; set_solver.
  - intros nd [Hn ->]%demo_dir_live. change (device_size f) with 64. unfold demo_priv.
    destruct Hn as [->|[->|[->| ->]]]; (split; [lia | split; [apply demo_used_dir; lia | lia]]).
Qed.

Lemma demo_dir_byte k : 0 <= k < 512 -> file_byte f 1 k = nth (Z.to_nat k) demo_root_data 0.
Proof using All.
  intros Hk. unfold file_byte. rewrite (proj1 demo_dir_idx). unfold tree_byte.
  rewrite (Z.div_small k level1_bytes), (Z.div_small k 512), (Z.mod_small k 512) by (unfold level1_bytes; lia).
  change (0 mod 128) with 0. assert (level2 (sector_of f) 7 0 0 = 9) as ->.
  { unfold level2. change (level1 (sector_of f) 7 0) with (pk (pointers (sector_of f 7)) 0). rewrite demo_dir_root by lia.
    exact (demo_dir_ind 0 ltac:(lia)). }
  by rewrite demo_sector.
Qed.

Lemma demo_apart x : node_of f 1 x -> ~ node_of f 5 x.
Proof using All.
  unfold node_of. rewrite (proj1 demo_dir_idx), (proj1 demo_user_idx). intros (nd & Hl & <-) (nd' & Hl' & E).
  apply demo_dir_live in Hl as [Hn Ha]. rewrite Ha in E.
  destruct (demo_user_live nd' Hl') as [->| ->], Hn as [->|[->|[->| ->]]]; discriminate.
Qed.
End demo.
