(* ===== verification/FileProps.v ===== *)
(** * Files on the device

    What users of inode.c and free-map.c rely on, for the inode layer running
    over the free map's own allocator: files keep apart, reads return what was
    written, creation and deletion change exactly the sectors of one file, and
    the places where the code falls short of that. *)

From stdpp Require Import options.
From S2P Require Import Prelude Bytes Bitmap Block Store Cache Inode InodeTree InodeGrow InodeShrink InodeResize.
From S2P Require Import InodeRollback InodeExtend InodeIO InodeWrite InodeLife File FreeMap FileDemo.
Local Open Scope Z_scope.
Local Open Scope kernel_scope.

(** The file and inode through which the free map is open. *)
Definition free_map_handle (q p : Z) (ino : inode) : Prop :=
  q <> 0 /\ p <> 0 /\ i_sector ino = FREE_MAP_SECTOR /\ readable ino /\ deny_write_cnt ino = 0.

(** The files at the inode sectors [L] are well formed and share no sector, with
    each other or with the free map. *)
Record fs_inv {St} `{!SectorStore St} (q p : Z) (ino : inode) (priv : Z -> Prop) (L : list Z) (f : fs St) : Prop := {
  inv_handle : free_map_handle q p ino;
  inv_map : fm_ok q p ino priv f;
  inv_files s : s ∈ L -> file_ok priv f s;
  inv_apart s s' x : s ∈ L -> s' ∈ L -> node_of f s x -> node_of f s' x -> s = s'
}.

(** The file at [s] has the same length and bytes. *)
Definition same_file {St} `{!SectorStore St} (f g : fs St) (s : Z) : Prop :=
  file_len g s = file_len f s /\ (forall k, 0 <= k < file_len f s -> file_byte g s k = file_byte f s k).

Section isolation.
Context {St : Type} `{!SectorStore St} {q pm : Z} {im : inode} {priv : Z -> Prop} {L : list Z}.
Implicit Types (f g : fs St) (p s x : Z) (i : inode).
Abbreviation inv := (fs_inv q pm im priv).
Abbreviation fm_ok := (fm_ok q pm im priv).

(** A file of the file system that is open. *)
Lemma inv_opened f p i : inv L f -> inodes f !! p = Some i -> i_sector i ∈ L -> opened (priv := priv) p i f.
Proof.
  intros Hf Hi HL. destruct (fm_inode _ _ _ _ _ (inv_map _ _ _ _ _ _ Hf)) as (Hs & Hd & _ & _).
  split; [exact Hs|]. split; [exact Hd|]. split; [exact Hi|]. exact (inv_files _ _ _ _ _ _ Hf _ HL).
Qed.

Lemma quiet_fm f g : fm_ok f -> i_sector im = FREE_MAP_SECTOR -> quiet f g -> fm_ok g.
Proof.
  intros Hf Hsec (Q1 & Q2 & Q3 & Q4 & Q5). eapply fm_stable; [exact Hsec | exact Hf | exact Q1 | exact Q2 | exact Q3 | exact Q4 |].
  intros x _. apply Q5.
Qed.

(** Where a write left bytes other than its own. *)
Lemma wrote_rest p i f g o data k :
  opened (priv := priv) p i f -> 0 <= o -> o + Z.of_nat (length data) <= file_len f (i_sector i) -> wrote i f g o data ->
  0 <= k -> k / 512 * 512 < file_len f (i_sector i) -> ~ o <= k < o + Z.of_nat (length data) ->
  file_byte g (i_sector i) k = file_byte f (i_sector i) k \/
  (file_byte g (i_sector i) k = 0 /\ (k / 512 = o / 512 \/ k / 512 = (o + Z.of_nat (length data) - 1) / 512)).
Proof.
  intros Ho Hoff Hend Hw Hk Hkl Hn. set (n := Z.of_nat (length data)) in *. pose proof Hw as (_ & _ & _ & _ & Hod & _ & Hrest).
  destruct (decide (k / 512 = o / 512 \/ k / 512 = (o + n - 1) / 512)) as [Ht|Ht].
  { destruct Hrest as [z Hrest]. rewrite (Hrest k Hk Hkl Hn). destruct (z (k / 512)); [right; split; [done | exact Ht] | by left]. }
  left. rewrite !file_byte_sector, (wrote_data_sector p i f g o n Ho Hoff Hend Hod k Hk Hkl). rewrite Hod; [reflexivity|].
  intros k' Hk' Heq. pose proof (div_mul_le k').
  assert (k / 512 = k' / 512) as E by (apply (data_sector_inj p i f k k' Ho); [lia | lia | exact Hkl | lia | symmetry; exact Heq]).
  assert (o / 512 <= k' / 512) by (apply Z.div_le_mono; lia). assert (k' / 512 <= (o + n - 1) / 512) by (apply Z.div_le_mono; lia).
  destruct (Z.lt_ge_cases k o).
  - assert (k / 512 <= o / 512) by (apply Z.div_le_mono; lia). lia.
  - assert ((o + n - 1) / 512 <= k / 512) by (apply Z.div_le_mono; lia). lia.
Qed.

Lemma node_facts f s x : file_ok priv f s -> node_of f s x -> 0 <= x < device_size f /\ used f x = true /\ ~ priv x.
Proof. intros [_ Hown] (nd & Hl & <-). by apply Hown. Qed.

Section step.
Context (f g : fs St) (s : Z).
Hypothesis Hf : inv L f.
Hypothesis Hs : s ∈ L.
Hypothesis Hg : fm_ok g.
Hypothesis Hdev : device_size g = device_size f.
Hypothesis Hkeep : forall x, 0 <= x < device_size f -> used f x = true -> ~ priv x -> ~ node_of f s x ->
  used g x = true /\ sector_of g x = sector_of f x.

Lemma other_frame s' : s' ∈ L -> s' <> s -> forall x, node_of f s' x -> used g x = true /\ sector_of g x = sector_of f x.
Proof using Hf Hs Hkeep.
  intros Hs' Hne x Hx. destruct (node_facts f s' x (inv_files _ _ _ _ _ _ Hf s' Hs') Hx) as (Hr & Hu & Hp).
  apply Hkeep; [exact Hr | exact Hu | exact Hp |]. intros Hxs. apply Hne.
  exact (inv_apart _ _ _ _ _ _ Hf s' s x Hs' Hs Hx Hxs).
Qed.

Lemma other_file s' : s' ∈ L -> s' <> s -> file_ok priv g s' /\ same_file f g s' /\ forall x, node_of g s' x <-> node_of f s' x.
Proof using Hf Hs Hdev Hkeep.
  intros Hs' Hne. pose proof (other_frame s' Hs' Hne) as Hfr.
  destruct (frame_file f g s' (inv_files _ _ _ _ _ _ Hf s' Hs') Hdev Hfr) as [H1 H2].
  split; [exact H1|]. split; [|exact (frame_node f g s' Hfr)]. split; [exact (frame_len f g s' Hfr)|].
  intros k Hk. pose proof (div_mul_le k). apply H2; lia.
Qed.

Lemma apart_others s1 s2 x : s1 ∈ L -> s1 <> s -> s2 ∈ L -> s2 <> s -> node_of g s1 x -> node_of g s2 x -> s1 = s2.
Proof using Hf Hs Hdev Hkeep.
  intros H1 Hn1 H2 Hn2 Hx1 Hx2. destruct (other_file s1 H1 Hn1) as (_ & _ & E1). destruct (other_file s2 H2 Hn2) as (_ & _ & E2).
  exact (inv_apart _ _ _ _ _ _ Hf s1 s2 x H1 H2 (proj1 (E1 x) Hx1) (proj1 (E2 x) Hx2)).
Qed.

(** All files but [s] are still there. *)
Lemma inv_others : inv (filter (fun s' => s' <> s) L) g.
Proof using Hf Hs Hg Hdev Hkeep.
  split; [apply Hf | exact Hg | |].
  - intros s' [Hne Hs']%list_elem_of_filter. exact (proj1 (other_file s' Hs' Hne)).
  - intros s1 s2 x [Hn1 H1]%list_elem_of_filter [Hn2 H2]%list_elem_of_filter Hx1 Hx2.
    exact (apart_others s1 s2 x H1 Hn1 H2 Hn2 Hx1 Hx2).
Qed.

(** So is [s], if it is well formed and took only free sectors. *)
Lemma inv_all : file_ok priv g s -> (forall x, node_of g s x -> used f x = true -> node_of f s x) -> inv L g.
Proof using Hf Hs Hg Hdev Hkeep.
  intros Hgs Hnew. split; [apply Hf | exact Hg | |].
  - intros s' Hs'. destruct (decide (s' = s)) as [->|Hne]; [exact Hgs | exact (proj1 (other_file s' Hs' Hne))].
  - assert (forall s' x, s' ∈ L -> s' <> s -> node_of g s x -> node_of g s' x -> False) as Hapart.
    { intros s' x Hs' Hne Hx Hx'. destruct (other_file s' Hs' Hne) as (_ & _ & Hno). apply (proj1 (Hno x)) in Hx'.
      destruct (node_facts f s' x (inv_files _ _ _ _ _ _ Hf s' Hs') Hx') as (_ & Hu & _).
      apply Hne. exact (inv_apart _ _ _ _ _ _ Hf s' s x Hs' Hs Hx' (Hnew x Hx Hu)). }
    intros s1 s2 x H1 H2 Hx1 Hx2. destruct (decide (s1 = s)) as [->|Hn1], (decide (s2 = s)) as [->|Hn2]; [done | | |].
    + exfalso. exact (Hapart s2 x H2 Hn2 Hx1 Hx2).
    + exfalso. exact (Hapart s1 x H1 Hn1 Hx2 Hx1).
    + exact (apart_others s1 s2 x H1 Hn1 H2 Hn2 Hx1 Hx2).
Qed.
End step.

(** ** Writing *)

Section write.
Context (f : fs St) (p : Z) (i : inode) (buffer : list Z) (size offset : Z).
Let s := i_sector i.
Hypothesis Hf : inv L f.
Hypothesis Hi : inodes f !! p = Some i.
Hypothesis HL : i_sector i ∈ L.
Hypothesis Hp : p <> 0 /\ p <> pm.
Hypothesis Hidle : idle i.
Hypothesis Hoff : 0 <= offset.
Hypothesis Hsize : 0 <= size <= Z.of_nat (length buffer).
Hypothesis Hb : Forall is_byte buffer.
Hypothesis Hmax : offset + size <= MAX_FILE_BYTES.

(** The ways a write can end. *)
Inductive write_result (n : Z) (g : fs St) : Prop :=
  | write_was_denied : n = 0 -> deny_write_cnt i <> 0 -> quiet f g -> write_result n g
  | write_inside : n = size -> deny_write_cnt i = 0 -> offset + size <= file_len f s ->
      wrote i f g offset (take (Z.to_nat size) buffer) -> write_result n g
  | write_grew : n = size -> deny_write_cnt i = 0 -> file_len f s < offset + size ->
      extended (priv := priv) (ok := fm_ok) f g s offset (take (Z.to_nat size) buffer) -> write_result n g
  | write_failed : n = 0 -> deny_write_cnt i = 0 -> file_len f s < offset + size ->
      grow_failed (priv := priv) (ok := fm_ok) f g s (sector_of f s) -> write_result n g.

Lemma write_total : exists n g, inode_write_at the_free_map p buffer size offset f = Done (n, g) /\ write_result n g.
Proof using All.
  pose proof (inv_opened f p i Hf Hi HL) as Ho. destruct Hp as [Hp0 Hpm]. pose proof Hidle as [Hr _].
  destruct (inv_handle _ _ _ _ _ _ Hf) as (h1 & h2 & h3 & h4 & h5).
  pose proof (free_map_allocates q pm im priv h1 h2 h3 h4 h5) as Ha. pose proof (free_map_releases q pm im priv h2 h3 h4 h5) as Hrel.
  pose proof (free_map_frame q pm im priv h3) as Hfr.
  destruct (Z.eq_dec (deny_write_cnt i) 0) as [Hd|Hd].
  - destruct (Z.le_gt_cases (offset + size) (file_len f s)) as [Hle|Hgt].
    + destruct (inode_write_within the_free_map p i f buffer size offset Hp0 Ho Hr Hd Hoff Hsize Hb Hle) as (g & E & Hw).
      exists size, g. split; [exact E | by apply write_inside].
    + destruct (inode_write_past (own := fun r => r = pm) p i f buffer size offset Hp0 Hpm (inv_map _ _ _ _ _ _ Hf) Ho Hidle Hd Hoff Hsize Hb)
        as (n & g & E & [[-> Hex]|[-> Hgf]]); [split; [exact Hgt | exact Hmax] | |].
      * exists size, g. split; [exact E | by apply write_grew; [|  | lia|]].
      * exists 0, g. split; [exact E | by apply write_failed; [|  | lia|]].
  - destruct (inode_write_denied the_free_map p i f buffer size offset Hp0 Ho Hr Hd) as (g & E & Hq).
    exists 0, g. split; [exact E | by apply write_was_denied].
Qed.

Lemma pointer_node x : pointer_sector f s (file_idx f s) x -> node_of f s x.
Proof.
  intros [Hnz [Heq|(k & Hk & Heq)]].
  - exists Root. split; [apply tree_root; congruence | symmetry; exact Heq].
  - exists (Ind k). split; [|symmetry; exact Heq]. split; [exact Hk|]. right. simpl. congruence.
Qed.

(** Every sector in use that is not of the file survives the write. *)
Lemma write_keeps n g : write_result n g -> fm_ok g /\ device_size g = device_size f /\ env g = env f /\
  (forall x, 0 <= x < device_size f -> used f x = true -> ~ priv x -> ~ node_of f s x ->
     used g x = true /\ sector_of g x = sector_of f x).
Proof using All.
  pose proof (inv_opened f p i Hf Hi HL) as Ho. pose proof (inv_map _ _ _ _ _ _ Hf) as Hfm.
  destruct (inv_handle _ _ _ _ _ _ Hf) as (h1 & h2 & h3 & h4 & h5). intros [En Hd Hq|En Hd Hle Hw|En Hd Hgt Hex|En Hd Hgt Hgf].
  - pose proof Hq as (_ & Q2 & Q3 & Q4 & Q5). split; [exact (quiet_fm f g Hfm h3 Hq)|]. split; [exact Q2|]. split; [exact Q3|].
    intros x Hx Hu _ _. split; [by rewrite (quiet_used f g Hq) | apply Q5].
  - assert (offset + Z.of_nat (length (take (Z.to_nat size) buffer)) <= file_len f (i_sector i)) as Hend by (rewrite length_take; fold s; lia).
    pose proof (free_map_allocates q pm im priv h1 h2 h3 h4 h5) as Ha.
    split; [exact (wrote_alloc p i f g offset _ Hfm Ho Hoff Hend Hw)|].
    destruct Hw as (_ & W2 & W3 & W4 & W5 & _). split; [exact W2|]. split; [exact W3|].
    intros x Hx Hu _ Hn. split; [unfold used; by rewrite W4|]. apply W5. intros k Hk Heq. apply Hn. pose proof (div_mul_le k).
    destruct (data_node p i f k Ho) as [Hl _]; [lia | lia |]. eexists. split; [exact Hl | exact Heq].
  - destruct Hex as (E1 & E2 & E3 & _ & _ & _ & _ & _ & E9 & E10 & _). split; [exact E1|]. split; [exact E2|]. split; [exact E3|].
    intros x Hx Hu Hpx Hn. split; [by apply E9 | by apply E10].
  - destruct Hgf as [_ Hr]. destruct ((d_length (sector_of f s) =? 0) && negb (d_indirect (sector_of f s) =? 0)) eqn:Eb.
    + apply andb_true_iff in Eb as [_ Hnz%negb_true_iff%Z.eqb_neq]. destruct Hr as (R1 & R2 & R3 & _ & R5 & R6). split; [exact R1|]. split; [exact R2|]. split; [exact R3|].
      intros x Hx Hu Hpx Hn. assert (x <> d_indirect (sector_of f s)) as Hne.
      { intros ->. apply Hn. exists Root. split; [apply tree_root; exact Hnz | reflexivity]. }
      split; [by apply R5 | by apply R6].
    + destruct Hr as (_ & _ & _ & (R1 & R2 & R3 & R4 & R5)). split; [exact R1|]. split; [exact R2|]. split; [exact R3|].
      intros x Hx Hu Hpx Hn. split; [by apply R4|]. apply R5; [exact Hx | exact Hu | exact Hpx |]. intros Hpt. by apply Hn, pointer_node.
Qed.

Lemma same_nodes g : file_idx g s = file_idx f s ->
  (forall nd, node_valid nd -> addr (sector_of g) s (file_idx f s) nd = addr (sector_of f) s (file_idx f s) nd) ->
  forall x, node_of g s x -> node_of f s x.
Proof.
  intros Ei Ha x (nd & [Hv Hl] & E). rewrite Ei, (Ha nd Hv) in Hl, E. exists nd. split; [split; [exact Hv | exact Hl] | exact E].
Qed.

Lemma self_not_pointer : ~ pointer_sector f s (file_idx f s) s.
Proof using Hf Hi HL.
  pose proof (inv_opened f p i Hf Hi HL) as (_ & _ & _ & [(_ & _ & _ & _ & Hinj & _) _]). fold s in Hinj.
  intros [Hnz [Heq|(k & Hk & Heq)]].
  - assert (Root = Self) as [=]. apply Hinj; [apply tree_root; congruence | apply tree_self | symmetry; exact Heq].
  - assert (Ind k = Self) as [=]. apply Hinj; [split; [exact Hk | right; simpl; congruence] | apply tree_self | symmetry; exact Heq].
Qed.

(** The file itself survives, unless it was empty and the growth failed. *)
Lemma write_self n g : write_result n g -> 0 < file_len f s \/ file_idx f s = 0 \/ 0 < n \/ deny_write_cnt i <> 0 ->
  file_ok priv g s /\ (forall x, node_of g s x -> used f x = true -> node_of f s x).
Proof using All.
  pose proof (inv_opened f p i Hf Hi HL) as Ho. intros [En Hd Hq|En Hd Hle Hw|En Hd Hgt Hex|En Hd Hgt Hgf] Hcond.
  - pose proof (inv_files _ _ _ _ _ _ Hf s HL) as Ht. destruct Hq as (_ & Q2 & _ & Q4 & Q5).
    assert (forall x, node_of f s x -> used g x = true /\ sector_of g x = sector_of f x) as Hsame.
    { intros x Hx. split; [|apply Q5]. unfold used. rewrite Q4. exact (proj1 (proj2 (node_facts f s x Ht Hx))). }
    split; [exact (proj1 (frame_file f g s Ht Q2 Hsame))|]. intros x Hx _. exact (proj1 (frame_node f g s Hsame x) Hx).
  - assert (offset + Z.of_nat (length (take (Z.to_nat size) buffer)) <= file_len f (i_sector i)) as Hend by (rewrite length_take; fold s; lia).
    pose proof (wrote_opened p i f g offset _ Ho Hoff Hend Hw) as (_ & _ & _ & Ht). split; [exact Ht|].
    destruct Hw as (_ & _ & _ & _ & W5 & _). intros x Hx _. revert x Hx. apply same_nodes.
    + exact (wrote_idx p i f g offset _ Ho Hoff Hend W5).
    + intros [| |k|k l] Hv; simpl; [reflexivity | reflexivity | |].
      * exact (wrote_level1 p i f g offset _ Ho Hoff Hend W5 k Hv).
      * exact (wrote_level2 p i f g offset _ Ho Hoff Hend W5 k l (proj1 Hv)).
  - destruct Hex as (_ & _ & _ & E4 & _ & _ & _ & _ & _ & _ & E11). by split.
  - destruct Hgf as [_ Hr]. change (d_length (sector_of f s)) with (file_len f s) in Hr. change (d_indirect (sector_of f s)) with (file_idx f s) in Hr.
    assert ((file_len f s =? 0) && negb (file_idx f s =? 0) = false) as Eb.
    { destruct (Z.eqb_spec (file_len f s) 0); [|reflexivity]. destruct (Z.eqb_spec (file_idx f s) 0); [reflexivity | lia]. }
    rewrite Eb in Hr. destruct Hr as (R1 & _ & R3 & (_ & _ & _ & _ & R8)).
    destruct (node_facts f s s (inv_files _ _ _ _ _ _ Hf s HL)) as (Hr & Hu & Hps); [exists Self; split; [apply tree_self | reflexivity]|].
    assert (sector_of g s = sector_of f s) as Es by (apply R8; [exact Hr | exact Hu | exact Hps | exact self_not_pointer]).
    assert (file_idx g s = file_idx f s) as Ei by (unfold file_idx; by rewrite Es).
    split; [unfold file_ok; rewrite Ei; unfold file_len; rewrite Es; exact R1|].
    intros x Hx _. exact (same_nodes g Ei R3 x Hx).
Qed.
End write.


Lemma slice_of_bytes g s offset (data : list Z) size : Z.of_nat (length data) = size -> offset + size <= file_len g s ->
  (forall k, offset <= k < offset + size -> file_byte g s k = nth (Z.to_nat (k - offset)) data 0) ->
  file_slice g s size offset = data.
Proof.
  intros Hl Hend Hb. unfold file_slice. rewrite Z.min_l by lia. apply list_eq_same_length with (n := length data).
  - reflexivity.
  - rewrite length_map, length_seqZ. lia.
  - intros k x y Hk. rewrite list_lookup_fmap, lookup_seqZ_lt by lia. intros [= <-] Hy. rewrite Hb by lia.
    rewrite nth_lookup. replace (Z.to_nat (offset + Z.of_nat k - offset)) with k by lia. by rewrite Hy.
Qed.

(** C4: a read returns what the last write stored.  When [inode_write_at] reports
    [size] bytes the file is long enough to hold them, reading the same range
    returns exactly the bytes written, bytes past the old end read as zero, and
    the other bytes are unchanged, except that those in the first and last
    sector of the range may have become zero.  Otherwise it reports 0 and the
    device was full. *)
Theorem inode_write_read_back (f : fs St) (p : Z) (i : inode) (buffer : list Z) (size offset : Z)
  (Hf : inv L f) (Hi : inodes f !! p = Some i) (HL : i_sector i ∈ L) (Hp : p <> 0 /\ p <> pm)
  (Hidle : idle i) (Hdeny : deny_write_cnt i = 0) (Hoff : 0 <= offset) (Hsize : 0 <= size <= Z.of_nat (length buffer))
  (Hb : Forall is_byte buffer) (Hmax : offset + size <= MAX_FILE_BYTES) :
  exists n g, inode_write_at the_free_map p buffer size offset f = Done (n, g) /\
    ((n = size /\ file_len g (i_sector i) = Z.max (file_len f (i_sector i)) (offset + size) /\
      (exists h, inode_read_at p size offset g = Done (take (Z.to_nat size) buffer, h) /\ quiet g h) /\
      (forall k, 0 <= k < file_len g (i_sector i) -> ~ offset <= k < offset + size ->
         file_byte g (i_sector i) k = (if k <? file_len f (i_sector i) then file_byte f (i_sector i) k else 0) \/
         (file_byte g (i_sector i) k = 0 /\ (k / 512 = offset / 512 \/ k / 512 = (offset + size - 1) / 512)))) \/
     (n = 0 /\ file_len f (i_sector i) < offset + size /\
      ran_full (priv := priv) (ok := fm_ok) f (i_sector i) (file_idx f (i_sector i)))).
Proof.
  destruct (write_total f p i buffer size offset Hf Hi HL Hp Hidle Hoff Hsize Hb Hmax) as (n & g & E & Hr).
  pose proof (inv_opened f p i Hf Hi HL) as Ho. set (s := i_sector i) in *. exists n, g. split; [exact E|].
  assert (Z.of_nat (length (take (Z.to_nat size) buffer)) = size) as Hlen by (rewrite length_take; lia).
  unfold MAX_FILE_BYTES in Hmax. destruct Hr as [En Hd Hq|En Hd Hle Hw|En Hd Hgt Hex|En Hd Hgt Hgf]; [done | left | left | right].
  - assert (offset + Z.of_nat (length (take (Z.to_nat size) buffer)) <= file_len f (i_sector i)) as Hend by (rewrite Hlen; exact Hle).
    fold s in Hle.
    pose proof (wrote_opened p i f g offset _ Ho Hoff Hend Hw) as Hog. pose proof Hw as (_ & _ & _ & _ & W5 & W6 & _).
    assert (file_len g s = file_len f s) as El by exact (wrote_len p i f g offset _ Ho Hoff Hend W5).
    rewrite Hlen in W6. split; [exact En|]. split; [lia|]. split.
    + destruct (inode_read_at_run p i g size offset Hog (proj1 Hidle)) as (h & Er & Hq); [lia | lia |].
      exists h. split; [|exact Hq]. rewrite Er. fold s. rewrite (slice_of_bytes g s offset (take (Z.to_nat size) buffer)); [reflexivity | exact Hlen | lia | exact W6].
    + intros k Hk Hn. pose proof (div_mul_le k). rewrite (proj2 (Z.ltb_lt k _)) by lia.
      pose proof (wrote_rest p i f g offset _ k Ho Hoff Hend Hw) as Hrest. rewrite Hlen in Hrest. fold s in Hrest. apply Hrest; lia.
  - pose proof (write_keeps f p i buffer size offset Hf Hi HL Hp Hidle Hoff Hsize Hb Hmax n g ltac:(by apply write_grew)) as (Hg & Hdv & He & _).
    destruct Hex as (_ & _ & _ & E4 & E5 & _ & E7 & E8 & _). rewrite Hlen in *. fold s in Hgt, E5, E8, E7.
    assert (opened (priv := priv) p i g) as Hog.
    { destruct (fm_inode _ _ _ _ _ Hg) as (G1 & G2 & _). split; [exact G1|]. split; [exact G2|]. split; [|exact E4].
      assert (inodes g = inodes f) as -> by (unfold env in He; congruence). exact Hi. }
    split; [exact En|]. split; [lia|]. split.
    + destruct (inode_read_at_run p i g size offset Hog (proj1 Hidle)) as (h & Er & Hq); [lia | lia |].
      exists h. split; [|exact Hq]. rewrite Er. fold s. rewrite (slice_of_bytes g s offset (take (Z.to_nat size) buffer)); [reflexivity | exact Hlen | lia | exact E7].
    + destruct E8 as [z E8]. intros k Hk Hn. rewrite (E8 k) by lia. destruct (Z.eqb_spec (k / 512) (offset / 512)); [|rewrite andb_false_r; by left].
      destruct z; [right; split; [done | by left] | by left].
  - split; [exact En|]. split; [exact Hgt | exact (proj1 Hgf)].
Qed.

Lemma inv_alloc f : inv L f ->
  AllocSpec the_free_map priv fm_ok /\ ReleaseSpec the_free_map priv fm_ok /\ AllocFrame fm_ok (fun r => r = pm).
Proof.
  intros Hf. destruct (inv_handle _ _ _ _ _ _ Hf) as (h1 & h2 & h3 & h4 & h5).
  split; [exact (free_map_allocates q pm im priv h1 h2 h3 h4 h5)|].
  split; [exact (free_map_releases q pm im priv h2 h3 h4 h5) | exact (free_map_frame q pm im priv h3)].
Qed.

(** ** Creating *)

(** Adding a file made of [s] and free sectors. *)
Lemma inv_add f g s : inv L f -> fm_ok g -> device_size g = device_size f -> s ∉ L ->
  (forall s' x, s' ∈ L -> node_of f s' x -> x <> s) ->
  (forall x, 0 <= x < device_size f -> used f x = true -> ~ priv x -> x <> s -> used g x = true /\ sector_of g x = sector_of f x) ->
  (forall s', s' ∈ L -> file_ok priv g s' /\ same_file f g s' /\ forall x, node_of g s' x <-> node_of f s' x) /\
  inv L g /\
  (file_ok priv g s -> (forall x, node_of g s x -> x = s \/ used f x = false) -> inv (s :: L) g).
Proof.
  intros Hf Hg Hdev Hs Hns Hkeep.
  assert (forall s', s' ∈ L -> file_ok priv g s' /\ same_file f g s' /\ forall x, node_of g s' x <-> node_of f s' x) as Hold.
  { intros s' Hs'. pose proof (inv_files _ _ _ _ _ _ Hf s' Hs') as Ht.
    assert (forall x, node_of f s' x -> used g x = true /\ sector_of g x = sector_of f x) as Hfr.
    { intros x Hx. destruct (node_facts f s' x Ht Hx) as (Hr & Hu & Hp). exact (Hkeep x Hr Hu Hp (Hns s' x Hs' Hx)). }
    destruct (frame_file f g s' Ht Hdev Hfr) as [H1 H2]. split; [exact H1|]. split; [|exact (frame_node f g s' Hfr)].
    split; [exact (frame_len f g s' Hfr)|]. intros k Hk. pose proof (div_mul_le k). apply H2; lia. }
  assert (forall s1 s2 x, s1 ∈ L -> s2 ∈ L -> node_of g s1 x -> node_of g s2 x -> s1 = s2) as Hap.
  { intros s1 s2 x H1 H2 Hx1 Hx2. destruct (Hold s1 H1) as (_ & _ & E1). destruct (Hold s2 H2) as (_ & _ & E2).
    exact (inv_apart _ _ _ _ _ _ Hf s1 s2 x H1 H2 (proj1 (E1 x) Hx1) (proj1 (E2 x) Hx2)). }
  split; [exact Hold|]. split; [split; [apply Hf | exact Hg | intros s' Hs'; exact (proj1 (Hold s' Hs')) | exact Hap]|].
  intros Ht Hnew. assert (forall s' x, s' ∈ L -> node_of g s x -> node_of g s' x -> False) as Hapart.
  { intros s' x Hs' Hx Hx'. destruct (Hold s' Hs') as (_ & _ & E'). apply (proj1 (E' x)) in Hx'.
    destruct (node_facts f s' x (inv_files _ _ _ _ _ _ Hf s' Hs') Hx') as (_ & Hu & _).
    destruct (Hnew x Hx) as [E|E]; [exact (Hns s' x Hs' Hx' E) | congruence]. }
  split; [apply Hf | exact Hg | |].
  - intros s' [->|Hs']%elem_of_cons; [exact Ht | exact (proj1 (Hold s' Hs'))].
  - intros s1 s2 x [->|H1]%elem_of_cons [->|H2]%elem_of_cons Hx1 Hx2; [reflexivity | | | exact (Hap s1 s2 x H1 H2 Hx1 Hx2)].
    + destruct (Hapart s2 x H2 Hx1 Hx2).
    + destruct (Hapart s1 x H1 Hx2 Hx1).
Qed.

(** [inode_create] adds one file of zeros and touches no other.  Given a
    sector that the caller allocated, it either makes it the inode of a file of
    the requested length that reads as zeros, apart from all other files, or
    reports failure; all other files keep their contents either way. *)
Lemma inode_create_zeroed (f : fs St) (s length : Z)
  (Hf : inv L f) (Hs : 0 <= s < device_size f /\ used f s = true /\ ~ priv s) (HsL : s ∉ L)
  (Hns : forall s' x, s' ∈ L -> node_of f s' x -> x <> s) (Hlen : 0 <= length <= MAX_FILE_BYTES) :
  exists b g, inode_create the_free_map s length f = Done (b, g) /\
    (forall s', s' ∈ L -> same_file f g s') /\
    if b : bool then
      inv (s :: L) g /\ file_len g s = length /\
      (forall k, 0 <= k < length -> file_byte g s k = 0) /\ d_isdir (sector_of g s) = false
    else inv L g.
Proof.
  destruct (inv_alloc f Hf) as (Ha & Hr & _). destruct Hs as (Hs1 & Hs2 & Hs3).
  destruct (inode_create_run f s length (inv_map _ _ _ _ _ _ Hf) Hs1 Hs2 Hs3 Hlen) as (b & g & E & (O1 & O2 & O3 & O4 & O5) & Hc).
  destruct (inv_add f g s Hf O1 O2 HsL Hns) as (Hold & Hinv & Hadd).
  { intros x Hx Hu Hp Hne. split; [exact (O4 x Hx Hu) | exact (O5 x Hx Hu Hp Hne)]. }
  exists b, g. split; [exact E|]. split; [intros s' Hs'; exact (proj1 (proj2 (Hold s' Hs')))|].
  destruct b; [|exact Hinv]. destruct Hc as (C1 & C2 & C3 & C4 & C5). split; [exact (Hadd C1 C5)|]. by split_and!.
Qed.

(** ** Deleting *)

(** C21: the last close of a removed file frees exactly its sectors.  Afterwards
    a sector is in use if and only if it was and did not belong to the file,
    the inode is gone from memory, and every other file is unchanged. *)
Theorem inode_close_frees_file (f : fs St) (p : Z) (i : inode)
  (Hf : inv L f) (Hi : inodes f !! p = Some i) (HL : i_sector i ∈ L) (Hp : p <> 0 /\ p <> pm)
  (Hidle : idle i) (Hlock : open_inodes_lock f = false) (Hcnt : open_cnt i = 1) (Hrem : removed i = true) :
  exists g, inode_close the_free_map p f = Done (tt, g) /\ inodes g = delete p (inodes f) /\
    (forall x, 0 <= x < device_size f -> used g x = true <-> used f x = true /\ ~ node_of f (i_sector i) x) /\
    (forall s, s ∈ L -> s <> i_sector i -> same_file f g s) /\
    inv (filter (fun s => s <> i_sector i) L) g.
Proof.
  destruct (inv_alloc f Hf) as (Ha & Hr & Hfr). pose proof (inv_opened f p i Hf Hi HL) as Ho. destruct Hp as [Hp0 Hpm].
  set (s := i_sector i) in *. assert (s <> 0) as Hs0.
  { intros E0. destruct (node_facts f s s (inv_files _ _ _ _ _ _ Hf s HL)) as (_ & _ & Hps); [exists Self; split; [apply tree_self | reflexivity]|].
    apply Hps. apply (fm_priv _ _ _ _ _ (inv_map _ _ _ _ _ _ Hf)). rewrite E0. exists Self. split; [apply tree_self | reflexivity]. }
  destruct (inode_close_removed (own := fun r => r = pm) f p i Hp0 Hpm Hlock (inv_map _ _ _ _ _ _ Hf) Ho Hidle Hs0 Hcnt Hrem)
    as (g & E & (D1 & D2 & D3 & D4 & D5) & He). fold s in D3, D4, D5.
  assert (forall x, 0 <= x < device_size f -> used f x = true -> ~ priv x -> ~ node_of f s x ->
    used g x = true /\ sector_of g x = sector_of f x) as Hkeep.
  { intros x Hx Hu Hpx Hn. split; [rewrite D4; [exact Hu | exact Hx | exact Hn] | exact (D5 x Hpx Hn)]. }
  exists g. split; [exact E|]. split; [unfold env in He; simpl in He; congruence|]. split; [|split].
  - intros x Hx. split.
    + intros Hu. assert (~ node_of f s x) as Hn by (intros Hn; rewrite (D3 x Hn) in Hu; discriminate).
      rewrite D4 in Hu by assumption. by split.
    + intros [Hu Hn]. rewrite D4 by assumption. exact Hu.
  - intros s' Hs' Hne. exact (proj1 (proj2 (other_file f g s Hf HL D2 Hkeep s' Hs' Hne))).
  - exact (inv_others f g s Hf HL D1 D2 Hkeep).
Qed.

(** ** A growth that fails *)

(** C39: on a full device, writing to an empty file frees a sector that the file
    still points to.  [inode_create] gave the file its doubly indirect sector;
    the failed write releases it but leaves the pointer in the on-disk inode,
    and the next allocation hands the same sector out again. *)
Theorem failed_growth_frees_root (f : fs St) (p : Z) (i : inode) (buffer : list Z) (size : Z)
  (Hf : inv L f) (Hi : inodes f !! p = Some i) (HL : i_sector i ∈ L) (Hp : p <> 0 /\ p <> pm)
  (Hidle : idle i) (Hdeny : deny_write_cnt i = 0) (Hsize : 0 < size <= Z.of_nat (length buffer))
  (Hb : Forall is_byte buffer) (Hmax : size <= MAX_FILE_BYTES)
  (Hempty : file_len f (i_sector i) = 0) (Hroot : file_idx f (i_sector i) <> 0) (Hfull : full f) :
  exists g h, inode_write_at the_free_map p buffer size 0 f = Done (0, g) /\
    file_idx g (i_sector i) = file_idx f (i_sector i) /\ used g (file_idx g (i_sector i)) = false /\
    allocate the_free_map 1 g = Done (Some (file_idx g (i_sector i)), h).
Proof.
  set (s := i_sector i) in *. assert (0 <= size <= Z.of_nat (length buffer)) as Hsize' by lia.
  destruct (write_total f p i buffer size 0 Hf Hi HL Hp Hidle ltac:(lia) Hsize' Hb ltac:(lia)) as (n & g & E & Hr).
  pose proof (inv_files _ _ _ _ _ _ Hf s HL) as Ht. assert (file_tree (priv := priv) f s (file_idx f s) 0) as Ht0 by (rewrite <- Hempty; exact Ht).
  destruct Hr as [En Hd Hq|En Hd Hle Hw|En Hd Hgt Hex|En Hd Hgt Hgf]; [done | | |].
  - change (i_sector i) with s in Hle. lia.
  - exfalso. destruct Hex as (_ & E2 & _ & [(_ & _ & H1 & _ & Hinj & _) Hown] & El & [_ Ei] & _ & _ & _ & _ & E11). fold s in H1, Hinj, Hown, El, Ei, E11.
    specialize (Ei Hroot). rewrite Ei, El in H1. rewrite Ei in Hinj, Hown. rewrite length_take in H1.
    assert (level1 (sector_of g) (file_idx f s) 0 <> 0) as Hnz by (apply H1; unfold level1_bytes; lia).
    assert (live (sector_of g) s (file_idx f s) (Ind 0)) as Hl by (split; [simpl; lia | right; exact Hnz]).
    destruct (Hown _ Hl) as (Hx & _). set (x := addr _ _ _ _) in Hx. rewrite E2 in Hx.
    destruct (E11 x) as (nd & Hlf & Ea); [exists (Ind 0); rewrite Ei; split; [exact Hl | reflexivity] | exact (Hfull x Hx) |].
    destruct (empty_nodes f s _ nd Ht0 Hlf) as [->| ->]; simpl in Ea.
    + assert (Ind 0 = Self) as [=]. apply Hinj; [exact Hl | apply tree_self | symmetry; exact Ea].
    + assert (Ind 0 = Root) as [=]. apply Hinj; [exact Hl | by apply tree_root | symmetry; exact Ea].
  - destruct Hgf as [_ Hlost]. change (d_length (sector_of f (i_sector i))) with (file_len f s) in Hlost.
    change (d_indirect (sector_of f (i_sector i))) with (file_idx f s) in Hlost.
    rewrite Hempty, (proj2 (Z.eqb_neq _ _) Hroot) in Hlost. simpl in Hlost. destruct Hlost as (R1 & R2 & _ & R4 & R5 & R6).
    destruct (root_facts f s _ _ Ht Hroot) as (Hrr & Hru & _).
    destruct (node_facts f s s Ht) as (Hsr & Hsu & Hsp); [exists Self; split; [apply tree_self | reflexivity]|].
    assert (sector_of g s = sector_of f s) as Es.
    { apply R6; [exact Hsr | exact Hsu | | exact Hsp]. intros Heq. destruct Ht as [(_ & _ & _ & _ & Hinj & _) _].
      assert (Root = Self) as [=]. apply Hinj; [by apply tree_root | apply tree_self | symmetry; exact Heq]. }
    assert (file_idx g s = file_idx f s) as Ei by (unfold file_idx; by rewrite Es).
    destruct (inv_alloc f Hf) as (Ha & _). destruct (allocate_run g R1) as (r & h & Ea & _ & _ & _ & _ & Hr).
    exists g, h. rewrite En in E. split; [exact E|]. split; [exact Ei|]. rewrite Ei. split; [exact R4|]. rewrite Ea. destruct r as [x|].
    + destruct Hr as (Hx & Hxf & _). destruct (Z.eq_dec x (file_idx f s)) as [->|Hne]; [reflexivity|].
      rewrite (R5 x) in Hxf; [discriminate | lia | apply Hfull; lia | exact Hne].
    + destruct Hr as [Hall _]. rewrite Hall in R4; [discriminate | lia].
Qed.
End isolation.

(** ** Opening *)

Section opening.
Context {St : Type} `{!SectorStore St}.
Implicit Types (f g : fs St) (s p : Z).

(** A file that is open has one inode in memory.  With memory available and
    no writer active, [inode_open] returns an inode for the sector, the only
    one; opening a second time returns the same inode with its count increased
    by one, and the table of open inodes stays consistent. *)
Lemma inode_open_shares (f : fs St) (s : Z) (Ht : table_ok f) (Hidle : forall p i, inodes f !! p = Some i -> idle i)
  (Hoom : hd false (oom f) = false) :
  exists p g h i, inode_open s f = Done (p, g) /\ table_ok g /\ inodes g !! p = Some i /\ i_sector i = s /\
    (forall q j, inodes g !! q = Some j -> i_sector j = s -> q = p) /\
    inode_open s g = Done (p, h) /\ table_ok h /\ inodes h !! p = Some (bump 1 i).
Proof.
  assert (forall p g i, table_ok g -> inodes g !! p = Some i -> i_sector i = s -> idle i ->
    (forall q j, inodes g !! q = Some j -> i_sector j = s -> q = p) /\
    (exists h, inode_open s g = Done (p, h) /\ table_ok h /\ inodes h !! p = Some (bump 1 i))) as Hagain.
  { intros p g i Hg Hi Hs Hid. split.
    - intros q j Hj Ej. apply (table_inj g Hg q p j i); [done | done | congruence].
    - eexists. split; [by apply inode_open_shared|]. split; [|apply lookup_insert_eq].
      apply table_bump; [done | done |]. pose proof (table_open g Hg p i Hi). lia. }
  destruct (find_open_run (open_inodes f) s f) as [(p & _ & i & Hi & Hs)|[_ Hno]]; [intros p; apply (table_dom f Ht) | |].
  - set (g := with_inodes f (<[p := bump 1 i]> (inodes f))).
    assert (table_ok g) as Hg by (apply table_bump; [done | done |]; pose proof (table_open f Ht p i Hi); lia).
    destruct (Hagain p g (bump 1 i) Hg) as (Hu & h & Eh & Hh & Hih); [apply lookup_insert_eq | done | by apply (Hidle p i) |].
    exists p, g, h, (bump 1 i). split; [by apply inode_open_shared; [| | | apply (Hidle p)]|]. split; [done|]. split; [apply lookup_insert_eq|].
    by split_and!.
  - assert (forall p, ~ open_at f s p) as Hnone.
    { intros p Hp. apply (Hno p); [|exact Hp]. apply (table_dom f Ht). destruct Hp as (i & Hi & _). by exists i. }
    pose proof (inode_open_fresh f s Ht Hnone Hoom) as E. pose proof (table_add f s Ht Hnone) as Hg. set (g := with_table f _ _ _ _) in *.
    destruct (Hagain (next_ptr f) g (new_entry s) Hg) as (Hu & h & Eh & Hh & Hih); [apply lookup_insert_eq | done | done |].
    exists (next_ptr f), g, h, (new_entry s). split; [done|]. split; [done|]. split; [apply lookup_insert_eq|]. by split_and!.
Qed.

(** Running out of memory in [inode_open] leaves the table locked.  If the
    file is not open and [malloc] fails, the function returns a null pointer
    without releasing the lock, so that the next call of [inode_open] stops. *)
Lemma inode_open_oom_keeps_lock (f : fs St) (s s' : Z) (o : list bool) (Ht : table_ok f)
  (Hno : forall p i, inodes f !! p = Some i -> i_sector i <> s) (Hoom : oom f = true :: o) :
  exists g, inode_open s f = Done (0, g) /\ open_inodes_lock g = true /\ inode_open s' g = Fault AssertFailed.
Proof.
  set (f1 := mk_fs (store f) (free_map f) (free_map_file f) (free_map_lock f) (open_inodes f) true (inodes f) (files f) (dirs f) (cwd f)
    (next_ptr f) (oom f)).
  assert (acquire_open_inodes_lock f = Done (tt, f1)) as E1.
  { unfold acquire_open_inodes_lock, bind, get. by rewrite (table_lock f Ht). }
  destruct (find_open_run (open_inodes f1) s f1) as [(q & E & j & Hj & Ej)|[E _]].
  { intros q. apply (table_dom f Ht). } { by destruct (Hno q j Hj). }
  eexists. split; [|split].
  - unfold inode_open. rewrite (bind_done _ _ _ _ _ E1). rewrite (bind_done _ _ f1 f1 f1) by reflexivity.
    rewrite (bind_done _ _ _ _ _ E). unfold bind at 1, malloc_ptr at 1. change (oom f1) with (oom f). rewrite Hoom. reflexivity.
  - reflexivity.
  - reflexivity.
Qed.
End opening.

(** ** The theorems at work

    On the small file system of FileDemo.v, with room and without. *)

Lemma demo_inv (w0 w1 : Z) (r : bool) : is_u32 w0 /\ is_u32 w1 -> Z.land w0 127 = 127 ->
  fs_inv 1 1 demo_map_entry demo_priv [5] (demo_fs [w0; w1] r).
Proof.
  intros Hw Hl. split.
  - by split_and!.
  - by apply demo_fm_ok.
  - intros s ->%list_elem_of_singleton. by apply demo_user_file.
  - by intros s s' x ->%list_elem_of_singleton ->%list_elem_of_singleton.
Qed.

Lemma demo_idle (r : bool) : idle (demo_entry r).
Proof. by split; [split_and!|]. Qed.


Lemma inode_write_read_back_witness :
  exists n g, inode_write_at the_free_map 2 [7; 8; 9] 3 600 (demo_fs [127; 0] false) = Done (n, g) /\
    ((n = 3 /\ file_len g 5 = 603 /\ exists h, inode_read_at 2 3 600 g = Done ([7; 8; 9], h)) \/ n = 0).
Proof.
  destruct (inode_write_read_back (q := 1) (pm := 1) (im := demo_map_entry) (priv := demo_priv) (L := [5])
    (demo_fs [127; 0] false) 2 (demo_entry false) [7; 8; 9] 3 600) as (n & g & E & Hr).
  - apply demo_inv; [unfold is_u32; lia | reflexivity].
  - reflexivity.
  - apply list_elem_of_singleton. reflexivity.
  - lia.
  - apply demo_idle.
  - reflexivity.
  - lia.
  - simpl. lia.
  - repeat constructor; unfold is_byte; lia.
  - unfold MAX_FILE_BYTES. lia.
  - exists n, g. split; [exact E|]. destruct Hr as [(-> & Hl & (h & Hh & _) & _)|(-> & _)]; [left | by right].
    split; [reflexivity|]. split; [|exists h; exact Hh]. change (i_sector (demo_entry false)) with 5 in Hl. rewrite Hl.
    rewrite (proj2 (demo_user_idx 127 0 false)). reflexivity.
Defined.

(** Sector 1 is allocated and belongs to no file. *)
(** The file at 5 holds sectors 5 and 6. *)
Lemma inode_close_frees_file_witness :
  exists g, inode_close the_free_map 2 (demo_fs [127; 0] true) = Done (tt, g) /\ inodes g !! 2 = None /\
    used g 4 = true /\ used g 6 = false.
Proof.
  destruct (inode_close_frees_file (q := 1) (pm := 1) (im := demo_map_entry) (priv := demo_priv) (L := [5])
    (demo_fs [127; 0] true) 2 (demo_entry true)) as (g & E & Hi & Hu & _).
  - apply demo_inv; [unfold is_u32; lia | reflexivity].
  - reflexivity.
  - apply list_elem_of_singleton. reflexivity.
  - lia.
  - apply demo_idle.
  - reflexivity.
  - reflexivity.
  - reflexivity.
  - assert (forall x, node_of (demo_fs [127; 0] true) 5 x <-> x = 5 \/ x = 6) as Hn.
    { intros x. unfold node_of. rewrite (proj1 (demo_user_idx 127 0 true)). split.
      - intros (nd & Hl & <-). destruct (demo_user_live 127 0 true ltac:(unfold is_u32; lia) eq_refl nd Hl) as [->| ->]; [by left | by right].
      - intros [->| ->]; [exists Self; split; [apply tree_self | reflexivity] | exists Root; split; [by apply tree_root | reflexivity]]. }
    exists g. split; [exact E|]. split; [rewrite Hi; reflexivity|]. change (i_sector (demo_entry true)) with 5 in Hu. split.
    + apply Hu; [change (0 <= 4 < 64); lia|]. split; [reflexivity|]. rewrite Hn. lia.
    + destruct (used g 6) eqn:Eu; [|reflexivity]. apply Hu in Eu; [|change (0 <= 6 < 64); lia]. destruct Eu as [_ Eu]. exfalso. apply Eu, Hn. by right.
Defined.

(** All 64 sectors are in use. *)
Lemma failed_growth_frees_root_witness :
  exists g h, inode_write_at the_free_map 2 [7] 1 0 (demo_fs [2 ^ 32 - 1; 2 ^ 32 - 1] false) = Done (0, g) /\
    file_idx g 5 = 6 /\ used g 6 = false /\ allocate the_free_map 1 g = Done (Some 6, h).
Proof.
  assert (forall r, is_u32 (2 ^ 32 - 1) /\ is_u32 (2 ^ 32 - 1) -> file_idx (demo_fs [2 ^ 32 - 1; 2 ^ 32 - 1] r) 5 = 6) as Hx
    by (intros r _; apply demo_user_idx).
  destruct (failed_growth_frees_root (q := 1) (pm := 1) (im := demo_map_entry) (priv := demo_priv) (L := [5])
    (demo_fs [2 ^ 32 - 1; 2 ^ 32 - 1] false) 2 (demo_entry false) [7] 1) as (g & h & E & Ei & Hu & Ha).
  - apply demo_inv; [unfold is_u32; lia | reflexivity].
  - reflexivity.
  - apply list_elem_of_singleton. reflexivity.
  - lia.
  - apply demo_idle.
  - reflexivity.
  - simpl. lia.
  - repeat constructor; unfold is_byte; lia.
  - unfold MAX_FILE_BYTES. lia.
  - apply demo_user_idx.
  - change (i_sector (demo_entry false)) with 5. rewrite Hx by (unfold is_u32; lia). lia.
  - intros x Hr. change (device_size _) with 64 in Hr. unfold used, bit, elem_idx, ELEM_BITS. cbn [free_map demo_fs bits].
    assert (x / 32 = 0 \/ x / 32 = 1) as Hd.
    { assert (0 <= x / 32 < 2) by (split; [apply Z.div_pos; lia | apply Z.div_lt_upper_bound; lia]). lia. }
    pose proof (Z.mod_pos_bound x 32). assert (Z.testbit (2 ^ 32 - 1) (x mod 32) = true) as Hb.
    { change (2 ^ 32 - 1) with (Z.ones 32). apply Z.ones_spec_low. lia. }
    destruct Hd as [->| ->]; exact Hb.
  - change (i_sector (demo_entry false)) with 5 in *. rewrite Hx in Ei by (unfold is_u32; lia). rewrite Ei in Hu, Ha.
    exists g, h. split; [exact E|]. split; [exact Ei|]. split; [exact Hu | exact Ha].
Defined.

