(* ===== verification/Mem.v ===== *)
(** * Byte-addressed memory

    What the C library's string functions see of memory: a finite map from
    addresses to bytes.  An access to an address that is not mapped is
    [BadPointer].  Addresses are integers; objects do not wrap around the end
    of the address space.

    [bytes_at] and [str_at] describe arrays and null-terminated strings,
    [write] stores a list of bytes. *)

From stdpp Require Import options.
From S2P Require Import Prelude Bytes.
Local Open Scope Z_scope.
Local Open Scope kernel_scope.

Abbreviation mem := (gmap Z Z).

Definition load8 (a : Z) : M mem Z := fun m =>
  match m !! a with Some b => Done (b, m) | None => Fault BadPointer end.

Definition store8 (a v : Z) : M mem unit := fun m =>
  match m !! a with Some _ => Done (tt, <[a := u8 v]> m) | None => Fault BadPointer end.

(** A scan of memory visits each mapped address at most once. *)
Definition mem_fuel : M mem nat := gets (fun m => S (size m)).

Definition bytes_at (m : mem) (a : Z) (l : list Z) : Prop :=
  forall i x, l !! i = Some x -> m !! (a + Z.of_nat i) = Some x.

Definition str_at (m : mem) (a : Z) (s : list Z) : Prop :=
  bytes_at m a (s ++ [0]) /\ Forall (fun x => 0 < x < 256) s.

Definition mapped (m : mem) (a : Z) (n : nat) : Prop :=
  forall i, (i < n)%nat -> is_Some (m !! (a + Z.of_nat i)).

Fixpoint write (a : Z) (l : list Z) (m : mem) : mem :=
  match l with
  | [] => m
  | x :: l => write (a + 1) l (<[a := x]> m)
  end.

(** [m'] differs from [m] only within [n] bytes from [a]. *)
Definition only_within (a : Z) (n : nat) (m m' : mem) : Prop :=
  forall b, ~ a <= b < a + Z.of_nat n -> m' !! b = m !! b.

Lemma bytes_at_nil m a : bytes_at m a [].
Proof. intros i x. by rewrite lookup_nil. Qed.

Lemma bytes_at_cons m a x l : bytes_at m a (x :: l) <-> m !! a = Some x /\ bytes_at m (a + 1) l.
Proof.
  split.
  - intros H. split; [by rewrite <- (H 0%nat x) by done; f_equal; lia|].
    intros i y Hi. rewrite <- (H (S i) y) by done. f_equal. lia.
  - intros [H0 H] [|i] y Hi; simpl in Hi; simplify_eq/=.
    + by rewrite Z.add_0_r.
    + rewrite <- (H i y) by done. f_equal. lia.
Qed.

Lemma bytes_at_app m a l k :
  bytes_at m a (l ++ k) <-> bytes_at m a l /\ bytes_at m (a + Z.of_nat (length l)) k.
Proof.
  revert a. induction l as [|x l IH]; intros a; simpl.
  - rewrite Z.add_0_r. split; [intros H; split; [apply bytes_at_nil|done] | by intros [_ H]].
  - rewrite !bytes_at_cons, IH. replace (a + 1 + Z.of_nat (length l)) with (a + Z.of_nat (S (length l))) by lia.
    tauto.
Qed.

Lemma bytes_at_mapped m a l : bytes_at m a l -> mapped m a (length l).
Proof. intros H i Hi. destruct (lookup_lt_is_Some_2 l i Hi) as [x Hx]. exists x. by apply H. Qed.

Lemma bytes_at_size m a l : bytes_at m a l -> (length l <= size m)%nat.
Proof.
  intros H. rewrite <- size_dom.
  assert (length l = size (list_to_set (C := gset Z) (seqZ a (Z.of_nat (length l))))) as ->.
  { rewrite size_list_to_set by apply NoDup_seqZ. rewrite length_seqZ. lia. }
  apply subseteq_size. intros b. rewrite elem_of_list_to_set, elem_of_seqZ. intros Hb.
  apply elem_of_dom. destruct (bytes_at_mapped _ _ _ H (Z.to_nat (b - a))) as [x Hx]; [lia|].
  exists x. rewrite <- Hx. f_equal. lia.
Qed.

Lemma bytes_at_frame m m' a l n b :
  bytes_at m a l -> only_within b n m m' -> a + Z.of_nat (length l) <= b \/ b + Z.of_nat n <= a ->
  bytes_at m' a l.
Proof.
  intros H Hm Hd i x Hi. rewrite Hm; [by apply H|]. apply lookup_lt_Some in Hi. lia.
Qed.

Lemma str_at_frame m m' a s n b :
  str_at m a s -> only_within b n m m' -> a + Z.of_nat (length s) < b \/ b + Z.of_nat n <= a ->
  str_at m' a s.
Proof.
  intros [H Hs] Hm Hd. split; [|done]. eapply bytes_at_frame; [done..|]. rewrite length_app. simpl. lia.
Qed.

Lemma lookup_write a l m b :
  write a l m !! b = if decide (a <= b < a + Z.of_nat (length l)) then l !! Z.to_nat (b - a) else m !! b.
Proof.
  revert a m. induction l as [|x l IH]; intros a m; simpl.
  - rewrite decide_False by lia. done.
  - rewrite IH. destruct (decide (b = a)) as [->|Hne].
    + rewrite decide_False, decide_True by lia. rewrite lookup_insert_eq. by rewrite Z.sub_diag.
    + rewrite lookup_insert_ne by done.
      destruct (decide (a + 1 <= b < _)); [rewrite decide_True by lia|rewrite decide_False by lia; done].
      replace (Z.to_nat (b - a)) with (S (Z.to_nat (b - (a + 1)))) by lia. done.
Qed.

Lemma write_only a l m : only_within a (length l) m (write a l m).
Proof. intros b Hb. rewrite lookup_write, decide_False by done. done. Qed.

Lemma write_bytes a l m : bytes_at (write a l m) a l.
Proof.
  intros i x Hi. pose proof (lookup_lt_Some _ _ _ Hi). rewrite lookup_write, decide_True by lia.
  rewrite <- Hi. f_equal. lia.
Qed.

Lemma write_mapped a l m b n : mapped m b n -> mapped (write a l m) b n.
Proof.
  intros H i Hi. rewrite lookup_write. case_decide; [|by apply H].
  apply lookup_lt_is_Some. lia.
Qed.

Lemma write_app a l k m : write a (l ++ k) m = write (a + Z.of_nat (length l)) k (write a l m).
Proof.
  revert a m. induction l as [|x l IH]; intros a m; simpl; [by rewrite Z.add_0_r|].
  rewrite IH. f_equal. lia.
Qed.

Lemma only_within_trans a n m1 m2 m3 :
  only_within a n m1 m2 -> only_within a n m2 m3 -> only_within a n m1 m3.
Proof. intros H1 H2 b Hb. rewrite H2, H1; done. Qed.

Lemma only_within_mono a n b k m m' :
  only_within a n m m' -> b <= a -> a + Z.of_nat n <= b + Z.of_nat k -> only_within b k m m'.
Proof. intros H H1 H2 c Hc. apply H. lia. Qed.

Lemma only_within_refl a n m : only_within a n m m.
Proof. by intros b _. Qed.

Lemma load8_run m a x : m !! a = Some x -> load8 a m = Done (x, m).
Proof. unfold load8. by intros ->. Qed.

Lemma store8_run m a v : is_Some (m !! a) -> 0 <= v < 256 -> store8 a v m = Done (tt, <[a := v]> m).
Proof. unfold store8. intros [x ->] Hv. unfold u8. by rewrite Z.mod_small by lia. Qed.

Lemma load8_at m a l i x b : bytes_at m a l -> l !! i = Some x -> b = a + Z.of_nat i -> load8 b m = Done (x, m).
Proof. intros H Hi ->. apply load8_run, H, Hi. Qed.

Lemma mapped_insert m a v b n : mapped m b n -> mapped (<[a := v]> m) b n.
Proof.
  intros H i Hi. destruct (decide (b + Z.of_nat i = a)) as [<-|Hne]; [rewrite lookup_insert_eq; eauto|].
  rewrite lookup_insert_ne by done. by apply H.
Qed.

Lemma mapped_sub m a n b k : mapped m a n -> a <= b -> b + Z.of_nat k <= a + Z.of_nat n -> mapped m b k.
Proof.
  intros H H1 H2 i Hi. replace (b + Z.of_nat i) with (a + Z.of_nat (Z.to_nat (b + Z.of_nat i - a))) by lia.
  apply H. lia.
Qed.

#[export] Hint Resolve only_within_refl bytes_at_nil write_bytes : kernel.

(** What a mapped stretch of memory holds. *)
Lemma mapped_bytes m p n : mapped m p n -> exists l, length l = n /\ bytes_at m p l.
Proof.
  revert p. induction n as [|n IH]; intros p H; [exists []; split; [done|apply bytes_at_nil]|].
  destruct (IH (p + 1)) as (l & Hl & Hb).
  { apply (mapped_sub m p (S n)); [done|lia|lia]. }
  destruct (H 0%nat) as [x Hx]; [lia|]. exists (x :: l). split; [simpl; by rewrite Hl|]. apply bytes_at_cons. split; [|done].
  rewrite <- Hx. f_equal. lia.
Qed.
