(* ===== verification/Str.v ===== *)
(** * lib/string.c: memory blocks and strings

    Every function of the file on byte-addressed memory, with its assertions.
    Sizes are [size_t] values; a loop over a block runs its count down, a loop
    that scans a string is bounded by the memory's size ([mem_fuel]), which the
    lemmas show to be enough for a terminated string.  [strtok_r] takes and
    returns the pointer that the source keeps in [*save_ptr].

    The theorems: [memmove] copies overlapping blocks, [strtok_r] splits a
    string into its words, [strlcpy] and [strlcat] stay inside their buffer and
    terminate it. *)

From stdpp Require Import options.
From S2P Require Import Prelude Bytes KList Mem.
Local Open Scope Z_scope.
Local Open Scope kernel_scope.

(** ** Blocks *)

Definition block_assert (p size : Z) : M mem unit := assert (negb (p =? NULL) || (size =? 0)).

Fixpoint copy_up (n : nat) (dst src : Z) : M mem Z :=
  match n with
  | O => ret dst
  | S n => let! b := load8 src in store8 dst b ;; copy_up n (dst + 1) (src + 1)
  end.

Fixpoint copy_down (n : nat) (dst src : Z) : M mem Z :=
  match n with
  | O => ret dst
  | S n => let! b := load8 (src - 1) in store8 (dst - 1) b ;; copy_down n (dst - 1) (src - 1)
  end.

Definition memcpy (dst_ src_ size : Z) : M mem Z :=
  block_assert dst_ size ;;
  block_assert src_ size ;;
  copy_up (Z.to_nat size) dst_ src_ ;;
  ret dst_.

Definition memmove (dst_ src_ size : Z) : M mem Z :=
  block_assert dst_ size ;;
  block_assert src_ size ;;
  let dst := dst_ in
  let src := src_ in
  if dst <? src then copy_up (Z.to_nat size) dst src
  else copy_down (Z.to_nat size) (dst + size) (src + size).

Fixpoint memcmp_loop (n : nat) (a b : Z) : M mem Z :=
  match n with
  | O => ret 0
  | S n =>
      let! x := load8 a in
      let! y := load8 b in
      if negb (x =? y) then ret (if y <? x then 1 else -1)
      else memcmp_loop n (a + 1) (b + 1)
  end.

Definition memcmp (a_ b_ size : Z) : M mem Z :=
  block_assert a_ size ;;
  block_assert b_ size ;;
  memcmp_loop (Z.to_nat size) a_ b_.

Fixpoint memchr_loop (n : nat) (block ch : Z) : M mem Z :=
  match n with
  | O => ret NULL
  | S n => let! b := load8 block in if b =? ch then ret block else memchr_loop n (block + 1) ch
  end.

Definition memchr (block_ ch_ size : Z) : M mem Z :=
  block_assert block_ size ;;
  memchr_loop (Z.to_nat size) block_ (u8 ch_).

Fixpoint memset_loop (n : nat) (dst value : Z) : M mem unit :=
  match n with
  | O => ret tt
  | S n => store8 dst value ;; memset_loop n (dst + 1) value
  end.

Definition memset (dst_ value size : Z) : M mem Z :=
  block_assert dst_ size ;;
  memset_loop (Z.to_nat size) dst_ value ;;
  ret dst_.

(** ** Strings *)

Definition nonnull (p : Z) : M mem unit := assert (negb (p =? NULL)).

Fixpoint strcmp_loop (fuel : nat) (a b : Z) : M mem Z :=
  match fuel with
  | O => fail OutOfFuel
  | S fuel =>
      let! x := load8 a in
      let! y := load8 b in
      if negb (x =? 0) && (x =? y) then strcmp_loop fuel (a + 1) (b + 1)
      else ret (if x <? y then -1 else if y <? x then 1 else 0)
  end.

Definition strcmp (a_ b_ : Z) : M mem Z :=
  nonnull a_ ;; nonnull b_ ;;
  let! fuel := mem_fuel in strcmp_loop fuel a_ b_.

Fixpoint strchr_loop (fuel : nat) (string c : Z) : M mem Z :=
  match fuel with
  | O => fail OutOfFuel
  | S fuel =>
      let! b := load8 string in
      if b =? c then ret string
      else if b =? 0 then ret NULL
      else strchr_loop fuel (string + 1) c
  end.

Definition strchr (string c_ : Z) : M mem Z :=
  nonnull string ;;
  let! fuel := mem_fuel in strchr_loop fuel string (u8 c_).

Fixpoint strcspn_loop (fuel : nat) (string stop length : Z) : M mem Z :=
  match fuel with
  | O => fail OutOfFuel
  | S fuel =>
      let! b := load8 (string + length) in
      if b =? 0 then ret length
      else
        let! p := strchr stop b in
        if negb (p =? NULL) then ret length
        else strcspn_loop fuel string stop (u32 (length + 1))
  end.

Definition strcspn (string stop : Z) : M mem Z :=
  let! fuel := mem_fuel in strcspn_loop fuel string stop 0.

Fixpoint strpbrk_loop (fuel : nat) (string stop : Z) : M mem Z :=
  match fuel with
  | O => fail OutOfFuel
  | S fuel =>
      let! b := load8 string in
      if b =? 0 then ret NULL
      else
        let! p := strchr stop b in
        if negb (p =? NULL) then ret string
        else strpbrk_loop fuel (string + 1) stop
  end.

Definition strpbrk (string stop : Z) : M mem Z :=
  let! fuel := mem_fuel in strpbrk_loop fuel string stop.

Fixpoint strrchr_loop (fuel : nat) (string c p : Z) : M mem Z :=
  match fuel with
  | O => fail OutOfFuel
  | S fuel =>
      let! b := load8 string in
      if b =? 0 then ret p
      else strrchr_loop fuel (string + 1) c (if b =? c then string else p)
  end.

Definition strrchr (string c_ : Z) : M mem Z :=
  let! fuel := mem_fuel in strrchr_loop fuel string (u8 c_) NULL.

Fixpoint strspn_loop (fuel : nat) (string skip length : Z) : M mem Z :=
  match fuel with
  | O => fail OutOfFuel
  | S fuel =>
      let! b := load8 (string + length) in
      if b =? 0 then ret length
      else
        let! p := strchr skip b in
        if p =? NULL then ret length
        else strspn_loop fuel string skip (u32 (length + 1))
  end.

Definition strspn (string skip : Z) : M mem Z :=
  let! fuel := mem_fuel in strspn_loop fuel string skip 0.

Fixpoint strlen_loop (fuel : nat) (string p : Z) : M mem Z :=
  match fuel with
  | O => fail OutOfFuel
  | S fuel =>
      let! b := load8 p in
      if b =? 0 then ret (u32 (p - string)) else strlen_loop fuel string (p + 1)
  end.

Definition strlen (string : Z) : M mem Z :=
  nonnull string ;;
  let! fuel := mem_fuel in strlen_loop fuel string string.

Fixpoint strnlen_loop (fuel : nat) (string maxlen length : Z) : M mem Z :=
  match fuel with
  | O => fail OutOfFuel
  | S fuel =>
      let! b := load8 (string + length) in
      if negb (b =? 0) && (length <? maxlen) then strnlen_loop fuel string maxlen (u32 (length + 1))
      else ret length
  end.

Definition strnlen (string maxlen : Z) : M mem Z :=
  let! fuel := mem_fuel in strnlen_loop fuel string maxlen 0.

Fixpoint strstr_loop (n : nat) (haystack needle needle_len i : Z) : M mem Z :=
  match n with
  | O => ret NULL
  | S n =>
      let! c := memcmp (haystack + i) needle needle_len in
      if c =? 0 then ret (haystack + i)
      else strstr_loop n haystack needle needle_len (i + 1)
  end.

Definition strstr (haystack needle : Z) : M mem Z :=
  let! haystack_len := strlen haystack in
  let! needle_len := strlen needle in
  if needle_len <=? haystack_len then
    strstr_loop (Z.to_nat (haystack_len - needle_len + 1)) haystack needle needle_len 0
  else ret NULL.

(** The first loop of [strtok_r]: [inl s] at the end of the string, [inr s] at
    the start of a token. *)
Fixpoint strtok_skip (fuel : nat) (delimiters s : Z) : M mem (Z + Z) :=
  match fuel with
  | O => fail OutOfFuel
  | S fuel =>
      let! b := load8 s in
      let! p := strchr delimiters b in
      if negb (p =? NULL) then
        if b =? 0 then ret (inl s) else strtok_skip fuel delimiters (s + 1)
      else ret (inr s)
  end.

Fixpoint strtok_token (fuel : nat) (delimiters s : Z) : M mem Z :=
  match fuel with
  | O => fail OutOfFuel
  | S fuel =>
      let! b := load8 s in
      let! p := strchr delimiters b in
      if p =? NULL then strtok_token fuel delimiters (s + 1) else ret s
  end.

Definition strtok_r (s delimiters save_ptr : Z) : M mem (Z * Z) :=
  nonnull delimiters ;;
  let s := if s =? NULL then save_ptr else s in
  nonnull s ;;
  let! fuel := mem_fuel in
  let! r := strtok_skip fuel delimiters s in
  match r with
  | inl s => ret (NULL, s)
  | inr token =>
      let! s := strtok_token fuel delimiters token in
      let! b := load8 s in
      if negb (b =? 0) then store8 s 0 ;; ret (token, s + 1)
      else ret (token, s)
  end.

Definition strlcpy (dst src size : Z) : M mem Z :=
  nonnull dst ;; nonnull src ;;
  let! src_len := strlen src in
  (if 0 <? size then
     let dst_len := size - 1 in
     let dst_len := if src_len <? dst_len then src_len else dst_len in
     memcpy dst src dst_len ;;
     store8 (dst + dst_len) 0
   else ret tt) ;;
  ret src_len.

Definition strlcat (dst src size : Z) : M mem Z :=
  nonnull dst ;; nonnull src ;;
  let! src_len := strlen src in
  let! dst_len := strlen dst in
  (if (0 <? size) && (dst_len <? size) then
     let copy_cnt := size - dst_len - 1 in
     let copy_cnt := if src_len <? copy_cnt then src_len else copy_cnt in
     memcpy (dst + dst_len) src copy_cnt ;;
     store8 (dst + dst_len + copy_cnt) 0
   else ret tt) ;;
  ret (u32 (src_len + dst_len)).

(** ** Reference definitions *)

(** Whether [strchr ds b] finds something: [b] occurs in the string or is null. *)
Definition in_str (ds : list Z) (b : Z) : bool := bool_decide (b ∈ ds ++ [0]).

(** The pieces of a list between separators, and the non-empty ones. *)
Fixpoint fields (p : Z -> bool) (l : list Z) : list (list Z) :=
  match l with
  | [] => [[]]
  | x :: l =>
      if p x then [] :: fields p l
      else match fields p l with
           | w :: ws => (x :: w) :: ws
           | [] => [[x]]
           end
  end.

Definition words (p : Z -> bool) (l : list Z) : list (list Z) :=
  filter (fun w => w <> []) (fields p l).

(** The loop of the example in the comment of [strtok_r]. *)
Fixpoint strtok_all (fuel : nat) (s delimiters save_ptr : Z) : M mem (list Z) :=
  match fuel with
  | O => fail OutOfFuel
  | S fuel =>
      let! r := strtok_r s delimiters save_ptr in
      if fst r =? NULL then ret []
      else
        let! ts := strtok_all fuel NULL delimiters (snd r) in
        ret (fst r :: ts)
  end.

(** ** Blocks *)

Lemma write_snoc_down a l x m : write a l (<[a + Z.of_nat (length l) := x]> m) = write a (l ++ [x]) m.
Proof.
  apply map_eq. intros b. rewrite !lookup_write, length_app. simpl.
  destruct (decide (b = a + Z.of_nat (length l))) as [->|Hne].
  - rewrite decide_False, decide_True by lia. rewrite lookup_insert_eq, lookup_app_r by lia.
    replace (_ - _)%nat with 0%nat by lia. done.
  - rewrite lookup_insert_ne by done. destruct (decide (a <= b < _)).
    + rewrite decide_True by lia. by rewrite lookup_app_l by lia.
    + by rewrite decide_False by lia.
Qed.

Lemma bytes_at_insert m a l b v :
  bytes_at m a l -> ~ a <= b < a + Z.of_nat (length l) -> bytes_at (<[b := v]> m) a l.
Proof.
  intros H Hb i x Hi. rewrite lookup_insert_ne; [by apply H|]. apply lookup_lt_Some in Hi. lia.
Qed.

Lemma copy_up_run m dst src l :
  bytes_at m src l -> Forall is_byte l -> mapped m dst (length l) ->
  dst <= src \/ src + Z.of_nat (length l) <= dst ->
  copy_up (length l) dst src m = Done (dst + Z.of_nat (length l), write dst l m).
Proof.
  revert m dst src. induction l as [|x l IH]; intros m dst src Hs Hb Hd Hov; simpl.
  { unfold ret. by rewrite Z.add_0_r. }
  apply bytes_at_cons in Hs as [H0 Hs]. apply Forall_cons in Hb as [Hx Hb].
  rewrite (bind_done _ _ _ _ _ (load8_run _ _ _ H0)).
  assert (is_Some (m !! dst)) as Hm by (specialize (Hd 0%nat); rewrite Z.add_0_r in Hd; apply Hd; simpl; lia).
  rewrite (bind_done _ _ _ _ _ (store8_run _ _ _ Hm Hx)). simpl in Hov, Hd.
  rewrite IH; [f_equal; f_equal; lia|..]; [|done| |lia].
  - apply bytes_at_insert; [done|lia].
  - apply mapped_insert. eapply mapped_sub; [done|lia..].
Qed.

Lemma copy_down_run m dst src l :
  bytes_at m src l -> Forall is_byte l -> mapped m dst (length l) ->
  src <= dst \/ dst + Z.of_nat (length l) <= src ->
  copy_down (length l) (dst + Z.of_nat (length l)) (src + Z.of_nat (length l)) m = Done (dst, write dst l m).
Proof.
  revert m. induction l as [|x l IH] using rev_ind; intros m Hs Hb Hd Hov; simpl.
  { unfold ret. by rewrite Z.add_0_r. }
  apply bytes_at_app in Hs as [Hs Hx]. apply bytes_at_cons in Hx as [H0 _].
  apply Forall_app in Hb as [Hb Hx]. apply Forall_cons in Hx as [Hx _].
  rewrite length_app in *. simpl in *. rewrite Nat.add_1_r in *. simpl.
  replace (src + Z.of_nat (S (length l)) - 1) with (src + Z.of_nat (length l)) by lia.
  replace (dst + Z.of_nat (S (length l)) - 1) with (dst + Z.of_nat (length l)) by lia.
  rewrite (bind_done _ _ _ _ _ (load8_run _ _ _ H0)).
  rewrite (bind_done _ _ _ _ _ (store8_run _ _ _ (Hd (length l) ltac:(lia)) Hx)).
  rewrite IH; [by rewrite write_snoc_down|..]; [|done| |lia].
  - apply bytes_at_insert; [done|lia].
  - apply mapped_insert. eapply mapped_sub; [done|lia..].
Qed.

Lemma block_assert_ok p size m : p <> NULL \/ size = 0 -> block_assert p size m = Done (tt, m).
Proof.
  intros H. unfold block_assert, assert.
  replace (_ || _) with true; [done|]. symmetry. apply orb_true_iff.
  destruct H as [H| ->]; [left; by apply negb_true_iff, Z.eqb_neq|by right].
Qed.

Lemma memcpy_run m dst src l :
  bytes_at m src l -> Forall is_byte l -> mapped m dst (length l) -> dst <> NULL -> src <> NULL ->
  dst <= src \/ src + Z.of_nat (length l) <= dst ->
  memcpy dst src (Z.of_nat (length l)) m = Done (dst, write dst l m).
Proof.
  intros Hs Hb Hd Hdn Hsn Hov. unfold memcpy.
  rewrite (bind_done _ _ _ _ _ (block_assert_ok _ _ _ (or_introl Hdn))).
  rewrite (bind_done _ _ _ _ _ (block_assert_ok _ _ _ (or_introl Hsn))).
  rewrite Nat2Z.id. by rewrite (bind_done _ _ _ _ _ (copy_up_run _ _ _ _ Hs Hb Hd Hov)).
Qed.

(** ** Strings *)

Lemma str_at_cons m a x s : str_at m a (x :: s) -> m !! a = Some x /\ 0 < x < 256 /\ str_at m (a + 1) s.
Proof.
  intros [H Hs]. simpl in H. apply bytes_at_cons in H as [H0 H]. apply Forall_cons in Hs as [Hx Hs]. done.
Qed.

Lemma str_at_nil m a : str_at m a [] -> m !! a = Some 0.
Proof. intros [H _]. simpl in H. by apply bytes_at_cons in H as [H _]. Qed.

Lemma str_at_app m a s t : str_at m a (s ++ t) -> str_at m (a + Z.of_nat (length s)) t.
Proof.
  intros [H Hs]. rewrite <- app_assoc in H. apply bytes_at_app in H as [_ H]. apply Forall_app in Hs as [_ Hs].
  done.
Qed.

Lemma str_at_size m a s : str_at m a s -> (length s < size m)%nat.
Proof. intros [H _]. apply bytes_at_size in H. rewrite length_app in H. simpl in H. lia. Qed.

Lemma str_at_byte s : Forall (fun x => 0 < x < 256) s -> Forall is_byte s.
Proof. intros H. eapply Forall_impl; [done|]. unfold is_byte. simpl. lia. Qed.

Lemma strlen_loop_run m a p s fuel :
  str_at m p s -> (length s < fuel)%nat ->
  strlen_loop fuel a p m = Done (u32 (p + Z.of_nat (length s) - a), m).
Proof.
  revert p fuel. induction s as [|x s IH]; intros p [|fuel] Hs Hf; simpl in *; try lia.
  - rewrite (bind_done _ _ _ _ _ (load8_run _ _ _ (str_at_nil _ _ Hs))). simpl. by rewrite Z.add_0_r.
  - apply str_at_cons in Hs as (H0 & Hx & Hs).
    rewrite (bind_done _ _ _ _ _ (load8_run _ _ _ H0)).
    replace (x =? 0) with false by (symmetry; apply Z.eqb_neq; lia).
    rewrite IH by (done || lia). f_equal. f_equal. f_equal. lia.
Qed.

Lemma nonnull_ok p m : p <> NULL -> nonnull p m = Done (tt, m).
Proof. intros H. unfold nonnull, assert. by rewrite (proj2 (Z.eqb_neq _ _) H). Qed.

Lemma strlen_run m a s :
  str_at m a s -> a <> NULL -> Z.of_nat (length s) < 2 ^ 32 -> strlen a m = Done (Z.of_nat (length s), m).
Proof.
  intros Hs Ha Hl. unfold strlen. rewrite (bind_done _ _ _ _ _ (nonnull_ok _ _ Ha)).
  unfold mem_fuel, gets, bind. rewrite (strlen_loop_run _ _ _ s) by (done || (pose proof (str_at_size _ _ _ Hs); lia)).
  f_equal. f_equal. rewrite u32_small; lia.
Qed.

Lemma in_str_cons x ds b : in_str (x :: ds) b = (b =? x) || in_str ds b.
Proof.
  unfold in_str. simpl. destruct (Z.eqb_spec b x) as [->|Hne].
  - apply bool_decide_eq_true. set_solver.
  - apply bool_decide_ext. set_solver.
Qed.

Lemma in_str_nil b : in_str [] b = (b =? 0).
Proof.
  unfold in_str. destruct (Z.eqb_spec b 0) as [->|Hb].
  - apply bool_decide_eq_true. set_solver.
  - apply bool_decide_eq_false. set_solver.
Qed.

Lemma strchr_loop_run m p ds b fuel :
  str_at m p ds -> 0 < p -> (length ds < fuel)%nat ->
  exists r, strchr_loop fuel p b m = Done (r, m) /\ (r =? NULL) = negb (in_str ds b).
Proof.
  revert p fuel. induction ds as [|x ds IH]; intros p [|fuel] Hs Hp Hf; simpl in *; try lia.
  - rewrite (bind_done _ _ _ _ _ (load8_run _ _ _ (str_at_nil _ _ Hs))). rewrite in_str_nil, (Z.eqb_sym b 0).
    destruct (Z.eqb_spec 0 b) as [<-|Hb]; eexists; split; try reflexivity.
    apply Z.eqb_neq. unfold NULL. lia.
  - apply str_at_cons in Hs as (H0 & Hx & Hs). rewrite in_str_cons.
    rewrite (bind_done _ _ _ _ _ (load8_run _ _ _ H0)). rewrite (Z.eqb_sym b x).
    destruct (Z.eqb_spec x b) as [->|Hb].
    + eexists. split; [reflexivity|]. simpl. apply Z.eqb_neq. unfold NULL. lia.
    + replace (x =? 0) with false by (symmetry; apply Z.eqb_neq; lia). simpl. apply IH; [done|lia..].
Qed.

(** What every client of [strchr] that only tests for null learns. *)
Lemma strchr_run m d ds b :
  str_at m d ds -> 0 < d -> 0 <= b < 256 ->
  exists r, strchr d b m = Done (r, m) /\ (r =? NULL) = negb (in_str ds b).
Proof.
  intros Hs Hd Hb. unfold strchr.
  rewrite (bind_done _ _ _ _ _ (nonnull_ok d m ltac:(unfold NULL; lia))).
  unfold mem_fuel, gets, bind, u8. rewrite Z.mod_small by lia.
  apply strchr_loop_run; [done..|]. pose proof (str_at_size _ _ _ Hs). lia.
Qed.

Section tokens.
Context (ds : list Z) (d : Z).
Abbreviation sep := (in_str ds).

Definition plain (l : list Z) : Prop := Forall (fun x => sep x = false) l.
Definition seps (l : list Z) : Prop := Forall (fun x => sep x = true) l.

Lemma words_seps l k : seps l -> words sep (l ++ k) = words sep k.
Proof.
  induction 1 as [|x l Hx _ IH]; [done|]. simpl. unfold words in *. simpl. by rewrite Hx.
Qed.

Lemma fields_plain l : plain l -> fields sep l = [l].
Proof. induction 1 as [|x l Hx _ IH]; [done|]. simpl. by rewrite Hx, IH. Qed.

Lemma fields_plain_app l x k : plain l -> sep x = true -> fields sep (l ++ x :: k) = l :: fields sep k.
Proof.
  intros Hl Hx. induction Hl as [|y l Hy _ IH]; simpl; [by rewrite Hx|]. by rewrite Hy, IH.
Qed.

Lemma words_plain l : plain l -> l <> [] -> words sep l = [l].
Proof. intros Hl Hn. unfold words. rewrite fields_plain by done. by rewrite filter_cons_True. Qed.

Lemma words_plain_app l x k : plain l -> l <> [] -> sep x = true -> words sep (l ++ x :: k) = l :: words sep k.
Proof. intros Hl Hn Hx. unfold words. rewrite fields_plain_app by done. by rewrite filter_cons_True. Qed.

(** A list is a run of separators, a token, and the rest. *)
Inductive shape : list Z -> Prop :=
  | shape_blank l : seps l -> shape l
  | shape_last l t : seps l -> plain t -> t <> [] -> shape (l ++ t)
  | shape_more l t x k : seps l -> plain t -> t <> [] -> sep x = true -> shape (l ++ t ++ x :: k).

Lemma plain_split l : plain l \/ exists t x k, l = t ++ x :: k /\ plain t /\ sep x = true.
Proof.
  induction l as [|x l [IH|(t & y & k & -> & Ht & Hy)]].
  - left. constructor.
  - destruct (sep x) eqn:E; [right; exists [], x, l; split_and!; [done|constructor|done]|].
    left. by constructor.
  - right. destruct (sep x) eqn:E; [exists [], x, (t ++ y :: k); split_and!; [done|constructor|done]|].
    exists (x :: t), y, k. split_and!; [done|by constructor|done].
Qed.

Lemma shape_all l : shape l.
Proof.
  induction l as [|x l IH]; [constructor; constructor|]. destruct (sep x) eqn:E.
  - inversion_clear IH as [? Hl|k t Hk Ht Hn|k t y r Hk Ht Hn Hy].
    + constructor. by constructor.
    + apply (shape_last (x :: k) t); [by constructor|done..].
    + apply (shape_more (x :: k) t y r); [by constructor|done..].
  - destruct (plain_split l) as [Hl|(t & y & k & -> & Ht & Hy)].
    + apply (shape_last [] (x :: l)); [constructor|by constructor|done].
    + apply (shape_more [] (x :: t) y k); [constructor|by constructor|done..].
Qed.

Lemma sep_null : sep 0 = true.
Proof. unfold in_str. apply bool_decide_eq_true. set_solver. Qed.

Context (m : mem) (Hd : 0 < d) (Hds : str_at m d ds).

Lemma skip_run l k p fuel :
  str_at m p (l ++ k) -> seps l -> (length (l ++ k) < fuel)%nat ->
  exists fuel', (length k < fuel')%nat /\
    strtok_skip fuel d p m = strtok_skip fuel' d (p + Z.of_nat (length l)) m.
Proof using Hd Hds.
  revert p fuel. induction l as [|x l IH]; intros p fuel Hs Hl Hf; simpl in *.
  { exists fuel. by rewrite Z.add_0_r. }
  destruct fuel as [|fuel]; [lia|]. apply str_at_cons in Hs as (H0 & Hx & Hs). apply Forall_cons in Hl as [Hsep Hl].
  destruct (IH (p + 1) fuel Hs Hl ltac:(lia)) as (fuel' & Hf' & E). exists fuel'. split; [done|].
  simpl. rewrite (bind_done _ _ _ _ _ (load8_run _ _ _ H0)).
  destruct (strchr_run m d ds x Hds Hd ltac:(lia)) as (r & Er & Hr). rewrite (bind_done _ _ _ _ _ Er).
  rewrite Hr, Hsep. simpl. replace (x =? 0) with false by (symmetry; apply Z.eqb_neq; lia).
  rewrite E. f_equal. lia.
Qed.

Lemma skip_end p fuel : str_at m p [] -> (0 < fuel)%nat -> strtok_skip fuel d p m = Done (inl p, m).
Proof using Hd Hds.
  intros Hs Hf. destruct fuel as [|fuel]; [lia|]. simpl.
  rewrite (bind_done _ _ _ _ _ (load8_run _ _ _ (str_at_nil _ _ Hs))).
  destruct (strchr_run m d ds 0 Hds Hd ltac:(lia)) as (r & Er & Hr). rewrite (bind_done _ _ _ _ _ Er).
  by rewrite Hr, sep_null.
Qed.

Lemma skip_stop p x k fuel :
  str_at m p (x :: k) -> sep x = false -> (0 < fuel)%nat -> strtok_skip fuel d p m = Done (inr p, m).
Proof using Hd Hds.
  intros Hs Hx Hf. destruct fuel as [|fuel]; [lia|]. apply str_at_cons in Hs as (H0 & Hr & _). simpl.
  rewrite (bind_done _ _ _ _ _ (load8_run _ _ _ H0)).
  destruct (strchr_run m d ds x Hds Hd ltac:(lia)) as (r & Er & Hn). rewrite (bind_done _ _ _ _ _ Er).
  by rewrite Hn, Hx.
Qed.

(** The second loop stops at the first byte that separates, the terminator
    included. *)
Lemma token_run t k b p fuel :
  str_at m p (t ++ k) -> plain t -> (k ++ [0]) !! 0%nat = Some b -> sep b = true -> (length t < fuel)%nat ->
  strtok_token fuel d p m = Done (p + Z.of_nat (length t), m) /\
  m !! (p + Z.of_nat (length t)) = Some b.
Proof using Hd Hds.
  revert p fuel. induction t as [|x t IH]; intros p fuel Hs Ht Hb Hsep Hf; simpl in *;
    (destruct fuel as [|fuel]; [lia|]); simpl.
  - assert (m !! p = Some b) as H0.
    { destruct k as [|y k]; simpl in Hb; simplify_eq; [by apply str_at_nil|].
      by apply str_at_cons in Hs as (H0 & _). }
    assert (0 <= b < 256) as Hr.
    { destruct k as [|y k]; simpl in Hb; simplify_eq; [lia|]. apply str_at_cons in Hs as (_ & Hy & _). lia. }
    rewrite Z.add_0_r. rewrite (bind_done _ _ _ _ _ (load8_run _ _ _ H0)).
    destruct (strchr_run m d ds b Hds Hd ltac:(lia)) as (r & Er & Hn). rewrite (bind_done _ _ _ _ _ Er).
    by rewrite Hn, Hsep.
  - apply str_at_cons in Hs as (H0 & Hx & Hs). apply Forall_cons in Ht as [Hpl Ht].
    rewrite (bind_done _ _ _ _ _ (load8_run _ _ _ H0)).
    destruct (strchr_run m d ds x Hds Hd ltac:(lia)) as (r & Er & Hn). rewrite (bind_done _ _ _ _ _ Er).
    rewrite Hn, Hpl. simpl. replace (p + Z.of_nat (S (length t))) with (p + 1 + Z.of_nat (length t)) by lia.
    apply IH; [done..|lia].
Qed.
End tokens.

(** One call of [strtok_r] on the string [s] at [p], by the shape of [s]. *)
Inductive token_call (ds : list Z) (m : mem) (p : Z) : list Z -> Z -> Z -> mem -> Prop :=
  | call_blank l : seps ds l -> token_call ds m p l NULL (p + Z.of_nat (length l)) m
  | call_last l t : seps ds l -> plain ds t -> t <> [] ->
      token_call ds m p (l ++ t) (p + Z.of_nat (length l)) (p + Z.of_nat (length (l ++ t))) m
  | call_more l t x k : seps ds l -> plain ds t -> t <> [] -> in_str ds x = true ->
      token_call ds m p (l ++ t ++ x :: k) (p + Z.of_nat (length l)) (p + Z.of_nat (length (l ++ t)) + 1)
        (<[p + Z.of_nat (length (l ++ t)) := 0]> m).

Lemma strtok_finish ds d m p l t k b fuel :
  0 < d -> str_at m d ds -> str_at m p (l ++ t ++ k) -> seps ds l -> plain ds t -> t <> [] ->
  (k ++ [0]) !! 0%nat = Some b -> in_str ds b = true -> (length (l ++ t ++ k) < fuel)%nat ->
  strtok_skip fuel d p m = Done (inr (p + Z.of_nat (length l)), m) /\
  strtok_token fuel d (p + Z.of_nat (length l)) m = Done (p + Z.of_nat (length (l ++ t)), m) /\
  m !! (p + Z.of_nat (length (l ++ t))) = Some b.
Proof.
  intros Hd Hds Hs Hl Ht Hn Hb Hsep Hf.
  destruct (skip_run ds d m Hd Hds _ _ _ _ Hs Hl Hf) as (fuel' & Hf' & E). apply str_at_app in Hs.
  rewrite length_app, Nat2Z.inj_add, Z.add_assoc. rewrite !length_app in Hf. split.
  - rewrite E. destruct t as [|x t]; [done|]. eapply skip_stop; [done..| |lia]. by apply Forall_cons in Ht as [? _].
  - apply (token_run ds d m Hd Hds t k b); [done..|lia].
Qed.

Lemma strtok_r_run ds d m p q save s :
  0 < d -> str_at m d ds -> 0 < p -> str_at m p s -> p = (if q =? NULL then save else q) ->
  exists t save' m', strtok_r q d save m = Done ((t, save'), m') /\ token_call ds m p s t save' m'.
Proof.
  intros Hd Hds Hp Hs Hq. unfold strtok_r. rewrite (bind_done _ _ _ _ _ (nonnull_ok d m ltac:(unfold NULL; lia))).
  rewrite <- Hq. rewrite (bind_done _ _ _ _ _ (nonnull_ok p m ltac:(unfold NULL; lia))).
  unfold mem_fuel at 1, gets. unfold bind at 1. pose proof (str_at_size _ _ _ Hs) as Hsz.
  destruct (shape_all ds s) as [l Hl|l t Hl Ht Hn|l t x k Hl Ht Hn Hx].
  - rewrite <- (app_nil_r l) in Hs.
    destruct (skip_run ds d m Hd Hds l [] p (S (size m)) Hs Hl) as (f & Hf & E); [rewrite app_nil_r; lia|].
    simpl in Hf. apply str_at_app in Hs. rewrite (skip_end ds d m Hd Hds _ f Hs Hf) in E.
    rewrite (bind_done _ _ _ _ _ E). do 3 eexists. split; [reflexivity|]. by constructor.
  - destruct (strtok_finish ds d m p l t [] 0 (S (size m)) Hd Hds) as (E1 & E2 & Hb);
      rewrite ?app_nil_r; [done..|apply sep_null|lia|].
    rewrite (bind_done _ _ _ _ _ E1), (bind_done _ _ _ _ _ E2), (bind_done _ _ _ _ _ (load8_run _ _ _ Hb)).
    do 3 eexists. split; [reflexivity|]. by constructor.
  - destruct (strtok_finish ds d m p l t (x :: k) x (S (size m)) Hd Hds) as (E1 & E2 & Hb); [done..|lia|].
    rewrite (bind_done _ _ _ _ _ E1), (bind_done _ _ _ _ _ E2), (bind_done _ _ _ _ _ (load8_run _ _ _ Hb)).
    assert (0 < x) as Hx0.
    { destruct Hs as [_ Hs]. rewrite app_assoc in Hs. apply Forall_app in Hs as [_ Hs].
      apply Forall_cons in Hs as [Hs _]. lia. }
    replace (x =? 0) with false by (symmetry; apply Z.eqb_neq; lia). simpl.
    rewrite (bind_done _ _ _ _ _ (store8_run m _ 0 (ex_intro _ _ Hb) ltac:(lia))).
    do 3 eexists. split; [reflexivity|]. by constructor.
Qed.

Lemma str_at_cut m p l t x k :
  str_at m p (l ++ t ++ x :: k) ->
  let m' := <[p + Z.of_nat (length (l ++ t)) := 0]> m in
  str_at m' (p + Z.of_nat (length l)) t /\ str_at m' (p + Z.of_nat (length (l ++ t)) + 1) k.
Proof.
  intros Hs. cbv zeta. rewrite length_app, Nat2Z.inj_add, Z.add_assoc. apply str_at_app in Hs.
  set (a := p + Z.of_nat (length l)) in *. destruct Hs as [Hb Hz]. apply Forall_app in Hz as [Ht Hk].
  apply Forall_cons in Hk as [_ Hk]. rewrite <- app_assoc in Hb. apply bytes_at_app in Hb as [Hbt Hbk].
  simpl in Hbk. apply bytes_at_cons in Hbk as [_ Hbk]. split; (split; [|done]).
  - apply bytes_at_app. split; [apply bytes_at_insert; [done|lia]|].
    apply bytes_at_cons. split; [apply lookup_insert_eq|apply bytes_at_nil].
  - apply bytes_at_insert; [done|lia].
Qed.

Lemma only_within_insert m b v a n : a <= b < a + Z.of_nat n -> only_within a n m (<[b := v]> m).
Proof. intros Hb c Hc. rewrite lookup_insert_ne by lia. done. Qed.

Lemma strtok_all_run ds d m p q save s n :
  0 < d -> str_at m d ds -> 0 < p -> str_at m p s -> p = (if q =? NULL then save else q) ->
  d + Z.of_nat (length ds) < p \/ p + Z.of_nat (length s) <= d -> (length s < n)%nat ->
  exists ts m', strtok_all n q d save m = Done (ts, m') /\
    Forall2 (str_at m') ts (words (in_str ds) s) /\ only_within p (length s) m m'.
Proof.
  revert m p q save s. induction n as [|n IH]; intros m p q save s Hd Hds Hp Hs Hq Hdis Hn; [lia|].
  destruct (strtok_r_run ds d m p q save s Hd Hds Hp Hs Hq) as (t & save' & m' & E & Hc).
  cbn [strtok_all]. rewrite (bind_done _ _ _ _ _ E). cbn [fst snd]. revert Hdis Hn Hs.
  destruct Hc as [l Hl|l t Hl Ht Hne|l t x k Hl Ht Hne Hx]; intros Hdis Hn Hs.
  - exists [], m. split; [done|]. split; [|done]. pose proof (words_seps ds l [] Hl) as W. rewrite app_nil_r in W.
    rewrite W. constructor.
  - rewrite (proj2 (Z.eqb_neq _ _)) by (unfold NULL; lia).
    assert (str_at m (p + Z.of_nat (length (l ++ t))) []) as He
      by (apply (str_at_app m p (l ++ t) []); by rewrite app_nil_r).
    rewrite length_app in *. destruct t as [|y t]; [done|]. simpl in Hn.
    set (e := p + Z.of_nat (length l + length (y :: t))) in *.
    destruct (IH m e NULL e [] Hd Hds ltac:(lia) He eq_refl) as (ts & m' & E' & Hts & Hm);
      [simpl; lia..|].
    rewrite (bind_done _ _ _ _ _ E'). do 2 eexists. split; [reflexivity|]. simpl in Hts. inversion Hts; subst.
    assert (m' = m) as -> by (apply map_eq; intros b; apply Hm; simpl; lia).
    rewrite words_seps, words_plain by done. split; [|done].
    constructor; [|constructor]. by apply str_at_app in Hs.
  - rewrite (proj2 (Z.eqb_neq _ _)) by (unfold NULL; lia). pose proof (str_at_cut _ _ _ _ _ _ Hs) as [Htok Hk].
    set (m1 := <[_ := 0]> m) in *. rewrite !length_app in *. simpl in Hdis, Hn.
    assert (only_within p (length l + (length t + length (x :: k))) m m1) as Hm1
      by (apply only_within_insert; rewrite ?length_app; simpl; lia).
    assert (str_at m1 d ds) as Hds1 by (eapply str_at_frame; [done|exact Hm1|simpl; lia]).
    set (e := p + Z.of_nat (length l + length t) + 1) in *.
    destruct (IH m1 e NULL e k Hd Hds1 ltac:(lia) Hk eq_refl) as (ts & m' & E' & Hts & Hm);
      [lia..|].
    rewrite (bind_done _ _ _ _ _ E'). do 2 eexists. split; [reflexivity|].
    rewrite words_seps, words_plain_app by done. split.
    + constructor; [|done]. eapply str_at_frame; [done..|]. subst e. lia.
    + eapply only_within_trans; [exact Hm1|]. eapply only_within_mono; [done|subst e; simpl; lia..].
Qed.

(** ** Bounded copies *)

Lemma take_byte n s : Forall (fun x => 0 < x < 256) s -> Forall is_byte (take n s).
Proof. intros H. by apply str_at_byte, Forall_take. Qed.

(** Copying a prefix of [s] to [dst] and terminating it. *)
Lemma copy_prefix m dst src s n :
  str_at m src s -> (n <= length s)%nat -> mapped m dst (S n) -> 0 < dst -> 0 < src ->
  dst + Z.of_nat (S n) <= src \/ src + Z.of_nat (length s) < dst ->
  exists m', (memcpy dst src (Z.of_nat n) ;; store8 (dst + Z.of_nat n) 0) m = Done (tt, m') /\
    bytes_at m' dst (take n s ++ [0]) /\ only_within dst (S n) m m'.
Proof.
  intros [Hb Hs] Hn Hd Hd0 Hs0 Hdis. set (l := take n s).
  assert (length l = n) as Hl by (unfold l; rewrite length_take; lia).
  assert (bytes_at m src l) as Hbl.
  { rewrite <- (take_drop n s), <- app_assoc in Hb. by apply bytes_at_app in Hb as [Hb _]. }
  pose proof (memcpy_run m dst src l Hbl (take_byte n s Hs)) as E. rewrite Hl in E.
  rewrite (bind_done _ _ _ _ _ (E ltac:(eapply mapped_sub; [done|lia..]) ltac:(unfold NULL; lia) ltac:(unfold NULL; lia) ltac:(lia))).
  assert (is_Some (write dst l m !! (dst + Z.of_nat n))) as Hm.
  { apply (write_mapped dst l m dst (S n) Hd). lia. }
  eexists. split; [exact (store8_run _ _ 0 Hm ltac:(lia))|].
  replace (<[_ := 0]> _) with (write dst (l ++ [0]) m) by (rewrite write_app, Hl; done). split.
  - apply write_bytes.
  - pose proof (write_only dst (l ++ [0]) m) as H. rewrite length_app, Hl in H. simpl in H. by rewrite Nat.add_1_r in H.
Qed.

(** A buffer of [size] bytes at [dst] that a string [s] at [src] is copied to. *)
Definition buffers (m : mem) (dst size src : Z) (s : list Z) : Prop :=
  str_at m src s /\ mapped m dst (Z.to_nat size) /\ 0 <= size < 2 ^ 31 /\ 0 < dst /\ 0 < src /\
  Z.of_nat (length s) < 2 ^ 31 /\ (dst + size <= src \/ src + Z.of_nat (length s) < dst).

Lemma strlcpy_run m dst src size s :
  buffers m dst size src s ->
  exists m', strlcpy dst src size m = Done (Z.of_nat (length s), m') /\
    only_within dst (Z.to_nat size) m m' /\
    (0 < size -> str_at m' dst (take (Z.to_nat (size - 1)) s)).
Proof.
  intros (Hs & Hm & Hz & Hd & Hsrc & Hl & Hdis). unfold strlcpy.
  rewrite (bind_done _ _ _ _ _ (nonnull_ok dst m ltac:(unfold NULL; lia))).
  rewrite (bind_done _ _ _ _ _ (nonnull_ok src m ltac:(unfold NULL; lia))).
  rewrite (bind_done _ _ _ _ _ (strlen_run m src s Hs ltac:(unfold NULL; lia) ltac:(lia))).
  destruct (Z.ltb_spec 0 size) as [H0|H0].
  - set (n := if _ <? _ then _ else _).
    set (k := Nat.min (length s) (Z.to_nat (size - 1))).
    assert (n = Z.of_nat k) as -> by (unfold n, k; destruct (Z.ltb_spec (Z.of_nat (length s)) (size - 1)); lia).
    destruct (copy_prefix m dst src s k Hs) as (m' & E & Hb & Ho); [lia| |done|done|lia|].
    { eapply mapped_sub; [exact Hm|lia..]. }
    rewrite (bind_done _ _ _ _ _ E). exists m'. split; [done|]. split.
    + eapply only_within_mono; [exact Ho|lia..].
    + intros _. replace (take k s) with (take (Z.to_nat (size - 1)) s) in Hb.
      { split; [done|]. by apply Forall_take, (proj2 Hs). }
      unfold k. destruct (Nat.min_spec (length s) (Z.to_nat (size - 1))) as [[? ->]|[? ->]]; [|done].
      by rewrite !take_ge by lia.
  - exists m. split; [done|]. split; [done|lia].
Qed.

Lemma strlcat_run m dst src size s t :
  buffers m dst size src s -> str_at m dst t -> Z.of_nat (length t) < 2 ^ 31 ->
  dst + Z.of_nat (length t) < src \/ src + Z.of_nat (length s) < dst ->
  exists m', strlcat dst src size m = Done (Z.of_nat (length s + length t), m') /\
    only_within dst (Z.to_nat size) m m' /\
    (Z.of_nat (length t) < size -> str_at m' dst (take (Z.to_nat (size - 1)) (t ++ s))) /\
    (size <= Z.of_nat (length t) -> m' = m).
Proof.
  intros (Hs & Hm & Hz & Hd & Hsrc & Hl & Hdis) Ht Hlt Hdis'. unfold strlcat.
  rewrite (bind_done _ _ _ _ _ (nonnull_ok dst m ltac:(unfold NULL; lia))).
  rewrite (bind_done _ _ _ _ _ (nonnull_ok src m ltac:(unfold NULL; lia))).
  rewrite (bind_done _ _ _ _ _ (strlen_run m src s Hs ltac:(unfold NULL; lia) ltac:(lia))).
  rewrite (bind_done _ _ _ _ _ (strlen_run m dst t Ht ltac:(unfold NULL; lia) ltac:(lia))).
  rewrite (u32_small (_ + _)), <- Nat2Z.inj_add by lia.
  destruct (Z.ltb_spec (Z.of_nat (length t)) size) as [H0|H0].
  - replace (0 <? size) with true by (symmetry; apply Z.ltb_lt; lia). simpl andb.
    set (n := if _ <? _ then _ else _).
    set (k := Nat.min (length s) (Z.to_nat (size - Z.of_nat (length t) - 1))).
    assert (n = Z.of_nat k) as -> by (unfold n, k; destruct (Z.ltb_spec (Z.of_nat (length s)) (size - Z.of_nat (length t) - 1)); lia).
    destruct (copy_prefix m (dst + Z.of_nat (length t)) src s k Hs) as (m' & E & Hb & Ho); [lia| |lia|done|lia|].
    { eapply mapped_sub; [exact Hm|lia..]. }
    rewrite (bind_done _ _ _ _ _ E). exists m'. split; [done|]. split_and!.
    + eapply only_within_mono; [exact Ho|lia..].
    + intros _. replace (take (Z.to_nat (size - 1)) (t ++ s)) with (t ++ take k s).
      * split; [|apply Forall_app; split; [exact (proj2 Ht)|apply Forall_take, (proj2 Hs)]].
        rewrite <- app_assoc. apply bytes_at_app. split; [|done].
        destruct Ht as [Ht _]. apply bytes_at_app in Ht as [Ht _]. eapply bytes_at_frame; [exact Ht|exact Ho|lia].
      * rewrite take_app, (take_ge t) by lia. f_equal.
        destruct (Nat.min_spec (length s) (Z.to_nat (size - Z.of_nat (length t) - 1))) as [[? E']|[? E']]; unfold k; rewrite E'.
        -- by rewrite !take_ge by lia.
        -- f_equal. lia.
    + lia.
  - rewrite andb_false_r. exists m. split; [done|]. split; [done|]. split; [lia|done].
Qed.

Lemma strcmp_loop_run m a b s t fuel :
  str_at m a s -> str_at m b t -> (length s < fuel)%nat ->
  exists r, strcmp_loop fuel a b m = Done (r, m) /\ (r = 0 <-> s = t).
Proof.
  revert a b t fuel. induction s as [|x s IH]; intros a b t [|fuel] Hs Ht Hf; simpl in *; try lia.
  - rewrite (bind_done _ _ _ _ _ (load8_run _ _ _ (str_at_nil _ _ Hs))). destruct t as [|y t].
    + rewrite (bind_done _ _ _ _ _ (load8_run _ _ _ (str_at_nil _ _ Ht))). simpl. eexists. by split.
    + apply str_at_cons in Ht as (H0 & Hy & _). rewrite (bind_done _ _ _ _ _ (load8_run _ _ _ H0)). simpl.
      rewrite (proj2 (Z.ltb_lt 0 y)) by lia. eexists. split; [reflexivity|]. split; done.
  - apply str_at_cons in Hs as (H0 & Hx & Hs). rewrite (bind_done _ _ _ _ _ (load8_run _ _ _ H0)).
    replace (x =? 0) with false by (symmetry; apply Z.eqb_neq; lia). destruct t as [|y t]; simpl.
    + rewrite (bind_done _ _ _ _ _ (load8_run _ _ _ (str_at_nil _ _ Ht))).
      rewrite (proj2 (Z.eqb_neq x 0)), (proj2 (Z.ltb_ge x 0)), (proj2 (Z.ltb_lt 0 x)) by lia.
      eexists. split; [reflexivity|]. split; done.
    + apply str_at_cons in Ht as (H1 & Hy & Ht). rewrite (bind_done _ _ _ _ _ (load8_run _ _ _ H1)).
      destruct (Z.eqb_spec x y) as [->|Hne].
      * destruct (IH (a + 1) (b + 1) t fuel Hs Ht ltac:(lia)) as (r & E & Hr). exists r. split; [done|].
        rewrite Hr. split; [by intros ->|by intros [= ->]].
      * eexists. split; [reflexivity|]. split; [|by intros [= ? ?]].
        destruct (Z.ltb_spec x y); [done|]. by rewrite (proj2 (Z.ltb_lt y x)) by lia.
Qed.

Lemma strcmp_run m a b s t :
  str_at m a s -> str_at m b t -> a <> NULL -> b <> NULL ->
  exists r, strcmp a b m = Done (r, m) /\ (r = 0 <-> s = t).
Proof.
  intros Hs Ht Ha Hb. unfold strcmp. rewrite (bind_done _ _ _ _ _ (nonnull_ok _ _ Ha)).
  rewrite (bind_done _ _ _ _ _ (nonnull_ok _ _ Hb)). unfold mem_fuel, gets, bind.
  apply strcmp_loop_run; [done..|]. pose proof (str_at_size _ _ _ Hs). lia.
Qed.

(** ** Properties *)

(** C29: [memmove] copies a block even onto itself.  For every pair of mapped
    blocks, overlapping or not, the destination afterwards holds what the source
    held before and no byte outside the destination changes.  The pointer it
    returns is [dst] only when the copy ran downwards: a copy to a lower address
    returns the end of the destination. *)
Theorem memmove_correct (m : mem) (dst src : Z) (l : list Z)
  (Hs : bytes_at m src l) (Hb : Forall is_byte l) (Hd : mapped m dst (length l))
  (Hdn : dst <> NULL) (Hsn : src <> NULL) :
  exists m', memmove dst src (Z.of_nat (length l)) m =
      Done (if dst <? src then dst + Z.of_nat (length l) else dst, m') /\
    bytes_at m' dst l /\ only_within dst (length l) m m'.
Proof.
  exists (write dst l m). split; [|split; [apply write_bytes|apply write_only]]. unfold memmove.
  rewrite (bind_done _ _ _ _ _ (block_assert_ok _ _ _ (or_introl Hdn))).
  rewrite (bind_done _ _ _ _ _ (block_assert_ok _ _ _ (or_introl Hsn))). rewrite Nat2Z.id.
  destruct (Z.ltb_spec dst src); [apply copy_up_run|apply copy_down_run]; (done || lia).
Qed.

(** [strtok_r] yields the words of a string.  Calling it until it returns
    null on a terminated string, with a delimiter string stored elsewhere,
    terminates; the tokens are, in order, strings equal to the maximal runs of
    non-delimiters, and only bytes of the string are overwritten. *)
Lemma strtok_r_words (m : mem) (a d save : Z) (s ds : list Z)
  (Hs : str_at m a s) (Hds : str_at m d ds) (Ha : 0 < a) (Hd : 0 < d)
  (Hdis : d + Z.of_nat (length ds) < a \/ a + Z.of_nat (length s) <= d) :
  exists ts m', strtok_all (S (length s)) a d save m = Done (ts, m') /\
    Forall2 (str_at m') ts (words (in_str ds) s) /\ only_within a (length s) m m'.
Proof.
  apply strtok_all_run; [done..| |done|lia]. rewrite (proj2 (Z.eqb_neq _ _)); [done|unfold NULL; lia].
Qed.

(** [strlcpy] and [strlcat] never leave their buffer.  Both write only within
    the [size] bytes at [dst]; [strlcpy] leaves there the longest prefix of the
    source that fits with its terminator, [strlcat] the longest prefix of the
    concatenation, or nothing changed if the old string already fills the
    buffer.  They return the length they tried to create. *)
Lemma strl_bounded (m : mem) (dst src size : Z) (s t : list Z)
  (H : buffers m dst size src s) (Ht : str_at m dst t) (Hlt : Z.of_nat (length t) < 2 ^ 31)
  (Hdis : dst + Z.of_nat (length t) < src \/ src + Z.of_nat (length s) < dst) :
  (exists m1, strlcpy dst src size m = Done (Z.of_nat (length s), m1) /\
     only_within dst (Z.to_nat size) m m1 /\
     (0 < size -> str_at m1 dst (take (Z.to_nat (size - 1)) s))) /\
  (exists m2, strlcat dst src size m = Done (Z.of_nat (length s + length t), m2) /\
     only_within dst (Z.to_nat size) m m2 /\
     (Z.of_nat (length t) < size -> str_at m2 dst (take (Z.to_nat (size - 1)) (t ++ s))) /\
     (size <= Z.of_nat (length t) -> m2 = m)).
Proof. split; [by apply strlcpy_run|by apply strlcat_run]. Qed.

(** A memory with the string at 100 and the delimiters at 200. *)
Definition demo_mem : mem :=
  write 200 [32; 47; 0] (write 100 [32; 97; 98; 47; 47; 99; 0] (write 300 [0; 0; 0; 0; 0; 0] ∅)).

Lemma demo_str : str_at demo_mem 100 [32; 97; 98; 47; 47; 99] /\ str_at demo_mem 200 [32; 47].
Proof.
  split; (split; [|repeat constructor; lia]).
  - eapply bytes_at_frame; [apply write_bytes|apply write_only|simpl; lia].
  - apply write_bytes.
Qed.

Lemma demo_mapped : mapped demo_mem 300 6 /\ mapped demo_mem 98 0.
Proof.
  split; [|intros i Hi; lia]. apply write_mapped, write_mapped, (bytes_at_mapped _ _ [0; 0; 0; 0; 0; 0]), write_bytes.
Qed.

Lemma memmove_correct_witness :
  exists m', memmove 101 100 5 demo_mem = Done (101, m') /\ bytes_at m' 101 [32; 97; 98; 47; 47] /\
    only_within 101 5 demo_mem m'.
Proof.
  apply (memmove_correct demo_mem 101 100 [32; 97; 98; 47; 47]).
  - destruct (proj1 demo_str) as [H _]. apply (bytes_at_app _ _ [32; 97; 98; 47; 47] [99; 0]) in H. exact (proj1 H).
  - repeat constructor; lia.
  - destruct (proj1 demo_str) as [H _]. apply bytes_at_mapped in H. eapply mapped_sub; [exact H|simpl; lia..].
  - done.
  - done.
Defined.

