(* ===== verification/Directory.v ===== *)
(** * filesys/directory.c: directories

    A directory is a file of 20-byte entries.  A name is the list of its characters, without the terminating zero; arrays
    that the source leaves uninitialised are arguments. *)

From stdpp Require Import options.
From S2P Require Import Prelude Bytes Bitmap Block Store Inode File FreeMap.
Local Open Scope Z_scope.
Local Open Scope kernel_scope.

Definition NAME_MAX : Z := 14.
Definition PARENT_NAME : list Z := [46; 46].
Definition SELF_NAME : list Z := [46].

(** ** [struct dir_entry]

    [inode_sector] at byte 0, [name] at 4, [in_use] at 19. *)

Definition sizeof_entry : Z := 20.
Definition e_inode_sector (e : list Z) : Z := le_decode (slice 0 4 e).
Definition e_name (e : list Z) : list Z := slice 4 15 e.
Definition e_in_use (e : list Z) : bool := negb (nth 19 e 0 =? 0).

Definition set_e_sector (s : Z) (e : list Z) : list Z := patch 0 (le_encode 4 s) e.
Definition set_e_in_use (b : bool) (e : list Z) : list Z := patch 19 [if b then 1 else 0] e.

(** [strlcpy (e.name, name, sizeof e.name)]: what follows the zero stays. *)
Definition set_e_name (name : list Z) (e : list Z) : list Z := patch 4 (take 14 name ++ [0]) e.

(** [!strcmp (name, buf)] for a name and an array. *)
Fixpoint same_name (name buf : list Z) : bool :=
  match name, buf with
  | [], c :: _ => c =? 0
  | x :: name, c :: buf => (x =? c) && same_name name buf
  | _, [] => false
  end.

(** The string in an array, which has to be terminated. *)
Fixpoint c_string (buf : list Z) : outcome (list Z) :=
  match buf with
  | [] => Fault BadPointer
  | c :: buf => if c =? 0 then Done [] else let? s := c_string buf in Done (c :: s)
  end.

Section code.
Context {St : Type} `{!SectorStore St} (al : allocator St).
Abbreviation MF := (M (fs St)).

(** ** Directories in memory *)

Definition set_dirs (m : gmap Z dir) : MF unit :=
  modify (fun f => mk_fs (store f) (free_map f) (free_map_file f) (free_map_lock f) (open_inodes f)
                     (open_inodes_lock f) (inodes f) (files f) m (cwd f) (next_ptr f) (oom f)).

Definition set_cwd (d : Z) : MF unit :=
  modify (fun f => mk_fs (store f) (free_map f) (free_map_file f) (free_map_lock f) (open_inodes f)
                     (open_inodes_lock f) (inodes f) (files f) (dirs f) d (next_ptr f) (oom f)).

Definition load_dir (d : Z) : MF dir :=
  let! f := get in
  match dirs f !! d with
  | Some x => ret x
  | None => fail BadPointer
  end.

Definition store_dir (d : Z) (x : dir) : MF unit :=
  let! f := get in set_dirs (<[d := x]> (dirs f)).

Definition dir_open (inode : Z) : MF Z :=
  let! d := malloc_ptr in
  if negb (inode =? 0) && negb (d =? 0) then
    store_dir d (mk_dir inode 0) ;;
    ret d
  else
    inode_close al inode ;;
    ret 0.

Definition dir_open_root : MF Z :=
  let! p := inode_open ROOT_DIR_SECTOR in dir_open p.

Definition dir_reopen (d : Z) : MF Z :=
  let! x := load_dir d in
  let! p := inode_reopen (dir_inode x) in
  dir_open p.

Definition dir_close (d : Z) : MF unit :=
  if negb (d =? 0) then
    let! x := load_dir d in
    inode_close al (dir_inode x) ;;
    let! f := get in
    set_dirs (delete d (dirs f))
  else ret tt.

Definition dir_get_inode (d : Z) : MF Z :=
  let! x := load_dir d in ret (dir_inode x).

Definition dir_inumber (d : Z) : MF Z :=
  let! x := load_dir d in
  let! s := inode_sector (dir_inode x) in
  ret (i32 s).

(** ** Entries *)

(** Reads up to 20 bytes over the entry [e]; true if all came. *)
Definition read_entry (p ofs : Z) (e : list Z) : MF (bool * list Z) :=
  let! bytes := inode_read_at p sizeof_entry ofs in
  ret (Z.of_nat (length bytes) =? sizeof_entry, patch 0 bytes e).

(** More iterations than a directory has entries. *)
Definition entry_fuel (p : Z) : MF nat :=
  let! i := load_inode p in
  gets (fun f => S (Z.to_nat (d_length (contents (store f) (i_sector i)) / sizeof_entry))).

(** [for (ofs = 0; inode_read_at (...) == sizeof e; ofs += sizeof e) if (stop)
    break;]  True if it stopped, with the entry and its offset. *)
Fixpoint entry_loop (fuel : nat) (p : Z) (stop : list Z -> bool) (ofs : Z) (e : list Z) : MF (bool * list Z * Z) :=
  match fuel with
  | O => fail OutOfFuel
  | S fuel =>
      let! (full, e) := read_entry p ofs e in
      if full : bool then
        if stop e then ret (true, e, ofs) else entry_loop fuel p stop (u32 (ofs + sizeof_entry)) e
      else ret (false, e, ofs)
  end.

(** The entry for [name] and its offset; [e] is the uninitialised entry. *)
Definition lookup_entry (d : Z) (name e : list Z) : MF (option (list Z * Z)) :=
  assert (negb (d =? 0)) ;;
  let! x := load_dir d in
  let! n := entry_fuel (dir_inode x) in
  let! (found, e, ofs) := entry_loop n (dir_inode x) (fun e => e_in_use e && same_name name (e_name e)) 0 e in
  ret (if found : bool then Some (e, ofs) else None).

(** An uninitialised entry; lookups and counts never use it before a read. *)
Definition no_entry : list Z := replicate 20 0.

(** The inode [*inode], 0 if there is none; the source returns whether it is
    not null. *)
Definition dir_lookup (d : Z) (name : list Z) : MF Z :=
  assert (negb (d =? 0)) ;;
  let! r := lookup_entry d name no_entry in
  match r with
  | Some (e, _) => inode_open (e_inode_sector e)
  | None => ret 0
  end.

(** [e] is the uninitialised entry. *)
Definition dir_add (e : list Z) (d : Z) (name : list Z) (sector : Z) : MF bool :=
  assert (negb (d =? 0)) ;;
  let! r := lookup_entry d name no_entry in
  match r with
  | Some _ => ret false
  | None =>
      let! x := load_dir d in
      let! n := entry_fuel (dir_inode x) in
      let! (_, e, ofs) := entry_loop n (dir_inode x) (fun e => negb (e_in_use e)) 0 e in
      let e := set_e_sector sector (set_e_name name (set_e_in_use true e)) in
      let! w := inode_write_at al (dir_inode x) e sizeof_entry (u32 ofs) in
      ret (w =? sizeof_entry)
  end.

Definition dir_create (e : list Z) (sector entry_cnt parent_sector : Z) : MF bool :=
  let! c := inode_create_dir al sector (i32 ((entry_cnt + 2) * sizeof_entry)) in
  if c : bool then
    let! p := inode_open sector in
    let! d := dir_open p in
    let! b := dir_add e d PARENT_NAME parent_sector in
    let! success := (if b : bool then dir_add e d SELF_NAME sector else ret false) in
    dir_close d ;;
    ret success
  else ret false.

Fixpoint count_loop (fuel : nat) (p ofs count : Z) : MF Z :=
  match fuel with
  | O => fail OutOfFuel
  | S fuel =>
      let! (full, e) := read_entry p ofs no_entry in
      if full : bool then
        count_loop fuel p (u32 (ofs + sizeof_entry)) (if e_in_use e then count + 1 else count)
      else ret count
  end.

Definition number_entries (d : Z) : MF Z :=
  let! x := load_dir d in
  let! n := entry_fuel (dir_inode x) in
  count_loop n (dir_inode x) 0 0.

(** The part of [dir_remove] from the opened inode [p] on, up to [done]. *)
Definition remove_entry (d : Z) (e : list Z) (ofs p : Z) : MF bool :=
  if p =? 0 then ret false
  else
    let! i := load_inode p in
    let! f := get in
    let! c := load_dir (cwd f) in
    let! ci := load_inode (dir_inode c) in
    if i_sector i =? i_sector ci then ret false
    else
      let! isdir := is_dir p in
      let! keep :=
        (if isdir : bool then
           let! dd := dir_open p in
           let! n := number_entries dd in
           if 2 <? n then ret true
           else let! i := load_inode p in ret (2 <? open_cnt i)
         else ret false) in
      if keep : bool then ret false
      else
        let! x := load_dir d in
        let! w := inode_write_at al (dir_inode x) (set_e_in_use false e) sizeof_entry (u32 ofs) in
        if negb (w =? sizeof_entry) then ret false
        else inode_remove p ;; ret true.

Definition dir_remove (d : Z) (name : list Z) : MF bool :=
  assert (negb (d =? 0)) ;;
  let! r := lookup_entry d name no_entry in
  match r with
  | None => inode_close al 0 ;; ret false
  | Some (e, ofs) =>
      let! p := inode_open (e_inode_sector e) in
      let! success := remove_entry d e ofs p in
      inode_close al p ;;
      ret success
  end.

(** [Some name]: the next entry's name, which goes to the caller's array. *)
Fixpoint readdir_loop (fuel : nat) (d : Z) : MF (option (list Z)) :=
  match fuel with
  | O => fail OutOfFuel
  | S fuel =>
      let! x := load_dir d in
      let! (full, e) := read_entry (dir_inode x) (u32 (dir_pos x)) no_entry in
      if full : bool then
        let! x := load_dir d in
        store_dir d (mk_dir (dir_inode x) (i32 (dir_pos x + sizeof_entry))) ;;
        if e_in_use e && negb (same_name SELF_NAME (e_name e)) && negb (same_name PARENT_NAME (e_name e))
        then let! s := lift (c_string (e_name e)) in ret (Some s)
        else readdir_loop fuel d
      else ret None
  end.

Definition dir_readdir (d : Z) : MF (option (list Z)) :=
  let! x := load_dir d in
  let! n := entry_fuel (dir_inode x) in
  readdir_loop n d.

Definition change_parent_dir (e : list Z) (d parent_sector : Z) : MF bool :=
  let! x := load_dir d in
  let! n := entry_fuel (dir_inode x) in
  let! (_, e, ofs) := entry_loop n (dir_inode x) (fun e => negb (same_name PARENT_NAME (e_name e))) 0 e in
  let! w := inode_write_at al (dir_inode x) (set_e_sector parent_sector e) sizeof_entry (u32 ofs) in
  ret (w =? sizeof_entry).
End code.
