(* ===== verification/DirSpec.v ===== *)
(** * What a directory holds

    The entries of a directory file, the search for a name, and the functions of
    directory.c that read: they find exactly the entries that the bytes of the
    file describe and change nothing. *)

From stdpp Require Import options.
From S2P Require Import Prelude Bytes Bitmap Block Store Inode InodeTree InodeGrow InodeResize InodeIO File FreeMap Directory.
Local Open Scope Z_scope.
Local Open Scope kernel_scope.

(** ** Entries *)

Section entries.
Context {St : Type} `{!SectorStore St}.
Implicit Types (f g : fs St) (s k : Z) (stop : list Z -> bool).

Definition entry_at (f : fs St) (s k : Z) : list Z := map (file_byte f s) (seqZ (20 * k) 20).
Definition entry_cnt (f : fs St) (s : Z) : Z := file_len f s / 20.

(** The first entry from [k] on, among [m], that [stop] accepts. *)
Fixpoint find_from (f : fs St) (s : Z) (stop : list Z -> bool) (k : Z) (m : nat) : option Z :=
  match m with
  | O => None
  | S m => if stop (entry_at f s k) then Some k else find_from f s stop (k + 1) m
  end.

Definition find_slot (f : fs St) (s : Z) (stop : list Z -> bool) : option Z :=
  find_from f s stop 0 (Z.to_nat (entry_cnt f s)).

(** The entry for a name. *)
Definition named (name e : list Z) : bool := e_in_use e && same_name name (e_name e).

(** The sector of the inode that [name] stands for in the directory at [s]. *)
Definition dir_find (f : fs St) (s : Z) (name : list Z) : option Z :=
  (fun k => e_inode_sector (entry_at f s k)) <$> find_slot f s (named name).

Lemma find_from_spec f s stop k m :
  match find_from f s stop k m with
  | Some j => k <= j < k + Z.of_nat m /\ stop (entry_at f s j) = true /\ forall i, k <= i < j -> stop (entry_at f s i) = false
  | None => forall i, k <= i < k + Z.of_nat m -> stop (entry_at f s i) = false
  end.
Proof.
  revert k. induction m as [|m IH]; intros k; cbn [find_from]; [lia|].
  destruct (stop (entry_at f s k)) eqn:E; [split_and!; [lia|lia|exact E|lia]|].
  specialize (IH (k + 1)). destruct (find_from f s stop (k + 1) m) as [j|].
  - destruct IH as (H1 & H2 & H3). split_and!; [lia|lia|exact H2|]. intros i Hi. destruct (decide (i = k)) as [->|]; [exact E|apply H3; lia].
  - intros i Hi. destruct (decide (i = k)) as [->|]; [exact E|apply IH; lia].
Qed.

Lemma find_from_ext f g s stop k m : (forall i, k <= i < k + Z.of_nat m -> stop (entry_at g s i) = stop (entry_at f s i)) ->
  find_from g s stop k m = find_from f s stop k m.
Proof.
  revert k. induction m as [|m IH]; intros k H; cbn [find_from]; [done|]. rewrite H by lia. rewrite IH by (intros i Hi; apply H; lia). done.
Qed.

(** The first of all entries, characterised. *)
Lemma find_slot_unique f s stop j : 0 <= j < entry_cnt f s -> stop (entry_at f s j) = true ->
  (forall i, 0 <= i < entry_cnt f s -> i <> j -> stop (entry_at f s i) = false) -> find_slot f s stop = Some j.
Proof.
  intros Hj Hs Hno. pose proof (find_from_spec f s stop 0 (Z.to_nat (entry_cnt f s))) as H. unfold find_slot.
  destruct (find_from f s stop 0 _) as [i|].
  - destruct H as (H1 & H2 & _). destruct (decide (i = j)) as [->|Hne]; [done|]. rewrite Hno in H2 by lia. done.
  - rewrite H in Hs by lia. done.
Qed.

Lemma length_entry f s k : length (entry_at f s k) = 20%nat.
Proof. unfold entry_at. by rewrite length_map, length_seqZ. Qed.

Lemma entry_lookup f s k (j : nat) : (j < 20)%nat -> entry_at f s k !! j = Some (file_byte f s (20 * k + Z.of_nat j)).
Proof. intros Hj. unfold entry_at. rewrite list_lookup_fmap, lookup_seqZ_lt by lia. done. Qed.

Lemma entry_at_ext f g s k : (forall b, 20 * k <= b < 20 * k + 20 -> file_byte g s b = file_byte f s b) -> entry_at g s k = entry_at f s k.
Proof.
  intros H. unfold entry_at. apply map_ext_in. intros b Hb. apply H. apply list_elem_of_In, elem_of_seqZ in Hb. lia.
Qed.

Lemma file_byte_byte f s k : store_ok (store f) -> is_byte (file_byte f s k).
Proof.
  intros Hs. rewrite file_byte_sector. destruct (contents_ok (store f) (data_sector f s k) Hs) as [_ Hb].
  rewrite nth_lookup. destruct (_ !! _) as [b|] eqn:E; [|unfold is_byte; simpl; lia]. exact (Forall_lookup_1 _ _ _ _ Hb E).
Qed.

Lemma entry_at_bytes f s k : store_ok (store f) -> Forall is_byte (entry_at f s k).
Proof. intros Hs. unfold entry_at. apply Forall_map, Forall_forall. intros b _. by apply file_byte_byte. Qed.

(** A name without zeros is the string of the array it matches. *)
Lemma same_name_string name buf : Forall (fun c => c <> 0) name -> same_name name buf = true -> c_string buf = Done name.
Proof.
  revert buf. induction name as [|x name IH]; intros [|c buf] Hn E; try done; cbn in *.
  - apply Z.eqb_eq in E. subst c. done.
  - apply andb_true_iff in E as [->%Z.eqb_eq E]. apply Forall_cons in Hn as [Hx Hn].
    rewrite (proj2 (Z.eqb_neq _ _)) by done. by rewrite (IH buf Hn E).
Qed.
End entries.

(** ** Reading *)

Section reading.
Context {St : Type} `{!SectorStore St} {priv : Z -> Prop} (p : Z) (i : inode).
Implicit Types (f g : fs St) (k ofs : Z) (e : list Z).
Abbreviation s := (i_sector i).
Abbreviation opened := (opened (priv := priv) p i).
Hypothesis Hr : readable i.

Lemma quiet_entry f g k : opened f -> quiet f g -> entry_at g s k = entry_at f s k.
Proof. intros Ho Hq. apply entry_at_ext. intros b _. apply (quiet_opened p i f g Ho Hq). Qed.

Lemma quiet_cnt f g : opened f -> quiet f g -> entry_cnt g s = entry_cnt f s.
Proof. intros Ho Hq. unfold entry_cnt. by destruct (quiet_opened p i f g Ho Hq) as (_ & -> & _). Qed.

Lemma entry_bound f : opened f -> 0 <= 20 * entry_cnt f s <= file_len f s /\ file_len f s < 20 * entry_cnt f s + 20 /\ file_len f s < 2 ^ 30.
Proof.
  intros Ho. pose proof (file_length_bound p i f Ho) as Hb. unfold MAX_FILE_BYTES in Hb. unfold entry_cnt.
  pose proof (Z.div_mod (file_len f s) 20 ltac:(lia)). pose proof (Z.mod_pos_bound (file_len f s) 20 ltac:(lia)). lia.
Qed.

Lemma read_entry_run f k e : opened f -> 0 <= k <= entry_cnt f s -> length e = 20%nat ->
  exists g e', read_entry p (20 * k) e f = Done ((k <? entry_cnt f s, e'), g) /\ quiet f g /\ length e' = 20%nat /\
    (k < entry_cnt f s -> e' = entry_at f s k) /\ (Forall is_byte e -> Forall is_byte e').
Proof using Hr.
  intros Ho Hk He. pose proof (entry_bound f Ho) as (B1 & B2 & B3). unfold read_entry, sizeof_entry.
  destruct (inode_read_at_run p i f 20 (20 * k) Ho Hr) as (g & E & Hq); [lia|lia|].
  rewrite (bind_done _ _ _ _ _ E). set (l := file_slice f s 20 (20 * k)).
  assert (Hl : Z.of_nat (length l) = Z.max 0 (Z.min 20 (file_len f s - 20 * k))) by (unfold l, file_slice; rewrite length_map, length_seqZ; lia).
  exists g, (patch 0 l e). split_and!.
  - unfold ret. repeat f_equal. rewrite Hl. destruct (Z.ltb_spec k (entry_cnt f s)), (Z.eqb_spec (Z.max 0 (Z.min 20 (file_len f s - 20 * k))) 20); lia || done.
  - exact Hq.
  - rewrite length_patch by lia. exact He.
  - intros Hlt. rewrite patch_all by lia. unfold l, file_slice, entry_at. do 2 f_equal. lia.
  - intros Hb. apply Forall_patch; [|exact Hb]. unfold l, file_slice. apply Forall_map, Forall_forall. intros b _.
    by apply file_byte_byte, Ho.
Qed.

Lemma entry_loop_run fuel : forall f stop k e, opened f -> 0 <= k <= entry_cnt f s -> length e = 20%nat ->
  (Z.to_nat (entry_cnt f s - k) < fuel)%nat ->
  exists g e', quiet f g /\ length e' = 20%nat /\ (Forall is_byte e -> Forall is_byte e') /\
    entry_loop fuel p stop (20 * k) e f =
      Done (match find_from f s stop k (Z.to_nat (entry_cnt f s - k)) with
            | Some j => (true, entry_at f s j, 20 * j)
            | None => (false, e', 20 * entry_cnt f s)
            end, g).
Proof using Hr.
  induction fuel as [|fuel IH]; intros f stop k e Ho Hk He Hfuel; [lia|]. cbn [entry_loop].
  destruct (read_entry_run f k e Ho Hk He) as (g & e1 & E & Hq & He1 & Hent & Hb1). rewrite (bind_done _ _ _ _ _ E).
  pose proof (entry_bound f Ho) as (B1 & B2 & B3). destruct (Z.ltb_spec k (entry_cnt f s)) as [Hlt|Hge].
  - rewrite (Hent Hlt) in *. replace (Z.to_nat (entry_cnt f s - k)) with (S (Z.to_nat (entry_cnt f s - (k + 1)))) by lia. cbn [find_from].
    destruct (stop (entry_at f s k)) eqn:Es; [exists g, (entry_at f s k); split_and!; [exact Hq|exact He1|exact Hb1|reflexivity]|].
    pose proof (proj1 (quiet_opened p i f g Ho Hq)) as Hog. pose proof (quiet_cnt f g Ho Hq) as Ec.
    replace (u32 (20 * k + sizeof_entry)) with (20 * (k + 1)) by (unfold sizeof_entry; rewrite u32_small; lia).
    destruct (IH g stop (k + 1) (entry_at f s k) Hog) as (h & e2 & Hq2 & He2 & Hb2 & E2); [lia|exact He1|lia|].
    exists h, e2. split_and!; [exact (quiet_trans _ _ _ Hq Hq2)|exact He2|auto|]. rewrite E2, Ec.
    rewrite (find_from_ext f g) by (intros j _; rewrite (quiet_entry f g j Ho Hq); reflexivity).
    destruct (find_from f s stop (k + 1) _) as [j|]; [|reflexivity]. rewrite (quiet_entry f g j Ho Hq). reflexivity.
  - replace (entry_cnt f s - k) with 0 by lia. exists g, e1. split_and!; [exact Hq|exact He1|exact Hb1|]. cbn [find_from].
    replace k with (entry_cnt f s) by lia. reflexivity.
Qed.

(** The loop from the start. *)
Lemma entry_scan_run f stop e : opened f -> length e = 20%nat ->
  exists g e', quiet f g /\ length e' = 20%nat /\ (Forall is_byte e -> Forall is_byte e') /\
    bind (entry_fuel p) (fun n => entry_loop n p stop 0 e) f =
      Done (match find_slot f s stop with
            | Some j => (true, entry_at f s j, 20 * j)
            | None => (false, e', 20 * entry_cnt f s)
            end, g).
Proof using Hr.
  intros Ho He. pose proof (entry_bound f Ho) as (B1 & B2 & B3).
  unfold entry_fuel. rewrite (bind_done _ _ f (S (Z.to_nat (entry_cnt f s))) f).
  - destruct (entry_loop_run (S (Z.to_nat (entry_cnt f s))) f stop 0 e Ho) as (g & e' & H); [lia|exact He|lia|].
    exists g, e'. rewrite Z.sub_0_r in H. exact H.
  - rewrite (bind_done _ _ _ _ _ (load_inode_run p i f Ho)). reflexivity.
Qed.

Lemma lookup_entry_run f d x name e : d <> 0 -> dirs f !! d = Some x -> dir_inode x = p -> opened f -> length e = 20%nat ->
  exists g, lookup_entry d name e f = Done ((fun k => (entry_at f s k, 20 * k)) <$> find_slot f s (named name), g) /\ quiet f g.
Proof using Hr.
  intros Hd Hx Hp Ho He. unfold lookup_entry. rewrite assert_true by by rewrite (proj2 (Z.eqb_neq _ _)).
  rewrite (bind_done _ _ f x f) by (unfold load_dir, bind, get; by rewrite Hx). rewrite Hp.
  destruct (entry_scan_run f (named name) e Ho He) as (g & e' & Hq & _ & _ & E). exists g. split; [|exact Hq].
  unfold bind at 1 in E. unfold bind at 1. destruct (entry_fuel p f) as [[n f1]|] eqn:En; [|discriminate].
  rewrite (bind_done _ _ _ _ _ E). destruct (find_slot f s (named name)); reflexivity.
Qed.

(** ** Counting *)

Definition used_entries (f : fs St) (s : Z) (k m : Z) : list Z := filter (fun j => e_in_use (entry_at f s j) = true) (seqZ k m).

Lemma count_loop_run fuel : forall f k c, opened f -> 0 <= k <= entry_cnt f s -> (Z.to_nat (entry_cnt f s - k) < fuel)%nat ->
  exists g, quiet f g /\ count_loop fuel p (20 * k) c f = Done (c + Z.of_nat (length (used_entries f s k (entry_cnt f s - k))), g).
Proof using Hr.
  induction fuel as [|fuel IH]; intros f k c Ho Hk Hfuel; [lia|]. cbn [count_loop].
  destruct (read_entry_run f k no_entry Ho Hk eq_refl) as (g & e1 & E & Hq & _ & Hent & _). rewrite (bind_done _ _ _ _ _ E).
  pose proof (entry_bound f Ho) as (B1 & B2 & B3). destruct (Z.ltb_spec k (entry_cnt f s)) as [Hlt|Hge].
  - rewrite (Hent Hlt). pose proof (proj1 (quiet_opened p i f g Ho Hq)) as Hog. pose proof (quiet_cnt f g Ho Hq) as Ec.
    replace (u32 (20 * k + sizeof_entry)) with (20 * (k + 1)) by (unfold sizeof_entry; rewrite u32_small; lia).
    destruct (IH g (k + 1) (if e_in_use (entry_at f s k) then c + 1 else c) Hog) as (h & Hq2 & E2); [lia|lia|].
    exists h. split; [exact (quiet_trans _ _ _ Hq Hq2)|]. rewrite E2, Ec. unfold used_entries at 2. rewrite (seqZ_cons k) by lia.
    replace (Z.pred (entry_cnt f s - k)) with (entry_cnt f s - (k + 1)) by lia. replace (Z.succ k) with (k + 1) by lia. rewrite filter_cons.
    assert (Eu : used_entries g s (k + 1) (entry_cnt f s - (k + 1)) = used_entries f s (k + 1) (entry_cnt f s - (k + 1))).
    { apply filter_ext_elem. intros j _. rewrite (quiet_entry f g j Ho Hq). reflexivity. }
    rewrite Eu. unfold used_entries. destruct (e_in_use (entry_at f s k)) eqn:Eb.
    + rewrite decide_True by reflexivity. do 2 f_equal. cbn [length]. lia.
    + rewrite decide_False by discriminate. reflexivity.
  - exists g. split; [exact Hq|]. unfold used_entries. rewrite seqZ_nil by lia. unfold ret. do 2 f_equal. cbn. lia.
Qed.

Lemma number_entries_run f d x : dirs f !! d = Some x -> dir_inode x = p -> opened f ->
  exists g, quiet f g /\ number_entries d f = Done (Z.of_nat (length (used_entries f s 0 (entry_cnt f s))), g).
Proof using Hr.
  intros Hx Hp Ho. unfold number_entries. rewrite (bind_done _ _ f x f) by (unfold load_dir, bind, get; by rewrite Hx). rewrite Hp.
  unfold entry_fuel. rewrite (bind_done _ _ f (S (Z.to_nat (entry_cnt f s))) f) by (rewrite (bind_done _ _ _ _ _ (load_inode_run p i f Ho)); reflexivity).
  pose proof (entry_bound f Ho). destruct (count_loop_run (S (Z.to_nat (entry_cnt f s))) f 0 0 Ho) as (g & Hq & E); [lia|lia|].
  exists g. split; [exact Hq|]. rewrite Z.mul_0_r, Z.sub_0_r, Z.add_0_l in E. exact E.
Qed.
End reading.

(** ** Listing *)

(** The entries that [dir_readdir] returns. *)
Definition listed (e : list Z) : bool :=
  e_in_use e && negb (same_name SELF_NAME (e_name e)) && negb (same_name PARENT_NAME (e_name e)).

Definition with_dirs {St} (f : fs St) (m : gmap Z dir) : fs St :=
  mk_fs (store f) (free_map f) (free_map_file f) (free_map_lock f) (open_inodes f)
    (open_inodes_lock f) (inodes f) (files f) m (cwd f) (next_ptr f) (oom f).

Section listing.
Context {St : Type} `{!SectorStore St} {priv : Z -> Prop} (p : Z) (i : inode) (d : Z).
Implicit Types (f g h : fs St) (k : Z).
Abbreviation s := (i_sector i).
Abbreviation opened := (opened (priv := priv) p i).
Hypothesis Hr : readable i.

(** The directory [d] stands at entry [k]; the file system is that of [f]. *)
Definition listing (f g : fs St) (k : Z) : Prop :=
  opened g /\ dirs g !! d = Some (mk_dir p (20 * k)) /\ quiet f (with_dirs g (dirs f)).

Lemma listing_same f g k : opened f -> listing f g k -> entry_cnt g s = entry_cnt f s /\ forall j, entry_at g s j = entry_at f s j.
Proof.
  intros Ho (_ & _ & Hq). destruct (quiet_opened p i f _ Ho Hq) as (_ & El & _ & Hb). split.
  - unfold entry_cnt. by rewrite <- El.
  - intros j. apply entry_at_ext. intros b _. apply Hb.
Qed.

Lemma listing_quiet f g h k : listing f g k -> quiet g h -> listing f h k.
Proof.
  intros (Ho & Hd & Hq) Hgh. destruct (quiet_opened p i g h Ho Hgh) as (Hoh & _). destruct Hgh as (Q1 & Q2 & Q3 & Q4 & Q5).
  unfold env in Q3. injection Q3. intros. split_and!; [exact Hoh|congruence|]. destruct Hq as (R1 & R2 & R3 & R4 & R5).
  split_and!; [exact Q1|etrans; [exact Q2|exact R2]| |etrans; [exact Q4|exact R4]|intros x; etrans; [apply Q5|apply R5]].
  unfold env in *. cbn in *. congruence.
Qed.

Lemma listing_move f g k : listing f g k -> listing f (with_dirs g (<[d := mk_dir p (20 * (k + 1))]> (dirs g))) (k + 1).
Proof. intros (Ho & Hd & Hq). split_and!; [exact Ho|apply lookup_insert_eq|exact Hq]. Qed.

Lemma readdir_loop_run fuel : forall f g k, opened f -> listing f g k -> 0 <= k <= entry_cnt f s ->
  (Z.to_nat (entry_cnt f s - k) < fuel)%nat ->
  match find_from f s listed k (Z.to_nat (entry_cnt f s - k)) with
  | Some j => forall name, c_string (e_name (entry_at f s j)) = Done name ->
      exists h, readdir_loop fuel d g = Done (Some name, h) /\ listing f h (j + 1)
  | None => exists h, readdir_loop fuel d g = Done (None, h) /\ listing f h (entry_cnt f s)
  end.
Proof using Hr.
  induction fuel as [|fuel IH]; intros f g k Ho Hg Hk Hfuel; [lia|]. cbn [readdir_loop].
  pose proof Hg as (Hog & Hd & _). destruct (listing_same f g k Ho Hg) as [Ec Ee]. pose proof (entry_bound p i f Ho) as (B1 & B2 & B3).
  rewrite (bind_done _ _ g _ g) by (unfold load_dir, bind, get; rewrite Hd; reflexivity). cbn [dir_inode dir_pos].
  rewrite u32_small by lia. destruct (read_entry_run p i Hr g k no_entry Hog) as (h & e1 & E & Hq & _ & Hent & _); [lia|reflexivity|].
  rewrite (bind_done _ _ _ _ _ E). rewrite Ec, Ee in *. pose proof (listing_quiet f g h k Hg Hq) as Hh. destruct (Z.ltb_spec k (entry_cnt f s)) as [Hlt|Hge].
  - rewrite (Hent Hlt). pose proof Hh as (_ & Hdh & _).
    rewrite (bind_done _ _ h _ h) by (unfold load_dir, bind, get; rewrite Hdh; reflexivity). cbn [dir_inode dir_pos].
    replace (i32 (20 * k + sizeof_entry)) with (20 * (k + 1)) by (unfold sizeof_entry; rewrite i32_small; unfold is_i32; lia).
    pose proof (listing_move f h k Hh) as Hm. set (h' := with_dirs h _) in Hm.
    rewrite (bind_done _ _ h tt h') by reflexivity. fold (listed (entry_at f s k)).
    replace (Z.to_nat (entry_cnt f s - k)) with (S (Z.to_nat (entry_cnt f s - (k + 1)))) by lia. cbn [find_from].
    destruct (listed (entry_at f s k)) eqn:El.
    + intros name Hn. rewrite Hn. exists h'. split; [reflexivity|exact Hm].
    + apply IH; [exact Ho|exact Hm|lia|lia].
  - replace (Z.to_nat (entry_cnt f s - k)) with 0%nat by lia. cbn [find_from]. exists h. split; [reflexivity|].
    replace (entry_cnt f s) with k by lia. exact Hh.
Qed.
End listing.

(** Comparing entries of two states by computation would take forever. *)
#[global] Opaque entry_at.
