(* ===== verification/NameInv.v ===== *)
(** * Open inodes and their references

    Following a path opens and closes inodes and directories.  [names_ok] says
    that the file system is well formed, that every inode in memory is at rest,
    and that the references in [H] are covered by the open counts; each step
    says what it does to it. *)

From stdpp Require Import options.
From S2P Require Import Prelude Bytes Bitmap Block Store Inode InodeTree InodeGrow InodeShrink InodeResize InodeRollback InodeExtend InodeIO.
From S2P Require Import InodeWrite InodeLife File FreeMap FileProps Directory DirSpec.
Local Open Scope Z_scope.
Local Open Scope kernel_scope.

(** The disk and the map of free sectors are as they were. *)
Definition same_disk {St} `{!SectorStore St} (f g : fs St) : Prop :=
  store_ok (store g) /\ device_size g = device_size f /\ free_map g = free_map f /\ forall x, sector_of g x = sector_of f x.

Section same.
Context {St : Type} `{!SectorStore St}.
Implicit Types (f g h : fs St).

Lemma same_disk_refl f : store_ok (store f) -> same_disk f f.
Proof. intros H. by split_and!. Qed.

Lemma same_disk_store f g : store_ok (store f) -> store g = store f -> free_map g = free_map f -> same_disk f g.
Proof. intros H E1 E2. unfold same_disk, device_size, sector_of. rewrite E1, E2. by split_and!. Qed.

Lemma same_disk_trans f g h : same_disk f g -> same_disk g h -> same_disk f h.
Proof.
  intros (A1 & A2 & A3 & A4) (B1 & B2 & B3 & B4). split_and!; [exact B1|congruence|congruence|]. intros x. by rewrite B4.
Qed.

Lemma quiet_same f g : quiet f g -> same_disk f g.
Proof. intros (Q1 & Q2 & _ & Q4 & Q5). by split_and!. Qed.

Lemma same_byte f g s k : same_disk f g -> file_byte g s k = file_byte f s k /\ file_len g s = file_len f s.
Proof.
  intros (_ & _ & _ & Hs). unfold file_byte, file_idx, file_len. split; [|by rewrite Hs].
  unfold tree_byte, level2, level1. by rewrite !Hs.
Qed.

Lemma same_entry f g s k : same_disk f g -> entry_at g s k = entry_at f s k /\ entry_cnt g s = entry_cnt f s.
Proof.
  intros H. split; [apply entry_at_ext; intros b _; apply (same_byte f g s b H)|]. unfold entry_cnt. by rewrite (proj2 (same_byte f g s 0 H)).
Qed.

Lemma same_find f g s name : same_disk f g -> dir_find g s name = dir_find f s name.
Proof.
  intros H. unfold dir_find, find_slot. rewrite (proj2 (same_entry f g s 0 H)).
  rewrite (find_from_ext f g) by (intros j _; rewrite (proj1 (same_entry f g s j H)); reflexivity).
  apply option_fmap_ext. intros j. exact (f_equal e_inode_sector (proj1 (same_entry f g s j H))).
Qed.

Lemma same_isdir f g s : same_disk f g -> d_isdir (sector_of g s) = d_isdir (sector_of f s).
Proof. intros (_ & _ & _ & ->). done. Qed.
End same.

Section names.
Context {St : Type} `{!SectorStore St} {q pm : Z} {im : inode} {priv : Z -> Prop}.
Implicit Types (f g h : fs St) (p s d : Z) (i : inode) (L : list Z) (H : list (Z * Z)).
Abbreviation inv := (fs_inv q pm im priv).

(** How often [H] refers to the inode [p]. *)
Definition refs (H : list (Z * Z)) (p : Z) : Z := Z.of_nat (length (filter (fun r => r.1 = p) H)).

(** [H] are references to open inodes, with the sectors they are of. *)
Record names_ok (L : list Z) (H : list (Z * Z)) (f : fs St) : Prop := {
  no_inv : inv L f;
  no_table : table_ok f;
  no_idle p i : inodes f !! p = Some i -> p <> pm -> idle i /\ removed i = false /\ i_sector i ∈ L;
  no_deny p i : inodes f !! p = Some i -> p <> pm ->
    0 <= deny_write_cnt i /\ refs H p + deny_write_cnt i <= open_cnt i /\ (d_isdir (sector_of f (i_sector i)) = true -> deny_write_cnt i = 0);
  no_held p s : (p, s) ∈ H -> p <> pm /\ exists i, inodes f !! p = Some i /\ i_sector i = s /\ refs H p <= open_cnt i;
  no_dirs d : is_Some (dirs f !! d) -> 0 < d < next_ptr f;
  no_files x : is_Some (files f !! x) -> 0 < x < next_ptr f;
  no_oom : oom f = []
}.

Lemma inv_same L f g : inv L f -> same_disk f g -> free_map_file g = free_map_file f -> free_map_lock g = free_map_lock f ->
  inodes g !! pm = inodes f !! pm -> files g !! q = files f !! q -> inv L g.
Proof.
  intros Hf (S1 & S2 & S3 & S4) Ef El Ei Eq. pose proof (inv_handle _ _ _ _ _ _ Hf) as Hh. destruct Hh as (h1 & h2 & h3 & h4 & h5).
  set (h := mk_fs (store g) (free_map f) (free_map_file f) (free_map_lock f) (open_inodes f) (open_inodes_lock f) (inodes f) (files f) (dirs f) (cwd f) (next_ptr f) (oom f)).
  assert (Hq : quiet f h) by (split_and!; [exact S1|exact S2|done|done|exact S4]).
  pose proof (quiet_fm f h (inv_map _ _ _ _ _ _ Hf) h3 Hq) as Hmh. pose proof (free_map_frame q pm im priv h3) as Hfr.
  assert (Hmg : fm_ok q pm im priv g).
  { apply (ok_frame h g Hmh); [done|exact S3|exact Ef|exact El|intros p ->; exact Ei|]. cbn. rewrite (fm_file _ _ _ _ _ (inv_map _ _ _ _ _ _ Hf)). exact Eq. }
  assert (Hsame : forall s x, s ∈ L -> node_of f s x -> used g x = true /\ sector_of g x = sector_of f x).
  { intros s x Hs Hx. split; [|apply S4]. unfold used. rewrite S3. apply (node_facts f s x (inv_files _ _ _ _ _ _ Hf s Hs) Hx). }
  split; [apply Hf|exact Hmg| |].
  - intros s Hs. apply (frame_file f g s (inv_files _ _ _ _ _ _ Hf s Hs) S2 (fun x => Hsame s x Hs)).
  - intros s s' x Hs Hs' Hx Hx'. pose proof (proj1 (frame_node f g s (fun x => Hsame s x Hs) x) Hx) as H1.
    pose proof (proj1 (frame_node f g s' (fun x => Hsame s' x Hs') x) Hx') as H2. exact (inv_apart _ _ _ _ _ _ Hf s s' x Hs Hs' H1 H2).
Qed.

Lemma inv_store L f : inv L f -> store_ok (store f).
Proof. intros Hf. apply (fm_inode _ _ _ _ _ (inv_map _ _ _ _ _ _ Hf)). Qed.

Lemma names_quiet L H f g : names_ok L H f -> quiet f g -> names_ok L H g.
Proof.
  intros [N1 N2 N3 ND N4 N5 N6 N7] Hq. pose proof (quiet_same f g Hq) as Hs. destruct Hq as (_ & _ & He & _ & _). unfold env in He. injection He. intros.
  assert (Ei : inodes g = inodes f) by congruence. split.
  - apply (inv_same L f); congruence || done.
  - destruct N2 as [T1 T2 T3 T4 T5 T6]. split.
    + congruence.
    + intros p. rewrite Ei. replace (open_inodes g) with (open_inodes f) by congruence. apply T2.
    + intros p p' i j. rewrite Ei. apply T3.
    + intros p i. rewrite Ei. replace (next_ptr g) with (next_ptr f) by congruence. apply T4.
    + congruence.
    + congruence.
  - intros p i. rewrite Ei. apply N3.
  - intros p i. rewrite Ei, (same_isdir f g _ Hs). apply ND.
  - intros p s. rewrite Ei. apply N4.
  - intros d. replace (next_ptr g) with (next_ptr f) by congruence. replace (dirs g) with (dirs f) by congruence. apply N5.
  - intros d. replace (next_ptr g) with (next_ptr f) by congruence. replace (files g) with (files f) by congruence. apply N6.
  - congruence.
Qed.

(** Sector 0 is the free map's. *)
Lemma names_apart L H f p i : names_ok L H f -> inodes f !! p = Some i -> i_sector i ∈ L -> p <> pm.
Proof.
  intros Hf Hi Hs ->. pose proof (no_inv _ _ _ Hf) as Hv. destruct (inv_handle _ _ _ _ _ _ Hv) as (_ & _ & h3 & _).
  pose proof (inv_map _ _ _ _ _ _ Hv) as Hm. destruct (fm_inode _ _ _ _ _ Hm) as (_ & _ & Hi' & _). rewrite Hi in Hi'. injection Hi' as ->.
  rewrite h3 in Hs. destruct (node_facts f FREE_MAP_SECTOR FREE_MAP_SECTOR (inv_files _ _ _ _ _ _ Hv _ Hs)) as (_ & _ & Hp).
  { exists Self. split; [apply tree_self|done]. }
  apply Hp, (fm_priv _ _ _ _ _ Hm). exists Self. split; [apply tree_self|done].
Qed.

Lemma held_opened L H f p s : names_ok L H f -> (p, s) ∈ H -> exists i, i_sector i = s /\ opened (priv := priv) p i f /\ readable i /\ p <> 0.
Proof.
  intros Hf Hin. destruct (no_held _ _ _ Hf p s Hin) as (Hpm & i & Hi & Es & _). destruct (no_idle _ _ _ Hf p i Hi Hpm) as ([Hr _] & _ & HL).
  exists i. split_and!; [exact Es| |exact Hr|]; [exact (inv_opened f p i (no_inv _ _ _ Hf) Hi HL)|].
  pose proof (table_open f (no_table _ _ _ Hf) p i Hi). lia.
Qed.
Lemma refs_cons H p s p' : refs ((p, s) :: H) p' = refs H p' + (if decide (p = p') then 1 else 0).
Proof. unfold refs. rewrite filter_cons. cbn [fst]. destruct (decide (p = p')); cbn [length]; lia. Qed.

Lemma refs_none H p : (forall s, (p, s) ∉ H) -> refs H p = 0.
Proof.
  induction H as [|[p' s'] H IH]; intros Hn; [done|]. rewrite refs_cons, IH by (intros s Hs; apply (Hn s); by right).
  destruct (decide (p' = p)) as [->|]; [|lia]. destruct (Hn s'). left.
Qed.

Lemma refs_pos H p : 0 <= refs H p.
Proof. unfold refs. lia. Qed.

(** The references of a state cover a further one for an inode with room. *)
Lemma refs_bound L H f p i : names_ok L H f -> inodes f !! p = Some i -> refs H p <= open_cnt i.
Proof.
  intros Hf Hi. destruct (decide (Exists (fun r => r.1 = p) H)) as [He|Hn].
  - apply Exists_exists in He as ([p' s] & Hin & E). cbn in E. subst p'. destruct (no_held _ _ _ Hf p s Hin) as (_ & i' & Hi' & _ & Hle). congruence.
  - rewrite refs_none; [pose proof (table_open f (no_table _ _ _ Hf) p i Hi); lia|]. intros s Hs. apply Hn, Exists_exists. by exists (p, s).
Qed.

(** What a step on open inodes leaves alone. *)
Definition same_rest (f g : fs St) : Prop := same_disk f g /\ dirs g = dirs f /\ files g = files f /\ cwd g = cwd f.

Lemma same_rest_trans f g h : same_rest f g -> same_rest g h -> same_rest f h.
Proof. intros (A1 & A2 & A3 & A4) (B1 & B2 & B3 & B4). split_and!; [exact (same_disk_trans _ _ _ A1 B1)|congruence..]. Qed.

Lemma quiet_rest f g : quiet f g -> same_rest f g.
Proof. intros Hq. pose proof (quiet_same f g Hq). destruct Hq as (_ & _ & He & _). unfold env in He. injection He. intros. split_and!; [done|congruence..]. Qed.

Lemma reopen_names L H f p i s : names_ok L H f -> inodes f !! p = Some i -> i_sector i = s -> p <> pm ->
  names_ok L ((p, s) :: H) (with_inodes f (<[p := bump 1 i]> (inodes f))).
Proof.
  intros Hf Hi Es Hpm. pose proof Hf as [N1 N2 N3 ND N4 N5 N6 N7]. destruct (N3 p i Hi Hpm) as (I1 & I2 & I3).
  pose proof (table_open f N2 p i Hi) as [_ Hc]. split; [| | | | |exact N5|exact N6|exact N7].
  - apply (inv_same L f); [exact N1|by apply same_disk_store; [apply (inv_store L)|..]|done|done| |done]. cbn. by rewrite lookup_insert_ne by done.
  - apply table_bump; [exact N2|exact Hi|lia].
  - intros p' i'. cbn. destruct (decide (p = p')) as [<-|Hne]; [rewrite lookup_insert_eq|rewrite lookup_insert_ne by done; apply N3].
    intros [= <-] _. split_and!; [exact I1|exact I2|exact I3].
  - intros p' i'. cbn -[refs]. rewrite refs_cons. destruct (decide (p = p')) as [<-|Hne].
    + rewrite lookup_insert_eq. intros [= <-] _. destruct (ND p i Hi Hpm) as (D1 & D2 & D3). split_and!; [exact D1|cbn; lia|exact D3].
    + rewrite lookup_insert_ne, Z.add_0_r by done. apply ND.
  - intros p' s' Hin. rewrite refs_cons. cbn. destruct (decide (p = p')) as [<-|Hne].
    + split; [exact Hpm|]. exists (bump 1 i). rewrite lookup_insert_eq. split_and!; [done| |cbn; pose proof (refs_bound L H f p i Hf Hi); lia].
      apply elem_of_cons in Hin as [[= ->]|Hin]; [exact Es|]. destruct (N4 p s' Hin) as (_ & i' & Hi' & E & _). cbn. congruence.
    + apply elem_of_cons in Hin as [[= -> _]|Hin]; [done|]. rewrite lookup_insert_ne, Z.add_0_r by done. exact (N4 p' s' Hin).
Qed.

Lemma fresh_names L H f s : names_ok L H f -> s ∈ L -> (forall p, ~ open_at f s p) ->
  names_ok L ((next_ptr f, s) :: H)
    (with_table f (next_ptr f :: open_inodes f) (<[next_ptr f := new_entry s]> (inodes f)) (next_ptr f + 1) (tl (oom f))).
Proof.
  intros Hf Hs Hno. pose proof Hf as [N1 N2 N3 ND N4 N5 N6 N7]. pose proof (table_add f s N2 Hno) as Ht.
  assert (Hnew : inodes f !! next_ptr f = None).
  { destruct (inodes f !! next_ptr f) eqn:E; [|done]. apply (table_open f N2) in E. lia. }
  assert (Hpm : next_ptr f <> pm).
  { intros E. destruct (fm_inode _ _ _ _ _ (inv_map _ _ _ _ _ _ N1)) as (_ & _ & Hi & _). congruence. }
  split; [|exact Ht| | | | | |].
  - apply (inv_same L f); [exact N1|by apply same_disk_store; [apply (inv_store L)|..]|done|done| |done]. cbn. by rewrite lookup_insert_ne by done.
  - intros p' i'. cbn. destruct (decide (next_ptr f = p')) as [<-|Hne]; [rewrite lookup_insert_eq|rewrite lookup_insert_ne by done; apply N3].
    intros [= <-] _. split_and!; [|done|exact Hs]. split; [|done]. split_and!; [done|done|unfold is_u32; cbn; lia].
  - intros p' i'. cbn -[refs]. rewrite refs_cons. destruct (decide (next_ptr f = p')) as [<-|Hne].
    + rewrite lookup_insert_eq. intros [= <-] _. rewrite refs_none; [cbn; by split_and!|].
      intros s2 H2. destruct (N4 _ _ H2) as (_ & i2 & Hi2 & _). congruence.
    + rewrite lookup_insert_ne, Z.add_0_r by done. apply ND.
  - intros p' s' Hin. rewrite refs_cons. cbn. destruct (decide (next_ptr f = p')) as [<-|Hne].
    + split; [exact Hpm|]. exists (new_entry s). rewrite lookup_insert_eq.
      assert (forall s', (next_ptr f, s') ∉ H) as Hh by (intros s2 H2; destruct (N4 _ _ H2) as (_ & i2 & Hi2 & _); congruence).
      split_and!; [done| |rewrite (refs_none H _ Hh); cbn; lia]. apply elem_of_cons in Hin as [[= ->]|Hin]; [done|]. by destruct (Hh s').
    + apply elem_of_cons in Hin as [[= -> _]|Hin]; [done|]. rewrite lookup_insert_ne, Z.add_0_r by done. exact (N4 p' s' Hin).
  - intros d Hd. specialize (N5 d Hd). cbn. lia.
  - intros x Hx. specialize (N6 x Hx). cbn. lia.
  - cbn. by rewrite N7.
Qed.

Lemma open_step L H f s : names_ok L H f -> s ∈ L ->
  exists p g, inode_open s f = Done (p, g) /\ names_ok L ((p, s) :: H) g /\ same_rest f g /\ p <> 0.
Proof.
  intros Hf Hs. pose proof Hf as [N1 N2 N3 ND N4 N5 N6 N7]. assert (Hst : store_ok (store f)) by exact (inv_store L f N1).
  destruct (find_open_run (open_inodes f) s f) as [(p & _ & i & Hi & Es)|[_ Hno]]; [intros p; apply (table_dom f N2)| |].
  - assert (Hpm : p <> pm) by (apply (names_apart L H f p i Hf Hi); by rewrite Es).
    exists p, (with_inodes f (<[p := bump 1 i]> (inodes f))). pose proof (table_open f N2 p i Hi).
    split_and!; [|by apply reopen_names|split; [by apply same_disk_store|done]|lia].
    apply (inode_open_shared f s p i N2 Hi Es). by apply (N3 p i).
  - assert (Hno' : forall p, ~ open_at f s p).
    { intros p (i & Hi & E). apply (Hno p); [apply (table_dom f N2); by exists i|by exists i]. }
    eexists _, _. split; [apply (inode_open_fresh f s N2 Hno'); by rewrite N7|]. pose proof (table_next f N2).
    split_and!; [by apply fresh_names|split; [by apply same_disk_store|done]|lia].
Qed.

(** ** Closing *)

Lemma close_names L H f p s i : names_ok L ((p, s) :: H) f -> inodes f !! p = Some i -> open_cnt i <> 1 ->
  names_ok L H (with_inodes f (<[p := bump (-1) i]> (inodes f))).
Proof.
  intros Hf Hi Hc. pose proof Hf as [N1 N2 N3 ND N4 N5 N6 N7]. destruct (N4 p s) as (Hpm & _); [left|].
  destruct (N3 p i Hi Hpm) as (I1 & I2 & I3). pose proof (table_open f N2 p i Hi) as [_ Hc1]. split; [| | | | |exact N5|exact N6|exact N7].
  - apply (inv_same L f); [exact N1|by apply same_disk_store; [apply (inv_store L)|..]|done|done| |done]. cbn. by rewrite lookup_insert_ne by done.
  - apply table_bump; [exact N2|exact Hi|lia].
  - intros p' i'. cbn. destruct (decide (p = p')) as [<-|Hne]; [rewrite lookup_insert_eq|rewrite lookup_insert_ne by done; apply N3].
    intros [= <-] _. split_and!; [exact I1|exact I2|exact I3].
  - intros p' i'. cbn -[refs]. destruct (decide (p = p')) as [<-|Hne]; [rewrite lookup_insert_eq|rewrite lookup_insert_ne by done].
    + intros [= <-] _. destruct (ND p i Hi Hpm) as (D1 & D2 & D3). rewrite refs_cons, decide_True in D2 by done. split_and!; [exact D1|cbn; lia|exact D3].
    + intros Hi' Hp'. pose proof (ND p' i' Hi' Hp') as D. by rewrite refs_cons, decide_False, Z.add_0_r in D.
  - intros p' s' Hin. destruct (N4 p' s') as (Hpm' & i' & Hi' & Es' & Hle); [by right|]. rewrite refs_cons in Hle. cbn.
    split; [exact Hpm'|]. destruct (decide (p = p')) as [<-|Hne].
    + exists (bump (-1) i). rewrite lookup_insert_eq. assert (i' = i) as -> by congruence. split_and!; [done|exact Es'|cbn; lia].
    + exists i'. rewrite lookup_insert_ne by done. split_and!; [exact Hi'|exact Es'|lia].
Qed.

Lemma last_names L H f p s i : names_ok L ((p, s) :: H) f -> inodes f !! p = Some i -> open_cnt i = 1 ->
  names_ok L H (unlisted f p (delete p (inodes f))).
Proof.
  intros Hf Hi Hc. pose proof Hf as [N1 N2 N3 ND N4 N5 N6 N7]. destruct (N4 p s) as (Hpm & _); [left|].
  split; [| | | | |exact N5|exact N6|exact N7].
  - apply (inv_same L f); [exact N1|by apply same_disk_store; [apply (inv_store L)|..]|done|done| |done]. cbn. by rewrite lookup_delete_ne by done.
  - destruct N2 as [T1 T2 T3 T4 T5 T6]. split; cbn; [by apply NoDup_filter| | | |exact T5|exact T6].
    + intros p'. rewrite list_elem_of_filter, T2. destruct (decide (p = p')) as [<-|Hne].
      * rewrite lookup_delete_eq. split; [intros [? _]; done|intros []; done].
      * rewrite lookup_delete_ne by done. split; [intros [_ ?]; done|intros ?; split; [congruence|done]].
    + intros p1 p2 i1 i2 [_ H1]%lookup_delete_Some [_ H2]%lookup_delete_Some. by apply T3.
    + intros p1 i1 [_ H1]%lookup_delete_Some. by apply T4.
  - intros p' i'. cbn. intros [_ Hi']%lookup_delete_Some. by apply N3.
  - intros p' i'. cbn -[refs]. intros [Hne Hi']%lookup_delete_Some Hp'. pose proof (ND p' i' Hi' Hp') as D.
    by rewrite refs_cons, decide_False, Z.add_0_r in D.
  - intros p' s' Hin. destruct (N4 p' s') as (Hpm' & i' & Hi' & Es' & Hle); [by right|]. rewrite refs_cons in Hle. cbn.
    split; [exact Hpm'|]. destruct (decide (p = p')) as [<-|Hne].
    + exfalso. assert (i' = i) as -> by congruence.
      assert (0 < refs H p); [|lia]. clear -Hin. induction H as [|[p2 s2] H IH]; [by apply elem_of_nil in Hin|].
      rewrite refs_cons. pose proof (refs_pos H p). apply elem_of_cons in Hin as [[= <- <-]|Hin]; [rewrite decide_True by done; lia|].
      specialize (IH Hin). destruct (decide (p2 = p)); lia.
    + exists i'. rewrite lookup_delete_ne by done. split_and!; [exact Hi'|exact Es'|lia].
Qed.

Lemma close_step L H f p s : names_ok L ((p, s) :: H) f ->
  exists g, inode_close the_free_map p f = Done (tt, g) /\ names_ok L H g /\ same_rest f g.
Proof.
  intros Hf. pose proof Hf as [N1 N2 N3 ND N4 N5 N6 N7]. destruct (N4 p s) as (Hpm & i & Hi & Es & Hle); [left|].
  destruct (N3 p i Hi Hpm) as (I1 & I2 & I3). pose proof (table_open f N2 p i Hi) as [Hp _]. pose proof (inv_store L f N1) as Hst.
  destruct (decide (open_cnt i = 1)) as [Hc|Hc].
  - exists (unlisted f p (delete p (inodes f))). split_and!; [|by apply (last_names L H f p s i)|split; [by apply same_disk_store|done]].
    apply (inode_close_last f p i); [lia|apply (table_lock f N2)|exact Hi|exact I1|exact Hc|exact I2].
  - exists (with_inodes f (<[p := bump (-1) i]> (inodes f))). split_and!; [|by apply (close_names L H f p s i)|split; [by apply same_disk_store|done]].
    apply (inode_close_shared f p i); [lia|exact Hi|exact I1|exact Hc].
Qed.

(** ** Directories and files in memory *)

(** [malloc] of an object. *)
Definition allocated (f : fs St) : fs St := with_table f (open_inodes f) (inodes f) (next_ptr f + 1) (oom f).

Lemma malloc_step L H f : names_ok L H f -> malloc_ptr f = Done (next_ptr f, allocated f).
Proof. intros Hf. unfold malloc_ptr, allocated, with_table. by rewrite (no_oom _ _ _ Hf). Qed.

Definition with_objects (f : fs St) (xs : gmap Z file) (ds : gmap Z dir) : fs St :=
  mk_fs (store f) (free_map f) (free_map_file f) (free_map_lock f) (open_inodes f)
    (open_inodes_lock f) (inodes f) xs ds (cwd f) (next_ptr f) (oom f).

Lemma names_allocated L H f : names_ok L H f -> names_ok L H (allocated f).
Proof.
  intros [N1 N2 N3 ND N4 N5 N6 N7]. split; [| |exact N3|exact ND|exact N4| | |exact N7].
  - apply (inv_same L f); [exact N1|by apply same_disk_store; [apply (inv_store L)|..]|done..].
  - destruct N2 as [T1 T2 T3 T4 T5 T6]. split; cbn; [exact T1|exact T2|exact T3| |exact T5|lia]. intros p i Hi. specialize (T4 p i Hi). lia.
  - intros d Hd. specialize (N5 d Hd). cbn. lia.
  - intros d Hd. specialize (N6 d Hd). cbn. lia.
Qed.

Lemma names_objects L H f xs ds : names_ok L H f -> xs !! q = files f !! q ->
  (forall d, is_Some (ds !! d) -> 0 < d < next_ptr f) -> (forall x, is_Some (xs !! x) -> 0 < x < next_ptr f) -> names_ok L H (with_objects f xs ds).
Proof.
  intros [N1 N2 N3 ND N4 N5 N6 N7] Hq Hd Hx. split; [|by destruct N2|exact N3|exact ND|exact N4|exact Hd|exact Hx|exact N7].
  apply (inv_same L f); [exact N1|by apply same_disk_store; [apply (inv_store L)|..]|done|done|done|exact Hq].
Qed.

Lemma dir_open_step L H f p : names_ok L H f -> p <> 0 ->
  exists d g, dir_open the_free_map p f = Done (d, g) /\ names_ok L H g /\ same_disk f g /\ d <> 0 /\ dirs f !! d = None /\
    dirs g = <[d := mk_dir p 0]> (dirs f) /\ files g = files f /\ cwd g = cwd f.
Proof.
  intros Hf Hp. pose proof Hf as [N1 N2 N3 ND N4 N5 N6 N7]. pose proof (table_next f N2) as Hn.
  exists (next_ptr f), (with_objects (allocated f) (files f) (<[next_ptr f := mk_dir p 0]> (dirs f))). split_and!; [| | | | |done..].
  - unfold dir_open. rewrite (bind_done _ _ _ _ _ (malloc_step L H f Hf)).
    rewrite (proj2 (Z.eqb_neq _ _) Hp), (proj2 (Z.eqb_neq _ _)) by lia. done.
  - apply names_objects; [by apply names_allocated|done| |].
    + intros d. destruct (decide (next_ptr f = d)) as [<-|Hne]; [cbn; lia|]. rewrite lookup_insert_ne by done. intros Hd. specialize (N5 d Hd). cbn. lia.
    + intros x Hx. specialize (N6 x Hx). cbn. lia.
  - apply same_disk_store; [exact (inv_store L f N1)|done..].
  - lia.
  - destruct (dirs f !! next_ptr f) eqn:E; [|done]. specialize (N5 (next_ptr f)). rewrite E in N5. destruct (N5 ltac:(by eexists)). lia.
Qed.

Lemma file_open_step L H f p : names_ok L H f -> p <> 0 ->
  exists x g, file_open the_free_map p f = Done (x, g) /\ names_ok L H g /\ same_disk f g /\ x <> 0 /\ files f !! x = None /\
    files g = <[x := mk_file p 0 false]> (files f) /\ dirs g = dirs f /\ cwd g = cwd f.
Proof.
  intros Hf Hp. pose proof Hf as [N1 N2 N3 ND N4 N5 N6 N7]. pose proof (table_next f N2) as Hn.
  assert (Hnew : files f !! next_ptr f = None).
  { destruct (files f !! next_ptr f) eqn:E; [|done]. specialize (N6 (next_ptr f)). rewrite E in N6. destruct (N6 ltac:(by eexists)). lia. }
  exists (next_ptr f), (with_objects (allocated f) (<[next_ptr f := mk_file p 0 false]> (files f)) (dirs f)). split_and!; [| | |lia|exact Hnew|done..].
  - unfold file_open. rewrite (bind_done _ _ _ _ _ (malloc_step L H f Hf)).
    rewrite (proj2 (Z.eqb_neq _ _) Hp), (proj2 (Z.eqb_neq _ _)) by lia. done.
  - apply names_objects; [by apply names_allocated| | |].
    + cbn. rewrite lookup_insert_ne; [done|]. intros <-. destruct (fm_open _ _ _ _ _ (inv_map _ _ _ _ _ _ N1)) as (? & ? & ?). congruence.
    + intros d Hd. specialize (N5 d Hd). cbn. lia.
    + intros x. destruct (decide (next_ptr f = x)) as [<-|Hne]; [cbn; lia|]. rewrite lookup_insert_ne by done. intros Hx. specialize (N6 x Hx). cbn. lia.
  - apply same_disk_store; [exact (inv_store L f N1)|done..].
Qed.

Lemma dir_close_step L H f d x s : names_ok L ((dir_inode x, s) :: H) f -> dirs f !! d = Some x -> d <> 0 ->
  exists g, dir_close the_free_map d f = Done (tt, g) /\ names_ok L H g /\ same_disk f g /\
    dirs g = delete d (dirs f) /\ files g = files f /\ cwd g = cwd f.
Proof.
  intros Hf Hx Hd. destruct (close_step L H f (dir_inode x) s Hf) as (g & E & Hg & (Hs & Hds & Hfs & Hc)).
  exists (with_objects g (files g) (delete d (dirs g))). split_and!; [| | |cbn; congruence..].
  - unfold dir_close. rewrite (proj2 (Z.eqb_neq _ _) Hd). cbn [negb]. rewrite (bind_done _ _ f x f) by (unfold load_dir, bind, get; by rewrite Hx).
    rewrite (bind_done _ _ _ _ _ E). done.
  - apply names_objects; [exact Hg|done| |exact (no_files _ _ _ Hg)]. intros d'. intros [y [_ Hy]%lookup_delete_Some]. apply (no_dirs _ _ _ Hg). by eexists.
  - apply (same_disk_trans f g); [exact Hs|]. apply same_disk_store; [apply Hs|done..].
Qed.

(** ** Looking at an inode and at a name *)

Lemma is_dir_step L H f p s : names_ok L H f -> (p, s) ∈ H -> exists g, is_dir p f = Done (d_isdir (sector_of f s), g) /\ quiet f g.
Proof.
  intros Hf Hin. destruct (held_opened L H f p s Hf Hin) as (i & Es & Ho & _). unfold is_dir.
  rewrite (bind_done _ _ _ _ _ (load_inode_run p i f Ho)). rewrite Es.
  destruct (store_read_fs f s) as (g & E & Hq); [apply Ho|rewrite <- Es; exact (self_range p i f Ho)|]. rewrite (bind_done _ _ _ _ _ E). by exists g.
Qed.

(** Every name in a directory is of a file in [L]. *)
Definition closed (L : list Z) (f : fs St) : Prop := forall s name s', s ∈ L -> d_isdir (sector_of f s) = true -> dir_find f s name = Some s' -> s' ∈ L.

Lemma closed_same L f g : closed L f -> same_disk f g -> closed L g.
Proof.
  intros Hc Hs s name s' HL Hd Hn. rewrite (same_isdir f g s Hs) in Hd. rewrite (same_find f g s name Hs) in Hn. exact (Hc s name s' HL Hd Hn).
Qed.

Lemma lookup_step L H f d x s name : names_ok L H f -> closed L f -> dirs f !! d = Some x -> d <> 0 -> (dir_inode x, s) ∈ H -> s ∈ L ->
  d_isdir (sector_of f s) = true ->
  match dir_find f s name with
  | Some s' => s' ∈ L /\ exists p g, dir_lookup d name f = Done (p, g) /\ p <> 0 /\ names_ok L ((p, s') :: H) g /\ same_rest f g
  | None => exists g, dir_lookup d name f = Done (0, g) /\ names_ok L H g /\ same_rest f g
  end.
Proof.
  intros Hf Hcl Hx Hd Hin HL Hdir. destruct (held_opened L H f _ s Hf Hin) as (i & Es & Ho & Hr & _).
  destruct (lookup_entry_run (dir_inode x) i Hr f d x name no_entry Hd Hx eq_refl Ho eq_refl) as (g & E & Hq). rewrite Es in E.
  pose proof (Hcl s name) as Hcl'. unfold dir_find in *. unfold dir_lookup. rewrite assert_true by by rewrite (proj2 (Z.eqb_neq _ _) Hd).
  rewrite (bind_done _ _ _ _ _ E). pose proof (names_quiet L H f g Hf Hq) as Hg. destruct (find_slot f s (named name)) as [k|]; cbn [fmap option_fmap option_map] in *.
  - specialize (Hcl' _ HL Hdir eq_refl). split; [exact Hcl'|]. destruct (open_step L H g _ Hg Hcl') as (p & h & E' & Hh & Hr' & Hp).
    exists p, h. split_and!; [exact E'|exact Hp|exact Hh|]. exact (same_rest_trans _ _ _ (quiet_rest f g Hq) Hr').
  - exists g. split_and!; [done|exact Hg|exact (quiet_rest f g Hq)].
Qed.
End names.
