(* ===== verification/Filesys.v ===== *)
(** * filesys/filesys.c: paths and files

    Paths are followed component by component from the root or the current
    directory.  [depth] bounds the number of components followed; arrays that
    the source leaves uninitialised are arguments ([frame] for a file name, [e]
    for a directory entry). *)

From stdpp Require Import options.
From S2P Require Import Prelude Bytes Bitmap Block Store Cache Inode File FreeMap Directory.
Local Open Scope Z_scope.
Local Open Scope kernel_scope.

(** ** Parts of a path *)

Fixpoint skip_slashes (src : list Z) : list Z :=
  match src with
  | c :: src' => if c =? 47 then skip_slashes src' else src
  | [] => []
  end.

(** Copies to [part] from index [k] on, up to the next slash or the end; the
    status, [part] and the rest of the path. *)
Fixpoint copy_part (src : list Z) (k : nat) (part : list Z) : Z * list Z * list Z :=
  match src with
  | [] => (1, <[k := 0]> part, [])
  | c :: src' =>
      if c =? 47 then (1, <[k := 0]> part, src)
      else if Z.of_nat k <? NAME_MAX then copy_part src' (S k) (<[k := c]> part)
      else (-1, part, src)
  end.

(** 1 with the next part, 0 at the end of the path, -1 for a part that is too
    long, which leaves the path where it was. *)
Definition get_next_part (part src : list Z) : Z * list Z * list Z :=
  match skip_slashes src with
  | [] => (0, part, src)
  | src' =>
      let '(status, part, rest) := copy_part src' 0 part in
      (status, part, if status =? 1 then rest else src)
  end.

Fixpoint filename_loop (fuel : nat) (fp name : list Z) : bool * list Z :=
  match fuel with
  | O => (false, name)
  | S fuel =>
      let '(status, name, fp) := get_next_part name fp in
      if status =? 0 then (true, name)
      else if status =? -1 then (false, name)
      else filename_loop fuel fp name
  end.

(** Every part takes a character off the path. *)
Definition get_filename_from_path (fp name : list Z) : bool * list Z :=
  filename_loop (S (length fp)) fp name.

Section code.
Context {St : Type} `{!SectorStore St} (al : allocator St) (depth : nat).
Abbreviation MF := (M (fs St)).

(** ** Following a path *)

(** [if (prev != NULL) dir_close (prev);] *)
Definition close_prev (prev : Z) : MF unit := if negb (prev =? 0) then dir_close al prev else ret tt.

Fixpoint last_dir_loop (fuel : nat) (dir prev : Z) (name fp : list Z) : MF Z :=
  match fuel with
  | O => fail OutOfFuel
  | S fuel =>
      let '(status, name, fp) := get_next_part name fp in
      if status =? 0 then dir_close al dir ;; ret prev
      else
        let! s := lift (c_string name) in
        let! inode := dir_lookup dir s in
        if inode =? 0 then
          let '(status, _, _) := get_next_part name fp in
          if negb (status =? 1) then close_prev prev ;; ret dir
          else dir_close al dir ;; ret 0
        else
          let! isdir := is_dir inode in
          if negb isdir then
            let '(status, _, _) := get_next_part name fp in
            if status =? 0 then close_prev prev ;; ret dir
            else dir_close al dir ;; ret 0
          else
            close_prev prev ;;
            let! d := dir_open al inode in
            last_dir_loop fuel d dir name fp
  end.

(** [dir_reopen] of the current directory, which is the root at first. *)
Definition reopen_cwd : MF Z :=
  let! f := get in
  (if cwd f =? 0 then let! d := dir_open_root al in set_cwd d else ret tt) ;;
  let! f := get in
  dir_reopen al (cwd f).

Definition get_last_dir (fp : list Z) : MF Z :=
  match fp with
  | [] => ret 0
  | c :: _ =>
      let! dir := (if c =? 47 then dir_open_root al else reopen_cwd) in
      last_dir_loop depth dir 0 (replicate 15 0) fp
  end.

(** [dir_open (dir_get_inode (cwd))] takes no new reference to the inode. *)
Definition start_dir (dir : Z) : MF Z :=
  if dir =? 0 then let! d := dir_open_root al in set_cwd d ;; ret d
  else
    let! f := get in
    let! p := dir_get_inode (cwd f) in
    dir_open al p.

Fixpoint verify_loop (fuel : nat) (dir inode : Z) (name fp : list Z) : MF (bool * Z) :=
  match fuel with
  | O => fail OutOfFuel
  | S fuel =>
      let '(status, name, fp) := get_next_part name fp in
      if status =? 0 then ret (true, inode)
      else
        let! s := lift (c_string name) in
        let! inode := dir_lookup dir s in
        if negb (inode =? 0) then
          let! isdir := is_dir inode in
          if isdir : bool then
            dir_close al dir ;;
            let! d := dir_open al inode in
            verify_loop fuel d inode name fp
          else
            let '(status, _, _) := get_next_part name fp in
            if status =? 1 then dir_close al dir ;; ret (false, inode) else ret (true, inode)
        else dir_close al dir ;; ret (false, inode)
  end.

(** Success and [*inode], which starts as [inode]. *)
Definition verify_filepath (fp : list Z) (dir inode : Z) : MF (bool * Z) :=
  match fp with
  | [] => ret (false, inode)
  | c :: _ =>
      let! dir := start_dir dir in
      if c =? 47 then
        dir_close al dir ;;
        let! dir := dir_open_root al in
        let! inode := dir_get_inode dir in
        verify_loop depth dir inode (replicate 15 0) fp
      else verify_loop depth dir inode (replicate 15 0) fp
  end.

(** [chdir] of directory.c; [inode] is its uninitialised variable. *)
Definition chdir (inode : Z) (name : list Z) : MF bool :=
  let! f := get in
  let! (success, inode) := verify_filepath name (cwd f) inode in
  if success : bool then
    let! d := dir_open al inode in
    set_cwd d ;;
    ret true
  else ret false.

(** ** Files *)

(** The sector of the new inode, 0 if none was allocated, and success. *)
Definition create_in (e : list Z) (dir : Z) (filename : list Z) (initial_size : Z) (isdir : bool) : MF (Z * bool) :=
  if dir =? 0 then ret (0, false)
  else
    let! a := allocate al 1 in
    match a with
    | None => ret (0, false)
    | Some inode_sector =>
        let! c := (if isdir then
                     let! x := load_dir dir in
                     let! i := load_inode (dir_inode x) in
                     dir_create al e inode_sector (u32 initial_size) (i_sector i)
                   else inode_create al inode_sector initial_size) in
        if c : bool then
          let! s := lift (c_string filename) in
          let! b := dir_add al e dir s inode_sector in
          ret (inode_sector, b)
        else ret (inode_sector, false)
    end.

Definition filesys_create (e frame name : list Z) (initial_size : Z) (isdir : bool) : MF bool :=
  let! dir := get_last_dir name in
  let '(ok, filename) := get_filename_from_path name frame in
  if negb ok then ret false
  else
    let! (inode_sector, success) := create_in e dir filename initial_size isdir in
    (if negb success && negb (inode_sector =? 0) then release al inode_sector 1 else ret tt) ;;
    dir_close al dir ;;
    ret success.

(** The directory or file, 0 on failure, and [*isdir], which starts as
    [isdir]. *)
Definition filesys_open (frame name : list Z) (isdir : bool) : MF (Z * bool) :=
  if bool_decide (name = [47]) then let! d := dir_open_root al in ret (d, true)
  else
    let! dir := get_last_dir name in
    if dir =? 0 then ret (0, isdir)
    else
      let '(_, filename) := get_filename_from_path name frame in
      let! s := lift (c_string filename) in
      let! inode := dir_lookup dir s in
      if inode =? 0 then ret (0, isdir)
      else
        dir_close al dir ;;
        let! b := is_dir inode in
        if b : bool then let! d := dir_open al inode in ret (d, true)
        else let! q := file_open al inode in ret (q, false).

Definition filesys_remove (frame name : list Z) : MF bool :=
  let! dir := get_last_dir name in
  let '(_, filename) := get_filename_from_path name frame in
  let! success := (if negb (dir =? 0) then
                     let! s := lift (c_string filename) in dir_remove al dir s
                   else ret false) in
  dir_close al dir ;;
  ret success.

(** [e]: the uninitialised entry that [dir_add] writes. *)
Definition do_format (e : list Z) : MF unit :=
  free_map_create al ;;
  let! c := dir_create al e ROOT_DIR_SECTOR 16 ROOT_DIR_SECTOR in
  if negb c then fail Panic else free_map_close al.
End code.

(** ** Start-up and shutdown, over the buffer cache *)

Section startup.
Context {D : Type} `{!BlockOps D} (al : allocator (cache D)).
Abbreviation MF := (M (fs (cache D))).

(** The lists and locks of inode.c. *)
Definition inode_init : MF unit :=
  set_open_inodes [] ;;
  set_open_inodes_lock false ;;
  on_store (set_buffer_cache []) ;;
  on_store (modify (fun c => mk_cache (fs_device c) (buffer_cache c) false)).

(** On a device that was found, with the block [malloc] returns for the free
    map. *)
Definition filesys_init (e : list Z) (block : option (list Z)) (format : bool) : MF unit :=
  inode_init ;;
  free_map_init block ;;
  (if format then do_format al e else ret tt) ;;
  free_map_open al.

Definition filesys_done : MF unit :=
  on_store write_all_dirty_sectors ;;
  free_map_close al.
End startup.
