(* ===== verification/PathSpec.v ===== *)
(** * Splitting paths

    [get_next_part] cuts a path at slashes: called again and again it returns the
    non-empty pieces between them, and refuses a piece of more than 14
    characters. *)

From stdpp Require Import options.
From S2P Require Import Prelude Bytes Bitmap Block Store Mem Str Inode File FreeMap Directory Filesys.
Local Open Scope Z_scope.
Local Open Scope kernel_scope.

(** The components of a path. *)
Definition path_words (fp : list Z) : list (list Z) := words (in_str [47]) fp.

(** A C string has no zero inside. *)
Definition nonzero (l : list Z) : Prop := Forall (fun c => c <> 0) l.

Lemma slash_sep c : c <> 0 -> in_str [47] c = (c =? 47).
Proof. intros Hc. rewrite in_str_cons, in_str_nil, (proj2 (Z.eqb_neq c 0) Hc). apply orb_false_r. Qed.

Lemma skip_slashes_run l k : seps [47] l -> nonzero l -> (forall c k', k = c :: k' -> c <> 47) -> skip_slashes (l ++ k) = k.
Proof.
  intros Hl Hn Hk. induction Hl as [|x l Hx _ IH]; cbn.
  - destruct k as [|c k]; [done|]. cbn. by rewrite (proj2 (Z.eqb_neq _ _) (Hk c k eq_refl)).
  - apply Forall_cons in Hn as [Hx0 Hn]. rewrite (slash_sep x Hx0) in Hx. rewrite Hx. by apply IH.
Qed.

Lemma c_string_app t r : nonzero t -> c_string (t ++ 0 :: r) = Done t.
Proof. induction 1 as [|x t Hx _ IH]; [done|]. cbn. by rewrite (proj2 (Z.eqb_neq _ _) Hx), IH. Qed.

(** The rest of a path begins at its end or at a slash. *)
Definition at_break (k : list Z) : Prop := k = [] \/ exists k', k = 47 :: k'.

Lemma copy_part_run t k : forall n part, Forall (fun c => c <> 47) t -> at_break k -> (15 <= length part)%nat -> (n + length t <= 14)%nat ->
  exists part' r, copy_part (t ++ k) n part = (1, part', k) /\ length part' = length part /\
    part' = take n part ++ t ++ 0 :: r.
Proof.
  induction t as [|c t IH]; intros n part Ht Hk Hp Hn.
  - assert (E : copy_part k n part = (1, <[n := 0]> part, k)) by (destruct Hk as [->|[k' ->]]; done).
    exists (<[n := 0]> part), (drop (S n) part). cbn [app]. split_and!; [exact E|by rewrite length_insert|].
    apply insert_take_drop. cbn in Hn. lia.
  - apply Forall_cons in Ht as [Hc Ht]. cbn [length] in Hn. destruct (IH (S n) (<[n := c]> part) Ht Hk) as (part' & r & E & Hl & Ep); [by rewrite length_insert|lia|]. rewrite length_insert in Hl.
    exists part', r. cbn [app copy_part]. rewrite (proj2 (Z.eqb_neq _ _) Hc). unfold NAME_MAX. rewrite (proj2 (Z.ltb_lt _ _)) by lia.
    split_and!; [exact E|exact Hl|]. rewrite Ep, (take_S_r _ _ c) by (apply list_lookup_insert_eq; lia).
    rewrite take_insert_ge by lia. by rewrite <- (assoc_L (++)).
Qed.

Lemma copy_part_long t k : forall n part, Forall (fun c => c <> 47) t -> (15 <= length part)%nat -> (14 < n + length t)%nat -> (n <= 14)%nat ->
  exists part' rest, copy_part (t ++ k) n part = (-1, part', rest) /\ part' = take n part ++ take (14 - n) t ++ drop 14 part.
Proof.
  induction t as [|c t IH]; intros n part Ht Hp Hn Hn14; [cbn in Hn; lia|]. apply Forall_cons in Ht as [Hc Ht]. cbn [length] in Hn.
  cbn [app copy_part]. rewrite (proj2 (Z.eqb_neq _ _) Hc). unfold NAME_MAX. destruct (Z.ltb_spec (Z.of_nat n) 14) as [Hlt|Hge].
  - destruct (IH (S n) (<[n := c]> part) Ht) as (part' & rest & E & Ep); [by rewrite length_insert|lia|lia|].
    exists part', rest. split; [exact E|]. rewrite Ep, (take_S_r _ _ c) by (apply list_lookup_insert_eq; lia). rewrite take_insert_ge by lia.
    rewrite drop_insert_lt by lia. replace (14 - n)%nat with (S (14 - S n)) by lia. cbn [take app]. by rewrite <- (assoc_L (++)).
  - exists part, (c :: t ++ k). split; [done|]. assert (n = 14%nat) as -> by lia. cbn [Nat.sub take app]. by rewrite take_drop.
Qed.

Lemma plain_slash t : plain [47] t -> nonzero t /\ Forall (fun c => c <> 47) t.
Proof.
  intros H. split; apply (Forall_impl _ _ _ H); intros c Hc; rewrite in_str_cons, in_str_nil in Hc; apply orb_false_iff in Hc as [H1%Z.eqb_neq H2%Z.eqb_neq]; done.
Qed.

(** The first component, from a decomposition of the path. *)
Lemma next_part_shape part l t k : (15 <= length part)%nat -> seps [47] l -> nonzero l -> plain [47] t -> t <> [] -> at_break k ->
  if decide (length t <= 14)%nat then
    exists part', get_next_part part (l ++ t ++ k) = (1, part', k) /\ length part' = length part /\ c_string part' = Done t
  else exists part', get_next_part part (l ++ t ++ k) = (-1, part', l ++ t ++ k) /\ length part' = length part /\ take 14 part' = take 14 t.
Proof.
  intros Hp Hl Hnl Ht Hne Hk. destruct (plain_slash t Ht) as [Hn Hs]. unfold get_next_part.
  rewrite (skip_slashes_run l (t ++ k) Hl Hnl); [|intros c k' E; destruct t as [|x t]; [done|]; injection E as -> _; by apply Forall_cons in Hs as [? _]].
  assert (E0 : exists c r, t ++ k = c :: r) by (destruct t as [|c t]; [done|]; by exists c, (t ++ k)). destruct E0 as (c & r & E0). rewrite E0, <- E0.
  destruct (decide (length t <= 14)%nat) as [Hle|Hgt].
  - destruct (copy_part_run t k 0 part Hs Hk Hp) as (part' & r' & E & Hl' & Ep); [lia|]. rewrite E. cbn in Ep. exists part'. split_and!; [done|exact Hl'|].
    rewrite Ep. by apply c_string_app.
  - destruct (copy_part_long t k 0 part Hs Hp) as (part' & rest & E & Ep); [lia|lia|]. rewrite E. change (part' = take 14 t ++ drop 14 part) in Ep. exists part'. split_and!; [done| |].
    + rewrite Ep, length_app, length_take, length_drop. lia.
    + rewrite Ep. rewrite take_app_le by (rewrite length_take; lia). by rewrite take_take.
Qed.

(** One call, for every path. *)
Lemma next_part_run part fp : (15 <= length part)%nat -> nonzero fp ->
  match path_words fp with
  | [] => get_next_part part fp = (0, part, fp)
  | w :: ws =>
      if decide (length w <= 14)%nat then
        exists part' rest, get_next_part part fp = (1, part', rest) /\ length part' = length part /\ c_string part' = Done w /\
          path_words rest = ws /\ nonzero rest /\ (length rest < length fp)%nat
      else exists part', get_next_part part fp = (-1, part', fp) /\ length part' = length part /\ take 14 part' = take 14 w
  end.
Proof.
  intros Hp Hn. unfold path_words. destruct (shape_all [47] fp) as [l Hl|l t Hl Ht Hne|l t x k Hl Ht Hne Hx].
  - assert (E : words (in_str [47]) l = []) by (rewrite <- (app_nil_r l); by rewrite words_seps). rewrite E. unfold get_next_part.
    rewrite <- (app_nil_r l) at 1. by rewrite (skip_slashes_run l []).
  - rewrite words_seps, words_plain by done. apply Forall_app in Hn as [Hnl Hnt].
    pose proof (next_part_shape part l t [] Hp Hl Hnl Ht Hne (or_introl eq_refl)) as H. rewrite app_nil_r in H.
    destruct (decide (length t <= 14)%nat); [|exact H]. destruct H as (part' & E & Hl' & Hc). exists part', [].
    split_and!; [exact E|exact Hl'|exact Hc|done|constructor|]. destruct t; [done|]. rewrite length_app. cbn. lia.
  - rewrite words_seps, words_plain_app by done. apply Forall_app in Hn as [Hnl [Hnt [Hx0 Hnk]%Forall_cons]%Forall_app].
    rewrite (slash_sep x Hx0) in Hx. apply Z.eqb_eq in Hx. subst x.
    pose proof (next_part_shape part l t (47 :: k) Hp Hl Hnl Ht Hne (or_intror (ex_intro _ k eq_refl))) as H.
    destruct (decide (length t <= 14)%nat); [|exact H]. destruct H as (part' & E & Hl' & Hc). exists part', (47 :: k).
    split_and!; [exact E|exact Hl'|exact Hc| |by constructor|].
    + apply (words_seps [47] [47] k). by repeat constructor.
    + destruct t; [done|]. rewrite !length_app. cbn. lia.
Qed.

(** The whole path. *)
Lemma filename_run fuel : forall fp name, (15 <= length name)%nat -> nonzero fp -> Forall (fun w => length w <= 14)%nat (path_words fp) ->
  (length fp < fuel)%nat ->
  exists name', filename_loop fuel fp name = (true, name') /\ length name' = length name /\
    match last (path_words fp) with Some w => c_string name' = Done w | None => name' = name end.
Proof.
  induction fuel as [|fuel IH]; intros fp name Hl Hn Hw Hfuel; [lia|]. cbn [filename_loop].
  pose proof (next_part_run name fp Hl Hn) as H. destruct (path_words fp) as [|w ws].
  - rewrite H. exists name. done.
  - apply Forall_cons in Hw as [Hw Hws]. rewrite decide_True in H by exact Hw. destruct H as (part & rest & -> & Hp & Hc & Er & Hnr & Hlt).
    change (1 =? 0) with false. change (1 =? -1) with false. cbv iota. rewrite <- Er in *.
    destruct (IH rest part) as (name' & -> & Hl' & Hlast); [lia|exact Hnr|exact Hws|lia|]. exists name'. split_and!; [done|congruence|].
    destruct (path_words rest) as [|w' ws']; [cbn in *; by subst name'|].
    rewrite last_cons_cons. destruct (last (w' :: ws')) eqn:El; [exact Hlast|by apply last_None in El].
Qed.

(** Components are made of the characters of the path. *)
Lemma words_chars (P : Z -> Prop) fp w : Forall P fp -> w ∈ path_words fp -> w <> [] /\ Forall P w.
Proof.
  intros Hp [Hne Hw]%list_elem_of_filter. split; [exact Hne|]. revert w Hne Hw. induction Hp as [|c fp Hc Hp IH]; intros w Hne Hw; cbn in Hw.
  - apply list_elem_of_singleton in Hw. by subst w.
  - destruct (in_str [47] c); [apply elem_of_cons in Hw as [->|Hw]; [done|by apply IH]|].
    destruct (fields (in_str [47]) fp) as [|v vs]; [apply list_elem_of_singleton in Hw; subst w; by repeat constructor|].
    apply elem_of_cons in Hw as [->|Hw]; [|apply IH; [done|by right]]. constructor; [exact Hc|].
    destruct v as [|x v]; [constructor|]. apply IH; [done|left].
Qed.
