(* ===== verification/PathWalk.v ===== *)
(** * Following a path

    [get_last_dir] ends at the directory that holds the last component of the
    path, and [filesys_open] opens what the path names. *)

From stdpp Require Import options.
From S2P Require Import Prelude Bytes Bitmap Block Store Mem Str Inode InodeTree InodeGrow InodeShrink InodeResize InodeRollback InodeExtend InodeIO.
From S2P Require Import InodeWrite InodeLife File FreeMap FileProps Directory DirSpec NameInv Filesys PathSpec.
Local Open Scope Z_scope.
Local Open Scope kernel_scope.

(** ** What a path stands for *)

Section resolve.
Context {St : Type} `{!SectorStore St}.
Implicit Types (f g : fs St) (s : Z).

Definition isdir_at (f : fs St) (s : Z) : bool := d_isdir (sector_of f s).

(** The directory that holds the last component, from the directory at [s],
    which was reached from [prev]. *)
Fixpoint last_dir (f : fs St) (prev : option Z) (s : Z) (ws : list (list Z)) : option Z :=
  match ws with
  | [] => prev
  | w :: ws =>
      match dir_find f s w with
      | Some s' =>
          if isdir_at f s' then last_dir f (Some s) s' ws
          else match ws with [] => Some s | _ => None end
      | None => match ws with [] => Some s | _ => None end
      end
  end.

(** The file that the components [ws] name. *)
Fixpoint resolve (f : fs St) (s : Z) (ws : list (list Z)) : option Z :=
  match ws with
  | [] => Some s
  | w :: ws =>
      match dir_find f s w with
      | Some s' => match ws with [] => Some s' | _ => if isdir_at f s' then resolve f s' ws else None end
      | None => None
      end
  end.

Lemma resolve_last f : forall ws w prev s, last ws = Some w ->
  resolve f s ws = match last_dir f prev s ws with Some s' => dir_find f s' w | None => None end.
Proof.
  induction ws as [|v ws IH]; intros w prev s Hl; [done|]. cbn [resolve last_dir]. destruct ws as [|v' ws].
  - injection Hl as ->. destruct (dir_find f s w) as [s'|] eqn:E; [|by rewrite E]. destruct (isdir_at f s'); by rewrite ?E.
  - rewrite last_cons_cons in Hl. destruct (dir_find f s v) as [s'|]; [|done]. destruct (isdir_at f s'); [|done]. exact (IH w (Some s) s' Hl).
Qed.

Lemma same_last_dir f g : same_disk f g -> forall ws prev s, last_dir g prev s ws = last_dir f prev s ws.
Proof.
  intros Hs ws. induction ws as [|w ws IH]; intros prev s; [done|]. cbn [last_dir]. rewrite (same_find f g s w Hs).
  destruct (dir_find f s w) as [s'|]; [|done]. unfold isdir_at. rewrite (same_isdir f g s' Hs). destruct (d_isdir _); [apply IH|done].
Qed.
End resolve.

Section walk.
Context {St : Type} `{!SectorStore St} {q pm : Z} {im : inode} {priv : Z -> Prop}.
Implicit Types (f g h : fs St) (p s d : Z) (i : inode) (L : list Z) (H : list (Z * Z)).
Abbreviation names_ok := (names_ok (q := q) (pm := pm) (im := im) (priv := priv)).
Abbreviation al := (@the_free_map St _).

(** References can be forgotten and reordered. *)
Lemma names_sub L H H' f : names_ok L H f -> (forall r, r ∈ H' -> r ∈ H) -> (forall p, refs H' p <= refs H p) -> names_ok L H' f.
Proof.
  intros [N1 N2 N3 ND N4 N5 N6 N7] Hin Hle. split; [exact N1|exact N2|exact N3| | |exact N5|exact N6|exact N7].
  { intros p i Hi Hp. destruct (ND p i Hi Hp) as (D1 & D2 & D3). specialize (Hle p). split_and!; [exact D1|lia|exact D3]. }
  intros p s Hps. destruct (N4 p s (Hin _ Hps)) as (Hpm & i & Hi & Es & Hc). split; [exact Hpm|]. exists i. split_and!; [exact Hi|exact Es|]. specialize (Hle p). lia.
Qed.

Lemma names_drop L r H f : names_ok L (r :: H) f -> names_ok L H f.
Proof.
  intros Hf. apply (names_sub L (r :: H)); [exact Hf|intros r' Hr'; by right|]. intros p. destruct r as [p' s']. rewrite refs_cons. destruct (decide _); lia.
Qed.

Lemma names_swap L r r' H f : names_ok L (r :: r' :: H) f -> names_ok L (r' :: r :: H) f.
Proof.
  intros Hf. apply (names_sub L (r :: r' :: H)); [exact Hf|set_solver|]. intros p. destruct r, r'. rewrite !refs_cons. lia.
Qed.

(** What a walk leaves alone: the disk, the files in memory, and directories
    other than its own. *)
Definition walked (f g : fs St) (own : list Z) : Prop :=
  same_disk f g /\ files g = files f /\ cwd g = cwd f /\
  (forall d, d ∉ own -> is_Some (dirs f !! d) -> dirs g !! d = dirs f !! d).

Lemma walked_rest f g own : same_rest f g -> walked f g own.
Proof. intros (H1 & H2 & H3 & H4). split_and!; [done..|]. intros d _ _. by rewrite H2. Qed.

Lemma walked_refl L H f own : names_ok L H f -> walked f f own.
Proof. intros Hf. apply walked_rest. split; [apply same_disk_refl; exact (inv_store L f (no_inv _ _ _ Hf))|done]. Qed.

Lemma walked_trans f g h own own' : walked f g own -> walked g h own' ->
  (forall d, d ∈ own' -> d ∈ own \/ dirs f !! d = None) -> walked f h own.
Proof.
  intros (A1 & A2 & A3 & A4) (B1 & B2 & B3 & B4) Ho. split_and!; [exact (same_disk_trans _ _ _ A1 B1)|congruence|congruence|].
  intros d Hd Hs. rewrite B4; [by apply A4| |by rewrite A4].
  intros Hd'. destruct (Ho d Hd') as [?|E]; [done|]. rewrite E in Hs. by destruct Hs.
Qed.

Lemma walked_close f g d own : same_disk f g -> files g = files f -> cwd g = cwd f -> dirs g = delete d (dirs f) -> d ∈ own -> walked f g own.
Proof.
  intros H1 H2 H3 H4 Hd. split_and!; [done..|]. intros d' Hd' _. rewrite H4, lookup_delete_ne; [done|]. intros ->. done.
Qed.

Lemma walked_open f g d x own : same_disk f g -> files g = files f -> cwd g = cwd f -> dirs g = <[d := x]> (dirs f) -> dirs f !! d = None -> walked f g own.
Proof.
  intros H1 H2 H3 H4 Hd. split_and!; [done..|]. intros d' _ Hs. rewrite H4, lookup_insert_ne; [done|]. intros ->. rewrite Hd in Hs. by destruct Hs.
Qed.

(** A directory of the walk: its pointer, its inode and its sector. *)
Definition at_dir (f : fs St) (d p s : Z) (L : list Z) : Prop :=
  d <> 0 /\ dirs f !! d = Some (mk_dir p 0) /\ s ∈ L /\ isdir_at f s = true.

Lemma at_dir_walked f g d p s L own : at_dir f d p s L -> walked f g own -> d ∉ own -> at_dir g d p s L.
Proof.
  intros (H1 & H2 & H3 & H4) (W1 & _ & _ & W4) Hd. split_and!; [done| |done|unfold isdir_at; by rewrite (same_isdir f g s W1)].
  rewrite W4; [done|done|by rewrite H2].
Qed.

(** The directory before this one, if there is one. *)
Definition at_prev (f : fs St) (prev : Z) (r : option (Z * Z)) (L : list Z) : Prop :=
  match r with
  | Some (p, s) => at_dir f prev p s L
  | None => prev = 0
  end.

Abbreviation prev_refs r := (match r with Some x => [x] | None => [] end).

Lemma close_prev_step L f prev r H : at_prev f prev r L -> names_ok L (prev_refs r ++ H) f ->
  exists g, close_prev al prev f = Done (tt, g) /\ names_ok L H g /\ walked f g [prev].
Proof.
  intros Hp Hf. unfold close_prev. destruct r as [[p s]|].
  - destruct Hp as (Hne & Hd & _). rewrite (proj2 (Z.eqb_neq _ _) Hne). cbn [negb].
    destruct (dir_close_step L H f prev (mk_dir p 0) s Hf Hd Hne) as (g & E & Hg & H1 & H2 & H3 & H4). exists g. split_and!; [exact E|exact Hg|].
    apply (walked_close f g prev); [done..|set_solver].
  - cbn in Hp. subst prev. exists f. split_and!; [done|exact Hf|]. exact (walked_refl L _ f _ Hf).
Qed.

(** What the walk returns: the directory at [r], or nothing. *)
Definition arrived (L : list Z) (H : list (Z * Z)) (g : fs St) (d : Z) (r : option Z) : Prop :=
  match r with
  | Some s => exists p, at_dir g d p s L /\ names_ok L ((p, s) :: H) g
  | None => d = 0 /\ names_ok L H g
  end.

Lemma at_dir_fresh f d p s L d' : at_dir f d p s L -> dirs f !! d' = None -> d <> d'.
Proof. intros (_ & Hd & _) E ->. congruence. Qed.

(** The ends of the walk. *)
Lemma stop_here L H f d p s prev r : at_dir f d p s L -> at_prev f prev r L -> d <> prev -> names_ok L ((p, s) :: prev_refs r ++ H) f ->
  exists g, bind (close_prev al prev) (fun _ => ret d) f = Done (d, g) /\ walked f g [d; prev] /\ arrived L H g d (Some s).
Proof.
  intros Hd Hp Hne Hf. destruct (close_prev_step L f prev r ((p, s) :: H) Hp) as (g & E & Hg & Hw).
  { apply (names_sub L ((p, s) :: prev_refs r ++ H)); [exact Hf|set_solver|]. intros x. destruct r as [[p' s']|]; cbn [app]; rewrite !refs_cons; lia. }
  exists g. rewrite (bind_done _ _ _ _ _ E). split_and!; [done| |].
  - destruct Hw as (W1 & W2 & W3 & W4). split_and!; [done..|]. intros d' Hd'. apply W4. set_solver.
  - exists p. split; [|exact Hg]. apply (at_dir_walked f g d p s L [prev] Hd Hw). set_solver.
Qed.

Lemma stop_lost L H f d p s prev r : at_dir f d p s L -> names_ok L ((p, s) :: prev_refs r ++ H) f ->
  exists g, bind (dir_close al d) (fun _ => ret 0) f = Done (0, g) /\ walked f g [d; prev] /\ arrived L H g 0 None.
Proof.
  intros (Hne & Hd & _) Hf. destruct (dir_close_step L (prev_refs r ++ H) f d (mk_dir p 0) s Hf Hd Hne) as (g & E & Hg & H1 & H2 & H3 & H4).
  exists g. rewrite (bind_done _ _ _ _ _ E). split_and!; [done|apply (walked_close f g d); [done..|set_solver]|]. split; [done|].
  destruct r; [exact (names_drop L _ H g Hg)|exact Hg].
Qed.

Lemma stop_end L H f d p s prev r : at_dir f d p s L -> at_prev f prev r L -> d <> prev -> names_ok L ((p, s) :: prev_refs r ++ H) f ->
  exists g, bind (dir_close al d) (fun _ => ret prev) f = Done (prev, g) /\ walked f g [d; prev] /\ arrived L H g prev (snd <$> r).
Proof.
  intros (Hne & Hd & _) Hp Hdp Hf. destruct (dir_close_step L (prev_refs r ++ H) f d (mk_dir p 0) s Hf Hd Hne) as (g & E & Hg & H1 & H2 & H3 & H4).
  assert (Hw : walked f g [d]) by (apply (walked_close f g d); [done..|set_solver]).
  exists g. rewrite (bind_done _ _ _ _ _ E). split_and!; [done|apply (walked_close f g d); [done..|set_solver]|].
  destruct r as [[p' s']|]; [|split; [exact Hp|exact Hg]]. exists p'. split; [|exact Hg]. apply (at_dir_walked f g prev p' s' L [d] Hp Hw). set_solver.
Qed.

Lemma next_status part fp : (15 <= length part)%nat -> nonzero fp -> Forall (fun w => length w <= 14)%nat (path_words fp) ->
  exists part' rest, get_next_part part fp = (match path_words fp with [] => 0 | _ => 1 end, part', rest).
Proof.
  intros Hl Hn Hw. pose proof (next_part_run part fp Hl Hn) as H. destruct (path_words fp) as [|w ws]; [by eexists _, _|].
  apply Forall_cons in Hw as [Hw _]. rewrite decide_True in H by exact Hw. destruct H as (part' & rest & -> & _). by exists part', rest.
Qed.

(** One step down: the directory [d] becomes the previous one. *)
Lemma descend L H f d p s prev r p' s' : at_dir f d p s L -> at_prev f prev r L -> d <> prev ->
  names_ok L ((p', s') :: (p, s) :: prev_refs r ++ H) f -> p' <> 0 -> s' ∈ L -> isdir_at f s' = true ->
  exists d' g, bind (close_prev al prev) (fun _ => dir_open al p') f = Done (d', g) /\ walked f g [prev] /\ (d' = prev \/ dirs f !! d' = None) /\ d' <> d /\
    at_dir g d' p' s' L /\ at_dir g d p s L /\ names_ok L ((p', s') :: (p, s) :: H) g.
Proof.
  intros Hd Hp Hne Hf Hp' HL' Hdir. destruct (close_prev_step L f prev r ((p', s') :: (p, s) :: H) Hp) as (g1 & E1 & Hg1 & W1).
  { apply (names_sub L ((p', s') :: (p, s) :: prev_refs r ++ H)); [exact Hf|set_solver|]. intros x. destruct r as [[pr sr]|]; cbn [app]; rewrite !refs_cons; lia. }
  destruct (dir_open_step L _ g1 p' Hg1 Hp') as (d' & g2 & E2 & Hg2 & S2 & Hd' & Hnew & Ed & Ef & Ec). exists d', g2.
  rewrite (bind_done _ _ _ _ _ E1). assert (W2 : walked g1 g2 []) by exact (walked_open g1 g2 d' _ [] S2 Ef Ec Ed Hnew).
  assert (W : walked f g2 [prev]) by (apply (walked_trans f g1 g2 _ [] W1 W2); set_solver).
  assert (Hdf : d' = prev \/ dirs f !! d' = None).
  { destruct (decide (d' = prev)); [by left|right]. destruct (dirs f !! d') eqn:E; [|done]. destruct W1 as (_ & _ & _ & W1).
    rewrite W1 in Hnew; [congruence|set_solver|by rewrite E]. }
  assert (Hdd : d' <> d).
  { intros ->. destruct (at_dir_walked f g1 d p s L [prev] Hd W1) as (_ & E & _); [set_solver|congruence]. }
  split_and!; [exact E2|exact W|exact Hdf|exact Hdd| |apply (at_dir_walked f g2 d p s L [prev] Hd W); set_solver|exact Hg2].
  split_and!; [exact Hd'|rewrite Ed; apply lookup_insert_eq|exact HL'|]. destruct W as (W & _). unfold isdir_at. by rewrite (same_isdir f g2 s' W).
Qed.

Lemma at_dir_rest f g d p s L : at_dir f d p s L -> same_rest f g -> at_dir g d p s L.
Proof. intros Hd Hr. apply (at_dir_walked f g d p s L []); [exact Hd|by apply walked_rest|set_solver]. Qed.

Lemma at_prev_rest f g prev r L : at_prev f prev r L -> same_rest f g -> at_prev g prev r L.
Proof. destruct r as [[p s]|]; [apply at_dir_rest|done]. Qed.

(** After a step on open inodes. *)
Lemma walk_after f g L H own r x o : same_rest f g ->
  (exists h, o g = Done (x, h) /\ walked g h own /\ arrived L H h x r) -> exists y h, o g = Done (y, h) /\ walked f h own /\ arrived L H h y r.
Proof.
  intros Hr (h & E & Hw & Ha). exists x, h. split_and!; [exact E| |exact Ha].
  apply (walked_trans f g h own own); [by apply walked_rest|exact Hw|by left].
Qed.

Lemma last_dir_loop_run L H fuel : forall f d p s prev r name fp, closed L f -> at_dir f d p s L -> at_prev f prev r L -> d <> prev ->
  names_ok L ((p, s) :: prev_refs r ++ H) f -> (15 <= length name)%nat -> nonzero fp -> Forall (fun w => length w <= 14)%nat (path_words fp) ->
  (length (path_words fp) < fuel)%nat ->
  exists x g, last_dir_loop al fuel d prev name fp f = Done (x, g) /\ walked f g [d; prev] /\
    arrived L H g x (last_dir f (snd <$> r) s (path_words fp)).
Proof.
  induction fuel as [|fuel IH]; intros f d p s prev r name fp Hcl Hd Hp Hne Hf Hl Hn Hw Hfuel; [lia|]. cbn [last_dir_loop].
  pose proof (next_part_run name fp Hl Hn) as Hnext. destruct (path_words fp) as [|w ws].
  { rewrite Hnext. change (0 =? 0) with true. cbv iota. exists prev. exact (stop_end L H f d p s prev r Hd Hp Hne Hf). }
  apply Forall_cons in Hw as [Hw Hws]. rewrite decide_True in Hnext by exact Hw. destruct Hnext as (part & rest & -> & Hpl & Hc & Er & Hnr & _).
  change (1 =? 0) with false. cbv iota. rewrite Hc. rewrite (bind_done _ _ f w f) by reflexivity. rewrite <- Er in Hws, Hfuel |- *.
  destruct (next_status part rest) as (part2 & rest2 & E2); [lia|exact Hnr|exact Hws|]. rewrite E2.
  pose proof Hd as (Hd0 & Hdd & HsL & Hdir). pose proof (lookup_step L _ f d (mk_dir p 0) s w Hf Hcl Hdd Hd0) as Hlook.
  cbn [last_dir]. destruct (dir_find f s w) as [s'|]; cbn [dir_inode] in Hlook.
  - destruct Hlook as (HL' & p' & g & E & Hp' & Hg & Hr); [left|exact HsL|exact Hdir|]. rewrite (bind_done _ _ _ _ _ E), (proj2 (Z.eqb_neq _ _) Hp').
    destruct (is_dir_step L _ g p' s' Hg) as (h & Eh & Hq); [left|]. rewrite (bind_done _ _ _ _ _ Eh).
    pose proof (same_rest_trans _ _ _ Hr (quiet_rest g h Hq)) as Hrest. pose proof (names_quiet L _ g h Hg Hq) as Hh.
    pose proof (at_dir_rest f h d p s L Hd Hrest) as Hdh. pose proof (at_prev_rest f h prev r L Hp Hrest) as Hph.
    assert (Eb : d_isdir (sector_of g s') = isdir_at f s') by (apply same_isdir, Hr). rewrite Eb. destruct (isdir_at f s') eqn:Ed; cbn [negb].
    + assert (Edh : isdir_at h s' = true) by (rewrite <- Ed; apply same_isdir, Hrest).
      destruct (descend L H h d p s prev r p' s' Hdh Hph Hne Hh Hp' HL' Edh) as (d' & k & Ek & Wk & Hdp & Hd'd & Hd' & Hdk & Hk).
      rewrite bind_bind, (bind_done _ _ _ _ _ Ek). assert (Sk : same_disk f k) by (apply (same_disk_trans f h); [apply Hrest|apply Wk]).
      destruct (IH k d' p' s' d (Some (p, s)) part rest (closed_same L f k Hcl Sk) Hd' Hdk Hd'd Hk) as (x & g' & Ex & Wx & Hx); [lia|exact Hnr|exact Hws|cbn in Hfuel; lia|].
      exists x, g'. split_and!; [exact Ex| |rewrite (same_last_dir f k Sk) in Hx; exact Hx].
      apply (walked_trans f h g' [d; prev] [d; prev; d']); [by apply walked_rest| |].
      * apply (walked_trans h k g' _ [d'; d]); [|exact Wx|set_solver]. destruct Wk as (K1 & K2 & K3 & K4). split_and!; [done..|]. intros y Hy. apply K4. set_solver.
      * intros y Hy. destruct Hrest as (_ & Er' & _). rewrite Er' in Hdp. set_solver.
    + apply (walk_after f h L H [d; prev] _ (match path_words rest with [] => d | _ => 0 end)); [exact Hrest|]. apply names_drop in Hh.
      destruct (path_words rest); [exact (stop_here L H h d p s prev r Hdh Hph Hne Hh)|exact (stop_lost L H h d p s prev r Hdh Hh)].
  - destruct Hlook as (g & E & Hg & Hr); [left|exact HsL|exact Hdir|]. rewrite (bind_done _ _ _ _ _ E). change (0 =? 0) with true. cbv iota.
    pose proof (at_dir_rest f g d p s L Hd Hr) as Hdg. pose proof (at_prev_rest f g prev r L Hp Hr) as Hpg.
    apply (walk_after f g L H [d; prev] _ (match path_words rest with [] => d | _ => 0 end)); [exact Hr|].
    destruct (path_words rest); [exact (stop_here L H g d p s prev r Hdg Hpg Hne Hg)|exact (stop_lost L H g d p s prev r Hdg Hg)].
Qed.

(** ** Where a path starts *)

Lemma dir_of_inode L H f p s : names_ok L ((p, s) :: H) f -> s ∈ L -> isdir_at f s = true ->
  exists d g, dir_open al p f = Done (d, g) /\ at_dir g d p s L /\ names_ok L ((p, s) :: H) g /\ walked f g [].
Proof.
  intros Hf HL Hd. destruct (held_opened L _ f p s Hf) as (_ & _ & _ & _ & Hp); [left|].
  destruct (dir_open_step L _ f p Hf Hp) as (d & g & E & Hg & Hs & Hd0 & Hnew & Ed & Ef & Ec). exists d, g. split_and!; [exact E| |exact Hg|].
  - split_and!; [exact Hd0|rewrite Ed; apply lookup_insert_eq|exact HL|]. unfold isdir_at. by rewrite (same_isdir f g s Hs).
  - exact (walked_open f g d _ [] Hs Ef Ec Ed Hnew).
Qed.

Lemma root_step L H f : names_ok L H f -> ROOT_DIR_SECTOR ∈ L -> isdir_at f ROOT_DIR_SECTOR = true ->
  exists d p g, dir_open_root al f = Done (d, g) /\ at_dir g d p ROOT_DIR_SECTOR L /\ names_ok L ((p, ROOT_DIR_SECTOR) :: H) g /\ walked f g [].
Proof.
  intros Hf HL Hd. destruct (open_step L H f _ Hf HL) as (p & g1 & E1 & H1 & R1 & _).
  destruct (dir_of_inode L H g1 p _ H1 HL) as (d & g & E & Hg & Hn & Hw); [unfold isdir_at; by rewrite (same_isdir f g1 _ (proj1 R1))|].
  exists d, p, g. unfold dir_open_root. rewrite (bind_done _ _ _ _ _ E1). split_and!; [exact E|exact Hg|exact Hn|].
  apply (walked_trans f g1 g [] []); [by apply walked_rest|exact Hw|set_solver].
Qed.

Lemma reopen_step L H f d x s : names_ok L H f -> dirs f !! d = Some x -> (dir_inode x, s) ∈ H -> s ∈ L -> isdir_at f s = true ->
  exists d' g, dir_reopen al d f = Done (d', g) /\ at_dir g d' (dir_inode x) s L /\ names_ok L ((dir_inode x, s) :: H) g /\ walked f g [].
Proof.
  intros Hf Hx Hin HL Hd. destruct (no_held _ _ _ Hf _ _ Hin) as (Hpm & i & Hi & Es & _). destruct (no_idle _ _ _ Hf _ i Hi Hpm) as (Hid & _).
  pose proof (table_open f (no_table _ _ _ Hf) _ i Hi) as [Hp _]. set (g1 := with_inodes f (<[dir_inode x := bump 1 i]> (inodes f))).
  assert (R1 : same_rest f g1) by (split; [apply same_disk_store; [exact (inv_store L f (no_inv _ _ _ Hf))|done..]|done]).
  destruct (dir_of_inode L H g1 (dir_inode x) s) as (d' & g & E & Hg & Hn & Hw).
  { by apply reopen_names. } { exact HL. } { exact Hd. }
  exists d', g. unfold dir_reopen. rewrite (bind_done _ _ f x f) by (unfold load_dir, bind, get; by rewrite Hx).
  rewrite (bind_done _ _ f (dir_inode x) g1) by (apply inode_reopen_run; [lia|exact Hi|exact Hid]). split_and!; [exact E|exact Hg|exact Hn|].
  apply (walked_trans f g1 g [] []); [by apply walked_rest|exact Hw|set_solver].
Qed.

(** The directory that a path is relative to. *)
Definition starts_at (f : fs St) (L : list Z) (H : list (Z * Z)) (fp : list Z) (s : Z) : Prop :=
  s ∈ L /\ isdir_at f s = true /\
  (if bool_decide (head fp = Some 47) then s = ROOT_DIR_SECTOR
   else cwd f = 0 /\ s = ROOT_DIR_SECTOR \/ exists x, dirs f !! cwd f = Some x /\ (dir_inode x, s) ∈ H).

(** The effect on the rest: a current directory may be chosen. *)
Definition moved (f g : fs St) : Prop := same_disk f g /\ files g = files f /\ (cwd g = cwd f \/ cwd f = 0).

Definition with_cwd (f : fs St) (d : Z) : fs St :=
  mk_fs (store f) (free_map f) (free_map_file f) (free_map_lock f) (open_inodes f)
    (open_inodes_lock f) (inodes f) (files f) (dirs f) d (next_ptr f) (oom f).

Lemma names_cwd L H f d : names_ok L H f -> names_ok L H (with_cwd f d).
Proof.
  intros [N1 N2 N3 ND N4 N5 N6 N7]. split; [|by destruct N2|exact N3|exact ND|exact N4|exact N5|exact N6|exact N7].
  apply (inv_same L f); [exact N1|by apply same_disk_store; [exact (inv_store L f N1)|..]|done..].
Qed.

Lemma reopen_cwd_step L H f s : names_ok L H f -> s ∈ L -> isdir_at f s = true ->
  (cwd f = 0 /\ s = ROOT_DIR_SECTOR \/ exists x, dirs f !! cwd f = Some x /\ (dir_inode x, s) ∈ H) ->
  exists d p g, reopen_cwd al f = Done (d, g) /\ at_dir g d p s L /\ names_ok L ((p, s) :: H) g /\ moved f g.
Proof.
  intros Hf HL Hd Hc. unfold reopen_cwd. rewrite (bind_done _ _ f f f) by reflexivity. destruct Hc as [[Ec ->]|(x & Hx & Hin)].
  - rewrite Ec. change (0 =? 0) with true. cbv iota. destruct (root_step L H f Hf HL Hd) as (d0 & p0 & g0 & E0 & D0 & N0 & W0).
    rewrite (bind_done _ _ f tt (with_cwd g0 d0)) by (rewrite (bind_done _ _ _ _ _ E0); reflexivity).
    pose proof (names_cwd L _ g0 d0 N0) as N1. set (g1 := with_cwd g0 d0) in *. rewrite (bind_done _ _ g1 g1 g1) by reflexivity.
    destruct D0 as (Dne & Dd & _ & Dir). destruct (reopen_step L _ g1 (cwd g1) (mk_dir p0 0) ROOT_DIR_SECTOR N1 Dd) as (d & g & E & Hg & Hn & Hw); [left|exact HL|exact Dir|].
    exists d, p0, g. split_and!; [exact E|exact Hg| |].
    + apply (names_sub L ((p0, ROOT_DIR_SECTOR) :: (p0, ROOT_DIR_SECTOR) :: H)); [exact Hn|set_solver|]. intros y. rewrite !refs_cons. destruct (decide _); lia.
    + destruct Hw as (W1 & W2 & _). destruct W0 as (V1 & V2 & _). split_and!; [|rewrite W2; exact V2|by right]. exact (same_disk_trans f g0 g V1 W1).
  - pose proof (no_dirs _ _ _ Hf (cwd f)) as Hne. rewrite Hx in Hne. destruct (Hne ltac:(by eexists)) as [Hpos _].
    rewrite (proj2 (Z.eqb_neq _ _)) by lia. rewrite bind_ret, (bind_done _ _ f f f) by reflexivity.
    destruct (reopen_step L H f (cwd f) x s Hf Hx Hin HL Hd) as (d & g & E & Hg & Hn & (W1 & W2 & W3 & _)). exists d, (dir_inode x), g.
    split_and!; [exact E|exact Hg|exact Hn|]. split_and!; [exact W1|exact W2|by left].
Qed.

Lemma get_last_dir_run L H f fp s depth : names_ok L H f -> closed L f -> starts_at f L H fp s -> fp <> [] -> nonzero fp ->
  Forall (fun w => length w <= 14)%nat (path_words fp) -> (length (path_words fp) < depth)%nat ->
  exists x g, get_last_dir al depth fp f = Done (x, g) /\ moved f g /\ arrived L H g x (last_dir f None s (path_words fp)).
Proof.
  intros Hf Hcl (HL & Hd & Hst) Hne Hn Hw Hfuel. destruct fp as [|c fp]; [done|]. unfold get_last_dir.
  assert (Hstart : exists d p g, (if c =? 47 then dir_open_root al else reopen_cwd al) f = Done (d, g) /\ at_dir g d p s L /\ names_ok L ((p, s) :: H) g /\ moved f g).
  { cbn [head] in Hst. destruct (Z.eqb_spec c 47) as [->|Hc].
    - rewrite bool_decide_true in Hst by done. subst s. destruct (root_step L H f Hf HL Hd) as (d & p & g & E & Hg & N & (W1 & W2 & W3 & _)).
      exists d, p, g. split_and!; [exact E|exact Hg|exact N|]. split_and!; [exact W1|exact W2|by left].
    - rewrite bool_decide_false in Hst by congruence. exact (reopen_cwd_step L H f s Hf HL Hd Hst). }
  destruct Hstart as (d & p & g & E & Hg & N & (M1 & M2 & M3)). rewrite (bind_done _ _ _ _ _ E).
  destruct (last_dir_loop_run L H depth g d p s 0 None (replicate 15 0) (c :: fp)) as (x & h & Ex & (W1 & W2 & W3 & _) & Hx).
  { exact (closed_same L f g Hcl M1). } { exact Hg. } { done. } { apply Hg. } { exact N. } { done. } { exact Hn. } { exact Hw. } { exact Hfuel. }
  exists x, h. split_and!; [exact Ex| |rewrite (same_last_dir f g M1) in Hx; exact Hx].
  split_and!; [exact (same_disk_trans f g h M1 W1)|congruence|]. rewrite W3. exact M3.
Qed.

(** What [filesys_open] returns for the file at [s]. *)
Definition opened_as (L : list Z) (H : list (Z * Z)) (f g : fs St) (x s : Z) (isdir : bool) : Prop :=
  x <> 0 /\ isdir = isdir_at f s /\ exists p, names_ok L ((p, s) :: H) g /\
    (if isdir then dirs g !! x = Some (mk_dir p 0) /\ files g = files f
     else files f !! x = None /\ files g = <[x := mk_file p 0 false]> (files f)).

Lemma open_found L H f d p s p2 s2 : names_ok L ((p2, s2) :: (p, s) :: H) f -> at_dir f d p s L ->
  exists x isdir g, (dir_close al d ;;
      let! b := is_dir p2 in
      if b : bool then let! d := dir_open al p2 in ret (d, true) else let! q := file_open al p2 in ret (q, false)) f = Done ((x, isdir), g) /\
    same_disk f g /\ cwd g = cwd f /\ opened_as L H f g x s2 isdir.
Proof.
  intros Hf (Hd0 & Hd & _). apply names_swap in Hf. destruct (dir_close_step L _ f d (mk_dir p 0) s Hf Hd Hd0) as (g & E & Hg & S1 & Ed & Ef & Ec).
  rewrite (bind_done _ _ _ _ _ E). destruct (is_dir_step L _ g p2 s2 Hg) as (h & E2 & Q2); [left|]. rewrite (bind_done _ _ _ _ _ E2).
  pose proof (names_quiet L _ g h Hg Q2) as Hh. destruct (quiet_rest g h Q2) as (R1 & R2 & R3 & R4). pose proof (same_disk_trans f g h S1 R1) as S2.
  destruct (held_opened L _ h p2 s2 Hh) as (_ & _ & _ & _ & Hp2); [left|].
  assert (Eb : d_isdir (sector_of g s2) = isdir_at f s2) by (by apply same_isdir). rewrite Eb. destruct (isdir_at f s2) eqn:Edir.
  - destruct (dir_open_step L _ h p2 Hh Hp2) as (x & k & E3 & Hk & S3 & Hx & _ & Ed3 & Ef3 & Ec3). exists x, true, k. rewrite (bind_done _ _ _ _ _ E3).
    split_and!; [done|exact (same_disk_trans f h k S2 S3)|congruence|]. split_and!; [exact Hx|by rewrite Edir|]. exists p2.
    split; [exact Hk|]. split; [rewrite Ed3; apply lookup_insert_eq|congruence].
  - destruct (file_open_step L _ h p2 Hh Hp2) as (x & k & E3 & Hk & S3 & Hx & Hnew & Ef3 & Ed3 & Ec3). exists x, false, k. rewrite (bind_done _ _ _ _ _ E3).
    split_and!; [done|exact (same_disk_trans f h k S2 S3)|congruence|]. split_and!; [exact Hx|by rewrite Edir|]. exists p2.
    split; [exact Hk|]. split; congruence.
Qed.

Lemma filesys_open_run L H f fp s depth frame b : names_ok L H f -> closed L f -> starts_at f L H fp s -> nonzero fp ->
  path_words fp <> [] -> Forall (fun w => length w <= 14)%nat (path_words fp) -> (length (path_words fp) < depth)%nat -> (15 <= length frame)%nat ->
  exists x isdir g, filesys_open al depth frame fp b f = Done ((x, isdir), g) /\ same_disk f g /\ (cwd g = cwd f \/ cwd f = 0) /\
    match resolve f s (path_words fp) with
    | Some s' => opened_as L H f g x s' isdir
    | None => x = 0 /\ names_ok L H g /\ files g = files f
    end.
Proof.
  intros Hf Hcl Hst Hn Hne Hw Hdepth Hframe. unfold filesys_open. rewrite bool_decide_false by (intros ->; done).
  assert (Hfp : fp <> []) by (intros ->; done).
  destruct (get_last_dir_run L H f fp s depth Hf Hcl Hst Hfp Hn Hw Hdepth) as (d & g & E & (M1 & M2 & M3) & Ha). rewrite (bind_done _ _ _ _ _ E).
  destruct (last (path_words fp)) as [w|] eqn:El; [|by apply last_None in El]. rewrite (resolve_last f _ w None s El).
  destruct (last_dir f None s (path_words fp)) as [s1|].
  2: { destruct Ha as [-> Hg]. change (0 =? 0) with true. cbv iota. exists 0, b, g. split_and!; [done|exact M1|exact M3|done|exact Hg|exact M2]. }
  destruct Ha as (p & Hd & Hg). pose proof Hd as (Hd0 & Hdd & HL & Hdir). rewrite (proj2 (Z.eqb_neq _ _) Hd0).
  destruct (filename_run (S (length fp)) fp frame Hframe Hn Hw) as (name & En & _ & Hc); [lia|]. unfold get_filename_from_path. rewrite En. rewrite El in Hc. rewrite Hc.
  rewrite (bind_done _ _ g w g) by reflexivity. pose proof (lookup_step L _ g d (mk_dir p 0) s1 w Hg (closed_same L f g Hcl M1) Hdd Hd0) as Hlook. cbn [dir_inode] in Hlook.
  rewrite (same_find f g s1 w M1) in Hlook. destruct (dir_find f s1 w) as [s2|].
  - destruct Hlook as (HL2 & p2 & h & E2 & Hp2 & Hh & R2); [left|exact HL|exact Hdir|]. rewrite (bind_done _ _ _ _ _ E2), (proj2 (Z.eqb_neq _ _) Hp2).
    destruct (open_found L H h d p s1 p2 s2 Hh (at_dir_rest g h d p s1 L Hd R2)) as (x & isdir & k & E3 & S3 & C3 & (O1 & O2 & O3)).
    destruct R2 as (R1 & R2 & R3 & R4). pose proof (same_disk_trans f g h M1 R1) as Sh. exists x, isdir, k.
    split_and!; [exact E3|exact (same_disk_trans f h k Sh S3)|rewrite C3, R4; exact M3|]. split_and!; [exact O1|rewrite O2; by apply same_isdir|].
    destruct O3 as (p3 & N3 & O3). exists p3. split; [exact N3|]. replace (files h) with (files f) in O3 by congruence. exact O3.
  - destruct Hlook as (h & E2 & Hh & R2); [left|exact HL|exact Hdir|]. rewrite (bind_done _ _ _ _ _ E2). change (0 =? 0) with true. cbv iota.
    destruct R2 as (R1 & R2 & R3 & R4). exists 0, b, h. split_and!; [done|exact (same_disk_trans f g h M1 R1)|rewrite R4; exact M3|done|exact (names_drop L _ H h Hh)|congruence].
Qed.
End walk.
