(* ===== verification/FileSteps.v ===== *)
(** * Open files and the names

    Reading, seeking and denying writes through a handle, as steps that keep
    [names_ok]. *)

From stdpp Require Import options.
From S2P Require Import Prelude Bytes Bitmap Block Store Inode InodeTree InodeGrow InodeShrink InodeResize InodeRollback InodeExtend InodeIO.
From S2P Require Import InodeWrite InodeLife File FreeMap FileProps Directory DirSpec NameInv PathWalk.
Local Open Scope Z_scope.
Local Open Scope kernel_scope.

Section steps.
Context {St : Type} `{!SectorStore St} {q pm : Z} {im : inode} {priv : Z -> Prop}.
Implicit Types (f g h : fs St) (p s x : Z) (i : inode) (L : list Z) (H : list (Z * Z)).
Abbreviation names_ok := (names_ok (q := q) (pm := pm) (im := im) (priv := priv)).
Abbreviation al := (@the_free_map St _).

(** [x] is a handle at [pos] on the file at [s], and not the free map's. *)
Record handle (f : fs St) (x p s pos : Z) (deny : bool) : Prop := {
  h_file : files f !! x = Some (mk_file p pos deny);
  h_null : x <> 0 /\ x <> q;
  h_inode : p <> pm /\ exists i, inodes f !! p = Some i /\ i_sector i = s
}.

(** The effect of a call on the handle [x] alone. *)
Definition only_handle (f g : fs St) (x : Z) : Prop :=
  same_disk f g /\ dirs g = dirs f /\ cwd g = cwd f /\ forall y, y <> x -> files g !! y = files f !! y.

Lemma only_handle_trans f g h x : only_handle f g x -> only_handle g h x -> only_handle f h x.
Proof.
  intros (A1 & A2 & A3 & A4) (B1 & B2 & B3 & B4). split_and!; [exact (same_disk_trans f g h A1 B1)|congruence|congruence|].
  intros y Hy. by rewrite B4, A4.
Qed.

Lemma handle_opened L H f x p s pos deny : names_ok L H f -> handle f x p s pos deny ->
  exists i, i_sector i = s /\ opened (priv := priv) p i f /\ readable i /\ inodes f !! p = Some i /\ s ∈ L.
Proof.
  intros Hf [_ _ (Hpm & i & Hi & Es)]. destruct (no_idle _ _ _ Hf p i Hi Hpm) as ([Hr _] & _ & HL).
  exists i. split_and!; [exact Es|exact (inv_opened f p i (no_inv _ _ _ Hf) Hi HL)|exact Hr|exact Hi|by rewrite <- Es].
Qed.

Lemma load_handle f x p s pos deny : handle f x p s pos deny -> load_file x f = Done (mk_file p pos deny, f).
Proof. intros [Hx _ _]. unfold load_file, bind, get. by rewrite Hx. Qed.

(** Moving a handle. *)
Lemma move_handle L H f g x p s pos deny pos' : names_ok L H f -> handle f x p s pos deny -> quiet f g ->
  let h := with_objects g (<[x := mk_file p pos' deny]> (files g)) (dirs g) in
  names_ok L H h /\ handle h x p s pos' deny /\ only_handle f h x.
Proof.
  intros Hf [Hx [Hx0 Hxq] Hi] Hq h. pose proof (names_quiet L H f g Hf Hq) as Hg. pose proof (quiet_same f g Hq) as Hs.
  destruct Hq as (_ & _ & He & _). unfold env in He. injection He. intros. split_and!.
  - apply names_objects; [exact Hg|by rewrite lookup_insert_ne|exact (no_dirs _ _ _ Hg)|].
    intros y. destruct (decide (x = y)) as [<-|Hne]; [|rewrite lookup_insert_ne by done; apply (no_files _ _ _ Hg)].
    intros _. apply (no_files _ _ _ Hg). replace (files g) with (files f) by congruence. by rewrite Hx.
  - split; [apply lookup_insert_eq|done|]. cbn. by replace (inodes g) with (inodes f) by congruence.
  - split_and!; [exact (same_disk_trans f g h Hs (same_disk_store g h ltac:(apply Hs) eq_refl eq_refl))|cbn; congruence|cbn; congruence|].
    intros y Hy. cbn. rewrite lookup_insert_ne by done. congruence.
Qed.

Lemma file_read_step L H f x p s pos deny n : names_ok L H f -> handle f x p s pos deny -> 0 <= pos < 2 ^ 31 - MAX_FILE_BYTES -> 0 <= n < 2 ^ 32 ->
  exists g, file_read x n f = Done (file_slice f s n pos, g) /\ names_ok L H g /\
    handle g x p s (pos + Z.of_nat (length (file_slice f s n pos))) deny /\ only_handle f g x.
Proof.
  intros Hf Hh Hpos Hn. destruct (handle_opened L H f x p s pos deny Hf Hh) as (i & Es & Ho & Hr & Hi & _).
  unfold file_read. rewrite (bind_done _ _ _ _ _ (load_handle _ _ _ _ _ _ Hh)). cbn [f_inode f_pos deny_write].
  assert (Hp : 0 <= pos < 2 ^ 31) by (unfold MAX_FILE_BYTES in Hpos; lia).
  rewrite !u32_small by lia. destruct (inode_read_at_run (priv := priv) p i f n pos Ho Hr Hp Hn) as (g & E & Hq).
  rewrite Es in E. rewrite (bind_done _ _ _ _ _ E). set (data := file_slice f s n pos) in *.
  destruct (move_handle L H f g x p s pos deny (pos + Z.of_nat (length data)) Hf Hh Hq) as (N & N2 & N3).
  assert (Hlen : Z.of_nat (length data) <= MAX_FILE_BYTES).
  { unfold data, file_slice. rewrite length_map, length_seqZ. pose proof (file_length_bound p i f Ho) as Hb. rewrite Es in Hb. lia. }
  assert (El : load_file x g = Done (mk_file p pos deny, g)).
  { unfold load_file, bind, get. destruct Hq as (_ & _ & He & _). unfold env in He. injection He. intros. replace (files g) with (files f) by congruence.
    by rewrite (h_file _ _ _ _ _ _ Hh). }
  rewrite (bind_done _ _ _ _ _ El). cbn [f_inode f_pos deny_write]. rewrite i32_small by (unfold is_i32, MAX_FILE_BYTES in *; lia).
  eexists. split; [reflexivity|]. split_and!; [exact N|exact N2|exact N3].
Qed.

Lemma file_seek_step L H f x p s pos deny n : names_ok L H f -> handle f x p s pos deny -> 0 <= n ->
  exists g, file_seek x n f = Done (tt, g) /\ names_ok L H g /\ handle g x p s n deny /\ only_handle f g x.
Proof.
  intros Hf Hh Hn. destruct (move_handle L H f f x p s pos deny n Hf Hh (quiet_refl f (inv_store L f (no_inv _ _ _ Hf)))) as (N1 & N2 & N3).
  eexists. split; [|split_and!; [exact N1|exact N2|exact N3]]. unfold file_seek. destruct (h_null _ _ _ _ _ _ Hh) as [Hx _].
  rewrite assert_true by by rewrite (proj2 (Z.eqb_neq _ _) Hx). rewrite assert_true by by apply Z.leb_le.
  by rewrite (bind_done _ _ _ _ _ (load_handle _ _ _ _ _ _ Hh)).
Qed.

Lemma file_length_step L H f x p s pos deny : names_ok L H f -> handle f x p s pos deny ->
  exists g, file_length x f = Done (file_len f s, g) /\ names_ok L H g /\ handle g x p s pos deny /\ only_handle f g x.
Proof.
  intros Hf Hh. destruct (handle_opened L H f x p s pos deny Hf Hh) as (i & Es & Ho & _). destruct (inode_length_run p i f Ho) as (g & E & Hq). rewrite Es in E.
  exists g. unfold file_length. destruct Hh as [H1 [H2 H3] H4]. rewrite assert_true by by rewrite (proj2 (Z.eqb_neq _ _) H2).
  rewrite (bind_done _ _ f (mk_file p pos deny) f) by (unfold load_file, bind, get; by rewrite H1). pose proof (quiet_same f g Hq) as Hs.
  pose proof (names_quiet L H f g Hf Hq) as Hg. destruct Hq as (_ & _ & He & _). unfold env in He. injection He. intros.
  split_and!; [exact E|exact Hg| |split_and!; [exact Hs|congruence|congruence|intros y _; congruence]].
  split; [congruence|done|]. by replace (inodes g) with (inodes f) by congruence.
Qed.

(** *** Denying writes *)

Lemma deny_names L H f p s i : names_ok L ((p, s) :: H) f -> inodes f !! p = Some i -> d_isdir (sector_of f s) = false ->
  names_ok L H (with_inodes f (<[p := set_deny i (deny_write_cnt i + 1)]> (inodes f))).
Proof.
  intros Hf Hi Hreg. pose proof Hf as [N1 N2 N3 ND N4 N5 N6 N7]. destruct (N4 p s) as (Hpm & i0 & Hi0 & Es & _); [left|]. assert (i0 = i) as -> by congruence.
  destruct (N3 p i Hi Hpm) as (I1 & I2 & I3). destruct (ND p i Hi Hpm) as (D1 & D2 & D3). rewrite refs_cons, decide_True in D2 by done.
  split; [| | | | |exact N5|exact N6|exact N7].
  - apply (inv_same L f); [exact N1|apply same_disk_store; [exact (inv_store L f N1)|done|done]|done|done| |done]. cbn. by rewrite lookup_insert_ne by done.
  - destruct N2 as [T1 T2 T3 T4 T5 T6]. split; cbn; [exact T1| | | |exact T5|exact T6].
    + intros p'. rewrite T2. destruct (decide (p = p')) as [<-|Hne]; [rewrite lookup_insert_eq, Hi; split; intros _; by eexists|by rewrite lookup_insert_ne].
    + intros p1 p2 i1 i2 H1 H2 E. assert (Hback : forall p' i', <[p := set_deny i (deny_write_cnt i + 1)]> (inodes f) !! p' = Some i' -> exists i0, inodes f !! p' = Some i0 /\ i_sector i0 = i_sector i').
      { intros p' i'. destruct (decide (p = p')) as [<-|Hne]; [rewrite lookup_insert_eq; intros [= <-]; by exists i|rewrite lookup_insert_ne by done; intros ?; by exists i']. }
      destruct (Hback p1 i1 H1) as (j1 & J1 & E1), (Hback p2 i2 H2) as (j2 & J2 & E2). apply (T3 p1 p2 j1 j2 J1 J2). congruence.
    + intros p' i'. destruct (decide (p = p')) as [<-|Hne]; [rewrite lookup_insert_eq; intros [= <-]; exact (T4 p i Hi)|rewrite lookup_insert_ne by done; apply T4].
  - intros p' i'. cbn. destruct (decide (p = p')) as [<-|Hne]; [rewrite lookup_insert_eq|rewrite lookup_insert_ne by done; apply N3].
    intros [= <-] _. split_and!; [exact I1|exact I2|exact I3].
  - intros p' i'. cbn -[refs]. destruct (decide (p = p')) as [<-|Hne]; [rewrite lookup_insert_eq|rewrite lookup_insert_ne by done].
    + intros [= <-] _. split_and!; [cbn; lia|cbn; lia|]. intros Hd. exfalso. change (d_isdir (sector_of f (i_sector i)) = true) in Hd. congruence.
    + intros Hi' Hp'. pose proof (ND p' i' Hi' Hp') as D. by rewrite refs_cons, decide_False, Z.add_0_r in D.
  - intros p' s' Hin. destruct (N4 p' s') as (Hpm' & i' & Hi' & Es' & Hle); [by right|]. rewrite refs_cons in Hle. cbn. split; [exact Hpm'|].
    destruct (decide (p = p')) as [<-|Hne].
    + exists (set_deny i (deny_write_cnt i + 1)). rewrite lookup_insert_eq. assert (i' = i) as -> by congruence. split_and!; [done|exact Es'|cbn; lia].
    + exists i'. rewrite lookup_insert_ne by done. split_and!; [exact Hi'|exact Es'|lia].
Qed.

(** The reference of the handle is now that of its denial. *)
Lemma file_deny_step L H f x p s pos : names_ok L ((p, s) :: H) f -> files f !! x = Some (mk_file p pos false) -> x <> 0 -> x <> q ->
  d_isdir (sector_of f s) = false ->
  exists g, file_deny_write x f = Done (tt, g) /\ names_ok L H g /\ handle g x p s pos true /\ only_handle f g x.
Proof.
  intros Hf Hx Hx0 Hxq Hreg. destruct (no_held _ _ _ Hf p s ltac:(left)) as (Hpm & i & Hi & Es & _).
  destruct (no_idle _ _ _ Hf p i Hi Hpm) as (Hid & _). destruct (no_deny _ _ _ Hf p i Hi Hpm) as (_ & D2 & _). rewrite refs_cons, decide_True in D2 by done.
  pose proof (refs_pos H p) as Hr. pose proof (inv_store L f (no_inv _ _ _ Hf)) as Hst.
  set (f1 := with_objects f (<[x := mk_file p pos true]> (files f)) (dirs f)). set (j := set_deny i (deny_write_cnt i + 1)).
  assert (Hf1 : names_ok L ((p, s) :: H) f1).
  { apply names_objects; [exact Hf|by rewrite lookup_insert_ne|exact (no_dirs _ _ _ Hf)|]. intros y.
    destruct (decide (x = y)) as [<-|Hne]; [|rewrite lookup_insert_ne by done; apply (no_files _ _ _ Hf)]. intros _. apply (no_files _ _ _ Hf). by rewrite Hx. }
  exists (with_inodes f1 (<[p := j]> (inodes f1))). split_and!.
  - unfold file_deny_write. rewrite assert_true by by rewrite (proj2 (Z.eqb_neq _ _) Hx0).
    rewrite (bind_done _ _ f (mk_file p pos false) f) by (unfold load_file, bind, get; by rewrite Hx). cbn [deny_write negb f_inode f_pos].
    rewrite (bind_done _ _ f tt f1) by reflexivity. unfold inode_deny_write.
    rewrite (bind_done _ _ _ _ _ (writer_checkin_run p i f1 Hi Hid)). set (f2 := with_inodes f1 _).
    rewrite (bind_done _ _ f2 (set_counts i 1 0) f2) by (apply load_inode_at; apply lookup_insert_eq).
    rewrite (bind_done _ _ f2 tt (with_inodes f2 (<[p := set_counts j 1 0]> (inodes f2)))) by reflexivity.
    rewrite assert_true by (apply Z.leb_le; cbn; lia).
    rewrite (writer_checkout_run p j); [|apply lookup_insert_eq|exact Hid]. unfold with_inodes. cbn. by rewrite !insert_insert_eq.
  - apply (deny_names L H f1 p s i Hf1 Hi). exact Hreg.
  - split; [apply lookup_insert_eq|done|]. split; [exact Hpm|]. exists j. split; [apply lookup_insert_eq|exact Es].
  - split_and!; [by apply same_disk_store|done|done|]. intros y Hy. cbn. by rewrite lookup_insert_ne.
Qed.
End steps.
