(* ===== verification/DirWrite.v ===== *)
(** * Adding a name

    [dir_add] writes an entry into the first free slot or at the end.  A name
    that it added is found afterwards, with the sector it was given: the write
    may zero other entries of the same sector, but that never makes another
    entry match. *)

From stdpp Require Import options.
From S2P Require Import Prelude Bytes Bitmap Block Store Inode InodeTree InodeGrow InodeShrink InodeResize InodeRollback InodeExtend InodeIO.
From S2P Require Import InodeWrite InodeLife File FreeMap FileProps Directory DirSpec NameInv.
Local Open Scope Z_scope.
Local Open Scope kernel_scope.

(** ** The entry that is written *)

Definition new_dir_entry (sector : Z) (name e : list Z) : list Z := set_e_sector sector (set_e_name name (set_e_in_use true e)).

(** A name that fits an entry. *)
Definition good_name (name : list Z) : Prop := name <> [] /\ (length name <= 14)%nat /\ Forall (fun c => 0 < c < 256) name.

Section entry.
Context (sector : Z) (name e : list Z).
Hypothesis Hn : good_name name.
Hypothesis He : length e = 20%nat.

Lemma set_in_use_length : length (set_e_in_use true e) = 20%nat.
Proof using He. unfold set_e_in_use. rewrite length_patch; [exact He|]. rewrite He. cbn. lia. Qed.

Lemma set_name_length : length (set_e_name name (set_e_in_use true e)) = 20%nat.
Proof using He.
  unfold set_e_name. rewrite length_patch; [exact set_in_use_length|]. rewrite set_in_use_length, length_app, length_take. cbn [length]. lia.
Qed.

Lemma new_entry_length : length (new_dir_entry sector name e) = 20%nat.
Proof using He.
  unfold new_dir_entry, set_e_sector. rewrite length_patch; [exact set_name_length|]. rewrite set_name_length, length_le_encode. lia.
Qed.

Lemma new_entry_bytes : Forall is_byte e -> Forall is_byte (new_dir_entry sector name e).
Proof using Hn He.
  intros Hb. destruct Hn as (_ & _ & Hc). unfold new_dir_entry, set_e_sector, set_e_name, set_e_in_use.
  apply Forall_patch; [apply le_encode_bytes|]. apply Forall_patch; [|apply Forall_patch; [repeat constructor; lia|exact Hb]].
  apply Forall_app. split; [apply Forall_take|repeat constructor; lia]. apply (Forall_impl _ _ _ Hc). unfold is_byte. lia.
Qed.

Lemma new_entry_lookup k : (k < 20)%nat -> new_dir_entry sector name e !! k =
  if decide (k < 4)%nat then le_encode 4 sector !! k
  else if decide (k < 4 + S (length name))%nat then (name ++ [0]) !! (k - 4)%nat
  else if decide (k = 19)%nat then Some 1 else e !! k.
Proof using Hn He.
  intros Hk. destruct Hn as (_ & Hl & _). unfold new_dir_entry, set_e_sector. rewrite lookup_patch by (rewrite set_name_length, length_le_encode; lia).
  rewrite length_le_encode. destruct (decide (k < 4)%nat); [rewrite decide_True by lia; f_equal; lia|]. rewrite decide_False by lia.
  unfold set_e_name. rewrite (take_ge name) by lia. rewrite lookup_patch by (rewrite set_in_use_length, length_app; cbn; lia). rewrite length_app. cbn [length].
  destruct (decide (k < 4 + S (length name))%nat); [by rewrite decide_True by lia|]. rewrite decide_False by lia.
  unfold set_e_in_use. rewrite lookup_patch by (rewrite He; cbn; lia). cbn [length].
  destruct (decide (k = 19)%nat) as [->|]; [by rewrite decide_True by lia|by rewrite decide_False by lia].
Qed.

Lemma new_entry_sector : is_u32 sector -> e_inode_sector (new_dir_entry sector name e) = sector.
Proof using He.
  intros Hs. unfold e_inode_sector, new_dir_entry, set_e_sector. rewrite slice_patch_len.
  - rewrite le_decode_encode. apply Z.mod_small. exact Hs.
  - apply length_le_encode.
  - rewrite set_name_length. lia.
Qed.

Lemma new_entry_in_use : e_in_use (new_dir_entry sector name e) = true.
Proof using Hn He.
  unfold e_in_use. rewrite nth_lookup, new_entry_lookup by lia. destruct Hn as (_ & Hl & _). rewrite decide_False by lia.
  by rewrite decide_False by lia.
Qed.

Lemma same_name_self (l r : list Z) : same_name l (l ++ 0 :: r) = true.
Proof. induction l as [|x l IH]; [done|]. cbn. by rewrite Z.eqb_refl. Qed.

Lemma new_entry_name : same_name name (e_name (new_dir_entry sector name e)) = true.
Proof using Hn He.
  assert (E : exists r, e_name (new_dir_entry sector name e) = name ++ 0 :: r); [|destruct E as [r ->]; apply same_name_self].
  pose proof Hn as (_ & Hl & _). exists (drop (S (length name)) (e_name (new_dir_entry sector name e))).
  rewrite <- (take_drop (S (length name)) (e_name (new_dir_entry sector name e))) at 1.
  rewrite cons_middle, (assoc_L (++)). f_equal. apply list_eq. intros k. destruct (decide (k < S (length name))%nat) as [Hk|Hk].
  - rewrite lookup_take_lt by lia. unfold e_name. rewrite lookup_slice, new_entry_lookup by lia.
    rewrite decide_False, decide_True by lia. f_equal. lia.
  - rewrite lookup_take_ge by lia. symmetry. apply lookup_ge_None. rewrite length_app. cbn [length]. lia.
Qed.

Lemma new_entry_named : named name (new_dir_entry sector name e) = true.
Proof using Hn He. unfold named. by rewrite new_entry_in_use, new_entry_name. Qed.
End entry.

(** ** The directory afterwards *)

Section slot.
Context {St : Type} `{!SectorStore St}.
Implicit Types (f g : fs St) (s k b : Z) (name e : list Z).

(** Entry [k] of the directory at [s] was written; what else changed was
    zeroed, whole sectors at a time. *)
Record slot_written (f g : fs St) (s k : Z) (e : list Z) : Prop := {
  sw_cnt : entry_cnt g s = Z.max (entry_cnt f s) (k + 1);
  sw_new : entry_at g s k = e;
  sw_old : exists z : Z -> bool, forall b, 0 <= b < 20 * entry_cnt f s -> ~ 20 * k <= b < 20 * k + 20 ->
    file_byte g s b = if z (b / 512) then 0 else file_byte f s b
}.

Lemma two_sectors b1 b b2 : b1 <= b <= b2 -> b2 - b1 < 512 -> b / 512 = b1 / 512 \/ b / 512 = b2 / 512.
Proof.
  intros H1 H2. assert (b1 / 512 <= b / 512) by (apply Z.div_le_mono; lia). assert (b / 512 <= b2 / 512) by (apply Z.div_le_mono; lia).
  assert (b2 / 512 <= b1 / 512 + 1); [|lia]. rewrite <- (Z.div_add b1 1 512) by lia. apply Z.div_le_mono; lia.
Qed.

(** No entry starts to match. *)
Lemma named_kept f g s k e j name : slot_written f g s k e -> good_name name -> 0 <= j < entry_cnt f s -> j <> k ->
  named name (entry_at g s j) = true -> named name (entry_at f s j) = true.
Proof.
  intros [_ _ [z Hz]] (Hne & Hlen & Hn) Hj Hjk [Hu Hm]%andb_true_iff. unfold named.
  assert (Hb : forall t : nat, (t < 20)%nat -> file_byte g s (20 * j + Z.of_nat t) =
    if z ((20 * j + Z.of_nat t) / 512) then 0 else file_byte f s (20 * j + Z.of_nat t)) by (intros t Ht; apply Hz; lia).
  pose proof (Hb 19%nat ltac:(lia)) as B19. pose proof (Hb 4%nat ltac:(lia)) as B4. change (Z.of_nat 19) with 19 in B19. change (Z.of_nat 4) with 4 in B4.
  assert (Z19 : z ((20 * j + 19) / 512) = false).
  { unfold e_in_use in Hu. rewrite nth_lookup, entry_lookup in Hu by lia. change (Z.of_nat 19) with 19 in Hu. cbn [default from_option id] in Hu.
    rewrite B19 in Hu. destruct (z ((20 * j + 19) / 512)); done. }
  assert (Z4 : z ((20 * j + 4) / 512) = false).
  { destruct name as [|x name]; [done|]. apply Forall_cons in Hn as [Hx _]. unfold e_name in Hm.
    assert (E : slice 4 15 (entry_at g s j) !! 0%nat = Some (file_byte g s (20 * j + 4))) by (rewrite lookup_slice, entry_lookup by lia; done).
    destruct (slice 4 15 (entry_at g s j)) as [|c l]; [done|]. injection E as ->. cbn in Hm. apply andb_true_iff in Hm as [Hx'%Z.eqb_eq _].
    rewrite B4 in Hx'. destruct (z ((20 * j + 4) / 512)); [lia|done]. }
  assert (Hsame : forall t : nat, (4 <= t < 20)%nat -> entry_at g s j !! t = entry_at f s j !! t).
  { intros t Ht. rewrite !entry_lookup, Hb by lia. destruct (two_sectors (20 * j + 4) (20 * j + Z.of_nat t) (20 * j + 19)) as [->| ->]; [lia|lia|by rewrite Z4|by rewrite Z19]. }
  apply andb_true_iff. split.
  - unfold e_in_use in *. rewrite nth_lookup, <- Hsame by lia. by rewrite nth_lookup in Hu.
  - unfold e_name in *. replace (slice 4 15 (entry_at f s j)) with (slice 4 15 (entry_at g s j)); [exact Hm|]. apply list_eq. intros t.
    destruct (decide (t < 15)%nat) as [Ht|Ht]; [rewrite !lookup_slice by lia; apply Hsame; lia|].
    rewrite !lookup_ge_None_2; [done|rewrite length_slice; rewrite ?length_entry; lia..].
Qed.

Lemma find_none f s name : dir_find f s name = None -> forall j, 0 <= j < entry_cnt f s -> named name (entry_at f s j) = false.
Proof.
  intros H j Hj. unfold dir_find, find_slot in H. pose proof (find_from_spec f s (named name) 0 (Z.to_nat (entry_cnt f s))) as Hs.
  destruct (find_from _ _ _ _ _); [done|]. apply Hs. lia.
Qed.

Lemma slot_found f g s k sector name e : slot_written f g s k (new_dir_entry sector name e) -> good_name name -> length e = 20%nat -> is_u32 sector ->
  0 <= k <= entry_cnt f s -> dir_find f s name = None -> dir_find g s name = Some sector.
Proof.
  intros Hw Hn He Hsec Hk Hnone. pose proof Hw as [Hc Hnew _]. unfold dir_find. rewrite (find_slot_unique g s (named name) k).
  - cbn. rewrite Hnew. f_equal. by apply new_entry_sector.
  - lia.
  - rewrite Hnew. by apply new_entry_named.
  - intros j Hj Hjk. destruct (named name (entry_at g s j)) eqn:E; [|done]. apply (named_kept f g s k _ j name Hw Hn) in E; [|lia|done].
    rewrite (find_none f s name Hnone j) in E by lia. done.
Qed.
End slot.

(** ** dir_add *)

Section add.
Context {St : Type} `{!SectorStore St} {q pm : Z} {im : inode} {priv : Z -> Prop} {L : list Z}.
Implicit Types (f g : fs St) (p s d k : Z) (i : inode) (name e : list Z).
Abbreviation inv := (fs_inv q pm im priv).
Abbreviation fm_ok := (fm_ok q pm im priv).

Section one_write.
Context (f g : fs St) (p : Z) (i : inode) (e : list Z) (k : Z).
Abbreviation s := (i_sector i).
Hypothesis Hf : inv L f.
Hypothesis Hi : inodes f !! p = Some i.
Hypothesis HL : s ∈ L.
Hypothesis He : length e = 20%nat.
Hypothesis Hk : 0 <= k <= entry_cnt f s.

Lemma take_entry : take (Z.to_nat 20) e = e.
Proof using He. apply take_ge. rewrite He. done. Qed.

Lemma entry_bytes h : (forall b, 20 * k <= b < 20 * k + 20 -> file_byte h s b = nth (Z.to_nat (b - 20 * k)) e 0) -> entry_at h s k = e.
Proof using He.
  intros Hb. apply list_eq_same_length with (n := 20%nat); [exact He|apply length_entry|]. intros t x y Ht. rewrite entry_lookup by lia.
  intros [= <-] Hy. rewrite Hb by lia. rewrite nth_lookup. replace (Z.to_nat (20 * k + Z.of_nat t - 20 * k)) with t by lia. by rewrite Hy.
Qed.

Lemma wrote_slot : 20 * k + 20 <= file_len f s -> wrote i f g (20 * k) e -> slot_written f g s k e.
Proof using All.
  intros Hend Hw. pose proof (inv_opened f p i Hf Hi HL) as Ho. pose proof (entry_bound p i f Ho) as (B1 & B2 & _).
  assert (El : file_len g s = file_len f s) by (destruct Hw as (_ & _ & _ & _ & W5 & _); exact (wrote_len p i f g (20 * k) (Z.of_nat (length e)) Ho ltac:(lia) ltac:(rewrite He; lia) W5)).
  destruct Hw as (_ & _ & _ & _ & _ & W6 & z & W7). rewrite He in W6, W7. split.
  - unfold entry_cnt at 1. rewrite El. fold (entry_cnt f s). rewrite Z.max_l; [done|]. unfold entry_cnt. apply Z.div_le_lower_bound; lia.
  - apply entry_bytes. exact W6.
  - exists z. intros b Hb Hn. pose proof (div_mul_le b). apply W7; [lia|lia|exact Hn].
Qed.

Lemma extended_slot : k = entry_cnt f s -> extended (priv := priv) (ok := fm_ok) f g s (20 * k) e -> slot_written f g s k e.
Proof using All.
  intros Ek (_ & _ & _ & _ & E5 & _ & E7 & (z & E8) & _). pose proof (inv_opened f p i Hf Hi HL) as Ho. pose proof (entry_bound p i f Ho) as (B1 & B2 & _).
  rewrite He in E5, E7. split.
  - unfold entry_cnt at 1. rewrite E5, <- Ek, Z.max_r by lia. replace (20 * k + Z.of_nat 20) with ((k + 1) * 20) by lia. apply Z.div_mul. lia.
  - apply entry_bytes. exact E7.
  - exists (fun b => z && (b =? 20 * k / 512)). intros b Hb _. rewrite E8 by lia. by rewrite (proj2 (Z.ltb_lt b _)) by lia.
Qed.
End one_write.

Lemma names_env L' H f g : names_ok (q := q) (pm := pm) (im := im) (priv := priv) L H f -> inv L' g -> env g = env f -> (forall s, s ∈ L -> s ∈ L') ->
  (forall s, s ∈ L -> d_isdir (sector_of g s) = d_isdir (sector_of f s)) -> names_ok (q := q) (pm := pm) (im := im) (priv := priv) L' H g.
Proof.
  intros [N1 N2 N3 ND N4 N5 N6 N7] Hg He HL Hdir. unfold env in He. injection He. intros. assert (Ei : inodes g = inodes f) by congruence. split.
  - exact Hg.
  - destruct N2 as [T1 T2 T3 T4 T5 T6]. split; [congruence| | | |congruence|congruence].
    + intros p. rewrite Ei. replace (open_inodes g) with (open_inodes f) by congruence. apply T2.
    + intros p p' i j. rewrite Ei. apply T3.
    + intros p i. rewrite Ei. replace (next_ptr g) with (next_ptr f) by congruence. apply T4.
  - intros p i Hi Hp. rewrite Ei in Hi. destruct (N3 p i Hi Hp) as (I1 & I2 & I3). split_and!; [exact I1|exact I2|exact (HL _ I3)].
  - intros p i Hi Hp. rewrite Ei in Hi. destruct (N3 p i Hi Hp) as (_ & _ & I3). rewrite (Hdir _ I3). exact (ND p i Hi Hp).
  - intros p s. rewrite Ei. apply N4.
  - intros d. replace (next_ptr g) with (next_ptr f) by congruence. replace (dirs g) with (dirs f) by congruence. apply N5.
  - intros d. replace (next_ptr g) with (next_ptr f) by congruence. replace (files g) with (files f) by congruence. apply N6.
  - congruence.
Qed.

(** What a call of [inode_write_at] on a directory does to it and to the rest. *)
Definition entry_write (f g : fs St) (s k : Z) (e : list Z) (n : Z) : Prop :=
  env g = env f /\ inv L g /\ device_size g = device_size f /\ (forall s', s' ∈ L -> d_isdir (sector_of g s') = d_isdir (sector_of f s')) /\
  (forall s', s' ∈ L -> s' <> s -> same_file f g s') /\
  (forall x, 0 <= x < device_size f -> used f x = true -> ~ priv x -> ~ node_of f s x -> used g x = true /\ sector_of g x = sector_of f x) /\
  (n = 20 /\ slot_written f g s k e \/ n = 0 /\ ran_full (priv := priv) (ok := fm_ok) f s (file_idx f s)).

Lemma write_isdir f g p i e k n : inv L f -> inodes f !! p = Some i -> i_sector i ∈ L -> length e = 20%nat -> 0 <= k <= entry_cnt f (i_sector i) ->
  0 < file_len f (i_sector i) -> write_result (q := q) (pm := pm) (im := im) (priv := priv) f i e 20 (20 * k) n g ->
  d_isdir (sector_of g (i_sector i)) = d_isdir (sector_of f (i_sector i)).
Proof.
  intros Hf Hi HL He Hk Hpos Hr. pose proof (inv_opened f p i Hf Hi HL) as Ho. destruct Hr as [_ _ Hq|_ _ Hle Hw|_ _ _ Hex|_ _ _ Hgf].
  - by rewrite (quiet_sector f g Hq).
  - rewrite (take_entry e He) in Hw. destruct Hw as (_ & _ & _ & _ & W5 & _). f_equal.
    exact (wrote_self p i f g (20 * k) (Z.of_nat (length e)) Ho ltac:(lia) ltac:(rewrite He; lia) W5).
  - destruct Hex as (_ & _ & _ & _ & _ & (E6 & _) & _). exact E6.
  - destruct Hgf as [_ Hr]. change (d_length (sector_of f (i_sector i))) with (file_len f (i_sector i)) in Hr. rewrite (proj2 (Z.eqb_neq (file_len f _) 0)) in Hr by lia.
    destruct Hr as (_ & _ & _ & (_ & _ & _ & _ & R8)). destruct (node_facts f _ (i_sector i) (inv_files _ _ _ _ _ _ Hf _ HL)) as (H1 & H2 & H3); [exists Self; split; [apply tree_self | reflexivity]|].
    rewrite R8; [done|exact H1|exact H2|exact H3|exact (self_not_pointer f p i Hf Hi HL)].
Qed.

Lemma entry_write_run f p i e k : inv L f -> inodes f !! p = Some i -> i_sector i ∈ L -> p <> 0 -> p <> pm -> idle i -> deny_write_cnt i = 0 ->
  length e = 20%nat -> Forall is_byte e -> 0 <= k <= entry_cnt f (i_sector i) -> 20 * k + 20 <= MAX_FILE_BYTES -> 0 < file_len f (i_sector i) ->
  exists n g, inode_write_at the_free_map p e 20 (20 * k) f = Done (n, g) /\ entry_write f g (i_sector i) k e n.
Proof.
  intros Hf Hi HL Hp0 Hpm Hidle Hdeny He Hb Hk Hmax Hpos. pose proof (inv_opened f p i Hf Hi HL) as Ho. pose proof (entry_bound p i f Ho) as (B1 & B2 & _).
  assert (Hsz : 0 <= 20 <= Z.of_nat (length e)) by (rewrite He; lia). assert (Hoff : 0 <= 20 * k) by lia.
  destruct (write_total f p i e 20 (20 * k) Hf Hi HL (conj Hp0 Hpm) Hidle Hoff Hsz Hb Hmax) as (n & g & E & Hr).
  destruct (write_keeps f p i e 20 (20 * k) Hf Hi HL (conj Hp0 Hpm) Hidle Hoff Hsz Hb Hmax n g Hr) as (Hg & Hd & Henv & Hkeep).
  destruct (write_self f p i e 20 (20 * k) Hf Hi HL (conj Hp0 Hpm) Hidle Hoff Hsz Hb Hmax n g Hr) as [Hself Hnew]; [by left|].
  exists n, g. split; [exact E|]. split_and!; [exact Henv|exact (inv_all f g (i_sector i) Hf HL Hg Hd Hkeep Hself Hnew)|exact Hd| | |exact Hkeep|].
  - intros s' Hs'. destruct (decide (s' = i_sector i)) as [->|Hne].
    + exact (write_isdir f g p i e k n Hf Hi HL He Hk Hpos Hr).
    + rewrite (proj2 (other_frame f g (i_sector i) Hf HL Hkeep s' Hs' Hne s' ltac:(exists Self; split; [apply tree_self|done]))). done.
  - intros s' Hs' Hne. exact (proj1 (proj2 (other_file f g (i_sector i) Hf HL Hd Hkeep s' Hs' Hne))).
  - destruct Hr as [_ Hd' _|En _ Hle Hw|En _ Hgt Hex|En _ _ Hgf]; [done|left|left|right; split; [exact En|apply Hgf]]; split; [exact En| |exact En|].
    + rewrite (take_entry e He) in Hw. exact (wrote_slot f g p i e k Hf Hi HL He Hk Hle Hw).
    + rewrite (take_entry e He) in Hex. apply (extended_slot f g p i e k Hf Hi HL He Hk); [lia|exact Hex].
Qed.

(** The room that a directory needs to grow by an entry. *)
Definition may_grow (f : fs St) (s : Z) : Prop := 0 < file_len f s /\ 20 * entry_cnt f s + 20 <= MAX_FILE_BYTES.

(** The directory [d] is at [s] and can be written. *)
Definition writable_dir (H : list (Z * Z)) (f : fs St) (d s : Z) : Prop :=
  d <> 0 /\ exists x i, dirs f !! d = Some x /\ (dir_inode x, s) ∈ H /\ inodes f !! dir_inode x = Some i /\ deny_write_cnt i = 0.

(** The outcome of [dir_add]. *)
Definition added (H : list (Z * Z)) (f g : fs St) (s : Z) (name : list Z) (sector : Z) (b : bool) : Prop :=
  names_ok (q := q) (pm := pm) (im := im) (priv := priv) L H g /\ env g = env f /\ device_size g = device_size f /\
  (forall s', s' ∈ L -> d_isdir (sector_of g s') = d_isdir (sector_of f s')) /\
  (forall s', s' ∈ L -> s' <> s -> same_file f g s') /\
  (forall x, 0 <= x < device_size f -> used f x = true -> ~ priv x -> ~ node_of f s x -> used g x = true /\ sector_of g x = sector_of f x) /\
  if b then dir_find f s name = None /\ dir_find g s name = Some sector
  else (is_Some (dir_find f s name) /\ same_disk f g) \/ ran_full (priv := priv) (ok := fm_ok) f s (file_idx f s).

Lemma quiet_added H f g s name sector : names_ok (q := q) (pm := pm) (im := im) (priv := priv) L H f -> quiet f g -> is_Some (dir_find f s name) -> added H f g s name sector false.
Proof.
  intros Hf Hq Hfind. pose proof (quiet_same f g Hq) as Hs. pose proof Hq as (_ & Q2 & Q3 & Q4 & Q5). split_and!; [exact (names_quiet L H f g Hf Hq)|exact Q3|exact Q2| | | |left; by split].
  - intros s' _. by rewrite Q5.
  - intros s' _ _. split; [apply (same_byte f g s' 0 Hs)|]. intros k _. apply (same_byte f g s' k Hs).
  - intros x _ Hu _ _. split; [unfold used; by rewrite Q4|apply Q5].
Qed.

Lemma quiet_ran_full f g s : quiet f g -> ran_full (priv := priv) (ok := fm_ok) g s (file_idx g s) -> ran_full (priv := priv) (ok := fm_ok) f s (file_idx f s).
Proof.
  intros Hq (h & Hg & Hfull). assert (Ei : file_idx g s = file_idx f s) by (unfold file_idx; by rewrite (quiet_sector f g Hq)). rewrite Ei in Hg. exists h. split; [|exact Hfull].
  pose proof Hq as (Q1 & Q2 & Q3 & Q4 & Q5). destruct Hg as (G1 & G2 & G3 & G4 & G5). split_and!; [exact G1|congruence|congruence| |].
  - intros x Hx Hu. apply G4; [lia|]. unfold used. by rewrite Q4.
  - intros x Hx Hu Hp Hn. rewrite G5; [apply Q5|lia|unfold used; by rewrite Q4|exact Hp|]. intros Hps. apply Hn. by apply (quiet_pointer_sector f g).
Qed.

(** The write after the quiet search. *)
Lemma quiet_write f h g H s k name sector e n : names_ok (q := q) (pm := pm) (im := im) (priv := priv) L H f -> quiet f h -> good_name name -> length e = 20%nat -> is_u32 sector ->
  0 <= k <= entry_cnt f s -> dir_find f s name = None -> entry_write h g s k (new_dir_entry sector name e) n -> added H f g s name sector (n =? 20).
Proof.
  intros Hf Hq Hname He Hsec Hk Hnone (W1 & W2 & W3 & W0 & W4 & W5 & W6). pose proof (quiet_same f h Hq) as Hs. pose proof Hq as (_ & Q2 & Q3 & Q4 & Q5).
  assert (Henv : env g = env f) by congruence. assert (Hdir : forall s', s' ∈ L -> d_isdir (sector_of g s') = d_isdir (sector_of f s')) by (intros s' HL'; by rewrite W0, Q5).
  split_and!; [exact (names_env L H f g Hf W2 Henv (fun _ x => x) Hdir)|exact Henv|congruence|exact Hdir| | |].
  - intros s' HL' Hne. destruct (W4 s' HL' Hne) as [F1 F2]. destruct (same_byte f h s' 0 Hs) as [_ El]. split; [congruence|].
    intros b Hb. rewrite F2 by lia. apply (same_byte f h s' b Hs).
  - intros y Hy Hu Hp Hn. rewrite <- Q5. apply W5; [lia|unfold used; by rewrite Q4|exact Hp|]. intros (nd & [Hv Hl] & Ha). apply Hn. exists nd.
    assert (Ei : file_idx h s = file_idx f s) by (unfold file_idx; by rewrite Q5). rewrite Ei, (quiet_addr f h Hq) in Hl, Ha. by split.
  - destruct W6 as [(-> & Hsl)|(-> & Hfull)]; cbn.
    + split; [exact Hnone|]. apply (slot_found h g s k sector name e Hsl Hname He Hsec).
      * by rewrite (proj2 (same_entry f h s 0 Hs)).
      * by rewrite (same_find f h s name Hs).
    + right. exact (quiet_ran_full f h s Hq Hfull).
Qed.

Lemma dir_add_run H f d s name sector e : names_ok (q := q) (pm := pm) (im := im) (priv := priv) L H f -> writable_dir H f d s -> may_grow f s ->
  good_name name -> is_u32 sector -> length e = 20%nat -> Forall is_byte e ->
  exists b g, dir_add the_free_map e d name sector f = Done (b, g) /\ added H f g s name sector b.
Proof.
  intros Hf (Hd & x & i0 & Hx & Hin & Hi & Hdeny) [Hpos Hmax] Hname Hsec He Hb. destruct (held_opened L H f _ s Hf Hin) as (i & Es & Ho & Hr & Hp0).
  destruct (no_held _ _ _ Hf _ _ Hin) as (Hpm & _). assert (i0 = i) as -> by (destruct Ho as (_ & _ & Hi' & _); congruence).
  destruct (no_idle _ _ _ Hf _ i Hi Hpm) as (Hidle & _ & HL).
  destruct (lookup_entry_run _ i Hr f d x name no_entry Hd Hx eq_refl Ho eq_refl) as (g & E & Hq). unfold dir_add.
  rewrite assert_true by by rewrite (proj2 (Z.eqb_neq _ _) Hd). rewrite (bind_done _ _ _ _ _ E). rewrite Es.
  destruct (find_slot f s (named name)) as [k0|] eqn:Ef; cbn [fmap option_fmap option_map].
  { exists false, g. split; [done|]. apply quiet_added; [exact Hf|exact Hq|]. unfold dir_find. rewrite Ef. by eexists. }
  assert (Hnone : dir_find f s name = None) by (unfold dir_find; by rewrite Ef).
  pose proof (names_quiet L H f g Hf Hq) as Hg. pose proof (proj1 (quiet_opened _ i f g Ho Hq)) as Hog.
  assert (Hxg : dirs g !! d = Some x) by (destruct (quiet_rest f g Hq) as (_ & -> & _); exact Hx).
  rewrite (bind_done _ _ g x g) by (unfold load_dir, bind, get; by rewrite Hxg).
  destruct (entry_scan_run _ i Hr g (fun e => negb (e_in_use e)) e Hog He) as (h & e1 & Hqh & He1 & Hb1 & Eh). rewrite bind_bind, (bind_done _ _ _ _ _ Eh).
  assert (Hscan : exists (c : bool) k e2, match find_slot g (i_sector i) (fun e => negb (e_in_use e)) with
      | Some j => (true, entry_at g (i_sector i) j, 20 * j) | None => (false, e1, 20 * entry_cnt g (i_sector i)) end = (c, e2, 20 * k) /\
      0 <= k <= entry_cnt g (i_sector i) /\ length e2 = 20%nat /\ Forall is_byte e2).
  { unfold find_slot. pose proof (find_from_spec g (i_sector i) (fun e => negb (e_in_use e)) 0 (Z.to_nat (entry_cnt g (i_sector i)))) as Hs.
    destruct (find_from _ _ _ _ _) as [j|]; eexists _, _, _; (split; [reflexivity|]).
    - destruct Hs as [Hj _]. split_and!; [lia|lia|apply length_entry|apply entry_at_bytes, Hog].
    - pose proof (entry_bound _ i g Hog). split_and!; [lia|lia|exact He1|by apply Hb1]. }
  destruct Hscan as (c & k & e2 & -> & Hk & He2 & Hb2). pose proof (quiet_trans _ _ _ Hq Hqh) as Hqf.
  pose proof (proj1 (quiet_opened _ i f h Ho Hqf)) as Hoh. pose proof (names_quiet L H f h Hf Hqf) as Hh.
  pose proof (quiet_cnt _ i g h Hog Hqh) as Ec. pose proof (quiet_cnt _ i f g Ho Hq) as Ec'. destruct (quiet_opened _ i f h Ho Hqf) as (_ & El & _).
  pose proof (entry_bound _ i f Ho) as (B1 & B2 & B3). rewrite Es in *. rewrite u32_small by lia. fold (new_dir_entry sector name e2).
  destruct (entry_write_run h (dir_inode x) i (new_dir_entry sector name e2) k) as (n & g2 & E2 & (W1 & W2 & W3 & W0 & W4 & W5 & W6)).
  { apply Hh. } { apply Hoh. } { by rewrite Es. } { exact Hp0. } { exact Hpm. } { exact Hidle. } { exact Hdeny. } { by apply new_entry_length. }
  { by apply new_entry_bytes. } { rewrite Es. lia. } { lia. } { rewrite Es. lia. }
  unfold sizeof_entry. rewrite (bind_done _ _ _ _ _ E2). exists (n =? 20), g2. split; [done|]. pose proof Hqf as (_ & Q2 & Q3 & Q4 & Q5). rewrite Es in *.
  exact (quiet_write f h g2 H s k name sector e2 n Hf Hqf Hname He2 Hsec ltac:(lia) Hnone (conj W1 (conj W2 (conj W3 (conj W0 (conj W4 (conj W5 W6))))))).
Qed.
End add.
