(* ===== verification/FilesysCreate.v ===== *)
(** * Creating a file by name

    [filesys_create] makes a file of zeros that no other file shares a sector
    with, and enters it in the directory that the path leads to. *)

From stdpp Require Import options.
From S2P Require Import Prelude Bytes Bitmap Block Store Mem Str Inode InodeTree InodeGrow InodeShrink InodeResize InodeRollback InodeExtend InodeIO.
From S2P Require Import InodeWrite InodeLife File FreeMap FileProps Directory DirSpec NameInv Filesys PathSpec PathWalk DirWrite.
Local Open Scope Z_scope.
Local Open Scope kernel_scope.

Section create.
Context {St : Type} `{!SectorStore St} {q pm : Z} {im : inode} {priv : Z -> Prop}.
Implicit Types (f g h : fs St) (p s d a : Z) (i : inode) (L : list Z) (H : list (Z * Z)).
Abbreviation inv := (fs_inv q pm im priv).
Abbreviation fm_ok := (fm_ok q pm im priv).
Abbreviation names_ok := (names_ok (q := q) (pm := pm) (im := im) (priv := priv)).
Abbreviation al := (@the_free_map St _).

(** The files at [L] are as they were; nothing in memory changed. *)
Definition kept (L : list Z) (f g : fs St) : Prop :=
  env g = env f /\ device_size g = device_size f /\
  forall s, s ∈ L -> same_file f g s /\ d_isdir (sector_of g s) = d_isdir (sector_of f s).

Lemma names_kept_trans L f g h : kept L f g -> kept L g h -> kept L f h.
Proof.
  intros (A1 & A2 & A3) (B1 & B2 & B3). split_and!; [congruence|congruence|]. intros s Hs. destruct (A3 s Hs) as [[F1 F2] D1], (B3 s Hs) as [[G1 G2] D2].
  split; [|congruence]. split; [congruence|]. intros k Hk. rewrite G2 by lia. by apply F2.
Qed.

(** A sector that is allocated and of no file. *)
Definition loose (L : list Z) (f : fs St) (a : Z) : Prop :=
  0 < a < device_size f /\ used f a = true /\ ~ priv a /\ a ∉ L /\ forall s x, s ∈ L -> node_of f s x -> x <> a.

Lemma self_node f s : node_of f s s.
Proof. exists Self. split; [apply tree_self|done]. Qed.

(** A step that changes only sector [a] and free ones. *)
Lemma step_kept L H f g a : names_ok L H f -> fm_ok g -> device_size g = device_size f -> env g = env f -> a ∉ L ->
  (forall s x, s ∈ L -> node_of f s x -> x <> a) ->
  (forall x, 0 <= x < device_size f -> used f x = true -> ~ priv x -> x <> a -> used g x = true /\ sector_of g x = sector_of f x) ->
  kept L f g /\ names_ok L H g /\ (forall s x, s ∈ L -> node_of g s x <-> node_of f s x) /\
  (file_ok priv g a -> (forall x, node_of g a x -> x = a \/ used f x = false) -> inv (a :: L) g).
Proof.
  intros Hf Hg Hd He HaL Hna Hkeep. pose proof (no_inv _ _ _ Hf) as Hv. destruct (inv_add f g a Hv Hg Hd HaL Hna Hkeep) as (Hold & Hinv & Hadd).
  assert (Hdir : forall s, s ∈ L -> d_isdir (sector_of g s) = d_isdir (sector_of f s)).
  { intros s Hs. destruct (node_facts f s s (inv_files _ _ _ _ _ _ Hv s Hs) (self_node f s)) as (H1 & H2 & H3).
    rewrite (proj2 (Hkeep s H1 H2 H3 (Hna s s Hs (self_node f s)))). done. }
  split_and!; [| | |exact Hadd].
  - split_and!; [exact He|exact Hd|]. intros s Hs. split; [apply (Hold s Hs)|exact (Hdir s Hs)].
  - exact (names_env L H f g Hf Hinv He (fun _ x => x) Hdir).
  - intros s x Hs. apply (Hold s Hs).
Qed.

Lemma allocate_step L H f : names_ok L H f -> exists r g, allocate al 1 f = Done (r, g) /\ kept L f g /\ names_ok L H g /\
  (forall a, r = Some a -> loose L g a).
Proof.
  intros Hf. pose proof (no_inv _ _ _ Hf) as Hv. destruct (inv_alloc f Hv) as (Ha & _ & _). pose proof (inv_map _ _ _ _ _ _ Hv) as Hm.
  destruct (allocate_run f Hm) as (r & g & E & Hg & Hd & He & Hs & Hr). exists r, g.
  assert (Hused : forall x, 0 <= x < device_size f -> used f x = true -> used g x = true).
  { intros x Hx Hu. destruct r as [a|]; destruct Hr as [_ Hr]; [destruct Hr as [_ Hr]; rewrite Hr by done; by destruct (x =? a)|by rewrite Hr]. }
  set (a := default (-1) r). assert (Hau : 0 <= a < device_size f -> used f a = false).
  { unfold a. destruct r as [a'|]; [intros _; apply Hr|]. cbn. lia. }
  assert (HaL : a ∉ L /\ forall s x, s ∈ L -> node_of f s x -> x <> a).
  { assert (Hx : forall s x, s ∈ L -> node_of f s x -> x <> a).
    { intros s x Hs' Hx ->. destruct (node_facts f s a (inv_files _ _ _ _ _ _ Hv s Hs') Hx) as (H1 & H2 & _). rewrite Hau in H2 by done. done. }
    split; [|exact Hx]. intros Hin. by apply (Hx a a Hin (self_node f a)). }
  destruct (step_kept L H f g a Hf Hg Hd He (proj1 HaL) (proj2 HaL)) as (K1 & K2 & K3 & _).
  { intros x Hx Hu Hp _. split; [by apply Hused|by apply Hs]. }
  split_and!; [exact E|exact K1|exact K2|]. intros a' ->. cbn in a. subst a. destruct Hr as (R1 & R2 & R3). destruct (ok_zero f Hm) as [Z0 _].
  assert (a' <> 0) by (intros ->; congruence). split_and!; [lia|lia|by rewrite R3, Z.eqb_refl| |apply HaL|].
  - intros Hp. apply (ok_priv f a' Hm) in Hp. congruence.
  - intros s x HsL Hx. apply (proj2 HaL s x HsL). by apply K3.
Qed.

Lemma file_create_step L H f a len : names_ok L H f -> loose L f a -> 0 <= len <= MAX_FILE_BYTES ->
  exists b g, inode_create al a len f = Done (b, g) /\ kept L f g /\ names_ok L H g /\ loose L g a /\
    (b = true -> inv (a :: L) g /\ file_len g a = len /\ (forall k, 0 <= k < len -> file_byte g a k = 0) /\ d_isdir (sector_of g a) = false).
Proof.
  intros Hf (Ha1 & Ha2 & Ha3 & Ha4 & Ha5) Hlen. pose proof (no_inv _ _ _ Hf) as Hv. destruct (inv_alloc f Hv) as (Ha & Hr & _).
  destruct (inode_create_run f a len (inv_map _ _ _ _ _ _ Hv)) as (b & g & E & (O1 & O2 & O3 & O4 & O5) & Hc); [lia|exact Ha2|exact Ha3|exact Hlen|].
  destruct (step_kept L H f g a Hf O1 O2 O3 Ha4 Ha5) as (K1 & K2 & K3 & K4).
  { intros x Hx Hu Hp Hne. split; [by apply O4|by apply O5]. }
  exists b, g. split_and!; [exact E|exact K1|exact K2| |].
  - split_and!; [lia|lia|apply O4; [lia|exact Ha2]|exact Ha3|exact Ha4|]. intros s x Hs Hx. apply (Ha5 s x Hs). by apply K3.
  - intros ->. destruct Hc as (C1 & C2 & C3 & C4 & C5). split_and!; [by apply K4|exact C2|exact C4|exact C3].
Qed.

Lemma release_step L H f a : names_ok L H f -> loose L f a -> exists g, release al a 1 f = Done (tt, g) /\ kept L f g /\ names_ok L H g.
Proof.
  intros Hf (Ha1 & Ha2 & Ha3 & Ha4 & Ha5). pose proof (no_inv _ _ _ Hf) as Hv. destruct (inv_alloc f Hv) as (_ & Hr & _).
  destruct (release_run f a (inv_map _ _ _ _ _ _ Hv) Ha1 Ha2 Ha3) as (g & E & Hg & Hd & He & Hs & Hu).
  destruct (step_kept L H f g a Hf Hg Hd He Ha4 Ha5) as (K1 & K2 & _).
  { intros x Hx Hux Hp Hne. split; [rewrite Hu by done; by rewrite (proj2 (Z.eqb_neq x a))|by apply Hs]. }
  exists g. by split_and!.
Qed.

Lemma same_file_find f g s name : same_file f g s -> 0 <= file_len f s -> dir_find g s name = dir_find f s name /\ entry_cnt g s = entry_cnt f s.
Proof.
  intros [El Hb] Hl. assert (Ec : entry_cnt g s = entry_cnt f s) by (unfold entry_cnt; by rewrite El). split; [|exact Ec].
  assert (He : forall j, 0 <= j < entry_cnt f s -> entry_at g s j = entry_at f s j).
  { intros j Hj. apply entry_at_ext. intros b Hb'. apply Hb. unfold entry_cnt in Hj. pose proof (Z.div_mod (file_len f s) 20 ltac:(lia)).
    pose proof (Z.mod_pos_bound (file_len f s) 20 ltac:(lia)). lia. }
  unfold dir_find, find_slot. rewrite Ec. rewrite (find_from_ext f g) by (intros j Hj; rewrite He; [reflexivity|lia]).
  pose proof (find_from_spec f s (named name) 0 (Z.to_nat (entry_cnt f s))) as Hs.
  revert Hs. generalize (find_from f s (named name) 0 (Z.to_nat (entry_cnt f s))). intros [j|] Hs; [|exact (eq_refl None)].
  destruct Hs as [Hj _]. exact (f_equal Some (f_equal e_inode_sector (He j ltac:(lia)))).
Qed.

Lemma inv_sub L L' f : inv L f -> (forall s, s ∈ L' -> s ∈ L) -> inv L' f.
Proof. intros [I1 I2 I3 I4] Hsub. split; [exact I1|exact I2|intros s Hs; apply I3, Hsub, Hs|]. intros s s' x Hs Hs'. apply I4; by apply Hsub. Qed.

Lemma inv_len L f s : inv L f -> s ∈ L -> 0 <= file_len f s <= MAX_FILE_BYTES.
Proof. intros Hf Hs. destruct (inv_files _ _ _ _ _ _ Hf s Hs) as [(H1 & _) _]. exact H1. Qed.

Lemma loose_of_inv L f a : inv (a :: L) f -> a ∉ L -> a <> 0 -> loose L f a.
Proof.
  intros Hf Ha H0. destruct (node_facts f a a (inv_files _ _ _ _ _ _ Hf a ltac:(left)) (self_node f a)) as (H1 & H2 & H3).
  split_and!; [lia|lia|exact H2|exact H3|exact Ha|]. intros s x Hs Hx ->. apply Ha.
  rewrite <- (inv_apart _ _ _ _ _ _ Hf s a a ltac:(by right) ltac:(left) Hx (self_node f a)). exact Hs.
Qed.

Lemma dir_writable L H f d p s : at_dir f d p s L -> names_ok L ((p, s) :: H) f -> writable_dir ((p, s) :: H) f d s.
Proof.
  intros (Hd0 & Hd & HL & Hdir) Hf. split; [exact Hd0|]. destruct (no_held _ _ _ Hf p s ltac:(left)) as (Hpm & i & Hi & Es & _).
  exists (mk_dir p 0), i. split_and!; [exact Hd|left|exact Hi|]. apply (proj2 (proj2 (no_deny _ _ _ Hf p i Hi Hpm))). by rewrite Es.
Qed.

(** The new file at [a], entered as [w] in the directory at [s]. *)
Definition entered (L : list Z) (H : list (Z * Z)) (f g : fs St) (s : Z) (w : list Z) (a size : Z) : Prop :=
  names_ok (a :: L) H g /\ a ∉ L /\ dir_find f s w = None /\ dir_find g s w = Some a /\
  file_len g a = size /\ (forall k, 0 <= k < size -> file_byte g a k = 0) /\ isdir_at g a = false.

(** All files but the directory at [s] are as they were. *)
Definition kept_but (L : list Z) (f g : fs St) (s : Z) : Prop :=
  env g = env f /\ (forall s', s' ∈ L -> s' <> s -> same_file f g s') /\ (forall s', s' ∈ L -> d_isdir (sector_of g s') = d_isdir (sector_of f s')).

Lemma kept_kept_but L f g s : kept L f g -> kept_but L f g s.
Proof. intros (K1 & _ & K3). split_and!; [exact K1|intros s' Hs' _; apply (K3 s' Hs')|intros s' Hs'; apply (K3 s' Hs')]. Qed.

Lemma kept_but_trans L f g h s : kept_but L f g s -> kept_but L g h s -> kept_but L f h s.
Proof.
  intros (A1 & A2 & A3) (B1 & B2 & B3). split_and!; [congruence| |intros s' Hs'; by rewrite B3, A3]. intros s' Hs' Hne.
  destruct (A2 s' Hs' Hne) as [F1 F2], (B2 s' Hs' Hne) as [G1 G2]. split; [congruence|]. intros k Hk. rewrite G2 by lia. by apply F2.
Qed.

(** Entering the file that [inode_create] made. *)
Lemma enter_step L H f d p s w a size e : at_dir f d p s L -> names_ok L ((p, s) :: H) f -> may_grow f s -> good_name w -> length e = 20%nat -> Forall is_byte e ->
  loose L f a -> inv (a :: L) f -> file_len f a = size -> (forall k, 0 <= k < size -> file_byte f a k = 0) -> d_isdir (sector_of f a) = false ->
  exists b g, dir_add al e d w a f = Done (b, g) /\ kept_but L f g s /\ names_ok L ((p, s) :: H) g /\ loose L g a /\
    (b = true -> entered L ((p, s) :: H) f g s w a size).
Proof.
  intros Hd Hf Hgrow Hw He Hb Ha Hinv Hlen Hz Hdir. pose proof Hd as (_ & _ & HsL & _). destruct Ha as (A1 & A2 & A3 & A4 & A5).
  assert (Hf' : names_ok (a :: L) ((p, s) :: H) f) by (apply (names_env (L := L) (a :: L) _ f f Hf Hinv eq_refl); [intros x Hx; by right|done]).
  assert (Hsec : is_u32 a). { destruct (fm_inode _ _ _ _ _ (inv_map _ _ _ _ _ _ Hinv)) as (_ & Hds & _). unfold is_u32. lia. }
  destruct (dir_add_run (L := a :: L) _ f d s w a e Hf' (dir_writable L H f d p s Hd Hf) Hgrow Hw Hsec He Hb) as (b & g & E & (B1 & B2 & B3 & B4 & B5 & _ & B6)).
  assert (Hav : a <> s) by (intros ->; done). pose proof (no_inv _ _ _ B1) as Hig.
  exists b, g. split_and!; [exact E| | |by apply loose_of_inv; [|exact A4|lia]|].
  - split_and!; [exact B2|intros s' Hs' Hne; apply B5; [by right|exact Hne]|intros s' Hs'; apply B4; by right].
  - apply (names_env (L := L) L _ f g Hf); [apply (inv_sub (a :: L)); [exact Hig|intros x Hx; by right]|exact B2|done|intros s' Hs'; apply B4; by right].
  - intros ->. destruct B6 as [B6 B7]. destruct (B5 a ltac:(left) Hav) as [F1 F2]. split_and!; [exact B1|exact A4|exact B6|exact B7|congruence| |].
    + intros k Hk. rewrite F2 by lia. by apply Hz.
    + unfold isdir_at. rewrite B4 by left. exact Hdir.
Qed.

Lemma create_in_run L H f d p s filename w size e : at_dir f d p s L -> names_ok L ((p, s) :: H) f -> may_grow f s -> good_name w -> c_string filename = Done w ->
  0 <= size <= MAX_FILE_BYTES -> length e = 20%nat -> Forall is_byte e ->
  exists a b g, create_in al e d filename size false f = Done ((a, b), g) /\ kept_but L f g s /\ names_ok L ((p, s) :: H) g /\
    (a <> 0 -> loose L g a) /\ (b = true -> entered L ((p, s) :: H) f g s w a size).
Proof.
  intros Hd Hf Hgrow Hw Hc Hsize He Hb. pose proof Hd as (Hd0 & _ & HsL & _). unfold create_in. rewrite (proj2 (Z.eqb_neq _ _) Hd0).
  destruct (allocate_step L _ f Hf) as (r & f1 & E1 & K1 & N1 & R1). rewrite (bind_done _ _ _ _ _ E1). destruct r as [a|].
  2: { exists 0, false, f1. split_and!; [done|by apply kept_kept_but|exact N1|done|done]. }
  destruct (file_create_step L _ f1 a size N1 (R1 a eq_refl) Hsize) as (c & f2 & E2 & K2 & N2 & A2 & C2). rewrite (bind_done _ _ _ _ _ E2).
  pose proof (names_kept_trans L f f1 f2 K1 K2) as K. destruct c.
  2: { exists a, false, f2. split_and!; [done|by apply kept_kept_but|exact N2|done|done]. }
  destruct (C2 eq_refl) as (I2 & L2 & Z2 & D2). rewrite Hc. rewrite (bind_done _ _ f2 w f2) by reflexivity. destruct K as (K0 & K1' & K3). destruct (K3 s HsL) as [Fs Ds].
  pose proof (inv_len L f s (no_inv _ _ _ Hf) HsL) as Hl. destruct (same_file_find f f2 s w Fs) as [Ef Ec]; [lia|].
  assert (Hd2 : at_dir f2 d p s L).
  { destruct Hd as (_ & Hdd & _ & Hdir). unfold env in K0. injection K0. intros. split_and!; [exact Hd0|congruence|exact HsL|unfold isdir_at; by rewrite Ds]. }
  destruct (enter_step L H f2 d p s w a size e Hd2 N2) as (b & g & E3 & K4 & N3 & A3 & B3).
  { destruct Hgrow as [G1 G2]. split; [destruct Fs as [-> _]; exact G1|rewrite Ec; exact G2]. } { exact Hw. } { exact He. } { exact Hb. } { exact A2. } { exact I2. } { exact L2. } { exact Z2. } { exact D2. }
  exists a, b, g. rewrite (bind_done _ _ _ _ _ E3). split_and!; [done| |exact N3|done|].
  - apply (kept_but_trans L f f2 g); [|exact K4]. apply kept_kept_but. by split_and!.
  - intros ->. destruct (B3 eq_refl) as (B1 & B2 & B4 & B5). split_and!; [exact B1|exact B2|by rewrite <- Ef|apply B5..].
Qed.

Lemma kept_at_dir L f g s d p s' : kept_but L f g s -> at_dir f d p s' L -> at_dir g d p s' L.
Proof.
  intros (K1 & _ & K3) (D1 & D2 & D3 & D4). unfold env in K1. injection K1. intros. split_and!; [exact D1|congruence|exact D3|unfold isdir_at; by rewrite K3].
Qed.

(** After the file was entered or not: the sector of a failed creation is given
    back and the directory closed. *)
Lemma create_finish L H f d p s a (b : bool) : at_dir f d p s L -> names_ok L ((p, s) :: H) f -> (a <> 0 -> loose L f a) ->
  exists g, ((if negb b && negb (a =? 0) then release al a 1 else ret tt) ;; dir_close al d ;; ret b) f = Done (b, g) /\
    files g = files f /\ (forall s', s' ∈ L -> same_file f g s' /\ isdir_at g s' = isdir_at f s') /\ (b = true -> same_disk f g) /\ names_ok L H g.
Proof.
  intros Hd Hf Ha. assert (Hrel : exists g, (if negb b && negb (a =? 0) then release al a 1 else ret tt) f = Done (tt, g) /\ kept L f g /\ names_ok L ((p, s) :: H) g /\ (b = true -> same_disk f g)).
  { destruct b; cbn [negb andb]; [|destruct (Z.eqb_spec a 0) as [->|Hne]; cbn [negb]].
    - exists f. split_and!; [done|split_and!; done|exact Hf|intros _; exact (same_disk_refl f (inv_store L f (no_inv _ _ _ Hf)))].
    - exists f. split_and!; [done|split_and!; done|exact Hf|done].
    - destruct (release_step L _ f a Hf (Ha Hne)) as (g & E & K & N). exists g. by split_and!. }
  destruct Hrel as (g & E & K & N & Hs). rewrite (bind_done _ _ _ _ _ E). destruct (kept_at_dir L f g s d p s (kept_kept_but L f g s K) Hd) as (D1 & D2 & _).
  destruct (dir_close_step L H g d (mk_dir p 0) s N D2 D1) as (h & E2 & Hh & S2 & _ & F2 & _). exists h. rewrite (bind_done _ _ _ _ _ E2).
  destruct K as (K1 & _ & K3). unfold env in K1. injection K1. intros. split_and!; [done|congruence| |intros Hb; exact (same_disk_trans f g h (Hs Hb) S2)|exact Hh].
  intros s' Hs'. destruct (K3 s' Hs') as [[F3 F4] D3]. split; [|unfold isdir_at; by rewrite (same_isdir g h s' S2)]. split; [by rewrite (proj2 (same_byte g h s' 0 S2))|].
  intros k Hk. rewrite (proj1 (same_byte g h s' k S2)). by apply F4.
Qed.

(** A directory that is not the parent or a name that is taken. *)
Lemma filesys_create_run L H f fp s0 depth e frame size : names_ok L H f -> closed L f -> starts_at f L H fp s0 ->
  Forall (fun c => 0 < c < 256) fp -> path_words fp <> [] -> Forall (fun w => length w <= 14)%nat (path_words fp) ->
  (length (path_words fp) < depth)%nat -> (15 <= length frame)%nat -> 0 <= size <= MAX_FILE_BYTES -> length e = 20%nat -> Forall is_byte e ->
  (forall s, s ∈ L -> isdir_at f s = true -> may_grow f s) ->
  exists b g, filesys_create al depth e frame fp size false f = Done (b, g) /\ files g = files f /\
    (forall s', s' ∈ L -> isdir_at g s' = isdir_at f s' /\ (last_dir f None s0 (path_words fp) <> Some s' -> same_file f g s')) /\
    if b then exists s w a, last_dir f None s0 (path_words fp) = Some s /\ last (path_words fp) = Some w /\ entered L H f g s w a size
    else names_ok L H g.
Proof.
  intros Hf Hcl Hst Hch Hne Hw Hdepth Hframe Hsize He Hb Hgrow.
  assert (Hn : nonzero fp) by (apply (Forall_impl _ _ _ Hch); lia). assert (Hfp : fp <> []) by (intros ->; done). unfold filesys_create.
  destruct (get_last_dir_run L H f fp s0 depth Hf Hcl Hst Hfp Hn Hw Hdepth) as (d & f1 & E & (M1 & M2 & M3) & Ha). rewrite (bind_done _ _ _ _ _ E).
  destruct (last (path_words fp)) as [w|] eqn:El; [|by apply last_None in El].
  assert (Hgood : good_name w).
  { apply last_Some in El as [l El]. assert (Hin : w ∈ path_words fp) by (rewrite El; set_solver).
    destruct (words_chars _ fp w Hch Hin) as [G1 G2]. split_and!; [exact G1| |exact G2]. rewrite Forall_forall in Hw. by apply Hw. }
  destruct (filename_run (S (length fp)) fp frame Hframe Hn Hw) as (name & En & _ & Hc); [lia|]. unfold get_filename_from_path. rewrite En, El in *. cbn [negb].
  assert (Hsame1 : forall s', s' ∈ L -> same_file f f1 s' /\ isdir_at f1 s' = isdir_at f s').
  { intros s' _. split; [split; [apply (same_byte f f1 s' 0 M1)|intros k _; apply (same_byte f f1 s' k M1)]|]. by apply same_isdir. }
  destruct (last_dir f None s0 (path_words fp)) as [s|].
  2: { destruct Ha as [-> H1]. assert (Ec : create_in al e 0 name size false f1 = Done ((0, false), f1)) by reflexivity.
       rewrite (bind_done _ _ _ _ _ Ec). exists false, f1. split_and!; [reflexivity|exact M2| |exact H1]. intros s' Hs'. destruct (Hsame1 s' Hs'). by split. }
  destruct Ha as (p & Hd & H1). pose proof Hd as (_ & _ & HsL & Hdir).
  destruct (create_in_run L H f1 d p s name w size e Hd H1) as (a & b & f2 & E2 & K2 & N2 & A2 & B2).
  { assert (Hg : may_grow f s) by (apply Hgrow; [exact HsL|by rewrite <- (proj2 (Hsame1 s HsL))]). destruct Hg as [G1 G2].
    split; [by rewrite (proj2 (same_byte f f1 s 0 M1))|by rewrite (proj2 (same_entry f f1 s 0 M1))]. } { exact Hgood. } { exact Hc. } { exact Hsize. } { exact He. } { exact Hb. }
  rewrite (bind_done _ _ _ _ _ E2). pose proof (kept_at_dir L f1 f2 s d p s K2 Hd) as Hd2. destruct K2 as (K0 & K3 & K4). unfold env in K0. injection K0. intros.
  assert (Hsame2 : forall s', s' ∈ L -> isdir_at f2 s' = isdir_at f s' /\ (Some s <> Some s' -> same_file f f2 s')).
  { intros s' Hs'. destruct (Hsame1 s' Hs') as [[F1 F2] D1]. split; [unfold isdir_at in *; by rewrite K4|]. intros Hss. destruct (K3 s' Hs' ltac:(congruence)) as [G1 G2].
    split; [congruence|]. intros k Hk. rewrite G2 by lia. by apply F2. }
  assert (Hsame3 : forall g, (forall s', s' ∈ L -> same_file f2 g s' /\ isdir_at g s' = isdir_at f2 s') ->
    forall s', s' ∈ L -> isdir_at g s' = isdir_at f s' /\ (Some s <> Some s' -> same_file f g s')).
  { intros g Hg s' Hs'. destruct (Hg s' Hs') as [[G1 G2] G3], (Hsame2 s' Hs') as [D1 D2]. split; [congruence|]. intros Hss. destruct (D2 Hss) as [F1 F2].
    split; [congruence|]. intros k Hk. rewrite G2 by lia. by apply F2. }
  destruct b.
  - destruct (B2 eq_refl) as (P1 & P2 & P3 & P4 & P5 & P6 & P7).
    assert (Hd3 : at_dir f2 d p s (a :: L)) by (destruct Hd2 as (? & ? & ? & ?); split_and!; [done|done|by right|done]).
    destruct (create_finish (a :: L) H f2 d p s 0 true Hd3 P1 ltac:(done)) as (g & Eg & Fg & Sg & Dg & Ng). specialize (Dg eq_refl).
    exists true, g. split_and!; [exact Eg|congruence|apply Hsame3; intros s' Hs'; apply Sg; by right|]. exists s, w, a. split_and!; [done|done|].
    split_and!; [exact Ng|exact P2|by rewrite <- (same_find f f1 s w M1)|by rewrite (same_find f2 g s w Dg)|by rewrite (proj2 (same_byte f2 g a 0 Dg))| |].
    + intros k Hk. rewrite (proj1 (same_byte f2 g a k Dg)). by apply P6.
    + unfold isdir_at. by rewrite (same_isdir f2 g a Dg).
  - destruct (create_finish L H f2 d p s a false Hd2 N2 A2) as (g & Eg & Fg & Sg & _ & Ng).
    exists false, g. split_and!; [exact Eg|congruence|by apply Hsame3|exact Ng].
Qed.
End create.
