(* ===== verification/FilesysProps.v ===== *)
(** * Names: what opening, creating and listing do

    The theorems about paths and directories, over any sector store, and the
    small file system of FileDemo.v on which they are applied. *)

From stdpp Require Import options.
From stdpp Require Import strings.
From S2P Require Import Prelude Bytes Bitmap Block Store Cache Inode InodeTree InodeGrow InodeShrink InodeResize InodeRollback InodeExtend InodeIO.
From S2P Require Import InodeWrite InodeLife File FreeMap FileDemo FileProps Str Directory DirSpec NameInv Filesys PathSpec PathWalk DirWrite FilesysCreate.
Local Open Scope Z_scope.
Local Open Scope kernel_scope.

(** ** Listing a directory *)

Section listing.
Context {St : Type} `{!SectorStore St}.

(** Calls of [dir_readdir] up to the one that returns false. *)
Fixpoint readdir_all (n : nat) (d : Z) : M (fs St) (list (list Z)) :=
  match n with
  | O => fail OutOfFuel
  | S n =>
      let! r := dir_readdir d in
      match r with
      | Some name => let! l := readdir_all n d in ret (name :: l)
      | None => ret []
      end
  end.

(** The names that are listed from entry [k] on, among [m]. *)
Fixpoint names_from (f : fs St) (s k : Z) (m : nat) : list (list Z) :=
  match m with
  | O => []
  | S m =>
      match listed (entry_at f s k), c_string (e_name (entry_at f s k)) with
      | true, Done name => name :: names_from f s (k + 1) m
      | _, _ => names_from f s (k + 1) m
      end
  end.

(** Entries in use have names that end. *)
Definition names_end (f : fs St) (s : Z) : Prop :=
  forall k, 0 <= k < entry_cnt f s -> e_in_use (entry_at f s k) = true -> exists name, c_string (e_name (entry_at f s k)) = Done name.

Context {priv : Z -> Prop} (p : Z) (i : inode) (d : Z).
Abbreviation s := (i_sector i).
Hypothesis Hr : readable i.

Lemma listed_used e : listed e = true -> e_in_use e = true.
Proof. unfold listed. by destruct (e_in_use e). Qed.

Lemma names_from_step f : names_end f s -> forall m k, 0 <= k -> k + Z.of_nat m = entry_cnt f s ->
  match find_from f s listed k m with
  | Some j => k <= j < entry_cnt f s /\ exists name, c_string (e_name (entry_at f s j)) = Done name /\
      names_from f s k m = name :: names_from f s (j + 1) (Z.to_nat (entry_cnt f s - (j + 1)))
  | None => names_from f s k m = []
  end.
Proof.
  intros Hn m. induction m as [|m IH]; intros k Hk Hm; [reflexivity|]. cbn [find_from names_from].
  destruct (listed (entry_at f s k)) eqn:El.
  - split; [lia|]. destruct (Hn k ltac:(lia) (listed_used _ El)) as [name Ec]. exists name. split; [exact Ec|].
    rewrite Ec. replace (Z.to_nat (entry_cnt f s - (k + 1))) with m by lia. reflexivity.
  - specialize (IH (k + 1) ltac:(lia) ltac:(lia)). destruct (find_from f s listed (k + 1) m) as [j|]; [|exact IH].
    destruct IH as (Hj & name & Ec & E). split; [lia|]. exists name. split; [exact Ec|exact E].
Qed.

Lemma readdir_all_run f : opened (priv := priv) p i f -> names_end f s -> forall n g k, listing (priv := priv) p i d f g k ->
  0 <= k <= entry_cnt f s -> (Z.to_nat (entry_cnt f s - k) < n)%nat ->
  exists h, readdir_all n d g = Done (names_from f s k (Z.to_nat (entry_cnt f s - k)), h) /\ listing (priv := priv) p i d f h (entry_cnt f s).
Proof using Hr.
  intros Ho Hn n. induction n as [|n IH]; intros g k Hg Hk Hlt; [lia|]. cbn [readdir_all].
  pose proof Hg as (Hog & Hd & _). destruct (listing_same p i d f g k Ho Hg) as [Ec _].
  pose proof (readdir_loop_run p i d Hr (S (Z.to_nat (entry_cnt f s))) f g k Ho Hg Hk ltac:(lia)) as Hloop.
  assert (Er : dir_readdir d g = readdir_loop (S (Z.to_nat (entry_cnt f s))) d g).
  { unfold dir_readdir. rewrite (bind_done _ _ g _ g) by (unfold load_dir, bind, get; rewrite Hd; reflexivity). cbn [dir_inode].
    rewrite (bind_done _ _ g (S (Z.to_nat (entry_cnt f s))) g); [reflexivity|]. unfold entry_fuel. rewrite (bind_done _ _ _ _ _ (load_inode_run p i g Hog)).
    rewrite <- Ec. reflexivity. }
  pose proof (names_from_step f Hn (Z.to_nat (entry_cnt f s - k)) k ltac:(lia) ltac:(lia)) as Hs. unfold bind at 1. rewrite Er.
  destruct (find_from f s listed k _) as [j|].
  - destruct Hs as (Hj & name & Ename & ->). destruct (Hloop name Ename) as (h & -> & Hh).
    destruct (IH h (j + 1) Hh ltac:(lia) ltac:(lia)) as (h' & E & Hh'). exists h'. split; [|exact Hh'].
    rewrite (bind_done _ _ _ _ _ E). reflexivity.
  - destruct Hloop as (h & -> & Hh). rewrite Hs. by exists h.
Qed.

(** C23: reading a directory from its start returns, call by call and in the
    order of the entries, exactly the names in use other than "." and "..",
    and then false; nothing but the position of the directory changes. *)
Theorem dir_readdir_enumerates f : opened (priv := priv) p i f -> names_end f s -> dirs f !! d = Some (mk_dir p 0) ->
  exists g, readdir_all (S (Z.to_nat (entry_cnt f s))) d f = Done (names_from f s 0 (Z.to_nat (entry_cnt f s)), g) /\
    dirs g !! d = Some (mk_dir p (20 * entry_cnt f s)) /\ quiet f (with_dirs g (dirs f)).
Proof using Hr.
  intros Ho Hn Hd. pose proof (entry_bound p i f Ho) as (B1 & _).
  assert (Hl : listing (priv := priv) p i d f f 0).
  { split_and!; [exact Ho|exact Hd|]. split_and!; [apply Ho|done..]. }
  destruct (readdir_all_run f Ho Hn (S (Z.to_nat (entry_cnt f s))) f 0 Hl ltac:(lia) ltac:(lia)) as (g & E & _ & Hg & Hq).
  rewrite Z.sub_0_r in E. by exists g.
Qed.
End listing.

(** ** Following, entering and leaving *)

Section paths.
Context {St : Type} `{!SectorStore St} {q pm : Z} {im : inode} {priv : Z -> Prop}.
Implicit Types (f g h : fs St) (p s d : Z) (L : list Z) (H : list (Z * Z)).
Abbreviation names_ok := (names_ok (q := q) (pm := pm) (im := im) (priv := priv)).
Abbreviation al := (@the_free_map St _).

(** A path whose parts fit in names, and enough fuel for it. *)
Definition good_path (fp : list Z) (depth : nat) : Prop :=
  Forall (fun c => 0 < c < 256) fp /\ path_words fp <> [] /\ Forall (fun w => length w <= 14)%nat (path_words fp) /\
  (length (path_words fp) < depth)%nat.

Lemma good_nonzero fp depth : good_path fp depth -> nonzero fp /\ fp <> [].
Proof. intros (Hc & Hw & _). split; [apply (Forall_impl _ _ _ Hc); lia|]. by intros ->. Qed.

(** C6: [filesys_open] follows a path as the directories on the disk say: it
    returns a new handle on the file or directory that the parts of the path
    lead to from the root or from the current directory, positioned at 0, and
    NULL when a part is missing or is not a directory; the disk and the other
    open files stay as they are. *)
Theorem filesys_open_resolves L H f fp s depth frame b : names_ok L H f -> closed L f -> starts_at f L H fp s ->
  good_path fp depth -> (15 <= length frame)%nat ->
  exists x isdir g, filesys_open al depth frame fp b f = Done ((x, isdir), g) /\ same_disk f g /\ (cwd g = cwd f \/ cwd f = 0) /\
    match resolve f s (path_words fp) with
    | Some s' => opened_as (q := q) (pm := pm) (im := im) (priv := priv) L H f g x s' isdir
    | None => x = 0 /\ names_ok L H g /\ files g = files f
    end.
Proof.
  intros Hf Hc Hs Hfp Hfr. destruct (good_nonzero fp depth Hfp) as [N1 N2]. destruct Hfp as (H1 & H2 & H3 & H4). by apply filesys_open_run.
Qed.


(** *** What is left open *)

(** One part: the status of the first call and of the next. *)
Lemma one_word fp w depth part : good_path fp depth -> path_words fp = [w] -> (15 <= length part)%nat ->
  exists part' rest, get_next_part part fp = (1, part', rest) /\ length part' = length part /\
    c_string part' = Done w /\ forall part2, (15 <= length part2)%nat -> get_next_part part2 rest = (0, part2, rest).
Proof.
  intros Hfp Ew Hp. destruct (good_nonzero fp depth Hfp) as [Hn _]. destruct Hfp as (_ & _ & Hl & _).
  pose proof (next_part_run part fp Hp Hn) as Hr. rewrite Ew in *. apply Forall_cons in Hl as [Hl _]. rewrite decide_True in Hr by exact Hl.
  destruct Hr as (part' & rest & E & El & Hc & Er & Hn' & _). exists part', rest. split_and!; [exact E|exact El|exact Hc|].
  intros part2 Hp2. pose proof (next_part_run part2 rest Hp2 Hn') as Hr2. by rewrite Er in Hr2.
Qed.

(** The lookup in [get_last_dir] opens the file, and nothing closes it. *)
Lemma last_dir_leaks L H f fp w s depth : names_ok L H f -> closed L f -> starts_at f L H fp ROOT_DIR_SECTOR ->
  head fp = Some 47 -> good_path fp depth -> path_words fp = [w] ->
  dir_find f ROOT_DIR_SECTOR w = Some s -> isdir_at f s = false ->
  exists d p p2 g, get_last_dir al depth fp f = Done (d, g) /\ moved f g /\ at_dir g d p ROOT_DIR_SECTOR L /\
    names_ok L ((p, ROOT_DIR_SECTOR) :: (p2, s) :: H) g.
Proof.
  intros Hf Hcl (HL & Hdir & _) Hh Hfp Ew Hfind Hreg. destruct (one_word fp w depth (replicate 15 0) Hfp Ew ltac:(done)) as (part & rest & E1 & El & Ec & E2).
  destruct Hfp as (_ & _ & _ & Hdepth). rewrite Ew in Hdepth. destruct depth as [|[|depth]]; [cbn in Hdepth; lia..|].
  destruct fp as [|c fp]; [done|]. injection Hh as ->. unfold get_last_dir. cbn [Z.eqb Pos.eqb].
  destruct (root_step L H f Hf HL Hdir) as (d & p & g & Ed & Hd & Hg & W1 & W2 & W3 & _). rewrite (bind_done _ _ _ _ _ Ed).
  cbn [last_dir_loop]. rewrite E1. cbn [Z.eqb]. rewrite Ec. rewrite (bind_done _ _ g w g) by reflexivity.
  pose proof Hd as (Hd0 & Hdd & _ & Hdir').
  pose proof (lookup_step L _ g d (mk_dir p 0) ROOT_DIR_SECTOR w Hg (closed_same L f g Hcl W1) Hdd Hd0 ltac:(left) HL Hdir') as Hlook.
  rewrite (same_find f g _ w W1), Hfind in Hlook. destruct Hlook as (HsL & p2 & h & El2 & Hp2 & Hn & Hr). rewrite (bind_done _ _ _ _ _ El2).
  rewrite (proj2 (Z.eqb_neq _ _) Hp2). destruct (is_dir_step L _ h p2 s Hn ltac:(left)) as (k & Ek & Hq).
  assert (Hsd : same_disk f h) by exact (same_disk_trans f g h W1 (proj1 Hr)).
  rewrite (bind_done _ _ _ _ _ Ek), (same_isdir f h s Hsd). unfold isdir_at in Hreg. rewrite Hreg. cbn [negb]. rewrite E2 by (rewrite El; done). cbn [Z.eqb].
  rewrite (bind_done _ _ k tt k) by reflexivity. pose proof (quiet_rest h k Hq) as Hk. pose proof (same_rest_trans g h k Hr Hk) as Hgk.
  exists d, p, p2, k. split_and!; [reflexivity| |exact (at_dir_rest g k d p _ L Hd Hgk)|exact (names_swap L _ _ H k (names_quiet L _ h k Hn Hq))].
  destruct Hgk as (K1 & K2 & K3 & K4). split_and!; [exact (same_disk_trans f g k W1 K1)|congruence|left; congruence].
Qed.

Lemma file_close_step L H f x p s pos : names_ok L ((p, s) :: H) f -> files f !! x = Some (mk_file p pos false) -> x <> 0 -> x <> q ->
  exists g, file_close al x f = Done (tt, g) /\ names_ok L H g /\ files g = delete x (files f) /\ same_disk f g.
Proof.
  intros Hf Hx Hx0 Hq. destruct (close_step L H f p s Hf) as (g & E & Hg & (Hs & Hd & Hfs & Hc)).
  exists (with_objects g (delete x (files g)) (dirs g)). split_and!; [| |cbn; congruence|exact (same_disk_trans f g _ Hs (same_disk_store g _ (proj1 Hs) eq_refl eq_refl))].
  - assert (El : load_file x f = Done (mk_file p pos false, f)) by (unfold load_file, bind, get; by rewrite Hx).
    assert (Ea : file_allow_write x f = Done (tt, f)).
    { unfold file_allow_write. rewrite assert_true by by rewrite (proj2 (Z.eqb_neq _ _) Hx0). by rewrite (bind_done _ _ _ _ _ El). }
    unfold file_close. rewrite (proj2 (Z.eqb_neq _ _) Hx0). cbn [negb]. rewrite (bind_done _ _ _ _ _ Ea), (bind_done _ _ _ _ _ El).
    cbn [f_inode]. rewrite (bind_done _ _ _ _ _ E). done.
  - apply names_objects; [exact Hg|by rewrite lookup_delete_ne|exact (no_dirs _ _ _ Hg)|].
    intros y [z [_ Hz]%lookup_delete_Some]. apply (no_files _ _ _ Hg). by eexists.
Qed.


(** A missing name leaves the inodes alone. *)
Lemma lookup_none L H f d x s name : names_ok L H f -> dirs f !! d = Some x -> d <> 0 -> (dir_inode x, s) ∈ H ->
  dir_find f s name = None -> exists g, dir_lookup d name f = Done (0, g) /\ quiet f g.
Proof.
  intros Hf Hx Hd Hin Hfind. destruct (held_opened L H f _ s Hf Hin) as (i & Es & Ho & Hr & _).
  destruct (lookup_entry_run (dir_inode x) i Hr f d x name no_entry Hd Hx eq_refl Ho eq_refl) as (g & E & Hq). rewrite Es in E.
  exists g. split; [|exact Hq]. unfold dir_lookup. rewrite assert_true by by rewrite (proj2 (Z.eqb_neq _ _) Hd).
  rewrite (bind_done _ _ _ _ _ E). unfold dir_find in Hfind. destruct (find_slot f s (named name)); [discriminate|reflexivity].
Qed.

(** The current directory's inode, held by nothing else. *)
Definition cwd_alone (H : list (Z * Z)) (f : fs St) (p s : Z) : Prop :=
  cwd f <> 0 /\ (exists pos, dirs f !! cwd f = Some (mk_dir p pos)) /\ (p, s) ∈ H /\
  exists i, inodes f !! p = Some i /\ open_cnt i = 1.

Lemma verify_misses L H f fp w p s depth junk : names_ok L H f -> cwd_alone H f p s -> good_path fp depth -> head fp <> Some 47 -> path_words fp = [w] ->
  dir_find f s w = None ->
  exists g, verify_filepath al depth fp (cwd f) junk f = Done ((false, 0), g) /\ cwd g = cwd f /\ dirs g !! cwd f = dirs f !! cwd f /\ inodes g !! p = None.
Proof.
  intros Hf (Hc0 & (pos & Hcd) & Hin & i & Hi & Hcnt) Hfp Hh Ew Hfind.
  destruct (one_word fp w depth (replicate 15 0) Hfp Ew ltac:(done)) as (part & rest & E1 & El & Ec & _).
  destruct Hfp as (_ & _ & _ & Hdepth). destruct depth as [|depth]; [lia|]. destruct fp as [|c fp]; [done|]. unfold verify_filepath, start_dir.
  rewrite (proj2 (Z.eqb_neq _ _) Hc0), (proj2 (Z.eqb_neq c 47)) by (intros ->; done).
  pose proof (no_held _ _ _ Hf p s Hin) as (Hpm & _). destruct (no_idle _ _ _ Hf p i Hi Hpm) as (Hid & Hrm & _).
  pose proof (table_open f (no_table _ _ _ Hf) p i Hi) as [Hp0 _].
  set (d := next_ptr f). set (f1 := with_objects (allocated f) (files f) (<[d := mk_dir p 0]> (dirs f))).
  assert (Eo : dir_open al p f = Done (d, f1)).
  { unfold dir_open. rewrite (bind_done _ _ _ _ _ (malloc_step L H f Hf)). pose proof (table_next f (no_table _ _ _ Hf)).
    rewrite (proj2 (Z.eqb_neq p 0)), (proj2 (Z.eqb_neq (next_ptr f) 0)) by lia. reflexivity. }
  assert (Hne : d <> cwd f) by (destruct (no_dirs _ _ _ Hf (cwd f)); [by rewrite Hcd|unfold d; lia]).
  destruct (dir_open_step L H f p Hf ltac:(lia)) as (d' & f1' & Eo' & Hf1 & S1 & Hd0 & _). rewrite Eo in Eo'. injection Eo' as <- <-.
  assert (Es : (let! f0 := get in let! p0 := dir_get_inode (cwd f0) in dir_open al p0) f = Done (d, f1)).
  { rewrite (bind_done _ _ f f f) by reflexivity. rewrite (bind_done _ _ f p f); [exact Eo|].
    unfold dir_get_inode. rewrite (bind_done _ _ f (mk_dir p pos) f); [reflexivity|]. unfold load_dir, bind, get. by rewrite Hcd. }
  rewrite (bind_done _ _ _ _ _ Es). cbn [verify_loop]. rewrite E1. cbn [Z.eqb]. rewrite Ec. rewrite (bind_done _ _ f1 w f1) by reflexivity.
  destruct (lookup_none L H f1 d (mk_dir p 0) s w Hf1) as (g & Eg & Hq); [apply lookup_insert_eq|exact Hd0|exact Hin|by rewrite (same_find f f1 s w S1)|].
  rewrite (bind_done _ _ _ _ _ Eg). change (negb (0 =? 0)) with false. cbv iota.
  pose proof Hq as (_ & _ & He & _). unfold env in He. injection He. intros.
  assert (Ecl : inode_close al p g = Done (tt, unlisted g p (delete p (inodes g)))).
  { apply (inode_close_last g p i); [lia|pose proof (table_lock f (no_table _ _ _ Hf)); congruence|congruence|exact Hid|exact Hcnt|exact Hrm]. }
  assert (Ecd : dir_close al d g = Done (tt, with_objects (unlisted g p (delete p (inodes g))) (files g) (delete d (dirs g)))).
  { unfold dir_close. rewrite (proj2 (Z.eqb_neq _ _) Hd0). cbn [negb]. rewrite (bind_done _ _ g (mk_dir p 0) g).
    - cbn [dir_inode]. rewrite (bind_done _ _ _ _ _ Ecl). reflexivity.
    - unfold load_dir, bind, get. replace (dirs g) with (dirs f1) by congruence. cbn [f1 with_objects dirs]. by rewrite lookup_insert_eq. }
  rewrite (bind_done _ _ _ _ _ Ecd). eexists. split; [reflexivity|]. cbn [with_objects unlisted cwd dirs inodes]. split_and!.
  - change (cwd g = cwd f). transitivity (cwd f1); [congruence|reflexivity].
  - rewrite lookup_delete_ne by exact Hne. replace (dirs g) with (dirs f1) by congruence. cbn [f1 with_objects dirs]. by rewrite lookup_insert_ne.
  - apply lookup_delete_eq.
Qed.

(** C32: a relative [chdir] to a name that does not exist returns false and
    closes the inode of the current directory: [cwd] still points to it, and the
    next relative path that is opened follows the freed pointer. *)
Theorem failed_chdir_dangles L H f fp w p s depth junk : names_ok L H f -> cwd_alone H f p s -> good_path fp depth -> head fp <> Some 47 ->
  path_words fp = [w] -> dir_find f s w = None ->
  exists g, chdir al depth junk fp f = Done (false, g) /\ inodes g !! p = None /\
    forall fp' depth' frame b, fp' <> [] -> head fp' <> Some 47 -> filesys_open al depth' frame fp' b g = Fault BadPointer.
Proof.
  intros Hf Hc Hfp Hh Ew Hfind. destruct (verify_misses L H f fp w p s depth junk Hf Hc Hfp Hh Ew Hfind) as (g & E & Ecwd & Ed & Hp).
  exists g. unfold chdir. rewrite (bind_done _ _ f f f) by reflexivity. rewrite (bind_done _ _ _ _ _ E). split_and!; [reflexivity|exact Hp|].
  intros fp' depth' frame b Hne Hh'. destruct Hc as (Hc0 & (pos & Hcd) & Hin & i & Hi & _). rewrite Hcd in Ed.
  pose proof (table_open f (no_table _ _ _ Hf) p i Hi) as [Hp0 _].
  assert (Er : dir_reopen al (cwd g) g = Fault BadPointer).
  { unfold dir_reopen. rewrite Ecwd. rewrite (bind_done _ _ g (mk_dir p pos) g) by (unfold load_dir, bind, get; by rewrite Ed).
    cbn [dir_inode]. unfold inode_reopen. rewrite (proj2 (Z.eqb_neq p 0)) by lia. cbn [negb].
    unfold writer_checkin, load_inode, bind, get. by rewrite Hp. }
  destruct fp' as [|c fp']; [done|]. unfold filesys_open. rewrite bool_decide_false by (intros [= -> _]; done).
  unfold get_last_dir. rewrite (proj2 (Z.eqb_neq c 47)) by (intros ->; done).
  assert (Ec : reopen_cwd al g = Fault BadPointer); [|by unfold bind at 1 2; rewrite Ec].
  unfold reopen_cwd. rewrite (bind_done _ _ g g g) by reflexivity. rewrite Ecwd, (proj2 (Z.eqb_neq _ _) Hc0).
  rewrite (bind_done _ _ g tt g) by reflexivity. by rewrite (bind_done _ _ g g g) by reflexivity.
Qed.
End paths.

(** ** The theorems at work

    On the small file system of FileDemo.v, whose root directory has ".", ".."
    and "a". *)

Definition demo_names_fs : fs (cache memory_disk) := demo_fs [1023; 0] false.

Abbreviation demo_names_ok := (names_ok (q := 1) (pm := 1) (im := demo_map_entry) (priv := demo_priv)).

Lemma demo_words : is_u32 1023 /\ is_u32 0.
Proof. unfold is_u32. lia. Qed.

Lemma demo_files : fs_inv 1 1 demo_map_entry demo_priv [1; 5] demo_names_fs.
Proof.
  split.
  - by split_and!.
  - by apply demo_fm_ok; [exact demo_words|].
  - intros s [->| ->%list_elem_of_singleton]%elem_of_cons; [by apply (demo_dir_file 1023 0 false demo_words)|by apply demo_user_file; [exact demo_words|]].
  - intros s s' x [->| ->%list_elem_of_singleton]%elem_of_cons [->| ->%list_elem_of_singleton]%elem_of_cons Hx Hx'; try reflexivity; exfalso.
    + exact (demo_apart 1023 0 false demo_words eq_refl eq_refl x Hx Hx').
    + exact (demo_apart 1023 0 false demo_words eq_refl eq_refl x Hx' Hx).
Qed.

Lemma demo_open_inode p i : inodes demo_names_fs !! p = Some i -> p <> 1 -> p = 2 /\ i = demo_entry false.
Proof.
  change (inodes demo_names_fs) with ({[1 := demo_map_entry; 2 := demo_entry false]} : gmap Z inode).
  by intros [[<- <-]|[_ [<- <-]%lookup_singleton_Some]]%lookup_insert_Some Hp.
Qed.

Lemma demo_names : demo_names_ok [1; 5] [] demo_names_fs.
Proof.
  split.
  - exact demo_files.
  - by apply (demo_table 1023 0 false demo_words).
  - intros p i Hi Hp. destruct (demo_open_inode p i Hi Hp) as [-> ->]. split; [apply demo_idle|]. split; [reflexivity|]. right. left.
  - intros p i Hi Hp. destruct (demo_open_inode p i Hi Hp) as [-> ->]. cbn. by split_and!.
  - intros p s []%elem_of_nil.
  - intros d [x Hx]. done.
  - change (files demo_names_fs) with ({[1 := mk_file 1 0 false]} : gmap Z file). intros x [y [<- _]%lookup_singleton_Some]. cbn. lia.
  - reflexivity.
Qed.

#[local] Transparent entry_at.
Lemma demo_entry_at k : 0 <= k < 3 -> entry_at demo_names_fs 1 k = slice (Z.to_nat (20 * k)) 20 demo_root_data.
Proof.
  intros Hk. unfold entry_at. rewrite (map_ext_Forall _ (fun b => nth (Z.to_nat b) demo_root_data 0)).
  - assert (k = 0 \/ k = 1 \/ k = 2) as [->|[->| ->]] by lia; vm_compute; reflexivity.
  - apply Forall_forall. intros b Hb%elem_of_seqZ. apply (demo_dir_byte 1023 0 false demo_words); [reflexivity..|lia].
Qed.
#[local] Opaque entry_at.

Lemma demo_entry_cnt : entry_cnt demo_names_fs 1 = 3.
Proof. unfold entry_cnt, demo_names_fs. by rewrite (proj1 (proj2 (demo_dir_idx 1023 0 false))). Qed.

Lemma demo_find name : dir_find demo_names_fs 1 name =
  if same_name name (slice 4 15 (slice 0 20 demo_root_data)) then Some 1
  else if same_name name (slice 4 15 (slice 20 20 demo_root_data)) then Some 1
  else if same_name name (slice 4 15 (slice 40 20 demo_root_data)) then Some 5 else None.
Proof.
  unfold dir_find, find_slot. rewrite demo_entry_cnt. change (Z.to_nat 3) with 3%nat. cbn [find_from]. unfold named, e_in_use, e_name.
  rewrite !demo_entry_at by lia.
  change (Z.to_nat (20 * 0)) with 0%nat. change (Z.to_nat (20 * (0 + 1))) with 20%nat. change (Z.to_nat (20 * (0 + 1 + 1))) with 40%nat.
  assert (forall k, k = 0%nat \/ k = 20%nat \/ k = 40%nat -> negb (nth 19 (slice k 20 demo_root_data) 0 =? 0) = true) as Hu
    by (intros k [->|[->| ->]]; vm_compute; reflexivity).
  rewrite !Hu by tauto. cbn [andb].
  destruct (same_name name _); [cbn [fmap option_fmap option_map]; rewrite demo_entry_at by lia; vm_compute; reflexivity|].
  destruct (same_name name _); [cbn [fmap option_fmap option_map]; rewrite demo_entry_at by lia; vm_compute; reflexivity|].
  destruct (same_name name _); [cbn [fmap option_fmap option_map]; rewrite demo_entry_at by lia; vm_compute; reflexivity|reflexivity].
Qed.

Lemma demo_closed : closed [1; 5] demo_names_fs.
Proof.
  intros s name s' [->| ->%list_elem_of_singleton]%elem_of_cons Hd.
  - rewrite demo_find. repeat destruct (same_name _ _); intros [= <-]; set_solver.
  - exfalso. revert Hd. unfold demo_names_fs. rewrite demo_sector. vm_compute. discriminate.
Qed.

Lemma demo_starts fp : bool_decide (head fp = Some 47) = true -> starts_at demo_names_fs [1; 5] [] fp 1.
Proof.
  intros Hh. split; [left|]. split; [apply (demo_dir_idx 1023 0 false)|]. by rewrite Hh.
Qed.

Lemma demo_user_regular : isdir_at demo_names_fs 5 = false.
Proof. unfold isdir_at, demo_names_fs. rewrite demo_sector. vm_compute. reflexivity. Qed.

(** "/a", "/b" and "x". *)
Lemma demo_path fp c : (fp, c) ∈ [([47; 97], 97); ([47; 98], 98); ([120], 120)] -> good_path fp 2 /\ path_words fp = [[c]].
Proof.
  intros Hc. assert (E : path_words fp = [[c]] /\ Forall (fun c => 0 < c < 256) fp).
  { repeat (apply elem_of_cons in Hc as [[= -> ->]|Hc]; [by split; [vm_compute|repeat constructor]|]). by apply elem_of_nil in Hc. }
  destruct E as [E Hb]. split; [|exact E]. unfold good_path. rewrite E. split_and!; [exact Hb|done|repeat constructor; cbn; lia|cbn; lia].
Qed.

(** "/a" is the file at sector 5. *)
Lemma filesys_open_resolves_witness :
  exists x g, filesys_open the_free_map 2 (replicate 15 0) [47; 97] false demo_names_fs = Done ((x, false), g) /\ x <> 0 /\
    exists p, files g !! x = Some (mk_file p 0 false).
Proof.
  destruct (demo_path [47; 97] 97 ltac:(set_solver)) as [Hp Ew].
  destruct (filesys_open_resolves (q := 1) (pm := 1) (im := demo_map_entry) (priv := demo_priv) [1; 5] [] demo_names_fs [47; 97] 1 2 (replicate 15 0) false)
    as (x & isdir & g & E & _ & _ & Hr).
  - exact demo_names.
  - exact demo_closed.
  - by apply demo_starts.
  - exact Hp.
  - done.
  - rewrite Ew in Hr. cbn [resolve] in Hr. rewrite demo_find in Hr. destruct Hr as (Hx & Hd & p & _ & Hf).
    rewrite demo_user_regular in Hd. subst isdir. exists x, g.
    split; [exact E|]. split; [exact Hx|]. exists p. destruct Hf as [_ ->]. apply lookup_insert_eq.
Defined.



(** *** With the root as the current directory *)

Definition demo_root_open : fs (cache memory_disk) :=
  with_table demo_names_fs [3; 2; 1] (<[3 := new_entry 1]> (inodes demo_names_fs)) 4 [].

Definition demo_cwd_fs : fs (cache memory_disk) :=
  with_cwd (with_objects (allocated demo_root_open) (files demo_names_fs) {[ 4 := mk_dir 3 0 ]}) 4.

Lemma demo_cwd_names : demo_names_ok [1; 5] [(3, 1)] demo_cwd_fs.
Proof.
  apply names_cwd, names_objects.
  - apply names_allocated, (fresh_names [1; 5] [] demo_names_fs 1 demo_names); [left|].
    intros p (i & Hi & Es). destruct (decide (p = 1)) as [->|Hp].
    + change (inodes demo_names_fs !! 1) with (Some demo_map_entry) in Hi. by injection Hi as <-.
    + by destruct (demo_open_inode p i Hi Hp) as [-> ->].
  - reflexivity.
  - intros d [x [<- _]%lookup_singleton_Some]. cbn. lia.
  - change (files demo_names_fs) with ({[1 := mk_file 1 0 false]} : gmap Z file). intros x [y [<- _]%lookup_singleton_Some]. cbn. lia.
Qed.

Lemma demo_cwd_same : same_disk demo_names_fs demo_cwd_fs.
Proof. apply same_disk_store; [exact (inv_store _ _ demo_files)|reflexivity|reflexivity]. Qed.

Lemma failed_chdir_dangles_witness :
  exists g, chdir the_free_map 2 0 [120] demo_cwd_fs = Done (false, g) /\
    filesys_open the_free_map 2 (replicate 15 0) [97] false g = Fault BadPointer.
Proof.
  destruct (demo_path [120] 120 ltac:(set_solver)) as [Hp Ew].
  destruct (failed_chdir_dangles (q := 1) (pm := 1) (im := demo_map_entry) (priv := demo_priv) [1; 5] [(3, 1)] demo_cwd_fs [120] [120] 3 1 2 0)
    as (g & E & _ & Hf).
  - exact demo_cwd_names.
  - split; [discriminate|]. split; [exists 0; reflexivity|]. split; [left|]. exists (new_entry 1). split; reflexivity.
  - exact Hp.
  - discriminate.
  - exact Ew.
  - rewrite (same_find demo_names_fs demo_cwd_fs 1 [120] demo_cwd_same). exact (demo_find [120]).
  - exists g. split; [exact E|]. apply Hf; discriminate.
Defined.

Lemma dir_readdir_enumerates_witness : exists g, readdir_all 4 4 demo_cwd_fs = Done ([[97]], g).
Proof.
  destruct (held_opened [1; 5] [(3, 1)] demo_cwd_fs 3 1 demo_cwd_names ltac:(left)) as (i & Es & Ho & Hr & _).
  pose proof (fun k => same_entry demo_names_fs demo_cwd_fs 1 k demo_cwd_same) as He. pose proof (proj2 (He 0)) as Ec. rewrite demo_entry_cnt in Ec.
  destruct (dir_readdir_enumerates (priv := demo_priv) 3 i 4 Hr demo_cwd_fs Ho) as (g & E & _).
  - rewrite Es. intros k Hk _. rewrite Ec in Hk. rewrite (proj1 (He k)), demo_entry_at by exact Hk.
    assert (k = 0 \/ k = 1 \/ k = 2) as [->|[->| ->]] by lia; eexists; vm_compute; reflexivity.
  - reflexivity.
  - exists g. rewrite Es, Ec in E. change (Z.to_nat 3) with 3%nat in E. cbn [names_from] in E.
    rewrite !(fun k => proj1 (He k)), !demo_entry_at in E by lia. exact E.
Defined.
