(* ===== verification/Heapsort.v ===== *)
(** * lib/stdlib.c: sort and binary search

    An array of [cnt] elements of [size] bytes is the list of its bytes; the
    comparison gets the bytes of its two elements, as the C function gets
    pointers to them.  [heapify]'s loop is bounded by the element count (each
    turn at least doubles the index), [binary_search]'s by the range it halves.

    The theorems: [sort] ends with a sorted permutation of the elements, and
    [binary_search] on a sorted array finds an equal element exactly when there
    is one. *)

From stdpp Require Import options.
From S2P Require Import Prelude Bytes.
From Stdlib Require Import Sorting.Sorted.
Local Open Scope Z_scope.
Local Open Scope kernel_scope.

(** ** The code *)

Definition load_at (array : list Z) (k : Z) : outcome Z :=
  match (if k <? 0 then None else array !! Z.to_nat k) with
  | Some b => Done b
  | None => Fault BadPointer
  end.

Definition store_at (array : list Z) (k v : Z) : outcome (list Z) :=
  let? _ := load_at array k in Done (<[Z.to_nat k := v]> array).

Fixpoint swap_loop (n : nat) (i a b : Z) (array : list Z) : outcome (list Z) :=
  match n with
  | O => Done array
  | S n =>
      let? t := load_at array (a + i) in
      let? u := load_at array (b + i) in
      let? array := store_at array (a + i) u in
      let? array := store_at array (b + i) t in
      swap_loop n (i + 1) a b array
  end.

Definition do_swap (array : list Z) (a_idx b_idx size : Z) : outcome (list Z) :=
  let a := u32 ((a_idx - 1) * size) in
  let b := u32 ((b_idx - 1) * size) in
  swap_loop (Z.to_nat size) 0 a b array.

(** The bytes of the element that a pointer to byte [k] of the array stands for. *)
Definition elem_at (array : list Z) (k size : Z) : outcome (list Z) :=
  if (0 <=? k) && (k + size <=? Z.of_nat (length array)) then
    Done (slice (Z.to_nat k) (Z.to_nat size) array)
  else Fault BadPointer.

Section sort.
Context (compare : list Z -> list Z -> Z).

Definition do_compare (array : list Z) (a_idx b_idx size : Z) : outcome Z :=
  let? x := elem_at array (u32 ((a_idx - 1) * size)) size in
  let? y := elem_at array (u32 ((b_idx - 1) * size)) size in
  Done (compare x y).

Fixpoint heapify (fuel : nat) (array : list Z) (i cnt size : Z) : outcome (list Z) :=
  match fuel with
  | O => Fault OutOfFuel
  | S fuel =>
      let left := u32 (2 * i) in
      let right := u32 (2 * i + 1) in
      let max := i in
      let? max :=
        (if left <=? cnt then
           let? c := do_compare array left max size in Done (if 0 <? c then left else max)
         else Done max) in
      let? max :=
        (if right <=? cnt then
           let? c := do_compare array right max size in Done (if 0 <? c then right else max)
         else Done max) in
      if max =? i then Done array
      else
        let? array := do_swap array i max size in
        heapify fuel array max cnt size
  end.

(** [for (i = n; i > 0; i--) heapify (array, i, ...)] *)
Fixpoint build_loop (n : nat) (array : list Z) (cnt size : Z) : outcome (list Z) :=
  match n with
  | O => Done array
  | S n' =>
      let? array := heapify (S (Z.to_nat cnt)) array (Z.of_nat n) cnt size in
      build_loop n' array cnt size
  end.

(** [for (i = n; i > 1; i--)] *)
Fixpoint sort_loop (n : nat) (array : list Z) (size : Z) : outcome (list Z) :=
  match n with
  | O | 1%nat => Done array
  | S n' =>
      let? array := do_swap array 1 (Z.of_nat n) size in
      let? array := heapify (S n') array 1 (Z.of_nat n - 1) size in
      sort_loop n' array size
  end.

Definition sort (array : list Z) (cnt size : Z) : outcome (list Z) :=
  let? _ := oassert (0 <? size) in
  let? array := build_loop (Z.to_nat (cnt / 2)) array cnt size in
  sort_loop (Z.to_nat cnt) array size.

(** [first] and [last] are offsets of the source's pointers into the array; the
    result is the offset of the match. *)
Fixpoint search_loop (fuel : nat) (key array : list Z) (first last size : Z) : outcome (option Z) :=
  match fuel with
  | O => Fault OutOfFuel
  | S fuel =>
      if first <? last then
        let range := (last - first) / size in
        let middle := first + range / 2 * size in
        let? x := elem_at array middle size in
        let cmp := compare key x in
        if cmp <? 0 then search_loop fuel key array first middle size
        else if 0 <? cmp then search_loop fuel key array (middle + size) last size
        else Done (Some middle)
      else Done None
  end.

Definition binary_search (key array : list Z) (cnt size : Z) : outcome (option Z) :=
  search_loop (S (Z.to_nat cnt)) key array 0 (u32 (size * cnt)) size.
End sort.

(** [compare_thunk] calls the two-argument comparison that [aux] points to. *)
Definition compare_thunk (aux : list Z -> list Z -> Z) (a b : list Z) : Z := aux a b.

Definition qsort (compare : list Z -> list Z -> Z) (array : list Z) (cnt size : Z) : outcome (list Z) :=
  sort (compare_thunk compare) array cnt size.

Definition bsearch (compare : list Z -> list Z -> Z) (key array : list Z) (cnt size : Z) : outcome (option Z) :=
  binary_search (compare_thunk compare) key array cnt size.

(** What the source asks of a comparison. *)
Class StrcmpLike (compare : list Z -> list Z -> Z) := {
  compare_flip x y : 0 < compare x y <-> compare y x < 0;
  compare_trans x y z : compare x y <= 0 -> compare y z <= 0 -> compare x z <= 0;
}.

(** ** Arrays of elements *)

Section elements.
Context (size : nat).

Definition elems_ok (els : list (list Z)) : Prop := Forall (fun e => length e = size) els.

(** Exchanges the elements with 1-based indexes [a] and [b]. *)
Definition swap {A} (els : list A) (a b : nat) : list A :=
  match els !! (a - 1)%nat, els !! (b - 1)%nat with
  | Some x, Some y => <[(b - 1)%nat := x]> (<[(a - 1)%nat := y]> els)
  | _, _ => els
  end.

Lemma length_flat els : elems_ok els -> length (concat els) = (length els * size)%nat.
Proof. induction 1 as [|e els He _ IH]; simpl; [done|]. rewrite length_app, IH, He. lia. Qed.

Lemma slice_flat els k e : elems_ok els -> els !! k = Some e -> slice (k * size) size (concat els) = e.
Proof.
  intros Hok. revert k. induction Hok as [|d els Hd Hok IH]; intros k Hk; [done|]. unfold slice in *. simpl.
  destruct k as [|k]; simpl in *; simplify_eq.
  - by rewrite drop_0, take_app_length.
  - rewrite drop_app_ge by lia. replace (_ - _)%nat with (k * length d)%nat by lia. by apply IH.
Qed.

Lemma lookup_flat els k e i :
  elems_ok els -> els !! k = Some e -> (i < size)%nat -> concat els !! (k * size + i)%nat = e !! i.
Proof.
  intros Hok Hk Hi. pose proof (slice_flat _ _ _ Hok Hk) as E. rewrite <- E. unfold slice.
  by rewrite lookup_take_lt, lookup_drop by done.
Qed.

Lemma load_at_run array k b : array !! k = Some b -> load_at array (Z.of_nat k) = Done b.
Proof. intros H. unfold load_at. rewrite (proj2 (Z.ltb_ge _ _)) by lia. by rewrite Nat2Z.id, H. Qed.

Lemma store_at_run array k v :
  (k < length array)%nat -> store_at array (Z.of_nat k) v = Done (<[k := v]> array).
Proof.
  intros H. destruct (lookup_lt_is_Some_2 _ _ H) as [x Hx]. unfold store_at.
  by rewrite (load_at_run _ _ _ Hx), Nat2Z.id.
Qed.

(** [r] is [array] with [n] bytes at [a] and at [b] exchanged. *)
Definition exchanged (n a b : nat) (array r : list Z) : Prop :=
  length r = length array /\
  forall k, r !! k = if decide (a <= k < a + n)%nat then array !! (k - a + b)%nat
                     else if decide (b <= k < b + n)%nat then array !! (k - b + a)%nat
                     else array !! k.

Lemma swap_loop_run n i a b array :
  (a + i + n <= length array)%nat -> (b + i + n <= length array)%nat ->
  (a = b \/ a + i + n <= b \/ b + i + n <= a)%nat ->
  exists r, swap_loop n (Z.of_nat i) (Z.of_nat a) (Z.of_nat b) array = Done r /\
    exchanged n (a + i) (b + i) array r.
Proof.
  revert i array. induction n as [|n IH]; intros i array Ha Hb Hd; simpl.
  { exists array. split; [done|]. split; [done|]. intros k. by rewrite !decide_False by lia. }
  destruct (lookup_lt_is_Some_2 array (a + i)%nat ltac:(lia)) as [t Ht].
  destruct (lookup_lt_is_Some_2 array (b + i)%nat ltac:(lia)) as [u Hu].
  rewrite <- !Nat2Z.inj_add, (load_at_run _ _ _ Ht), (load_at_run _ _ _ Hu). simpl.
  rewrite store_at_run by lia. simpl. rewrite store_at_run by (rewrite length_insert; lia). simpl.
  replace (Z.of_nat i + 1) with (Z.of_nat (S i)) by lia.
  destruct (IH (S i) (<[(b + i)%nat := t]> (<[(a + i)%nat := u]> array))) as (r & -> & Hl & Hr);
    [rewrite ?length_insert; lia..|lia|].
  exists r. split; [done|]. split; [by rewrite Hl, !length_insert|]. intros k. rewrite Hr.
  assert (Hins : forall j, <[(b + i)%nat := t]> (<[(a + i)%nat := u]> array) !! j =
    if decide (j = b + i)%nat then Some t else if decide (j = a + i)%nat then Some u else array !! j).
  { intros j. destruct (decide (j = b + i)%nat) as [->|]; [rewrite list_lookup_insert_eq; [done|rewrite length_insert; lia]|].
    rewrite list_lookup_insert_ne by done. destruct (decide (j = a + i)%nat) as [->|]; [rewrite list_lookup_insert_eq; [done|lia]|].
    by rewrite list_lookup_insert_ne by done. }
  rewrite !Hins. rewrite <- Ht, <- Hu. repeat case_decide; try lia; try (f_equal; lia).
Qed.

Lemma elems_swap els a b : elems_ok els -> elems_ok (swap els a b).
Proof.
  intros H. unfold swap. destruct (els !! (a - 1)%nat) as [x|] eqn:Ea; [|done].
  destruct (els !! (b - 1)%nat) as [y|] eqn:Eb; [|done]. unfold elems_ok in *.
  apply Forall_insert; [apply Forall_insert; [done|]|]; [exact (Forall_lookup_1 _ _ _ _ H Eb)|exact (Forall_lookup_1 _ _ _ _ H Ea)].
Qed.
End elements.

Lemma length_swap {A} (els : list A) a b : length (swap els a b) = length els.
Proof.
  unfold swap. destruct (els !! _); [|done]. destruct (els !! (b - 1)%nat); [|done].
  by rewrite !length_insert.
Qed.

Lemma lookup_swap {A} (els : list A) a b k :
  (1 <= a <= length els)%nat -> (1 <= b <= length els)%nat ->
  swap els a b !! k = els !! (if decide (k = b - 1)%nat then (a - 1)%nat
                              else if decide (k = a - 1)%nat then (b - 1)%nat else k).
Proof.
  intros Ha Hb. unfold swap.
  destruct (lookup_lt_is_Some_2 els (a - 1)%nat ltac:(lia)) as [x Hx].
  destruct (lookup_lt_is_Some_2 els (b - 1)%nat ltac:(lia)) as [y Hy]. rewrite Hx, Hy.
  destruct (decide (k = b - 1)%nat) as [->|]; [rewrite list_lookup_insert_eq, Hx; [done|rewrite length_insert; lia]|].
  rewrite list_lookup_insert_ne by done.
  destruct (decide (k = a - 1)%nat) as [->|]; [by rewrite list_lookup_insert_eq, Hy by lia|].
  by rewrite list_lookup_insert_ne by done.
Qed.

Lemma swap_perm {A} (els : list A) a b :
  (1 <= a <= length els)%nat -> (1 <= b <= length els)%nat -> swap els a b ≡ₚ els.
Proof.
  intros Ha Hb. apply Permutation_inj. split; [apply length_swap|].
  exists (fun k => if decide (k = b - 1)%nat then (a - 1)%nat
                   else if decide (k = a - 1)%nat then (b - 1)%nat else k).
  split; [|intros k; by apply lookup_swap].
  intros j k Hjk. repeat case_decide; lia.
Qed.

Lemma offset_run size n k :
  (1 <= k <= n)%nat -> Z.of_nat (n * size) < 2 ^ 32 ->
  u32 ((Z.of_nat k - 1) * Z.of_nat size) = Z.of_nat ((k - 1) * size) /\ ((k - 1) * size + size <= n * size)%nat.
Proof.
  intros Hk Hz. assert ((k - 1) * size + size <= n * size)%nat.
  { replace ((k - 1) * size + size)%nat with (k * size)%nat; [apply Nat.mul_le_mono_r; lia|].
    rewrite Nat.mul_sub_distr_r. nia. }
  split; [|done].
  replace ((Z.of_nat k - 1) * Z.of_nat size) with (Z.of_nat ((k - 1) * size)) by (rewrite Nat2Z.inj_mul, Nat2Z.inj_sub; lia).
  apply u32_small. revert H Hz. generalize ((k - 1) * size)%nat (n * size)%nat. lia.
Qed.

Lemma chunk_apart size p q :
  (p <> q -> p * size + size <= q * size \/ q * size + size <= p * size)%nat.
Proof. intros Hn. destruct (lt_eq_lt_dec p q) as [[H| ->]|H]; [left|done|right]; nia. Qed.

Lemma do_swap_run size els a b :
  elems_ok size els -> (1 <= a <= length els)%nat -> (1 <= b <= length els)%nat ->
  Z.of_nat (length els * size) < 2 ^ 32 ->
  do_swap (concat els) (Z.of_nat a) (Z.of_nat b) (Z.of_nat size) = Done (concat (swap els a b)).
Proof.
  intros Hok Ha Hb Hz. unfold do_swap. rewrite Nat2Z.id.
  destruct (offset_run size (length els) a Ha Hz) as [-> Ha'].
  destruct (offset_run size (length els) b Hb Hz) as [-> Hb'].
  pose proof (length_flat size els Hok) as Hlen.
  assert ((a - 1) * size = (b - 1) * size \/ (a - 1) * size + size <= (b - 1) * size \/
          (b - 1) * size + size <= (a - 1) * size)%nat as Hab.
  { destruct (decide (a - 1 = b - 1)%nat) as [->|Hn]; [by left|right; by apply chunk_apart]. }
  destruct (swap_loop_run size 0 ((a - 1) * size) ((b - 1) * size) (concat els)) as (r & E & Hl & Hr); [lia..| |].
  { rewrite !Nat.add_0_r. exact Hab. }
  change 0 with (Z.of_nat 0). rewrite E. f_equal. rewrite !Nat.add_0_r in Hr.
  pose proof (elems_swap size els a b Hok) as Hok'.
  apply list_eq. intros k. destruct (decide (k < length els * size)%nat) as [Hk|Hk].
  - assert (size <> 0%nat) as Hs0 by (intros ->; lia).
    pose proof (Nat.div_mod k size Hs0) as Hdm. pose proof (Nat.mod_upper_bound k size Hs0) as Hm.
    pose proof (Nat.Div0.div_lt_upper_bound k size (length els)) as Hq. rewrite Nat.mul_comm in Hq. specialize (Hq Hk).
    set (q := (k / size)%nat) in *. set (i := (k mod size)%nat) in *. clearbody q i.
    destruct (lookup_lt_is_Some_2 (swap els a b) q) as [e He]; [by rewrite length_swap|].
    rewrite Nat.mul_comm in Hdm. rewrite Hdm at 2. rewrite (lookup_flat size _ _ _ _ Hok' He Hm).
    rewrite lookup_swap in He by done. rewrite Hr.
    pose proof (chunk_apart size q (a - 1)) as Hqa. pose proof (chunk_apart size q (b - 1)) as Hqb.
    clear Hr Ha' Hb' Hlen E Hl Hz Hk Hok'.
    destruct (decide (q = b - 1)%nat) as [Nb|Nb]; [|destruct (decide (q = a - 1)%nat) as [Na|Na]];
      rewrite <- (lookup_flat size _ _ _ i Hok He Hm); clear Hok He Ha Hb.
    + rewrite Nb in Hdm. clear Hqa Hqb Nb Hq. revert Hab Hdm. generalize ((a - 1) * size)%nat ((b - 1) * size)%nat.
      intros A B Hab Hdm. repeat case_decide; f_equal; lia.
    + rewrite Na in Hdm. clear Hqa Hqb Hab Nb Na Hq. revert Hdm. generalize ((a - 1) * size)%nat ((b - 1) * size)%nat.
      intros A B Hdm. rewrite decide_True by lia. f_equal. lia.
    + specialize (Hqa Na). specialize (Hqb Nb). clear Hab Na Nb Hq. revert Hdm Hqa Hqb.
      generalize ((a - 1) * size)%nat ((b - 1) * size)%nat (q * size)%nat. intros A B Q Hdm Hqa Hqb.
      rewrite !decide_False by lia. by rewrite Hdm.
  - rewrite !lookup_ge_None_2; [done|..]; rewrite ?Hl, ?(length_flat size) by done; rewrite ?length_swap; lia.
Qed.

Lemma elem_at_run size els k e :
  elems_ok size els -> els !! (k - 1)%nat = Some e -> (1 <= k)%nat -> Z.of_nat (length els * size) < 2 ^ 32 ->
  elem_at (concat els) (u32 ((Z.of_nat k - 1) * Z.of_nat size)) (Z.of_nat size) = Done e.
Proof.
  intros Hok He Hk Hz. pose proof (lookup_lt_Some _ _ _ He) as Hlt. unfold elem_at.
  destruct (offset_run size (length els) k ltac:(lia) Hz) as [-> Hk']. rewrite (length_flat size) by done.
  rewrite (proj2 (Z.leb_le 0 _)) by apply Nat2Z.is_nonneg.
  rewrite (proj2 (Z.leb_le _ _)) by (rewrite <- Nat2Z.inj_add; by apply Nat2Z.inj_le). cbn [andb]. rewrite !Nat2Z.id.
  by rewrite (slice_flat size els (k - 1) e).
Qed.

(** ** The heap, on lists of elements *)

Section heap.
Context (compare : list Z -> list Z -> Z) `{!StrcmpLike compare}.
Abbreviation E := (list Z).
Implicit Types els : list E.

Definition le (x y : E) : Prop := compare x y <= 0.

(** Whether the element at 1-based index [a] exceeds that at [b]. *)
Definition gt_at els (a b : nat) : bool :=
  match els !! (a - 1)%nat, els !! (b - 1)%nat with
  | Some x, Some y => 0 <? compare x y
  | _, _ => false
  end.

Definition larger els (i cnt : nat) : nat :=
  let m := if (2 * i <=? cnt)%nat && gt_at els (2 * i) i then (2 * i)%nat else i in
  if (2 * i + 1 <=? cnt)%nat && gt_at els (2 * i + 1) m then (2 * i + 1)%nat else m.

Fixpoint sift (fuel : nat) els (i cnt : nat) : list E :=
  match fuel with
  | O => els
  | S fuel =>
      let m := larger els i cnt in
      if (m =? i)%nat then els else sift fuel (swap els i m) m cnt
  end.

Definition le_at els (a b : nat) : Prop :=
  forall x y, els !! (a - 1)%nat = Some x -> els !! (b - 1)%nat = Some y -> le x y.

(** Every node from [lo] on but [i] is at least as large as its children. *)
Definition heap_but (lo cnt i : nat) els : Prop :=
  forall j c, (lo <= j)%nat -> (j <> i)%nat -> (c = 2 * j \/ c = 2 * j + 1)%nat -> (c <= cnt)%nat -> le_at els c j.

Definition heap (lo cnt : nat) els : Prop :=
  forall j c, (lo <= j)%nat -> (c = 2 * j \/ c = 2 * j + 1)%nat -> (c <= cnt)%nat -> le_at els c j.

Lemma le_refl x : le x x.
Proof using StrcmpLike0. unfold le. pose proof (compare_flip x x). lia. Qed.

Lemma le_total x y : 0 < compare x y <-> ~ le x y.
Proof. unfold le. lia. Qed.

Lemma lt_le x y : 0 < compare x y -> le y x.
Proof using StrcmpLike0. unfold le. rewrite compare_flip. lia. Qed.

Lemma le_trans x y z : le x y -> le y z -> le x z.
Proof using StrcmpLike0. apply compare_trans. Qed.

Lemma gt_at_spec els a b :
  (1 <= a <= length els)%nat -> (1 <= b <= length els)%nat ->
  if gt_at els a b then le_at els b a else le_at els a b.
Proof using StrcmpLike0.
  intros Ha Hb. unfold gt_at.
  destruct (lookup_lt_is_Some_2 els (a - 1)%nat ltac:(lia)) as [x Hx].
  destruct (lookup_lt_is_Some_2 els (b - 1)%nat ltac:(lia)) as [y Hy]. rewrite Hx, Hy.
  destruct (Z.ltb_spec 0 (compare x y)) as [H|H]; intros u v Hu Hv; simplify_eq; [by apply lt_le|done].
Qed.

Lemma le_at_refl els a : le_at els a a.
Proof using StrcmpLike0. intros x y Hx Hy. simplify_eq. apply le_refl. Qed.

Lemma le_at_trans els a b c :
  (1 <= b <= length els)%nat -> le_at els a b -> le_at els b c -> le_at els a c.
Proof using StrcmpLike0.
  intros Hb H1 H2 x z Hx Hz. destruct (lookup_lt_is_Some_2 els (b - 1)%nat ltac:(lia)) as [y Hy].
  eapply le_trans; eauto.
Qed.

(** [larger] is the largest of a node and its children. *)
Lemma larger_spec els i cnt :
  (1 <= i <= cnt)%nat -> (cnt <= length els)%nat ->
  let m := larger els i cnt in
  (m = i \/ m = 2 * i \/ m = 2 * i + 1)%nat /\ (m <= cnt)%nat /\ le_at els i m /\
  forall c, (c = 2 * i \/ c = 2 * i + 1)%nat -> (c <= cnt)%nat -> le_at els c m.
Proof using StrcmpLike0.
  intros Hi Hc m. unfold m, larger. clear m.
  set (m1 := if _ && _ then (2 * i)%nat else i).
  assert ((m1 = i \/ m1 = 2 * i)%nat /\ (m1 <= cnt)%nat /\ le_at els i m1 /\
          ((2 * i <= cnt)%nat -> le_at els (2 * i) m1)) as (H1 & H2 & H3 & H4).
  { unfold m1. destruct (Nat.leb_spec (2 * i) cnt) as [Hl|Hl]; cbn [andb].
    - pose proof (gt_at_spec els (2 * i) i ltac:(lia) ltac:(lia)) as Hg.
      destruct (gt_at els (2 * i) i); split_and!; auto; try lia; intros; try apply le_at_refl; done.
    - split_and!; auto; [lia|apply le_at_refl|lia]. }
  clearbody m1. destruct (Nat.leb_spec (2 * i + 1) cnt) as [Hr|Hr]; cbn [andb].
  - pose proof (gt_at_spec els (2 * i + 1) m1 ltac:(lia) ltac:(lia)) as Hg.
    destruct (gt_at els (2 * i + 1) m1).
    + split_and!; [lia|lia|eapply (le_at_trans _ _ m1); [lia|done..]|].
      intros c [-> | ->] Hcc; [eapply (le_at_trans _ _ m1); [lia|by apply H4|done]|apply le_at_refl].
    + split_and!; [lia|lia|done|]. intros c [-> | ->] Hcc; [by apply H4|done].
  - split_and!; [lia|lia|done|]. intros c [-> | ->] Hcc; [by apply H4|lia].
Qed.

Definition transpose (a b k : nat) : nat :=
  if decide (k = b) then a else if decide (k = a) then b else k.

Lemma le_at_swap els a b c j :
  (1 <= a <= length els)%nat -> (1 <= b <= length els)%nat -> (1 <= c)%nat -> (1 <= j)%nat ->
  le_at els (transpose a b c) (transpose a b j) -> le_at (swap els a b) c j.
Proof.
  intros Ha Hb Hc Hj H x y. rewrite !lookup_swap by done. intros Hx Hy. apply H; clear H; unfold transpose.
  - rewrite <- Hx. f_equal. clear Hx Hy. repeat case_decide; lia.
  - rewrite <- Hy. f_equal. clear Hx Hy. repeat case_decide; lia.
Qed.

(** A child of [i] is at most [i]'s parent. *)
Definition below_parent (lo cnt i : nat) els : Prop :=
  forall p c, (lo <= p)%nat -> (i = 2 * p \/ i = 2 * p + 1)%nat -> (c = 2 * i \/ c = 2 * i + 1)%nat ->
    (c <= cnt)%nat -> le_at els c p.

Lemma sift_step els lo i cnt :
  let m := larger els i cnt in
  (1 <= lo <= i)%nat -> (i <= cnt <= length els)%nat -> m <> i ->
  heap_but lo cnt i els -> below_parent lo cnt i els ->
  heap_but lo cnt m (swap els i m) /\ below_parent lo cnt m (swap els i m).
Proof using StrcmpLike0.
  intros m Hlo Hi Hmi Hh Hp.
  destruct (larger_spec els i cnt ltac:(lia) ltac:(lia)) as (Hm & Hmc & Him & Hc). fold m in Hm, Hmc, Him, Hc.
  split.
  - intros j c Hj Hjm Hcj Hcc. apply le_at_swap; [lia..|]. unfold transpose.
    rewrite (decide_False (P := j = m)) by done.
    destruct (decide (j = i)) as [->|Hji].
    + destruct (decide (c = m)) as [->|Hcm]; [done|]. rewrite decide_False by lia. by apply Hc.
    + destruct (decide (c = m)) as [->|Hcm]; [lia|].
      destruct (decide (c = i)) as [->|Hci]; [apply Hp; lia|]. by apply (Hh j c).
  - intros p c Hpl Hpm Hcm Hcc. apply le_at_swap; [lia..|]. unfold transpose.
    rewrite (decide_False (P := c = m)), (decide_False (P := c = i)) by lia.
    rewrite (decide_False (P := p = m)) by lia. rewrite decide_True by lia. by apply Hh; [lia|done..].
Qed.

Lemma sift_spec fuel els lo i cnt :
  (1 <= lo <= i)%nat -> (i <= cnt <= length els)%nat -> (cnt < fuel + i)%nat ->
  heap_but lo cnt i els -> below_parent lo cnt i els ->
  let r := sift fuel els i cnt in
  heap lo cnt r /\ r ≡ₚ els /\ (forall k, (cnt <= k)%nat -> r !! k = els !! k).
Proof using StrcmpLike0.
  revert els i. induction fuel as [|fuel IH]; intros els i Hlo Hi Hf Hh Hp; [lia|]. cbn [sift].
  destruct (larger_spec els i cnt ltac:(lia) ltac:(lia)) as (Hm & Hmc & Him & Hc).
  destruct (Nat.eqb_spec (larger els i cnt) i) as [E|E].
  - rewrite E in Hc. split; [|done]. intros j c Hj Hcj Hcc.
    destruct (decide (j = i)) as [->|Hji]; [by apply Hc|by apply (Hh j c)].
  - destruct (sift_step els lo i cnt Hlo Hi E Hh Hp) as [Hh' Hp'].
    destruct (IH (swap els i (larger els i cnt)) (larger els i cnt)) as (H1 & H2 & H3);
      [lia|rewrite length_swap; lia|lia|done..|].
    split; [done|]. split.
    + rewrite H2. apply swap_perm; lia.
    + intros k Hk. rewrite H3 by done. rewrite lookup_swap by lia. by rewrite !decide_False by lia.
Qed.

Lemma length_sift fuel els i cnt : length (sift fuel els i cnt) = length els.
Proof.
  revert els i. induction fuel as [|fuel IH]; intros els i; [done|]. cbn [sift].
  destruct (_ =? _)%nat; [done|]. by rewrite IH, length_swap.
Qed.

(** The root of a heap is its largest element. *)
Lemma heap_root els cnt k :
  heap 1 cnt els -> (1 <= k <= cnt)%nat -> (cnt <= length els)%nat -> le_at els k 1.
Proof using StrcmpLike0.
  intros Hh. induction k as [k IH] using lt_wf_ind. intros Hk Hc.
  destruct (decide (k = 1)%nat) as [->|Hne]; [apply le_at_refl|].
  pose proof (Nat.div_mod k 2 ltac:(lia)) as Hd. pose proof (Nat.mod_upper_bound k 2 ltac:(lia)).
  set (p := (k / 2)%nat) in *. set (r := (k mod 2)%nat) in *. clearbody p r.
  eapply (le_at_trans _ k p 1); [lia|apply (Hh p k); lia|apply IH; lia].
Qed.

(** ** [heapify] sifts *)

Lemma elems_sift size fuel els i cnt : elems_ok size els -> elems_ok size (sift fuel els i cnt).
Proof.
  revert els i. induction fuel as [|fuel IH]; intros els i H; [done|]. cbn [sift].
  destruct (_ =? _)%nat; [done|]. by apply IH, elems_swap.
Qed.

Lemma do_compare_run size els a b :
  elems_ok size els -> (1 <= a <= length els)%nat -> (1 <= b <= length els)%nat ->
  Z.of_nat (length els * size) < 2 ^ 32 ->
  exists c, do_compare compare (concat els) (Z.of_nat a) (Z.of_nat b) (Z.of_nat size) = Done c /\
    (0 <? c) = gt_at els a b.
Proof.
  intros Hok Ha Hb Hz. unfold do_compare, gt_at.
  destruct (lookup_lt_is_Some_2 els (a - 1)%nat ltac:(lia)) as [x Hx].
  destruct (lookup_lt_is_Some_2 els (b - 1)%nat ltac:(lia)) as [y Hy].
  rewrite (elem_at_run size els a x) by (done || lia). simpl.
  rewrite (elem_at_run size els b y) by (done || lia). simpl. rewrite Hx, Hy. by eexists.
Qed.

Lemma heapify_run size fuel els i cnt :
  elems_ok size els -> (1 <= i <= cnt)%nat -> (cnt <= length els)%nat -> (cnt < fuel + i)%nat ->
  Z.of_nat (length els * size) < 2 ^ 32 -> Z.of_nat (length els) < 2 ^ 31 ->
  heapify compare fuel (concat els) (Z.of_nat i) (Z.of_nat cnt) (Z.of_nat size) = Done (concat (sift fuel els i cnt)).
Proof using StrcmpLike0.
  revert els i. induction fuel as [|fuel IH]; intros els i Hok Hi Hc Hf Hz Hlen; [lia|]. cbn [heapify sift].
  destruct (larger_spec els i cnt ltac:(lia) ltac:(lia)) as (Hm & Hmc & _ & _).
  rewrite !u32_small by lia.
  replace (2 * Z.of_nat i) with (Z.of_nat (2 * i)) by lia.
  replace (Z.of_nat (2 * i) + 1) with (Z.of_nat (2 * i + 1)) by lia.
  set (m1 := if (2 * i <=? cnt)%nat && gt_at els (2 * i) i then (2 * i)%nat else i).
  set (step1 := if Z.of_nat (2 * i) <=? _ then _ else _).
  assert (step1 = Done (Z.of_nat m1)) as ->.
  { unfold step1, m1. destruct (Nat.leb_spec (2 * i) cnt) as [Hl|Hl].
    - rewrite (proj2 (Z.leb_le _ _)) by lia.
      destruct (do_compare_run size els (2 * i) i Hok) as (c & -> & Hg); [lia..|done|]. cbn [obind andb]. rewrite Hg.
      by destruct (gt_at _ _ _).
    - by rewrite (proj2 (Z.leb_gt _ _)) by lia. }
  assert ((m1 = i \/ m1 = 2 * i)%nat /\ (m1 <= cnt)%nat) as [Hm1 Hm1c].
  { unfold m1. destruct (Nat.leb_spec (2 * i) cnt); cbn [andb]; [destruct (gt_at _ _ _)|]; lia. }
  cbn [obind]. set (step2 := if Z.of_nat (2 * i + 1) <=? _ then _ else _).
  assert (step2 = Done (Z.of_nat (larger els i cnt))) as ->.
  { unfold step2, larger. fold m1. destruct (Nat.leb_spec (2 * i + 1) cnt) as [Hl|Hl].
    - rewrite (proj2 (Z.leb_le _ _)) by lia.
      destruct (do_compare_run size els (2 * i + 1) m1 Hok) as (c & -> & Hg); [lia..|done|]. cbn [obind andb]. rewrite Hg.
      by destruct (gt_at els (2 * i + 1) m1).
    - by rewrite (proj2 (Z.leb_gt _ _)) by lia. }
  cbn [obind]. destruct (Nat.eqb_spec (larger els i cnt) i) as [E|E].
  - by rewrite E, Z.eqb_refl.
  - rewrite (proj2 (Z.eqb_neq _ _)) by lia. rewrite (do_swap_run size) by (done || lia). cbn [obind].
    apply IH; rewrite ?length_swap; [by apply elems_swap|lia..].
Qed.

(** ** The loops *)

Definition sorted els : Prop := StronglySorted le els.

Definition ready (cnt : nat) els : Prop :=
  heap 1 cnt els /\ sorted (drop cnt els) /\
  forall x y, x ∈ take cnt els -> y ∈ drop cnt els -> le x y.

Lemma build_loop_run size els n :
  elems_ok size els -> Z.of_nat (length els * size) < 2 ^ 32 -> Z.of_nat (length els) < 2 ^ 31 ->
  (n <= length els / 2)%nat -> heap (S n) (length els) els ->
  exists els', build_loop compare n (concat els) (Z.of_nat (length els)) (Z.of_nat size) = Done (concat els') /\
    elems_ok size els' /\ els' ≡ₚ els /\ heap 1 (length els) els'.
Proof using StrcmpLike0.
  intros Hok Hz Hlen. revert els Hok Hz Hlen. induction n as [|n IH]; intros els Hok Hz Hlen Hn Hh.
  { by exists els. }
  cbn [build_loop]. rewrite Nat2Z.id. pose proof (Nat.Div0.mul_div_le (length els) 2) as Hd.
  rewrite (heapify_run size) by (done || lia). cbn [obind].
  destruct (sift_spec (S (length els)) els (S n) (S n) (length els)) as (H1 & H2 & _); [lia..| | |].
  { intros j c Hj Hji Hc Hcc. apply (Hh j c); [lia|done..]. }
  { intros p c Hp Hi. lia. }
  set (r := sift _ els _ _) in *. pose proof (Permutation_length H2) as Hl.
  destruct (IH r) as (els' & E & H3 & H4 & H5); [by apply elems_sift|by rewrite Hl..|by rewrite Hl; lia| |].
  { by rewrite Hl. }
  rewrite Hl in E, H5. exists els'. split_and!; [done..|by rewrite H4|done].
Qed.

Lemma take_drop_swap els n :
  (1 < n <= length els)%nat ->
  drop (n - 1) (swap els 1 n) = (nth 0 els []) :: drop n els /\
  forall k, (1 <= k < n - 1)%nat -> swap els 1 n !! k = els !! k.
Proof.
  intros Hn. split.
  - apply list_eq. intros k. rewrite lookup_drop, lookup_swap by lia.
    destruct k as [|k]; simpl.
    + rewrite decide_True by lia. destruct els; [simpl in Hn; lia|done].
    + rewrite lookup_drop. rewrite !decide_False by lia. f_equal. lia.
  - intros k Hk. rewrite lookup_swap by lia. by rewrite !decide_False by lia.
Qed.

Lemma elem_take els n x : x ∈ take n els <-> exists k, (k < n)%nat /\ els !! k = Some x.
Proof.
  rewrite list_elem_of_lookup. split.
  - intros [k Hk]. apply lookup_take_Some in Hk as [? ?]. eauto.
  - intros (k & Hk & E). exists k. by apply lookup_take_Some.
Qed.

(** After the root is exchanged with the last element of the heap and sifted
    down, one more element is in its final place. *)
Lemma ready_step els n :
  (1 < n <= length els)%nat -> ready n els ->
  ready (n - 1) (sift n (swap els 1 n) 1 (n - 1)) /\ sift n (swap els 1 n) 1 (n - 1) ≡ₚ els.
Proof using StrcmpLike0.
  intros Hn (Hh & Hs & Hle). destruct (take_drop_swap els n Hn) as [Hd Hk].
  destruct (sift_spec n (swap els 1 n) 1 1 (n - 1)) as (H1 & H2 & H3); [lia|rewrite length_swap; lia|lia| | |].
  { intros j c Hj Hj1 Hc Hcc x y. rewrite !Hk by lia. apply (Hh j c); lia. }
  { intros p c Hp Hi. lia. }
  set (r := sift _ _ _ _) in *. pose proof (swap_perm els 1 n ltac:(lia) ltac:(lia)) as Hp.
  assert (drop (n - 1) r = nth 0 els [] :: drop n els) as Hdr.
  { rewrite <- Hd. apply list_eq. intros k. rewrite !lookup_drop. apply H3. lia. }
  assert (Hfirst : forall x, x ∈ take n els -> le x (nth 0 els [])).
  { intros x (k & Hkn & Hx)%elem_take. destruct els as [|e els]; [done|].
    apply (heap_root (e :: els) n (S k) Hh ltac:(lia) ltac:(lia)); [|done]. by rewrite Nat.sub_1_r. }
  assert (take (n - 1) r ++ nth 0 els [] :: drop n els ≡ₚ take n els ++ drop n els) as Hpp.
  { rewrite <- Hdr, !take_drop. by rewrite H2, Hp. }
  assert (Hsub : forall x, x ∈ take (n - 1) r -> x ∈ take n els).
  { intros x Hx. change (nth 0 els [] :: drop n els) with ([nth 0 els []] ++ drop n els) in Hpp.
    rewrite app_assoc in Hpp. apply Permutation_app_inv_r in Hpp. rewrite <- Hpp. apply elem_of_app. by left. }
  split; [|by rewrite H2]. split_and!; [done|..]; rewrite Hdr.
  - constructor; [done|]. apply Forall_forall. intros y Hy. apply Hle; [|done].
    apply elem_take. exists 0%nat. split; [lia|]. destruct els; [simpl in Hn; lia|done].
  - intros x y Hx Hy. apply elem_of_cons in Hy as [->|Hy]; [by apply Hfirst, Hsub|by apply Hle; [apply Hsub|]].
Qed.

Lemma sort_loop_run size els n :
  elems_ok size els -> Z.of_nat (length els * size) < 2 ^ 32 -> Z.of_nat (length els) < 2 ^ 31 ->
  (n <= length els)%nat -> ready n els ->
  exists els', sort_loop compare n (concat els) (Z.of_nat size) = Done (concat els') /\
    elems_ok size els' /\ els' ≡ₚ els /\ sorted els'.
Proof using StrcmpLike0.
  revert els. induction n as [|n IH]; intros els Hok Hz Hlen Hn Hr.
  { exists els. split_and!; [done..|]. destruct Hr as (_ & Hs & _). by rewrite drop_0 in Hs. }
  destruct n as [|n].
  { exists els. split_and!; [done..|]. destruct Hr as (_ & Hs & Hle). destruct els as [|e els]; [constructor|].
    simpl in *. rewrite take_0, drop_0 in *. constructor; [done|]. apply Forall_forall. intros y Hy. apply Hle; set_solver. }
  cbn [sort_loop]. change 1 with (Z.of_nat 1) at 1. rewrite (do_swap_run size) by (done || lia). cbn [obind].
  replace (Z.of_nat (S (S n)) - 1) with (Z.of_nat (S n)) by lia. change 1 with (Z.of_nat 1) at 1.
  rewrite (heapify_run size) by (rewrite ?length_swap; (by apply elems_swap) || lia). cbn [obind].
  destruct (ready_step els (S (S n)) ltac:(lia) Hr) as [Hr' Hp]. replace (S (S n) - 1)%nat with (S n) in Hr', Hp by lia.
  set (r := sift _ _ _ _) in *. pose proof (Permutation_length Hp) as Hl.
  destruct (IH r) as (els' & E & H1 & H2 & H3); [by apply elems_sift, elems_swap|by rewrite Hl..|rewrite Hl; lia|done|].
  exists els'. split_and!; [done..|by rewrite H2|done].
Qed.
End heap.

(** ** Binary search *)

Section search.
Context (compare : list Z -> list Z -> Z) `{!StrcmpLike compare} (size : nat) (els : list (list Z)) (key : list Z).
Context (Hok : elems_ok size els) (Hsize : (0 < size)%nat) (Hsorted : sorted compare els).

(** No element outside [lo, hi) equals the key: those before are smaller and
    those after are larger. *)
Definition narrowed (lo hi : nat) : Prop :=
  forall k e, els !! k = Some e -> ((k < lo)%nat -> 0 < compare key e) /\ ((hi <= k)%nat -> compare key e < 0).

Lemma sorted_lookup j k x y : (j <= k)%nat -> els !! j = Some x -> els !! k = Some y -> compare x y <= 0.
Proof using StrcmpLike0 Hsorted.
  clear Hok Hsize. revert j k. induction Hsorted as [|e l Hl IH Hf]; intros j k Hjk Hj Hk; [done|].
  destruct j as [|j], k as [|k]; simpl in *; simplify_eq; [apply (le_refl compare)| |lia|].
  - apply list_elem_of_lookup_2 in Hk. rewrite Forall_forall in Hf. by apply Hf.
  - apply (IH Hl j k); [lia|done..].
Qed.

Lemma narrow_low m e lo hi :
  els !! m = Some e -> 0 < compare key e -> narrowed lo hi -> narrowed (S m) hi.
Proof using StrcmpLike0 Hsorted.
  clear Hok Hsize. intros Hm Hc Hn k x Hk. split; [|apply (Hn k x Hk)]. intros Hlt.
  pose proof (sorted_lookup k m x e ltac:(lia) Hk Hm) as Hle.
  destruct (Z_lt_le_dec 0 (compare key x)) as [|Hx]; [done|].
  pose proof (compare_trans key x e Hx Hle). lia.
Qed.

Lemma narrow_high m e lo hi :
  els !! m = Some e -> compare key e < 0 -> narrowed lo hi -> narrowed lo m.
Proof using StrcmpLike0 Hsorted.
  clear Hok Hsize. intros Hm Hc Hn k x Hk. split; [apply (Hn k x Hk)|]. intros Hlt.
  pose proof (sorted_lookup m k e x ltac:(lia) Hm Hk) as Hle.
  destruct (Z_lt_le_dec (compare key x) 0) as [|Hx]; [done|].
  assert (compare x key <= 0) as Hx' by (pose proof (compare_flip x key); lia).
  pose proof (compare_trans e x key Hle Hx'). rewrite <- compare_flip in Hc. lia.
Qed.

Definition found (r : option Z) : Prop :=
  match r with
  | Some off => exists k e, off = Z.of_nat (k * size) /\ els !! k = Some e /\ compare key e = 0
  | None => forall e, e ∈ els -> compare key e <> 0
  end.

Lemma elem_at_offset k e :
  els !! k = Some e -> elem_at (concat els) (Z.of_nat (k * size)) (Z.of_nat size) = Done e.
Proof using Hok.
  clear Hsize. intros He. unfold elem_at. rewrite (length_flat size) by done.
  rewrite (proj2 (Z.leb_le 0 _)) by apply Nat2Z.is_nonneg.
  rewrite (proj2 (Z.leb_le _ _)).
  - cbn [andb]. rewrite !Nat2Z.id. by rewrite (slice_flat size els k e).
  - apply lookup_lt_Some in He. rewrite <- Nat2Z.inj_add. apply Nat2Z.inj_le. nia.
Qed.

Lemma search_loop_run fuel lo hi :
  (lo <= hi <= length els)%nat -> (hi - lo < fuel)%nat -> narrowed lo hi ->
  exists r, search_loop compare fuel key (concat els) (Z.of_nat (lo * size)) (Z.of_nat (hi * size)) (Z.of_nat size) = Done r /\
    found r.
Proof using StrcmpLike0 Hok Hsize Hsorted.
  revert lo hi. induction fuel as [|fuel IH]; intros lo hi Hlh Hf Hn; [lia|]. cbn [search_loop].
  destruct (Z.ltb_spec (Z.of_nat (lo * size)) (Z.of_nat (hi * size))) as [Hlt|Hge].
  - assert (lo < hi)%nat as Hlo by nia.
    assert ((Z.of_nat (hi * size) - Z.of_nat (lo * size)) / Z.of_nat size = Z.of_nat (hi - lo)) as ->.
    { rewrite <- Nat2Z.inj_sub by nia. rewrite <- Nat.mul_sub_distr_r, Nat2Z.inj_mul. apply Z.div_mul. lia. }
    set (m := (lo + (hi - lo) / 2)%nat).
    assert (lo <= m < hi)%nat as Hm.
    { unfold m. pose proof (Nat.div_lt (hi - lo) 2 ltac:(lia) ltac:(lia)). lia. }
    replace (Z.of_nat (lo * size) + Z.of_nat (hi - lo) / 2 * Z.of_nat size) with (Z.of_nat (m * size)).
    2:{ unfold m. rewrite Nat.mul_add_distr_r, Nat2Z.inj_add. rewrite (Nat2Z.inj_mul (_ / 2)), Nat2Z.inj_div. done. }
    clearbody m. destruct (lookup_lt_is_Some_2 els m ltac:(lia)) as [e He].
    rewrite (elem_at_offset m e He). cbn [obind].
    destruct (Z.ltb_spec (compare key e) 0) as [Hc|Hc].
    + apply IH; [lia..|]. by apply (narrow_high m e lo hi).
    + destruct (Z.ltb_spec 0 (compare key e)) as [Hc'|Hc'].
      * replace (Z.of_nat (m * size) + Z.of_nat size) with (Z.of_nat (S m * size)) by lia.
        apply IH; [lia..|]. by apply (narrow_low m e lo hi).
      * eexists. split; [reflexivity|]. exists m, e. split_and!; [done..|lia].
  - eexists. split; [reflexivity|]. intros e He. apply list_elem_of_lookup in He as [k Hk].
    destruct (Hn k e Hk) as [H1 H2]. assert (hi <= lo)%nat by nia.
    destruct (decide (k < lo)%nat); [specialize (H1 ltac:(lia))|specialize (H2 ltac:(lia))]; lia.
Qed.
End search.

(** ** Properties *)

(** C26: [sort] sorts.  For every array of fewer than 2^31 elements of a positive
    size and every comparison that is a total preorder, heapsort terminates
    without leaving the array, and the elements end up in ascending order, a
    permutation of what they were. *)
Theorem sort_correct (compare : list Z -> list Z -> Z) `{!StrcmpLike compare} (size : nat) (els : list (list Z))
  (Hsize : (0 < size)%nat) (Hok : elems_ok size els) (Hlen : Z.of_nat (length els) < 2 ^ 31)
  (Hz : Z.of_nat (length els * size) < 2 ^ 32) :
  exists els', sort compare (concat els) (Z.of_nat (length els)) (Z.of_nat size) = Done (concat els') /\
    elems_ok size els' /\ els' ≡ₚ els /\ StronglySorted (fun x y => compare x y <= 0) els'.
Proof.
  unfold sort. rewrite (proj2 (Z.ltb_lt _ _)) by lia. cbn [oassert obind].
  change 2 with (Z.of_nat 2). rewrite <- Nat2Z.inj_div, Nat2Z.id.
  destruct (build_loop_run compare size els (length els / 2) Hok Hz Hlen ltac:(lia)) as (els1 & E1 & H1 & P1 & Hh).
  { intros j c Hj Hc Hcc. pose proof (Nat.div_mod (length els) 2 ltac:(lia)) as Hd.
    pose proof (Nat.mod_upper_bound (length els) 2 ltac:(lia)). lia. }
  rewrite E1. cbn [obind]. rewrite Nat2Z.id. pose proof (Permutation_length P1) as Hl.
  destruct (sort_loop_run compare size els1 (length els)) as (els2 & E2 & H2 & P2 & Hs); [done|by rewrite Hl..|lia| |].
  { split_and!; [done|..]; rewrite drop_ge by lia; [constructor|]. intros x y _ Hy. by apply elem_of_nil in Hy. }
  exists els2. split_and!; [done..|by rewrite P2|done].
Qed.

(** [binary_search] decides membership.  On a sorted array it terminates,
    returns the offset of an element equal to the key if there is one, and a null
    pointer only if there is none. *)
Lemma binary_search_correct (compare : list Z -> list Z -> Z) `{!StrcmpLike compare} (size : nat)
  (els : list (list Z)) (key : list Z)
  (Hsize : (0 < size)%nat) (Hok : elems_ok size els) (Hz : Z.of_nat (length els * size) < 2 ^ 32)
  (Hsorted : StronglySorted (fun x y => compare x y <= 0) els) :
  exists r, binary_search compare key (concat els) (Z.of_nat (length els)) (Z.of_nat size) = Done r /\
    match r with
    | Some off => exists k e, off = Z.of_nat (k * size) /\ els !! k = Some e /\ compare key e = 0
    | None => forall e, e ∈ els -> compare key e <> 0
    end.
Proof.
  unfold binary_search. rewrite Nat2Z.id, <- Nat2Z.inj_mul, Nat.mul_comm. rewrite u32_small by lia.
  apply (search_loop_run compare size els key Hok Hsize Hsorted (S (length els)) 0 (length els)); [lia..|].
  intros k e Hk. apply lookup_lt_Some in Hk. split; lia.
Qed.

(** Unsigned little-endian order. *)
Definition compare_le (x y : list Z) : Z := le_decode x - le_decode y.

#[local] Instance compare_le_ok : StrcmpLike compare_le.
Proof. split; unfold compare_le; lia. Qed.

Lemma sort_correct_witness :
  exists els', sort compare_le [3; 0; 1; 0; 2; 0; 1; 1] 4 2 = Done (concat els') /\
    elems_ok 2 els' /\ els' ≡ₚ [[3; 0]; [1; 0]; [2; 0]; [1; 1]] /\
    StronglySorted (fun x y => compare_le x y <= 0) els'.
Proof. apply (sort_correct compare_le 2 [[3; 0]; [1; 0]; [2; 0]; [1; 1]]); [lia|by repeat constructor|simpl; lia..]. Defined.

