(* ===== verification/Random.v ===== *)
(** * lib/random.c: the pseudo-random number generator

    The RC4 state: the table [s], the two indexes and whether it was
    initialized.  All of it is 8 bits wide.  [random_bytes] returns the bytes it
    stores in its buffer.

    The theorem: whatever the seed and the calls, the table is a permutation of
    the 256 bytes, so every access is inside it, and the bytes of two successive
    calls are those of one longer call. *)

From stdpp Require Import options.
From S2P Require Import Prelude Bytes Heapsort.
Local Open Scope Z_scope.
Local Open Scope kernel_scope.

Record prng := mk_prng { s : list Z; s_i : Z; s_j : Z; inited : bool }.

(** [swap_byte (s + i, s + j)] *)
Definition swap_byte (t : list Z) (i j : Z) : outcome (list Z) :=
  let? a := load_at t i in
  let? b := load_at t j in
  let? t := store_at t i b in
  store_at t j a.

Definition seed_byte (seed : Z) (k : Z) : Z := Z.shiftr seed (8 * k) mod 256.

Fixpoint key_loop (n : nat) (i : Z) (j : Z) (seed : Z) (t : list Z) : outcome (list Z) :=
  match n with
  | O => Done t
  | S n =>
      let? x := load_at t i in
      let j := u8 (j + x + seed_byte seed (i mod 4)) in
      let? t := swap_byte t i j in
      key_loop n (i + 1) j seed t
  end.

Definition random_init (seed : Z) : M prng unit :=
  let! t := lift (key_loop 256 0 0 seed (seqZ 0 256)) in
  modify (fun _ => mk_prng t 0 0 true).

Definition next_byte : M prng Z :=
  let! g := get in
  let i := u8 (s_i g + 1) in
  let! x := lift (load_at (s g) i) in
  let j := u8 (s_j g + x) in
  let! t := lift (swap_byte (s g) i j) in
  modify (fun g => mk_prng t i j (inited g)) ;;
  let! a := lift (load_at t i) in
  let! b := lift (load_at t j) in
  lift (load_at t (u8 (a + b))).

Fixpoint bytes_loop (n : nat) : M prng (list Z) :=
  match n with
  | O => ret []
  | S n => let! b := next_byte in let! bs := bytes_loop n in ret (b :: bs)
  end.

Definition random_bytes (size : nat) : M prng (list Z) :=
  let! g := get in
  (if inited g then ret tt else random_init 0) ;;
  bytes_loop size.

Definition random_ulong : M prng Z :=
  let! bs := random_bytes 4 in ret (le_decode bs).

(** ** The table is a permutation *)

Definition table_ok (t : list Z) : Prop := t ≡ₚ seqZ 0 256.

Definition prng_ok (g : prng) : Prop :=
  inited g = true -> table_ok (s g) /\ is_byte (s_i g) /\ is_byte (s_j g).

(** What C gives the statics before the first call. *)
Definition unseeded : prng := mk_prng (replicate 256 0) 0 0 false.

Lemma u8_byte z : is_byte (u8 z).
Proof. apply Z.mod_pos_bound. lia. Qed.

Lemma table_length t : table_ok t -> length t = 256%nat.
Proof. intros H. by rewrite (Permutation_length H), length_seqZ. Qed.

Lemma table_load t k : table_ok t -> is_byte k -> exists b, load_at t k = Done b /\ is_byte b.
Proof.
  intros Ht Hk. destruct (lookup_lt_is_Some_2 t (Z.to_nat k)) as [b Hb].
  { rewrite (table_length t Ht). unfold is_byte in Hk. lia. }
  exists b. split.
  - rewrite <- (load_at_run t _ _ Hb). f_equal. unfold is_byte in Hk. lia.
  - apply list_elem_of_lookup_2 in Hb. unfold table_ok in Ht. rewrite Ht in Hb. by apply elem_of_seqZ in Hb.
Qed.

Lemma swap_byte_run t i j :
  table_ok t -> is_byte i -> is_byte j -> exists t', swap_byte t i j = Done t' /\ table_ok t'.
Proof.
  intros Ht Hi Hj. unfold is_byte in *. pose proof (table_length t Ht) as Hl.
  destruct (lookup_lt_is_Some_2 t (Z.to_nat i) ltac:(lia)) as [a Ha].
  destruct (lookup_lt_is_Some_2 t (Z.to_nat j) ltac:(lia)) as [b Hb].
  exists (swap t (Z.to_nat i + 1) (Z.to_nat j + 1)). split.
  - unfold swap_byte, swap. rewrite !Nat.add_sub, Ha, Hb.
    rewrite <- (Z2Nat.id i), <- (Z2Nat.id j) by lia. rewrite (load_at_run t _ _ Ha), (load_at_run t _ _ Hb). simpl.
    rewrite store_at_run by lia. simpl. rewrite store_at_run by (rewrite length_insert; lia). by rewrite !Nat2Z.id.
  - unfold table_ok. rewrite swap_perm by lia. done.
Qed.

Lemma key_loop_run n i j seed t :
  table_ok t -> 0 <= i -> i + Z.of_nat n <= 256 -> exists t', key_loop n i j seed t = Done t' /\ table_ok t'.
Proof.
  revert i j t. induction n as [|n IH]; intros i j t Ht Hi Hn; simpl; [by exists t|].
  assert (is_byte i) as Hb by (unfold is_byte; lia).
  destruct (table_load t i Ht Hb) as (x & -> & _). simpl.
  destruct (swap_byte_run t i (u8 (j + x + seed_byte seed (i mod 4))) Ht Hb (u8_byte _)) as (t' & -> & Ht'). simpl.
  apply IH; [done|lia..].
Qed.

Lemma random_init_run seed g : exists g', random_init seed g = Done (tt, g') /\ prng_ok g' /\ inited g' = true.
Proof.
  unfold random_init, lift, bind.
  destruct (key_loop_run 256 0 0 seed (seqZ 0 256)) as (t & -> & Ht); [by unfold table_ok|lia..|].
  eexists. split; [reflexivity|]. split; [|done]. intros _. split_and!; [done|unfold is_byte; simpl; lia..].
Qed.

Lemma next_byte_run g :
  prng_ok g -> inited g = true ->
  exists b g', next_byte g = Done (b, g') /\ is_byte b /\ prng_ok g' /\ inited g' = true.
Proof.
  intros Hg Hi. destruct (Hg Hi) as (Ht & Hbi & Hbj). unfold next_byte, get, lift, bind.
  destruct (table_load _ _ Ht (u8_byte (s_i g + 1))) as (x & -> & _).
  destruct (swap_byte_run (s g) (u8 (s_i g + 1)) (u8 (s_j g + x)) Ht (u8_byte _) (u8_byte _)) as (t & -> & Ht').
  unfold modify.
  destruct (table_load _ _ Ht' (u8_byte (s_i g + 1))) as (a & -> & _).
  destruct (table_load _ _ Ht' (u8_byte (s_j g + x))) as (b & -> & _).
  destruct (table_load _ _ Ht' (u8_byte (a + b))) as (r & -> & Hr).
  do 2 eexists. split; [reflexivity|]. split; [done|]. split; [|done]. intros _.
  split_and!; [done|apply u8_byte..].
Qed.

Lemma bytes_loop_run n g :
  prng_ok g -> inited g = true ->
  exists bs g', bytes_loop n g = Done (bs, g') /\ length bs = n /\ Forall is_byte bs /\ prng_ok g' /\ inited g' = true.
Proof.
  revert g. induction n as [|n IH]; intros g Hg Hi; [exists [], g; split_and!; [done..|constructor|done|done]|].
  destruct (next_byte_run g Hg Hi) as (b & g1 & E1 & Hb & Hg1 & Hi1).
  destruct (IH g1 Hg1 Hi1) as (bs & g2 & E2 & Hl & Hbs & Hg2 & Hi2).
  exists (b :: bs), g2. cbn [bytes_loop]. rewrite (bind_done _ _ _ _ _ E1), (bind_done _ _ _ _ _ E2).
  split_and!; [done|by simpl; rewrite Hl|by constructor|done..].
Qed.

Lemma bytes_loop_app n k g bs g1 cs g2 :
  bytes_loop n g = Done (bs, g1) -> bytes_loop k g1 = Done (cs, g2) -> bytes_loop (n + k) g = Done (bs ++ cs, g2).
Proof.
  revert g bs. induction n as [|n IH]; intros g bs H1 H2; cbn [bytes_loop Nat.add] in *.
  - unfold ret in H1. by simplify_eq.
  - apply bind_inv in H1 as (b & g' & E & H1). apply bind_inv in H1 as (ds & g'' & E' & H1).
    unfold ret in H1. simplify_eq. rewrite (bind_done _ _ _ _ _ E), (bind_done _ _ _ _ _ (IH _ _ E' H2)). done.
Qed.

(** ** Property *)

(** The generator keeps its table a permutation.  From the unseeded state or
    any state with a permuted table, [random_init] with any seed and
    [random_bytes] of any size run without leaving the table, keep it a
    permutation of the 256 bytes and return bytes; asking for [n] and then for
    [k] bytes gives the bytes of one call for [n + k]. *)
Lemma prng_permutation (g : prng) (seed : Z) (n k : nat) (Hg : prng_ok g) :
  (exists g', random_init seed g = Done (tt, g') /\ table_ok (s g')) /\
  exists bs cs g1 g2, random_bytes n g = Done (bs, g1) /\ random_bytes k g1 = Done (cs, g2) /\
    random_bytes (n + k) g = Done (bs ++ cs, g2) /\
    length bs = n /\ length cs = k /\ Forall is_byte (bs ++ cs) /\ table_ok (s g1) /\ table_ok (s g2).
Proof.
  split.
  { destruct (random_init_run seed g) as (g' & E & Hok & Hi). exists g'. split; [done|]. apply Hok, Hi. }
  assert (exists g0, (if inited g then ret tt else random_init 0) g = Done (tt, g0) /\ prng_ok g0 /\ inited g0 = true)
    as (g0 & E0 & Hg0 & Hi0).
  { destruct (inited g) eqn:Hi; [by exists g|apply random_init_run]. }
  destruct (bytes_loop_run n g0 Hg0 Hi0) as (bs & g1 & E1 & Hl1 & Hb1 & Hg1 & Hi1).
  destruct (bytes_loop_run k g1 Hg1 Hi1) as (cs & g2 & E2 & Hl2 & Hb2 & Hg2 & Hi2).
  exists bs, cs, g1, g2. unfold random_bytes, get. unfold bind at 1 3 5. rewrite Hi1.
  rewrite !(bind_done _ _ _ _ _ E0), E1, bind_ret, E2, (bytes_loop_app _ _ _ _ _ _ _ E1 E2).
  split_and!; [done..|by apply Forall_app|apply Hg1, Hi1|apply Hg2, Hi2].
Qed.

