(* ===== verification/Printf.v ===== *)
(** * lib/stdio.c: formatted output, and lib/stdlib.c: atoi

    [__vprintf] runs over the bytes of a format string without its terminator,
    takes its arguments from a list of 32-bit words as the i386 calling
    convention stores them, and sends characters to any [output] function.  A
    string argument is a pointer; [strings] says what it points to.  The buffer
    of [format_integer] has 64 bytes and a write past it is [BadPointer].

    Loops: the format loop is bounded by the format's length, the digit and
    zero loops by the buffer's size.

    The theorems: printing an [int] with %d and reading it with [atoi] is the
    identity, no integer conversion overruns the buffer, and [vsnprintf] stores
    a terminated prefix of the output and returns the output's length. *)

From stdpp Require Import options.
From S2P Require Import Prelude Bytes KList Mem Str.
Local Open Scope Z_scope.
Local Open Scope kernel_scope.

(** ** Conversions *)

Definition MINUS : Z := 1.
Definition PLUS : Z := 2.
Definition SPACE : Z := 4.
Definition POUND : Z := 8.
Definition ZERO : Z := 16.
Definition GROUP : Z := 32.

Inductive arg_type := CHAR | SHORT | INT | INTMAX | LONG | LONGLONG | PTRDIFFT | SIZET.

Record printf_conversion := mk_conv { flags : Z; width : Z; precision : Z; type : arg_type }.

Definition has (flags bits : Z) : bool := negb (Z.land flags bits =? 0).

Record integer_base := mk_base { base : Z; digits : list Z; x_char : Z; group : Z }.

Definition decimal_digits : list Z := [48; 49; 50; 51; 52; 53; 54; 55; 56; 57].

Definition base_d : integer_base := mk_base 10 decimal_digits 0 3.
Definition base_o : integer_base := mk_base 8 (take 8 decimal_digits) 0 3.
Definition base_x : integer_base := mk_base 16 (decimal_digits ++ [97; 98; 99; 100; 101; 102]) 120 4.
Definition base_X : integer_base := mk_base 16 (decimal_digits ++ [65; 66; 67; 68; 69; 70]) 88 4.

Definition isdigit (c : Z) : bool := (48 <=? c) && (c <=? 57).

Definition isspace (c : Z) : bool :=
  (c =? 32) || (c =? 12) || (c =? 10) || (c =? 13) || (c =? 9) || (c =? 11).

(** [*format] *)
Definition peek (format : list Z) : Z := match format with [] => 0 | c :: _ => c end.

(** [va_arg] for a 32-bit and for a 64-bit type. *)
Definition va_word (args : list Z) : outcome (Z * list Z) :=
  match args with
  | [] => Fault BadPointer
  | w :: args => Done (w, args)
  end.

Definition va_long (args : list Z) : outcome (Z * list Z) :=
  match args with
  | lo :: hi :: args => Done (u32 lo + 2 ^ 32 * u32 hi, args)
  | _ => Fault BadPointer
  end.

Definition flag_of (ch : Z) : option Z :=
  if ch =? 45 then Some MINUS else if ch =? 43 then Some PLUS
  else if ch =? 32 then Some SPACE else if ch =? 35 then Some POUND
  else if ch =? 48 then Some ZERO else if ch =? 39 then Some GROUP else None.

Fixpoint parse_flags (format : list Z) (fl : Z) : list Z * Z :=
  match format with
  | [] => ([], fl)
  | ch :: rest => match flag_of ch with
                  | Some bit => parse_flags rest (Z.lor fl bit)
                  | None => (format, fl)
                  end
  end.

Fixpoint parse_number (format : list Z) (n : Z) : list Z * Z :=
  match format with
  | [] => ([], n)
  | ch :: rest => if isdigit ch then parse_number rest (i32 (n * 10 + ch - 48)) else (format, n)
  end.

Definition parse_type (format : list Z) : list Z * arg_type :=
  match format with
  | 104 :: 104 :: rest => (rest, CHAR)
  | 104 :: rest => (rest, SHORT)
  | 106 :: rest => (rest, INTMAX)
  | 108 :: 108 :: rest => (rest, LONGLONG)
  | 108 :: rest => (rest, LONG)
  | 116 :: rest => (rest, PTRDIFFT)
  | 122 :: rest => (rest, SIZET)
  | _ => (format, INT)
  end.

Definition clear (fl bits : Z) : Z := Z.land fl (Z.lnot bits).

Definition parse_conversion (format args : list Z) : outcome (list Z * printf_conversion * list Z) :=
  let '(format, fl) := parse_flags format 0 in
  let fl := if has fl MINUS then clear fl ZERO else fl in
  let fl := if has fl PLUS then clear fl SPACE else fl in
  let? (format, w, args) :=
    match format with
    | 42 :: rest => let? (w, args) := va_word args in Done (rest, i32 w, args)
    | _ => let '(format, w) := parse_number format 0 in Done (format, w, args)
    end in
  let '(w, fl) := if w <? 0 then (i32 (- w), Z.lor fl MINUS) else (w, fl) in
  let? (format, p, args) :=
    match format with
    | 46 :: 42 :: rest => let? (p, args) := va_word args in Done (rest, if i32 p <? 0 then -1 else i32 p, args)
    | 46 :: rest => let '(format, p) := parse_number rest 0 in Done (format, if p <? 0 then -1 else p, args)
    | _ => Done (format, -1, args)
    end in
  let fl := if 0 <=? p then clear fl ZERO else fl in
  let '(format, t) := parse_type format in
  Done (format, mk_conv fl w p t, args).

(** ** Output *)

(** [*cp++ = ch] in the buffer of [format_integer]. *)
Definition push (buf : list Z) (ch : Z) : outcome (list Z) :=
  if (length buf <? 64)%nat then Done (buf ++ [ch]) else Fault BadPointer.

Definition digit_of (b : integer_base) (k : Z) : outcome Z :=
  match digits b !! Z.to_nat k with Some d => Done d | None => Fault BadPointer end.

Fixpoint digits_loop (fuel : nat) (value : Z) (b : integer_base) (fl digit_cnt : Z) (buf : list Z) : outcome (list Z) :=
  match fuel with
  | O => Fault OutOfFuel
  | S fuel =>
      if 0 <? value then
        let? buf := (if has fl GROUP && (0 <? digit_cnt) && (digit_cnt mod group b =? 0)
                     then push buf 44 else Done buf) in
        let? d := digit_of b (value mod base b) in
        let? buf := push buf d in
        digits_loop fuel (value / base b) b fl (digit_cnt + 1) buf
      else Done buf
  end.

Fixpoint zeros_loop (fuel : nat) (prec : Z) (buf : list Z) : outcome (list Z) :=
  match fuel with
  | O => Fault OutOfFuel
  | S fuel =>
      if (Z.of_nat (length buf) <? prec) && (length buf <? 63)%nat then
        let? buf := push buf 48 in zeros_loop fuel prec buf
      else Done buf
  end.

(** The text of [buf], before it is reversed. *)
Definition integer_text (value : Z) (b : integer_base) (c : printf_conversion) : outcome (list Z) :=
  let? buf := digits_loop 65 value b (flags c) 0 [] in
  let prec := if precision c <? 0 then 1 else precision c in
  let? buf := zeros_loop 65 prec buf in
  if has (flags c) POUND && (base b =? 8) &&
     match last buf with None => true | Some d => negb (d =? 48) end
  then push buf 48 else Done buf.

Definition sign_of (is_signed negative : bool) (fl : Z) : Z :=
  if is_signed then
    if has fl PLUS then (if negative then 45 else 43)
    else if has fl SPACE then (if negative then 45 else 32)
    else if negative then 45 else 0
  else 0.

Section output.
Context {S : Type} (output : Z -> M S unit).

Fixpoint output_all (l : list Z) : M S unit :=
  match l with
  | [] => ret tt
  | ch :: l => output ch ;; output_all l
  end.

Fixpoint dup_loop (n : nat) (ch : Z) : M S unit :=
  match n with
  | O => ret tt
  | Datatypes.S n => output ch ;; dup_loop n ch
  end.

Definition output_dup (ch cnt : Z) : M S unit := dup_loop (Z.to_nat cnt) ch.

Definition format_integer (value : Z) (is_signed negative : bool) (b : integer_base) (c : printf_conversion)
  : M S unit :=
  let sign := sign_of is_signed negative (flags c) in
  let x := if has (flags c) POUND && negb (value =? 0) then x_char b else 0 in
  let! buf := lift (integer_text value b c) in
  let pad_cnt := i32 (width c - Z.of_nat (length buf) - (if negb (x =? 0) then 2 else 0)
                      - (if negb (sign =? 0) then 1 else 0)) in
  let pad_cnt := if pad_cnt <? 0 then 0 else pad_cnt in
  (if negb (has (flags c) (Z.lor MINUS ZERO)) then output_dup 32 pad_cnt else ret tt) ;;
  (if negb (sign =? 0) then output sign else ret tt) ;;
  (if negb (x =? 0) then output 48 ;; output x else ret tt) ;;
  (if has (flags c) ZERO then output_dup 48 pad_cnt else ret tt) ;;
  output_all (rev buf) ;;
  (if has (flags c) MINUS then output_dup 32 pad_cnt else ret tt).

Definition format_string (string : list Z) (c : printf_conversion) : M S unit :=
  let len := Z.of_nat (length string) in
  (if (len <? width c) && negb (has (flags c) MINUS) then output_dup 32 (width c - len) else ret tt) ;;
  output_all string ;;
  (if (len <? width c) && has (flags c) MINUS then output_dup 32 (width c - len) else ret tt).
End output.

(** ** Arguments *)

Definition i8 (z : Z) : Z := (z + 128) mod 256 - 128.
Definition i16 (z : Z) : Z := (z + 2 ^ 15) mod 2 ^ 16 - 2 ^ 15.

Definition signed_arg (t : arg_type) (args : list Z) : outcome (Z * list Z) :=
  match t with
  | CHAR => let? (w, args) := va_word args in Done (i8 w, args)
  | SHORT => let? (w, args) := va_word args in Done (i16 w, args)
  | INT | LONG | PTRDIFFT => let? (w, args) := va_word args in Done (i32 w, args)
  | INTMAX | LONGLONG => let? (w, args) := va_long args in Done (i64 w, args)
  | SIZET => let? (w, args) := va_word args in
             let v := u32 w in
             Done (if (2 ^ 32 - 1) / 2 <? v then i64 (v - (2 ^ 32 - 1) - 1) else v, args)
  end.

Definition unsigned_arg (t : arg_type) (args : list Z) : outcome (Z * list Z) :=
  match t with
  | CHAR => let? (w, args) := va_word args in Done (w mod 256, args)
  | SHORT => let? (w, args) := va_word args in Done (w mod 2 ^ 16, args)
  | INT | LONG | SIZET => let? (w, args) := va_word args in Done (u32 w, args)
  | INTMAX | LONGLONG => let? (w, args) := va_long args in Done (u64 w, args)
  | PTRDIFFT => let? (w, args) := va_word args in
                Done (Z.land (u64 (i32 w)) (Z.lor (Z.shiftl (2 ^ 31 - 1) 1) 1), args)
  end.

Definition base_of (ch : Z) : integer_base :=
  if ch =? 111 then base_o else if ch =? 117 then base_d else if ch =? 120 then base_x else base_X.

(** What a pointer that is not null points to. *)
Abbreviation string_env := (Z -> option (list Z)).

Definition null_text : list Z := [40; 110; 117; 108; 108; 41].
Definition no_in_kernel : list Z :=
  [60; 60; 110; 111; 32; 37; 37; 37; 99; 32; 105; 110; 32; 107; 101; 114; 110; 101; 108; 62; 62].
Definition no_conversion : list Z :=
  [60; 60; 110; 111; 32; 37; 37; 37; 99; 32; 99; 111; 110; 118; 101; 114; 115; 105; 111; 110; 62; 62].

Definition string_arg (strings : string_env) (args : list Z) : outcome (list Z * list Z) :=
  let? (p, args) := va_word args in
  if p =? NULL then Done (null_text, args)
  else match strings p with Some s => Done (s, args) | None => Fault BadPointer end.

(** A pass over the format.  A format that ends inside a conversion makes the
    source step over its terminator: [BadPointer]. *)
Fixpoint __vprintf {S} (output : Z -> M S unit) (strings : string_env) (fuel : nat) (format args : list Z) : M S unit :=
  match fuel with
  | O => fail OutOfFuel
  | Datatypes.S fuel =>
      match format with
      | [] => ret tt
      | ch :: format =>
          if negb (ch =? 37) then output ch ;; __vprintf output strings fuel format args
          else if peek format =? 37 then output 37 ;; __vprintf output strings fuel (tl format) args
          else
            let! (format, c, args) := lift (parse_conversion format args) in
            let ch := peek format in
            let! args :=
              (if (ch =? 100) || (ch =? 105) then
                 let! (value, args) := lift (signed_arg (type c) args) in
                 format_integer output (u64 (if value <? 0 then - value else value)) true (value <? 0) base_d c ;;
                 ret args
               else if (ch =? 111) || (ch =? 117) || (ch =? 120) || (ch =? 88) then
                 let! (value, args) := lift (unsigned_arg (type c) args) in
                 format_integer output value false false (base_of ch) c ;;
                 ret args
               else if ch =? 99 then
                 let! (w, args) := lift (va_word args) in
                 format_string output [u8 w] c ;;
                 ret args
               else if ch =? 115 then
                 let! (s, args) := lift (string_arg strings args) in
                 format_string output (take (Z.to_nat (u32 (precision c))) s) c ;;
                 ret args
               else if ch =? 112 then
                 let! (w, args) := lift (va_word args) in
                 format_integer output (u32 w) false false base_x (mk_conv POUND (width c) (precision c) (type c)) ;;
                 ret args
               else if (ch =? 102) || (ch =? 101) || (ch =? 69) || (ch =? 103) || (ch =? 71) || (ch =? 110) then
                 __vprintf output strings fuel no_in_kernel [ch] ;;
                 ret args
               else
                 __vprintf output strings fuel no_conversion [ch] ;;
                 ret args) in
            match format with
            | [] => fail BadPointer
            | _ :: format => __vprintf output strings fuel format args
            end
      end
  end.

(** Enough for a pass over [format] and for the two messages. *)
Definition format_fuel (format : list Z) : nat := length format + 32.

(** [__printf] only turns its arguments into a [va_list]. *)
Definition __printf {S} (output : Z -> M S unit) (strings : string_env) (format args : list Z) : M S unit :=
  __vprintf output strings (format_fuel format) format args.

(** ** snprintf *)

Record vsnprintf_aux := mk_aux { aux_p : Z; aux_length : Z; aux_max : Z }.

Definition vsnprintf_helper (ch : Z) : M (mem * vsnprintf_aux) unit := fun st =>
  let '(m, a) := st in
  let len := i32 (aux_length a + 1) in
  if aux_length a <? aux_max a then
    match store8 (aux_p a) ch m with
    | Done (_, m) => Done (tt, (m, mk_aux (aux_p a + 1) len (aux_max a)))
    | Fault f => Fault f
    end
  else Done (tt, (m, mk_aux (aux_p a) len (aux_max a))).

Definition vsnprintf (strings : string_env) (buffer buf_size : Z) (format args : list Z) : M mem Z := fun m =>
  let aux := mk_aux buffer 0 (i32 (if 0 <? buf_size then buf_size - 1 else 0)) in
  match __vprintf vsnprintf_helper strings (format_fuel format) format args (m, aux) with
  | Fault f => Fault f
  | Done (_, (m, aux)) =>
      ((if 0 <? buf_size then store8 (aux_p aux) 0 else ret tt) ;; ret (aux_length aux)) m
  end.

Definition snprintf (strings : string_env) (buffer buf_size : Z) (format args : list Z) : M mem Z :=
  vsnprintf strings buffer buf_size format args.

(** The output itself: [__vprintf] with a log for its state. *)
Definition log (ch : Z) : M (list Z) unit := modify (fun l => l ++ [ch]).

Definition render (strings : string_env) (format args : list Z) : outcome (list Z) :=
  match __vprintf log strings (format_fuel format) format args [] with
  | Done (_, l) => Done l
  | Fault f => Fault f
  end.

(** [print_human_readable_size]: the factor's text and the scaled size. *)
Definition factors : list (list Z) :=
  [[98; 121; 116; 101; 115]; [107; 66]; [77; 66]; [71; 66]; [84; 66]].

Fixpoint scale_loop (fs : list (list Z)) (size : Z) : Z * list Z :=
  match fs with
  | [] => (size, [])
  | [f] => (size, f)
  | f :: fs => if 1024 <=? size then scale_loop fs (size / 1024) else (size, f)
  end.

Definition one_byte : list Z := [49; 32; 98; 121; 116; 101].

(** The format string holds a 64-bit and a string conversion; the factor's text
    is at address 1 of the string environment. *)
Definition print_human_readable_size {S} (output : Z -> M S unit) (size : Z) : M S unit :=
  if size =? 1 then __printf output (fun _ => None) one_byte []
  else
    let '(size, f) := scale_loop factors size in
    __printf output (fun p => if p =? 1 then Some f else None)
      [37; 108; 108; 117; 32; 37; 115] [u32 size; size / 2 ^ 32; 1].

(** ** atoi *)

Fixpoint skip_space (fuel : nat) (p : Z) : M mem Z :=
  match fuel with
  | O => fail OutOfFuel
  | S fuel => let! c := load8 p in if isspace c then skip_space fuel (p + 1) else ret p
  end.

Fixpoint atoi_loop (fuel : nat) (p value : Z) : M mem Z :=
  match fuel with
  | O => fail OutOfFuel
  | S fuel =>
      let! c := load8 p in
      if isdigit c then atoi_loop fuel (p + 1) (i32 (value * 10 - (c - 48))) else ret value
  end.

Definition atoi (p : Z) : M mem Z :=
  nonnull p ;;
  let! fuel := mem_fuel in
  let! p := skip_space fuel p in
  let! c := load8 p in
  let negative := c =? 45 in
  let p := if (c =? 43) || (c =? 45) then p + 1 else p in
  let! value := atoi_loop fuel p 0 in
  ret (if negative then value else i32 (- value)).

(** ** Output is a list *)

Section emission.
Context {A : Type}.

(** What a formatter outputs and how it ends, whatever the output function. *)
Definition ending : Type := list Z * (A + fault).

Definition finish {S} (e : A + fault) : M S A :=
  match e with inl a => ret a | inr f => fail f end.

Definition emits (prog : forall S, (Z -> M S unit) -> M S A) (e : ending) : Prop :=
  forall S (output : Z -> M S unit) s, prog S output s = (output_all output (fst e) ;; finish (snd e)) s.

Definition uniform (prog : forall S, (Z -> M S unit) -> M S A) : Prop := exists e, emits prog e.
End emission.

Lemma output_all_app {S} (output : Z -> M S unit) l k s :
  output_all output (l ++ k) s = (output_all output l ;; output_all output k) s.
Proof.
  revert s. induction l as [|ch l IH]; intros s; [done|]. cbn [output_all app]. unfold bind in *.
  destruct (output ch s) as [[[] s']|f]; [apply IH|done].
Qed.

Lemma uniform_ret {A} (a : A) : uniform (fun S _ => ret a).
Proof. by exists ([], inl a). Qed.

Lemma uniform_lift {A} (o : outcome A) : uniform (fun S _ => lift o).
Proof. destruct o as [a|f]; [by exists ([], inl a)|by exists ([], inr f)]. Qed.

Lemma uniform_fail {A} (f : fault) : uniform (A := A) (fun S _ => fail f).
Proof. by exists ([], inr f). Qed.

Lemma uniform_output ch : uniform (fun S output => output ch).
Proof.
  exists ([ch], inl tt). intros S output s. cbn. unfold bind. by destruct (output ch s) as [[[] ?]|?].
Qed.

Lemma uniform_bind {A B} (m : forall S, (Z -> M S unit) -> M S A) (k : forall S, (Z -> M S unit) -> A -> M S B) :
  uniform m -> (forall a, uniform (fun S o => k S o a)) -> uniform (fun S o => bind (m S o) (k S o)).
Proof.
  intros [[l [a|f]] Hm] Hk.
  - destruct (Hk a) as [[l' e] Hka]. exists (l ++ l', e). intros S output s. unfold emits in *. cbn [fst snd] in *.
    specialize (Hm S output s). unfold bind at 1. rewrite Hm. unfold bind at 2. rewrite output_all_app. unfold bind.
    destruct (output_all output l s) as [[[] s']|f]; [|done]. cbn. rewrite Hka. done.
  - exists (l, inr f). intros S output s. unfold emits in *. cbn [fst snd] in *. unfold bind at 1. rewrite Hm.
    unfold bind. by destruct (output_all output l s) as [[[] s']|f'].
Qed.

Lemma uniform_all l : uniform (fun S o => output_all o l).
Proof.
  exists (l, inl tt). intros S o s. cbn. unfold bind. by destruct (output_all o l s) as [[[] ?]|?].
Qed.

Lemma uniform_dup ch n : uniform (fun S o => output_dup o ch n).
Proof.
  unfold output_dup. induction (Z.to_nat n) as [|k IH]; [apply uniform_ret|].
  apply (uniform_bind (fun S o => o ch) (fun S o _ => dup_loop o k ch)); [apply uniform_output|done].
Qed.

Ltac uniform_step :=
  match goal with
  | |- uniform (fun S o => bind (@?m S o) (@?k S o)) => apply (uniform_bind m k); [|intros ?]
  | |- uniform (fun S o => ret _) => apply uniform_ret
  | |- uniform (fun S o => fail _) => apply uniform_fail
  | |- uniform (fun S o => lift _) => apply uniform_lift
  | |- uniform (fun S o => output_all o _) => apply uniform_all
  | |- uniform (fun S o => output_dup o _ _) => apply uniform_dup
  | |- uniform (fun S o => o _) => apply uniform_output
  | |- uniform (fun S o => if ?b then _ else _) => destruct b
  | |- uniform (fun S o => match ?p with _ => _ end) => destruct p
  end.

Lemma uniform_integer value sg neg b c : uniform (fun S o => format_integer o value sg neg b c).
Proof. unfold format_integer. repeat uniform_step. Qed.

Lemma uniform_string l c : uniform (fun S o => format_string o l c).
Proof. unfold format_string. repeat uniform_step. Qed.

Lemma uniform_vprintf strings fuel format args :
  uniform (fun S o => __vprintf o strings fuel format args).
Proof.
  revert format args. induction fuel as [|fuel IH]; intros format args; cbn [__vprintf]; [apply uniform_fail|].
  repeat first [apply IH | apply uniform_integer | apply uniform_string | uniform_step].
Qed.

(** ** snprintf *)

Lemma log_all l k : output_all log l k = Done (tt, k ++ l).
Proof.
  revert k. induction l as [|ch l IH]; intros k; cbn [output_all]; [unfold ret; by rewrite app_nil_r|].
  rewrite (bind_done _ _ _ tt (k ++ [ch])) by done. rewrite IH. by rewrite <- app_assoc.
Qed.

(** If the output is [l], any output function gets the characters of [l]. *)
Lemma render_emits strings format args l {S} (output : Z -> M S unit) s :
  render strings format args = Done l ->
  __vprintf output strings (format_fuel format) format args s = output_all output l s.
Proof.
  intros Hr. unfold render in Hr.
  destruct (uniform_vprintf strings (format_fuel format) format args) as [[k e] He]. unfold emits in He.
  cbn [fst snd] in He. rewrite He in Hr. unfold bind in Hr. rewrite log_all in Hr.
  destruct e as [[]|f]; cbn in Hr; [|done]. simplify_eq. rewrite He. unfold bind.
  by destruct (output_all output l s) as [[[] s']|f].
Qed.

Lemma helper_all b max n l m :
  0 <= max -> 0 <= n -> n + Z.of_nat (length l) < 2 ^ 31 -> mapped m b (Z.to_nat max) ->
  output_all vsnprintf_helper l (m, mk_aux (b + Z.min n max) n max) =
    Done (tt, (write (b + Z.min n max) (map u8 (take (Z.to_nat (max - n)) l)) m,
               mk_aux (b + Z.min (n + Z.of_nat (length l)) max) (n + Z.of_nat (length l)) max)).
Proof.
  intros Hmax. revert n m. induction l as [|ch l IH]; intros n m Hn Hl Hm.
  { cbn. rewrite take_nil. cbn. by rewrite !Z.add_0_r. }
  cbn [output_all length] in *. unfold bind, vsnprintf_helper at 1. cbn [aux_length aux_max aux_p].
  rewrite i32_small by (unfold is_i32; lia). destruct (Z.ltb_spec n max) as [Hlt|Hge].
  - replace (Z.min n max) with n by lia.
    replace (store8 (b + n) ch m) with (Done (tt, <[b + n := u8 ch]> m)).
    2:{ destruct (Hm (Z.to_nat n) ltac:(lia)) as [x Hx]. rewrite Z2Nat.id in Hx by lia. unfold store8. by rewrite Hx. }
    replace (b + n + 1) with (b + Z.min (n + 1) max) by lia.
    rewrite IH by (lia || by apply mapped_insert).
    replace (Z.to_nat (max - n)) with (S (Z.to_nat (max - (n + 1)))) by lia. cbn [take map write].
    f_equal. f_equal. replace (b + Z.min (n + 1) max) with (b + n + 1) by lia. f_equal. f_equal; lia.
  - replace (Z.min n max) with (Z.min (n + 1) max) by lia. rewrite IH by (done || lia).
    replace (Z.to_nat (max - n)) with 0%nat by lia. replace (Z.to_nat (max - (n + 1))) with 0%nat by lia.
    f_equal. f_equal. f_equal. f_equal; lia.
Qed.

(** ** The digit buffer *)

Definition known_base (b : integer_base) : Prop := b = base_d \/ b = base_o \/ b = base_x \/ b = base_X.

Lemma base_facts b : known_base b -> 8 <= base b /\ length (digits b) = Z.to_nat (base b).
Proof. intros [->|[->|[->| ->]]]; split; done. Qed.

Lemma push_run buf ch : (length buf < 64)%nat -> push buf ch = Done (buf ++ [ch]).
Proof. intros H. unfold push. by rewrite (proj2 (Nat.ltb_lt _ _)). Qed.

Lemma digits_loop_fits b k fuel value fl cnt buf :
  known_base b -> 0 <= value < base b ^ Z.of_nat k -> (k < fuel)%nat -> (length buf + 2 * k <= 44)%nat ->
  exists buf', digits_loop fuel value b fl cnt buf = Done buf' /\ (length buf' <= 44)%nat.
Proof.
  intros Hb. destruct (base_facts b Hb) as [Hb8 Hdig].
  revert fuel value cnt buf. induction k as [|k IH]; intros [|fuel] value cnt buf Hv Hf Hl; try lia; cbn [digits_loop].
  - replace value with 0 by (simpl in Hv; lia). simpl. eexists. split; [done|lia].
  - destruct (Z.ltb_spec 0 value) as [Hpos|Hz]; [|eexists; split; [done|lia]].
    set (g := if _ && _ && _ then _ else _).
    assert (exists buf1, g = Done buf1 /\ (length buf1 <= length buf + 1)%nat) as (buf1 & -> & Hl1).
    { unfold g. destruct (_ && _ && _); [|eexists; split; [done|lia]].
      eexists. split; [by apply push_run; lia|]. rewrite length_app. simpl. lia. }
    cbn [obind]. pose proof (Z.mod_pos_bound value (base b) ltac:(lia)) as Hmod.
    destruct (lookup_lt_is_Some_2 (digits b) (Z.to_nat (value mod base b))) as [d Hd]; [lia|].
    unfold digit_of. rewrite Hd. cbn [obind]. rewrite push_run by lia. cbn [obind].
    apply IH; [|lia|rewrite length_app; simpl; lia]. rewrite Nat2Z.inj_succ, Z.pow_succ_r in Hv by lia.
    split; [apply Z.div_pos; lia|apply Z.div_lt_upper_bound; lia].
Qed.

Lemma zeros_loop_fits fuel prec buf :
  (length buf <= 63)%nat -> (63 < fuel + length buf)%nat ->
  exists n, zeros_loop fuel prec buf = Done (buf ++ replicate n 48) /\ (length buf + n <= 63)%nat /\
    (prec <= Z.of_nat (length buf) -> n = 0%nat) /\ (prec = 1 -> buf = [] -> n = 1%nat).
Proof.
  revert buf. induction fuel as [|fuel IH]; intros buf Hl Hf; [lia|]. cbn [zeros_loop].
  destruct (Z.ltb_spec (Z.of_nat (length buf)) prec) as [Hlt|Hge]; cbn [andb].
  2:{ exists 0%nat. simpl. rewrite app_nil_r. split_and!; [done|lia|done|]. intros -> ->. simpl in Hge. lia. }
  destruct (Nat.ltb_spec (length buf) 63) as [Hs|Hs].
  2:{ exists 0%nat. simpl. rewrite app_nil_r. split_and!; [done|lia|lia|]. intros -> ->. simpl in Hs. lia. }
  rewrite push_run by lia. cbn [obind]. destruct (IH (buf ++ [48])) as (n & E & Hn & Hz & _);
    [rewrite length_app; simpl; lia..|].
  exists (S n). rewrite E, <- app_assoc. rewrite length_app in *. simpl in *. split_and!; [done|lia|lia|].
  intros -> ->. simpl in Hz. rewrite Hz; [done|lia].
Qed.

Lemma integer_text_fits value b c :
  known_base b -> is_u64 value -> exists buf, integer_text value b c = Done buf.
Proof.
  intros Hb Hv. unfold integer_text.
  destruct (digits_loop_fits b 22 65 value (flags c) 0 []) as (buf & -> & Hl); [done| |lia|simpl; lia|].
  { destruct (base_facts b Hb) as [H8 _]. unfold is_u64 in Hv.
    assert (8 ^ Z.of_nat 22 <= base b ^ Z.of_nat 22) by (apply Z.pow_le_mono_l; lia).
    assert (2 ^ 64 <= 8 ^ Z.of_nat 22) by done. lia. }
  cbn [obind]. destruct (zeros_loop_fits 65 (if precision c <? 0 then 1 else precision c) buf) as (n & -> & Hn & _); [lia..|].
  cbn [obind]. destruct (_ && _ && _); [|by eexists]. eexists. apply push_run. rewrite length_app, length_replicate. lia.
Qed.

(** ** Decimal text *)

(** The value of digits with the least significant first. *)
Fixpoint lval (ds : list Z) : Z :=
  match ds with [] => 0 | d :: ds => d - 48 + 10 * lval ds end.

Definition all_digits (ds : list Z) : Prop := Forall (fun d => 48 <= d <= 57) ds.

Lemma lval_app ds es : lval (ds ++ es) = lval ds + 10 ^ Z.of_nat (length ds) * lval es.
Proof.
  induction ds as [|d ds IH]; cbn [lval app length]; [lia|]. rewrite IH, Nat2Z.inj_succ, Z.pow_succ_r by lia. lia.
Qed.

Lemma digit_decimal k : 0 <= k < 10 -> digit_of base_d k = Done (48 + k).
Proof.
  intros H. assert (k = 0 \/ k = 1 \/ k = 2 \/ k = 3 \/ k = 4 \/ k = 5 \/ k = 6 \/ k = 7 \/ k = 8 \/ k = 9) by lia.
  by intuition subst.
Qed.

Lemma digits_loop_decimal k fuel value cnt buf :
  0 <= value < 10 ^ Z.of_nat k -> (k < fuel)%nat -> (length buf + k <= 44)%nat ->
  exists ds, digits_loop fuel value base_d 0 cnt buf = Done (buf ++ ds) /\ all_digits ds /\ lval ds = value /\
    (length ds <= k)%nat.
Proof.
  revert fuel value cnt buf. induction k as [|k IH]; intros [|fuel] value cnt buf Hv Hf Hl; try lia; cbn [digits_loop].
  - replace value with 0 by (simpl in Hv; lia). exists []. simpl. rewrite app_nil_r. split_and!; [done|constructor|done..].
  - destruct (Z.ltb_spec 0 value) as [Hpos|Hz].
    2:{ exists []. rewrite app_nil_r. split_and!; [done|constructor|simpl; lia..]. }
    replace (has 0 GROUP) with false by done. cbn [andb obind base base_d].
    pose proof (Z.mod_pos_bound value 10 ltac:(lia)) as Hm. pose proof (Z.div_mod value 10 ltac:(lia)) as Hd.
    rewrite digit_decimal by done. cbn [obind]. rewrite push_run by lia. cbn [obind].
    rewrite Nat2Z.inj_succ, Z.pow_succ_r in Hv by lia.
    destruct (IH fuel (value / 10) (cnt + 1) (buf ++ [48 + value mod 10])) as (ds & E & H1 & H2 & H3);
      [split; [apply Z.div_pos; lia|apply Z.div_lt_upper_bound; lia]|lia|rewrite length_app; simpl; lia|].
    exists ((48 + value mod 10) :: ds). rewrite E, <- app_assoc. split_and!; [done|constructor; [lia|done]| |simpl; lia].
    cbn [lval]. rewrite H2. lia.
Qed.

Definition plain_d : printf_conversion := mk_conv 0 0 (-1) INT.

Lemma decimal_text value :
  0 <= value <= 2 ^ 31 ->
  exists ds, integer_text value base_d plain_d = Done ds /\ all_digits ds /\ lval ds = value /\
    (0 < length ds <= 10)%nat.
Proof.
  intros Hv. unfold integer_text. cbn [flags precision plain_d].
  destruct (digits_loop_decimal 10 65 value 0 []) as (ds & -> & Hd & Hval & Hlen); [simpl; lia..|]. cbn [obind app].
  replace (if -1 <? 0 then 1 else -1) with 1 by done.
  destruct (zeros_loop_fits 65 1 ds) as (n & -> & _ & Hn & Hn1); [lia..|]. cbn [obind].
  replace (has 0 POUND) with false by done. cbn [andb]. exists (ds ++ replicate n 48). split; [done|].
  destruct ds as [|d ds].
  - rewrite (Hn1 eq_refl eq_refl). simpl in Hval |- *. split_and!; [constructor; [lia|constructor]|done|lia..].
  - rewrite Hn by (simpl; lia). simpl. rewrite app_nil_r. simpl in Hlen. split_and!; [done|done|lia|lia].
Qed.

Definition percent_d : list Z := [37; 100].

(** The text of an [int]. *)
Lemma render_int strings n :
  is_i32 n ->
  exists ds, render strings percent_d [u32 n] = Done ((if n <? 0 then [45] else []) ++ rev ds) /\
    all_digits ds /\ lval ds = Z.abs n /\ (0 < length ds <= 10)%nat.
Proof.
  intros Hn. unfold is_i32 in Hn. destruct (decimal_text (Z.abs n) ltac:(lia)) as (ds & E & Hd & Hv & Hl).
  exists ds. split; [|done].
  assert (i32 (u32 n) = n) as Hi.
  { unfold i32, u32. rewrite Z.add_mod_idemp_l by lia. rewrite Z.mod_small; lia. }
  unfold render, percent_d, format_fuel. generalize 32%nat. intros fuel. cbn [length Nat.add __vprintf].
  replace (negb (37 =? 37)) with false by done. cbn [peek]. replace (100 =? 37) with false by done.
  replace (parse_conversion [100] [u32 n]) with (Done ([100], plain_d, [u32 n])) by done.
  unfold lift at 1. unfold bind at 1. cbn [peek]. replace ((100 =? 100) || (100 =? 105)) with true by done.
  cbn [type plain_d signed_arg va_word obind]. rewrite Hi. unfold lift at 1. unfold bind at 2.
  replace (u64 (if n <? 0 then - n else n)) with (Z.abs n).
  2:{ destruct (Z.ltb_spec n 0); rewrite u64_small; lia. }
  unfold format_integer. rewrite E. unfold lift at 1. cbn [flags plain_d width].
  unfold sign_of. replace (has 0 PLUS) with false by done. replace (has 0 SPACE) with false by done.
  replace (has 0 POUND) with false by done. replace (has 0 (Z.lor MINUS ZERO)) with false by done.
  replace (has 0 ZERO) with false by done. replace (has 0 MINUS) with false by done. cbn [andb negb].
  replace (0 =? 0) with true by done. cbn [negb].
  unfold bind, ret. set (pad := i32 (0 - Z.of_nat (length ds) - _ - _)). assert (pad <= 0) as Hpad.
  { unfold pad. rewrite i32_small; [destruct (n <? 0); simpl; lia|unfold is_i32; destruct (n <? 0); simpl; lia]. }
  assert (output_dup log 32 (if pad <? 0 then 0 else pad) = ret tt) as Hdup.
  { replace (if pad <? 0 then 0 else pad) with 0 by (destruct (Z.ltb_spec pad 0); lia). done. }
  rewrite Hdup. unfold ret. destruct (n <? 0); cbn [negb Z.eqb Pos.eqb log modify]; by rewrite log_all.
Qed.

(** ** atoi *)

Lemma skip_space_run m p c fuel :
  m !! p = Some c -> isspace c = false -> (0 < fuel)%nat -> skip_space fuel p m = Done (p, m).
Proof.
  intros Hp Hc Hf. destruct fuel; [lia|]. cbn. rewrite (bind_done _ _ _ _ _ (load8_run _ _ _ Hp)). by rewrite Hc.
Qed.

Lemma i32_step a d : i32 (i32 a * 10 - d) = i32 (a * 10 - d).
Proof.
  unfold i32. f_equal.
  replace (((a + 2 ^ 31) mod 2 ^ 32 - 2 ^ 31) * 10 - d + 2 ^ 31) with ((a + 2 ^ 31) mod 2 ^ 32 * 10 + (- 2 ^ 31 * 10 - d + 2 ^ 31)) by lia.
  rewrite Z.add_mod, Z.mul_mod_idemp_l, <- Z.add_mod by lia. f_equal. lia.
Qed.

Lemma isdigit_true d : 48 <= d <= 57 -> isdigit d = true.
Proof. intros H. unfold isdigit. by rewrite !(proj2 (Z.leb_le _ _)) by lia. Qed.

Lemma atoi_loop_run m ds p acc fuel :
  str_at m p (rev ds) -> all_digits ds -> (length ds < fuel)%nat ->
  atoi_loop fuel p (i32 acc) m = Done (i32 (acc * 10 ^ Z.of_nat (length ds) - lval ds), m).
Proof.
  revert p acc fuel. induction ds as [|d ds IH] using rev_ind; intros p acc fuel Hs Hd Hf; (destruct fuel as [|fuel]; [simpl in Hf; lia|]); cbn [atoi_loop].
  - rewrite (bind_done _ _ _ _ _ (load8_run _ _ _ (str_at_nil _ _ Hs))). cbn. unfold ret. f_equal. f_equal. f_equal. lia.
  - rewrite rev_unit in Hs. apply str_at_cons in Hs as (H0 & _ & Hs).
    apply Forall_app in Hd as [Hd Hd1]. apply Forall_cons in Hd1 as [Hd1 _].
    rewrite (bind_done _ _ _ _ _ (load8_run _ _ _ H0)), isdigit_true by done. rewrite i32_step.
    rewrite length_app in *. cbn [length] in *. rewrite IH by (done || lia). f_equal. f_equal. f_equal.
    rewrite lval_app. cbn [lval]. rewrite Nat.add_1_r, Nat2Z.inj_succ, Z.pow_succ_r by lia. lia.
Qed.

Lemma not_space d : 43 <= d -> isspace d = false.
Proof. intros H. unfold isspace. by rewrite !(proj2 (Z.eqb_neq _ _)) by lia. Qed.

Lemma atoi_run m p (neg : bool) ds :
  str_at m p ((if neg then [45] else []) ++ rev ds) -> all_digits ds -> (0 < length ds)%nat -> p <> NULL ->
  atoi p m = Done (i32 (if neg then - lval ds else lval ds), m).
Proof.
  intros Hs Hd Hl Hp. unfold atoi. rewrite (bind_done _ _ _ _ _ (nonnull_ok p m Hp)).
  unfold mem_fuel, gets. unfold bind at 1. pose proof (str_at_size _ _ _ Hs) as Hsz. destruct neg; cbn [app length] in *.
  - apply str_at_cons in Hs as (H0 & _ & Hs). rewrite length_rev in Hsz.
    rewrite (bind_done _ _ _ _ _ (skip_space_run m p 45 (S (size m)) H0 eq_refl ltac:(lia))).
    rewrite (bind_done _ _ _ _ _ (load8_run _ _ _ H0)). cbn [Z.eqb Pos.eqb orb].
    change 0 with (i32 0) at 1. rewrite (bind_done _ _ _ _ _ (atoi_loop_run m ds (p + 1) 0 (S (size m)) Hs Hd ltac:(lia))).
    reflexivity.
  - rewrite length_rev in Hsz. destruct (rev ds) as [|d es] eqn:E.
    { assert (length (rev ds) = 0%nat) by (by rewrite E). rewrite length_rev in *. lia. }
    assert (48 <= d <= 57) as Hd0.
    { unfold all_digits in Hd. rewrite Forall_forall in Hd. apply Hd. apply elem_of_reverse. unfold reverse. rewrite rev_alt in E. rewrite E. set_solver. }
    pose proof (str_at_cons _ _ _ _ Hs) as (H0 & _ & _).
    rewrite (bind_done _ _ _ _ _ (skip_space_run m p d (S (size m)) H0 (not_space d ltac:(lia)) ltac:(lia))).
    rewrite (bind_done _ _ _ _ _ (load8_run _ _ _ H0)). rewrite !(proj2 (Z.eqb_neq d _)) by lia. cbn [orb].
    rewrite <- E in Hs. change 0 with (i32 0) at 1.
    rewrite (bind_done _ _ _ _ _ (atoi_loop_run m ds p 0 (S (size m)) Hs Hd ltac:(lia))).
    unfold ret. f_equal. f_equal. unfold i32. f_equal.
    replace (- (((0 * _ - lval ds) + 2 ^ 31) mod 2 ^ 32 - 2 ^ 31) + 2 ^ 31) with (2 ^ 32 - (2 ^ 31 - lval ds) mod 2 ^ 32).
    2:{ replace (0 * 10 ^ Z.of_nat (length ds) - lval ds + 2 ^ 31) with (2 ^ 31 - lval ds) by lia. lia. }
    rewrite Zminus_mod, Z.mod_mod, <- Zminus_mod by lia.
    replace (2 ^ 32 - (2 ^ 31 - lval ds)) with (lval ds + 2 ^ 31) by lia. done.
Qed.

(** ** Formatters that end *)

Definition logs (m : M (list Z) unit) : Prop := forall l, exists l', m l = Done (tt, l').

Lemma logs_seq m k : logs m -> logs k -> logs (m ;; k).
Proof.
  intros Hm Hk l. destruct (Hm l) as [l' E]. destruct (Hk l') as [l'' E']. exists l''.
  by rewrite (bind_done _ _ _ _ _ E).
Qed.

Lemma logs_if (b : bool) m k : logs m -> logs k -> logs (if b then m else k).
Proof. by destruct b. Qed.

Lemma logs_ret : logs (ret tt).
Proof. intros l. by exists l. Qed.

Lemma logs_char ch : logs (log ch).
Proof. intros l. by eexists. Qed.

Lemma logs_all l : logs (output_all log l).
Proof. intros k. eexists. apply log_all. Qed.

Lemma logs_dup ch n : logs (output_dup log ch n).
Proof.
  unfold output_dup. induction (Z.to_nat n) as [|k IH]; [apply logs_ret|]. cbn [dup_loop].
  apply logs_seq; [apply logs_char|done].
Qed.

Lemma logs_integer value sg neg b c buf :
  integer_text value b c = Done buf -> logs (format_integer log value sg neg b c).
Proof.
  intros E l. unfold format_integer. rewrite E. unfold lift at 1. unfold bind at 1.
  match goal with |- exists l', ?m l = _ => assert (logs m) as H; [|exact (H l)] end.
  repeat first [apply logs_seq | apply logs_if | apply logs_ret | apply logs_char | apply logs_all | apply logs_dup].
Qed.

(** ** Properties *)

(** C27: printing an integer and parsing it is the identity.  For every [int],
    [__vprintf] with the format %d terminates and outputs a text; wherever that
    text is stored as a string, [atoi] returns the integer.  This covers
    INT_MIN, whose magnitude no [int] holds. *)
Theorem printf_atoi_roundtrip (strings : string_env) (m : mem) (p n : Z)
  (Hn : is_i32 n) (Hp : p <> NULL)
  (Hm : forall text, render strings percent_d [u32 n] = Done text -> str_at m p text) :
  exists text, render strings percent_d [u32 n] = Done text /\ (0 < length text <= 11)%nat /\
    atoi p m = Done (n, m).
Proof.
  destruct (render_int strings n Hn) as (ds & E & Hd & Hv & Hl). eexists. split; [exact E|]. split.
  { rewrite length_app, length_rev. destruct (n <? 0); simpl; lia. }
  rewrite (atoi_run m p (n <? 0) ds (Hm _ E) Hd ltac:(lia) Hp). f_equal. f_equal. rewrite Hv.
  destruct (Z.ltb_spec n 0); rewrite i32_small by (unfold is_i32 in *; lia); lia.
Qed.

(** An integer conversion never overruns its 64-byte buffer.  For every
    64-bit value, every base and every combination of flags, width and
    precision, [format_integer] does nothing but send a sequence of characters
    to [output]. *)
Lemma format_integer_fits (value : Z) (is_signed negative : bool) (b : integer_base) (c : printf_conversion)
  (Hv : is_u64 value) (Hb : known_base b) :
  exists l, forall S (output : Z -> M S unit) s,
    format_integer output value is_signed negative b c s = output_all output l s.
Proof.
  destruct (uniform_integer value is_signed negative b c) as [[l e] He]. exists l. intros S output s.
  assert (e = inl tt) as ->.
  { destruct (integer_text_fits value b c Hb Hv) as [buf E]. specialize (He (list Z) log []). cbn beta in He.
    destruct (logs_integer value is_signed negative b c buf E []) as [l' E']. rewrite E' in He.
    cbn [fst snd] in He. unfold bind in He. rewrite log_all in He. by destruct e as [[]|f]. }
  rewrite He. cbn. unfold bind. by destruct (output_all output l s) as [[[] s']|f].
Qed.

(** [vsnprintf] stores a terminated prefix.  If the arguments fit the format,
    it writes only within the buffer's [buf_size] bytes, leaves there as much of
    the output as fits with a null terminator, and returns the length of the
    whole output; with a zero size it writes nothing. *)
Lemma vsnprintf_truncates (strings : string_env) (m : mem) (buffer buf_size : Z) (format args l : list Z)
  (Hr : render strings format args = Done l) (Hl : Z.of_nat (length l) < 2 ^ 31)
  (Hz : 0 <= buf_size < 2 ^ 31) (Hm : mapped m buffer (Z.to_nat buf_size)) :
  exists m', vsnprintf strings buffer buf_size format args m = Done (Z.of_nat (length l), m') /\
    only_within buffer (Z.to_nat buf_size) m m' /\
    (0 < buf_size -> bytes_at m' buffer (map u8 (take (Z.to_nat (buf_size - 1)) l) ++ [0])).
Proof.
  unfold vsnprintf. rewrite (render_emits _ _ _ _ _ _ Hr).
  set (max := if 0 <? buf_size then buf_size - 1 else 0).
  assert (0 <= max /\ max <= buf_size /\ (0 < buf_size -> max = buf_size - 1)) as (H0 & H1 & H2).
  { unfold max. destruct (Z.ltb_spec 0 buf_size); lia. }
  rewrite i32_small by (unfold is_i32; lia).
  pose proof (helper_all buffer max 0 l m H0 ltac:(lia) ltac:(lia)) as E.
  rewrite Z.min_l, Z.add_0_r, Z.sub_0_r, Z.add_0_l in E by lia. rewrite E by (eapply mapped_sub; [exact Hm|lia..]).
  set (t := map u8 (take (Z.to_nat max) l)).
  assert (length t = Nat.min (Z.to_nat max) (length l)) as Ht by (unfold t; by rewrite length_map, length_take).
  cbn [aux_p aux_length]. destruct (Z.ltb_spec 0 buf_size) as [Hpos|Hzero].
  - replace (buffer + Z.min (Z.of_nat (length l)) max) with (buffer + Z.of_nat (length t)) by lia.
    assert (is_Some (write buffer t m !! (buffer + Z.of_nat (length t)))) as Hs.
    { apply (write_mapped buffer t m buffer (Z.to_nat buf_size) Hm). lia. }
    rewrite (bind_done _ _ _ _ _ (store8_run _ _ 0 Hs ltac:(lia))). eexists. split; [reflexivity|].
    replace (<[_ := 0]> _) with (write buffer (t ++ [0]) m) by (by rewrite write_app).
    split; [eapply only_within_mono; [apply write_only|lia|rewrite length_app; simpl; lia]|].
    intros _. rewrite <- H2 by done. apply write_bytes.
  - eexists. split; [reflexivity|]. split; [|lia]. eapply only_within_mono; [apply write_only|lia..].
Qed.

Lemma printf_atoi_roundtrip_witness :
  exists text, render (fun _ => None) percent_d [u32 (-205)] = Done text /\ (0 < length text <= 11)%nat /\
    atoi 100 (write 100 [45; 50; 48; 53; 0] ∅) = Done (-205, write 100 [45; 50; 48; 53; 0] ∅).
Proof.
  apply (printf_atoi_roundtrip (fun _ => None) (write 100 [45; 50; 48; 53; 0] ∅) 100 (-205)).
  - unfold is_i32. lia.
  - done.
  - intros text H. assert (render (fun _ => None) percent_d [u32 (-205)] = Done [45; 50; 48; 53]) as E by (vm_compute; reflexivity).
    rewrite E in H. injection H as <-. split; [apply (write_bytes 100 [45; 50; 48; 53; 0])|repeat constructor; lia].
Defined.

