(* ===== verification/Ustar.v ===== *)
(** * lib/ustar.c: archive headers

    A header is a list of 512 bytes and a file name a list of bytes without its
    terminator.  [strlcpy] and [snprintf] into a field store a terminated prefix
    of the text, as [Str] and [Printf] show of them; the text of a number is
    what [__vprintf] outputs for the format.

    The theorem: a header that [ustar_make_header] composes is parsed to the
    name, type and size it was made for, and no header is parsed to a name that
    leaves the destination by its prefix. *)

From stdpp Require Import options.
From S2P Require Import Prelude Bytes KList Mem Str Printf.
Local Open Scope Z_scope.
Local Open Scope kernel_scope.

(** ** Headers *)

Definition USTAR_REGULAR : Z := 48.
Definition USTAR_DIRECTORY : Z := 53.
Definition USTAR_EOF : Z := -1.
Definition USTAR_HEADER_SIZE : nat := 512.

(** A field of [struct ustar_header]: its offset and its size. *)
Record field := mk_field { f_ofs : nat; f_size : nat }.

Definition f_name : field := mk_field 0 100.
Definition f_mode : field := mk_field 100 8.
Definition f_uid : field := mk_field 108 8.
Definition f_gid : field := mk_field 116 8.
Definition f_size_ : field := mk_field 124 12.
Definition f_mtime : field := mk_field 136 12.
Definition f_chksum : field := mk_field 148 8.
Definition f_typeflag : field := mk_field 156 1.
Definition f_magic : field := mk_field 257 6.
Definition f_version : field := mk_field 263 2.
Definition f_uname : field := mk_field 265 32.
Definition f_gname : field := mk_field 297 32.
Definition f_prefix : field := mk_field 345 155.

Definition get_bytes (h : list Z) (o n : nat) : list Z := take n (drop o h).
Definition put_bytes (h : list Z) (o : nat) (l : list Z) : list Z := take o h ++ l ++ drop (o + length l) h.

Definition get_field (h : list Z) (f : field) : list Z := get_bytes h (f_ofs f) (f_size f).

(** [strlcpy (h->f, s, sizeof h->f)] *)
Definition put_text (f : field) (s h : list Z) : list Z := put_bytes h (f_ofs f) (take (f_size f - 1) s ++ [0]).

(** [snprintf (h->f, sizeof h->f, format, arg)] *)
Definition put_number (f : field) (format : list Z) (arg : Z) (h : list Z) : outcome (list Z) :=
  let? text := render (fun _ => None) format [u32 arg] in Done (put_text f text h).

(** "%07o" and "%011o" *)
Definition octal_7 : list Z := [37; 48; 55; 111].
Definition octal_11 : list Z := [37; 48; 49; 49; 111].

Fixpoint chksum_loop (h : list Z) (i : nat) (chksum : Z) : Z :=
  match h with
  | [] => chksum
  | b :: h =>
      let in_chksum_field := (f_ofs f_chksum <=? i)%nat && (i <? f_ofs f_chksum + f_size f_chksum)%nat in
      chksum_loop h (S i) (u32 (chksum + (if in_chksum_field then 32 else b)))
  end.

Definition calculate_chksum (h : list Z) : Z := chksum_loop (take USTAR_HEADER_SIZE h) 0 0.

(** ** Names *)

(** [strchr (s, '/') + 1] *)
Fixpoint after_slash (s : list Z) : outcome (list Z) :=
  match s with
  | [] => Fault BadPointer
  | c :: s => if c =? 47 then Done s else after_slash s
  end.

(** [!memcmp (s, lit, n)]: the comparison ends at the terminator of [s]. *)
Definition begins (s lit : list Z) : bool := bool_decide (take (length lit) (s ++ [0]) = lit).

Definition antisocial (s : list Z) : bool := begins s [47] || begins s [46; 47] || begins s [46; 46; 47].

Fixpoint strip_loop (fuel : nat) (s : list Z) : outcome (list Z) :=
  match fuel with
  | O => Fault OutOfFuel
  | S fuel => if antisocial s then let? s := after_slash s in strip_loop fuel s else Done s
  end.

Definition strip_antisocial_prefixes (file_name : list Z) : outcome (list Z) :=
  let? s := strip_loop (S (length file_name)) file_name in
  Done (if bool_decide (s = []) || bool_decide (s = [46; 46]) then [46] else s).

(** ** Composing *)

Definition ustar_text : list Z := [117; 115; 116; 97; 114].
Definition root_text : list Z := [114; 111; 111; 116].
Definition zero_text : list Z := [48; 48; 48; 48; 48; 48; 48].

(** [None] for the result false; the message is left out. *)
Definition ustar_make_header (file_name : list Z) (type size : Z) : outcome (option (list Z)) :=
  if negb ((type =? USTAR_REGULAR) || (type =? USTAR_DIRECTORY)) then Fault AssertFailed
  else
    let? file_name := strip_antisocial_prefixes file_name in
    if 99 <? Z.of_nat (length file_name) then Done None
    else
      let h := replicate USTAR_HEADER_SIZE 0 in
      let h := put_text f_name file_name h in
      let? h := put_number f_mode octal_7 (if type =? USTAR_REGULAR then 420 else 493) h in
      let h := put_text f_uid zero_text h in
      let h := put_text f_gid zero_text h in
      let? h := put_number f_size_ octal_11 size h in
      let? h := put_number f_mtime octal_11 1136102400 h in
      let h := put_bytes h (f_ofs f_typeflag) [type] in
      let h := put_text f_magic ustar_text h in
      let h := put_bytes h (f_ofs f_version) [48; 48] in
      let h := put_text f_gname root_text h in
      let h := put_text f_uname root_text h in
      let? h := put_number f_chksum octal_7 (calculate_chksum h) h in
      Done (Some h).

(** ** Parsing *)

Definition ULONG_MAX : Z := 2 ^ 32 - 1.
Definition INT_MAX : Z := 2 ^ 31 - 1.

Fixpoint octal_loop (s : list Z) (ofs : nat) (value : Z) : option Z :=
  match s with
  | [] => None
  | c :: s =>
      if (48 <=? c) && (c <=? 55) then
        if ULONG_MAX / 8 <? value then None else octal_loop s (S ofs) (u32 (c - 48 + value * 8))
      else if (c =? 32) || (c =? 0) then (if (0 <? ofs)%nat then Some value else None)
      else None
  end.

(** [None] for the result false. *)
Definition parse_octal_field (s : list Z) : option Z := octal_loop s 0 0.

Definition is_all_zeros (block : list Z) : bool := forallb (fun b => b =? 0) block.

Inductive parsed :=
  | NotUstar | InvalidVersion | CorruptChksum | ChksumMismatch | NameTooLong | UnimplementedType | CorruptSize | TooLarge
  | Parsed (file_name : option (list Z)) (type size : Z).

(** The bytes before the first null byte. *)
Fixpoint c_string (l : list Z) : list Z :=
  match l with
  | [] => []
  | b :: l => if b =? 0 then [] else b :: c_string l
  end.

(** [typeflag] is a [char]. *)
Definition typeflag (h : list Z) : Z := i8 (nth 0 (get_field h f_typeflag) 0).

Definition ustar_parse_header (h : list Z) : outcome parsed :=
  if is_all_zeros (take USTAR_HEADER_SIZE h) then Done (Parsed None USTAR_EOF 0)
  else if negb (bool_decide (get_field h f_magic = ustar_text ++ [0])) then Done NotUstar
  else if negb (bool_decide (get_field h f_version = [48; 48])) then Done InvalidVersion
  else
    match parse_octal_field (get_field h f_chksum) with
    | None => Done CorruptChksum
    | Some chksum =>
        if negb (chksum =? calculate_chksum h) then Done ChksumMismatch
        else if negb (nth 99 (get_field h f_name) 0 =? 0) || negb (nth 0 (get_field h f_prefix) 0 =? 0) then Done NameTooLong
        else if negb (typeflag h =? USTAR_REGULAR) && negb (typeflag h =? USTAR_DIRECTORY) then Done UnimplementedType
        else
          let finish size_ul :=
            let? name := strip_antisocial_prefixes (c_string (get_field h f_name)) in
            Done (Parsed (Some name) (typeflag h) (i32 size_ul)) in
          if typeflag h =? USTAR_REGULAR then
            match parse_octal_field (get_field h f_size_) with
            | None => Done CorruptSize
            | Some size_ul => if INT_MAX <? size_ul then Done TooLarge else finish size_ul
            end
          else finish 0
    end.

(** ** Names that stay inside the destination *)

(** Not empty, not "..", and without a prefix "/", "./" or "../". *)
Definition social (s : list Z) : Prop :=
  s <> [] /\ s <> [46; 46] /\ forall r, s <> [47] ++ r /\ s <> [46; 47] ++ r /\ s <> [46; 46; 47] ++ r.

Lemma begins_inv s lit : begins s lit = true -> Forall (fun b => b <> 0) lit -> exists r, s = lit ++ r.
Proof.
  intros H%bool_decide_eq_true_1 Hl. revert s H. induction Hl as [|b lit Hb _ IH]; intros s H; [by exists s|].
  destruct s as [|c s]; [simpl in H; congruence|]. simpl in H. injection H as -> H. destruct (IH s H) as [r ->]. by exists r.
Qed.

Definition byte (b : Z) : Prop := 0 <= b < 256.

Lemma begins_app lit r : begins (lit ++ r) lit = true.
Proof. apply bool_decide_eq_true_2. rewrite <- app_assoc. apply take_app_length. Qed.

Lemma antisocial_false s : antisocial s = false <-> forall r, s <> [47] ++ r /\ s <> [46; 47] ++ r /\ s <> [46; 46; 47] ++ r.
Proof.
  unfold antisocial. rewrite !orb_false_iff. split.
  - intros [[H1 H2] H3] r. split_and!; intros ->; by rewrite begins_app in *.
  - intros H. split_and!; apply not_true_iff_false; intros [r ->]%begins_inv; try (by repeat constructor); by destruct (H r) as (? & ? & ?).
Qed.

(** The bytes of a C string. *)
Definition name_byte (b : Z) : Prop := 0 < b < 256.

Lemma after_slash_run s : antisocial s = true -> exists r, after_slash s = Done r /\ (length r < length s)%nat /\ (Forall name_byte s -> Forall name_byte r).
Proof.
  intros [[H|H]%orb_true_iff|H]%orb_true_iff; (apply begins_inv in H as [r ->]; [|by repeat constructor]); exists r; (split; [done|]);
    (split; [simpl; lia|]); intros Hf; repeat (apply Forall_cons in Hf as [_ Hf]); done.
Qed.

Lemma strip_loop_run fuel s :
  (length s < fuel)%nat ->
  exists r, strip_loop fuel s = Done r /\ antisocial r = false /\ (length r <= length s)%nat /\ (Forall name_byte s -> Forall name_byte r).
Proof.
  revert s. induction fuel as [|fuel IH]; intros s Hl; [lia|]. cbn [strip_loop]. destruct (antisocial s) eqn:Ha; [|by exists s].
  destruct (after_slash_run s Ha) as (r & -> & Hr & Hz). cbn [obind]. destruct (IH r ltac:(lia)) as (r' & -> & ? & ? & ?).
  exists r'. split_and!; [done..|lia|auto].
Qed.

Lemma strip_run s :
  exists r, strip_antisocial_prefixes s = Done r /\ social r /\ (Forall name_byte s -> Forall name_byte r).
Proof.
  unfold strip_antisocial_prefixes. destruct (strip_loop_run (S (length s)) s ltac:(lia)) as (r & -> & Ha & _ & Hz). cbn [obind].
  case_bool_decide; [exists [46]; split; [done|]; split; [done|]; by repeat constructor|].
  case_bool_decide; simpl; [exists [46]; split; [done|]; split; [done|]; by repeat constructor|].
  exists r. split; [done|]. split; [|done]. split_and!; [done..|by apply antisocial_false].
Qed.

Lemma strip_social s : social s -> strip_antisocial_prefixes s = Done s.
Proof.
  intros (H1 & H2 & Ha%antisocial_false). unfold strip_antisocial_prefixes. cbn [strip_loop]. rewrite Ha. cbn [obind].
  by rewrite !bool_decide_eq_false_2.
Qed.

(** ** Octal numbers *)

Fixpoint oval (ds : list Z) : Z := match ds with [] => 0 | d :: ds => d - 48 + 8 * oval ds end.
Definition octal_digits (ds : list Z) : Prop := Forall (fun d => 48 <= d <= 55) ds.

Lemma oval_app ds es : oval (ds ++ es) = oval ds + 8 ^ Z.of_nat (length ds) * oval es.
Proof. induction ds as [|d ds IH]; cbn [oval app length]; [lia|]. rewrite IH, Nat2Z.inj_succ, Z.pow_succ_r by lia. lia. Qed.

Lemma oval_bound ds : octal_digits ds -> 0 <= oval ds < 8 ^ Z.of_nat (length ds).
Proof.
  induction 1 as [|d ds Hd _ IH]; cbn [oval length]; [lia|]. rewrite Nat2Z.inj_succ, Z.pow_succ_r by lia. lia.
Qed.

Lemma digit_octal k : 0 <= k < 8 -> digit_of base_o k = Done (48 + k).
Proof.
  intros H. assert (k = 0 \/ k = 1 \/ k = 2 \/ k = 3 \/ k = 4 \/ k = 5 \/ k = 6 \/ k = 7) by lia. by intuition subst.
Qed.

Lemma digits_loop_octal k fuel value cnt buf :
  0 <= value < 8 ^ Z.of_nat k -> (k < fuel)%nat -> (length buf + k <= 44)%nat ->
  exists ds, digits_loop fuel value base_o ZERO cnt buf = Done (buf ++ ds) /\ octal_digits ds /\ oval ds = value /\ (length ds <= k)%nat.
Proof.
  revert fuel value cnt buf. induction k as [|k IH]; intros [|fuel] value cnt buf Hv Hf Hl; try lia; cbn [digits_loop].
  - replace value with 0 by (simpl in Hv; lia). exists []. simpl. rewrite app_nil_r. split_and!; [done|constructor|done..].
  - destruct (Z.ltb_spec 0 value) as [Hpos|Hz].
    2:{ exists []. rewrite app_nil_r. split_and!; [done|constructor|simpl; lia..]. }
    replace (has ZERO GROUP) with false by done. cbn [andb obind base base_o].
    pose proof (Z.mod_pos_bound value 8 ltac:(lia)) as Hm. pose proof (Z.div_mod value 8 ltac:(lia)) as Hd.
    rewrite digit_octal by done. cbn [obind]. rewrite push_run by lia. cbn [obind].
    rewrite Nat2Z.inj_succ, Z.pow_succ_r in Hv by lia.
    destruct (IH fuel (value / 8) (cnt + 1) (buf ++ [48 + value mod 8])) as (ds & E & H1 & H2 & H3);
      [split; [apply Z.div_pos; lia|apply Z.div_lt_upper_bound; lia]|lia|rewrite length_app; simpl; lia|].
    exists ((48 + value mod 8) :: ds). rewrite E, <- app_assoc. split_and!; [done|constructor; [lia|done]| |simpl; lia].
    cbn [oval]. rewrite H2. lia.
Qed.

Definition octal_conv (w : Z) : printf_conversion := mk_conv ZERO w (-1) INT.

Lemma octal_text value k w :
  0 <= value < 8 ^ Z.of_nat k -> (0 < k <= 11)%nat ->
  exists ds, integer_text value base_o (octal_conv w) = Done ds /\ octal_digits ds /\ oval ds = value /\ (0 < length ds <= k)%nat.
Proof.
  intros Hv Hk. unfold integer_text. cbn [flags precision octal_conv].
  destruct (digits_loop_octal k 65 value 0 []) as (ds & -> & Hd & Hval & Hlen); [simpl; lia..|]. cbn [obind app].
  replace (if -1 <? 0 then 1 else -1) with 1 by done.
  destruct (zeros_loop_fits 65 1 ds) as (n & -> & _ & Hn & Hn1); [lia..|]. cbn [obind].
  replace (has ZERO POUND) with false by done. cbn [andb]. exists (ds ++ replicate n 48). split; [done|].
  destruct ds as [|d ds].
  - rewrite (Hn1 eq_refl eq_refl). simpl in Hval |- *. split_and!; [constructor; [lia|constructor]|lia|lia..].
  - rewrite Hn by (simpl; lia). simpl. rewrite app_nil_r. simpl in Hlen. split_and!; [done|done|lia|lia].
Qed.

Lemma log_dup ch n l : output_dup log ch n l = Done (tt, l ++ replicate (Z.to_nat n) ch).
Proof.
  unfold output_dup. revert l. induction (Z.to_nat n) as [|k IH]; intros l; cbn [dup_loop replicate]; [by rewrite app_nil_r|].
  unfold bind. cbn [log modify]. rewrite IH, <- app_assoc. done.
Qed.

Lemma rev_replicate {A} n (x : A) : rev (replicate n x) = replicate n x.
Proof. induction n as [|n IH]; [done|]. cbn [replicate rev]. by rewrite IH, <- replicate_S_end. Qed.

(** The text of a number in a field of [w] digits and a terminator. *)
Lemma render_octal format w value :
  (forall a, parse_conversion (tl format) [a] = Done ([111], octal_conv (Z.of_nat w), [a])) -> hd 0 format = 37 -> peek (tl format) <> 37 -> (1 < length format)%nat ->
  (0 < w <= 11)%nat -> 0 <= value < 8 ^ Z.of_nat w -> value < 2 ^ 32 ->
  exists ds, render (fun _ => None) format [u32 value] = Done (rev ds) /\ octal_digits ds /\ oval ds = value /\ length ds = w.
Proof.
  intros Hp Hh Hpk Hlen Hw Hv Hv2. destruct format as [|c format]; [simpl in Hlen; lia|]. simpl in Hh. subst c. cbn [tl] in *.
  destruct (octal_text value w (Z.of_nat w) Hv Hw) as (ds & E & Hd & Hval & Hl).
  exists (ds ++ replicate (w - length ds) 48). rewrite rev_app_distr. split.
  2:{ split; [apply Forall_app; split; [done|apply Forall_replicate; lia]|]. split; [|rewrite length_app, length_replicate; lia].
      rewrite oval_app, Hval. enough (oval (replicate (w - length ds) 48) = 0) by lia.
      generalize (w - length ds)%nat. intros k. induction k as [|k IHk]; cbn [oval replicate]; lia. }
  unfold render, format_fuel. generalize 32%nat. intros fuel. cbn [length Nat.add __vprintf].
  replace (negb (37 =? 37)) with false by done. rewrite (proj2 (Z.eqb_neq _ _) Hpk), Hp. unfold lift at 1. unfold bind at 1.
  cbn [peek]. change ((111 =? 100) || (111 =? 105)) with false. change ((111 =? 111) || (111 =? 117) || (111 =? 120) || (111 =? 88)) with true.
  cbn [type octal_conv unsigned_arg va_word obind]. unfold lift at 1. unfold bind at 2.
  change (base_of 111) with base_o. rewrite (u32_small value) by lia. rewrite (u32_small value) by lia.
  unfold format_integer. rewrite E. unfold lift at 1. cbn [flags octal_conv width sign_of].
  change (has ZERO POUND) with false. change (has ZERO (Z.lor MINUS ZERO)) with true. change (has ZERO ZERO) with true. change (has ZERO MINUS) with false.
  cbn [andb negb Z.eqb]. unfold bind, ret. rewrite i32_small by (unfold is_i32; lia).
  rewrite (proj2 (Z.ltb_ge _ _)) by lia. rewrite log_dup, log_all. cbn [app].
  destruct (length format + fuel)%nat eqn:Hfl; [simpl in Hlen; lia|]. cbn [__vprintf]. unfold ret. do 2 f_equal.
  rewrite rev_replicate. f_equal. lia.
Qed.

Lemma render_7 value : 0 <= value < 8 ^ 7 -> exists ds, render (fun _ => None) octal_7 [u32 value] = Done (rev ds) /\ octal_digits ds /\ oval ds = value /\ length ds = 7%nat.
Proof. intros H. apply render_octal; [done..|simpl; lia|lia|done|lia]. Qed.

Lemma render_11 value : 0 <= value < 2 ^ 32 -> exists ds, render (fun _ => None) octal_11 [u32 value] = Done (rev ds) /\ octal_digits ds /\ oval ds = value /\ length ds = 11%nat.
Proof. intros H. apply render_octal; [done..|simpl; lia|lia|simpl; lia|lia]. Qed.

Lemma octal_loop_run ds n acc :
  octal_digits ds -> 0 <= acc -> acc * 8 ^ Z.of_nat (length ds) + oval ds < 2 ^ 32 -> (0 < n + length ds)%nat ->
  octal_loop (rev ds ++ [0]) n acc = Some (acc * 8 ^ Z.of_nat (length ds) + oval ds).
Proof.
  revert n acc. induction ds as [|d ds IH] using rev_ind; intros n acc Hd Ha Hb Hn.
  - simpl in *. rewrite (proj2 (Nat.ltb_lt 0 n)) by lia. f_equal. lia.
  - apply Forall_app in Hd as [Hds [Hd _]%Forall_cons]. rewrite rev_app_distr. cbn [rev app octal_loop].
    rewrite length_app, Nat.add_comm in Hb |- *. cbn [length Nat.add] in Hb |- *. rewrite Nat2Z.inj_succ, Z.pow_succ_r in Hb |- * by lia.
    rewrite oval_app in Hb |- *. cbn [oval] in Hb |- *. pose proof (oval_bound ds Hds) as Ho.
    rewrite (proj2 (Z.leb_le 48 d)), (proj2 (Z.leb_le d 55)) by lia. cbn [andb].
    assert (8 ^ Z.of_nat (length ds) > 0) by lia.
    assert (Hs : d - 48 + acc * 8 < 2 ^ 32) by nia.
    rewrite (proj2 (Z.ltb_ge (ULONG_MAX / 8) acc)) by (change (ULONG_MAX / 8) with 536870911; nia).
    rewrite u32_small by lia. rewrite IH; [f_equal; nia|done|lia|nia|lia].
Qed.

(** What [snprintf] stored is read back. *)
Lemma parse_octal_run ds : octal_digits ds -> (0 < length ds)%nat -> oval ds < 2 ^ 32 -> parse_octal_field (rev ds ++ [0]) = Some (oval ds).
Proof. intros Hd Hl Hv. unfold parse_octal_field. rewrite octal_loop_run; [f_equal; lia|done|lia|lia|lia]. Qed.

(** ** Fields *)

Lemma put_length h o l : (o + length l <= length h)%nat -> length (put_bytes h o l) = length h.
Proof. intros H. unfold put_bytes. rewrite !length_app, length_take, length_drop. lia. Qed.

Lemma get_put_same h o l n : (o + length l <= length h)%nat -> n = length l -> get_bytes (put_bytes h o l) o n = l.
Proof.
  intros H ->. unfold get_bytes, put_bytes. rewrite drop_app_length' by (rewrite length_take; lia).
  by rewrite take_app_length.
Qed.

Lemma get_put_other h o l o' n :
  (o + length l <= length h)%nat -> (o' + n <= o \/ o + length l <= o')%nat -> get_bytes (put_bytes h o l) o' n = get_bytes h o' n.
Proof.
  intros H Hd. unfold get_bytes, put_bytes. destruct Hd as [Hd|Hd].
  - rewrite !take_drop_commute, take_app_le by (rewrite length_take; lia). by rewrite take_take, Nat.min_l by lia.
  - rewrite drop_app_ge by (rewrite length_take; lia). rewrite drop_app_ge by (rewrite length_take; lia).
    rewrite length_take, drop_drop. do 2 f_equal. lia.
Qed.

Lemma put_forall (Q : Z -> Prop) h o l : Forall Q h -> Forall Q l -> Forall Q (put_bytes h o l).
Proof. intros H1 H2. unfold put_bytes. rewrite !Forall_app. split_and!; [by apply Forall_take|done|by apply Forall_drop]. Qed.

Lemma c_string_run s l : Forall name_byte s -> c_string (s ++ 0 :: l) = s.
Proof.
  induction 1 as [|b s Hb _ IH]; [done|]. cbn [app c_string]. unfold name_byte in Hb. rewrite (proj2 (Z.eqb_neq _ _)) by lia. by rewrite IH.
Qed.

(** ** Checksums *)

Lemma chksum_app a b i acc : chksum_loop (a ++ b) i acc = chksum_loop b (i + length a) (chksum_loop a i acc).
Proof.
  revert i acc. induction a as [|x a IH]; intros i acc; cbn [app chksum_loop length]; [by rewrite Nat.add_0_r|].
  rewrite IH. by rewrite Nat.add_succ_comm.
Qed.

Lemma chksum_field a b acc : length a = 8%nat -> length b = 8%nat -> chksum_loop a 148 acc = chksum_loop b 148 acc.
Proof. intros Ha Hb. do 8 (destruct a as [|? a]; [done|]; destruct b as [|? b]; [done|]). by destruct a, b. Qed.

(** The checksum does not depend on the field it is stored in. *)
Lemma chksum_put h l : length h = USTAR_HEADER_SIZE -> length l = 8%nat -> calculate_chksum (put_bytes h 148 l) = calculate_chksum h.
Proof.
  intros Hh Hl. unfold USTAR_HEADER_SIZE in Hh. unfold calculate_chksum. rewrite !take_ge by (rewrite ?put_length; unfold USTAR_HEADER_SIZE; lia).
  rewrite <- (take_drop 148 h) at 2. rewrite <- (take_drop 8 (drop 148 h)) at 1.
  unfold put_bytes. rewrite !chksum_app, drop_drop, Hl, !length_take, length_drop, Hh.
  rewrite (chksum_field l (take 8 (drop 148 h))) by (rewrite ?length_take, ?length_drop; lia). done.
Qed.

Lemma chksum_bound h i acc : Forall byte h -> 0 <= acc -> acc + 255 * Z.of_nat (length h) < 2 ^ 32 ->
  0 <= chksum_loop h i acc <= acc + 255 * Z.of_nat (length h).
Proof.
  intros Hf. revert i acc. induction Hf as [|b h Hb _ IH]; intros i acc Ha Hs; cbn [chksum_loop length] in *; [lia|]. unfold byte in Hb.
  match goal with |- context [if ?c then 32 else b] => set (v := if c then 32 else b); assert (0 <= v <= 255) by (unfold v; destruct c; lia) end.
  rewrite u32_small by lia. specialize (IH (S i) (acc + v) ltac:(lia) ltac:(lia)). lia.
Qed.

(** ** The composed header *)

(** The fields that [ustar_make_header] fills in before the checksum, in its
    order, with the texts of the numbers. *)
Definition filled (name : list Z) (type : Z) (mode size mtime : list Z) : list Z :=
  foldl (fun h '(o, l) => put_bytes h o l) (replicate USTAR_HEADER_SIZE 0)
    [(0%nat, name ++ [0]); (100%nat, mode); (108%nat, zero_text ++ [0]); (116%nat, zero_text ++ [0]); (124%nat, size); (136%nat, mtime);
     (156%nat, [type]); (257%nat, ustar_text ++ [0]); (263%nat, [48; 48]); (297%nat, root_text ++ [0]); (265%nat, root_text ++ [0])].

Definition fit (n : nat) (p : nat * list Z) : Prop := (fst p + length (snd p) <= n)%nat.
Definition apart (o n : nat) (p : nat * list Z) : Prop := (o + n <= fst p \/ fst p + length (snd p) <= o)%nat.

Lemma puts_length ps h n : length h = n -> Forall (fit n) ps -> length (foldl (fun h '(o, l) => put_bytes h o l) h ps) = n.
Proof.
  intros Hh Hp. revert h Hh. induction Hp as [|[o l] ps Ho _ IH]; intros h Hh; [done|]. unfold fit in Ho. simpl in *.
  apply IH. by rewrite put_length; [|lia].
Qed.

(** A field is what was put there last. *)
Lemma get_puts ps h n o k :
  length h = n -> Forall (fit n) ps -> Forall (apart o k) ps ->
  get_bytes (foldl (fun h '(o, l) => put_bytes h o l) h ps) o k = get_bytes h o k.
Proof.
  intros Hh Hp. revert h Hh. induction Hp as [|[o' l] ps Ho _ IH]; intros h Hh Hd; [done|]. apply Forall_cons in Hd as [Hd Hd'].
  unfold fit, apart in *. simpl in *. rewrite IH; [apply get_put_other; [lia|done]|rewrite put_length; lia|done].
Qed.

Lemma get_puts_at ps ps' h n o l k :
  length h = n -> Forall (fit n) (ps ++ (o, l) :: ps') -> k = length l -> Forall (apart o k) ps' ->
  get_bytes (foldl (fun h '(o, l) => put_bytes h o l) h (ps ++ (o, l) :: ps')) o k = l.
Proof.
  intros Hh [Hp [Ho Hp']%Forall_cons]%Forall_app Hk Hd. rewrite foldl_app. cbn [foldl]. set (g := foldl _ h ps).
  assert (Hg : length g = n) by (by apply puts_length). unfold fit in Ho. simpl in Ho.
  rewrite (get_puts _ _ n); [apply get_put_same; [lia|done]|rewrite put_length; lia|done|done].
Qed.

Lemma puts_forall (Q : Z -> Prop) ps h : Forall Q h -> Forall (fun p => Forall Q (snd p)) ps -> Forall Q (foldl (fun h '(o, l) => put_bytes h o l) h ps).
Proof. intros Hh Hp. revert h Hh. induction Hp as [|[o l] ps Ho _ IH]; intros h Hh; [done|]. simpl. apply IH. by apply put_forall. Qed.

Lemma bytes_const l : forallb (fun b => (0 <=? b) && (b <? 256)) l = true -> Forall byte l.
Proof.
  intros H. apply Forall_forall. intros b Hb. rewrite forallb_forall in H. specialize (H b ltac:(by apply list_elem_of_In)).
  apply andb_true_iff in H as [?%Z.leb_le ?%Z.ltb_lt]. unfold byte. lia.
Qed.

Lemma bytes_name l : Forall name_byte l -> Forall byte (l ++ [0]).
Proof.
  intros H. apply Forall_app. split; [|by apply bytes_const]. eapply Forall_impl; [exact H|]. unfold name_byte, byte. lia.
Qed.

Section filled.
Context (name : list Z) (type : Z) (mode size mtime : list Z).
Context (Hn : (length name <= 99)%nat) (Hm : length mode = 8%nat) (Hs : length size = 12%nat) (Ht : length mtime = 12%nat).
Let h := filled name type mode size mtime.

Ltac fits :=
  repeat (apply Forall_cons; split; [unfold fit, apart; cbn [fst snd]; rewrite ?length_app, ?Hm, ?Hs, ?Ht; cbn [length zero_text ustar_text root_text]; lia|]);
  apply Forall_nil_2.

Lemma filled_length : length h = 512%nat.
Proof using Hn Hm Hs Ht. unfold h, filled. apply puts_length; [apply length_replicate|fits]. Qed.

Lemma filled_magic : get_bytes h 257 6 = ustar_text ++ [0].
Proof using Hn Hm Hs Ht. refine (get_puts_at [_; _; _; _; _; _; _] _ _ 512 257 _ 6 (length_replicate _ _) _ _ _); [fits|done|fits]. Qed.

Lemma filled_version : get_bytes h 263 2 = [48; 48].
Proof using Hn Hm Hs Ht. refine (get_puts_at [_; _; _; _; _; _; _; _] _ _ 512 263 _ 2 (length_replicate _ _) _ _ _); [fits|done|fits]. Qed.

Lemma filled_size : get_bytes h 124 12 = size.
Proof using Hn Hm Hs Ht. refine (get_puts_at [_; _; _; _] _ _ 512 124 _ 12 (length_replicate _ _) _ _ _); [fits|done|fits]. Qed.

Lemma filled_type : get_bytes h 156 1 = [type].
Proof using Hn Hm Hs Ht. refine (get_puts_at [_; _; _; _; _; _] _ _ 512 156 _ 1 (length_replicate _ _) _ _ _); [fits|done|fits]. Qed.

Lemma filled_prefix : get_bytes h 345 155 = replicate 155 0.
Proof using Hn Hm Hs Ht. unfold h, filled. rewrite (get_puts _ _ 512); [done|apply length_replicate|fits|fits]. Qed.

Lemma filled_name : get_bytes h 0 100 = name ++ 0 :: replicate (99 - length name) 0.
Proof using Hn Hm Hs Ht.
  unfold h, filled. match goal with |- context [foldl ?f ?z (_ :: ?ps)] => change (foldl f z (_ :: ps)) with (foldl f (put_bytes z 0 (name ++ [0])) ps) end.
  rewrite (get_puts _ _ 512); [|rewrite put_length; [apply length_replicate|]|fits|fits].
  - unfold get_bytes, put_bytes. rewrite take_0, drop_0. cbn [app]. rewrite drop_replicate, <- app_assoc, take_app_ge by lia.
    f_equal. rewrite length_app. cbn [length app]. unfold USTAR_HEADER_SIZE. replace (100 - length name)%nat with (S (99 - length name)) by lia.
    cbn [take]. f_equal. rewrite take_replicate. f_equal. lia.
  - rewrite length_replicate, length_app. unfold USTAR_HEADER_SIZE. cbn [length]. lia.
Qed.

Lemma filled_bytes : Forall name_byte name -> byte type -> Forall byte mode -> Forall byte size -> Forall byte mtime -> Forall byte h.
Proof.
  intros H1 H2 H3 H4 H5. unfold h, filled. apply puts_forall; [apply Forall_replicate; by split|].
  repeat (apply Forall_cons; split; [cbn [snd]; first [exact H3 | exact H4 | exact H5 | exact (bytes_name _ H1) | exact (Forall_cons_2 _ _ _ H2 (Forall_nil_2 _)) | apply bytes_const; reflexivity]|]).
  apply Forall_nil_2.
Qed.
End filled.

Lemma put_full f s h : (length s <= f_size f - 1)%nat -> put_text f s h = put_bytes h (f_ofs f) (s ++ [0]).
Proof. intros H. unfold put_text. by rewrite take_ge. Qed.

Lemma number_full f format arg ds h : render (fun _ => None) format [u32 arg] = Done (rev ds) -> (length ds <= f_size f - 1)%nat ->
  put_number f format arg h = Done (put_bytes h (f_ofs f) (rev ds ++ [0])).
Proof. intros E Hl. unfold put_number. rewrite E. cbn [obind]. by rewrite put_full by (by rewrite length_rev). Qed.

Definition field_text (w : nat) (value : Z) (l : list Z) : Prop :=
  exists ds, l = rev ds ++ [0] /\ octal_digits ds /\ oval ds = value /\ length ds = w.

Lemma field_text_length w value l : field_text w value l -> length l = S w.
Proof. intros (ds & -> & _ & _ & Hl). rewrite length_app, length_rev, Hl. cbn [length]. lia. Qed.

Lemma field_text_bytes w value l : field_text w value l -> Forall byte l.
Proof.
  intros (ds & -> & Hd & _). apply Forall_app. split; [|by apply bytes_const]. apply Forall_rev. eapply Forall_impl; [exact Hd|]. unfold byte. simpl. lia.
Qed.

Lemma field_text_parse w value l : field_text w value l -> (0 < w)%nat -> value < 2 ^ 32 -> parse_octal_field l = Some value.
Proof. intros (ds & -> & Hd & <- & Hl) Hw Hv. apply parse_octal_run; [done|lia|done]. Qed.

(** The header for a name that fits. *)
Lemma make_run s r type size :
  strip_antisocial_prefixes s = Done r -> (length r <= 99)%nat -> Forall name_byte r -> type = USTAR_REGULAR \/ type = USTAR_DIRECTORY -> 0 <= size < 2 ^ 32 ->
  exists mode sz mtime ck,
    field_text 7 (if type =? USTAR_REGULAR then 420 else 493) mode /\ field_text 11 size sz /\ field_text 11 1136102400 mtime /\
    field_text 7 (calculate_chksum (filled r type mode sz mtime)) ck /\
    ustar_make_header s type size = Done (Some (put_bytes (filled r type mode sz mtime) 148 ck)).
Proof.
  intros Hs Hr Hb Htype Hsize.
  destruct (render_7 (if type =? USTAR_REGULAR then 420 else 493) ltac:(destruct (_ =? _); lia)) as (m & Em & Hm & Vm & Lm).
  destruct (render_11 size Hsize) as (z & Ez & Hz & Vz & Lz). destruct (render_11 1136102400 ltac:(lia)) as (t & Et & Hmt & Vt & Lt).
  set (mode := rev m ++ [0]). set (sz := rev z ++ [0]). set (mtime := rev t ++ [0]).
  pose proof (ex_intro _ m (conj eq_refl (conj Hm (conj Vm Lm))) : field_text 7 _ mode) as Fm.
  pose proof (ex_intro _ z (conj eq_refl (conj Hz (conj Vz Lz))) : field_text 11 _ sz) as Fz.
  pose proof (ex_intro _ t (conj eq_refl (conj Hmt (conj Vt Lt))) : field_text 11 _ mtime) as Ft.
  assert (Hh : Forall byte (filled r type mode sz mtime)).
  { apply filled_bytes; [exact Hb| |exact (field_text_bytes _ _ _ Fm)|exact (field_text_bytes _ _ _ Fz)|exact (field_text_bytes _ _ _ Ft)].
    unfold byte, USTAR_REGULAR, USTAR_DIRECTORY in *. lia. }
  assert (Hlen : length (filled r type mode sz mtime) = 512%nat).
  { exact (filled_length r type mode sz mtime Hr (field_text_length _ _ _ Fm) (field_text_length _ _ _ Fz) (field_text_length _ _ _ Ft)). }
  destruct (render_7 (calculate_chksum (filled r type mode sz mtime))) as (k & Ek & Hk & Vk & Lk).
  { unfold calculate_chksum. rewrite take_ge by (rewrite Hlen; unfold USTAR_HEADER_SIZE; lia).
    pose proof (chksum_bound _ 0 0 Hh ltac:(lia) ltac:(rewrite Hlen; lia)) as Hc. rewrite Hlen in Hc. lia. }
  exists mode, sz, mtime, (rev k ++ [0]).
  split; [exact Fm|]. split; [exact Fz|]. split; [exact Ft|]. split; [exact (ex_intro _ k (conj eq_refl (conj Hk (conj Vk Lk))))|].
  unfold ustar_make_header. rewrite (proj2 (orb_true_iff _ _)) by (rewrite !Z.eqb_eq; done). cbn [negb].
  rewrite Hs. cbn [obind]. rewrite (proj2 (Z.ltb_ge _ _)) by lia.
  rewrite (put_full f_name) by (simpl; lia).
  rewrite (number_full f_mode _ _ m) by (done || (rewrite Lm; simpl; lia)). cbn [obind].
  rewrite (put_full f_uid), (put_full f_gid) by (simpl; lia).
  rewrite (number_full f_size_ _ _ z) by (done || (rewrite Lz; simpl; lia)). cbn [obind].
  rewrite (number_full f_mtime _ _ t) by (done || (rewrite Lt; simpl; lia)). cbn [obind].
  rewrite (put_full f_magic), (put_full f_gname), (put_full f_uname) by (simpl; lia).
  apply (number_full f_chksum octal_7 _ k (filled r type mode sz mtime)) in Ek as Ek'; [|rewrite Lk; simpl; lia].
  match goal with |- obind ?m _ = _ => change m with (put_number f_chksum octal_7 (calculate_chksum (filled r type mode sz mtime)) (filled r type mode sz mtime)) end.
  by rewrite Ek'.
Qed.

Lemma all_zeros_get h o n l : get_bytes h o n = l -> existsb (fun b => negb (b =? 0)) l = true -> is_all_zeros h = false.
Proof.
  intros <- (b & Hin & Hb)%existsb_exists. apply not_true_iff_false. intros H. unfold is_all_zeros in H. rewrite forallb_forall in H.
  rewrite (H b) in Hb; [done|]. unfold get_bytes in Hin. rewrite <- (take_drop o h), <- (take_drop n (drop o h)).
  apply in_app_iff. right. apply in_app_iff. by left.
Qed.

Lemma nth_zeros i n : nth i (replicate n 0) 0 = 0.
Proof. revert i. induction n as [|n IH]; intros [|i]; try done. apply IH. Qed.

(** Parsing a composed header. *)
Lemma parse_run r type mode sz mtime ck size :
  (length r <= 99)%nat -> Forall name_byte r -> social r -> type = USTAR_REGULAR \/ type = USTAR_DIRECTORY -> 0 <= size <= INT_MAX ->
  length mode = 8%nat -> field_text 11 size sz -> length mtime = 12%nat ->
  field_text 7 (calculate_chksum (filled r type mode sz mtime)) ck -> 0 <= calculate_chksum (filled r type mode sz mtime) < 2 ^ 32 ->
  ustar_parse_header (put_bytes (filled r type mode sz mtime) 148 ck) = Done (Parsed (Some r) type (if type =? USTAR_REGULAR then size else 0)).
Proof.
  intros Hr Hb Hsoc Htype Hsize Hm Hz Ht Hck Hc. pose proof (field_text_length _ _ _ Hz) as Lz. pose proof (field_text_length _ _ _ Hck) as Lck.
  pose proof (filled_length r type mode sz mtime Hr Hm Lz Ht) as Hlen. set (h := put_bytes _ 148 ck).
  assert (Hfit : (148 + length ck <= length (filled r type mode sz mtime))%nat) by (rewrite Hlen, Lck; lia).
  assert (Hother : forall o n, (o + n <= 148 \/ 156 <= o)%nat -> get_bytes h o n = get_bytes (filled r type mode sz mtime) o n).
  { intros o n Hd. apply get_put_other; [done|]. rewrite Lck. lia. }
  assert (Hmagic : get_field h f_magic = ustar_text ++ [0]) by (etrans; [apply Hother; simpl; lia|by apply filled_magic]).
  assert (Htf : typeflag h = type).
  { unfold typeflag, get_field. simpl f_ofs. simpl f_size. rewrite Hother, filled_type by (done || lia). destruct Htype as [-> | ->]; done. }
  unfold ustar_parse_header. rewrite take_ge by (unfold h; rewrite put_length by done; rewrite Hlen; unfold USTAR_HEADER_SIZE; lia).
  rewrite (all_zeros_get h 257 6 (ustar_text ++ [0]) Hmagic eq_refl), bool_decide_eq_true_2 by done. cbn [negb].
  assert (get_field h f_version = [48; 48]) as -> by (etrans; [apply Hother; simpl; lia|by apply filled_version]).
  rewrite bool_decide_eq_true_2 by done. cbn [negb].
  assert (get_field h f_chksum = ck) as -> by (apply get_put_same; [done|by rewrite Lck]).
  rewrite (field_text_parse _ _ _ Hck ltac:(lia) ltac:(lia)). unfold h at 1. rewrite chksum_put, Z.eqb_refl by done. cbn [negb].
  assert (get_field h f_name = r ++ 0 :: replicate (99 - length r) 0) as -> by (etrans; [apply Hother; simpl; lia|by apply filled_name]).
  assert (get_field h f_prefix = replicate 155 0) as -> by (etrans; [apply Hother; simpl; lia|by apply filled_prefix]).
  rewrite app_nth2 by lia. rewrite c_string_run, (strip_social _ Hsoc), Htf by done.
  assert (nth (99 - length r) (0 :: replicate (99 - length r) 0) 0 = 0) as ->.
  { destruct (99 - length r)%nat as [|k]; [done|]. cbn [nth]. apply nth_zeros. }
  change (nth 0 (replicate 155 0) 0) with 0. cbn [Z.eqb negb orb].
  rewrite (proj2 (andb_false_iff _ _)) by (destruct Htype as [-> | ->]; auto).
  destruct Htype as [-> | ->]; [|done]. cbn [Z.eqb Pos.eqb USTAR_REGULAR].
  assert (get_field h f_size_ = sz) as -> by (etrans; [apply Hother; simpl; lia|by apply filled_size]).
  rewrite (field_text_parse _ _ _ Hz) by (unfold INT_MAX in Hsize; lia). rewrite (proj2 (Z.ltb_ge _ _)) by lia. cbn [obind].
  rewrite i32_small by (unfold is_i32, INT_MAX in *; lia). done.
Qed.

(** No header makes the parser fault, and the name it returns is inside the
    destination as far as its prefix goes. *)
Lemma parse_total h : exists x, ustar_parse_header h = Done x /\ forall n t s, x = Parsed (Some n) t s -> social n.
Proof.
  unfold ustar_parse_header. destruct (strip_run (c_string (get_field h f_name))) as (r & -> & Hs & _). cbn [obind].
  repeat match goal with
  | |- context [if ?b then _ else _] => destruct b
  | |- context [match ?o with Some _ => _ | None => _ end] => destruct o
  end; (eexists; split; [reflexivity|]); intros n t s Hx; inversion Hx; by subst.
Qed.

(** C28: archives.  For every file name and size, [ustar_make_header] strips the
    name to one that is not absolute and does not start with "./" or "../".  If
    the result has more than 99 characters it returns false; otherwise it
    composes 512 bytes that [ustar_parse_header] parses to that name, the type
    and the size, with 0 for a directory.  Whatever bytes it is given, the
    parser returns, and a name it returns has no such prefix either. *)
Theorem ustar_roundtrip (file_name : list Z) (type size : Z)
  (Hname : Forall name_byte file_name) (Htype : type = USTAR_REGULAR \/ type = USTAR_DIRECTORY) (Hsize : 0 <= size <= INT_MAX) :
  (exists r, strip_antisocial_prefixes file_name = Done r /\ social r /\
     if 99 <? Z.of_nat (length r) then ustar_make_header file_name type size = Done None
     else exists h, ustar_make_header file_name type size = Done (Some h) /\ length h = USTAR_HEADER_SIZE /\
       ustar_parse_header h = Done (Parsed (Some r) type (if type =? USTAR_REGULAR then size else 0))) /\
  (forall h, exists x, ustar_parse_header h = Done x /\ forall n t s, x = Parsed (Some n) t s -> social n).
Proof.
  split; [|exact parse_total]. destruct (strip_run file_name) as (r & Er & Hs & Hb). specialize (Hb Hname). exists r. split; [done|]. split; [done|].
  destruct (99 <? Z.of_nat (length r)) eqn:Hl.
  - unfold ustar_make_header. rewrite (proj2 (orb_true_iff _ _)) by (rewrite !Z.eqb_eq; exact Htype). cbn [negb]. rewrite Er. cbn [obind]. by rewrite Hl.
  - apply Z.ltb_ge in Hl.
    destruct (make_run file_name r type size Er ltac:(lia) Hb Htype ltac:(unfold INT_MAX in Hsize; lia)) as (mode & sz & mtime & ck & Fm & Fz & Ft & Fc & ->).
    pose proof (field_text_length _ _ _ Fm) as Lm. pose proof (field_text_length _ _ _ Fz) as Lz. pose proof (field_text_length _ _ _ Ft) as Lt.
    pose proof (field_text_length _ _ _ Fc) as Lc. pose proof (filled_length r type mode sz mtime ltac:(lia) Lm Lz Lt) as Hlen.
    eexists. split; [reflexivity|]. split; [rewrite put_length; rewrite Hlen; [done|rewrite Lc; lia]|].
    eapply parse_run; [lia|exact Hb|exact Hs|exact Htype|exact Hsize|exact Lm|exact Fz|exact Lt|exact Fc|].
    destruct Fc as (ds & _ & Hd & <- & Hl'). pose proof (oval_bound ds Hd) as Ho. rewrite Hl' in Ho. lia.
Qed.

Lemma ustar_roundtrip_witness :
  exists h, ustar_make_header [46; 46; 47; 97] USTAR_REGULAR 1000 = Done (Some h) /\ ustar_parse_header h = Done (Parsed (Some [97]) USTAR_REGULAR 1000).
Proof.
  destruct (ustar_roundtrip [46; 46; 47; 97] USTAR_REGULAR 1000) as [(r & Er & _ & H) _];
    [repeat constructor; unfold name_byte; lia|by left|unfold INT_MAX; lia|].
  injection Er as <-. destruct H as (h & H1 & _ & H2). exists h. split; [exact H1|exact H2].
Defined.
