(* ===== verification/Hash.v ===== *)
(** * lib/kernel/hash.c: hash tables

    A table is its counts and its array of buckets.  A bucket is the sequence of
    the elements linked in its list (KListSpec shows that the list functions act
    on that sequence); elements are addresses, and the caller's [hash] and
    [less] are functions of them.  [malloc] may fail: whether it does is an
    argument of every operation that resizes the table.

    An iterator points to the head of a bucket, to an element, or is null.

    The theorems: any sequence of calls behaves as a set of pairwise different
    elements, whatever [malloc] does, and an iteration returns every element
    once and then null. *)

From stdpp Require Import options.
From S2P Require Import Prelude Bytes KList Mem Str.
Local Open Scope Z_scope.
Local Open Scope kernel_scope.

(** ** The code *)

Record hash := mk_hash { elem_cnt : Z; bucket_cnt : Z; buckets : list (list Z) }.

Definition FNV_32_PRIME : Z := 16777619.
Definition FNV_32_BASIS : Z := 2166136261.

Definition hash_step (h b : Z) : Z := Z.lxor (u32 (h * FNV_32_PRIME)) b.

Fixpoint hash_bytes_loop (n : nat) (buf h : Z) : M mem Z :=
  match n with
  | O => ret h
  | S n => let! b := load8 buf in hash_bytes_loop n (buf + 1) (hash_step h b)
  end.

Definition hash_bytes (buf size : Z) : M mem Z :=
  nonnull buf ;; hash_bytes_loop (Z.to_nat size) buf FNV_32_BASIS.

Fixpoint hash_string_loop (fuel : nat) (s h : Z) : M mem Z :=
  match fuel with
  | O => fail OutOfFuel
  | S fuel =>
      let! b := load8 s in
      if b =? 0 then ret h else hash_string_loop fuel (s + 1) (hash_step h b)
  end.

Definition hash_string (s : Z) : M mem Z :=
  nonnull s ;;
  let! fuel := mem_fuel in hash_string_loop fuel s FNV_32_BASIS.

(** [hash_int] hashes the four bytes of its argument. *)
Definition hash_int (i : Z) : Z := fold_left hash_step (le_encode 4 (u32 i)) FNV_32_BASIS.

Definition hash_size (h : hash) : Z := elem_cnt h.
Definition hash_empty (h : hash) : bool := elem_cnt h =? 0.

Definition turn_off_least_1bit (x : Z) : Z := Z.land x (u32 (x - 1)).
Definition is_power_of_2 (x : Z) : bool := negb (x =? 0) && (turn_off_least_1bit x =? 0).

Definition BEST_ELEMS_PER_BUCKET : Z := 2.

Fixpoint power_loop (fuel : nat) (x : Z) : outcome Z :=
  match fuel with
  | O => Fault OutOfFuel
  | S fuel => if is_power_of_2 x then Done x else power_loop fuel (turn_off_least_1bit x)
  end.

Section table.
Context (hash_fn : Z -> Z) (less : Z -> Z -> bool).

Definition get_bucket (h : hash) (k : Z) : outcome (list Z) :=
  match buckets h !! Z.to_nat k with Some b => Done b | None => Fault BadPointer end.

Definition set_bucket (h : hash) (k : Z) (b : list Z) : hash :=
  mk_hash (elem_cnt h) (bucket_cnt h) (<[Z.to_nat k := b]> (buckets h)).

(** The index of the bucket that the source returns a pointer to. *)
Definition find_bucket (h : hash) (e : Z) : Z := Z.land (u32 (hash_fn e)) (u32 (bucket_cnt h - 1)).

Definition equal_elem (a b : Z) : bool := negb (less a b) && negb (less b a).

Fixpoint find_elem (bucket : list Z) (e : Z) : Z :=
  match bucket with
  | [] => NULL
  | hi :: bucket => if equal_elem hi e then hi else find_elem bucket e
  end.

Definition insert_elem (h : hash) (k e : Z) : outcome hash :=
  let? b := get_bucket h k in
  Done (mk_hash (u32 (elem_cnt h + 1)) (bucket_cnt h) (<[Z.to_nat k := e :: b]> (buckets h))).

(** [list_remove] takes the element out of the bucket it is linked in. *)
Definition remove_elem (h : hash) (e : Z) : hash :=
  mk_hash (u32 (elem_cnt h - 1)) (bucket_cnt h) (map (filter (fun x => x <> e)) (buckets h)).

Definition push_elem (h : hash) (e : Z) : outcome hash :=
  let k := find_bucket h e in
  let? b := get_bucket h k in
  Done (set_bucket h k (e :: b)).

Fixpoint push_bucket (h : hash) (l : list Z) : outcome hash :=
  match l with
  | [] => Done h
  | e :: l => let? h := push_elem h e in push_bucket h l
  end.

Fixpoint push_buckets (h : hash) (bs : list (list Z)) : outcome hash :=
  match bs with
  | [] => Done h
  | b :: bs => let? h := push_bucket h b in push_buckets h bs
  end.

Definition ideal_cnt (h : hash) : Z :=
  let n := elem_cnt h / BEST_ELEMS_PER_BUCKET in if n <? 4 then 4 else n.

Definition rehash (h : hash) (malloc_ok : bool) : outcome hash :=
  let old_buckets := buckets h in
  let? new_bucket_cnt := power_loop (S (Z.to_nat (ideal_cnt h))) (ideal_cnt h) in
  if new_bucket_cnt =? bucket_cnt h then Done h
  else if negb malloc_ok then Done h
  else push_buckets (mk_hash (elem_cnt h) new_bucket_cnt (replicate (Z.to_nat new_bucket_cnt) [])) old_buckets.

Definition hash_insert (h : hash) (new : Z) (malloc_ok : bool) : outcome (Z * hash) :=
  let bucket := find_bucket h new in
  let? b := get_bucket h bucket in
  let old := find_elem b new in
  let? h := (if old =? NULL then insert_elem h bucket new else Done h) in
  let? h := rehash h malloc_ok in
  Done (old, h).

Definition hash_replace (h : hash) (new : Z) (malloc_ok : bool) : outcome (Z * hash) :=
  let bucket := find_bucket h new in
  let? b := get_bucket h bucket in
  let old := find_elem b new in
  let h := if negb (old =? NULL) then remove_elem h old else h in
  let? h := insert_elem h bucket new in
  let? h := rehash h malloc_ok in
  Done (old, h).

Definition hash_find (h : hash) (e : Z) : outcome Z :=
  let? b := get_bucket h (find_bucket h e) in
  Done (find_elem b e).

Definition hash_delete (h : hash) (e : Z) (malloc_ok : bool) : outcome (Z * hash) :=
  let? b := get_bucket h (find_bucket h e) in
  let found := find_elem b e in
  if negb (found =? NULL) then
    let? h := rehash (remove_elem h found) malloc_ok in
    Done (found, h)
  else Done (found, h).

(** The calls of the destructor, in order, and the emptied table. *)
Definition hash_clear (h : hash) (destructor : bool) : list Z * hash :=
  (if destructor then concat (buckets h) else [],
   mk_hash 0 (bucket_cnt h) (replicate (length (buckets h)) [])).

Definition hash_init (malloc_ok : bool) : option hash :=
  let h := mk_hash 0 4 (replicate 4 []) in
  if malloc_ok then Some (snd (hash_clear h false)) else None.

(** The destructor's calls; the bucket array is then freed. *)
Definition hash_destroy (h : hash) (destructor : bool) : list Z :=
  if destructor then fst (hash_clear h true) else [].

(** ** Iteration *)

Inductive position := AtHead | AtElem (e : Z) | AtNull.

Record hash_iterator := mk_iter { i_bucket : Z; i_elem : position }.

Fixpoint apply_loop {S} (action : Z -> M S unit) (l : list Z) : M S unit :=
  match l with
  | [] => ret tt
  | e :: l => action e ;; apply_loop action l
  end.

Fixpoint hash_apply {S} (action : Z -> M S unit) (bs : list (list Z)) : M S unit :=
  match bs with
  | [] => ret tt
  | b :: bs => apply_loop action b ;; hash_apply action bs
  end.

Definition hash_first : hash_iterator := mk_iter 0 AtHead.

(** The element after [e] in a list, if any. *)
Fixpoint after (e : Z) (l : list Z) : option Z :=
  match l with
  | [] => None
  | x :: l => if x =? e then hd_error l else after e l
  end.

(** [while (elem == list_end (bucket))]: [next] is the element to stop at, or
    [None] for the end of the bucket. *)
Fixpoint next_loop (fuel : nat) (h : hash) (k : Z) (next : option Z) : outcome hash_iterator :=
  match next with
  | Some e => Done (mk_iter k (AtElem e))
  | None =>
      match fuel with
      | O => Fault OutOfFuel
      | S fuel =>
          let k := k + 1 in
          if bucket_cnt h <=? k then Done (mk_iter k AtNull)
          else let? b := get_bucket h k in next_loop fuel h k (hd_error b)
      end
  end.

Definition hash_next (h : hash) (i : hash_iterator) : outcome hash_iterator :=
  match i_elem i with
  | AtNull => Fault BadPointer
  | AtHead =>
      let? b := get_bucket h (i_bucket i) in
      next_loop (S (Z.to_nat (bucket_cnt h))) h (i_bucket i) (hd_error b)
  | AtElem e =>
      let? b := get_bucket h (i_bucket i) in
      next_loop (S (Z.to_nat (bucket_cnt h))) h (i_bucket i) (after e b)
  end.

Definition hash_cur (i : hash_iterator) : Z :=
  match i_elem i with AtElem e => e | _ => NULL end.
End table.

(** ** Powers of two *)

Lemma land_le_r a b : 0 <= a -> 0 <= b -> Z.land a b <= b.
Proof.
  intros Ha Hb. rewrite <- (Z2N.id a), <- (Z2N.id b) by done. rewrite <- N2Z.inj_land.
  apply N2Z.inj_le, N.land_le_r.
Qed.

Lemma land_pred_bounds x :
  0 < x -> x <> 2 ^ Z.log2 x -> 2 ^ Z.log2 x <= Z.land x (x - 1) < x.
Proof.
  intros Hx Hne. destruct (Z.log2_spec x Hx) as [Hlo Hhi]. set (k := Z.log2 x) in *.
  assert (0 <= k) by apply Z.log2_nonneg.
  assert (Hk : Z.log2 (x - 1) = k) by (apply Z.log2_unique; lia).
  assert (Z.testbit (Z.land x (x - 1)) k = true) as Hb.
  { rewrite Z.land_spec. pose proof (Z.bit_log2 x Hx) as B1. pose proof (Z.bit_log2 (x - 1) ltac:(lia)) as B2.
    fold k in B1. rewrite Hk in B2. by rewrite B1, B2. }
  assert (0 <= Z.land x (x - 1)) as H0 by (apply Z.land_nonneg; lia). split.
  - destruct (Z_lt_le_dec (Z.land x (x - 1)) (2 ^ k)) as [Hlt|]; [|done].
    rewrite Z.bits_above_log2 in Hb; [done|lia|]. destruct (decide (Z.land x (x - 1) = 0)) as [E|E].
    + rewrite E in *. rewrite Z.bits_0 in Hb. done.
    + apply Z.log2_lt_pow2; lia.
  - pose proof (land_le_r x (x - 1)). lia.
Qed.

Lemma land_pow2 k : 0 <= k -> Z.land (2 ^ k) (2 ^ k - 1) = 0.
Proof. intros Hk. rewrite Z.sub_1_r, <- Z.ones_equiv, Z.land_ones by lia. apply Z.mod_same. lia. Qed.

Lemma is_power_spec x : 0 < x < 2 ^ 32 -> is_power_of_2 x = true <-> x = 2 ^ Z.log2 x.
Proof.
  intros Hx. unfold is_power_of_2, turn_off_least_1bit. rewrite u32_small by lia.
  rewrite (proj2 (Z.eqb_neq x 0)) by lia. cbn [negb andb]. rewrite Z.eqb_eq. split.
  - intros E. destruct (decide (x = 2 ^ Z.log2 x)) as [|Hne]; [done|].
    pose proof (land_pred_bounds x ltac:(lia) Hne). pose proof (Z.pow_pos_nonneg 2 (Z.log2 x) ltac:(lia) (Z.log2_nonneg x)). lia.
  - intros E. rewrite E. apply land_pow2, Z.log2_nonneg.
Qed.

(** The loop leaves the highest bit. *)
Lemma power_loop_run fuel x : 0 < x < 2 ^ 32 -> x <= Z.of_nat fuel -> power_loop fuel x = Done (2 ^ Z.log2 x).
Proof.
  revert x. induction fuel as [|fuel IH]; intros x Hx Hf; [lia|]. cbn [power_loop].
  destruct (is_power_of_2 x) eqn:E; [apply is_power_spec in E; [by rewrite <- E|done]|].
  assert (x <> 2 ^ Z.log2 x) as Hne by (intros H; apply is_power_spec in H; congruence).
  pose proof (land_pred_bounds x ltac:(lia) Hne) as Hb.
  pose proof (Z.pow_pos_nonneg 2 (Z.log2 x) ltac:(lia) (Z.log2_nonneg x)) as Hp.
  unfold turn_off_least_1bit. rewrite u32_small by lia. rewrite IH by lia. f_equal. f_equal.
  apply Z.log2_unique; [apply Z.log2_nonneg|]. pose proof (Z.log2_spec x ltac:(lia)). lia.
Qed.

(** ** Tables as sets *)

(** What the source asks of the caller's functions: a strict weak order, and
    equal hashes for equal elements. *)
Class HashOk (hash_fn : Z -> Z) (less : Z -> Z -> bool) := {
  less_irrefl a : less a a = false;
  equal_trans a b c : equal_elem less a b = true -> equal_elem less b c = true -> equal_elem less a c = true;
  hash_equal a b : equal_elem less a b = true -> hash_fn a = hash_fn b;
}.

Lemma concat_insert {A} (bs : list (list A)) i b x :
  bs !! i = Some b -> concat (<[i := x :: b]> bs) ≡ₚ x :: concat bs.
Proof.
  revert i. induction bs as [|c bs IH]; intros [|i] Hi; simpl in *; simplify_eq; [done|].
  rewrite IH by done. by rewrite Permutation_middle.
Qed.

Lemma concat_filter {A} (P : A -> Prop) `{!forall x, Decision (P x)} (bs : list (list A)) :
  concat (map (filter P) bs) = filter P (concat bs).
Proof. induction bs as [|b bs IH]; simpl; [done|]. by rewrite filter_app, IH. Qed.

Lemma concat_nils {A} n : concat (replicate n (@nil A)) = [].
Proof. by induction n. Qed.

Lemma elem_concat {A} (bs : list (list A)) x : x ∈ concat bs <-> exists i b, bs !! i = Some b /\ x ∈ b.
Proof.
  induction bs as [|c bs IH]; simpl.
  - split; [intros H; by apply elem_of_nil in H|]. intros (i & b & H & _). by rewrite lookup_nil in H.
  - rewrite elem_of_app, IH. split.
    + intros [H|(i & b & Hi & Hb)]; [by exists 0%nat, c|by exists (S i), b].
    + intros ([|i] & b & Hi & Hb); simpl in Hi; simplify_eq; [by left|right; eauto].
Qed.

Lemma diff_size (X Y : gset Z) : (size (X ∖ Y) <= size X)%nat.
Proof. apply subseteq_size. set_solver. Qed.

Section spec.
Context (hash_fn : Z -> Z) (less : Z -> Z -> bool) `{!HashOk hash_fn less}.
Abbreviation equal := (equal_elem less).
Abbreviation place := (find_bucket hash_fn).

Definition elems (h : hash) : list Z := concat (buckets h).

Record shape (h : hash) : Prop := {
  shape_pow : exists k, bucket_cnt h = 2 ^ k /\ 2 <= k <= 31;
  shape_len : length (buckets h) = Z.to_nat (bucket_cnt h);
  shape_place i b e : buckets h !! i = Some b -> e ∈ b -> Z.to_nat (place h e) = i;
}.

Record content (n : Z) (l : list Z) : Prop := {
  content_nodup : NoDup l;
  content_distinct a b : a ∈ l -> b ∈ l -> equal a b = true -> a = b;
  content_nonnull : NULL ∉ l;
  content_cnt : n = Z.of_nat (length l);
  content_bound : n < 2 ^ 32;
}.

Definition hash_ok (h : hash) : Prop := shape h /\ content (elem_cnt h) (elems h).

Lemma equal_refl a : equal a a = true.
Proof using HashOk0. unfold equal_elem. by rewrite !(less_irrefl (hash_fn := hash_fn)). Qed.

Lemma equal_sym a b : equal a b = equal b a.
Proof. unfold equal_elem. apply andb_comm. Qed.

Lemma content_perm n l k : content n l -> l ≡ₚ k -> content n k.
Proof.
  intros [H1 H2 H3 H4 H5] Hp. split; [by rewrite <- Hp| |by rewrite <- Hp|by rewrite <- Hp|done].
  intros a b Ha Hb. rewrite <- Hp in Ha, Hb. by apply H2.
Qed.

Lemma place_range h e : shape h -> 0 <= place h e < bucket_cnt h.
Proof.
  intros [(k & Hk & Hr) _ _]. unfold find_bucket. rewrite Hk.
  assert (2 ^ k <= 2 ^ 31) by (apply Z.pow_le_mono_r; lia). assert (0 < 2 ^ k) by (apply Z.pow_pos_nonneg; lia).
  rewrite (u32_small (_ - 1)), Z.sub_1_r, <- Z.ones_equiv, Z.land_ones by lia. apply Z.mod_pos_bound. lia.
Qed.

Lemma bucket_run h e : shape h -> exists b, get_bucket h (place h e) = Done b /\ buckets h !! Z.to_nat (place h e) = Some b.
Proof.
  intros Hs. pose proof (place_range h e Hs) as Hr. unfold get_bucket.
  destruct (lookup_lt_is_Some_2 (buckets h) (Z.to_nat (place h e))) as [b Hb]; [rewrite (shape_len h Hs); lia|].
  exists b. by rewrite Hb.
Qed.

Lemma find_elem_spec b e :
  NULL ∉ b ->
  (find_elem less b e = NULL /\ forall x, x ∈ b -> equal x e = false) \/
  (find_elem less b e <> NULL /\ find_elem less b e ∈ b /\ equal (find_elem less b e) e = true).
Proof.
  induction b as [|x b IH]; intros Hn; cbn [find_elem].
  { left. split; [done|]. intros y Hy. by apply elem_of_nil in Hy. }
  apply not_elem_of_cons in Hn as [Hx Hn]. destruct (equal x e) eqn:E.
  - right. split; [done|]. split; [apply elem_of_cons; by left|done].
  - destruct (IH Hn) as [[H1 H2]|(H1 & H2 & H3)].
    + left. split; [done|]. intros y Hy. apply elem_of_cons in Hy as [->|Hy]; [done|by apply H2].
    + right. split; [done|]. split; [apply elem_of_cons; by right|done].
Qed.

(** Searching the element's bucket is searching the table. *)
Lemma find_run h e :
  hash_ok h ->
  exists b, get_bucket h (place h e) = Done b /\ buckets h !! Z.to_nat (place h e) = Some b /\
    ((find_elem less b e = NULL /\ forall x, x ∈ elems h -> equal x e = false) \/
     (find_elem less b e <> NULL /\ find_elem less b e ∈ elems h /\ equal (find_elem less b e) e = true)).
Proof using HashOk0.
  intros [Hs Hc]. destruct (bucket_run h e Hs) as (b & Eb & Hb). exists b. split; [done|]. split; [done|].
  assert (NULL ∉ b) as Hn.
  { intros H. apply (content_nonnull _ _ Hc). apply elem_concat. eauto. }
  destruct (find_elem_spec b e Hn) as [[H1 H2]|(H1 & H2 & H3)].
  - left. split; [done|]. intros x Hx. destruct (equal x e) eqn:E; [|done].
    apply elem_concat in Hx as (i & c & Hi & Hx). pose proof (shape_place h Hs i c x Hi Hx) as Hp.
    assert (place h x = place h e) as Hpe by (unfold find_bucket; by rewrite (hash_equal x e E)).
    rewrite Hpe in Hp. subst i. rewrite Hb in Hi. simplify_eq. rewrite H2 in E; done.
  - right. split; [done|]. split; [|done]. apply elem_concat. eauto.
Qed.

Lemma place_cnt h h' e : bucket_cnt h' = bucket_cnt h -> place h' e = place h e.
Proof. unfold find_bucket. by intros ->. Qed.

(** Linking [e] at the front of its bucket. *)
Lemma shape_push h e b n :
  shape h -> buckets h !! Z.to_nat (place h e) = Some b ->
  let h' := mk_hash n (bucket_cnt h) (<[Z.to_nat (place h e) := e :: b]> (buckets h)) in
  shape h' /\ elems h' ≡ₚ e :: elems h.
Proof.
  intros Hs Hb h'. split; [|by apply concat_insert]. split.
  - apply (shape_pow h Hs).
  - simpl. rewrite length_insert. apply (shape_len h Hs).
  - intros i c x Hi Hx. rewrite (place_cnt h) by done. simpl in Hi.
    destruct (decide (i = Z.to_nat (place h e))) as [->|Hne].
    + rewrite list_lookup_insert_eq in Hi by (by eapply lookup_lt_Some). simplify_eq.
      apply elem_of_cons in Hx as [->|Hx]; [done|]. by apply (shape_place h Hs _ b).
    + rewrite list_lookup_insert_ne in Hi by done. by apply (shape_place h Hs _ c).
Qed.

Lemma push_bucket_run h l :
  shape h -> exists h', push_bucket hash_fn h l = Done h' /\ shape h' /\ elem_cnt h' = elem_cnt h /\ elems h' ≡ₚ l ++ elems h.
Proof.
  revert h. induction l as [|e l IH]; intros h Hs; cbn [push_bucket]; [by exists h|].
  destruct (bucket_run h e Hs) as (b & Eb & Hb). unfold push_elem. rewrite Eb. cbn [obind].
  destruct (shape_push h e b (elem_cnt h) Hs Hb) as [Hs' Hp].
  destruct (IH _ Hs') as (h' & E & H1 & H2 & H3). exists h'. unfold set_bucket. rewrite E.
  split_and!; [done..|]. rewrite H3, Hp. by rewrite <- Permutation_middle.
Qed.

Lemma push_buckets_run h bs :
  shape h -> exists h', push_buckets hash_fn h bs = Done h' /\ shape h' /\ elem_cnt h' = elem_cnt h /\ elems h' ≡ₚ concat bs ++ elems h.
Proof.
  revert h. induction bs as [|b bs IH]; intros h Hs; cbn [push_buckets]; [by exists h|].
  destruct (push_bucket_run h b Hs) as (h1 & E1 & S1 & C1 & P1). rewrite E1. cbn [obind].
  destruct (IH h1 S1) as (h2 & E2 & S2 & C2 & P2). exists h2. rewrite E2. split_and!; [done..|congruence|].
  rewrite P2, P1. simpl. rewrite <- app_assoc. rewrite !app_assoc. by rewrite (Permutation_app_comm (concat bs) b).
Qed.

Lemma ideal_range h : 0 <= elem_cnt h < 2 ^ 32 -> 4 <= ideal_cnt h < 2 ^ 31.
Proof.
  intros Hc. unfold ideal_cnt, BEST_ELEMS_PER_BUCKET.
  assert (elem_cnt h / 2 < 2 ^ 31) by (apply Z.div_lt_upper_bound; lia).
  destruct (Z.ltb_spec (elem_cnt h / 2) 4); lia.
Qed.

Lemma rehash_run h ok :
  hash_ok h -> exists h', rehash hash_fn h ok = Done h' /\ hash_ok h' /\ elems h' ≡ₚ elems h.
Proof.
  intros [Hs Hc]. unfold rehash.
  assert (0 <= elem_cnt h < 2 ^ 32) as Hn by (rewrite (content_cnt _ _ Hc) at 1; pose proof (content_bound _ _ Hc); lia).
  pose proof (ideal_range h Hn) as Hi. rewrite power_loop_run by lia. cbn [obind].
  destruct (_ =? _); [by exists h|]. destruct ok; cbn [negb]; [|by exists h].
  set (n := 2 ^ Z.log2 (ideal_cnt h)).
  destruct (push_buckets_run (mk_hash (elem_cnt h) n (replicate (Z.to_nat n) [])) (buckets h)) as (h' & E & S' & C' & P').
  { split.
    - exists (Z.log2 (ideal_cnt h)). split; [done|]. split.
      + apply (Z.log2_le_mono 4). lia.
      + apply (Z.log2_le_mono _ (2 ^ 31)). lia.
    - apply length_replicate.
    - intros i b e Hb He. apply lookup_replicate in Hb as [-> _]. by apply elem_of_nil in He. }
  simpl in C'. unfold elems at 2 in P'. simpl in P'. rewrite concat_nils, app_nil_r in P'.
  exists h'. split; [done|]. split; [|done]. split; [done|]. rewrite C'. eapply content_perm; [exact Hc|done].
Qed.

(** ** Calls on the set of elements *)

Lemma content_cons n l e :
  content n l -> (forall x, x ∈ l -> equal x e = false) -> e <> NULL -> n + 1 < 2 ^ 32 -> content (n + 1) (e :: l).
Proof using HashOk0.
  intros [H1 H2 H3 H4 H5] He Hn Hb.
  assert (e ∉ l) as Hin by (intros H; specialize (He e H); by rewrite equal_refl in He).
  split; [by constructor| |apply not_elem_of_cons; split; [by intros <-|done]|simpl; lia|done].
  intros a b Ha Hb' E. apply elem_of_cons in Ha as [->|Ha]; apply elem_of_cons in Hb' as [->|Hb']; [done|..].
  - rewrite equal_sym in E. by rewrite He in E.
  - by rewrite He in E.
  - by apply H2.
Qed.

Lemma filter_out (l : list Z) (o : Z) : NoDup l -> o ∈ l -> l ≡ₚ o :: filter (fun x => x <> o) l.
Proof.
  intros Hn Ho. apply NoDup_Permutation; [done| |].
  - constructor; [|by apply NoDup_filter]. intros H. by apply list_elem_of_filter in H as [H _].
  - intros x. rewrite elem_of_cons, list_elem_of_filter. destruct (decide (x = o)) as [->|]; naive_solver.
Qed.

Lemma content_filter n l o :
  content n l -> o ∈ l -> content (n - 1) (filter (fun x => x <> o) l).
Proof.
  intros [H1 H2 H3 H4 H5] Ho. pose proof (Permutation_length (filter_out l o H1 Ho)) as Hl. simpl in Hl.
  split; [by apply NoDup_filter| | |lia|lia].
  - intros a b Ha Hb. apply list_elem_of_filter in Ha as [_ Ha]. apply list_elem_of_filter in Hb as [_ Hb]. by apply H2.
  - intros H. apply list_elem_of_filter in H as [_ H]. done.
Qed.

Lemma insert_run h e b :
  hash_ok h -> buckets h !! Z.to_nat (place h e) = Some b -> e <> NULL -> elem_cnt h + 1 < 2 ^ 32 ->
  (forall x, x ∈ elems h -> equal x e = false) ->
  exists h', insert_elem h (place h e) e = Done h' /\ hash_ok h' /\ elem_cnt h' = elem_cnt h + 1 /\ elems h' ≡ₚ e :: elems h.
Proof using HashOk0.
  intros [Hs Hc] Hb He Hn Hnew. unfold insert_elem, get_bucket. rewrite Hb. cbn [obind]. eexists. split; [reflexivity|].
  destruct (shape_push h e b (u32 (elem_cnt h + 1)) Hs Hb) as [Hs' Hp].
  assert (u32 (elem_cnt h + 1) = elem_cnt h + 1) as Hu by (apply u32_small; rewrite (content_cnt _ _ Hc) in *; lia).
  split; [|split; [exact Hu|exact Hp]]. split; [done|]. simpl. rewrite Hu.
  eapply content_perm; [by apply content_cons|by rewrite Hp].
Qed.

Lemma remove_run h o :
  hash_ok h -> o ∈ elems h ->
  let h' := remove_elem h o in
  hash_ok h' /\ elem_cnt h' = elem_cnt h - 1 /\ bucket_cnt h' = bucket_cnt h /\ elems h' = filter (fun x => x <> o) (elems h).
Proof.
  intros [Hs Hc] Ho h'. unfold h'.
  assert (elems (remove_elem h o) = filter (fun x => x <> o) (elems h)) as He by apply concat_filter.
  pose proof (content_filter _ _ _ Hc Ho) as Hc'.
  assert (u32 (elem_cnt h - 1) = elem_cnt h - 1) as Hu.
  { apply u32_small. pose proof (content_bound _ _ Hc). rewrite (content_cnt _ _ Hc') at 1. lia. }
  split_and!; [|done..]. split.
  - split; [apply (shape_pow h Hs)|simpl; rewrite length_map; apply (shape_len h Hs)|].
    intros i b x Hi Hx. rewrite (place_cnt h) by done. simpl in Hi. rewrite list_lookup_fmap in Hi.
    destruct (buckets h !! i) as [c|] eqn:Ec; simpl in Hi; [|done]. simplify_eq.
    apply list_elem_of_filter in Hx as [_ Hx]. by apply (shape_place h Hs _ c).
  - rewrite He. simpl. by rewrite Hu.
Qed.

Inductive hop := HInsert (e : Z) | HReplace (e : Z) | HFind (e : Z) | HDelete (e : Z).

Definition hop_elem (o : hop) : Z := match o with HInsert e | HReplace e | HFind e | HDelete e => e end.

Definition run_hop (h : hash) (o : hop) (malloc_ok : bool) : outcome (Z * hash) :=
  match o with
  | HInsert e => hash_insert hash_fn less h e malloc_ok
  | HReplace e => hash_replace hash_fn less h e malloc_ok
  | HFind e => let? r := hash_find hash_fn less h e in Done (r, h)
  | HDelete e => hash_delete hash_fn less h e malloc_ok
  end.

Definition absent (X : gset Z) (e : Z) : Prop := forall x, x ∈ X -> equal x e = false.

(** What a call returns and leaves, on the set of the table's elements. *)
Inductive hop_step (X : gset Z) : hop -> Z -> gset Z -> Prop :=
  | insert_new e : absent X e -> hop_step X (HInsert e) NULL ({[e]} ∪ X)
  | insert_old e o : o ∈ X -> equal o e = true -> hop_step X (HInsert e) o X
  | replace_new e : absent X e -> hop_step X (HReplace e) NULL ({[e]} ∪ X)
  | replace_old e o : o ∈ X -> equal o e = true -> hop_step X (HReplace e) o ({[e]} ∪ X ∖ {[o]})
  | find_none e : absent X e -> hop_step X (HFind e) NULL X
  | find_some e o : o ∈ X -> equal o e = true -> hop_step X (HFind e) o X
  | delete_none e : absent X e -> hop_step X (HDelete e) NULL X
  | delete_some e o : o ∈ X -> equal o e = true -> hop_step X (HDelete e) o (X ∖ {[o]}).

Definition elem_set (h : hash) : gset Z := list_to_set (elems h).

Lemma set_perm h h' : elems h' ≡ₚ elems h -> elem_set h' = elem_set h.
Proof. intros Hp. unfold elem_set. apply set_eq. intros x. rewrite !elem_of_list_to_set. by rewrite Hp. Qed.

Lemma absent_iff h e : absent (elem_set h) e <-> forall x, x ∈ elems h -> equal x e = false.
Proof. unfold absent, elem_set. by setoid_rewrite elem_of_list_to_set. Qed.

Lemma set_cons h h' e : elems h' ≡ₚ e :: elems h -> elem_set h' = {[e]} ∪ elem_set h.
Proof.
  intros Hp. unfold elem_set. apply set_eq. intros x.
  by rewrite elem_of_union, elem_of_singleton, !elem_of_list_to_set, Hp, elem_of_cons.
Qed.

Lemma set_filter h h' o : elems h' = filter (fun x => x <> o) (elems h) -> elem_set h' = elem_set h ∖ {[o]}.
Proof.
  intros Hp. unfold elem_set. apply set_eq. intros x.
  rewrite elem_of_difference, elem_of_singleton, !elem_of_list_to_set, Hp, list_elem_of_filter. tauto.
Qed.

(** After the last element equal to [e] is gone, none is left. *)
Lemma removed_absent h o e :
  hash_ok h -> o ∈ elems h -> equal o e = true ->
  forall x, x ∈ filter (fun x => x <> o) (elems h) -> equal x e = false.
Proof using HashOk0.
  intros [_ Hc] Ho Hoe x Hx. apply list_elem_of_filter in Hx as [Hne Hx]. destruct (equal x e) eqn:E; [|done].
  destruct Hne. apply (content_distinct _ _ Hc); [done..|]. rewrite equal_sym in Hoe.
  by apply (equal_trans (hash_fn := hash_fn) x e o).
Qed.

Lemma run_insert h e ok :
  hash_ok h -> e <> NULL -> elem_cnt h + 1 < 2 ^ 32 ->
  exists r h', hash_insert hash_fn less h e ok = Done (r, h') /\ hash_ok h' /\ hop_step (elem_set h) (HInsert e) r (elem_set h').
Proof using HashOk0.
  intros Hh He Hn. unfold hash_insert. destruct (find_run h e Hh) as (b & -> & Hb & [[H1 H2]|(H1 & H2 & H3)]); cbn [obind].
  - rewrite H1. cbn. destruct (insert_run h e b Hh Hb He Hn H2) as (h1 & -> & Hh1 & _ & P1). cbn [obind].
    destruct (rehash_run h1 ok Hh1) as (h2 & -> & Hh2 & P2). cbn [obind]. do 2 eexists. split; [reflexivity|].
    split; [done|]. rewrite (set_perm _ _ P2), (set_cons _ _ _ P1). constructor. by apply absent_iff.
  - rewrite (proj2 (Z.eqb_neq _ _)) by done. cbn [obind].
    destruct (rehash_run h ok Hh) as (h2 & -> & Hh2 & P2). cbn [obind]. do 2 eexists. split; [reflexivity|].
    split; [done|]. rewrite (set_perm _ _ P2). constructor; [by apply elem_of_list_to_set|done].
Qed.

Lemma run_replace h e ok :
  hash_ok h -> e <> NULL -> elem_cnt h + 1 < 2 ^ 32 ->
  exists r h', hash_replace hash_fn less h e ok = Done (r, h') /\ hash_ok h' /\ hop_step (elem_set h) (HReplace e) r (elem_set h').
Proof using HashOk0.
  intros Hh He Hn. unfold hash_replace. destruct (find_run h e Hh) as (b & -> & Hb & [[H1 H2]|(H1 & H2 & H3)]); cbn [obind].
  - rewrite H1. cbn. destruct (insert_run h e b Hh Hb He Hn H2) as (h1 & -> & Hh1 & _ & P1). cbn [obind].
    destruct (rehash_run h1 ok Hh1) as (h2 & -> & Hh2 & P2). cbn [obind]. do 2 eexists. split; [reflexivity|].
    split; [done|]. rewrite (set_perm _ _ P2), (set_cons _ _ _ P1). constructor. by apply absent_iff.
  - set (o := find_elem less b e) in *. rewrite (proj2 (Z.eqb_neq _ _)) by done. cbn [negb].
    destruct (remove_run h o Hh H2) as (Hh0 & C0 & B0 & E0). set (h0 := remove_elem h o) in *.
    rewrite <- (place_cnt h h0 e B0). destruct (bucket_run h0 e (proj1 Hh0)) as (b0 & _ & Hb0).
    destruct (insert_run h0 e b0 Hh0 Hb0 He ltac:(lia)) as (h1 & -> & Hh1 & _ & P1).
    { rewrite E0. by apply removed_absent. }
    cbn [obind]. destruct (rehash_run h1 ok Hh1) as (h2 & -> & Hh2 & P2). cbn [obind]. do 2 eexists. split; [reflexivity|].
    split; [done|]. rewrite (set_perm _ _ P2), (set_cons _ _ _ P1), (set_filter _ _ _ E0).
    constructor; [by apply elem_of_list_to_set|done].
Qed.

Lemma run_delete h e ok :
  hash_ok h ->
  exists r h', hash_delete hash_fn less h e ok = Done (r, h') /\ hash_ok h' /\ hop_step (elem_set h) (HDelete e) r (elem_set h').
Proof using HashOk0.
  intros Hh. unfold hash_delete. destruct (find_run h e Hh) as (b & -> & Hb & [[H1 H2]|(H1 & H2 & H3)]); cbn [obind].
  - rewrite H1. cbn. do 2 eexists. split; [reflexivity|]. split; [done|]. constructor. by apply absent_iff.
  - set (o := find_elem less b e) in *. rewrite (proj2 (Z.eqb_neq _ _)) by done. cbn [negb].
    destruct (remove_run h o Hh H2) as (Hh0 & C0 & B0 & E0).
    destruct (rehash_run _ ok Hh0) as (h2 & -> & Hh2 & P2). cbn [obind]. do 2 eexists. split; [reflexivity|].
    split; [done|]. rewrite (set_perm _ _ P2), (set_filter _ _ _ E0). constructor; [by apply elem_of_list_to_set|done].
Qed.

Lemma run_hop_ok h o ok :
  hash_ok h -> hop_elem o <> NULL -> elem_cnt h + 1 < 2 ^ 32 ->
  exists r h', run_hop h o ok = Done (r, h') /\ hash_ok h' /\ hop_step (elem_set h) o r (elem_set h').
Proof using HashOk0.
  intros Hh He Hn. destruct o as [e|e|e|e]; cbn [run_hop hop_elem] in *;
    [by apply run_insert|by apply run_replace| |by apply run_delete].
  unfold hash_find. destruct (find_run h e Hh) as (b & -> & Hb & [[H1 H2]|(H1 & H2 & H3)]); cbn [obind];
    do 2 eexists; (split; [reflexivity|]); (split; [done|]).
  - rewrite H1. constructor. by apply absent_iff.
  - constructor; [by apply elem_of_list_to_set|done].
Qed.

(** The count of elements is the size of the set. *)
Lemma set_size h : hash_ok h -> elem_cnt h = Z.of_nat (size (elem_set h)).
Proof.
  intros [_ Hc]. unfold elem_set. rewrite size_list_to_set by apply (content_nodup _ _ Hc). apply (content_cnt _ _ Hc).
Qed.

Lemma hop_step_size X o r X' : hop_step X o r X' -> (size X' <= size X + 1)%nat.
Proof.
  intros H. destruct H; rewrite ?size_union_alt, ?size_singleton; try lia.
  - pose proof (diff_size X {[e]}). lia.
  - pose proof (diff_size X {[e]}). lia.
  - pose proof (diff_size (X ∖ {[o]}) {[e]}). pose proof (diff_size X {[o]}). lia.
  - pose proof (diff_size X {[o]}). lia.
Qed.

Fixpoint run_hops (h : hash) (ops : list (hop * bool)) : outcome (list Z * hash) :=
  match ops with
  | [] => Done ([], h)
  | (o, ok) :: ops =>
      let? (r, h) := run_hop h o ok in
      let? (rs, h) := run_hops h ops in
      Done (r :: rs, h)
  end.

Inductive hop_steps : gset Z -> list hop -> list Z -> gset Z -> Prop :=
  | hop_steps_nil X : hop_steps X [] [] X
  | hop_steps_cons X o r X1 os rs X2 :
      hop_step X o r X1 -> hop_steps X1 os rs X2 -> hop_steps X (o :: os) (r :: rs) X2.

Lemma run_hops_ok h ops :
  hash_ok h -> Forall (fun o => hop_elem (fst o) <> NULL) ops -> elem_cnt h + Z.of_nat (length ops) < 2 ^ 32 ->
  exists rs h', run_hops h ops = Done (rs, h') /\ hash_ok h' /\ hop_steps (elem_set h) (map fst ops) rs (elem_set h').
Proof using HashOk0.
  revert h. induction ops as [|[o ok] ops IH]; intros h Hh Ho Hn; cbn [run_hops].
  { exists [], h. split_and!; [done..|constructor]. }
  apply Forall_cons in Ho as [Ho Hos]. cbn [length fst] in *.
  destruct (run_hop_ok h o ok Hh Ho ltac:(lia)) as (r & h1 & -> & Hh1 & Hst). cbn [obind].
  pose proof (hop_step_size _ _ _ _ Hst) as Hsz. pose proof (set_size h Hh). pose proof (set_size h1 Hh1).
  destruct (IH h1 Hh1 Hos ltac:(lia)) as (rs & h2 & -> & Hh2 & Hsts). cbn [obind].
  do 2 eexists. split; [reflexivity|]. split; [done|]. by econstructor.
Qed.
End spec.

(** ** Iteration *)

Section iteration.
Context (h : hash) (Hlen : length (buckets h) = Z.to_nat (bucket_cnt h)).

Fixpoint iterate (n : nat) (i : hash_iterator) : outcome (list Z) :=
  match n with
  | O => Done []
  | S n =>
      let? i := hash_next h i in
      if hash_cur i =? NULL then Done [NULL]
      else let? l := iterate n i in Done (hash_cur i :: l)
  end.

(** The elements left when [t] is what is left of bucket [k]. *)
Definition remaining (k : nat) (t : list Z) : list Z := t ++ concat (drop (S k) (buckets h)).

Definition suffix_at (k : nat) (t : list Z) : Prop := exists pre, buckets h !! k = Some (pre ++ t).

Lemma next_loop_run fuel k todo :
  suffix_at k todo -> (length (buckets h) < fuel + S k)%nat ->
  (remaining k todo = [] /\ exists k', next_loop fuel h (Z.of_nat k) (hd_error todo) = Done (mk_iter k' AtNull)) \/
  (exists e k' r, next_loop fuel h (Z.of_nat k) (hd_error todo) = Done (mk_iter (Z.of_nat k') (AtElem e)) /\
     remaining k todo = e :: remaining k' r /\ suffix_at k' (e :: r)).
Proof using Hlen.
  revert k todo. induction fuel as [|fuel IH]; intros k todo Hs Hf.
  { destruct Hs as [pre Hs]. apply lookup_lt_Some in Hs. lia. }
  destruct todo as [|e todo]; cbn [hd_error next_loop].
  2:{ right. by exists e, k, todo. }
  destruct (Z.leb_spec (bucket_cnt h) (Z.of_nat k + 1)) as [Hend|Hmore].
  - left. split; [|by eexists]. unfold remaining. rewrite drop_ge by lia. done.
  - destruct (lookup_lt_is_Some_2 (buckets h) (S k) ltac:(lia)) as [c Hc].
    unfold get_bucket. replace (Z.to_nat (Z.of_nat k + 1)) with (S k) by lia. rewrite Hc. cbn [obind].
    replace (Z.of_nat k + 1) with (Z.of_nat (S k)) by lia.
    replace (remaining k []) with (remaining (S k) c) by (unfold remaining; by rewrite (drop_S _ _ _ Hc)).
    apply IH; [by exists []|lia].
Qed.

Lemma after_run pre e r : NoDup (pre ++ e :: r) -> after e (pre ++ e :: r) = hd_error r.
Proof.
  induction pre as [|x pre IH]; intros Hn; cbn [app after]; [by rewrite Z.eqb_refl|].
  apply NoDup_cons in Hn as [Hx Hn]. rewrite (proj2 (Z.eqb_neq _ _)); [by apply IH|]. intros ->.
  apply Hx, elem_of_app. right. apply elem_of_cons. by left.
Qed.

Definition iter_at (i : hash_iterator) (k : nat) (t : list Z) : Prop :=
  i_bucket i = Z.of_nat k /\ suffix_at k t /\
  ((i_elem i = AtHead /\ buckets h !! k = Some t) \/ (exists e, i_elem i = AtElem e /\ suffix_at k (e :: t))).

Lemma bucket_nodup k b : NoDup (elems h) -> buckets h !! k = Some b -> NoDup b.
Proof.
  intros Hn Hb. unfold elems in Hn. rewrite <- (take_drop k (buckets h)), (drop_S _ _ _ Hb), concat_app in Hn.
  apply NoDup_app in Hn as (_ & _ & Hn). simpl in Hn. by apply NoDup_app in Hn as (Hn & _ & _).
Qed.

Lemma hash_next_run i k t :
  NoDup (elems h) -> iter_at i k t ->
  (remaining k t = [] /\ exists k', hash_next h i = Done (mk_iter k' AtNull)) \/
  (exists e k' r, hash_next h i = Done (mk_iter (Z.of_nat k') (AtElem e)) /\
     remaining k t = e :: remaining k' r /\ iter_at (mk_iter (Z.of_nat k') (AtElem e)) k' r).
Proof using Hlen.
  intros Hn (Hk & Hs & Hcase).
  assert (hash_next h i = next_loop (S (Z.to_nat (bucket_cnt h))) h (Z.of_nat k) (hd_error t)) as ->.
  { unfold hash_next. rewrite Hk. unfold get_bucket. rewrite Nat2Z.id.
    destruct Hcase as [[-> ->]|(e & -> & pre & Hb)]; [done|]. rewrite Hb. cbn [obind].
    rewrite after_run; [done|]. by eapply bucket_nodup. }
  destruct (next_loop_run (S (Z.to_nat (bucket_cnt h))) k t Hs ltac:(lia)) as [H|(e & k' & r & E & Hr & Hs')]; [by left|].
  right. exists e, k', r. split; [done|]. split; [done|]. split; [done|]. split; [|right; by exists e].
  destruct Hs' as [pre Hb]. exists (pre ++ [e]). by rewrite <- app_assoc.
Qed.

Lemma iterate_run n i k t :
  NoDup (elems h) -> NULL ∉ remaining k t -> iter_at i k t -> (length (remaining k t) < n)%nat ->
  iterate n i = Done (remaining k t ++ [NULL]).
Proof using Hlen.
  intros Hn. revert i k t. induction n as [|n IH]; intros i k t Hnull Hi Hl; [lia|]. cbn [iterate].
  destruct (hash_next_run i k t Hn Hi) as [(-> & k' & ->)|(e & k' & r & -> & E & Hi')]; cbn [obind hash_cur i_elem]; [done|].
  rewrite E in *. apply not_elem_of_cons in Hnull as [He Hnull]. rewrite (proj2 (Z.eqb_neq _ _)) by done.
  simpl in Hl. rewrite (IH _ k' r) by (done || lia). done.
Qed.
End iteration.

(** ** Properties *)

(** C12: a hash table is a set.  From a fresh table, any sequence of insertions,
    replacements, searches and deletions terminates without a fault and returns
    what a set of pairwise different elements returns, whether or not [malloc]
    fails in any of the resizings; the table stays well-formed and its count is
    the size of the set. *)
Theorem hash_refines_set (hash_fn : Z -> Z) (less : Z -> Z -> bool) `{!HashOk hash_fn less}
  (h : hash) (ops : list (hop * bool))
  (Hh : hash_init true = Some h) (Ho : Forall (fun o => hop_elem (fst o) <> NULL) ops)
  (Hn : Z.of_nat (length ops) < 2 ^ 32) :
  exists rs h', run_hops hash_fn less h ops = Done (rs, h') /\
    hop_steps less ∅ (map fst ops) rs (elem_set h') /\ hash_ok hash_fn less h' /\
    hash_size h' = Z.of_nat (size (elem_set h')).
Proof.
  assert (h = mk_hash 0 4 [[]; []; []; []]) as -> by (vm_compute in Hh; congruence).
  destruct (run_hops_ok hash_fn less (mk_hash 0 4 [[]; []; []; []]) ops) as (rs & h' & E & Hok & Hst); [|done|simpl; lia|].
  { split.
    - split; [by exists 2|done|]. intros i b e Hb He. change [[]; []; []; []] with (replicate 4 (@nil Z)) in Hb. simpl in Hb.
      change [[]; []; []; []] with (replicate 4 (@nil Z)) in Hb. apply lookup_replicate in Hb as [-> _]. by apply elem_of_nil in He.
    - split; [constructor| |by apply not_elem_of_nil|done|simpl; lia]. intros a b Ha. by apply elem_of_nil in Ha. }
  exists rs, h'. split_and!; [done..|]. by apply (set_size hash_fn less).
Qed.

(** C35: an iteration visits every element once.  [hash_first] followed by
    [hash_next] until it returns null terminates on every well-formed table and
    returns its elements, each exactly once, before the null. *)
Theorem hash_iterates (hash_fn : Z -> Z) (less : Z -> Z -> bool) (h : hash) (Hh : hash_ok hash_fn less h) :
  iterate h (S (Z.to_nat (hash_size h))) hash_first = Done (elems h ++ [NULL]) /\
  NoDup (elems h) /\ forall e, e ∈ elems h <-> e ∈ elem_set h.
Proof.
  destruct Hh as [Hs Hc]. pose proof (content_nodup _ _ _ Hc) as Hn.
  split; [|split; [done|intros e; unfold elem_set; by rewrite elem_of_list_to_set]].
  destruct (lookup_lt_is_Some_2 (buckets h) 0) as [b Hb].
  { rewrite (shape_len _ _ Hs). destruct (shape_pow _ _ Hs) as (k & -> & Hk).
    pose proof (Z.pow_pos_nonneg 2 k). lia. }
  assert (remaining h 0 b = elems h) as Hr.
  { unfold remaining, elems. rewrite <- (take_drop 0 (buckets h)) at 2. rewrite (drop_S _ _ _ Hb). done. }
  rewrite <- Hr. apply (iterate_run h (shape_len _ _ Hs) _ _ 0 b Hn); rewrite ?Hr.
  - apply (content_nonnull _ _ _ Hc).
  - split; [done|]. split; [by exists []|by left].
  - unfold hash_size. rewrite (content_cnt _ _ _ Hc). lia.
Qed.

#[local] Instance mod8_ok : HashOk (fun a => a mod 8) Z.ltb.
Proof.
  assert (H : forall a b, equal_elem Z.ltb a b = true -> a = b).
  { intros a b. unfold equal_elem. rewrite andb_true_iff, !negb_true_iff, !Z.ltb_ge. lia. }
  split; [apply Z.ltb_irrefl| |].
  - intros a b c E1 E2. apply H in E1, E2. subst. unfold equal_elem. by rewrite Z.ltb_irrefl.
  - intros a b E. apply H in E. by subst.
Qed.

Definition demo_ops : list (hop * bool) :=
  [(HInsert 8, true); (HInsert 16, true); (HInsert 8, false); (HDelete 16, true); (HFind 16, true)].

Definition demo_table : hash := mk_hash 2 4 [[16; 8]; []; []; []].

Lemma hash_refines_set_witness :
  exists rs h', run_hops (fun a => a mod 8) Z.ltb (mk_hash 0 4 [[]; []; []; []]) demo_ops = Done (rs, h') /\
    hop_steps Z.ltb ∅ [HInsert 8; HInsert 16; HInsert 8; HDelete 16; HFind 16] rs (elem_set h') /\
    hash_ok (fun a => a mod 8) Z.ltb h' /\ hash_size h' = Z.of_nat (size (elem_set h')).
Proof.
  apply (hash_refines_set (fun a => a mod 8) Z.ltb (mk_hash 0 4 [[]; []; []; []]) demo_ops).
  - reflexivity.
  - repeat constructor; done.
  - simpl. lia.
Defined.

Lemma hash_iterates_witness :
  iterate demo_table 3 hash_first = Done [16; 8; NULL] /\
  NoDup (elems demo_table) /\ forall e, e ∈ elems demo_table <-> e ∈ elem_set demo_table.
Proof.
  apply (hash_iterates (fun a => a mod 8) Z.ltb demo_table). split.
  - split; [by exists 2|done|]. intros i b e Hb He.
    destruct i as [|[|[|[|i]]]]; simpl in Hb; simplify_eq; try (by apply elem_of_nil in He).
    apply elem_of_cons in He as [->|He]; [done|]. apply elem_of_cons in He as [->|He]; [done|by apply elem_of_nil in He].
  - split; [| |set_solver|done|simpl; lia].
    + repeat constructor; set_solver.
    + intros a b _ _. unfold equal_elem. rewrite andb_true_iff, !negb_true_iff, !Z.ltb_ge. lia.
Defined.
