(* ===== verification/Kernel.v ===== *)
(** * threads/thread.c, threads/synch.c, threads/interrupt.c: the scheduler

    The state holds the thread structures, the run queue, the processor's
    interrupt flag and the semaphores, locks and condition variables.  A
    semaphore is named by the object it is a field of: the address of a
    stand-alone one, the lock it belongs to, or the thread on whose stack
    [cond_wait] put it.

    A thread that is not running stopped inside a kernel function.  What is left
    of its calls is kept in [code], a list of the steps it has still to do, the
    innermost call first; [switch_threads] changes the running thread and the
    next step is then that of the other thread's [code].  Each [instr] is a call
    or the part of a function after a point where the processor may be switched
    away or interrupted; [exec] runs it.  Everything between two such points runs
    with interrupts off or touches only the running thread, and is one function
    here.

    A thread with empty [code] runs code of its own.  [step] lets it make any
    call whose preconditions hold, and lets the timer interrupt it whenever
    interrupts are on. *)

From stdpp Require Import options.
From S2P Require Import Prelude KList.
Local Open Scope Z_scope.
Local Open Scope kernel_scope.

(** ** Data *)

Inductive thread_status := THREAD_RUNNING | THREAD_READY | THREAD_BLOCKED | THREAD_DYING.

Inductive sema_ref :=
  | SemaAt (a : Z)
  | OfLock (l : Z)
  | OfWaiter (t : Z).

(** What a new thread runs: [idle], or code of its own. *)
Inductive thread_func :=
  | OwnCode
  | Idle (idle_started : sema_ref).

Inductive instr :=
  (** interrupt.c *)
  | IntrSetLevel (level : bool)
  | Iret
  (** thread.c *)
  | KernelThread
  | ThreadYield
  | ThreadExit
  | ThreadUnblock (t : Z)
  | ThreadCreate (page priority : Z) (function : thread_func)
  | TakeTid (t : Z)
  | FinishCreate (t : Z) (function : thread_func)
  | IdleStart (idle_started : sema_ref)
  | IdleLoop
  | IdleHalt
  (** synch.c *)
  | SemaDown (s : sema_ref)
  | SemaDownLoop (s : sema_ref) (old_level : bool)
  | SemaTryDown (s : sema_ref)
  | SemaUp (s : sema_ref)
  | LockAcquire (l : Z)
  | SetHolder (l : Z)
  | LockTryAcquire (l : Z)
  | LockRelease (l : Z)
  | CondWait (c l : Z)
  | CondSignal (c l : Z)
  | CondBroadcast (c l : Z).

#[global] Instance thread_status_eq_dec : EqDecision thread_status.
Proof. solve_decision. Defined.
#[global] Instance sema_ref_eq_dec : EqDecision sema_ref.
Proof. solve_decision. Defined.
#[global] Instance thread_func_eq_dec : EqDecision thread_func.
Proof. solve_decision. Defined.
#[global] Instance instr_eq_dec : EqDecision instr.
Proof. solve_decision. Defined.

#[global] Program Instance sema_ref_countable : Countable sema_ref :=
  inj_countable'
    (fun s => match s with SemaAt a => inl (inl a) | OfLock l => inl (inr l) | OfWaiter t => inr t end)
    (fun x => match x with inl (inl a) => SemaAt a | inl (inr l) => OfLock l | inr t => OfWaiter t end) _.
Next Obligation. by intros []. Qed.

Definition THREAD_MAGIC : Z := 0xcd6abf4b.
Definition PRI_MIN : Z := 0.
Definition PRI_DEFAULT : Z := 31.
Definition PRI_MAX : Z := 63.
Definition TIME_SLICE : Z := 4.
Definition PGSIZE : Z := 4096.

Record thread := mk_thread {
  tid : Z;
  status : thread_status;
  stack : Z;
  priority : Z;
  wait_status : Z;
  children : list Z;
  pagedir : Z;
  magic : Z;
  code : list instr;
}.

Record semaphore := mk_sema { value : Z; waiters : list Z }.

Record wait_status_t := mk_ws { ws_tid : Z; exit_status : Z; reference_count : Z; load_error : Z }.

Record kstats := mk_stats { ticks : Z; thread_ticks : Z; idle_ticks : Z; kernel_ticks : Z; user_ticks : Z }.

Record kern := mk_kern {
  threads : gmap Z thread;
  ready_list : list Z;
  all_list : list Z;
  cpu : Z;
  idle_thread : Z;
  initial_thread : Z;
  intr_on : bool;
  in_external_intr : bool;
  yield_on_return : bool;
  semas : gmap sema_ref semaphore;
  locks : gmap Z Z;
  conds : gmap Z (list Z);
  wss : gmap Z wait_status_t;
  next_tid : Z;
  stats : kstats;
}.

(** The static lock of [allocate_tid]. *)
Definition tid_lock : Z := -1.

(** ** Field updates *)

Definition set_threads (m : gmap Z thread) (k : kern) : kern :=
  mk_kern m (ready_list k) (all_list k) (cpu k) (idle_thread k) (initial_thread k) (intr_on k)
    (in_external_intr k) (yield_on_return k) (semas k) (locks k) (conds k) (wss k) (next_tid k) (stats k).
Definition set_ready_list (l : list Z) (k : kern) : kern :=
  mk_kern (threads k) l (all_list k) (cpu k) (idle_thread k) (initial_thread k) (intr_on k)
    (in_external_intr k) (yield_on_return k) (semas k) (locks k) (conds k) (wss k) (next_tid k) (stats k).
Definition set_all_list (l : list Z) (k : kern) : kern :=
  mk_kern (threads k) (ready_list k) l (cpu k) (idle_thread k) (initial_thread k) (intr_on k)
    (in_external_intr k) (yield_on_return k) (semas k) (locks k) (conds k) (wss k) (next_tid k) (stats k).
Definition set_cpu (t : Z) (k : kern) : kern :=
  mk_kern (threads k) (ready_list k) (all_list k) t (idle_thread k) (initial_thread k) (intr_on k)
    (in_external_intr k) (yield_on_return k) (semas k) (locks k) (conds k) (wss k) (next_tid k) (stats k).
Definition set_idle_thread (t : Z) (k : kern) : kern :=
  mk_kern (threads k) (ready_list k) (all_list k) (cpu k) t (initial_thread k) (intr_on k)
    (in_external_intr k) (yield_on_return k) (semas k) (locks k) (conds k) (wss k) (next_tid k) (stats k).
Definition set_intr (b : bool) (k : kern) : kern :=
  mk_kern (threads k) (ready_list k) (all_list k) (cpu k) (idle_thread k) (initial_thread k) b
    (in_external_intr k) (yield_on_return k) (semas k) (locks k) (conds k) (wss k) (next_tid k) (stats k).
Definition set_external (ext yield : bool) (k : kern) : kern :=
  mk_kern (threads k) (ready_list k) (all_list k) (cpu k) (idle_thread k) (initial_thread k) (intr_on k)
    ext yield (semas k) (locks k) (conds k) (wss k) (next_tid k) (stats k).
Definition set_semas (m : gmap sema_ref semaphore) (k : kern) : kern :=
  mk_kern (threads k) (ready_list k) (all_list k) (cpu k) (idle_thread k) (initial_thread k) (intr_on k)
    (in_external_intr k) (yield_on_return k) m (locks k) (conds k) (wss k) (next_tid k) (stats k).
Definition set_locks (m : gmap Z Z) (k : kern) : kern :=
  mk_kern (threads k) (ready_list k) (all_list k) (cpu k) (idle_thread k) (initial_thread k) (intr_on k)
    (in_external_intr k) (yield_on_return k) (semas k) m (conds k) (wss k) (next_tid k) (stats k).
Definition set_conds (m : gmap Z (list Z)) (k : kern) : kern :=
  mk_kern (threads k) (ready_list k) (all_list k) (cpu k) (idle_thread k) (initial_thread k) (intr_on k)
    (in_external_intr k) (yield_on_return k) (semas k) (locks k) m (wss k) (next_tid k) (stats k).
Definition set_wss (m : gmap Z wait_status_t) (k : kern) : kern :=
  mk_kern (threads k) (ready_list k) (all_list k) (cpu k) (idle_thread k) (initial_thread k) (intr_on k)
    (in_external_intr k) (yield_on_return k) (semas k) (locks k) (conds k) m (next_tid k) (stats k).
Definition set_next_tid (n : Z) (k : kern) : kern :=
  mk_kern (threads k) (ready_list k) (all_list k) (cpu k) (idle_thread k) (initial_thread k) (intr_on k)
    (in_external_intr k) (yield_on_return k) (semas k) (locks k) (conds k) (wss k) n (stats k).
Definition set_stats (s : kstats) (k : kern) : kern :=
  mk_kern (threads k) (ready_list k) (all_list k) (cpu k) (idle_thread k) (initial_thread k) (intr_on k)
    (in_external_intr k) (yield_on_return k) (semas k) (locks k) (conds k) (wss k) (next_tid k) s.

Definition with_status (s : thread_status) (t : thread) : thread :=
  mk_thread (tid t) s (stack t) (priority t) (wait_status t) (children t) (pagedir t) (magic t) (code t).
Definition with_code (c : list instr) (t : thread) : thread :=
  mk_thread (tid t) (status t) (stack t) (priority t) (wait_status t) (children t) (pagedir t) (magic t) c.
Definition with_tid (n : Z) (t : thread) : thread :=
  mk_thread n (status t) (stack t) (priority t) (wait_status t) (children t) (pagedir t) (magic t) (code t).
Definition with_stack (p : Z) (t : thread) : thread :=
  mk_thread (tid t) (status t) p (priority t) (wait_status t) (children t) (pagedir t) (magic t) (code t).
Definition with_wait_status (ws : Z) (t : thread) : thread :=
  mk_thread (tid t) (status t) (stack t) (priority t) ws (children t) (pagedir t) (magic t) (code t).
Definition with_children (l : list Z) (t : thread) : thread :=
  mk_thread (tid t) (status t) (stack t) (priority t) (wait_status t) l (pagedir t) (magic t) (code t).
Definition with_priority (p : Z) (t : thread) : thread :=
  mk_thread (tid t) (status t) (stack t) p (wait_status t) (children t) (pagedir t) (magic t) (code t).

(** ** Memory *)

Abbreviation MK := (M kern).

Definition load_thread (a : Z) : MK thread := fun k =>
  match threads k !! a with Some t => Done (t, k) | None => Fault BadPointer end.

Definition update_thread (a : Z) (f : thread -> thread) : MK unit := fun k =>
  match threads k !! a with
  | Some t => Done (tt, set_threads (<[a := f t]> (threads k)) k)
  | None => Fault BadPointer
  end.

Definition load_sema (s : sema_ref) : MK semaphore := fun k =>
  match semas k !! s with Some x => Done (x, k) | None => Fault BadPointer end.

Definition store_sema (s : sema_ref) (x : semaphore) : MK unit :=
  modify (fun k => set_semas (<[s := x]> (semas k)) k).

Definition load_holder (l : Z) : MK Z := fun k =>
  match locks k !! l with Some h => Done (h, k) | None => Fault BadPointer end.

Definition store_holder (l h : Z) : MK unit :=
  modify (fun k => set_locks (<[l := h]> (locks k)) k).

Definition load_cond (c : Z) : MK (list Z) := fun k =>
  match conds k !! c with Some l => Done (l, k) | None => Fault BadPointer end.

Definition store_cond (c : Z) (l : list Z) : MK unit :=
  modify (fun k => set_conds (<[c := l]> (conds k)) k).

(** The steps that follow in the running thread. *)
Definition push_code (c : list instr) : MK unit :=
  let! k := get in update_thread (cpu k) (fun t => with_code (c ++ code t) t).

(** ** Interrupts *)

Definition intr_context : MK bool := gets in_external_intr.
Definition intr_get_level : MK bool := gets intr_on.

Definition intr_enable : MK bool :=
  let! old_level := intr_get_level in
  let! ext := intr_context in
  assert (negb ext) ;;
  modify (set_intr true) ;;
  ret old_level.

Definition intr_disable : MK bool :=
  let! old_level := intr_get_level in
  modify (set_intr false) ;;
  ret old_level.

Definition intr_set_level (level : bool) : MK bool := if level then intr_enable else intr_disable.

Definition intr_yield_on_return : MK unit :=
  let! ext := intr_context in
  assert ext ;;
  modify (set_external true true).

(** ** thread.c *)

(** The thread whose stack the processor uses. *)
Definition running_thread : MK Z := gets cpu.

Definition is_thread (a : Z) : MK bool :=
  if a =? NULL then ret false
  else let! t := load_thread a in ret (magic t =? THREAD_MAGIC).

Definition thread_current : MK Z :=
  let! a := running_thread in
  let! ok := is_thread a in
  assert ok ;;
  let! t := load_thread a in
  assert (bool_decide (status t = THREAD_RUNNING)) ;;
  ret a.

Definition thread_tid : MK Z := let! a := thread_current in let! t := load_thread a in ret (tid t).

Definition thread_get_priority : MK Z := let! a := thread_current in let! t := load_thread a in ret (priority t).

Definition thread_set_priority (new_priority : Z) : MK unit :=
  let! a := thread_current in update_thread a (with_priority new_priority).

Definition thread_tick : MK unit :=
  let! a := thread_current in
  let! t := load_thread a in
  let! k := get in
  let s := stats k in
  let s :=
    if a =? idle_thread k then
      mk_stats (ticks s) (thread_ticks s) (i64 (idle_ticks s + 1)) (kernel_ticks s) (user_ticks s)
    else if negb (pagedir t =? NULL) then
      mk_stats (ticks s) (thread_ticks s) (idle_ticks s) (kernel_ticks s) (i64 (user_ticks s + 1))
    else
      mk_stats (ticks s) (thread_ticks s) (idle_ticks s) (i64 (kernel_ticks s + 1)) (user_ticks s) in
  let n := u32 (thread_ticks s + 1) in
  modify (set_stats (mk_stats (ticks s) n (idle_ticks s) (kernel_ticks s) (user_ticks s))) ;;
  if TIME_SLICE <=? n then intr_yield_on_return else ret tt.

Definition next_thread_to_run : MK Z :=
  let! k := get in
  match ready_list k with
  | [] => ret (idle_thread k)
  | t :: rest => modify (set_ready_list rest) ;; ret t
  end.

(** [process_activate] loads the new thread's page tables, which no state of
    this model depends on. *)
Definition thread_schedule_tail (prev : Z) : MK unit :=
  let! cur := running_thread in
  let! level := intr_get_level in
  assert (negb level) ;;
  update_thread cur (with_status THREAD_RUNNING) ;;
  modify (fun k => let s := stats k in
    set_stats (mk_stats (ticks s) 0 (idle_ticks s) (kernel_ticks s) (user_ticks s)) k) ;;
  if prev =? NULL then ret tt
  else
    let! p := load_thread prev in
    let! k := get in
    if bool_decide (status p = THREAD_DYING) && negb (prev =? initial_thread k) then
      assert (negb (prev =? cur)) ;;
      modify (fun k => set_threads (delete prev (threads k)) k)
    else ret tt.

Definition schedule : MK unit :=
  let! cur := running_thread in
  let! next := next_thread_to_run in
  let! level := intr_get_level in
  assert (negb level) ;;
  let! t := load_thread cur in
  assert (negb (bool_decide (status t = THREAD_RUNNING))) ;;
  let! ok := is_thread next in
  assert ok ;;
  if negb (cur =? next) then
    modify (set_cpu next) ;;
    thread_schedule_tail cur
  else thread_schedule_tail NULL.

Definition thread_block : MK unit :=
  let! ext := intr_context in
  assert (negb ext) ;;
  let! level := intr_get_level in
  assert (negb level) ;;
  let! cur := thread_current in
  update_thread cur (with_status THREAD_BLOCKED) ;;
  schedule.

Definition thread_unblock (a : Z) : MK unit :=
  let! ok := is_thread a in
  assert ok ;;
  let! old_level := intr_disable in
  let! t := load_thread a in
  assert (bool_decide (status t = THREAD_BLOCKED)) ;;
  modify (fun k => set_ready_list (ready_list k ++ [a]) k) ;;
  update_thread a (with_status THREAD_READY) ;;
  intr_set_level old_level ;;
  ret tt.

Definition thread_yield : MK unit :=
  let! cur := thread_current in
  let! ext := intr_context in
  assert (negb ext) ;;
  let! old_level := intr_disable in
  let! k := get in
  (if negb (cur =? idle_thread k) then modify (fun k => set_ready_list (ready_list k ++ [cur]) k) else ret tt) ;;
  update_thread cur (with_status THREAD_READY) ;;
  push_code [IntrSetLevel old_level] ;;
  schedule.

(** [thread_exit] after the exit of the user process, when the thread has no open
    file left: the thread leaves [all_list] and is freed by the thread that runs
    next. *)
Definition thread_exit : MK unit :=
  let! ext := intr_context in
  assert (negb ext) ;;
  intr_disable ;;
  let! cur := thread_current in
  modify (fun k => set_all_list (filter (fun x => x <> cur) (all_list k)) k) ;;
  update_thread cur (with_status THREAD_DYING) ;;
  schedule.

Definition init_thread (a prio : Z) : MK unit :=
  assert (negb (a =? NULL)) ;;
  assert ((PRI_MIN <=? prio) && (prio <=? PRI_MAX)) ;;
  modify (fun k => set_threads (<[a := mk_thread 0 THREAD_BLOCKED (a + PGSIZE) prio 0 [] 0 THREAD_MAGIC []]> (threads k)) k) ;;
  let! old_level := intr_disable in
  modify (fun k => set_all_list (all_list k ++ [a]) k) ;;
  intr_set_level old_level ;;
  ret tt.

Definition alloc_frame (a size : Z) : MK Z :=
  let! ok := is_thread a in
  assert ok ;;
  assert (size mod 4 =? 0) ;;
  let! t := load_thread a in
  update_thread a (with_stack (stack t - size)) ;;
  ret (stack t - size).

Definition sema_init (s : sema_ref) (v : Z) : MK unit := store_sema s (mk_sema v []).

Definition lock_init (l : Z) : MK unit :=
  store_holder l NULL ;; sema_init (OfLock l) 1.

Definition cond_init (c : Z) : MK unit := store_cond c [].

(** The fields of a [wait_status_t] at [ws]. *)
Definition ws_dead (ws : Z) : sema_ref := SemaAt ws.
Definition ws_lock (ws : Z) : Z := ws + 32.
Definition ws_done_loading (ws : Z) : sema_ref := SemaAt (ws + 56).

(** [ws] is what [malloc] returned; the source does not test it. *)
Definition init_wait_status (ws t : Z) : MK unit :=
  if ws =? NULL then fail BadPointer
  else
    sema_init (ws_dead ws) 0 ;;
    sema_init (ws_done_loading ws) 0 ;;
    lock_init (ws_lock ws) ;;
    modify (fun k => set_wss (<[ws := mk_ws t 0 2 0]> (wss k)) k).

(** [thread_create] up to the call of [allocate_tid]; [page] is what
    [palloc_get_page] returned. *)
Definition thread_create (page prio : Z) (function : thread_func) : MK unit :=
  if page =? NULL then ret tt
  else
    init_thread page prio ;;
    push_code [LockAcquire tid_lock; TakeTid page; LockRelease tid_lock; FinishCreate page function; ThreadUnblock page].

(** [tid = next_tid++] *)
Definition take_tid (a : Z) : MK unit :=
  let! k := get in
  modify (set_next_tid (i32 (next_tid k + 1))) ;;
  update_thread a (with_tid (next_tid k)).

Definition entry_code (function : thread_func) : list instr :=
  match function with OwnCode => [] | Idle idle_started => [IdleStart idle_started] end.

(** The rest of [thread_create]: the frames of [kernel_thread], [switch_entry]
    and [switch_threads], the wait status and the link to the parent. *)
Definition finish_create (a ws : Z) (function : thread_func) : MK unit :=
  alloc_frame a 12 ;;
  alloc_frame a 4 ;;
  let! t := load_thread a in
  init_wait_status ws (tid t) ;;
  update_thread a (with_wait_status ws) ;;
  alloc_frame a 28 ;;
  update_thread a (with_code (KernelThread :: entry_code function)) ;;
  let! cur := thread_current in
  update_thread cur (fun p => with_children (ws :: children p) p).

Definition kernel_thread : MK unit := intr_enable ;; ret tt.

Definition idle_loop : MK unit :=
  intr_disable ;;
  push_code [IdleHalt] ;;
  thread_block.

(** [sti; hlt]: waits for an interrupt, then the loop starts over. *)
Definition idle_halt : MK unit :=
  modify (set_intr true) ;; push_code [IdleLoop].

(** ** synch.c *)

Definition sema_down_loop (s : sema_ref) (old_level : bool) : MK unit :=
  let! x := load_sema s in
  if value x =? 0 then
    let! cur := thread_current in
    store_sema s (mk_sema (value x) (waiters x ++ [cur])) ;;
    push_code [SemaDownLoop s old_level] ;;
    thread_block
  else
    store_sema s (mk_sema (value x - 1) (waiters x)) ;;
    intr_set_level old_level ;;
    ret tt.

Definition sema_down (s : sema_ref) : MK unit :=
  let! ext := intr_context in
  assert (negb ext) ;;
  let! old_level := intr_disable in
  sema_down_loop s old_level.

Definition sema_try_down (s : sema_ref) : MK bool :=
  let! old_level := intr_disable in
  let! x := load_sema s in
  let! success :=
    (if 0 <? value x then store_sema s (mk_sema (value x - 1) (waiters x)) ;; ret true else ret false) in
  intr_set_level old_level ;;
  ret success.

Definition sema_up (s : sema_ref) : MK unit :=
  let! old_level := intr_disable in
  let! x := load_sema s in
  (match waiters x with
   | [] => ret tt
   | t :: rest => store_sema s (mk_sema (value x) rest) ;; thread_unblock t
   end) ;;
  let! x := load_sema s in
  store_sema s (mk_sema (u32 (value x + 1)) (waiters x)) ;;
  intr_set_level old_level ;;
  ret tt.

(** [idle] up to its loop. *)
Definition idle_start (idle_started : sema_ref) : MK unit :=
  let! cur := thread_current in
  modify (set_idle_thread cur) ;;
  sema_up idle_started ;;
  push_code [IdleLoop].

Definition lock_held_by_current_thread (l : Z) : MK bool :=
  let! h := load_holder l in
  let! cur := thread_current in
  ret (h =? cur).

Definition lock_acquire (l : Z) : MK unit :=
  let! ext := intr_context in
  assert (negb ext) ;;
  let! held := lock_held_by_current_thread l in
  assert (negb held) ;;
  push_code [SemaDown (OfLock l); SetHolder l].

Definition set_holder (l : Z) : MK unit := let! cur := thread_current in store_holder l cur.

Definition lock_try_acquire (l : Z) : MK bool :=
  let! held := lock_held_by_current_thread l in
  assert (negb held) ;;
  let! success := sema_try_down (OfLock l) in
  (if success then push_code [SetHolder l] else ret tt) ;;
  ret success.

Definition lock_release (l : Z) : MK unit :=
  let! held := lock_held_by_current_thread l in
  assert held ;;
  store_holder l NULL ;;
  push_code [SemaUp (OfLock l)].

Definition cond_wait (c l : Z) : MK unit :=
  let! ext := intr_context in
  assert (negb ext) ;;
  let! held := lock_held_by_current_thread l in
  assert held ;;
  let! cur := running_thread in
  sema_init (OfWaiter cur) 0 ;;
  let! w := load_cond c in
  store_cond c (w ++ [cur]) ;;
  push_code [LockRelease l; SemaDown (OfWaiter cur); LockAcquire l].

Definition cond_signal (c l : Z) : MK unit :=
  let! ext := intr_context in
  assert (negb ext) ;;
  let! held := lock_held_by_current_thread l in
  assert held ;;
  let! w := load_cond c in
  match w with
  | [] => ret tt
  | t :: rest => store_cond c rest ;; push_code [SemaUp (OfWaiter t)]
  end.

Definition cond_broadcast (c l : Z) : MK unit :=
  let! w := load_cond c in
  match w with
  | [] => ret tt
  | _ :: _ => push_code [CondSignal c l; CondBroadcast c l]
  end.

(** ** Start *)

Definition set_initial_thread (t : Z) (k : kern) : kern :=
  mk_kern (threads k) (ready_list k) (all_list k) (cpu k) (idle_thread k) t (intr_on k)
    (in_external_intr k) (yield_on_return k) (semas k) (locks k) (conds k) (wss k) (next_tid k) (stats k).

Definition thread_init : MK unit :=
  let! level := intr_get_level in
  assert (negb level) ;;
  lock_init tid_lock ;;
  modify (set_ready_list []) ;;
  modify (set_all_list []) ;;
  let! a := running_thread in
  modify (set_initial_thread a) ;;
  init_thread a PRI_DEFAULT ;;
  update_thread a (with_status THREAD_RUNNING) ;;
  push_code [LockAcquire tid_lock; TakeTid a; LockRelease tid_lock].

(** [idle_started] is a variable on the stack of the initial thread. *)
Definition thread_start (page idle_started : Z) : MK unit :=
  sema_init (SemaAt idle_started) 0 ;;
  push_code [IntrSetLevel true; SemaDown (SemaAt idle_started)] ;;
  thread_create page PRI_MIN (Idle (SemaAt idle_started)).

(** ** Steps *)

(** [ws] is what [malloc] returns if the step calls it. *)
Definition exec (ws : Z) (i : instr) : MK unit :=
  match i with
  | IntrSetLevel level => intr_set_level level ;; ret tt
  | Iret => modify (set_intr true)
  | KernelThread => kernel_thread
  | ThreadYield => thread_yield
  | ThreadExit => thread_exit
  | ThreadUnblock t => thread_unblock t
  | ThreadCreate page prio function => thread_create page prio function
  | TakeTid t => take_tid t
  | FinishCreate t function => finish_create t ws function
  | IdleStart idle_started => idle_start idle_started
  | IdleLoop => idle_loop
  | IdleHalt => idle_halt
  | SemaDown s => sema_down s
  | SemaDownLoop s old_level => sema_down_loop s old_level
  | SemaTryDown s => sema_try_down s ;; ret tt
  | SemaUp s => sema_up s
  | LockAcquire l => lock_acquire l
  | SetHolder l => set_holder l
  | LockTryAcquire l => lock_try_acquire l ;; ret tt
  | LockRelease l => lock_release l
  | CondWait c l => cond_wait c l
  | CondSignal c l => cond_signal c l
  | CondBroadcast c l => cond_broadcast c l
  end.

(** The running thread does its next step. *)
Definition run_step (ws : Z) : MK unit :=
  let! k := get in
  let! t := load_thread (cpu k) in
  match code t with
  | [] => ret tt
  | i :: rest => update_thread (cpu k) (with_code rest) ;; exec ws i
  end.

(** [intr_handler] for the timer's vector: the processor clears the interrupt
    flag on entry; the [iret] at the end restores it, after the thread has been
    switched away and back if the handler asked for it. *)
Definition timer_interrupt : MK unit :=
  modify (fun k => let s := stats k in
    set_stats (mk_stats (i64 (ticks s + 1)) (thread_ticks s) (idle_ticks s) (kernel_ticks s) (user_ticks s)) k) ;;
  thread_tick.

Definition intr_handler : MK unit :=
  let! level := intr_get_level in
  assert (negb level) ;;
  let! ext := intr_context in
  assert (negb ext) ;;
  modify (set_external true false) ;;
  timer_interrupt ;;
  let! level := intr_get_level in
  assert (negb level) ;;
  let! ext := intr_context in
  assert ext ;;
  let! k := get in
  modify (set_external false (yield_on_return k)) ;;
  if yield_on_return k then push_code [Iret] ;; thread_yield
  else modify (set_intr true).

Definition timer_tick : MK unit := modify (set_intr false) ;; intr_handler.

(** Calls a thread may make from its own code, with the preconditions that the
    comments of the called functions state. *)
Definition holds (k : kern) (t l : Z) : bool := bool_decide (locks k !! l = Some t).

Definition allowed (k : kern) (i : instr) : Prop :=
  let cur := cpu k in
  match i with
  | ThreadYield | ThreadExit => True
  | ThreadCreate page prio function => function = OwnCode /\
      PRI_MIN <= prio <= PRI_MAX /\ holds k cur tid_lock = false /\ (page = NULL \/ threads k !! page = None)
  | SemaDown (SemaAt a) | SemaTryDown (SemaAt a) | SemaUp (SemaAt a) => is_Some (semas k !! SemaAt a)
  | LockAcquire l | LockTryAcquire l => is_Some (locks k !! l) /\ holds k cur l = false
  | LockRelease l => holds k cur l = true
  | CondWait c l | CondSignal c l | CondBroadcast c l => is_Some (conds k !! c) /\ holds k cur l = true
  | _ => False
  end.

(** A block of memory that [malloc] may return: nothing lives there. *)
Definition fresh_ws (k : kern) (ws : Z) : Prop :=
  ws <> NULL /\ semas k !! ws_dead ws = None /\ semas k !! ws_done_loading ws = None /\
  locks k !! ws_lock ws = None /\ semas k !! OfLock (ws_lock ws) = None.

(** New semaphores, locks and condition variables. *)
Inductive created (k : kern) : kern -> Prop :=
  | created_sema a v k' : 0 <= v < 2 ^ 32 -> semas k !! SemaAt a = None ->
      sema_init (SemaAt a) v k = Done (tt, k') -> created k k'
  | created_lock l k' : locks k !! l = None -> semas k !! OfLock l = None ->
      lock_init l k = Done (tt, k') -> created k k'
  | created_cond c k' : conds k !! c = None -> cond_init c k = Done (tt, k') -> created k k'.

(** A step of the machine: the running thread goes on inside the kernel, or
    calls it, or the timer interrupts it, or it sets up an object. *)
Inductive step (k : kern) : kern -> Prop :=
  | step_run t ws k' : threads k !! cpu k = Some t -> code t <> [] -> fresh_ws k ws ->
      run_step ws k = Done (tt, k') -> step k k'
  | step_call t i k' : threads k !! cpu k = Some t -> code t = [] -> intr_on k = true -> allowed k i ->
      exec NULL i k = Done (tt, k') -> step k k'
  | step_timer k' : intr_on k = true -> timer_tick k = Done (tt, k') -> step k k'
  | step_create t k' : threads k !! cpu k = Some t -> code t = [] -> created k k' -> step k k'.
