(* ===== verification/SchedInv.v ===== *)
(** * The scheduler's invariant

    [inv] says where every thread is: one runs, the ready ones are on the run
    queue, the blocked ones wait for a semaphore, are the idle thread or are
    being created; and what every thread has still to do is consistent with
    the locks it holds.  For each lock, the tokens (the semaphore's value, the
    holder, and the acquisitions and releases that are half done) add up to one.

    This file has the definitions and the lemmas on how local changes of the
    state keep the invariant. *)

From stdpp Require Import options.
From S2P Require Import Prelude KList Kernel.
Local Open Scope Z_scope.
Local Open Scope kernel_scope.

(** ** What a thread has still to do *)

(** The thread that the steps are creating. *)
Fixpoint target (c : list instr) : option Z :=
  match c with
  | [] => None
  | (TakeTid t | FinishCreate t _ | ThreadUnblock t) :: _ => Some t
  | _ :: c => target c
  end.

Fixpoint one_target (c : list instr) : Prop :=
  match c with
  | [] => True
  | (TakeTid t | FinishCreate t _) :: c => target c = Some t /\ one_target c
  | ThreadUnblock _ :: c => target c = None /\ one_target c
  | _ :: c => one_target c
  end.

Fixpoint idle_code (c : list instr) : Prop :=
  match c with
  | [IdleLoop] | [IdleHalt] => True
  | (IntrSetLevel _ | Iret) :: c => idle_code c
  | _ => False
  end.

(** Locks are acquired when not held and released when held, by the thread's own
    account; an acquisition that waits for the semaphore is completed next. *)
Fixpoint disc (held : Z -> bool) (c : list instr) : Prop :=
  match c with
  | [] => True
  | LockAcquire l :: c | SetHolder l :: c =>
      held l = false /\ disc (fun x => if decide (x = l) then true else held x) c
  | (SemaDown (OfLock l) | SemaDownLoop (OfLock l) _) :: c =>
      match c with SetHolder l' :: _ => l' = l | _ => False end /\ disc held c
  | LockRelease l :: c =>
      held l = true /\ disc (fun x => if decide (x = l) then false else held x) c
  | (CondSignal _ l | CondBroadcast _ l) :: c => held l = true /\ disc held c
  | _ :: c => disc held c
  end.

Definition own (a : Z) (s : sema_ref) : Prop := match s with OfWaiter w => w = a | _ => True end.

Definition instr_ok (k : kern) (a : Z) (i : instr) : Prop :=
  match i with
  | SemaDown s | SemaDownLoop s _ => is_Some (semas k !! s) /\ own a s
  | SemaUp s => is_Some (semas k !! s)
  | LockAcquire l | SetHolder l | LockRelease l => is_Some (locks k !! l)
  | CondSignal c l | CondBroadcast c l => is_Some (conds k !! c) /\ is_Some (locks k !! l)
  | IdleLoop | IdleHalt => a = idle_thread k
  | FinishCreate _ function => function = OwnCode
  | ThreadYield | ThreadExit | ThreadCreate _ _ _ | IdleStart _ | SemaTryDown _ | LockTryAcquire _ | CondWait _ _ => False
  | _ => True
  end.

(** A thread waits for a semaphore in its innermost call only. *)
Definition is_loop (i : instr) : bool := match i with SemaDownLoop _ _ => true | _ => false end.
Definition no_loop (c : list instr) : Prop := forallb (fun i => negb (is_loop i)) c = true.

Definition code_ok (k : kern) (a : Z) (c : list instr) : Prop :=
  Forall (instr_ok k a) c /\ (one_target c /\ no_loop (tl c)) /\ disc (holds k a) c.

(** ** Tokens *)

Definition weight1 (l : Z) (i : instr) : Z :=
  match i with
  | SemaDown (OfLock l') | SemaDownLoop (OfLock l') _ => if decide (l' = l) then -1 else 0
  | SetHolder l' | SemaUp (OfLock l') => if decide (l' = l) then 1 else 0
  | _ => 0
  end.

Fixpoint weight (l : Z) (c : list instr) : Z :=
  match c with [] => 0 | i :: c => weight1 l i + weight l c end.

Definition total (l : Z) (m : gmap Z thread) : Z :=
  map_fold (fun _ t n => weight l (code t) + n) 0 m.

Definition lock_tokens (k : kern) (l : Z) : Prop :=
  forall h x, locks k !! l = Some h -> semas k !! OfLock l = Some x ->
    value x + (if h =? NULL then 0 else 1) + total l (threads k) = 1.

(** ** The invariant *)

Definition creating (k : kern) (c a : Z) : Prop :=
  exists t, threads k !! c = Some t /\ target (code t) = Some a.

Definition waiting (k : kern) (a : Z) : Prop :=
  exists s x, semas k !! s = Some x /\ a ∈ waiters x.

Record base (k : kern) : Prop := {
  b_thread a t : threads k !! a = Some t ->
    a <> NULL /\ magic t = THREAD_MAGIC /\ code_ok k a (code t) /\ (status t = THREAD_DYING -> code t = []);
  b_nodup : NoDup (ready_list k);
  b_ready a : a ∈ ready_list k ->
    exists t, threads k !! a = Some t /\ status t = THREAD_READY /\ a <> idle_thread k;
  b_listed a t : threads k !! a = Some t -> status t = THREAD_READY -> a ∈ ready_list k \/ a = idle_thread k;
  b_sema s x : semas k !! s = Some x -> 0 <= value x < 2 ^ 32 /\ NoDup (waiters x);
  b_wait s x a : semas k !! s = Some x -> a ∈ waiters x ->
    exists t level c, threads k !! a = Some t /\ status t = THREAD_BLOCKED /\ code t = SemaDownLoop s level :: c;
  b_blocked a t : threads k !! a = Some t -> status t = THREAD_BLOCKED ->
    a = idle_thread k \/ waiting k a \/ exists c, creating k c a;
  b_newborn c a : creating k c a ->
    exists t, threads k !! a = Some t /\ status t = THREAD_BLOCKED /\ a <> idle_thread k /\
      (code t = [] \/ code t = [KernelThread]);
  b_creator c c' a : creating k c a -> creating k c' a -> c = c';
  b_idle : exists t, threads k !! idle_thread k = Some t /\ status t <> THREAD_DYING /\ idle_code (code t);
  b_ext : in_external_intr k = false;
  b_locks l h : locks k !! l = Some h -> is_Some (semas k !! OfLock l);
  b_conds c w t : conds k !! c = Some w -> t ∈ w -> is_Some (semas k !! OfWaiter t);
  b_tid : is_Some (locks k !! tid_lock);
  b_tokens l : lock_tokens k l;
}.

Record inv (k : kern) : Prop := {
  i_base : base k;
  i_cpu : exists t, threads k !! cpu k = Some t /\ status t = THREAD_RUNNING;
  i_running a t : threads k !! a = Some t -> status t = THREAD_RUNNING -> a = cpu k;
  i_top t s level c : threads k !! cpu k = Some t -> code t = SemaDownLoop s level :: c -> intr_on k = false;
}.

(** The state at the call of [schedule]: the running thread has given up the
    processor. *)
Record descheduled (k : kern) : Prop := {
  d_base : base k;
  d_cpu : is_Some (threads k !! cpu k);
  d_none a t : threads k !! a = Some t -> status t <> THREAD_RUNNING;
  d_off : intr_on k = false;
}.

(** ** Tokens, continued *)

Lemma total_insert_new l m a t : m !! a = None -> total l (<[a := t]> m) = weight l (code t) + total l m.
Proof. intros H. unfold total. rewrite map_fold_insert_L; [done| |done]. intros; lia. Qed.

Lemma total_delete l m a t : m !! a = Some t -> total l (delete a m) = total l m - weight l (code t).
Proof.
  intros H. rewrite <- (insert_delete_id m a t) at 2 by done. rewrite total_insert_new by apply lookup_delete_eq. lia.
Qed.

Lemma total_insert l m a t t' :
  m !! a = Some t -> total l (<[a := t']> m) = total l m - weight l (code t) + weight l (code t').
Proof.
  intros H. rewrite <- insert_delete_eq, total_insert_new by apply lookup_delete_eq.
  rewrite (total_delete l m a t H). lia.
Qed.

Lemma disc_ext held held' c : (forall l, held l = held' l) -> disc held c -> disc held' c.
Proof.
  revert held held'. induction c as [|i c IH]; intros held held' Hl; [done|].
  destruct i as [| | | | | | | | | | | |s|s ?| |s| | | | | | |]; cbn [disc]; try (apply IH; done); try (destruct s); try (apply IH; done);
    intros [H1 H2]; (split; [by rewrite <- ?Hl|]); (eapply IH; [|exact H2]); intros x; simpl; try case_decide; done.
Qed.

(** What a thread has still to do never takes more tokens than it gives. *)
Lemma disc_weight held c l : disc held c -> 0 <= weight l c.
Proof.
  revert held. induction c as [c IH] using (induction_ltof1 _ (@length instr)). unfold ltof in IH. intros held.
  destruct c as [|i c]; [simpl; lia|].
  assert (IH' : forall held, disc held c -> 0 <= weight l c) by (intros h; apply IH; simpl; lia).
  destruct i as [| | | | | | | | | | | |s|s ?| |s| | | | | | |]; cbn [disc weight weight1]; try apply IH';
    try (destruct s as [a|l'|w]; try apply IH').
  - intros [Hc Hd]. destruct c as [|[] c]; try done. subst. cbn [weight weight1 disc] in *. destruct Hd as [_ Hd].
    apply IH in Hd; [|simpl; lia]. case_decide; lia.
  - intros [Hc Hd]. destruct c as [|[] c]; try done. subst. cbn [weight weight1 disc] in *. destruct Hd as [_ Hd].
    apply IH in Hd; [|simpl; lia]. case_decide; lia.
  - intros Hd. apply IH' in Hd. case_decide; lia.
  - intros [_ Hd]. by apply IH' in Hd.
  - intros [_ Hd]. apply IH' in Hd. case_decide; lia.
  - intros [_ Hd]. by apply IH' in Hd.
  - intros [_ Hd]. by apply IH' in Hd.
  - intros [_ Hd]. by apply IH' in Hd.
Qed.

Lemma total_nonneg l m : (forall a t, m !! a = Some t -> 0 <= weight l (code t)) -> 0 <= total l m.
Proof.
  induction m as [|a t m Hm IH] using map_ind; intros H; [unfold total; rewrite map_fold_empty; lia|].
  rewrite total_insert_new by done. pose proof (H a t (lookup_insert_eq _ _ _)).
  assert (0 <= total l m); [|lia]. apply IH. intros b t' Hb. apply (H b). rewrite lookup_insert_ne; [done|].
  intros ->. congruence.
Qed.

Lemma base_total l k : base k -> 0 <= total l (threads k).
Proof.
  intros Hb. apply total_nonneg. intros a t Ha. destruct (b_thread k Hb a t Ha) as (_ & _ & Hc & _).
  eapply disc_weight, (proj2 (proj2 Hc)).
Qed.

Lemma total_member l k a t : base k -> threads k !! a = Some t -> weight l (code t) <= total l (threads k).
Proof.
  intros Hb Ha. pose proof (total_delete l (threads k) a t Ha) as E.
  assert (0 <= total l (delete a (threads k))); [|lia]. apply total_nonneg. intros b t' Hb'.
  apply lookup_delete_Some in Hb' as [_ Hb']. destruct (b_thread k Hb b t' Hb') as (_ & _ & Hc & _).
  eapply disc_weight, (proj2 (proj2 Hc)).
Qed.

(** ** Changes that keep the base *)

Lemma base_ext k k' :
  threads k' = threads k -> ready_list k' = ready_list k -> idle_thread k' = idle_thread k ->
  in_external_intr k' = in_external_intr k -> semas k' = semas k -> locks k' = locks k -> conds k' = conds k ->
  base k -> base k'.
Proof.
  destruct k, k'. simpl. intros -> -> -> -> -> -> -> [H1 H2 H3 H4 H5 H6 H7 H8 H9 H10 H11 H12 H13 H14 H15].
  constructor; assumption.
Qed.

Lemma instr_mono k k' a i :
  idle_thread k' = idle_thread k ->
  (forall s, is_Some (semas k !! s) -> is_Some (semas k' !! s)) ->
  (forall l, is_Some (locks k !! l) -> is_Some (locks k' !! l)) ->
  (forall c, is_Some (conds k !! c) -> is_Some (conds k' !! c)) ->
  instr_ok k a i -> instr_ok k' a i.
Proof.
  intros Hi Hs Hl Hc. destruct i; simpl; try rewrite Hi; try done; auto; intros [? ?]; auto.
Qed.

(** [k'] has every object of [k], with the same waiters; a new one has none. *)
Record grown (k k' : kern) : Prop := {
  g_ready : ready_list k' = ready_list k;
  g_idle : idle_thread k' = idle_thread k;
  g_ext : in_external_intr k' = in_external_intr k;
  g_sema s x : semas k !! s = Some x -> exists x', semas k' !! s = Some x' /\ waiters x' = waiters x;
  g_value s x' : semas k' !! s = Some x' -> 0 <= value x' < 2 ^ 32 /\
    (waiters x' = [] \/ exists x, semas k !! s = Some x /\ waiters x' = waiters x);
  g_lock l : is_Some (locks k !! l) -> is_Some (locks k' !! l);
  g_locks l h : locks k' !! l = Some h -> is_Some (semas k' !! OfLock l);
  g_cond c : is_Some (conds k !! c) -> is_Some (conds k' !! c);
  g_conds c w t : conds k' !! c = Some w -> t ∈ w -> is_Some (semas k' !! OfWaiter t);
}.

Lemma code_grown k k' a c :
  grown k k' -> (forall l, holds k' a l = holds k a l) -> code_ok k a c -> code_ok k' a c.
Proof.
  intros G Hh (H1 & [H2 H2'] & H3). split_and!; [|done|done|eapply disc_ext; [|exact H3]; by intros l].
  eapply Forall_impl; [exact H1|]. intros i. apply instr_mono; [apply (g_idle _ _ G)| |apply (g_lock _ _ G)|apply (g_cond _ _ G)].
  intros s [x Hx]. destruct (g_sema _ _ G s x Hx) as (x' & Hx' & _). by exists x'.
Qed.

(** The running thread changes what it has to do, and objects change without
    anyone being woken up. *)
Lemma base_local k k' a0 t0 t1 :
  base k -> grown k k' -> threads k !! a0 = Some t0 -> threads k' = <[a0 := t1]> (threads k) ->
  status t0 = THREAD_RUNNING -> status t1 = THREAD_RUNNING -> magic t1 = THREAD_MAGIC ->
  code_ok k' a0 (code t1) -> target (code t1) = target (code t0) ->
  (a0 = idle_thread k -> idle_code (code t1)) ->
  (forall a l, a <> a0 -> a <> NULL -> holds k' a l = holds k a l) ->
  (forall l, lock_tokens k' l) ->
  base k'.
Proof.
  intros B G Ha0 Hth Hs0 Hs1 Hm Hcode Htg Hidle Hh Htok.
  assert (Hlook : forall a, a <> a0 -> threads k' !! a = threads k !! a) by (intros a Ha; rewrite Hth; by rewrite lookup_insert_ne).
  assert (H0 : threads k' !! a0 = Some t1) by (rewrite Hth; apply lookup_insert_eq).
  assert (Hcr : forall c a, creating k' c a <-> creating k c a).
  { intros c a. unfold creating. destruct (decide (c = a0)) as [->|Hne]; [|by rewrite Hlook].
    rewrite H0, Ha0. split; intros (t & [= <-] & Ht); eexists; (split; [done|]); congruence. }
  assert (Hst : forall a t', threads k' !! a = Some t' -> exists t, threads k !! a = Some t /\ status t = status t').
  { intros a t' Ha. destruct (decide (a = a0)) as [->|Hne]; [|rewrite Hlook in Ha by done; by exists t'].
    exists t0. split; [done|]. rewrite H0 in Ha. simplify_eq. congruence. }
  assert (Hst' : forall a t, threads k !! a = Some t -> status t <> THREAD_RUNNING -> threads k' !! a = Some t).
  { intros a t Ha Hr. rewrite Hlook; [done|]. intros ->. congruence. }
  constructor.
  - intros a t Ha. destruct (decide (a = a0)) as [->|Hne].
    + rewrite H0 in Ha. simplify_eq. split_and!; [apply (b_thread k B a0 t0 Ha0)|done..|congruence].
    + rewrite Hlook in Ha by done. destruct (b_thread k B a t Ha) as (? & ? & Hc & ?). split_and!; [done..| |done].
      eapply code_grown; [exact G|by intros l; apply Hh|done].
  - rewrite (g_ready _ _ G). apply (b_nodup k B).
  - intros a Ha. rewrite (g_ready _ _ G) in Ha. destruct (b_ready k B a Ha) as (t & Ht & Hr & Hi).
    exists t. rewrite (g_idle _ _ G). split_and!; [|done..]. apply Hst'; [done|congruence].
  - intros a t' Ha Hr. rewrite (g_ready _ _ G), (g_idle _ _ G). destruct (Hst a t' Ha) as (t & Ht & E).
    apply (b_listed k B a t Ht). congruence.
  - intros s x Hx. destruct (g_value _ _ G s x Hx) as [Hv [E|(x0 & Hx0 & E)]]; (split; [done|]); rewrite E; [constructor|].
    apply (b_sema k B s x0 Hx0).
  - intros s x a Hx Ha. destruct (g_value _ _ G s x Hx) as [_ [E|(x0 & Hx0 & E)]]; rewrite E in Ha; [by apply elem_of_nil in Ha|].
    destruct (b_wait k B s x0 a Hx0 Ha) as (t & lv & c & Ht & Hb & Hc). exists t, lv, c. split_and!; [|done..].
    apply Hst'; [done|congruence].
  - intros a t' Ha Hb. destruct (Hst a t' Ha) as (t & Ht & E). rewrite (g_idle _ _ G).
    destruct (b_blocked k B a t Ht ltac:(congruence)) as [?|[(s & x & Hx & Hw)|(c & Hc)]]; [by left| |].
    + right. left. destruct (g_sema _ _ G s x Hx) as (x' & Hx' & E'). exists s, x'. by rewrite E'.
    + right. right. exists c. by apply Hcr.
  - intros c a Hc. apply Hcr in Hc. destruct (b_newborn k B c a Hc) as (t & Ht & Hb & Hi & Hco).
    exists t. rewrite (g_idle _ _ G). split_and!; [|done..]. apply Hst'; [done|congruence].
  - intros c c' a Hc Hc'. apply Hcr in Hc, Hc'. by apply (b_creator k B c c' a).
  - rewrite (g_idle _ _ G). destruct (b_idle k B) as (t & Ht & Hd & Hc).
    destruct (decide (idle_thread k = a0)) as [E|Hne].
    + exists t1. rewrite E. split_and!; [done|congruence|]. by apply Hidle.
    + exists t. rewrite Hlook by done. done.
  - rewrite (g_ext _ _ G). apply (b_ext k B).
  - apply (g_locks _ _ G).
  - apply (g_conds _ _ G).
  - apply (g_lock _ _ G), (b_tid k B).
  - done.
Qed.

(** One thread changes its state; queues change with it, nothing else. *)
Record moved (k k' : kern) (a0 : Z) (t0 : thread) (st : thread_status) : Prop := {
  m_old : threads k !! a0 = Some t0;
  m_threads : threads k' = <[a0 := with_status st t0]> (threads k);
  m_idle : idle_thread k' = idle_thread k;
  m_ext : in_external_intr k' = in_external_intr k;
  m_locks : locks k' = locks k;
  m_conds : conds k' = conds k;
  m_sema s : is_Some (semas k' !! s) <-> is_Some (semas k !! s);
  m_value s x x' : semas k !! s = Some x -> semas k' !! s = Some x' -> value x' = value x;
}.

Lemma total_status l m a t st : m !! a = Some t -> total l (<[a := with_status st t]> m) = total l m.
Proof. intros H. rewrite (total_insert l m a t) by done. simpl. lia. Qed.

Lemma moved_creating k k' a0 t0 st c a : moved k k' a0 t0 st -> creating k' c a <-> creating k c a.
Proof.
  intros M. unfold creating. rewrite (m_threads _ _ _ _ _ M). destruct (decide (c = a0)) as [->|Hne].
  - rewrite lookup_insert_eq, (m_old _ _ _ _ _ M). split; intros (t & [= <-] & Ht); eexists; done.
  - by rewrite lookup_insert_ne.
Qed.

Lemma base_moved k k' a0 t0 st :
  base k -> moved k k' a0 t0 st ->
  (st = THREAD_DYING -> code t0 = [] /\ a0 <> idle_thread k) ->
  NoDup (ready_list k') ->
  (forall a, a ∈ ready_list k' -> exists t, threads k' !! a = Some t /\ status t = THREAD_READY /\ a <> idle_thread k) ->
  (forall a t, threads k' !! a = Some t -> status t = THREAD_READY -> a ∈ ready_list k' \/ a = idle_thread k) ->
  (forall s x, semas k' !! s = Some x -> NoDup (waiters x)) ->
  (forall s x a, semas k' !! s = Some x -> a ∈ waiters x ->
     exists t level c, threads k' !! a = Some t /\ status t = THREAD_BLOCKED /\ code t = SemaDownLoop s level :: c) ->
  (forall a t, threads k' !! a = Some t -> status t = THREAD_BLOCKED ->
     a = idle_thread k \/ waiting k' a \/ exists c, creating k c a) ->
  (forall c, ~ creating k c a0) ->
  base k'.
Proof.
  intros B M Hdy Hnd Hr Hl Hw Hwt Hb Hnc. pose proof (m_old _ _ _ _ _ M) as H0.
  assert (Hcr : forall c a, creating k' c a <-> creating k c a) by (intros; by eapply moved_creating).
  assert (Hco : forall a c, code_ok k a c -> code_ok k' a c).
  { intros a c (H1 & [H2 H2'] & H3). split_and!; [|done|done|].
    - eapply Forall_impl; [exact H1|]. intros i. apply instr_mono; [apply (m_idle _ _ _ _ _ M)|..].
      + intros s Hs. by apply (m_sema _ _ _ _ _ M).
      + intros l. by rewrite (m_locks _ _ _ _ _ M).
      + intros x. by rewrite (m_conds _ _ _ _ _ M).
    - eapply disc_ext; [|exact H3]. intros l. unfold holds. by rewrite (m_locks _ _ _ _ _ M). }
  constructor.
  - intros a t Ha. rewrite (m_threads _ _ _ _ _ M) in Ha. destruct (decide (a = a0)) as [->|Hne].
    + rewrite lookup_insert_eq in Ha. simplify_eq. destruct (b_thread k B a0 t0 H0) as (? & ? & ? & ?).
      split_and!; [done..|by apply Hco|]. intros E. by apply Hdy.
    + rewrite lookup_insert_ne in Ha by done. destruct (b_thread k B a t Ha) as (? & ? & ? & ?).
      split_and!; [done..|by apply Hco|done].
  - done.
  - rewrite (m_idle _ _ _ _ _ M). done.
  - rewrite (m_idle _ _ _ _ _ M). done.
  - intros s x Hx. split; [|by eapply Hw]. destruct (proj1 (m_sema _ _ _ _ _ M s) (ex_intro _ x Hx)) as [x0 Hx0].
    rewrite (m_value _ _ _ _ _ M s x0 x Hx0 Hx). apply (b_sema k B s x0 Hx0).
  - done.
  - intros a t Ha E. rewrite (m_idle _ _ _ _ _ M). destruct (Hb a t Ha E) as [?|[?|(c & Hc)]]; [by left|by right; left|].
    right. right. exists c. by apply Hcr.
  - intros c a Hc. apply Hcr in Hc. destruct (b_newborn k B c a Hc) as (t & Ht & Hrest). exists t.
    rewrite (m_idle _ _ _ _ _ M). split; [|done]. rewrite (m_threads _ _ _ _ _ M), lookup_insert_ne; [done|].
    intros ->. by destruct (Hnc c).
  - intros c c' a Hc Hc'. apply Hcr in Hc, Hc'. by apply (b_creator k B c c' a).
  - rewrite (m_idle _ _ _ _ _ M). destruct (b_idle k B) as (t & Ht & Hd & Hc). rewrite (m_threads _ _ _ _ _ M).
    destruct (decide (idle_thread k = a0)) as [E|Hne].
    + exists (with_status st t0). rewrite E, lookup_insert_eq. rewrite E in Ht. rewrite H0 in Ht. simplify_eq.
      split_and!; [done| |done]. simpl. intros ->. destruct (Hdy eq_refl) as [_ Hn]. by destruct Hn.
    + exists t. by rewrite lookup_insert_ne.
  - rewrite (m_ext _ _ _ _ _ M). apply (b_ext k B).
  - intros l h. rewrite (m_locks _ _ _ _ _ M). intros Hlk. apply (m_sema _ _ _ _ _ M). by apply (b_locks k B l h).
  - intros c w t. rewrite (m_conds _ _ _ _ _ M). intros Hc Ht. apply (m_sema _ _ _ _ _ M). by apply (b_conds k B c w t).
  - rewrite (m_locks _ _ _ _ _ M). apply (b_tid k B).
  - intros l h x. rewrite (m_locks _ _ _ _ _ M), (m_threads _ _ _ _ _ M). intros Hlk Hx.
    destruct (proj1 (m_sema _ _ _ _ _ M (OfLock l)) (ex_intro _ x Hx)) as [x0 Hx0].
    rewrite (m_value _ _ _ _ _ M _ x0 x Hx0 Hx), (total_status l _ _ _ _ H0). by apply (b_tokens k B l h x0).
Qed.

(** A thread that waits, is ready or runs is not being created. *)
Lemma not_newborn k a t : base k -> threads k !! a = Some t -> status t <> THREAD_BLOCKED -> forall c, ~ creating k c a.
Proof. intros B Ha Hs c Hc. destruct (b_newborn k B c a Hc) as (t' & Ht' & Hb & _). congruence. Qed.

Lemma waiter_not_newborn k s x a : base k -> semas k !! s = Some x -> a ∈ waiters x -> forall c, ~ creating k c a.
Proof.
  intros B Hx Ha c Hc. destruct (b_newborn k B c a Hc) as (t & Ht & _ & _ & Hco).
  destruct (b_wait k B s x a Hx Ha) as (t' & lv & c' & Ht' & _ & Hc'). rewrite Ht in Ht'. simplify_eq.
  destruct Hco; congruence.
Qed.

Lemma waiter_not_idle k s x a : base k -> semas k !! s = Some x -> a ∈ waiters x -> a <> idle_thread k.
Proof.
  intros B Hx Ha ->. destruct (b_idle k B) as (t & Ht & _ & Hi).
  destruct (b_wait k B s x _ Hx Ha) as (t' & lv & c' & Ht' & _ & Hc'). rewrite Ht in Ht'. simplify_eq.
  rewrite Hc' in Hi. done.
Qed.

(** Two semaphores have no waiter in common. *)
Lemma waiter_unique k s s' x x' a :
  base k -> semas k !! s = Some x -> semas k !! s' = Some x' -> a ∈ waiters x -> a ∈ waiters x' -> s = s'.
Proof.
  intros B Hx Hx' Ha Ha'. destruct (b_wait k B s x a Hx Ha) as (t & lv & c & Ht & _ & Hc).
  destruct (b_wait k B s' x' a Hx' Ha') as (t' & lv' & c' & Ht' & _ & Hc'). rewrite Ht in Ht'. simplify_eq. congruence.
Qed.

(** ** The scheduler *)

Lemma idle_not_newborn k c : base k -> ~ creating k c (idle_thread k).
Proof. intros B Hc. destruct (b_newborn k B c _ Hc) as (? & _ & _ & ? & _). done. Qed.

(** The thread that [next_thread_to_run] picks. *)
Definition elected (k : kern) : Z := default (idle_thread k) (hd_error (ready_list k)).

Lemma elected_thread k :
  descheduled k -> exists t, threads k !! elected k = Some t /\ status t <> THREAD_DYING /\ status t <> THREAD_RUNNING /\
    (elected k = idle_thread k \/ status t = THREAD_READY) /\ (forall c, ~ creating k c (elected k)) /\
    elected k ∉ tl (ready_list k) /\ (forall s x, semas k !! s = Some x -> elected k ∉ waiters x).
Proof.
  intros [B _ Hn _]. unfold elected. destruct (ready_list k) as [|a rest] eqn:Er; simpl.
  - destruct (b_idle k B) as (t & Ht & Hd & _). exists t. split_and!; auto.
    + by apply (Hn _ _ Ht).
    + intros c. by apply idle_not_newborn.
    + apply not_elem_of_nil.
    + intros s x Hx Ha. by destruct (waiter_not_idle k s x _ B Hx Ha).
  - destruct (b_ready k B a) as (t & Ht & Hs & Hi); [rewrite Er; left|]. exists t. rewrite Hs.
    pose proof (b_nodup k B) as Hnd. rewrite Er in Hnd. apply NoDup_cons in Hnd as [Hna _]. split_and!; auto.
    + apply (not_newborn k a t B Ht). by rewrite Hs.
    + intros s x Hx Ha. destruct (b_wait k B s x a Hx Ha) as (t' & ? & ? & Ht' & Hb & _). congruence.
Qed.

(** [schedule] up to the freeing of the previous thread. *)
Definition dispatched (k : kern) (t : thread) (st : kstats) : kern :=
  set_stats st (set_threads (<[elected k := with_status THREAD_RUNNING t]> (threads k))
    (set_cpu (elected k) (set_ready_list (tl (ready_list k)) k))).

Lemma base_dispatched k t st :
  descheduled k -> threads k !! elected k = Some t -> base (dispatched k t st).
Proof.
  intros D Ht. destruct (elected_thread k D) as (t' & Ht' & Hd & Hr & Hor & Hcr & Hna & Hnw).
  rewrite Ht in Ht'. symmetry in Ht'. simplify_eq. destruct D as [B _ Hn _].
  assert (Htl : forall a, a ∈ tl (ready_list k) -> a ∈ ready_list k).
  { intros a Ha. destruct (ready_list k); [done|by right]. }
  apply (base_moved k _ (elected k) t THREAD_RUNNING B); try done.
  - constructor; try done. intros s x x' Hx Hx'. simpl in Hx'. congruence.
  - pose proof (b_nodup k B) as Hnd. simpl. revert Hnd. destruct (ready_list k); [done|]. simpl. rewrite NoDup_cons. by intros [].
  - intros a Ha. cbn [ready_list threads dispatched set_stats set_threads set_cpu set_ready_list] in *.
    rewrite lookup_insert_ne by (intros <-; done). apply (b_ready k B), Htl, Ha.
  - intros a t' Ha Hs. simpl in *. destruct (decide (a = elected k)) as [->|Hne].
    + rewrite lookup_insert_eq in Ha. by simplify_eq.
    + rewrite lookup_insert_ne in Ha by done. destruct (b_listed k B a t' Ha Hs) as [Hin|]; [|by right].
      unfold elected in Hne. destruct (ready_list k) as [|b l]; [by apply not_elem_of_nil in Hin|].
      apply elem_of_cons in Hin as [->|?]; [done|by left].
  - intros s x Hx. apply (b_sema k B s x Hx).
  - intros s x a Hx Ha. simpl in *. rewrite lookup_insert_ne; [by apply (b_wait k B s x a)|].
    intros <-. by apply (Hnw s x).
  - intros a t' Ha Hs. simpl in *. destruct (decide (a = elected k)) as [->|Hne].
    + rewrite lookup_insert_eq in Ha. by simplify_eq.
    + rewrite lookup_insert_ne in Ha by done. by apply (b_blocked k B a t').
Qed.

(** A dying thread's page is freed. *)
Lemma base_delete k a0 t0 :
  base k -> threads k !! a0 = Some t0 -> status t0 = THREAD_DYING ->
  base (set_threads (delete a0 (threads k)) k).
Proof.
  intros B H0 Hs.
  assert (Hc0 : code t0 = []) by (by apply (b_thread k B a0 t0)).
  assert (Hother : forall a t, threads k !! a = Some t -> status t <> THREAD_DYING -> delete a0 (threads k) !! a = Some t).
  { intros a t Ha Hd. rewrite lookup_delete_ne; [done|]. intros ->. congruence. }
  assert (Hback : forall a t, delete a0 (threads k) !! a = Some t -> threads k !! a = Some t)
    by (intros a t Ha; by apply lookup_delete_Some in Ha as [_ ?]).
  assert (Hcr : forall c a, creating (set_threads (delete a0 (threads k)) k) c a <-> creating k c a).
  { intros c a. split; intros (t & Ht & Hg); exists t; (split; [|done]); simpl in *; [by apply Hback|].
    rewrite lookup_delete_ne; [done|]. intros ->. rewrite H0 in Ht. simplify_eq. by rewrite Hc0 in Hg. }
  constructor; simpl.
  - intros a t Ha. apply Hback in Ha. destruct (b_thread k B a t Ha) as (H1 & H2 & (H3 & [H4 H4'] & H5) & H6).
    split_and!; [done..| |done]. split_and!; [|done..]. eapply Forall_impl; [exact H3|]. intros i. by apply instr_mono.
  - apply (b_nodup k B).
  - intros a Ha. destruct (b_ready k B a Ha) as (t & Ht & Hr & Hi). exists t. split_and!; [|done..].
    apply Hother; [done|]. by rewrite Hr.
  - intros a t Ha. apply (b_listed k B). by apply Hback.
  - apply (b_sema k B).
  - intros s x a Hx Ha. destruct (b_wait k B s x a Hx Ha) as (t & lv & c & Ht & Hb & Hc). exists t, lv, c.
    split_and!; [|done..]. apply Hother; [done|]. by rewrite Hb.
  - intros a t Ha Hb. destruct (b_blocked k B a t (Hback a t Ha) Hb) as [?|[?|(c & Hc)]]; [by left|by right; left|].
    right. right. exists c. by apply Hcr.
  - intros c a Hc. apply Hcr in Hc. destruct (b_newborn k B c a Hc) as (t & Ht & Hb & Hi & Hco). exists t.
    split_and!; [|done..]. apply Hother; [done|]. by rewrite Hb.
  - intros c c' a Hc Hc'. apply Hcr in Hc, Hc'. by apply (b_creator k B c c' a).
  - destruct (b_idle k B) as (t & Ht & Hd & Hc). exists t. split_and!; [|done..]. by apply Hother.
  - apply (b_ext k B).
  - apply (b_locks k B).
  - apply (b_conds k B).
  - apply (b_tid k B).
  - intros l h x Hl Hx. simpl in *. rewrite (total_delete l _ a0 t0 H0), Hc0. simpl. pose proof (b_tokens k B l h x Hl Hx). lia.
Qed.

Lemma is_thread_ok k a t :
  threads k !! a = Some t -> a <> NULL -> magic t = THREAD_MAGIC -> is_thread a k = Done (true, k).
Proof.
  intros Ha Hn Hm. unfold is_thread. rewrite (proj2 (Z.eqb_neq _ _) Hn). unfold bind, load_thread. rewrite Ha, Hm. done.
Qed.

Lemma thread_current_ok k t :
  threads k !! cpu k = Some t -> cpu k <> NULL -> magic t = THREAD_MAGIC -> status t = THREAD_RUNNING ->
  thread_current k = Done (cpu k, k).
Proof.
  intros Ha Hn Hm Hs. unfold thread_current. rewrite (bind_done _ _ k (cpu k) k) by done.
  rewrite (bind_done _ _ _ _ _ (is_thread_ok k _ t Ha Hn Hm)). unfold bind, load_thread. simpl. rewrite Ha, bool_decide_true by done. done.
Qed.

Lemma update_thread_ok k a t f :
  threads k !! a = Some t -> update_thread a f k = Done (tt, set_threads (<[a := f t]> (threads k)) k).
Proof. intros Ha. unfold update_thread. by rewrite Ha. Qed.

Lemma next_thread_ok k : next_thread_to_run k = Done (elected k, set_ready_list (tl (ready_list k)) k).
Proof.
  unfold next_thread_to_run, elected, bind, get. simpl. destruct (ready_list k) as [|a l] eqn:E; [|done].
  unfold ret, set_ready_list. simpl. rewrite <- E. by destruct k.
Qed.

(** What [schedule] leaves: the elected thread runs, with interrupts off, and
    the previous one's page is freed if it was dying. *)
Record scheduled (k k' : kern) : Prop := {
  sc_cpu : cpu k' = elected k;
  sc_ready : ready_list k' = tl (ready_list k);
  sc_off : intr_on k' = false;
  sc_idle : idle_thread k' = idle_thread k;
  sc_locks : locks k' = locks k;
  sc_semas : semas k' = semas k;
}.

Definition tail_stats (k : kern) : kstats :=
  let s := stats k in mk_stats (ticks s) 0 (idle_ticks s) (kernel_ticks s) (user_ticks s).

(** Freeing the previous thread's page, or not. *)
Definition reap (k : kern) (prev : Z) (k' : kern) : Prop :=
  k' = k \/ exists p, threads k !! prev = Some p /\ status p = THREAD_DYING /\ k' = set_threads (delete prev (threads k)) k.

Lemma inv_dispatched k t k' :
  descheduled k -> threads k !! elected k = Some t -> reap (dispatched k t (tail_stats k)) (cpu k) k' ->
  inv k' /\ scheduled k k'.
Proof.
  intros D Ht Hr. pose proof (base_dispatched k t (tail_stats k) D Ht) as B1. pose proof (d_none k D) as Hn.
  pose proof (d_off k D) as Hoff.
  assert (Hin : forall a u, dispatched k t (tail_stats k) = dispatched k t (tail_stats k) ->
    threads (dispatched k t (tail_stats k)) !! a = Some u -> status u = THREAD_RUNNING -> a = elected k).
  { intros a u _ Ha Hu. simpl in Ha. destruct (decide (a = elected k)) as [|Hne]; [done|].
    rewrite lookup_insert_ne in Ha by done. by destruct (Hn a u Ha). }
  destruct Hr as [->|(p & Hp & Hd & ->)]; (split; [|constructor; done]).
  - constructor; [done| | |done]; simpl.
    + exists (with_status THREAD_RUNNING t). by rewrite lookup_insert_eq.
    + intros a u. by apply Hin.
  - constructor; [by apply base_delete with p| | |done]; simpl.
    + exists (with_status THREAD_RUNNING t). rewrite lookup_delete_ne, lookup_insert_eq; [done|].
      intros E. simpl in Hp. rewrite E, lookup_insert_eq in Hp. by simplify_eq.
    + intros a u Ha. apply lookup_delete_Some in Ha as [_ Ha]. by apply Hin.
Qed.

Lemma schedule_ok k : descheduled k -> exists k', schedule k = Done (tt, k') /\ inv k' /\ scheduled k k'.
Proof.
  intros D. destruct (elected_thread k D) as (t & Ht & Hd & Hnr & _).
  destruct (b_thread k (d_base k D) _ _ Ht) as (Hnn & Hm & _). destruct (d_cpu k D) as [p Hp].
  pose proof (d_none k D _ _ Hp) as Hpr. pose proof (d_off k D) as Hoff.
  destruct (b_thread k (d_base k D) _ _ Hp) as (Hpn & _ & _ & _).
  set (k1 := dispatched k t (tail_stats k)).
  assert (Hsuff : exists k', schedule k = Done (tt, k') /\ reap k1 (cpu k) k').
  2:{ destruct Hsuff as (k' & E & Hr). exists k'. split; [done|]. by apply (inv_dispatched k t). }
  unfold schedule. rewrite (bind_done _ _ k (cpu k) k) by done. rewrite (bind_done _ _ _ _ _ (next_thread_ok k)).
  rewrite (bind_done _ _ _ false (set_ready_list (tl (ready_list k)) k)) by (unfold intr_get_level, gets; simpl; by rewrite Hoff).
  rewrite (assert_true _ _ _ eq_refl). unfold load_thread at 1.
  rewrite (bind_done _ _ _ p (set_ready_list (tl (ready_list k)) k)) by (simpl; by rewrite Hp).
  rewrite assert_true by (by rewrite bool_decide_false).
  rewrite (bind_done _ _ _ _ _ (is_thread_ok (set_ready_list (tl (ready_list k)) k) _ t Ht Hnn Hm)), (assert_true _ _ _ eq_refl).
  destruct (Z.eqb_spec (cpu k) (elected k)) as [Ec|Ec]; simpl negb; cbv iota.
  - exists k1. split; [|by left]. unfold thread_schedule_tail, bind, running_thread, gets, intr_get_level. simpl.
    rewrite Hoff. simpl. unfold update_thread. simpl. rewrite Ec, Ht. simpl. unfold k1, dispatched. simpl. unfold set_cpu. rewrite <- Ec. done.
  - unfold thread_schedule_tail, bind, running_thread, gets, intr_get_level. simpl.
    rewrite Hoff. simpl. unfold update_thread. simpl. rewrite Ht. simpl. rewrite (proj2 (Z.eqb_neq _ _) Hpn).
    unfold load_thread. simpl. rewrite lookup_insert_ne, Hp by done. simpl.
    rewrite (proj2 (Z.eqb_neq _ _) Ec). simpl. case_bool_decide as Hdy; simpl; [|by exists k1; split; [|left]].
    case (negb (cpu k =? initial_thread k)); simpl; [|by exists k1; split; [|left]].
    eexists. split; [done|]. right. exists p. split_and!; [|done|done]. unfold k1. simpl. by rewrite lookup_insert_ne.
Qed.
