(* ===== verification/SchedStep.v ===== *)
(** * Every step of the kernel keeps the invariant

    One lemma per case of [exec], each saying that the step ends without a
    failed assertion and in a state that satisfies [inv], and the same for the
    timer interrupt. *)

From stdpp Require Import options.
From S2P Require Import Prelude KList Kernel SchedInv.
Local Open Scope Z_scope.
Local Open Scope kernel_scope.

(** The running thread [t] is about to do [i] and then [rest]. *)
Record at_step (k : kern) (t : thread) (i : instr) (rest : list instr) : Prop := {
  p_inv : inv k;
  p_thread : threads k !! cpu k = Some t;
  p_code : Forall (instr_ok k (cpu k)) rest;
  p_one : one_target (i :: rest);
  p_loop : no_loop rest;
  p_disc : disc (holds k (cpu k)) (i :: rest);
  p_weight l : weight l (code t) = weight l (i :: rest);
  p_target : target (code t) = target (i :: rest);
  p_idle : cpu k = idle_thread k -> idle_code (i :: rest);
  p_off : is_loop i = true -> intr_on k = false;
}.

Definition popped (k : kern) (t : thread) (rest : list instr) : kern :=
  set_threads (<[cpu k := with_code rest t]> (threads k)) k.

(** ** Shared lemmas *)

Lemma running k t i rest : at_step k t i rest -> status t = THREAD_RUNNING.
Proof. intros P. destruct (i_cpu k (p_inv _ _ _ _ P)) as (t' & Ht' & Hs). pose proof (p_thread _ _ _ _ P). congruence. Qed.

Lemma cpu_facts k t i rest : at_step k t i rest -> cpu k <> NULL /\ magic t = THREAD_MAGIC.
Proof. intros P. destruct (b_thread k (i_base k (p_inv _ _ _ _ P)) _ _ (p_thread _ _ _ _ P)) as (? & ? & _). done. Qed.

Lemma not_external k t i rest : at_step k t i rest -> in_external_intr k = false.
Proof. intros P. apply (b_ext k (i_base k (p_inv _ _ _ _ P))). Qed.

Lemma current_ok k t c :
  cpu k <> NULL -> magic t = THREAD_MAGIC -> status t = THREAD_RUNNING ->
  thread_current (popped k t c) = Done (cpu k, popped k t c).
Proof. intros Hn Hm Hs. apply (thread_current_ok (popped k t c) (with_code c t)); [simpl; apply lookup_insert_eq|done..]. Qed.

Lemma current_popped k t i rest c : at_step k t i rest -> thread_current (popped k t c) = Done (cpu k, popped k t c).
Proof. intros P. destruct (cpu_facts k t i rest P). apply current_ok; [done..|]. by apply running in P. Qed.

Lemma push_ok k t c c' :
  push_code c' (popped k t c) = Done (tt, popped k t (c' ++ c)).
Proof.
  unfold push_code, bind, get. simpl. unfold update_thread. simpl. rewrite lookup_insert_eq. unfold popped, set_threads. simpl.
  by rewrite insert_insert_eq.
Qed.

Lemma held_popped k t i rest l h :
  at_step k t i rest -> locks k !! l = Some h ->
  lock_held_by_current_thread l (popped k t rest) = Done (holds k (cpu k) l, popped k t rest).
Proof.
  intros P Hl. unfold lock_held_by_current_thread, load_holder. unfold bind at 1. simpl. rewrite Hl.
  rewrite (bind_done _ _ _ _ _ (current_popped k t i rest rest P)). unfold ret, holds. rewrite Hl. do 2 f_equal.
  destruct (Z.eqb_spec h (cpu k)) as [->|Hne]; [by rewrite bool_decide_true|]. rewrite bool_decide_false; congruence.
Qed.

(** The same objects. *)
Lemma grown_same k k' :
  base k -> ready_list k' = ready_list k -> idle_thread k' = idle_thread k -> in_external_intr k' = in_external_intr k ->
  semas k' = semas k -> locks k' = locks k -> conds k' = conds k -> grown k k'.
Proof.
  intros B Hr Hi He Hs Hl Hc. constructor; rewrite ?Hs, ?Hl, ?Hc; try done.
  - intros s x Hx. by exists x.
  - intros s x Hx. split; [apply (b_sema k B s x Hx)|]. right. by exists x.
  - apply (b_locks k B).
  - apply (b_conds k B).
Qed.

(** The running thread goes on with [c]. *)
Lemma continue_ok k t i rest k' t' :
  at_step k t i rest -> cpu k' = cpu k -> grown k k' -> threads k' = <[cpu k := t']> (threads k) ->
  status t' = status t -> magic t' = magic t ->
  code_ok k' (cpu k) (code t') -> no_loop (code t') \/ intr_on k' = false -> target (code t') = target (i :: rest) ->
  (cpu k = idle_thread k -> idle_code (code t')) ->
  (forall a l, a <> cpu k -> a <> NULL -> holds k' a l = holds k a l) ->
  (forall l, lock_tokens k' l) -> inv k'.
Proof.
  intros P Hcpu G Hth Hst Hmg Hc Hnl Htg Hidle Hh Htok. destruct (p_inv _ _ _ _ P) as [B _ Hrun _].
  pose proof (running _ _ _ _ P) as Hs. destruct (cpu_facts _ _ _ _ P) as [Hn Hm].
  constructor.
  - apply (base_local k k' (cpu k) t t' B G (p_thread _ _ _ _ P) Hth); try done; try congruence.
    rewrite Htg. symmetry. apply (p_target _ _ _ _ P).
  - exists t'. rewrite Hcpu, Hth, lookup_insert_eq. split; congruence.
  - intros a u. rewrite Hcpu, Hth. destruct (decide (a = cpu k)) as [|Hne]; [done|].
    rewrite lookup_insert_ne by done. apply Hrun.
  - intros u s lv c'. rewrite Hcpu, Hth, lookup_insert_eq. intros [= <-] E. rewrite E in Hnl. by destruct Hnl.
Qed.

Lemma tokens_same k t i rest k' t' :
  at_step k t i rest -> locks k' = locks k -> (forall l, semas k' !! OfLock l = semas k !! OfLock l) ->
  threads k' = <[cpu k := t']> (threads k) -> (forall l, weight l (code t') = weight l (i :: rest)) ->
  forall l, lock_tokens k' l.
Proof.
  intros P Hl Hs Hth Hw l h x. rewrite Hl, Hs, Hth, (total_insert l _ _ t) by apply (p_thread _ _ _ _ P).
  intros Hlk Hx. rewrite Hw, <- (p_weight _ _ _ _ P).
  pose proof (b_tokens k (i_base k (p_inv _ _ _ _ P)) l h x Hlk Hx). lia.
Qed.

Lemma no_loop_app c c' : no_loop c -> no_loop c' -> no_loop (c ++ c').
Proof. unfold no_loop. rewrite forallb_app. by intros -> ->. Qed.

Lemma no_loop_tl c : no_loop c -> no_loop (tl c).
Proof. destruct c; [done|]. unfold no_loop. simpl. rewrite andb_true_iff. by intros []. Qed.

(** Nothing happens to the objects. *)
Lemma control_gen k t i rest k' c :
  at_step k t i rest -> cpu k' = cpu k -> threads k' = <[cpu k := with_code c t]> (threads k) ->
  ready_list k' = ready_list k -> idle_thread k' = idle_thread k -> in_external_intr k' = in_external_intr k ->
  semas k' = semas k -> locks k' = locks k -> conds k' = conds k ->
  Forall (instr_ok k (cpu k)) c -> one_target c -> no_loop (tl c) -> no_loop c \/ intr_on k' = false -> disc (holds k (cpu k)) c ->
  target c = target (i :: rest) -> (forall l, weight l c = weight l (i :: rest)) ->
  (cpu k = idle_thread k -> idle_code c) -> inv k'.
Proof.
  intros P Hcpu Hth Hr Hi He Hs Hl Hc Hok Hone Hnt Hnl Hd Htg Hw Hidle.
  pose proof (i_base k (p_inv _ _ _ _ P)) as B.
  apply (continue_ok k t i rest k' (with_code c t) P); try done.
  - by apply grown_same.
  - split_and!; [|done..|].
    + eapply Forall_impl; [exact Hok|]. intros j. apply instr_mono; [done|..]; intros ?; by rewrite ?Hs, ?Hl, ?Hc.
    + eapply disc_ext; [|exact Hd]. intros l. unfold holds. by rewrite Hl.
  - intros a l _ _. unfold holds. by rewrite Hl.
  - apply (tokens_same k t i rest k' (with_code c t) P); try done. intros l. by rewrite Hs.
Qed.

Lemma control_ok k t i rest k' c :
  at_step k t i rest -> cpu k' = cpu k -> threads k' = <[cpu k := with_code c t]> (threads k) ->
  ready_list k' = ready_list k -> idle_thread k' = idle_thread k -> in_external_intr k' = in_external_intr k ->
  semas k' = semas k -> locks k' = locks k -> conds k' = conds k ->
  Forall (instr_ok k (cpu k)) c -> one_target c -> no_loop c -> disc (holds k (cpu k)) c ->
  target c = target (i :: rest) -> (forall l, weight l c = weight l (i :: rest)) ->
  (cpu k = idle_thread k -> idle_code c) -> inv k'.
Proof. intros. eapply control_gen; eauto. by apply no_loop_tl. Qed.

Lemma set_level_ok k b : in_external_intr k = false -> intr_set_level b k = Done (intr_on k, set_intr b k).
Proof.
  intros He. destruct b; [|done]. unfold intr_set_level, intr_enable, bind, intr_get_level, intr_context, gets. simpl.
  by rewrite He.
Qed.

(** What is known of the step and of what follows it. *)
Ltac step_facts P :=
  pose proof (p_code _ _ _ _ P) as Pcode; pose proof (p_loop _ _ _ _ P) as Ploop;
  pose proof (p_one _ _ _ _ P) as Pone; pose proof (p_disc _ _ _ _ P) as Pdisc;
  pose proof (p_idle _ _ _ _ P) as Pidle; pose proof (not_external _ _ _ _ P) as Pext;
  cbn [one_target disc idle_code] in Pone, Pdisc, Pidle.

(** ** Interrupts and the idle thread *)

Lemma exec_set_level k t level rest ws :
  at_step k t (IntrSetLevel level) rest ->
  exists k', exec ws (IntrSetLevel level) (popped k t rest) = Done (tt, k') /\ inv k'.
Proof.
  intros P. step_facts P. exists (set_intr level (popped k t rest)). split.
  - cbn [exec]. by rewrite (bind_done _ _ _ _ _ (set_level_ok (popped k t rest) level Pext)).
  - by apply (control_ok k t (IntrSetLevel level) rest _ rest P).
Qed.

Lemma exec_iret k t rest ws :
  at_step k t Iret rest -> exists k', exec ws Iret (popped k t rest) = Done (tt, k') /\ inv k'.
Proof.
  intros P. step_facts P. exists (set_intr true (popped k t rest)). split; [done|].
  by apply (control_ok k t Iret rest _ rest P).
Qed.

Lemma exec_kernel_thread k t rest ws :
  at_step k t KernelThread rest -> exists k', exec ws KernelThread (popped k t rest) = Done (tt, k') /\ inv k'.
Proof.
  intros P. step_facts P. exists (set_intr true (popped k t rest)). split.
  - cbn [exec]. unfold kernel_thread. by rewrite (bind_done _ _ _ _ _ (set_level_ok (popped k t rest) true Pext)).
  - by apply (control_ok k t KernelThread rest _ rest P).
Qed.

Lemma exec_idle_halt k t rest ws :
  at_step k t IdleHalt rest -> cpu k = idle_thread k ->
  exists k', exec ws IdleHalt (popped k t rest) = Done (tt, k') /\ inv k'.
Proof.
  intros P Hi. step_facts P. specialize (Pidle Hi). destruct rest; [|done].
  exists (set_intr true (popped k t [IdleLoop])). split.
  - cbn [exec]. unfold idle_halt. rewrite (bind_done _ _ _ tt (set_intr true (popped k t []))) by done.
    change (set_intr true (popped k t [])) with (popped (set_intr true k) t []). rewrite push_ok. done.
  - apply (control_ok k t IdleHalt [] _ [IdleLoop] P); try done. by constructor.
Qed.

(** ** Giving up the processor *)

Lemma push_code_run k t c : threads k !! cpu k = Some t -> push_code c k = Done (tt, popped k t (c ++ code t)).
Proof. intros H. unfold push_code, bind, get. simpl. unfold update_thread. by rewrite H. Qed.

(** The running thread stops running: what [schedule] finds. *)
Lemma descheduled_moved k k' t st :
  inv k -> threads k !! cpu k = Some t -> st <> THREAD_RUNNING ->
  cpu k' = cpu k -> intr_on k' = false -> threads k' = <[cpu k := with_status st t]> (threads k) ->
  base k' -> descheduled k'.
Proof.
  intros I Ht Hst Hcpu Hoff Hth B. constructor; [done| | |done].
  - rewrite Hcpu, Hth, lookup_insert_eq. done.
  - intros a u. rewrite Hth. destruct (decide (a = cpu k)) as [->|Hne].
    + rewrite lookup_insert_eq. by intros [= <-].
    + rewrite lookup_insert_ne by done. intros Ha Hu. by destruct Hne; apply (i_running k I a u).
Qed.

(** Nobody runs and waits at the same time. *)
Lemma runner_not_waiting k t s x :
  base k -> threads k !! cpu k = Some t -> status t = THREAD_RUNNING -> semas k !! s = Some x -> cpu k ∉ waiters x.
Proof. intros B Ht Hs Hx Hw. destruct (b_wait k B s x _ Hx Hw) as (t' & ? & ? & Ht' & Hb & _). congruence. Qed.

Lemma runner_not_ready k t : base k -> threads k !! cpu k = Some t -> status t = THREAD_RUNNING -> cpu k ∉ ready_list k.
Proof. intros B Ht Hs Hw. destruct (b_ready k B _ Hw) as (t' & Ht' & Hb & _). congruence. Qed.

(** The running thread leaves the processor, to the queue it belongs to. *)
Record leaves (k k' : kern) (t : thread) (st : thread_status) : Prop := {
  l_idle : idle_thread k' = idle_thread k;
  l_ext : in_external_intr k' = in_external_intr k;
  l_locks : locks k' = locks k;
  l_conds : conds k' = conds k;
  l_threads : threads k' = <[cpu k := with_status st t]> (threads k);
  l_ready : ready_list k' = ready_list k \/
    ready_list k' = ready_list k ++ [cpu k] /\ st = THREAD_READY /\ cpu k <> idle_thread k;
  l_listed : st = THREAD_READY -> cpu k ∈ ready_list k' \/ cpu k = idle_thread k;
  l_sema s x : semas k !! s = Some x -> exists x', semas k' !! s = Some x' /\ value x' = value x /\
    (waiters x' = waiters x \/
     waiters x' = waiters x ++ [cpu k] /\ st = THREAD_BLOCKED /\ exists lv c, code t = SemaDownLoop s lv :: c);
  l_back s : is_Some (semas k' !! s) -> is_Some (semas k !! s);
  l_blocked : st = THREAD_BLOCKED -> cpu k = idle_thread k \/ waiting k' (cpu k);
  l_dying : st = THREAD_DYING -> code t = [] /\ cpu k <> idle_thread k;
}.

Lemma base_leaves k k' t st :
  inv k -> threads k !! cpu k = Some t -> status t = THREAD_RUNNING -> st <> THREAD_RUNNING ->
  leaves k k' t st -> base k'.
Proof.
  intros I Ht Hrun Hst L. pose proof (i_base k I) as B.
  pose proof (runner_not_ready k t B Ht Hrun) as Hnr.
  assert (Hsema : forall s x', semas k' !! s = Some x' -> exists x, semas k !! s = Some x /\ value x' = value x /\
    (waiters x' = waiters x \/ waiters x' = waiters x ++ [cpu k] /\ st = THREAD_BLOCKED /\ exists lv c, code t = SemaDownLoop s lv :: c)).
  { intros s x' Hx'. destruct (l_back _ _ _ _ L s (ex_intro _ _ Hx')) as [x Hx]. exists x. split; [done|].
    destruct (l_sema _ _ _ _ L s x Hx) as (y & Hy & Hrest). congruence. }
  assert (Hother : forall a u, a <> cpu k -> threads k' !! a = Some u <-> threads k !! a = Some u).
  { intros a u Hne. by rewrite (l_threads _ _ _ _ L), lookup_insert_ne. }
  assert (Hcpu : threads k' !! cpu k = Some (with_status st t)) by (rewrite (l_threads _ _ _ _ L); apply lookup_insert_eq).
  assert (Hwait : forall a, waiting k a -> waiting k' a).
  { intros a (s & x & Hx & Ha). destruct (l_sema _ _ _ _ L s x Hx) as (x' & Hx' & _ & Hw). exists s, x'. split; [done|].
    destruct Hw as [->|[-> _]]; [done|]. apply elem_of_app. by left. }
  apply (base_moved k k' (cpu k) t st B).
  - constructor; try apply L; [done| |].
    + intros s. split; [apply L|]. intros [x Hx]. destruct (l_sema _ _ _ _ L s x Hx) as (x' & Hx' & _). by exists x'.
    + intros s x x' Hx Hx'. destruct (Hsema s x' Hx') as (y & Hy & Hv & _). congruence.
  - apply L.
  - destruct (l_ready _ _ _ _ L) as [->|[-> _]]; [apply (b_nodup k B)|]. apply NoDup_app. split_and!; [apply (b_nodup k B)| |].
    + intros a Ha Hc. apply list_elem_of_singleton in Hc. by subst.
    + apply NoDup_singleton.
  - intros a Ha. destruct (decide (a = cpu k)) as [->|Hne].
    + destruct (l_ready _ _ _ _ L) as [E|(_ & E & Hi)]; [by rewrite E in Ha|]. exists (with_status st t). by rewrite Hcpu.
    + assert (Hin : a ∈ ready_list k).
      { destruct (l_ready _ _ _ _ L) as [E|(E & _)]; rewrite E in Ha; [done|]. apply elem_of_app in Ha as [?|Ha]; [done|].
        by apply list_elem_of_singleton in Ha. }
      destruct (b_ready k B a Hin) as (u & Hu & ?). exists u. by rewrite Hother.
  - intros a u Ha Hu. destruct (decide (a = cpu k)) as [->|Hne].
    + rewrite Hcpu in Ha. simplify_eq. by apply L.
    + apply Hother in Ha; [|done]. destruct (b_listed k B a u Ha Hu) as [Hin|?]; [|by right]. left.
      destruct (l_ready _ _ _ _ L) as [->|[-> _]]; [done|]. apply elem_of_app. by left.
  - intros s x' Hx'. destruct (Hsema s x' Hx') as (x & Hx & _ & [->|[-> _]]); [apply (b_sema k B s x Hx)|].
    apply NoDup_app. split_and!; [apply (b_sema k B s x Hx)| |apply NoDup_singleton].
    intros a Ha Hc. apply list_elem_of_singleton in Hc. subst. by apply (runner_not_waiting k t s x B Ht Hrun Hx).
  - intros s x' a Hx' Ha. destruct (Hsema s x' Hx') as (x & Hx & _ & Hw). destruct (decide (a = cpu k)) as [->|Hne].
    + destruct Hw as [E|(_ & Hb & lv & c & Hc)].
      * rewrite E in Ha. by destruct (runner_not_waiting k t s x B Ht Hrun Hx).
      * exists (with_status st t), lv, c. by rewrite Hcpu.
    + assert (Hin : a ∈ waiters x).
      { destruct Hw as [E|[E _]]; rewrite E in Ha; [done|]. apply elem_of_app in Ha as [?|Ha]; [done|].
        by apply list_elem_of_singleton in Ha. }
      destruct (b_wait k B s x a Hx Hin) as (u & lv & c & Hu & ?). exists u, lv, c. by rewrite Hother.
  - intros a u Ha Hu. destruct (decide (a = cpu k)) as [->|Hne].
    + rewrite Hcpu in Ha. simplify_eq. destruct (l_blocked _ _ _ _ L Hu); [by left|by right; left].
    + apply Hother in Ha; [|done]. destruct (b_blocked k B a u Ha Hu) as [?|[?|?]]; [by left|right; left; by apply Hwait|by right; right].
  - apply (not_newborn k (cpu k) t B Ht). by rewrite Hrun.
Qed.

Lemma leave_ok k k' t st :
  inv k -> threads k !! cpu k = Some t -> status t = THREAD_RUNNING -> st <> THREAD_RUNNING ->
  leaves k k' t st -> cpu k' = cpu k -> intr_on k' = false ->
  exists k'', schedule k' = Done (tt, k'') /\ inv k'' /\ scheduled k' k''.
Proof.
  intros I Ht Hrun Hst L Hcpu Hoff. apply schedule_ok.
  eapply descheduled_moved; [exact I|exact Ht|exact Hst|done|done|apply L|by apply (base_leaves k k' t st)].
Qed.

(** A thread that is interrupted or calls the kernel. *)
Lemma at_call k t :
  inv k -> threads k !! cpu k = Some t -> no_loop (code t) -> at_step k t Iret (code t).
Proof.
  intros I Ht Hnl. destruct (b_thread k (i_base k I) _ _ Ht) as (_ & _ & (H1 & [H2 _] & H3) & _).
  constructor; try done. intros Hc. destruct (b_idle k (i_base k I)) as (u & Hu & _ & Hi). rewrite <- Hc, Ht in Hu. by simplify_eq.
Qed.

(** The run queue at the call of [schedule] in [thread_yield]. *)
Definition yield_queue (k : kern) : list Z :=
  if cpu k =? idle_thread k then ready_list k else ready_list k ++ [cpu k].

Lemma yield_state k t :
  inv k -> threads k !! cpu k = Some t ->
  thread_yield k = schedule
    (set_threads (<[cpu k := with_status THREAD_READY (with_code (IntrSetLevel (intr_on k) :: code t) t)]> (threads k))
      (set_ready_list (yield_queue k) (set_intr false k))).
Proof.
  intros I Ht. destruct (b_thread k (i_base k I) _ _ Ht) as (Hn & Hm & _ & _).
  destruct (i_cpu k I) as (t' & Ht' & Hs). rewrite Ht in Ht'. symmetry in Ht'. simplify_eq.
  unfold thread_yield. rewrite (bind_done _ _ _ _ _ (thread_current_ok k t Ht Hn Hm Hs)).
  rewrite (bind_done _ _ _ false k) by (unfold intr_context, gets; by rewrite (b_ext k (i_base k I))).
  rewrite (assert_true _ _ _ eq_refl). rewrite (bind_done _ _ _ (intr_on k) (set_intr false k)) by done.
  rewrite (bind_done _ _ _ (set_intr false k) (set_intr false k)) by done. cbn [idle_thread set_intr].
  rewrite (bind_done _ _ _ tt (set_ready_list (yield_queue k) (set_intr false k)))
    by (unfold yield_queue; destruct (cpu k =? idle_thread k); destruct k; done).
  rewrite (bind_done _ _ _ _ _ (update_thread_ok (set_ready_list _ (set_intr false k)) (cpu k) t _ Ht)).
  erewrite bind_done; [|apply push_code_run; cbn [cpu threads set_threads set_ready_list set_intr]; apply lookup_insert_eq].
  unfold popped, set_threads. simpl. by rewrite insert_insert_eq.
Qed.

Lemma yield_ok k t :
  inv k -> threads k !! cpu k = Some t -> no_loop (code t) ->
  exists k', thread_yield k = Done (tt, k') /\ inv k' /\
    ready_list k' = tl (yield_queue k) /\ cpu k' = default (idle_thread k) (hd_error (yield_queue k)).
Proof.
  intros I Ht Hnl. rewrite (yield_state k t I Ht). pose proof (at_call k t I Ht Hnl) as P.
  set (k1 := set_intr false (popped k t (IntrSetLevel (intr_on k) :: code t))).
  assert (I1 : inv k1).
  { step_facts P. by apply (control_ok k t Iret (code t) k1 (IntrSetLevel (intr_on k) :: code t) P); try done; constructor. }
  assert (Ht1 : threads k1 !! cpu k1 = Some (with_code (IntrSetLevel (intr_on k) :: code t) t)) by (simpl; apply lookup_insert_eq).
  match goal with |- context [schedule ?s] => destruct (leave_ok k1 s _ THREAD_READY I1 Ht1) as (k' & E & I' & Sc) end; try done.
  - by apply running in P.
  - constructor; simpl; try done.
    + by rewrite insert_insert_eq.
    + unfold yield_queue. destruct (Z.eqb_spec (cpu k) (idle_thread k)); [by left|by right].
    + intros _. unfold yield_queue. destruct (Z.eqb_spec (cpu k) (idle_thread k)); [by right|]. left. apply elem_of_app. right. left.
    + intros s x Hx. exists x. split_and!; [done..|by left].
  - exists k'. split_and!; [done..|apply (sc_ready _ _ Sc)|apply (sc_cpu _ _ Sc)].
Qed.

Lemma exec_yield k t ws :
  inv k -> threads k !! cpu k = Some t -> no_loop (code t) ->
  exists k', exec ws ThreadYield k = Done (tt, k') /\ inv k'.
Proof. intros I Ht Hnl. destruct (yield_ok k t I Ht Hnl) as (k' & E & I' & _). by exists k'. Qed.

Lemma exec_exit k t ws :
  inv k -> threads k !! cpu k = Some t -> code t = [] -> exists k', exec ws ThreadExit k = Done (tt, k') /\ inv k'.
Proof.
  intros I Ht Hc. destruct (b_thread k (i_base k I) _ _ Ht) as (Hn & Hm & _ & _).
  destruct (i_cpu k I) as (t' & Ht' & Hs). rewrite Ht in Ht'. symmetry in Ht'. simplify_eq.
  cbn [exec]. unfold thread_exit.
  rewrite (bind_done _ _ _ false k) by (unfold intr_context, gets; by rewrite (b_ext k (i_base k I))).
  rewrite (assert_true _ _ _ eq_refl). rewrite (bind_done _ _ _ (intr_on k) (set_intr false k)) by done.
  rewrite (bind_done _ _ _ _ _ (thread_current_ok (set_intr false k) t Ht Hn Hm Hs)).
  rewrite (bind_done _ _ _ tt (set_all_list (filter (fun x => x <> cpu k) (all_list k)) (set_intr false k))) by done.
  rewrite (bind_done _ _ _ _ _ (update_thread_ok (set_all_list _ (set_intr false k)) (cpu k) t _ Ht)).
  match goal with |- context [schedule ?s] => destruct (leave_ok k s t THREAD_DYING I Ht) as (k' & E & I' & Sc) end; try done.
  - constructor; simpl; try done.
    + by left.
    + intros s x Hx. exists x. split_and!; [done..|by left].
    + intros _. split; [done|]. intros Hi. destruct (b_idle k (i_base k I)) as (u & Hu & _ & Hic).
      rewrite <- Hi, Ht in Hu. simplify_eq. by rewrite Hc in Hic.
  - by exists k'.
Qed.

Lemma block_state k t :
  in_external_intr k = false -> intr_on k = false -> threads k !! cpu k = Some t -> cpu k <> NULL ->
  magic t = THREAD_MAGIC -> status t = THREAD_RUNNING ->
  thread_block k = schedule (set_threads (<[cpu k := with_status THREAD_BLOCKED t]> (threads k)) k).
Proof.
  intros He Hoff Ht Hn Hm Hs. unfold thread_block.
  rewrite (bind_done _ _ _ false k) by (unfold intr_context, gets; by rewrite He). rewrite (assert_true _ _ _ eq_refl).
  rewrite (bind_done _ _ _ false k) by (unfold intr_get_level, gets; by rewrite Hoff). rewrite (assert_true _ _ _ eq_refl).
  rewrite (bind_done _ _ _ _ _ (thread_current_ok k t Ht Hn Hm Hs)).
  by rewrite (bind_done _ _ _ _ _ (update_thread_ok k (cpu k) t _ Ht)).
Qed.

Lemma exec_idle_loop k t rest ws :
  at_step k t IdleLoop rest -> cpu k = idle_thread k ->
  exists k', exec ws IdleLoop (popped k t rest) = Done (tt, k') /\ inv k'.
Proof.
  intros P Hi. step_facts P. specialize (Pidle Hi). destruct rest; [|done]. destruct (cpu_facts _ _ _ _ P) as [Hn Hm].
  set (k1 := set_intr false (popped k t [IdleHalt])).
  assert (I1 : inv k1) by (apply (control_ok k t IdleLoop [] k1 [IdleHalt] P); try done; by constructor).
  assert (Ht1 : threads k1 !! cpu k1 = Some (with_code [IdleHalt] t)) by (simpl; apply lookup_insert_eq).
  cbn [exec]. unfold idle_loop. rewrite (bind_done _ _ _ (intr_on k) (set_intr false (popped k t []))) by done.
  change (set_intr false (popped k t [])) with (popped (set_intr false k) t []).
  rewrite (bind_done _ _ _ _ _ (push_ok (set_intr false k) t [] [IdleHalt])). cbn [app].
  change (popped (set_intr false k) t [IdleHalt]) with k1.
  rewrite (block_state k1 _ Pext eq_refl Ht1 Hn Hm) by (by apply running in P).
  match goal with |- context [schedule ?s] => destruct (leave_ok k1 s _ THREAD_BLOCKED I1 Ht1) as (k' & E & I' & Sc) end; try done.
  - by apply running in P.
  - constructor; try done; [by left| |by intros _; left].
    intros s x Hx. exists x. split_and!; [done..|by left].
  - by exists k'.
Qed.

(** ** Semaphores *)

(** The semaphore [s] gets the value [v]; the tokens follow. *)
Lemma value_ok k t i rest k' c s x v :
  at_step k t i rest -> semas k !! s = Some x -> 0 <= v < 2 ^ 32 ->
  cpu k' = cpu k -> threads k' = <[cpu k := with_code c t]> (threads k) ->
  ready_list k' = ready_list k -> idle_thread k' = idle_thread k -> in_external_intr k' = in_external_intr k ->
  semas k' = <[s := mk_sema v (waiters x)]> (semas k) -> locks k' = locks k -> conds k' = conds k ->
  Forall (instr_ok k (cpu k)) c -> one_target c -> no_loop c -> disc (holds k (cpu k)) c ->
  target c = target (i :: rest) ->
  (forall l, is_Some (locks k !! l) -> weight l c = weight l (i :: rest) - (if decide (s = OfLock l) then v - value x else 0)) ->
  (cpu k = idle_thread k -> idle_code c) -> inv k'.
Proof.
  intros P Hx Hv Hcpu Hth Hr Hi He Hs Hl Hc Hok Hone Hnl Hd Htg Hw Hidle.
  pose proof (i_base k (p_inv _ _ _ _ P)) as B.
  assert (Hdom : forall s0, is_Some (semas k !! s0) -> is_Some (semas k' !! s0)).
  { intros s0 Hs0. rewrite Hs. destruct (decide (s0 = s)) as [->|]; [by rewrite lookup_insert_eq|by rewrite lookup_insert_ne]. }
  apply (continue_ok k t i rest k' (with_code c t) P); try done.
  - constructor; try done; rewrite ?Hl, ?Hc; try done.
    + intros s0 y Hy. rewrite Hs. destruct (decide (s0 = s)) as [->|].
      * exists (mk_sema v (waiters x)). rewrite lookup_insert_eq. split; [done|]. simpl. congruence.
      * exists y. by rewrite lookup_insert_ne.
    + intros s0 y. rewrite Hs. destruct (decide (s0 = s)) as [->|].
      * rewrite lookup_insert_eq. intros [= <-]. split; [done|]. right. by exists x.
      * rewrite lookup_insert_ne by done. intros Hy. split; [apply (b_sema k B s0 y Hy)|]. right. by exists y.
    + intros l h Hlh. by eapply Hdom, (b_locks k B).
    + intros c0 w0 a Hcw Ha. by eapply Hdom, (b_conds k B).
  - split_and!; [|done|by apply no_loop_tl|].
    + eapply Forall_impl; [exact Hok|]. intros j. apply instr_mono; [done|done|..]; intros ?; by rewrite ?Hl, ?Hc.
    + eapply disc_ext; [|exact Hd]. intros l. unfold holds. by rewrite Hl.
  - by left.
  - intros a l _ _. unfold holds. by rewrite Hl.
  - intros l h y. rewrite Hl, Hs, Hth, (total_insert l _ _ t) by apply (p_thread _ _ _ _ P). simpl code.
    intros Hlh Hy. rewrite Hw, <- (p_weight _ _ _ _ P) by done. destruct (decide (s = OfLock l)) as [->|Hne].
    + rewrite lookup_insert_eq in Hy. injection Hy as <-. simpl. pose proof (b_tokens k B l h x Hlh Hx). lia.
    + rewrite lookup_insert_ne in Hy by done. pose proof (b_tokens k B l h y Hlh Hy). lia.
Qed.

(** The value of a lock's semaphore. *)
Lemma lock_value k l h x : base k -> locks k !! l = Some h -> semas k !! OfLock l = Some x -> value x <= 1.
Proof.
  intros B Hl Hx. pose proof (b_tokens k B l h x Hl Hx). pose proof (base_total l k B). destruct (h =? NULL); lia.
Qed.

Lemma down_wait k t i rest s lv x :
  at_step k t i rest -> i = SemaDown s \/ i = SemaDownLoop s lv -> semas k !! s = Some x -> own (cpu k) s -> value x = 0 ->
  exists k', sema_down_loop s lv (set_intr false (popped k t rest)) = Done (tt, k') /\ inv k'.
Proof.
  intros P Hi Hx Hown Hv. step_facts P. destruct (cpu_facts _ _ _ _ P) as [Hn Hm]. pose proof (running _ _ _ _ P) as Hrun.
  set (k1 := set_intr false (popped k t (SemaDownLoop s lv :: rest))).
  assert (I1 : inv k1).
  { apply (control_gen k t i rest k1 (SemaDownLoop s lv :: rest) P); try done.
    - by constructor.
    - by destruct Hi; subst.
    - by right.
    - by destruct Hi; subst.
    - by destruct Hi; subst.
    - by destruct Hi; subst.
    - intros E. specialize (Pidle E). by destruct Hi; subst. }
  assert (Ht1 : threads k1 !! cpu k1 = Some (with_code (SemaDownLoop s lv :: rest) t)) by (simpl; apply lookup_insert_eq).
  unfold sema_down_loop. unfold load_sema at 1.
  rewrite (bind_done _ _ _ x (set_intr false (popped k t rest))) by (simpl; by rewrite Hx).
  rewrite Hv, Z.eqb_refl.
  rewrite (bind_done _ _ _ _ _ (current_ok (set_intr false k) t rest Hn Hm Hrun)).
  set (w := mk_sema 0 (waiters x ++ [cpu (set_intr false k)])).
  rewrite (bind_done _ _ _ tt (popped (set_semas (<[s := w]> (semas k)) (set_intr false k)) t rest)) by done.
  rewrite (bind_done _ _ _ _ _ (push_ok (set_semas (<[s := w]> (semas k)) (set_intr false k)) t rest [SemaDownLoop s lv])).
  cbn [app]. rewrite (block_state _ (with_code (SemaDownLoop s lv :: rest) t)) by (try done; apply lookup_insert_eq).
  match goal with |- context [schedule ?s] => destruct (leave_ok k1 s _ THREAD_BLOCKED I1 Ht1) as (k' & E & I' & Sc) end; try done.
  - constructor; try done; [by left| | |].
    + intros s' y Hy. cbn. destruct (decide (s' = s)) as [->|Hne].
      * exists w. rewrite lookup_insert_eq. cbn in Hy. rewrite Hx in Hy. injection Hy as <-. split_and!; [done..|]. right.
        split_and!; [done..|]. by exists lv, rest.
      * exists y. rewrite lookup_insert_ne by done. split_and!; [done..|by left].
    + intros s'. cbn. destruct (decide (s' = s)) as [->|Hne]; [by rewrite Hx|by rewrite lookup_insert_ne].
    + intros _. right. exists s, w. cbn. rewrite lookup_insert_eq. split; [done|]. apply elem_of_app. right. left.
  - by exists k'.
Qed.

Lemma down_take k t i rest s lv x :
  at_step k t i rest -> i = SemaDown s \/ i = SemaDownLoop s lv -> semas k !! s = Some x -> value x <> 0 ->
  exists k', sema_down_loop s lv (set_intr false (popped k t rest)) = Done (tt, k') /\ inv k'.
Proof.
  intros P Hi Hx Hv. step_facts P. pose proof (i_base k (p_inv _ _ _ _ P)) as B. destruct (b_sema k B s x Hx) as [Hr _].
  exists (set_intr lv (set_semas (<[s := mk_sema (value x - 1) (waiters x)]> (semas k)) (set_intr false (popped k t rest)))). split.
  - unfold sema_down_loop. unfold load_sema at 1.
    rewrite (bind_done _ _ _ x (set_intr false (popped k t rest))) by (simpl; by rewrite Hx).
    rewrite (proj2 (Z.eqb_neq _ _) Hv). erewrite bind_done; [|reflexivity].
    by rewrite (bind_done _ _ _ _ _ (set_level_ok (set_semas _ (set_intr false (popped k t rest))) lv Pext)).
  - apply (value_ok k t i rest _ rest s x (value x - 1) P Hx); try done.
    + lia.
    + by destruct Hi; subst.
    + destruct Hi; subst; cbn in Pdisc; destruct s; tauto.
    + by destruct Hi; subst.
    + intros l _. destruct Hi; subst; cbn [weight weight1]; destruct s; repeat case_decide; simplify_eq; try lia; done.
    + intros E. specialize (Pidle E). by destruct Hi; subst.
Qed.

Lemma exec_sema_down k t s rest ws :
  at_step k t (SemaDown s) rest -> is_Some (semas k !! s) -> own (cpu k) s ->
  exists k', exec ws (SemaDown s) (popped k t rest) = Done (tt, k') /\ inv k'.
Proof.
  intros P [x Hx] Hown. pose proof (not_external _ _ _ _ P) as He. cbn [exec]. unfold sema_down.
  rewrite (bind_done _ _ _ false (popped k t rest)) by (unfold intr_context, gets; simpl; by rewrite He).
  rewrite (assert_true _ _ _ eq_refl). rewrite (bind_done _ _ _ (intr_on k) (set_intr false (popped k t rest))) by done.
  destruct (Z.eq_dec (value x) 0).
  - eapply down_wait; eauto.
  - eapply down_take; eauto.
Qed.

Lemma exec_sema_down_loop k t s lv rest ws :
  at_step k t (SemaDownLoop s lv) rest -> is_Some (semas k !! s) -> own (cpu k) s ->
  exists k', exec ws (SemaDownLoop s lv) (popped k t rest) = Done (tt, k') /\ inv k'.
Proof.
  intros P [x Hx] Hown. cbn [exec]. pose proof (p_off _ _ _ _ P eq_refl) as Hoff.
  assert (E : popped k t rest = set_intr false (popped k t rest)) by (unfold set_intr; rewrite <- Hoff; by destruct k).
  rewrite E. destruct (Z.eq_dec (value x) 0).
  - eapply down_wait; eauto.
  - eapply down_take; eauto.
Qed.

(** The first waiter becomes ready. *)
Definition woken (k : kern) (s : sema_ref) (x : semaphore) (w : Z) (tw : thread) : kern :=
  set_threads (<[w := with_status THREAD_READY tw]> (threads k))
    (set_ready_list (ready_list k ++ [w]) (set_semas (<[s := mk_sema (value x) (tl (waiters x))]> (semas k)) k)).

Lemma base_woken k s x w tw :
  base k -> semas k !! s = Some x -> hd_error (waiters x) = Some w -> threads k !! w = Some tw -> base (woken k s x w tw).
Proof.
  intros B Hx Hw Htw. destruct (waiters x) as [|w' ws] eqn:Ew; [done|]. injection Hw as ->.
  assert (Hin : w ∈ waiters x) by (rewrite Ew; left).
  destruct (b_wait k B s x w Hx Hin) as (u & lv & c & Hu & Hb & Hc). rewrite Htw in Hu. symmetry in Hu. simplify_eq.
  destruct (b_sema k B s x Hx) as [Hv Hnd]. rewrite Ew in Hnd. apply NoDup_cons in Hnd as [Hnw Hnd].
  assert (Hnr : w ∉ ready_list k) by (intros Hr; destruct (b_ready k B w Hr) as (u & Hu & Hs & _); congruence).
  assert (Hni : w <> idle_thread k) by (by apply (waiter_not_idle k s x)).
  assert (Hother : forall s0 y, s0 <> s -> semas k !! s0 = Some y -> w ∉ waiters y)
    by (intros s0 y Hne Hy Hwy; destruct Hne; by apply (waiter_unique k s0 s y x w)).
  assert (Hsema : forall s0 y, semas (woken k s x w tw) !! s0 = Some y -> exists z, semas k !! s0 = Some z /\
    value y = value z /\ w ∉ waiters y /\ (forall a, a ∈ waiters y -> a ∈ waiters z) /\
    (forall a, a ∈ waiters z -> a = w \/ a ∈ waiters y) /\ NoDup (waiters y)).
  { intros s0 y. simpl. rewrite Ew. simpl. destruct (decide (s0 = s)) as [->|Hne].
    - rewrite lookup_insert_eq. intros [= <-]. exists x. rewrite Ew. simpl. split_and!; try done.
      + intros a Ha. by right.
      + intros a. by rewrite elem_of_cons.
    - rewrite lookup_insert_ne by done. intros Hy. exists y. split_and!; try done; [by apply (Hother s0)|by right|apply (b_sema k B s0 y Hy)]. }
  assert (Hdom : forall s0, is_Some (semas (woken k s x w tw) !! s0) <-> is_Some (semas k !! s0)).
  { intros s0. simpl. destruct (decide (s0 = s)) as [->|Hne]; [rewrite lookup_insert_eq, Hx; done|by rewrite lookup_insert_ne]. }
  apply (base_moved k _ w tw THREAD_READY B); try done.
  - constructor; try done. intros s0 y y' Hy Hy'. destruct (Hsema s0 y' Hy') as (z & Hz & Hvz & _). congruence.
  - simpl. apply NoDup_app. split_and!; [apply (b_nodup k B)| |apply NoDup_singleton].
    intros a Ha Hc'. apply list_elem_of_singleton in Hc'. by subst.
  - intros a. simpl. rewrite elem_of_app, list_elem_of_singleton. intros [Ha| ->].
    + rewrite lookup_insert_ne by (intros <-; done). by apply (b_ready k B).
    + exists (with_status THREAD_READY tw). by rewrite lookup_insert_eq.
  - intros a u. simpl. rewrite elem_of_app, list_elem_of_singleton. destruct (decide (a = w)) as [->|Hne]; [by left; right|].
    rewrite lookup_insert_ne by done. intros Ha Hs. destruct (b_listed k B a u Ha Hs); [by left; left|by right].
  - intros s0 y Hy. by destruct (Hsema s0 y Hy) as (z & _ & _ & _ & _ & _ & ?).
  - intros s0 y a Hy Ha. destruct (Hsema s0 y Hy) as (z & Hz & _ & Hnwy & Hsub & _). simpl.
    rewrite lookup_insert_ne by (intros <-; done). apply (b_wait k B s0 z a Hz), Hsub, Ha.
  - intros a u. simpl. destruct (decide (a = w)) as [->|Hne]; [rewrite lookup_insert_eq; by intros [= <-]|].
    rewrite lookup_insert_ne by done. intros Ha Hs. destruct (b_blocked k B a u Ha Hs) as [?|[(s0 & z & Hz & Haz)|?]]; auto.
    right. left. destruct (proj2 (Hdom s0) (ex_intro _ z Hz)) as [y Hy]. exists s0, y. split; [done|].
    destruct (Hsema s0 y Hy) as (z' & Hz' & _ & _ & _ & Hback & _). rewrite Hz in Hz'. simplify_eq.
    by destruct (Hback a Haz).
  - by apply (waiter_not_newborn k s x).
Qed.

Lemma woken_step k t i rest s x w tw :
  at_step k t i rest -> semas k !! s = Some x -> hd_error (waiters x) = Some w -> threads k !! w = Some tw ->
  w <> cpu k /\ at_step (woken k s x w tw) t i rest.
Proof.
  intros P Hx Hw Htw. pose proof (p_inv _ _ _ _ P) as I. pose proof (i_base k I) as B. pose proof (p_thread _ _ _ _ P) as Ht.
  assert (Hin : w ∈ waiters x) by (destruct (waiters x); [done|]; injection Hw as ->; left).
  assert (Hne : w <> cpu k).
  { intros ->. by apply (runner_not_waiting k t s x B Ht (running _ _ _ _ P) Hx). }
  split; [done|].
  assert (Htn : threads (woken k s x w tw) !! cpu k = Some t) by (simpl; by rewrite lookup_insert_ne).
  constructor; try apply P; try done.
  - constructor.
    + by apply base_woken.
    + exists t. split; [done|]. by apply (running k t i rest).
    + intros a u. simpl. destruct (decide (a = w)) as [->|Hn]; [rewrite lookup_insert_eq; by intros [= <-]|].
      rewrite lookup_insert_ne by done. apply (i_running k I).
    + intros u s0 lv c Hu. apply (i_top k I). simpl in Hu. rewrite lookup_insert_ne in Hu by done. exact Hu.
  - eapply Forall_impl; [apply (p_code _ _ _ _ P)|]. intros j. apply instr_mono; try done.
    intros s0 Hs0. simpl. destruct (decide (s0 = s)) as [->|]; [by rewrite lookup_insert_eq|by rewrite lookup_insert_ne].
Qed.

Lemma up_value k t s rest x k' :
  at_step k t (SemaUp s) rest -> semas k !! s = Some x ->
  cpu k' = cpu k -> threads k' = <[cpu k := with_code rest t]> (threads k) ->
  ready_list k' = ready_list k -> idle_thread k' = idle_thread k -> in_external_intr k' = in_external_intr k ->
  semas k' = <[s := mk_sema (u32 (value x + 1)) (waiters x)]> (semas k) -> locks k' = locks k -> conds k' = conds k ->
  inv k'.
Proof.
  intros P Hx Hcpu Hth Hr Hi He Hs Hl Hc. step_facts P. pose proof (i_base k (p_inv _ _ _ _ P)) as B.
  apply (value_ok k t (SemaUp s) rest k' rest s x (u32 (value x + 1)) P Hx); try done.
  - apply u32_range.
  - intros l [h Hlh]. cbn [weight weight1]. destruct (decide (s = OfLock l)) as [->|Hne].
    + rewrite decide_True by done. pose proof (lock_value k l h x B Hlh Hx). destruct (b_sema k B _ x Hx) as [? _].
      rewrite u32_small; lia.
    + destruct s; try case_decide; simplify_eq; lia.
Qed.

(** [thread_unblock] of a thread that waits. *)
Lemma unblock_ok k w tw :
  threads k !! w = Some tw -> w <> NULL -> magic tw = THREAD_MAGIC -> status tw = THREAD_BLOCKED ->
  in_external_intr k = false ->
  thread_unblock w k = Done (tt, set_threads (<[w := with_status THREAD_READY tw]> (threads k)) (set_ready_list (ready_list k ++ [w]) k)).
Proof.
  intros Hw Hn Hm Hs He. unfold thread_unblock. rewrite (bind_done _ _ _ _ _ (is_thread_ok k w tw Hw Hn Hm)).
  rewrite (assert_true _ _ _ eq_refl). rewrite (bind_done _ _ _ (intr_on k) (set_intr false k)) by done.
  rewrite (bind_done _ _ _ tw (set_intr false k)) by (unfold load_thread; simpl; by rewrite Hw).
  rewrite (assert_true _ _ _ (bool_decide_eq_true_2 _ Hs)).
  rewrite (bind_done _ _ _ tt (set_ready_list (ready_list k ++ [w]) (set_intr false k))) by done.
  rewrite (bind_done _ _ _ _ _ (update_thread_ok (set_ready_list _ (set_intr false k)) w tw _ Hw)).
  erewrite bind_done; [|by apply set_level_ok]. by destruct k.
Qed.

Lemma exec_sema_up k t s rest ws :
  at_step k t (SemaUp s) rest -> is_Some (semas k !! s) ->
  exists k', exec ws (SemaUp s) (popped k t rest) = Done (tt, k') /\ inv k'.
Proof.
  intros P [x Hx]. pose proof (not_external _ _ _ _ P) as He. cbn [exec]. unfold sema_up.
  rewrite (bind_done _ _ _ (intr_on k) (set_intr false (popped k t rest))) by done.
  unfold load_sema at 1. rewrite (bind_done _ _ _ x (set_intr false (popped k t rest))) by (simpl; by rewrite Hx).
  destruct (waiters x) as [|w l] eqn:Ew.
  - rewrite bind_ret. unfold load_sema at 1. rewrite (bind_done _ _ _ x (set_intr false (popped k t rest))) by (simpl; by rewrite Hx).
    erewrite bind_done; [|reflexivity]. erewrite bind_done; [|by apply set_level_ok]. eexists. split; [done|].
    by apply (up_value k t s rest x _ P Hx).
  - destruct (b_wait k (i_base k (p_inv _ _ _ _ P)) s x w Hx) as (tw & lv & c & Htw & Hb & Hc); [rewrite Ew; left|].
    assert (Hw : hd_error (waiters x) = Some w) by (by rewrite Ew).
    destruct (woken_step k t _ rest s x w tw P Hx Hw Htw) as [Hne P'].
    destruct (b_thread k (i_base k (p_inv _ _ _ _ P)) w tw Htw) as (Hn & Hm & _).
    set (k1 := set_semas (<[s := mk_sema (value x) l]> (semas k)) (set_intr false (popped k t rest))).
    assert (Hk1 : threads k1 !! w = Some tw) by (simpl; by rewrite lookup_insert_ne).
    erewrite bind_done; [|erewrite bind_done; [|reflexivity]; by apply (unblock_ok k1 w tw)].
    unfold load_sema at 1. erewrite bind_done; [|cbn [semas set_threads set_ready_list set_semas k1]; rewrite lookup_insert_eq; reflexivity].
    erewrite bind_done; [|reflexivity]. erewrite bind_done; [|by apply set_level_ok]. eexists. split; [done|].
    apply (up_value (woken k s x w tw) t s rest (mk_sema (value x) l) _ P'); try done; simpl; rewrite ?Ew; try done.
    + apply lookup_insert_eq.
    + by rewrite insert_insert_ne.
Qed.

Lemma try_down_ok k s x :
  in_external_intr k = false -> semas k !! s = Some x ->
  sema_try_down s k = Done (0 <? value x,
    if 0 <? value x then set_semas (<[s := mk_sema (value x - 1) (waiters x)]> (semas k)) k else k).
Proof.
  intros He Hx. unfold sema_try_down. rewrite (bind_done _ _ _ (intr_on k) (set_intr false k)) by done.
  rewrite (bind_done _ _ _ x (set_intr false k)) by (unfold load_sema; simpl; by rewrite Hx). destruct (0 <? value x).
  - erewrite bind_done; [|reflexivity]. erewrite bind_done; [|by apply set_level_ok]. by destruct k.
  - rewrite bind_ret. erewrite bind_done; [|by apply set_level_ok]. by destruct k.
Qed.

Lemma exec_sema_try_down k t a ws :
  at_step k t (SemaTryDown (SemaAt a)) [] -> is_Some (semas k !! SemaAt a) ->
  exists k', exec ws (SemaTryDown (SemaAt a)) (popped k t []) = Done (tt, k') /\ inv k'.
Proof.
  intros P [x Hx]. step_facts P. pose proof (i_base k (p_inv _ _ _ _ P)) as B. destruct (b_sema k B _ x Hx) as [Hr _].
  cbn [exec]. rewrite (bind_done _ _ _ _ _ (try_down_ok (popped k t []) (SemaAt a) x Pext Hx)). eexists. split; [done|].
  destruct (Z.ltb_spec 0 (value x)).
  - apply (value_ok k t _ [] _ [] (SemaAt a) x (value x - 1) P Hx); try done. lia.
  - by apply (control_ok k t _ [] _ [] P).
Qed.

(** ** Locks *)

Lemma exec_lock_acquire k t l rest ws :
  at_step k t (LockAcquire l) rest -> is_Some (locks k !! l) ->
  exists k', exec ws (LockAcquire l) (popped k t rest) = Done (tt, k') /\ inv k'.
Proof.
  intros P [h Hl]. step_facts P. destruct Pdisc as [Hheld Pdisc]. cbn [exec]. unfold lock_acquire.
  rewrite (bind_done _ _ _ false (popped k t rest)) by (unfold intr_context, gets; simpl; by rewrite Pext).
  rewrite (assert_true _ _ _ eq_refl), (bind_done _ _ _ _ _ (held_popped k t _ rest l h P Hl)).
  rewrite (assert_true _ _ _ (f_equal negb Hheld)), push_ok. eexists. split; [done|].
  pose proof (b_locks k (i_base k (p_inv _ _ _ _ P)) l h Hl) as Hs.
  apply (control_ok k t (LockAcquire l) rest _ ([SemaDown (OfLock l); SetHolder l] ++ rest) P); try done.
  - constructor; [done|]. constructor; [by exists h|done].
  - intros l'. cbn. case_decide; lia.
Qed.

(** While an acquisition is completed nobody holds the lock. *)
Lemma holder_null k t l rest h :
  at_step k t (SetHolder l) rest -> locks k !! l = Some h -> h = NULL.
Proof.
  intros P Hl. pose proof (i_base k (p_inv _ _ _ _ P)) as B. destruct (b_locks k B l h Hl) as [x Hx].
  pose proof (b_tokens k B l h x Hl Hx) as Htok. destruct (b_sema k B _ x Hx) as [Hv _].
  pose proof (total_member l k _ t B (p_thread _ _ _ _ P)) as Hm. rewrite (p_weight _ _ _ _ P) in Hm. step_facts P.
  cbn [weight weight1] in Hm. rewrite decide_True in Hm by done.
  pose proof (disc_weight _ rest l (proj2 Pdisc)). destruct (Z.eqb_spec h NULL); [done|lia].
Qed.

(** The holder of a lock changes from or to the running thread. *)
Lemma holder_ok k t i rest k' c l h h' :
  at_step k t i rest -> locks k !! l = Some h -> (forall a, a <> cpu k -> a <> NULL -> a <> h /\ a <> h') ->
  cpu k' = cpu k -> threads k' = <[cpu k := with_code c t]> (threads k) ->
  ready_list k' = ready_list k -> idle_thread k' = idle_thread k -> in_external_intr k' = in_external_intr k ->
  semas k' = semas k -> locks k' = <[l := h']> (locks k) -> conds k' = conds k ->
  Forall (instr_ok k (cpu k)) c -> one_target c -> no_loop c ->
  disc (fun x => if decide (x = l) then bool_decide (h' = cpu k) else holds k (cpu k) x) c ->
  target c = target (i :: rest) ->
  (forall l', weight l' c = weight l' (i :: rest) +
     (if decide (l = l') then (if h =? NULL then 0 else 1) - (if h' =? NULL then 0 else 1) else 0)) ->
  cpu k <> idle_thread k -> inv k'.
Proof.
  intros P Hlk Hh Hcpu Hth Hr Hi He Hs Hl Hc Hok Hone Hnl Hd Htg Hw Hidle.
  pose proof (i_base k (p_inv _ _ _ _ P)) as B.
  assert (Hdom : forall l0, is_Some (locks k !! l0) -> is_Some (locks k' !! l0)).
  { intros l0 Hl0. rewrite Hl. destruct (decide (l0 = l)) as [->|]; [by rewrite lookup_insert_eq|by rewrite lookup_insert_ne]. }
  assert (Hholds : forall a l0, holds k' a l0 = if decide (l0 = l) then bool_decide (h' = a) else holds k a l0).
  { intros a l0. unfold holds. rewrite Hl. destruct (decide (l0 = l)) as [->|]; [rewrite lookup_insert_eq|by rewrite lookup_insert_ne].
    apply bool_decide_ext. split; [by intros [= ->]|by intros ->]. }
  apply (continue_ok k t i rest k' (with_code c t) P); try done.
  - constructor; try done; rewrite ?Hs, ?Hc; try done.
    + intros s x Hx. by exists x.
    + intros s x Hx. split; [apply (b_sema k B s x Hx)|]. right. by exists x.
    + intros l0 h0. rewrite Hl. destruct (decide (l0 = l)) as [->|]; [intros _; by apply (b_locks k B l h)|].
      rewrite lookup_insert_ne by done. apply (b_locks k B).
    + apply (b_conds k B).
  - split_and!; [|done|by apply no_loop_tl|].
    + eapply Forall_impl; [exact Hok|]. intros j. apply instr_mono; [done|by rewrite Hs|done|by rewrite Hc].
    + eapply disc_ext; [|exact Hd]. intros l0. by rewrite Hholds.
  - by left.
  - intros a l0 Ha Hn. rewrite Hholds. destruct (decide (l0 = l)) as [->|]; [|done]. destruct (Hh a Ha Hn) as [H1 H2].
    unfold holds. rewrite Hlk, !bool_decide_false; congruence.
  - intros l0 h0 x. rewrite Hl, Hs, Hth, (total_insert l0 _ _ t) by apply (p_thread _ _ _ _ P). simpl code.
    intros Hlh Hx. rewrite Hw, <- (p_weight _ _ _ _ P). destruct (decide (l = l0)) as [->|Hne].
    + rewrite lookup_insert_eq in Hlh. injection Hlh as <-. pose proof (b_tokens k B l0 h x Hlk Hx). lia.
    + rewrite lookup_insert_ne in Hlh by done. pose proof (b_tokens k B l0 h0 x Hlh Hx). lia.
Qed.

Lemma exec_set_holder k t l rest ws :
  at_step k t (SetHolder l) rest -> is_Some (locks k !! l) ->
  exists k', exec ws (SetHolder l) (popped k t rest) = Done (tt, k') /\ inv k'.
Proof.
  intros P [h Hl]. pose proof (holder_null k t l rest h P Hl) as ->. step_facts P. destruct Pdisc as [Hheld Pdisc].
  destruct (cpu_facts _ _ _ _ P) as [Hn _]. cbn [exec]. unfold set_holder.
  rewrite (bind_done _ _ _ _ _ (current_popped k t _ rest rest P)). eexists. split; [done|].
  apply (holder_ok k t (SetHolder l) rest _ rest l NULL (cpu k) P Hl); try done.
  - eapply disc_ext; [|exact Pdisc]. intros x. simpl. case_decide; [|done]. by rewrite bool_decide_true.
  - intros l'. cbn [weight weight1]. rewrite (proj2 (Z.eqb_neq _ _) Hn), Z.eqb_refl. repeat case_decide; lia.
Qed.

Lemma exec_lock_release k t l rest ws :
  at_step k t (LockRelease l) rest -> exists k', exec ws (LockRelease l) (popped k t rest) = Done (tt, k') /\ inv k'.
Proof.
  intros P. step_facts P. destruct Pdisc as [Hheld Pdisc]. pose proof Hheld as Hl. apply bool_decide_eq_true in Hl.
  destruct (cpu_facts _ _ _ _ P) as [Hn _]. cbn [exec]. unfold lock_release.
  rewrite (bind_done _ _ _ _ _ (held_popped k t _ rest l _ P Hl)), Hheld, (assert_true _ _ _ eq_refl).
  rewrite (bind_done _ _ _ tt (popped (set_locks (<[l := NULL]> (locks k)) k) t rest)) by done. rewrite push_ok.
  eexists. split; [done|].
  apply (holder_ok k t (LockRelease l) rest _ (SemaUp (OfLock l) :: rest) l (cpu k) NULL P Hl); try done.
  - constructor; [|done]. by apply (b_locks k (i_base k (p_inv _ _ _ _ P)) l (cpu k)).
  - cbn [disc]. eapply disc_ext; [|exact Pdisc]. intros x. simpl. case_decide; [|done]. rewrite bool_decide_false; congruence.
  - intros l'. cbn [weight weight1]. rewrite (proj2 (Z.eqb_neq _ _) Hn), Z.eqb_refl. repeat case_decide; lia.
Qed.

Lemma exec_lock_try_acquire k t l ws :
  at_step k t (LockTryAcquire l) [] -> is_Some (locks k !! l) -> holds k (cpu k) l = false ->
  exists k', exec ws (LockTryAcquire l) (popped k t []) = Done (tt, k') /\ inv k'.
Proof.
  intros P [h Hl] Hheld. step_facts P. pose proof (i_base k (p_inv _ _ _ _ P)) as B.
  destruct (b_locks k B l h Hl) as [x Hx]. destruct (b_sema k B _ x Hx) as [Hr _].
  cbn [exec]. unfold lock_try_acquire.
  rewrite (bind_done _ _ _ (0 <? value x) (popped (if 0 <? value x then set_semas (<[OfLock l := mk_sema (value x - 1) (waiters x)]> (semas k)) k else k) t
    (if 0 <? value x then [SetHolder l] else []))).
  2:{ rewrite (bind_done _ _ _ _ _ (held_popped k t _ [] l h P Hl)), Hheld, (assert_true _ _ _ eq_refl).
      rewrite (bind_done _ _ _ _ _ (try_down_ok (popped k t []) (OfLock l) x Pext Hx)). destruct (0 <? value x); [|done].
      change (set_semas ?m (popped k t [])) with (popped (set_semas m k) t []). erewrite bind_done; [|apply push_ok]. done. }
  eexists. split; [done|]. destruct (Z.ltb_spec 0 (value x)).
  - apply (value_ok k t _ [] _ [SetHolder l] (OfLock l) x (value x - 1) P Hx); try done; [lia|constructor; [by exists h|done]|].
    intros l' _. cbn. destruct (decide (l = l')) as [->|Hne]; [rewrite decide_True by done; lia|]. rewrite decide_False; [lia|congruence].
  - by apply (control_ok k t _ [] _ [] P).
Qed.

(** ** Condition variables *)

Lemma conds_ok k t i rest k' code' c w :
  at_step k t i rest -> is_Some (conds k !! c) ->
  cpu k' = cpu k -> threads k' = <[cpu k := with_code code' t]> (threads k) ->
  ready_list k' = ready_list k -> idle_thread k' = idle_thread k -> in_external_intr k' = in_external_intr k ->
  (semas k' = semas k \/ semas k' = <[OfWaiter (cpu k) := mk_sema 0 []]> (semas k)) ->
  locks k' = locks k -> conds k' = <[c := w]> (conds k) -> (forall a, a ∈ w -> is_Some (semas k' !! OfWaiter a)) ->
  Forall (instr_ok k' (cpu k)) code' -> one_target code' -> no_loop code' -> disc (holds k (cpu k)) code' ->
  target code' = target (i :: rest) -> (forall l, weight l code' = weight l (i :: rest)) ->
  cpu k <> idle_thread k -> inv k'.
Proof.
  intros P Hcw Hcpu Hth Hr Hi He Hs Hl Hc Hw Hok Hone Hnl Hd Htg Hwt Hidle.
  pose proof (i_base k (p_inv _ _ _ _ P)) as B.
  assert (Hemp : forall x, semas k !! OfWaiter (cpu k) = Some x -> waiters x = []).
  { intros x Hx. destruct (waiters x) as [|a l] eqn:E; [done|]. exfalso.
    destruct (b_wait k B (OfWaiter (cpu k)) x a Hx) as (u & lv & cc & Hu & Hb & Hcc); [rewrite E; left|].
    destruct (b_thread k B a u Hu) as (_ & _ & (Hf & _) & _). rewrite Hcc in Hf. apply Forall_cons in Hf as [[_ Hown] _].
    simpl in Hown. subst. pose proof (running _ _ _ _ P). rewrite (p_thread _ _ _ _ P) in Hu. congruence. }
  assert (Hsema : forall s x, semas k !! s = Some x -> exists x', semas k' !! s = Some x' /\ waiters x' = waiters x).
  { intros s x Hx. destruct Hs as [->| ->]; [by exists x|]. destruct (decide (s = OfWaiter (cpu k))) as [->|Hne].
    - exists (mk_sema 0 []). rewrite lookup_insert_eq. split; [done|]. by rewrite (Hemp x Hx).
    - exists x. by rewrite lookup_insert_ne. }
  assert (Hdom : forall s, is_Some (semas k !! s) -> is_Some (semas k' !! s)).
  { intros s [x Hx]. destruct (Hsema s x Hx) as (x' & Hx' & _). by exists x'. }
  apply (continue_ok k t i rest k' (with_code code' t) P); try done.
  - constructor; try done; rewrite ?Hl; try done.
    + intros s x. destruct Hs as [->| ->].
      * intros Hx. split; [apply (b_sema k B s x Hx)|]. right. by exists x.
      * destruct (decide (s = OfWaiter (cpu k))) as [->|Hne].
        -- rewrite lookup_insert_eq. intros [= <-]. split; [simpl; lia|by left].
        -- rewrite lookup_insert_ne by done. intros Hx. split; [apply (b_sema k B s x Hx)|]. right. by exists x.
    + intros l h Hlh. by eapply Hdom, (b_locks k B).
    + intros c0. rewrite Hc. destruct (decide (c0 = c)) as [->|]; [by rewrite lookup_insert_eq|by rewrite lookup_insert_ne].
    + intros c0 w0 a. rewrite Hc. destruct (decide (c0 = c)) as [->|].
      * rewrite lookup_insert_eq. intros [= <-]. apply Hw.
      * rewrite lookup_insert_ne by done. intros Hc0 Ha. by eapply Hdom, (b_conds k B).
  - split_and!; [done|done|by apply no_loop_tl|]. eapply disc_ext; [|exact Hd]. intros l. unfold holds. by rewrite Hl.
  - by left.
  - intros a l _ _. unfold holds. by rewrite Hl.
  - apply (tokens_same k t i rest k' (with_code code' t) P); try done.
    intros l. destruct Hs as [->| ->]; [done|]. by rewrite lookup_insert_ne.
Qed.

Lemma exec_cond_wait k t c l ws :
  at_step k t (CondWait c l) [] -> is_Some (conds k !! c) -> holds k (cpu k) l = true ->
  exists k', exec ws (CondWait c l) (popped k t []) = Done (tt, k') /\ inv k'.
Proof.
  intros P [w Hw] Hheld. step_facts P. pose proof Hheld as Hl. apply bool_decide_eq_true in Hl.
  pose proof (i_base k (p_inv _ _ _ _ P)) as B. cbn [exec]. unfold cond_wait.
  rewrite (bind_done _ _ _ false (popped k t [])) by (unfold intr_context, gets; simpl; by rewrite Pext).
  rewrite (assert_true _ _ _ eq_refl), (bind_done _ _ _ _ _ (held_popped k t _ [] l _ P Hl)), Hheld, (assert_true _ _ _ eq_refl).
  rewrite (bind_done _ _ _ (cpu k) (popped k t [])) by done.
  set (k1 := set_semas (<[OfWaiter (cpu k) := mk_sema 0 []]> (semas k)) k).
  rewrite (bind_done _ _ _ tt (popped k1 t [])) by done.
  rewrite (bind_done _ _ _ w (popped k1 t [])) by (unfold load_cond; simpl; by rewrite Hw).
  rewrite (bind_done _ _ _ tt (popped (set_conds (<[c := w ++ [cpu k]]> (conds k)) k1) t [])) by done.
  rewrite push_ok. eexists. split; [done|].
  apply (conds_ok k t (CondWait c l) [] _ ([LockRelease l; SemaDown (OfWaiter (cpu k)); LockAcquire l] ++ []) c (w ++ [cpu k]) P); try done.
  - by right.
  - intros a. rewrite elem_of_app, list_elem_of_singleton. simpl. destruct (decide (a = cpu k)) as [->|Hne].
    + intros _. by rewrite lookup_insert_eq.
    + intros [Ha|Ha]; [|done]. rewrite lookup_insert_ne by congruence. by apply (b_conds k B c w a).
  - cbn [app]. constructor; [by exists (cpu k)|]. constructor; [|constructor; [by exists (cpu k)|done]].
    simpl. rewrite lookup_insert_eq. done.
  - simpl. rewrite Hheld. split_and!; [done| |done]. by rewrite decide_True.
Qed.

Lemma exec_cond_signal k t c l rest ws :
  at_step k t (CondSignal c l) rest -> is_Some (conds k !! c) ->
  exists k', exec ws (CondSignal c l) (popped k t rest) = Done (tt, k') /\ inv k'.
Proof.
  intros P [w Hw]. step_facts P. destruct Pdisc as [Hheld Pdisc]. pose proof Hheld as Hl. apply bool_decide_eq_true in Hl.
  pose proof (i_base k (p_inv _ _ _ _ P)) as B. cbn [exec]. unfold cond_signal.
  rewrite (bind_done _ _ _ false (popped k t rest)) by (unfold intr_context, gets; simpl; by rewrite Pext).
  rewrite (assert_true _ _ _ eq_refl), (bind_done _ _ _ _ _ (held_popped k t _ rest l _ P Hl)), Hheld, (assert_true _ _ _ eq_refl).
  rewrite (bind_done _ _ _ w (popped k t rest)) by (unfold load_cond; simpl; by rewrite Hw).
  destruct w as [|a w].
  - eexists. split; [done|]. by apply (control_ok k t (CondSignal c l) rest _ rest P).
  - rewrite (bind_done _ _ _ tt (popped (set_conds (<[c := w]> (conds k)) k) t rest)) by done. rewrite push_ok.
    eexists. split; [done|].
    apply (conds_ok k t (CondSignal c l) rest _ ([SemaUp (OfWaiter a)] ++ rest) c w P); try done.
    + by left.
    + intros b Hb. apply (b_conds k B c (a :: w) b Hw). by right.
    + constructor; [apply (b_conds k B c (a :: w) a Hw); left|].
      eapply Forall_impl; [exact Pcode|]. intros j. apply instr_mono; try done. intros c0. simpl.
      destruct (decide (c0 = c)) as [->|]; [by rewrite lookup_insert_eq|by rewrite lookup_insert_ne].
Qed.

Lemma exec_cond_broadcast k t c l rest ws :
  at_step k t (CondBroadcast c l) rest -> is_Some (conds k !! c) -> is_Some (locks k !! l) ->
  exists k', exec ws (CondBroadcast c l) (popped k t rest) = Done (tt, k') /\ inv k'.
Proof.
  intros P [w Hw] Hl. step_facts P. destruct Pdisc as [Hheld Pdisc]. cbn [exec]. unfold cond_broadcast.
  rewrite (bind_done _ _ _ w (popped k t rest)) by (unfold load_cond; simpl; by rewrite Hw).
  destruct w as [|a w].
  - eexists. split; [done|]. by apply (control_ok k t (CondBroadcast c l) rest _ rest P).
  - rewrite push_ok. eexists. split; [done|].
    apply (control_ok k t (CondBroadcast c l) rest _ ([CondSignal c l; CondBroadcast c l] ++ rest) P); try done.
    assert (Hc : is_Some (conds k !! c)) by (by exists (a :: w)). by repeat constructor.
Qed.
