(* ===== verification/SchedCreate.v ===== *)
(** * Creation of threads

    [thread_create] makes a blocked thread that only its creator knows; the
    thread gets its identifier, its frames and its wait status, and is then put
    on the run queue.  The lemmas here say that each of these steps keeps the
    invariant. *)

From stdpp Require Import options.
From S2P Require Import Prelude KList Kernel SchedInv SchedStep.
Local Open Scope Z_scope.
Local Open Scope kernel_scope.

Lemma code_ok_same k k' a c :
  idle_thread k' = idle_thread k -> semas k' = semas k -> locks k' = locks k -> conds k' = conds k ->
  code_ok k a c -> code_ok k' a c.
Proof.
  intros Hi Hs Hl Hc (H1 & [H2 H2'] & H3). split_and!; [|done|done|].
  - eapply Forall_impl; [exact H1|]. intros i. apply instr_mono; rewrite ?Hs, ?Hl, ?Hc; done.
  - eapply disc_ext; [|exact H3]. intros l. unfold holds. by rewrite Hl.
Qed.

(** ** The new thread becomes ready *)

Definition released (k : kern) (t : thread) (rest : list instr) (a : Z) (u : thread) : kern :=
  set_threads (<[a := with_status THREAD_READY u]> (<[cpu k := with_code rest t]> (threads k)))
    (set_ready_list (ready_list k ++ [a]) k).

Section release.
Context (k : kern) (t : thread) (rest : list instr) (a : Z) (u : thread).
Context (P : at_step k t (ThreadUnblock a) rest) (Hu : threads k !! a = Some u).
Local Notation k' := (released k t rest a u).

Let I : inv k := p_inv _ _ _ _ P.
Let B : base k := i_base k I.
Let Ht : threads k !! cpu k = Some t := p_thread _ _ _ _ P.

Lemma release_creating : creating k (cpu k) a.
Proof using P. exists t. split; [exact Ht|]. by rewrite (p_target _ _ _ _ P). Qed.

Lemma release_newborn :
  a <> cpu k /\ status u = THREAD_BLOCKED /\ a <> idle_thread k /\ (code u = [] \/ code u = [KernelThread]) /\ a ∉ ready_list k.
Proof using P Hu.
  destruct (b_newborn k B _ _ release_creating) as (v & Hv & Hb & Hi & Hc). rewrite Hu in Hv. symmetry in Hv. simplify_eq.
  split_and!; try done.
  - intros ->. rewrite Ht in Hu. pose proof (running _ _ _ _ P). congruence.
  - intros Hr. destruct (b_ready k B a Hr) as (v & Hv & Hs & _). congruence.
Qed.

Lemma release_lookup b v : threads k' !! b = Some v ->
  b = a /\ v = with_status THREAD_READY u \/ b = cpu k /\ v = with_code rest t \/
  b <> a /\ b <> cpu k /\ threads k !! b = Some v.
Proof using P Hu.
  simpl. destruct (decide (b = a)) as [->|H1]; [rewrite lookup_insert_eq; intros [= <-]; by left|].
  rewrite lookup_insert_ne by done. destruct (decide (b = cpu k)) as [->|H2]; [rewrite lookup_insert_eq; intros [= <-]; by right; left|].
  rewrite lookup_insert_ne by done. intros Hb. by right; right.
Qed.

Lemma release_other b v : threads k !! b = Some v -> b <> a -> b <> cpu k -> threads k' !! b = Some v.
Proof using P. intros Hb H1 H2. simpl. by rewrite !lookup_insert_ne. Qed.

Lemma release_target c b : creating k' c b <-> creating k c b /\ c <> cpu k.
Proof using P Hu.
  destruct release_newborn as (Hne & Hs & _ & Hco & _). pose proof (p_one _ _ _ _ P) as [Hnone _]. split.
  - intros (v & Hv & Htg). destruct (release_lookup c v Hv) as [[-> ->]|[[-> ->]|(H1 & H2 & Hc)]].
    + simpl in Htg. by destruct Hco as [E|E]; rewrite E in Htg.
    + simpl in Htg. congruence.
    + split; [by exists v|done].
  - intros [(v & Hv & Htg) Hc]. exists v. split; [|done]. apply release_other; [done| |done]. intros ->.
    rewrite Hu in Hv. simplify_eq. by destruct Hco as [E|E]; rewrite E in Htg.
Qed.

Lemma base_released : base k'.
Proof using P Hu.
  destruct release_newborn as (Hne & Hs & Hi & Hco & Hnr). pose proof (running _ _ _ _ P) as Hrun. constructor.
  - intros b v Hv. destruct (release_lookup b v Hv) as [[-> ->]|[[-> ->]|(_ & _ & Hb)]].
    + destruct (b_thread k B a u Hu) as (? & ? & ? & ?). split_and!; [done..|by eapply code_ok_same|done].
    + destruct (b_thread k B _ t Ht) as (? & ? & ? & ?). split_and!; [done..| |simpl; congruence].
      pose proof (p_one _ _ _ _ P) as [_ Hone]. eapply (code_ok_same k); try done. simpl.
      split_and!; [apply (p_code _ _ _ _ P)|done|apply no_loop_tl, (p_loop _ _ _ _ P)|apply (p_disc _ _ _ _ P)].
    + destruct (b_thread k B b v Hb) as (? & ? & ? & ?). split_and!; [done..|by eapply code_ok_same|done].
  - simpl. apply NoDup_app. split_and!; [apply (b_nodup k B)| |apply NoDup_singleton].
    intros b Hb Hc. apply list_elem_of_singleton in Hc. by subst.
  - intros b. simpl ready_list. rewrite elem_of_app, list_elem_of_singleton. intros [Hb| ->].
    + destruct (b_ready k B b Hb) as (v & Hv & Hsv & Hiv). exists v. split_and!; [|done..].
      apply release_other; [done|by intros ->|intros ->]. rewrite Ht in Hv. congruence.
    + exists (with_status THREAD_READY u). simpl. by rewrite lookup_insert_eq.
  - intros b v Hv Hr. simpl ready_list. rewrite elem_of_app, list_elem_of_singleton.
    destruct (release_lookup b v Hv) as [[-> ->]|[[-> ->]|(_ & _ & Hb)]]; [by left; right|simpl in Hr; congruence|].
    destruct (b_listed k B b v Hb Hr); [by left; left|by right].
  - apply (b_sema k B).
  - intros s x b Hx Hb. destruct (b_wait k B s x b Hx Hb) as (v & lv & c & Hv & Hsv & Hcv). exists v, lv, c. split_and!; [|done..].
    apply release_other; [done| |]; intros ->; [|rewrite Ht in Hv; congruence].
    rewrite Hu in Hv. simplify_eq. destruct Hco; congruence.
  - intros b v Hv Hb. destruct (release_lookup b v Hv) as [[-> ->]|[[-> ->]|(Hb1 & Hb2 & Hbk)]]; [done|simpl in Hb; congruence|].
    destruct (b_blocked k B b v Hbk Hb) as [?|[?|(c & Hc)]]; [by left|by right; left|]. right. right. exists c.
    apply release_target. split; [done|]. intros ->. destruct Hc as (v' & Hv' & Htg). rewrite Ht in Hv'. simplify_eq.
    rewrite (p_target _ _ _ _ P) in Htg. simpl in Htg. congruence.
  - intros c b Hc. apply release_target in Hc as [Hc Hcc]. destruct (b_newborn k B c b Hc) as (v & Hv & Hsv & Hrest).
    exists v. split; [|done]. apply release_other; [done| |intros ->; rewrite Ht in Hv; congruence].
    intros ->. destruct Hcc. by apply (b_creator k B c (cpu k) a Hc), release_creating.
  - intros c c' b Hc Hc'. apply release_target in Hc as [Hc _], Hc' as [Hc' _]. by apply (b_creator k B c c' b).
  - destruct (b_idle k B) as (v & Hv & Hd & Hic). simpl idle_thread. destruct (decide (idle_thread k = cpu k)) as [E|E].
    + pose proof (p_idle _ _ _ _ P (eq_sym E)). done.
    + exists v. split_and!; [|done..]. by apply release_other.
  - apply (b_ext k B).
  - apply (b_locks k B).
  - apply (b_conds k B).
  - apply (b_tid k B).
  - intros l h x Hl Hx. simpl threads. rewrite (total_status l _ _ u) by (by rewrite lookup_insert_ne).
    rewrite (total_insert l _ _ t _ Ht), (p_weight _ _ _ _ P). cbn [weight weight1 with_code code].
    pose proof (b_tokens k B l h x Hl Hx). lia.
Qed.

Lemma inv_released : inv k'.
Proof using P Hu.
  destruct release_newborn as (Hne & _). pose proof (running _ _ _ _ P) as Hrun. constructor.
  - apply base_released.
  - exists (with_code rest t). simpl. by rewrite lookup_insert_ne, lookup_insert_eq.
  - intros b v Hv Hr. simpl. destruct (release_lookup b v Hv) as [[-> ->]|[[-> ->]|(_ & _ & Hb)]]; [done|done|].
    by apply (i_running k I b v).
  - intros v s lv c. simpl. rewrite lookup_insert_ne, lookup_insert_eq by done. intros [= <-] E. simpl in E.
    pose proof (p_loop _ _ _ _ P) as Hnl. rewrite E in Hnl. done.
Qed.
End release.

Lemma exec_thread_unblock k t a rest ws :
  at_step k t (ThreadUnblock a) rest -> exists k', exec ws (ThreadUnblock a) (popped k t rest) = Done (tt, k') /\ inv k'.
Proof.
  intros P. pose proof (i_base k (p_inv _ _ _ _ P)) as B.
  destruct (b_newborn k B _ _ (release_creating k t rest a P)) as (u & Hu & Hb & _).
  destruct (b_thread k B a u Hu) as (Hn & Hm & _). destruct (release_newborn k t rest a u P Hu) as (Hne & _).
  exists (released k t rest a u). split; [|by apply inv_released].
  cbn [exec]. apply (unblock_ok (popped k t rest) a u); try done; [|apply (b_ext k B)]. simpl. by rewrite lookup_insert_ne.
Qed.

(** ** A new page *)

Definition newborn (page prio : Z) : thread :=
  mk_thread 0 THREAD_BLOCKED (page + PGSIZE) prio 0 [] 0 THREAD_MAGIC [].

Definition create_code (page : Z) : list instr :=
  [LockAcquire tid_lock; TakeTid page; LockRelease tid_lock; FinishCreate page OwnCode; ThreadUnblock page].

Definition born (k : kern) (t : thread) (page prio : Z) : kern :=
  set_threads (<[cpu k := with_code (create_code page) t]> (<[page := newborn page prio]> (threads k)))
    (set_all_list (all_list k ++ [page]) k).

Section birth.
Context (k : kern) (t : thread) (page prio : Z).
Context (I : inv k) (Ht : threads k !! cpu k = Some t) (Hcode : code t = []).
Context (Hn : page <> NULL) (Hfresh : threads k !! page = None) (Hheld : holds k (cpu k) tid_lock = false).
Local Notation k' := (born k t page prio).

Let B : base k := i_base k I.

Lemma birth_page b v : threads k !! b = Some v -> b <> page.
Proof using Hfresh. intros Hb ->. congruence. Qed.

Lemma birth_lookup b v : threads k' !! b = Some v ->
  b = cpu k /\ v = with_code (create_code page) t \/ b = page /\ v = newborn page prio \/ threads k !! b = Some v /\ b <> cpu k.
Proof using.
  simpl. destruct (decide (b = cpu k)) as [->|H1]; [rewrite lookup_insert_eq; intros [= <-]; by left|].
  rewrite lookup_insert_ne by done. destruct (decide (b = page)) as [->|H2]; [rewrite lookup_insert_eq; intros [= <-]; by right; left|].
  rewrite lookup_insert_ne by done. by right; right.
Qed.

Lemma birth_other b v : threads k !! b = Some v -> b <> cpu k -> threads k' !! b = Some v.
Proof using Hfresh. intros Hb H1. pose proof (birth_page b v Hb). simpl. by rewrite !lookup_insert_ne. Qed.

Lemma birth_target c b : creating k' c b <-> creating k c b \/ c = cpu k /\ b = page.
Proof using Ht Hcode Hfresh Hn.
  split.
  - intros (v & Hv & Htg). destruct (birth_lookup c v Hv) as [[-> ->]|[[-> ->]|[Hc Hne]]]; [| done |].
    + right. simpl in Htg. by simplify_eq.
    + left. by exists v.
  - intros [(v & Hv & Htg)|[-> ->]].
    + exists v. split; [|done]. apply birth_other; [done|]. intros ->. rewrite Ht in Hv. simplify_eq. by rewrite Hcode in Htg.
    + exists (with_code (create_code page) t). simpl. by rewrite lookup_insert_eq.
Qed.

Lemma birth_runner : status t = THREAD_RUNNING.
Proof using I Ht. destruct (i_cpu k I) as (v & Hv & Hs). congruence. Qed.

Lemma birth_code : code_ok k' (cpu k) (create_code page).
Proof using I Hheld.
  assert (E : holds k' (cpu k) tid_lock = false) by exact Hheld.
  pose proof (b_tid k B) as Htid. split_and!; [| |done|].
  - by repeat constructor.
  - done.
  - cbn [create_code disc]. split_and!; [done| |done]. by rewrite decide_True.
Qed.

Lemma base_born : base k'.
Proof using All.
  pose proof birth_runner as Hrun. constructor.
  - intros b v Hv. destruct (birth_lookup b v Hv) as [[-> ->]|[[-> ->]|[Hb _]]].
    + destruct (b_thread k B _ t Ht) as (? & ? & _ & _). split_and!; [done..|apply birth_code|simpl; congruence].
    + split_and!; [done..| |done]. by repeat constructor.
    + destruct (b_thread k B b v Hb) as (? & ? & ? & ?). split_and!; [done..|by eapply code_ok_same|done].
  - apply (b_nodup k B).
  - intros b Hb. destruct (b_ready k B b Hb) as (v & Hv & Hs & Hi). exists v. split_and!; [|done..].
    apply birth_other; [done|]. intros ->. congruence.
  - intros b v Hv Hs. destruct (birth_lookup b v Hv) as [[-> ->]|[[-> ->]|[Hb _]]]; [simpl in Hs; congruence|done|].
    by apply (b_listed k B b v).
  - apply (b_sema k B).
  - intros s x b Hx Hb. destruct (b_wait k B s x b Hx Hb) as (v & lv & c & Hv & Hs & Hc). exists v, lv, c.
    split_and!; [|done..]. apply birth_other; [done|]. intros ->. congruence.
  - intros b v Hv Hs. destruct (birth_lookup b v Hv) as [[-> ->]|[[-> ->]|[Hb _]]]; [simpl in Hs; congruence| |].
    + right. right. exists (cpu k). apply birth_target. by right.
    + destruct (b_blocked k B b v Hb Hs) as [?|[?|(c & Hc)]]; [by left|by right; left|]. right. right. exists c.
      apply birth_target. by left.
  - intros c b Hc. apply birth_target in Hc as [Hc|[-> ->]].
    + destruct (b_newborn k B c b Hc) as (v & Hv & Hs & Hrest). exists v. split; [|done].
      apply birth_other; [done|]. intros ->. congruence.
    + exists (newborn page prio). destruct (b_idle k B) as (v & Hv & _). pose proof (birth_page _ _ Hv).
      pose proof (birth_page _ _ Ht). simpl. rewrite lookup_insert_ne, lookup_insert_eq by done.
      split_and!; [done..|by apply not_eq_sym|by left].
  - intros c c' b Hc Hc'. apply birth_target in Hc as [Hc|[-> ->]], Hc' as [Hc'|[E E']]; try subst b.
    + by apply (b_creator k B c c' b).
    + destruct (b_newborn k B c page Hc) as (v & Hv & _). by destruct (birth_page _ _ Hv).
    + destruct (b_newborn k B c' page Hc') as (v & Hv & _). by destruct (birth_page _ _ Hv).
    + done.
  - destruct (b_idle k B) as (v & Hv & Hd & Hic). exists v. split_and!; [|done..]. apply birth_other; [done|].
    intros E. simpl in E. rewrite E, Ht in Hv. simplify_eq. by rewrite Hcode in Hic.
  - apply (b_ext k B).
  - apply (b_locks k B).
  - apply (b_conds k B).
  - apply (b_tid k B).
  - intros l h x Hl Hx. simpl threads. pose proof (birth_page _ _ Ht).
    rewrite (total_insert l _ _ t), total_insert_new, Hcode by (try done; by rewrite lookup_insert_ne).
    cbn. pose proof (b_tokens k B l h x Hl Hx). lia.
Qed.

Lemma inv_born : inv k'.
Proof using All.
  pose proof birth_runner as Hrun. constructor.
  - apply base_born.
  - exists (with_code (create_code page) t). simpl. by rewrite lookup_insert_eq.
  - intros b v Hv Hs. destruct (birth_lookup b v Hv) as [[-> ->]|[[-> ->]|[Hb _]]]; [done|done|]. by apply (i_running k I b v).
  - intros v s lv c. simpl. rewrite lookup_insert_eq. by intros [= <-].
Qed.
End birth.

Lemma exec_thread_create k t page prio ws :
  inv k -> threads k !! cpu k = Some t -> code t = [] -> allowed k (ThreadCreate page prio OwnCode) ->
  exists k', exec ws (ThreadCreate page prio OwnCode) k = Done (tt, k') /\ inv k'.
Proof.
  intros I Ht Hc (_ & Hp & Hh & Hpg). cbn [exec]. unfold thread_create. destruct (Z.eqb_spec page NULL) as [E|Hn]; [by exists k|].
  destruct Hpg as [?|Hf]; [done|]. exists (born k t page prio). split; [|by apply inv_born].
  assert (Hne : page <> cpu k) by congruence.
  assert (E : init_thread page prio k = Done (tt, set_all_list (all_list k ++ [page]) (set_threads (<[page := newborn page prio]> (threads k)) k))).
  { unfold init_thread. rewrite (proj2 (Z.eqb_neq _ _) Hn), (assert_true _ _ _ eq_refl).
    rewrite assert_true by (apply andb_true_iff; rewrite !Z.leb_le; done).
    erewrite bind_done; [|reflexivity]. rewrite (bind_done _ _ _ (intr_on k) (set_intr false (set_threads (<[page := newborn page prio]> (threads k)) k))) by done.
    erewrite bind_done; [|reflexivity]. erewrite bind_done; [|apply set_level_ok, (b_ext k (i_base k I))]. by destruct k. }
  rewrite (bind_done _ _ _ _ _ E). rewrite (push_code_run _ t) by (simpl; by rewrite lookup_insert_ne). rewrite Hc. done.
Qed.

(** ** Fields of the new thread *)

Lemma inv_fields k a u u' :
  inv k -> threads k !! a = Some u -> a <> cpu k -> status u' = status u -> magic u' = magic u ->
  code u' = code u \/ (exists c, creating k c a) /\ code u' = [KernelThread] ->
  inv (set_threads (<[a := u']> (threads k)) k).
Proof.
  intros I Hu Hne Hs Hm Hc. pose proof (i_base k I) as B. set (k' := set_threads _ k).
  assert (Hlook : forall b v', threads k' !! b = Some v' -> exists v, threads k !! b = Some v /\ status v' = status v /\ (b = a /\ v' = u' \/ v' = v)).
  { intros b v'. simpl. destruct (decide (b = a)) as [->|Hb]; [rewrite lookup_insert_eq; intros [= <-]; exists u; eauto|].
    rewrite lookup_insert_ne by done. intros Hv. exists v'. eauto. }
  assert (Hback : forall b v, threads k !! b = Some v -> exists v', threads k' !! b = Some v' /\ status v' = status v /\ (b = a /\ v' = u' \/ v' = v)).
  { intros b v Hv. simpl. destruct (decide (b = a)) as [->|Hb].
    - exists u'. rewrite lookup_insert_eq. rewrite Hu in Hv. simplify_eq. eauto.
    - exists v. rewrite lookup_insert_ne by done. eauto. }
  assert (Hnew : code u' <> code u -> (code u = [] \/ code u = [KernelThread]) /\ code u' = [KernelThread] /\ a <> idle_thread k /\ status u = THREAD_BLOCKED).
  { intros E. destruct Hc as [?|[(c & Hcr) Hcu]]; [done|]. destruct (b_newborn k B c a Hcr) as (v & Hv & ? & ? & ?).
    rewrite Hu in Hv. by simplify_eq. }
  assert (Htg : target (code u') = target (code u)).
  { destruct (decide (code u' = code u)) as [->|E]; [done|]. by destruct (Hnew E) as ([-> | ->] & -> & _). }
  assert (Hcr : forall c b, creating k' c b <-> creating k c b).
  { intros c b. split.
    - intros (v' & Hv' & Hg). destruct (Hlook c v' Hv') as (v & Hv & _ & [[-> ->]| ->]); [|by exists v].
      exists v. split; [done|]. rewrite Hu in Hv. simplify_eq. congruence.
    - intros (v & Hv & Hg). destruct (Hback c v Hv) as (v' & Hv' & _ & [[-> ->]| ->]); [|by exists v].
      exists u'. split; [done|]. rewrite Hu in Hv. simplify_eq. congruence. }
  assert (Hw : forall l, weight l (code u') = weight l (code u)).
  { intros l. destruct (decide (code u' = code u)) as [->|E]; [done|]. by destruct (Hnew E) as ([-> | ->] & -> & _). }
  constructor; [constructor| | |].
  - intros b v' Hv'. destruct (Hlook b v' Hv') as (v & Hv & Hsv & Hor). destruct (b_thread k B b v Hv) as (? & ? & Hok & Hdy).
    split_and!; [done| | |].
    + destruct Hor as [[-> ->]| ->]; [|done]. congruence.
    + destruct Hor as [[-> ->]| ->]; [|by eapply code_ok_same]. rewrite Hu in Hv. simplify_eq.
      destruct (decide (code u' = code v)) as [->|E]; [by eapply code_ok_same|].
      destruct (Hnew E) as (_ & -> & _). by repeat constructor.
    + destruct Hor as [[-> ->]| ->]; [|done]. rewrite Hu in Hv. simplify_eq. rewrite Hs. intros Hd.
      destruct (decide (code u' = code v)) as [->|E]; [by apply Hdy|]. destruct (Hnew E) as (_ & _ & _ & ?). congruence.
  - apply (b_nodup k B).
  - intros b Hb. destruct (b_ready k B b Hb) as (v & Hv & Hr & Hi). destruct (Hback b v Hv) as (v' & Hv' & Hsv & _).
    exists v'. by rewrite Hsv.
  - intros b v' Hv' Hr. destruct (Hlook b v' Hv') as (v & Hv & Hsv & _). apply (b_listed k B b v Hv). congruence.
  - apply (b_sema k B).
  - intros s x b Hx Hb. destruct (b_wait k B s x b Hx Hb) as (v & lv & c & Hv & Hsv & Hcv).
    destruct (Hback b v Hv) as (v' & Hv' & Hsv' & Hor). exists v', lv, c. split_and!; [done|congruence|].
    destruct Hor as [[-> ->]| ->]; [|done]. rewrite Hu in Hv. simplify_eq.
    destruct (decide (code u' = code v)) as [->|E]; [done|]. destruct (Hnew E) as ([?|?] & _); congruence.
  - intros b v' Hv' Hb. destruct (Hlook b v' Hv') as (v & Hv & Hsv & _). rewrite Hsv in Hb.
    destruct (b_blocked k B b v Hv Hb) as [?|[?|(c & Hcc)]]; [by left|by right; left|]. right. right. exists c. by apply Hcr.
  - intros c b Hcc. apply Hcr in Hcc. destruct (b_newborn k B c b Hcc) as (v & Hv & Hb & Hi & Hco).
    destruct (Hback b v Hv) as (v' & Hv' & Hsv & Hor). exists v'. split_and!; [done|congruence|done|].
    destruct Hor as [[-> ->]| ->]; [|done]. rewrite Hu in Hv. simplify_eq.
    destruct (decide (code u' = code v)) as [->|E]; [done|]. right. by destruct (Hnew E) as (_ & ? & _).
  - intros c c' b Hcc Hcc'. apply Hcr in Hcc, Hcc'. by apply (b_creator k B c c' b).
  - destruct (b_idle k B) as (v & Hv & Hd & Hic). destruct (Hback _ v Hv) as (v' & Hv' & Hsv & Hor). exists v'.
    split_and!; [done|congruence|]. destruct Hor as [[Ha ->]| ->]; [|done]. rewrite Ha, Hu in Hv. simplify_eq.
    destruct (decide (code u' = code v)) as [->|E]; [done|]. by destruct (Hnew E) as (_ & _ & ? & _).
  - apply (b_ext k B).
  - apply (b_locks k B).
  - apply (b_conds k B).
  - apply (b_tid k B).
  - intros l h x Hl Hx. simpl threads. rewrite (total_insert l _ _ u u' Hu), Hw. pose proof (b_tokens k B l h x Hl Hx). lia.
  - destruct (i_cpu k I) as (v & Hv & Hr). exists v. simpl. by rewrite lookup_insert_ne.
  - intros b v' Hv' Hr. destruct (Hlook b v' Hv') as (v & Hv & Hsv & _). apply (i_running k I b v Hv). congruence.
  - intros v s lv c. simpl. rewrite lookup_insert_ne by done. apply (i_top k I).
Qed.

Lemma fields_step k t i rest a u u' :
  at_step k t i rest -> threads k !! a = Some u -> a <> cpu k -> status u' = status u -> magic u' = magic u ->
  code u' = code u \/ (exists c, creating k c a) /\ code u' = [KernelThread] ->
  at_step (set_threads (<[a := u']> (threads k)) k) t i rest.
Proof.
  intros P Hu Hne Hs Hm Hc. constructor; try apply P.
  - apply (inv_fields k a u u'); try done. apply P.
  - simpl. rewrite lookup_insert_ne by done. apply P.
Qed.

(** The thread under creation is not the running one. *)
Lemma created_thread k t i rest a :
  at_step k t i rest -> target (i :: rest) = Some a ->
  exists u, threads k !! a = Some u /\ a <> cpu k /\ magic u = THREAD_MAGIC /\ a <> NULL /\ creating k (cpu k) a.
Proof.
  intros P Hg. pose proof (i_base k (p_inv _ _ _ _ P)) as B.
  assert (Hc : creating k (cpu k) a) by (exists t; split; [apply P|by rewrite (p_target _ _ _ _ P)]).
  destruct (b_newborn k B _ _ Hc) as (u & Hu & Hb & _). destruct (b_thread k B a u Hu) as (? & ? & _). exists u.
  split_and!; try done. intros ->. pose proof (running _ _ _ _ P). rewrite (p_thread _ _ _ _ P) in Hu. congruence.
Qed.

Lemma exec_take_tid k t a rest ws :
  at_step k t (TakeTid a) rest -> exists k', exec ws (TakeTid a) (popped k t rest) = Done (tt, k') /\ inv k'.
Proof.
  intros P. destruct (created_thread k t _ rest a P eq_refl) as (u & Hu & Hne & _).
  pose proof (fields_step k t _ rest a u (with_tid (next_tid k) u) P Hu Hne eq_refl eq_refl (or_introl eq_refl)) as P'.
  cbn [exec]. unfold take_tid. rewrite (bind_done _ _ _ (popped k t rest) (popped k t rest)) by done.
  erewrite bind_done; [|reflexivity]. rewrite (update_thread_ok _ a u) by (simpl; by rewrite lookup_insert_ne).
  eexists. split; [done|]. step_facts P'. destruct Pone as [Hg Hone].
  apply (control_ok _ t (TakeTid a) rest _ rest P'); try done. simpl. by rewrite insert_insert_ne.
Qed.

(** ** New objects *)

Record added (k k' : kern) : Prop := {
  a_sema s x : semas k !! s = Some x -> semas k' !! s = Some x;
  a_sema' s x : semas k' !! s = Some x -> semas k !! s = Some x \/ 0 <= value x < 2 ^ 32 /\ waiters x = [];
  a_lock l h : locks k !! l = Some h -> locks k' !! l = Some h;
  a_lock' l h : locks k' !! l = Some h -> locks k !! l = Some h \/
    locks k !! l = None /\ semas k !! OfLock l = None /\ h = NULL /\ semas k' !! OfLock l = Some (mk_sema 1 []);
  a_cond c w : conds k !! c = Some w -> conds k' !! c = Some w;
  a_cond' c w : conds k' !! c = Some w -> conds k !! c = Some w \/ w = [];
}.

(** Nobody is acquiring or releasing a lock that does not exist. *)
Lemma total_fresh k l : base k -> locks k !! l = None -> semas k !! OfLock l = None -> total l (threads k) = 0.
Proof.
  intros B Hl Hs.
  assert (Hw : forall a c, Forall (instr_ok k a) c -> weight l c = 0).
  { intros a c. induction 1 as [|i c Hi Hc IH]; [done|]. cbn [weight]. rewrite IH.
    destruct i as [| | | | | | | | | | | |s|s ?| |s| | | | | | |]; try done; try destruct s; try done; cbn [weight1];
      (case_decide; [subst|done]); simpl in Hi; rewrite ?Hl, ?Hs in Hi; destruct Hi as [? ?]; try done; by destruct Hi. }
  assert (H0 : forall m, (forall a t, m !! a = Some t -> weight l (code t) = 0) -> total l m = 0).
  { intros m. induction m as [|a t m Hm IH] using map_ind; intros H; [unfold total; by rewrite map_fold_empty|].
    rewrite total_insert_new by done. rewrite (H a t) by apply lookup_insert_eq. rewrite IH; [done|].
    intros b v Hb. apply (H b). rewrite lookup_insert_ne; [done|]. intros ->. congruence. }
  apply H0. intros a t Ha. destruct (b_thread k B a t Ha) as (_ & _ & (Hf & _) & _). by apply (Hw a).
Qed.

Lemma added_ok k t i rest k' t' :
  at_step k t i rest -> added k k' -> cpu k' = cpu k -> threads k' = <[cpu k := t']> (threads k) ->
  ready_list k' = ready_list k -> idle_thread k' = idle_thread k -> in_external_intr k' = in_external_intr k ->
  status t' = status t -> magic t' = magic t -> code t' = rest -> one_target rest -> disc (holds k (cpu k)) rest ->
  target rest = target (i :: rest) -> (forall l, weight1 l i = 0) -> (cpu k = idle_thread k -> idle_code rest) -> inv k'.
Proof.
  intros P A Hcpu Hth Hr Hi He Hst Hm Hcode Hone Hd Htg Hw Hidle. pose proof (i_base k (p_inv _ _ _ _ P)) as B.
  assert (Hholds : forall a l, a <> NULL -> holds k' a l = holds k a l).
  { intros a l Ha. unfold holds. apply bool_decide_ext. split; [|apply A]. intros Hl.
    destruct (a_lock' _ _ A l a Hl) as [?|(_ & _ & ? & _)]; done. }
  apply (continue_ok k t i rest k' t' P); try done; rewrite ?Hcode; try done.
  - constructor; try done.
    + intros s x Hx. exists x. split; [by apply A|done].
    + intros s x Hx. destruct (a_sema' _ _ A s x Hx) as [Hx'|[? ?]]; [|by split; [|left]].
      split; [apply (b_sema k B s x Hx')|]. right. by exists x.
    + intros l [h Hl]. exists h. by apply A.
    + intros l h Hl. destruct (a_lock' _ _ A l h Hl) as [Hl'|(_ & _ & _ & E)]; [|by exists (mk_sema 1 [])].
      destruct (b_locks k B l h Hl') as [x Hx]. exists x. by apply A.
    + intros c [w Hc]. exists w. by apply A.
    + intros c w a Hc Ha. destruct (a_cond' _ _ A c w Hc) as [Hc'| ->]; [|by apply not_elem_of_nil in Ha].
      destruct (b_conds k B c w a Hc' Ha) as [x Hx]. exists x. by apply A.
  - split_and!; [|done|apply no_loop_tl, P|].
    + eapply Forall_impl; [apply (p_code _ _ _ _ P)|]. intros j. apply instr_mono; [done|..]; intros ? [? ?]; eexists; by apply A.
    + eapply disc_ext; [|exact Hd]. intros l. symmetry. apply Hholds. by destruct (cpu_facts _ _ _ _ P).
  - left. apply P.
  - intros a l _ Ha. by apply Hholds.
  - intros l h x Hl Hx. rewrite Hth, (total_insert l _ _ t) by apply P. rewrite Hcode, (p_weight _ _ _ _ P). cbn [weight]. rewrite Hw.
    destruct (a_lock' _ _ A l h Hl) as [Hl'|(Hl' & Hs & -> & E)].
    + destruct (b_locks k B l h Hl') as [y Hy]. rewrite (a_sema _ _ A _ _ Hy) in Hx. simplify_eq.
      pose proof (b_tokens k B l h x Hl' Hy). lia.
    + rewrite E in Hx. simplify_eq. rewrite (total_fresh k l B Hl' Hs). simpl. lia.
Qed.

Lemma alloc_frame_ok k a u size :
  threads k !! a = Some u -> a <> NULL -> magic u = THREAD_MAGIC -> size mod 4 = 0 ->
  alloc_frame a size k = Done (stack u - size, set_threads (<[a := with_stack (stack u - size) u]> (threads k)) k).
Proof.
  intros Hu Hn Hm Hs. unfold alloc_frame. rewrite (bind_done _ _ _ _ _ (is_thread_ok k a u Hu Hn Hm)), (assert_true _ _ _ eq_refl).
  rewrite assert_true by (by apply Z.eqb_eq). rewrite (bind_done _ _ _ u k) by (unfold load_thread; by rewrite Hu).
  by rewrite (bind_done _ _ _ _ _ (update_thread_ok k a u _ Hu)).
Qed.

Definition with_ws (ws n : Z) (k : kern) : kern :=
  set_wss (<[ws := mk_ws n 0 2 0]> (wss k))
    (set_semas (<[OfLock (ws_lock ws) := mk_sema 1 []]> (<[ws_done_loading ws := mk_sema 0 []]> (<[ws_dead ws := mk_sema 0 []]> (semas k))))
      (set_locks (<[ws_lock ws := NULL]> (locks k)) k)).

Lemma added_ws k k' ws :
  fresh_ws k ws -> semas k' = semas (with_ws ws 0 k) -> locks k' = locks (with_ws ws 0 k) -> conds k' = conds k -> added k k'.
Proof.
  intros (Hn & H1 & H2 & H3 & H4) Hs Hl Hc. unfold ws_dead, ws_done_loading in *. constructor; rewrite ?Hs, ?Hl, ?Hc; simpl; unfold ws_dead, ws_done_loading.
  - intros s x Hx. rewrite !lookup_insert_ne; [done|..]; intros <-; congruence.
  - intros s x. rewrite !lookup_insert_Some. intros [[_ <-]|[_ [[_ <-]|[_ [[_ <-]|[_ Hx]]]]]]; [right; simpl; split; [lia|done]..|by left].
  - intros l h Hlh. rewrite lookup_insert_ne; [done|]. intros <-. congruence.
  - intros l h. rewrite lookup_insert_Some. intros [[<- <-]|[_ Hlh]]; [|by left]. right. by rewrite lookup_insert_eq.
  - done.
  - intros c w Hw. by left.
Qed.

Definition dressed (ws : Z) (u : thread) : thread :=
  mk_thread (tid u) (status u) (stack u - 12 - 4 - 28) (priority u) ws (children u) (pagedir u) (magic u) [KernelThread].

Lemma update_at T K a u f :
  update_thread a f (set_threads (<[a := u]> T) K) = Done (tt, set_threads (<[a := f u]> T) K).
Proof.
  rewrite (update_thread_ok _ a u) by (simpl; apply lookup_insert_eq). unfold set_threads. simpl. by rewrite insert_insert_eq.
Qed.

Lemma frame_at T K a u size :
  a <> NULL -> magic u = THREAD_MAGIC -> size mod 4 = 0 ->
  alloc_frame a size (set_threads (<[a := u]> T) K) =
    Done (stack u - size, set_threads (<[a := with_stack (stack u - size) u]> T) K).
Proof.
  intros Hn Hm Hs. rewrite (alloc_frame_ok _ a u) by (try done; simpl; apply lookup_insert_eq).
  unfold set_threads. simpl. by rewrite insert_insert_eq.
Qed.

Lemma init_ws_at T K ws n : ws <> NULL ->
  init_wait_status ws n (set_threads T K) = Done (tt, set_threads T (with_ws ws n K)).
Proof. intros H. unfold init_wait_status. by rewrite (proj2 (Z.eqb_neq _ _) H). Qed.

(** [finish_create] on the thread structure and the new wait status. *)
Lemma finish_ok k t rest a u ws :
  threads k !! a = Some u -> a <> cpu k -> a <> NULL -> magic u = THREAD_MAGIC -> ws <> NULL ->
  cpu k <> NULL -> magic t = THREAD_MAGIC -> status t = THREAD_RUNNING ->
  finish_create a ws OwnCode (popped k t rest) = Done (tt,
    set_threads (<[cpu k := with_children (ws :: children t) (with_code rest t)]> (<[a := dressed ws u]> (threads k)))
      (with_ws ws (tid u) k)).
Proof.
  intros Hu Hne Hn Hm Hws Hcn Htm Hts. unfold finish_create.
  set (T := <[cpu k := with_code rest t]> (threads k)).
  assert (E : popped k t rest = set_threads (<[a := u]> T) k).
  { unfold popped. fold T. rewrite insert_id; [done|]. unfold T. by rewrite lookup_insert_ne. }
  rewrite E, (bind_done _ _ _ _ _ (frame_at T k a u 12 Hn Hm eq_refl)).
  rewrite (bind_done _ _ _ _ _ (frame_at T k a (with_stack (stack u - 12) u) 4 Hn Hm eq_refl)). cbn [stack with_stack].
  set (v := with_stack (stack u - 12 - 4) (with_stack (stack u - 12) u)).
  rewrite (bind_done _ _ _ v (set_threads (<[a := v]> T) k)) by (unfold load_thread; cbn [threads set_threads]; by rewrite lookup_insert_eq).
  rewrite (bind_done _ _ _ _ _ (init_ws_at _ k ws (tid v) Hws)), (bind_done _ _ _ _ _ (update_at T _ a v _)).
  rewrite (bind_done _ _ _ _ _ (frame_at T _ a (with_wait_status ws v) 28 Hn Hm eq_refl)).
  rewrite (bind_done _ _ _ _ _ (update_at T _ a _ _)).
  match goal with |- context [<[a := ?w]> T] => change w with (dressed ws u) end.
  assert (E2 : <[a := dressed ws u]> T = <[cpu k := with_code rest t]> (<[a := dressed ws u]> (threads k)))
    by (unfold T; by rewrite insert_insert_ne).
  rewrite E2. set (k2 := set_threads _ _).
  assert (Hcur : thread_current k2 = Done (cpu k, k2)).
  { apply (thread_current_ok k2 (with_code rest t)); [unfold k2; simpl; apply lookup_insert_eq|done..]. }
  rewrite (bind_done _ _ _ _ _ Hcur). unfold k2. by rewrite update_at.
Qed.

Lemma exec_finish_create k t a rest ws :
  at_step k t (FinishCreate a OwnCode) rest -> fresh_ws k ws ->
  exists k', exec ws (FinishCreate a OwnCode) (popped k t rest) = Done (tt, k') /\ inv k'.
Proof.
  intros P F. destruct (created_thread k t _ rest a P eq_refl) as (u & Hu & Hne & Hm & Hn & Hc).
  destruct (cpu_facts _ _ _ _ P) as [Hcn Htm]. pose proof (running _ _ _ _ P) as Hrun.
  eexists. split; [cbn [exec]; apply finish_ok; try done; apply F|].
  assert (P' : at_step (set_threads (<[a := dressed ws u]> (threads k)) k) t (FinishCreate a OwnCode) rest).
  { apply (fields_step k t _ rest a u); try done. right. split; [by exists (cpu k)|done]. }
  step_facts P'. destruct Pone as [Hg Hone].
  eapply (added_ok _ t (FinishCreate a OwnCode) rest _ _ P'); try done. by apply (added_ws _ _ ws).
Qed.

Lemma step_create_ok k t k' : inv k -> threads k !! cpu k = Some t -> code t = [] -> created k k' -> inv k'.
Proof.
  intros I Ht Hc Hk.
  assert (P : at_step k t Iret []) by (rewrite <- Hc; apply at_call; [done..|]; by rewrite Hc).
  assert (Hgen : forall k1, added k k1 -> cpu k1 = cpu k -> threads k1 = threads k -> ready_list k1 = ready_list k ->
    idle_thread k1 = idle_thread k -> in_external_intr k1 = in_external_intr k -> inv k1).
  { intros k1 A H1 H2 H3 H4 H5. apply (added_ok k t Iret [] k1 t P A); try done; [|by apply P]. by rewrite H2, insert_id. }
  destruct Hk as [a v k' Hv Hs E|l k' Hl Hs E|c k' Hcn E];
    cbv [lock_init sema_init cond_init store_sema store_holder store_cond modify bind] in E; injection E as <-;
    apply Hgen; try done; constructor; simpl; try done; try (by intros; left).
  - intros s x Hx. rewrite lookup_insert_ne; [done|]. intros <-. congruence.
  - intros s x. rewrite lookup_insert_Some. intros [[_ <-]|[_ Hx]]; [by right|by left].
  - intros s x Hx. rewrite lookup_insert_ne; [done|]. intros <-. congruence.
  - intros s x. rewrite lookup_insert_Some. intros [[_ <-]|[_ Hx]]; [right; simpl; split; [lia|done]|by left].
  - intros l' h Hl'. rewrite lookup_insert_ne; [done|]. intros <-. congruence.
  - intros l' h. rewrite lookup_insert_Some. intros [[<- <-]|[_ Hx]]; [|by left]. right. by rewrite lookup_insert_eq.
  - intros c' w Hw. rewrite lookup_insert_ne; [done|]. intros <-. congruence.
  - intros c' w. rewrite lookup_insert_Some. intros [[_ <-]|[_ Hx]]; [by right|by left].
Qed.
