(* ===== verification/Fair.v ===== *)
(** * The run queue is served in order

    Every operation of the kernel either leaves the processor with the running
    thread and adds threads at the end of the run queue, or gives the processor
    to the first thread of the queue.  The lemmas are about single operations
    and compose along the sequences of thread.c and synch.c. *)

From stdpp Require Import options.
From S2P Require Import Prelude KList Kernel.
Local Open Scope Z_scope.
Local Open Scope kernel_scope.

(** No switch: threads are added at the end. *)
Definition appends (k k' : kern) : Prop :=
  (exists l, ready_list k' = ready_list k ++ l) /\ cpu k' = cpu k /\ stats k' = stats k.

(** A switch to the first thread of the queue. *)
Definition switches (k k' : kern) : Prop :=
  (exists l, forall a q, ready_list k ++ l = a :: q -> cpu k' = a /\ ready_list k' = q) /\
  thread_ticks (stats k') = 0.

Definition quiet {A} (m : MK A) : Prop := forall k a k', m k = Done (a, k') -> appends k k'.
Definition switching {A} (m : MK A) : Prop := forall k a k', m k = Done (a, k') -> switches k k'.
Definition fair {A} (m : MK A) : Prop := forall k a k', m k = Done (a, k') -> appends k k' \/ switches k k'.

Lemma appends_refl k : appends k k.
Proof. split; [exists []; by rewrite app_nil_r|done]. Qed.

Lemma appends_trans k1 k2 k3 : appends k1 k2 -> appends k2 k3 -> appends k1 k3.
Proof.
  intros ((l & E) & C & S) ((l' & E') & C' & S'). split; [|by rewrite C', S'].
  exists (l ++ l'). by rewrite E', E, <- app_assoc.
Qed.

Lemma appends_switches k1 k2 k3 : appends k1 k2 -> switches k2 k3 -> switches k1 k3.
Proof.
  intros ((l & E) & _ & _) ((l' & H) & T). split; [|done]. exists (l ++ l'). rewrite app_assoc, <- E. done.
Qed.

Section rules.
Context {A B : Type}.
Implicit Types (m : MK A) (f : A -> MK B).

Lemma quiet_bind m f : quiet m -> (forall a, quiet (f a)) -> quiet (bind m f).
Proof.
  intros Hm Hf k b k' E. apply bind_inv in E as (a & k1 & E1 & E2). eapply appends_trans; [by eapply Hm|by eapply Hf].
Qed.

Lemma switching_bind m f : quiet m -> (forall a, switching (f a)) -> switching (bind m f).
Proof.
  intros Hm Hf k b k' E. apply bind_inv in E as (a & k1 & E1 & E2). eapply appends_switches; [by eapply Hm|by eapply Hf].
Qed.

Lemma fair_bind m f : quiet m -> (forall a, fair (f a)) -> fair (bind m f).
Proof.
  intros Hm Hf k b k' E. apply bind_inv in E as (a & k1 & E1 & E2). destruct (Hf a k1 b k' E2).
  - left. eapply appends_trans; [by eapply Hm|done].
  - right. eapply appends_switches; [by eapply Hm|done].
Qed.

Lemma quiet_fair m : quiet m -> fair m.
Proof. intros Hm k a k' E. left. by eapply Hm. Qed.

Lemma switching_fair m : switching m -> fair m.
Proof. intros Hm k a k' E. right. by eapply Hm. Qed.

Lemma quiet_ret (a : A) : quiet (ret a).
Proof. intros k b k' [= _ <-]. apply appends_refl. Qed.

Lemma quiet_fail e : quiet (@fail kern A e).
Proof. intros k b k' E. done. Qed.

Lemma quiet_gets (g : kern -> A) : quiet (gets g).
Proof. intros k b k' [= _ <-]. apply appends_refl. Qed.
End rules.

Lemma quiet_get : quiet (@get kern).
Proof. intros k b k' [= _ <-]. apply appends_refl. Qed.

Lemma quiet_assert b : quiet (@assert kern b).
Proof. intros k a k' E. apply assert_inv in E as [_ [= _ ->]]. apply appends_refl. Qed.

Lemma quiet_modify g : (forall k, appends k (g k)) -> quiet (modify g).
Proof. intros H k a k' [= _ <-]. apply H. Qed.

Lemma quiet_update a g : quiet (update_thread a g).
Proof. intros k x k'. unfold update_thread. destruct (threads k !! a); [|done]. intros [= _ <-]. split; [exists []; by rewrite app_nil_r|done]. Qed.

Lemma quiet_load_thread a : quiet (load_thread a).
Proof. intros k x k'. unfold load_thread. destruct (threads k !! a); [|done]. intros [= _ <-]. apply appends_refl. Qed.
Lemma quiet_load_sema s : quiet (load_sema s).
Proof. intros k x k'. unfold load_sema. destruct (semas k !! s); [|done]. intros [= _ <-]. apply appends_refl. Qed.
Lemma quiet_load_holder l : quiet (load_holder l).
Proof. intros k x k'. unfold load_holder. destruct (locks k !! l); [|done]. intros [= _ <-]. apply appends_refl. Qed.
Lemma quiet_load_cond c : quiet (load_cond c).
Proof. intros k x k'. unfold load_cond. destruct (conds k !! c); [|done]. intros [= _ <-]. apply appends_refl. Qed.

Create HintDb fair.
#[export] Hint Resolve quiet_ret quiet_fail quiet_gets quiet_get quiet_assert quiet_update quiet_load_thread
  quiet_load_sema quiet_load_holder quiet_load_cond : fair.

(** Composes the rules along a function's body. *)
Ltac appends_tac := intros ?; split; [first [exists []; by rewrite app_nil_r | eexists; reflexivity]|done].
Ltac quiet_tac := repeat first
  [ progress cbv beta zeta | solve [auto 1 with fair nocore] | apply quiet_modify; appends_tac
  | apply quiet_bind; [|intros ?] | case_match ].

Lemma quiet_push c : quiet (push_code c).
Proof. unfold push_code. quiet_tac. Qed.
Lemma quiet_set_level b : quiet (intr_set_level b).
Proof. unfold intr_set_level, intr_enable, intr_disable, intr_context, intr_get_level. quiet_tac. Qed.
Lemma quiet_disable : quiet intr_disable.
Proof. apply (quiet_set_level false). Qed.
Lemma quiet_current : quiet thread_current.
Proof. unfold thread_current, running_thread, is_thread. quiet_tac. Qed.
Lemma quiet_store_sema s x : quiet (store_sema s x).
Proof. unfold store_sema. quiet_tac. Qed.
Lemma quiet_store_holder l h : quiet (store_holder l h).
Proof. unfold store_holder. quiet_tac. Qed.
Lemma quiet_store_cond c w : quiet (store_cond c w).
Proof. unfold store_cond. quiet_tac. Qed.
#[export] Hint Resolve quiet_push quiet_set_level quiet_disable quiet_current quiet_store_sema quiet_store_holder quiet_store_cond : fair.

Lemma quiet_unblock a : quiet (thread_unblock a).
Proof. unfold thread_unblock, is_thread. quiet_tac. Qed.
Lemma quiet_alloc_frame a n : quiet (alloc_frame a n).
Proof. unfold alloc_frame, is_thread. quiet_tac. Qed.
Lemma quiet_lock_init l : quiet (lock_init l).
Proof. unfold lock_init, sema_init. quiet_tac. Qed.
Lemma quiet_try_down s : quiet (sema_try_down s).
Proof. unfold sema_try_down. quiet_tac. Qed.
Lemma quiet_held l : quiet (lock_held_by_current_thread l).
Proof. unfold lock_held_by_current_thread. quiet_tac. Qed.
#[export] Hint Resolve quiet_unblock quiet_alloc_frame quiet_lock_init quiet_try_down quiet_held : fair.

(** ** The scheduler *)

Lemma tail_ready prev k a k' :
  thread_schedule_tail prev k = Done (a, k') ->
  ready_list k' = ready_list k /\ cpu k' = cpu k /\ thread_ticks (stats k') = 0.
Proof.
  unfold thread_schedule_tail. intros E.
  apply bind_inv in E as (c & k1 & [= <- <-] & E). apply bind_inv in E as (lv & k2 & [= <- <-] & E).
  apply bind_inv in E as (? & k3 & E3 & E). apply assert_inv in E3 as [_ [= -> ->]].
  apply bind_inv in E as (? & k4 & E4 & E). unfold update_thread in E4. destruct (threads k !! cpu k); [|done]. injection E4 as <- <-.
  apply bind_inv in E as (? & k5 & [= <- <-] & E). destruct (prev =? NULL); [by injection E as <- <-|].
  apply bind_inv in E as (p & k6 & E6 & E). unfold load_thread in E6. cbn [threads set_stats set_threads] in E6.
  match type of E6 with match ?x with _ => _ end = _ => destruct x; [|done] end. injection E6 as <- <-.
  apply bind_inv in E as (? & k7 & [= <- <-] & E).
  match type of E with (if ?x then _ else _) _ = _ => destruct x end; [|by injection E as <- <-].
  apply bind_inv in E as (? & k8 & E8 & E). apply assert_inv in E8 as [_ [= -> ->]]. by injection E as <- <-.
Qed.

Lemma switching_schedule : switching schedule.
Proof.
  intros k a k' E. unfold schedule in E.
  apply bind_inv in E as (c & k1 & [= <- <-] & E). apply bind_inv in E as (nx & k2 & E2 & E).
  assert (Hn : (forall b q, ready_list k = b :: q -> nx = b /\ ready_list k2 = q) /\ cpu k2 = cpu k).
  { unfold next_thread_to_run in E2. apply bind_inv in E2 as (? & k3 & [= <- <-] & E2).
    destruct (ready_list k); [by injection E2 as <- <-|]. apply bind_inv in E2 as (? & k3 & [= <- <-] & [= <- <-]).
    split; [|done]. by intros b q [= <- <-]. }
  apply bind_inv in E as (lv & k3 & [= <- <-] & E). apply bind_inv in E as (? & k4 & E4 & E). apply assert_inv in E4 as [_ [= -> ->]].
  apply bind_inv in E as (t & k5 & E5 & E). unfold load_thread in E5. destruct (threads k2 !! cpu k); [|done]. injection E5 as <- <-.
  apply bind_inv in E as (? & k6 & E6 & E). apply assert_inv in E6 as [_ [= -> ->]].
  apply bind_inv in E as (ok & k7 & E7 & E).
  assert (k7 = k2) as ->.
  { unfold is_thread in E7. destruct (nx =? NULL); [by injection E7 as <- <-|]. apply bind_inv in E7 as (? & ? & E8 & [= _ <-]).
    unfold load_thread in E8. destruct (threads k2 !! nx); [|done]. by injection E8 as <- <-. }
  apply bind_inv in E as (? & k8 & E8 & E). apply assert_inv in E8 as [_ [= -> ->]]. destruct Hn as [Hq Hc].
  destruct (Z.eqb_spec (cpu k) nx) as [Ex|Ex]; simpl in E.
  - apply tail_ready in E as (Er & Ec & Et). split; [|done]. exists []. rewrite app_nil_r. intros b q Hb.
    destruct (Hq b q Hb) as [-> E2']. split; congruence.
  - apply bind_inv in E as (? & k9 & [= <- <-] & E). apply tail_ready in E as (Er & Ec & Et). split; [|done].
    exists []. rewrite app_nil_r. intros b q Hb. destruct (Hq b q Hb) as [-> E2']. by rewrite Er, Ec.
Qed.

(** ** Every operation is fair *)

Ltac switching_tac := repeat first
  [ progress cbv beta zeta | apply switching_schedule | apply switching_bind; [solve [quiet_tac]|intros ?] ].

Lemma switching_block : switching thread_block.
Proof. unfold thread_block, intr_context, intr_get_level. switching_tac. Qed.

Lemma switching_yield : switching thread_yield.
Proof. unfold thread_yield, intr_context. switching_tac. Qed.

Lemma switching_exit : switching thread_exit.
Proof. unfold thread_exit, intr_context. switching_tac. Qed.

Lemma fair_down_loop s lv : fair (sema_down_loop s lv).
Proof.
  unfold sema_down_loop. apply fair_bind; [quiet_tac|]. intros x. destruct (value x =? 0); [|apply quiet_fair; quiet_tac].
  apply fair_bind; [quiet_tac|]. intros ?. apply fair_bind; [quiet_tac|]. intros ?. apply fair_bind; [quiet_tac|]. intros ?.
  apply switching_fair, switching_block.
Qed.

Lemma quiet_sema_up s : quiet (sema_up s).
Proof. unfold sema_up. quiet_tac. Qed.

Lemma fair_exec ws i : fair (exec ws i).
Proof.
  destruct i; cbn [exec].
  - apply quiet_fair. quiet_tac.
  - apply quiet_fair. quiet_tac.
  - unfold kernel_thread. apply quiet_fair. apply quiet_bind; [apply (quiet_set_level true)|]. intros ?. quiet_tac.
  - apply switching_fair, switching_yield.
  - apply switching_fair, switching_exit.
  - apply quiet_fair. quiet_tac.
  - apply quiet_fair. unfold thread_create, init_thread. quiet_tac.
  - apply quiet_fair. unfold take_tid. quiet_tac.
  - apply quiet_fair. unfold finish_create, init_wait_status, sema_init. quiet_tac.
  - apply quiet_fair. unfold idle_start. apply quiet_bind; [quiet_tac|]. intros ?. apply quiet_bind; [quiet_tac|]. intros ?.
    apply quiet_bind; [apply quiet_sema_up|]. intros ?. quiet_tac.
  - apply switching_fair. unfold idle_loop. apply switching_bind; [quiet_tac|]. intros ?. apply switching_bind; [quiet_tac|]. intros ?.
    apply switching_block.
  - apply quiet_fair. unfold idle_halt. quiet_tac.
  - unfold sema_down, intr_context. apply fair_bind; [quiet_tac|]. intros ?. apply fair_bind; [quiet_tac|]. intros ?.
    apply fair_bind; [quiet_tac|]. intros ?. apply fair_down_loop.
  - apply fair_down_loop.
  - apply quiet_fair. quiet_tac.
  - apply quiet_fair, quiet_sema_up.
  - apply quiet_fair. unfold lock_acquire, intr_context. quiet_tac.
  - apply quiet_fair. unfold set_holder. quiet_tac.
  - apply quiet_fair. unfold lock_try_acquire. quiet_tac.
  - apply quiet_fair. unfold lock_release. quiet_tac.
  - apply quiet_fair. unfold cond_wait, sema_init, intr_context, running_thread. quiet_tac.
  - apply quiet_fair. unfold cond_signal, intr_context. quiet_tac.
  - apply quiet_fair. unfold cond_broadcast. quiet_tac.
Qed.

Lemma fair_run ws : fair (run_step ws).
Proof.
  unfold run_step. apply fair_bind; [quiet_tac|]. intros k. apply fair_bind; [quiet_tac|]. intros t.
  destruct (code t); [apply quiet_fair; quiet_tac|]. apply fair_bind; [quiet_tac|]. intros ?. apply fair_exec.
Qed.

Lemma created_appends k k' : created k k' -> appends k k'.
Proof.
  intros [a v k1 _ _ E|l k1 _ _ E|c k1 _ E]; [eapply quiet_store_sema|eapply quiet_lock_init|eapply quiet_store_cond]; exact E.
Qed.
