(* ===== verification/SchedProps.v ===== *)
(** * The scheduler's theorems

    No step of a running kernel fails an assertion; locks exclude each other;
    a thread on the run queue is run after a bounded number of timer
    interrupts. *)

From stdpp Require Import options.
From S2P Require Import Prelude KList Kernel SchedInv SchedStep SchedCreate Fair.
Local Open Scope Z_scope.
Local Open Scope kernel_scope.

(** ** What the theorems speak of *)

(** The thread has passed the [sema_down] of [lock_acquire] and not yet stored
    itself as the holder, or has cleared the holder and not yet done the
    [sema_up] of [lock_release]. *)
Fixpoint passed (l : Z) (c : list instr) : bool :=
  match c with
  | [] => false
  | (SemaDown (OfLock _) | SemaDownLoop (OfLock _) _) :: c =>
      match c with [] => false | _ :: c => passed l c end
  | SetHolder l' :: c | SemaUp (OfLock l') :: c => (l' =? l) || passed l c
  | _ :: c => passed l c
  end.

(** The thread at [a] is between the [sema_down] and the [sema_up] of [l]. *)
Definition in_section (k : kern) (l a : Z) : Prop :=
  a <> NULL /\ locks k !! l = Some a \/ exists t, threads k !! a = Some t /\ passed l (code t) = true.

(** An execution with [n] timer interrupts in which [a] does not run. *)
Inductive starving (a : Z) : nat -> kern -> kern -> Prop :=
  | starving_refl k : starving a 0 k k
  | starving_step n k k1 k2 : step k k1 -> cpu k1 <> a -> starving a n k1 k2 -> starving a n k k2
  | starving_tick n k k1 k2 : intr_on k = true -> timer_tick k = Done (tt, k1) -> cpu k1 <> a ->
      starving a n k1 k2 -> starving a (S n) k k2.

#[global] Instance fresh_ws_dec k ws : Decision (fresh_ws k ws).
Proof. unfold fresh_ws. apply _. Defined.

(** The machine before [thread_init], running on the stack of page [a]. *)
Definition power_on (a : Z) : kern :=
  mk_kern ∅ [] [] a NULL NULL false false false ∅ ∅ ∅ ∅ 1 (mk_stats 0 0 0 0 0).

(** [n] steps, with [ws] the block that [malloc] returns. *)
Fixpoint run (n : nat) (ws : Z) : MK unit :=
  match n with O => ret tt | S n => run_step ws ;; run n ws end.

(** [main] up to the return of [thread_start], with no interrupt on the way. *)
Definition boot (page idle_started ws : Z) : MK unit :=
  thread_init ;; run 6 ws ;; thread_start page idle_started ;; run 14 ws.

(** Runs the thread on the processor, with the blocks that [malloc] returns;
    stops when the thread is back in its own code. *)
Fixpoint drive (l : list Z) (k : kern) : option kern :=
  match l, threads k !! cpu k with
  | [], _ => Some k
  | _ :: _, None => None
  | ws :: l, Some t =>
      if decide (fresh_ws k ws) then
        match code t, run_step ws k with
        | [], _ => None
        | _, Done (_, k') => drive l k'
        | _, Fault _ => None
        end
      else None
  end.

(** ** The timer *)

Lemma thread_tick_ok k t :
  threads k !! cpu k = Some t -> cpu k <> NULL -> magic t = THREAD_MAGIC -> status t = THREAD_RUNNING -> in_external_intr k = true ->
  exists st, thread_ticks st = u32 (thread_ticks (stats k) + 1) /\
    thread_tick k = Done (tt, set_stats st (set_external true ((TIME_SLICE <=? thread_ticks st) || yield_on_return k) k)).
Proof.
  intros Ht Hn Hm Hs He. unfold thread_tick. rewrite (bind_done _ _ _ _ _ (thread_current_ok k t Ht Hn Hm Hs)).
  rewrite (bind_done _ _ _ t k) by (unfold load_thread; by rewrite Ht). rewrite (bind_done _ _ _ k k) by done. cbv zeta.
  set (s := if cpu k =? idle_thread k then _ else _).
  assert (Hts : thread_ticks s = thread_ticks (stats k)) by (unfold s; repeat case_match; done).
  set (st := mk_stats _ (u32 (thread_ticks s + 1)) _ _ _). exists st. split; [simpl; by rewrite Hts|].
  rewrite (bind_done _ _ _ tt (set_stats st k)) by done. change (u32 (thread_ticks s + 1)) with (thread_ticks st).
  destruct (TIME_SLICE <=? thread_ticks st); simpl orb.
  - unfold intr_yield_on_return. rewrite (bind_done _ _ _ true (set_stats st k)) by (unfold intr_context, gets; simpl; by rewrite He). done.
  - unfold ret. do 2 f_equal. destruct k; simpl in *. by subst.
Qed.

(** The state after the handler, before the return from the interrupt. *)
Definition ticked (k : kern) (st : kstats) : kern :=
  set_external false (TIME_SLICE <=? thread_ticks st) (set_stats st (set_intr false k)).

Lemma timer_state k :
  inv k -> exists st, thread_ticks st = u32 (thread_ticks (stats k) + 1) /\
    timer_tick k = (if TIME_SLICE <=? thread_ticks st then push_code [Iret] ;; thread_yield else modify (set_intr true)) (ticked k st).
Proof.
  intros I. destruct (i_cpu k I) as (t & Ht & Hs). destruct (b_thread k (i_base k I) _ _ Ht) as (Hn & Hm & _).
  pose proof (b_ext k (i_base k I)) as He. unfold timer_tick. rewrite (bind_done _ _ _ tt (set_intr false k)) by done.
  unfold intr_handler. rewrite (bind_done _ _ _ false (set_intr false k)) by done. rewrite (assert_true _ _ _ eq_refl).
  rewrite (bind_done _ _ _ false (set_intr false k)) by (unfold intr_context, gets; simpl; by rewrite He).
  rewrite (assert_true _ _ _ eq_refl). rewrite (bind_done _ _ _ tt (set_external true false (set_intr false k))) by done.
  set (k1 := let s := stats k in set_stats (mk_stats (i64 (ticks s + 1)) (thread_ticks s) (idle_ticks s) (kernel_ticks s) (user_ticks s))
    (set_external true false (set_intr false k))).
  destruct (thread_tick_ok k1 t Ht Hn Hm Hs eq_refl) as (st & Hst & E). exists st. split; [exact Hst|].
  erewrite bind_done; [|unfold timer_interrupt; erewrite bind_done; [exact E|reflexivity]].
  erewrite bind_done; [|reflexivity]. rewrite (assert_true _ _ _ eq_refl). erewrite bind_done; [|reflexivity].
  rewrite (assert_true _ _ _ eq_refl). erewrite bind_done; [|reflexivity]. erewrite bind_done; [|reflexivity].
  cbn [yield_on_return set_stats set_external k1]. by rewrite orb_false_r.
Qed.

Lemma timer_ok k : inv k -> intr_on k = true -> exists k', timer_tick k = Done (tt, k') /\ inv k'.
Proof.
  intros I Hon. destruct (i_cpu k I) as (t & Ht & Hs). destruct (timer_state k I) as (st & _ & ->).
  assert (Hnl : no_loop (code t)).
  { destruct (b_thread k (i_base k I) _ _ Ht) as (_ & _ & (_ & [_ Hnl] & _) & _). destruct (code t) as [|i c] eqn:E; [done|].
    unfold no_loop in *. simpl in *. rewrite Hnl, andb_true_r. destruct i; try done.
    pose proof (i_top k I t _ _ _ Ht E). congruence. }
  pose proof (at_call k t I Ht Hnl) as P. step_facts P. destruct (TIME_SLICE <=? thread_ticks st) eqn:Ey.
  - rewrite (bind_done _ _ _ _ _ (push_code_run (ticked k st) t [Iret] Ht)). cbn [app].
    assert (I1 : inv (popped (ticked k st) t (Iret :: code t))).
    { apply (control_ok k t Iret (code t) _ (Iret :: code t) P); try done; by constructor. }
    destruct (yield_ok _ (with_code (Iret :: code t) t) I1) as (k' & E & I' & _); [simpl; apply lookup_insert_eq|done|].
    by exists k'.
  - eexists. split; [done|].
    apply (control_ok k t Iret (code t) _ (code t) P); try done. simpl. rewrite insert_id; [done|]. by destruct t.
Qed.

(** ** Every step *)

Lemma at_run k t i rest :
  inv k -> threads k !! cpu k = Some t -> code t = i :: rest -> at_step k t i rest /\ instr_ok k (cpu k) i.
Proof.
  intros I Ht Hc. destruct (b_thread k (i_base k I) _ _ Ht) as (_ & _ & (H1 & [H2 H2'] & H3) & _). rewrite Hc in *.
  apply Forall_cons in H1 as [H1 H1']. split; [|done]. constructor; try done.
  - intros l. by rewrite Hc.
  - by rewrite Hc.
  - intros Hi. destruct (b_idle k (i_base k I)) as (u & Hu & _ & Hic). rewrite <- Hi, Ht in Hu. simplify_eq. by rewrite Hc in Hic.
  - destruct i; try done. intros _. by eapply (i_top k I t).
Qed.

Lemma run_ok k ws : inv k -> fresh_ws k ws -> exists k', run_step ws k = Done (tt, k') /\ inv k'.
Proof.
  intros I F. destruct (i_cpu k I) as (t & Ht & Hs). unfold run_step. rewrite (bind_done _ _ _ k k) by done.
  rewrite (bind_done _ _ _ t k) by (unfold load_thread; by rewrite Ht).
  destruct (code t) as [|i rest] eqn:Hc; [by exists k|]. rewrite (bind_done _ _ _ _ _ (update_thread_ok k (cpu k) t _ Ht)).
  fold (popped k t rest). destruct (at_run k t i rest I Ht Hc) as [P Hi].
  destruct i; try done; simpl in Hi.
  - by apply exec_set_level.
  - by apply exec_iret.
  - by apply exec_kernel_thread.
  - by apply exec_thread_unblock.
  - by apply exec_take_tid.
  - subst. by apply exec_finish_create.
  - by apply exec_idle_loop.
  - by apply exec_idle_halt.
  - by apply exec_sema_down; destruct Hi.
  - by apply exec_sema_down_loop; destruct Hi.
  - by apply exec_sema_up.
  - by apply exec_lock_acquire.
  - by apply exec_set_holder.
  - by apply exec_lock_release.
  - by apply exec_cond_signal; destruct Hi.
  - by apply exec_cond_broadcast; destruct Hi.
Qed.

Lemma call_ok k t i :
  inv k -> threads k !! cpu k = Some t -> code t = [] -> allowed k i -> exists k', exec NULL i k = Done (tt, k') /\ inv k'.
Proof.
  intros I Ht Hc Ha.
  assert (Hk : popped k t [] = k).
  { unfold popped. rewrite insert_id; [by destruct k|]. rewrite Ht. destruct t; simpl in *. by subst. }
  assert (Hnot : cpu k <> idle_thread k).
  { intros E. destruct (b_idle k (i_base k I)) as (u & Hu & _ & Hic). rewrite <- E, Ht in Hu. simplify_eq. by rewrite Hc in Hic. }
  assert (Hcall : forall j, one_target [j] -> disc (holds k (cpu k)) [j] -> (forall l, weight1 l j = 0) -> target [j] = None -> is_loop j = false -> at_step k t j []).
  { intros j H1 H2 H3 H4 H5. constructor; try done; rewrite ?Hc, ?H4, ?H5; try done. intros l. simpl. by rewrite H3. }
  destruct i; try done; simpl in Ha.
  - apply (exec_yield k t); [done..|]. by rewrite Hc.
  - by apply (exec_exit k t).
  - pose proof (proj1 Ha). subst. by apply (exec_thread_create k t).
  - destruct s; try done. rewrite <- Hk. by apply exec_sema_down; [apply Hcall| |].
  - destruct s; try done. rewrite <- Hk. by apply exec_sema_try_down; [apply Hcall|].
  - destruct s; try done. rewrite <- Hk. by apply exec_sema_up; [apply Hcall|].
  - rewrite <- Hk. by apply exec_lock_acquire; [apply Hcall|]; try done; destruct Ha.
  - rewrite <- Hk. destruct Ha. by apply exec_lock_try_acquire; [apply Hcall| |].
  - rewrite <- Hk. by apply exec_lock_release, Hcall.
  - rewrite <- Hk. destruct Ha. by apply exec_cond_wait; [apply Hcall| |].
  - rewrite <- Hk. destruct Ha. by apply exec_cond_signal; [apply Hcall|].
  - rewrite <- Hk. destruct Ha as [Hcc Hh]. apply exec_cond_broadcast; [by apply Hcall|done|].
    apply bool_decide_eq_true in Hh. by exists (cpu k).
Qed.

Lemma step_inv k k' : inv k -> step k k' -> inv k'.
Proof.
  intros I [t ws k1 Ht Hc F E|t i k1 Ht Hc Hon Ha E|k1 Hon E|t k1 Ht Hc Hk].
  - destruct (run_ok k ws I F) as (k2 & E2 & I2). congruence.
  - destruct (call_ok k t i I Ht Hc Ha) as (k2 & E2 & I2). congruence.
  - destruct (timer_ok k I Hon) as (k2 & E2 & I2). congruence.
  - by apply (step_create_ok k t k1).
Qed.

Lemma steps_inv k k' : inv k -> rtc step k k' -> inv k'.
Proof. intros I H. induction H as [|? ? ? Hs Hr IH]; [done|]. by apply IH, (step_inv x). Qed.

(** ** A booted machine *)

Definition main_page : Z := 0xc000e000.
Definition idle_page : Z := 0xc0102000.
Definition idle_ws : Z := 0xc0103010.

Definition started : kern :=
  match boot idle_page (main_page + 0xf80) idle_ws (power_on main_page) with Done (_, k) => k | Fault _ => power_on 0 end.

Definition main_thread : thread :=
  mk_thread 1 THREAD_RUNNING (main_page + PGSIZE) PRI_DEFAULT 0 [idle_ws] 0 THREAD_MAGIC [].
Definition idle_struct : thread :=
  mk_thread 2 THREAD_BLOCKED (idle_page + PGSIZE - 44) PRI_MIN idle_ws [] 0 THREAD_MAGIC [IdleHalt].

Lemma started_threads : threads started = <[main_page := main_thread]> (<[idle_page := idle_struct]> ∅).
Proof. vm_compute. reflexivity. Qed.

#[local] Opaque started.

Lemma started_semas s x : semas started !! s = Some x -> 0 <= value x < 2 ^ 32 /\ waiters x = [].
Proof.
  intros H. apply elem_of_map_to_list in H.
  assert (E : forallb (fun p => (0 <=? value p.2) && (value p.2 <? 2 ^ 32) && match waiters p.2 with [] => true | _ => false end)
    (map_to_list (semas started)) = true) by (vm_compute; reflexivity).
  rewrite forallb_forall in E. apply list_elem_of_In, E in H. simpl in H. destruct (waiters x); [|by rewrite andb_false_r in H].
  rewrite andb_true_r, andb_true_iff, Z.leb_le, Z.ltb_lt in H. done.
Qed.

Lemma started_locks l h :
  locks started !! l = Some h -> h = NULL /\ semas started !! OfLock l = Some (mk_sema 1 []).
Proof.
  intros H. apply elem_of_map_to_list in H.
  assert (E : forallb (fun p => bool_decide (p.2 = NULL) && bool_decide (value <$> semas started !! OfLock p.1 = Some 1))
    (map_to_list (locks started)) = true) by (vm_compute; reflexivity).
  rewrite forallb_forall in E. apply list_elem_of_In, E in H. simpl in H. apply andb_true_iff in H as [H1 H2].
  apply bool_decide_eq_true in H1, H2. split; [done|]. destruct (semas started !! OfLock l) as [[v w]|] eqn:Es; [|done].
  destruct (started_semas _ _ Es) as [_ Hw]. simpl in *. congruence.
Qed.

Lemma started_ok : boot idle_page (main_page + 0xf80) idle_ws (power_on main_page) = Done (tt, started).
Proof. vm_compute. reflexivity. Qed.

Lemma two_threads_inv k :
  threads k = <[main_page := main_thread]> (<[idle_page := idle_struct]> ∅) ->
  cpu k = main_page -> idle_thread k = idle_page -> ready_list k = [] -> conds k = ∅ -> in_external_intr k = false ->
  is_Some (locks k !! tid_lock) ->
  (forall s x, semas k !! s = Some x -> 0 <= value x < 2 ^ 32 /\ waiters x = []) ->
  (forall l h, locks k !! l = Some h -> h = NULL /\ semas k !! OfLock l = Some (mk_sema 1 [])) -> inv k.
Proof.
  intros Hthreads Hcpu Hidle Hready Hconds Hext Htid Hsemas Hlocks.
  assert (Hthread : forall a t, threads k !! a = Some t -> a = main_page /\ t = main_thread \/ a = idle_page /\ t = idle_struct).
  { intros a t. rewrite Hthreads, !lookup_insert_Some, lookup_empty.
    intros [[<- <-]|[_ [[<- <-]|[_ ?]]]]; [by left|by right|done]. }
  assert (Hcr : forall c a, ~ creating k c a).
  { intros c a (t & Ht & Hg). by destruct (Hthread c t Ht) as [[-> ->]|[-> ->]]. }
  assert (Htot : forall l, total l (threads k) = 0).
  { intros l. rewrite Hthreads, !total_insert_new; [done|by rewrite lookup_empty|]. by rewrite lookup_insert_ne, lookup_empty. }
  constructor; [constructor| | |]; rewrite ?Hready, ?Hidle, ?Hconds, ?Hcpu; try done.
  - intros a t Ht. destruct (Hthread a t Ht) as [[-> ->]|[-> ->]]; (split_and!; [done|done| |done]).
    + by repeat constructor.
    + split_and!; [|done|done|done]. constructor; [simpl; by rewrite Hidle|constructor].
  - constructor.
  - intros a Ha. by apply not_elem_of_nil in Ha.
  - intros a t Ht. by destruct (Hthread a t Ht) as [[-> ->]|[-> ->]].
  - intros s x Hx. destruct (Hsemas s x Hx) as [? ->]. split; [done|constructor].
  - intros s x a Hx Ha. destruct (Hsemas s x Hx) as [_ E]. rewrite E in Ha. by apply not_elem_of_nil in Ha.
  - intros a t Ht Hb. destruct (Hthread a t Ht) as [[-> ->]|[-> ->]]; [done|by left].
  - intros c a Hc. by destruct (Hcr c a).
  - intros c c' a Hc. by destruct (Hcr c a).
  - exists idle_struct. by rewrite Hthreads, lookup_insert_ne, lookup_insert_eq.
  - intros l h Hl. destruct (Hlocks l h Hl) as [_ ->]. done.
  - intros l h x Hl Hx. destruct (Hlocks l h Hl) as [-> E]. rewrite E in Hx. simplify_eq. by rewrite Htot.
  - exists main_thread. by rewrite Hthreads, lookup_insert_eq.
  - intros a t Ht Hr. by destruct (Hthread a t Ht) as [[-> ->]|[-> ->]].
  - intros t s lv c Ht Hc. by destruct (Hthread _ t Ht) as [[? ->]|[? ->]].
Qed.

Lemma started_inv : inv started.
Proof.
  apply two_threads_inv; [exact started_threads| | | | | | |exact started_semas|exact started_locks]; vm_compute; try reflexivity.
  eexists. reflexivity.
Qed.

(** ** Shared lemmas of the theorems *)

Lemma drive_steps l k k' : drive l k = Some k' -> rtc step k k'.
Proof.
  revert k. induction l as [|ws l IH]; intros k H; simpl in H; [injection H as ->; constructor|].
  destruct (threads k !! cpu k) as [t|] eqn:Ht; [|done]. case_decide as F; [|done].
  destruct (code t) as [|i c] eqn:Hc; [done|]. destruct (run_step ws k) as [[[] k1]|] eqn:E; [|done].
  eapply rtc_l; [|by apply IH]. eapply step_run; [exact Ht|by rewrite Hc|exact F|exact E].
Qed.

Lemma passed_weight held c l : disc held c -> passed l c = true -> 0 < weight l c.
Proof.
  revert held. induction c as [c IH] using (induction_ltof1 _ (@length instr)). unfold ltof in IH. intros held Hd.
  destruct c as [|i c]; [done|].
  assert (IH' : forall held, disc held c -> passed l c = true -> 0 < weight l c) by (intros h; apply IH; simpl; lia).
  destruct i as [| | | | | | | | | | | |s|s ?| |s| | | | | | |]; cbn [passed weight weight1]; try (by apply (IH' held)); cbn [disc] in Hd;
    try (by apply (IH' _ (proj2 Hd))); try (destruct s as [a|l'|w]; try (by apply (IH' held))).
  - destruct Hd as [Hc Hd]. destruct c as [|[] c]; try done. subst. destruct Hd as [_ Hd]. cbn [weight weight1].
    intros Hp. apply IH in Hd; [|simpl; lia|done]. case_decide; lia.
  - destruct Hd as [Hc Hd]. destruct c as [|[] c]; try done. subst. destruct Hd as [_ Hd]. cbn [weight weight1].
    intros Hp. apply IH in Hd; [|simpl; lia|done]. case_decide; lia.
  - intros Hp. pose proof (disc_weight _ c l Hd). apply orb_true_iff in Hp as [->%Z.eqb_eq|Hp]; [rewrite decide_True by done; lia|].
    pose proof (IH' held Hd Hp). case_decide; lia.
  - destruct Hd as [_ Hd]. intros Hp. pose proof (disc_weight _ c l Hd).
    apply orb_true_iff in Hp as [->%Z.eqb_eq|Hp]; [rewrite decide_True by done; lia|].
    pose proof (IH' _ Hd Hp). case_decide; lia.
Qed.

Lemma total_two l k a b t u :
  base k -> threads k !! a = Some t -> threads k !! b = Some u -> a <> b ->
  weight l (code t) + weight l (code u) <= total l (threads k).
Proof.
  intros B Ha Hb Hne. pose proof (total_delete l (threads k) a t Ha) as E.
  assert (Hb' : delete a (threads k) !! b = Some u) by (by rewrite lookup_delete_ne).
  pose proof (total_delete l _ b u Hb') as E'.
  assert (0 <= total l (delete b (delete a (threads k)))); [|lia]. apply total_nonneg. intros c v Hc.
  apply lookup_delete_Some in Hc as [_ Hc]. apply lookup_delete_Some in Hc as [_ Hc].
  destruct (b_thread k B c v Hc) as (_ & _ & Hok & _). eapply disc_weight, (proj2 (proj2 Hok)).
Qed.

(** The timer moves the run queue on when the time slice is over. *)
Lemma timer_fair k k' :
  inv k -> 0 <= thread_ticks (stats k) < TIME_SLICE -> timer_tick k = Done (tt, k') ->
  ready_list k' = ready_list k /\ thread_ticks (stats k') = thread_ticks (stats k) + 1 /\ thread_ticks (stats k') < TIME_SLICE \/ switches k k'.
Proof.
  intros I Ht E. destruct (timer_state k I) as (st & Hst & E'). rewrite E' in E. unfold TIME_SLICE in *.
  rewrite u32_small in Hst by lia. destruct (Z.leb_spec 4 (thread_ticks st)).
  - right. apply bind_inv in E as (u & k1 & E1 & E2). apply quiet_push in E1. apply switching_yield in E2.
    pose proof (appends_switches _ _ _ E1 E2) as [H1 H2]. split; [exact H1|exact H2].
  - left. injection E as <-. simpl. split; [done|lia].
Qed.

Lemma step_fair k k' :
  inv k -> 0 <= thread_ticks (stats k) < TIME_SLICE -> step k k' ->
  (exists l, ready_list k' = ready_list k ++ l) /\ thread_ticks (stats k) <= thread_ticks (stats k') < TIME_SLICE \/ switches k k'.
Proof.
  intros I Ht [t ws k1 _ _ F E|t i k1 _ _ _ Ha E|k1 _ E|t k1 _ _ Hk].
  - destruct (fair_run ws k tt k1 E) as [(Hl & _ & Hs)|?]; [left; rewrite Hs; split; [done|lia]|by right].
  - destruct (fair_exec NULL i k tt k1 E) as [(Hl & _ & Hs)|?]; [left; rewrite Hs; split; [done|lia]|by right].
  - destruct (timer_fair k k1 I Ht E) as [(Hl & Hs & Hlt)|?]; [left|by right]. split; [exists []; by rewrite app_nil_r|lia].
  - apply created_appends in Hk as (Hl & _ & Hs). left. rewrite Hs. split; [done|lia].
Qed.

(** A switch moves every waiting thread one place forward. *)
Lemma switch_forward k k' a p :
  switches k k' -> ready_list k !! p = Some a -> cpu k' <> a ->
  exists q, p = S q /\ ready_list k' !! q = Some a /\ thread_ticks (stats k') = 0.
Proof.
  intros ((l & Hq) & Ht) Hp Hc. destruct (ready_list k) as [|b r] eqn:E; [done|]. destruct (Hq b (r ++ l) eq_refl) as [Hb Hr].
  destruct p as [|p]; simpl in Hp; [congruence|]. exists p. split_and!; [done| |done]. rewrite Hr. by apply lookup_app_l_Some.
Qed.

(** ** Theorems *)


(** C1: No assertion of thread.c, synch.c or interrupt.c fails in a running
    kernel: in every state reached by any interleaving of threads that call
    the kernel as documented, timer interrupts and thread switches, the
    invariant holds, the running thread can go on, any call it is allowed to
    make returns, and the timer interrupt can be handled. *)
Theorem kernel_never_panics k0 k :
  inv k0 -> rtc step k0 k ->
  inv k /\
  (forall ws, fresh_ws k ws -> exists k', run_step ws k = Done (tt, k')) /\
  (forall t i, threads k !! cpu k = Some t -> code t = [] -> allowed k i -> exists k', exec NULL i k = Done (tt, k')) /\
  (intr_on k = true -> exists k', timer_tick k = Done (tt, k')).
Proof.
  intros I0 Hr. pose proof (steps_inv k0 k I0 Hr) as I. split_and!; [done| | |].
  - intros ws F. destruct (run_ok k ws I F) as (k' & E & _). by exists k'.
  - intros t i Ht Hc Ha. destruct (call_ok k t i I Ht Hc Ha) as (k' & E & _). by exists k'.
  - intros Hon. destruct (timer_ok k I Hon) as (k' & E & _). by exists k'.
Qed.

(** C2: Locks exclude each other.  In every reachable state at most one thread
    is between the [sema_down] of [lock_acquire] and the [sema_up] of
    [lock_release] for a given lock, and then the lock's semaphore is zero. *)
Theorem lock_mutual_exclusion k0 k l a b x :
  inv k0 -> rtc step k0 k -> is_Some (locks k !! l) -> semas k !! OfLock l = Some x ->
  in_section k l a -> in_section k l b -> a = b /\ value x = 0.
Proof.
  intros I0 Hr [h Hl] Hx Ha Hb. pose proof (i_base k (steps_inv k0 k I0 Hr)) as B.
  pose proof (b_tokens k B l h x Hl Hx) as Htok. destruct (b_sema k B _ x Hx) as [Hv _]. pose proof (base_total l k B) as Htot.
  assert (Hw : forall c t, threads k !! c = Some t -> passed l (code t) = true -> 0 < weight l (code t)).
  { intros c t Ht Hp. destruct (b_thread k B c t Ht) as (_ & _ & (_ & _ & Hd) & _). by eapply passed_weight. }
  assert (Hin : forall c t, threads k !! c = Some t -> passed l (code t) = true -> 0 < total l (threads k)).
  { intros c t Ht Hp. pose proof (total_member l k c t B Ht). pose proof (Hw c t Ht Hp). lia. }
  destruct Ha as [[Han Ha]|(t & Ht & Hpt)], Hb as [[Hbn Hb]|(u & Hu & Hpu)]; destruct (Z.eqb_spec h NULL) as [Hn|Hn]; try congruence.
  - split; [congruence|lia].
  - pose proof (Hin b u Hu Hpu). lia.
  - pose proof (Hin a t Ht Hpt). lia.
  - destruct (decide (a = b)) as [->|Hne].
    + pose proof (Hin b u Hu Hpu). split; [done|lia].
    + pose proof (total_two l k a b t u B Ht Hu Hne). pose proof (Hw a t Ht Hpt). pose proof (Hw b u Hu Hpu). lia.
  - pose proof (Hin a t Ht Hpt). lia.
Qed.

(** C19: Nobody waits on the run queue for ever.  A thread that is number [p] of
    the queue, counted from 0, runs before [TIME_SLICE * (p + 1)] timer
    interrupts have happened, whatever the running threads do; until then it
    stays on the queue. *)
Theorem bounded_waiting k k' a p n :
  inv k -> 0 <= thread_ticks (stats k) < TIME_SLICE -> ready_list k !! p = Some a -> starving a n k k' ->
  Z.of_nat n < TIME_SLICE * (Z.of_nat p + 1) /\ a ∈ ready_list k'.
Proof.
  intros I Ht Hp Hs.
  assert (Hgoal : Z.of_nat n + thread_ticks (stats k) <= TIME_SLICE * Z.of_nat p + (TIME_SLICE - 1) /\ a ∈ ready_list k').
  2:{ destruct Hgoal. split; [lia|done]. }
  unfold TIME_SLICE in *. revert p I Ht Hp.
  induction Hs as [k|n k k1 k2 Hst Hc Hs IH|n k k1 k2 Hon E Hc Hs IH]; intros p I Ht Hp.
  - split; [lia|]. by apply list_elem_of_lookup_2 in Hp.
  - pose proof (step_inv k k1 I Hst) as I1. destruct (step_fair k k1 I Ht Hst) as [[(l & Hl) Htk]|Hsw].
    + unfold TIME_SLICE in *. destruct (IH p I1) as [H1 H2]; [lia|rewrite Hl; by apply lookup_app_l_Some|]. split; [lia|done].
    + destruct (switch_forward k k1 a p Hsw Hp Hc) as (q & -> & Hq & Hz). destruct (IH q I1) as [H1 H2]; [lia|done|]. split; [lia|done].
  - assert (I1 : inv k1) by (apply (step_inv k k1 I); by apply step_timer).
    destruct (timer_fair k k1 I Ht E) as [(Hl & Htk & Hlt)|Hsw].
    + unfold TIME_SLICE in *. destruct (IH p I1) as [H1 H2]; [lia|by rewrite Hl|]. split; [lia|done].
    + destruct (switch_forward k k1 a p Hsw Hp Hc) as (q & -> & Hq & Hz). destruct (IH q I1) as [H1 H2]; [lia|done|]. split; [lia|done].
Qed.

(** ** Concrete executions *)

Definition new_page : Z := 0xc0104000.

(** The initial thread calls [thread_create]. *)
Definition creating_one : kern :=
  match exec NULL (ThreadCreate new_page PRI_DEFAULT OwnCode) started with Done (_, k) => k | Fault _ => started end.

(** In the critical section of [allocate_tid], and after the return. *)
Definition in_tid_lock : kern := default started (drive [0xc0103100; 0xc0103100] creating_one).
Definition spawned : kern :=
  default started (drive (replicate 7 0xc0103100 ++ [0xc0103200]) creating_one).

Lemma creating_steps : rtc step started creating_one.
Proof.
  apply rtc_once. eapply (step_call started main_thread (ThreadCreate new_page PRI_DEFAULT OwnCode)).
  - rewrite started_threads. apply lookup_insert_eq.
  - reflexivity.
  - vm_compute. reflexivity.
  - split_and!; [reflexivity|done|done|vm_compute; reflexivity|]. right. vm_compute. reflexivity.
  - vm_compute. reflexivity.
Qed.

Lemma in_tid_lock_steps : rtc step started in_tid_lock.
Proof.
  etransitivity; [exact creating_steps|]. apply (drive_steps [0xc0103100; 0xc0103100]). vm_compute. reflexivity.
Qed.

Lemma spawned_steps : rtc step started spawned.
Proof.
  etransitivity; [exact creating_steps|]. apply (drive_steps (replicate 7 0xc0103100 ++ [0xc0103200])). vm_compute. reflexivity.
Qed.

Definition tick1 (k : kern) : kern := match timer_tick k with Done (_, k') => k' | Fault _ => k end.

Lemma kernel_never_panics_witness :
  inv spawned /\ (exists k', timer_tick spawned = Done (tt, k')).
Proof.
  destruct (kernel_never_panics started spawned started_inv spawned_steps) as (H & _ & _ & Ht).
  split; [exact H|]. apply Ht. vm_compute. reflexivity.
Defined.

Lemma lock_mutual_exclusion_witness :
  in_section in_tid_lock tid_lock main_page /\ main_page = main_page /\ value (mk_sema 0 []) = 0.
Proof.
  assert (H : in_section in_tid_lock tid_lock main_page).
  { right. eexists. split; vm_compute; reflexivity. }
  split; [exact H|].
  apply (lock_mutual_exclusion started in_tid_lock tid_lock main_page main_page (mk_sema 0 []) started_inv in_tid_lock_steps); try exact H.
  - vm_compute. eexists. reflexivity.
  - vm_compute. reflexivity.
Defined.

Lemma bounded_waiting_witness : 3 < TIME_SLICE * (0 + 1) /\ new_page ∈ ready_list (tick1 (tick1 (tick1 spawned))).
Proof.
  apply (bounded_waiting spawned (tick1 (tick1 (tick1 spawned))) new_page 0 3).
  - exact (steps_inv started spawned started_inv spawned_steps).
  - vm_compute. split; [discriminate|reflexivity].
  - vm_compute. reflexivity.
  - do 3 (eapply starving_tick; [vm_compute; reflexivity|vm_compute; reflexivity|vm_compute; discriminate|]).
    apply starving_refl.
Defined.
