(* ===== verification/Vaddr.v ===== *)
(** * threads/vaddr.h and threads/pte.h: addresses and page table entries

    Virtual addresses and page table entries are 32-bit numbers; the functions
    are the bit operations of the headers.  The lemmas say what they compute in
    terms of pages, and that an entry gives back the page it was made from. *)

From stdpp Require Import options.
From S2P Require Import Prelude KList.
Local Open Scope Z_scope.
Local Open Scope kernel_scope.

(** ** vaddr.h *)

Definition BITMASK (shift cnt : Z) : Z := u32 (Z.shiftl (u32 (Z.shiftl 1 cnt) - 1) shift).

Definition PGSHIFT : Z := 0.
Definition PGBITS : Z := 12.
Definition PGSIZE : Z := Z.shiftl 1 PGBITS.
Definition PGMASK : Z := BITMASK PGSHIFT PGBITS.

Definition pg_ofs (va : Z) : Z := Z.land va PGMASK.
Definition pg_no (va : Z) : Z := Z.shiftr va PGBITS.
Definition pg_round_up (va : Z) : Z := Z.land (u32 (va + PGSIZE - 1)) (u32 (Z.lnot PGMASK)).
Definition pg_round_down (va : Z) : Z := Z.land va (u32 (Z.lnot PGMASK)).

Definition PHYS_BASE : Z := 0xc0000000.

Definition is_user_vaddr (vaddr : Z) : bool := vaddr <? PHYS_BASE.
Definition is_kernel_vaddr (vaddr : Z) : bool := PHYS_BASE <=? vaddr.

Definition ptov (paddr : Z) : outcome Z :=
  let? _ := oassert (paddr <? PHYS_BASE) in
  Done (u32 (paddr + PHYS_BASE)).

Definition vtop (vaddr : Z) : outcome Z :=
  let? _ := oassert (is_kernel_vaddr vaddr) in
  Done (u32 (vaddr - PHYS_BASE)).

(** ** pte.h *)

Definition PTSHIFT : Z := PGBITS.
Definition PTBITS : Z := 10.
Definition PTSPAN : Z := Z.shiftl (Z.shiftl 1 PTBITS) PGBITS.
Definition PTMASK : Z := BITMASK PTSHIFT PTBITS.
Definition PDSHIFT : Z := PTSHIFT + PTBITS.
Definition PDBITS : Z := 10.
Definition PDMASK : Z := BITMASK PDSHIFT PDBITS.

Definition pt_no (va : Z) : Z := Z.shiftr (Z.land va PTMASK) PTSHIFT.
Definition pd_no (va : Z) : Z := Z.shiftr va PDSHIFT.

Definition PTE_FLAGS : Z := 0x00000fff.
Definition PTE_ADDR : Z := 0xfffff000.
Definition PTE_P : Z := 0x1.
Definition PTE_W : Z := 0x2.
Definition PTE_U : Z := 0x4.
Definition PTE_A : Z := 0x20.
Definition PTE_D : Z := 0x40.

Definition pde_create (pt : Z) : outcome Z :=
  let? _ := oassert (pg_ofs pt =? 0) in
  let? p := vtop pt in
  Done (Z.lor (Z.lor (Z.lor p PTE_U) PTE_P) PTE_W).

Definition pde_get_pt (pde : Z) : outcome Z :=
  let? _ := oassert (negb (Z.land pde PTE_P =? 0)) in
  ptov (Z.land pde PTE_ADDR).

Definition pte_create_kernel (page : Z) (writable : bool) : outcome Z :=
  let? _ := oassert (pg_ofs page =? 0) in
  let? p := vtop page in
  Done (Z.lor (Z.lor p PTE_P) (if writable then PTE_W else 0)).

Definition pte_create_user (page : Z) (writable : bool) : outcome Z :=
  let? p := pte_create_kernel page writable in
  Done (Z.lor p PTE_U).

Definition pte_get_page (pte : Z) : outcome Z := ptov (Z.land pte PTE_ADDR).

(** The entry of a user page. *)
Definition user_entry (page : Z) (writable : bool) : Z := Z.lor (page - PHYS_BASE) (if writable then 7 else 5).

(** ** Pages *)

Lemma pgsize_eq : PGSIZE = 4096.
Proof. reflexivity. Qed.

Lemma pg_ofs_mod va : pg_ofs va = va mod 4096.
Proof. unfold pg_ofs. change PGMASK with (Z.ones 12). by rewrite Z.land_ones. Qed.

Lemma pg_no_div va : pg_no va = va / 4096.
Proof. unfold pg_no, PGBITS. by rewrite Z.shiftr_div_pow2. Qed.

Lemma land_page va : is_u32 va -> Z.land va 0xfffff000 = va - va mod 4096.
Proof.
  intros Hva. change 0xfffff000 with (Z.ldiff (Z.ones 32) (Z.ones 12)).
  replace (Z.land va (Z.ldiff (Z.ones 32) (Z.ones 12))) with (Z.ldiff (Z.land va (Z.ones 32)) (Z.ones 12)).
  2:{ apply Z.bits_inj'. intros j Hj. rewrite !Z.ldiff_spec, !Z.land_spec, Z.ldiff_spec. by rewrite andb_assoc. }
  rewrite Z.land_ones, Z.mod_small by (unfold is_u32 in Hva; lia).
  rewrite Z.ldiff_ones_r by lia. rewrite Z.shiftl_mul_pow2, Z.shiftr_div_pow2 by lia.
  change (2 ^ 12) with 4096. pose proof (Z.div_mod va 4096). lia.
Qed.

Lemma pg_round_down_eq va : is_u32 va -> pg_round_down va = va - va mod 4096.
Proof. apply land_page. Qed.

(** An aligned address has none of the flag bits. *)
Lemma page_flags p f : p mod 4096 = 0 -> 0 <= f < 4096 -> Z.land p f = 0.
Proof.
  intros Hm Hf. apply Z.bits_inj'. intros j Hj. rewrite Z.land_spec, Z.bits_0. destruct (Z.lt_ge_cases j 12).
  - assert (Z.testbit p j = false) as ->; [|done]. rewrite <- (Z.mod_pow2_bits_low p 12 j) by lia.
    change (2 ^ 12) with 4096. rewrite Hm. apply Z.bits_0.
  - assert (Z.testbit f j = false) as ->; [|by rewrite andb_false_r].
    destruct (decide (f = 0)) as [->|]; [apply Z.bits_0|]. apply Z.bits_above_log2; [lia|].
    apply Z.log2_lt_pow2; [lia|]. eapply Z.lt_le_trans; [apply Hf|]. change 4096 with (2 ^ 12). apply Z.pow_le_mono_r; lia.
Qed.

(** An entry made from an aligned address and flags: its address bits and its flags. *)
Lemma entry_addr p f : is_u32 p -> p mod 4096 = 0 -> 0 <= f < 4096 -> Z.lor p f = p + f /\ Z.land (Z.lor p f) 0xfffff000 = p.
Proof.
  intros Hp Hm Hf. assert (E : Z.lor p f = p + f).
  { symmetry. rewrite <- Z.add_lor_land, page_flags by done. lia. }
  split; [done|]. rewrite E. unfold is_u32 in Hp.
  assert (p + f < 2 ^ 32) by (pose proof (Z.div_mod p 4096); lia).
  rewrite land_page by (unfold is_u32; lia).
  replace ((p + f) mod 4096) with f; [lia|]. rewrite <- Zplus_mod_idemp_l, Hm. simpl. by rewrite Z.mod_small.
Qed.

Lemma entry_flags p f g : p mod 4096 = 0 -> 0 <= g < 4096 -> Z.land (Z.lor p f) g = Z.land f g.
Proof. intros Hp Hg. by rewrite Z.land_lor_distr_l, page_flags by done. Qed.

(** ** Indices *)

Lemma pd_no_page v o : 0 <= o < 4096 -> pd_no (4096 * v + o) = v / 1024.
Proof.
  intros Ho. unfold pd_no. change PDSHIFT with 22. rewrite Z.shiftr_div_pow2 by lia. change (2 ^ 22) with (4096 * 1024).
  rewrite <- Z.div_div by lia. f_equal. rewrite (Z.mul_comm 4096), Z.div_add_l, (Z.div_small o) by lia. lia.
Qed.

Lemma pt_no_page v o : 0 <= o < 4096 -> pt_no (4096 * v + o) = v mod 1024.
Proof.
  intros Ho. unfold pt_no. change PTSHIFT with 12. change PTMASK with 0x3ff000. rewrite Z.shiftr_land.
  change (Z.shiftr 0x3ff000 12) with (Z.ones 10). rewrite Z.land_ones, Z.shiftr_div_pow2 by lia. change (2 ^ 12) with 4096.
  f_equal. rewrite (Z.mul_comm 4096), Z.div_add_l, (Z.div_small o) by lia. lia.
Qed.

(** ** Entries *)

Section entries.
Context (a : Z).
Hypothesis Halign : a mod 4096 = 0.
Hypothesis Hrange : PHYS_BASE <= a < 2 ^ 32.

Lemma vtop_run : vtop a = Done (a - PHYS_BASE).
Proof using Hrange. unfold vtop, is_kernel_vaddr. rewrite (proj2 (Z.leb_le _ _)) by lia. simpl. f_equal. apply u32_small. unfold PHYS_BASE in *. lia. Qed.

Lemma ptov_run : ptov (a - PHYS_BASE) = Done a.
Proof using Hrange.
  unfold ptov. rewrite (proj2 (Z.ltb_lt _ _)) by (unfold PHYS_BASE in *; lia). simpl. f_equal. rewrite u32_small; unfold PHYS_BASE in *; lia.
Qed.

Lemma frame_align : (a - PHYS_BASE) mod 4096 = 0 /\ is_u32 (a - PHYS_BASE).
Proof using Halign Hrange.
  split; [|unfold is_u32, PHYS_BASE in *; lia]. change PHYS_BASE with (786432 * 4096) in *. rewrite <- Zminus_mod_idemp_l, Halign.
  replace (0 - 786432 * 4096) with (0 + (-786432) * 4096) by lia. by rewrite Z_mod_plus_full.
Qed.

Lemma pde_create_run : pde_create a = Done (a - PHYS_BASE + 7).
Proof using Halign Hrange.
  unfold pde_create. rewrite pg_ofs_mod, Halign, vtop_run. simpl. destruct frame_align as [H1 H2]. f_equal.
  rewrite <- !Z.lor_assoc. by apply entry_addr.
Qed.

Lemma pde_get_pt_run : pde_get_pt (a - PHYS_BASE + 7) = Done a.
Proof using Halign Hrange.
  destruct frame_align as [H1 H2]. destruct (entry_addr _ 7 H2 H1) as [E1 E2]; [lia|]. unfold pde_get_pt. rewrite <- E1, entry_flags by done.
  simpl. change PTE_ADDR with 0xfffff000. rewrite E2. apply ptov_run.
Qed.

Lemma pte_create_user_run w : pte_create_user a w = Done (user_entry a w).
Proof using Halign Hrange.
  unfold pte_create_user, pte_create_kernel. rewrite pg_ofs_mod, Halign, vtop_run. simpl. f_equal. unfold user_entry.
  rewrite <- !Z.lor_assoc. by destruct w.
Qed.
End entries.
