(* ===== verification/Args.v ===== *)
(** * userprog/process.c: the arguments of a program

    [start_process] splits the command line into words and pushes them on the
    new process's stack, with the pointers that [main] expects.  Memory is as
    the running thread addresses it: the kernel's strings and the mapped pages
    of the user stack. *)

From stdpp Require Import options.
From S2P Require Import Prelude Bytes KList Mem Str Vaddr.
Local Open Scope Z_scope.
Local Open Scope kernel_scope.

(** ** The code *)

(** A [malloc] of a [word_t] is taken to succeed: the source does not test it. *)
Record word_t := mk_word { word : Z; length_word : Z }.

(** [delim]: the address of the string constant of one space. *)
Fixpoint get_word_list (fuel : nat) (delim rest : Z) : M mem (list word_t) :=
  match fuel with
  | O => fail OutOfFuel
  | S fuel =>
      let! (token, rest) := strtok_r rest delim rest in
      if token =? NULL then ret []
      else
        let! n := strlen token in
        let! l := get_word_list fuel delim rest in
        ret (mk_word token (i32 (n + 1)) :: l)
  end.

(** The arrays [argv] and [argv_lengths]. *)
Fixpoint get_argv_from_list (word_lst : list word_t) : list Z * list Z :=
  match word_lst with
  | [] => ([NULL], [])
  | w :: l => let '(argv, argv_lengths) := get_argv_from_list l in (word w :: argv, u32 (length_word w) :: argv_lengths)
  end.

Definition stack_alignment_calc (stack_pointer argc : Z) : Z :=
  let end_stack_pointer := u32 (stack_pointer - 16 - 4 * argc) in
  if negb (end_stack_pointer mod 16 =? 12) then
    if 12 <? end_stack_pointer mod 16 then end_stack_pointer mod 16 - 12
    else end_stack_pointer mod 16 + 4
  else 0.

(** [for (int i = 0; i < 4; i++)] *)
Fixpoint memset_word_loop (n : nat) (current_sp load i : Z) : M mem unit :=
  match n with
  | O => ret tt
  | S n =>
      memset (current_sp + i) (Z.land (Z.shiftr load (8 * i)) 0xff) 1 ;;
      memset_word_loop n current_sp load (i + 1)
  end.

Definition memset_word (current_sp load : Z) : M mem unit := memset_word_loop 4 current_sp load 0.

(** [for (int j = word_length - 1; j >= 0; j--)], [n] characters to go. *)
Fixpoint push_chars (n : nat) (word current_sp : Z) : M mem Z :=
  match n with
  | O => ret current_sp
  | S n =>
      let! c := load8 (word + Z.of_nat n) in
      let current_sp := current_sp - 1 in
      memset current_sp c 1 ;;
      push_chars n word current_sp
  end.

(** [for (int i = 0; i < argc; i++)]: the addresses and the stack pointer. *)
Fixpoint push_words (argv argv_lengths : list Z) (current_sp : Z) : M mem (list Z * Z) :=
  match argv, argv_lengths with
  | w :: argv, n :: argv_lengths =>
      let! current_sp := push_chars (Z.to_nat (i32 n)) w current_sp in
      let! (address_lst, sp) := push_words argv argv_lengths current_sp in
      ret (u32 current_sp :: address_lst, sp)
  | _, _ => ret ([], current_sp)
  end.

(** [for (int i = argc - 1; i >= 0; i--)], from the last address to the first. *)
Fixpoint push_addresses (l : list Z) (current_sp : Z) : M mem Z :=
  match l with
  | [] => ret current_sp
  | a :: l =>
      let current_sp := current_sp - 4 in
      memset_word current_sp (i32 a) ;;
      push_addresses l current_sp
  end.

(** [esp] is the value of [*if_esp], [if_esp] the address of the variable; the
    new value on success. *)
Definition load_arguments_to_stack (argc : Z) (argv argv_lengths : list Z) (esp if_esp : Z) : M mem (option Z) :=
  let! (address_lst, sp) := push_words (take (Z.to_nat argc) argv) argv_lengths esp in
  let stack_alignment := u32 (stack_alignment_calc sp argc) in
  let sp := sp - stack_alignment in
  memset sp 0 stack_alignment ;;
  let sp := sp - 4 in
  memset_word sp 0 ;;
  let! sp := push_addresses (reverse address_lst) sp in
  let sp := sp - 4 in
  memset_word sp (i32 (sp + 4)) ;;
  let sp := sp - 4 in
  memset_word sp argc ;;
  let sp := sp - 4 in
  memset_word sp 69 ;;
  if u32 if_esp <? u32 sp then ret None else ret (Some sp).

(** ** What [main] finds *)

Definition word_at (m : mem) (a w : Z) : Prop := bytes_at m a (le_encode 4 w).

(** A frame for a call of [main] at [sp]: the return address, [argc] and [argv],
    which points to as many pointers to the words, and a null pointer. *)
Record main_frame (m : mem) (sp : Z) (ws : list (list Z)) : Prop := {
  frame_argc : word_at m (sp + 4) (Z.of_nat (length ws));
  frame_argv : word_at m (sp + 8) (sp + 12);
  frame_args i w : ws !! i = Some w -> exists a, word_at m (sp + 12 + 4 * Z.of_nat i) a /\ sp < a /\ str_at m a w;
  frame_null : word_at m (sp + 12 + 4 * Z.of_nat (length ws)) 0
}.

(** The bytes of the words with their terminators. *)
Definition text (ws : list (list Z)) : list Z := mjoin (map (fun w => w ++ [0]) (reverse ws)).

(** The most that the arguments take. *)
Definition args_size (ws : list (list Z)) : Z := Z.of_nat (length (text ws)) + 4 * Z.of_nat (length ws) + 31.

(** ** Stores *)

Lemma memset_byte m a c : is_Some (m !! a) -> a <> 0 -> is_byte c -> memset a c 1 m = Done (a, write a [c] m).
Proof.
  intros Hm Ha Hc. unfold memset, block_assert, NULL. rewrite assert_true by (by rewrite (proj2 (Z.eqb_neq a 0))).
  change (Z.to_nat 1) with 1%nat. cbn [memset_loop]. rewrite (bind_done _ _ m tt (write a [c] m)); [reflexivity|].
  rewrite (bind_done _ _ _ _ _ (store8_run m a c Hm Hc)). reflexivity.
Qed.

Lemma memset_zero n : forall m a, mapped m a n -> memset_loop n a 0 m = Done (tt, write a (replicate n 0) m).
Proof.
  induction n as [|n IH]; intros m a Hm; [done|]. cbn [memset_loop replicate write].
  assert (is_Some (m !! a)) as Ha by (destruct (Hm 0%nat) as [x Hx]; [lia|exists x; rewrite <- Hx; f_equal; lia]).
  rewrite (bind_done _ _ _ _ _ (store8_run m a 0 Ha ltac:(unfold is_byte; lia))). apply IH.
  apply (write_mapped a [0]). apply (mapped_sub m a (S n)); [exact Hm|lia|lia].
Qed.

Lemma shift_byte x i : 0 <= i -> Z.land (Z.shiftr x (8 * i)) 255 = x / 2 ^ (8 * i) mod 256.
Proof. intros Hi. change 255 with (Z.ones 8). rewrite Z.land_ones by lia. rewrite Z.shiftr_div_pow2 by lia. reflexivity. Qed.

Lemma memset_word_loop_run n : forall m sp x i, mapped m (sp + i) n -> 0 < sp -> 0 <= i ->
  memset_word_loop n sp x i m = Done (tt, write (sp + i) (le_encode n (x / 2 ^ (8 * i))) m).
Proof.
  induction n as [|n IH]; intros m sp x i Hm Hsp Hi; [done|]. cbn [memset_word_loop le_encode write].
  assert (is_Some (m !! (sp + i))) as Ha by (destruct (Hm 0%nat) as [y Hy]; [lia|exists y; rewrite <- Hy; f_equal; lia]).
  rewrite shift_byte by lia.
  rewrite (bind_done _ _ _ _ _ (memset_byte m (sp + i) _ Ha ltac:(lia) ltac:(unfold is_byte; apply Z.mod_pos_bound; lia))).
  rewrite IH; [|apply write_mapped; apply (mapped_sub m (sp + i) (S n)); [exact Hm|lia|lia]|lia|lia].
  cbn [write]. rewrite Z.add_assoc. rewrite Z.div_div by lia.
  replace (2 ^ (8 * i) * 256) with (2 ^ (8 * (i + 1))); [reflexivity|].
  replace (8 * (i + 1)) with (8 * i + 8) by lia. rewrite Z.pow_add_r by lia. reflexivity.
Qed.

Lemma memset_word_run m sp x : mapped m sp 4 -> 0 < sp -> memset_word sp x m = Done (tt, write sp (le_encode 4 x) m).
Proof.
  intros Hm Hsp. unfold memset_word. rewrite memset_word_loop_run; [|by rewrite Z.add_0_r|lia|lia].
  rewrite Z.mul_0_r, Z.div_1_r, Z.add_0_r. reflexivity.
Qed.

Lemma le_encode_i32 x : le_encode 4 (i32 x) = le_encode 4 x.
Proof.
  transitivity (le_encode 4 (le_decode (le_encode 4 (i32 x)))).
  { symmetry. apply (le_encode_decode (le_encode 4 (i32 x))). apply le_encode_bytes. }
  rewrite le_decode_encode. transitivity (le_encode 4 (le_decode (le_encode 4 x))).
  - rewrite le_decode_encode. f_equal. unfold i32. change (8 * Z.of_nat 4) with 32.
    rewrite Zminus_mod_idemp_l. f_equal. lia.
  - apply (le_encode_decode (le_encode 4 x)). apply le_encode_bytes.
Qed.

(** Two stores, one below the other. *)
Lemma write_below a l b k m : a + Z.of_nat (length l) = b -> write a l (write b k m) = write a (l ++ k) m.
Proof.
  intros E. apply map_eq. intros c. rewrite !lookup_write. rewrite length_app.
  destruct (decide (a <= c < a + Z.of_nat (length l))).
  - rewrite decide_True by lia. rewrite lookup_app_l by lia. reflexivity.
  - destruct (decide (b <= c < b + Z.of_nat (length k))).
    + rewrite decide_True by lia. rewrite lookup_app_r by lia. f_equal. lia.
    + rewrite decide_False by lia. reflexivity.
Qed.

(** ** Pushing the words *)

Lemma text_cons w ws : text (w :: ws) = text ws ++ w ++ [0].
Proof. unfold text. rewrite reverse_cons, map_app, join_app. cbn. by rewrite app_nil_r. Qed.

(** Where the words go, from [sp] down. *)
Fixpoint addresses (sp : Z) (ws : list (list Z)) : list Z :=
  match ws with
  | [] => []
  | w :: ws => let a := sp - Z.of_nat (length w) - 1 in a :: addresses a ws
  end.

Lemma length_addresses ws : forall sp, length (addresses sp ws) = length ws.
Proof. induction ws as [|w ws IH]; intros sp; [done|]. cbn. by rewrite IH. Qed.

Lemma addresses_text m ws : forall sp, bytes_at m (sp - Z.of_nat (length (text ws))) (text ws) ->
  forall i w, ws !! i = Some w -> exists a, addresses sp ws !! i = Some a /\ bytes_at m a (w ++ [0]) /\
    sp - Z.of_nat (length (text ws)) <= a < sp.
Proof.
  induction ws as [|v ws IH]; intros sp Hb i w Hi; [done|]. rewrite text_cons, !length_app in *. cbn [length] in *.
  apply bytes_at_app in Hb as [Ht Hv]. set (a := sp - Z.of_nat (length v) - 1).
  replace (sp - Z.of_nat (length (text ws) + (length v + 1)) + Z.of_nat (length (text ws))) with a in Hv by lia.
  destruct i as [|i]; cbn in Hi.
  - injection Hi as <-. exists a. split; [reflexivity|]. split; [exact Hv|lia].
  - destruct (IH a) with (i := i) (w := w) as (b & Eb & Hw & Hr); [|exact Hi|].
    + replace (a - Z.of_nat (length (text ws))) with (sp - Z.of_nat (length (text ws) + (length v + 1))) by lia. exact Ht.
    + exists b. split; [exact Eb|]. split; [exact Hw|lia].
Qed.

(** Bytes at [a] and a region of [n] bytes under [sp] do not meet. *)
Definition away (a : Z) (k : nat) (sp : Z) (n : nat) : Prop := a + Z.of_nat k <= sp - Z.of_nat n \/ sp <= a.

Lemma push_chars_run l : forall m w sp, bytes_at m w l -> Forall is_byte l -> mapped m (sp - Z.of_nat (length l)) (length l) ->
  away w (length l) sp (length l) -> Z.of_nat (length l) < sp ->
  push_chars (length l) w sp m = Done (sp - Z.of_nat (length l), write (sp - Z.of_nat (length l)) l m).
Proof.
  induction l as [|c l IH] using rev_ind; intros m w sp Hb Hl Hm Hd Hsp; [cbn; by rewrite Z.sub_0_r|].
  rewrite length_app in *. cbn [length] in *. rewrite Nat.add_1_r in *. cbn [push_chars]. apply bytes_at_app in Hb as [Hbl Hbc].
  apply Forall_app in Hl as [Hl Hc]. apply Forall_cons in Hc as [Hc _]. apply bytes_at_cons in Hbc as [Hbc _].
  rewrite (bind_done _ _ _ _ _ (load8_run _ _ _ Hbc)).
  assert (is_Some (m !! (sp - 1))) as Hs.
  { destruct (Hm (length l)) as [x Hx]; [lia|]. exists x. rewrite <- Hx. f_equal. lia. }
  rewrite (bind_done _ _ _ _ _ (memset_byte m (sp - 1) c Hs ltac:(lia) Hc)). unfold away in Hd.
  rewrite IH; [|eapply bytes_at_frame; [exact Hbl|apply write_only|cbn; lia]|exact Hl| |unfold away; lia|lia].
  - replace (sp - 1 - Z.of_nat (length l)) with (sp - Z.of_nat (S (length l))) by lia. rewrite write_below by lia. reflexivity.
  - apply write_mapped. apply (mapped_sub m (sp - Z.of_nat (S (length l))) (S (length l))); [exact Hm|lia|lia].
Qed.

(** The strings [ws] at [argv], away from the region under [sp]. *)
Definition strings_at (m : mem) (argv : list Z) (ws : list (list Z)) (sp : Z) (n : nat) : Prop :=
  Forall2 (fun a w => str_at m a w /\ away a (S (length w)) sp n) argv ws.

Lemma str_is_byte s : Forall (fun x => 0 < x < 256) s -> Forall is_byte (s ++ [0]).
Proof. intros H. apply Forall_app. split; [apply (Forall_impl _ _ _ H); unfold is_byte; lia|]. repeat constructor; unfold is_byte; lia. Qed.

Lemma push_words_run ws : forall m argv rest sp, strings_at m argv ws sp (length (text ws)) ->
  Forall (fun w => Z.of_nat (length w) + 1 < 2 ^ 31) ws -> mapped m (sp - Z.of_nat (length (text ws))) (length (text ws)) ->
  Z.of_nat (length (text ws)) < sp <= 2 ^ 32 ->
  push_words (argv ++ rest) (map (fun w => Z.of_nat (length w) + 1) ws) sp m =
    Done ((addresses sp ws, sp - Z.of_nat (length (text ws))), write (sp - Z.of_nat (length (text ws))) (text ws) m).
Proof.
  induction ws as [|w ws IH]; intros m argv rest sp Hs Hl Hm Hsp.
  - inversion Hs; subst. cbn [map app]. destruct rest; cbn [push_words]; cbn; by rewrite Z.sub_0_r.
  - inversion Hs as [|a ? argv' ? [Ha Hw] Hs']; subst. cbn [app map push_words]. rewrite text_cons in *. rewrite !length_app in *. cbn [length] in *.
    apply Forall_cons in Hl as [Hl Hls]. rewrite i32_small by (unfold is_i32; lia).
    destruct Ha as [Hb Hbyte]. unfold away in Hw.
    assert (Hlen : length (w ++ [0]) = Z.to_nat (Z.of_nat (length w) + 1)) by (rewrite length_app; cbn; lia).
    assert (E : push_chars (length (w ++ [0])) a sp m =
      Done (sp - Z.of_nat (length (w ++ [0])), write (sp - Z.of_nat (length (w ++ [0]))) (w ++ [0]) m)).
    { apply push_chars_run; [exact Hb|by apply str_is_byte| |unfold away; lia|lia].
      apply (mapped_sub m (sp - Z.of_nat (length (text ws) + (length w + 1))) (length (text ws) + (length w + 1))); [exact Hm|lia|lia]. }
    rewrite Hlen in E. rewrite (bind_done _ _ _ _ _ E). rewrite Z2Nat.id by lia. set (sp' := sp - (Z.of_nat (length w) + 1)).
    set (m1 := write sp' (w ++ [0]) m). assert (Hin : only_within sp' (length (w ++ [0])) m m1) by apply write_only.
    assert (E' : push_words (argv' ++ rest) (map (fun w => Z.of_nat (length w) + 1) ws) sp' m1 =
      Done ((addresses sp' ws, sp' - Z.of_nat (length (text ws))), write (sp' - Z.of_nat (length (text ws))) (text ws) m1)).
    { apply IH; [|exact Hls| |lia].
      - eapply Forall2_impl; [exact Hs'|]. intros b v [Hv Hv']. unfold away in *. split; [|lia].
        eapply str_at_frame; [exact Hv|exact Hin|]. rewrite Hlen. lia.
      - apply write_mapped. apply (mapped_sub m (sp - Z.of_nat (length (text ws) + (length w + 1))) (length (text ws) + (length w + 1))); [exact Hm|lia|lia]. }
    rewrite (bind_done _ _ _ _ _ E'). rewrite u32_small by lia. cbn [addresses].
    replace (sp - Z.of_nat (length w) - 1) with sp' by lia. replace (sp' - Z.of_nat (length (text ws))) with (sp - Z.of_nat (length (text ws) + (length w + 1))) by lia.
    unfold m1. rewrite write_below by lia. reflexivity.
Qed.

Lemma push_addresses_run l : forall m sp, mapped m (sp - 4 * Z.of_nat (length l)) (4 * length l) -> 4 * Z.of_nat (length l) < sp ->
  push_addresses l sp m = Done (sp - 4 * Z.of_nat (length l), write (sp - 4 * Z.of_nat (length l)) (words_to_bytes (reverse l)) m).
Proof.
  induction l as [|a l IH]; intros m sp Hm Hsp; [cbn; by rewrite Z.sub_0_r|]. cbn [push_addresses length] in *.
  rewrite (bind_done _ _ _ _ _ (memset_word_run m (sp - 4) (i32 a) ltac:(eapply (mapped_sub m _ (4 * S (length l))); [exact Hm|lia|lia]) ltac:(lia))).
  rewrite IH; [|apply write_mapped; eapply (mapped_sub m _ (4 * S (length l))); [exact Hm|lia|lia]|lia]. rewrite le_encode_i32.
  assert (Hlen : length (words_to_bytes (reverse l)) = (4 * length l)%nat) by by rewrite length_words_to_bytes, length_reverse.
  rewrite write_below by lia. rewrite reverse_cons. unfold words_to_bytes at 2. rewrite map_app, concat_app. cbn [map concat]. rewrite app_nil_r.
  replace (sp - 4 - 4 * Z.of_nat (length l)) with (sp - 4 * Z.of_nat (S (length l))) by lia. reflexivity.
Qed.

(** The frame ends 12 bytes past a multiple of 16, as if [main] had been called. *)
Lemma alignment_run sp argc : 0 <= sp - 16 - 4 * argc < 2 ^ 32 ->
  0 <= stack_alignment_calc sp argc < 16 /\ (sp - stack_alignment_calc sp argc - 16 - 4 * argc) mod 16 = 12.
Proof.
  intros H. unfold stack_alignment_calc. rewrite u32_small by exact H. set (e := sp - 16 - 4 * argc) in *.
  assert (Hmod : 0 <= e mod 16 < 16) by (apply Z.mod_pos_bound; lia). pose proof (Z.div_mod e 16 ltac:(lia)) as Hdm.
  assert (Hmain : forall a, (exists k, e - a = 16 * k + 12) -> (sp - a - 16 - 4 * argc) mod 16 = 12).
  { intros a [k Hk]. replace (sp - a - 16 - 4 * argc) with (12 + k * 16) by lia. rewrite Z.mod_add by lia. reflexivity. }
  destruct (Z.eqb_spec (e mod 16) 12) as [E|E]; cbn [negb].
  - split; [lia|]. apply Hmain. exists (e / 16). lia.
  - destruct (Z.ltb_spec 12 (e mod 16)); (split; [lia|]); apply Hmain; [exists (e / 16)|exists (e / 16 - 1)]; lia.
Qed.

(** The bytes of the frame at [sp], with [al] bytes of padding. *)
Definition frame_bytes (sp : Z) (addrs : list Z) (al : nat) (ws : list (list Z)) : list Z :=
  le_encode 4 69 ++ le_encode 4 (Z.of_nat (length ws)) ++ le_encode 4 (sp + 12) ++ words_to_bytes addrs ++
  le_encode 4 0 ++ replicate al 0 ++ text ws.

Lemma length_frame sp addrs al ws : length addrs = length ws ->
  length (frame_bytes sp addrs al ws) = (16 + 4 * length ws + al + length (text ws))%nat.
Proof.
  intros H. unfold frame_bytes. rewrite !length_app, !length_le_encode, length_words_to_bytes, length_replicate. lia.
Qed.

Section pushing.
Context (m : mem) (argv : list Z) (ws : list (list Z)) (esp if_esp : Z).
Let argc := Z.of_nat (length ws).
Let size := Z.to_nat (args_size ws).
Hypothesis Hstr : strings_at m argv ws esp (length (text ws)).
Hypothesis Hlen : Forall (fun w => Z.of_nat (length w) + 1 < 2 ^ 31) ws.
Hypothesis Hmap : mapped m (esp - Z.of_nat size) size.
Hypothesis Hesp : args_size ws < esp <= 2 ^ 32.
Hypothesis Hif : esp <= if_esp < 2 ^ 32.

Let al := stack_alignment_calc (esp - Z.of_nat (length (text ws))) argc.
Let top := esp - Z.of_nat (length (text ws)) - al.
Let sp := top - 4 - 4 * argc - 12.

Lemma frame_bounds : 0 <= al < 16 /\ sp mod 16 = 12 /\ esp - Z.of_nat size <= sp /\ 0 < sp.
Proof using Hesp.
  clear Hif. unfold size, sp, top, args_size in *. fold argc in Hesp |- *.
  destruct (alignment_run (esp - Z.of_nat (length (text ws))) argc) as [H1 H2]; [lia|]. fold al in H1, H2.
  split; [exact H1|]. split; [|lia]. rewrite <- H2. f_equal. lia.
Qed.

Lemma region_mapped m' b k : (forall a n, mapped m a n -> mapped m' a n) -> esp - Z.of_nat size <= b -> b + Z.of_nat k <= esp -> mapped m' b k.
Proof using Hmap. intros Hm Hb Hk. apply Hm. apply (mapped_sub m _ size _ _ Hmap Hb). lia. Qed.

Lemma load_arguments_run rest :
  load_arguments_to_stack argc (argv ++ rest) (map (fun w => Z.of_nat (length w) + 1) ws) esp if_esp m =
    Done (Some sp, write sp (frame_bytes sp (addresses esp ws) (Z.to_nat al) ws) m).
Proof using Hstr Hlen Hmap Hesp Hif.
  destruct frame_bounds as (Hal & _ & Hlo & Hsp). assert (Hn : length argv = length ws) by exact (Forall2_length _ _ _ Hstr).
  assert (Hsize : Z.of_nat size = Z.of_nat (length (text ws)) + 4 * argc + 31) by (unfold size, args_size; lia).
  assert (Hreg : forall n b k, esp - Z.of_nat size <= b -> b + Z.of_nat k <= esp -> forall l, mapped (write n l m) b k).
  { intros n b k Hb Hk l. apply region_mapped; [|exact Hb|exact Hk]. intros. by apply write_mapped. }
  unfold load_arguments_to_stack. unfold argc at 1. rewrite Nat2Z.id. rewrite take_app_le by lia. rewrite <- Hn, firstn_all, <- (app_nil_r argv).
  rewrite (bind_done _ _ _ _ _ (push_words_run ws m argv [] esp Hstr Hlen
    ltac:(apply (region_mapped m); [done|lia|lia]) ltac:(unfold args_size in Hesp; lia))).
  fold al. rewrite u32_small by lia. fold top. set (m0 := write _ (text ws) m).
  assert (E0 : memset top 0 al m0 = Done (top, write top (replicate (Z.to_nat al) 0 ++ text ws) m)).
  { unfold memset, block_assert, NULL. rewrite assert_true by (rewrite (proj2 (Z.eqb_neq top 0)) by (unfold sp in *; lia); done).
    rewrite (bind_done _ _ _ _ _ (memset_zero (Z.to_nat al) m0 top ltac:(apply Hreg; [unfold sp in *; lia|unfold top; lia]))). unfold m0.
    rewrite write_below by (rewrite length_replicate; unfold top; lia). reflexivity. }
  rewrite (bind_done _ _ _ _ _ E0).
  rewrite (bind_done _ _ _ _ _ (memset_word_run _ (top - 4) 0 ltac:(apply Hreg; unfold sp, top in *; lia) ltac:(unfold sp in *; lia))).
  rewrite write_below by (rewrite length_le_encode; lia).
  assert (Hr : length (reverse (addresses esp ws)) = length ws) by by rewrite length_reverse, length_addresses.
  rewrite (bind_done _ _ _ _ _ (push_addresses_run (reverse (addresses esp ws)) _ (top - 4)
    ltac:(rewrite Hr; apply Hreg; unfold sp, top, argc in *; lia) ltac:(rewrite Hr; unfold sp, argc in *; lia))).
  rewrite reverse_involutive, Hr. fold argc. rewrite write_below by (rewrite length_words_to_bytes, length_addresses; unfold argc; lia).
  set (sp0 := top - 4 - 4 * argc).
  rewrite (bind_done _ _ _ _ _ (memset_word_run _ (sp0 - 4) _ ltac:(apply Hreg; unfold sp0, sp, top in *; lia) ltac:(unfold sp0, sp in *; lia))).
  rewrite le_encode_i32, write_below by (rewrite length_le_encode; lia).
  rewrite (bind_done _ _ _ _ _ (memset_word_run _ (sp0 - 4 - 4) _ ltac:(apply Hreg; unfold sp0, sp, top in *; lia) ltac:(unfold sp0, sp in *; lia))).
  rewrite write_below by (rewrite length_le_encode; lia).
  rewrite (bind_done _ _ _ _ _ (memset_word_run _ (sp0 - 4 - 4 - 4) _ ltac:(apply Hreg; unfold sp0, sp, top in *; lia) ltac:(unfold sp0, sp in *; lia))).
  rewrite write_below by (rewrite length_le_encode; lia).
  replace (sp0 - 4 - 4 - 4) with sp by (unfold sp, sp0; lia). rewrite !u32_small by (unfold sp, top in *; lia).
  rewrite (proj2 (Z.ltb_ge _ _)) by (unfold sp, top in *; lia).
  replace (sp0 - 4 + 4) with (sp + 12) by (unfold sp, sp0; lia). unfold frame_bytes. reflexivity.
Qed.
End pushing.

(** ** The words of the command line *)

(** A word of the list: its string and its length, within [n] bytes of [p]. *)
Definition word_for (m : mem) (p : Z) (n : nat) (x : word_t) (w : list Z) : Prop :=
  str_at m (word x) w /\ length_word x = Z.of_nat (length w) + 1 /\ p <= word x /\ word x + Z.of_nat (length w) <= p + Z.of_nat n.

Lemma word_for_mono m p n p' n' x w : word_for m p n x w -> p' <= p -> p + Z.of_nat n <= p' + Z.of_nat n' -> word_for m p' n' x w.
Proof. intros (H1 & H2 & H3 & H4) Hp Hn. split; [exact H1|]. split; [exact H2|lia]. Qed.

Lemma get_word_list_run ds d : 0 < d -> forall n m p s, str_at m d ds -> 0 < p -> str_at m p s ->
  d + Z.of_nat (length ds) < p \/ p + Z.of_nat (length s) <= d -> (length s < n)%nat -> Z.of_nat (length s) < 2 ^ 31 - 1 ->
  exists l m', get_word_list n d p m = Done (l, m') /\
    Forall2 (word_for m' p (length s)) l (words (in_str ds) s) /\ only_within p (length s) m m'.
Proof.
  intros Hd n. induction n as [|n IH]; intros m p s Hds Hp Hs Hdis Hn Hlen; [lia|]. cbn [get_word_list].
  destruct (strtok_r_run ds d m p p p s Hd Hds Hp Hs) as (t & save' & m' & E & Hc); [by destruct (p =? NULL)|].
  rewrite (bind_done _ _ _ _ _ E). revert Hdis Hn Hs Hlen. destruct Hc as [l Hl|l t Hl Ht Hne|l t x k Hl Ht Hne Hx]; intros Hdis Hn Hs Hlen.
  - exists [], m. split; [done|]. split; [|done]. pose proof (words_seps ds l [] Hl) as W. rewrite app_nil_r in W. rewrite W. constructor.
  - rewrite (proj2 (Z.eqb_neq _ _)) by (unfold NULL; lia).
    assert (str_at m (p + Z.of_nat (length (l ++ t))) []) as He by (apply (str_at_app m p (l ++ t) []); by rewrite app_nil_r).
    apply str_at_app in Hs. rewrite length_app in *. assert (0 < length t)%nat by (destruct t; [done|cbn; lia]).
    rewrite (bind_done _ _ _ _ _ (strlen_run m _ t Hs ltac:(unfold NULL; lia) ltac:(lia))).
    destruct (IH m (p + Z.of_nat (length l + length t)) [] Hds ltac:(lia) He) as (ts & m' & E' & Hts & Hm); [simpl; lia..|].
    rewrite (bind_done _ _ _ _ _ E'). do 2 eexists. split; [reflexivity|]. simpl in Hts. inversion Hts; subst.
    assert (m' = m) as -> by (apply map_eq; intros b; apply Hm; simpl; lia).
    rewrite words_seps, words_plain by done. split; [|done]. constructor; [|constructor].
    unfold word_for. cbn [word length_word]. rewrite i32_small by (unfold is_i32; lia). split; [exact Hs|lia].
  - rewrite (proj2 (Z.eqb_neq _ _)) by (unfold NULL; lia). pose proof (str_at_cut _ _ _ _ _ _ Hs) as [Htok Hk].
    set (m1 := <[_ := 0]> m) in *. rewrite !length_app in *. simpl in Hdis, Hn, Hlen.
    assert (only_within p (length l + (length t + length (x :: k))) m m1) as Hm1 by (apply only_within_insert; rewrite ?length_app; simpl; lia).
    assert (str_at m1 d ds) as Hds1 by (eapply str_at_frame; [done|exact Hm1|simpl; lia]).
    rewrite (bind_done _ _ _ _ _ (strlen_run m1 _ t Htok ltac:(unfold NULL; lia) ltac:(lia))).
    destruct (IH m1 (p + Z.of_nat (length l + length t) + 1) k Hds1 ltac:(lia) Hk) as (ts & m' & E' & Hts & Hm); [lia..|].
    rewrite (bind_done _ _ _ _ _ E'). do 2 eexists. split; [reflexivity|]. rewrite words_seps, words_plain_app by done. split.
    + constructor.
      * unfold word_for. cbn [word length_word]. rewrite i32_small by (unfold is_i32; lia).
        split; [eapply str_at_frame; [exact Htok|exact Hm|lia]|cbn; lia].
      * eapply Forall2_impl; [exact Hts|]. intros y w Hy. eapply word_for_mono; [exact Hy|lia|cbn; lia].
    + eapply only_within_trans; [exact Hm1|]. eapply only_within_mono; [exact Hm|lia|cbn; lia].
Qed.

Lemma argv_run m p n l ws : Forall2 (word_for m p n) l ws -> Z.of_nat n < 2 ^ 31 - 1 ->
  get_argv_from_list l = (map word l ++ [NULL], map (fun w => Z.of_nat (length w) + 1) ws).
Proof.
  intros H Hn. induction H as [|x w l ws (_ & E & Hr) _ IH]; [reflexivity|]. cbn [get_argv_from_list]. rewrite IH, E. cbn [map app].
  rewrite u32_small by lia. reflexivity.
Qed.

Lemma word_for_strings m p n l ws esp k : Forall2 (word_for m p n) l ws -> esp <= p -> strings_at m (map word l) ws esp k.
Proof.
  intros H Hp. induction H as [|x w l ws (Hs & _ & Hr & _) _ IH]; [constructor|]. constructor; [|exact IH].
  split; [exact Hs|]. unfold away. lia.
Qed.

Lemma word_for_short m p n l ws : Forall2 (word_for m p n) l ws -> Z.of_nat n < 2 ^ 31 - 1 -> Forall (fun w => Z.of_nat (length w) + 1 < 2 ^ 31) ws.
Proof. intros H Hn. induction H as [|x w l ws (_ & _ & Hr) _ IH]; [constructor|]. constructor; [lia|exact IH]. Qed.

(** ** The frame *)

Lemma words_at m l : forall a, bytes_at m a (words_to_bytes l) -> forall i x, l !! i = Some x -> word_at m (a + 4 * Z.of_nat i) x.
Proof.
  induction l as [|y l IH]; intros a Hb i x Hi; [done|]. unfold words_to_bytes in Hb. cbn [map concat] in Hb.
  apply bytes_at_app in Hb as [Hy Hb]. rewrite length_le_encode in Hb. destruct i as [|i]; cbn in Hi.
  - injection Hi as ->. rewrite Z.add_0_r. exact Hy.
  - pose proof (IH _ Hb i x Hi) as Hx. replace (a + 4 * Z.of_nat (S i)) with (a + Z.of_nat 4 + 4 * Z.of_nat i) by lia. exact Hx.
Qed.

Lemma frame_main m sp esp al ws : bytes_at m sp (frame_bytes sp (addresses esp ws) al ws) ->
  sp + 16 + 4 * Z.of_nat (length ws) + Z.of_nat al + Z.of_nat (length (text ws)) = esp ->
  Forall (Forall (fun x => 0 < x < 256)) ws -> main_frame m sp ws.
Proof.
  intros Hb He Hws. unfold frame_bytes in Hb. apply bytes_at_app in Hb as [_ Hb]. apply bytes_at_app in Hb as [H1 Hb].
  apply bytes_at_app in Hb as [H2 Hb]. apply bytes_at_app in Hb as [H3 Hb]. apply bytes_at_app in Hb as [H4 Hb]. apply bytes_at_app in Hb as [_ H5].
  rewrite ?length_words_to_bytes, ?length_addresses, ?length_le_encode, ?length_replicate in *. split.
  - exact H1.
  - replace (sp + 8) with (sp + Z.of_nat 4 + Z.of_nat 4) by lia. exact H2.
  - intros i w Hi. destruct (addresses_text m ws esp) with (i := i) (w := w) as (a & Ha & Hw & Hr); [|exact Hi|].
    { match type of H5 with bytes_at m ?b _ => replace (esp - Z.of_nat (length (text ws))) with b by lia end. exact H5. }
    exists a. split; [|split; [lia|]].
    + replace (sp + 12) with (sp + Z.of_nat 4 + Z.of_nat 4 + Z.of_nat 4) by lia. exact (words_at m _ _ H3 i a Ha).
    + split; [exact Hw|]. rewrite Forall_forall in Hws. apply Hws. by eapply list_elem_of_lookup_2.
  - replace (sp + 12 + 4 * Z.of_nat (length ws)) with (sp + Z.of_nat 4 + Z.of_nat 4 + Z.of_nat 4 + Z.of_nat (4 * length ws)) by lia. exact H4.
Qed.

(** C24: the arguments of a command line reach [main].  For every command line
    whose words fit in the mapped stack, [start_process]'s calls split it at
    spaces and leave a frame for [main]: [argc] is the number of words, [argv]
    points to that many pointers followed by a null pointer, each to a copy of
    its word; the frame is aligned as after a call, and nothing outside the
    stack is written. *)
Theorem arguments_reach_main m a d s esp if_esp : str_at m a s -> str_at m d [32] -> 0 < d -> 0 < esp <= a ->
  d + 1 < a \/ a + Z.of_nat (length s) <= d -> Z.of_nat (length s) < 2 ^ 31 - 1 -> esp <= if_esp < 2 ^ 32 ->
  args_size (words (in_str [32]) s) < esp ->
  mapped m (esp - args_size (words (in_str [32]) s)) (Z.to_nat (args_size (words (in_str [32]) s))) ->
  exists l argv argv_lengths sp m1 m2, get_word_list (S (length s)) d a m = Done (l, m1) /\
    get_argv_from_list l = (argv, argv_lengths) /\
    load_arguments_to_stack (Z.of_nat (length l)) argv argv_lengths esp if_esp m1 = Done (Some sp, m2) /\
    main_frame m2 sp (words (in_str [32]) s) /\ sp mod 16 = 12 /\
    only_within (esp - args_size (words (in_str [32]) s)) (Z.to_nat (args_size (words (in_str [32]) s))) m1 m2.
Proof.
  intros Hs Hd Hd0 Ha Hdis Hlen Hif Hfit Hmap. set (ws := words (in_str [32]) s) in *.
  destruct (get_word_list_run [32] d Hd0 (S (length s)) m a s Hd ltac:(lia) Hs ltac:(cbn; lia) ltac:(lia) Hlen) as (l & m1 & E & Hl & Hw).
  fold ws in Hl. pose proof (argv_run _ _ _ _ _ Hl Hlen) as Ev. pose proof (word_for_strings _ _ _ _ _ esp (length (text ws)) Hl ltac:(lia)) as Hst.
  assert (Hsz : 0 <= args_size ws) by (unfold args_size; lia).
  assert (Hmap1 : mapped m1 (esp - Z.of_nat (Z.to_nat (args_size ws))) (Z.to_nat (args_size ws))).
  { rewrite Z2Nat.id by exact Hsz. intros i Hi. rewrite Hw by lia. by apply Hmap. }
  pose proof (load_arguments_run m1 (map word l) ws esp if_esp Hst (word_for_short _ _ _ _ _ Hl Hlen) Hmap1 ltac:(lia) Hif [NULL]) as El.
  destruct (frame_bounds ws esp ltac:(lia)) as (Hal & Hmod & Hlo & _). rewrite Z2Nat.id in Hlo by exact Hsz.
  rewrite <- (Forall2_length _ _ _ Hl) in El at 1. do 6 eexists. split; [exact E|]. split; [exact Ev|]. split; [exact El|].
  split; [|split; [exact Hmod|]].
  - eapply (frame_main _ _ esp); [apply write_bytes|lia|]. clear -Hl. induction Hl as [|x w l ws [[_ H] _] _ IH]; [constructor|]. by constructor.
  - eapply only_within_mono; [apply write_only|lia|]. rewrite length_frame by apply length_addresses. lia.
Qed.

(** ** Too many arguments *)

(** The first address under [sp] that is not mapped is [x]. *)
Definition ends_at (m : mem) (x sp : Z) : Prop := 0 < x < sp /\ m !! x = None /\ mapped m (x + 1) (Z.to_nat (sp - x - 1)).

Lemma ends_at_write m x sp a l : ends_at m x sp -> x < a -> ends_at (write a l m) x sp.
Proof.
  intros (H1 & H2 & H3) Ha. split; [exact H1|]. split; [|by apply write_mapped]. rewrite lookup_write, decide_False by lia. exact H2.
Qed.

Lemma ends_at_lower m x sp sp' : ends_at m x sp -> x < sp' <= sp -> ends_at m x sp'.
Proof. intros (H1 & H2 & H3) Hs. split; [lia|]. split; [exact H2|]. eapply mapped_sub; [exact H3|lia|lia]. Qed.

Lemma push_chars_fault x l : forall m w sp, bytes_at m w l -> Forall is_byte l -> ends_at m x sp -> away w (length l) sp (length l) ->
  sp - Z.of_nat (length l) <= x -> push_chars (length l) w sp m = Fault BadPointer.
Proof.
  induction l as [|c l IH] using rev_ind; intros m w sp Hb Hl He Hd Hx; pose proof He as (Hr & Hn & Hm); [cbn in Hx; lia|].
  rewrite length_app in *. cbn [length] in *. rewrite Nat.add_1_r in *. cbn [push_chars]. apply bytes_at_app in Hb as [Hbl Hbc].
  apply Forall_app in Hl as [Hl Hc]. apply Forall_cons in Hc as [Hc _]. apply bytes_at_cons in Hbc as [Hbc _].
  rewrite (bind_done _ _ _ _ _ (load8_run _ _ _ Hbc)). destruct (decide (sp - 1 = x)) as [E|E].
  - apply bind_fault. rewrite E. unfold memset, block_assert, NULL. rewrite assert_true by (by rewrite (proj2 (Z.eqb_neq x 0)) by lia).
    apply bind_fault. change (Z.to_nat 1) with 1%nat. cbn [memset_loop]. apply bind_fault. unfold store8. by rewrite Hn.
  - assert (is_Some (m !! (sp - 1))) as Hs.
    { destruct (Hm (Z.to_nat (sp - x - 2))) as [y Hy]; [lia|]. exists y. rewrite <- Hy. f_equal. lia. }
    rewrite (bind_done _ _ _ _ _ (memset_byte m (sp - 1) c Hs ltac:(lia) Hc)). unfold away in Hd.
    apply IH; [eapply bytes_at_frame; [exact Hbl|apply write_only|cbn; lia]|exact Hl| |unfold away; lia|lia].
    apply ends_at_write; [|lia]. apply (ends_at_lower m x sp); [exact He|lia].
Qed.

Lemma push_words_fault x ws : forall m argv rest sp, strings_at m argv ws sp (length (text ws)) ->
  Forall (fun w => Z.of_nat (length w) + 1 < 2 ^ 31) ws -> ends_at m x sp -> sp - Z.of_nat (length (text ws)) <= x ->
  push_words (argv ++ rest) (map (fun w => Z.of_nat (length w) + 1) ws) sp m = Fault BadPointer.
Proof.
  induction ws as [|w ws IH]; intros m argv rest sp Hs Hl He Hx; pose proof He as (Hr & _ & Hm); [cbn in Hx; lia|].
  inversion Hs as [|a ? argv' ? [[Hb Hbyte] Hw] Hs']; subst. cbn [app map push_words]. rewrite text_cons in *. rewrite !length_app in *. cbn [length] in *.
  apply Forall_cons in Hl as [Hl Hls]. rewrite i32_small by (unfold is_i32; lia). unfold away in Hw.
  assert (Hlen : length (w ++ [0]) = Z.to_nat (Z.of_nat (length w) + 1)) by (rewrite length_app; cbn; lia). rewrite <- Hlen.
  destruct (decide (sp - Z.of_nat (length (w ++ [0])) <= x)) as [Hin|Hout].
  - apply bind_fault. apply (push_chars_fault x); [exact Hb|by apply str_is_byte|exact He|unfold away; lia|exact Hin].
  - rewrite (bind_done _ _ _ _ _ (push_chars_run (w ++ [0]) m a sp Hb (str_is_byte _ Hbyte)
      ltac:(eapply mapped_sub; [exact Hm|lia|lia]) ltac:(unfold away; lia) ltac:(lia))).
    apply bind_fault. apply IH; [|exact Hls| |lia].
    + eapply Forall2_impl; [exact Hs'|]. intros b v [Hv Hv']. unfold away in *. split; [|lia].
      eapply str_at_frame; [exact Hv|apply write_only|]. lia.
    + apply ends_at_write; [|lia]. apply (ends_at_lower m x sp); [exact He|lia].
Qed.


(** ** The theorems at work *)

(** The command "ab c", a string of one space, and a stack under 1000. *)
Definition demo_args (bottom : Z) : mem :=
  write bottom (replicate (Z.to_nat (1000 - bottom)) 7) (write 2000 [97; 98; 32; 99; 0] (write 3000 [32; 0] ∅)).

Lemma demo_args_strings bottom : 0 < bottom <= 1000 ->
  str_at (demo_args bottom) 2000 [97; 98; 32; 99] /\ str_at (demo_args bottom) 3000 [32].
Proof.
  intros Hb. assert (Hw : only_within bottom (Z.to_nat (1000 - bottom)) (write 2000 [97; 98; 32; 99; 0] (write 3000 [32; 0] ∅)) (demo_args bottom)).
  { unfold demo_args. pose proof (write_only bottom (replicate (Z.to_nat (1000 - bottom)) 7)) as H. by rewrite length_replicate in H. }
  split; (split; [|repeat constructor]).
  - eapply bytes_at_frame; [apply write_bytes|exact Hw|]. cbn. lia.
  - eapply (bytes_at_frame (write 2000 [97; 98; 32; 99; 0] (write 3000 [32; 0] ∅))); [|exact Hw|cbn; lia].
    eapply bytes_at_frame; [apply (write_bytes 3000 [32; 0] ∅)|apply write_only|]. cbn. lia.
Qed.

Lemma demo_args_mapped bottom : 0 < bottom <= 1000 -> mapped (demo_args bottom) bottom (Z.to_nat (1000 - bottom)).
Proof.
  intros Hb. unfold demo_args. pose proof (bytes_at_mapped _ _ _ (write_bytes bottom (replicate (Z.to_nat (1000 - bottom)) 7)
    (write 2000 [97; 98; 32; 99; 0] (write 3000 [32; 0] ∅)))) as H. by rewrite length_replicate in H.
Qed.

Lemma arguments_reach_main_witness :
  exists l argv argv_lengths sp m1 m2, get_word_list 5 3000 2000 (demo_args 900) = Done (l, m1) /\
    get_argv_from_list l = (argv, argv_lengths) /\
    load_arguments_to_stack (Z.of_nat (length l)) argv argv_lengths 1000 4000 m1 = Done (Some sp, m2) /\
    main_frame m2 sp [[97; 98]; [99]] /\ sp mod 16 = 12.
Proof.
  assert (Ew : words (in_str [32]) [97; 98; 32; 99] = [[97; 98]; [99]]) by (vm_compute; reflexivity).
  destruct (arguments_reach_main (demo_args 900) 2000 3000 [97; 98; 32; 99] 1000 4000) as (l & argv & ns & sp & m1 & m2 & E1 & E2 & E3 & Hf & Hm & _).
  - apply demo_args_strings. lia.
  - apply demo_args_strings. lia.
  - lia.
  - lia.
  - cbn. lia.
  - cbn. lia.
  - lia.
  - rewrite Ew. vm_compute. reflexivity.
  - rewrite Ew. change (args_size [[97; 98]; [99]]) with 44. eapply mapped_sub; [apply (demo_args_mapped 900); lia|lia|lia].
  - exists l, argv, ns, sp, m1, m2. rewrite Ew in Hf. by split_and!.
Defined.

