(* ===== verification/Palloc.v ===== *)
(** * threads/palloc.c: the page allocator

    Two pools of pages, each with a bitmap of the used ones, over the memory of
    Mem.v: clearing and poisoning pages go through the [memset] of string.c.
    A pool's bitmap is kept beside the memory, not in it.  A lock is held or
    not; the kernel panics if it acquires one it holds.

    The theorem says that the pages given out are free ones of the right pool,
    that they stay apart until they are freed, and that no other memory
    changes. *)

From stdpp Require Import options.
From S2P Require Import Prelude Bytes KList Bitmap Mem Str Vaddr.
Local Open Scope Z_scope.
Local Open Scope kernel_scope.

Definition PAL_ASSERT : Z := 1.
Definition PAL_ZERO : Z := 2.
Definition PAL_USER : Z := 4.

Record pool := mk_pool { pool_lock : bool; used_map : bitmap; base : Z }.

Record pages := mk_pages { kernel_pool : pool; user_pool : pool; palloc_lock : bool; memory : mem }.

Abbreviation MP := (M pages).

Definition set_kernel_pool (p : pool) (s : pages) : pages := mk_pages p (user_pool s) (palloc_lock s) (memory s).
Definition set_user_pool (p : pool) (s : pages) : pages := mk_pages (kernel_pool s) p (palloc_lock s) (memory s).
Definition set_palloc_lock (b : bool) (s : pages) : pages := mk_pages (kernel_pool s) (user_pool s) b (memory s).
Definition set_memory (m : mem) (s : pages) : pages := mk_pages (kernel_pool s) (user_pool s) (palloc_lock s) m.

Definition on_mem {A} (f : M mem A) : MP A := fun s =>
  match f (memory s) with
  | Done (a, m) => Done (a, set_memory m s)
  | Fault e => Fault e
  end.

Definition acquire_palloc_lock : MP unit :=
  let! s := get in assert (negb (palloc_lock s)) ;; modify (set_palloc_lock true).
Definition release_palloc_lock : MP unit :=
  let! s := get in assert (palloc_lock s) ;; modify (set_palloc_lock false).

(** The pool that [user] selects. *)
Definition get_pool (user : bool) (s : pages) : pool := if user then user_pool s else kernel_pool s.
Definition set_pool (user : bool) (p : pool) (s : pages) : pages :=
  if user then set_user_pool p s else set_kernel_pool p s.

Definition acquire_pool_lock (user : bool) : MP unit :=
  let! s := get in
  let p := get_pool user s in
  assert (negb (pool_lock p)) ;; modify (set_pool user (mk_pool true (used_map p) (base p))).
Definition release_pool_lock (user : bool) : MP unit :=
  let! s := get in
  let p := get_pool user s in
  assert (pool_lock p) ;; modify (set_pool user (mk_pool false (used_map p) (base p))).

Definition set_used_map (user : bool) (b : bitmap) : MP unit :=
  let! s := get in
  let p := get_pool user s in
  modify (set_pool user (mk_pool (pool_lock p) b (base p))).

(** [ws]: the words that the buffer of the bitmap holds. *)
Definition init_pool (user : bool) (pbase page_cnt : Z) (ws : list Z) : MP unit :=
  let bm_pages := div_round_up (bitmap_buf_size page_cnt) PGSIZE in
  if page_cnt <? bm_pages then fail Panic
  else
    let page_cnt := page_cnt - bm_pages in
    let! b := lift (bitmap_create_in_buf page_cnt ws (u32 (bm_pages * PGSIZE))) in
    modify (set_pool user (mk_pool false b (u32 (pbase + u32 (bm_pages * PGSIZE))))).

Definition palloc_init (init_ram_pages user_page_limit : Z) (kws uws : list Z) : MP unit :=
  let! free_start := lift (ptov (1024 * 1024)) in
  let! free_end := lift (ptov (u32 (init_ram_pages * PGSIZE))) in
  let free_pages := u32 (Z.quot (i32 (free_end - free_start)) PGSIZE) in
  let user_pages := free_pages / 2 in
  let user_pages := if user_page_limit <? user_pages then user_page_limit else user_pages in
  let kernel_pages := free_pages - user_pages in
  modify (set_palloc_lock false) ;;
  init_pool false free_start kernel_pages kws ;;
  init_pool true (u32 (free_start + u32 (kernel_pages * PGSIZE))) user_pages uws.

Definition palloc_get_multiple (flags page_cnt : Z) : MP Z :=
  acquire_palloc_lock ;;
  let user := negb (Z.land flags PAL_USER =? 0) in
  if page_cnt =? 0 then release_palloc_lock ;; ret NULL
  else
    acquire_pool_lock user ;;
    let! s := get in
    let! r := lift (bitmap_scan_and_flip (used_map (get_pool user s)) 0 page_cnt false) in
    set_used_map user (snd r) ;;
    release_pool_lock user ;;
    let page_idx := fst r in
    let pages := if negb (page_idx =? BITMAP_ERROR)
                 then u32 (base (get_pool user s) + u32 (PGSIZE * page_idx)) else NULL in
    (if negb (pages =? NULL) then
       if negb (Z.land flags PAL_ZERO =? 0) then on_mem (memset pages 0 (u32 (PGSIZE * page_cnt))) ;; ret tt
       else ret tt
     else
       if negb (Z.land flags PAL_ASSERT =? 0) then fail Panic else ret tt) ;;
    release_palloc_lock ;;
    ret pages.

Definition palloc_get_page (flags : Z) : MP Z := palloc_get_multiple flags 1.

Definition page_from_pool (p : pool) (page : Z) : bool :=
  let page_no := pg_no page in
  let start_page := pg_no (base p) in
  let end_page := u32 (start_page + bitmap_size (used_map p)) in
  (start_page <=? page_no) && (page_no <? end_page).

Definition palloc_free_multiple (pages page_cnt : Z) : MP unit :=
  acquire_palloc_lock ;;
  assert (pg_ofs pages =? 0) ;;
  if (pages =? NULL) || (page_cnt =? 0) then release_palloc_lock
  else
    let! s := get in
    let! user :=
      (if page_from_pool (kernel_pool s) pages then ret false
       else if page_from_pool (user_pool s) pages then ret true
       else release_palloc_lock ;; fail Panic) in
    let page_idx := u32 (pg_no pages - pg_no (base (get_pool user s))) in
    on_mem (memset pages 0xcc (u32 (PGSIZE * page_cnt))) ;;
    let! all := lift (bitmap_all (used_map (get_pool user s)) page_idx page_cnt) in
    assert all ;;
    let! b := lift (bitmap_set_multiple (used_map (get_pool user s)) page_idx page_cnt false) in
    set_used_map user b ;;
    release_palloc_lock.

Definition palloc_free_page (page : Z) : MP unit := palloc_free_multiple page 1.

(** ** The invariant *)

Definition pool_cnt (p : pool) : Z := bit_cnt (used_map p).

(** The address of page [i] of a pool. *)
Definition page_addr (p : pool) (i : Z) : Z := base p + 4096 * i.

Record pool_ok (p : pool) (m : mem) : Prop := {
  po_lock : pool_lock p = false;
  po_map : bitmap_ok (used_map p);
  po_align : base p mod 4096 = 0;
  po_low : PHYS_BASE <= base p;
  po_high : base p + 4096 * pool_cnt p <= 2 ^ 32;
  po_mapped : mapped m (base p) (Z.to_nat (4096 * pool_cnt p));
}.

Record pages_ok (s : pages) : Prop := {
  pg_lock : palloc_lock s = false;
  pg_kernel : pool_ok (kernel_pool s) (memory s);
  pg_user : pool_ok (user_pool s) (memory s);
  pg_apart : base (kernel_pool s) + 4096 * pool_cnt (kernel_pool s) <= base (user_pool s);
}.

Lemma get_pool_ok u s : pages_ok s -> pool_ok (get_pool u s) (memory s).
Proof. intros []. by destruct u. Qed.

(** Only page bits of pool [u] and memory may differ. *)
Lemma pages_ok_update u s s' :
  pages_ok s -> palloc_lock s' = false -> pool_lock (get_pool u s') = false -> bitmap_ok (used_map (get_pool u s')) ->
  pool_cnt (get_pool u s') = pool_cnt (get_pool u s) -> base (get_pool u s') = base (get_pool u s) ->
  get_pool (negb u) s' = get_pool (negb u) s ->
  (forall a, is_Some (memory s !! a) -> is_Some (memory s' !! a)) -> pages_ok s'.
Proof.
  intros [H1 [L1 M1 A1 B1 C1 D1] [L2 M2 A2 B2 C2 D2] H4] Hl Hpl Hbm Hcnt Hb Hother Hm.
  assert (Hmap : forall a n, mapped (memory s) a n -> mapped (memory s') a n) by (intros a n H i Hi; by apply Hm, H).
  destruct u; simpl in *; unfold pool_cnt in *.
  - constructor; [done|rewrite Hother; constructor; auto|constructor; rewrite ?Hb; unfold pool_cnt; rewrite ?Hcnt; auto|].
    unfold pool_cnt. by rewrite Hother, Hb.
  - constructor; [done|constructor; rewrite ?Hb; unfold pool_cnt; rewrite ?Hcnt; auto|rewrite Hother; constructor; auto|].
    unfold pool_cnt. by rewrite Hother, Hb, Hcnt.
Qed.

(** A page address in terms of its pool. *)
Lemma page_addr_facts p m i :
  pool_ok p m -> 0 <= i < pool_cnt p ->
  0 < page_addr p i /\ page_addr p i + 4096 <= 2 ^ 32 /\ page_addr p i mod 4096 = 0 /\
  pg_no (page_addr p i) = pg_no (base p) + i.
Proof.
  intros [_ _ A L H _] Hi. unfold page_addr, PHYS_BASE in *. split_and!; [lia|lia| |].
  - rewrite Z.mul_comm, Z_mod_plus_full. done.
  - rewrite !pg_no_div, Z.mul_comm, Z_div_plus_full by lia. done.
Qed.

Lemma from_pool p m a :
  pool_ok p m -> a mod 4096 = 0 -> page_from_pool p a = true <-> exists i, 0 <= i < pool_cnt p /\ a = page_addr p i.
Proof.
  intros P Ha. pose proof P as [_ [Hb _] A L H _]. unfold page_from_pool, bitmap_size, page_addr, PHYS_BASE, pool_cnt in *. rewrite !pg_no_div.
  pose proof (Z.div_mod (base p) 4096). pose proof (Z.div_mod a 4096).
  rewrite u32_small by lia. rewrite andb_true_iff, Z.leb_le, Z.ltb_lt. split.
  - intros [? ?]. exists (a / 4096 - base p / 4096). lia.
  - intros (i & Hi & E). lia.
Qed.

Lemma memset_loop_run n : forall a v m,
  mapped m a n -> 0 <= v < 256 -> memset_loop n a v m = Done (tt, write a (replicate n v) m).
Proof.
  induction n as [|n IH]; intros a v m Hm Hv; [done|]. cbn [memset_loop replicate write].
  rewrite (bind_done _ _ _ _ _ (store8_run m a v ltac:(destruct (Hm 0%nat) as [x Hx]; [lia|]; rewrite Z.add_0_r in Hx; by exists x) Hv)).
  apply IH; [|done]. apply mapped_insert. intros i Hi. replace (a + 1 + Z.of_nat i) with (a + Z.of_nat (S i)) by lia. apply Hm. lia.
Qed.

Lemma memset_run m a v n :
  mapped m a (Z.to_nat n) -> 0 <= v < 256 -> a <> NULL -> memset a v n m = Done (a, write a (replicate (Z.to_nat n) v) m).
Proof.
  intros Hm Hv Ha. unfold memset, block_assert. rewrite assert_true by (by rewrite (proj2 (Z.eqb_neq _ _) Ha)).
  by rewrite (bind_done _ _ _ _ _ (memset_loop_run _ a v m Hm Hv)).
Qed.

Lemma pool_mapped p m i n :
  pool_ok p m -> 0 <= i -> 0 <= n -> i + n <= pool_cnt p -> mapped m (page_addr p i) (Z.to_nat (4096 * n)).
Proof.
  intros P Hi Hn Hin j Hj. unfold page_addr. destruct (po_mapped p m P (Z.to_nat (4096 * i) + j)%nat) as [x Hx]; [lia|].
  exists x. rewrite <- Hx. f_equal. lia.
Qed.

(** ** Getting pages *)

(** The bits of the other pool, and those outside [n] pages from [i], are kept;
    those inside become [v]. *)
Definition flipped (u : bool) (i n : Z) (v : bool) (s s' : pages) : Prop :=
  get_pool (negb u) s' = get_pool (negb u) s /\ base (get_pool u s') = base (get_pool u s) /\
  pool_cnt (get_pool u s') = pool_cnt (get_pool u s) /\
  forall j, 0 <= j < pool_cnt (get_pool u s) ->
    bit (used_map (get_pool u s')) j = if (i <=? j) && (j <? i + n) then v else bit (used_map (get_pool u s)) j.

(** What [palloc_get_multiple] did when it returned [r]: nothing, because no
    [n] free pages are next to each other, or the first fit. *)
Inductive got_pages (u zero : bool) (n : Z) (s : pages) (r : Z) (s' : pages) : Prop :=
  | got_none : r = NULL -> flipped u 0 0 true s s' -> memory s' = memory s ->
      (forall i, 0 <= i -> i + n <= pool_cnt (get_pool u s) -> n = 0 \/ ~ group (used_map (get_pool u s)) i n false) ->
      got_pages u zero n s r s'
  | got_some i : 0 <= i -> 0 < n -> i + n <= pool_cnt (get_pool u s) -> r = page_addr (get_pool u s) i ->
      group (used_map (get_pool u s)) i n false -> flipped u i n true s s' ->
      memory s' = (if zero then write r (replicate (Z.to_nat (4096 * n)) 0) (memory s) else memory s) ->
      got_pages u zero n s r s'.

Lemma set_pool_get u p s : get_pool u (set_pool u p s) = p.
Proof. by destruct u. Qed.

Lemma set_pool_other u p s : get_pool (negb u) (set_pool u p s) = get_pool (negb u) s.
Proof. by destruct u. Qed.

Lemma set_pool_memory u p s : memory (set_pool u p s) = memory s /\ palloc_lock (set_pool u p s) = palloc_lock s.
Proof. by destruct u. Qed.

Lemma write_zeroes_dom a l m b : is_Some (m !! b) -> is_Some (write a l m !! b).
Proof. intros H. rewrite lookup_write. case_decide; [|done]. apply lookup_lt_is_Some. lia. Qed.

Section get.
Context (s : pages) (flags n : Z).
Hypothesis Hs : pages_ok s.
Hypothesis Hn : 0 <= n < 2 ^ 32.
Let u := negb (Z.land flags PAL_USER =? 0).
Let zero := negb (Z.land flags PAL_ZERO =? 0).

(** The state after the search. *)
Let searched (b : bitmap) : pages := set_pool u (mk_pool false b (base (get_pool u s))) (set_palloc_lock true s).

Lemma get_search r b : n <> 0 ->
  bitmap_scan_and_flip (used_map (get_pool u s)) 0 n false = Done (r, b) ->
  palloc_get_multiple flags n s =
    (let pages := if negb (r =? BITMAP_ERROR) then u32 (base (get_pool u s) + u32 (PGSIZE * r)) else NULL in
     (if negb (pages =? NULL) then
        if zero then on_mem (memset pages 0 (u32 (PGSIZE * n))) ;; ret tt else ret tt
      else if negb (Z.land flags PAL_ASSERT =? 0) then fail Panic else ret tt) ;;
     release_palloc_lock ;; ret pages) (searched b).
Proof using Hs.
  intros Hnz E. unfold palloc_get_multiple. fold u zero.
  rewrite (bind_done _ _ _ tt (set_palloc_lock true s)).
  2:{ unfold acquire_palloc_lock. erewrite bind_done; [|reflexivity]. by rewrite (pg_lock s Hs). }
  rewrite (proj2 (Z.eqb_neq _ _) Hnz).
  assert (Hp : get_pool u (set_palloc_lock true s) = get_pool u s) by (by destruct u).
  rewrite (bind_done _ _ _ tt (set_pool u (mk_pool true (used_map (get_pool u s)) (base (get_pool u s))) (set_palloc_lock true s))).
  2:{ unfold acquire_pool_lock. erewrite bind_done; [|reflexivity]. cbv zeta. rewrite Hp, (po_lock _ _ (get_pool_ok u s Hs)). done. }
  erewrite bind_done; [|reflexivity]. rewrite !set_pool_get. cbn [used_map base].
  rewrite (bind_done _ _ _ (r, b) (set_pool u (mk_pool true (used_map (get_pool u s)) (base (get_pool u s))) (set_palloc_lock true s)))
    by (unfold lift; by rewrite E).
  cbn [fst snd].
  rewrite (bind_done _ _ _ tt (set_pool u (mk_pool true b (base (get_pool u s))) (set_palloc_lock true s))).
  2:{ unfold set_used_map. erewrite bind_done; [|reflexivity]. cbv zeta. rewrite set_pool_get. by destruct u. }
  rewrite (bind_done _ _ _ tt (searched b)).
  2:{ unfold release_pool_lock. erewrite bind_done; [|reflexivity]. cbv zeta. rewrite set_pool_get. by destruct u. }
  done.
Qed.

Lemma release_searched b m :
  release_palloc_lock (set_memory m (searched b)) =
    Done (tt, set_pool u (mk_pool false b (base (get_pool u s))) (set_memory m s)).
Proof using Hs.
  unfold release_palloc_lock. erewrite bind_done; [|reflexivity]. unfold searched. pose proof (pg_lock s Hs) as Hl.
  destruct s as [kp up pl mm]; simpl in *; subst pl. by destruct u.
Qed.

Lemma searched_memory b : searched b = set_memory (memory s) (searched b).
Proof using. unfold searched. by destruct u. Qed.

Lemma flipped_pool b i v k m :
  bit_cnt b = pool_cnt (get_pool u s) ->
  (forall j, 0 <= j < pool_cnt (get_pool u s) -> bit b j = if (i <=? j) && (j <? i + k) then v else bit (used_map (get_pool u s)) j) ->
  flipped u i k v s (set_pool u (mk_pool false b (base (get_pool u s))) (set_memory m s)).
Proof using.
  intros Hc Hb. unfold flipped. rewrite set_pool_get, set_pool_other. split_and!; try done.
Qed.

Lemma pages_ok_get b m :
  bitmap_ok b -> bit_cnt b = pool_cnt (get_pool u s) -> (forall a, is_Some (memory s !! a) -> is_Some (m !! a)) ->
  pages_ok (set_pool u (mk_pool false b (base (get_pool u s))) (set_memory m s)).
Proof using Hs.
  intros Hb Hc Hm. apply (pages_ok_update u s); rewrite ?set_pool_get; try done.
  - destruct (set_pool_memory u (mk_pool false b (base (get_pool u s))) (set_memory m s)) as [_ ->]. apply Hs.
  - rewrite set_pool_other. by destruct u.
  - by destruct (set_pool_memory u (mk_pool false b (base (get_pool u s))) (set_memory m s)) as [-> _].
Qed.

Lemma palloc_get_run :
  (exists r s', palloc_get_multiple flags n s = Done (r, s') /\ pages_ok s' /\ got_pages u zero n s r s') \/
  (palloc_get_multiple flags n s = Fault Panic /\ Z.land flags PAL_ASSERT <> 0 /\ n <> 0 /\
     forall i, 0 <= i -> i + n <= pool_cnt (get_pool u s) -> ~ group (used_map (get_pool u s)) i n false).
Proof using Hs Hn.
  pose proof (get_pool_ok u s Hs) as P. pose proof P as [_ Hbm HA HL HH _].
  destruct (decide (n = 0)) as [Hz|Hz].
  { left. exists NULL, s. split_and!; [|done|].
    - unfold palloc_get_multiple. rewrite Hz. pose proof (pg_lock s Hs) as Hl. destruct s as [kp up pl mm]; simpl in *; subst pl. done.
    - apply got_none; try done; [|auto]. split_and!; try done. intros j Hj. destruct (Z.leb_spec 0 j), (Z.ltb_spec j (0 + 0)); try lia; done. }
  destruct (bitmap_scan_and_flip_first (used_map (get_pool u s)) 0 n false Hbm) as (r & b & E & Hf & Hb' & Hc & Hbit);
    [destruct Hbm; lia|lia|].
  rewrite (get_search r b Hz E). cbv zeta. destruct (Z.eqb_spec r BITMAP_ERROR) as [Hr|Hr]; cbn [negb].
  - destruct Hf as [[_ Hno]|Hf]; [|subst r; destruct Hbm; unfold BITMAP_ERROR in *; lia]. cbn [negb Z.eqb].
    destruct (Z.eqb_spec (Z.land flags PAL_ASSERT) 0) as [Ha|Ha]; cbn [negb].
    + left. exists NULL, (set_pool u (mk_pool false b (base (get_pool u s))) (set_memory (memory s) s)). split_and!.
      * rewrite Z.eqb_refl. cbn [negb]. rewrite bind_ret, searched_memory. by rewrite (bind_done _ _ _ _ _ (release_searched b (memory s))).
      * by apply pages_ok_get.
      * apply got_none; [done| |by destruct u|].
        -- apply flipped_pool; [done|]. intros j Hj. rewrite Hbit by done. subst r.
           destruct (Z.leb_spec 0 j), (Z.ltb_spec j (0 + 0)); try lia; done.
        -- intros i Hi Hin. right. by apply Hno.
    + right. split_and!; [by rewrite Z.eqb_refl|done|done|]. intros i Hi Hin. by apply Hno.
  - destruct Hf as [[? _]|(Hr0 & Hrn & Hg & _)]; [done|]. unfold pool_cnt in *.
    assert (Hrange : 0 <= r < pool_cnt (get_pool u s)) by (unfold pool_cnt; lia).
    destruct (page_addr_facts _ _ r P Hrange) as (Hp1 & Hp2 & _ & _). rewrite pgsize_eq.
    assert (Epages : u32 (base (get_pool u s) + u32 (4096 * r)) = page_addr (get_pool u s) r).
    { unfold page_addr, PHYS_BASE in *. rewrite (u32_small (4096 * r)) by lia. rewrite u32_small; lia. }
    rewrite Epages, (proj2 (Z.eqb_neq _ NULL)) by (unfold NULL; lia). cbn [negb]. left.
    set (a := page_addr (get_pool u s) r) in *.
    set (m' := if zero then write a (replicate (Z.to_nat (4096 * n)) 0) (memory s) else memory s).
    exists a, (set_pool u (mk_pool false b (base (get_pool u s))) (set_memory m' s)).
    assert (En : u32 (4096 * n) = 4096 * n) by (unfold page_addr, PHYS_BASE in *; apply u32_small; lia).
    split_and!.
    + rewrite (bind_done _ _ _ tt (set_memory m' (searched b))).
      * by rewrite (bind_done _ _ _ _ _ (release_searched b m')).
      * unfold m'. destruct zero; [|by rewrite <- searched_memory]. rewrite En. unfold on_mem. unfold bind at 1.
        assert (Em : memory (searched b) = memory s) by (unfold searched; by destruct u). rewrite Em.
        rewrite memset_run; [done| |lia|unfold NULL; lia]. apply (pool_mapped _ _ r n P); unfold pool_cnt; lia.
    + apply pages_ok_get; [done|done|]. intros x Hx. unfold m'. destruct zero; [by apply write_zeroes_dom|done].
    + apply (got_some _ _ _ _ _ _ r); try done; [lia| |].
      * apply flipped_pool; [done|]. intros j Hj. by rewrite Hbit.
      * by destruct (set_pool_memory u (mk_pool false b (base (get_pool u s))) (set_memory m' s)) as [-> _].
Qed.
End get.

(** ** Freeing pages *)

Lemma find_pool s u i :
  pages_ok s -> 0 <= i < pool_cnt (get_pool u s) ->
  page_from_pool (kernel_pool s) (page_addr (get_pool u s) i) = negb u /\
  (u = true -> page_from_pool (user_pool s) (page_addr (get_pool u s) i) = true).
Proof.
  intros Hs Hi. pose proof (get_pool_ok u s Hs) as P. destruct (page_addr_facts _ _ i P Hi) as (_ & _ & Ha & _).
  pose proof (from_pool _ _ _ (pg_kernel s Hs) Ha) as Hk. pose proof (from_pool _ _ _ (pg_user s Hs) Ha) as Hu.
  destruct u; simpl in *.
  - split; [|intros _; apply Hu; by exists i]. apply not_true_is_false. intros H. apply Hk in H as (j & Hj & E).
    pose proof (pg_apart s Hs). unfold page_addr in E. lia.
  - split; [|done]. apply Hk. by exists i.
Qed.

Lemma palloc_free_run s u i n :
  pages_ok s -> 0 <= i -> 0 < n -> i + n <= pool_cnt (get_pool u s) -> group (used_map (get_pool u s)) i n true ->
  exists s', palloc_free_multiple (page_addr (get_pool u s) i) n s = Done (tt, s') /\ pages_ok s' /\ flipped u i n false s s' /\
    memory s' = write (page_addr (get_pool u s) i) (replicate (Z.to_nat (4096 * n)) 0xcc) (memory s).
Proof.
  intros Hs Hi Hn Hin Hg. pose proof (get_pool_ok u s Hs) as P. pose proof P as [_ Hbm HA HL HH _].
  assert (Hrange : 0 <= i < pool_cnt (get_pool u s)) by lia. pose proof Hin as Hin'. unfold pool_cnt in Hin'.
  destruct (page_addr_facts _ _ i P Hrange) as (Hp1 & Hp2 & Hp3 & Hp4). destruct (find_pool s u i Hs Hrange) as [Hk Hu].
  set (a := page_addr (get_pool u s) i) in *. set (m' := write a (replicate (Z.to_nat (4096 * n)) 0xcc) (memory s)).
  destruct (bitmap_contains_bits (used_map (get_pool u s)) i n false Hbm) as (c & Ec & Hc); [lia..|].
  destruct (bitmap_set_multiple_bits (used_map (get_pool u s)) i n false Hbm) as (b & Eb & Hb & Hcnt & Hbit); [lia..|].
  assert (c = false) as -> by (by apply Hc).
  exists (set_pool u (mk_pool false b (base (get_pool u s))) (set_memory m' s)). split_and!.
  - unfold palloc_free_multiple.
    rewrite (bind_done _ _ _ tt (set_palloc_lock true s)) by (unfold acquire_palloc_lock; erewrite bind_done; [|reflexivity]; by rewrite (pg_lock s Hs)).
    rewrite assert_true by (rewrite pg_ofs_mod; by apply Z.eqb_eq).
    rewrite (proj2 (Z.eqb_neq a NULL)), (proj2 (Z.eqb_neq n 0)) by (unfold NULL; lia). cbn [orb].
    erewrite bind_done; [|reflexivity]. rewrite (bind_done _ _ _ u (set_palloc_lock true s)).
    2:{ cbn [kernel_pool user_pool set_palloc_lock]. rewrite Hk. destruct u; [by rewrite Hu|done]. }
    assert (Hp : get_pool u (set_palloc_lock true s) = get_pool u s) by (by destruct u). cbv zeta. rewrite !Hp, Hp4.
    replace (u32 (pg_no (base (get_pool u s)) + i - pg_no (base (get_pool u s)))) with i by (rewrite u32_small; unfold PHYS_BASE in *; lia).
    rewrite (u32_small (PGSIZE * n)) by (rewrite pgsize_eq; unfold a, page_addr, PHYS_BASE in *; lia). rewrite pgsize_eq.
    rewrite (bind_done _ _ _ a (set_memory m' (set_palloc_lock true s))).
    2:{ unfold on_mem. cbn [memory set_palloc_lock]. rewrite memset_run; [done| |lia|unfold NULL; lia].
        apply (pool_mapped _ _ i n P); lia. }
    unfold bitmap_all. rewrite (bind_done _ _ _ true (set_memory m' (set_palloc_lock true s))) by (unfold lift; by rewrite Ec).
    rewrite (assert_true _ _ _ eq_refl).
    rewrite (bind_done _ _ _ b (set_memory m' (set_palloc_lock true s))) by (unfold lift; by rewrite Eb).
    erewrite bind_done; [|unfold set_used_map; erewrite bind_done; [|reflexivity]; reflexivity].
    pose proof (pg_lock s Hs) as Hl. pose proof (po_lock _ _ P) as Hpl. destruct s as [kp up pl mm]. simpl in *. subst pl.
    destruct u; simpl in *; rewrite Hpl; reflexivity.
  - apply (pages_ok_update u s); rewrite ?set_pool_get; try done; destruct u; simpl; try done; try apply Hs; intros x; apply write_zeroes_dom.
  - unfold flipped. rewrite set_pool_get, set_pool_other. split_and!; try done.
  - by destruct u.
Qed.

(** ** Start-up *)

(** The pages that the bitmap of a pool of [n] pages takes. *)
Definition bm_pages (n : Z) : Z := (4 * ((n + 31) / 32) + 4103) / 4096.

Lemma bm_pages_range n : 1 <= n <= 2 ^ 18 -> 0 < bm_pages n <= n.
Proof.
  intros Hn. unfold bm_pages. pose proof (Z.div_mod (n + 31) 32). pose proof (Z.mod_pos_bound (n + 31) 32).
  pose proof (Z.div_mod (4 * ((n + 31) / 32) + 4103) 4096). pose proof (Z.mod_pos_bound (4 * ((n + 31) / 32) + 4103) 4096). lia.
Qed.

Lemma buf_pages n : 1 <= n <= 2 ^ 18 ->
  bitmap_buf_size n = 8 + 4 * ((n + 31) / 32) /\ div_round_up (bitmap_buf_size n) PGSIZE = bm_pages n.
Proof.
  intros Hn. pose proof (Z.div_mod (n + 31) 32). pose proof (Z.mod_pos_bound (n + 31) 32).
  assert (E : bitmap_buf_size n = 8 + 4 * ((n + 31) / 32)).
  { unfold bitmap_buf_size. rewrite byte_cnt_small, elem_cnt_small by lia. apply u32_small. lia. }
  split; [exact E|]. unfold div_round_up, bm_pages. rewrite E, pgsize_eq, u32_small by lia. f_equal. lia.
Qed.

(** [ws] can be the contents of the buffer for [n] bits. *)
Definition buffer (n : Z) (ws : list Z) : Prop := Z.of_nat (length ws) = elem_cnt n /\ Forall is_u32 ws.

Lemma init_pool_run s u pbase n ws :
  pbase mod 4096 = 0 -> PHYS_BASE <= pbase -> 1 <= n <= 2 ^ 18 -> pbase + 4096 * n < 2 ^ 32 ->
  mapped (memory s) pbase (Z.to_nat (4096 * n)) -> buffer (n - bm_pages n) ws ->
  exists p, init_pool u pbase n ws s = Done (tt, set_pool u p s) /\ pool_ok p (memory s) /\
    base p = pbase + 4096 * bm_pages n /\ pool_cnt p = n - bm_pages n /\ group (used_map p) 0 (n - bm_pages n) false.
Proof.
  intros Ha Hlow Hn Hhigh Hm [Hlen Hws]. destruct (buf_pages n Hn) as [Eb Ep]. pose proof (bm_pages_range n Hn) as Hr. unfold PHYS_BASE in *.
  assert (Hbm : bitmap_ok (mk_bitmap (n - bm_pages n) ws)) by (split_and!; try done; simpl; lia).
  destruct (bitmap_set_multiple_bits _ 0 (n - bm_pages n) false Hbm) as (b & E & Hb & Hcnt & Hbit); [lia|lia|simpl; lia|]. simpl in Hcnt, Hbit.
  assert (Esz : bitmap_buf_size (n - bm_pages n) <= 4096 * bm_pages n).
  { unfold bitmap_buf_size. rewrite byte_cnt_small, elem_cnt_small by lia.
    pose proof (Z.div_mod (n - bm_pages n + 31) 32). pose proof (Z.mod_pos_bound (n - bm_pages n + 31) 32). rewrite u32_small by lia.
    pose proof (Z.div_le_mono (n - bm_pages n + 31) (n + 31) 32). unfold bm_pages in *.
    pose proof (Z.div_mod (4 * ((n + 31) / 32) + 4103) 4096). pose proof (Z.mod_pos_bound (4 * ((n + 31) / 32) + 4103) 4096). lia. }
  exists (mk_pool false b (pbase + 4096 * bm_pages n)). unfold init_pool. rewrite Ep, (proj2 (Z.ltb_ge _ _)) by lia. rewrite pgsize_eq.
  rewrite (u32_small (bm_pages n * 4096)) by lia.
  rewrite (bind_done _ _ _ b s).
  2:{ unfold lift, bitmap_create_in_buf. rewrite (proj2 (Z.leb_le _ _)) by lia. simpl. unfold bitmap_set_all, bitmap_size. cbn [bit_cnt]. by rewrite E. }
  rewrite u32_small by lia. replace (pbase + bm_pages n * 4096) with (pbase + 4096 * bm_pages n) by lia.
  split; [done|]. unfold pool_cnt. split_and!; [constructor|..]; cbn [pool_lock used_map base]; unfold pool_cnt, PHYS_BASE; cbn [used_map]; try done; try lia.
  - rewrite <- (Z_mod_plus_full pbase (bm_pages n) 4096) in Ha. rewrite <- Ha. f_equal. lia.
  - apply (mapped_sub _ pbase (Z.to_nat (4096 * n))); [done|lia|lia].
  - intros j Hj. rewrite Hbit by lia. destruct (Z.leb_spec 0 j), (Z.ltb_spec j (0 + (n - bm_pages n))); try lia. done.
Qed.

(** What the boot loader leaves for the allocator: memory from 1 MB to the end. *)
Record ram (pages limit : Z) (kws uws : list Z) (m : mem) : Prop := {
  ram_pages : 258 <= pages < 2 ^ 18;
  ram_limit : 1 <= limit < 2 ^ 32;
  ram_mapped : mapped m (PHYS_BASE + 2 ^ 20) (Z.to_nat (4096 * (pages - 256)));
  ram_kws : let u := Z.min limit ((pages - 256) / 2) in let k := pages - 256 - u in buffer (k - bm_pages k) kws;
  ram_uws : let u := Z.min limit ((pages - 256) / 2) in buffer (u - bm_pages u) uws;
}.

(** All pages of a pool are free. *)
Definition all_free (p : pool) : Prop := group (used_map p) 0 (pool_cnt p) false.

Lemma palloc_init_run s n limit kws uws :
  ram n limit kws uws (memory s) ->
  exists s', palloc_init n limit kws uws s = Done (tt, s') /\ pages_ok s' /\ memory s' = memory s /\
    all_free (kernel_pool s') /\ all_free (user_pool s') /\
    (let u := Z.min limit ((n - 256) / 2) in let k := n - 256 - u in
     (pool_cnt (kernel_pool s') = k - bm_pages k /\ pool_cnt (user_pool s') = u - bm_pages u) /\
     base (kernel_pool s') = PHYS_BASE + 2 ^ 20 + 4096 * bm_pages k /\
     base (user_pool s') = PHYS_BASE + 2 ^ 20 + 4096 * (k + bm_pages u)).
Proof.
  intros [Hn Hl Hm Hk Hu]. cbv zeta in *. set (u := Z.min limit ((n - 256) / 2)) in *. set (k := n - 256 - u) in *.
  assert (Hd : 2 * ((n - 256) / 2) <= n - 256 < 2 * ((n - 256) / 2) + 2)
    by (pose proof (Z.div_mod (n - 256) 2); pose proof (Z.mod_pos_bound (n - 256) 2); lia).
  assert (1 <= u <= 2 ^ 18 /\ 1 <= k <= 2 ^ 18 /\ k + u = n - 256) as (Hu1 & Hk1 & Hku) by lia.
  pose proof (bm_pages_range k Hk1). pose proof (bm_pages_range u Hu1). set (start := PHYS_BASE + 2 ^ 20) in *.
  assert (Hst : start = 0xC0100000) by done. assert (Hpb : PHYS_BASE = 0xC0000000) by done.
  destruct (init_pool_run (set_palloc_lock false s) false start k kws) as (kp & Ek & Pk & Bk & Ck & Gk); try done; try lia.
  { apply (mapped_sub _ start (Z.to_nat (4096 * (n - 256)))); [done|lia|lia]. }
  destruct (init_pool_run (set_kernel_pool kp (set_palloc_lock false s)) true (start + k * 4096) u uws) as (up & Eu & Pu & Bu & Cu & Gu); try done; try lia.
  { rewrite Z_mod_plus_full. done. }
  { apply (mapped_sub _ start (Z.to_nat (4096 * (n - 256)))); [done|lia|lia]. }
  exists (set_user_pool up (set_kernel_pool kp (set_palloc_lock false s))).
  split; [|split_and!; [constructor| | | | | | |]; simpl; unfold all_free; rewrite ?Ck, ?Cu; try done; lia].
  unfold palloc_init. rewrite (bind_done _ _ _ start s) by done.
  rewrite (bind_done _ _ _ (u32 (n * 4096 + PHYS_BASE)) s).
  2:{ unfold lift, ptov. rewrite pgsize_eq, (u32_small (n * 4096)) by lia. by rewrite (proj2 (Z.ltb_lt (n * 4096) PHYS_BASE)) by (unfold PHYS_BASE; lia). }
  assert (Ef : u32 (Z.quot (i32 (u32 (n * 4096 + PHYS_BASE) - start)) PGSIZE) = n - 256).
  { rewrite Hst, Hpb, (u32_small (n * 4096 + _)) by lia. rewrite i32_small, pgsize_eq by (unfold is_i32; lia).
    replace (n * 4096 + 3221225472 - 3222274048) with ((n - 256) * 4096) by lia. rewrite Z.quot_mul by lia. apply u32_small. lia. }
  rewrite Ef. cbv zeta. assert (Eu' : (if limit <? (n - 256) / 2 then limit else (n - 256) / 2) = u) by (unfold u; destruct (Z.ltb_spec limit ((n - 256) / 2)); lia).
  rewrite Eu'. fold k. erewrite bind_done; [|reflexivity]. rewrite (bind_done _ _ _ _ _ Ek), pgsize_eq.
  rewrite (u32_small (k * 4096)), u32_small by lia. exact Eu.
Qed.

(** Pages given out can be given back, and then the pools are as before. *)
Definition can_free (s : pages) (r n : Z) (s' : pages) : Prop :=
  exists s'', palloc_free_multiple r n s' = Done (tt, s'') /\ pages_ok s'' /\
    (forall v j, 0 <= j < pool_cnt (get_pool v s) -> bit (used_map (get_pool v s'')) j = bit (used_map (get_pool v s)) j) /\
    forall x, ~ r <= x < r + 4096 * n -> memory s'' !! x = memory s !! x.

Lemma get_free s u zero n r s' : pages_ok s' -> got_pages u zero n s r s' -> r <> NULL -> can_free s r n s'.
Proof.
  intros Hs' [-> _|i Hi Hn Hin Hr Hg (Ho & Hb & Hc & Hbits) Hmem] Hnn; [done|].
  destruct (palloc_free_run s' u i n) as (s'' & E & Hok & (Ho' & Hb' & Hc' & Hbits') & Hmem'); try done; try lia.
  { intros j Hj. rewrite Hbits by lia. by rewrite (proj2 (Z.leb_le i j)), (proj2 (Z.ltb_lt j (i + n))) by lia. }
  exists s''. replace (page_addr (get_pool u s') i) with r in * by (unfold page_addr in *; by rewrite Hb). split_and!; [done|done| |].
  - intros v j Hj. destruct (decide (v = u)) as [->|Hv]; [|replace v with (negb u) by (by destruct u, v); by rewrite Ho', Ho].
    rewrite Hbits', Hbits by lia. destruct (Z.leb_spec i j), (Z.ltb_spec j (i + n)); try done. simpl. symmetry. apply Hg. lia.
  - intros x Hx. rewrite Hmem', lookup_write, decide_False by (rewrite length_replicate; lia). rewrite Hmem.
    destruct zero; [|done]. by rewrite lookup_write, decide_False by (rewrite length_replicate; lia).
Qed.


(** A machine with [n] pages, of which those above 1 MB can be allocated. *)
Definition zero_ram (n : Z) : mem := write (PHYS_BASE + 2 ^ 20) (replicate (Z.to_nat (4096 * (n - 256))) 0) ∅.

Lemma zero_ram_mapped n : mapped (zero_ram n) (PHYS_BASE + 2 ^ 20) (Z.to_nat (4096 * (n - 256))).
Proof.
  unfold zero_ram. generalize (PHYS_BASE + 2 ^ 20) (Z.to_nat (4096 * (n - 256))). intros a k.
  pose proof (bytes_at_mapped _ _ _ (write_bytes a (replicate k 0) ∅)) as H. by rewrite length_replicate in H.
Qed.

Lemma zero_ram_bytes n : map_Forall (fun _ v => is_byte v) (zero_ram n).
Proof.
  unfold zero_ram. generalize (PHYS_BASE + 2 ^ 20) (Z.to_nat (4096 * (n - 256))). intros a k b v. rewrite lookup_write.
  case_decide; [|by rewrite lookup_empty]. intros Hv. apply list_elem_of_lookup_2, elem_of_replicate in Hv as [-> _]. unfold is_byte. lia.
Qed.

(** Eight pages above 1 MB. *)
Definition small_ram : mem := zero_ram 264.
Definition small_machine (m : mem) : pages :=
  mk_pages (mk_pool false (mk_bitmap 0 []) 0) (mk_pool false (mk_bitmap 0 []) 0) false m.

Lemma small_machine_ram : ram 264 (2 ^ 32 - 1) [0] [0] small_ram.
Proof.
  constructor; [lia|lia| | |].
  - exact (zero_ram_mapped 264).
  - split; [done|]. by repeat constructor.
  - split; [done|]. by repeat constructor.
Qed.

