(* ===== verification/Malloc.v ===== *)
(** * threads/malloc.c: the block allocator

    Small blocks come from arenas, pages divided into blocks of one size;
    larger ones are runs of pages of their own.  The arena headers and the free
    lists, which the source keeps inside the pages, are kept beside the memory:
    [arenas] maps a page to the header at its start, and a free list is the
    sequence of its blocks.  An arena whose page was given back has no header
    any more.  Block contents are the memory of the page allocator. *)

From stdpp Require Import options.
From S2P Require Import Prelude Bytes KList Bitmap Mem Str Vaddr Palloc.
Local Open Scope Z_scope.
Local Open Scope kernel_scope.

Record desc := mk_desc { d_block_size : Z; blocks_per_arena : Z; free_list : list Z; d_lock : bool }.

Definition ARENA_MAGIC : Z := 0x9a548eed.

(** [sizeof (struct arena)] *)
Definition ARENA_SIZE : Z := 12.

(** [a_desc] is the index of the descriptor, [None] for a big block. *)
Record arena := mk_arena { a_magic : Z; a_desc : option nat; free_cnt : Z }.

Record heap_t := mk_heap_t { h_pages : pages; descs : list desc; arenas : gmap Z arena }.

Abbreviation MH := (M heap_t).

Definition set_descs (l : list desc) (h : heap_t) : heap_t := mk_heap_t (h_pages h) l (arenas h).
Definition set_arenas (m : gmap Z arena) (h : heap_t) : heap_t := mk_heap_t (h_pages h) (descs h) m.

Definition on_pages {A} (f : MP A) : MH A := fun h =>
  match f (h_pages h) with
  | Done (a, s) => Done (a, mk_heap_t s (descs h) (arenas h))
  | Fault e => Fault e
  end.

Definition load_desc (k : nat) : MH desc := fun h =>
  match descs h !! k with Some d => Done (d, h) | None => Fault BadPointer end.
Definition store_desc (k : nat) (d : desc) : MH unit := modify (fun h => set_descs (<[k := d]> (descs h)) h).

Definition load_arena (a : Z) : MH arena := fun h =>
  match arenas h !! a with Some x => Done (x, h) | None => Fault BadPointer end.
Definition store_arena (a : Z) (x : arena) : MH unit := modify (fun h => set_arenas (<[a := x]> (arenas h)) h).

Definition acquire_desc_lock (k : nat) : MH unit :=
  let! d := load_desc k in
  assert (negb (d_lock d)) ;;
  store_desc k (mk_desc (d_block_size d) (blocks_per_arena d) (free_list d) true).
Definition release_desc_lock (k : nat) : MH unit :=
  let! d := load_desc k in
  assert (d_lock d) ;;
  store_desc k (mk_desc (d_block_size d) (blocks_per_arena d) (free_list d) false).

Definition set_free_list (k : nat) (l : list Z) : MH unit :=
  let! d := load_desc k in
  store_desc k (mk_desc (d_block_size d) (blocks_per_arena d) l (d_lock d)).

Definition set_free_cnt (a n : Z) : MH unit :=
  let! x := load_arena a in
  store_arena a (mk_arena (a_magic x) (a_desc x) n).

(** [for (block_size = 16; block_size < PGSIZE / 2; block_size *= 2)], for at most
    the ten entries of [descs]; seven are filled. *)
Fixpoint init_descs (n : nat) (block_size : Z) : list desc :=
  match n with
  | O => []
  | S n =>
      if block_size <? PGSIZE / 2 then
        mk_desc block_size ((PGSIZE - ARENA_SIZE) / block_size) [] false :: init_descs n (block_size * 2)
      else []
  end.

Definition malloc_init : MH unit := modify (set_descs (init_descs 10 16)).

Definition block_to_arena (b : Z) : MH Z :=
  let a := pg_round_down b in
  assert (negb (a =? NULL)) ;;
  let! x := load_arena a in
  assert (a_magic x =? ARENA_MAGIC) ;;
  match a_desc x with
  | Some k =>
      let! d := load_desc k in
      assert (u32 (pg_ofs b - ARENA_SIZE) mod d_block_size d =? 0) ;;
      ret a
  | None =>
      assert (pg_ofs b =? ARENA_SIZE) ;;
      ret a
  end.

Definition arena_to_block (a idx : Z) : MH Z :=
  assert (negb (a =? NULL)) ;;
  let! x := load_arena a in
  assert (a_magic x =? ARENA_MAGIC) ;;
  match a_desc x with
  | None => fail BadPointer
  | Some k =>
      let! d := load_desc k in
      assert (idx <? blocks_per_arena d) ;;
      ret (u32 (a + ARENA_SIZE + u32 (idx * d_block_size d)))
  end.

(** The index of the first descriptor whose blocks are large enough. *)
Fixpoint find_desc (size : Z) (l : list desc) : option nat :=
  match l with
  | [] => None
  | d :: l => if size <=? d_block_size d then Some 0%nat else S <$> find_desc size l
  end.

(** [for (i = 0; i < d->blocks_per_arena; i++) list_push_back (...)], [n] blocks to go. *)
Fixpoint fill_loop (n : nat) (k : nat) (a i : Z) : MH unit :=
  match n with
  | O => ret tt
  | S n =>
      let! b := arena_to_block a i in
      let! d := load_desc k in
      set_free_list k (free_list d ++ [b]) ;;
      fill_loop n k a (i + 1)
  end.

(** Takes a block off the free list of descriptor [k]. *)
Definition take_block (k : nat) : MH Z :=
  let! d := load_desc k in
  match free_list d with
  | [] => fail AssertFailed
  | b :: l =>
      set_free_list k l ;;
      let! a := block_to_arena b in
      let! x := load_arena a in
      set_free_cnt a (u32 (free_cnt x - 1)) ;;
      release_desc_lock k ;;
      ret b
  end.

Definition malloc (size : Z) : MH Z :=
  if size =? 0 then ret NULL
  else
    let! h := get in
    match find_desc size (descs h) with
    | None =>
        let page_cnt := div_round_up (u32 (size + ARENA_SIZE)) PGSIZE in
        let! a := on_pages (palloc_get_multiple 0 page_cnt) in
        if a =? NULL then ret NULL
        else
          store_arena a (mk_arena ARENA_MAGIC None page_cnt) ;;
          ret (u32 (a + ARENA_SIZE))
    | Some k =>
        acquire_desc_lock k ;;
        let! d := load_desc k in
        match free_list d with
        | [] =>
            let! a := on_pages (palloc_get_page 0) in
            if a =? NULL then release_desc_lock k ;; ret NULL
            else
              store_arena a (mk_arena ARENA_MAGIC (Some k) (blocks_per_arena d)) ;;
              fill_loop (Z.to_nat (blocks_per_arena d)) k a 0 ;;
              take_block k
        | _ :: _ => take_block k
        end
    end.

Definition calloc (a b : Z) : MH Z :=
  let size := u32 (a * b) in
  if (size <? a) || (size <? b) then ret NULL
  else
    let! p := malloc size in
    (if negb (p =? NULL) then on_pages (on_mem (memset p 0 size)) ;; ret tt else ret tt) ;;
    ret p.

Definition block_size (block : Z) : MH Z :=
  let! a := block_to_arena block in
  let! x := load_arena a in
  match a_desc x with
  | Some k => let! d := load_desc k in ret (d_block_size d)
  | None => ret (u32 (u32 (PGSIZE * free_cnt x) - pg_ofs block))
  end.

(** [for (i = 0; i < d->blocks_per_arena; i++) list_remove (...)], [n] blocks to go. *)
Fixpoint unlink_loop (n : nat) (k : nat) (a i : Z) : MH unit :=
  match n with
  | O => ret tt
  | S n =>
      let! b := arena_to_block a i in
      let! d := load_desc k in
      set_free_list k (filter (fun x => x <> b) (free_list d)) ;;
      unlink_loop n k a (i + 1)
  end.

Definition free (p : Z) : MH unit :=
  if p =? NULL then ret tt
  else
    let! a := block_to_arena p in
    let! x := load_arena a in
    match a_desc x with
    | Some k =>
        let! d := load_desc k in
        on_pages (on_mem (memset p 0xcc (d_block_size d))) ;;
        acquire_desc_lock k ;;
        let! d := load_desc k in
        set_free_list k (p :: free_list d) ;;
        let! x := load_arena a in
        let n := u32 (free_cnt x + 1) in
        set_free_cnt a n ;;
        (if blocks_per_arena d <=? n then
           assert (n =? blocks_per_arena d) ;;
           unlink_loop (Z.to_nat (blocks_per_arena d)) k a 0 ;;
           on_pages (palloc_free_page a) ;;
           modify (fun h => set_arenas (delete a (arenas h)) h)
         else ret tt) ;;
        release_desc_lock k
    | None =>
        on_pages (palloc_free_multiple a (free_cnt x)) ;;
        modify (fun h => set_arenas (delete a (arenas h)) h)
    end.

Definition realloc (old_block new_size : Z) : MH Z :=
  if new_size =? 0 then free old_block ;; ret NULL
  else
    let! new_block := malloc new_size in
    (if negb (old_block =? NULL) && negb (new_block =? NULL) then
       let! old_size := block_size old_block in
       let min_size := if new_size <? old_size then new_size else old_size in
       on_pages (on_mem (memcpy new_block old_block min_size)) ;;
       free old_block
     else ret tt) ;;
    ret new_block.

(** ** Blocks of an arena *)

Definition bs (k : nat) : Z := 16 * 2 ^ Z.of_nat k.
Definition bpa (k : nat) : Z := 4084 / bs k.

(** Block [j] of the arena at [a] with descriptor [k]. *)
Definition block_at (a : Z) (k : nat) (j : Z) : Z := a + 12 + j * bs k.

Definition desc_cnt : nat := 7.

Lemma bs_pos k : 16 <= bs k.
Proof. unfold bs. assert (0 < 2 ^ Z.of_nat k) by (apply Z.pow_pos_nonneg; lia). lia. Qed.

Lemma bpa_facts k : (k < desc_cnt)%nat -> 0 < bpa k < 256 /\ bpa k * bs k <= 4084 /\ bs k <= 1024.
Proof. unfold desc_cnt. intros Hk. do 7 (destruct k as [|k]; [clear Hk; vm_compute; repeat split; (reflexivity || discriminate)|]). lia. Qed.

Record page_ok (a : Z) : Prop := {
  pk_low : 0 < a;
  pk_high : a + 4096 <= 2 ^ 32;
  pk_align : a mod 4096 = 0;
}.

Lemma block_range a k j : (k < desc_cnt)%nat -> 0 <= j < bpa k -> a + 12 <= block_at a k j /\ block_at a k j + bs k <= a + 4096.
Proof.
  intros Hk Hj. destruct (bpa_facts k Hk) as (_ & Hb & _). pose proof (bs_pos k). unfold block_at.
  assert (0 <= j * bs k) by (apply Z.mul_nonneg_nonneg; lia).
  assert ((j + 1) * bs k <= bpa k * bs k) by (apply Z.mul_le_mono_nonneg_r; lia). lia.
Qed.

Lemma round_down_in a b : page_ok a -> a <= b < a + 4096 -> pg_round_down b = a /\ pg_ofs b = b - a.
Proof.
  intros [H1 H2 H3] Hb. assert (E : b mod 4096 = b - a).
  { replace b with ((b - a) + (a / 4096) * 4096) at 1 by (pose proof (Z.div_mod a 4096); lia).
    rewrite Z_mod_plus_full. apply Z.mod_small. lia. }
  rewrite pg_ofs_mod, pg_round_down_eq, E by (unfold is_u32; lia). lia.
Qed.

Lemma block_page a k j : page_ok a -> (k < desc_cnt)%nat -> 0 <= j < bpa k ->
  pg_round_down (block_at a k j) = a /\ pg_ofs (block_at a k j) = 12 + j * bs k.
Proof.
  intros Ha Hk Hj. pose proof (block_range a k j Hk Hj). pose proof (bs_pos k).
  destruct (round_down_in a (block_at a k j) Ha) as [-> ->]; [lia|]. unfold block_at. lia.
Qed.

Lemma block_inj a k j j' : block_at a k j = block_at a k j' -> j = j'.
Proof. pose proof (bs_pos k). unfold block_at. intros E. apply (Z.mul_reg_r j j' (bs k)); lia. Qed.

(** The blocks of an arena, in order. *)
Definition blocks (a : Z) (k : nat) : list Z := block_at a k <$> seqZ 0 (bpa k).

Lemma elem_of_blocks a k b : b ∈ blocks a k <-> exists j, 0 <= j < bpa k /\ b = block_at a k j.
Proof.
  unfold blocks. rewrite list_elem_of_fmap. setoid_rewrite elem_of_seqZ. split.
  - intros (j & -> & Hj). exists j. split; [lia|done].
  - intros (j & Hj & ->). exists j. split; [done|lia].
Qed.

Lemma NoDup_blocks a k : NoDup (blocks a k).
Proof. apply NoDup_fmap_2_strong; [|apply NoDup_seqZ]. intros j j' _ _. apply block_inj. Qed.

Lemma length_blocks a k : Z.of_nat (length (blocks a k)) = Z.max 0 (bpa k).
Proof. unfold blocks. rewrite length_fmap, length_seqZ. lia. Qed.

(** ** Descriptors *)

(** Descriptor [k] with free list [l] and lock [b]. *)
Definition with_list (k : nat) (l : list Z) (b : bool) (h : heap_t) : heap_t :=
  set_descs (<[k := mk_desc (bs k) (bpa k) l b]> (descs h)) h.

Definition descs_ok (h : heap_t) : Prop :=
  length (descs h) = desc_cnt /\
  forall k d, descs h !! k = Some d -> d_block_size d = bs k /\ blocks_per_arena d = bpa k /\ d_lock d = false.

(** The free list of descriptor [k]. *)
Definition frees (h : heap_t) (k : nat) : list Z := default [] (free_list <$> descs h !! k).

Lemma descs_with_list h k : descs_ok h -> (k < desc_cnt)%nat -> with_list k (frees h k) false h = h.
Proof.
  intros [Hl Hd] Hk. destruct (lookup_lt_is_Some_2 (descs h) k) as [d E]; [lia|]. destruct (Hd k d E) as (H1 & H2 & H3).
  unfold with_list, frees, set_descs. rewrite E. simpl. rewrite list_insert_id; [by destruct h|].
  rewrite E. destruct d; simpl in *. by subst.
Qed.

Section with_list.
Context (h : heap_t) (k : nat) (l : list Z) (b : bool).
Hypothesis Hk : (k < length (descs h))%nat.

Lemma load_desc_with : load_desc k (with_list k l b h) = Done (mk_desc (bs k) (bpa k) l b, with_list k l b h).
Proof using Hk. unfold load_desc. simpl. by rewrite list_lookup_insert_eq. Qed.

Lemma set_list_with l' : set_free_list k l' (with_list k l b h) = Done (tt, with_list k l' b h).
Proof using Hk.
  unfold set_free_list. rewrite (bind_done _ _ _ _ _ load_desc_with). unfold store_desc, modify, with_list, set_descs. simpl.
  by rewrite list_insert_insert_eq.
Qed.
End with_list.

Lemma acquire_with h k l : (k < length (descs h))%nat -> acquire_desc_lock k (with_list k l false h) = Done (tt, with_list k l true h).
Proof.
  intros Hk. unfold acquire_desc_lock. rewrite (bind_done _ _ _ _ _ (load_desc_with h k l false Hk)).
  rewrite (assert_true _ _ _ eq_refl). unfold store_desc, modify, with_list, set_descs. simpl. by rewrite list_insert_insert_eq.
Qed.

Lemma release_with h k l : (k < length (descs h))%nat -> release_desc_lock k (with_list k l true h) = Done (tt, with_list k l false h).
Proof.
  intros Hk. unfold release_desc_lock. rewrite (bind_done _ _ _ _ _ (load_desc_with h k l true Hk)).
  rewrite (assert_true _ _ _ eq_refl). unfold store_desc, modify, with_list, set_descs. simpl. by rewrite list_insert_insert_eq.
Qed.

Lemma to_arena_small h k l b a j n :
  (k < length (descs h))%nat -> (k < desc_cnt)%nat -> page_ok a -> 0 <= j < bpa k ->
  arenas h !! a = Some (mk_arena ARENA_MAGIC (Some k) n) ->
  block_to_arena (block_at a k j) (with_list k l b h) = Done (a, with_list k l b h).
Proof.
  intros Hk Hk7 Ha Hj Har. destruct (block_page a k j Ha Hk7 Hj) as [Er Eo]. pose proof (pk_low a Ha). unfold block_to_arena.
  rewrite Er, assert_true by (rewrite (proj2 (Z.eqb_neq _ _)); [done|unfold NULL; lia]).
  rewrite (bind_done _ _ _ _ _ (ltac:(unfold load_arena; simpl; rewrite Har; reflexivity) :
    load_arena a (with_list k l b h) = Done (mk_arena ARENA_MAGIC (Some k) n, with_list k l b h))). cbn [a_magic a_desc].
  rewrite (assert_true _ _ _ (Z.eqb_refl _)), (bind_done _ _ _ _ _ (load_desc_with h k l b Hk)). cbn [d_block_size].
  rewrite assert_true; [done|]. apply Z.eqb_eq. rewrite Eo. unfold ARENA_SIZE.
  pose proof (block_range a k j Hk7 Hj). pose proof (bs_pos k). pose proof (pk_high a Ha). unfold block_at in *.
  rewrite u32_small by lia. replace (12 + j * bs k - 12) with (j * bs k) by lia. apply Z.mod_mul. lia.
Qed.

Lemma to_block_with h k l b a j n :
  (k < length (descs h))%nat -> (k < desc_cnt)%nat -> page_ok a -> 0 <= j < bpa k ->
  arenas h !! a = Some (mk_arena ARENA_MAGIC (Some k) n) ->
  arena_to_block a j (with_list k l b h) = Done (block_at a k j, with_list k l b h).
Proof.
  intros Hk Hk7 Ha Hj Har. pose proof (pk_low a Ha). unfold arena_to_block.
  rewrite assert_true by (rewrite (proj2 (Z.eqb_neq _ _)); [done|unfold NULL; lia]).
  rewrite (bind_done _ _ _ _ _ (ltac:(unfold load_arena; simpl; rewrite Har; reflexivity) :
    load_arena a (with_list k l b h) = Done (mk_arena ARENA_MAGIC (Some k) n, with_list k l b h))). cbn [a_magic a_desc].
  rewrite (assert_true _ _ _ (Z.eqb_refl _)), (bind_done _ _ _ _ _ (load_desc_with h k l b Hk)). cbn [d_block_size blocks_per_arena].
  rewrite assert_true by (apply Z.ltb_lt; lia). unfold ret. do 2 f_equal. unfold ARENA_SIZE.
  pose proof (block_range a k j Hk7 Hj). pose proof (bs_pos k). pose proof (pk_high a Ha). unfold block_at in *.
  assert (0 <= j * bs k) by (apply Z.mul_nonneg_nonneg; lia). rewrite (u32_small (j * bs k)), u32_small; lia.
Qed.

(** ** The loops over an arena *)

Lemma fill_blocks_run h k b a m n : forall l i,
  (k < length (descs h))%nat -> (k < desc_cnt)%nat -> page_ok a -> arenas h !! a = Some (mk_arena ARENA_MAGIC (Some k) m) ->
  0 <= i -> i + Z.of_nat n <= bpa k ->
  fill_loop n k a i (with_list k l b h) = Done (tt, with_list k (l ++ (block_at a k <$> seqZ i (Z.of_nat n))) b h).
Proof.
  induction n as [|n IH]; intros l i Hk Hk7 Ha Har Hi Hn; [by rewrite app_nil_r|]. cbn [fill_loop].
  rewrite (bind_done _ _ _ _ _ (to_block_with h k l b a i m Hk Hk7 Ha ltac:(lia) Har)).
  rewrite (bind_done _ _ _ _ _ (load_desc_with h k l b Hk)). cbn [free_list].
  rewrite (bind_done _ _ _ _ _ (set_list_with h k l b Hk _)), IH by (done || lia).
  rewrite (seqZ_cons i (Z.of_nat (S n))) by lia. rewrite fmap_cons, <- app_assoc.
  by replace (Z.pred (Z.of_nat (S n))) with (Z.of_nat n) by lia.
Qed.

Lemma unlink_run h k b a m n : forall l i,
  (k < length (descs h))%nat -> (k < desc_cnt)%nat -> page_ok a -> arenas h !! a = Some (mk_arena ARENA_MAGIC (Some k) m) ->
  0 <= i -> i + Z.of_nat n <= bpa k ->
  unlink_loop n k a i (with_list k l b h) =
    Done (tt, with_list k (filter (fun x => x ∉ block_at a k <$> seqZ i (Z.of_nat n)) l) b h).
Proof.
  induction n as [|n IH]; intros l i Hk Hk7 Ha Har Hi Hn.
  - cbn [unlink_loop]. unfold ret. do 3 f_equal. symmetry. apply filter_all. intros x _. apply not_elem_of_nil.
  - cbn [unlink_loop]. rewrite (bind_done _ _ _ _ _ (to_block_with h k l b a i m Hk Hk7 Ha ltac:(lia) Har)).
    rewrite (bind_done _ _ _ _ _ (load_desc_with h k l b Hk)). cbn [free_list].
    rewrite (bind_done _ _ _ _ _ (set_list_with h k l b Hk _)), IH by (done || lia).
    do 3 f_equal. rewrite list_filter_filter. apply list_filter_iff. intros x.
    rewrite (seqZ_cons i (Z.of_nat (S n))), fmap_cons, not_elem_of_cons by lia. replace (Z.pred (Z.of_nat (S n))) with (Z.of_nat n) by lia. tauto.
Qed.

Lemma take_run h k a j l n :
  (k < length (descs h))%nat -> (k < desc_cnt)%nat -> page_ok a -> 0 <= j < bpa k ->
  arenas h !! a = Some (mk_arena ARENA_MAGIC (Some k) n) -> 0 < n < 2 ^ 32 ->
  take_block k (with_list k (block_at a k j :: l) true h) =
    Done (block_at a k j, with_list k l false (set_arenas (<[a := mk_arena ARENA_MAGIC (Some k) (n - 1)]> (arenas h)) h)).
Proof.
  intros Hk Hk7 Ha Hj Har Hn. unfold take_block. rewrite (bind_done _ _ _ _ _ (load_desc_with h k _ true Hk)). cbn [free_list].
  rewrite (bind_done _ _ _ _ _ (set_list_with h k _ true Hk _)).
  rewrite (bind_done _ _ _ _ _ (to_arena_small h k l true a j n Hk Hk7 Ha Hj Har)).
  assert (El : load_arena a (with_list k l true h) = Done (mk_arena ARENA_MAGIC (Some k) n, with_list k l true h))
    by (unfold load_arena; simpl; by rewrite Har).
  rewrite (bind_done _ _ _ _ _ El). cbn [free_cnt]. rewrite u32_small by lia.
  rewrite (bind_done _ _ _ tt (with_list k l true (set_arenas (<[a := mk_arena ARENA_MAGIC (Some k) (n - 1)]> (arenas h)) h)))
    by (unfold set_free_cnt; by rewrite (bind_done _ _ _ _ _ El)).
  by rewrite (bind_done _ _ _ _ _ (release_with (set_arenas _ h) k l Hk)).
Qed.

(** ** The invariant *)

Definition arena_pages (x : arena) : Z := match a_desc x with Some _ => 1 | None => free_cnt x end.

(** The free blocks of one page. *)
Definition in_page (a : Z) (l : list Z) : list Z := filter (fun b => pg_round_down b = a) l.

Definition memory_of (h : heap_t) : mem := memory (h_pages h).

(** [live] maps the blocks in use to the sizes that were asked for. *)
Inductive block_ok (h : heap_t) (p sz : Z) : Prop :=
  | small_block a x k j : arenas h !! a = Some x -> a_desc x = Some k -> 0 <= j < bpa k -> p = block_at a k j ->
      p ∉ frees h k -> 0 < sz <= bs k -> block_ok h p sz
  | big_block a x : arenas h !! a = Some x -> a_desc x = None -> p = a + 12 -> 0 < sz <= 4096 * free_cnt x - 12 ->
      block_ok h p sz.

Record heap_ok (live : gmap Z Z) (h : heap_t) : Prop := {
  hp_pages : pages_ok (h_pages h);
  hp_descs : descs_ok h;
  hp_arena a x : arenas h !! a = Some x -> a_magic x = ARENA_MAGIC /\
    (exists i, a = page_addr (kernel_pool (h_pages h)) i /\ 0 <= i /\ 0 < arena_pages x /\
       i + arena_pages x <= pool_cnt (kernel_pool (h_pages h)) /\
       group (used_map (kernel_pool (h_pages h))) i (arena_pages x) true) /\
    (forall k, a_desc x = Some k -> (k < desc_cnt)%nat /\ free_cnt x = Z.of_nat (length (in_page a (frees h k))));
  hp_apart a x a' x' : arenas h !! a = Some x -> arenas h !! a' = Some x' -> a < a' -> a + 4096 * arena_pages x <= a';
  hp_free k b : b ∈ frees h k -> exists a x j, arenas h !! a = Some x /\ a_desc x = Some k /\ 0 <= j < bpa k /\ b = block_at a k j;
  hp_nodup k : NoDup (frees h k);
  hp_live p sz : live !! p = Some sz -> block_ok h p sz;
}.

Lemma arena_page live h a x : heap_ok live h -> arenas h !! a = Some x -> page_ok a /\ a + 4096 * arena_pages x <= 2 ^ 32.
Proof.
  intros H Ha. destruct (hp_arena _ _ H a x Ha) as (_ & (i & -> & Hi & Hn & Hin & _) & _).
  pose proof (get_pool_ok false _ (hp_pages _ _ H)) as P. simpl in P.
  destruct (page_addr_facts _ _ i P) as (H1 & H2 & H3 & _); [lia|]. split; [by constructor|].
  pose proof (po_high _ _ P). unfold page_addr. lia.
Qed.

(** The arena of a block, and where the block lies in it. *)
Definition lies (h : heap_t) (p sz a : Z) (x : arena) : Prop :=
  arenas h !! a = Some x /\ a + 12 <= p /\ p + sz <= a + 4096 * arena_pages x /\ 0 < sz /\
  match a_desc x with
  | Some k => exists j, 0 <= j < bpa k /\ p = block_at a k j /\ sz <= bs k
  | None => p = a + 12
  end.

Lemma block_lies live h p sz : heap_ok live h -> block_ok h p sz -> exists a x, lies h p sz a x.
Proof.
  intros H [a x k j Ha Hd Hj -> Hnf Hsz|a x Ha Hd -> Hsz]; exists a, x; unfold lies; rewrite Hd.
  - destruct (hp_arena _ _ H a x Ha) as (_ & _ & Hk). destruct (Hk k Hd) as (Hk7 & _).
    pose proof (block_range a k j Hk7 Hj). unfold arena_pages. rewrite Hd. split_and!; [done|lia..|]. exists j. split_and!; try done; lia.
  - unfold arena_pages. rewrite Hd. split_and!; try done; lia.
Qed.

(** Blocks in use do not overlap. *)
Lemma live_disjoint live h p q sp sq :
  heap_ok live h -> live !! p = Some sp -> live !! q = Some sq -> p < q -> p + sp <= q.
Proof.
  intros H Hp Hq Hlt. apply (hp_live _ _ H) in Hp, Hq.
  destruct (block_lies live h p sp H Hp) as (a & x & Ha & H1 & H2 & H3 & H4).
  destruct (block_lies live h q sq H Hq) as (a' & x' & Ha' & H1' & H2' & H3' & H4').
  destruct (Z.lt_trichotomy a a') as [Hlt'|[<-|Hgt]].
  - pose proof (hp_apart _ _ H a x a' x' Ha Ha' Hlt'). lia.
  - rewrite Ha in Ha'. simplify_eq. destruct (a_desc x') as [k|]; [|lia].
    destruct H4 as (j & Hj & -> & Hsz), H4' as (j' & Hj' & -> & _). unfold block_at in *. pose proof (bs_pos k).
    assert (j < j') by (apply (Z.mul_lt_mono_pos_r (bs k)); lia).
    assert ((j + 1) * bs k <= j' * bs k) by (apply Z.mul_le_mono_nonneg_r; lia). lia.
  - pose proof (hp_apart _ _ H a' x' a x Ha' Ha Hgt). lia.
Qed.

(** ** Pages of blocks *)

Lemma frees_with h k l b k' : (k < length (descs h))%nat ->
  frees (with_list k l b h) k' = if decide (k' = k) then l else frees h k'.
Proof.
  intros Hk. unfold frees. simpl. case_decide as E; [subst; by rewrite list_lookup_insert_eq|by rewrite list_lookup_insert_ne].
Qed.

Lemma descs_ok_with h h0 k l : descs_ok h0 -> descs h = descs h0 -> descs_ok (with_list k l false h).
Proof.
  intros [Hl Hd] E. split; [simpl; by rewrite length_insert, E|]. intros k' d. simpl. rewrite E.
  intros [(-> & <- & _)|[_ H]]%list_lookup_insert_Some; [done|by apply Hd].
Qed.

(** The page of a block of an arena. *)
Lemma block_home live h a x k j :
  heap_ok live h -> arenas h !! a = Some x -> a_desc x = Some k -> 0 <= j < bpa k -> pg_round_down (block_at a k j) = a.
Proof.
  intros H Ha Hd Hj. destruct (arena_page live h a x H Ha) as [Hp _]. destruct (hp_arena _ _ H a x Ha) as (_ & _ & Hk).
  destruct (Hk k Hd) as [Hk7 _]. by destruct (block_page a k j Hp Hk7 Hj).
Qed.

Lemma big_home live h a x : heap_ok live h -> arenas h !! a = Some x -> pg_round_down (a + 12) = a.
Proof. intros H Ha. destruct (arena_page live h a x H Ha) as [Hp _]. destruct (round_down_in a (a + 12) Hp) as [-> _]; [lia|done]. Qed.

(** A free block is in the page of an arena of its size. *)
Lemma free_home live h k b : heap_ok live h -> b ∈ frees h k ->
  exists x j, arenas h !! pg_round_down b = Some x /\ a_desc x = Some k /\ 0 <= j < bpa k /\ b = block_at (pg_round_down b) k j.
Proof.
  intros H Hb. destruct (hp_free _ _ H k b Hb) as (a & x & j & Ha & Hd & Hj & ->). exists x, j.
  by rewrite (block_home live h a x k j H Ha Hd Hj).
Qed.

Lemma live_home live h p sz : heap_ok live h -> live !! p = Some sz -> exists x, arenas h !! pg_round_down p = Some x /\
  match a_desc x with
  | Some k => exists j, 0 <= j < bpa k /\ p = block_at (pg_round_down p) k j /\ p ∉ frees h k /\ 0 < sz <= bs k
  | None => p = pg_round_down p + 12 /\ 0 < sz <= 4096 * free_cnt x - 12
  end.
Proof.
  intros H Hp. apply (hp_live _ _ H) in Hp as [a x k j Ha Hd Hj -> Hnf Hsz|a x Ha Hd -> Hsz]; exists x.
  - rewrite (block_home live h a x k j H Ha Hd Hj). rewrite Hd. split; [done|]. exists j. split_and!; try done; lia.
  - rewrite (big_home live h a x H Ha), Hd. split_and!; try done; lia.
Qed.

(** Free blocks are not in use. *)
Lemma free_not_live live h k b : heap_ok live h -> b ∈ frees h k -> live !! b = None.
Proof.
  intros H Hb. destruct (live !! b) as [sz|] eqn:E; [|done]. exfalso.
  destruct (free_home live h k b H Hb) as (x & j & Hx & Hd & _). destruct (live_home live h b sz H E) as (x' & Hx' & Hl).
  rewrite Hx in Hx'. simplify_eq. rewrite Hd in Hl. by destruct Hl as (? & _ & _ & ? & _).
Qed.

Lemma in_page_cons a b l : in_page a (b :: l) = if decide (pg_round_down b = a) then b :: in_page a l else in_page a l.
Proof. unfold in_page. by rewrite filter_cons. Qed.

(** ** Taking and giving back a block *)

(** The free list of one descriptor and the count of one arena change, and so do
    the blocks in use. *)
Lemma heap_relist live live' h h' k a j n n' l' :
  heap_ok live h -> arenas h !! a = Some (mk_arena ARENA_MAGIC (Some k) n) -> 0 <= j < bpa k ->
  pages_ok (h_pages h') -> kernel_pool (h_pages h') = kernel_pool (h_pages h) -> descs_ok h' ->
  (forall k', frees h' k' = if decide (k' = k) then l' else frees h k') ->
  arenas h' = <[a := mk_arena ARENA_MAGIC (Some k) n']> (arenas h) ->
  NoDup l' -> n' = Z.of_nat (length (in_page a l')) -> (forall c, c <> a -> in_page c l' = in_page c (frees h k)) ->
  (forall x, x ∈ l' -> x ∈ frees h k \/ x = block_at a k j) ->
  (forall p sz, live' !! p = Some sz -> p ∉ l' /\ (live !! p = Some sz \/ p = block_at a k j /\ 0 < sz <= bs k)) ->
  heap_ok live' h'.
Proof.
  intros H Ha Hj Hpg Hp Hd Hf Hh Hnd Hn' Hpage Hl' Hlive.
  assert (Har : forall c x, arenas h' !! c = Some x -> exists y, arenas h !! c = Some y /\ a_desc x = a_desc y /\
    a_magic x = a_magic y /\ arena_pages x = arena_pages y /\ (c = a -> free_cnt x = n') /\ (c <> a -> x = y)).
  { intros c x. rewrite Hh. destruct (decide (c = a)) as [->|Hne].
    - rewrite lookup_insert_eq. intros [= <-]. eexists. split; [exact Ha|]. by split_and!.
    - rewrite lookup_insert_ne by done. intros Hc. exists x. by split_and!. }
  assert (Har' : forall c y, arenas h !! c = Some y -> exists x, arenas h' !! c = Some x /\ a_desc x = a_desc y /\ (c <> a -> x = y)).
  { intros c y Hc. rewrite Hh. destruct (decide (c = a)) as [->|Hne].
    - rewrite lookup_insert_eq. rewrite Ha in Hc. simplify_eq. eexists. by split_and!.
    - rewrite lookup_insert_ne by done. by exists y. }
  destruct (Har' a _ Ha) as (za & Hza & Eza & _).
  constructor; rewrite ?Hp; try done.
  - intros c x Hc. destruct (Har c x Hc) as (y & Hy & E1 & E2 & E3 & E4 & E5). destruct (hp_arena _ _ H c y Hy) as (Hm & Hi & Hk).
    rewrite E2, E3. split_and!; [done|done|]. intros k' Hd'. rewrite E1 in Hd'. destruct (Hk k' Hd') as [Hk7 Hn]. split; [done|].
    rewrite Hf. destruct (decide (c = a)) as [->|Hne].
    + rewrite Ha in Hy. injection Hy as <-. injection Hd' as <-. rewrite decide_True by done. by rewrite E4.
    + rewrite (E5 Hne), Hn. destruct (decide (k' = k)) as [->|]; [|done]. by rewrite Hpage.
  - intros c x c' x' Hc Hc' Hlt. destruct (Har c x Hc) as (y & Hy & _ & _ & -> & _). destruct (Har c' x' Hc') as (y' & Hy' & _).
    by apply (hp_apart _ _ H c y c' y').
  - intros k' x. rewrite Hf. intros Hx.
    assert (Hor : x ∈ frees h k' \/ k' = k /\ x = block_at a k j).
    { destruct (decide (k' = k)) as [->|]; [destruct (Hl' x Hx); auto|by left]. }
    destruct Hor as [Hin|[-> ->]]; [|by exists a, za, j].
    destruct (hp_free _ _ H k' x Hin) as (c & y & j' & Hc & Hd' & Hj' & ->).
    destruct (Har' c y Hc) as (z & Hz & Ez & _). exists c, z, j'. by rewrite Ez.
  - intros k'. rewrite Hf. case_decide; [done|apply (hp_nodup _ _ H)].
  - intros p s Hps. destruct (Hlive p s Hps) as [Hnl [Hlv|[-> Hs]]].
    + apply (hp_live _ _ H) in Hlv as [c y k' j' Hc Hd' Hj' -> Hnf Hs|c y Hc Hd' -> Hs].
      * destruct (Har' c y Hc) as (z & Hz & Ez & _). apply (small_block _ _ _ c z k' j'); try done; [by rewrite Ez|].
        rewrite Hf. by case_decide.
      * destruct (Har' c y Hc) as (z & Hz & Ez & E5). assert (c <> a) by (intros ->; rewrite Ha in Hc; by simplify_eq).
        apply (big_block _ _ _ c z); try done; [by rewrite Ez|]. by rewrite E5.
    + apply (small_block _ _ _ a za k j); try done. by rewrite Hf, decide_True.
Qed.

Lemma heap_take live h h' k a j n l sz :
  heap_ok live h -> frees h k = block_at a k j :: l -> arenas h !! a = Some (mk_arena ARENA_MAGIC (Some k) n) ->
  0 <= j < bpa k -> h_pages h' = h_pages h -> descs_ok h' ->
  (forall k', frees h' k' = if decide (k' = k) then l else frees h k') ->
  arenas h' = <[a := mk_arena ARENA_MAGIC (Some k) (n - 1)]> (arenas h) -> 0 < sz <= bs k ->
  heap_ok (<[block_at a k j := sz]> live) h'.
Proof.
  intros H Hl Ha Hj Hp Hd Hf Hh Hsz. pose proof (hp_nodup _ _ H k) as Hnd. rewrite Hl in Hnd. apply NoDup_cons in Hnd as [Hnb Hnd].
  assert (Hb : pg_round_down (block_at a k j) = a) by (by apply (block_home live h a _ k j H Ha)).
  destruct (hp_arena _ _ H a _ Ha) as (_ & _ & Hk). destruct (Hk k eq_refl) as [_ Hn]. cbn [free_cnt] in Hn.
  rewrite Hl, in_page_cons, decide_True in Hn by done.
  apply (heap_relist live _ h h' k a j n (n - 1) l); rewrite ?Hp; try done.
  - apply H.
  - simpl in Hn. lia.
  - intros c Hc. rewrite Hl, in_page_cons, decide_False; [done|congruence].
  - intros x Hx. left. rewrite Hl. by right.
  - intros p s. destruct (decide (p = block_at a k j)) as [->|Hne].
    + rewrite lookup_insert_eq. intros [= <-]. split; [done|by right].
    + rewrite lookup_insert_ne by done. intros Hlv. split; [|by left]. intros Hin.
      assert (live !! p = None); [|congruence]. apply (free_not_live live h k p H). rewrite Hl. by right.
Qed.

Lemma heap_put live h h' k a j n :
  heap_ok live h -> block_at a k j ∉ frees h k -> arenas h !! a = Some (mk_arena ARENA_MAGIC (Some k) n) -> 0 <= j < bpa k ->
  pages_ok (h_pages h') -> kernel_pool (h_pages h') = kernel_pool (h_pages h) -> descs_ok h' ->
  (forall k', frees h' k' = if decide (k' = k) then block_at a k j :: frees h k else frees h k') ->
  arenas h' = <[a := mk_arena ARENA_MAGIC (Some k) (n + 1)]> (arenas h) ->
  heap_ok (delete (block_at a k j) live) h'.
Proof.
  intros H Hnf Ha Hj Hpg Hp Hd Hf Hh.
  assert (Hb : pg_round_down (block_at a k j) = a) by (by apply (block_home live h a _ k j H Ha)).
  destruct (hp_arena _ _ H a _ Ha) as (_ & _ & Hk). destruct (Hk k eq_refl) as [_ Hn]. cbn [free_cnt] in Hn.
  apply (heap_relist live _ h h' k a j n (n + 1) (block_at a k j :: frees h k)); try done.
  - apply NoDup_cons. split; [done|apply (hp_nodup _ _ H)].
  - rewrite in_page_cons, decide_True by done. simpl. lia.
  - intros c Hc. rewrite in_page_cons, decide_False; [done|congruence].
  - intros x. rewrite elem_of_cons. intros [->|?]; auto.
  - intros p s [Hne Hlv]%lookup_delete_Some. split; [|by left]. rewrite not_elem_of_cons. split; [congruence|]. intros Hin.
    assert (live !! p = None); [|congruence]. by apply (free_not_live live h k p H).
Qed.

(** ** New arenas *)

(** The pages of an arena are used; a free page is in none. *)
Lemma arena_bit live h c y i' i :
  heap_ok live h -> arenas h !! c = Some y -> c = page_addr (kernel_pool (h_pages h)) i' ->
  bit (used_map (kernel_pool (h_pages h))) i = false -> i < i' \/ i' + arena_pages y <= i.
Proof.
  intros H Hc Hi' Hbit. destruct (hp_arena _ _ H c y Hc) as (_ & (i0 & E & _ & _ & _ & Hg) & _).
  assert (i0 = i') as -> by (rewrite Hi' in E; unfold page_addr in E; lia).
  destruct (Z.lt_ge_cases i i'); [by left|]. destruct (Z.lt_ge_cases i (i' + arena_pages y)); [|by right].
  rewrite (Hg i) in Hbit by lia. done.
Qed.

Lemma in_page_blocks a k c : page_ok a -> (k < desc_cnt)%nat -> in_page c (blocks a k) = if decide (c = a) then blocks a k else [].
Proof.
  intros Ha Hk. unfold in_page. case_decide as E.
  - apply filter_all. intros b (j & Hj & ->)%elem_of_blocks. destruct (block_page a k j Ha Hk Hj) as [-> _]. done.
  - apply elem_of_nil_inv. intros b [Hb (j & Hj & ->)%elem_of_blocks]%list_elem_of_filter.
    destruct (block_page a k j Ha Hk Hj) as [Hr _]. congruence.
Qed.

Lemma in_page_none live h c k : heap_ok live h -> arenas h !! c = None -> in_page c (frees h k) = [].
Proof.
  intros H Hc. apply elem_of_nil_inv. intros b [Hb Hin]%list_elem_of_filter.
  destruct (free_home live h k b H Hin) as (x & j & Hx & _). congruence.
Qed.

(** The free blocks that come with a new arena. *)
Definition arrival (a : Z) (k : nat) (x : arena) (new : list Z) : Prop :=
  a_desc x = None /\ new = [] \/ a_desc x = Some k /\ (k < desc_cnt)%nat /\ new = blocks a k /\ free_cnt x = bpa k.

Section add.
Context (live : gmap Z Z) (h h' : heap_t) (a i n : Z) (x : arena) (k : nat) (new : list Z).
Hypothesis H : heap_ok live h.
Hypothesis Hpg : pages_ok (h_pages h').
Hypothesis Ha : a = page_addr (kernel_pool (h_pages h)) i.
Hypothesis Hi : 0 <= i.
Hypothesis Hn : 0 < n.
Hypothesis Hin : i + n <= pool_cnt (kernel_pool (h_pages h)).
Hypothesis Hfree : group (used_map (kernel_pool (h_pages h))) i n false.
Hypothesis Hflip : flipped false i n true (h_pages h) (h_pages h').
Hypothesis Har : arenas h' = <[a := x]> (arenas h).
Hypothesis Hx : a_magic x = ARENA_MAGIC /\ arena_pages x = n.
Hypothesis Hd : descs_ok h'.
Hypothesis Hf : forall k', frees h' k' = if decide (k' = k) then frees h k ++ new else frees h k'.
Hypothesis Hnew : arrival a k x new.

Lemma add_page : page_ok a.
Proof using H Ha Hi Hn Hin.
  pose proof (get_pool_ok false _ (hp_pages _ _ H)) as P. simpl in P. rewrite Ha.
  destruct (page_addr_facts _ _ i P) as (H1 & H2 & H3 & _); [lia|]. by constructor.
Qed.

Lemma add_fresh : arenas h !! a = None.
Proof using H Ha Hn Hfree.
  destruct (arenas h !! a) as [y|] eqn:E; [|done]. exfalso.
  assert (Hb : bit (used_map (kernel_pool (h_pages h))) i = false) by (apply Hfree; lia).
  destruct (arena_bit live h a y i i H E Ha Hb); [lia|]. destruct (hp_arena _ _ H a y E) as (_ & (? & _ & _ & ? & _) & _). lia.
Qed.

Lemma add_lookup c y : arenas h' !! c = Some y -> c = a /\ y = x \/ c <> a /\ arenas h !! c = Some y.
Proof using Har.
  rewrite Har. destruct (decide (c = a)) as [->|Hne]; [rewrite lookup_insert_eq; intros [= <-]; by left|].
  rewrite lookup_insert_ne by done. by right.
Qed.

Lemma add_old c y : arenas h !! c = Some y -> c <> a /\ arenas h' !! c = Some y.
Proof using H Ha Hn Hfree Har.
  intros Hc. assert (c <> a) by (intros ->; by rewrite add_fresh in Hc). split; [done|]. rewrite Har. by rewrite lookup_insert_ne.
Qed.

(** The new pages are apart from those of every arena. *)
Lemma add_apart c y : arenas h !! c = Some y -> c + 4096 * arena_pages y <= a \/ a + 4096 * n <= c.
Proof using H Ha Hn Hfree.
  intros Hc. destruct (hp_arena _ _ H c y Hc) as (_ & (i' & Ec & Hi' & Hny & _ & Hg) & _).
  assert (Hdis : i' + arena_pages y <= i \/ i + n <= i').
  { destruct (Z.lt_ge_cases i' i).
    - destruct (arena_bit live h c y i' i H Hc Ec); [apply Hfree; lia|lia|by left].
    - right. destruct (Z.lt_ge_cases i' (i + n)); [|lia]. assert (bit (used_map (kernel_pool (h_pages h))) i' = false) by (apply Hfree; lia).
      rewrite (Hg i') in H2 by lia. done. }
  rewrite Ha, Ec. unfold page_addr. lia.
Qed.

Lemma heap_add : heap_ok live h'.
Proof using All.
  pose proof add_page as Hpa. destruct Hflip as (_ & Hbase & Hcnt & Hbits). simpl in Hbase, Hcnt, Hbits.
  assert (Haddr : forall j, page_addr (kernel_pool (h_pages h')) j = page_addr (kernel_pool (h_pages h)) j)
    by (intros j; unfold page_addr; by rewrite Hbase).
  assert (Hgroup : forall i' m, 0 <= i' -> i' + m <= pool_cnt (kernel_pool (h_pages h)) -> group (used_map (kernel_pool (h_pages h))) i' m true ->
    group (used_map (kernel_pool (h_pages h'))) i' m true).
  { intros i' m Hi' Hm Hg j Hj. rewrite Hbits by lia. case_match; [done|]. by apply Hg. }
  assert (Hnewblocks : forall b, b ∈ new -> exists j, a_desc x = Some k /\ 0 <= j < bpa k /\ b = block_at a k j).
  { intros b Hb. destruct Hnew as [[_ ->]|(Hdx & _ & -> & _)]; [by apply not_elem_of_nil in Hb|].
    apply elem_of_blocks in Hb as (j & Hj & ->). by exists j. }
  assert (Hpages : forall c k', c <> a -> in_page c (frees h' k') = in_page c (frees h k')).
  { intros c k' Hc. rewrite Hf. destruct (decide (k' = k)) as [->|]; [|done]. unfold in_page. rewrite filter_app.
    fold (in_page c (frees h k)) (in_page c new). destruct Hnew as [[_ ->]|(_ & Hk & -> & _)]; [by rewrite app_nil_r|].
    rewrite (in_page_blocks a k c Hpa Hk), decide_False by done. by rewrite app_nil_r. }
  constructor; try done; rewrite ?Hcnt.
  - intros c y Hc. destruct (add_lookup c y Hc) as [[-> ->]|[Hne Hc']].
    + destruct Hx as [Hm Hpx]. split_and!; [done| |].
      * exists i. rewrite Haddr, Hpx. split_and!; [done..|]. intros j Hj. rewrite Hbits by lia.
        rewrite (proj2 (Z.leb_le _ _)), (proj2 (Z.ltb_lt _ _)) by lia. done.
      * intros k' Hk'. destruct Hnew as [[Hno _]|(Hdx & Hk7 & -> & Hfc)]; [congruence|]. assert (k' = k) as -> by congruence. split; [done|].
        rewrite Hf, decide_True by done. unfold in_page. rewrite filter_app. fold (in_page a (frees h k)) (in_page a (blocks a k)).
        rewrite (in_page_none live h a k H add_fresh), (in_page_blocks a k a Hpa Hk7), decide_True by done. simpl.
        rewrite length_blocks, Hfc. destruct (bpa_facts k Hk7). lia.
    + destruct (hp_arena _ _ H c y Hc') as (Hm & (i' & Ec & Hi' & Hny & Hin' & Hg) & Hk). split_and!; [done| |].
      * exists i'. rewrite Haddr. split_and!; try done. by apply Hgroup.
      * intros k' Hk'. rewrite Hpages by done. by apply Hk.
  - intros c y c' y' Hc Hc' Hlt. destruct (add_lookup c y Hc) as [[-> ->]|[Hne Hc1]], (add_lookup c' y' Hc') as [[-> ->]|[Hne' Hc1']]; [lia| | |].
    + destruct Hx as [_ ->]. destruct (add_apart c' y' Hc1'); [|lia]. destruct (hp_arena _ _ H c' y' Hc1') as (_ & (? & _ & _ & ? & _) & _). lia.
    + destruct (add_apart c y Hc1); lia.
    + by apply (hp_apart _ _ H c y c' y').
  - intros k' b. rewrite Hf. intros Hb.
    assert (Hor : b ∈ frees h k' \/ k' = k /\ b ∈ new) by (destruct (decide (k' = k)) as [->|]; [apply elem_of_app in Hb as [?|?]; auto|by left]).
    destruct Hor as [Hold|[-> Hn']].
    + destruct (hp_free _ _ H k' b Hold) as (c & y & j & Hc & Hdy & Hj & ->). exists c, y, j. by destruct (add_old c y Hc).
    + destruct (Hnewblocks b Hn') as (j & Hdx & Hj & ->). exists a, x, j. by rewrite Har, lookup_insert_eq.
  - intros k'. rewrite Hf. destruct (decide (k' = k)) as [->|]; [|apply (hp_nodup _ _ H)]. apply NoDup_app. split_and!; [apply (hp_nodup _ _ H)| |].
    + intros b Hb Hb'. destruct (Hnewblocks b Hb') as (j & Hdx & Hj & ->). destruct (free_home live h k _ H Hb) as (y & j' & Hy & _).
      destruct Hnew as [[? _]|(_ & Hk7 & _)]; [congruence|]. destruct (block_page a k j Hpa Hk7 Hj) as [Er _]. rewrite Er in Hy.
      by rewrite add_fresh in Hy.
    + destruct Hnew as [[_ ->]|(_ & _ & -> & _)]; [constructor|apply NoDup_blocks].
  - intros p sz Hp. destruct (live_home live h p sz H Hp) as (y & Hy & _).
    apply (hp_live _ _ H) in Hp as [c z k' j Hc Hdz Hj -> Hnf Hs|c z Hc Hdz -> Hs]; destruct (add_old c z Hc) as [Hca Hc'].
    + apply (small_block _ _ _ c z k' j); try done. rewrite Hf. destruct (decide (k' = k)) as [->|]; [|done]. rewrite elem_of_app.
      intros [?|Hb]; [done|]. destruct (Hnewblocks _ Hb) as (j' & Hdx & Hj' & E). destruct Hnew as [[? _]|(_ & Hk7 & _)]; [congruence|].
      destruct (block_page a k j' Hpa Hk7 Hj') as [Er _]. rewrite <- E, (block_home live h c z k j H Hc Hdz Hj) in Er. done.
    + by apply (big_block _ _ _ c z).
Qed.
End add.

(** ** Giving an arena back *)

Section remove.
Context (live : gmap Z Z) (h h' : heap_t) (a i : Z) (x : arena) (k : nat).
Hypothesis H : heap_ok live h.
Hypothesis Hx : arenas h !! a = Some x.
Hypothesis Ha : a = page_addr (kernel_pool (h_pages h)) i.
Hypothesis Hpg : pages_ok (h_pages h').
Hypothesis Hflip : flipped false i (arena_pages x) false (h_pages h) (h_pages h').
Hypothesis Har : arenas h' = delete a (arenas h).
Hypothesis Hd : descs_ok h'.
Hypothesis Hf : forall k', frees h' k' = if decide (k' = k) then filter (fun b => pg_round_down b <> a) (frees h k) else frees h k'.
Hypothesis Hk : forall k', a_desc x = Some k' -> k' = k.
Hypothesis Hlive : forall p sz, live !! p = Some sz -> pg_round_down p <> a.

Lemma remove_frees k' b : b ∈ frees h' k' <-> b ∈ frees h k' /\ pg_round_down b <> a.
Proof using H Hx Hf Hk.
  rewrite Hf. destruct (decide (k' = k)) as [->|Hne]; [rewrite list_elem_of_filter; apply and_comm|].
  split; [|by intros []]. intros Hb. split; [exact Hb|].
  intros E. destruct (free_home live h k' b H Hb) as (y & j & Hy & Hdy & _). rewrite E, Hx in Hy. injection Hy as <-.
  exact (Hne (Hk k' Hdy)).
Qed.

Lemma remove_page c k' : c <> a -> in_page c (frees h' k') = in_page c (frees h k').
Proof using Hf.
  intros Hc. rewrite Hf. destruct (decide (k' = k)) as [->|]; [|done]. unfold in_page. rewrite list_filter_filter.
  apply list_filter_iff. intros b. split; [by intros []|]. intros E. split; [exact E|]. by rewrite E.
Qed.

Lemma remove_arena c y : arenas h' !! c = Some y <-> arenas h !! c = Some y /\ c <> a.
Proof using Har. rewrite Har, lookup_delete_Some. split; intros [H1 H2]; (split; [first [exact H2|by apply not_eq_sym]|first [exact H1|by apply not_eq_sym]]). Qed.

Lemma heap_remove : heap_ok live h'.
Proof using All.
  destruct Hflip as (_ & Hbase & Hcnt & Hbits). simpl in Hbase, Hcnt, Hbits.
  assert (Haddr : forall j, page_addr (kernel_pool (h_pages h')) j = page_addr (kernel_pool (h_pages h)) j)
    by (intros j; unfold page_addr; by rewrite Hbase).
  constructor; try done; rewrite ?Hcnt.
  - intros c y [Hc Hne]%remove_arena. destruct (hp_arena _ _ H c y Hc) as (Hm & (i' & Ec & Hi' & Hny & Hin & Hg) & Hky). split_and!; [done| |].
    + exists i'. rewrite Haddr. split_and!; try done. intros j Hj. rewrite Hbits by lia.
      assert (Hout : ~ i <= j < i + arena_pages x).
      { intros Hji. destruct (Z.lt_trichotomy a c) as [Hlt|[?|Hlt]]; [|by subst|].
        - pose proof (hp_apart _ _ H a x c y Hx Hc Hlt) as Hap. rewrite Ha, Ec in Hap. unfold page_addr in Hap. lia.
        - pose proof (hp_apart _ _ H c y a x Hc Hx Hlt) as Hap. rewrite Ha, Ec in Hap. unfold page_addr in Hap. lia. }
      destruct ((i <=? j) && (j <? i + arena_pages x)) eqn:E; [|by apply Hg].
      apply andb_true_iff in E as [?%Z.leb_le ?%Z.ltb_lt]. lia.
    + intros k' Hk'. rewrite remove_page by done. by apply Hky.
  - intros c y c' y' [Hc _]%remove_arena [Hc' _]%remove_arena. by apply (hp_apart _ _ H c y c' y').
  - intros k' b [Hb Hp]%remove_frees. destruct (free_home live h k' b H Hb) as (y & j & Hy & Hdy & Hj & E).
    exists (pg_round_down b), y, j. split_and!; try done; [|lia..]. by apply remove_arena.
  - intros k'. rewrite Hf. case_decide; [|apply (hp_nodup _ _ H)]. apply NoDup_filter, (hp_nodup _ _ H).
  - intros p sz Hp. pose proof (Hlive p sz Hp) as Hne. pose proof Hp as Hp'.
    apply (hp_live _ _ H) in Hp as [c y k' j Hc Hdy Hj -> Hnf Hs|c y Hc Hdy -> Hs].
    + rewrite (block_home live h c y k' j H Hc Hdy Hj) in Hne. apply (small_block _ _ _ c y k' j); try done.
      * by apply remove_arena.
      * intros [Hb _]%remove_frees. done.
    + rewrite (big_home live h c y H Hc) in Hne. apply (big_block _ _ _ c y); try done. by apply remove_arena.
Qed.
End remove.
