(* ===== verification/MallocProps.v ===== *)
(** * The block allocator's operations keep the heap well formed

    Each of [malloc], [calloc], [realloc] and [free] on a well-formed heap: what
    it returns, which blocks are in use afterwards, and which memory changed. *)

From stdpp Require Import options.
From S2P Require Import Prelude Bytes KList Bitmap Mem Str Vaddr Palloc Malloc.
Local Open Scope Z_scope.
Local Open Scope kernel_scope.

(** ** Finding a descriptor *)

Lemma find_desc_some size l k d : find_desc size l = Some k -> l !! k = Some d -> size <= d_block_size d.
Proof.
  revert k. induction l as [|e l IH]; intros k; [done|]. simpl. destruct (Z.leb_spec size (d_block_size e)).
  - intros [= <-] [= <-]. done.
  - destruct (find_desc size l) as [k'|] eqn:E; [|done]. intros [= <-] Hk. by apply (IH k').
Qed.

Lemma find_desc_lt size l k : find_desc size l = Some k -> (k < length l)%nat.
Proof.
  revert k. induction l as [|e l IH]; intros k; [done|]. simpl. destruct (size <=? d_block_size e); [intros [= <-]; lia|].
  destruct (find_desc size l) as [k'|]; [|done]. intros [= <-]. pose proof (IH k' eq_refl). lia.
Qed.

Lemma find_desc_fits h size k : descs_ok h -> find_desc size (descs h) = Some k -> (k < desc_cnt)%nat /\ size <= bs k.
Proof.
  intros [Hl Hd] E. pose proof (find_desc_lt _ _ _ E) as Hk. destruct (lookup_lt_is_Some_2 _ _ Hk) as [d Hlk].
  pose proof (find_desc_some size _ k d E Hlk). destruct (Hd k d Hlk) as (<- & _). split; [lia|done].
Qed.

(** ** Counting the free blocks of an arena *)

Lemma in_page_incl live h a k b : heap_ok live h -> b ∈ in_page a (frees h k) -> b ∈ blocks a k.
Proof.
  intros H [Hpy Hy]%list_elem_of_filter. destruct (free_home live h k b H Hy) as (z & j' & _ & _ & Hj' & E).
  apply elem_of_blocks. exists j'. by rewrite <- Hpy.
Qed.

Lemma in_page_bound live h a k : heap_ok live h -> (k < desc_cnt)%nat -> Z.of_nat (length (in_page a (frees h k))) <= bpa k.
Proof.
  intros H Hk. assert (Hle : (length (in_page a (frees h k)) <= length (blocks a k))%nat).
  { apply NoDup_incl_length; [apply NoDup_ListNoDup, NoDup_filter, (hp_nodup _ _ H)|]. intros y Hy. apply list_elem_of_In in Hy.
    by apply list_elem_of_In, (in_page_incl live h). }
  pose proof (length_blocks a k). destruct (bpa_facts k Hk). lia.
Qed.

(** All blocks of an arena are free when its count says so. *)
Lemma arena_all_free live h a k b :
  heap_ok live h -> (k < desc_cnt)%nat -> Z.of_nat (length (in_page a (frees h k))) = bpa k -> b ∈ blocks a k -> b ∈ frees h k.
Proof.
  intros H Hk Hn Hb. pose proof (length_blocks a k). destruct (bpa_facts k Hk).
  assert (Hin : b ∈ in_page a (frees h k)).
  { apply list_elem_of_In. refine (NoDup_length_incl (l' := blocks a k) _ _ _ b _).
    - apply NoDup_ListNoDup, NoDup_filter, (hp_nodup _ _ H).
    - lia.
    - intros y Hy. apply list_elem_of_In in Hy. by apply list_elem_of_In, (in_page_incl live h).
    - by apply list_elem_of_In. }
  by apply list_elem_of_filter in Hin as [_ ?].
Qed.

(** ** Taking a block *)

Lemma take_ok live h k b l size :
  heap_ok live h -> (k < desc_cnt)%nat -> frees h k = b :: l -> 0 < size <= bs k ->
  exists h', take_block k (with_list k (frees h k) true h) = Done (b, h') /\ h_pages h' = h_pages h /\
    heap_ok (<[b := size]> live) h' /\ live !! b = None /\ b <> NULL.
Proof.
  intros H Hk Hl Hsz. assert (Hin : b ∈ frees h k) by (rewrite Hl; left).
  destruct (hp_descs _ _ H) as [Hlen _]. assert (Hk' : (k < length (descs h))%nat) by lia.
  destruct (hp_free _ _ H k b Hin) as (a & [mg dd n] & j & Ha & Hd & Hj & ->). destruct (hp_arena _ _ H a _ Ha) as (Hm & _ & Hn).
  simpl in Hm, Hd, Hn. subst mg dd. destruct (Hn k eq_refl) as [_ Hcnt]. destruct (arena_page live h a _ H Ha) as [Hp _].
  assert (Hn1 : 0 < n < 2 ^ 32).
  { pose proof (block_home live h a _ k j H Ha eq_refl Hj) as Hb. rewrite Hl, in_page_cons, decide_True in Hcnt by done.
    simpl in Hcnt. split; [lia|].
    pose proof (in_page_bound live h a k H Hk) as Hle.
    rewrite Hl, in_page_cons, decide_True in Hle by done. simpl in Hle. destruct (bpa_facts k Hk). lia. }
  rewrite Hl. eexists. split; [exact (take_run h k a j l n Hk' Hk Hp Hj Ha Hn1)|]. split_and!; [done| | |].
  - apply (heap_take live h _ k a j n l size); try done.
    + by apply (descs_ok_with _ h); [apply H|].
    + intros k'. by apply (frees_with (set_arenas _ h)).
  - by apply (free_not_live live h k).
  - pose proof (block_range a k j Hk Hj). pose proof (pk_low a Hp). unfold NULL. lia.
Qed.

(** ** malloc *)

Lemma get_kernel_pages s n :
  pages_ok s -> 0 <= n < 2 ^ 32 ->
  exists r s', palloc_get_multiple 0 n s = Done (r, s') /\ pages_ok s' /\ got_pages false false n s r s'.
Proof. intros Hs Hn. destruct (palloc_get_run s 0 n Hs Hn) as [?|(_ & ? & _)]; done. Qed.

(** There is no room for [size] more bytes: the kernel pool has no run of free
    pages for an arena that holds them. *)
Definition no_room (h : heap_t) (size : Z) : Prop :=
  forall i, 0 <= i -> let n := (size + 12 + 4095) / 4096 in
    i + n <= pool_cnt (kernel_pool (h_pages h)) -> ~ group (used_map (kernel_pool (h_pages h))) i n false.

(** The outcome of a request. *)
Definition allocated (live : gmap Z Z) (h : heap_t) (size p : Z) (h' : heap_t) : Prop :=
  memory_of h' = memory_of h /\
  (p = NULL /\ heap_ok live h' /\ (size = 0 \/ no_room h size) \/ p <> NULL /\ live !! p = None /\ heap_ok (<[p := size]> live) h').

Lemma heap_pages live h h' :
  heap_ok live h -> pages_ok (h_pages h') -> flipped false 0 0 true (h_pages h) (h_pages h') ->
  descs h' = descs h -> arenas h' = arenas h -> heap_ok live h'.
Proof.
  intros H Hp (_ & Hb & Hc & Hbits) Hd Ha. simpl in Hb, Hc, Hbits.
  assert (Hf : forall k, frees h' k = frees h k) by (intros k; unfold frees; by rewrite Hd).
  constructor; rewrite ?Ha; try done; try apply (hp_apart _ _ H).
  - unfold descs_ok. rewrite Hd. apply H.
  - intros a x Hx. destruct (hp_arena _ _ H a x Hx) as (Hm & (i & E & Hi & Hn & Hin & Hg) & Hk). split_and!; [done| |].
    + exists i. unfold page_addr. rewrite Hb, Hc. split_and!; try done. intros j Hj. rewrite Hbits by lia.
      rewrite (Hg j Hj). by case_match.
    + intros k Hdx. rewrite Hf. by apply Hk.
  - intros k b. rewrite Hf. apply (hp_free _ _ H).
  - intros k. rewrite Hf. apply (hp_nodup _ _ H).
  - intros p sz Hp'. apply (hp_live _ _ H) in Hp' as [a x k j Hx Hd' Hj E Hnf Hs|a x Hx Hd' E Hs].
    + apply (small_block _ _ _ a x k j); try done; [by rewrite Ha|by rewrite Hf].
    + apply (big_block _ _ _ a x); try done. by rewrite Ha.
Qed.

Lemma frees_descs h h' k : descs h' = descs h -> frees h' k = frees h k.
Proof. intros E. unfold frees. by rewrite E. Qed.

Lemma malloc_big live h size :
  heap_ok live h -> 1024 < size -> size + 4107 < 2 ^ 32 -> find_desc size (descs h) = None ->
  exists p h', malloc size h = Done (p, h') /\ allocated live h size p h'.
Proof.
  intros H Hsz Hmax Hno. unfold malloc. rewrite (proj2 (Z.eqb_neq size 0)) by lia. erewrite bind_done; [|reflexivity]. rewrite Hno.
  unfold ARENA_SIZE. rewrite (u32_small (size + 12)) by lia. unfold div_round_up. rewrite pgsize_eq, u32_small by lia.
  set (n := (size + 12 + 4096 - 1) / 4096).
  assert (Hn : 0 < n < 2 ^ 32 /\ size + 12 <= 4096 * n).
  { unfold n. pose proof (Z.div_mod (size + 12 + 4096 - 1) 4096). pose proof (Z.mod_pos_bound (size + 12 + 4096 - 1) 4096). lia. }
  destruct (get_kernel_pages (h_pages h) n (hp_pages _ _ H)) as (r & s' & E & Hs' & Hgot); [lia|].
  rewrite (bind_done _ _ _ r (mk_heap_t s' (descs h) (arenas h))) by (unfold on_pages; by rewrite E).
  destruct Hgot as [-> Hfl Hmem Hfull|i Hi _ Hin -> Hg Hfl Hmem].
  - exists NULL, (mk_heap_t s' (descs h) (arenas h)). split; [done|]. split; [done|]. left. split_and!; [done|by apply (heap_pages live h)|].
    right. intros i Hi. cbv zeta. replace (size + 12 + 4095) with (size + 12 + 4096 - 1) by lia. fold n. intros Hin.
    destruct (Hfull i Hi Hin); [lia|done].
  - simpl in Hin, Hg, Hfl. pose proof (get_pool_ok false _ (hp_pages _ _ H)) as P. simpl in P.
    destruct (page_addr_facts _ _ i P) as (H1 & H2 & _); [lia|]. set (a := page_addr (get_pool false (h_pages h)) i).
    assert (0 < a /\ a + 4096 <= 2 ^ 32) as [Ha1 Ha2] by done.
    rewrite (proj2 (Z.eqb_neq a NULL)) by (unfold NULL; lia).
    set (h' := mk_heap_t s' (descs h) (<[a := mk_arena ARENA_MAGIC None n]> (arenas h))).
    rewrite (bind_done _ _ _ tt h') by done. exists (a + 12), h'. rewrite u32_small by lia.
    assert (Hok : heap_ok live h').
    { apply (heap_add live h h' a i n (mk_arena ARENA_MAGIC None n) 0 []); try done; try lia.
      - apply H.
      - intros k'. rewrite (frees_descs h' h) by done. case_decide; [subst; by rewrite app_nil_r|done].
      - by left. }
    assert (Hx : arenas h' !! a = Some (mk_arena ARENA_MAGIC None n)) by apply lookup_insert_eq.
    split; [done|]. split; [done|]. right. split_and!; [unfold NULL; lia| |].
    + destruct (live !! (a + 12)) as [sz|] eqn:El; [|done]. exfalso.
      destruct (live_home live h _ sz H El) as (y & Hy & _). destruct (arena_page live h' a _ Hok Hx) as [Hpa _].
      destruct (round_down_in a (a + 12) Hpa) as [Er _]; [lia|]. rewrite Er in Hy.
      rewrite (add_fresh live h a i n H) in Hy; [done|done|lia|done].
    + destruct Hok as [Hok1 Hok2 Hok3 Hok4 Hok5 Hok6 Hok7]. constructor; try done. intros p sz.
      destruct (decide (p = a + 12)) as [->|Hne]; [|rewrite lookup_insert_ne by done; apply Hok7].
      rewrite lookup_insert_eq. intros [= <-]. apply (big_block _ _ _ a (mk_arena ARENA_MAGIC None n)); try done. simpl. lia.
Qed.

Lemma with_list_twice k l b l' b' h : with_list k l b (with_list k l' b' h) = with_list k l b h.
Proof. unfold with_list, set_descs. simpl. by rewrite list_insert_insert_eq. Qed.

Lemma acquire_own h k : descs_ok h -> (k < desc_cnt)%nat -> acquire_desc_lock k h = Done (tt, with_list k (frees h k) true h).
Proof.
  intros Hd Hk. pose proof (acquire_with h k (frees h k)) as E. rewrite descs_with_list in E by done. apply E. destruct Hd. lia.
Qed.

Lemma find_desc_none h size : descs_ok h -> find_desc size (descs h) = None -> 1024 < size.
Proof.
  intros [Hl Hd] E. destruct (lookup_lt_is_Some_2 (descs h) 6) as [d Hk]; [rewrite Hl; unfold desc_cnt; lia|].
  destruct (Hd 6%nat d Hk) as (Hb & _). change (bs 6) with 1024 in Hb. rewrite <- Hb. clear Hl Hd Hb. revert E Hk.
  generalize (descs h) at 1 2, 6%nat. intros l. induction l as [|e l IH]; intros k; [done|]. simpl.
  destruct (Z.leb_spec size (d_block_size e)); [done|]. destruct (find_desc size l) eqn:E; [done|]. intros _.
  destruct k; [by intros [= ->]|]. by apply IH.
Qed.

Lemma small_size k size : (k < desc_cnt)%nat -> size <= bs k -> size <= 1024.
Proof.
  intros Hk H. assert (bs k <= bs 6); [|change (bs 6) with 1024 in *; lia]. unfold bs, desc_cnt in *.
  apply Z.mul_le_mono_nonneg_l; [lia|]. apply Z.pow_le_mono_r; lia.
Qed.

Lemma no_page h size : 0 < size -> size <= 1024 ->
  (forall i, 0 <= i -> i + 1 <= pool_cnt (kernel_pool (h_pages h)) -> 1 = 0 \/ ~ group (used_map (kernel_pool (h_pages h))) i 1 false) ->
  no_room h size.
Proof.
  intros H1 H2 Hno i Hi. cbv zeta. replace ((size + 12 + 4095) / 4096) with 1; [|].
  - intros Hin. by destruct (Hno i Hi Hin).
  - apply (Z.div_unique_pos _ _ _ (size + 12 + 4095 - 4096)); lia.
Qed.

Lemma malloc_small live h size k :
  heap_ok live h -> 0 < size -> find_desc size (descs h) = Some k ->
  exists p h', malloc size h = Done (p, h') /\ allocated live h size p h'.
Proof.
  intros H Hsz Hfd. destruct (find_desc_fits h size k (hp_descs _ _ H) Hfd) as [Hk Hfit].
  destruct (hp_descs _ _ H) as [Hlen _]. assert (Hk' : (k < length (descs h))%nat) by lia.
  unfold malloc. rewrite (proj2 (Z.eqb_neq size 0)) by lia. erewrite bind_done; [|reflexivity]. rewrite Hfd.
  rewrite (bind_done _ _ _ _ _ (acquire_own h k (hp_descs _ _ H) Hk)), (bind_done _ _ _ _ _ (load_desc_with h k (frees h k) true Hk')).
  cbn [free_list blocks_per_arena]. destruct (frees h k) as [|b l] eqn:El.
  - destruct (get_kernel_pages (h_pages h) 1 (hp_pages _ _ H)) as (r & s' & E & Hs' & Hgot); [lia|].
    rewrite (bind_done _ _ _ r (with_list k [] true (mk_heap_t s' (descs h) (arenas h)))) by (unfold on_pages, palloc_get_page; simpl; by rewrite E).
    destruct Hgot as [-> Hfl Hmem Hno|i Hi _ Hin -> Hg Hfl Hmem].
    + rewrite Z.eqb_refl, (bind_done _ _ _ _ _ (release_with (mk_heap_t s' (descs h) (arenas h)) k [] Hk')).
      exists NULL. eexists. split; [done|]. split; [done|]. left.
      split_and!; [done| |right; by apply (no_page h size Hsz (small_size k size Hk Hfit))].
      replace (with_list k [] false (mk_heap_t s' (descs h) (arenas h))) with (mk_heap_t s' (descs h) (arenas h)).
      * by apply (heap_pages live h).
      * rewrite <- (descs_with_list (mk_heap_t s' (descs h) (arenas h)) k) at 1; [|apply H|done].
        by rewrite (frees_descs h) by done; rewrite El.
    + simpl in Hin, Hg, Hfl. pose proof (get_pool_ok false _ (hp_pages _ _ H)) as P. simpl in P.
      set (a := page_addr (get_pool false (h_pages h)) i) in *. pose proof (add_page live h a i 1 H eq_refl Hi ltac:(lia) Hin) as Hpa.
      rewrite (proj2 (Z.eqb_neq a NULL)) by (pose proof (pk_low a Hpa); unfold NULL; lia).
      set (h1 := mk_heap_t s' (descs h) (<[a := mk_arena ARENA_MAGIC (Some k) (bpa k)]> (arenas h))).
      rewrite (bind_done _ _ _ tt (with_list k [] true h1)) by done. destruct (bpa_facts k Hk) as (Hb1 & _).
      erewrite bind_done; [|apply (fill_blocks_run h1 k true a (bpa k)); try done; [apply lookup_insert_eq|lia]]. rewrite Z2Nat.id by lia. cbn [app].
      change (block_at a k <$> seqZ 0 (bpa k)) with (blocks a k). set (h2 := with_list k (blocks a k) false h1).
      assert (Hf2 : frees h2 k = blocks a k) by (unfold h2; rewrite frees_with by done; by rewrite decide_True).
      assert (H2 : heap_ok live h2).
      { apply (heap_add live h h2 a i 1 (mk_arena ARENA_MAGIC (Some k) (bpa k)) k (blocks a k)); try done; try lia.
        - by apply (descs_ok_with _ h); [apply H|].
        - intros k'. unfold h2. rewrite frees_with by done. rewrite El. by case_decide.
        - right. by split_and!. }
      rewrite <- (with_list_twice k (blocks a k) true (blocks a k) false h1). fold h2. rewrite <- Hf2.
      destruct (blocks a k) as [|b0 l0] eqn:Eb; [pose proof (length_blocks a k) as Hlb; rewrite Eb in Hlb; simpl in Hlb; lia|].
      destruct (take_ok live h2 k b0 l0 size H2 Hk Hf2) as (h' & E' & Hpg & Hok & Hnone & Hnn); [lia|].
      exists b0, h'. split; [done|]. split; [unfold memory_of; by rewrite Hpg|]. right. by split_and!.
  - rewrite <- El. destruct (take_ok live h k b l size H Hk El) as (h' & E' & Hpg & Hok & Hnone & Hnn); [lia|].
    exists b, h'. split; [done|]. split; [unfold memory_of; by rewrite Hpg|]. right. by split_and!.
Qed.

Lemma malloc_run live h size :
  heap_ok live h -> 0 <= size -> size + 4107 < 2 ^ 32 ->
  exists p h', malloc size h = Done (p, h') /\ allocated live h size p h'.
Proof.
  intros H Hsz Hmax. destruct (decide (size = 0)) as [->|Hne].
  { exists NULL, h. split; [done|]. split; [done|]. left. auto. }
  destruct (find_desc size (descs h)) as [k|] eqn:E.
  - apply (malloc_small live h size k); (done || lia).
  - apply malloc_big; try done. apply (find_desc_none h); [apply H|done].
Qed.

(** ** free *)

Definition byte_memory (h : heap_t) : Prop := map_Forall (fun _ v => is_byte v) (memory_of h).

(** The blocks in use keep their bytes. *)
Definition contents_kept (live : gmap Z Z) (h h' : heap_t) : Prop :=
  (forall q sz y, live !! q = Some sz -> q <= y < q + sz -> memory_of h' !! y = memory_of h !! y) /\
  (byte_memory h -> byte_memory h').

Lemma byte_write h h' p l :
  memory_of h' = write p l (memory_of h) -> Forall is_byte l -> byte_memory h -> byte_memory h'.
Proof.
  intros E Hl Hh a v. rewrite E, lookup_write. case_decide; [|apply Hh]. intros Hv. by apply (Forall_lookup_1 _ _ _ _ Hl Hv).
Qed.

Lemma cc_bytes n : Forall is_byte (replicate n 0xcc).
Proof. apply Forall_replicate. unfold is_byte. lia. Qed.

Lemma live_outside live h a x q sz :
  heap_ok live h -> arenas h !! a = Some x -> live !! q = Some sz -> pg_round_down q <> a ->
  q + sz <= a \/ a + 4096 * arena_pages x <= q.
Proof.
  intros H Ha Hq Hne. destruct (live_home live h q sz H Hq) as (y & Hy & Hl).
  destruct (block_lies live h q sz H (hp_live _ _ H q sz Hq)) as (c & z & Hc & H1 & H2 & H3 & H4).
  assert (c = pg_round_down q) as ->.
  { destruct (a_desc z) as [k|] eqn:Ed.
    - destruct H4 as (j & Hj & -> & _). symmetry. by apply (block_home live h c z k j H).
    - rewrite H4. symmetry. by apply (big_home live h c z H). }
  destruct (Z.lt_trichotomy a (pg_round_down q)) as [Hlt|[?|Hlt]]; [|done|].
  - pose proof (hp_apart _ _ H a x _ z Ha Hc Hlt). lia.
  - pose proof (hp_apart _ _ H _ z a x Hc Ha Hlt). lia.
Qed.

(** Giving the page of an arena back once all its blocks are free. *)
Lemma release_arena live h k a :
  heap_ok live h -> (k < desc_cnt)%nat -> arenas h !! a = Some (mk_arena ARENA_MAGIC (Some k) (bpa k)) ->
  exists l h', (unlink_loop (Z.to_nat (bpa k)) k a 0 ;; on_pages (palloc_free_page a) ;;
      modify (fun h => set_arenas (delete a (arenas h)) h)) (with_list k (frees h k) true h) = Done (tt, with_list k l true h') /\
    descs h' = descs h /\ heap_ok live (with_list k l false h') /\ contents_kept live h h'.
Proof.
  intros H Hk Ha. destruct (hp_descs _ _ H) as [Hlen _]. assert (Hk' : (k < length (descs h))%nat) by lia.
  destruct (arena_page live h a _ H Ha) as [Hpa _]. destruct (hp_arena _ _ H a _ Ha) as (_ & (i & Ei & Hi & _ & Hin & Hg) & Hcnt).
  destruct (Hcnt k eq_refl) as [_ Hn]. destruct (bpa_facts k Hk) as (Hb1 & _). cbn [arena_pages a_desc free_cnt] in *.
  assert (Hlive : forall p sz, live !! p = Some sz -> pg_round_down p <> a).
  { intros p sz Hp E. destruct (live_home live h p sz H Hp) as (y & Hy & Hl). rewrite E, Ha in Hy. injection Hy as <-.
    destruct Hl as (j & Hj & Ep & Hnf & _). apply Hnf, (arena_all_free live h a k); [done|done|by rewrite <- Hn|]. apply elem_of_blocks. exists j. by rewrite <- E. }
  erewrite bind_done; [|apply (unlink_run h k true a (bpa k)); try done; lia]. rewrite Z2Nat.id by lia.
  change (block_at a k <$> seqZ 0 (bpa k)) with (blocks a k). set (l := filter _ (frees h k)).
  destruct (palloc_free_run (h_pages h) false i 1 (hp_pages _ _ H)) as (s' & Es & Hs' & Hfl & Hmem); [lia|lia|done|done|].
  simpl in Es. rewrite <- Ei in Es.
  rewrite (bind_done _ _ _ tt (with_list k l true (mk_heap_t s' (descs h) (arenas h)))) by (unfold on_pages, palloc_free_page; simpl; by rewrite Es).
  set (h1 := mk_heap_t s' (descs h) (delete a (arenas h))). exists l, h1. split_and!; [done|done| |].
  - apply (heap_remove live h (with_list k l false h1) a i (mk_arena ARENA_MAGIC (Some k) (bpa k)) k H Ha Ei Hs' Hfl eq_refl); [| | |exact Hlive].
    + by apply (descs_ok_with _ h); [apply H|].
    + intros k'. rewrite frees_with by done. case_decide; [|done]. apply filter_ext_elem. intros b Hb. rewrite elem_of_blocks.
      destruct (free_home live h k b H Hb) as (y & j & Hy & Hdy & Hj & E). split.
      * intros Hnb Er. apply Hnb. exists j. rewrite <- Er. exact (conj Hj E).
      * intros Hne (j' & Hj' & ->). exact (Hne (block_home live h a _ k j' H Ha eq_refl Hj')).
    + by intros k' [= <-].
  - split; [|apply (byte_write h h1 _ _ Hmem (cc_bytes _))].
    intros q sz y Hq Hy. unfold memory_of. simpl. rewrite Hmem, lookup_write, decide_False; [done|].
    rewrite length_replicate. cbn [get_pool]. rewrite <- Ei. clear Hmem Es.
    destruct (live_outside live h a _ q sz H Ha Hq (Hlive q sz Hq)); cbn [arena_pages a_desc] in *; lia.
Qed.

Lemma live_grow live h p sz : heap_ok live h -> block_ok h p sz -> heap_ok (<[p := sz]> live) h.
Proof.
  intros [H1 H2 H3 H4 H5 H6 H7] Hb. constructor; try assumption. intros q sz'.
  destruct (decide (q = p)) as [->|Hne]; [|rewrite lookup_insert_ne by done; apply H7]. rewrite lookup_insert_eq. by intros [= <-].
Qed.

(** Overwriting a block, of which at least [n] bytes are its own, keeps the others. *)
Lemma overwrite_kept live h h' p l :
  heap_ok live h -> block_ok h p (Z.of_nat (length l)) -> memory_of h' = write p l (memory_of h) -> Forall is_byte l ->
  contents_kept (delete p live) h h'.
Proof.
  intros H Hb Hm Hl. split; [|by apply (byte_write h h' p l)]. intros q sz y [Hqp Hq]%lookup_delete_Some Hy. rewrite Hm, lookup_write, decide_False; [done|].
  pose proof (live_grow live h p _ H Hb) as H'. assert (Hp : <[p := Z.of_nat (length l)]> live !! p = Some (Z.of_nat (length l))) by apply lookup_insert_eq.
  assert (Hq' : <[p := Z.of_nat (length l)]> live !! q = Some sz) by (by rewrite lookup_insert_ne).
  destruct (Z.lt_trichotomy p q) as [Hlt|[?|Hlt]]; [|done|].
  - pose proof (live_disjoint _ h p q _ _ H' Hp Hq' Hlt). lia.
  - pose proof (live_disjoint _ h q p _ _ H' Hq' Hp Hlt). lia.
Qed.

(** The bytes of a block are mapped. *)
Lemma block_mapped live h p sz : heap_ok live h -> block_ok h p sz -> mapped (memory_of h) p (Z.to_nat sz) /\ p <> NULL /\ p + sz <= 2 ^ 32.
Proof.
  intros H Hb. destruct (block_lies live h p sz H Hb) as (a & x & Ha & H1 & H2 & H3 & _).
  destruct (arena_page live h a x H Ha) as [Hpa Hend]. pose proof (pk_low a Hpa).
  destruct (hp_arena _ _ H a x Ha) as (_ & (i & Ei & Hi & Hn & Hin & _) & _).
  split_and!; [|unfold NULL; lia|lia].
  apply (mapped_sub _ a (Z.to_nat (4096 * arena_pages x))); [|lia|lia]. rewrite Ei.
  apply pool_mapped; [exact (get_pool_ok false _ (hp_pages _ _ H))|lia|lia|done].
Qed.

(** Storing into memory changes nothing else. *)
Definition with_memory (m : mem) (h : heap_t) : heap_t := mk_heap_t (set_memory m (h_pages h)) (descs h) (arenas h).

Lemma heap_write live h p l : heap_ok live h -> heap_ok live (with_memory (write p l (memory_of h)) h).
Proof.
  intros [H1 H2 H3 H4 H5 H6 H7]. constructor; try assumption.
  - apply (pages_ok_update false (h_pages h)); try done; try apply (get_pool_ok false _ H1); try apply H1. simpl. intros b. apply write_zeroes_dom.
  - intros q sz Hq. destruct (H7 q sz Hq) as [a x k j|a x]; [by apply (small_block _ _ _ a x k j)|by apply (big_block _ _ _ a x)].
Qed.

Lemma memset_block live h p sz v :
  heap_ok live h -> block_ok h p sz -> 0 <= v < 256 ->
  on_pages (on_mem (memset p v sz)) h = Done (p, with_memory (write p (replicate (Z.to_nat sz) v) (memory_of h)) h).
Proof.
  intros H Hb Hv. destruct (block_mapped live h p sz H Hb) as (Hm & Hp & _). unfold on_pages, on_mem. change (memory (h_pages h)) with (memory_of h).
  by rewrite (memset_run _ p v sz Hm Hv Hp).
Qed.

(** What giving back [p] does. *)
Definition given_back (live : gmap Z Z) (h : heap_t) (p : Z) (h' : heap_t) : Prop :=
  heap_ok (delete p live) h' /\ contents_kept (delete p live) h h'.

Lemma kept_trans live h1 h2 h3 : contents_kept live h1 h2 -> contents_kept live h2 h3 -> contents_kept live h1 h3.
Proof.
  intros [H1 B1] [H2 B2]. split; [|auto]. intros q sz y Hq Hy. rewrite (H2 q sz y Hq Hy). by apply (H1 q sz).
Qed.

Lemma load_arena_run h a x : arenas h !! a = Some x -> load_arena a h = Done (x, h).
Proof. intros E. unfold load_arena. by rewrite E. Qed.

Lemma free_small live h a k j n :
  heap_ok live h -> arenas h !! a = Some (mk_arena ARENA_MAGIC (Some k) n) -> 0 <= j < bpa k -> block_at a k j ∉ frees h k ->
  exists h', free (block_at a k j) h = Done (tt, h') /\ given_back live h (block_at a k j) h'.
Proof.
  intros H Ha Hj Hnf. set (p := block_at a k j). destruct (hp_arena _ _ H a _ Ha) as (_ & _ & Hcnt). destruct (Hcnt k eq_refl) as [Hk Hn].
  cbn [free_cnt] in Hn. destruct (hp_descs _ _ H) as [Hlen _]. assert (Hk' : (k < length (descs h))%nat) by lia.
  destruct (arena_page live h a _ H Ha) as [Hpa _]. destruct (bpa_facts k Hk) as (Hb1 & _). pose proof (bs_pos k) as Hbs.
  assert (Hblk : block_ok h p (bs k)) by (apply (small_block _ _ _ a (mk_arena ARENA_MAGIC (Some k) n) k j); try done; lia).
  destruct (block_mapped live h p _ H Hblk) as (_ & Hp0 & _). pose proof (in_page_bound live h a k H Hk) as Hbnd.
  unfold free. rewrite (proj2 (Z.eqb_neq p NULL) Hp0).
  pose proof (to_arena_small h k (frees h k) false a j n Hk' Hk Hpa Hj Ha) as E1.
  pose proof (load_desc_with h k (frees h k) false Hk') as E2. rewrite descs_with_list in E1, E2 by (done || apply H). fold p in E1.
  rewrite (bind_done _ _ _ _ _ E1), (bind_done _ _ _ _ _ (load_arena_run h a _ Ha)). cbn [a_desc].
  rewrite (bind_done _ _ _ _ _ E2). cbn [d_block_size].
  rewrite (bind_done _ _ _ _ _ (memset_block live h p (bs k) 0xcc H Hblk ltac:(lia))).
  set (h1 := with_memory _ h). assert (H1 : heap_ok live h1) by apply (heap_write live h p _ H).
  assert (Hkept : contents_kept (delete p live) h h1).
  { apply (overwrite_kept live h h1 p (replicate (Z.to_nat (bs k)) 0xcc) H); [|done|apply cc_bytes]. by rewrite length_replicate, Z2Nat.id by lia. }
  rewrite (bind_done _ _ _ _ _ (acquire_own h1 k (hp_descs _ _ H1) Hk)).
  rewrite (bind_done _ _ _ _ _ (load_desc_with h1 k _ true Hk')), (bind_done _ _ _ _ _ (set_list_with h1 k _ true Hk' _)).
  rewrite (bind_done _ _ _ _ _ (load_arena_run (with_list k (p :: frees h k) true h1) a _ Ha)).
  cbn [free_list free_cnt blocks_per_arena]. rewrite (u32_small (n + 1)) by lia.
  set (h2 := set_arenas (<[a := mk_arena ARENA_MAGIC (Some k) (n + 1)]> (arenas h)) h1).
  rewrite (bind_done _ _ _ tt (with_list k (p :: frees h k) true h2))
    by (unfold set_free_cnt; by rewrite (bind_done _ _ _ _ _ (load_arena_run (with_list k (p :: frees h k) true h1) a _ Ha))).
  set (h3 := with_list k (p :: frees h k) false h2).
  assert (Hf3 : forall k', frees h3 k' = if decide (k' = k) then p :: frees h k else frees h k') by (intros k'; apply (frees_with h2); done).
  assert (H3 : heap_ok (delete p live) h3).
  { apply (heap_put live h h3 k a j n H Hnf Ha Hj); try done; [apply (hp_pages _ _ H1)|]. by apply (descs_ok_with _ h); [apply H|]. }
  assert (Ha3 : arenas h3 !! a = Some (mk_arena ARENA_MAGIC (Some k) (n + 1))) by apply lookup_insert_eq.
  assert (Hn3 : n + 1 <= bpa k).
  { destruct (hp_arena _ _ H3 a _ Ha3) as (_ & _ & Hc3). destruct (Hc3 k eq_refl) as [_ Hn3]. cbn [free_cnt] in Hn3. rewrite Hn3.
    by apply (in_page_bound (delete p live) h3). }
  destruct (Z.leb_spec (bpa k) (n + 1)) as [Hle|Hgt].
  - assert (En : n + 1 = bpa k) by lia. rewrite En in Ha3. destruct (release_arena _ h3 k a H3 Hk Ha3) as (l & h' & E' & Hd' & Hok' & Hkept').
    rewrite Hf3, decide_True in E' by done. unfold h3 in E'. rewrite with_list_twice in E'.
    rewrite (bind_done _ _ _ tt (with_list k l true h')) by (rewrite assert_true by (by apply Z.eqb_eq); exact E').
    exists (with_list k l false h'). split; [apply release_with; rewrite Hd'; simpl; by rewrite length_insert|]. split; [done|].
    by apply (kept_trans _ h h1).
  - rewrite bind_ret. exists h3. split; [by apply (release_with h2)|]. by split.
Qed.

Lemma to_arena_big live h a n :
  heap_ok live h -> arenas h !! a = Some (mk_arena ARENA_MAGIC None n) -> block_to_arena (a + 12) h = Done (a, h).
Proof.
  intros H Ha. destruct (arena_page live h a _ H Ha) as [Hpa _]. destruct (round_down_in a (a + 12) Hpa) as [Er Eo]; [lia|].
  unfold block_to_arena. rewrite Er, Eo. pose proof (pk_low a Hpa).
  rewrite assert_true by (rewrite (proj2 (Z.eqb_neq a NULL)) by (unfold NULL; lia); done).
  rewrite (bind_done _ _ _ _ _ (load_arena_run h a _ Ha)), assert_true by done. cbn [a_desc].
  rewrite assert_true; [done|]. unfold ARENA_SIZE. apply Z.eqb_eq. lia.
Qed.

Lemma free_big live h a n :
  heap_ok live h -> arenas h !! a = Some (mk_arena ARENA_MAGIC None n) ->
  exists h', free (a + 12) h = Done (tt, h') /\ given_back live h (a + 12) h'.
Proof.
  intros H Ha. destruct (arena_page live h a _ H Ha) as [Hpa _]. pose proof (pk_low a Hpa).
  destruct (hp_arena _ _ H a _ Ha) as (_ & (i & Ei & Hi & Hn & Hin & Hg) & _). cbn [arena_pages a_desc free_cnt] in *.
  destruct (palloc_free_run (h_pages h) false i n (hp_pages _ _ H)) as (s' & Es & Hs' & Hfl & Hmem); [lia|lia|done|done|].
  cbn [get_pool] in Es, Hmem. rewrite <- Ei in Es, Hmem. unfold free. rewrite (proj2 (Z.eqb_neq (a + 12) NULL)) by (unfold NULL; lia).
  rewrite (bind_done _ _ _ _ _ (to_arena_big live h a n H Ha)), (bind_done _ _ _ _ _ (load_arena_run h a _ Ha)). cbn [a_desc free_cnt].
  rewrite (bind_done _ _ _ tt (mk_heap_t s' (descs h) (arenas h))) by (unfold on_pages; by rewrite Es).
  set (h' := mk_heap_t s' (descs h) (delete a (arenas h))). exists h'. split; [done|].
  assert (Hlive : forall p sz, delete (a + 12) live !! p = Some sz -> pg_round_down p <> a).
  { intros p sz [Hne Hp]%lookup_delete_Some E. destruct (live_home live h p sz H Hp) as (y & Hy & Hl). rewrite E, Ha in Hy.
    injection Hy as <-. destruct Hl as [Hl _]. apply Hne. by rewrite Hl, E. }
  assert (Hsub : heap_ok (delete (a + 12) live) h).
  { destruct H as [H1 H2 H3 H4 H5 H6 H7]. constructor; try assumption. intros p sz [_ Hp]%lookup_delete_Some. by apply H7. }
  split.
  - apply (heap_remove _ h h' a i (mk_arena ARENA_MAGIC None n) 0 Hsub Ha Ei Hs' Hfl eq_refl); [apply H| |done|exact Hlive].
    intros k'. rewrite (frees_descs h h') by done. case_decide as E; [|done]. subst k'. symmetry. apply filter_all. intros b Hb E.
    destruct (free_home live h 0 b H Hb) as (y & j & Hy & Hdy & _). rewrite E, Ha in Hy. by injection Hy as <-.
  - split; [|apply (byte_write h h' _ _ Hmem (cc_bytes _))]. intros q sz y Hq Hy. unfold memory_of. cbn [h_pages h']. rewrite Hmem, lookup_write, decide_False; [done|].
    rewrite length_replicate. destruct (live_outside _ h a _ q sz Hsub Ha Hq (Hlive q sz Hq)); cbn [arena_pages a_desc free_cnt] in *; lia.
Qed.

Lemma free_run live h p :
  heap_ok live h -> p = NULL \/ is_Some (live !! p) -> exists h', free p h = Done (tt, h') /\ given_back live h p h'.
Proof.
  intros H [->|[sz Hp]].
  - exists h. split; [done|]. split; [|done]. replace (delete NULL live) with live; [done|]. symmetry. apply delete_id.
    destruct (live !! NULL) as [sz|] eqn:E; [|done]. by destruct (block_mapped live h NULL sz H (hp_live _ _ H _ _ E)) as (_ & ? & _).
  - destruct (hp_live _ _ H p sz Hp) as [a [mg d n] k j Ha Hd Hj -> Hnf _|a [mg d n] Ha Hd -> _]; simpl in Hd; subst d;
      destruct (hp_arena _ _ H a _ Ha) as (Hm & _); simpl in Hm; subst mg; [by apply (free_small live h a k j n)|by apply (free_big live h a n)].
Qed.
