(* ===== verification/MallocSpec.v ===== *)
(** * The block allocator against an abstract heap

    The abstract heap maps each block in use to its bytes.  A call of the
    allocator is a step of it: a new block lies apart from all others, and a
    block keeps its bytes until its owner stores to it or gives it back.  The
    simulation covers every client that keeps to the rules, whatever the
    allocator answers. *)

From stdpp Require Import options.
From S2P Require Import Prelude Bytes KList Bitmap Mem Str Vaddr Palloc Malloc MallocProps.
Local Open Scope Z_scope.
Local Open Scope kernel_scope.

(** ** The abstract heap *)

Abbreviation blocks_t := (gmap Z (list Z)).

Inductive request :=
  | Malloc (size : Z)
  | Calloc (a b : Z)
  | Realloc (old_block new_size : Z)
  | Free (p : Z)
  | Store (p i v : Z)
  | Load (p i : Z).

(** The rules for clients: sizes that do not wrap around, blocks in use, indices inside them. *)
Definition allowed (abs : blocks_t) (r : request) : Prop :=
  match r with
  | Malloc size => 0 <= size < 2 ^ 32 - 4107
  | Calloc a b => 0 <= a < 2 ^ 32 /\ 0 <= b < 2 ^ 32 /\ a * b < 2 ^ 32 - 4107
  | Realloc p size => (p = NULL \/ is_Some (abs !! p)) /\ 0 <= size < 2 ^ 32 - 4107
  | Free p => p = NULL \/ is_Some (abs !! p)
  | Store p i v => is_byte v /\ 0 <= i /\ exists l, abs !! p = Some l /\ i < Z.of_nat (length l)
  | Load p i => 0 <= i /\ exists l, abs !! p = Some l /\ i < Z.of_nat (length l)
  end.

(** A new block: at an address of its own, apart from all others. *)
Definition new_block (abs : blocks_t) (p : Z) (l : list Z) : Prop :=
  0 < p /\ p + Z.of_nat (length l) <= 2 ^ 32 /\ abs !! p = None /\ l <> [] /\
  forall q k, abs !! q = Some k -> q + Z.of_nat (length k) <= p \/ p + Z.of_nat (length l) <= q.

Definition spec_step (abs : blocks_t) (r : request) (res : Z) (abs' : blocks_t) : Prop :=
  match r with
  | Malloc size =>
      res = NULL /\ abs' = abs \/
      exists l, Z.of_nat (length l) = size /\ new_block abs res l /\ abs' = <[res := l]> abs
  | Calloc a b =>
      res = NULL /\ abs' = abs \/
      let l := replicate (Z.to_nat (a * b)) 0 in new_block abs res l /\ abs' = <[res := l]> abs
  | Realloc p size =>
      if size =? 0 then res = NULL /\ abs' = delete p abs
      else res = NULL /\ abs' = abs \/
        exists l, Z.of_nat (length l) = size /\ new_block abs res l /\ abs' = <[res := l]> (delete p abs) /\
          let old := default [] (abs !! p) in
          take (length old) l = take (length l) old
  | Free p => res = 0 /\ abs' = delete p abs
  | Store p i v => res = 0 /\ exists l, abs !! p = Some l /\ abs' = <[p := <[Z.to_nat i := v]> l]> abs
  | Load p i => abs' = abs /\ exists l, abs !! p = Some l /\ l !! Z.to_nat i = Some res
  end.

(** ** The allocator *)

Definition serve (r : request) : MH Z :=
  match r with
  | Malloc size => malloc size
  | Calloc a b => calloc a b
  | Realloc p size => realloc p size
  | Free p => free p ;; ret 0
  | Store p i v => on_pages (on_mem (store8 (p + i) v)) ;; ret 0
  | Load p i => on_pages (on_mem (load8 (p + i)))
  end.

Definition sizes (abs : blocks_t) : gmap Z Z := (fun l => Z.of_nat (length l)) <$> abs.

Record represents (abs : blocks_t) (h : heap_t) : Prop := {
  rp_ok : heap_ok (sizes abs) h;
  rp_bytes p l : abs !! p = Some l -> bytes_at (memory_of h) p l;
  rp_byte : byte_memory h;
}.

Definition history := list (request * Z).

(** [n] steps of a client that chooses its next call by what it has seen. *)
Fixpoint run_client (client : history -> request) (n : nat) (hist : history) : MH history :=
  match n with
  | O => ret hist
  | S n => let! res := serve (client hist) in run_client client n (hist ++ [(client hist, res)])
  end.

(** The histories that the abstract heap allows such a client. *)
Inductive spec_run (client : history -> request) (abs : blocks_t) : history -> blocks_t -> Prop :=
  | spec_start : spec_run client abs [] abs
  | spec_next hist abs' res abs'' : spec_run client abs hist abs' -> spec_step abs' (client hist) res abs'' ->
      spec_run client abs (hist ++ [(client hist, res)]) abs''.

(** ** Start-up *)

Lemma malloc_init_run h : pages_ok (h_pages h) -> arenas h = ∅ ->
  exists h', malloc_init h = Done (tt, h') /\ heap_ok ∅ h' /\ h_pages h' = h_pages h.
Proof.
  intros Hp Ha. exists (set_descs (init_descs 10 16) h). split; [done|]. split; [|done].
  assert (Hf : forall k, frees (set_descs (init_descs 10 16) h) k = []) by (intros k; do 8 (destruct k as [|k]; [done|]); done).
  constructor; simpl; rewrite ?Ha; try done.
  - split; [done|]. intros k d. do 7 (destruct k as [|k]; [by intros [= <-]|]). done.
  - intros k b. rewrite Hf. by intros ?%elem_of_nil.
  - intros k. rewrite Hf. constructor.
Qed.

(** ** Blocks and their bytes *)

Lemma sizes_lookup abs p : sizes abs !! p = (fun l => Z.of_nat (length l)) <$> abs !! p.
Proof. apply lookup_fmap. Qed.

Lemma sizes_insert abs p l : sizes (<[p := l]> abs) = <[p := Z.of_nat (length l)]> (sizes abs).
Proof. unfold sizes. by rewrite fmap_insert. Qed.

Lemma sizes_delete abs p : sizes (delete p abs) = delete p (sizes abs).
Proof. unfold sizes. by rewrite fmap_delete. Qed.

Lemma bytes_kept m m' p l : bytes_at m p l -> (forall y, p <= y < p + Z.of_nat (length l) -> m' !! y = m !! y) -> bytes_at m' p l.
Proof.
  intros H Hm i x Hi. rewrite Hm; [by apply H|]. apply lookup_lt_Some in Hi. lia.
Qed.

Lemma bytes_are_bytes h p l : byte_memory h -> bytes_at (memory_of h) p l -> Forall is_byte l.
Proof. intros Hm Hl. apply Forall_lookup_2. intros i x Hx. exact (Hm _ x (Hl i x Hx)). Qed.

Lemma live_block abs h p l : represents abs h -> abs !! p = Some l -> block_ok h p (Z.of_nat (length l)).
Proof. intros H Hp. apply (hp_live _ _ (rp_ok _ _ H)). by rewrite sizes_lookup, Hp. Qed.

(** A block handed out now is new. *)
Lemma represents_new abs h size p h' :
  represents abs h -> 0 <= size -> allocated (sizes abs) h size p h' ->
  p = NULL /\ represents abs h' \/
  exists l, Z.of_nat (length l) = size /\ new_block abs p l /\ represents (<[p := l]> abs) h' /\ memory_of h' = memory_of h.
Proof.
  intros [H1 H2 H3] Hsz [Hm [(-> & Hok & _)|(Hp & Hnone & Hok)]].
  - left. split; [done|]. constructor; [done| |]; unfold byte_memory; by rewrite Hm.
  - right. assert (Hlk : <[p := size]> (sizes abs) !! p = Some size) by apply lookup_insert_eq.
    pose proof (hp_live _ _ Hok p size Hlk) as Hb. destruct (block_mapped _ h' p size Hok Hb) as (Hmap & _ & Hend).
    destruct (block_lies _ h' p size Hok Hb) as (a & x & Ha & Hlo & _ & Hpos & _). pose proof (pk_low a (proj1 (arena_page _ h' a x Hok Ha))) as Hlow.
    destruct (mapped_bytes _ _ _ Hmap) as (l & Hl & Hbytes). assert (El : Z.of_nat (length l) = size) by lia.
    exists l. split_and!; [done| | |done].
    + split_and!; [lia|lia| |by intros ->; simpl in *; lia|].
      * rewrite sizes_lookup in Hnone. by destruct (abs !! p).
      * intros q k Hq. assert (Hqp : q <> p) by (intros ->; by rewrite sizes_lookup, Hq in Hnone).
        assert (Hq' : <[p := size]> (sizes abs) !! q = Some (Z.of_nat (length k))) by (by rewrite lookup_insert_ne, sizes_lookup, Hq).
        destruct (Z.lt_trichotomy p q) as [Hlt|[?|Hlt]]; [right|by subst|left].
        -- pose proof (live_disjoint _ h' p q _ _ Hok Hlk Hq' Hlt). lia.
        -- exact (live_disjoint _ h' q p _ _ Hok Hq' Hlk Hlt).
    + constructor; [by rewrite sizes_insert, El| |unfold byte_memory; by rewrite Hm].
      intros q k [(<- & <-)|(_ & Hq)]%lookup_insert_Some; [done|]. rewrite Hm. by apply H2.
Qed.

(** Giving a block back leaves the others. *)
Lemma represents_free abs h p :
  represents abs h -> p = NULL \/ is_Some (abs !! p) -> exists h', free p h = Done (tt, h') /\ represents (delete p abs) h'.
Proof.
  intros [H1 H2 H3] Hp. destruct (free_run (sizes abs) h p H1) as (h' & E & Hok & Hkept & Hb).
  { destruct Hp as [->|[l Hl]]; [by left|right]. by rewrite sizes_lookup, Hl. }
  exists h'. split; [done|]. constructor; [by rewrite sizes_delete|intros q l Hq|auto].
  apply (bytes_kept (memory_of h)); [apply H2; by apply lookup_delete_Some in Hq as []|]. intros y Hy.
  apply (Hkept q (Z.of_nat (length l)) y); [|done]. by rewrite <- sizes_delete, sizes_lookup, Hq.
Qed.

(** Storing bytes at the start of a block, inside it or in the room behind it. *)
Lemma represents_write abs h p old l :
  represents abs h -> abs !! p = Some old -> Forall is_byte l -> block_ok h p (Z.of_nat (length l)) ->
  represents (<[p := take (length old) l ++ drop (length l) old]> abs) (with_memory (write p l (memory_of h)) h).
Proof.
  intros [H1 H2 H3] Hp Hl Hb. set (new := take (length old) l ++ drop (length l) old).
  assert (Hlen : length new = length old) by (unfold new; rewrite length_app, length_take, length_drop; lia).
  destruct (overwrite_kept (sizes abs) h (with_memory (write p l (memory_of h)) h) p l H1 Hb eq_refl Hl) as [Hk Hby].
  constructor; [|intros q k [(<- & <-)|(Hne & Hq)]%lookup_insert_Some|auto].
  - rewrite sizes_insert, insert_id by (by rewrite sizes_lookup, Hp, Hlen). by apply heap_write.
  - intros i x Hx. unfold memory_of. cbn [with_memory h_pages set_memory memory]. rewrite lookup_write. unfold new in Hx.
    apply lookup_app_Some in Hx as [Hx|[Hi Hx]].
    + apply lookup_take_Some in Hx as [Hx Hi]. pose proof (lookup_lt_Some _ _ _ Hx). rewrite decide_True by lia.
      rewrite <- Hx. f_equal. lia.
    + rewrite length_take in Hi, Hx. rewrite lookup_drop in Hx. pose proof (lookup_lt_Some _ _ _ Hx).
      replace (length l + (i - length old `min` length l))%nat with i in Hx by lia. rewrite decide_False by lia. by apply (H2 p old).
  - apply (bytes_kept (memory_of h)); [by apply H2|]. intros y Hy. apply (Hk q (Z.of_nat (length k)) y); [|done].
    by rewrite lookup_delete_ne, sizes_lookup, Hq.
Qed.

(** ** calloc and realloc *)

Lemma null_not_block abs h : represents abs h -> abs !! NULL = None.
Proof.
  intros H. destruct (abs !! NULL) as [l|] eqn:E; [|done].
  by destruct (block_mapped _ h NULL _ (rp_ok _ _ H) (live_block abs h NULL l H E)) as (_ & ? & _).
Qed.

Lemma calloc_step abs h a b :
  represents abs h -> allowed abs (Calloc a b) ->
  exists p h' abs', calloc a b h = Done (p, h') /\ spec_step abs (Calloc a b) p abs' /\ represents abs' h'.
Proof.
  intros H (Ha & Hb & Hab). assert (Hnn : 0 <= a * b) by (apply Z.mul_nonneg_nonneg; lia). unfold calloc. rewrite (u32_small (a * b)) by lia.
  destruct ((a * b <? a) || (a * b <? b)). { exists NULL, h, abs. split_and!; [done|by left|done]. }
  destruct (malloc_run _ h (a * b) (rp_ok _ _ H)) as (p & h1 & E & Hal); [lia|lia|]. rewrite (bind_done _ _ _ _ _ E).
  destruct (represents_new abs h (a * b) p h1 H Hnn Hal) as [[-> H1]|(l & Hl & Hnew & H1 & _)].
  { exists NULL, h1, abs. split_and!; [done|by left|done]. }
  assert (Hlk : <[p := l]> abs !! p = Some l) by apply lookup_insert_eq. pose proof (live_block _ _ _ _ H1 Hlk) as Hblk.
  rewrite (proj2 (Z.eqb_neq p NULL)) by (destruct Hnew; unfold NULL; lia). cbn [negb]. set (z := replicate (Z.to_nat (a * b)) 0).
  assert (Hz : length z = length l) by (unfold z; rewrite length_replicate; lia).
  pose proof (memset_block _ h1 p (a * b) 0 (rp_ok _ _ H1) ltac:(by rewrite <- Hl) ltac:(lia)) as E2. fold z in E2.
  exists p, (with_memory (write p z (memory_of h1)) h1), (<[p := z]> abs). split_and!.
  - rewrite (bind_done _ _ _ tt (with_memory (write p z (memory_of h1)) h1)) by (by rewrite (bind_done _ _ _ _ _ E2)). done.
  - right. cbv zeta. fold z. split; [|done]. unfold new_block. rewrite Hz. destruct Hnew as (? & ? & ? & Hne & ?).
    split_and!; try done; try lia. intros ->. by destruct l.
  - assert (Hzb : Forall is_byte z) by (apply Forall_replicate; unfold is_byte; lia).
    pose proof (represents_write _ h1 p l z H1 Hlk Hzb ltac:(by rewrite Hz)) as H2.
    rewrite <- Hz in H2 at 1. by rewrite firstn_all, Hz, drop_all, app_nil_r, insert_insert_eq in H2.
Qed.

Lemma block_ok_less h p s sz : block_ok h p sz -> 0 < s <= sz -> block_ok h p s.
Proof.
  intros [a x k j Ha Hd Hj -> Hnf Hsz|a x Ha Hd -> Hsz] Hs; [apply (small_block _ _ _ a x k j)|apply (big_block _ _ _ a x)]; try done; lia.
Qed.

(** [block_size] is all the room behind a block. *)
Lemma block_size_run live h p sz : heap_ok live h -> block_ok h p sz -> exists n, block_size p h = Done (n, h) /\ sz <= n /\ block_ok h p n.
Proof.
  intros H [a [mg d c] k j Ha Hd Hj -> Hnf Hsz|a [mg d c] Ha Hd -> Hsz]; simpl in Hd; subst d;
    destruct (hp_arena _ _ H a _ Ha) as (Hm & (i & _ & Hi & Hp & Hin & _) & Hc); cbn [a_magic a_desc free_cnt arena_pages] in *; subst mg;
    destruct (arena_page live h a _ H Ha) as [Hpa Hend]; unfold block_size.
  - destruct (Hc k eq_refl) as [Hk _]. destruct (hp_descs _ _ H) as [Hlen _]. assert (Hk' : (k < length (descs h))%nat) by lia.
    pose proof (to_arena_small h k (frees h k) false a j c Hk' Hk Hpa Hj Ha) as E1.
    pose proof (load_desc_with h k (frees h k) false Hk') as E2. rewrite descs_with_list in E1, E2 by (done || apply H).
    exists (bs k). rewrite (bind_done _ _ _ _ _ E1), (bind_done _ _ _ _ _ (load_arena_run h a _ Ha)). cbn [a_desc].
    rewrite (bind_done _ _ _ _ _ E2). pose proof (bs_pos k). split_and!; [done|lia|].
    apply (small_block _ _ _ a (mk_arena ARENA_MAGIC (Some k) c) k j); try done; lia.
  - rewrite (bind_done _ _ _ _ _ (to_arena_big live h a c H Ha)), (bind_done _ _ _ _ _ (load_arena_run h a _ Ha)). cbn [a_desc free_cnt].
    destruct (round_down_in a (a + 12) Hpa) as [_ Eo]; [lia|]. pose proof (pk_low a Hpa). cbn [arena_pages a_desc free_cnt] in Hend.
    exists (4096 * c - 12). rewrite Eo, pgsize_eq, (u32_small (4096 * c)), u32_small by lia. split_and!; [unfold ret; do 2 f_equal; lia|lia|].
    apply (big_block _ _ _ a (mk_arena ARENA_MAGIC None c)); try done; simpl; lia.
Qed.

Lemma bytes_at_take m p a b : bytes_at m p a -> bytes_at m p b -> (length a <= length b)%nat -> a = take (length a) b.
Proof.
  intros Ha Hb Hle. apply list_eq. intros i. destruct (decide (i < length a)%nat) as [Hi|Hi].
  - rewrite lookup_take_lt by done. destruct (lookup_lt_is_Some_2 a i Hi) as [x Hx], (lookup_lt_is_Some_2 b i) as [y Hy]; [lia|].
    pose proof (Ha i x Hx). pose proof (Hb i y Hy). congruence.
  - rewrite !lookup_ge_None_2; [done|rewrite length_take; lia|lia].
Qed.

(** The copy that [realloc] makes: the bytes that both blocks have room for. *)
Lemma realloc_copy abs h p old q l n :
  represents (<[q := l]> abs) h -> abs !! p = Some old -> abs !! q = None -> block_ok h p n -> Z.of_nat (length old) <= n ->
  exists new, length new = length l /\ take (length old) new = take (length new) old /\
    let m := Z.min (Z.of_nat (length l)) n in
    exists h', on_pages (on_mem (memcpy q p m)) h = Done (q, h') /\ represents (<[q := new]> abs) h'.
Proof.
  intros H Hp Hq Hn Hle. assert (Hpq : p <> q) by congruence. assert (Hp' : <[q := l]> abs !! p = Some old) by (by rewrite lookup_insert_ne).
  assert (Hq' : <[q := l]> abs !! q = Some l) by apply lookup_insert_eq. pose proof (rp_ok _ _ H) as Hok.
  pose proof (live_block _ _ _ _ H Hq') as Hbq. pose proof (live_block _ _ _ _ H Hp') as Hbp.
  destruct (block_mapped _ h q _ Hok Hbq) as (Hmq & Hq0 & _). destruct (block_mapped _ h p _ Hok Hn) as (Hmp & Hp0 & _).
  assert (Hpos : 0 < Z.of_nat (length l) /\ 0 < Z.of_nat (length old)) by (destruct Hbq, Hbp; lia).
  set (m := Z.min (Z.of_nat (length l)) n). destruct (mapped_bytes (memory_of h) p (Z.to_nat m)) as (c & Hc & Hcb).
  { apply (mapped_sub _ p (Z.to_nat n)); [done|lia|lia]. }
  pose proof (bytes_are_bytes h p c (rp_byte _ _ H) Hcb) as Hby.
  exists (take (length l) c ++ drop (length c) l). split_and!.
  - rewrite length_app, length_take, length_drop. lia.
  - rewrite (take_ge c) by lia. pose proof (rp_bytes _ _ H p old Hp') as Hob. destruct (decide (length old <= length c)%nat) as [Hlc|Hlc].
    + rewrite take_app_le by lia. rewrite <- (bytes_at_take _ p old c Hob Hcb Hlc), take_ge; [done|]. rewrite length_app, length_drop. lia.
    + replace (drop (length c) l) with (@nil Z) by (symmetry; apply drop_ge; lia). rewrite app_nil_r, (take_ge c) by lia.
      apply (bytes_at_take _ p c old Hcb Hob). lia.
  - cbv zeta. exists (with_memory (write q c (memory_of h)) h). split.
    + unfold on_pages, on_mem. change (memory (h_pages h)) with (memory_of h). replace m with (Z.of_nat (length c)) by lia.
      rewrite memcpy_run; try done; [apply (mapped_sub _ q (Z.to_nat (Z.of_nat (length l)))); [done|lia|lia]|].
      pose proof (live_grow _ h p n Hok Hn) as Hg. destruct (Z.lt_trichotomy p q) as [Hlt|[?|Hlt]]; [right|done|left; lia].
      assert (p + n <= q); [|lia]. apply (live_disjoint _ h p q n (Z.of_nat (length l)) Hg); [apply lookup_insert_eq| |done].
      by rewrite lookup_insert_ne, sizes_lookup, Hq' by done.
    + pose proof (represents_write _ h q l c H Hq' Hby) as Hw. rewrite insert_insert_eq in Hw. apply Hw.
      apply (block_ok_less h q _ _ Hbq). lia.
Qed.

Lemma realloc_step abs h p size :
  represents abs h -> allowed abs (Realloc p size) ->
  exists q h' abs', realloc p size h = Done (q, h') /\ spec_step abs (Realloc p size) q abs' /\ represents abs' h'.
Proof.
  intros H [Hp Hsz]. unfold realloc, spec_step. destruct (Z.eqb_spec size 0) as [->|Hne].
  { destruct (represents_free abs h p H Hp) as (h' & E & H'). exists NULL, h', (delete p abs). by rewrite (bind_done _ _ _ _ _ E). }
  destruct (malloc_run _ h size (rp_ok _ _ H)) as (q & h1 & E & Hal); [lia|lia|]. rewrite (bind_done _ _ _ _ _ E).
  destruct (represents_new abs h size q h1 H ltac:(lia) Hal) as [[-> H1]|(l & Hl & Hnew & H1 & _)].
  { exists NULL, h1, abs. rewrite andb_false_r, bind_ret. split_and!; [done|by left|done]. }
  assert (Hq0 : q <> NULL) by (destruct Hnew; unfold NULL; lia). assert (Hqn : abs !! q = None) by apply Hnew.
  rewrite (proj2 (Z.eqb_neq q NULL) Hq0). destruct Hp as [->|[old Hold]].
  { pose proof (null_not_block abs h H) as Hnull. exists q, h1, (<[q := l]> abs). split_and!; [done| |done]. right. exists l.
    split_and!; try done; [by rewrite delete_id|]. rewrite Hnull. simpl. by rewrite take_nil. }
  assert (Hold' : <[q := l]> abs !! p = Some old) by (rewrite lookup_insert_ne by congruence; done).
  destruct (block_size_run _ h1 p _ (rp_ok _ _ H1) (live_block _ _ _ _ H1 Hold')) as (n & En & Hn & Hbn).
  destruct (realloc_copy abs h1 p old q l n H1 Hold Hqn Hbn Hn) as (new & Hlen & Htake & h2 & E2 & H2).
  destruct (represents_free _ h2 p H2) as (h3 & E3 & H3). { right. rewrite lookup_insert_ne by congruence. by rewrite Hold. }
  rewrite (proj2 (Z.eqb_neq p NULL)) by (intros ->; by rewrite (null_not_block abs h H) in Hold). cbn [negb andb].
  exists q, h3, (<[q := new]> (delete p abs)). split_and!.
  - rewrite (bind_done _ _ _ tt h3); [done|]. rewrite (bind_done _ _ _ _ _ En).
    replace (if size <? n then size else n) with (Z.min (Z.of_nat (length l)) n) by (destruct (Z.ltb_spec size n); lia).
    by rewrite (bind_done _ _ _ _ _ E2).
  - right. exists new. rewrite Hlen, Hold. split_and!; [done| |done|simpl; by rewrite Htake, Hlen].
    unfold new_block in *. rewrite Hlen. destruct Hnew as (? & ? & ? & Hl0 & ?). split_and!; try done. intros ->. by destruct l.
  - rewrite delete_insert_ne in H3 by congruence. done.
Qed.

(** ** The simulation *)

Lemma store_step abs h p i v :
  represents abs h -> allowed abs (Store p i v) ->
  exists r h' abs', serve (Store p i v) h = Done (r, h') /\ spec_step abs (Store p i v) r abs' /\ represents abs' h'.
Proof.
  intros H (Hv & Hi & l & Hl & Hlt). assert (Hk : (Z.to_nat i < length l)%nat) by lia. pose proof (rp_bytes _ _ H p l Hl) as Hb.
  destruct (lookup_lt_is_Some_2 l _ Hk) as [x Hx]. pose proof (Hb _ x Hx) as Hm. rewrite Z2Nat.id in Hm by lia.
  set (h' := with_memory (write (p + i) [v] (memory_of h)) h). exists 0, h', (<[p := <[Z.to_nat i := v]> l]> abs). split_and!.
  - unfold serve. rewrite (bind_done _ _ _ tt h'); [done|]. unfold on_pages, on_mem. change (memory (h_pages h)) with (memory_of h).
    rewrite store8_run; [done|by exists x|done].
  - split; [done|]. by exists l.
  - assert (Hmem : forall y, memory_of h' !! y = if decide (y = p + i) then Some v else memory_of h !! y).
    { intros y. unfold memory_of at 1. cbn [h' with_memory h_pages set_memory memory]. cbn [write]. case_decide as E; [subst; by rewrite lookup_insert_eq|by rewrite lookup_insert_ne]. }
    constructor.
    + rewrite sizes_insert, length_insert, insert_id by (by rewrite sizes_lookup, Hl). apply heap_write, H.
    + intros q k [(<- & <-)|(Hne & Hq)]%lookup_insert_Some j y Hy; rewrite Hmem.
      * apply list_lookup_insert_Some in Hy as [(<- & -> & _)|[Hj Hy]]; [rewrite decide_True by lia; done|].
        rewrite decide_False by lia. by apply Hb.
      * rewrite decide_False; [by apply (rp_bytes _ _ H q k)|]. apply lookup_lt_Some in Hy. intros E.
        assert (Hsp : sizes abs !! p = Some (Z.of_nat (length l))) by (by rewrite sizes_lookup, Hl).
        assert (Hsq : sizes abs !! q = Some (Z.of_nat (length k))) by (by rewrite sizes_lookup, Hq).
        destruct (Z.lt_trichotomy p q) as [H1|[?|H1]]; [|done|].
        -- pose proof (live_disjoint _ h p q _ _ (rp_ok _ _ H) Hsp Hsq H1). lia.
        -- pose proof (live_disjoint _ h q p _ _ (rp_ok _ _ H) Hsq Hsp H1). lia.
    + intros y z. rewrite Hmem. case_decide; [by intros [= <-]|]. apply (rp_byte _ _ H).
Qed.

Lemma serve_step abs h r :
  represents abs h -> allowed abs r ->
  exists res h' abs', serve r h = Done (res, h') /\ spec_step abs r res abs' /\ represents abs' h'.
Proof.
  intros H Hr. destruct r as [size|a b|p size|p|p i v|p i].
  - destruct (malloc_run _ h size (rp_ok _ _ H)) as (p & h' & E & Hal); [simpl in Hr; lia..|].
    destruct (represents_new abs h size p h' H ltac:(simpl in Hr; lia) Hal) as [[-> H']|(l & Hl & Hnew & H' & _)].
    + exists NULL, h', abs. split_and!; [done|by left|done].
    + exists p, h', (<[p := l]> abs). split_and!; [done|right; by exists l|done].
  - by apply calloc_step.
  - by apply realloc_step.
  - destruct (represents_free abs h p H Hr) as (h' & E & H'). exists 0, h', (delete p abs). unfold serve. by rewrite (bind_done _ _ _ _ _ E).
  - by apply store_step.
  - destruct Hr as (Hi & l & Hl & Hlt). destruct (lookup_lt_is_Some_2 l (Z.to_nat i)) as [x Hx]; [lia|].
    pose proof (rp_bytes _ _ H p l Hl _ x Hx) as Hm. rewrite Z2Nat.id in Hm by lia. exists x, h, abs. split_and!; [|split; [done|by exists l]|done].
    unfold serve, on_pages, on_mem. change (memory (h_pages h)) with (memory_of h). rewrite (load8_run _ _ _ Hm). unfold memory_of.
    by destruct h as [[]].
Qed.

Lemma client_runs client abs0 n : forall hist abs h,
  (forall hist abs, spec_run client abs0 hist abs -> allowed abs (client hist)) ->
  spec_run client abs0 hist abs -> represents abs h ->
  exists hist' h' abs', run_client client n hist h = Done (hist', h') /\ length hist' = (length hist + n)%nat /\
    spec_run client abs0 hist' abs' /\ represents abs' h'.
Proof.
  induction n as [|n IH]; intros hist abs h Hall Hrun H. { exists hist, h, abs. by split_and!. }
  destruct (serve_step abs h (client hist) H (Hall hist abs Hrun)) as (res & h1 & abs1 & E & Hs & H1).
  destruct (IH (hist ++ [(client hist, res)]) abs1 h1 Hall) as (hist' & h' & abs' & E' & Hl & Hrun' & H'); [by apply (spec_next _ _ hist abs)|done|].
  exists hist', h', abs'. cbn [run_client]. rewrite (bind_done _ _ _ _ _ E). split_and!; try done. rewrite Hl, length_app. simpl. lia.
Qed.

Lemma find_desc_large h size : descs_ok h -> 1024 < size -> find_desc size (descs h) = None.
Proof.
  intros Hd Hsz. destruct (find_desc size (descs h)) as [k|] eqn:E; [|done].
  destruct (find_desc_fits h size k Hd E) as [Hk Hf]. pose proof (small_size k size Hk Hf). lia.
Qed.

(** ** Theorems *)

(** C13: After [palloc_init] and [malloc_init] the allocator behaves as an
    abstract heap towards any client that keeps to its rules, for any number of
    calls of malloc, calloc, realloc and free and of loads and stores in between:
    no call faults, every block handed out lies apart from all blocks in use,
    calloc's is zero, realloc's starts with the bytes of the old one, and a block
    holds what its owner stored until it is given back. *)
Theorem malloc_simulates s ram_pages limit kws uws ds client n
  (Hram : ram ram_pages limit kws uws (memory s))
  (Hbytes : map_Forall (fun _ v => is_byte v) (memory s))
  (Hclient : forall hist abs, spec_run client ∅ hist abs -> allowed abs (client hist)) :
  exists s' h hist h' abs, palloc_init ram_pages limit kws uws s = Done (tt, s') /\
    malloc_init (mk_heap_t s' ds ∅) = Done (tt, h) /\ run_client client n [] h = Done (hist, h') /\
    length hist = n /\ spec_run client ∅ hist abs /\ represents abs h'.
Proof.
  destruct (palloc_init_run s _ _ _ _ Hram) as (s' & E & Hs & Hm & _).
  destruct (malloc_init_run (mk_heap_t s' ds ∅) Hs eq_refl) as (h & E1 & H1 & Hp).
  assert (H : represents ∅ h) by (constructor; [done|done|unfold byte_memory, memory_of; by rewrite Hp; simpl; rewrite Hm]).
  destruct (client_runs client ∅ n [] ∅ h Hclient (spec_start _ _) H) as (hist & h' & abs & E2 & Hl & Hrun & H').
  by exists s', h, hist, h', abs.
Qed.

(** [malloc] returns null only for size zero or when the kernel pool has no
    run of free pages that could hold the block, and then the blocks in use stay
    as they are; any other answer is a new block of the size asked for. *)
Lemma malloc_fails_only_when_full live h size (Hh : heap_ok live h) (Hsize : 0 <= size < 2 ^ 32 - 4107) :
  exists p h', malloc size h = Done (p, h') /\ memory_of h' = memory_of h /\
    (p = NULL /\ heap_ok live h' /\ (size = 0 \/ no_room h size) \/
     p <> NULL /\ live !! p = None /\ heap_ok (<[p := size]> live) h').
Proof. destruct (malloc_run live h size Hh) as (p & h' & E & Hm & Hc); [lia|lia|]. by exists p, h'. Qed.

(** C40: The sizes of malloc.c wrap around.  A request for almost 4 GB gets
    the same block as one for 4084 bytes, and calloc (65537, 65537), whose
    product does not fit in 32 bits, passes the overflow test of calloc and gets
    131073 bytes. *)
Theorem allocation_sizes_wrap live h (Hh : heap_ok live h) :
  (forall size, 2 ^ 32 - 12 < size < 2 ^ 32 -> malloc size h = malloc 4084 h) /\
  calloc 65537 65537 h = calloc 131073 1 h.
Proof.
  split; [|done]. intros size Hsize. unfold malloc. rewrite (proj2 (Z.eqb_neq size 0)) by lia.
  assert (E : forall z, 1024 < z -> find_desc z (descs h) = None) by (intros z; apply find_desc_large, Hh).
  cbn [Z.eqb]. erewrite !bind_done; [|reflexivity|reflexivity]. rewrite !E by lia.
  replace (div_round_up (u32 (size + ARENA_SIZE)) PGSIZE) with 1; [done|].
  unfold ARENA_SIZE, div_round_up. rewrite pgsize_eq. assert (Eu : u32 (size + 12) = size + 12 - 2 ^ 32).
  { unfold u32. symmetry. apply (Z.mod_unique_pos _ _ 1); lia. }
  rewrite Eu, u32_small by lia. apply (Z.div_unique_pos _ _ _ (size + 12 - 2 ^ 32 - 1)); lia.
Qed.

(** ** Witnesses *)

(** Asks for a block, enlarges it, gives it back, and then keeps asking. *)
Definition demo_client (hist : history) : request :=
  match hist with
  | [] => Malloc 100
  | [(_, p)] => Realloc p 200
  | [_; (_, q)] => Free q
  | _ => Calloc 50 40
  end.

Lemma demo_client_allowed hist abs : spec_run demo_client ∅ hist abs -> allowed abs (demo_client hist).
Proof.
  intros Hrun. destruct Hrun as [|hist abs' res abs'' Hrun Hs]; [simpl; lia|]. destruct hist as [|x [|y [|z hist]]].
  - simpl in Hs. split; [|lia]. destruct Hs as [[-> ->]|(l & _ & _ & ->)]; [by left|right]. by rewrite lookup_insert_eq.
  - simpl in Hs. destruct x as [r p]. simpl in Hs. destruct Hs as [[-> _]|(l & _ & _ & -> & _)]; [by left|right]. by rewrite lookup_insert_eq.
  - destruct x, y. simpl. lia.
  - destruct x, y, z. simpl. lia.
Qed.

Lemma malloc_simulates_witness :
  exists s' h hist h' abs, palloc_init 264 (2 ^ 32 - 1) [0] [0] (small_machine small_ram) = Done (tt, s') /\
    malloc_init (mk_heap_t s' [] ∅) = Done (tt, h) /\ run_client demo_client 5 [] h = Done (hist, h') /\
    length hist = 5%nat /\ spec_run demo_client ∅ hist abs /\ represents abs h'.
Proof.
  exact (malloc_simulates (small_machine small_ram) 264 (2 ^ 32 - 1) [0] [0] [] demo_client 5 small_machine_ram (zero_ram_bytes 264) demo_client_allowed).
Defined.

Lemma small_heap : exists h, heap_ok ∅ h.
Proof.
  destruct (palloc_init_run (small_machine small_ram) _ _ _ _ small_machine_ram) as (s & _ & Hs & _).
  destruct (malloc_init_run (mk_heap_t s [] ∅) Hs eq_refl) as (h & _ & H & _). by exists h.
Qed.

Lemma allocation_sizes_wrap_witness : exists h, heap_ok ∅ h /\ malloc (2 ^ 32 - 1) h = malloc 4084 h.
Proof.
  destruct small_heap as [h H]. exists h. split; [exact H|]. apply (allocation_sizes_wrap ∅ h H). lia.
Defined.
