(* ===== verification/Pagedir.v ===== *)
(** * userprog/pagedir.c and paging_init: page directories

    A page directory is a page of 1024 words, each 0 or the address of a page
    table with flags; a page table is a page of 1024 entries.  Both lie in the
    memory of the page allocator and are read and written there as
    little-endian words.

    The processor is its page directory base register and the translations it
    has cached: loading the register empties the cache. *)

From stdpp Require Import options.
From S2P Require Import Prelude Bytes KList Mem Str Vaddr Palloc.
Local Open Scope Z_scope.
Local Open Scope kernel_scope.

(** ** Words in memory *)

Definition load32 (a : Z) : M mem Z :=
  let! b0 := load8 a in
  let! b1 := load8 (a + 1) in
  let! b2 := load8 (a + 2) in
  let! b3 := load8 (a + 3) in
  ret (le_decode [b0; b1; b2; b3]).

(** Stores the bytes [l] one after the other. *)
Fixpoint store_bytes (a : Z) (l : list Z) : M mem unit :=
  match l with
  | [] => ret tt
  | b :: l => store8 a b ;; store_bytes (a + 1) l
  end.

Definition store32 (a w : Z) : M mem unit := store_bytes a (le_encode 4 w).

(** ** The machine *)

(** [tlb] maps virtual page numbers to cached page table entries. *)
Record vm := mk_vm {
  vm_pages : pages;
  init_page_dir : Z;
  init_ram_pages : Z;
  cr3 : Z;
  tlb : gmap Z Z;
}.

Abbreviation MV := (M vm).

Definition set_vm_pages (s : pages) (v : vm) : vm := mk_vm s (init_page_dir v) (init_ram_pages v) (cr3 v) (tlb v).

Definition on_vm {A} (f : MP A) : MV A := fun v =>
  match f (vm_pages v) with
  | Done (a, s) => Done (a, set_vm_pages s v)
  | Fault e => Fault e
  end.

Definition load_word (a : Z) : MV Z := on_vm (on_mem (load32 a)).
Definition store_word (a w : Z) : MV unit := on_vm (on_mem (store32 a w)).

(** [movl %0, %%cr3] *)
Definition load_cr3 (p : Z) : MV unit :=
  modify (fun v => mk_vm (vm_pages v) (init_page_dir v) (init_ram_pages v) p ∅).

(** ** pagedir.c *)

Definition pagedir_activate (pd : Z) : MV unit :=
  let! v := get in
  let pd := if pd =? NULL then init_page_dir v else pd in
  let! p := lift (vtop pd) in
  load_cr3 p.

Definition active_pd : MV Z := let! v := get in lift (ptov (cr3 v)).

Definition invalidate_pagedir (pd : Z) : MV unit :=
  let! a := active_pd in
  if a =? pd then pagedir_activate pd else ret tt.

Definition pagedir_create : MV Z :=
  let! pd := on_vm (palloc_get_page 0) in
  let! v := get in
  (if negb (pd =? NULL) then on_vm (on_mem (memcpy pd (init_page_dir v) PGSIZE)) ;; ret tt else ret tt) ;;
  ret pd.

(** [for (pte = pt; ...)], [n] entries to go. *)
Fixpoint destroy_ptes (n : nat) (pte : Z) : MV unit :=
  match n with
  | O => ret tt
  | S n =>
      let! w := load_word pte in
      (if negb (Z.land w PTE_P =? 0)
       then let! page := lift (pte_get_page w) in on_vm (palloc_free_page page)
       else ret tt) ;;
      destroy_ptes n (pte + 4)
  end.

(** [for (pde = pd; ...)], [n] entries to go. *)
Fixpoint destroy_pdes (n : nat) (pde : Z) : MV unit :=
  match n with
  | O => ret tt
  | S n =>
      let! w := load_word pde in
      (if negb (Z.land w PTE_P =? 0)
       then
         let! pt := lift (pde_get_pt w) in
         destroy_ptes (Z.to_nat (PGSIZE / 4)) pt ;;
         on_vm (palloc_free_page pt)
       else ret tt) ;;
      destroy_pdes n (pde + 4)
  end.

Definition pagedir_destroy (pd : Z) : MV unit :=
  if pd =? NULL then ret tt
  else
    let! v := get in
    assert (negb (pd =? init_page_dir v)) ;;
    destroy_pdes (Z.to_nat (pd_no PHYS_BASE)) pd ;;
    on_vm (palloc_free_page pd).

Definition lookup_page (pd vaddr : Z) (create : bool) : MV Z :=
  assert (negb (pd =? NULL)) ;;
  assert (negb create || is_user_vaddr vaddr) ;;
  let pde := pd + 4 * pd_no vaddr in
  let! w := load_word pde in
  let! ok :=
    (if w =? 0 then
       if create then
         let! pt := on_vm (palloc_get_page PAL_ZERO) in
         if pt =? NULL then ret false
         else let! e := lift (pde_create pt) in store_word pde e ;; ret true
       else ret false
     else ret true) in
  if negb ok then ret NULL
  else
    let! w := load_word pde in
    let! pt := lift (pde_get_pt w) in
    ret (pt + 4 * pt_no vaddr).

Definition pagedir_set_page (pd upage kpage : Z) (writable : bool) : MV bool :=
  assert (pg_ofs upage =? 0) ;;
  assert (pg_ofs kpage =? 0) ;;
  assert (is_user_vaddr upage) ;;
  let! v := get in
  let! p := lift (vtop kpage) in
  assert (Z.shiftr p PTSHIFT <? init_ram_pages v) ;;
  assert (negb (pd =? init_page_dir v)) ;;
  let! pte := lookup_page pd upage true in
  if negb (pte =? NULL) then
    let! w := load_word pte in
    assert (Z.land w PTE_P =? 0) ;;
    let! e := lift (pte_create_user kpage writable) in
    store_word pte e ;;
    ret true
  else ret false.

Definition pagedir_get_page (pd uaddr : Z) : MV Z :=
  assert (is_user_vaddr uaddr) ;;
  let! pte := lookup_page pd uaddr false in
  if pte =? NULL then ret NULL
  else
    let! w := load_word pte in
    if negb (Z.land w PTE_P =? 0) then
      let! page := lift (pte_get_page w) in ret (u32 (page + pg_ofs uaddr))
    else ret NULL.

Definition pagedir_clear_page (pd upage : Z) : MV unit :=
  assert (pg_ofs upage =? 0) ;;
  assert (is_user_vaddr upage) ;;
  let! pte := lookup_page pd upage false in
  if pte =? NULL then ret tt
  else
    let! w := load_word pte in
    if negb (Z.land w PTE_P =? 0) then
      store_word pte (Z.land w (u32 (Z.lnot PTE_P))) ;;
      invalidate_pagedir pd
    else ret tt.

(** [pagedir_is_dirty] and [pagedir_is_accessed] with their flag. *)
Definition pagedir_is_flag (flag pd vpage : Z) : MV bool :=
  let! pte := lookup_page pd vpage false in
  if pte =? NULL then ret false
  else let! w := load_word pte in ret (negb (Z.land w flag =? 0)).

(** [pagedir_set_dirty] and [pagedir_set_accessed] with their flag. *)
Definition pagedir_set_flag (flag pd vpage : Z) (value : bool) : MV unit :=
  let! pte := lookup_page pd vpage false in
  if pte =? NULL then ret tt
  else
    let! w := load_word pte in
    if value then store_word pte (Z.lor w flag)
    else store_word pte (Z.land w (u32 (Z.lnot flag))) ;; invalidate_pagedir pd.

Definition pagedir_is_dirty := pagedir_is_flag PTE_D.
Definition pagedir_set_dirty := pagedir_set_flag PTE_D.
Definition pagedir_is_accessed := pagedir_is_flag PTE_A.
Definition pagedir_set_accessed := pagedir_set_flag PTE_A.

(** ** paging_init of threads/init.c *)

(** [_start] of the linker script. *)
Definition kernel_start : Z := PHYS_BASE + 0x20000.

(** [for (page = 0; page < init_ram_pages; page++)] from [page] on, [n] pages to
    go; [text_end] is [&_end_kernel_text]. *)
Fixpoint paging_loop (n : nat) (text_end pd pt page : Z) : MV unit :=
  match n with
  | O => ret tt
  | S n =>
      let paddr := u32 (page * PGSIZE) in
      let! vaddr := lift (ptov paddr) in
      let pde := pd + 4 * pd_no vaddr in
      let in_kernel_text := (kernel_start <=? vaddr) && (vaddr <? text_end) in
      let! w := load_word pde in
      let! pt :=
        (if w =? 0 then
           let! pt := on_vm (palloc_get_page (Z.lor PAL_ASSERT PAL_ZERO)) in
           let! e := lift (pde_create pt) in
           store_word pde e ;;
           ret pt
         else ret pt) in
      let! e := lift (pte_create_kernel vaddr (negb in_kernel_text)) in
      store_word (pt + 4 * pt_no vaddr) e ;;
      paging_loop n text_end pd pt (page + 1)
  end.

Definition paging_init (text_end : Z) : MV unit :=
  let! pd := on_vm (palloc_get_page (Z.lor PAL_ASSERT PAL_ZERO)) in
  modify (fun v => mk_vm (vm_pages v) pd (init_ram_pages v) (cr3 v) (tlb v)) ;;
  let! v := get in
  paging_loop (Z.to_nat (init_ram_pages v)) text_end pd NULL 0 ;;
  let! v := get in
  let! p := lift (vtop (init_page_dir v)) in
  load_cr3 p.

(** The processor caches the entry of a user page that the active directory maps. *)
Definition tlb_fill (vpage : Z) : MV unit :=
  let! pd := active_pd in
  let! w := load_word (pd + 4 * Z.shiftr vpage PTBITS) in
  if Z.land w PTE_P =? 0 then ret tt
  else
    let! pt := lift (pde_get_pt w) in
    let! e := load_word (pt + 4 * Z.land vpage 1023) in
    if Z.land e PTE_P =? 0 then ret tt
    else modify (fun v => mk_vm (vm_pages v) (init_page_dir v) (init_ram_pages v) (cr3 v) (<[vpage := e]> (tlb v))).
