(* ===== verification/PagedirInv.v ===== *)
(** * What page directories mean

    The words of a page, and the invariant of the page directories of all
    address spaces: every page they use has one role, so no page is shared. *)

From stdpp Require Import options.
From S2P Require Import Prelude Bytes KList Bitmap Mem Str Vaddr Palloc Pagedir.
Local Open Scope Z_scope.
Local Open Scope kernel_scope.

(** ** Words *)

Definition byte_at (m : mem) (a : Z) : Z := default 0 (m !! a).

Definition word (m : mem) (a : Z) : Z := le_decode [byte_at m a; byte_at m (a + 1); byte_at m (a + 2); byte_at m (a + 3)].

Lemma byte_load m a : is_Some (m !! a) -> load8 a m = Done (byte_at m a, m).
Proof. intros [x Hx]. unfold byte_at. rewrite Hx. by apply load8_run. Qed.

Lemma load32_run m a : mapped m a 4 -> load32 a m = Done (word m a, m).
Proof.
  intros H. assert (Hk : forall k, 0 <= k < 4 -> is_Some (m !! (a + k))).
  { intros k Hk. destruct (H (Z.to_nat k)) as [x Hx]; [lia|]. exists x. rewrite <- Hx. f_equal. lia. }
  unfold load32. rewrite (bind_done _ _ _ _ _ (byte_load m a ltac:(rewrite <- (Z.add_0_r a); apply Hk; lia))).
  rewrite (bind_done _ _ _ _ _ (byte_load m (a + 1) (Hk 1 ltac:(lia)))), (bind_done _ _ _ _ _ (byte_load m (a + 2) (Hk 2 ltac:(lia)))).
  by rewrite (bind_done _ _ _ _ _ (byte_load m (a + 3) (Hk 3 ltac:(lia)))).
Qed.

Lemma store_bytes_run l : forall m a, mapped m a (length l) -> Forall is_byte l -> store_bytes a l m = Done (tt, write a l m).
Proof.
  induction l as [|b l IH]; intros m a Hm Hl; [done|]. apply Forall_cons in Hl as [Hb Hl]. cbn [store_bytes write].
  assert (Ha : is_Some (m !! a)) by (destruct (Hm 0%nat) as [x Hx]; [simpl; lia|exists x; rewrite <- Hx; f_equal; lia]).
  rewrite (bind_done _ _ _ _ _ (store8_run m a b Ha Hb)). apply IH; [|done].
  apply mapped_insert, (mapped_sub m a (S (length l))); [done|lia|lia].
Qed.

Lemma store32_run m a w : mapped m a 4 -> store32 a w m = Done (tt, write a (le_encode 4 w) m).
Proof. intros H. apply store_bytes_run; [by rewrite length_le_encode|apply le_encode_bytes]. Qed.

Lemma word_ext m m' a : (forall x, a <= x < a + 4 -> m' !! x = m !! x) -> word m' a = word m a.
Proof. intros H. unfold word, byte_at. by rewrite !H by lia. Qed.

Lemma word_bytes m a b0 b1 b2 b3 : bytes_at m a [b0; b1; b2; b3] -> word m a = le_decode [b0; b1; b2; b3].
Proof.
  intros H. unfold word, byte_at.
  pose proof (H 0%nat _ eq_refl) as E0. change (Z.of_nat 0) with 0 in E0. rewrite Z.add_0_r in E0.
  pose proof (H 1%nat _ eq_refl) as E1. pose proof (H 2%nat _ eq_refl) as E2. pose proof (H 3%nat _ eq_refl) as E3.
  change (Z.of_nat 1) with 1 in E1. change (Z.of_nat 2) with 2 in E2. change (Z.of_nat 3) with 3 in E3.
  by rewrite E0, E1, E2, E3.
Qed.

Lemma word_written m a w : is_u32 w -> word (write a (le_encode 4 w) m) a = w.
Proof.
  intros Hw. pose proof (write_bytes a (le_encode 4 w) m) as H. pose proof (le_decode_encode 4 w) as E.
  destruct (le_encode 4 w) as [|b0 [|b1 [|b2 [|b3 [|]]]]] eqn:El; try by (pose proof (length_le_encode 4 w) as Hl; rewrite El in Hl).
  rewrite (word_bytes _ _ _ _ _ _ H), E. apply Z.mod_small. exact Hw.
Qed.

Lemma word_u32 m a : map_Forall (fun _ v => is_byte v) m -> is_u32 (word m a).
Proof.
  intros H. unfold is_u32. change 32 with (8 * Z.of_nat (length [byte_at m a; byte_at m (a + 1); byte_at m (a + 2); byte_at m (a + 3)])).
  apply le_decode_bound. assert (Hb : forall x, is_byte (byte_at m x)).
  { intros x. unfold byte_at. destruct (m !! x) as [v|] eqn:E; [exact (H x v E)|unfold is_byte; simpl; lia]. }
  repeat (apply Forall_cons; split; [apply Hb|]). constructor.
Qed.

(** Word [k] of the page at [p]. *)
Definition slot (m : mem) (p k : Z) : Z := word m (p + 4 * k).

Lemma pages_differ p q x y : p mod 4096 = 0 -> q mod 4096 = 0 -> p <> q -> 0 <= x < 4096 -> 0 <= y < 4096 -> p + x <> q + y.
Proof. intros Hp Hq Hne Hx Hy E. apply Hne. pose proof (Z.div_mod p 4096). pose proof (Z.div_mod q 4096). lia. Qed.

(** A word store changes one slot. *)
Lemma slot_store m p k w q j :
  p mod 4096 = 0 -> q mod 4096 = 0 -> 0 <= k < 1024 -> 0 <= j < 1024 -> is_u32 w ->
  slot (write (p + 4 * k) (le_encode 4 w) m) q j = if decide (q = p /\ j = k) then w else slot m q j.
Proof.
  intros Hp Hq Hk Hj Hw. unfold slot. case_decide as E; [destruct E as [-> ->]; by apply word_written|].
  apply word_ext. intros x Hx. rewrite lookup_write, length_le_encode, decide_False; [done|]. intros Hx'.
  destruct (decide (q = p)) as [->|Hne]; [assert (j <> k) by tauto; lia|].
  apply (pages_differ p q (x - p) (x - q) Hp Hq); [done|lia|lia|lia].
Qed.

(** A change within a page leaves the slots of all other pages. *)
Lemma slot_other m m' p q j :
  only_within p 4096 m m' -> p mod 4096 = 0 -> q mod 4096 = 0 -> q <> p -> 0 <= j < 1024 -> slot m' q j = slot m q j.
Proof.
  intros H Hp Hq Hne Hj. apply word_ext. intros x Hx. apply H. intros Hx'.
  apply (pages_differ p q (x - p) (x - q) Hp Hq); [done|lia|lia|lia].
Qed.

Lemma slot_zero m p k n : 0 <= k < 1024 -> n = 4096%nat -> slot (write p (replicate n 0) m) p k = 0.
Proof.
  intros Hk ->. unfold slot, word. assert (E : forall x, p <= x < p + 4096 -> byte_at (write p (replicate 4096 0) m) x = 0).
  { intros x Hx. unfold byte_at. rewrite lookup_write, length_replicate, decide_True by lia. by rewrite lookup_replicate_2 by lia. }
  by rewrite !E by lia.
Qed.

Lemma slot_copy m p q l j :
  bytes_at m q l -> length l = 4096%nat -> 0 <= j < 1024 -> slot (write p l m) p j = slot m q j.
Proof.
  intros Hl Hlen Hj. unfold slot, word.
  assert (E : forall x, 0 <= x < 4096 -> byte_at (write p l m) (p + x) = byte_at m (q + x)).
  { intros x Hx. unfold byte_at. rewrite lookup_write, decide_True by lia. replace (p + x - p) with x by lia.
    destruct (lookup_lt_is_Some_2 l (Z.to_nat x)) as [b Hb]; [lia|]. rewrite Hb. pose proof (Hl _ _ Hb) as Hm. rewrite Z2Nat.id in Hm by lia.
    by rewrite Hm. }
  rewrite <- !Z.add_assoc. by rewrite !E by lia.
Qed.

(** ** Address spaces *)

(** [dirs]: for each page directory the entries of its user pages; [held]: the
    frames that the kernel took from the user pool and has not mapped yet;
    [kmap]: the entries of the pages from PHYS_BASE on, the same in all
    directories. *)
Record space := mk_space { dirs : gmap Z (gmap Z Z); held : gset Z; active : option Z; kmap : list Z }.

Definition present (e : Z) : bool := negb (Z.land e PTE_P =? 0).

(** The frame that an entry maps. *)
Definition frame_of (e : Z) : Z := Z.land e PTE_ADDR + PHYS_BASE.

(** What a page is used for; the tables of the kernel never change. *)
Inductive role := KernelDir | KernelTable (i : Z) (c : list Z) | Held | Dir | Table (pd i : Z) | Frame (pd v : Z).

Definition user_pages : Z := 768 * 1024.

(** [w p k] is word [k] of page [p]; [ipd] is the directory of the kernel. *)
Record tables_ok (own : gmap Z role) (ds : gmap Z (gmap Z Z)) (hs : gset Z) (ipd : Z) (w : Z -> Z -> Z) : Prop := {
  to_init : own !! ipd = Some KernelDir;
  to_init_only a : own !! a = Some KernelDir -> a = ipd;
  to_init_user i : 0 <= i < 768 -> w ipd i = 0;
  to_held a : own !! a = Some Held <-> a ∈ hs;
  to_dir pd : own !! pd = Some Dir <-> is_Some (ds !! pd);
  to_kernel pd i : is_Some (ds !! pd) -> 768 <= i < 1024 -> w pd i = w ipd i;
  to_empty pd abs i j : ds !! pd = Some abs -> 0 <= i < 768 -> w pd i = 0 -> 0 <= j < 1024 -> abs !! (1024 * i + j) = None;
  to_entry pd i : is_Some (ds !! pd) -> 0 <= i < 768 -> w pd i <> 0 ->
    exists pt, own !! pt = Some (Table pd i) /\ w pd i = pt - PHYS_BASE + 7;
  to_table pt pd i : own !! pt = Some (Table pd i) ->
    exists abs, ds !! pd = Some abs /\ 0 <= i < 768 /\ PHYS_BASE <= pt /\ w pd i = pt - PHYS_BASE + 7 /\
      forall j, 0 <= j < 1024 -> w pt j = default 0 (abs !! (1024 * i + j));
  to_pte pd abs v e : ds !! pd = Some abs -> abs !! v = Some e ->
    0 <= v < user_pages /\ is_u32 e /\ (present e = true -> own !! frame_of e = Some (Frame pd v));
  to_frame a pd v : own !! a = Some (Frame pd v) ->
    exists abs e, ds !! pd = Some abs /\ abs !! v = Some e /\ present e = true /\ frame_of e = a;
  to_ktab a i c : own !! a = Some (KernelTable i c) -> 768 <= i < 1024 /\ w ipd i = a - PHYS_BASE + 7 /\
    forall j, 0 <= j < 1024 -> c !! Z.to_nat j = Some (w a j);
}.

(** The tables of the kernel hold [km]. *)
Definition kernel_ok (own : gmap Z role) (km : list Z) : Prop :=
  forall p e, km !! Z.to_nat p = Some e -> 0 <= p ->
    exists a c, own !! a = Some (KernelTable (768 + p / 1024) c) /\ c !! Z.to_nat (p mod 1024) = Some e.

Lemma kernel_kept own own' km :
  kernel_ok own km -> (forall a i c, own !! a = Some (KernelTable i c) -> own' !! a = Some (KernelTable i c)) -> kernel_ok own' km.
Proof. intros H Hown p e Hp H0. destruct (H p e Hp H0) as (a & c & Ha & Hc). exists a, c. auto. Qed.

(** Pages without a role do not matter. *)
(** Pages that hold data are no part of the tables. *)
Definition is_data (r : role) : bool := match r with Held | Frame _ _ => true | _ => false end.

Lemma tables_data own ds hs ipd w w' :
  tables_ok own ds hs ipd w -> (forall a r k, own !! a = Some r -> is_data r = false -> 0 <= k < 1024 -> w' a k = w a k) -> tables_ok own ds hs ipd w'.
Proof.
  intros [A1 A2 A3 A4 A5 A6 A7 A8 A9 A10 A11 A12] Hw. assert (Hi : forall k, 0 <= k < 1024 -> w' ipd k = w ipd k) by (intros k; by apply Hw with KernelDir).
  assert (Hd : forall pd k, is_Some (ds !! pd) -> 0 <= k < 1024 -> w' pd k = w pd k) by (intros pd k H; apply Hw with Dir; [by apply A5|done]).
  constructor; try done.
  - intros i H. rewrite Hi by lia. by apply A3.
  - intros pd i H H'. rewrite Hi, Hd by (done || lia). by apply A6.
  - intros pd abs i j H H1 H2. rewrite Hd in H2 by (lia || by exists abs). by apply (A7 pd abs i j).
  - intros pd i H H1. rewrite Hd by (done || lia). by apply A8.
  - intros pt pd i H. destruct (A9 pt pd i H) as (abs & H1 & H2 & H3 & H4 & H5). exists abs. rewrite Hd by (lia || by exists abs).
    split_and!; try done; try lia. intros j Hj. rewrite (Hw pt _ j H) by done. by apply H5.
  - intros a i c H. destruct (A12 a i c H) as (H1 & H2 & H3). rewrite Hi by lia. split_and!; try done; try lia.
    intros j Hj. rewrite (Hw a _ j H) by done. by apply H3.
Qed.

Lemma tables_frame own ds hs ipd w w' :
  tables_ok own ds hs ipd w -> (forall a r k, own !! a = Some r -> 0 <= k < 1024 -> w' a k = w a k) -> tables_ok own ds hs ipd w'.
Proof. intros H Hw. apply (tables_data own ds hs ipd w); [exact H|]. intros a r k Ha _. exact (Hw a r k Ha). Qed.

(** Frames become held or cease to be, nothing else changes. *)
Lemma tables_reheld own own' ds hs hs' ipd w :
  tables_ok own ds hs ipd w -> (forall b r, r <> Held -> own' !! b = Some r <-> own !! b = Some r) ->
  (forall b, own' !! b = Some Held <-> b ∈ hs') -> tables_ok own' ds hs' ipd w.
Proof.
  intros [A1 A2 A3 A4 A5 A6 A7 A8 A9 A10 A11 A12] Hr Hh. constructor; try done.
  - by apply Hr.
  - intros b. rewrite Hr by done. apply A2.
  - intros pd. by rewrite Hr.
  - intros pd i H1 H2 H3. destruct (A8 pd i H1 H2 H3) as (pt & H4 & H5). exists pt. by rewrite Hr.
  - intros pt pd i. rewrite Hr by done. apply A9.
  - intros pd abs v e H1 H2. destruct (A10 pd abs v e H1 H2) as (H3 & H4 & H5). split_and!; try lia; try done. intros H6. apply Hr; [done|by apply H5].
  - intros b pd v. rewrite Hr by done. apply A11.
  - intros b i c. rewrite Hr by done. apply A12.
Qed.

Lemma tables_hold own ds hs ipd w a :
  tables_ok own ds hs ipd w -> own !! a = None -> tables_ok (<[a := Held]> own) ds ({[a]} ∪ hs) ipd w.
Proof.
  intros H Ha. apply (tables_reheld own _ _ hs _ _ _ H).
  - intros b r Hr. rewrite lookup_insert_Some. split; [by intros [[_ <-]|[_ ?]]|]. intros Hb. right. split; [congruence|done].
  - intros b. rewrite lookup_insert_Some, elem_of_union, elem_of_singleton, (to_held _ _ _ _ _ H). split; [intros [[-> _]|[_ ?]]; auto|].
    intros [->|Hb]; [by left|]. destruct (decide (a = b)) as [->|]; [by left|by right].
Qed.

Lemma tables_release own ds hs ipd w a :
  tables_ok own ds hs ipd w -> own !! a = Some Held -> tables_ok (delete a own) ds (hs ∖ {[a]}) ipd w.
Proof.
  intros H Ha. apply (tables_reheld own _ _ hs _ _ _ H).
  - intros b r Hr. rewrite lookup_delete_Some. split; [by intros []|]. intros Hb. split; [congruence|done].
  - intros b. rewrite lookup_delete_Some, elem_of_difference, elem_of_singleton, (to_held _ _ _ _ _ H).
    split; intros [? ?]; (split; [done|congruence]).
Qed.

(** Entry [j] of a page table is set to [e']. *)
Section set_entry.
Context (own own' : gmap Z role) (ds : gmap Z (gmap Z Z)) (hs hs' : gset Z) (ipd : Z) (w w' : Z -> Z -> Z).
Context (pd : Z) (abs : gmap Z Z) (pt i j e' : Z).
Hypothesis H : tables_ok own ds hs ipd w.
Hypothesis Hpt : own !! pt = Some (Table pd i).
Hypothesis Hpd : ds !! pd = Some abs.
Hypothesis Hj : 0 <= j < 1024.
Hypothesis He : is_u32 e'.
Hypothesis Hw : forall a k, is_Some (own !! a) -> 0 <= k < 1024 -> w' a k = if decide (a = pt /\ k = j) then e' else w a k.
Hypothesis Hr : forall a r, r <> Held -> r <> Frame pd (1024 * i + j) -> own' !! a = Some r <-> own !! a = Some r.
Hypothesis Hh : forall a, own' !! a = Some Held <-> a ∈ hs'.
Hypothesis Hf : forall a, own' !! a = Some (Frame pd (1024 * i + j)) <-> present e' = true /\ a = frame_of e'.
Let v := 1024 * i + j.
Let ds' := <[pd := <[v := e']> abs]> ds.

Lemma set_table_facts : 0 <= i < 768 /\ PHYS_BASE <= pt /\ w pd i = pt - PHYS_BASE + 7 /\ forall k, 0 <= k < 1024 -> w pt k = default 0 (abs !! (1024 * i + k)).
Proof using H Hpt Hpd.
  destruct (to_table _ _ _ _ _ H pt pd i Hpt) as (abs0 & Habs & Hi & Hl & Hwi & Hwj). rewrite Hpd in Habs. by injection Habs as <-.
Qed.

Lemma set_some d : is_Some (ds' !! d) <-> is_Some (ds !! d).
Proof using Hpd.
  unfold ds'. destruct (decide (d = pd)) as [->|]; [rewrite lookup_insert_eq, Hpd; split; intros _; by eexists|by rewrite lookup_insert_ne].
Qed.

Lemma set_elsewhere a r k : own !! a = Some r -> r <> Table pd i -> 0 <= k < 1024 -> w' a k = w a k.
Proof using Hw Hpt.
  intros Ha Hne Hk. rewrite Hw by first [exact Hk|exact (ex_intro _ r Ha)]. rewrite decide_False; [reflexivity|]. intros [-> _]. congruence.
Qed.

Lemma set_dir d k : is_Some (ds !! d) -> 0 <= k < 1024 -> w' d k = w d k.
Proof using H Hw Hpt. intros Hd Hk. apply (set_elsewhere d Dir); [by apply (to_dir _ _ _ _ _ H)|discriminate|exact Hk]. Qed.

Lemma set_table q d i' : own' !! q = Some (Table d i') ->
  exists abs', ds' !! d = Some abs' /\ 0 <= i' < 768 /\ PHYS_BASE <= q /\ w' d i' = q - PHYS_BASE + 7 /\
    forall k, 0 <= k < 1024 -> w' q k = default 0 (abs' !! (1024 * i' + k)).
Proof using H Hpt Hpd Hj Hw Hr.
  intros Hq. apply Hr in Hq; [|discriminate..]. destruct (to_table _ _ _ _ _ H q d i' Hq) as (abs' & Hd & Hi' & Hlq & Hwd & Hwq).
  assert (Hw2 : forall k, 0 <= k < 1024 -> w' q k = if decide (q = pt /\ k = j) then e' else w q k) by (intros k Hk; apply Hw; [by eexists|exact Hk]).
  destruct set_table_facts as (Hi & Hlow & Hwi & _). destruct (decide (d = pd)) as [->|Hne].
  - rewrite Hpd in Hd. injection Hd as <-. exists (<[v := e']> abs). unfold ds'. rewrite lookup_insert_eq, set_dir by (lia || by eexists).
    split_and!; try done; try lia. intros k Hk. rewrite Hw2 by done. destruct (decide (q = pt /\ k = j)) as [[-> ->]|Hd].
    + rewrite Hpt in Hq. injection Hq as <-. by rewrite lookup_insert_eq.
    + rewrite lookup_insert_ne; [by apply Hwq|]. unfold v. intros E. apply Hd. assert (i' = i) as -> by lia. split; lia.
  - exists abs'. unfold ds'. rewrite lookup_insert_ne, set_dir by (done || lia || by eexists). split_and!; try done; try lia.
    intros k Hk. rewrite Hw2, decide_False by (done || intros [-> _]; congruence). by apply Hwq.
Qed.

Lemma set_pte d abs' v' e : ds' !! d = Some abs' -> abs' !! v' = Some e ->
  0 <= v' < user_pages /\ is_u32 e /\ (present e = true -> own' !! frame_of e = Some (Frame d v')).
Proof using H Hpt Hpd Hj He Hr Hf.
  intros Hd Hv. destruct set_table_facts as (Hi & _).
  assert (Hold : forall d abs' v' e, ds !! d = Some abs' -> abs' !! v' = Some e -> (d, v') <> (pd, v) ->
    0 <= v' < user_pages /\ is_u32 e /\ (present e = true -> own' !! frame_of e = Some (Frame d v'))).
  { clear Hd Hv. intros d' a' u e0 Hd Hv Hne. destruct (to_pte _ _ _ _ _ H d' a' u e0 Hd Hv) as (H1 & H2 & H3). split_and!; try lia; try done.
    intros Hp. apply Hr; [discriminate|fold v; congruence|by apply H3]. }
  apply lookup_insert_Some in Hd as [[<- <-]|[Hne Hd]]; [|apply (Hold d abs'); [done..|congruence]].
  apply lookup_insert_Some in Hv as [[<- <-]|[Hnv Hv]]; [|apply (Hold pd abs); [done..|congruence]].
  split_and!; [unfold v; lia|unfold user_pages, v; lia|exact He|]. intros Hp. by apply Hf.
Qed.

Lemma tables_set : tables_ok own' ds' hs' ipd w'.
Proof using All.
  destruct set_table_facts as (Hi & Hlow & Hwi & _). pose proof H as [A1 A2 A3 A4 A5 A6 A7 A8 A9 A10 A11 A12].
  assert (Hini : forall k, 0 <= k < 1024 -> w' ipd k = w ipd k) by (intros k; by apply (set_elsewhere ipd KernelDir)).
  constructor; [| | |exact Hh| | | | |exact set_table|exact set_pte| |].
  - by apply Hr.
  - intros a. rewrite Hr by done. apply A2.
  - intros k Hk. rewrite Hini by lia. by apply A3.
  - intros d. by rewrite Hr, set_some.
  - intros d k Hd Hk. apply set_some in Hd. rewrite set_dir, Hini by (done || lia). by apply A6.
  - intros d abs' i' j' Hd Hi' Hz Hj'. rewrite set_dir in Hz by (lia || by apply set_some; exists abs').
    apply lookup_insert_Some in Hd as [[<- <-]|[Hne Hd]]; [|by apply (A7 d abs' i' j')].
    rewrite lookup_insert_ne; [by apply (A7 pd abs i' j')|]. unfold v. intros E. assert (i' = i) as -> by lia. lia.
  - intros d i' Hd Hi' Hz. apply set_some in Hd. rewrite set_dir in Hz |- * by (done || lia). destruct (A8 d i' Hd Hi' Hz) as (q & Hq & Eq).
    exists q. by rewrite Hr.
  - intros a d v' Ha. destruct (decide ((d, v') = (pd, v))) as [Hdv|Hdv].
    + injection Hdv as -> ->. apply Hf in Ha as [Hp ->]. exists (<[v := e']> abs), e'. unfold ds'. by rewrite !lookup_insert_eq.
    + apply Hr in Ha; [|done|fold v; congruence]. destruct (A11 a d v' Ha) as (abs' & e & H1 & H2 & H3 & H4). unfold ds'.
      destruct (decide (d = pd)) as [->|Hne]; [|exists abs', e; by rewrite lookup_insert_ne].
      rewrite Hpd in H1. injection H1 as <-. exists (<[v := e']> abs), e. by rewrite lookup_insert_eq, lookup_insert_ne by congruence.
  - intros a k c Ha. apply Hr in Ha; [|done|done]. destruct (A12 a k c Ha) as (H1 & H2 & H3). rewrite Hini by lia. split_and!; try done; try lia.
    intros l Hl. rewrite (set_elsewhere a _ l Ha) by done. by apply H3.
Qed.
End set_entry.

(** A new, empty page table is put into a directory. *)
Lemma tables_new_table own ds hs ipd w w' pd abs i q :
  tables_ok own ds hs ipd w -> own !! q = None -> PHYS_BASE <= q -> ds !! pd = Some abs -> 0 <= i < 768 -> w pd i = 0 ->
  w' pd i = q - PHYS_BASE + 7 -> (forall k, 0 <= k < 1024 -> w' q k = 0) ->
  (forall a k, is_Some (own !! a) -> 0 <= k < 1024 -> (a, k) <> (pd, i) -> w' a k = w a k) ->
  tables_ok (<[q := Table pd i]> own) ds hs ipd w'.
Proof.
  intros H Hq Hlow Hpd Hi Hz Hwi Hwq Hw. pose proof H as [A1 A2 A3 A4 A5 A6 A7 A8 A9 A10 A11 A12].
  assert (Hr : forall a r, r <> Table pd i -> <[q := Table pd i]> own !! a = Some r <-> own !! a = Some r).
  { intros a r Hr. rewrite lookup_insert_Some. split; [by intros [[_ <-]|[_ ?]]|]. intros Ha. right. split; [congruence|done]. }
  assert (Hdir : forall d, is_Some (ds !! d) -> is_Some (own !! d)) by (intros d Hd; apply A5 in Hd; by eexists).
  assert (Hpi : pd <> ipd) by (intros ->; assert (own !! ipd = Some Dir) by (apply A5; by eexists); congruence).
  assert (Hini : forall k, 0 <= k < 1024 -> w' ipd k = w ipd k) by (intros k Hk; apply Hw; [by eexists|done|congruence]).
  assert (Hnone : forall p, own !! p = Some (Table pd i) -> False).
  { intros p Hp. destruct (A9 p pd i Hp) as (? & _ & _ & Hl & E & _). rewrite Hz in E. lia. }
  constructor; try done.
  - by apply Hr.
  - intros a. rewrite Hr by done. apply A2.
  - intros k Hk. rewrite Hini by lia. by apply A3.
  - intros a. rewrite Hr by done. apply A4.
  - intros d. rewrite Hr by done. apply A5.
  - intros d k Hd Hk. rewrite Hini by lia. rewrite Hw by (auto || lia || (intros [= -> ->]; lia)). by apply A6.
  - intros d abs' i' j Hd Hi' Hz' Hj. destruct (decide ((d, i') = (pd, i))) as [E|E]; [injection E as -> ->; lia|].
    rewrite Hw in Hz' by (auto || lia || by apply Hdir; eexists). by apply (A7 d abs' i' j).
  - intros d i' Hd Hi' Hz'. destruct (decide ((d, i') = (pd, i))) as [E|E].
    + injection E as -> ->. exists q. by rewrite lookup_insert_eq.
    + rewrite Hw in Hz' |- * by (auto || lia). destruct (A8 d i' Hd Hi' Hz') as (p & Hp & Ep). exists p. split; [|done]. apply Hr; congruence.
  - intros p d i'. rewrite lookup_insert_Some. intros [[<- [= <- <-]]|[Hne Hp]].
    + exists abs. split_and!; try done; try lia. intros k Hk. rewrite Hwq by done. by rewrite (A7 pd abs i k).
    + destruct (A9 p d i' Hp) as (abs' & Hd & Hi' & Hlp & Ed & Ep). exists abs'. rewrite Hw.
      * split_and!; try done; try lia. intros k Hk. rewrite Hw; [by apply Ep|by eexists|done|]. intros [= -> ->].
        assert (own !! pd = Some Dir) by (apply A5; by eexists). congruence.
      * apply Hdir. by eexists.
      * lia.
      * intros [= -> ->]. by apply (Hnone p).
  - intros d abs' v e Hd Hv. destruct (A10 d abs' v e Hd Hv) as (H1 & H2 & H3). split_and!; try lia; try done. intros Hp. apply Hr; [done|by apply H3].
  - intros a d v. rewrite Hr by done. apply A11.
  - intros a k c Ha. apply Hr in Ha; [|done]. destruct (A12 a k c Ha) as (H1 & H2 & H3). rewrite Hini by lia. split_and!; try done; try lia.
    intros l Hl. rewrite Hw; [by apply H3|by eexists|done|]. intros [= -> ->]. assert (own !! pd = Some Dir) by (apply A5; by eexists). congruence.
Qed.

(** A new directory starts with the entries of the kernel. *)
Lemma tables_new_dir own ds hs ipd w w' pd :
  tables_ok own ds hs ipd w -> own !! pd = None -> (forall k, 0 <= k < 1024 -> w' pd k = w ipd k) ->
  (forall a k, is_Some (own !! a) -> 0 <= k < 1024 -> w' a k = w a k) ->
  tables_ok (<[pd := Dir]> own) (<[pd := ∅]> ds) hs ipd w'.
Proof.
  intros H Hq Hwp Hw. pose proof H as [A1 A2 A3 A4 A5 A6 A7 A8 A9 A10 A11 A12].
  assert (Hn : ds !! pd = None) by (destruct (ds !! pd) eqn:E; [|done]; assert (own !! pd = Some Dir) by (apply A5; by eexists); congruence).
  assert (Hr : forall a r, r <> Dir -> <[pd := Dir]> own !! a = Some r <-> own !! a = Some r).
  { intros a r Hr. rewrite lookup_insert_Some. split; [by intros [[_ <-]|[_ ?]]|]. intros Ha. right. split; [congruence|done]. }
  assert (Hdir : forall d k, is_Some (ds !! d) -> 0 <= k < 1024 -> w' d k = w d k) by (intros d k Hd Hk; apply A5 in Hd; apply Hw; [by eexists|done]).
  assert (Hini : forall k, 0 <= k < 1024 -> w' ipd k = w ipd k) by (intros k Hk; apply Hw; [by eexists|done]).
  assert (Hd' : forall d, is_Some (<[pd := ∅]> ds !! d) -> d = pd \/ d <> pd /\ is_Some (ds !! d)).
  { intros d [x [[-> _]|[? Hx]]%lookup_insert_Some]; [by left|right]. split; [congruence|by eexists]. }
  constructor.
  - by apply Hr.
  - intros a. rewrite Hr by done. apply A2.
  - intros k Hk. rewrite Hini by lia. by apply A3.
  - intros a. rewrite Hr by done. apply A4.
  - intros d. destruct (decide (d = pd)) as [->|]; [rewrite !lookup_insert_eq; split; intros _; by eexists|by rewrite !lookup_insert_ne].
  - intros d k [->|[_ Hd]]%Hd' Hk; rewrite Hini by lia; [by rewrite Hwp by lia|]. rewrite Hdir by (done || lia). by apply A6.
  - intros d abs' i' j [[<- <-]|[Hne Hd]]%lookup_insert_Some Hi' Hz' Hj; [done|]. rewrite Hdir in Hz' by (lia || by eexists). by apply (A7 d abs' i' j).
  - intros d i' [->|[_ Hd]]%Hd' Hi' Hz'; [by rewrite Hwp, A3 in Hz' by lia|]. rewrite Hdir in Hz' |- * by (done || lia).
    destruct (A8 d i' Hd Hi' Hz') as (p & Hp & Ep). exists p. by rewrite Hr.
  - intros p d i' Hp. apply Hr in Hp; [|done]. destruct (A9 p d i' Hp) as (abs' & Hd & Hi' & Hlp & Ed & Ep). exists abs'.
    rewrite lookup_insert_ne, Hdir by (congruence || lia || by eexists). split_and!; try done; try lia.
    intros k Hk. rewrite Hw by (done || by eexists). by apply Ep.
  - intros d abs' v e [[<- <-]|[Hne Hd]]%lookup_insert_Some Hv; [done|]. destruct (A10 d abs' v e Hd Hv) as (H1 & H2 & H3).
    split_and!; try lia; try done. intros Hp. apply Hr; [done|by apply H3].
  - intros a d v Ha. apply Hr in Ha; [|done]. destruct (A11 a d v Ha) as (abs' & e & H1 & H2). exists abs', e. by rewrite lookup_insert_ne by congruence.
  - intros a k c Ha. apply Hr in Ha; [|done]. destruct (A12 a k c Ha) as (H1 & H2 & H3). rewrite Hini by lia. split_and!; try done; try lia.
    intros l Hl. rewrite Hw by (done || by eexists). by apply H3.
Qed.

(** The pages of one address space. *)
Definition belongs (pd a : Z) (r : role) : Prop :=
  match r with Dir => a = pd | Table d _ | Frame d _ => d = pd | KernelDir | KernelTable _ _ | Held => False end.

Lemma tables_drop own own' ds hs ipd w pd :
  tables_ok own ds hs ipd w -> (forall a r, own' !! a = Some r <-> own !! a = Some r /\ ~ belongs pd a r) ->
  tables_ok own' (delete pd ds) hs ipd w.
Proof.
  intros [A1 A2 A3 A4 A5 A6 A7 A8 A9 A10 A11 A12] Hr.
  assert (Hs : forall d, is_Some (delete pd ds !! d) <-> d <> pd /\ is_Some (ds !! d)).
  { intros d. unfold is_Some. setoid_rewrite lookup_delete_Some. split; [intros (x & ? & ?); split; [congruence|by eexists]|].
    intros (Hne & x & Hx). exists x. split; [congruence|done]. }
  constructor.
  - apply Hr. split; [done|intros []].
  - intros a [Ha _]%Hr. by apply A2.
  - apply A3.
  - intros a. rewrite Hr, A4. split; [by intros []|]. intros Ha. split; [done|intros []].
  - intros d. rewrite Hr, Hs, A5. simpl. split; intros [? ?]; by split.
  - intros d i [_ Hd]%Hs. by apply A6.
  - intros d abs i j [_ Hd]%lookup_delete_Some. by apply (A7 d abs).
  - intros d i [Hne Hd]%Hs Hi Hz. destruct (A8 d i Hd Hi Hz) as (pt & Hp & E). exists pt. split; [|done]. by apply Hr.
  - intros pt d i [Hp Hb]%Hr. simpl in Hb. destruct (A9 pt d i Hp) as (abs & Hd & H2). exists abs. split; [|done]. by rewrite lookup_delete_ne.
  - intros d abs v e [Hne Hd]%lookup_delete_Some Hv. destruct (A10 d abs v e Hd Hv) as (H1 & H2 & H3). split_and!; try lia; try done.
    intros Hp. apply Hr. split; [by apply H3|]. simpl. congruence.
  - intros a d v [Ha Hb]%Hr. simpl in Hb. destruct (A11 a d v Ha) as (abs & e & Hd & H2). exists abs, e. split; [|done]. by rewrite lookup_delete_ne.
  - intros a i c [Ha _]%Hr. by apply A12.
Qed.
