(* ===== verification/PagedirStep.v ===== *)
(** * The operations on page directories

    Each operation of pagedir.c keeps the invariant of PagedirInv.v and has the
    effect on the address spaces that its comment states. *)

From stdpp Require Import options.
From S2P Require Import Prelude Bytes KList Bitmap Mem Str Vaddr Palloc Pagedir PagedirInv.
Local Open Scope Z_scope.
Local Open Scope kernel_scope.
#[local] Opaque write.

(** ** Pages in use *)

Definition used_page (s : pages) (a : Z) : Prop :=
  exists u i, 0 <= i < pool_cnt (get_pool u s) /\ a = page_addr (get_pool u s) i /\ bit (used_map (get_pool u s)) i = true.

Definition same_shape (s s' : pages) : Prop :=
  forall u, base (get_pool u s') = base (get_pool u s) /\ pool_cnt (get_pool u s') = pool_cnt (get_pool u s).

(** All pages of the pools are below the end of memory. *)
Definition in_ram (n : Z) (s : pages) : Prop :=
  n <= 2 ^ 18 /\ forall u, base (get_pool u s) + 4096 * pool_cnt (get_pool u s) <= PHYS_BASE + 4096 * n.

Lemma in_ram_shape n s s' : in_ram n s -> same_shape s s' -> in_ram n s'.
Proof. intros [Hn H] Hs. split; [done|]. intros u. destruct (Hs u) as [-> ->]. apply H. Qed.

Record page_facts (m : mem) (a : Z) : Prop := {
  pf_align : a mod 4096 = 0;
  pf_low : PHYS_BASE <= a;
  pf_high : a + 4096 <= 2 ^ 32;
  pf_mapped : mapped m a 4096;
}.

Lemma used_facts s a : pages_ok s -> used_page s a -> page_facts (memory s) a.
Proof.
  intros Hs (u & i & Hi & -> & _). pose proof (get_pool_ok u s Hs) as P. destruct (page_addr_facts _ _ i P Hi) as (H1 & H2 & H3 & _).
  pose proof (po_low _ _ P). pose proof (po_high _ _ P). unfold page_addr in *. constructor; [done|unfold PHYS_BASE in *; lia|lia|].
  by apply (pool_mapped _ _ i 1 P); try lia.
Qed.

Lemma page_unique s u i v j : pages_ok s -> 0 <= i < pool_cnt (get_pool u s) -> 0 <= j < pool_cnt (get_pool v s) ->
  page_addr (get_pool u s) i = page_addr (get_pool v s) j -> u = v /\ i = j.
Proof.
  intros Hs Hi Hj E. pose proof (pg_apart s Hs). unfold page_addr in *. destruct u, v; simpl in *; (split; [done || lia|lia]) || lia.
Qed.

(** ** Taking and freeing one page *)

Definition pool_full (u : bool) (s : pages) : Prop :=
  forall i, 0 <= i < pool_cnt (get_pool u s) -> bit (used_map (get_pool u s)) i = true.

Lemma flipped_used s s' u i n v a :
  pages_ok s -> flipped u i n v s s' -> used_page s a ->
  (forall j, i <= j < i + n -> v = false -> a <> page_addr (get_pool u s) j) -> used_page s' a.
Proof.
  intros Hs (Ho & Hb & Hc & Hbits) (u' & j & Hj & -> & Hbit) Hne. exists u', j. destruct (decide (u' = u)) as [->|Hu].
  - unfold page_addr. rewrite Hc, Hb, Hbits by done. split_and!; [lia|lia|done|]. destruct ((i <=? j) && (j <? i + n)) eqn:E; [|done].
    destruct v; [done|]. apply andb_true_iff in E as [?%Z.leb_le ?%Z.ltb_lt]. by destruct (Hne j ltac:(lia) eq_refl).
  - replace u' with (negb u) in * by (by destruct u, u'). rewrite Ho. split_and!; [lia|lia|done|done].
Qed.

Lemma flipped_shape s s' u i n v : flipped u i n v s s' -> same_shape s s'.
Proof.
  intros (Ho & Hb & Hc & _) u'. destruct (decide (u' = u)) as [->|Hu]; [done|]. replace u' with (negb u) by (by destruct u, u'). by rewrite Ho.
Qed.

Lemma get_page_run s flags : pages_ok s -> Z.land flags PAL_ASSERT = 0 ->
  let u := negb (Z.land flags PAL_USER =? 0) in
  let zero := negb (Z.land flags PAL_ZERO =? 0) in
  exists r s', palloc_get_page flags s = Done (r, s') /\ pages_ok s' /\ same_shape s s' /\
    (forall a, used_page s a -> used_page s' a) /\
    (r = NULL /\ memory s' = memory s /\ pool_full u s \/
     r <> NULL /\ ~ used_page s r /\ used_page s' r /\ memory s' = if zero then write r (replicate 4096 0) (memory s) else memory s).
Proof.
  intros Hs Hf u zero. destruct (palloc_get_run s flags 1 Hs ltac:(lia)) as [(r & s' & E & Hs' & Hg)|(_ & ? & _)]; [|done].
  exists r, s'. split; [exact E|]. split; [exact Hs'|]. destruct Hg as [-> Hfl Hm Hno|i Hi _ Hin -> Hg Hfl Hm].
  - split_and!; [by apply (flipped_shape _ _ u 0 0 true)|intros a Ha; apply (flipped_used s s' u 0 0 true a Hs Hfl Ha); done|].
    left. split_and!; try done. intros i Hi. destruct (Hno i) as [?|Hn]; [lia|fold u; lia|done|]. fold u in Hn.
    destruct (bit (used_map (get_pool u s)) i) eqn:Eb; [done|]. destruct Hn. intros j Hj. by replace j with i by lia.
  - fold u in Hin, Hg, Hfl |- *. pose proof (get_pool_ok u s Hs) as P. destruct (page_addr_facts _ _ i P) as (H1 & _); [lia|].
    split_and!; [by apply (flipped_shape _ _ u i 1 true)|intros a Ha; apply (flipped_used s s' u i 1 true a Hs Hfl Ha); done|].
    right. split_and!; [unfold NULL; lia| | |exact Hm].
    + intros (v & j & Hj & Ej & Hb). destruct (page_unique s u i v j Hs) as [<- <-]; [lia|done|done|]. rewrite Hg in Hb; [done|lia].
    + destruct Hfl as (_ & Hb & Hc & Hbits). exists u, i. unfold page_addr. rewrite Hb, Hc, Hbits by lia.
      split_and!; [lia|lia|done|]. by rewrite (proj2 (Z.leb_le i i)), (proj2 (Z.ltb_lt i (i + 1))) by lia.
Qed.

Lemma free_page_run s a : pages_ok s -> used_page s a ->
  exists s', palloc_free_page a s = Done (tt, s') /\ pages_ok s' /\ same_shape s s' /\
    (forall b, used_page s' b <-> used_page s b /\ b <> a) /\ memory s' = write a (replicate 4096 0xcc) (memory s).
Proof.
  intros Hs (u & i & Hi & -> & Hb). destruct (palloc_free_run s u i 1 Hs) as (s' & E & Hs' & Hfl & Hm); [lia|lia|lia| |].
  { intros j Hj. by replace j with i by lia. }
  exists s'. split_and!; [exact E|exact Hs'|by apply (flipped_shape _ _ u i 1 false)| |exact Hm]. clear Hm E. intros b. split.
  - intros (u' & j & Hj & -> & Hbit). pose proof (flipped_shape _ _ u i 1 false Hfl u') as [Eb Ec].
    assert (Ea : page_addr (get_pool u' s') j = page_addr (get_pool u' s) j) by (unfold page_addr; by rewrite Eb). rewrite Ec in Hj. rewrite Ea.
    destruct Hfl as (Ho & _ & _ & Hbits). destruct (decide (u' = u)) as [->|Hu].
    + rewrite Hbits in Hbit by done. destruct ((i <=? j) && (j <? i + 1)) eqn:Eij; [done|]. split; [by exists u, j|].
      intros Ep. destruct (page_unique s u j u i Hs Hj Hi Ep) as [_ ->]. by rewrite (proj2 (Z.leb_le i i)), (proj2 (Z.ltb_lt i (i + 1))) in Eij by lia.
    + split; [|intros Ep; by destruct (page_unique s u' j u i Hs Hj Hi Ep)]. exists u', j. replace u' with (negb u) in * by (by destruct u, u').
      by rewrite Ho in Hbit.
  - intros [Hu Hne]. apply (flipped_used s s' u i 1 false b Hs Hfl Hu). intros j Hj _. by replace j with i by lia.
Qed.

(** ** The invariant of the machine *)

Definition vmem (st : vm) : mem := memory (vm_pages st).

Definition bytes_ok (m : mem) : Prop := map_Forall (fun _ v => is_byte v) m.

(** The flags that the processor sets by itself. *)
Definition hw_flags : Z := Z.lor PTE_A PTE_D.

(** [c] was cached when the entry was [e] or had fewer of the flags that the
    processor sets. *)
Definition cached (c e : Z) : Prop := Z.lor c e = e /\ Z.ldiff c hw_flags = Z.ldiff e hw_flags.

Record vm_inv (own : gmap Z role) (sp : space) (st : vm) : Prop := {
  vi_pages : pages_ok (vm_pages st);
  vi_bytes : bytes_ok (vmem st);
  vi_used a r : own !! a = Some r -> used_page (vm_pages st) a;
  vi_ram : in_ram (init_ram_pages st) (vm_pages st);
  vi_tables : tables_ok own (dirs sp) (held sp) (init_page_dir st) (slot (vmem st));
  vi_active : match active sp with
              | None => cr3 st = init_page_dir st - PHYS_BASE
              | Some pd => is_Some (dirs sp !! pd) /\ cr3 st = pd - PHYS_BASE
              end;
  vi_tlb v c : tlb st !! v = Some c ->
    exists pd abs e, active sp = Some pd /\ dirs sp !! pd = Some abs /\ abs !! v = Some e /\ present e = true /\ cached c e;
  vi_kernel : kernel_ok own (kmap sp);
}.

Lemma own_facts own sp st a r : vm_inv own sp st -> own !! a = Some r -> page_facts (vmem st) a.
Proof. intros H Ha. apply used_facts; [apply H|]. by apply (vi_used _ _ _ H a r). Qed.

Lemma dir_facts own sp st pd : vm_inv own sp st -> is_Some (dirs sp !! pd) -> own !! pd = Some Dir /\ page_facts (vmem st) pd.
Proof. intros H Hd. apply (to_dir _ _ _ _ _ (vi_tables _ _ _ H)) in Hd. split; [done|]. by apply (own_facts own sp st pd Dir). Qed.

Lemma word_mapped m a k : page_facts m a -> 0 <= k < 1024 -> mapped m (a + 4 * k) 4.
Proof. intros Ha Hk. apply (mapped_sub m a 4096); [apply Ha|lia|lia]. Qed.

Lemma load_word_run st a k : page_facts (vmem st) a -> 0 <= k < 1024 -> load_word (a + 4 * k) st = Done (slot (vmem st) a k, st).
Proof.
  intros Ha Hk. unfold load_word, on_vm, on_mem. change (memory (vm_pages st)) with (vmem st).
  rewrite (load32_run _ _ (word_mapped _ a k Ha Hk)). unfold slot, vmem. by destruct st as [[]].
Qed.

Definition with_mem (m : mem) (st : vm) : vm := set_vm_pages (set_memory m (vm_pages st)) st.

Lemma store_word_run st a k w : page_facts (vmem st) a -> 0 <= k < 1024 ->
  store_word (a + 4 * k) w st = Done (tt, with_mem (write (a + 4 * k) (le_encode 4 w) (vmem st)) st).
Proof.
  intros Ha Hk. unfold store_word, on_vm, on_mem. change (memory (vm_pages st)) with (vmem st).
  by rewrite (store32_run _ _ w (word_mapped _ a k Ha Hk)).
Qed.

Lemma pages_ok_write s a l : pages_ok s -> pages_ok (set_memory (write a l (memory s)) s).
Proof.
  intros H. apply (pages_ok_update false s); try done; try apply (get_pool_ok false _ H); try apply H. simpl. intros b. apply write_zeroes_dom.
Qed.

Lemma bytes_ok_write m a l : bytes_ok m -> Forall is_byte l -> bytes_ok (write a l m).
Proof. intros Hm Hl b v. rewrite lookup_write. case_decide; [|apply Hm]. intros Hv. by apply (Forall_lookup_1 _ _ _ _ Hl Hv). Qed.

(** Only pages without a role change. *)
Lemma vm_inv_pages own sp st s' :
  vm_inv own sp st -> pages_ok s' -> bytes_ok (memory s') -> same_shape (vm_pages st) s' ->
  (forall a, used_page (vm_pages st) a -> used_page s' a) ->
  (forall a r k, own !! a = Some r -> 0 <= k < 1024 -> slot (memory s') a k = slot (vmem st) a k) ->
  vm_inv own sp (set_vm_pages s' st).
Proof.
  intros [B1 B2 B3 B4 B5 B6 B7 B8] Hs Hb Hsh Hu Hw. constructor; try done.
  - intros a r Ha. apply Hu. by apply (B3 a r).
  - by apply (in_ram_shape _ (vm_pages st)).
  - by apply (tables_frame _ _ _ _ (slot (vmem st))).
Qed.

(** ** Pages of data *)

(** Pages whose contents are not the kernel's: held or mapped frames. *)
Definition data_page (sp : space) (a : Z) : Prop :=
  a ∈ held sp \/ exists pd abs v e, dirs sp !! pd = Some abs /\ abs !! v = Some e /\ present e = true /\ a = frame_of e.

Definition page_kept (a : Z) (st st' : vm) : Prop := forall x, 0 <= x < 4096 -> vmem st' !! (a + x) = vmem st !! (a + x).

Definition data_kept (sp : space) (st st' : vm) : Prop := forall a, data_page sp a -> page_kept a st st'.

Lemma data_owner own sp st a : vm_inv own sp st -> data_page sp a -> own !! a = Some Held \/ exists pd v, own !! a = Some (Frame pd v).
Proof.
  intros H [Ha|(pd & abs & v & e & Hd & Hv & Hp & ->)]; [left; by apply (to_held _ _ _ _ _ (vi_tables _ _ _ H))|right].
  exists pd, v. by apply (to_pte _ _ _ _ _ (vi_tables _ _ _ H) pd abs v e Hd Hv).
Qed.

Lemma data_facts own sp st a : vm_inv own sp st -> data_page sp a -> page_facts (vmem st) a.
Proof. intros H Ha. destruct (data_owner own sp st a H Ha) as [Ho|(pd & v & Ho)]; exact (own_facts own sp st a _ H Ho). Qed.

Lemma data_kept_same sp st st' : vmem st' = vmem st -> data_kept sp st st'.
Proof. intros E a _ x _. by rewrite E. Qed.

Lemma data_kept_trans sp st st1 st2 : data_kept sp st st1 -> data_kept sp st1 st2 -> data_kept sp st st2.
Proof. intros H1 H2 a Ha x Hx. by rewrite (H2 a Ha x Hx), (H1 a Ha x Hx). Qed.

(** A store within a page of another kind. *)
Lemma data_kept_write sp own st st' p o l : vm_inv own sp st -> p mod 4096 = 0 -> 0 <= o -> o + Z.of_nat (length l) <= 4096 ->
  (forall a, data_page sp a -> a <> p) -> vmem st' = write (p + o) l (vmem st) -> data_kept sp st st'.
Proof.
  intros H Hp Ho Hl Hne E a Ha x Hx. rewrite E, lookup_write, decide_False; [reflexivity|]. intros Hin.
  destruct (data_facts own sp st a H Ha) as [Hal _ _ _]. exact (pages_differ a p x (a + x - p) Hal Hp (Hne a Ha) Hx ltac:(lia) ltac:(lia)).
Qed.

(** ** lookup_page *)

Section lookup.
Context (own : gmap Z role) (sp : space) (st : vm) (pd : Z) (abs : gmap Z Z) (v o : Z).
Hypothesis H : vm_inv own sp st.
Hypothesis Hpd : dirs sp !! pd = Some abs.
Hypothesis Hv : 0 <= v < user_pages.
Hypothesis Ho : 0 <= o < 4096.
Let i := v / 1024.
Let j := v mod 1024.

Lemma index_range : 0 <= i < 768 /\ 0 <= j < 1024 /\ v = 1024 * i + j.
Proof using Hv.
  unfold i, j, user_pages in *. pose proof (Z.div_mod v 1024). pose proof (Z.mod_pos_bound v 1024). lia.
Qed.

Lemma user_address : is_user_vaddr (4096 * v + o) = true.
Proof using Hv Ho. unfold is_user_vaddr. apply Z.ltb_lt. unfold PHYS_BASE, user_pages in *. lia. Qed.

Lemma lookup_dir : own !! pd = Some Dir /\ page_facts (vmem st) pd.
Proof using H Hpd. apply (dir_facts own sp st pd H). by eexists. Qed.

Lemma dir_not_null : pd <> NULL.
Proof using H Hpd. destruct lookup_dir as [_ F]. intros ->. exact (pf_low _ _ F eq_refl). Qed.

(** The entry is looked up in the page table of its directory entry. *)
Lemma lookup_found c : slot (vmem st) pd i <> 0 ->
  exists pt, own !! pt = Some (Table pd i) /\ pt + 4 * j <> NULL /\ lookup_page pd (4096 * v + o) c st = Done (pt + 4 * j, st).
Proof using H Hpd Hv Ho.
  intros Hz. destruct index_range as (Hi & Hj & _). destruct lookup_dir as [_ F].
  destruct (to_entry _ _ _ _ _ (vi_tables _ _ _ H) pd i) as (pt & Hpt & E); [by eexists|done|done|].
  pose proof (own_facts own sp st pt _ H Hpt) as [G1 G2 G3 _]. exists pt. split_and!; [done|unfold PHYS_BASE, NULL in *; lia|].
  unfold lookup_page. rewrite assert_true by (rewrite (proj2 (Z.eqb_neq _ _) dir_not_null); done).
  rewrite assert_true by (rewrite user_address; apply orb_true_r). rewrite pd_no_page, pt_no_page by exact Ho. fold i j. cbv zeta.
  rewrite (bind_done _ _ _ _ _ (load_word_run st pd i F ltac:(lia))). rewrite (proj2 (Z.eqb_neq _ _) Hz), bind_ret. cbn [negb].
  rewrite (bind_done _ _ _ _ _ (load_word_run st pd i F ltac:(lia))). rewrite E.
  rewrite (bind_done _ _ _ pt st); [done|]. unfold lift. rewrite pde_get_pt_run; [done|done|lia].
Qed.

Lemma lookup_missing : slot (vmem st) pd i = 0 -> lookup_page pd (4096 * v + o) false st = Done (NULL, st).
Proof using H Hpd Hv Ho.
  intros Hz. destruct index_range as (Hi & Hj & _). destruct lookup_dir as [_ F]. unfold lookup_page.
  rewrite assert_true by (rewrite (proj2 (Z.eqb_neq _ _) dir_not_null); done). rewrite assert_true by done.
  rewrite pd_no_page by exact Ho. fold i. cbv zeta. rewrite (bind_done _ _ _ _ _ (load_word_run st pd i F ltac:(lia))). by rewrite Hz.
Qed.

(** The state with a new page table at [r]. *)
Let e := fun r => r - PHYS_BASE + 7.
Let tabled (s' : pages) (r : Z) : pages := set_memory (write (pd + 4 * i) (le_encode 4 (e r)) (memory s')) s'.

Lemma table_added s' r :
  slot (vmem st) pd i = 0 -> pages_ok s' -> same_shape (vm_pages st) s' -> (forall a, used_page (vm_pages st) a -> used_page s' a) ->
  ~ used_page (vm_pages st) r -> used_page s' r -> memory s' = write r (replicate 4096 0) (vmem st) ->
  vm_inv (<[r := Table pd i]> own) sp (set_vm_pages (tabled s' r) st) /\ own !! r = None /\ slot (memory (tabled s' r)) pd i = e r.
Proof using H Hpd Hv.
  intros Hz Hs' Hsh Hu Hnu Hur Hm. destruct index_range as (Hi & Hj & _). destruct lookup_dir as [Hown F].
  assert (Hr : own !! r = None) by (destruct (own !! r) as [x|] eqn:E; [destruct Hnu; by apply (vi_used _ _ _ H r x)|done]).
  pose proof (used_facts s' r Hs' Hur) as [G1 G2 G3 _]. assert (Hew : is_u32 (e r)) by (unfold e, is_u32, PHYS_BASE in *; lia).
  assert (Hslot : forall a k, a mod 4096 = 0 -> 0 <= k < 1024 -> slot (memory (tabled s' r)) a k =
    if decide (a = pd /\ k = i) then e r else if decide (a = r) then 0 else slot (vmem st) a k).
  { intros a k Ha Hk. unfold tabled. cbn [memory set_memory]. rewrite (slot_store _ pd i (e r) a k (pf_align _ _ F) Ha ltac:(lia) Hk Hew). case_decide as Ed; [reflexivity|].
    rewrite Hm. case_decide as Er; [rewrite Er; exact (slot_zero _ r k _ Hk eq_refl)|]. refine (slot_other _ _ r a k _ G1 Ha Er Hk).
    pose proof (write_only r (replicate 4096 0) (vmem st)) as Hw. by rewrite length_replicate in Hw. }
  assert (Hnew : slot (memory (tabled s' r)) pd i = e r).
  { rewrite (Hslot pd i (pf_align _ _ F) ltac:(lia)). rewrite decide_True; [reflexivity|split; reflexivity]. }
  assert (Hpr : pd <> r) by congruence. split_and!; [|done|exact Hnew].
  pose proof H as [B1 B2 B3 B4 B5 B6 B7 B8]. constructor; [| | | | |exact B6|exact B7|].
  - by apply pages_ok_write.
  - unfold vmem. cbn [vm_pages set_vm_pages tabled set_memory memory]. rewrite Hm. apply bytes_ok_write; [|apply le_encode_bytes].
    apply bytes_ok_write; [exact B2|]. apply Forall_replicate. unfold is_byte. lia.
  - intros a x [[<- _]|[_ Ha]]%lookup_insert_Some; [exact Hur|]. apply Hu. exact (B3 a x Ha).
  - exact (in_ram_shape _ _ _ B4 Hsh).
  - refine (tables_new_table own _ _ _ (slot (vmem st)) _ pd abs i r B5 Hr G2 Hpd Hi Hz Hnew _ _); change (vmem (set_vm_pages (tabled s' r) st)) with (memory (tabled s' r)).
    + intros k Hk. rewrite (Hslot r k G1 Hk), decide_False, decide_True; [reflexivity|reflexivity|]. intros [? _]. congruence.
    + intros a k [x Ha] Hk Hne. rewrite (Hslot a k (pf_align _ _ (own_facts own sp st a x H Ha)) Hk).
      rewrite !decide_False; [reflexivity|congruence|]. intros [-> ->]. exact (Hne eq_refl).
  - apply (kernel_kept own _ _ B8). intros a k c Ha. rewrite lookup_insert_ne; [exact Ha|congruence].
Qed.

Lemma data_tabled s' r : own !! r = None -> r mod 4096 = 0 -> memory s' = write r (replicate 4096 0) (vmem st) -> data_kept sp st (set_vm_pages (tabled s' r) st).
Proof using H Hpd Hv.
  intros Hr Hal Hm a Ha x Hx. destruct index_range as (Hi & _). destruct lookup_dir as [Hown [F _ _ _]].
  destruct (data_facts own sp st a H Ha) as [Haa _ _ _].
  assert (a <> pd /\ a <> r) as [Hpd' Hr'] by (destruct (data_owner own sp st a H Ha) as [?|(? & ? & ?)]; split; congruence).
  change (vmem (set_vm_pages (tabled s' r) st)) with (write (pd + 4 * i) (le_encode 4 (e r)) (memory s')). rewrite Hm, lookup_write, length_le_encode, decide_False.
  - rewrite lookup_write, length_replicate, decide_False; [reflexivity|]. intros Hin. exact (pages_differ a r x (a + x - r) Haa Hal Hr' Hx ltac:(lia) ltac:(lia)).
  - intros Hin. exact (pages_differ a pd x (a + x - pd) Haa F Hpd' Hx ltac:(lia) ltac:(lia)).
Qed.

(** A page table is made when there is none. *)
Lemma lookup_created : slot (vmem st) pd i = 0 ->
  (exists s', lookup_page pd (4096 * v + o) true st = Done (NULL, set_vm_pages s' st) /\ vm_inv own sp (set_vm_pages s' st) /\
     pool_full false (vm_pages st) /\ data_kept sp st (set_vm_pages s' st)) \/
  (exists pt s', own !! pt = None /\ pt + 4 * j <> NULL /\ lookup_page pd (4096 * v + o) true st = Done (pt + 4 * j, set_vm_pages s' st) /\
     vm_inv (<[pt := Table pd i]> own) sp (set_vm_pages s' st) /\ data_kept sp st (set_vm_pages s' st)).
Proof using H Hpd Hv Ho.
  intros Hz. destruct index_range as (Hi & Hj & _). destruct lookup_dir as [Hown F].
  destruct (get_page_run (vm_pages st) PAL_ZERO (vi_pages _ _ _ H) eq_refl) as (r & s' & E & Hs' & Hsh & Hu & Hr). cbv zeta in Hr.
  unfold lookup_page. rewrite assert_true by (rewrite (proj2 (Z.eqb_neq _ _) dir_not_null); done).
  rewrite assert_true by (rewrite user_address; apply orb_true_r). rewrite pd_no_page, pt_no_page by exact Ho. fold i j. cbv zeta.
  rewrite (bind_done _ _ _ _ _ (load_word_run st pd i F ltac:(lia))). rewrite Hz. cbn [Z.eqb].
  assert (E1 : on_vm (palloc_get_page PAL_ZERO) st = Done (r, set_vm_pages s' st)) by (unfold on_vm; by rewrite E).
  destruct Hr as [(-> & Hm & Hfull)|(Hr & Hnu & Hur & Hm)].
  - left. exists s'. split_and!; [|apply (vm_inv_pages own sp st s' H); try done; rewrite Hm; [apply (vi_bytes _ _ _ H)|done]|exact Hfull|by apply data_kept_same].
    by rewrite (bind_done _ _ _ false (set_vm_pages s' st)) by (by rewrite (bind_done _ _ _ _ _ E1)).
  - right. change (Z.land PAL_ZERO PAL_ZERO) with 2 in Hm. cbn [Z.eqb negb] in Hm.
    destruct (table_added s' r Hz Hs' Hsh Hu Hnu Hur Hm) as (Hinv & Hn & Hslot). pose proof (used_facts s' r Hs' Hur) as [G1 G2 G3 _].
    set (st2 := set_vm_pages (tabled s' r) st) in *.
    assert (F1 : page_facts (vmem (set_vm_pages s' st)) pd) by (apply (used_facts s' pd Hs'), Hu; by apply (vi_used _ _ _ H pd Dir)).
    exists r, (tabled s' r). fold st2. split_and!; [done|unfold PHYS_BASE, NULL in *; lia| |done|by apply (data_tabled s' r)].
    rewrite (bind_done _ _ _ true st2).
    2:{ rewrite (bind_done _ _ _ _ _ E1). rewrite (proj2 (Z.eqb_neq r NULL)) by (unfold PHYS_BASE, NULL in *; lia).
        rewrite (bind_done _ _ _ (e r) (set_vm_pages s' st)) by (unfold lift; rewrite (pde_create_run r G1 ltac:(lia)); reflexivity).
        rewrite (bind_done _ _ _ _ _ (store_word_run (set_vm_pages s' st) pd i (e r) F1 ltac:(lia))). reflexivity. }
    cbn [negb]. destruct (dir_facts _ sp st2 pd Hinv ltac:(by eexists)) as [_ F2].
    rewrite (bind_done _ _ _ _ _ (load_word_run st2 pd i F2 ltac:(lia))). unfold vmem at 1. cbn [vm_pages st2 set_vm_pages]. rewrite Hslot.
    rewrite (bind_done _ _ _ r st2); [reflexivity|]. unfold lift, e. rewrite (pde_get_pt_run r G1 ltac:(lia)). reflexivity.
Qed.
End lookup.

(** ** Writing an entry *)

Definition set_tlb (t : gmap Z Z) (st : vm) : vm := mk_vm (vm_pages st) (init_page_dir st) (init_ram_pages st) (cr3 st) t.

(** The state after [e] was stored as entry [j] of the table at [pt]. *)
Definition entry_stored (pt j e : Z) (st : vm) : vm := with_mem (write (pt + 4 * j) (le_encode 4 e) (vmem st)) st.

Lemma entry_updated own own' sp st pd abs v pt e hs t :
  vm_inv own sp st -> dirs sp !! pd = Some abs -> 0 <= v < user_pages -> own !! pt = Some (Table pd (v / 1024)) -> is_u32 e ->
  (forall a r, own' !! a = Some r -> is_Some (own !! a)) ->
  (forall a r, r <> Held -> r <> Frame pd v -> own' !! a = Some r <-> own !! a = Some r) ->
  (forall a, own' !! a = Some Held <-> a ∈ hs) ->
  (forall a, own' !! a = Some (Frame pd v) <-> present e = true /\ a = frame_of e) ->
  let sp' := mk_space (<[pd := <[v := e]> abs]> (dirs sp)) hs (active sp) (kmap sp) in
  (forall u c, t !! u = Some c ->
    exists pd abs e, active sp' = Some pd /\ dirs sp' !! pd = Some abs /\ abs !! u = Some e /\ present e = true /\ cached c e) ->
  vm_inv own' sp' (set_tlb t (entry_stored pt (v mod 1024) e st)).
Proof.
  intros H Hpd Hv Hpt He Hsub Hr Hh Hf sp' Ht. destruct (index_range v Hv) as (Hi & Hj & Ev). pose proof (own_facts own sp st pt _ H Hpt) as F.
  pose proof H as [B1 B2 B3 B4 B5 B6 B7 B8]. constructor; [| | |exact B4| | |exact Ht|].
  - by apply pages_ok_write.
  - apply bytes_ok_write; [exact B2|apply le_encode_bytes].
  - intros a r Ha. destruct (Hsub a r Ha) as [r' Ha']. exact (B3 a r' Ha').
  - cbn [dirs held sp']. rewrite Ev in Hr, Hf |- * at 1.
    apply (tables_set own own' _ (held sp) hs _ (slot (vmem st)) _ pd abs pt (v / 1024) (v mod 1024) e B5 Hpt Hpd Hj He); [|exact Hr|exact Hh|exact Hf].
    intros a k [r Ha] Hk. apply (slot_store _ pt (v mod 1024) e a k (pf_align _ _ F)); [|exact Hj|exact Hk|exact He].
    exact (pf_align _ _ (own_facts own sp st a r H Ha)).
  - cbn [active sp']. destruct (active sp) as [d|]; [|exact B6]. destruct B6 as [Hd Hc]. split; [|exact Hc].
    cbn [dirs sp']. destruct (decide (d = pd)) as [->|]; [rewrite lookup_insert_eq; by eexists|by rewrite lookup_insert_ne].
  - apply (kernel_kept own _ _ B8). intros a k c Ha. by apply Hr.
Qed.

(** ** The processor *)

Definition active_dir (sp : space) (st : vm) : Z := default (init_page_dir st) (active sp).

Lemma active_facts own sp st : vm_inv own sp st ->
  cr3 st = active_dir sp st - PHYS_BASE /\ page_facts (vmem st) (active_dir sp st) /\
  (forall pd, is_Some (dirs sp !! pd) -> active_dir sp st = pd <-> active sp = Some pd).
Proof.
  intros H. pose proof (vi_active _ _ _ H) as Ha. pose proof (to_init _ _ _ _ _ (vi_tables _ _ _ H)) as Hi. unfold active_dir.
  destruct (active sp) as [d|]; simpl.
  - destruct Ha as [Hd Hc]. split_and!; [exact Hc|exact (proj2 (dir_facts own sp st d H Hd))|]. intros pd _. split; congruence.
  - split_and!; [exact Ha|exact (own_facts own sp st _ _ H Hi)|]. intros pd Hd. apply (to_dir _ _ _ _ _ (vi_tables _ _ _ H)) in Hd. split; congruence.
Qed.

Lemma active_run st x : cr3 st = x - PHYS_BASE -> PHYS_BASE <= x < 2 ^ 32 -> active_pd st = Done (x, st).
Proof. intros E Hx. unfold active_pd. erewrite bind_done; [|reflexivity]. unfold lift. by rewrite E, ptov_run. Qed.

Lemma activate_run st pd : pd <> NULL -> PHYS_BASE <= pd < 2 ^ 32 ->
  pagedir_activate pd st = Done (tt, mk_vm (vm_pages st) (init_page_dir st) (init_ram_pages st) (pd - PHYS_BASE) ∅).
Proof.
  intros Hn Hp. unfold pagedir_activate. erewrite bind_done; [|reflexivity]. rewrite (proj2 (Z.eqb_neq _ _) Hn).
  by rewrite (bind_done _ _ _ (pd - PHYS_BASE) st) by (unfold lift; by rewrite vtop_run).
Qed.

Lemma invalidate_run st pd x :
  cr3 st = x - PHYS_BASE -> PHYS_BASE <= x < 2 ^ 32 -> PHYS_BASE <= pd < 2 ^ 32 ->
  invalidate_pagedir pd st = Done (tt, set_tlb (if decide (x = pd) then ∅ else tlb st) st).
Proof.
  intros E Hx Hp. unfold invalidate_pagedir. rewrite (bind_done _ _ _ _ _ (active_run st x E Hx)). destruct (Z.eqb_spec x pd) as [->|Hne].
  - rewrite decide_True by done. rewrite activate_run by (unfold PHYS_BASE, NULL in *; lia). by rewrite <- E.
  - rewrite decide_False by done. by destruct st.
Qed.

(** ** Operations on entries *)

(** The entry of page [v], 0 when there is none. *)
Definition entry (abs : gmap Z Z) (v : Z) : Z := default 0 (abs !! v).

(** What [lookup_page] finds without creating a table. *)
Lemma lookup_entry own sp st pd abs v o :
  vm_inv own sp st -> dirs sp !! pd = Some abs -> 0 <= v < user_pages -> 0 <= o < 4096 ->
  (lookup_page pd (4096 * v + o) false st = Done (NULL, st) /\ abs !! v = None) \/
  exists pt, own !! pt = Some (Table pd (v / 1024)) /\ pt + 4 * (v mod 1024) <> NULL /\
    lookup_page pd (4096 * v + o) false st = Done (pt + 4 * (v mod 1024), st) /\
    load_word (pt + 4 * (v mod 1024)) st = Done (entry abs v, st).
Proof.
  intros H Hpd Hv Ho. destruct (index_range v Hv) as (Hi & Hj & Ev). destruct (decide (slot (vmem st) pd (v / 1024) = 0)) as [Hz|Hz].
  - left. split; [by apply (lookup_missing own sp st pd abs v o)|]. rewrite Ev. by apply (to_empty _ _ _ _ _ (vi_tables _ _ _ H) pd abs).
  - right. destruct (lookup_found own sp st pd abs v o H Hpd Hv Ho false Hz) as (pt & Hpt & Hn & E). exists pt. split_and!; try done.
    pose proof (own_facts own sp st pt _ H Hpt) as F. rewrite (load_word_run st pt _ F Hj).
    destruct (to_table _ _ _ _ _ (vi_tables _ _ _ H) pt pd _ Hpt) as (abs' & Hd & _ & _ & _ & Hw). rewrite Hpd in Hd. injection Hd as <-.
    unfold entry. rewrite Hw by done. by rewrite <- Ev.
Qed.

Lemma get_page_spec own sp st pd abs v o :
  vm_inv own sp st -> dirs sp !! pd = Some abs -> 0 <= v < user_pages -> 0 <= o < 4096 ->
  pagedir_get_page pd (4096 * v + o) st = Done (if present (entry abs v) then frame_of (entry abs v) + o else NULL, st).
Proof.
  intros H Hpd Hv Ho. unfold pagedir_get_page. rewrite assert_true by (by apply user_address).
  destruct (lookup_entry own sp st pd abs v o H Hpd Hv Ho) as [[E Hn]|(pt & Hpt & Hn & E & El)]; rewrite (bind_done _ _ _ _ _ E).
  { unfold entry. by rewrite Hn. }
  rewrite (proj2 (Z.eqb_neq _ _) Hn), (bind_done _ _ _ _ _ El). fold (present (entry abs v)).
  destruct (present (entry abs v)) eqn:Hp; [|done]. unfold entry in *. destruct (abs !! v) as [e|] eqn:Ev; [|done]. simpl in *.
  destruct (to_pte _ _ _ _ _ (vi_tables _ _ _ H) pd abs v e Hpd Ev) as (_ & _ & Hf). specialize (Hf Hp).
  pose proof (own_facts own sp st _ _ H Hf) as [F1 F2 F3 _]. rewrite (bind_done _ _ _ (frame_of e) st).
  - rewrite pg_ofs_mod, (Z.mul_comm 4096 v), (Z.add_comm _ o), Z_mod_plus_full, (Z.mod_small o) by lia. rewrite u32_small; [done|unfold PHYS_BASE in *; lia].
  - unfold lift, pte_get_page. assert (E2 : Z.land e PTE_ADDR = frame_of e - PHYS_BASE) by (unfold frame_of; lia). rewrite E2, ptov_run; [done|lia].
Qed.

Lemma is_flag_spec own sp st flag pd abs v o :
  vm_inv own sp st -> dirs sp !! pd = Some abs -> 0 <= v < user_pages -> 0 <= o < 4096 ->
  pagedir_is_flag flag pd (4096 * v + o) st = Done (negb (Z.land (entry abs v) flag =? 0), st).
Proof.
  intros H Hpd Hv Ho. unfold pagedir_is_flag.
  destruct (lookup_entry own sp st pd abs v o H Hpd Hv Ho) as [[E Hn]|(pt & Hpt & Hn & E & El)]; rewrite (bind_done _ _ _ _ _ E).
  - unfold entry. by rewrite Hn.
  - by rewrite (proj2 (Z.eqb_neq _ _) Hn), (bind_done _ _ _ _ _ El).
Qed.
