(* ===== verification/PagedirOps.v ===== *)
(** * Mapping, unmapping, creating and destroying

    The operations of pagedir.c that change the address spaces. *)

From stdpp Require Import options.
From S2P Require Import Prelude Bytes KList Bitmap Mem Str Vaddr Palloc Pagedir PagedirInv PagedirStep.
Local Open Scope Z_scope.
Local Open Scope kernel_scope.
#[local] Opaque write.

Lemma slot_filled m r v a k : r mod 4096 = 0 -> a mod 4096 = 0 -> a <> r -> 0 <= k < 1024 -> slot (write r (replicate 4096 v) m) a k = slot m a k.
Proof.
  intros Hr Ha Hne Hk. pose proof (write_only r (replicate 4096 v) m) as Hw. rewrite length_replicate in Hw. exact (slot_other _ _ r a k Hw Hr Ha Hne Hk).
Qed.

(** ** Entries *)

Lemma user_entry_facts k w : k mod 4096 = 0 -> PHYS_BASE <= k < 2 ^ 32 ->
  is_u32 (user_entry k w) /\ present (user_entry k w) = true /\ frame_of (user_entry k w) = k.
Proof.
  intros Hk Hr. destruct (frame_align k Hk Hr) as [H1 H2]. unfold user_entry.
  assert (Hf : 0 <= (if w then 7 else 5) < 4096) by (destruct w; lia). destruct (entry_addr _ _ H2 H1 Hf) as [E1 E2].
  split_and!.
  - rewrite E1. unfold is_u32, PHYS_BASE in *. destruct w; lia.
  - unfold present. rewrite entry_flags by done. by destruct w.
  - unfold frame_of. change PTE_ADDR with 0xfffff000. rewrite E2. lia.
Qed.

(** The accessed and dirty flags say nothing about the mapping. *)
Definition hw_flag (f : Z) : Prop := f = PTE_A \/ f = PTE_D.

Lemma set_flag_entry e f : hw_flag f -> is_u32 e ->
  is_u32 (Z.lor e f) /\ present (Z.lor e f) = present e /\ frame_of (Z.lor e f) = frame_of e.
Proof.
  intros Hf He. unfold present, frame_of. rewrite !Z.land_lor_distr_l.
  assert (E : Z.land f PTE_P = 0 /\ Z.land f PTE_ADDR = 0) by (by destruct Hf as [-> | ->]). destruct E as [-> ->]. rewrite !Z.lor_0_r.
  split_and!; try done. apply u32_lor; [done|]. unfold is_u32. destruct Hf as [-> | ->]; unfold PTE_A, PTE_D; lia.
Qed.

Lemma clear_flag_entry e f : hw_flag f -> is_u32 e ->
  let e' := Z.land e (u32 (Z.lnot f)) in is_u32 e' /\ present e' = present e /\ frame_of e' = frame_of e.
Proof.
  intros Hf He e'. unfold e', present, frame_of. rewrite <- !Z.land_assoc.
  assert (E : Z.land (u32 (Z.lnot f)) PTE_P = PTE_P /\ Z.land (u32 (Z.lnot f)) PTE_ADDR = PTE_ADDR) by (by destruct Hf as [-> | ->]).
  destruct E as [-> ->]. split_and!; try done. by apply u32_land.
Qed.

Lemma clear_present_entry e : is_u32 e -> let e' := Z.land e (u32 (Z.lnot PTE_P)) in is_u32 e' /\ present e' = false.
Proof. intros He e'. unfold e', present. rewrite <- Z.land_assoc. change (Z.land (u32 (Z.lnot PTE_P)) PTE_P) with 0. rewrite Z.land_0_r. split; [by apply u32_land|done]. Qed.

(** ** Mapping a page *)

Lemma entry_owner (own own' : gmap Z role) a pd v e r :
  own !! a = Some r -> r <> Frame pd v -> (forall b, own !! b = Some (Frame pd v) -> False) -> own' = <[a := Frame pd v]> own ->
  present e = true -> frame_of e = a -> forall b, own' !! b = Some (Frame pd v) <-> present e = true /\ b = frame_of e.
Proof.
  intros Ha Hr Hno -> Hp <- b. rewrite lookup_insert_Some. split.
  - intros [[<- _]|[_ Hb]]; [done|by destruct (Hno b)].
  - intros [_ ->]. by left.
Qed.

(** No page backs an entry that is not present. *)
Lemma absent_unowned own sp st pd abs v b :
  vm_inv own sp st -> dirs sp !! pd = Some abs -> present (entry abs v) = false -> own !! b = Some (Frame pd v) -> False.
Proof.
  intros H Hpd Hp Hb. destruct (to_frame _ _ _ _ _ (vi_tables _ _ _ H) b pd v Hb) as (abs' & e & Hd & Hv & He & _).
  rewrite Hpd in Hd. injection Hd as <-. unfold entry in Hp. rewrite Hv in Hp. simpl in Hp. congruence.
Qed.

(** What the processor has cached is not affected by an entry that was not present. *)
Lemma tlb_kept own sp st pd abs v e u c :
  vm_inv own sp st -> dirs sp !! pd = Some abs -> present (entry abs v) = false -> tlb st !! u = Some c ->
  let sp' := mk_space (<[pd := <[v := e]> abs]> (dirs sp)) (held sp) (active sp) (kmap sp) in
  exists pd abs e, active sp' = Some pd /\ dirs sp' !! pd = Some abs /\ abs !! u = Some e /\ present e = true /\ cached c e.
Proof.
  intros H Hpd Hp Hc sp'. destruct (vi_tlb _ _ _ H u c Hc) as (d & abs' & e' & Ha & Hd & Hu & Hpe & Hca). exists d.
  cbn [active dirs sp']. destruct (decide (d = pd)) as [->|Hne].
  - rewrite Hpd in Hd. injection Hd as <-. assert (u <> v) by (intros ->; unfold entry in Hp; rewrite Hu in Hp; simpl in Hp; congruence).
    exists (<[v := e]> abs), e'. by rewrite lookup_insert_eq, lookup_insert_ne.
  - exists abs', e'. by rewrite lookup_insert_ne.
Qed.

Definition mapped_space (sp : space) (pd : Z) (abs : gmap Z Z) (v e : Z) (hs : gset Z) : space :=
  mk_space (<[pd := <[v := e]> abs]> (dirs sp)) hs (active sp) (kmap sp).

(** The last steps of [pagedir_set_page], once there is a table. *)
Lemma map_entry own sp st pd abs v pt k w :
  vm_inv own sp st -> dirs sp !! pd = Some abs -> 0 <= v < user_pages -> own !! pt = Some (Table pd (v / 1024)) ->
  k ∈ held sp -> present (entry abs v) = false ->
  vm_inv (<[k := Frame pd v]> own) (mapped_space sp pd abs v (user_entry k w) (held sp ∖ {[k]}))
    (entry_stored pt (v mod 1024) (user_entry k w) st).
Proof.
  intros H Hpd Hv Hpt Hk Hp. pose proof (vi_tables _ _ _ H) as T. apply (to_held _ _ _ _ _ T) in Hk.
  pose proof (own_facts own sp st k _ H Hk) as [F1 F2 F3 _]. destruct (user_entry_facts k w F1 ltac:(lia)) as (He & Hpe & Hfe).
  assert (E : entry_stored pt (v mod 1024) (user_entry k w) st = set_tlb (tlb st) (entry_stored pt (v mod 1024) (user_entry k w) st)) by done.
  rewrite E. apply (entry_updated own _ sp st pd abs v pt); try done.
  - intros a r. rewrite lookup_insert_Some. intros [[<- _]|[_ ?]]; by eexists.
  - intros a r Hr1 Hr2. rewrite lookup_insert_Some. split; [by intros [[_ <-]|[_ ?]]|]. intros Ha. right. split; [congruence|done].
  - intros a. rewrite lookup_insert_Some, elem_of_difference, elem_of_singleton, <- (to_held _ _ _ _ _ T).
    split; [intros [[_ ?]|[? ?]]; [done|by split]|]. intros [? ?]. by right.
  - apply (entry_owner own _ k pd v _ Held); try done. intros b. by apply (absent_unowned own sp st pd abs v b H Hpd).
  - intros u c Hc. by apply (tlb_kept own sp st pd abs v (user_entry k w) u c H).
Qed.

Lemma frame_in_ram own sp st k r : vm_inv own sp st -> own !! k = Some r -> Z.shiftr (k - PHYS_BASE) PTSHIFT < init_ram_pages st.
Proof.
  intros H Hk. destruct (vi_used _ _ _ H k r Hk) as (u & i & Hi & -> & _). destruct (vi_ram _ _ _ H) as [_ Hram]. specialize (Hram u).
  rewrite Z.shiftr_div_pow2 by (unfold PTSHIFT, PGBITS; lia). change (2 ^ PTSHIFT) with 4096. apply Z.div_lt_upper_bound; [lia|].
  unfold page_addr. lia.
Qed.

(** [lookup_page] with CREATE: an entry, or no memory. *)
Lemma lookup_any own sp st pd abs v o :
  vm_inv own sp st -> dirs sp !! pd = Some abs -> 0 <= v < user_pages -> 0 <= o < 4096 ->
  exists r own' st', lookup_page pd (4096 * v + o) true st = Done (r, st') /\ vm_inv own' sp st' /\ data_kept sp st st' /\
    (r = NULL /\ pool_full false (vm_pages st) \/
     exists pt, r = pt + 4 * (v mod 1024) /\ r <> NULL /\ own' !! pt = Some (Table pd (v / 1024)) /\ init_ram_pages st' = init_ram_pages st).
Proof.
  intros H Hpd Hv Ho. destruct (decide (slot (vmem st) pd (v / 1024) = 0)) as [Hz|Hz].
  - destruct (lookup_created own sp st pd abs v o H Hpd Hv Ho Hz) as [(s' & E & Hi & Hfull & Hd)|(pt & s' & Hn & Hnn & E & Hi & Hd)].
    + exists NULL, own, (set_vm_pages s' st). split_and!; [exact E|exact Hi|exact Hd|by left].
    + exists (pt + 4 * (v mod 1024)), (<[pt := Table pd (v / 1024)]> own), (set_vm_pages s' st). split_and!; [exact E|exact Hi|exact Hd|right].
      exists pt. split_and!; [done|exact Hnn|apply lookup_insert_eq|done].
  - destruct (lookup_found own sp st pd abs v o H Hpd Hv Ho true Hz) as (pt & Hpt & Hn & E).
    exists (pt + 4 * (v mod 1024)), own, st. split_and!; [exact E|exact H|by apply data_kept_same|right]. by exists pt.
Qed.

Lemma load_entry own sp st pd abs v pt :
  vm_inv own sp st -> dirs sp !! pd = Some abs -> 0 <= v < user_pages -> own !! pt = Some (Table pd (v / 1024)) ->
  load_word (pt + 4 * (v mod 1024)) st = Done (entry abs v, st).
Proof.
  intros H Hpd Hv Hpt. destruct (index_range v Hv) as (Hi & Hj & Ev). rewrite (load_word_run st pt _ (own_facts own sp st pt _ H Hpt) Hj).
  destruct (to_table _ _ _ _ _ (vi_tables _ _ _ H) pt pd _ Hpt) as (abs' & Hd & _ & _ & _ & Hw). rewrite Hpd in Hd. injection Hd as <-.
  unfold entry. rewrite Hw by done. by rewrite <- Ev.
Qed.

Lemma store_entry own sp st pd v pt e : vm_inv own sp st -> 0 <= v < user_pages -> own !! pt = Some (Table pd (v / 1024)) ->
  store_word (pt + 4 * (v mod 1024)) e st = Done (tt, entry_stored pt (v mod 1024) e st).
Proof. intros H Hv Hpt. destruct (index_range v Hv) as (_ & Hj & _). by apply store_word_run; [apply (own_facts own sp st pt _ H Hpt)|]. Qed.

Lemma data_entry own sp st pd v pt e : vm_inv own sp st -> 0 <= v < user_pages -> own !! pt = Some (Table pd (v / 1024)) ->
  data_kept sp st (entry_stored pt (v mod 1024) e st).
Proof.
  intros H Hv Hpt. destruct (index_range v Hv) as (_ & Hj & _). destruct (own_facts own sp st pt _ H Hpt) as [F _ _ _].
  apply (data_kept_write sp own st _ pt (4 * (v mod 1024)) (le_encode 4 e) H F); [lia|rewrite length_le_encode; lia| |reflexivity].
  intros a Ha ->. destruct (data_owner own sp st pt H Ha) as [?|(? & ? & ?)]; congruence.
Qed.

Lemma set_page_spec own sp st pd abs v k w :
  vm_inv own sp st -> dirs sp !! pd = Some abs -> 0 <= v < user_pages -> k ∈ held sp -> present (entry abs v) = false ->
  exists b own' st', pagedir_set_page pd (4096 * v) k w st = Done (b, st') /\ data_kept sp st st' /\
    (b = false /\ vm_inv own' sp st' /\ pool_full false (vm_pages st) \/
     b = true /\ vm_inv own' (mapped_space sp pd abs v (user_entry k w) (held sp ∖ {[k]})) st').
Proof.
  intros H Hpd Hv Hk Hp. pose proof Hk as Hown. apply (to_held _ _ _ _ _ (vi_tables _ _ _ H)) in Hown.
  pose proof (own_facts own sp st k _ H Hown) as [F1 F2 F3 _]. pose proof (frame_in_ram own sp st k _ H Hown) as Hram.
  destruct (dir_facts own sp st pd H ltac:(by eexists)) as [Hdir _].
  assert (Hne : pd <> init_page_dir st) by (intros ->; rewrite (to_init _ _ _ _ _ (vi_tables _ _ _ H)) in Hdir; done).
  destruct (lookup_any own sp st pd abs v 0 H Hpd Hv ltac:(lia)) as (r & own' & st' & E & H' & Hdk & Hr). rewrite Z.add_0_r in E.
  unfold pagedir_set_page. rewrite assert_true by (rewrite pg_ofs_mod, Z.mul_comm, Z_mod_mult; done).
  rewrite assert_true by (rewrite pg_ofs_mod, F1; done).
  rewrite assert_true by (rewrite <- (Z.add_0_r (4096 * v)); apply user_address; (done || lia)).
  erewrite bind_done; [|reflexivity]. rewrite (bind_done _ _ _ (k - PHYS_BASE) st) by (unfold lift; rewrite vtop_run; [done|lia]).
  rewrite assert_true by (by apply Z.ltb_lt). rewrite assert_true by (rewrite (proj2 (Z.eqb_neq _ _) Hne); done).
  rewrite (bind_done _ _ _ _ _ E). destruct Hr as [[-> Hfull]|(pt & -> & Hn & Hpt & _)].
  { exists false, own', st'. split; [done|]. split; [exact Hdk|]. left. by split_and!. }
  exists true, (<[k := Frame pd v]> own'), (entry_stored pt (v mod 1024) (user_entry k w) st').
  split; [|split; [exact (data_kept_trans _ _ _ _ Hdk (data_entry own' sp st' pd v pt _ H' Hv Hpt))|right; split; [done|by apply map_entry]]]. rewrite (proj2 (Z.eqb_neq _ _) Hn). cbn [negb].
  rewrite (bind_done _ _ _ _ _ (load_entry own' sp st' pd abs v pt H' Hpd Hv Hpt)).
  rewrite assert_true by (unfold present in Hp; by apply negb_false_iff in Hp).
  rewrite (bind_done _ _ _ (user_entry k w) st') by (unfold lift; rewrite (pte_create_user_run k F1 ltac:(lia)); done).
  by rewrite (bind_done _ _ _ _ _ (store_entry own' sp st' pd v pt _ H' Hv Hpt)).
Qed.

(** ** Changing an entry and telling the processor *)

Lemma update_invalidated own own' sp st pd abs v pt e hs :
  vm_inv own sp st -> dirs sp !! pd = Some abs -> 0 <= v < user_pages -> own !! pt = Some (Table pd (v / 1024)) -> is_u32 e ->
  (forall a r, own' !! a = Some r -> is_Some (own !! a)) ->
  (forall a r, r <> Held -> r <> Frame pd v -> own' !! a = Some r <-> own !! a = Some r) ->
  (forall a, own' !! a = Some Held <-> a ∈ hs) ->
  (forall a, own' !! a = Some (Frame pd v) <-> present e = true /\ a = frame_of e) ->
  exists st', (store_word (pt + 4 * (v mod 1024)) e ;; invalidate_pagedir pd) st = Done (tt, st') /\
    vm_inv own' (mapped_space sp pd abs v e hs) st'.
Proof.
  intros H Hpd Hv Hpt He Hsub Hr Hh Hf. destruct (active_facts own sp st H) as (Hc & [G1 G2 G3 _] & Ha).
  destruct (dir_facts own sp st pd H ltac:(by eexists)) as [_ [F1 F2 F3 _]].
  rewrite (bind_done _ _ _ _ _ (store_entry own sp st pd v pt e H Hv Hpt)).
  rewrite (invalidate_run (entry_stored pt (v mod 1024) e st) pd (active_dir sp st) Hc ltac:(lia) ltac:(lia)). eexists. split; [done|].
  apply (entry_updated own own' sp st pd abs v pt e hs); try done. intros u c Hu. case_decide as E; [by rewrite lookup_empty in Hu|].
  destruct (vi_tlb _ _ _ H u c Hu) as (d & abs' & e' & Hd & Hda & Hr'). exists d, abs', e'. cbn [active dirs]. split; [done|]. split; [|done].
  rewrite lookup_insert_ne; [done|]. intros <-. apply E, Ha; [by eexists|done].
Qed.

(** The space after page [v] was unmapped. *)
Definition cleared_space (sp : space) (pd : Z) (abs : gmap Z Z) (v : Z) : space :=
  if present (entry abs v)
  then mapped_space sp pd abs v (Z.land (entry abs v) (u32 (Z.lnot PTE_P))) ({[frame_of (entry abs v)]} ∪ held sp)
  else sp.

Lemma present_entry own sp st pd abs v : vm_inv own sp st -> dirs sp !! pd = Some abs -> present (entry abs v) = true ->
  abs !! v = Some (entry abs v) /\ is_u32 (entry abs v) /\ own !! frame_of (entry abs v) = Some (Frame pd v).
Proof.
  intros H Hpd Hp. unfold entry in *. destruct (abs !! v) as [e|] eqn:E; [|done]. simpl in *.
  destruct (to_pte _ _ _ _ _ (vi_tables _ _ _ H) pd abs v e Hpd E) as (_ & He & Hf). auto.
Qed.

Lemma clear_page_spec own sp st pd abs v :
  vm_inv own sp st -> dirs sp !! pd = Some abs -> 0 <= v < user_pages ->
  exists own' st', pagedir_clear_page pd (4096 * v) st = Done (tt, st') /\ vm_inv own' (cleared_space sp pd abs v) st'.
Proof.
  intros H Hpd Hv. unfold pagedir_clear_page, cleared_space. rewrite assert_true by (rewrite pg_ofs_mod, Z.mul_comm, Z_mod_mult; done).
  rewrite assert_true by (rewrite <- (Z.add_0_r (4096 * v)); apply user_address; (done || lia)).
  destruct (lookup_entry own sp st pd abs v 0 H Hpd Hv ltac:(lia)) as [[E Hn]|(pt & Hpt & Hn & E & El)];
    rewrite Z.add_0_r in E; rewrite (bind_done _ _ _ _ _ E).
  { exists own, st. unfold entry. by rewrite Hn. }
  rewrite (proj2 (Z.eqb_neq _ _) Hn), (bind_done _ _ _ _ _ El). fold (present (entry abs v)).
  destruct (present (entry abs v)) eqn:Hp; [|by exists own, st]. destruct (present_entry own sp st pd abs v H Hpd Hp) as (Hab & He & Hf).
  destruct (clear_present_entry _ He) as [He' Hp']. set (e' := Z.land (entry abs v) (u32 (Z.lnot PTE_P))) in *. set (a := frame_of (entry abs v)) in *.
  pose proof (vi_tables _ _ _ H) as T. exists (<[a := Held]> own).
  apply (update_invalidated own _ sp st pd abs v pt e' _ H Hpd Hv Hpt He').
  - intros b r. rewrite lookup_insert_Some. intros [[<- _]|[_ ?]]; by eexists.
  - intros b r Hr1 Hr2. rewrite lookup_insert_Some. split; [by intros [[_ <-]|[_ ?]]|]. intros Hb. right. split; [congruence|done].
  - intros b. rewrite lookup_insert_Some, elem_of_union, elem_of_singleton, <- (to_held _ _ _ _ _ T).
    split; [intros [[<- _]|[_ ?]]; auto|]. intros [->|Hb]; [by left|]. destruct (decide (a = b)) as [->|]; [by left|by right].
  - intros b. rewrite lookup_insert_Some, Hp'. split; [|by intros []]. intros [[_ ?]|[Hne Hb]]; [done|].
    destruct (to_frame _ _ _ _ _ T b pd v Hb) as (abs' & e & Hd & Hv' & _ & Eb). rewrite Hpd in Hd. injection Hd as <-.
    unfold a in Hne. rewrite Hab in Hv'. injection Hv' as <-. done.
Qed.

(** Setting or clearing a flag that the processor maintains. *)
Definition flagged (e flag : Z) (value : bool) : Z := if value then Z.lor e flag else Z.land e (u32 (Z.lnot flag)).

Lemma flagged_facts e f value : hw_flag f -> is_u32 e ->
  is_u32 (flagged e f value) /\ present (flagged e f value) = present e /\ frame_of (flagged e f value) = frame_of e.
Proof. intros Hf He. destruct value; [by apply set_flag_entry|by apply clear_flag_entry]. Qed.

Lemma cached_flag c e f : hw_flag f -> cached c e -> cached c (Z.lor e f).
Proof.
  intros Hf [H1 H2]. split; [by rewrite Z.lor_assoc, H1|]. rewrite H2. apply Z.bits_inj'. intros j Hj. rewrite !Z.ldiff_spec, Z.lor_spec.
  assert (Hhf : Z.testbit f j = true -> Z.testbit hw_flags j = true) by (unfold hw_flags; rewrite Z.lor_spec; destruct Hf as [-> | ->]; intros ->; [done|apply orb_true_r]).
  destruct (Z.testbit f j); [rewrite Hhf by done; by rewrite !andb_false_r|by rewrite orb_false_r].
Qed.

Lemma set_flag_spec own sp st flag pd abs v o e value :
  vm_inv own sp st -> dirs sp !! pd = Some abs -> 0 <= v < user_pages -> 0 <= o < 4096 -> abs !! v = Some e -> hw_flag flag ->
  exists st', pagedir_set_flag flag pd (4096 * v + o) value st = Done (tt, st') /\
    vm_inv own (mapped_space sp pd abs v (flagged e flag value) (held sp)) st'.
Proof.
  intros H Hpd Hv Ho He Hflag. pose proof (vi_tables _ _ _ H) as T. destruct (to_pte _ _ _ _ _ T pd abs v e Hpd He) as (_ & Hu & Hf).
  destruct (flagged_facts e flag value Hflag Hu) as (Hu' & Hp' & Hf'). unfold pagedir_set_flag.
  assert (Hframe : forall a, own !! a = Some (Frame pd v) <-> present (flagged e flag value) = true /\ a = frame_of (flagged e flag value)).
  { intros a. rewrite Hp', Hf'. split; [|intros [? ->]; auto]. intros Ha. destruct (to_frame _ _ _ _ _ T a pd v Ha) as (abs' & e2 & Hd & Hv2 & ? & ?).
    rewrite Hpd in Hd. injection Hd as <-. rewrite He in Hv2. by injection Hv2 as <-. }
  destruct (lookup_entry own sp st pd abs v o H Hpd Hv Ho) as [[E Hn]|(pt & Hpt & Hn & E & El)]; [congruence|].
  rewrite (bind_done _ _ _ _ _ E), (proj2 (Z.eqb_neq _ _) Hn), (bind_done _ _ _ _ _ El). unfold entry. rewrite He. cbn [default]. destruct value.
  - rewrite (store_entry own sp st pd v pt _ H Hv Hpt). eexists. split; [done|].
    change (entry_stored pt (v mod 1024) (Z.lor e flag) st) with (set_tlb (tlb st) (entry_stored pt (v mod 1024) (Z.lor e flag) st)).
    apply (entry_updated own own sp st pd abs v pt); try done; [apply T|]. intros u c Hc.
    destruct (vi_tlb _ _ _ H u c Hc) as (d & abs' & e2 & Ha & Hd & Hu2 & Hpe & Hca). exists d. cbn [active dirs].
    destruct (decide (d = pd)) as [->|Hne]; [|exists abs', e2; by rewrite lookup_insert_ne].
    rewrite Hpd in Hd. injection Hd as <-. rewrite lookup_insert_eq. destruct (decide (u = v)) as [->|Hne].
    + rewrite He in Hu2. injection Hu2 as <-. exists (<[v := Z.lor e flag]> abs), (Z.lor e flag). rewrite lookup_insert_eq.
      split_and!; try done; [by rewrite (proj1 (proj2 (set_flag_entry e flag Hflag Hu)))|by apply cached_flag].
    + exists (<[v := Z.lor e flag]> abs), e2. by rewrite lookup_insert_ne.
  - apply (update_invalidated own own sp st pd abs v pt); try done; apply T.
Qed.

(** ** Frames and directories *)

Lemma frame_taken own sp st flags : vm_inv own sp st -> Z.land flags PAL_ASSERT = 0 ->
  exists r st', on_vm (palloc_get_page flags) st = Done (r, st') /\
    (r = NULL /\ vm_inv own sp st' /\ pool_full (negb (Z.land flags PAL_USER =? 0)) (vm_pages st) \/
     r <> NULL /\ own !! r = None /\ vm_inv (<[r := Held]> own) (mk_space (dirs sp) ({[r]} ∪ held sp) (active sp) (kmap sp)) st') /\
    data_kept sp st st' /\ (r <> NULL -> Z.land flags PAL_ZERO <> 0 -> forall x, 0 <= x < 4096 -> vmem st' !! (r + x) = Some 0).
Proof.
  intros H Hflags. destruct (get_page_run (vm_pages st) flags (vi_pages _ _ _ H) Hflags) as (r & s' & E & Hs' & Hsh & Hu & Hr). cbv zeta in Hr.
  exists r, (set_vm_pages s' st). split; [unfold on_vm; by rewrite E|]. split.
  2: { assert (Hmem : vmem (set_vm_pages s' st) = memory s') by reflexivity. destruct Hr as [(-> & Hm & _)|(Hr & Hnu & Hur & Hm)].
    - split; [|done]. apply data_kept_same. by rewrite Hmem.
    - assert (Hn : own !! r = None) by (destruct (own !! r) as [x|] eqn:Ex; [destruct Hnu; by apply (vi_used _ _ _ H r x)|done]).
      pose proof (used_facts s' r Hs' Hur) as [F1 _ _ _]. split.
      + destruct (negb _); [|apply data_kept_same; by rewrite Hmem].
        apply (data_kept_write sp own st _ r 0 (replicate 4096 0) H F1); [lia|by rewrite length_replicate| |by rewrite Hmem, Z.add_0_r].
        intros a Ha ->. destruct (data_owner own sp st r H Ha) as [?|(? & ? & ?)]; congruence.
      + intros _ Hz x Hx. rewrite Hmem, Hm, (proj2 (Z.eqb_neq _ _) Hz). cbn [negb]. rewrite lookup_write, length_replicate, decide_True by lia.
        apply lookup_replicate_2. lia. }
  destruct Hr as [(-> & Hm & Hfull)|(Hr & Hnu & Hur & Hm)].
  - left. split_and!; try done. apply (vm_inv_pages own sp st s' H Hs'); rewrite ?Hm; try done. apply H.
  - right. assert (Hn : own !! r = None) by (destruct (own !! r) as [x|] eqn:Ex; [destruct Hnu; by apply (vi_used _ _ _ H r x)|done]).
    pose proof (used_facts s' r Hs' Hur) as [F1 F2 F3 _]. split_and!; [done|done|].
    assert (Hinv : vm_inv own sp (set_vm_pages s' st)).
    { apply (vm_inv_pages own sp st s' H Hs'); [|done|done|].
      - rewrite Hm. destruct (negb _); [|apply H]. apply bytes_ok_write; [apply H|]. apply Forall_replicate. unfold is_byte. lia.
      - intros a x k Ha Hk. rewrite Hm. destruct (negb _); [|done]. assert (a <> r) by congruence.
        apply slot_filled; [exact F1|exact (pf_align _ _ (own_facts own sp st a x H Ha))|assumption|exact Hk]. }
    destruct Hinv as [B1 B2 B3 B4 B5 B6 B7 B8]. constructor; try done; [|by apply tables_hold|].
    + intros a x. rewrite lookup_insert_Some. intros [[<- _]|[_ Ha]]; [exact Hur|by apply (B3 a x)].
    + apply (kernel_kept own _ _ B8). intros a k c Ha. rewrite lookup_insert_ne; [done|congruence].
Qed.

(** A page copied from the directory of the kernel. *)
Lemma kernel_copied own sp st pd :
  vm_inv own sp st -> pd ∈ held sp ->
  exists st', on_vm (on_mem (memcpy pd (init_page_dir st) PGSIZE)) st = Done (pd, st') /\
    only_within pd 4096 (vmem st) (vmem st') /\
    vm_inv (<[pd := Dir]> (delete pd own)) (mk_space (<[pd := ∅]> (dirs sp)) (held sp ∖ {[pd]}) (active sp) (kmap sp)) st'.
Proof.
  intros H Hpd. pose proof (vi_tables _ _ _ H) as T. apply (to_held _ _ _ _ _ T) in Hpd. pose proof (own_facts own sp st pd _ H Hpd) as F.
  pose proof (to_init _ _ _ _ _ T) as Hi. pose proof (own_facts own sp st _ _ H Hi) as G. assert (Hne : init_page_dir st <> pd) by congruence.
  destruct (mapped_bytes _ _ _ (pf_mapped _ _ G)) as (l & Hl & Hb).
  assert (Hby : Forall is_byte l) by (apply Forall_lookup_2; intros i x Hx; exact (vi_bytes _ _ _ H _ x (Hb i x Hx))).
  set (m' := write pd l (vmem st)). exists (with_mem m' st). split.
  { unfold on_vm, on_mem. change (memory (vm_pages st)) with (vmem st). change PGSIZE with (Z.of_nat 4096). rewrite <- Hl.
    rewrite (memcpy_run (vmem st) pd (init_page_dir st) l Hb Hby); [done|rewrite Hl; apply F|destruct F; unfold PHYS_BASE, NULL in *; lia|destruct G; unfold PHYS_BASE, NULL in *; lia|].
    destruct (Z.lt_trichotomy pd (init_page_dir st)) as [?|[?|?]]; [left; lia|congruence|right]. destruct F as [F1 _ _ _], G as [G1 _ _ _].
    pose proof (Z.div_mod pd 4096). pose proof (Z.div_mod (init_page_dir st) 4096). lia. }
  assert (Hoth : forall a r k, delete pd own !! a = Some r -> 0 <= k < 1024 -> slot m' a k = slot (vmem st) a k).
  { intros a r k [Hna Ha]%lookup_delete_Some Hk. apply (slot_other _ _ pd); [|apply F|apply (own_facts own sp st a r H Ha)|done|done].
    pose proof (write_only pd l (vmem st)) as Hw. by rewrite Hl in Hw. }
  split; [pose proof (write_only pd l (vmem st)) as Hw; by rewrite Hl in Hw|].
  destruct H as [B1 B2 B3 B4 B5 B6 B7 B8]. constructor; [by apply pages_ok_write|by apply bytes_ok_write| |exact B4| | | |].
  - intros a r. rewrite lookup_insert_Some, lookup_delete_Some. intros [[<- _]|[_ [_ Ha]]]; [by apply (B3 pd Held)|by apply (B3 a r)].
  - cbn [dirs held]. apply (tables_new_dir _ _ _ _ (slot (vmem st))); [by apply tables_release|by apply lookup_delete_eq| |].
    + intros k Hk. by apply slot_copy.
    + intros a k [r Ha] Hk. by apply (Hoth a r).
  - cbn [active dirs]. destruct (active sp) as [d|]; [|exact B6]. destruct B6 as [Hd Hc]. split; [|exact Hc].
    destruct (decide (d = pd)) as [->|]; [rewrite lookup_insert_eq; by eexists|by rewrite lookup_insert_ne].
  - intros u c Hc. destruct (B7 u c Hc) as (d & abs & e & Ha & Hd & Hr). exists d, abs, e. cbn [active dirs]. split; [done|]. split; [|done].
    rewrite lookup_insert_ne; [done|]. intros <-. assert (own !! pd = Some Dir) by (apply (to_dir _ _ _ _ _ B5); by eexists). congruence.
  - apply (kernel_kept own _ _ B8). intros a k c Ha. rewrite lookup_insert_ne, lookup_delete_ne; [done|congruence|congruence].
Qed.

Lemma create_spec own sp st : vm_inv own sp st ->
  exists r own' st', pagedir_create st = Done (r, st') /\ data_kept sp st st' /\
    (r = NULL /\ vm_inv own' sp st' /\ pool_full false (vm_pages st) \/
     r <> NULL /\ dirs sp !! r = None /\ r ∉ held sp /\ vm_inv own' (mk_space (<[r := ∅]> (dirs sp)) (held sp) (active sp) (kmap sp)) st').
Proof.
  intros H. destruct (frame_taken own sp st 0 H eq_refl) as (r & st1 & E & Hr & Hk1 & _). unfold pagedir_create. rewrite (bind_done _ _ _ _ _ E).
  erewrite bind_done; [|reflexivity]. destruct Hr as [(-> & H1 & Hfull)|(Hr & Hn & H1)].
  { exists NULL, own, st1. split; [done|]. split; [exact Hk1|]. by left. }
  rewrite (proj2 (Z.eqb_neq _ _) Hr). cbn [negb]. assert (Hh : r ∉ held sp) by (rewrite <- (to_held _ _ _ _ _ (vi_tables _ _ _ H)), Hn; done).
  assert (Hin : r ∈ held (mk_space (dirs sp) ({[r]} ∪ held sp) (active sp) (kmap sp))) by (cbn [held]; set_solver).
  destruct (kernel_copied _ _ st1 r H1 Hin) as (st2 & E2 & Hw & H2). cbn [dirs held active] in H2.
  rewrite (bind_done _ _ _ tt st2) by (by rewrite (bind_done _ _ _ _ _ E2)). exists r, (<[r := Dir]> (delete r (<[r := Held]> own))), st2.
  split; [done|]. split; [|right; split_and!; [done| |done|]].
  - apply (data_kept_trans _ _ _ _ Hk1). intros a Ha x Hx. apply Hw. intros Hb.
    destruct (data_facts _ _ _ r H1 (or_introl Hin)) as [F _ _ _]. destruct (data_facts own sp st a H Ha) as [G _ _ _].
    assert (Hne : a <> r) by (intros ->; destruct (data_owner own sp st r H Ha) as [?|(? & ? & ?)]; congruence).
    exact (pages_differ a r x (a + x - r) G F Hne Hx ltac:(lia) ltac:(lia)).
  - destruct (dirs sp !! r) eqn:Ed; [|done]. assert (own !! r = Some Dir) by (apply (to_dir _ _ _ _ _ (vi_tables _ _ _ H)); by eexists). congruence.
  - replace (held sp) with (({[r]} ∪ held sp) ∖ {[r]}) by (apply set_eq; set_solver). done.
Qed.

(** ** The processor and its cache *)

Lemma activate_spec own sp st d : vm_inv own sp st -> (match d with Some pd => is_Some (dirs sp !! pd) | None => True end) ->
  exists st', pagedir_activate (default NULL d) st = Done (tt, st') /\ vm_inv own (mk_space (dirs sp) (held sp) d (kmap sp)) st'.
Proof.
  intros H Hd. pose proof (vi_tables _ _ _ H) as T.
  assert (Hrun : exists x, x = default (init_page_dir st) d /\ page_facts (vmem st) x /\
    pagedir_activate (default NULL d) st = Done (tt, mk_vm (vm_pages st) (init_page_dir st) (init_ram_pages st) (x - PHYS_BASE) ∅)).
  { destruct d as [pd|]; simpl.
    - destruct (dir_facts own sp st pd H Hd) as [_ F]. exists pd. split_and!; try done. apply activate_run; destruct F; unfold PHYS_BASE, NULL in *; lia.
    - pose proof (own_facts own sp st _ _ H (to_init _ _ _ _ _ T)) as F. exists (init_page_dir st). split_and!; try done.
      unfold pagedir_activate. erewrite bind_done; [|reflexivity]. cbn [Z.eqb NULL].
      rewrite (bind_done _ _ _ (init_page_dir st - PHYS_BASE) st); [done|]. unfold lift. rewrite vtop_run; [done|destruct F; lia]. }
  destruct Hrun as (x & Hx & _ & E). eexists. split; [exact E|]. destruct H as [B1 B2 B3 B4 B5 B6 B7 B8].
  constructor; try done. destruct d as [pd|]; simpl in *; subst x; done.
Qed.

(** Caching an entry: [tlb_fill] always leaves the cache consistent. *)
Lemma tlb_fill_spec own sp st v : vm_inv own sp st -> 0 <= v < user_pages -> exists st', tlb_fill v st = Done (tt, st') /\ vm_inv own sp st'.
Proof.
  intros H Hv. destruct (active_facts own sp st H) as (Hc & F & Ha). destruct (index_range v Hv) as (Hi & Hj & Ev). pose proof (vi_tables _ _ _ H) as T.
  unfold tlb_fill. rewrite (bind_done _ _ _ _ _ (active_run st _ Hc ltac:(destruct F; lia))).
  rewrite Z.shiftr_div_pow2 by (unfold PTBITS; lia). change (2 ^ PTBITS) with 1024. rewrite (bind_done _ _ _ _ _ (load_word_run st _ (v / 1024) F ltac:(lia))).
  destruct (Z.eqb_spec (Z.land (slot (vmem st) (active_dir sp st) (v / 1024)) PTE_P) 0) as [Hz|Hz]; [by exists st|].
  destruct (active sp) as [pd|] eqn:Eact.
  2:{ unfold active_dir in Hz. rewrite Eact in Hz. simpl in Hz. by rewrite (to_init_user _ _ _ _ _ T) in Hz by lia. }
  unfold active_dir in *. rewrite Eact in *. simpl in *. pose proof (vi_active _ _ _ H) as Hact. rewrite Eact in Hact. destruct Hact as [[abs Hpd] _].
  destruct (to_entry _ _ _ _ _ T pd (v / 1024)) as (pt & Hpt & Ept); [by eexists|lia|intros E; by rewrite E in Hz|].
  pose proof (own_facts own sp st pt _ H Hpt) as G. rewrite Ept, (bind_done _ _ _ pt st) by (unfold lift; rewrite pde_get_pt_run; [done|destruct G; lia|destruct G; lia]).
  replace (Z.land v 1023) with (v mod 1024) by (change 1023 with (Z.ones 10); by rewrite Z.land_ones).
  rewrite (bind_done _ _ _ _ _ (load_entry own sp st pd abs v pt H Hpd Hv Hpt)). fold (present (entry abs v)).
  destruct (Z.eqb_spec (Z.land (entry abs v) PTE_P) 0) as [Hp|Hp]; [by exists st|]. eexists. split; [done|].
  assert (Hpr : present (entry abs v) = true) by (unfold present; by rewrite (proj2 (Z.eqb_neq _ _) Hp)).
  destruct (present_entry own sp st pd abs v H Hpd Hpr) as (Hab & _ & _). destruct H as [B1 B2 B3 B4 B5 B6 B7 B8]. constructor; try done.
  cbn [tlb]. intros u c [[<- <-]|[_ Hu]]%lookup_insert_Some; [|by apply B7]. exists pd, abs, (entry abs v). split_and!; try done. split; [by rewrite Z.lor_diag|done].
Qed.
