(* ===== verification/PagedirDestroy.v ===== *)
(** * pagedir_destroy

    The loops free the frames and tables of a directory one after the other.
    [phase] says which pages of the address spaces are still untouched. *)

From stdpp Require Import options.
From S2P Require Import Prelude Bytes KList Bitmap Mem Str Vaddr Palloc Pagedir PagedirInv PagedirStep PagedirOps.
Local Open Scope Z_scope.
Local Open Scope kernel_scope.
#[local] Opaque write.

Lemma vmem_set s st : vmem (set_vm_pages s st) = memory s.
Proof. done. Qed.

Section destroy.
Context (own : gmap Z role) (sp : space) (st : vm) (pd : Z) (abs : gmap Z Z).
Hypothesis H : vm_inv own sp st.
Hypothesis Hpd : dirs sp !! pd = Some abs.

(** The pages for which [alive] holds are in use and unchanged, the others are free. *)
Record phase (alive : Z -> role -> Prop) (s : pages) : Prop := {
  ph_pages : pages_ok s;
  ph_bytes : bytes_ok (memory s);
  ph_shape : same_shape (vm_pages st) s;
  ph_used a r : own !! a = Some r -> used_page s a <-> alive a r;
  ph_slot a r k : own !! a = Some r -> alive a r -> 0 <= k < 1024 -> slot (memory s) a k = slot (vmem st) a k;
}.

Lemma phase_iff alive alive' s : phase alive s -> (forall a r, own !! a = Some r -> alive' a r <-> alive a r) -> phase alive' s.
Proof using Type.
  intros [P1 P2 P3 P4 P5] Hl. constructor; try done; intros a r; [intros Ha; rewrite (Hl a r Ha); exact (P4 a r Ha)|].
  intros k Ha Hv. by apply (P5 a r), Hl.
Qed.

Lemma phase_start : phase (fun _ _ => True) (vm_pages st).
Proof using H. constructor; try done; [apply H|apply H|]. intros a r Ha. split; [done|]. intros _. exact (vi_used _ _ _ H a r Ha). Qed.

Lemma phase_free alive s a r : phase alive s -> own !! a = Some r -> alive a r ->
  exists s', on_vm (palloc_free_page a) (set_vm_pages s st) = Done (tt, set_vm_pages s' st) /\ phase (fun b q => alive b q /\ b <> a) s'.
Proof using H.
  intros [P1 P2 P3 P4 P5] Ha Hv. destruct (free_page_run s a P1 (proj2 (P4 a r Ha) Hv)) as (s' & E & Hs & Hsh & Hu & Hm).
  exists s'. split; [unfold on_vm; simpl; by rewrite E|]. constructor; [done| | | |].
  - rewrite Hm. apply bytes_ok_write; [done|]. apply Forall_replicate. unfold is_byte. lia.
  - intros u. destruct (Hsh u) as [-> ->]. apply P3.
  - intros b q Hb. split; [intros [Hx Hne]%Hu|intros [Hx Hne]; apply Hu]; (split; [by apply (P4 b q Hb)|done]).
  - intros b q k Hb [Hq Hne] Hk. rewrite Hm, slot_filled; [by apply (P5 b q)| | |done|done];
      [apply (own_facts own sp st a r H Ha)|apply (own_facts own sp st b q H Hb)].
Qed.

(** Tables from [i] on, and frames from entry [j] of table [i] on, are still there. *)
Definition alive (i j a : Z) (r : role) : Prop :=
  match r with
  | Frame d v => d = pd -> 1024 * i + j <= v
  | Table d i' => d = pd -> i <= i'
  | KernelDir | KernelTable _ _ | Held | Dir => True
  end.

Lemma phase_load s i j a r k : phase (alive i j) s -> own !! a = Some r -> alive i j a r -> 0 <= k < 1024 ->
  load_word (a + 4 * k) (set_vm_pages s st) = Done (slot (vmem st) a k, set_vm_pages s st).
Proof using Type.
  intros P Ha Hv Hk. rewrite load_word_run; [|by apply used_facts; [apply P|apply (ph_used _ _ P a r Ha)]|done].
  by rewrite vmem_set, (ph_slot _ _ P a r).
Qed.

Lemma alive_next i j i' j' a r : alive i' j' a r -> i <= i' -> 1024 * i + j <= 1024 * i' + j' -> alive i j a r.
Proof using Type. intros Ha Hi Hj. destruct r; simpl in *; try done; intros ->; specialize (Ha eq_refl); lia. Qed.

Lemma alive_other i j a r : ~ belongs pd a r -> alive i j a r.
Proof using Type. intros Hb. destruct r; simpl in *; [done..|intros ->; done|intros ->; done]. Qed.

(** Between two points of the loops lie the frames of some entries and at most
    the tables of the directory entries in between. *)
Lemma alive_back i j i' j' a r :
  own !! a = Some r -> alive i j a r -> 0 <= j' ->
  (forall v, own !! a = Some (Frame pd v) -> 1024 * i + j <= v -> 1024 * i' + j' <= v) ->
  (forall k, own !! a = Some (Table pd k) -> i <= k -> i' <= k) -> alive i' j' a r.
Proof using Type. intros Ha Hal _ Hf Ht. destruct r; simpl in *; try done; intros ->; [by apply Ht, Hal|by apply Hf, Hal]. Qed.

Lemma frame_entry a v : own !! a = Some (Frame pd v) -> present (entry abs v) = true /\ a = frame_of (entry abs v) /\ abs !! v <> None /\ 0 <= v < user_pages.
Proof using H Hpd.
  intros Ha. destruct (to_frame _ _ _ _ _ (vi_tables _ _ _ H) a pd v Ha) as (abs' & e & Hd & Hv & Hp & Hf). rewrite Hpd in Hd. injection Hd as <-.
  unfold entry. rewrite Hv. split_and!; try done; by apply (to_pte _ _ _ _ _ (vi_tables _ _ _ H) pd abs v e).
Qed.

Lemma destroy_ptes_run pt i n : own !! pt = Some (Table pd i) -> forall j s,
  phase (alive i j) s -> 0 <= j -> j + Z.of_nat n = 1024 ->
  exists s', destroy_ptes n (pt + 4 * j) (set_vm_pages s st) = Done (tt, set_vm_pages s' st) /\ phase (alive i 1024) s'.
Proof using H Hpd.
  intros Hpt. destruct (to_table _ _ _ _ _ (vi_tables _ _ _ H) pt pd i Hpt) as (abs' & Hd & Hi & _ & _ & Hw).
  rewrite Hpd in Hd. injection Hd as <-. induction n as [|n IH]; intros j s P Hj Hn.
  { exists s. split; [done|]. by replace 1024 with j by lia. }
  assert (Hv : 0 <= 1024 * i + j < user_pages) by (unfold user_pages; lia). cbn [destroy_ptes].
  rewrite (bind_done _ _ _ _ _ (phase_load s i j pt _ j P Hpt ltac:(simpl; lia) ltac:(lia))). rewrite Hw by lia.
  fold (entry abs (1024 * i + j)). set (v := 1024 * i + j) in *. fold (present (entry abs v)). replace (pt + 4 * j + 4) with (pt + 4 * (j + 1)) by lia.
  destruct (present (entry abs v)) eqn:Hp.
  - destruct (present_entry own sp st pd abs v H Hpd Hp) as (Hab & He & Hf). pose proof (own_facts own sp st _ _ H Hf) as [F1 F2 F3 _].
    destruct (phase_free _ s _ _ P Hf ltac:(simpl; lia)) as (s1 & E1 & P1).
    rewrite (bind_done _ _ _ tt (set_vm_pages s1 st)).
    2:{ rewrite (bind_done _ _ _ (frame_of (entry abs v)) (set_vm_pages s st)); [exact E1|]. unfold lift, pte_get_page.
        assert (E2 : Z.land (entry abs v) PTE_ADDR = frame_of (entry abs v) - PHYS_BASE) by (unfold frame_of; lia). rewrite E2, ptov_run; [done|lia]. }
    apply IH; [|lia|lia]. apply (phase_iff _ _ _ P1). intros a r Ha. split.
    + intros Hal. split; [apply (alive_next _ _ _ _ _ _ Hal); lia|]. intros ->. rewrite Hf in Ha. injection Ha as <-. simpl in Hal. specialize (Hal eq_refl). lia.
    + intros [Hal Hne]. apply (alive_back i j _ _ _ _ Ha Hal); [lia| |auto]. intros u Hu Hle. destruct (frame_entry a u Hu) as (_ & Ea & _).
      destruct (decide (u = v)) as [->|]; [done|lia].
  - rewrite bind_ret. apply IH; [|lia|lia]. apply (phase_iff _ _ _ P). intros a r Ha. split; [intros Hal; apply (alive_next _ _ _ _ _ _ Hal); lia|].
    intros Hal. apply (alive_back i j _ _ _ _ Ha Hal); [lia| |auto]. intros u Hu Hle. destruct (frame_entry a u Hu) as (Hpu & _).
    destruct (decide (u = v)) as [->|]; [congruence|lia].
Qed.

Lemma destroy_pdes_run n : forall i s,
  phase (alive i 0) s -> 0 <= i -> i + Z.of_nat n = 768 ->
  exists s', destroy_pdes n (pd + 4 * i) (set_vm_pages s st) = Done (tt, set_vm_pages s' st) /\ phase (alive 768 0) s'.
Proof using H Hpd.
  induction n as [|n IH]; intros i s P Hi Hn.
  { exists s. split; [done|]. by replace 768 with i by lia. }
  destruct (dir_facts own sp st pd H ltac:(by eexists)) as [Hdir _]. cbn [destroy_pdes].
  rewrite (bind_done _ _ _ _ _ (phase_load s i 0 pd _ i P Hdir I ltac:(lia))). replace (pd + 4 * i + 4) with (pd + 4 * (i + 1)) by lia.
  destruct (decide (slot (vmem st) pd i = 0)) as [Hz|Hz].
  - rewrite Hz. change (negb (Z.land 0 PTE_P =? 0)) with false. cbv iota. rewrite bind_ret. apply IH; [|lia|lia]. apply (phase_iff _ _ _ P). intros a r Ha. split; [intros Hal; apply (alive_next _ _ _ _ _ _ Hal); lia|].
    intros Hal. apply (alive_back i 0 _ _ _ _ Ha Hal); [lia| |].
    + intros u Hu Hle. destruct (frame_entry a u Hu) as (_ & _ & Hab & _). destruct (Z.lt_ge_cases u (1024 * (i + 1))) as [Hlt|]; [|lia].
      destruct Hab. replace u with (1024 * i + (u - 1024 * i)) by lia. apply (to_empty _ _ _ _ _ (vi_tables _ _ _ H) pd abs i); (done || lia).
    + intros k Hk Hle. destruct (decide (k = i)) as [->|]; [|lia]. destruct (to_table _ _ _ _ _ (vi_tables _ _ _ H) a pd i Hk) as (? & _ & _ & Hl & E & _). lia.
  - destruct (to_entry _ _ _ _ _ (vi_tables _ _ _ H) pd i) as (pt & Hpt & Ept); [by eexists|lia|done|].
    pose proof (own_facts own sp st pt _ H Hpt) as [F1 F2 F3 _]. destruct (frame_align pt F1 ltac:(lia)) as [A1 A2].
    destruct (entry_addr _ 7 A2 A1 ltac:(lia)) as [A3 _]. rewrite Ept.
    assert (Hpr : negb (Z.land (pt - PHYS_BASE + 7) PTE_P =? 0) = true) by (rewrite <- A3, entry_flags; done). rewrite Hpr.
    destruct (destroy_ptes_run pt i 1024 Hpt 0 s P) as (s1 & E1 & P1); [lia|lia|]. rewrite Z.add_0_r in E1.
    destruct (phase_free _ s1 pt _ P1 Hpt ltac:(simpl; lia)) as (s2 & E2 & P2).
    rewrite (bind_done _ _ _ tt (set_vm_pages s2 st)).
    2:{ rewrite (bind_done _ _ _ pt (set_vm_pages s st)) by (unfold lift; rewrite pde_get_pt_run; [done|done|lia]).
        change (Z.to_nat (PGSIZE / 4)) with 1024%nat. by rewrite (bind_done _ _ _ _ _ E1). }
    apply IH; [|lia|lia]. apply (phase_iff _ _ _ P2). intros a r Ha. split.
    + intros Hal. split; [apply (alive_next _ _ _ _ _ _ Hal); lia|]. intros ->. rewrite Hpt in Ha. injection Ha as <-. simpl in Hal. specialize (Hal eq_refl). lia.
    + intros [Hal Hne]. apply (alive_back i 1024 _ _ _ _ Ha Hal); [lia|intros; lia|]. intros k Hk Hle. destruct (decide (k = i)) as [->|]; [|lia].
      destruct (to_table _ _ _ _ _ (vi_tables _ _ _ H) a pd i Hk) as (? & _ & _ & _ & E & _). lia.
Qed.

#[local] Instance belongs_dec a r : Decision (belongs pd a r).
Proof using Type. destruct r; simpl; apply _. Defined.

(** All pages of the address space are free again, the others are as before. *)
Lemma destroy_spec : active sp <> Some pd ->
  exists own' st', pagedir_destroy pd st = Done (tt, st') /\ vm_inv own' (mk_space (delete pd (dirs sp)) (held sp) (active sp) (kmap sp)) st' /\
    (forall a r, own !! a = Some r -> used_page (vm_pages st') a <-> ~ belongs pd a r).
Proof using H Hpd.
  intros Hact. destruct (dir_facts own sp st pd H ltac:(by eexists)) as [Hdir F]. pose proof (vi_tables _ _ _ H) as T.
  assert (Hni : pd <> init_page_dir st) by (intros ->; rewrite (to_init _ _ _ _ _ T) in Hdir; done).
  assert (Hp0 : pd <> NULL) by (intros ->; exact (pf_low _ _ F eq_refl)).
  unfold pagedir_destroy. rewrite (proj2 (Z.eqb_neq _ _) Hp0). erewrite bind_done; [|reflexivity].
  rewrite assert_true by (rewrite (proj2 (Z.eqb_neq _ _) Hni); done). change (Z.to_nat (pd_no PHYS_BASE)) with 768%nat.
  assert (P0 : phase (alive 0 0) (vm_pages st)).
  { apply (phase_iff _ _ _ phase_start). intros a r Ha. split; [done|]. intros _. apply (alive_back (-1) 0 _ _ _ _ Ha); [|lia| |].
    - destruct r; simpl; [done..|intros ->|intros ->]; [destruct (to_table _ _ _ _ _ T a pd i Ha) as (? & _ & Hi & _); lia|].
      destruct (frame_entry a v Ha) as (_ & _ & _ & ?). lia.
    - intros v Hv _. destruct (frame_entry a v Hv) as (_ & _ & _ & ?). lia.
    - intros k Hk _. destruct (to_table _ _ _ _ _ T a pd k Hk) as (? & _ & ? & _). lia. }
  destruct (destroy_pdes_run 768 0 (vm_pages st) P0) as (s1 & E1 & P1); [lia|lia|]. rewrite Z.add_0_r in E1.
  replace (set_vm_pages (vm_pages st) st) with st in E1 by (by destruct st). rewrite (bind_done _ _ _ _ _ E1).
  destruct (phase_free _ s1 pd _ P1 Hdir I) as (s2 & E2 & P2).
  set (own' := filter (fun x => ~ belongs pd x.1 x.2) own).
  assert (Hown : forall a r, own' !! a = Some r <-> own !! a = Some r /\ ~ belongs pd a r) by (intros a r; apply map_lookup_filter_Some).
  assert (Hal : forall a r, own' !! a = Some r -> alive 768 0 a r /\ a <> pd).
  { intros a r [Ha Hb]%Hown. split; [exact (alive_other _ _ _ _ Hb)|]. intros ->. rewrite Hdir in Ha. injection Ha as <-. exact (Hb eq_refl). }
  exists own', (set_vm_pages s2 st). split; [exact E2|].
  split; [|intros a r Ha; cbn [vm_pages set_vm_pages]; rewrite (ph_used _ _ P2 a r Ha); split; [|intros Hb; by apply Hal, Hown]].
  2:{ intros [Hal' Hne] Hb. destruct r; simpl in Hb; [done..|by subst| |]; subst; simpl in Hal'; specialize (Hal' eq_refl).
      - destruct (to_table _ _ _ _ _ T a pd i Ha) as (? & _ & ? & _). lia.
      - destruct (frame_entry a v Ha) as (_ & _ & _ & ?). unfold user_pages in *. lia. }
  destruct P2 as [Q1 Q2 Q3 Q4 Q5]. pose proof H as [B1 B2 B3 B4 B5 B6 B7 B8].
  constructor; [exact Q1|exact Q2| |exact (in_ram_shape _ _ _ B4 Q3)| | | |].
  - intros a r Ha. apply (Q4 a r); [by apply Hown|by apply Hal].
  - apply (tables_frame _ _ _ _ (slot (vmem st))); [by apply (tables_drop own)|]. intros a r k Ha Hk. apply (Q5 a r); [by apply Hown|by apply Hal|done].
  - cbn [active dirs]. destruct (active sp) as [d|]; [|exact B6]. rewrite lookup_delete_ne by congruence. exact B6.
  - intros u c Hc. destruct (B7 u c Hc) as (d & abs' & e & Ha & Hd & Hr). exists d, abs', e. cbn [active dirs]. split; [done|]. split; [|done].
    rewrite lookup_delete_ne by congruence. done.
  - apply (kernel_kept own _ _ B8). intros a k c Ha. apply Hown. split; [exact Ha|intros []].
Qed.
End destroy.

(** A frame that is not mapped is given back. *)
Lemma frame_freed own sp st a : vm_inv own sp st -> a ∈ held sp ->
  exists own' st', on_vm (palloc_free_page a) st = Done (tt, st') /\ vm_inv own' (mk_space (dirs sp) (held sp ∖ {[a]}) (active sp) (kmap sp)) st'.
Proof.
  intros H Ha. apply (to_held _ _ _ _ _ (vi_tables _ _ _ H)) in Ha.
  destruct (phase_free own sp st H _ _ a _ (phase_start own sp st H) Ha I) as (s' & E & [Q1 Q2 Q3 Q4 Q5]).
  replace (set_vm_pages (vm_pages st) st) with st in E by (by destruct st).
  exists (delete a own), (set_vm_pages s' st). split; [exact E|]. destruct H as [B1 B2 B3 B4 B5 B6 B7 B8].
  constructor; [exact Q1|exact Q2| |exact (in_ram_shape _ _ _ B4 Q3)| |exact B6|exact B7|].
  - intros b r [Hne Hb]%lookup_delete_Some. by apply (Q4 b r).
  - apply (tables_frame _ _ _ _ (slot (vmem st))); [by apply tables_release|]. intros b r k [Hne Hb]%lookup_delete_Some Hk. by apply (Q5 b r).
  - apply (kernel_kept own _ _ B8). intros b k c Hb. rewrite lookup_delete_ne; [done|congruence].
Qed.
