(* ===== verification/PagedirInit.v ===== *)
(** * paging_init

    The loop of [paging_init] maps all of memory at PHYS_BASE.  It needs one page
    for the directory and one for every 4 MB. *)

From stdpp Require Import options.
From S2P Require Import Prelude Bytes KList Bitmap Mem Str Vaddr Palloc Pagedir PagedirInv PagedirStep PagedirOps.
Local Open Scope Z_scope.
Local Open Scope kernel_scope.
#[local] Opaque write.

(** ** Free pages *)

Definition free_pages (s : pages) : list Z :=
  filter (fun i => bit (used_map (kernel_pool s)) i = false) (seqZ 0 (pool_cnt (kernel_pool s))).

Definition PAL_KERNEL : Z := Z.lor PAL_ASSERT PAL_ZERO.

(** A zeroed page for the kernel, when one is left. *)
Lemma kernel_page s n : pages_ok s -> length (free_pages s) = S n ->
  exists r s', palloc_get_page PAL_KERNEL s = Done (r, s') /\ pages_ok s' /\ same_shape s s' /\ length (free_pages s') = n /\
    (forall a, used_page s a -> used_page s' a) /\ ~ used_page s r /\ used_page s' r /\
    memory s' = write r (replicate 4096 0) (memory s).
Proof.
  intros Hs Hn. assert (Hfree : exists i, i ∈ free_pages s) by (destruct (free_pages s) as [|i l]; [done|exists i; left]).
  destruct Hfree as [i0 Hi0]. apply list_elem_of_filter in Hi0 as [Hb0 Hi0%elem_of_seqZ].
  assert (Hone : forall j, bit (used_map (kernel_pool s)) j = false -> group (used_map (kernel_pool s)) j 1 false) by (intros j Hj k Hk; by replace k with j by lia).
  destruct (palloc_get_run s PAL_KERNEL 1 Hs ltac:(lia)) as [(r & s' & E & Hs' & Hg)|(_ & _ & _ & Hno)]; [|by destruct (Hno i0); [lia|simpl; lia|apply Hone]].
  exists r, s'. split; [exact E|]. split; [exact Hs'|]. destruct Hg as [_ _ _ Hno|i Hi _ Hin -> Hg Hfl Hm].
  { destruct (Hno i0) as [?|Hx]; [lia|simpl; lia|done|]. by destruct Hx; apply Hone. }
  change (get_pool (negb (Z.land PAL_KERNEL PAL_USER =? 0)) s) with (get_pool false s) in *.
  change (negb (Z.land PAL_KERNEL PAL_USER =? 0)) with false in Hfl. simpl in Hin, Hg.
  assert (Hbi : bit (used_map (kernel_pool s)) i = false) by (apply Hg; lia).
  split_and!; [by apply (flipped_shape _ _ false i 1 true)| |intros a Ha; by apply (flipped_used s s' false i 1 true a Hs Hfl Ha)| | |exact Hm].
  - clear E Hm. assert (E2 : free_pages s' = filter (fun j => j <> i) (free_pages s)).
    { destruct Hfl as (_ & _ & Hc & Hbits). simpl in Hc, Hbits. unfold free_pages. rewrite Hc, list_filter_filter. apply filter_ext_elem.
      intros j Hj%elem_of_seqZ. rewrite Hbits by lia. destruct (Z.leb_spec i j), (Z.ltb_spec j (i + 1)); simpl; try (split; [intros ?; split; [lia|done]|by intros []]).
      split; [done|]. intros [? _]. lia. }
    rewrite E2. apply Nat.succ_inj. rewrite <- Hn. symmetry. apply filter_without; [apply NoDup_filter, NoDup_seqZ|].
    apply list_elem_of_filter. split; [done|]. apply elem_of_seqZ. lia.
  - clear E Hm. intros (v & j & Hj & Ej & Hb). destruct (page_unique s false i v j Hs) as [<- <-]; [simpl; lia|done|done|]. simpl in Hb. congruence.
  - clear E Hm. destruct Hfl as (_ & Hb & Hc & Hbits). simpl in *. exists false, i. simpl. unfold page_addr. rewrite Hb, Hc, Hbits by lia.
    split_and!; [lia|lia|done|]. by rewrite (proj2 (Z.leb_le i i)), (proj2 (Z.ltb_lt i (i + 1))) by lia.
Qed.

(** ** The kernel's page tables *)

(** The entry of page [q] of memory: writable unless it holds kernel code. *)
Definition kernel_entry (text_end q : Z) : Z :=
  Z.lor (Z.lor (4096 * q) PTE_P)
    (if negb ((kernel_start <=? PHYS_BASE + 4096 * q) && (PHYS_BASE + 4096 * q <? text_end)) then PTE_W else 0).

Lemma kernel_entry_u32 te q : 0 <= q < 2 ^ 18 -> is_u32 (kernel_entry te q).
Proof.
  intros Hq. unfold kernel_entry. apply u32_lor; [apply u32_lor; unfold is_u32, PTE_P; lia|]. unfold is_u32, PTE_W. case_match; lia.
Qed.

Section paging.
Context (st : vm) (pd text_end : Z).

(** Before page [p]: the pages of the tables made so far are [tabs]. *)
Record progress (tabs : list Z) (p : Z) (s : pages) : Prop := {
  pr_pages : pages_ok s;
  pr_bytes : bytes_ok (memory s);
  pr_ram : in_ram (init_ram_pages st) s;
  pr_dir : used_page s pd;
  pr_used a : a ∈ tabs -> used_page s a;
  pr_nodup : NoDup (pd :: tabs);
  pr_len : (length tabs <= 256)%nat;
  pr_zero i : 0 <= i < 768 \/ 768 + Z.of_nat (length tabs) <= i < 1024 -> slot (memory s) pd i = 0;
  pr_pde k a : tabs !! k = Some a -> slot (memory s) pd (768 + Z.of_nat k) = a - PHYS_BASE + 7;
  pr_pte q a : 0 <= q < p -> tabs !! Z.to_nat (q / 1024) = Some a -> slot (memory s) a (q mod 1024) = kernel_entry text_end q;
}.

Lemma page_facts_of tabs p s a : progress tabs p s -> a = pd \/ a ∈ tabs -> page_facts (memory s) a.
Proof using Type. intros P Ha. apply used_facts; [apply P|]. destruct Ha as [->|Ha]; [apply P|exact (pr_used _ _ _ P a Ha)]. Qed.

(** A new table for page [p]. *)
Lemma progress_table tabs p s s' r i :
  progress tabs p s -> i = 768 + Z.of_nat (length tabs) -> i < 1024 -> p <= 1024 * Z.of_nat (length tabs) ->
  pages_ok s' -> same_shape s s' -> (forall a, used_page s a -> used_page s' a) ->
  ~ used_page s r -> used_page s' r -> memory s' = write r (replicate 4096 0) (memory s) ->
  progress (tabs ++ [r]) p (set_memory (write (pd + 4 * i) (le_encode 4 (r - PHYS_BASE + 7)) (memory s')) s').
Proof using Type.
  intros P Hi Hi2 Hp Hs' Hsh Hu Hnu Hur Hm. set (s2 := set_memory _ s'). pose proof (page_facts_of tabs p s pd P (or_introl eq_refl)) as F.
  pose proof (used_facts s' r Hs' Hur) as [G1 G2 G3 _].
  assert (Hnr : r ∉ pd :: tabs).
  { intros Hin. apply Hnu. apply elem_of_cons in Hin as [->|Hin]; [apply P|exact (pr_used _ _ _ P _ Hin)]. }
  assert (Husall : forall a, a = pd \/ a ∈ tabs ++ [r] -> used_page s' a).
  { intros a [->|[Ha|Ha%list_elem_of_singleton]%elem_of_app]; [apply Hu, P|exact (Hu _ (pr_used _ _ _ P a Ha))|by rewrite Ha]. }
  assert (Hslot : forall a k, a = pd \/ a ∈ tabs ++ [r] -> 0 <= k < 1024 -> slot (memory s2) a k =
    if decide (a = pd /\ k = i) then r - PHYS_BASE + 7 else if decide (a = r) then 0 else slot (memory s) a k).
  { intros a k Ha Hk. pose proof (used_facts s' a Hs' (Husall a Ha)) as [A1 _ _ _]. unfold s2. cbn [memory set_memory].
    rewrite (slot_store _ pd i _ a k (pf_align _ _ F) A1 ltac:(lia) Hk) by (unfold is_u32, PHYS_BASE in *; lia).
    destruct (decide (a = pd /\ k = i)); [reflexivity|]. rewrite Hm.
    case_decide as E; [rewrite E; exact (slot_zero _ r k _ Hk eq_refl)|exact (slot_filled _ r 0 a k G1 A1 E Hk)]. }
  assert (Hby : bytes_ok (memory s2)).
  { unfold s2. cbn [memory set_memory]. rewrite Hm. apply bytes_ok_write; [|apply le_encode_bytes]. apply bytes_ok_write; [apply P|].
    apply Forall_replicate. unfold is_byte. lia. }
  clear Hm. assert (Hpr : pd <> r) by (intros ->; apply Hnr; left). constructor; [by apply pages_ok_write|exact Hby|..].
  - exact (in_ram_shape _ _ _ (pr_ram _ _ _ P) Hsh).
  - apply Husall. by left.
  - intros a Ha. apply Husall. by right.
  - rewrite app_comm_cons. apply NoDup_app. split_and!; [apply P| |apply NoDup_singleton]. intros x Hx Hx'%list_elem_of_singleton. by subst.
  - rewrite length_app. simpl. lia.
  - rewrite length_app. simpl. intros k Hk. rewrite Hslot by (auto || lia). rewrite !decide_False; [apply P; lia|done|lia].
  - intros k a [Hk|[Hk Ha]]%lookup_app_Some.
    + pose proof (lookup_lt_Some _ _ _ Hk). rewrite Hslot by (auto || lia). rewrite !decide_False; [by apply P|done|lia].
    + apply list_lookup_singleton_Some in Ha as [E <-]. rewrite Hslot by (auto || lia). rewrite decide_True; [done|]. split; [done|lia].
  - intros q a Hq Hl. apply lookup_app_Some in Hl as [Hl|[Hl Ha]].
    + pose proof (list_elem_of_lookup_2 _ _ _ Hl) as Hin. pose proof (Z.mod_pos_bound q 1024 ltac:(lia)).
      rewrite Hslot by (lia || (right; apply elem_of_app; by left)). rewrite !decide_False; [by apply (pr_pte _ _ _ P q a)| |].
      * intros ->. apply Hnr. by right.
      * intros [-> _]. pose proof (pr_nodup _ _ _ P) as Hnd. apply NoDup_cons in Hnd as [? _]. done.
    + pose proof (Z.div_lt_upper_bound q 1024 (Z.of_nat (length tabs))). pose proof (Z.div_pos q 1024). lia.
Qed.

(** The entry of page [p] is stored. *)
Lemma progress_entry tabs p s pt : progress tabs p s -> 0 <= p < 2 ^ 18 -> tabs !! Z.to_nat (p / 1024) = Some pt ->
  progress tabs (p + 1) (set_memory (write (pt + 4 * (p mod 1024)) (le_encode 4 (kernel_entry text_end p)) (memory s)) s).
Proof using Type.
  intros P Hp Hpt. set (s2 := set_memory _ s). pose proof (list_elem_of_lookup_2 _ _ _ Hpt) as Hin.
  pose proof (page_facts_of tabs p s pt P (or_intror Hin)) as F. pose proof (Z.mod_pos_bound p 1024 ltac:(lia)) as Hm.
  assert (Hslot : forall a k, a = pd \/ a ∈ tabs -> 0 <= k < 1024 -> slot (memory s2) a k =
    if decide (a = pt /\ k = p mod 1024) then kernel_entry text_end p else slot (memory s) a k).
  { intros a k Ha Hk. unfold s2. cbn [memory set_memory]. apply slot_store; [apply F|exact (pf_align _ _ (page_facts_of tabs p s a P Ha))|lia|exact Hk|by apply kernel_entry_u32]. }
  pose proof (pr_nodup _ _ _ P) as Hnd. apply NoDup_cons in Hnd as [Hnd Hnd']. assert (Hne : pd <> pt) by (by intros ->).
  destruct P as [P1 P2 P3 P4 P5 P6 Plen P7 P8 P9]. constructor; try done.
  - by apply pages_ok_write.
  - apply bytes_ok_write; [done|apply le_encode_bytes].
  - intros i Hi. rewrite Hslot, decide_False; [by apply P7|by intros []|by left|lia].
  - intros k a Hk. pose proof (lookup_lt_Some _ _ _ Hk). rewrite Hslot, decide_False; [by apply P8|by intros []|by left|lia].
  - intros q a Hq Ha. pose proof (Z.mod_pos_bound q 1024 ltac:(lia)) as Hqm. rewrite Hslot by (done || right; by apply (list_elem_of_lookup_2 _ _ _ Ha)).
    case_decide as E.
    + destruct E as [-> Em]. assert (Eq : Z.to_nat (q / 1024) = Z.to_nat (p / 1024)) by (by apply (NoDup_lookup tabs _ _ pt)).
      pose proof (Z.div_mod q 1024). pose proof (Z.div_mod p 1024). pose proof (Z.div_pos q 1024). pose proof (Z.div_pos p 1024).
      replace q with p by lia. done.
    + apply P9; [|done]. destruct (decide (q = p)) as [->|]; [|lia]. rewrite Hpt in Ha. injection Ha as <-. by destruct E.
Qed.

(** Tables still to be made are covered by free pages. *)
Definition enough (tabs : list Z) (n : Z) (s : pages) : Prop :=
  (n + 1023) / 1024 <= Z.of_nat (length tabs) + Z.of_nat (length (free_pages s)).

(** The table for page [p]. *)
Lemma table_step tabs p pt s n :
  progress tabs p s -> 0 <= p < n -> n <= 2 ^ 18 -> Z.of_nat (length tabs) = (p + 1023) / 1024 ->
  (p mod 1024 <> 0 -> tabs !! Z.to_nat (p / 1024) = Some pt) -> enough tabs n s ->
  let pde := pd + 4 * (768 + p / 1024) in
  exists tabs' pt' s', (let! w := load_word pde in
     if w =? 0 then
       let! pt := on_vm (palloc_get_page PAL_KERNEL) in
       let! e := lift (pde_create pt) in
       store_word pde e ;; ret pt
     else ret pt) (set_vm_pages s st) = Done (pt', set_vm_pages s' st) /\
    progress tabs' p s' /\ tabs' !! Z.to_nat (p / 1024) = Some pt' /\ Z.of_nat (length tabs') = (p + 1 + 1023) / 1024 /\ enough tabs' n s'.
Proof using Type.
  intros P Hp Hn Hlen Hpt Hen pde. pose proof (page_facts_of tabs p s pd P (or_introl eq_refl)) as F.
  pose proof (Z.div_mod p 1024 ltac:(lia)) as Hdm. pose proof (Z.mod_pos_bound p 1024 ltac:(lia)) as Hmp.
  assert (Hi : 0 <= p / 1024 < 256) by lia. assert (Hnext : (p + 1 + 1023) / 1024 = p / 1024 + 1).
  { symmetry. apply (Z.div_unique_pos _ _ _ (p mod 1024)); lia. }
  unfold pde. rewrite (bind_done _ _ _ _ _ (load_word_run (set_vm_pages s st) pd (768 + p / 1024) F ltac:(lia))). change (vmem (set_vm_pages s st)) with (memory s).
  destruct (decide (p mod 1024 = 0)) as [Hz|Hz].
  - assert (Hl : Z.of_nat (length tabs) = p / 1024) by (rewrite Hlen; symmetry; apply (Z.div_unique_pos _ _ _ 1023); lia).
    rewrite (pr_zero _ _ _ P) by lia. cbn [Z.eqb]. unfold enough in Hen.
    assert (Hnn : p / 1024 + 1 <= (n + 1023) / 1024) by (rewrite <- Hnext; apply Z.div_le_mono; lia).
    destruct (length (free_pages s)) as [|m] eqn:Ef; [lia|]. destruct (kernel_page s m (pr_pages _ _ _ P) Ef) as (r & s1 & E & Hs1 & Hsh & Hfree & Hu & Hnu & Hur & Hm).
    pose proof (used_facts s1 r Hs1 Hur) as [G1 G2 G3 _]. assert (F1 : page_facts (vmem (set_vm_pages s1 st)) pd) by (apply (used_facts s1 pd Hs1), Hu, P).
    exists (tabs ++ [r]), r, (set_memory (write (pd + 4 * (768 + p / 1024)) (le_encode 4 (r - PHYS_BASE + 7)) (memory s1)) s1). split_and!.
    + rewrite (bind_done _ _ _ r (set_vm_pages s1 st)) by (unfold on_vm; simpl; by rewrite E).
      rewrite (bind_done _ _ _ (r - PHYS_BASE + 7) (set_vm_pages s1 st)) by (unfold lift; rewrite (pde_create_run r G1 ltac:(lia)); reflexivity).
      rewrite (bind_done _ _ _ _ _ (store_word_run (set_vm_pages s1 st) pd (768 + p / 1024) _ F1 ltac:(lia))). reflexivity.
    + apply (progress_table tabs p s s1 r (768 + p / 1024)); try assumption; lia.
    + rewrite lookup_app_r by lia. replace (Z.to_nat (p / 1024) - length tabs)%nat with 0%nat by lia. reflexivity.
    + rewrite length_app. simpl. lia.
    + unfold enough. change (free_pages (set_memory _ s1)) with (free_pages s1). rewrite length_app, Hfree. simpl. lia.
  - specialize (Hpt Hz). assert (Es : slot (memory s) pd (768 + p / 1024) = pt - PHYS_BASE + 7).
    { rewrite <- (pr_pde _ _ _ P _ _ Hpt). f_equal. lia. }
    rewrite Es.
    pose proof (page_facts_of tabs p s pt P (or_intror (list_elem_of_lookup_2 _ _ _ Hpt))) as [_ G2 _ _].
    rewrite (proj2 (Z.eqb_neq _ 0)) by (unfold PHYS_BASE in *; lia). exists tabs, pt, s. split_and!; try done.
    rewrite Hlen, Hnext. symmetry. apply (Z.div_unique_pos _ _ _ (p mod 1024 - 1)); lia.
Qed.

Lemma paging_loop_run n : forall p tabs pt s,
  progress tabs p s -> 0 <= p -> p + Z.of_nat n <= 2 ^ 18 -> Z.of_nat (length tabs) = (p + 1023) / 1024 ->
  (p mod 1024 <> 0 -> tabs !! Z.to_nat (p / 1024) = Some pt) -> enough tabs (p + Z.of_nat n) s ->
  exists tabs' s', paging_loop n text_end pd pt p (set_vm_pages s st) = Done (tt, set_vm_pages s' st) /\
    progress tabs' (p + Z.of_nat n) s' /\ Z.of_nat (length tabs') = (p + Z.of_nat n + 1023) / 1024.
Proof using Type.
  induction n as [|n IH]; intros p tabs pt s P Hp Hn Hlen Hpt Hen.
  { exists tabs, s. rewrite Z.add_0_r. by split_and!. }
  destruct (table_step tabs p pt s (p + Z.of_nat (S n)) P) as (tabs1 & pt1 & s1 & E1 & P1 & Hpt1 & Hlen1 & Hen1); try done; try lia.
  pose proof (Z.mod_pos_bound p 1024 ltac:(lia)) as Hmp. pose proof (Z.div_mod p 1024 ltac:(lia)) as Hdm.
  set (va := PHYS_BASE + 4096 * p). assert (Hva : va = 4096 * (786432 + p) + 0) by (unfold va, PHYS_BASE; lia).
  assert (Hpdn : pd_no va = 768 + p / 1024).
  { rewrite Hva, pd_no_page by lia. replace (786432 + p) with (p + 768 * 1024) by lia. rewrite Z.div_add by lia. lia. }
  assert (Hptn : pt_no va = p mod 1024).
  { rewrite Hva, pt_no_page by lia. replace (786432 + p) with (p + 768 * 1024) by lia. by rewrite Z_mod_plus_full. }
  assert (Hal : va mod 4096 = 0) by (rewrite Hva, Z.add_0_r, Z.mul_comm; apply Z_mod_mult). assert (Hr : PHYS_BASE <= va < 2 ^ 32) by (unfold va, PHYS_BASE in *; lia).
  pose proof (page_facts_of tabs1 p s1 pt1 P1 (or_intror (list_elem_of_lookup_2 _ _ _ Hpt1))) as F1.
  cbn [paging_loop]. rewrite pgsize_eq, (u32_small (p * 4096)) by lia.
  rewrite (bind_done _ _ _ va (set_vm_pages s st)).
  2:{ unfold lift. assert (Ep : p * 4096 = va - PHYS_BASE) by (unfold va; lia). rewrite Ep, (ptov_run va Hr). reflexivity. }
  cbv zeta. rewrite Hpdn, Hptn. fold PAL_KERNEL. apply bind_inv in E1 as (w & st0 & El & Ew).
  rewrite (bind_done _ _ _ _ _ El), (bind_done _ _ _ _ _ Ew).
  rewrite (bind_done _ _ _ (kernel_entry text_end p) (set_vm_pages s1 st)).
  2:{ unfold lift, pte_create_kernel. rewrite pg_ofs_mod, Hal, (vtop_run va Hr). replace (va - PHYS_BASE) with (4096 * p) by (unfold va; lia). reflexivity. }
  rewrite (bind_done _ _ _ _ _ (store_word_run (set_vm_pages s1 st) pt1 (p mod 1024) _ F1 Hmp)).
  set (s2 := set_memory (write (pt1 + 4 * (p mod 1024)) (le_encode 4 (kernel_entry text_end p)) (memory s1)) s1).
  change (with_mem _ (set_vm_pages s1 st)) with (set_vm_pages s2 st).
  assert (P2 : progress tabs1 (p + 1) s2) by (apply (progress_entry tabs1 p s1 pt1 P1); [lia|exact Hpt1]).
  destruct (IH (p + 1) tabs1 pt1 s2 P2) as (tabs' & s' & E' & P' & Hl'); [lia|lia|exact Hlen1| | |].
  - intros Hm. replace ((p + 1) / 1024) with (p / 1024); [exact Hpt1|]. pose proof (Z.div_mod (p + 1) 1024 ltac:(lia)).
    pose proof (Z.mod_pos_bound (p + 1) 1024 ltac:(lia)). lia.
  - replace (p + 1 + Z.of_nat n) with (p + Z.of_nat (S n)) by lia. exact Hen1.
  - exists tabs', s'. replace (p + Z.of_nat (S n)) with (p + 1 + Z.of_nat n) by lia. split_and!; [exact E'|exact P'|exact Hl'].
Qed.
End paging.

(** ** The kernel's directory *)

Definition contents (m : mem) (a : Z) : list Z := slot m a <$> seqZ 0 1024.

Lemma contents_lookup m a j : 0 <= j < 1024 -> contents m a !! Z.to_nat j = Some (slot m a j).
Proof. intros Hj. unfold contents. rewrite list_lookup_fmap, lookup_seqZ_lt by lia. simpl. do 2 f_equal. lia. Qed.

(** The roles of the pages that [paging_init] takes. *)
Definition table_roles (m : mem) (tabs : list Z) : gmap Z role :=
  list_to_map (imap (fun k a => (a, KernelTable (768 + Z.of_nat k) (contents m a))) tabs).
Definition kernel_own (m : mem) (pd : Z) (tabs : list Z) : gmap Z role := <[pd := KernelDir]> (table_roles m tabs).

Lemma table_roles_lookup m tabs a r : NoDup tabs ->
  table_roles m tabs !! a = Some r <-> exists k, tabs !! k = Some a /\ r = KernelTable (768 + Z.of_nat k) (contents m a).
Proof.
  intros Hnd. unfold table_roles. rewrite <- elem_of_list_to_map.
  - rewrite elem_of_lookup_imap. split.
    + intros (i & x & [= -> ->] & Hx). by exists i.
    + intros (i & Hi & ->). by exists i, a.
  - replace ((imap _ tabs).*1) with tabs; [done|]. apply list_eq. intros i. rewrite list_lookup_fmap, list_lookup_imap. by destruct (tabs !! i).
Qed.

Lemma kernel_own_lookup m pd tabs a r : NoDup (pd :: tabs) ->
  kernel_own m pd tabs !! a = Some r <->
  a = pd /\ r = KernelDir \/ exists k, tabs !! k = Some a /\ r = KernelTable (768 + Z.of_nat k) (contents m a).
Proof.
  intros [Hpd Hnd]%NoDup_cons. unfold kernel_own. rewrite lookup_insert_Some, table_roles_lookup by done. split.
  - intros [[<- <-]|[Hne Hk]]; [by left|by right].
  - intros [[-> ->]|(k & Hk & ->)]; [by left|right]. split; [|by exists k]. intros <-. apply Hpd. by apply (list_elem_of_lookup_2 _ k).
Qed.

(** [paging_init] leaves a directory that maps all of memory for the kernel and
    nothing for the user. *)
Lemma paging_init_run st text_end :
  pages_ok (vm_pages st) -> bytes_ok (vmem st) -> in_ram (init_ram_pages st) (vm_pages st) -> 0 <= init_ram_pages st ->
  1 + (init_ram_pages st + 1023) / 1024 <= Z.of_nat (length (free_pages (vm_pages st))) ->
  exists own st', paging_init text_end st = Done (tt, st') /\
    vm_inv own (mk_space ∅ ∅ None (kernel_entry text_end <$> seqZ 0 (init_ram_pages st))) st'.
Proof.
  intros Hs Hb Hram Hn Hfree. set (n := init_ram_pages st) in *. pose proof (Z.div_pos (n + 1023) 1024).
  destruct (length (free_pages (vm_pages st))) as [|m] eqn:Ef; [lia|].
  destruct (kernel_page (vm_pages st) m Hs Ef) as (pd & s1 & E & Hs1 & Hsh & Hf1 & _ & _ & Hur & Hm).
  assert (E1 : on_vm (palloc_get_page PAL_KERNEL) st = Done (pd, set_vm_pages s1 st)) by (unfold on_vm; rewrite E; reflexivity). clear E.
  pose proof (used_facts s1 pd Hs1 Hur) as [G1 G2 G3 _].
  set (st1 := mk_vm s1 pd n (cr3 st) (tlb st)).
  assert (P0 : progress st1 pd text_end [] 0 s1).
  { constructor; [exact Hs1| |exact (in_ram_shape _ _ _ Hram Hsh)|exact Hur| |apply NoDup_singleton|simpl; lia| | |].
    - rewrite Hm. apply bytes_ok_write; [exact Hb|]. apply Forall_replicate. unfold is_byte. lia.
    - intros a Ha. destruct (not_elem_of_nil a Ha).
    - intros i Hi. rewrite Hm. apply slot_zero; [simpl in Hi; lia|reflexivity].
    - intros k a Hk. discriminate Hk.
    - intros q a Hq. lia. }
  clear Hm. destruct (paging_loop_run st1 pd text_end (Z.to_nat n) 0 [] NULL s1 P0) as (tabs & s' & El & P & Hlen);
    [lia|destruct Hram; lia|reflexivity|intros Hx; destruct (Hx eq_refl)|unfold enough; cbn [length]; rewrite Hf1, Z.add_0_l, Z2Nat.id by lia; lia|].
  rewrite Z.add_0_l, Z2Nat.id in P, Hlen by lia. exists (kernel_own (memory s') pd tabs), (mk_vm s' pd n (pd - PHYS_BASE) ∅). split.
  - unfold paging_init. fold PAL_KERNEL. rewrite (bind_done _ _ _ _ _ E1).
    rewrite (bind_done _ _ _ tt st1) by reflexivity. rewrite (bind_done _ _ _ st1 st1) by reflexivity.
    change (set_vm_pages s1 st1) with st1 in El. change (init_ram_pages st1) with n. rewrite (bind_done _ _ _ _ _ El).
    erewrite bind_done; [|reflexivity]. change (init_page_dir (set_vm_pages s' st1)) with pd.
    rewrite (bind_done _ _ _ (pd - PHYS_BASE) (set_vm_pages s' st1)) by (unfold lift; rewrite (vtop_run pd ltac:(lia)); reflexivity). reflexivity.
  - clear E1 El. pose proof (pr_nodup _ _ _ _ _ _ P) as Hnd. pose proof (kernel_own_lookup (memory s') pd tabs) as Hown.
    constructor; [apply P|apply P| |apply P| |reflexivity| |].
    + intros a r [[-> _]|(k & Hk & _)]%Hown; [apply P| |done]. apply (pr_used _ _ _ _ _ _ P). by apply (list_elem_of_lookup_2 _ k).
    + constructor.
      * apply Hown; [done|by left].
      * intros a [[-> _]|(k & _ & ?)]%Hown; done.
      * intros i Hi. apply (pr_zero _ _ _ _ _ _ P). by left.
      * intros a. split; [|by intros ?%elem_of_empty]. by intros [[_ ?]|(k & _ & ?)]%Hown.
      * intros a. split; [|by intros [? ?]]. by intros [[_ ?]|(k & _ & ?)]%Hown.
      * by intros d i [? ?].
      * done.
      * by intros d i [? ?].
      * intros a d i. by intros [[_ ?]|(k & _ & ?)]%Hown.
      * done.
      * intros a d v. by intros [[_ ?]|(k & _ & ?)]%Hown.
      * intros a i c [[_ ?]|(k & Hk & [= -> ->])]%Hown; [done| |done]. pose proof (lookup_lt_Some _ _ _ Hk). pose proof (pr_len _ _ _ _ _ _ P).
        split_and!; [lia|lia|by apply (pr_pde _ _ _ _ _ _ P)|]. intros j Hj. by apply contents_lookup.
    + intros v c Hc. discriminate Hc.
    + intros p e Hp H0. cbn [kmap] in Hp. rewrite list_lookup_fmap in Hp. apply fmap_Some in Hp as (q & [Eq Hq]%lookup_seqZ & ->). rewrite Z2Nat.id in Eq by lia. subst q. rewrite Z.add_0_l.
      pose proof (Z.div_mod p 1024 ltac:(lia)). pose proof (Z.mod_pos_bound p 1024 ltac:(lia)).
      destruct (lookup_lt_is_Some_2 tabs (Z.to_nat (p / 1024))) as [a Ha].
      { apply Nat2Z.inj_lt. rewrite Hlen, Z2Nat.id by lia. apply Z.div_lt_upper_bound; [lia|]. pose proof (Z.div_mod (n + 1023) 1024 ltac:(lia)). pose proof (Z.mod_pos_bound (n + 1023) 1024 ltac:(lia)). lia. }
      exists a, (contents (memory s') a). split; [apply Hown; [done|]; right; exists (Z.to_nat (p / 1024)); by rewrite Z2Nat.id by lia|].
      rewrite contents_lookup by lia. f_equal. apply (pr_pte _ _ _ _ _ _ P); [lia|done].
Qed.
