(* ===== verification/PagedirProps.v ===== *)
(** * Address spaces

    The page directories of pagedir.c against abstract address spaces: a map from
    user pages to entries per directory, frames that are held but not mapped, and
    one mapping of the kernel that all directories share. *)

From stdpp Require Import options.
From S2P Require Import Prelude Bytes KList Bitmap Mem Str Vaddr Palloc Pagedir PagedirInv PagedirStep PagedirOps PagedirDestroy PagedirInit.
Local Open Scope Z_scope.
Local Open Scope kernel_scope.
#[local] Opaque write.

(** ** The abstract operations *)

Inductive vm_request :=
  | CreateDir
  | DestroyDir (pd : Z)
  | GetFrame (flags : Z)
  | FreeFrame (a : Z)
  | SetPage (pd upage kpage : Z) (writable : bool)
  | GetPage (pd uaddr : Z)
  | ClearPage (pd upage : Z)
  | IsDirty (pd vpage : Z)
  | SetDirty (pd vpage : Z) (dirty : bool)
  | IsAccessed (pd vpage : Z)
  | SetAccessed (pd vpage : Z) (accessed : bool)
  | Activate (d : option Z)
  | FillTlb (vpage : Z).

Definition bool_Z (b : bool) : Z := if b then 1 else 0.

Definition vm_serve (r : vm_request) : MV Z :=
  match r with
  | CreateDir => pagedir_create
  | DestroyDir pd => pagedir_destroy pd ;; ret 0
  | GetFrame flags => on_vm (palloc_get_page flags)
  | FreeFrame a => on_vm (palloc_free_page a) ;; ret 0
  | SetPage pd upage kpage w => let! b := pagedir_set_page pd upage kpage w in ret (bool_Z b)
  | GetPage pd uaddr => pagedir_get_page pd uaddr
  | ClearPage pd upage => pagedir_clear_page pd upage ;; ret 0
  | IsDirty pd vpage => let! b := pagedir_is_dirty pd vpage in ret (bool_Z b)
  | SetDirty pd vpage b => pagedir_set_dirty pd vpage b ;; ret 0
  | IsAccessed pd vpage => let! b := pagedir_is_accessed pd vpage in ret (bool_Z b)
  | SetAccessed pd vpage b => pagedir_set_accessed pd vpage b ;; ret 0
  | Activate d => pagedir_activate (default NULL d) ;; ret 0
  | FillTlb v => tlb_fill v ;; ret 0
  end.

(** User address [a], of page [page_of a], in the address space [abs] of [pd]. *)
Definition page_of (a : Z) : Z := a / 4096.
Definition user_page (sp : space) (pd a : Z) (abs : gmap Z Z) : Prop :=
  dirs sp !! pd = Some abs /\ 0 <= a < PHYS_BASE.

Definition vm_allowed (sp : space) (r : vm_request) : Prop :=
  match r with
  | CreateDir => True
  | DestroyDir pd => is_Some (dirs sp !! pd) /\ active sp <> Some pd
  | GetFrame flags => Z.land flags PAL_ASSERT = 0
  | FreeFrame a => a ∈ held sp
  | SetPage pd upage kpage w => upage mod 4096 = 0 /\ kpage ∈ held sp /\
      exists abs, user_page sp pd upage abs /\ present (entry abs (page_of upage)) = false
  | GetPage pd a | IsDirty pd a | IsAccessed pd a => exists abs, user_page sp pd a abs
  | ClearPage pd a => a mod 4096 = 0 /\ exists abs, user_page sp pd a abs
  | SetDirty pd a _ | SetAccessed pd a _ => exists abs, user_page sp pd a abs /\ is_Some (abs !! page_of a)
  | Activate d => match d with Some pd => is_Some (dirs sp !! pd) | None => True end
  | FillTlb v => 0 <= v < user_pages
  end.

(** The effect of a call with result [res]. *)
Definition vm_spec (sp : space) (r : vm_request) (res : Z) (sp' : space) : Prop :=
  match r with
  | CreateDir =>
      res = NULL /\ sp' = sp \/
      res <> NULL /\ dirs sp !! res = None /\ res ∉ held sp /\
      sp' = mk_space (<[res := ∅]> (dirs sp)) (held sp) (active sp) (kmap sp)
  | DestroyDir pd => res = 0 /\ sp' = mk_space (delete pd (dirs sp)) (held sp) (active sp) (kmap sp)
  | GetFrame flags =>
      res = NULL /\ sp' = sp \/
      res <> NULL /\ res ∉ held sp /\ dirs sp !! res = None /\
      sp' = mk_space (dirs sp) ({[res]} ∪ held sp) (active sp) (kmap sp)
  | FreeFrame a => res = 0 /\ sp' = mk_space (dirs sp) (held sp ∖ {[a]}) (active sp) (kmap sp)
  | SetPage pd upage kpage w =>
      res = 0 /\ sp' = sp \/
      res = 1 /\ exists abs, dirs sp !! pd = Some abs /\
        sp' = mapped_space sp pd abs (page_of upage) (user_entry kpage w) (held sp ∖ {[kpage]})
  | GetPage pd a => sp' = sp /\ exists abs, dirs sp !! pd = Some abs /\
      let e := entry abs (page_of a) in res = if present e then frame_of e + a mod 4096 else NULL
  | ClearPage pd a => res = 0 /\ exists abs, dirs sp !! pd = Some abs /\ sp' = cleared_space sp pd abs (page_of a)
  | IsDirty pd a => sp' = sp /\ exists abs, dirs sp !! pd = Some abs /\ res = bool_Z (negb (Z.land (entry abs (page_of a)) PTE_D =? 0))
  | IsAccessed pd a => sp' = sp /\ exists abs, dirs sp !! pd = Some abs /\ res = bool_Z (negb (Z.land (entry abs (page_of a)) PTE_A =? 0))
  | SetDirty pd a b => res = 0 /\ exists abs, dirs sp !! pd = Some abs /\
      sp' = mapped_space sp pd abs (page_of a) (flagged (entry abs (page_of a)) PTE_D b) (held sp)
  | SetAccessed pd a b => res = 0 /\ exists abs, dirs sp !! pd = Some abs /\
      sp' = mapped_space sp pd abs (page_of a) (flagged (entry abs (page_of a)) PTE_A b) (held sp)
  | Activate d => res = 0 /\ sp' = mk_space (dirs sp) (held sp) d (kmap sp)
  | FillTlb v => res = 0 /\ sp' = sp
  end.

(** The pool that a failed call found full. *)
Definition out_of_pages (r : vm_request) (res : Z) (s : pages) : Prop :=
  match r with
  | CreateDir | SetPage _ _ _ _ => res = 0 -> pool_full false s
  | GetFrame flags => res = 0 -> pool_full (negb (Z.land flags PAL_USER =? 0)) s
  | _ => True
  end.

Definition vm_ok (sp : space) (st : vm) : Prop := exists own, vm_inv own sp st.

(** ** Every operation *)

Lemma user_split sp pd a abs : user_page sp pd a abs -> 0 <= page_of a < user_pages /\ 0 <= a mod 4096 < 4096 /\ a = 4096 * page_of a + a mod 4096.
Proof.
  intros [_ Ha]. unfold page_of, user_pages, PHYS_BASE in *. pose proof (Z.div_mod a 4096 ltac:(lia)). pose proof (Z.mod_pos_bound a 4096 ltac:(lia)). lia.
Qed.

Lemma set_flag_step sp st flag pd a b : vm_ok sp st -> hw_flag flag -> (exists abs, user_page sp pd a abs /\ is_Some (abs !! page_of a)) ->
  exists abs st', pagedir_set_flag flag pd a b st = Done (tt, st') /\ dirs sp !! pd = Some abs /\
    vm_ok (mapped_space sp pd abs (page_of a) (flagged (entry abs (page_of a)) flag b) (held sp)) st'.
Proof.
  intros [own H] Hf (abs & Hu & [e He]). destruct (user_split sp pd a abs Hu) as (Hv & Ho & Ea). destruct Hu as [Hpd _].
  destruct (set_flag_spec own sp st flag pd abs (page_of a) (a mod 4096) e b H Hpd Hv Ho He Hf) as (st' & E & H'). rewrite <- Ea in E.
  exists abs, st'. split_and!; [exact E|exact Hpd|]. exists own. unfold entry. by rewrite He.
Qed.

Lemma create_step sp st : vm_ok sp st ->
  exists res st' sp', pagedir_create st = Done (res, st') /\ vm_spec sp CreateDir res sp' /\ out_of_pages CreateDir res (vm_pages st) /\ vm_ok sp' st'.
Proof.
  intros [own H]. destruct (create_spec own sp st H) as (r & own' & st' & E & _ & [(-> & H' & Hf)|(Hr & Hd & Hh & H')]).
  - exists NULL, st', sp. split_and!; [exact E|by left|intros _; exact Hf|by exists own'].
  - exists r, st'. eexists. split_and!; [exact E|by right|intros ->; done|by exists own'].
Qed.

Lemma frame_step sp st flags : vm_ok sp st -> Z.land flags PAL_ASSERT = 0 ->
  exists res st' sp', on_vm (palloc_get_page flags) st = Done (res, st') /\ vm_spec sp (GetFrame flags) res sp' /\
    out_of_pages (GetFrame flags) res (vm_pages st) /\ vm_ok sp' st'.
Proof.
  intros [own H] Hf. pose proof (vi_tables _ _ _ H) as T.
  destruct (frame_taken own sp st flags H Hf) as (r & st' & E & [(-> & H' & Hfull)|(Hr & Hn & H')] & _).
  - exists NULL, st', sp. split_and!; [exact E|by left|intros _; exact Hfull|by exists own].
  - exists r, st'. eexists. split_and!; [exact E| |intros ->; done|by eexists]. right. split_and!; try done.
    + rewrite <- (to_held _ _ _ _ _ T), Hn. done.
    + destruct (dirs sp !! r) eqn:Ed; [|done]. assert (own !! r = Some Dir) by (apply (to_dir _ _ _ _ _ T); by eexists). congruence.
Qed.

Lemma set_page_step sp st pd upage kpage w : vm_ok sp st -> vm_allowed sp (SetPage pd upage kpage w) ->
  exists res st' sp', vm_serve (SetPage pd upage kpage w) st = Done (res, st') /\ vm_spec sp (SetPage pd upage kpage w) res sp' /\
    out_of_pages (SetPage pd upage kpage w) res (vm_pages st) /\ vm_ok sp' st'.
Proof.
  intros [own H] (Hal & Hk & abs & Hu & Hp). destruct (user_split sp pd upage abs Hu) as (Hv & _ & Ea). destruct Hu as [Hpd _].
  rewrite Hal, Z.add_0_r in Ea.
  destruct (set_page_spec own sp st pd abs (page_of upage) kpage w H Hpd Hv Hk Hp) as (b & own' & st' & E & _ & Hr). rewrite <- Ea in E.
  unfold vm_serve. rewrite (bind_done _ _ _ _ _ E). destruct Hr as [(-> & H' & Hfull)|(-> & H')].
  - exists 0, st', sp. split_and!; [done|by left|intros _; exact Hfull|by exists own'].
  - exists 1, st'. eexists. split_and!; [done| |done|by exists own']. right. split; [done|]. by exists abs.
Qed.

Lemma serve_request sp st r : vm_ok sp st -> vm_allowed sp r ->
  exists res st' sp', vm_serve r st = Done (res, st') /\ vm_spec sp r res sp' /\ out_of_pages r res (vm_pages st) /\ vm_ok sp' st'.
Proof.
  intros Hok Hr. pose proof Hok as [own H]. destruct r as [|pd|flags|a|pd u k w|pd a|pd a|pd a|pd a b|pd a|pd a b|d|v].
  - by apply create_step.
  - destruct Hr as [[abs Hpd] Hact]. destruct (destroy_spec own sp st pd abs H Hpd Hact) as (own' & st' & E & H' & _).
    exists 0, st'. eexists. unfold vm_serve. rewrite (bind_done _ _ _ _ _ E). split_and!; [done|done|done|by exists own'].
  - by apply frame_step.
  - destruct (frame_freed own sp st a H Hr) as (own' & st' & E & H'). exists 0, st'. eexists. unfold vm_serve. rewrite (bind_done _ _ _ _ _ E).
    split_and!; [done|done|done|by exists own'].
  - by apply set_page_step.
  - destruct Hr as (abs & Hu). destruct (user_split sp pd a abs Hu) as (Hv & Ho & Ea). destruct Hu as [Hpd _].
    pose proof (get_page_spec own sp st pd abs _ _ H Hpd Hv Ho) as E. rewrite <- Ea in E. eexists _, st, sp. split_and!; [exact E| |done|done].
    split; [done|]. by exists abs.
  - destruct Hr as (Hal & abs & Hu). destruct (user_split sp pd a abs Hu) as (Hv & _ & Ea). destruct Hu as [Hpd _]. rewrite Hal, Z.add_0_r in Ea.
    destruct (clear_page_spec own sp st pd abs _ H Hpd Hv) as (own' & st' & E & H'). rewrite <- Ea in E. exists 0, st'. eexists. unfold vm_serve.
    rewrite (bind_done _ _ _ _ _ E). split_and!; [done| |done|by exists own']. split; [done|]. by exists abs.
  - destruct Hr as (abs & Hu). destruct (user_split sp pd a abs Hu) as (Hv & Ho & Ea). destruct Hu as [Hpd _].
    pose proof (is_flag_spec own sp st PTE_D pd abs _ _ H Hpd Hv Ho) as E. rewrite <- Ea in E. eexists _, st, sp. unfold vm_serve, pagedir_is_dirty.
    rewrite (bind_done _ _ _ _ _ E). split_and!; [done| |done|done]. split; [done|]. by exists abs.
  - destruct (set_flag_step sp st PTE_D pd a b Hok (or_intror eq_refl) Hr) as (abs & st' & E & Hpd & H'). exists 0, st'. eexists.
    unfold vm_serve, pagedir_set_dirty. rewrite (bind_done _ _ _ _ _ E). split_and!; [done| |done|exact H']. split; [done|]. by exists abs.
  - destruct Hr as (abs & Hu). destruct (user_split sp pd a abs Hu) as (Hv & Ho & Ea). destruct Hu as [Hpd _].
    pose proof (is_flag_spec own sp st PTE_A pd abs _ _ H Hpd Hv Ho) as E. rewrite <- Ea in E. eexists _, st, sp. unfold vm_serve, pagedir_is_accessed.
    rewrite (bind_done _ _ _ _ _ E). split_and!; [done| |done|done]. split; [done|]. by exists abs.
  - destruct (set_flag_step sp st PTE_A pd a b Hok (or_introl eq_refl) Hr) as (abs & st' & E & Hpd & H'). exists 0, st'. eexists.
    unfold vm_serve, pagedir_set_accessed. rewrite (bind_done _ _ _ _ _ E). split_and!; [done| |done|exact H']. split; [done|]. by exists abs.
  - destruct (activate_spec own sp st d H Hr) as (st' & E & H'). exists 0, st'. eexists. unfold vm_serve. rewrite (bind_done _ _ _ _ _ E).
    split_and!; [done|done|done|by exists own].
  - destruct (tlb_fill_spec own sp st v H Hr) as (st' & E & H'). exists 0, st', sp. unfold vm_serve. rewrite (bind_done _ _ _ _ _ E).
    split_and!; [done|done|done|by exists own].
Qed.

(** ** What the hardware sees *)

(** The entry that the processor finds for virtual page [v]. *)
Definition walk (m : mem) (pd v : Z) : Z :=
  let w := word m (pd + 4 * (v / 1024)) in
  if Z.land w PTE_P =? 0 then 0 else word m (Z.land w PTE_ADDR + PHYS_BASE + 4 * (v mod 1024)).

Lemma walk_table m pd v pt : page_facts m pt -> slot m pd (v / 1024) = pt - PHYS_BASE + 7 -> walk m pd v = slot m pt (v mod 1024).
Proof.
  intros [F1 F2 F3 _] E. destruct (frame_align pt F1 ltac:(lia)) as [A1 A2]. destruct (entry_addr _ 7 A2 A1 ltac:(lia)) as [A3 A4].
  unfold walk. fold (slot m pd (v / 1024)). rewrite E, <- A3, entry_flags by done. change PTE_ADDR with 0xfffff000. rewrite A4.
  change (Z.land 7 PTE_P =? 0) with false. cbv iota zeta. unfold slot. f_equal. lia.
Qed.

Lemma walk_user own sp st pd abs v : vm_inv own sp st -> dirs sp !! pd = Some abs -> 0 <= v < user_pages -> walk (vmem st) pd v = entry abs v.
Proof.
  intros H Hpd Hv. destruct (index_range v Hv) as (Hi & Hj & Ev). pose proof (vi_tables _ _ _ H) as T. unfold entry.
  destruct (decide (slot (vmem st) pd (v / 1024) = 0)) as [Hz|Hz].
  - unfold walk. fold (slot (vmem st) pd (v / 1024)). rewrite Hz. change (Z.land 0 PTE_P =? 0) with true.
    rewrite Ev, (to_empty _ _ _ _ _ T pd abs) by done. done.
  - destruct (to_entry _ _ _ _ _ T pd (v / 1024)) as (pt & Hpt & E); [by eexists|done|done|].
    rewrite (walk_table _ pd v pt (own_facts own sp st pt _ H Hpt) E).
    destruct (to_table _ _ _ _ _ T pt pd _ Hpt) as (abs' & Hd & _ & _ & _ & Hw). rewrite Hpd in Hd. injection Hd as <-. rewrite Hw by done. by rewrite <- Ev.
Qed.

Lemma walk_kernel own sp st pd p e : vm_inv own sp st -> pd = init_page_dir st \/ is_Some (dirs sp !! pd) ->
  kmap sp !! Z.to_nat p = Some e -> 0 <= p -> walk (vmem st) pd (786432 + p) = e.
Proof.
  intros H Hpd Hp H0. pose proof (vi_tables _ _ _ H) as T. destruct (vi_kernel _ _ _ H p e Hp H0) as (a & c & Ha & Hc).
  destruct (to_ktab _ _ _ _ _ T a _ c Ha) as (Hi & Hw & Hj). pose proof (Z.mod_pos_bound p 1024 ltac:(lia)) as Hm.
  assert (Ed : (786432 + p) / 1024 = 768 + p / 1024) by (replace (786432 + p) with (p + 768 * 1024) by lia; rewrite Z.div_add by lia; lia).
  assert (Em : (786432 + p) mod 1024 = p mod 1024) by (replace (786432 + p) with (p + 768 * 1024) by lia; apply Z_mod_plus_full).
  assert (Hw' : slot (vmem st) pd ((786432 + p) / 1024) = a - PHYS_BASE + 7).
  { rewrite Ed. destruct Hpd as [->|Hd]; [exact Hw|]. rewrite (to_kernel _ _ _ _ _ T) by done. exact Hw. }
  rewrite (walk_table _ pd _ a (own_facts own sp st a _ H Ha) Hw'), Em. specialize (Hj _ Hm). congruence.
Qed.

(** ** Starting *)

Lemma boot s n limit kws uws te :
  ram n limit kws uws (memory s) -> bytes_ok (memory s) ->
  (let k := n - 256 - Z.min limit ((n - 256) / 2) in 1 + (n + 1023) / 1024 <= k - bm_pages k) ->
  exists s1 st, palloc_init n limit kws uws s = Done (tt, s1) /\ paging_init te (mk_vm s1 NULL n 0 ∅) = Done (tt, st) /\
    vm_ok (mk_space ∅ ∅ None (kernel_entry te <$> seqZ 0 n)) st.
Proof.
  intros Hram Hb Hk.
  destruct (palloc_init_run s n limit kws uws Hram) as (s1 & E & Hs & Hm & Hfk & _ & Hcnt). cbv zeta in Hcnt, Hk.
  destruct Hram as [Hn Hl _ _ _].
  assert (Hu : 0 <= Z.min limit ((n - 256) / 2)) by (apply Z.min_glb; [lia|apply Z.div_pos; lia]). set (u := Z.min limit ((n - 256) / 2)) in *. set (k := n - 256 - u) in *. destruct Hcnt as ((C1 & C2) & B1 & B2).
  destruct (paging_init_run (mk_vm s1 NULL n 0 ∅) te) as (own & st & E2 & H2).
  - exact Hs.
  - unfold vmem. cbn [vm_pages]. rewrite Hm. exact Hb.
  - split; cbn [init_ram_pages vm_pages]; [lia|]. intros [|]; cbn [get_pool]; [rewrite B2, C2|rewrite B1, C1]; unfold k; lia.
  - cbn [init_ram_pages]. lia.
  - cbn [init_ram_pages vm_pages]. unfold free_pages. rewrite filter_all; [rewrite length_seqZ, C1; lia|].
    intros i Hi%elem_of_seqZ. apply Hfk. lia.
  - exists s1, st. split_and!; [exact E|exact E2|by exists own].
Qed.

(** ** Theorems *)

(** C3: Address spaces.  After [palloc_init] and [paging_init], which map all of
    memory for the kernel, every call of pagedir.c behaves as the corresponding
    operation on abstract address spaces, never faults, and fails only when the
    pool it takes a page from is full.  Calls on one directory leave the others
    alone. *)
Theorem pagedir_simulates :
  (forall s n limit kws uws text_end,
     ram n limit kws uws (memory s) -> bytes_ok (memory s) ->
     (let k := n - 256 - Z.min limit ((n - 256) / 2) in 1 + (n + 1023) / 1024 <= k - bm_pages k) ->
     exists s1 st, palloc_init n limit kws uws s = Done (tt, s1) /\ paging_init text_end (mk_vm s1 NULL n 0 ∅) = Done (tt, st) /\
       vm_ok (mk_space ∅ ∅ None (kernel_entry text_end <$> seqZ 0 n)) st) /\
  (forall sp st r, vm_ok sp st -> vm_allowed sp r ->
     exists res st' sp', vm_serve r st = Done (res, st') /\ vm_spec sp r res sp' /\ out_of_pages r res (vm_pages st) /\ vm_ok sp' st').
Proof.
  split; [intros s n limit kws uws te; apply boot|exact serve_request].
Qed.


(** ** Witnesses *)

(** A process with one page, on a machine with sixteen pages above 1 MB. *)
Definition demo_boot (m : mem) : outcome (unit * vm) :=
  match palloc_init 272 (2 ^ 32 - 1) [0] [0] (small_machine m) with
  | Done (_, s) => paging_init (PHYS_BASE + 0x12000) (mk_vm s NULL 272 0 ∅)
  | Fault f => Fault f
  end.

Definition demo_process : MV (list Z) :=
  let! pd := vm_serve CreateDir in
  let! f := vm_serve (GetFrame PAL_USER) in
  let! b := vm_serve (SetPage pd 0x8048000 f true) in
  ret [pd; f; b].

Definition results_ok (o : outcome (list Z * vm)) : bool :=
  match o with Done (rs, _) => forallb (fun r => negb (r =? 0)) rs | Fault _ => false end.

Definition demo_ok (m : mem) : bool :=
  match demo_boot m with Done (_, st) => results_ok (demo_process st) | Fault _ => false end.

Lemma demo_succeeds : demo_ok (zero_ram 272) = true.
Proof. vm_compute. reflexivity. Qed.

Lemma demo_ok_boot m s st : palloc_init 272 (2 ^ 32 - 1) [0] [0] (small_machine m) = Done (tt, s) ->
  paging_init (PHYS_BASE + 0x12000) (mk_vm s NULL 272 0 ∅) = Done (tt, st) -> demo_ok m = results_ok (demo_process st).
Proof. intros E1 E2. unfold demo_ok, demo_boot. by rewrite E1, E2. Qed.

Lemma demo_ram : ram 272 (2 ^ 32 - 1) [0] [0] (zero_ram 272).
Proof. constructor; [lia|lia|exact (zero_ram_mapped 272)|split; [done|by repeat constructor]..]. Qed.

Lemma demo_pages : let k := 272 - 256 - Z.min (2 ^ 32 - 1) ((272 - 256) / 2) in 1 + (272 + 1023) / 1024 <= k - bm_pages k.
Proof. vm_compute. discriminate. Qed.

Lemma results_bind (m : MV Z) (k : Z -> MV (list Z)) st r st' : m st = Done (r, st') ->
  results_ok (bind m k st) = results_ok (k r st').
Proof. intros E. by rewrite (bind_done _ _ _ _ _ E). Qed.

Lemma results_last (m : MV Z) pd f st : results_ok (bind m (fun b => ret [pd; f; b]) st) = true ->
  pd <> 0 /\ f <> 0 /\ exists b st', m st = Done (b, st') /\ b <> 0.
Proof.
  unfold bind. destruct (m st) as [[b st']|]; [|done]. unfold ret, results_ok, forallb. intros H. split_and!; [lia|lia|]. exists b, st'. split; [done|lia].
Qed.

Lemma demo_space : exists sp st pd f, vm_ok sp st /\ dirs sp !! pd = Some {[0x8048 := user_entry f true]}.
Proof.
  destruct (boot (small_machine (zero_ram 272)) _ _ _ _ (PHYS_BASE + 0x12000) demo_ram (zero_ram_bytes 272) demo_pages) as (s1 & st0 & E & E0 & H0).
  pose proof (eq_trans (eq_sym (demo_ok_boot _ _ _ E E0)) demo_succeeds) as D. clear E E0. revert H0 D.
  generalize (kernel_entry (PHYS_BASE + 0x12000) <$> seqZ 0 272). intros km H0 D. unfold demo_process in D.
  destruct (serve_request _ _ CreateDir H0 I) as (pd & st1 & sp1 & E1 & S1 & _ & H1). rewrite (results_bind _ _ _ _ _ E1) in D. clear E1.
  destruct (serve_request _ _ (GetFrame PAL_USER) H1 eq_refl) as (f & st2 & sp2 & E2 & S2 & _ & H2). rewrite (results_bind _ _ _ _ _ E2) in D. clear E2.
  apply results_last in D as (Hpd & Hf & b & st3 & E3 & Hb).
  destruct S1 as [[? _]|(_ & _ & _ & ->)]; [done|]. destruct S2 as [[? _]|(_ & _ & _ & ->)]; [done|].
  destruct (serve_request _ _ (SetPage pd 0x8048000 f true) H2) as (b' & st' & sp' & E' & S' & _ & H').
  { split; [done|]. split; [cbn; set_solver|]. exists ∅. split; [split; [apply lookup_insert_eq|done]|done]. }
  rewrite E3 in E'. injection E' as <- <-. destruct S' as [[? _]|(_ & abs & Habs & ->)]; [done|].
  cbn [dirs] in Habs. rewrite lookup_insert_eq in Habs. injection Habs as <-.
  exists (mapped_space (mk_space (<[pd:=∅]> ∅) ({[f]} ∪ ∅) None km) pd ∅ (page_of 0x8048000) (user_entry f true) (({[f]} ∪ ∅) ∖ {[f]})), st3, pd, f.
  split; [exact H'|]. cbn [dirs mapped_space]. rewrite lookup_insert_eq. done.
Qed.

Lemma pagedir_simulates_witness :
  exists st sp res st' sp', demo_boot (zero_ram 272) = Done (tt, st) /\ vm_serve CreateDir st = Done (res, st') /\
    vm_spec sp CreateDir res sp' /\ vm_ok sp' st'.
Proof.
  destruct pagedir_simulates as [Hboot Hstep].
  destruct (Hboot (small_machine (zero_ram 272)) _ _ _ _ (PHYS_BASE + 0x12000) demo_ram (zero_ram_bytes 272) demo_pages) as (s1 & st & E & E0 & H).
  destruct (Hstep _ _ CreateDir H I) as (res & st' & sp' & E1 & S1 & _ & H1).
  exists st, (mk_space ∅ ∅ None (kernel_entry (PHYS_BASE + 0x12000) <$> seqZ 0 272)), res, st', sp'.
  split_and!; [unfold demo_boot; rewrite E; exact E0|exact E1|exact S1|exact H1].
Defined.

