(* ===== verification/Load.v ===== *)
(** * userprog/process.c: loading a program

    [load] opens an executable, reads its ELF headers, maps its segments and a
    stack in a new page directory.  It runs over the pages and page directories
    of Pagedir.v and the file system of Filesys.v side by side; the fields of
    the running thread that it uses are [pagedir] and [executable].

    Messages are left out, and [tss_update], which sets the kernel's stack. *)

From stdpp Require Import options.
From S2P Require Import Prelude Bytes KList Bitmap Mem Str Vaddr Palloc Pagedir Block Store Inode File FreeMap Directory Filesys.
Local Open Scope Z_scope.
Local Open Scope kernel_scope.

(** ** ELF headers *)

(** [struct Elf32_Ehdr] *)
Definition sizeof_ehdr : Z := 52.
Definition e_ident (h : list Z) : list Z := slice 0 16 h.
Definition e_type (h : list Z) : Z := le_decode (slice 16 2 h).
Definition e_machine (h : list Z) : Z := le_decode (slice 18 2 h).
Definition e_version (h : list Z) : Z := le_decode (slice 20 4 h).
Definition e_entry (h : list Z) : Z := le_decode (slice 24 4 h).
Definition e_phoff (h : list Z) : Z := le_decode (slice 28 4 h).
Definition e_phentsize (h : list Z) : Z := le_decode (slice 42 2 h).
Definition e_phnum (h : list Z) : Z := le_decode (slice 44 2 h).

(** [struct Elf32_Phdr] *)
Definition sizeof_phdr : Z := 32.
Definition p_type (h : list Z) : Z := le_decode (slice 0 4 h).
Definition p_offset (h : list Z) : Z := le_decode (slice 4 4 h).
Definition p_vaddr (h : list Z) : Z := le_decode (slice 8 4 h).
Definition p_filesz (h : list Z) : Z := le_decode (slice 16 4 h).
Definition p_memsz (h : list Z) : Z := le_decode (slice 20 4 h).
Definition p_flags (h : list Z) : Z := le_decode (slice 24 4 h).

Definition PT_LOAD : Z := 1.
Definition PT_DYNAMIC : Z := 2.
Definition PT_INTERP : Z := 3.
Definition PT_SHLIB : Z := 5.
Definition PF_W : Z := 2.

(** "\177ELF\1\1\1" *)
Definition elf_magic : list Z := [127; 69; 76; 70; 1; 1; 1].

(** The test of the executable header, given as many bytes as were read. *)
Definition bad_ehdr (h : list Z) : bool :=
  negb (Z.of_nat (length h) =? sizeof_ehdr) || negb (bool_decide (take 7 (e_ident h) = elf_magic)) ||
  negb (e_type h =? 2) || negb (e_machine h =? 3) || negb (e_version h =? 1) ||
  negb (e_phentsize h =? sizeof_phdr) || (1024 <? e_phnum h).

(** [ROUND_UP] of round.h, in 32 bits. *)
Definition round_up (x step : Z) : Z := u32 (u32 (x + step - 1) / step * step).

(** The tests of [validate_segment] from the length of the file on. *)
Definition valid_range (phdr : list Z) (length : Z) : bool :=
  if u32 length <? p_offset phdr then false
  else if p_memsz phdr <? p_filesz phdr then false
  else if p_memsz phdr =? 0 then false
  else if negb (is_user_vaddr (p_vaddr phdr)) then false
  else if negb (is_user_vaddr (u32 (p_vaddr phdr + p_memsz phdr))) then false
  else if u32 (p_vaddr phdr + p_memsz phdr) <? p_vaddr phdr then false
  else if p_vaddr phdr <? PGSIZE then false
  else true.

(** ** The machine *)

Record machine (S : Type) := mk_machine { m_vm : vm; m_fs : fs S; pagedir : Z; executable : Z }.
Arguments mk_machine {S}.
Arguments m_vm {S}.
Arguments m_fs {S}.
Arguments pagedir {S}.
Arguments executable {S}.

Section code.
Context {St : Type} `{!SectorStore St} (al : allocator St) (depth : nat).
Abbreviation ML := (M (machine St)).

Definition vm_do {A} (f : MV A) : ML A := fun x =>
  match f (m_vm x) with
  | Done (a, v) => Done (a, mk_machine v (m_fs x) (pagedir x) (executable x))
  | Fault e => Fault e
  end.

Definition fs_do {A} (f : M (fs St) A) : ML A := fun x =>
  match f (m_fs x) with
  | Done (a, g) => Done (a, mk_machine (m_vm x) g (pagedir x) (executable x))
  | Fault e => Fault e
  end.

Definition set_pagedir (pd : Z) : ML unit := modify (fun x => mk_machine (m_vm x) (m_fs x) pd (executable x)).
Definition set_executable (file : Z) : ML unit := modify (fun x => mk_machine (m_vm x) (m_fs x) (pagedir x) file).

Definition process_activate : ML unit := let! x := get in vm_do (pagedir_activate (pagedir x)).

Definition install_page (upage kpage : Z) (writable : bool) : ML bool :=
  let! x := get in
  let! page := vm_do (pagedir_get_page (pagedir x) upage) in
  if page =? NULL then vm_do (pagedir_set_page (pagedir x) upage kpage writable) else ret false.

Definition setup_stack : ML (option Z) :=
  let! kpage := vm_do (on_vm (palloc_get_page (Z.lor PAL_USER PAL_ZERO))) in
  if negb (kpage =? NULL) then
    let! success := install_page (PHYS_BASE - PGSIZE) kpage true in
    if success : bool then ret (Some PHYS_BASE) else vm_do (on_vm (palloc_free_page kpage)) ;; ret None
  else ret None.

(** [file_read] stores what it reads at [kpage]. *)
Definition read_page (file kpage n : Z) : ML Z :=
  let! data := fs_do (file_read file n) in
  vm_do (on_vm (on_mem (store_bytes kpage data))) ;;
  ret (Z.of_nat (length data)).

Fixpoint load_segment_loop (fuel : nat) (file upage read_bytes zero_bytes : Z) (writable : bool) : ML bool :=
  match fuel with
  | O => fail OutOfFuel
  | S fuel =>
      if (0 <? read_bytes) || (0 <? zero_bytes) then
        let page_read_bytes := if read_bytes <? PGSIZE then read_bytes else PGSIZE in
        let page_zero_bytes := PGSIZE - page_read_bytes in
        let! kpage := vm_do (on_vm (palloc_get_page PAL_USER)) in
        if kpage =? NULL then ret false
        else
          let! n := read_page file kpage page_read_bytes in
          if negb (n =? page_read_bytes) then vm_do (on_vm (palloc_free_page kpage)) ;; ret false
          else
            vm_do (on_vm (on_mem (memset (kpage + page_read_bytes) 0 page_zero_bytes))) ;;
            let! b := install_page upage kpage writable in
            if negb b then vm_do (on_vm (palloc_free_page kpage)) ;; ret false
            else load_segment_loop fuel file (u32 (upage + PGSIZE)) (u32 (read_bytes - page_read_bytes)) (u32 (zero_bytes - page_zero_bytes)) writable
      else ret true
  end.

(** One iteration for each page. *)
Definition load_segment (file ofs upage read_bytes zero_bytes : Z) (writable : bool) : ML bool :=
  assert (u32 (read_bytes + zero_bytes) mod PGSIZE =? 0) ;;
  assert (pg_ofs upage =? 0) ;;
  assert (Z.rem ofs PGSIZE =? 0) ;;
  fs_do (file_seek file ofs) ;;
  load_segment_loop (S (Z.to_nat ((read_bytes + zero_bytes) / PGSIZE))) file upage read_bytes zero_bytes writable.

Definition validate_segment (phdr : list Z) (file : Z) : ML bool :=
  if negb (Z.land (p_offset phdr) PGMASK =? Z.land (p_vaddr phdr) PGMASK) then ret false
  else let! length := fs_do (file_length file) in ret (valid_range phdr length).

(** The case [PT_LOAD]. *)
Definition load_phdr (file : Z) (phdr : list Z) : ML bool :=
  let! valid := validate_segment phdr file in
  if valid : bool then
    let writable := negb (Z.land (p_flags phdr) PF_W =? 0) in
    let file_page := Z.land (p_offset phdr) (u32 (Z.lnot PGMASK)) in
    let mem_page := Z.land (p_vaddr phdr) (u32 (Z.lnot PGMASK)) in
    let page_offset := Z.land (p_vaddr phdr) PGMASK in
    let '(read_bytes, zero_bytes) :=
      if 0 <? p_filesz phdr then
        let read_bytes := u32 (page_offset + p_filesz phdr) in
        (read_bytes, u32 (round_up (u32 (page_offset + p_memsz phdr)) PGSIZE - read_bytes))
      else (0, round_up (u32 (page_offset + p_memsz phdr)) PGSIZE) in
    load_segment file (i32 file_page) mem_page read_bytes zero_bytes writable
  else ret false.

(** [for (i = 0; i < ehdr.e_phnum; i++)], [n] headers to go; false for [goto
    done]. *)
Fixpoint load_phdrs (n : nat) (file file_ofs : Z) : ML bool :=
  match n with
  | O => ret true
  | S n =>
      let! length := fs_do (file_length file) in
      if (file_ofs <? 0) || (length <? file_ofs) then ret false
      else
        fs_do (file_seek file file_ofs) ;;
        let! phdr := fs_do (file_read file sizeof_phdr) in
        if negb (Z.of_nat (List.length phdr) =? sizeof_phdr) then ret false
        else
          let file_ofs := i32 (file_ofs + sizeof_phdr) in
          if (p_type phdr =? PT_DYNAMIC) || (p_type phdr =? PT_INTERP) || (p_type phdr =? PT_SHLIB) then ret false
          else if p_type phdr =? PT_LOAD then
            let! b := load_phdr file phdr in
            if b : bool then load_phdrs n file file_ofs else ret false
          else load_phdrs n file file_ofs
  end.

(** The entry point and the stack pointer on success.  [frame] is the
    uninitialised name array of [filesys_open]. *)
Definition load (frame file_name : list Z) : ML (option (Z * Z)) :=
  let! pd := vm_do pagedir_create in
  set_pagedir pd ;;
  if pd =? NULL then ret None
  else
    process_activate ;;
    let! (file, _) := fs_do (filesys_open al depth frame file_name false) in
    if file =? NULL then ret None
    else
      set_executable file ;;
      fs_do (file_deny_write file) ;;
      let! ehdr := fs_do (file_read file sizeof_ehdr) in
      if bad_ehdr ehdr then ret None
      else
        let! b := load_phdrs (Z.to_nat (e_phnum ehdr)) file (i32 (e_phoff ehdr)) in
        if negb b then ret None
        else
          let! esp := setup_stack in
          match esp with
          | None => ret None
          | Some esp => ret (Some (e_entry ehdr, esp))
          end.
End code.
