(* ===== verification/LoadSteps.v ===== *)
(** * Loading: the steps

    Taking a frame, filling it from the executable and mapping it, with what
    each step does to the address spaces, to the contents of their pages and to
    the open executable. *)

From stdpp Require Import options.
From S2P Require Import Prelude Bytes KList Bitmap Mem Str Vaddr Palloc Pagedir PagedirInv PagedirStep PagedirOps PagedirDestroy PagedirInit PagedirProps.
From S2P Require Import Block Store Inode InodeTree InodeGrow InodeShrink InodeResize InodeRollback InodeExtend InodeIO InodeWrite InodeLife File FreeMap.
From S2P Require Import FileProps Directory DirSpec NameInv PathWalk FileSteps Args Filesys Load.
Local Open Scope Z_scope.
Local Open Scope kernel_scope.
#[local] Opaque write.

(** ** Held frames *)

Definition hold (sp : space) (k : Z) : space := mk_space (PagedirInv.dirs sp) ({[k]} ∪ held sp) (active sp) (kmap sp).

(** Contents of a page of data can be written. *)
Lemma data_written own sp st k o l : vm_inv own sp st -> data_page sp k -> 0 <= o -> o + Z.of_nat (length l) <= 4096 -> Forall is_byte l ->
  vm_inv own sp (with_mem (write (k + o) l (vmem st)) st).
Proof.
  intros H Hk Ho Hl Hb. assert (Hown : exists r, own !! k = Some r /\ is_data r = true).
  { destruct (data_owner own sp st k H Hk) as [E|(pd & v & E)]; eexists; by split. }
  destruct Hown as (rk & Hown & Hrk). destruct (own_facts own sp st k _ H Hown) as [F1 _ _ _].
  assert (Hoth : forall a r j, own !! a = Some r -> is_data r = false -> 0 <= j < 1024 -> slot (write (k + o) l (vmem st)) a j = slot (vmem st) a j).
  { intros a r j Ha Hr Hj. destruct (own_facts own sp st a r H Ha) as [G1 _ _ _]. assert (a <> k) by congruence.
    apply (slot_other _ _ k); [|exact F1|exact G1|done|exact Hj]. eapply only_within_mono; [apply write_only|lia|lia]. }
  destruct H as [B1 B2 B3 B4 B5 B6 B7 B8]. constructor; [by apply pages_ok_write|by apply bytes_ok_write|exact B3|exact B4| |exact B6|exact B7|exact B8].
  exact (tables_data _ _ _ _ _ _ B5 Hoth).
Qed.

Lemma data_not_held sp st k a : vm_ok (hold sp k) st -> k ∉ held sp -> data_page sp a -> a <> k.
Proof.
  intros [own H] Hk Ha ->. pose proof (vi_tables _ _ _ H) as T. destruct Ha as [Ha|(pd & abs & v & e & Hd & Hv & Hp & E)]; [done|].
  assert (O1 : own !! k = Some Held) by (apply (to_held _ _ _ _ _ T); cbn; set_solver).
  assert (O2 : own !! k = Some (Frame pd v)) by (rewrite E; by apply (to_pte _ _ _ _ _ T pd abs v e)). congruence.
Qed.

Lemma data_hold sp k a : data_page sp a -> data_page (hold sp k) a.
Proof. intros [Ha|Ha]; [left; cbn; set_solver|by right]. Qed.

Lemma held_store sp st k o l : vm_ok (hold sp k) st -> k ∉ held sp -> 0 <= o -> o + Z.of_nat (length l) <= 4096 -> Forall is_byte l ->
  let st' := with_mem (write (k + o) l (vmem st)) st in
  vm_ok (hold sp k) st' /\ data_kept sp st st' /\ mapped (vmem st) (k + o) (length l) /\ 0 < k.
Proof.
  intros Hst Hk Ho Hl Hb st'. pose proof Hst as [own H]. assert (Hin : k ∈ held (hold sp k)) by (cbn; set_solver).
  pose proof (data_facts own _ st k H (or_introl Hin)) as [F1 F2 F3 F4]. split_and!.
  - exists own. apply data_written; [exact H|by left|exact Ho|exact Hl|exact Hb].
  - intros a Ha x Hx. change (vmem st') with (write (k + o) l (vmem st)). rewrite lookup_write, decide_False; [reflexivity|]. intros Hw.
    destruct (data_facts own _ st a H (data_hold sp k a Ha)) as [G1 _ _ _].
    exact (pages_differ a k x (a + x - k) G1 F1 (data_not_held sp st k a Hst Hk Ha) Hx ltac:(lia) ltac:(lia)).
  - eapply mapped_sub; [exact F4|lia|lia].
  - unfold PHYS_BASE in F2. lia.
Qed.

(** ** The machine *)

Section machine.
Context {St : Type} `{!SectorStore St} {q pm : Z} {im : inode} {priv : Z -> Prop}.
Context (L : list Z) (H : list (Z * Z)) (x p s pd : Z).
Implicit Types (sp : space) (u : machine St) (k v : Z).
Abbreviation names_ok := (names_ok (q := q) (pm := pm) (im := im) (priv := priv)).

(** The machine while the executable [x], the file at [s], is loaded into the
    directory [pd]. *)
Record loading (sp : space) (pos : Z) (u : machine St) : Prop := {
  lo_vm : vm_ok sp (m_vm u);
  lo_fs : names_ok L H (m_fs u);
  lo_file : handle (q := q) (pm := pm) (m_fs u) x p s pos true;
  lo_pd : pagedir u = pd
}.

(** What a step may change beside the address spaces. *)
Definition changed (u u' : machine St) : Prop := only_handle (m_fs u) (m_fs u') x /\ executable u' = executable u.

Lemma changed_trans u1 u2 u3 : changed u1 u2 -> changed u2 u3 -> changed u1 u3.
Proof. intros [A1 A2] [B1 B2]. split; [exact (only_handle_trans _ _ _ _ A1 B1)|congruence]. Qed.

Definition with_vm (u : machine St) (st : vm) : machine St := mk_machine st (m_fs u) (pagedir u) (executable u).

Lemma vm_do_run {A} (f : MV A) u a st : f (m_vm u) = Done (a, st) -> vm_do f u = Done (a, with_vm u st).
Proof. intros E. unfold vm_do. by rewrite E. Qed.

Lemma loading_vm sp sp' pos u st : loading sp pos u -> vm_ok sp' st -> loading sp' pos (with_vm u st).
Proof. intros [H1 H2 H3 H4] Hst. by split. Qed.

Lemma changed_vm sp pos u st : loading sp pos u -> changed u (with_vm u st).
Proof. intros Hu. split; [|done]. split_and!; [|done..]. apply same_disk_refl. exact (inv_store L _ (no_inv _ _ _ (lo_fs _ _ _ Hu))). Qed.

Lemma get_frame sp pos u flags : loading sp pos u -> Z.land flags PAL_ASSERT = 0 ->
  exists k st, vm_do (on_vm (palloc_get_page flags)) u = Done (k, with_vm u st) /\ data_kept sp (m_vm u) st /\
    (k = NULL /\ vm_ok sp st \/ k <> NULL /\ k ∉ held sp /\ vm_ok (hold sp k) st /\
      (Z.land flags PAL_ZERO <> 0 -> forall o, 0 <= o < 4096 -> vmem st !! (k + o) = Some 0)).
Proof.
  intros Hu Hf. pose proof (lo_vm _ _ _ Hu) as [own Hi]. destruct (frame_taken own sp (m_vm u) flags Hi Hf) as (k & st & E & Hr & Hd & Hz).
  exists k, st. split_and!; [by apply vm_do_run|exact Hd|]. destruct Hr as [(-> & Hok & _)|(Hk & Hn & Hok)]; [left; split; [done|by exists own]|right].
  split_and!; [exact Hk| |eexists; exact Hok|by apply Hz]. rewrite <- (to_held _ _ _ _ _ (vi_tables _ _ _ Hi)), Hn. done.
Qed.

Lemma free_frame sp pos u k : loading (hold sp k) pos u -> k ∉ held sp ->
  exists st, vm_do (on_vm (palloc_free_page k)) u = Done (tt, with_vm u st) /\ data_kept sp (m_vm u) st /\ vm_ok sp st.
Proof.
  intros Hu Hk. pose proof (lo_vm _ _ _ Hu) as [own Hi]. assert (Hin : k ∈ held (hold sp k)) by (cbn; set_solver).
  destruct (frame_freed own _ (m_vm u) k Hi Hin) as (own' & st & E & Hok). exists st. split_and!; [by apply vm_do_run| |].
  - assert (Hown : own !! k = Some Held) by by apply (to_held _ _ _ _ _ (vi_tables _ _ _ Hi)).
    destruct (free_page_run (vm_pages (m_vm u)) k (vi_pages _ _ _ Hi) (vi_used _ _ _ Hi k _ Hown)) as (s' & E' & _ & _ & _ & Hm).
    unfold on_vm in E. rewrite E' in E. injection E as <-. intros a Ha o Ho. change (vmem (set_vm_pages s' (m_vm u))) with (memory s').
    rewrite Hm, lookup_write, length_replicate, decide_False; [reflexivity|]. intros Hw.
    destruct (data_facts own _ _ a Hi (data_hold sp k a Ha)) as [G1 _ _ _]. destruct (data_facts own _ _ k Hi (or_introl Hin)) as [F1 _ _ _].
    exact (pages_differ a k o (a + o - k) G1 F1 (data_not_held sp _ k a (lo_vm _ _ _ Hu) Hk Ha) Ho ltac:(lia) ltac:(lia)).
  - exists own'. cbn [hold PagedirInv.dirs held active kmap] in Hok. replace (({[k]} ∪ held sp) ∖ {[k]}) with (held sp) in Hok by (apply set_eq; set_solver).
    by destruct sp.
Qed.

(** Reading [n] bytes of the file into the held frame [k]. *)
Lemma read_frame sp pos u k n : loading (hold sp k) pos u -> k ∉ held sp -> 0 <= pos < 2 ^ 31 - MAX_FILE_BYTES -> 0 <= n <= 4096 ->
  let data := file_slice (m_fs u) s n pos in
  exists u', read_page x k n u = Done (Z.of_nat (length data), u') /\ loading (hold sp k) (pos + Z.of_nat (length data)) u' /\ changed u u' /\
    data_kept sp (m_vm u) (m_vm u') /\ bytes_at (vmem (m_vm u')) k data.
Proof.
  intros Hu Hk Hpos Hn data. destruct Hu as [H1 H2 H3 H4]. destruct (file_read_step L H (m_fs u) x p s pos true n H2 H3 Hpos ltac:(lia)) as (g & E & N1 & N2 & N3).
  fold data in E, N2. destruct (handle_opened L H (m_fs u) x p s pos true H2 H3) as (i & Es & Ho & _).
  assert (Hb : Forall is_byte data).
  { apply Forall_forall. intros b Hin. unfold data, file_slice in Hin. apply list_elem_of_In, in_map_iff in Hin as (j & <- & _). apply file_byte_byte. exact (inv_store L _ (no_inv _ _ _ H2)). }
  assert (Hlen : Z.of_nat (length data) <= n) by (unfold data, file_slice; rewrite length_map, length_seqZ; lia).
  destruct (held_store sp (m_vm u) k 0 data H1 Hk ltac:(lia) ltac:(lia) Hb) as (V1 & V2 & V3 & _). rewrite Z.add_0_r in V1, V2, V3.
  exists (mk_machine (with_mem (write k data (vmem (m_vm u))) (m_vm u)) g (pagedir u) (executable u)).
  split; [|split_and!; [by split|split; [exact N3|done]|exact V2|apply write_bytes]]. unfold read_page.
  rewrite (bind_done _ _ u data (mk_machine (m_vm u) g (pagedir u) (executable u))) by (unfold fs_do; by rewrite E).
  rewrite (bind_done _ _ _ tt (mk_machine (with_mem (write k data (vmem (m_vm u))) (m_vm u)) g (pagedir u) (executable u))); [reflexivity|].
  unfold vm_do, on_vm, on_mem. cbn [m_vm]. change (memory (vm_pages (m_vm u))) with (vmem (m_vm u)). by rewrite (store_bytes_run data _ k V3 Hb).
Qed.

Lemma zero_frame sp pos u k o n : loading (hold sp k) pos u -> k ∉ held sp -> 0 <= o -> 0 <= n -> o + n <= 4096 ->
  exists st, vm_do (on_vm (on_mem (memset (k + o) 0 n))) u = Done (k + o, with_vm u st) /\ vm_ok (hold sp k) st /\ data_kept sp (m_vm u) st /\
    vmem st = write (k + o) (replicate (Z.to_nat n) 0) (vmem (m_vm u)).
Proof.
  intros Hu Hk Ho Hn Hl. assert (Hz : Forall is_byte (replicate (Z.to_nat n) 0)) by (apply Forall_replicate; unfold is_byte; lia).
  destruct (held_store sp (m_vm u) k o (replicate (Z.to_nat n) 0) (lo_vm _ _ _ Hu) Hk Ho ltac:(rewrite length_replicate; lia) Hz) as (V1 & V2 & V3 & V4).
  rewrite length_replicate in V3. eexists. split; [|split_and!; [exact V1|exact V2|reflexivity]]. apply vm_do_run. unfold on_vm, on_mem, memset, block_assert, NULL.
  change (memory (vm_pages (m_vm u))) with (vmem (m_vm u)). rewrite assert_true by (by rewrite (proj2 (Z.eqb_neq (k + o) 0)) by lia).
  by rewrite (bind_done _ _ _ _ _ (memset_zero _ _ _ V3)).
Qed.

(** ** Mapping a frame *)

Definition with_abs (sp : space) (abs : gmap Z Z) : space := mk_space (<[pd := abs]> (PagedirInv.dirs sp)) (held sp) (active sp) (kmap sp).

Definition user_mapping (k : Z) (w : bool) : Prop := present (user_entry k w) = true /\ frame_of (user_entry k w) = k.

Lemma install_frame sp pos u abs k v w : loading (hold sp k) pos u -> k ∉ held sp -> PagedirInv.dirs sp !! pd = Some abs -> 0 <= v < user_pages ->
  exists b st, install_page (4096 * v) k w u = Done (b, with_vm u st) /\ data_kept (hold sp k) (m_vm u) st /\
    (b = false /\ vm_ok (hold sp k) st \/
     b = true /\ present (entry abs v) = false /\ user_mapping k w /\ vm_ok (with_abs sp (<[v := user_entry k w]> abs)) st).
Proof.
  intros Hu Hk Hpd Hv. pose proof (lo_vm _ _ _ Hu) as [own Hi]. assert (Hin : k ∈ held (hold sp k)) by (cbn; set_solver).
  pose proof (get_page_spec own _ (m_vm u) pd abs v 0 Hi Hpd Hv ltac:(lia)) as E. rewrite Z.add_0_r in E.
  unfold install_page. rewrite (bind_done _ _ u u u) by reflexivity. rewrite (lo_pd _ _ _ Hu).
  rewrite (bind_done _ _ _ _ _ (vm_do_run _ _ _ _ E)). replace (with_vm u (m_vm u)) with u by (by destruct u).
  destruct (present (entry abs v)) eqn:Ep.
  - assert (Hne : frame_of (entry abs v) + 0 <> NULL) by (unfold frame_of, PHYS_BASE, NULL; assert (0 <= Z.land (entry abs v) PTE_ADDR) by (apply Z.land_nonneg; right; done); lia).
    rewrite (proj2 (Z.eqb_neq _ _) Hne). exists false, (m_vm u). split; [by destruct u|]. split; [by intros a _ o _|]. left. split; [done|by exists own].
  - change (NULL =? NULL) with true. cbv iota. destruct (set_page_spec own _ (m_vm u) pd abs v k w Hi Hpd Hv Hin Ep) as (b & own' & st & E' & Hd & Hr).
    exists b, st. split; [by apply vm_do_run|]. split; [exact Hd|]. destruct Hr as [(-> & Hok & _)|(-> & Hok)]; [left; split; [done|by exists own']|right].
    destruct (data_facts own _ _ k Hi (or_introl Hin)) as [F1 F2 F3 _]. split_and!; [done|done|exact (proj2 (user_entry_facts k w F1 ltac:(lia)))|].
    exists own'. cbn [hold held] in Hok. replace (({[k]} ∪ held sp) ∖ {[k]}) with (held sp) in Hok by (apply set_eq; set_solver). exact Hok.
Qed.

(** ** One page of a segment *)

(** Byte [j] of a segment of which [n] bytes are read from position [pos]. *)
Definition segment_byte (f : fs St) (pos n j : Z) : Z := if j <? n then file_byte f s (pos + j) else 0.

Lemma slice_full f n pos o : 0 <= o < n -> Z.of_nat (length (file_slice f s n pos)) = n ->
  file_slice f s n pos !! Z.to_nat o = Some (file_byte f s (pos + o)).
Proof.
  intros Ho. unfold file_slice. rewrite length_map, length_seqZ. intros Hl. rewrite list_lookup_fmap, lookup_seqZ_lt by lia. cbn. by rewrite Z2Nat.id by lia.
Qed.

Definition fill_page (k n : Z) : M (machine St) bool :=
  let! r := read_page x k n in
  if negb (r =? n) then vm_do (on_vm (palloc_free_page k)) ;; ret false
  else vm_do (on_vm (on_mem (memset (k + n) 0 (PGSIZE - n)))) ;; ret true.

Lemma fill_page_run sp pos u k n : loading (hold sp k) pos u -> k ∉ held sp -> 0 <= pos < 2 ^ 31 - MAX_FILE_BYTES -> 0 <= n <= 4096 ->
  exists b u' pos', fill_page k n u = Done (b, u') /\ changed u u' /\ data_kept sp (m_vm u) (m_vm u') /\ 0 <= pos' < 2 ^ 31 - MAX_FILE_BYTES /\
    (b = false /\ loading sp pos' u' \/ b = true /\ pos' = pos + n /\ loading (hold sp k) pos' u' /\
       forall o, 0 <= o < 4096 -> vmem (m_vm u') !! (k + o) = Some (segment_byte (m_fs u) pos n o)).
Proof.
  intros Hu Hk Hpos Hn. destruct (read_frame sp pos u k n Hu Hk Hpos Hn) as (u1 & E1 & Hu1 & C1 & D1 & B1). cbv zeta in *.
  set (data := file_slice (m_fs u) s n pos) in *. unfold fill_page. rewrite (bind_done _ _ _ _ _ E1).
  assert (Hb : 0 <= pos + Z.of_nat (length data) < 2 ^ 31 - MAX_FILE_BYTES).
  { destruct (handle_opened L H (m_fs u) x p s pos true (lo_fs _ _ _ Hu) (lo_file _ _ _ Hu)) as (i & Es & Ho & _).
    pose proof (file_length_bound p i (m_fs u) Ho) as Hl. rewrite Es in Hl. unfold data, file_slice, MAX_FILE_BYTES in *. rewrite length_map, length_seqZ. lia. }
  destruct (Z.eqb_spec (Z.of_nat (length data)) n) as [El|El]; cbn [negb].
  - destruct (zero_frame sp _ u1 k n (PGSIZE - n) Hu1 Hk ltac:(lia) ltac:(change PGSIZE with 4096; lia) ltac:(change PGSIZE with 4096; lia)) as (st & E2 & V & D2 & Em).
    rewrite (bind_done _ _ _ _ _ E2). exists true, (with_vm u1 st), (pos + Z.of_nat (length data)).
    split; [reflexivity|]. split; [exact (changed_trans _ _ _ C1 (changed_vm _ _ _ _ Hu1))|]. split; [exact (data_kept_trans _ _ _ _ D1 D2)|]. split; [exact Hb|right].
    split; [done|]. split; [lia|]. split; [exact (loading_vm _ _ _ _ _ Hu1 V)|]. intros o Ho. cbn [with_vm m_vm]. rewrite Em, lookup_write, length_replicate. change PGSIZE with 4096; unfold segment_byte.
    destruct (Z.ltb_spec o n) as [Hlt|Hge].
    + rewrite decide_False by lia. rewrite <- (Z2Nat.id o) by lia. apply B1. rewrite Z2Nat.id by lia. apply slice_full; [lia|exact El].
    + rewrite decide_True by lia. rewrite lookup_replicate. split; [done|lia].
  - destruct (free_frame sp _ u1 k Hu1 Hk) as (st & E2 & D2 & V). rewrite (bind_done _ _ _ _ _ E2).
    exists false, (with_vm u1 st), (pos + Z.of_nat (length data)). split; [reflexivity|]. split; [exact (changed_trans _ _ _ C1 (changed_vm _ _ _ _ Hu1))|].
    split; [exact (data_kept_trans _ _ _ _ D1 D2)|]. split; [exact Hb|left]. split; [done|exact (loading_vm _ _ _ _ _ Hu1 V)].
Qed.

(** The body of the loop of [load_segment], before its next iteration [K]. *)
Definition page_step (v n : Z) (w : bool) (K : M (machine St) bool) : M (machine St) bool :=
  let! kpage := vm_do (on_vm (palloc_get_page PAL_USER)) in
  if kpage =? NULL then ret false
  else
    let! r := read_page x kpage n in
    if negb (r =? n) then vm_do (on_vm (palloc_free_page kpage)) ;; ret false
    else
      vm_do (on_vm (on_mem (memset (kpage + n) 0 (PGSIZE - n)))) ;;
      let! b := install_page (4096 * v) kpage w in
      if negb b then vm_do (on_vm (palloc_free_page kpage)) ;; ret false else K.

Lemma fill_then {B} k n (f : M (machine St) B) (g : M (machine St) B) u b u' : fill_page k n u = Done (b, u') ->
  (let! r := read_page x k n in
   if negb (r =? n) then vm_do (on_vm (palloc_free_page k)) ;; f else vm_do (on_vm (on_mem (memset (k + n) 0 (PGSIZE - n)))) ;; g) u =
  (if b then g else f) u'.
Proof.
  unfold fill_page, bind, ret. destruct (read_page x k n u) as [[r u1]|]; [|done]. destruct (negb (r =? n)).
  - destruct (vm_do _ u1) as [[[] u2]|]; [|done]. by intros [= <- <-].
  - destruct (vm_do _ u1) as [[a u2]|]; [|done]. by intros [= <- <-].
Qed.

Lemma data_mapped sp abs v k w a : PagedirInv.dirs sp !! pd = Some abs -> present (entry abs v) = false -> data_page sp a ->
  data_page (with_abs sp (<[v := user_entry k w]> abs)) a.
Proof.
  intros Hpd Hp [Ha|(pd' & abs' & v' & e & Hd & Hv & He & E)]; [by left|right]. destruct (decide (pd = pd')) as [<-|Hne].
  - exists pd, (<[v := user_entry k w]> abs), v', e. cbn. rewrite lookup_insert_eq. assert (abs' = abs) as -> by congruence. split_and!; [done| |exact He|exact E].
    rewrite lookup_insert_ne; [exact Hv|]. intros ->. unfold entry in Hp. rewrite Hv in Hp. cbn in Hp. congruence.
  - exists pd', abs', v', e. cbn. by rewrite lookup_insert_ne.
Qed.

Lemma page_step_run sp pos u abs v n w K :
  loading sp pos u -> PagedirInv.dirs sp !! pd = Some abs -> 0 <= v < user_pages -> 0 <= pos < 2 ^ 31 - MAX_FILE_BYTES -> 0 <= n <= 4096 ->
  exists u' pos', changed u u' /\ data_kept sp (m_vm u) (m_vm u') /\ 0 <= pos' < 2 ^ 31 - MAX_FILE_BYTES /\
    (page_step v n w K u = Done (false, u') /\ loading sp pos' u' \/
     exists k, page_step v n w K u = K u' /\ pos' = pos + n /\ present (entry abs v) = false /\ user_mapping k w /\
       loading (with_abs sp (<[v := user_entry k w]> abs)) pos' u' /\
       forall o, 0 <= o < 4096 -> vmem (m_vm u') !! (k + o) = Some (segment_byte (m_fs u) pos n o)).
Proof.
  intros Hu Hpd Hv Hpos Hn. unfold page_step. destruct (get_frame sp pos u PAL_USER Hu eq_refl) as (k & st & E0 & D0 & Hr). rewrite (bind_done _ _ _ _ _ E0).
  pose proof (changed_vm sp pos u st Hu) as C0. destruct Hr as [(-> & V0)|(Hk & Hkh & V0 & _)].
  { exists (with_vm u st), pos. split_and!; [exact C0|exact D0|lia|lia|left]. split; [reflexivity|exact (loading_vm _ _ _ _ _ Hu V0)]. }
  rewrite (proj2 (Z.eqb_neq _ _) Hk). pose proof (loading_vm _ _ _ _ _ Hu V0) as Hu0.
  destruct (fill_page_run sp pos _ k n Hu0 Hkh Hpos Hn) as (b & u1 & pos1 & E1 & C1 & D1 & P1 & Hr). rewrite (fill_then k n _ _ _ _ _ E1).
  pose proof (changed_trans _ _ _ C0 C1) as C2. pose proof (data_kept_trans _ _ _ _ D0 D1) as D2. destruct Hr as [(-> & Hu1)|(-> & -> & Hu1 & B1)].
  { exists u1, pos1. split_and!; [exact C2|exact D2|lia|lia|left]. split; [reflexivity|exact Hu1]. }
  destruct (install_frame sp _ u1 abs k v w Hu1 Hkh Hpd Hv) as (b & st2 & E2 & D3 & Hr). rewrite (bind_done _ _ _ _ _ E2).
  pose proof (changed_trans _ _ _ C2 (changed_vm _ _ _ st2 Hu1)) as C3. assert (D4 : data_kept sp (m_vm u1) st2) by (intros a Ha; exact (D3 a (data_hold sp k a Ha))).
  pose proof (data_kept_trans _ _ _ _ D2 D4) as D5. destruct Hr as [(-> & V2)|(-> & Hp & Hm & V2)]; cbn [negb].
  - pose proof (loading_vm _ _ _ _ _ Hu1 V2) as Hu2. destruct (free_frame sp _ _ k Hu2 Hkh) as (st3 & E3 & D6 & V3). rewrite (bind_done _ _ _ _ _ E3).
    exists (with_vm (with_vm u1 st2) st3), (pos + n). split_and!; [exact (changed_trans _ _ _ C3 (changed_vm _ _ _ st3 Hu2))|exact (data_kept_trans _ _ _ _ D5 D6)|lia|lia|left].
    split; [reflexivity|exact (loading_vm _ _ _ _ _ Hu2 V3)].
  - exists (with_vm u1 st2), (pos + n). split_and!; [exact C3|exact D5|lia|lia|right]. exists k. split_and!; [reflexivity|lia|exact Hp|exact Hm|exact (loading_vm _ _ _ _ _ Hu1 V2)|].
    intros o Ho. assert (Hin : data_page (hold sp k) k) by (left; cbn; set_solver). cbn [with_vm m_vm]. rewrite (D3 k Hin o Ho). exact (B1 o Ho).
Qed.

(** ** The segment *)

(** The [n] pages from page [v] on hold a segment; the others are those of
    [abs]. *)
Record segment (f : fs St) (pos read v n : Z) (w : bool) (abs abs' : gmap Z Z) (m : mem) : Prop := {
  sg_free : forall i, 0 <= i < n -> present (entry abs (v + i)) = false;
  sg_page : forall i, 0 <= i < n -> exists k, abs' !! (v + i) = Some (user_entry k w) /\ user_mapping k w /\
    forall o, 0 <= o < 4096 -> m !! (k + o) = Some (segment_byte f pos read (4096 * i + o))
}.

Lemma with_abs_twice sp a1 a2 : with_abs (with_abs sp a1) a2 = with_abs sp a2.
Proof. unfold with_abs. cbn. by rewrite insert_insert_eq. Qed.

Lemma with_abs_same sp abs : PagedirInv.dirs sp !! pd = Some abs -> with_abs sp abs = sp.
Proof. intros E. unfold with_abs. rewrite insert_id by done. by destruct sp. Qed.

Lemma data_new sp abs v k w : user_mapping k w -> data_page (with_abs sp (<[v := user_entry k w]> abs)) k.
Proof. intros [H1 H2]. right. exists pd, (<[v := user_entry k w]> abs), v, (user_entry k w). cbn. by rewrite !lookup_insert_eq. Qed.

(** What an attempt to load [n] pages from page [v] on does. *)
Record attempt (sp : space) (abs : gmap Z Z) (v n : Z) (u u' : machine St) (abs' : gmap Z Z) (pos' : Z) : Prop := {
  at_loading : loading (with_abs sp abs') pos' u';
  at_pos : 0 <= pos' < 2 ^ 31 - MAX_FILE_BYTES;
  at_changed : changed u u';
  at_data : data_kept sp (m_vm u) (m_vm u');
  at_other : forall j, ~ (v <= j < v + n) -> abs' !! j = abs !! j
}.

Lemma attempt_none sp abs v n u u' pos' : PagedirInv.dirs sp !! pd = Some abs -> loading sp pos' u' -> 0 <= pos' < 2 ^ 31 - MAX_FILE_BYTES ->
  changed u u' -> data_kept sp (m_vm u) (m_vm u') -> attempt sp abs v n u u' abs pos'.
Proof. intros Hpd H1 H2 H3 H4. split; [by rewrite with_abs_same|exact H2|exact H3|exact H4|done]. Qed.

Lemma attempt_next sp abs v n u u1 u' abs' pos' k w : PagedirInv.dirs sp !! pd = Some abs -> present (entry abs v) = false -> 0 < n ->
  changed u u1 -> data_kept sp (m_vm u) (m_vm u1) ->
  attempt (with_abs sp (<[v := user_entry k w]> abs)) (<[v := user_entry k w]> abs) (v + 1) (n - 1) u1 u' abs' pos' -> attempt sp abs v n u u' abs' pos'.
Proof.
  intros Hpd Hp Hn Hc Hd [A1 A2 A3 A4 A5]. split; [by rewrite with_abs_twice in A1|exact A2|exact (changed_trans _ _ _ Hc A3)| |].
  - apply (data_kept_trans _ _ _ _ Hd). intros a Ha. exact (A4 a (data_mapped sp abs v k w a Hpd Hp Ha)).
  - intros j Hj. rewrite A5 by lia. apply lookup_insert_ne. lia.
Qed.

Lemma segment_next sp f g abs v n u1 u' abs' pos' k w pos read m : present (entry abs v) = false -> 0 < n -> user_mapping k w ->
  let m1 := if read <? 4096 then read else 4096 in 0 <= read -> same_disk f g ->
  attempt (with_abs sp (<[v := user_entry k w]> abs)) (<[v := user_entry k w]> abs) (v + 1) (n - 1) u1 u' abs' pos' -> vmem (m_vm u') = m ->
  (forall o, 0 <= o < 4096 -> vmem (m_vm u1) !! (k + o) = Some (segment_byte f pos m1 o)) ->
  segment g (pos + m1) (read - m1) (v + 1) (n - 1) w (<[v := user_entry k w]> abs) abs' m -> segment f pos read v n w abs abs' m.
Proof.
  intros Hp Hn Hm m1 Hr Hfg A <- B [S1 S2]. split.
  - intros i Hi. destruct (decide (i = 0)) as [->|Hne]; [by rewrite Z.add_0_r|]. specialize (S1 (i - 1) ltac:(lia)). replace (v + 1 + (i - 1)) with (v + i) in S1 by lia.
    unfold entry in *. rewrite lookup_insert_ne in S1 by lia. exact S1.
  - intros i Hi. destruct (decide (i = 0)) as [->|Hne].
    + exists k. rewrite Z.add_0_r. rewrite (at_other _ _ _ _ _ _ _ _ A) by lia. rewrite lookup_insert_eq. split; [done|]. split; [exact Hm|]. intros o Ho.
      rewrite (at_data _ _ _ _ _ _ _ _ A k (data_new sp abs v k w Hm) o Ho), (B o Ho). f_equal. unfold segment_byte, m1 in *.
      destruct (Z.ltb_spec read 4096); replace (4096 * 0 + o) with o by lia; [done|]. rewrite !(proj2 (Z.ltb_lt _ _)) by lia. done.
    + destruct (S2 (i - 1) ltac:(lia)) as (k' & E & Hm' & B'). replace (v + 1 + (i - 1)) with (v + i) in E by lia. exists k'. split; [exact E|]. split; [exact Hm'|]. intros o Ho. rewrite B' by done. f_equal.
      unfold segment_byte, m1 in *. rewrite (proj1 (same_byte f g s _ Hfg)). destruct (Z.ltb_spec read 4096).
      * rewrite !(proj2 (Z.ltb_ge _ _)) by lia. done.
      * destruct (Z.ltb_spec (4096 * (i - 1) + o) (read - 4096)), (Z.ltb_spec (4096 * i + o) read); try lia. f_equal. lia.
Qed.

Lemma load_segment_loop_run w : forall fuel sp pos u abs v n read zero,
  loading sp pos u -> PagedirInv.dirs sp !! pd = Some abs -> 0 <= pos < 2 ^ 31 - MAX_FILE_BYTES ->
  0 <= read -> 0 <= zero -> read + zero = 4096 * n -> 0 <= v -> v + n <= user_pages -> n < Z.of_nat fuel ->
  exists b u' abs' pos', load_segment_loop fuel x (4096 * v) read zero w u = Done (b, u') /\ attempt sp abs v n u u' abs' pos' /\
    (b = true -> segment (m_fs u) pos read v n w abs abs' (vmem (m_vm u'))).
Proof.
  induction fuel as [|fuel IH]; intros sp pos u abs v n read zero Hu Hpd Hpos Hr Hz Hn Hv Hvn Hf; [lia|]. cbn [load_segment_loop].
  destruct ((0 <? read) || (0 <? zero)) eqn:Eg.
  2:{ assert (n = 0) as -> by lia. exists true, u, abs, pos. split; [reflexivity|]. split.
      - apply attempt_none; [exact Hpd|exact Hu|exact Hpos|exact (changed_vm _ _ u (m_vm u) Hu)|by intros a _ o _].
      - intros _. split; intros i Hi; lia. }
  change PGSIZE with 4096. set (m1 := if read <? 4096 then read else 4096). unfold user_pages in Hvn.
  assert (Hm1 : 0 <= m1 <= 4096 /\ m1 <= read /\ 4096 - m1 <= zero) by (unfold m1; destruct (Z.ltb_spec read 4096); lia).
  set (K := load_segment_loop fuel x (u32 (4096 * v + 4096)) (u32 (read - m1)) (u32 (zero - (4096 - m1))) w).
  change (exists b u' abs' pos', page_step v m1 w K u = Done (b, u') /\ attempt sp abs v n u u' abs' pos' /\
    (b = true -> segment (m_fs u) pos read v n w abs abs' (vmem (m_vm u')))).
  destruct (page_step_run sp pos u abs v m1 w K Hu Hpd ltac:(unfold user_pages; lia) Hpos ltac:(lia)) as (u1 & pos1 & C1 & D1 & P1 & Hs).
  destruct Hs as [(E & Hu1)|(k & E & -> & Hp & Hm & Hu1 & B1)].
  { exists false, u1, abs, pos1. split; [exact E|]. split; [by apply attempt_none|done]. }
  destruct (IH (with_abs sp (<[v := user_entry k w]> abs)) (pos + m1) u1 (<[v := user_entry k w]> abs) (v + 1) (n - 1) (read - m1) (zero - (4096 - m1)))
    as (b & u' & abs' & pos' & E' & A & Sg); [exact Hu1|cbn; apply lookup_insert_eq|exact P1|lia|lia|lia|lia|unfold user_pages; lia|lia|].
  exists b, u', abs', pos'. split.
  { rewrite E. unfold K. rewrite (u32_small (4096 * v + 4096)), (u32_small (read - m1)), (u32_small (zero - (4096 - m1))) by (unfold is_u32; lia).
    by replace (4096 * v + 4096) with (4096 * (v + 1)) by lia. }
  split; [exact (attempt_next sp abs v n u u1 u' abs' pos' k w Hpd Hp ltac:(lia) C1 D1 A)|]. intros Hb.
  apply (segment_next sp (m_fs u) (m_fs u1) abs v n u1 u' abs' pos' k w pos read _ Hp ltac:(lia) Hm Hr (proj1 (proj1 C1)) A eq_refl B1). exact (Sg Hb).
Qed.
End machine.
