(* ===== verification/LoadProps.v ===== *)
(** * userprog/process.c: what [load] maps

    A program that [load] accepts is in memory as its headers say: every loadable
    segment at its address, with the bytes of the file and then zeros, and a
    stack of zeros; the memory of the other processes and the disk are as they
    were. *)

From stdpp Require Import options.
From S2P Require Import Cache FileDemo Prelude Bytes KList Bitmap Mem Str Vaddr Palloc Pagedir PagedirInv PagedirStep PagedirOps PagedirDestroy PagedirInit PagedirProps.
From S2P Require Import Block Store Inode InodeTree InodeGrow InodeShrink InodeResize InodeRollback InodeExtend InodeIO InodeWrite InodeLife File FreeMap.
From S2P Require Import FileProps Directory DirSpec NameInv PathSpec PathWalk FileSteps Args Filesys FilesysProps Load LoadSteps.
Local Open Scope Z_scope.
Local Open Scope kernel_scope.
#[local] Opaque write.

(** ** Program headers *)

Lemma field_word ph off : Forall is_byte ph -> is_u32 (le_decode (slice off 4 ph)).
Proof.
  intros Hb. pose proof (le_decode_bound (slice off 4 ph) (Forall_take _ _ _ (Forall_drop _ _ _ Hb))) as Hl.
  assert (length (slice off 4 ph) <= 4)%nat by (unfold slice; rewrite length_take; lia). unfold is_u32.
  assert (2 ^ (8 * Z.of_nat (length (slice off 4 ph))) <= 2 ^ 32) by (apply Z.pow_le_mono_r; lia). lia.
Qed.

(** Where a segment may lie. *)
Record segment_fits (ph : list Z) (len : Z) : Prop := {
  fit_offset : p_offset ph <= len;
  fit_page : p_offset ph mod 4096 = p_vaddr ph mod 4096;
  fit_size : p_filesz ph <= p_memsz ph;
  fit_memsz : 0 < p_memsz ph;
  fit_low : 4096 <= p_vaddr ph;
  fit_high : p_vaddr ph + p_memsz ph < PHYS_BASE
}.

Lemma valid_range_iff ph len : Forall is_byte ph -> 0 <= len < 2 ^ 31 -> p_offset ph mod 4096 = p_vaddr ph mod 4096 -> valid_range ph len = true <-> segment_fits ph len.
Proof.
  intros Hb Hl Ho. pose proof (field_word ph 4 Hb) as W1. pose proof (field_word ph 8 Hb) as W2. pose proof (field_word ph 16 Hb) as W3. pose proof (field_word ph 20 Hb) as W4.
  fold (p_offset ph) in W1. fold (p_vaddr ph) in W2. fold (p_filesz ph) in W3. fold (p_memsz ph) in W4. unfold is_u32 in *.
  unfold valid_range. rewrite (u32_small len) by (unfold is_u32; lia).
  unfold is_user_vaddr, PHYS_BASE. change PGSIZE with 4096.
  assert (Hw : u32 (p_vaddr ph + p_memsz ph) = p_vaddr ph + p_memsz ph \/ u32 (p_vaddr ph + p_memsz ph) = p_vaddr ph + p_memsz ph - 2 ^ 32).
  { unfold u32. destruct (decide (p_vaddr ph + p_memsz ph < 2 ^ 32)); [left; apply Z.mod_small; lia|right].
    symmetry. apply (Z.mod_unique_pos _ _ 1); lia. }
  split.
  - intros Hv. repeat case_match; try done; split; unfold PHYS_BASE; lia.
  - intros [F1 F2 F3 F4 F5 F6]. unfold PHYS_BASE in F6. rewrite u32_small by (unfold is_u32; lia).
    repeat case_match; try done; exfalso; lia.
Qed.

(** The pages that a segment takes. *)
Definition first_page (ph : list Z) : Z := p_vaddr ph / 4096.
Definition page_count (ph : list Z) : Z := (p_vaddr ph mod 4096 + p_memsz ph + 4095) / 4096.

(** Byte [a] of a segment. *)
Definition phdr_byte {St} `{!SectorStore St} (f : fs St) (s : Z) (ph : list Z) (a : Z) : Z :=
  if a - p_vaddr ph <? p_filesz ph then file_byte f s (p_offset ph + (a - p_vaddr ph)) else 0.

Lemma phdr_byte_same {St} `{!SectorStore St} (f g : fs St) s ph a : same_disk f g -> phdr_byte g s ph a = phdr_byte f s ph a.
Proof. intros Hs. unfold phdr_byte. rewrite (proj1 (same_byte f g s _ Hs)). reflexivity. Qed.

Definition phdr_writable (ph : list Z) : bool := negb (Z.land (p_flags ph) PF_W =? 0).

Lemma segment_pages ph len : Forall is_byte ph -> segment_fits ph len ->
  1 <= first_page ph /\ first_page ph + page_count ph <= user_pages /\ p_vaddr ph mod 4096 + p_memsz ph <= 4096 * page_count ph < 2 ^ 32 /\
  round_up (u32 (p_vaddr ph mod 4096 + p_memsz ph)) PGSIZE = 4096 * page_count ph.
Proof.
  intros Hb [F1 F2 F3 F4 F5 F6]. unfold first_page, page_count, round_up, user_pages, PHYS_BASE in *. change PGSIZE with 4096.
  pose proof (Z.div_mod (p_vaddr ph) 4096 ltac:(lia)) as D. pose proof (Z.mod_pos_bound (p_vaddr ph) 4096 ltac:(lia)) as M.
  set (o := p_vaddr ph mod 4096) in *. set (v := p_vaddr ph / 4096) in *.
  pose proof (Z.div_mod (o + p_memsz ph + 4095) 4096 ltac:(lia)) as D2. pose proof (Z.mod_pos_bound (o + p_memsz ph + 4095) 4096 ltac:(lia)) as M2.
  set (c := (o + p_memsz ph + 4095) / 4096) in *. split_and!; try lia. rewrite (u32_small (o + p_memsz ph)) by (unfold is_u32; lia).
  replace (o + p_memsz ph + 4096 - 1) with (o + p_memsz ph + 4095) by lia. rewrite (u32_small (o + _ + _)) by (unfold is_u32; lia). fold c.
  rewrite u32_small by (unfold is_u32; lia). lia.
Qed.

Section load.
Context {St : Type} `{!SectorStore St} {q pm : Z} {im : inode} {priv : Z -> Prop}.
Context (L : list Z) (H : list (Z * Z)) (x p s pd : Z).
Implicit Types (sp : space) (u : machine St) (k v : Z).
Abbreviation names_ok := (names_ok (q := q) (pm := pm) (im := im) (priv := priv)).
Abbreviation loading := (loading (q := q) (pm := pm) (im := im) (priv := priv) L H x p s pd).
Abbreviation attempt := (attempt (q := q) (pm := pm) (im := im) (priv := priv) L H x p s pd).

Definition with_fs (u : machine St) (g : fs St) : machine St := mk_machine (m_vm u) g (pagedir u) (executable u).

Lemma fs_do_run {A} (f : M (fs St) A) u a g : f (m_fs u) = Done (a, g) -> fs_do f u = Done (a, with_fs u g).
Proof. intros E. unfold fs_do. by rewrite E. Qed.

(** A step of the executable's handle. *)
Lemma loading_fs sp pos pos' u g : loading sp pos u -> names_ok L H g -> handle (q := q) (pm := pm) g x p s pos' true -> only_handle (m_fs u) g x ->
  loading sp pos' (with_fs u g) /\ changed x u (with_fs u g).
Proof. intros [H1 H2 H3 H4] Hg Hh Ho. by split. Qed.

(** A byte of the running program's address space. *)
Definition maps_byte (abs : gmap Z Z) (m : mem) (a b : Z) (w : bool) : Prop :=
  exists k, abs !! (a / 4096) = Some (user_entry k w) /\ user_mapping k w /\ m !! (k + a mod 4096) = Some b.

Definition phdr_loaded (f : fs St) (abs : gmap Z Z) (m : mem) (ph : list Z) : Prop :=
  forall a, p_vaddr ph <= a < p_vaddr ph + p_memsz ph -> maps_byte abs m a (phdr_byte f s ph a) (phdr_writable ph).

Lemma validate_run u g ph len : file_length x (m_fs u) = Done (len, g) ->
  validate_segment ph x u = if p_offset ph mod 4096 =? p_vaddr ph mod 4096 then Done (valid_range ph len, with_fs u g) else Done (false, u).
Proof.
  intros E. unfold validate_segment. fold (pg_ofs (p_offset ph)) (pg_ofs (p_vaddr ph)). rewrite !pg_ofs_mod. destruct (_ =? _); [|reflexivity].
  cbn [negb]. rewrite (bind_done _ _ _ _ _ (fs_do_run _ _ _ _ E)). reflexivity.
Qed.

(** The parameters that [load] computes for [load_segment]. *)
Lemma segment_parameters ph len : Forall is_byte ph -> 0 <= len <= MAX_FILE_BYTES -> segment_fits ph len ->
  exists read zero, 0 <= read /\ 0 <= zero /\ read + zero = 4096 * page_count ph /\ read = (if 0 <? p_filesz ph then p_vaddr ph mod 4096 + p_filesz ph else 0) /\
    forall u g, file_length x (m_fs u) = Done (len, g) ->
      load_phdr x ph u = load_segment x (p_offset ph - p_vaddr ph mod 4096) (4096 * first_page ph) read zero (phdr_writable ph) (with_fs u g).
Proof.
  intros Hb Hl Hs. destruct (segment_pages ph len Hb Hs) as (P1 & P2 & P3 & P4). pose proof Hs as [F1 F2 F3 F4 F5 F6].
  pose proof (proj2 (valid_range_iff ph len Hb ltac:(unfold MAX_FILE_BYTES in Hl; lia) F2) Hs) as Hv. pose proof (field_word ph 4 Hb) as W1. fold (p_offset ph) in W1. pose proof (field_word ph 8 Hb) as W2. fold (p_vaddr ph) in W2.
  pose proof (field_word ph 16 Hb) as W3. fold (p_filesz ph) in W3. pose proof (Z.mod_pos_bound (p_vaddr ph) 4096 ltac:(lia)) as M. unfold is_u32 in *.
  set (read := if 0 <? p_filesz ph then p_vaddr ph mod 4096 + p_filesz ph else 0). exists read, (4096 * page_count ph - read).
  assert (Hr : 0 <= read <= 4096 * page_count ph) by (unfold read; destruct (Z.ltb_spec 0 (p_filesz ph)); lia).
  split_and!; [lia|lia|lia|done|]. intros u g E. pose proof (validate_run u g ph len E) as Er.
  rewrite (proj2 (Z.eqb_eq _ _) F2), Hv in Er. unfold load_phdr. rewrite (bind_done _ _ _ _ _ Er). cbv zeta.
  fold (phdr_writable ph). fold (pg_ofs (p_vaddr ph)) (pg_round_down (p_vaddr ph)) (pg_round_down (p_offset ph)). rewrite !pg_round_down_eq, pg_ofs_mod by (unfold is_u32; lia).
  rewrite F2, P4. rewrite i32_small by (unfold is_i32, MAX_FILE_BYTES in *; pose proof (Z.mod_le (p_offset ph) 4096 ltac:(lia) ltac:(lia)); lia).
  replace (p_vaddr ph - p_vaddr ph mod 4096) with (4096 * first_page ph) by (unfold first_page; pose proof (Z.div_mod (p_vaddr ph) 4096 ltac:(lia)); lia).
  unfold read in *. destruct (Z.ltb_spec 0 (p_filesz ph)); [|by rewrite Z.sub_0_r].
  rewrite (u32_small (p_vaddr ph mod 4096 + p_filesz ph)) by (unfold is_u32; lia). by rewrite u32_small by (unfold is_u32; lia).
Qed.

Lemma load_segment_run sp pos u abs ofs v n read zero w :
  loading sp pos u -> PagedirInv.dirs sp !! pd = Some abs -> 0 <= ofs <= MAX_FILE_BYTES -> ofs mod 4096 = 0 ->
  0 <= read -> 0 <= zero -> read + zero = 4096 * n -> 0 <= v -> v + n <= user_pages ->
  exists b u' abs' pos', load_segment x ofs (4096 * v) read zero w u = Done (b, u') /\ attempt sp abs v n u u' abs' pos' /\
    (b = true -> segment s (m_fs u) ofs read v n w abs abs' (vmem (m_vm u'))).
Proof.
  intros Hu Hpd Ho Ho4 Hr Hz Hn Hv Hvn. pose proof Hu as [_ U2 U3 _]. unfold user_pages in Hvn. unfold load_segment. rewrite (u32_small (read + zero)) by (unfold is_u32; lia). rewrite pg_ofs_mod.
  change PGSIZE with 4096. rewrite Hn. rewrite assert_true by (rewrite Z.mul_comm, Z_mod_mult; done). rewrite assert_true by (rewrite Z.mul_comm, Z_mod_mult; done).
  rewrite assert_true by (rewrite Z.rem_mod_nonneg, Ho4; [done|lia|lia]).
  destruct (file_seek_step L H (m_fs u) x p s pos true ofs U2 U3 ltac:(lia)) as (g & E & N1 & N2 & N3).
  rewrite (bind_done _ _ _ _ _ (fs_do_run _ _ _ _ E)). destruct (loading_fs sp pos ofs u g Hu N1 N2 N3) as [Hu1 C1].
  destruct (load_segment_loop_run L H x p s pd w (S (Z.to_nat (4096 * n / 4096))) sp ofs (with_fs u g) abs v n read zero Hu1 Hpd)
    as (b & u' & abs' & pos' & E' & A & Sg); try (unfold MAX_FILE_BYTES, user_pages in *; lia).
  { rewrite Z.mul_comm, Z.div_mul by lia. lia. }
  exists b, u', abs', pos'. split; [exact E'|]. split.
  - destruct A as [A1 A2 A3 A4 A5]. split; [exact A1|exact A2|exact (changed_trans _ _ _ _ C1 A3)|exact A4|exact A5].
  - intros Hb. destruct (Sg Hb) as [S1 S2]. split; [exact S1|]. intros i Hi. destruct (S2 i Hi) as (k & E1 & E2 & B). exists k. split_and!; [exact E1|exact E2|].
    intros o Hoo. rewrite (B o Hoo). unfold segment_byte. by rewrite (proj1 (same_byte (m_fs u) g s _ (proj1 N3))).
Qed.

Lemma segment_loaded f abs abs' m ph : Forall is_byte ph -> (exists len, segment_fits ph len) ->
  segment s f (p_offset ph - p_vaddr ph mod 4096) (if 0 <? p_filesz ph then p_vaddr ph mod 4096 + p_filesz ph else 0)
    (first_page ph) (page_count ph) (phdr_writable ph) abs abs' m -> phdr_loaded f abs' m ph.
Proof.
  intros Hb (len & Hfit) [_ Sg] a Ha. destruct (segment_pages ph len Hb Hfit) as (_ & _ & P3 & _). pose proof (field_word ph 16 Hb) as W. fold (p_filesz ph) in W. unfold is_u32 in W.
  unfold first_page in Sg. pose proof (Z.div_mod (p_vaddr ph) 4096 ltac:(lia)) as D. pose proof (Z.mod_pos_bound (p_vaddr ph) 4096 ltac:(lia)) as M.
  pose proof (Z.div_mod a 4096 ltac:(lia)) as D2. pose proof (Z.mod_pos_bound a 4096 ltac:(lia)) as M2.
  destruct (Sg (a / 4096 - p_vaddr ph / 4096) ltac:(lia)) as (k & E & Hm & B). rewrite Z.add_sub_assoc, Z.add_simpl_l in E.
  exists k. split; [exact E|]. split; [exact Hm|]. rewrite (B _ M2). f_equal. unfold segment_byte, phdr_byte.
  set (j := 4096 * (a / 4096 - p_vaddr ph / 4096) + a mod 4096). assert (Ej : j = p_vaddr ph mod 4096 + (a - p_vaddr ph)) by lia.
  destruct (Z.ltb_spec 0 (p_filesz ph)); destruct (Z.ltb_spec (a - p_vaddr ph) (p_filesz ph)); [rewrite (proj2 (Z.ltb_lt _ _)) by lia; f_equal; lia|rewrite (proj2 (Z.ltb_ge _ _)) by lia; done|lia|rewrite (proj2 (Z.ltb_ge _ _)) by lia; done].
Qed.

(** Mapped bytes stay when more pages are mapped. *)
Lemma maps_kept sp abs v n u u' abs' pos' a b w : PagedirInv.dirs sp !! pd = Some abs -> attempt sp abs v n u u' abs' pos' ->
  (forall i, 0 <= i < n -> present (entry abs (v + i)) = false) -> maps_byte abs (vmem (m_vm u)) a b w -> maps_byte abs' (vmem (m_vm u')) a b w.
Proof.
  intros Hpd A Hfree (k & E & [Hm1 Hm2] & B). exists k. split_and!; [|done|].
  - rewrite (at_other _ _ _ _ _ _ _ _ _ _ _ _ _ _ A); [exact E|]. intros Hin. specialize (Hfree (a / 4096 - v) ltac:(lia)). unfold entry in Hfree.
    replace (v + (a / 4096 - v)) with (a / 4096) in Hfree by lia. rewrite E in Hfree. cbn in Hfree. congruence.
  - pose proof (Z.mod_pos_bound a 4096 ltac:(lia)) as M. rewrite (at_data _ _ _ _ _ _ _ _ _ _ _ _ _ _ A k); [exact B| |exact M].
    right. exists pd, abs, (a / 4096), (user_entry k w). by split_and!.
Qed.

(** ** Program headers, one after the other *)

Record progress (sp : space) (u u' : machine St) (abs' : gmap Z Z) (pos' : Z) : Prop := {
  pr_loading : loading (with_abs pd sp abs') pos' u';
  pr_pos : 0 <= pos' < 2 ^ 31 - MAX_FILE_BYTES;
  pr_changed : changed x u u';
  pr_data : data_kept sp (m_vm u) (m_vm u')
}.

Lemma attempt_progress sp abs v n u u' abs' pos' : attempt sp abs v n u u' abs' pos' -> progress sp u u' abs' pos'.
Proof. intros [A1 A2 A3 A4 _]. by split. Qed.

Lemma progress_same sp u abs pos : PagedirInv.dirs sp !! pd = Some abs -> loading sp pos u -> 0 <= pos < 2 ^ 31 - MAX_FILE_BYTES -> progress sp u u abs pos.
Proof.
  intros Hpd Hu Hp. split; [by rewrite with_abs_same|exact Hp|exact (changed_vm _ _ _ _ _ _ _ _ u (m_vm u) Hu)|by intros a _ o _].
Qed.

(** A step of the handle first. *)
Lemma progress_fs sp u g u' abs' pos' : changed x u (with_fs u g) -> progress sp (with_fs u g) u' abs' pos' -> progress sp u u' abs' pos'.
Proof. intros Hc [P1 P2 P3 P4]. split; [exact P1|exact P2|exact (changed_trans _ _ _ _ Hc P3)|exact P4]. Qed.

Definition kept_bytes (abs abs' : gmap Z Z) (m m' : mem) : Prop := 
  (forall v e, abs !! v = Some e -> present e = true -> abs' !! v = Some e) /\ forall a b w, maps_byte abs m a b w -> maps_byte abs' m' a b w.

Lemma bytes_kept_refl abs m : kept_bytes abs abs m m.
Proof. by split. Qed.

Lemma bytes_kept_trans abs abs' abs'' m m' m'' : kept_bytes abs abs' m m' -> kept_bytes abs' abs'' m' m'' -> kept_bytes abs abs'' m m''.
Proof. intros [A1 A2] [B1 B2]. split; [intros v e Hv Hp; by apply B1, Hp; apply A1|intros a b w Ha; by apply B2, A2]. Qed.

(** The memory of all processes is kept by two calls in turn. *)
Lemma progress_trans sp u u1 u' abs abs1 abs' pos1 pos' m m' : PagedirInv.dirs sp !! pd = Some abs -> kept_bytes abs abs1 m m' ->
  progress sp u u1 abs1 pos1 -> progress (with_abs pd sp abs1) u1 u' abs' pos' -> progress sp u u' abs' pos'.
Proof.
  intros Hpd [Hk _] [P1 P2 P3 P4] [Q1 Q2 Q3 Q4]. rewrite with_abs_twice in Q1. split; [exact Q1|exact Q2|exact (changed_trans _ _ _ _ P3 Q3)|].
  apply (data_kept_trans _ _ _ _ P4). intros a Ha. apply Q4. destruct Ha as [Ha|(pd' & abs0 & v & e & Hd & Hv & Hp & E)]; [by left|right].
  destruct (decide (pd = pd')) as [<-|Hne]; [|exists pd', abs0, v, e; cbn; by rewrite lookup_insert_ne].
  exists pd, abs1, v, e. cbn. rewrite lookup_insert_eq. assert (abs0 = abs) as -> by congruence. split_and!; [done|by apply Hk|exact Hp|exact E].
Qed.

(** What [load] requires of a header that it accepts, and does for it. *)
Definition phdr_done (f : fs St) (abs : gmap Z Z) (m : mem) (ph : list Z) : Prop :=
  length ph = 32%nat /\ p_type ph ∉ [PT_DYNAMIC; PT_INTERP; PT_SHLIB] /\
  (p_type ph = PT_LOAD -> segment_fits ph (file_len f s) /\ phdr_loaded f abs m ph).

Lemma phdr_done_same f g abs m ph : same_disk f g -> phdr_done g abs m ph -> phdr_done f abs m ph.
Proof.
  intros Hs (H1 & H2 & H3). split_and!; [exact H1|exact H2|]. intros Ht. destruct (H3 Ht) as [F1 F2]. rewrite (proj2 (same_byte f g s 0 Hs)) in F1. split; [exact F1|].
  intros a Ha. destruct (F2 a Ha) as (k & E & Hm & B). exists k. split_and!; [exact E|exact Hm|]. rewrite B, (phdr_byte_same f g s ph a Hs). reflexivity.
Qed.

Lemma file_len_bound sp pos u : loading sp pos u -> 0 <= file_len (m_fs u) s <= MAX_FILE_BYTES.
Proof.
  intros [_ U2 U3 _]. destruct (handle_opened L H (m_fs u) x p s pos true U2 U3) as (i & Es & Ho & _). pose proof (file_length_bound p i (m_fs u) Ho) as Hl. by rewrite Es in Hl.
Qed.

Lemma load_phdr_run sp pos u abs ph : loading sp pos u -> PagedirInv.dirs sp !! pd = Some abs -> 0 <= pos < 2 ^ 31 - MAX_FILE_BYTES -> Forall is_byte ph ->
  exists b u' abs' pos', load_phdr x ph u = Done (b, u') /\ progress sp u u' abs' pos' /\
    (b = true -> kept_bytes abs abs' (vmem (m_vm u)) (vmem (m_vm u')) /\ segment_fits ph (file_len (m_fs u) s) /\ phdr_loaded (m_fs u) abs' (vmem (m_vm u')) ph).
Proof.
  intros Hu Hpd Hpos Hb. pose proof (file_len_bound sp pos u Hu) as Hl. pose proof Hu as [_ U2 U3 _].
  destruct (file_length_step L H (m_fs u) x p s pos true U2 U3) as (g & E & N1 & N2 & N3). destruct (loading_fs sp pos pos u g Hu N1 N2 N3) as [Hu1 C1].
  pose proof (validate_run u g ph _ E) as Er. destruct (Z.eqb_spec (p_offset ph mod 4096) (p_vaddr ph mod 4096)) as [Ho|Ho].
  2:{ exists false, u, abs, pos. split; [unfold load_phdr; by rewrite (bind_done _ _ _ _ _ Er)|]. split; [by apply progress_same|done]. }
  destruct (valid_range ph (file_len (m_fs u) s)) eqn:Ev.
  2:{ exists false, (with_fs u g), abs, pos. split; [unfold load_phdr; by rewrite (bind_done _ _ _ _ _ Er)|].
      split; [apply (progress_fs _ _ g); [exact C1|by apply progress_same]|done]. }
  apply valid_range_iff in Ev; [|exact Hb|unfold MAX_FILE_BYTES in Hl; lia|exact Ho]. clear Er.
  destruct (segment_pages ph _ Hb Ev) as (P1 & P2 & _). destruct (segment_parameters ph _ Hb Hl Ev) as (read & zero & R1 & R2 & R3 & -> & Er). rewrite (Er u g E).
  pose proof (field_word ph 4 Hb) as W. fold (p_offset ph) in W. unfold is_u32 in W. pose proof (Z.div_mod (p_offset ph) 4096 ltac:(lia)) as D. pose proof (Z.mod_pos_bound (p_offset ph) 4096 ltac:(lia)).
  rewrite <- (fit_page _ _ Ev) in *. pose proof (fit_offset _ _ Ev) as Hof.
  destruct (load_segment_run sp pos _ abs (p_offset ph - p_offset ph mod 4096) (first_page ph) (page_count ph) _ zero (phdr_writable ph) Hu1 Hpd ltac:(lia)
    ltac:(replace (p_offset ph - p_offset ph mod 4096) with (p_offset ph / 4096 * 4096) by lia; apply Z_mod_mult) R1 R2 R3 ltac:(lia) P2) as (b & u' & abs' & pos' & E' & A & Sg).
  exists b, u', abs', pos'. split; [exact E'|]. split; [apply (progress_fs _ _ g); [exact C1|exact (attempt_progress _ _ _ _ _ _ _ _ A)]|]. intros Hbt. specialize (Sg Hbt).
  split_and!; [|exact Ev|].
  - split; [|intros a c w; exact (maps_kept sp abs _ _ _ u' abs' pos' a c w Hpd A (sg_free _ _ _ _ _ _ _ _ _ _ Sg))]. intros v e Hv Hp.
    rewrite (at_other _ _ _ _ _ _ _ _ _ _ _ _ _ _ A); [exact Hv|]. intros Hin. pose proof (sg_free _ _ _ _ _ _ _ _ _ _ Sg (v - first_page ph) ltac:(lia)) as Hf.
    rewrite Z.add_sub_assoc, Z.add_simpl_l in Hf. unfold entry in Hf. rewrite Hv in Hf. cbn in Hf. congruence.
  - rewrite (fit_page _ _ Ev) in Sg. pose proof (segment_loaded _ _ _ _ ph Hb (ex_intro _ _ Ev) Sg) as Hph. intros a Ha. destruct (Hph a Ha) as (k & G1 & G2 & G3).
    exists k. split_and!; [exact G1|exact G2|]. rewrite G3, (phdr_byte_same (m_fs u) (m_fs (with_fs u g)) s ph a (proj1 N3)). reflexivity.
Qed.

Lemma file_read_loading sp pos u n : loading sp pos u -> 0 <= pos < 2 ^ 31 - MAX_FILE_BYTES -> 0 <= n < 2 ^ 32 ->
  let data := file_slice (m_fs u) s n pos in
  exists g, fs_do (file_read x n) u = Done (data, with_fs u g) /\ loading sp (pos + Z.of_nat (length data)) (with_fs u g) /\ changed x u (with_fs u g) /\
    Forall is_byte data /\ 0 <= pos + Z.of_nat (length data) < 2 ^ 31 - MAX_FILE_BYTES.
Proof.
  intros Hu Hpos Hn data. pose proof (file_len_bound sp pos u Hu) as Hl. pose proof Hu as [_ U2 U3 _]. destruct (file_read_step L H (m_fs u) x p s pos true n U2 U3 Hpos Hn) as (g & E & N1 & N2 & N3).
  fold data in E, N2. destruct (loading_fs sp pos _ u g Hu N1 N2 N3) as [Hu1 C1]. exists g. split_and!; [exact (fs_do_run _ _ _ _ E)|exact Hu1|exact C1| |lia|].
  - apply Forall_forall. intros b Hin. unfold data, file_slice in Hin. apply list_elem_of_In, in_map_iff in Hin as (j & <- & _). apply file_byte_byte. exact (inv_store L _ (no_inv _ _ _ U2)).
  - unfold data, file_slice, MAX_FILE_BYTES in *. rewrite length_map, length_seqZ. lia.
Qed.

(** Header [i] of the table at [ofs]. *)
Definition phdr_at (f : fs St) (ofs i : Z) : list Z := file_slice f s sizeof_phdr (ofs + sizeof_phdr * i).

Lemma phdr_slice_same f g n pos : same_disk f g -> file_slice g s n pos = file_slice f s n pos.
Proof.
  intros Hs. unfold file_slice. rewrite (proj2 (same_byte _ _ s 0 Hs)). apply map_ext. intros j. exact (proj1 (same_byte _ _ s j Hs)).
Qed.

(** Up to the dispatch on the header's type. *)
Lemma phdr_read {B} sp pos u ofs (F : M (machine St) B) (K : list Z -> M (machine St) B) : loading sp pos u -> 0 <= pos < 2 ^ 31 - MAX_FILE_BYTES -> is_i32 ofs ->
  let run := let! length := fs_do (file_length x) in
    if (ofs <? 0) || (length <? ofs) then F
    else fs_do (file_seek x ofs) ;; let! phdr := fs_do (file_read x sizeof_phdr) in if negb (Z.of_nat (List.length phdr) =? sizeof_phdr) then F else K phdr in
  exists u' pos', m_vm u' = m_vm u /\ loading sp pos' u' /\ changed x u u' /\ 0 <= pos' < 2 ^ 31 - MAX_FILE_BYTES /\
    (run u = F u' \/ run u = K (phdr_at (m_fs u) ofs 0) u' /\ 0 <= ofs <= MAX_FILE_BYTES /\ length (phdr_at (m_fs u) ofs 0) = 32%nat /\ Forall is_byte (phdr_at (m_fs u) ofs 0)).
Proof.
  intros Hu Hpos Hofs. cbv zeta. pose proof (file_len_bound sp pos u Hu) as Hl. pose proof Hu as [_ U2 U3 _].
  destruct (file_length_step L H (m_fs u) x p s pos true U2 U3) as (g & E & N1 & N2 & N3). destruct (loading_fs sp pos pos u g Hu N1 N2 N3) as [Hu1 C1].
  rewrite (bind_done _ _ _ _ _ (fs_do_run _ _ _ _ E)). destruct ((ofs <? 0) || (file_len (m_fs u) s <? ofs)) eqn:Eo.
  { exists (with_fs u g), pos. split_and!; [done|exact Hu1|exact C1|lia|lia|by left]. }
  destruct (file_seek_step L H g x p s pos true ofs N1 N2 ltac:(lia)) as (g2 & E2 & N4 & N5 & N6). destruct (loading_fs sp pos ofs _ g2 Hu1 N4 N5 N6) as [Hu2 C2].
  rewrite (bind_done _ _ _ _ _ (fs_do_run _ (with_fs u g) _ _ E2)).
  destruct (file_read_loading sp ofs _ sizeof_phdr Hu2 ltac:(unfold MAX_FILE_BYTES in *; lia) ltac:(unfold sizeof_phdr; lia)) as (g3 & E3 & Hu3 & C3 & Hb & Hp3). cbv zeta in *.
  rewrite (bind_done _ _ _ _ _ E3). pose proof (changed_trans _ _ _ _ (changed_trans _ _ _ _ C1 C2) C3) as C.
  assert (Eph : file_slice g2 s sizeof_phdr ofs = phdr_at (m_fs u) ofs 0).
  { unfold phdr_at, file_slice. assert (Hs : same_disk (m_fs u) g2) by exact (same_disk_trans _ _ _ (proj1 N3) (proj1 N6)). rewrite Z.mul_0_r, Z.add_0_r, (proj2 (same_byte _ _ s 0 Hs)).
    apply map_ext. intros j. exact (proj1 (same_byte _ _ s j Hs)). }
  cbn [with_fs m_fs] in *. rewrite Eph in *. exists (with_fs (with_fs (with_fs u g) g2) g3). eexists. split_and!; [done|exact Hu3|exact C|apply Hp3|apply Hp3|].
  destruct (Z.eqb_spec (Z.of_nat (length (phdr_at (m_fs u) ofs 0))) sizeof_phdr) as [El|El]; [right|by left]. cbn [negb]. split_and!; [done|lia|lia| |exact Hb].
  unfold sizeof_phdr in El. lia.
Qed.

Lemma phdr_at_next f ofs i : phdr_at f (ofs + sizeof_phdr) i = phdr_at f ofs (i + 1).
Proof. unfold phdr_at. f_equal. lia. Qed.

Lemma phdr_at_same f g ofs i : same_disk f g -> phdr_at g ofs i = phdr_at f ofs i.
Proof. apply phdr_slice_same. Qed.

Lemma phdr_done_kept f abs abs' m m' ph : kept_bytes abs abs' m m' -> phdr_done f abs m ph -> phdr_done f abs' m' ph.
Proof. intros [_ Hk] (H1 & H2 & H3). split_and!; [exact H1|exact H2|]. intros Ht. destruct (H3 Ht) as [F1 F2]. split; [exact F1|]. intros a Ha. by apply Hk, F2. Qed.

(** The headers after the first. *)
Lemma phdrs_next f g ofs n abs1 abs' m1 m' : same_disk f g -> kept_bytes abs1 abs' m1 m' -> phdr_done f abs1 m1 (phdr_at f ofs 0) ->
  (forall i, 0 <= i < Z.of_nat n -> phdr_done g abs' m' (phdr_at g (ofs + sizeof_phdr) i)) ->
  forall i, 0 <= i < Z.of_nat (S n) -> phdr_done f abs' m' (phdr_at f ofs i).
Proof.
  intros Hs Hk H0 Hn i Hi. destruct (decide (i = 0)) as [->|Hne]; [exact (phdr_done_kept _ _ _ _ _ _ Hk H0)|].
  apply (phdr_done_same f g _ _ _ Hs). specialize (Hn (i - 1) ltac:(lia)). rewrite phdr_at_next, Z.sub_add, (phdr_at_same f g ofs i Hs) in Hn. exact Hn.
Qed.

Lemma load_phdrs_run : forall n sp pos u abs ofs, loading sp pos u -> PagedirInv.dirs sp !! pd = Some abs -> 0 <= pos < 2 ^ 31 - MAX_FILE_BYTES -> is_i32 ofs ->
  exists b u' abs' pos', load_phdrs n x ofs u = Done (b, u') /\ progress sp u u' abs' pos' /\
    (b = true -> kept_bytes abs abs' (vmem (m_vm u)) (vmem (m_vm u')) /\
       forall i, 0 <= i < Z.of_nat n -> phdr_done (m_fs u) abs' (vmem (m_vm u')) (phdr_at (m_fs u) ofs i)).
Proof.
  induction n as [|n IH]; intros sp pos u abs ofs Hu Hpd Hpos Hofs; cbn [load_phdrs].
  { exists true, u, abs, pos. split; [reflexivity|]. split; [by apply progress_same|]. intros _. split; [apply bytes_kept_refl|lia]. }
  destruct (phdr_read sp pos u ofs (ret false) (fun phdr => let file_ofs := i32 (ofs + sizeof_phdr) in
    if (p_type phdr =? PT_DYNAMIC) || (p_type phdr =? PT_INTERP) || (p_type phdr =? PT_SHLIB) then ret false
    else if p_type phdr =? PT_LOAD then let! b := load_phdr x phdr in if b : bool then load_phdrs n x file_ofs else ret false
    else load_phdrs n x file_ofs) Hu Hpos Hofs) as (u1 & pos1 & Ev & Hu1 & C1 & P1 & Hrun). cbv zeta in Hrun.
  set (ph := phdr_at (m_fs u) ofs 0) in *. pose proof (progress_same sp u1 abs pos1 Hpd Hu1 P1) as Q1. assert (Hf : progress sp u u1 abs pos1).
  { destruct Q1 as [A1 A2 A3 A4]. split; [exact A1|exact A2|exact C1|]. by rewrite <- Ev. }
  pose proof (proj1 (proj1 C1)) as Sd. assert (Hfail : forall b u' abs' pos', progress sp u u' abs' pos' -> b = false -> progress sp u u' abs' pos' /\
    (b = true -> kept_bytes abs abs' (vmem (m_vm u)) (vmem (m_vm u')) /\ forall i, 0 <= i < Z.of_nat (S n) -> phdr_done (m_fs u) abs' (vmem (m_vm u')) (phdr_at (m_fs u) ofs i)))
    by (intros b u' abs' pos' Hp ->; split; [exact Hp|done]).
  destruct Hrun as [->|(-> & Hofs2 & Hlen & Hb)]; [exists false, u1, abs, pos1; split; [reflexivity|by apply Hfail]|].
  destruct ((p_type ph =? PT_DYNAMIC) || (p_type ph =? PT_INTERP) || (p_type ph =? PT_SHLIB)) eqn:Et; [exists false, u1, abs, pos1; split; [reflexivity|by apply Hfail]|].
  assert (Hty : p_type ph ∉ [PT_DYNAMIC; PT_INTERP; PT_SHLIB]) by (rewrite !not_elem_of_cons; unfold PT_DYNAMIC, PT_INTERP, PT_SHLIB in *; split_and!; [lia|lia|lia|apply not_elem_of_nil]).
  rewrite (i32_small (ofs + sizeof_phdr)) by (unfold is_i32, sizeof_phdr, MAX_FILE_BYTES in *; lia). assert (Ho' : is_i32 (ofs + sizeof_phdr)) by (unfold is_i32, sizeof_phdr, MAX_FILE_BYTES in *; lia).
  destruct (Z.eqb_spec (p_type ph) PT_LOAD) as [Hl|Hl].
  - destruct (load_phdr_run sp pos1 u1 abs ph Hu1 Hpd P1 Hb) as (b & u2 & abs2 & pos2 & E2 & Q2 & Hok). rewrite (bind_done _ _ _ _ _ E2).
    pose proof (progress_trans sp u u1 u2 abs abs abs2 pos1 pos2 _ _ Hpd (bytes_kept_refl abs (vmem (m_vm u))) Hf) as T2. rewrite with_abs_same in T2 by exact Hpd. specialize (T2 Q2).
    destruct b; [|exists false, u2, abs2, pos2; split; [reflexivity|by apply Hfail]]. destruct (Hok eq_refl) as (K2 & F2 & L2). rewrite Ev in K2. clear Hok.
    destruct (IH (with_abs pd sp abs2) pos2 u2 abs2 (ofs + sizeof_phdr) (pr_loading _ _ _ _ _ Q2) ltac:(cbn; apply lookup_insert_eq) (pr_pos _ _ _ _ _ Q2) Ho') as (b & u' & abs' & pos' & E' & Q' & Hok).
    exists b, u', abs', pos'. split; [exact E'|]. split; [exact (progress_trans sp u u2 u' abs abs2 abs' pos2 pos' _ _ Hpd K2 T2 Q')|]. intros Hbt. destruct (Hok Hbt) as [K3 L3].
    split; [exact (bytes_kept_trans _ _ _ _ _ _ K2 K3)|]. apply (phdrs_next (m_fs u) (m_fs u2) ofs n abs2 abs' _ _ (proj1 (proj1 (pr_changed _ _ _ _ _ T2))) K3); [|exact L3].
    apply (phdr_done_same _ (m_fs u1) _ _ _ Sd). split_and!; [exact Hlen|exact Hty|]. intros _. by split.
  - destruct (IH sp pos1 u1 abs (ofs + sizeof_phdr) Hu1 Hpd P1 Ho') as (b & u' & abs' & pos' & E' & Q' & Hok). exists b, u', abs', pos'. split; [exact E'|].
    split; [apply (progress_trans sp u u1 u' abs abs abs' pos1 pos' _ _ Hpd (bytes_kept_refl abs (vmem (m_vm u))) Hf); rewrite with_abs_same by exact Hpd; exact Q'|].
    intros Hbt. destruct (Hok Hbt) as [K3 L3]. rewrite Ev in K3. split; [exact K3|]. apply (phdrs_next (m_fs u) (m_fs u1) ofs n abs abs' _ _ Sd K3); [|exact L3].
    split_and!; [exact Hlen|exact Hty|]. intros Hl'. done.
Qed.

(** ** The stack *)

Lemma bytes_kept_insert sp st st' abs v k w : PagedirInv.dirs sp !! pd = Some abs -> data_kept sp st st' -> present (entry abs v) = false ->
  kept_bytes abs (<[v := user_entry k w]> abs) (vmem st) (vmem st').
Proof.
  intros Hpd Hd Hp. assert (Hkeep : forall v' e, abs !! v' = Some e -> present e = true -> <[v := user_entry k w]> abs !! v' = Some e).
  { intros v' e Hv He. rewrite lookup_insert_ne; [exact Hv|]. intros ->. unfold entry in Hp. rewrite Hv in Hp. cbn in Hp. congruence. }
  split; [exact Hkeep|]. intros a b w' (k' & E & [Hm1 Hm2] & B). exists k'. split_and!; [by apply Hkeep|done|].
  pose proof (Z.mod_pos_bound a 4096 ltac:(lia)) as M. rewrite (Hd k'); [exact B| |exact M]. right. exists pd, abs, (a / 4096), (user_entry k' w'). by split_and!.
Qed.

Definition stack_page : Z := user_pages - 1.

Lemma setup_stack_run sp pos u abs : loading sp pos u -> PagedirInv.dirs sp !! pd = Some abs -> 0 <= pos < 2 ^ 31 - MAX_FILE_BYTES ->
  exists r u' abs', setup_stack u = Done (r, u') /\ progress sp u u' abs' pos /\
    (r = None \/ r = Some PHYS_BASE /\ kept_bytes abs abs' (vmem (m_vm u)) (vmem (m_vm u')) /\
       forall a, PHYS_BASE - 4096 <= a < PHYS_BASE -> maps_byte abs' (vmem (m_vm u')) a 0 true).
Proof.
  intros Hu Hpd Hpos. unfold setup_stack. destruct (get_frame L H x p s pd sp pos u (Z.lor PAL_USER PAL_ZERO) Hu eq_refl) as (k & st & E0 & D0 & Hr).
  rewrite (bind_done _ _ _ _ _ E0). pose proof (changed_vm L H x p s pd sp pos u st Hu) as C0. destruct Hr as [(-> & V0)|(Hk & Hkh & V0 & Hz)].
  { exists None, (with_vm u st), abs. split; [reflexivity|]. split; [|by left]. split; [rewrite with_abs_same by exact Hpd; exact (loading_vm _ _ _ _ _ _ _ _ _ _ _ Hu V0)|exact Hpos|exact C0|exact D0]. }
  rewrite (proj2 (Z.eqb_neq _ _) Hk). cbn [negb]. pose proof (loading_vm _ _ _ _ _ _ _ _ _ _ _ Hu V0) as Hu0. change (PHYS_BASE - PGSIZE) with (4096 * stack_page).
  assert (Hv : 0 <= stack_page < user_pages) by (unfold stack_page, user_pages; lia).
  destruct (install_frame L H x p s pd sp pos _ abs k stack_page true Hu0 Hkh Hpd Hv) as (b & st2 & E2 & D2 & Hr). rewrite (bind_done _ _ _ _ _ E2).
  pose proof (changed_trans _ _ _ _ C0 (changed_vm L H x p s pd _ _ _ st2 Hu0)) as C2. assert (D3 : data_kept sp st st2) by (intros a Ha; exact (D2 a (data_hold sp k a Ha))).
  destruct Hr as [(-> & V2)|(-> & Hp & Hm & V2)].
  - pose proof (loading_vm _ _ _ _ _ _ _ _ _ _ _ Hu0 V2) as Hu2. destruct (free_frame L H x p s pd sp _ _ k Hu2 Hkh) as (st3 & E3 & D4 & V3). rewrite (bind_done _ _ _ _ _ E3).
    exists None, (with_vm (with_vm (with_vm u st) st2) st3), abs. split; [reflexivity|]. split; [|by left]. split; [|exact Hpos| |].
    + rewrite with_abs_same by exact Hpd. exact (loading_vm _ _ _ _ _ _ _ _ _ _ _ Hu2 V3).
    + exact (changed_trans _ _ _ _ C2 (changed_vm L H x p s pd _ _ _ st3 Hu2)).
    + exact (data_kept_trans _ _ _ _ D0 (data_kept_trans _ _ _ _ D3 D4)).
  - exists (Some PHYS_BASE), (with_vm (with_vm u st) st2), (<[stack_page := user_entry k true]> abs). split; [reflexivity|].
    split; [split; [exact (loading_vm _ _ _ _ _ _ _ _ _ _ _ Hu0 V2)|exact Hpos|exact C2|exact (data_kept_trans _ _ _ _ D0 D3)]|right].
    split; [done|]. split; [exact (bytes_kept_insert sp (m_vm u) st2 abs _ k true Hpd (data_kept_trans _ _ _ _ D0 D3) Hp)|]. intros a Ha. exists k.
    replace (a / 4096) with stack_page by (apply (Z.div_unique_pos _ _ _ (a - (PHYS_BASE - 4096))); unfold stack_page, user_pages, PHYS_BASE in *; lia).
    rewrite lookup_insert_eq. split; [done|]. split; [exact Hm|]. pose proof (Z.mod_pos_bound a 4096 ltac:(lia)) as M. cbn [with_vm m_vm].
    assert (Hin : data_page (hold sp k) k) by (left; cbn; set_solver). rewrite (D2 k Hin _ M). exact (Hz ltac:(done) _ M).
Qed.

(** ** After opening the executable *)

Definition load_body : M (machine St) (option (Z * Z)) :=
  let! ehdr := fs_do (file_read x sizeof_ehdr) in
  if bad_ehdr ehdr then ret None
  else
    let! b := load_phdrs (Z.to_nat (e_phnum ehdr)) x (i32 (e_phoff ehdr)) in
    if negb b then ret None
    else
      let! esp := setup_stack in
      match esp with None => ret None | Some esp => ret (Some (e_entry ehdr, esp)) end.

(** The program at [s] is in the address space [abs]. *)
Record program (f : fs St) (abs : gmap Z Z) (m : mem) (entry esp : Z) : Prop := {
  pg_ehdr : bad_ehdr (file_slice f s sizeof_ehdr 0) = false;
  pg_entry : entry = e_entry (file_slice f s sizeof_ehdr 0);
  pg_phdrs i : 0 <= i < e_phnum (file_slice f s sizeof_ehdr 0) ->
    phdr_done f abs m (phdr_at f (i32 (e_phoff (file_slice f s sizeof_ehdr 0))) i);
  pg_esp : esp = PHYS_BASE;
  pg_stack a : PHYS_BASE - 4096 <= a < PHYS_BASE -> maps_byte abs m a 0 true
}.

Lemma load_body_run sp u abs : loading sp 0 u -> PagedirInv.dirs sp !! pd = Some abs ->
  exists r u' abs' pos', load_body u = Done (r, u') /\ progress sp u u' abs' pos' /\
    match r with Some (entry, esp) => program (m_fs u) abs' (vmem (m_vm u')) entry esp | None => True end.
Proof.
  intros Hu Hpd. unfold load_body. destruct (file_read_loading sp 0 u sizeof_ehdr Hu ltac:(unfold MAX_FILE_BYTES; lia) ltac:(unfold sizeof_ehdr; lia)) as (g & E & Hu1 & C1 & Hb & P1).
  cbv zeta in *. rewrite (bind_done _ _ _ _ _ E). set (ehdr := file_slice (m_fs u) s sizeof_ehdr 0) in *. pose proof (proj1 (proj1 C1)) as Sd. cbn [with_fs m_fs] in Sd.
  pose proof (progress_fs _ _ _ _ _ _ C1 (progress_same sp _ abs _ Hpd Hu1 P1)) as Q1. destruct (bad_ehdr ehdr) eqn:Eb.
  { eexists None, _, abs, _. split; [reflexivity|]. split; [exact Q1|done]. }
  destruct (load_phdrs_run (Z.to_nat (e_phnum ehdr)) sp _ _ abs (i32 (e_phoff ehdr)) Hu1 Hpd P1 ltac:(apply i32_range)) as (b & u2 & abs2 & pos2 & E2 & Q2 & Hok).
  rewrite (bind_done _ _ _ _ _ E2). pose proof (progress_fs _ _ _ _ _ _ C1 Q2) as Q2'. destruct b; cbn [negb]; [|exists None, u2, abs2, pos2; split; [reflexivity|]; split; [exact Q2'|done]].
  destruct (Hok eq_refl) as [K2 L2]. clear Hok.
  destruct (setup_stack_run (with_abs pd sp abs2) pos2 u2 abs2 (pr_loading _ _ _ _ _ Q2) ltac:(cbn; apply lookup_insert_eq) (pr_pos _ _ _ _ _ Q2)) as (r & u' & abs' & E3 & Q3 & Hr).
  rewrite (bind_done _ _ _ _ _ E3). pose proof (progress_trans sp u u2 u' abs abs2 abs' pos2 pos2 _ _ Hpd K2 Q2' Q3) as Q.
  destruct Hr as [->|(-> & K3 & Hs)]; [exists None, u', abs', pos2; split; [reflexivity|]; split; [exact Q|done]|].
  exists (Some (e_entry ehdr, PHYS_BASE)), u', abs', pos2. split; [reflexivity|]. split; [exact Q|]. split; [exact Eb|done| |done|exact Hs].
  intros i Hi. apply (phdr_done_same _ g _ _ _ Sd). fold ehdr. rewrite <- (phdr_at_same (m_fs u) g _ _ Sd). apply (phdr_done_kept _ _ _ _ _ _ K3). apply L2. fold ehdr in Hi. lia.
Qed.
End load.

(** ** Loading a program *)

Section whole.
Context {St : Type} `{!SectorStore St} {q pm : Z} {im : inode} {priv : Z -> Prop}.
Implicit Types (sp : space) (u : machine St) (L : list Z) (H : list (Z * Z)).
Abbreviation names_ok := (names_ok (q := q) (pm := pm) (im := im) (priv := priv)).
Abbreviation al := (@the_free_map St _).

Definition new_space (sp : space) (pd : Z) (abs : gmap Z Z) : space :=
  mk_space (<[pd := abs]> (PagedirInv.dirs sp)) (held sp) (Some pd) (kmap sp).

Lemma data_new_space sp pd abs a : PagedirInv.dirs sp !! pd = None -> data_page sp a -> data_page (new_space sp pd abs) a.
Proof.
  intros Hn [Ha|(pd' & abs0 & v & e & Hd & Hr)]; [by left|right]. exists pd', abs0, v, e. cbn. rewrite lookup_insert_ne by congruence. by split.
Qed.

Lemma new_space_abs sp pd abs abs' : with_abs pd (new_space sp pd abs) abs' = new_space sp pd abs'.
Proof. unfold with_abs, new_space. cbn. by rewrite insert_insert_eq. Qed.

(** A new address space for the running thread. *)
Lemma new_directory sp u : vm_ok sp (m_vm u) ->
  (exists st, vm_do pagedir_create u = Done (NULL, with_vm u st) /\ vm_ok sp st /\ data_kept sp (m_vm u) st) \/
  exists pd st1 st, vm_do pagedir_create u = Done (pd, with_vm u st1) /\ pd <> NULL /\ PagedirInv.dirs sp !! pd = None /\
    process_activate (mk_machine st1 (m_fs u) pd (executable u)) = Done (tt, mk_machine st (m_fs u) pd (executable u)) /\
    vm_ok (new_space sp pd ∅) st /\ data_kept sp (m_vm u) st.
Proof.
  intros [own Hi]. destruct (create_spec own sp (m_vm u) Hi) as (r & own' & st1 & E & D & [(-> & V & _)|(Hr & Hd & _ & V)]).
  { left. exists st1. split_and!; [by apply vm_do_run|by exists own'|exact D]. }
  right. destruct (activate_spec own' _ st1 (Some r) V ltac:(cbn; rewrite lookup_insert_eq; by eexists)) as (st & E2 & V2). cbn [default id from_option] in E2.
  assert (Em : vmem st = vmem st1).
  { destruct (dir_facts own' _ st1 r V ltac:(cbn; rewrite lookup_insert_eq; by eexists)) as [_ F]. rewrite activate_run in E2 by (destruct F; unfold PHYS_BASE, NULL in *; lia). by injection E2 as <-. }
  exists r, st1, st. split_and!; [by apply vm_do_run|exact Hr|exact Hd| |by exists own'|apply (data_kept_trans _ _ _ _ D); by apply data_kept_same].
  unfold process_activate. rewrite (bind_done _ _ _ _ _ eq_refl). unfold vm_do. cbn [m_vm pagedir]. by rewrite E2.
Qed.

(** What the hardware finds at user address [a] of the directory [pd]: byte [b]
    in a page that user programs may read, and write if [w]. *)
Definition user_sees (st : vm) (pd a b : Z) (w : bool) : Prop :=
  exists k, walk (vmem st) pd (a / 4096) = user_entry k w /\ user_mapping k w /\ vmem st !! (k + a mod 4096) = Some b.

Lemma maps_seen sp st pd abs a b w : vm_ok (new_space sp pd abs) st -> 0 <= a < PHYS_BASE -> maps_byte abs (vmem st) a b w -> user_sees st pd a b w.
Proof.
  intros [own Hi] Ha (k & E & Hm & B). exists k. split; [|by split]. destruct (user_split (new_space sp pd abs) pd a abs) as (Hv & _ & _); [split; [apply lookup_insert_eq|exact Ha]|].
  unfold page_of in Hv. rewrite (walk_user own _ st pd abs _ Hi); [|apply lookup_insert_eq|exact Hv]. unfold entry. by rewrite E.
Qed.

(** The executable at [s] as its headers say. *)
Record runs_program (f : fs St) (s : Z) (st : vm) (pd entry esp : Z) : Prop := {
  rp_ehdr : bad_ehdr (file_slice f s sizeof_ehdr 0) = false;
  rp_entry : entry = e_entry (file_slice f s sizeof_ehdr 0);
  rp_segments i a (ph := phdr_at s f (i32 (e_phoff (file_slice f s sizeof_ehdr 0))) i) :
    0 <= i < e_phnum (file_slice f s sizeof_ehdr 0) -> p_type ph = PT_LOAD -> p_vaddr ph <= a < p_vaddr ph + p_memsz ph ->
    4096 <= a < PHYS_BASE - 1 /\ user_sees st pd a (phdr_byte f s ph a) (phdr_writable ph);
  rp_esp : esp = PHYS_BASE;
  rp_stack a : PHYS_BASE - 4096 <= a < PHYS_BASE -> user_sees st pd a 0 true
}.

Lemma program_runs sp st pd abs f s entry esp : vm_ok (new_space sp pd abs) st -> program s f abs (vmem st) entry esp -> runs_program f s st pd entry esp.
Proof.
  intros Hok [P1 P2 P3 P4 P5]. split; [exact P1|exact P2| |exact P4|intros a Ha; apply (maps_seen sp st pd abs); [exact Hok|unfold PHYS_BASE in *; lia|by apply P5]].
  intros i a ph Hi Ht Ha. destruct (P3 i Hi) as (_ & _ & Hl). destruct (Hl Ht) as [[_ _ _ _ F5 F6] Hb]. fold ph in F5, F6, Hb. split; [unfold PHYS_BASE in *; lia|].
  apply (maps_seen sp st pd abs); [exact Hok|unfold PHYS_BASE in *; lia|by apply Hb].
Qed.

Lemma runs_same f g s st pd entry esp : same_disk f g -> runs_program g s st pd entry esp -> runs_program f s st pd entry esp.
Proof.
  intros Hs [R1 R2 R3 R4 R5]. rewrite (phdr_slice_same s f g _ _ Hs) in R1, R2, R3. split; [exact R1|exact R2| |exact R4|exact R5].
  intros i a. rewrite <- (phdr_at_same s f g _ _ Hs). intros ph Hi Ht Ha. destruct (R3 i a Hi Ht Ha) as [R6 R7]. split; [exact R6|].
  rewrite (phdr_byte_same f g s _ a Hs) in R7. exact R7.
Qed.

(** What [load] leaves behind, whatever its result. *)
Record after_load (L : list Z) (H : list (Z * Z)) (sp : space) (u u' : machine St) : Prop := {
  al_vm : if pagedir u' =? NULL then vm_ok sp (m_vm u')
          else PagedirInv.dirs sp !! pagedir u' = None /\ exists abs, vm_ok (new_space sp (pagedir u') abs) (m_vm u');
  al_data : data_kept sp (m_vm u) (m_vm u');
  al_names : names_ok L H (m_fs u');
  al_disk : same_disk (m_fs u) (m_fs u');
  al_files y fl : files (m_fs u) !! y = Some fl -> files (m_fs u') !! y = Some fl
}.

(** Opening the executable. *)
Lemma open_executable L H sp pd st u fp s0 depth frame : vm_ok (new_space sp pd ∅) st ->
  names_ok L H (m_fs u) -> closed L (m_fs u) -> starts_at (m_fs u) L H fp s0 -> good_path fp depth -> (15 <= length frame)%nat ->
  (forall s, resolve (m_fs u) s0 (path_words fp) = Some s -> isdir_at (m_fs u) s = false) ->
  exists x b g, filesys_open al depth frame fp false (m_fs u) = Done ((x, b), g) /\ same_disk (m_fs u) g /\
    match resolve (m_fs u) s0 (path_words fp) with
    | None => x = 0 /\ names_ok L H g /\ files g = files (m_fs u)
    | Some s => x <> 0 /\ exists p h, file_deny_write x g = Done (tt, h) /\ same_disk (m_fs u) h /\
        loading (q := q) (pm := pm) (im := im) (priv := priv) L H x p s pd (new_space sp pd ∅) 0 (mk_machine st h pd x) /\
        files (m_fs u) !! x = None /\ forall y, y <> x -> files h !! y = files (m_fs u) !! y
    end.
Proof.
  intros Hst Hf Hc Hs Hfp Hfr Hreg. destruct (good_nonzero fp depth Hfp) as [N1 N2]. destruct Hfp as (_ & H2 & H3 & H4).
  destruct (filesys_open_run L H (m_fs u) fp s0 depth frame false Hf Hc Hs N1 H2 H3 H4 Hfr) as (x & b & g & E & Sd & _ & Hr). exists x, b, g. split; [exact E|]. split; [exact Sd|].
  destruct (resolve (m_fs u) s0 (path_words fp)) as [s|] eqn:Er; [|exact Hr]. destruct Hr as (Hx & Eb & p & Hg & Hfile). rewrite (Hreg s eq_refl) in Eb. subst b. destruct Hfile as [Hnew Ef].
  split; [exact Hx|]. assert (Hq : x <> q).
  { intros ->. destruct (fm_open _ _ _ _ _ (inv_map _ _ _ _ _ _ (no_inv _ _ _ Hf))) as (? & ? & ?). congruence. }
  destruct (file_deny_step L H g x p s 0 Hg) as (h & Ed & Hh & Hhd & Ho); [rewrite Ef; apply lookup_insert_eq|exact Hx|exact Hq| |].
  { rewrite (same_isdir (m_fs u) g s Sd). exact (Hreg s eq_refl). }
  exists p, h. split; [exact Ed|]. destruct Ho as (O1 & _ & _ & O4). split_and!; [exact (same_disk_trans _ _ _ Sd O1)|by split|exact Hnew|].
  intros y Hy. rewrite (O4 y Hy), Ef. by rewrite lookup_insert_ne.
Qed.

Lemma load_opened depth frame fp u pd st1 st x b g h : vm_do pagedir_create u = Done (pd, with_vm u st1) -> pd <> NULL ->
  process_activate (mk_machine st1 (m_fs u) pd (executable u)) = Done (tt, mk_machine st (m_fs u) pd (executable u)) ->
  filesys_open al depth frame fp false (m_fs u) = Done ((x, b), g) ->
  (x = NULL -> load al depth frame fp u = Done (None, mk_machine st g pd (executable u))) /\
  (x <> NULL -> file_deny_write x g = Done (tt, h) -> load al depth frame fp u = load_body x (mk_machine st h pd x)).
Proof.
  intros E1 Hpd E2 E3. unfold load. rewrite (bind_done _ _ _ _ _ E1).
  rewrite (bind_done _ _ _ tt (mk_machine st1 (m_fs u) pd (executable u))) by reflexivity. rewrite (proj2 (Z.eqb_neq _ _) Hpd).
  rewrite (bind_done _ _ _ _ _ E2). rewrite (bind_done _ _ _ (x, b) (mk_machine st g pd (executable u))) by (unfold fs_do; cbn [m_fs]; by rewrite E3). split.
  - intros ->. reflexivity.
  - intros Hx Ed. cbv beta iota. rewrite (proj2 (Z.eqb_neq _ _) Hx). rewrite (bind_done _ _ _ tt (mk_machine st g pd x)) by reflexivity.
    by rewrite (bind_done _ _ _ tt (mk_machine st h pd x)) by (unfold fs_do; cbn [m_fs]; by rewrite Ed).
Qed.

End whole.

