(* ===== verification/Syscall.v ===== *)
(** * userprog/syscall.c: system calls

    The handler of interrupt 0x30.  It reads the number and the arguments of a
    call from the user stack, checks pointers against the page directory, and
    runs the call over the machine of Load.v; the thread's descriptors and the
    console's output are kept beside it.

    The kernel runs on the page directory of the process, so it reads and writes
    user memory through the page tables; an access that they do not allow is a
    page fault in the kernel, which panics.  A path is read before it is
    followed.  [exit] does not return: a call that exits yields its status, and
    [process_execute], [process_wait] and [shutdown_power_off] are left to the
    caller of the handler. *)

From stdpp Require Import options.
From S2P Require Import Prelude Bytes KList Bitmap Mem Str Vaddr Palloc Pagedir Block Store Inode File FreeMap Directory Filesys Load.
Local Open Scope Z_scope.
Local Open Scope kernel_scope.

(** ** The processor's access to memory *)

(** The address in the kernel's map of physical memory of the byte at [va], by
    the tables of the active directory.  CR0.WP is set: the kernel too may not
    write a page that is read-only. *)
Definition mmu (write : bool) (va : Z) : MV Z :=
  let! v := get in
  let! pde := load_word (cr3 v + PHYS_BASE + 4 * pd_no va) in
  if Z.land pde PTE_P =? 0 then fail BadPointer
  else
    let! pte := load_word (Z.land pde PTE_ADDR + PHYS_BASE + 4 * pt_no va) in
    if Z.land pte PTE_P =? 0 then fail BadPointer
    else if write && (Z.land pte PTE_W =? 0) then fail BadPointer
    else ret (Z.land pte PTE_ADDR + PHYS_BASE + pg_ofs va).

Definition user_load8 (va : Z) : MV Z := let! p := mmu false va in on_vm (on_mem (load8 p)).
Definition user_store8 (va b : Z) : MV unit := let! p := mmu true va in on_vm (on_mem (store8 p b)).

Fixpoint user_load (n : nat) (va : Z) : MV (list Z) :=
  match n with
  | O => ret []
  | S n => let! b := user_load8 va in let! l := user_load n (u32 (va + 1)) in ret (b :: l)
  end.

Fixpoint user_store (l : list Z) (va : Z) : MV unit :=
  match l with
  | [] => ret tt
  | b :: l => user_store8 va b ;; user_store l (u32 (va + 1))
  end.

Definition user_word (va : Z) : MV Z := let! l := user_load 4 va in ret (le_decode l).

(** The bytes up to the first null byte. *)
Fixpoint user_string (fuel : nat) (va : Z) : MV (list Z) :=
  match fuel with
  | O => fail OutOfFuel
  | S fuel =>
      let! b := user_load8 va in
      if b =? 0 then ret [] else let! l := user_string fuel (u32 (va + 1)) in ret (b :: l)
  end.

(** The bytes that can be read, [n] at most. *)
Fixpoint user_prefix (n : nat) (va : Z) (v : vm) : list Z :=
  match n with
  | O => []
  | S n => match user_load8 va v with Done (b, _) => b :: user_prefix n (u32 (va + 1)) v | Fault _ => [] end
  end.

(** ** The state of a process *)

(** [struct thread_fd]; [f] and [d] may be NULL. *)
Record thread_fd := mk_fd { fd : Z; fd_file : Z; fd_dir : Z }.

Record sys (S : Type) := mk_sys { s_machine : machine S; fd_map : list thread_fd; fd_count : Z; console : list Z }.
Arguments mk_sys {S}.
Arguments s_machine {S}.
Arguments fd_map {S}.
Arguments fd_count {S}.
Arguments console {S}.

(** How a call ends. *)
Inductive result (A : Type) := Returns (a : A) | Exits (status : Z).
Arguments Returns {A}.
Arguments Exits {A}.

(** What the handler leaves to do: to resume the process with this [eax], to
    start a program, to wait for a child, to switch the machine off. *)
Inductive action := Resume (eax : Z) | Execute (command : Z) | WaitFor (tid : Z) | PowerOff.

(** lib/syscall-nr.h *)
Definition SYS_HALT : Z := 0.
Definition SYS_EXIT : Z := 1.
Definition SYS_EXEC : Z := 2.
Definition SYS_WAIT : Z := 3.
Definition SYS_CREATE : Z := 4.
Definition SYS_REMOVE : Z := 5.
Definition SYS_OPEN : Z := 6.
Definition SYS_FILESIZE : Z := 7.
Definition SYS_READ : Z := 8.
Definition SYS_WRITE : Z := 9.
Definition SYS_SEEK : Z := 10.
Definition SYS_TELL : Z := 11.
Definition SYS_CLOSE : Z := 12.
Definition SYS_PRACTICE : Z := 13.
Definition SYS_CHDIR : Z := 16.
Definition SYS_MKDIR : Z := 17.
Definition SYS_READDIR : Z := 18.
Definition SYS_ISDIR : Z := 19.
Definition SYS_INUMBER : Z := 20.

Section code.
Context {St : Type} `{!SectorStore St} (al : allocator St) (depth fuel : nat).
(** The uninitialised variables of the functions called: a name array, a
    directory entry, an inode pointer. *)
Context (frame entry : list Z) (inode : Z).
Abbreviation MS := (M (sys St)).

Definition mach {A} (f : M (machine St) A) : MS A := fun y =>
  match f (s_machine y) with
  | Done (a, u) => Done (a, mk_sys u (fd_map y) (fd_count y) (console y))
  | Fault e => Fault e
  end.

Definition set_fd_map (l : list thread_fd) : MS unit := modify (fun y => mk_sys (s_machine y) l (fd_count y) (console y)).
Definition set_fd_count (n : Z) : MS unit := modify (fun y => mk_sys (s_machine y) (fd_map y) n (console y)).
Definition putbuf (l : list Z) : MS unit := modify (fun y => mk_sys (s_machine y) (fd_map y) (fd_count y) (console y ++ l)).

Definition then_ {A B} (m : MS (result A)) (k : A -> MS (result B)) : MS (result B) :=
  let! r := m in match r with Returns a => k a | Exits status => ret (Exits status) end.

Definition exit {A} (exit_status : Z) : MS (result A) := ret (Exits exit_status).

Definition is_valid_args (args number_args : Z) : MS bool :=
  let last := u32 (args + 4 * number_args) in
  if negb (is_user_vaddr args && is_user_vaddr last) then ret false
  else
    let! y := get in
    let active_pd := pagedir (s_machine y) in
    let! pd_beginning := mach (vm_do (pagedir_get_page active_pd args)) in
    let! pd_end := mach (vm_do (pagedir_get_page active_pd last)) in
    ret (negb (pd_beginning =? NULL) && negb (pd_end =? NULL)).

Definition is_valid_file (file : Z) : MS bool := if file =? NULL then ret false else is_valid_args file 1.

(** *** Descriptors *)

Definition find_fd (l : list thread_fd) (n : Z) : option thread_fd := List.find (fun w => fd w =? n) l.

Definition get_file_from_fd (n : Z) : MS Z := let! y := get in ret (from_option fd_file NULL (find_fd (fd_map y) n)).
Definition get_dir_from_fd (n : Z) : MS Z := let! y := get in ret (from_option fd_dir NULL (find_fd (fd_map y) n)).

Fixpoint remove_first (n : Z) (l : list thread_fd) : list thread_fd :=
  match l with
  | [] => []
  | w :: l => if fd w =? n then l else w :: remove_first n l
  end.

Definition remove_file (n : Z) : MS unit := let! y := get in set_fd_map (remove_first n (fd_map y)).

(** *** Calls *)

Definition path (va : Z) : MS (list Z) := mach (vm_do (user_string fuel va)).

Definition create (file initial_size : Z) (isdir : bool) : MS (result Z) :=
  let! valid := is_valid_file file in
  if negb valid then exit (-1)
  else
    let! name := path file in
    let! b := mach (fs_do (filesys_create al depth entry frame name (i32 initial_size) isdir)) in
    ret (Returns (if b : bool then 1 else 0)).

Definition remove (file : Z) : MS Z :=
  let! name := path file in
  let! b := mach (fs_do (filesys_remove al depth frame name)) in
  ret (if b : bool then 1 else 0).

(** The node is written without a test of [calloc]'s result. *)
Definition open (file : Z) : MS (result Z) :=
  let! valid := is_valid_file file in
  if negb valid then exit (-1)
  else
    let! name := path file in
    let! (retval, isdirbool) := mach (fs_do (filesys_open al depth frame name false)) in
    if retval =? NULL then ret (Returns (-1))
    else
      let! node := mach (fs_do malloc_ptr) in
      if node =? NULL then fail BadPointer
      else
        let! y := get in
        let w := if isdirbool : bool then mk_fd (i32 (fd_count y)) NULL retval else mk_fd (i32 (fd_count y)) retval NULL in
        set_fd_map (w :: fd_map y) ;;
        set_fd_count (u32 (fd_count y + 1)) ;;
        ret (Returns (fd_count y)).

Definition filesize (n : Z) : MS Z := let! f := get_file_from_fd n in mach (fs_do (file_length f)).

Definition read (n buffer size : Z) : MS (result Z) :=
  let! valid := is_valid_file buffer in
  if negb valid then exit (-1)
  else
    let! file_ := get_file_from_fd n in
    if negb (file_ =? NULL) then
      let! data := mach (fs_do (file_read file_ size)) in
      mach (vm_do (user_store data buffer)) ;;
      ret (Returns (Z.of_nat (length data)))
    else ret (Returns (-1)).

(** The file takes the bytes as it needs them: the call faults when it needs one
    that cannot be read. *)
Definition write (n buffer size : Z) : MS (result Z) :=
  let! valid := is_valid_file buffer in
  if negb valid then exit (-1)
  else
    let! file_ := get_file_from_fd n in
    if negb (file_ =? NULL) then
      let! y := get in
      let data := user_prefix (Z.to_nat (u32 size)) buffer (m_vm (s_machine y)) in
      let! written := mach (fs_do (file_write al file_ (data ++ replicate (Z.to_nat (u32 size) - length data) 0) size)) in
      if Z.of_nat (length data) <? written then fail BadPointer else ret (Returns written)
    else ret (Returns 0).

Definition seek (n new_pos : Z) : MS unit := let! file_ := get_file_from_fd n in mach (fs_do (file_seek file_ new_pos)).
Definition tell (n : Z) : MS Z := let! file_ := get_file_from_fd n in mach (fs_do (file_tell file_)).

Definition close (n : Z) : MS unit :=
  let! file_ := get_file_from_fd n in
  mach (fs_do (file_close al file_)) ;;
  remove_file n.

Definition isdir (n : Z) : MS bool := let! dir_ := get_dir_from_fd n in ret (negb (dir_ =? NULL)).

Definition inumber (n : Z) : MS Z :=
  let! dir_ := get_dir_from_fd n in
  if negb (dir_ =? NULL) then mach (fs_do (dir_inumber dir_))
  else
    let! file_ := get_file_from_fd n in
    if negb (file_ =? NULL) then mach (fs_do (file_inumber file_)) else ret (-1).

(** [printf ("%.*s", size, buffer)]: up to a null byte, and [size] bytes at most
    unless [size] is negative. *)
Fixpoint user_text (n : nat) (va : Z) : MV (list Z) :=
  match n with
  | O => ret []
  | S n =>
      let! b := user_load8 va in
      if b =? 0 then ret [] else let! l := user_text n (u32 (va + 1)) in ret (b :: l)
  end.

Definition null_text : list Z := [40; 110; 117; 108; 108; 41].

Definition print_text (size buffer : Z) : MS unit :=
  if buffer =? NULL then putbuf (if size <? 0 then null_text else take (Z.to_nat size) null_text)
  else
    let! l := mach (vm_do (if size <? 0 then user_string fuel buffer else user_text (Z.to_nat size) buffer)) in
    putbuf l.

(** *** The handlers *)

Definition arg (args i : Z) : MS Z := mach (vm_do (user_word (u32 (args + 4 * i)))).

(** [if (!is_valid_args (args, n)) exit_file_call (-1);] *)
Definition need_args (args n : Z) : MS (result unit) :=
  let! valid := is_valid_args args n in if negb valid then exit (-1) else ret (Returns tt).

Definition resume (r : Z) : MS (result action) := ret (Returns (Resume (u32 r))).

Definition write_call (args eax : Z) : MS (result action) :=
  let! size := arg args 3 in
  let! buffer := arg args 2 in
  let! n := arg args 1 in
  let! b := isdir (i32 n) in
  if b : bool then exit (-1)
  else if i32 n =? 1 then print_text (i32 size) buffer ;; resume eax
  else then_ (write (i32 n) buffer (i32 size)) resume.

(** [name], where the entry is stored. *)
Definition readdir_call (args : Z) : MS (result action) :=
  let! n := arg args 1 in
  let! dir := get_dir_from_fd (i32 n) in
  let! name := arg args 2 in
  let! r := mach (fs_do (dir_readdir dir)) in
  match r with
  | Some s => mach (vm_do (user_store (s ++ [0]) name)) ;; resume 1
  | None => resume 0
  end.

Definition file_operation_handler (args eax : Z) : MS (result action) :=
  let! nr := arg args 0 in
  if nr =? SYS_CREATE then
    then_ (need_args args 3) (fun _ => let! a := arg args 1 in let! b := arg args 2 in then_ (create a b false) resume)
  else if nr =? SYS_REMOVE then
    then_ (need_args args 2) (fun _ => let! a := arg args 1 in let! r := remove a in resume r)
  else if nr =? SYS_OPEN then
    then_ (need_args args 2) (fun _ => let! a := arg args 1 in then_ (open a) resume)
  else if nr =? SYS_FILESIZE then
    then_ (need_args args 2) (fun _ => let! a := arg args 1 in let! r := filesize (i32 a) in resume r)
  else if nr =? SYS_READ then
    then_ (need_args args 4) (fun _ => let! size := arg args 3 in let! buffer := arg args 2 in let! n := arg args 1 in
                                       then_ (read (i32 n) buffer (i32 size)) resume)
  else if nr =? SYS_WRITE then then_ (need_args args 4) (fun _ => write_call args eax)
  else if nr =? SYS_SEEK then
    then_ (need_args args 3) (fun _ => let! new_pos := arg args 2 in let! n := arg args 1 in seek (i32 n) (i32 new_pos) ;; resume eax)
  else if nr =? SYS_TELL then
    then_ (need_args args 2) (fun _ => let! n := arg args 1 in let! r := tell (i32 n) in resume r)
  else if nr =? SYS_CLOSE then
    then_ (need_args args 2) (fun _ => let! n := arg args 1 in close (i32 n) ;; resume eax)
  else if nr =? SYS_CHDIR then
    then_ (need_args args 2) (fun _ => let! a := arg args 1 in let! name := path a in
                                       let! b := mach (fs_do (chdir al depth inode name)) in resume (if b : bool then 1 else 0))
  else if nr =? SYS_MKDIR then
    then_ (need_args args 2) (fun _ => let! a := arg args 1 in then_ (create a 16 true) resume)
  else if nr =? SYS_READDIR then then_ (need_args args 3) (fun _ => readdir_call args)
  else if nr =? SYS_ISDIR then
    then_ (need_args args 2) (fun _ => let! n := arg args 1 in let! b := isdir (i32 n) in resume (if b : bool then 1 else 0))
  else if nr =? SYS_INUMBER then
    then_ (need_args args 2) (fun _ => let! n := arg args 1 in let! r := inumber (i32 n) in resume r)
  else resume eax.

(** [esp] and [eax] of the interrupt frame. *)
Definition syscall_handler (args eax : Z) : MS (result action) :=
  let! valid := is_valid_args args 1 in
  if negb valid then exit (-1)
  else
    let! nr := arg args 0 in
    if nr =? SYS_EXIT then let! status := arg args 1 in exit (i32 status)
    else if nr =? SYS_PRACTICE then let! a := arg args 1 in resume (a + 1)
    else if nr =? SYS_HALT then ret (Returns PowerOff)
    else if nr =? SYS_EXEC then
      then_ (need_args args 2) (fun _ =>
        let! a := arg args 1 in
        let! valid := is_valid_file a in
        if negb valid then exit (-1) else ret (Returns (Execute a)))
    else if nr =? SYS_WAIT then
      then_ (need_args args 2) (fun _ => let! a := arg args 1 in ret (Returns (WaitFor (i32 a))))
    else file_operation_handler args eax.
End code.
