(* ===== verification/UserMem.v ===== *)
(** * User memory

    The kernel's access to the memory of the running process, by the abstract
    address space of PagedirInv.v: what can be read and written, and what a
    write leaves alone. *)

From stdpp Require Import options.
From S2P Require Import Syscall Prelude Bytes KList Bitmap Mem Str Vaddr Palloc Pagedir PagedirInv PagedirStep PagedirOps PagedirDestroy PagedirInit PagedirProps LoadSteps.
Local Open Scope Z_scope.
Local Open Scope kernel_scope.

Lemma write_one m a b : write a [b] m = <[a := b]> m.
Proof. reflexivity. Qed.

#[local] Opaque write.

(** The process with the directory [pd] runs in the address space [abs]. *)
Record running (sp : space) (pd : Z) (abs : gmap Z Z) (st : vm) : Prop := {
  ru_vm : vm_ok sp st;
  ru_active : active sp = Some pd;
  ru_abs : dirs sp !! pd = Some abs
}.

Definition readable (abs : gmap Z Z) (a : Z) : Prop := 0 <= a < PHYS_BASE /\ present (entry abs (a / 4096)) = true.
Definition writable (abs : gmap Z Z) (a : Z) : Prop := readable abs a /\ Z.land (entry abs (a / 4096)) PTE_W <> 0.

(** Where the byte at [a] is, and what it is. *)
Definition place (abs : gmap Z Z) (a : Z) : Z := frame_of (entry abs (a / 4096)) + a mod 4096.
Definition byte_at (abs : gmap Z Z) (st : vm) (a : Z) : Z := default 0 (vmem st !! place abs a).

Lemma address_split a : a = 4096 * (a / 4096) + a mod 4096 /\ 0 <= a mod 4096 < 4096.
Proof. pose proof (Z.div_mod a 4096 ltac:(lia)). pose proof (Z.mod_pos_bound a 4096 ltac:(lia)). lia. Qed.

Lemma user_range a : 0 <= a < PHYS_BASE -> 0 <= a / 4096 < user_pages.
Proof. pose proof (address_split a). unfold PHYS_BASE, user_pages. lia. Qed.

Section user.
Context (sp : space) (pd : Z) (abs : gmap Z Z).
Implicit Types (st : vm) (a b : Z) (l : list Z).

Lemma readable_data st a : running sp pd abs st -> readable abs a -> data_page sp (frame_of (entry abs (a / 4096))).
Proof.
  intros [_ _ Habs] [_ Hp]. right. unfold entry in *. destruct (abs !! (a / 4096)) as [e|] eqn:E; [|done]. exists pd, abs, (a / 4096), e. by split_and!.
Qed.

Lemma place_mapped st a : running sp pd abs st -> readable abs a -> exists b, vmem st !! place abs a = Some b /\ is_byte b.
Proof.
  intros Hr Ha. destruct (ru_vm _ _ _ _ Hr) as [own Hi]. destruct (data_facts own sp st _ Hi (readable_data st a Hr Ha)) as [_ _ _ F4].
  destruct (F4 (Z.to_nat (a mod 4096)) ltac:(pose proof (address_split a); lia)) as [b Hb]. rewrite Z2Nat.id in Hb by (pose proof (address_split a); lia).
  exists b. split; [exact Hb|]. exact (vi_bytes _ _ _ Hi _ b Hb).
Qed.

(** The processor's translation. *)
Lemma mmu_entry st (w : bool) a (e := entry abs (a / 4096)) : running sp pd abs st -> 0 <= a < PHYS_BASE ->
  mmu w a st = if negb (present e) || (w && (Z.land e PTE_W =? 0)) then Fault BadPointer else Done (place abs a, st).
Proof.
  intros [[own Hi] Hact Habs] Hu. destruct (address_split a) as [Ea Eo]. pose proof (user_range a Hu) as Hv. destruct (index_range _ Hv) as (Hj & Hk & Ev). pose proof (vi_tables _ _ _ Hi) as T.
  assert (Hc : cr3 st + PHYS_BASE = pd). { pose proof (vi_active _ _ _ Hi) as Ha'. rewrite Hact in Ha'. lia. }
  destruct (dir_facts own sp st pd Hi ltac:(by eexists)) as [_ Fd]. unfold mmu. rewrite (bind_done _ _ st st st) by reflexivity. rewrite Hc, Ea, pd_no_page by exact Eo.
  rewrite (bind_done _ _ _ _ _ (load_word_run st pd (a / 4096 / 1024) Fd ltac:(lia))).
  destruct (decide (slot (vmem st) pd (a / 4096 / 1024) = 0)) as [Hz|Hz].
  { rewrite Hz. assert (Ee : e = 0) by (unfold e, entry; by rewrite Ev, (to_empty _ _ _ _ _ T pd abs)). by rewrite Ee. }
  destruct (to_entry _ _ _ _ _ T pd _ ltac:(by eexists) Hj Hz) as (pt & Hpt & Es). pose proof (own_facts own sp st pt _ Hi Hpt) as Ft. pose proof Ft as [F1 F2 F3 _].
  destruct (frame_align pt F1 ltac:(lia)) as [A1 A2]. destruct (entry_addr _ 7 A2 A1 ltac:(lia)) as [A3 A4].
  destruct (to_table _ _ _ _ _ T pt pd _ Hpt) as (abs' & Hd & _ & _ & _ & Hw). assert (abs' = abs) as -> by congruence.
  rewrite Es, <- A3, entry_flags by done. change (Z.land 7 PTE_P =? 0) with false. cbv iota.
  change PTE_ADDR with 0xfffff000. rewrite A4, pt_no_page by exact Eo. replace (pt - PHYS_BASE + PHYS_BASE) with pt by lia.
  rewrite (bind_done _ _ _ _ _ (load_word_run st pt _ Ft Hk)), Hw by exact Hk. rewrite <- Ev. fold (entry abs (a / 4096)). fold e.
  unfold present. rewrite negb_involutive. destruct (Z.land e PTE_P =? 0); [done|]. cbn [orb]. destruct (w && (Z.land e PTE_W =? 0)); [done|].
  rewrite pg_ofs_mod, <- Ea. reflexivity.
Qed.

Lemma mmu_run st (w : bool) a : running sp pd abs st -> (if w then writable abs a else readable abs a) -> mmu w a st = Done (place abs a, st).
Proof.
  intros Hr Ha. assert (Hra : readable abs a) by (destruct w; [apply Ha|exact Ha]). rewrite (mmu_entry st w a Hr (proj1 Hra)), (proj2 Hra). cbn [negb orb].
  destruct w; [|done]. by rewrite (proj2 (Z.eqb_neq _ _) (proj2 Ha)).
Qed.

(** An access outside the mapped pages. *)
Lemma mmu_unmapped st w a : running sp pd abs st -> 0 <= a < PHYS_BASE -> present (entry abs (a / 4096)) = false -> mmu w a st = Fault BadPointer.
Proof. intros Hr Ha Hp. by rewrite (mmu_entry st w a Hr Ha), Hp. Qed.

(** *** Reading *)

Lemma user_load8_run st a : running sp pd abs st -> readable abs a -> user_load8 a st = Done (byte_at abs st a, st).
Proof.
  intros Hr Ha. unfold user_load8. rewrite (bind_done _ _ _ _ _ (mmu_run st false a Hr Ha)). destruct (place_mapped st a Hr Ha) as (b & Hb & _).
  unfold on_vm, on_mem, byte_at. change (memory (vm_pages st)) with (vmem st). unfold load8. rewrite Hb. cbn. by destruct st as [[]].
Qed.

Lemma byte_at_byte st a : running sp pd abs st -> readable abs a -> is_byte (byte_at abs st a).
Proof. intros Hr Ha. destruct (place_mapped st a Hr Ha) as (b & Hb & Hy). unfold byte_at. by rewrite Hb. Qed.

Lemma user_load_run st : running sp pd abs st -> forall n a, (forall i, a <= i < a + Z.of_nat n -> readable abs i) ->
  user_load n a st = Done (map (byte_at abs st) (seqZ a (Z.of_nat n)), st).
Proof.
  intros Hr. induction n as [|n IH]; intros a Ha; [done|]. cbn [user_load]. pose proof (Ha a ltac:(lia)) as Ha0. rewrite (bind_done _ _ _ _ _ (user_load8_run st a Hr Ha0)).
  destruct n as [|n].
  - cbn [user_load]. rewrite (bind_done _ _ st [] st) by reflexivity. reflexivity.
  - destruct (Ha (a + 1) ltac:(lia)) as [Hu _]. rewrite u32_small by (unfold is_u32, PHYS_BASE in *; lia).
    rewrite (bind_done _ _ _ _ _ (IH (a + 1) ltac:(intros i Hi; apply Ha; lia))). rewrite (seqZ_cons a) by lia. cbn [map].
    by replace (Z.pred (Z.of_nat (S (S n)))) with (Z.of_nat (S n)) by lia.
Qed.

Definition word_from (st : vm) (a : Z) : Z := le_decode (map (byte_at abs st) (seqZ a 4)).

Lemma user_word_run st a : running sp pd abs st -> (forall i, a <= i < a + 4 -> readable abs i) -> user_word a st = Done (word_from st a, st).
Proof. intros Hr Ha. unfold user_word. by rewrite (bind_done _ _ _ _ _ (user_load_run st Hr 4 a Ha)). Qed.

(** *** Writing *)

Lemma place_inj st a b : running sp pd abs st -> readable abs a -> readable abs b -> place abs a = place abs b -> a = b.
Proof.
  intros [[own Hi] _ Habs] Ha Hb E. pose proof (vi_tables _ _ _ Hi) as T. destruct (address_split a) as [Ea Eo], (address_split b) as [Eb Eo'].
  assert (Hfr : forall c, readable abs c -> own !! frame_of (entry abs (c / 4096)) = Some (Frame pd (c / 4096)) /\ frame_of (entry abs (c / 4096)) mod 4096 = 0).
  { intros c [_ Hc]. unfold entry in *. destruct (abs !! (c / 4096)) as [e|] eqn:Ec; [|done]. destruct (to_pte _ _ _ _ _ T pd abs _ e Habs Ec) as (_ & _ & Ho). specialize (Ho Hc).
    split; [exact Ho|]. apply (own_facts own sp st _ _ Hi Ho). }
  destruct (Hfr a Ha) as [O1 A1], (Hfr b Hb) as [O2 A2]. unfold place in E.
  destruct (decide (frame_of (entry abs (a / 4096)) = frame_of (entry abs (b / 4096)))) as [Ef|Ef].
  - rewrite Ef in O1, E. assert (a / 4096 = b / 4096) by congruence. lia.
  - exfalso. exact (pages_differ _ _ _ _ A1 A2 Ef Eo Eo' E).
Qed.

Definition stored (st : vm) (a b : Z) : vm := with_mem (write (place abs a) [b] (vmem st)) st.

Lemma user_store8_run st a b : running sp pd abs st -> writable abs a -> is_byte b ->
  user_store8 a b st = Done (tt, stored st a b) /\ running sp pd abs (stored st a b).
Proof.
  intros Hr Ha Hb. destruct (place_mapped st a Hr (proj1 Ha)) as (b0 & Hb0 & _). split.
  - unfold user_store8. rewrite (bind_done _ _ _ _ _ (mmu_run st true a Hr Ha)). unfold on_vm, on_mem. change (memory (vm_pages st)) with (vmem st).
    rewrite (store8_run _ _ b ltac:(by eexists) Hb). unfold stored. by rewrite write_one.
  - pose proof (readable_data st a Hr (proj1 Ha)) as Hd. destruct Hr as [[own Hi] H2 H3]. split; [|exact H2|exact H3]. exists own. destruct (address_split a) as [_ Eo].
    apply (data_written own sp st _ (a mod 4096) [b] Hi Hd); [lia|cbn; lia|apply Forall_singleton; exact Hb].
Qed.

Lemma byte_stored st a b x : running sp pd abs st -> readable abs a -> readable abs x ->
  byte_at abs (stored st a b) x = if x =? a then b else byte_at abs st x.
Proof.
  intros Hr Ha Hx. unfold byte_at, stored. change (vmem (with_mem ?m st)) with m. rewrite write_one. destruct (Z.eqb_spec x a) as [->|Hne]; [by rewrite lookup_insert_eq|].
  rewrite lookup_insert_ne; [done|]. intros E. apply Hne. symmetry. exact (place_inj st a x Hr Ha Hx E).
Qed.

(** [l] is stored at [a]; the rest of the memory is as it was. *)
Record stores (st : vm) (a : Z) (l : list Z) (st' : vm) : Prop := {
  so_running : running sp pd abs st';
  so_bytes i b : l !! i = Some b -> byte_at abs st' (a + Z.of_nat i) = b;
  so_rest x : readable abs x -> ~ (a <= x < a + Z.of_nat (length l)) -> byte_at abs st' x = byte_at abs st x;
  so_memory y : (forall x, a <= x < a + Z.of_nat (length l) -> place abs x <> y) -> vmem st' !! y = vmem st !! y
}.

Lemma user_store_run : forall l st a, running sp pd abs st -> (forall i, a <= i < a + Z.of_nat (length l) -> writable abs i) -> Forall is_byte l ->
  exists st', user_store l a st = Done (tt, st') /\ stores st a l st'.
Proof.
  induction l as [|b l IH]; intros st a Hr Ha Hb.
  { exists st. split; [done|]. split; [exact Hr|done|done|done]. }
  apply Forall_cons in Hb as [Hb Hl]. cbn [length user_store] in *. pose proof (Ha a ltac:(lia)) as Ha0. destruct (user_store8_run st a b Hr Ha0 Hb) as [E1 Hr1].
  rewrite (bind_done _ _ _ _ _ E1). destruct l as [|c l].
  { exists (stored st a b). split; [done|]. split; [exact Hr1| | |].
    - intros [|i] y Hy; [|done]. injection Hy as <-. rewrite Z.add_0_r, (byte_stored st a b a Hr (proj1 Ha0) (proj1 Ha0)). by rewrite Z.eqb_refl.
    - intros x Hx Hn. cbn in Hn. rewrite (byte_stored st a b x Hr (proj1 Ha0) Hx), (proj2 (Z.eqb_neq x a)) by lia. done.
    - intros y Hy. unfold stored. change (vmem (with_mem ?m st)) with m. rewrite write_one, lookup_insert_ne; [done|]. apply Hy. cbn. lia. }
  cbn [length] in Ha. destruct (Ha (a + 1) ltac:(lia)) as [[Hu _] _]. rewrite u32_small by (unfold is_u32, PHYS_BASE in *; lia).
  destruct (IH (stored st a b) (a + 1) Hr1) as (st' & E & [S1 S2 S3 S4]); [cbn [length]; intros i Hi; apply Ha; lia|exact Hl|]. exists st'. split; [exact E|]. cbn [length] in *. split; [exact S1| | |].
  - intros [|i] y Hy.
    + injection Hy as <-. rewrite Z.add_0_r, S3; [|exact (proj1 Ha0)|lia]. rewrite (byte_stored st a b a Hr (proj1 Ha0) (proj1 Ha0)). by rewrite Z.eqb_refl.
    + rewrite <- (S2 i y Hy). f_equal. lia.
  - intros x Hx Hn. cbn [length] in Hn. rewrite S3; [|exact Hx|lia]. rewrite (byte_stored st a b x Hr (proj1 Ha0) Hx), (proj2 (Z.eqb_neq x a)) by lia. done.
  - intros y Hy. cbn [length] in Hy. rewrite S4; [|intros x Hx; apply Hy; lia]. unfold stored. change (vmem (with_mem ?m st)) with m. rewrite write_one, lookup_insert_ne; [done|]. apply Hy. lia.
Qed.
(** Storing across the end of the mapped pages. *)
Lemma user_store_fault : forall l st a k, running sp pd abs st -> (forall i, a <= i < k -> writable abs i) -> a <= k < a + Z.of_nat (length l) ->
  k < PHYS_BASE -> 0 <= a -> present (entry abs (k / 4096)) = false -> Forall is_byte l -> user_store l a st = Fault BadPointer.
Proof.
  induction l as [|b l IH]; intros st a k Hr Hw Hk Hkp H0 Hp Hb; [cbn in Hk; lia|]. apply Forall_cons in Hb as [Hb Hl]. cbn [user_store length] in *.
  destruct (decide (k = a)) as [->|Hne].
  - unfold user_store8. rewrite (bind_fault _ _ _ BadPointer); [done|]. rewrite (bind_fault _ _ _ BadPointer); [done|]. apply mmu_unmapped; [exact Hr|lia|exact Hp].
  - destruct (user_store8_run st a b Hr (Hw a ltac:(lia)) Hb) as [E Hr1]. rewrite (bind_done _ _ _ _ _ E), u32_small by (unfold is_u32, PHYS_BASE in *; lia).
    apply (IH _ (a + 1) k Hr1); [intros i Hi; apply Hw; lia|lia|exact Hkp|lia|exact Hp|exact Hl].
Qed.
End user.
