(* ===== verification/SyscallSteps.v ===== *)
(** * userprog/syscall.c: the calls

    Checking pointers, fetching arguments and the calls on open files, as steps
    of a process: its address space, its descriptors and the file system. *)

From stdpp Require Import options.
From S2P Require Import Syscall Prelude Bytes KList Bitmap Mem Str Vaddr Palloc Pagedir PagedirInv PagedirStep PagedirOps PagedirDestroy PagedirInit PagedirProps.
From S2P Require Import Block Store Inode InodeTree InodeGrow InodeShrink InodeResize InodeRollback InodeExtend InodeIO InodeWrite InodeLife File FreeMap.
From S2P Require Import FileProps Directory DirSpec NameInv PathSpec PathWalk FileSteps Filesys FilesysProps Load LoadSteps UserMem.
Local Open Scope Z_scope.
Local Open Scope kernel_scope.

(** [n] words of arguments at [args], and the byte after them. *)
Definition arg_block (abs : gmap Z Z) (args n : Z) : Prop := forall i, args <= i <= args + 4 * n -> readable abs i.

Section args.
Context {St : Type} `{!SectorStore St}.
Context (sp : space) (pd : Z) (abs : gmap Z Z).
Implicit Types (y : sys St) (a args n : Z).

(** The process whose calls are handled. *)
Definition process (y : sys St) : Prop := running sp pd abs (m_vm (s_machine y)) /\ pagedir (s_machine y) = pd.

Lemma mach_run {A} (f : M (machine St) A) y r u : f (s_machine y) = Done (r, u) -> mach f y = Done (r, mk_sys u (fd_map y) (fd_count y) (console y)).
Proof. intros E. unfold mach. by rewrite E. Qed.

Lemma mach_vm_run {A} (f : MV A) y r : f (m_vm (s_machine y)) = Done (r, m_vm (s_machine y)) -> mach (vm_do f) y = Done (r, y).
Proof. intros E. unfold mach, vm_do. rewrite E. by destruct y as [[]]. Qed.

Lemma user_page_run y a : process y -> 0 <= a < PHYS_BASE ->
  mach (vm_do (pagedir_get_page pd a)) y = Done (if present (entry abs (a / 4096)) then place abs a else NULL, y).
Proof.
  intros [[[own Hi] _ Habs] _] Ha. apply mach_vm_run. destruct (address_split a) as [Ea Eo].
  pose proof (get_page_spec own sp _ pd abs (a / 4096) (a mod 4096) Hi Habs (user_range a Ha) Eo) as E. rewrite <- Ea in E. exact E.
Qed.

Lemma place_nonzero y a : process y -> readable abs a -> place abs a <> NULL.
Proof.
  intros [Hr _] Ha. destruct (ru_vm _ _ _ _ Hr) as [own Hi]. destruct (data_facts own sp _ _ Hi (readable_data sp pd abs _ a Hr Ha)) as [_ F2 _ _].
  unfold place, NULL, PHYS_BASE in *. pose proof (address_split a). lia.
Qed.

(** [is_valid_args] accepts exactly the blocks whose first byte and whose byte
    after the last are in user pages. *)
Lemma is_valid_args_run y args n : process y -> is_u32 args -> 0 <= n <= 4 ->
  exists b, is_valid_args args n y = Done (b, y) /\ (b = true <-> readable abs args /\ readable abs (args + 4 * n)).
Proof.
  intros Hp Ha Hn. unfold is_u32 in Ha. unfold is_valid_args, is_user_vaddr. pose proof Hp as [_ Epd].
  destruct (Z.ltb_spec args PHYS_BASE) as [H1|H1]; cbn [andb negb]; [|exists false; split; [done|]; split; [done|]; intros [[? _] _]; lia].
  rewrite (u32_small (args + 4 * n)) by (unfold is_u32, PHYS_BASE in *; lia).
  destruct (Z.ltb_spec (args + 4 * n) PHYS_BASE) as [H2|H2]; cbn [negb]; [|exists false; split; [done|]; split; [done|]; intros [_ [? _]]; lia].
  rewrite (bind_done _ _ y y y) by reflexivity. cbv zeta. rewrite Epd.
  rewrite (bind_done _ _ _ _ _ (user_page_run y args Hp ltac:(lia))), (bind_done _ _ _ _ _ (user_page_run y (args + 4 * n) Hp ltac:(lia))).
  eexists. split; [reflexivity|]. destruct (present (entry abs (args / 4096))) eqn:P1; [|split; [done|]; intros [[_ ?] _]; congruence].
  assert (R1 : readable abs args) by (split; [lia|exact P1]). rewrite (proj2 (Z.eqb_neq _ _) (place_nonzero y args Hp R1)). cbn [negb andb].
  destruct (present (entry abs ((args + 4 * n) / 4096))) eqn:P2; [|split; [done|]; intros [_ [_ ?]]; congruence].
  assert (R2 : readable abs (args + 4 * n)) by (split; [lia|exact P2]). rewrite (proj2 (Z.eqb_neq _ _) (place_nonzero y _ Hp R2)). done.
Qed.

(** Two readable bytes less than a page apart: the bytes between them are
    readable. *)
Lemma block_between a n : readable abs a -> readable abs (a + 4 * n) -> 0 <= n <= 4 -> arg_block abs a n.
Proof.
  intros [Ha Pa] [Hb Pb] Hn i Hi. split; [lia|]. destruct (address_split a) as [E1 O1], (address_split (a + 4 * n)) as [E2 O2], (address_split i) as [E3 O3].
  assert (i / 4096 = a / 4096 \/ i / 4096 = (a + 4 * n) / 4096) as [-> | ->] by lia; [exact Pa|exact Pb].
Qed.

Lemma valid_block y args n : process y -> is_u32 args -> 0 <= n <= 4 -> arg_block abs args n -> is_valid_args args n y = Done (true, y).
Proof.
  intros Hp Ha Hn Hb. destruct (is_valid_args_run y args n Hp Ha Hn) as (b & E & Hiff). rewrite E.
  by rewrite (proj2 Hiff (conj (Hb args ltac:(lia)) (Hb (args + 4 * n) ltac:(lia)))).
Qed.

Lemma arg_run y args n i : process y -> arg_block abs args n -> 0 <= i < n -> 0 <= args -> arg args i y = Done (word_from abs (m_vm (s_machine y)) (args + 4 * i), y).
Proof.
  intros [Hr _] Hb Hi Ha. unfold arg. destruct (Hb (args + 4 * i) ltac:(lia)) as [Hu _]. rewrite u32_small by (unfold is_u32, PHYS_BASE in *; lia). apply mach_vm_run.
  apply (user_word_run sp pd abs); [exact Hr|]. intros j Hj. apply Hb. lia.
Qed.

Lemma need_args_run y args n : process y -> is_u32 args -> 0 <= n <= 4 -> arg_block abs args n -> need_args args n y = Done (Returns tt, y).
Proof. intros Hp Ha Hn Hb. unfold need_args. by rewrite (bind_done _ _ _ _ _ (valid_block y args n Hp Ha Hn Hb)). Qed.
End args.

(** ** Descriptors *)

(** A descriptor for the file at [d_sector], through the inode [d_inode]. *)
Record desc := mk_desc { d_number : Z; d_inode : Z; d_sector : Z; d_pos : Z }.

Definition ref (d : desc) : Z * Z := (d_inode d, d_sector d).
Definition at_pos (d : desc) (pos : Z) : desc := mk_desc (d_number d) (d_inode d) (d_sector d) pos.

Section session.
Context {St : Type} `{!SectorStore St} {q pm : Z} {im : inode} {priv : Z -> Prop}.
Context (L : list Z) (H : list (Z * Z)) (sp : space) (pd : Z) (abs : gmap Z Z).
Implicit Types (f g : fs St) (y : sys St) (D : list desc) (d : desc) (w : thread_fd) (n : Z).
Abbreviation names_ok := (names_ok (q := q) (pm := pm) (im := im) (priv := priv)).
Abbreviation al := (@the_free_map St _).
Abbreviation process := (process sp pd abs).
Abbreviation the_fs := (fun y => m_fs (s_machine y)).

Record describes (f : fs St) (w : thread_fd) (d : desc) : Prop := {
  ds_number : fd w = d_number d;
  ds_dir : fd_dir w = 0;
  ds_null : fd_file w <> 0 /\ fd_file w <> q;
  ds_file : files f !! fd_file w = Some (mk_file (d_inode d) (d_pos d) false)
}.

(** A process with the open files [D]; [H] are the references that the rest of
    the kernel holds. *)
Record session (y : sys St) (D : list desc) : Prop := {
  se_process : process y;
  se_names : names_ok L (map ref D ++ H) (m_fs (s_machine y));
  se_closed : closed L (m_fs (s_machine y));
  se_fds : Forall2 (describes (m_fs (s_machine y))) (fd_map y) D;
  se_files : NoDup (map fd_file (fd_map y));
  se_numbers : NoDup (map d_number D);
  se_count : Forall (fun d => 2 <= d_number d < fd_count y) D /\ 2 <= fd_count y < 2 ^ 31
}.

(** What a call leaves as it was. *)
Definition same_but (y y' : sys St) : Prop := fd_map y' = fd_map y /\ fd_count y' = fd_count y /\ console y' = console y.

Lemma find_desc f l D n : Forall2 (describes f) l D ->
  match find_fd l n with
  | Some w => exists i d, l !! i = Some w /\ D !! i = Some d /\ d_number d = n /\ describes f w d
  | None => forall d, d ∈ D -> d_number d <> n
  end.
Proof.
  induction 1 as [|w d l D Hw HF IH]; [intros d Hd; by apply elem_of_nil in Hd|]. unfold find_fd in *. cbn [List.find]. destruct (Z.eqb_spec (fd w) n) as [E|E].
  - exists O, d. split_and!; [done|done|by rewrite <- (ds_number _ _ _ Hw)|exact Hw].
  - destruct (List.find _ l) as [w'|]; [destruct IH as (i & d' & Hl); by exists (S i), d'|].
    intros d' [->|Hd']%elem_of_cons; [by rewrite <- (ds_number _ _ _ Hw)|by apply IH].
Qed.

(** The file of an open descriptor. *)
Lemma find_file y D i d : session y D -> D !! i = Some d ->
  exists w, fd_map y !! i = Some w /\ describes (m_fs (s_machine y)) w d /\ find_fd (fd_map y) (d_number d) = Some w /\
    handle (q := q) (pm := pm) (m_fs (s_machine y)) (fd_file w) (d_inode d) (d_sector d) (d_pos d) false.
Proof.
  intros Hs Hd. pose proof (find_desc _ _ _ (d_number d) (se_fds _ _ Hs)) as Hf. destruct (find_fd (fd_map y) (d_number d)) as [w|] eqn:Ew; [|exfalso; exact (Hf d (list_elem_of_lookup_2 _ _ _ Hd) eq_refl)].
  destruct Hf as (j & d' & Hl & Hd' & En & Hw). assert (Eij : j = i).
  { apply (NoDup_lookup (map d_number D) j i (d_number d) (se_numbers _ _ Hs)); rewrite list_lookup_fmap; [rewrite Hd'; cbn; by rewrite En|by rewrite Hd]. }
  subst j. assert (d' = d) as -> by congruence. exists w. split_and!; [exact Hl|exact Hw|done|]. destruct Hw as [W1 W2 W3 W4]. split; [exact W4|exact W3|].
  destruct (no_held _ _ _ (se_names _ _ Hs) (d_inode d) (d_sector d)) as (Hpm & ino & Hi & Es & _); [|split; [exact Hpm|by exists ino]].
  apply elem_of_app. left. apply list_elem_of_fmap. exists d. split; [done|exact (list_elem_of_lookup_2 _ _ _ Hd)].
Qed.

Lemma get_file_run y D i d : session y D -> D !! i = Some d ->
  exists w, fd_map y !! i = Some w /\ get_file_from_fd (d_number d) y = Done (fd_file w, y) /\
    handle (q := q) (pm := pm) (m_fs (s_machine y)) (fd_file w) (d_inode d) (d_sector d) (d_pos d) false.
Proof.
  intros Hs Hd. destruct (find_file y D i d Hs Hd) as (w & Hl & _ & Ef & Hh). exists w. split_and!; [exact Hl| |exact Hh].
  unfold get_file_from_fd. rewrite (bind_done _ _ y y y) by reflexivity. by rewrite Ef.
Qed.

Lemma get_file_none y D n : session y D -> (forall d, d ∈ D -> d_number d <> n) -> get_file_from_fd n y = Done (NULL, y).
Proof.
  intros Hs Hn. pose proof (find_desc _ _ _ n (se_fds _ _ Hs)) as Hf. unfold get_file_from_fd. rewrite (bind_done _ _ y y y) by reflexivity.
  destruct (find_fd (fd_map y) n) as [w|]; [|done]. destruct Hf as (i & d & _ & Hd & En & _). exfalso. exact (Hn d (list_elem_of_lookup_2 _ _ _ Hd) En).
Qed.
(** *** Steps of one handle *)

Definition with_fs_of (y : sys St) (g : fs St) : sys St :=
  mk_sys (mk_machine (m_vm (s_machine y)) g (pagedir (s_machine y)) (executable (s_machine y))) (fd_map y) (fd_count y) (console y).

Lemma mach_fs_run {A} (f : M (fs St) A) y r g : f (m_fs (s_machine y)) = Done (r, g) -> mach (fs_do f) y = Done (r, with_fs_of y g).
Proof. intros E. unfold mach, fs_do. by rewrite E. Qed.

Lemma refs_moved D i d pos : D !! i = Some d -> map ref (<[i := at_pos d pos]> D) = map ref D /\ map d_number (<[i := at_pos d pos]> D) = map d_number D.
Proof.
  intros Hd. split; rewrite list_fmap_insert; apply list_insert_id; rewrite list_lookup_fmap, Hd; reflexivity.
Qed.

Lemma session_handle y D i d w g pos : session y D -> D !! i = Some d -> fd_map y !! i = Some w ->
  names_ok L (map ref D ++ H) g -> handle (q := q) (pm := pm) g (fd_file w) (d_inode d) (d_sector d) pos false -> only_handle (m_fs (s_machine y)) g (fd_file w) ->
  session (with_fs_of y g) (<[i := at_pos d pos]> D).
Proof.
  intros [S1 S2 S3 S4 S5 S6 [S7 S8]] Hd Hw Hg Hh (O1 & _ & _ & O4). destruct (refs_moved D i d pos Hd) as [R1 R2].
  split; [exact S1|cbn; rewrite R1; exact Hg|exact (closed_same L _ g S3 O1)| |exact S5|rewrite R2; exact S6|split; [|exact S8]].
  - cbn. rewrite <- (list_insert_id (fd_map y) i w Hw) at 1.
    apply Forall2_lookup. intros j. destruct (decide (i = j)) as [<-|Hne].
    + rewrite !list_lookup_insert_eq by (eapply lookup_lt_Some; eassumption). constructor. pose proof (Forall2_lookup_lr _ _ _ _ _ _ S4 Hw Hd) as [W1 W2 W3 W4]. split; [exact W1|exact W2|exact W3|exact (h_file _ _ _ _ _ _ Hh)].
    + rewrite !list_lookup_insert_ne by done. destruct (fd_map y !! j) as [wj|] eqn:Ej, (D !! j) as [dj|] eqn:Ed.
      * constructor. pose proof (Forall2_lookup_lr _ _ _ _ _ _ S4 Ej Ed) as [W1 W2 W3 W4]. split; [exact W1|exact W2|exact W3|]. rewrite O4; [exact W4|].
        intros E. apply Hne. apply (NoDup_lookup _ i j (fd_file w) S5); rewrite list_lookup_fmap; [by rewrite Hw|rewrite Ej; cbn; by rewrite E].
      * apply Forall2_length in S4. apply lookup_lt_Some in Ej. apply lookup_ge_None in Ed. lia.
      * apply Forall2_length in S4. apply lookup_lt_Some in Ed. apply lookup_ge_None in Ej. lia.
      * constructor.
  - apply Forall_insert; [exact S7|]. exact (Forall_lookup_1 _ _ _ _ S7 Hd).
Qed.

(** *** The calls *)

Lemma filesize_step y D i d : session y D -> D !! i = Some d ->
  exists g, filesize (d_number d) y = Done (file_len (m_fs (s_machine y)) (d_sector d), with_fs_of y g) /\ session (with_fs_of y g) D /\ same_disk (m_fs (s_machine y)) g.
Proof.
  intros Hs Hd. destruct (get_file_run y D i d Hs Hd) as (w & Hw & E & Hh).
  destruct (file_length_step L _ _ _ _ _ _ false (se_names _ _ Hs) Hh) as (g & E2 & N1 & N2 & N3). exists g. unfold filesize. rewrite (bind_done _ _ _ _ _ E).
  split_and!; [exact (mach_fs_run _ _ _ _ E2)| |exact (proj1 N3)]. pose proof (session_handle y D i d w g (d_pos d) Hs Hd Hw N1 N2 N3) as Hg.
  replace (at_pos d (d_pos d)) with d in Hg by (by destruct d). by rewrite list_insert_id in Hg.
Qed.

Lemma tell_step y D i d : session y D -> D !! i = Some d -> tell (d_number d) y = Done (d_pos d, y).
Proof.
  intros Hs Hd. destruct (get_file_run y D i d Hs Hd) as (w & _ & E & Hh). unfold tell. rewrite (bind_done _ _ _ _ _ E).
  rewrite (mach_fs_run _ y (d_pos d) (m_fs (s_machine y))); [by destruct y as [[]]|]. unfold file_tell. destruct (h_null _ _ _ _ _ _ Hh) as [H0 _].
  rewrite assert_true by by rewrite (proj2 (Z.eqb_neq _ _) H0). by rewrite (bind_done _ _ _ _ _ (load_handle _ _ _ _ _ _ Hh)).
Qed.

Lemma seek_step y D i d pos : session y D -> D !! i = Some d -> 0 <= pos ->
  exists g, seek (d_number d) pos y = Done (tt, with_fs_of y g) /\ session (with_fs_of y g) (<[i := at_pos d pos]> D) /\ same_disk (m_fs (s_machine y)) g.
Proof.
  intros Hs Hd Hp. destruct (get_file_run y D i d Hs Hd) as (w & Hw & E & Hh).
  destruct (file_seek_step L _ _ _ _ _ _ false pos (se_names _ _ Hs) Hh Hp) as (g & E2 & N1 & N2 & N3). exists g. unfold seek. rewrite (bind_done _ _ _ _ _ E).
  split_and!; [exact (mach_fs_run _ _ _ _ E2)|exact (session_handle y D i d w g pos Hs Hd Hw N1 N2 N3)|exact (proj1 N3)].
Qed.

Definition with_vm_of (y : sys St) (st : vm) : sys St :=
  mk_sys (mk_machine st (m_fs (s_machine y)) (pagedir (s_machine y)) (executable (s_machine y))) (fd_map y) (fd_count y) (console y).

Lemma session_vm y D st : session y D -> running sp pd abs st -> session (with_vm_of y st) D.
Proof. intros [[S1 S1'] S2 S3 S4 S5 S6 S7] Hr. split; [by split|exact S2|exact S3|exact S4|exact S5|exact S6|exact S7]. Qed.

(** A buffer that [is_valid_file] accepts. *)
Definition valid_buffer (buffer : Z) : Prop := buffer <> NULL /\ is_u32 buffer /\ arg_block abs buffer 1.

Lemma valid_file_run y buffer : process y -> valid_buffer buffer -> is_valid_file buffer y = Done (true, y).
Proof.
  intros Hp (Hb0 & Hbu & Hb). unfold is_valid_file. rewrite (proj2 (Z.eqb_neq _ _) Hb0). exact (valid_block sp pd abs y buffer 1 Hp Hbu ltac:(lia) Hb).
Qed.

Lemma read_step y D i d buffer size : session y D -> D !! i = Some d -> valid_buffer buffer -> 0 <= d_pos d < 2 ^ 31 - MAX_FILE_BYTES -> 0 <= size < 2 ^ 31 ->
  let data := file_slice (m_fs (s_machine y)) (d_sector d) size (d_pos d) in
  (forall a, buffer <= a < buffer + Z.of_nat (length data) -> writable abs a) ->
  exists y', read (d_number d) buffer size y = Done (Returns (Z.of_nat (length data)), y') /\
    session y' (<[i := at_pos d (d_pos d + Z.of_nat (length data))]> D) /\ same_disk (m_fs (s_machine y)) (m_fs (s_machine y')) /\ same_but y y' /\
    stores sp pd abs (m_vm (s_machine y)) buffer data (m_vm (s_machine y')).
Proof.
  intros Hs Hd Hv Hpos Hsz data Hw. destruct (get_file_run y D i d Hs Hd) as (w & Hwi & E & Hh). pose proof (h_null _ _ _ _ _ _ Hh) as [H0 _].
  destruct (file_read_step L _ _ _ _ _ _ false size (se_names _ _ Hs) Hh Hpos ltac:(lia)) as (g & E2 & N1 & N2 & N3). fold data in E2, N2.
  assert (Hb : Forall is_byte data).
  { apply Forall_forall. intros b Hin. unfold data, file_slice in Hin. apply list_elem_of_In, in_map_iff in Hin as (j & <- & _). apply file_byte_byte. exact (inv_store L _ (no_inv _ _ _ (se_names _ _ Hs))). }
  destruct (user_store_run sp pd abs data (m_vm (s_machine y)) buffer (proj1 (se_process _ _ Hs)) Hw Hb) as (st & E3 & Hst).
  exists (with_vm_of (with_fs_of y g) st). split.
  - unfold read. rewrite (bind_done _ _ _ _ _ (valid_file_run y buffer (se_process _ _ Hs) Hv)). cbn [negb]. rewrite (bind_done _ _ _ _ _ E), (proj2 (Z.eqb_neq (fd_file w) NULL) H0). cbn [negb].
    rewrite (bind_done _ _ _ _ _ (mach_fs_run _ _ _ _ E2)). rewrite (bind_done _ _ _ tt (with_vm_of (with_fs_of y g) st)); [reflexivity|].
    unfold mach, vm_do. cbn [with_fs_of s_machine m_vm]. by rewrite E3.
  - split_and!; [|exact (proj1 N3)|by split_and!|exact Hst]. apply session_vm; [|exact (so_running _ _ _ _ _ _ _ Hst)]. exact (session_handle y D i d w g _ Hs Hd Hwi N1 N2 N3).
Qed.

(** Without an open file: -1, and a failed assertion of file.c. *)
Lemma read_none y D n buffer size : session y D -> (forall d, d ∈ D -> d_number d <> n) -> valid_buffer buffer -> read n buffer size y = Done (Returns (-1), y).
Proof.
  intros Hs Hn Hv. unfold read. rewrite (bind_done _ _ _ _ _ (valid_file_run y buffer (se_process _ _ Hs) Hv)). cbn [negb].
  by rewrite (bind_done _ _ _ _ _ (get_file_none y D n Hs Hn)).
Qed.

Lemma names_perm f H1 H2 : H1 ≡ₚ H2 -> names_ok L H1 f -> names_ok L H2 f.
Proof.
  intros Hp Hf. apply (names_sub L H1 H2 f Hf); [intros r; by rewrite Hp|]. intros p. unfold refs. by rewrite Hp.
Qed.

Lemma remove_first_delete f l D i d : Forall2 (describes f) l D -> NoDup (map d_number D) -> D !! i = Some d -> remove_first (d_number d) l = delete i l.
Proof.
  intros HF. revert i. induction HF as [|w e l D Hw HF IH]; intros i Hnd Hd; [done|]. cbn [map] in Hnd. apply NoDup_cons in Hnd as [Hn Hnd]. destruct i as [|i].
  - injection Hd as ->. cbn [remove_first delete]. by rewrite (ds_number _ _ _ Hw), Z.eqb_refl.
  - cbn [remove_first]. rewrite (ds_number _ _ _ Hw), (proj2 (Z.eqb_neq _ _)).
    + cbn. f_equal. by apply IH.
    + intros E. apply Hn. rewrite E. apply list_elem_of_fmap. exists d. split; [done|]. exact (list_elem_of_lookup_2 D i _ Hd).
Qed.

Lemma delete_perm {A} (l : list A) i a : l !! i = Some a -> l ≡ₚ a :: delete i l.
Proof. apply delete_Permutation. Qed.

Lemma close_fd_step y D i d : session y D -> D !! i = Some d ->
  exists y', close al (d_number d) y = Done (tt, y') /\ session y' (delete i D) /\ same_disk (m_fs (s_machine y)) (m_fs (s_machine y')) /\
    fd_count y' = fd_count y /\ console y' = console y /\ m_vm (s_machine y') = m_vm (s_machine y).
Proof.
  intros Hs Hd. destruct (get_file_run y D i d Hs Hd) as (w & Hw & E & Hh). pose proof (h_null _ _ _ _ _ _ Hh) as [H0 Hq].
  destruct (file_close_step (q := q) (pm := pm) (im := im) (priv := priv) L (map ref (delete i D) ++ H) (m_fs (s_machine y)) (fd_file w) (d_inode d) (d_sector d) (d_pos d)) as (g & E2 & Hg & Ef & Sd).
  { refine (names_perm _ _ _ _ (se_names _ _ Hs)). rewrite (delete_perm D i d Hd) at 1. reflexivity. } { exact (h_file _ _ _ _ _ _ Hh). } { exact H0. } { exact Hq. }
  exists (mk_sys (s_machine (with_fs_of y g)) (delete i (fd_map y)) (fd_count y) (console y)). split.
  - unfold close. rewrite (bind_done _ _ _ _ _ E), (bind_done _ _ _ _ _ (mach_fs_run _ _ _ _ E2)). unfold remove_file. rewrite (bind_done _ _ _ _ _ eq_refl). cbn [with_fs_of fd_map].
    by rewrite (remove_first_delete _ _ _ i d (se_fds _ _ Hs) (se_numbers _ _ Hs) Hd).
  - destruct Hs as [S1 S2 S3 S4 S5 S6 [S7 S8]]. split_and!; [|exact Sd|done|done|done]. split; [exact S1|exact Hg|exact (closed_same L _ g S3 Sd)| | | |].
    + cbn. apply Forall2_lookup. intros j. assert (Hne : forall k wk, fd_map y !! k = Some wk -> k <> i -> fd_file wk <> fd_file w).
      { intros k wk Hk Hki Ee. apply Hki. apply (NoDup_lookup _ k i (fd_file w) S5); rewrite list_lookup_fmap; [rewrite Hk; cbn; by rewrite Ee|by rewrite Hw]. }
      assert (Hj : forall k, k <> i -> option_Forall2 (describes g) (fd_map y !! k) (D !! k)).
      { intros k Hki. pose proof (proj1 (Forall2_lookup _ _ _) S4 k) as HF. destruct (fd_map y !! k) as [wk|] eqn:Ek; inversion HF as [? dk [W1 W2 W3 W4]|]; subst; constructor.
        split; [exact W1|exact W2|exact W3|]. rewrite Ef, lookup_delete_ne; [exact W4|]. intros Ee. exact (Hne k wk Ek Hki (eq_sym Ee)). }
      destruct (decide (j < i)%nat); [rewrite !list_lookup_delete_lt by done; apply Hj; lia|rewrite !list_lookup_delete_ge by lia; apply Hj; lia].
    + cbn. rewrite (delete_perm _ i w Hw) in S5. cbn [map] in S5. by apply NoDup_cons in S5 as [_ S5].
    + rewrite (delete_perm _ i d Hd) in S6. cbn [map] in S6. by apply NoDup_cons in S6 as [_ S6].
    + split; [|exact S8]. by apply Forall_delete.
Qed.

(** A string in user memory. *)
Record string_in (st : vm) (va : Z) (s : list Z) : Prop := {
  sa_read : forall i, va <= i <= va + Z.of_nat (length s) -> readable abs i;
  sa_bytes : forall i c, s !! i = Some c -> byte_at abs st (va + Z.of_nat i) = c;
  sa_nonzero : nonzero s;
  sa_end : byte_at abs st (va + Z.of_nat (length s)) = 0
}.

Lemma user_string_run st : running sp pd abs st -> forall s va fuel, string_in st va s -> (length s < fuel)%nat -> user_string fuel va st = Done (s, st).
Proof.
  intros Hr. induction s as [|c s IH]; intros va fuel [S1 S2 S3 S4] Hf; (destruct fuel as [|fuel]; [cbn in Hf; lia|]); cbn [user_string];
    rewrite (bind_done _ _ _ _ _ (user_load8_run sp pd abs st va Hr (S1 va ltac:(lia)))).
  - cbn in S4. rewrite Z.add_0_r in S4. by rewrite S4.
  - pose proof (S2 O c eq_refl) as E0. rewrite Z.add_0_r in E0. rewrite E0. apply Forall_cons in S3 as [Hc S3]. rewrite (proj2 (Z.eqb_neq c 0)) by exact Hc.
    cbn [length] in *. destruct (S1 (va + 1) ltac:(lia)) as [Hu _]. rewrite u32_small by (unfold is_u32, PHYS_BASE in *; lia).
    rewrite (bind_done _ _ st s st); [done|]. apply IH; [|lia]. split; [intros i Hi; apply S1; lia|intros i x Hi; rewrite <- (S2 (S i) x Hi); f_equal; lia|exact S3|].
    rewrite <- S4. f_equal. lia.
Qed.

Lemma session_new y D g p s x : session y D -> names_ok L ((p, s) :: map ref D ++ H) g -> same_disk (m_fs (s_machine y)) g ->
  x <> 0 -> files (m_fs (s_machine y)) !! x = None -> files g = <[x := mk_file p 0 false]> (files (m_fs (s_machine y))) -> fd_count y < 2 ^ 31 - 1 ->
  session (mk_sys (s_machine (with_fs_of y (allocated g))) (mk_fd (fd_count y) x 0 :: fd_map y) (fd_count y + 1) (console y)) (mk_desc (fd_count y) p s 0 :: D).
Proof.
  intros [S1 S2 S3 S4 S5 S6 [S7 S8]] Hg Sd Hx Hnew Ef Hc. assert (Hq : x <> q).
  { intros ->. destruct (fm_open _ _ _ _ _ (inv_map _ _ _ _ _ _ (no_inv _ _ _ S2))) as (? & ? & ?). congruence. }
  assert (Hold : Forall2 (describes (allocated g)) (fd_map y) D).
  { eapply Forall2_impl; [exact S4|]. intros w d [W1 W2 W3 W4]. split; [exact W1|exact W2|exact W3|]. change (files (allocated g)) with (files g). rewrite Ef, lookup_insert_ne; [exact W4|]. intros ->. congruence. }
  split; [exact S1|exact (names_allocated L _ g Hg)| | | | |].
  - apply (closed_same L (m_fs (s_machine y))); [exact S3|]. exact (same_disk_trans _ g _ Sd (same_disk_store g _ (proj1 Sd) eq_refl eq_refl)).
  - constructor; [|exact Hold]. split; [done|done|done|]. change (files g !! x = Some (mk_file p 0 false)). rewrite Ef. apply lookup_insert_eq.
  - cbn [fd_map map fd_file]. apply NoDup_cons. split; [|exact S5]. intros Hin. apply list_elem_of_fmap in Hin as (w & -> & Hw). apply list_elem_of_lookup in Hw as [i Hi].
    destruct (Forall2_lookup_l _ _ _ _ _ S4 Hi) as (d & _ & [_ _ _ W4]). congruence.
  - cbn [map d_number]. apply NoDup_cons. split; [|exact S6]. intros Hin. apply list_elem_of_fmap in Hin as (d & E & Hd). pose proof (proj1 (Forall_forall _ _) S7 d Hd) as Hd'. cbn in Hd'. lia.
  - cbn [fd_count]. split; [|lia]. constructor; [cbn; lia|]. eapply Forall_impl; [exact S7|]. cbn. intros d Hd. lia.
Qed.

Lemma session_quiet y D g : session y D -> names_ok L (map ref D ++ H) g -> same_disk (m_fs (s_machine y)) g -> files g = files (m_fs (s_machine y)) -> session (with_fs_of y g) D.
Proof.
  intros [S1 S2 S3 S4 S5 S6 S7] Hg Sd Ef. split; [exact S1|exact Hg|exact (closed_same L _ g S3 Sd)| |exact S5|exact S6|exact S7].
  eapply Forall2_impl; [exact S4|]. intros w d [W1 W2 W3 W4]. split; [exact W1|exact W2|exact W3|]. cbn. by rewrite Ef.
Qed.

(** An absolute path. *)
Definition from_root (y : sys St) (fp : list Z) : Prop := hd_error fp = Some 47 /\ ROOT_DIR_SECTOR ∈ L /\ isdir_at (m_fs (s_machine y)) ROOT_DIR_SECTOR = true.

Lemma open_fd_step depth fuel frame y D va fp : session y D -> valid_buffer va -> string_in (m_vm (s_machine y)) va fp -> (length fp < fuel)%nat ->
  good_path fp depth -> (15 <= length frame)%nat -> from_root y fp -> fd_count y < 2 ^ 31 - 1 ->
  (forall s, resolve (m_fs (s_machine y)) ROOT_DIR_SECTOR (path_words fp) = Some s -> isdir_at (m_fs (s_machine y)) s = false) ->
  exists r y', open al depth fuel frame va y = Done (Returns r, y') /\ same_disk (m_fs (s_machine y)) (m_fs (s_machine y')) /\ console y' = console y /\
    m_vm (s_machine y') = m_vm (s_machine y) /\
    match resolve (m_fs (s_machine y)) ROOT_DIR_SECTOR (path_words fp) with
    | Some s => r = fd_count y /\ fd_count y' = fd_count y + 1 /\ exists p, session y' (mk_desc r p s 0 :: D)
    | None => r = -1 /\ fd_count y' = fd_count y /\ session y' D
    end.
Proof.
  intros Hs Hv Hst Hfuel Hfp Hfr (Hh & HL & Hdir) Hc Hreg. destruct (good_nonzero fp depth Hfp) as [N1 N2]. destruct Hfp as (_ & P2 & P3 & P4).
  assert (Hstart : starts_at (m_fs (s_machine y)) L (map ref D ++ H) fp ROOT_DIR_SECTOR) by (split_and!; [exact HL|exact Hdir|by rewrite bool_decide_true]).
  destruct (filesys_open_run L _ _ fp ROOT_DIR_SECTOR depth frame false (se_names _ _ Hs) (se_closed _ _ Hs) Hstart N1 P2 P3 P4 Hfr) as (x & b & g & E & Sd & _ & Hr).
  unfold open. rewrite (bind_done _ _ _ _ _ (valid_file_run y va (se_process _ _ Hs) Hv)). cbn [negb].
  rewrite (bind_done _ _ y fp y) by (apply mach_vm_run; exact (user_string_run _ (proj1 (se_process _ _ Hs)) fp va fuel Hst Hfuel)).
  rewrite (bind_done _ _ _ _ _ (mach_fs_run _ _ _ _ E)). destruct (resolve (m_fs (s_machine y)) ROOT_DIR_SECTOR (path_words fp)) as [s|].
  - destruct Hr as (Hx & Eb & p & Hg & Hfile). rewrite (Hreg s eq_refl) in Eb. subst b. destruct Hfile as [Hnew Ef]. rewrite (proj2 (Z.eqb_neq x NULL) Hx).
    rewrite (bind_done _ _ _ _ _ (mach_fs_run _ (with_fs_of y g) _ _ (malloc_step L _ g Hg))). assert (Hn : next_ptr g <> NULL).
    { destruct (no_files _ _ _ Hg x) as [G1 G2]; [rewrite Ef, lookup_insert_eq; by eexists|]. unfold NULL. lia. }
    rewrite (proj2 (Z.eqb_neq _ _) Hn). destruct (se_count _ _ Hs) as [_ [C1 C2]].
    exists (fd_count y), (mk_sys (s_machine (with_fs_of y (allocated g))) (mk_fd (fd_count y) x 0 :: fd_map y) (fd_count y + 1) (console y)). split_and!; [| |done|done|done|done|].
    + rewrite (bind_done _ _ _ _ _ eq_refl). cbn [with_fs_of fd_count fd_map]. rewrite i32_small by (unfold is_i32; lia).
      rewrite (bind_done _ _ _ tt (mk_sys (s_machine (with_fs_of y (allocated g))) (mk_fd (fd_count y) x 0 :: fd_map y) (fd_count y) (console y))) by reflexivity.
      rewrite u32_small by (unfold is_u32; lia). reflexivity.
    + exact (same_disk_trans _ g _ Sd (same_disk_store g _ (proj1 Sd) eq_refl eq_refl)).
    + exists p. exact (session_new y D g p s x Hs Hg Sd Hx Hnew Ef Hc).
  - destruct Hr as (-> & Hg & Ef). exists (-1), (with_fs_of y g). split_and!; [reflexivity|exact Sd|done|done|done|done|exact (session_quiet y D g Hs Hg Sd Ef)].
Qed.

End session.
