(* ===== verification/SyscallProps.v ===== *)
(** * userprog/syscall.c: what the calls on files do

    System calls on open files behave as operations on a table that gives each
    descriptor a file and a position; the arguments come from the user stack and
    the results go to user memory.  What a process can do to the kernel with a
    bad descriptor or a bad buffer is proved as well. *)

From stdpp Require Import options.
From S2P Require Import Cache FileDemo Syscall Prelude Bytes KList Bitmap Mem Str Vaddr Palloc Pagedir PagedirInv PagedirStep PagedirOps PagedirDestroy PagedirInit PagedirProps.
From S2P Require Import Block Store Inode InodeTree InodeGrow InodeShrink InodeResize InodeRollback InodeExtend InodeIO InodeWrite InodeLife File FreeMap.
From S2P Require Import FileProps Directory DirSpec NameInv PathSpec PathWalk FileSteps Filesys FilesysProps Load LoadSteps UserMem SyscallSteps.
Local Open Scope Z_scope.
Local Open Scope kernel_scope.

(** ** The abstract table *)

(** Descriptor, sector of the file's inode, position. *)
Abbreviation view := (Z * (Z * Z))%type.

Definition v_find (V : list view) (n : Z) : option (Z * Z) := snd <$> List.find (fun v => fst v =? n) V.
Definition v_move (V : list view) (n pos : Z) : list view := map (fun v => if fst v =? n then (fst v, (fst (snd v), pos)) else v) V.
Definition v_drop (V : list view) (n : Z) : list view := List.filter (fun v => negb (fst v =? n)) V.

Inductive file_call :=
  | COpen (fp : list Z)
  | CFilesize (n : Z)
  | CRead (n buffer size : Z)
  | CSeek (n pos : Z)
  | CTell (n : Z)
  | CClose (n : Z).

(** The result, the new table, and what is stored in user memory.  [fresh] is
    the next descriptor and [eax] the register that some calls leave alone. *)
Definition call_spec {St} `{!SectorStore St} (f : fs St) (fresh eax : Z) (V : list view) (c : file_call) : Z * list view * option (Z * list Z) :=
  match c with
  | COpen fp =>
      match resolve f ROOT_DIR_SECTOR (path_words fp) with
      | Some s => (fresh, (fresh, (s, 0)) :: V, None)
      | None => (-1, V, None)
      end
  | CFilesize n => (from_option (fun v => file_len f (fst v)) 0 (v_find V n), V, None)
  | CRead n buffer size =>
      match v_find V n with
      | Some (s, pos) =>
          let data := file_slice f s size pos in
          (Z.of_nat (length data), v_move V n (pos + Z.of_nat (length data)), Some (buffer, data))
      | None => (-1, V, None)
      end
  | CSeek n pos => (eax, v_move V n pos, None)
  | CTell n => (from_option snd 0 (v_find V n), V, None)
  | CClose n => (eax, v_drop V n, None)
  end.

Definition view_of (d : desc) : view := (d_number d, (d_sector d, d_pos d)).

Lemma v_find_some D n v : v_find (map view_of D) n = Some v -> exists i d, D !! i = Some d /\ d_number d = n /\ v = (d_sector d, d_pos d).
Proof.
  unfold v_find. induction D as [|d D IH]; cbn [map List.find]; [done|]. cbn [fst view_of]. destruct (Z.eqb_spec (d_number d) n) as [E|E].
  - intros [= <-]. by exists O, d.
  - intros Hv. destruct (IH Hv) as (i & d' & Hd). by exists (S i), d'.
Qed.

Lemma v_find_none D n : v_find (map view_of D) n = None -> forall d, d ∈ D -> d_number d <> n.
Proof.
  unfold v_find. induction D as [|d D IH]; cbn [map List.find]; [intros _ d Hd; by apply elem_of_nil in Hd|]. cbn [fst view_of]. destruct (Z.eqb_spec (d_number d) n) as [E|E]; [done|].
  intros Hv d' [->|Hd']%elem_of_cons; [exact E|by apply IH].
Qed.

Lemma v_move_other D n pos : n ∉ map d_number D -> v_move (map view_of D) n pos = map view_of D.
Proof.
  induction D as [|d D IH]; [done|]. cbn [map]. intros [Hn Hr]%not_elem_of_cons. unfold v_move in *. cbn [map fst view_of]. rewrite (proj2 (Z.eqb_neq _ _)) by congruence. by rewrite IH.
Qed.

Lemma v_move_at D i d pos : NoDup (map d_number D) -> D !! i = Some d -> v_move (map view_of D) (d_number d) pos = map view_of (<[i := at_pos d pos]> D).
Proof.
  revert i. induction D as [|e D IH]; intros i Hnd Hd; [done|]. cbn [map] in Hnd. apply NoDup_cons in Hnd as [Hn Hnd]. destruct i as [|i].
  - injection Hd as ->. cbn. rewrite Z.eqb_refl. f_equal. exact (v_move_other D _ pos Hn).
  - assert (Hne : d_number e <> d_number d).
    { intros E. apply Hn. rewrite E. apply list_elem_of_fmap. exists d. split; [done|]. exact (list_elem_of_lookup_2 D i _ Hd). }
    cbn. rewrite (proj2 (Z.eqb_neq _ _) Hne). f_equal. exact (IH i Hnd Hd).
Qed.

Lemma v_drop_other D n : n ∉ map d_number D -> v_drop (map view_of D) n = map view_of D.
Proof.
  induction D as [|d D IH]; [done|]. cbn [map]. intros [Hn Hr]%not_elem_of_cons. unfold v_drop in *. cbn [List.filter fst view_of]. rewrite (proj2 (Z.eqb_neq _ _)) by congruence. cbn [negb]. by rewrite IH.
Qed.

Lemma v_drop_at D i d : NoDup (map d_number D) -> D !! i = Some d -> v_drop (map view_of D) (d_number d) = map view_of (delete i D).
Proof.
  revert i. induction D as [|e D IH]; intros i Hnd Hd; [done|]. cbn [map] in Hnd. apply NoDup_cons in Hnd as [Hn Hnd]. destruct i as [|i].
  - injection Hd as ->. cbn. rewrite Z.eqb_refl. cbn. exact (v_drop_other D _ Hn).
  - assert (Hne : d_number e <> d_number d).
    { intros E. apply Hn. rewrite E. apply list_elem_of_fmap. exists d. split; [done|]. exact (list_elem_of_lookup_2 D i _ Hd). }
    cbn. rewrite (proj2 (Z.eqb_neq _ _) Hne). cbn. f_equal. exact (IH i Hnd Hd).
Qed.

(** ** The calls of a process *)

Section calls.
Context {St : Type} `{!SectorStore St} {q pm : Z} {im : inode} {priv : Z -> Prop}.
Context (L : list Z) (H : list (Z * Z)) (sp : space) (pd : Z) (abs : gmap Z Z).
Context (depth fuel : nat) (frame entry : list Z) (ino : Z).
Implicit Types (f g : fs St) (y : sys St) (D : list desc) (d : desc) (n args eax : Z).
Abbreviation names_ok := (names_ok (q := q) (pm := pm) (im := im) (priv := priv)).
Abbreviation session := (session (q := q) (pm := pm) (im := im) (priv := priv) L H sp pd abs).
Abbreviation handler := (syscall_handler (@the_free_map St _) depth fuel frame entry ino).
Abbreviation file_handler := (file_operation_handler (@the_free_map St _) depth fuel frame entry ino).

Lemma then_run {A B} (m : M (sys St) (result A)) (k : A -> M (sys St) (result B)) y a y' : m y = Done (Returns a, y') -> then_ m k y = k a y'.
Proof. intros E. unfold then_. by rewrite (bind_done _ _ _ _ _ E). Qed.

Definition arg_word (y : sys St) (args i : Z) : Z := word_from abs (m_vm (s_machine y)) (args + 4 * i).

Lemma handler_files y args eax n : process sp pd abs y -> is_u32 args -> 1 <= n <= 4 -> arg_block abs args n -> SYS_WAIT < arg_word y args 0 -> arg_word y args 0 <> SYS_PRACTICE ->
  handler args eax y = file_handler args eax y.
Proof.
  intros Hp Ha Hn Hb Hw Hpr. unfold syscall_handler. unfold is_u32 in Ha. assert (Hb1 : arg_block abs args 1) by (intros i Hi; apply Hb; lia).
  rewrite (bind_done _ _ _ _ _ (valid_block sp pd abs y args 1 Hp Ha ltac:(lia) Hb1)). cbn [negb].
  rewrite (bind_done _ _ _ _ _ (arg_run sp pd abs y args 1 0 Hp Hb1 ltac:(lia) ltac:(lia))). fold (arg_word y args 0). unfold SYS_WAIT, SYS_EXIT, SYS_HALT, SYS_EXEC in *.
  rewrite !(proj2 (Z.eqb_neq (arg_word y args 0) _)) by (done || lia). done.
Qed.

(** What a call finds at [esp]. *)
Inductive requests (y : sys St) (args : Z) : file_call -> Prop :=
  | req_open fp : arg_block abs args 2 -> arg_word y args 0 = SYS_OPEN -> valid_buffer abs (arg_word y args 1) ->
      string_in abs (m_vm (s_machine y)) (arg_word y args 1) fp -> requests y args (COpen fp)
  | req_filesize : arg_block abs args 2 -> arg_word y args 0 = SYS_FILESIZE -> requests y args (CFilesize (i32 (arg_word y args 1)))
  | req_read : arg_block abs args 4 -> arg_word y args 0 = SYS_READ -> valid_buffer abs (arg_word y args 2) ->
      requests y args (CRead (i32 (arg_word y args 1)) (arg_word y args 2) (i32 (arg_word y args 3)))
  | req_seek : arg_block abs args 3 -> arg_word y args 0 = SYS_SEEK -> requests y args (CSeek (i32 (arg_word y args 1)) (i32 (arg_word y args 2)))
  | req_tell : arg_block abs args 2 -> arg_word y args 0 = SYS_TELL -> requests y args (CTell (i32 (arg_word y args 1)))
  | req_close : arg_block abs args 2 -> arg_word y args 0 = SYS_CLOSE -> requests y args (CClose (i32 (arg_word y args 1))).

(** What a correct program asks for. *)
Definition allowed (y : sys St) (V : list view) (c : file_call) : Prop :=
  let f := m_fs (s_machine y) in
  match c with
  | COpen fp => good_path fp depth /\ (length fp < fuel)%nat /\ from_root L y fp /\ fd_count y < 2 ^ 31 - 1 /\
      forall s, resolve f ROOT_DIR_SECTOR (path_words fp) = Some s -> isdir_at f s = false
  | CFilesize n | CTell n => is_Some (v_find V n)
  | CRead n buffer size => 0 <= size /\ forall s pos, v_find V n = Some (s, pos) -> 0 <= pos < 2 ^ 31 - MAX_FILE_BYTES /\
      forall a, buffer <= a < buffer + Z.of_nat (length (file_slice f s size pos)) -> writable abs a
  | CSeek n pos => is_Some (v_find V n) /\ 0 <= pos
  | CClose n => True
  end.

(** What is stored, or nothing. *)
Definition memory_after (y y' : sys St) (w : option (Z * list Z)) : Prop :=
  match w with
  | Some (buffer, data) => stores sp pd abs (m_vm (s_machine y)) buffer data (m_vm (s_machine y'))
  | None => m_vm (s_machine y') = m_vm (s_machine y)
  end.

Definition served (y : sys St) (D : list desc) (args eax : Z) (spec : Z * list view * option (Z * list Z)) : Prop :=
  exists y' D', handler args eax y = Done (Returns (Resume (u32 (fst (fst spec)))), y') /\ session y' D' /\ map view_of D' = snd (fst spec) /\
    memory_after y y' (snd spec) /\ same_disk (m_fs (s_machine y)) (m_fs (s_machine y')).

Lemma numbers_small y D i d : session y D -> D !! i = Some d -> is_i32 (d_number d).
Proof. intros Hs Hd. destruct (se_count _ _ _ _ _ _ _ Hs) as [Hc1 Hc2]. pose proof (Forall_lookup_1 _ _ _ _ Hc1 Hd) as Hn. cbn in Hn. unfold is_i32. lia. Qed.

(** The way to a call with [n] argument words. *)
Lemma reach y args eax n nr : process sp pd abs y -> is_u32 args -> 1 <= n <= 4 -> arg_block abs args n -> arg_word y args 0 = nr -> SYS_WAIT < nr -> nr <> SYS_PRACTICE ->
  handler args eax y = file_handler args eax y /\ arg args 0 y = Done (nr, y) /\ need_args args n y = Done (Returns tt, y) /\
  forall i, 0 <= i < n -> arg args i y = Done (arg_word y args i, y).
Proof.
  intros Hp Ha Hn Hb <- Hw Hpr. pose proof (fun i Hi => arg_run sp pd abs y args n i Hp Hb Hi (proj1 Ha)) as Harg. split_and!.
  - by apply (handler_files y args eax n).
  - apply Harg. lia.
  - apply (need_args_run sp pd abs); [exact Hp|exact Ha|lia|exact Hb].
  - exact Harg.
Qed.
Ltac to_call R := unfold file_operation_handler; rewrite (bind_done _ _ _ _ _ (proj1 (proj2 R)));
  cbn [Z.eqb Pos.eqb SYS_CREATE SYS_REMOVE SYS_OPEN SYS_FILESIZE SYS_READ SYS_WRITE SYS_SEEK SYS_TELL SYS_CLOSE];
  rewrite (then_run _ _ _ _ _ (proj1 (proj2 (proj2 R)))).

Ltac fetch R i := rewrite (bind_done _ _ _ _ _ (proj2 (proj2 (proj2 R)) i ltac:(lia))).

Lemma serve_filesize y D args eax : session y D -> is_u32 args -> arg_block abs args 2 -> arg_word y args 0 = SYS_FILESIZE ->
  let c := CFilesize (i32 (arg_word y args 1)) in allowed y (map view_of D) c -> served y D args eax (call_spec (m_fs (s_machine y)) (fd_count y) eax (map view_of D) c).
Proof.
  intros Hs Ha Hb Hnr c [v Hv]. destruct (v_find_some _ _ _ Hv) as (i & d & Hd & En & ->). pose proof (reach y args eax 2 _ (se_process _ _ _ _ _ _ _ Hs) Ha ltac:(lia) Hb Hnr ltac:(done) ltac:(done)) as R.
  destruct (filesize_step L H sp pd abs y D i d Hs Hd) as (g & E & Hg & Sd). unfold served, c, call_spec. rewrite Hv. exists (with_fs_of y g), D.
  split_and!; [|exact Hg|done|done|exact Sd]. rewrite (proj1 R). to_call R. fetch R 1. rewrite <- En. by rewrite (bind_done _ _ _ _ _ E).
Qed.

Lemma serve_tell y D args eax : session y D -> is_u32 args -> arg_block abs args 2 -> arg_word y args 0 = SYS_TELL ->
  let c := CTell (i32 (arg_word y args 1)) in allowed y (map view_of D) c -> served y D args eax (call_spec (m_fs (s_machine y)) (fd_count y) eax (map view_of D) c).
Proof.
  intros Hs Ha Hb Hnr c [v Hv]. destruct (v_find_some _ _ _ Hv) as (i & d & Hd & En & ->). pose proof (reach y args eax 2 _ (se_process _ _ _ _ _ _ _ Hs) Ha ltac:(lia) Hb Hnr ltac:(done) ltac:(done)) as R.
  unfold served, c, call_spec. rewrite Hv. exists y, D. split_and!; [|exact Hs|done|done|exact (same_disk_refl _ (inv_store L _ (no_inv _ _ _ (se_names _ _ _ _ _ _ _ Hs))))].
  rewrite (proj1 R). to_call R. fetch R 1. rewrite <- En. by rewrite (bind_done _ _ _ _ _ (tell_step L H sp pd abs y D i d Hs Hd)).
Qed.

Lemma serve_seek y D args eax : session y D -> is_u32 args -> arg_block abs args 3 -> arg_word y args 0 = SYS_SEEK ->
  let c := CSeek (i32 (arg_word y args 1)) (i32 (arg_word y args 2)) in
  allowed y (map view_of D) c -> served y D args eax (call_spec (m_fs (s_machine y)) (fd_count y) eax (map view_of D) c).
Proof.
  intros Hs Ha Hb Hnr c [[v Hv] Hp]. destruct (v_find_some _ _ _ Hv) as (i & d & Hd & En & ->). pose proof (reach y args eax 3 _ (se_process _ _ _ _ _ _ _ Hs) Ha ltac:(lia) Hb Hnr ltac:(done) ltac:(done)) as R.
  destruct (seek_step L H sp pd abs y D i d _ Hs Hd Hp) as (g & E & Hg & Sd). unfold served, c, call_spec. exists (with_fs_of y g), (<[i := at_pos d (i32 (arg_word y args 2))]> D).
  split_and!; [|exact Hg| |done|exact Sd].
  - rewrite (proj1 R). to_call R. fetch R 2. fetch R 1. rewrite <- En. by rewrite (bind_done _ _ _ _ _ E).
  - cbn [fst snd]. rewrite <- En. by rewrite (v_move_at D i d _ (se_numbers _ _ _ _ _ _ _ Hs) Hd).
Qed.

Lemma serve_read y D args eax : session y D -> is_u32 args -> arg_block abs args 4 -> arg_word y args 0 = SYS_READ -> valid_buffer abs (arg_word y args 2) ->
  let c := CRead (i32 (arg_word y args 1)) (arg_word y args 2) (i32 (arg_word y args 3)) in
  allowed y (map view_of D) c -> served y D args eax (call_spec (m_fs (s_machine y)) (fd_count y) eax (map view_of D) c).
Proof.
  intros Hs Ha Hb Hnr Hbuf c [Hsz Hw]. pose proof (reach y args eax 4 _ (se_process _ _ _ _ _ _ _ Hs) Ha ltac:(lia) Hb Hnr ltac:(done) ltac:(done)) as R.
  unfold served, c, call_spec. pose proof (i32_range (arg_word y args 3)) as Hr. destruct (v_find (map view_of D) (i32 (arg_word y args 1))) as [[s pos]|] eqn:Hv.
  - destruct (v_find_some _ _ _ Hv) as (i & d & Hd & En & [= -> ->]). destruct (Hw _ _ eq_refl) as [Hp Hwr].
    destruct (read_step L H sp pd abs y D i d _ _ Hs Hd Hbuf Hp (conj Hsz (proj2 Hr)) Hwr) as (y' & E & Hs' & Sd & _ & Hst). exists y'. eexists. split_and!; [|exact Hs'| |exact Hst|exact Sd].
    + rewrite (proj1 R). to_call R. fetch R 3. fetch R 2. fetch R 1. rewrite <- En. by rewrite (then_run _ _ _ _ _ E).
    + cbn [fst snd]. rewrite <- En. by rewrite (v_move_at D i d _ (se_numbers _ _ _ _ _ _ _ Hs) Hd).
  - exists y, D. split_and!; [|exact Hs|done|done|exact (same_disk_refl _ (inv_store L _ (no_inv _ _ _ (se_names _ _ _ _ _ _ _ Hs))))].
    rewrite (proj1 R). to_call R. fetch R 3. fetch R 2. fetch R 1. by rewrite (then_run _ _ _ _ _ (read_none L H sp pd abs y D _ _ _ Hs (v_find_none D _ Hv) Hbuf)).
Qed.

Lemma close_none y D n : session y D -> (forall d, d ∈ D -> d_number d <> n) -> close (@the_free_map St _) n y = Done (tt, y).
Proof.
  intros Hs Hn. unfold close. rewrite (bind_done _ _ _ _ _ (get_file_none L H sp pd abs y D n Hs Hn)). rewrite (bind_done _ _ y tt y) by (by destruct y as [[]]).
  unfold remove_file. rewrite (bind_done _ _ y y y) by reflexivity. assert (Er : remove_first n (fd_map y) = fd_map y); [|rewrite Er; by destruct y].
  pose proof (se_fds _ _ _ _ _ _ _ Hs) as HF. clear Hs. induction HF as [|w d l D Hw HF IH]; [done|]. cbn [remove_first]. rewrite (ds_number _ _ _ Hw), (proj2 (Z.eqb_neq _ _)) by (apply Hn; left).
  f_equal. apply IH. intros d' Hd'. apply Hn. by right.
Qed.

Lemma serve_close y D args eax : session y D -> is_u32 args -> arg_block abs args 2 -> arg_word y args 0 = SYS_CLOSE ->
  let c := CClose (i32 (arg_word y args 1)) in served y D args eax (call_spec (m_fs (s_machine y)) (fd_count y) eax (map view_of D) c).
Proof.
  intros Hs Ha Hb Hnr c. pose proof (reach y args eax 2 _ (se_process _ _ _ _ _ _ _ Hs) Ha ltac:(lia) Hb Hnr ltac:(done) ltac:(done)) as R.
  unfold served, c, call_spec. destruct (v_find (map view_of D) (i32 (arg_word y args 1))) as [v|] eqn:Hv.
  - destruct (v_find_some _ _ _ Hv) as (i & d & Hd & En & ->). destruct (close_fd_step L H sp pd abs y D i d Hs Hd) as (y' & E & Hs' & Sd & _ & _ & Ev). exists y', (delete i D).
    split_and!; [|exact Hs'| |exact Ev|exact Sd].
    + rewrite (proj1 R). to_call R. fetch R 1. rewrite <- En. by rewrite (bind_done _ _ _ _ _ E).
    + cbn [fst snd]. rewrite <- En. by rewrite (v_drop_at D i d (se_numbers _ _ _ _ _ _ _ Hs) Hd).
  - pose proof (v_find_none D _ Hv) as Hn. exists y, D. split_and!; [|exact Hs| |done|exact (same_disk_refl _ (inv_store L _ (no_inv _ _ _ (se_names _ _ _ _ _ _ _ Hs))))].
    + rewrite (proj1 R). to_call R. fetch R 1. by rewrite (bind_done _ _ _ _ _ (close_none y D _ Hs Hn)).
    + cbn [fst snd]. rewrite v_drop_other; [done|]. intros Hin. apply list_elem_of_fmap in Hin as (d & E & Hd). exact (Hn d Hd (eq_sym E)).
Qed.

Lemma serve_open y D args eax fp : session y D -> is_u32 args -> arg_block abs args 2 -> arg_word y args 0 = SYS_OPEN -> valid_buffer abs (arg_word y args 1) ->
  string_in abs (m_vm (s_machine y)) (arg_word y args 1) fp -> (15 <= length frame)%nat ->
  allowed y (map view_of D) (COpen fp) -> served y D args eax (call_spec (m_fs (s_machine y)) (fd_count y) eax (map view_of D) (COpen fp)).
Proof.
  intros Hs Ha Hb Hnr Hbuf Hst Hfr (P1 & P2 & P3 & P4 & P5). pose proof (reach y args eax 2 _ (se_process _ _ _ _ _ _ _ Hs) Ha ltac:(lia) Hb Hnr ltac:(done) ltac:(done)) as R.
  destruct (open_fd_step L H sp pd abs depth fuel frame y D _ fp Hs Hbuf Hst P2 P1 Hfr P3 P4 P5) as (r & y' & E & Sd & _ & Ev & Hr). unfold served, call_spec.
  assert (Hrun : handler args eax y = Done (Returns (Resume (u32 r)), y')) by (rewrite (proj1 R); to_call R; fetch R 1; by rewrite (then_run _ _ _ _ _ E)).
  destruct (resolve (m_fs (s_machine y)) ROOT_DIR_SECTOR (path_words fp)) as [s|].
  - destruct Hr as (-> & _ & p & Hs'). exists y', (mk_desc (fd_count y) p s 0 :: D). split_and!; [exact Hrun|exact Hs'|done|exact Ev|exact Sd].
  - destruct Hr as (-> & _ & Hs'). exists y', D. split_and!; [exact Hrun|exact Hs'|done|exact Ev|exact Sd].
Qed.


(** C15: [is_valid_args] protects the kernel's reads of a call's arguments.  It
    accepts a block of up to four words exactly when its first byte and the byte
    after its last are in mapped user pages, and the kernel then fetches each of
    the words without a page fault and as the process wrote it. *)
Theorem valid_args_readable y args n : process sp pd abs y -> is_u32 args -> 0 <= n <= 4 ->
  exists b, is_valid_args args n y = Done (b, y) /\ (b = true <-> readable abs args /\ readable abs (args + 4 * n)) /\
    (b = true -> forall i, 0 <= i < n -> arg args i y = Done (le_decode (map (byte_at abs (m_vm (s_machine y))) (seqZ (args + 4 * i) 4)), y)).
Proof.
  intros Hp Ha Hn. destruct (is_valid_args_run sp pd abs y args n Hp Ha Hn) as (b & E & Hb). exists b. split_and!; [exact E|exact Hb|].
  intros Ht i Hi. destruct (proj1 Hb Ht) as [R1 R2]. exact (arg_run sp pd abs y args n i Hp (block_between abs args n R1 R2 Hn) Hi (proj1 Ha)).
Qed.

(** *** What a process can do to the kernel *)

Lemma lost_file y D n : session y D -> v_find (map view_of D) n = None -> get_file_from_fd n y = Done (NULL, y).
Proof. intros Hs Hv. exact (get_file_none L H sp pd abs y D n Hs (v_find_none D n Hv)). Qed.

Lemma mach_fault {A} (m : M (fs St) A) y e : m (m_fs (s_machine y)) = Fault e -> mach (fs_do m) y = Fault e.
Proof. intros E. unfold mach, fs_do. by rewrite E. Qed.

(** C37: filesize, seek and tell of a descriptor that is not open stop the kernel:
    a process can fail an assertion of file.c with three words on its stack. *)
Theorem bad_descriptor_panics y D args eax c : session y D -> is_u32 args -> requests y args c ->
  match c with CFilesize n | CTell n | CSeek n _ => v_find (map view_of D) n = None | _ => False end ->
  handler args eax y = Fault AssertFailed.
Proof.
  intros Hs Ha Hreq Hv. destruct Hreq as [fp Hb Hn Hbuf Hst|Hb Hn|Hb Hn Hbuf|Hb Hn|Hb Hn|Hb Hn]; try done; pose proof (lost_file y D _ Hs Hv) as E.
  - pose proof (reach y args eax 2 _ (se_process _ _ _ _ _ _ _ Hs) Ha ltac:(lia) Hb Hn ltac:(done) ltac:(done)) as R. rewrite (proj1 R). to_call R. fetch R 1.
    apply bind_fault. unfold filesize. rewrite (bind_done _ _ _ _ _ E). by apply mach_fault.
  - pose proof (reach y args eax 3 _ (se_process _ _ _ _ _ _ _ Hs) Ha ltac:(lia) Hb Hn ltac:(done) ltac:(done)) as R. rewrite (proj1 R). to_call R. fetch R 2. fetch R 1.
    apply bind_fault. unfold seek. rewrite (bind_done _ _ _ _ _ E). by apply mach_fault.
  - pose proof (reach y args eax 2 _ (se_process _ _ _ _ _ _ _ Hs) Ha ltac:(lia) Hb Hn ltac:(done) ltac:(done)) as R. rewrite (proj1 R). to_call R. fetch R 1.
    apply bind_fault. unfold tell. rewrite (bind_done _ _ _ _ _ E). by apply mach_fault.
Qed.

(** C36: read checks five bytes of its buffer and no more: when the file has more
    bytes than the buffer's mapped pages can take, the kernel takes a page fault
    while it stores them, which stops it. *)
Theorem short_buffer_panics y D args eax n buffer size s pos k : session y D -> is_u32 args -> requests y args (CRead n buffer size) ->
  v_find (map view_of D) n = Some (s, pos) -> 0 <= pos < 2 ^ 31 - MAX_FILE_BYTES -> 0 <= size ->
  buffer <= k < buffer + Z.of_nat (length (file_slice (m_fs (s_machine y)) s size pos)) -> k < PHYS_BASE ->
  (forall i, buffer <= i < k -> writable abs i) -> present (PagedirStep.entry abs (k / 4096)) = false ->
  handler args eax y = Fault BadPointer.
Proof.
  intros Hs Ha Hreq Hv Hpos Hsz Hk Hkp Hw Hp. inversion Hreq as [ | |Hb Hn Hbuf| | | ]; subst n buffer size. destruct (v_find_some _ _ _ Hv) as (i & d & Hd & En & [= -> ->]).
  pose proof (reach y args eax 4 _ (se_process _ _ _ _ _ _ _ Hs) Ha ltac:(lia) Hb Hn ltac:(done) ltac:(done)) as R. rewrite (proj1 R). to_call R. fetch R 3. fetch R 2. fetch R 1.
  destruct (get_file_run L H sp pd abs y D i d Hs Hd) as (w & _ & E & Hh). pose proof (h_null _ _ _ _ _ _ Hh) as [H0 _]. assert (Hsz' : 0 <= i32 (arg_word y args 3) < 2 ^ 32) by (pose proof (i32_range (arg_word y args 3)) as Hr; unfold is_i32 in Hr; lia).
  destruct (file_read_step L _ _ _ _ _ _ false _ (se_names _ _ _ _ _ _ _ Hs) Hh Hpos Hsz') as (g & E2 & _). rewrite <- En.
  apply bind_fault. unfold read. rewrite (bind_done _ _ _ _ _ (valid_file_run sp pd abs y _ (se_process _ _ _ _ _ _ _ Hs) Hbuf)). cbn [negb].
  rewrite (bind_done _ _ _ _ _ E), (proj2 (Z.eqb_neq (fd_file w) NULL) H0). cbn [negb]. rewrite (bind_done _ _ _ _ _ (mach_fs_run _ _ _ _ E2)). apply bind_fault.
  unfold mach, vm_do. cbn [with_fs_of s_machine m_vm]. rewrite (user_store_fault sp pd abs _ _ _ k (proj1 (se_process _ _ _ _ _ _ _ Hs)) Hw Hk Hkp); [done| |exact Hp|].
  - destruct Hbuf as (_ & Hu & _). exact (proj1 Hu).
  - apply Forall_forall. intros b Hin. unfold file_slice in Hin. apply list_elem_of_In, in_map_iff in Hin as (j & <- & _). apply file_byte_byte. exact (inv_store L _ (no_inv _ _ _ (se_names _ _ _ _ _ _ _ Hs))).
Qed.
End calls.

(** ** The type of the descriptor table *)

Section types.
Context {St : Type} `{!SectorStore St} (al : allocator St) (depth fuel : nat) (frame entry : list Z) (inode : Z).
Implicit Types (y : sys St) (w : thread_fd).

(** Every node is for a file or for a directory, and the numbers are different
    and were given out before. *)
Record fds_ok (y : sys St) : Prop := {
  fo_kind w : w ∈ fd_map y -> (fd_file w <> 0 /\ fd_dir w = 0) \/ (fd_file w = 0 /\ fd_dir w <> 0);
  fo_number w : w ∈ fd_map y -> 2 <= fd w < fd_count y;
  fo_different : NoDup (map fd (fd_map y))
}.

(** Calls that do not touch the table. *)
Definition keeps {A} (m : M (sys St) A) : Prop := forall y a y', m y = Done (a, y') -> fd_map y' = fd_map y /\ fd_count y' = fd_count y.

(** Calls that keep it well formed while there are numbers left. *)
Definition typed {A} (m : M (sys St) A) : Prop := forall y a y', m y = Done (a, y') -> fds_ok y -> 2 <= fd_count y < 2 ^ 31 - 1 -> fds_ok y'.

Lemma keeps_ret {A} (a : A) : keeps (ret a).
Proof. by intros y b y' [= _ <-]. Qed.

Lemma keeps_fail {A} e : keeps (A := A) (fail e).
Proof. done. Qed.

Lemma keeps_get : keeps (get (S := sys St)).
Proof. by intros y b y' [= _ <-]. Qed.

Lemma keeps_bind {A B} (m : M (sys St) A) (k : A -> M (sys St) B) : keeps m -> (forall a, keeps (k a)) -> keeps (bind m k).
Proof. intros Hm Hk y b y'. unfold bind. destruct (m y) as [[a y1]|] eqn:E; [|done]. intros E'. destruct (Hm _ _ _ E) as [<- <-]. exact (Hk a _ _ _ E'). Qed.

Lemma keeps_mach {A} (m : M (machine St) A) : keeps (mach m).
Proof. intros y a y'. unfold mach. destruct (m (s_machine y)) as [[b u]|]; [|done]. by intros [= _ <-]. Qed.

Lemma keeps_if {A} (b : bool) (m m' : M (sys St) A) : keeps m -> keeps m' -> keeps (if b then m else m').
Proof. by destruct b. Qed.

Lemma typed_keeps {A} (m : M (sys St) A) : keeps m -> typed m.
Proof. intros Hm y a y' E [F1 F2 F3] _. destruct (Hm _ _ _ E) as [E1 E2]. split; rewrite ?E1, ?E2; done. Qed.

Lemma typed_if {A} (b : bool) (m m' : M (sys St) A) : typed m -> typed m' -> typed (if b then m else m').
Proof. by destruct b. Qed.

Lemma typed_bind {A B} (m : M (sys St) A) (k : A -> M (sys St) B) : keeps m -> (forall a, typed (k a)) -> typed (bind m k).
Proof.
  intros Hm Hk y b y'. unfold bind. destruct (m y) as [[a y1]|] eqn:E; [|done]. intros E' Hy Hc. destruct (Hm _ _ _ E) as [E1 E2].
  apply (Hk a _ _ _ E'); [exact (typed_keeps m Hm _ _ _ E Hy Hc)|by rewrite E2].
Qed.

Lemma typed_before {A B} (m : M (sys St) A) (k : A -> M (sys St) B) : typed m -> (forall a, keeps (k a)) -> typed (bind m k).
Proof.
  intros Hm Hk y b y'. unfold bind. destruct (m y) as [[a y1]|] eqn:E; [|done]. intros E' Hy Hc. destruct (Hk a _ _ _ E') as [E1 E2].
  destruct (Hm _ _ _ E Hy Hc) as [F1 F2 F3]. split; rewrite ?E1, ?E2; done.
Qed.

Lemma keeps_result {A B} (r : result A) (k : A -> M (sys St) (result B)) : (forall a, keeps (k a)) ->
  keeps (match r with Returns a => k a | Exits s => ret (Exits s) end).
Proof. destruct r; [auto|intros _; apply keeps_ret]. Qed.

Lemma typed_result {A B} (r : result A) (k : A -> M (sys St) (result B)) : (forall a, typed (k a)) ->
  typed (match r with Returns a => k a | Exits s => ret (Exits s) end).
Proof. destruct r; [auto|intros _; apply typed_keeps, keeps_ret]. Qed.
End types.

(** Walks through a call. *)
Ltac keep := repeat first [progress intros | apply keeps_ret | apply keeps_fail | apply keeps_get | apply keeps_mach | apply keeps_result
  | apply keeps_bind | apply keeps_if | progress cbv zeta | match goal with |- keeps (match ?x with _ => _ end) => destruct x end].

Section table.
Context {St : Type} `{!SectorStore St} (al : allocator St) (depth fuel : nat) (frame entry : list Z) (inode : Z).
Implicit Types (y : sys St) (w : thread_fd).

Lemma keeps_valid args n : keeps (St := St) (is_valid_args args n).
Proof. unfold is_valid_args. keep. Qed.

Lemma keeps_valid_file p : keeps (St := St) (is_valid_file p).
Proof. unfold is_valid_file. apply keeps_if; [apply keeps_ret|apply keeps_valid]. Qed.

Lemma keeps_putbuf l : keeps (St := St) (putbuf l).
Proof. unfold putbuf, modify. by intros y a y' [= _ <-]. Qed.

Lemma typed_set y w (Hy : fds_ok y) (Hc : 2 <= fd_count y < 2 ^ 31 - 1) :
  fd w = fd_count y -> (fd_file w <> 0 /\ fd_dir w = 0) \/ (fd_file w = 0 /\ fd_dir w <> 0) ->
  fds_ok (mk_sys (s_machine y) (w :: fd_map y) (fd_count y + 1) (console y)).
Proof.
  destruct Hy as [F1 F2 F3]. intros Hn Hk. split; cbn.
  - intros w' [->|Hw']%elem_of_cons; [exact Hk|by apply F1].
  - intros w' [->|Hw']%elem_of_cons; [lia|]. specialize (F2 w' Hw'). lia.
  - apply NoDup_cons. split; [|exact F3]. intros (w' & E & Hw')%list_elem_of_fmap. specialize (F2 w' Hw'). lia.
Qed.

Lemma typed_open p : typed (St := St) (open al depth fuel frame p).
Proof.
  unfold open. apply typed_bind; [apply keeps_valid_file|]. intros v. apply typed_if; [apply typed_keeps, keeps_ret|]. apply typed_bind; [apply keeps_mach|]. intros name.
  apply typed_bind; [apply keeps_mach|]. intros [retval b]. destruct (Z.eqb_spec retval NULL) as [|Hr]; [apply typed_keeps, keeps_ret|].
  apply typed_bind; [apply keeps_mach|]. intros node. apply typed_if; [apply typed_keeps, keeps_fail|]. intros y a y' E Hy Hc. unfold bind, get, set_fd_map, set_fd_count, modify, ret in E.
  cbn in E. rewrite i32_small, u32_small in E by (unfold is_i32, is_u32; lia). injection E as _ <-.
  apply (typed_set y _ Hy Hc); destruct b; cbn; [done|done|by right|by left].
Qed.

Lemma typed_remove n : typed (St := St) (remove_file n).
Proof.
  intros y a y' E [F1 F2 F3] _. unfold remove_file, bind, get, set_fd_map, modify in E. injection E as _ <-.
  assert (Hin : forall w l, w ∈ remove_first n l -> w ∈ l).
  { intros w l. induction l as [|v l IH]; [done|]. cbn. destruct (fd v =? n); [by right|]. intros [->|Hw]%elem_of_cons; [by left|right; by apply IH]. }
  split; cbn; [intros w Hw; by apply F1, Hin|intros w Hw; by apply F2, Hin|]. clear F1 F2. induction (fd_map y) as [|v l IH]; [done|]. cbn in *. apply NoDup_cons in F3 as [Fn F3].
  destruct (fd v =? n); [exact F3|]. cbn. apply NoDup_cons. split; [|by apply IH]. intros (w & E & Hw)%list_elem_of_fmap. apply Fn. rewrite E. apply list_elem_of_fmap. exists w. split; [done|by apply Hin].
Qed.

Lemma typed_close n : typed (St := St) (close al n).
Proof. unfold close. apply typed_bind; [unfold get_file_from_fd; keep|]. intros p. apply typed_bind; [apply keeps_mach|]. intros _. apply typed_remove. Qed.

Lemma typed_files args eax : typed (St := St) (file_operation_handler al depth fuel frame entry inode args eax).
Proof.
  unfold file_operation_handler. apply typed_bind; [apply keeps_mach|]. intros nr.
  assert (Hneed : forall A n (k : unit -> M (sys St) (result A)), (forall u, typed (k u)) -> typed (then_ (need_args args n) k)).
  { intros A n k Hk. unfold then_. apply typed_bind; [unfold need_args; apply keeps_bind; [apply keeps_valid|intros v; unfold exit; keep]|]. intros r. by apply typed_result. }
  repeat apply typed_if; try (apply Hneed; intros _); try (apply typed_keeps; unfold Syscall.remove, create, filesize, read, Syscall.write, write_call, seek, tell, readdir_call, isdir, inumber, then_,
    get_file_from_fd, get_dir_from_fd, path, resume, exit, arg; keep; solve [apply keeps_valid_file|apply keeps_putbuf]).
  - apply typed_bind; [apply keeps_mach|]. intros a. apply typed_before; [apply typed_open|]. intros r. apply keeps_result. intros b. apply keeps_ret.
  - apply typed_bind; [apply keeps_mach|]. intros a. apply typed_before; [apply typed_close|]. intros r. apply keeps_ret.
Qed.

(** C18: the descriptor table is well typed: after every system call that returns,
    each of its nodes is for a file or for a directory, never for both or for
    neither, and its numbers are different and below the next number to be given
    out.  The table may be any such table, the memory and the file system any
    state. *)
Theorem descriptor_table_typed y args eax r y' : fds_ok y -> 2 <= fd_count y < 2 ^ 31 - 1 ->
  syscall_handler al depth fuel frame entry inode args eax y = Done (r, y') -> fds_ok y'.
Proof.
  intros Hy Hc E. assert (Ht : typed (St := St) (syscall_handler al depth fuel frame entry inode args eax)); [|exact (Ht _ _ _ E Hy Hc)].
  unfold syscall_handler. apply typed_bind; [apply keeps_valid|]. intros v. apply typed_if; [apply typed_keeps, keeps_ret|]. apply typed_bind; [apply keeps_mach|]. intros nr.
  do 5 (apply typed_if; [apply typed_keeps; unfold resume, exit, need_args, then_, arg; keep; solve [apply keeps_valid|apply keeps_valid_file]|]). apply typed_files.
Qed.
End table.

(** ** The theorems at work

    A process with one page of memory and the descriptor 2, on the machine of
    PagedirProps.v and the small file system of FileDemo.v. *)

Lemma demo_running : exists sp pd abs st, running sp pd abs st /\ forall a, (readable abs a -> 0x8048000 <= a < 0x8049000) /\ (0x8048000 <= a < 0x8049000 -> writable abs a).
Proof.
  destruct demo_space as (sp & st & pd & k & [own Hi] & Hd). destruct (activate_spec own sp st (Some pd) Hi ltac:(by eexists)) as (st' & _ & Hi').
  exists (mk_space (PagedirInv.dirs sp) (held sp) (Some pd) (kmap sp)), pd, {[0x8048 := user_entry k true]}, st'.
  split; [split; [by exists own|done|exact Hd]|]. intros a. assert (Hk : present (user_entry k true) = true /\ Z.land (user_entry k true) PTE_W <> 0).
  { unfold present, user_entry. rewrite !Z.land_lor_distr_l. split; [apply negb_true_iff, Z.eqb_neq|]; intros E; apply Z.lor_eq_0_iff in E as [_ E]; discriminate. }
  destruct (address_split a) as [Ea Eo]. unfold writable, readable, PagedirStep.entry, PHYS_BASE. destruct (decide (a / 4096 = 0x8048)) as [E|E].
  - rewrite E, lookup_singleton_eq. cbn. split; [lia|]. intros _. split_and!; [lia|lia|apply Hk|apply Hk].
  - rewrite lookup_singleton_ne by lia. split; [intros [_ Hf]; discriminate|lia].
Qed.

(** Words and bytes on the page. *)
Lemma demo_memory (l : list Z) : (length l <= 4096)%nat -> Forall is_byte l ->
  exists sp pd abs st, running sp pd abs st /\ (forall a, (readable abs a -> 0x8048000 <= a < 0x8049000) /\ (0x8048000 <= a < 0x8049000 -> writable abs a)) /\
    (forall i b, l !! i = Some b -> byte_at abs st (0x8048000 + Z.of_nat i) = b).
Proof.
  intros Hl Hb. destruct demo_running as (sp & pd & abs & st & Hr & Hw). destruct (user_store_run sp pd abs l st 0x8048000 Hr) as (st' & _ & [S1 S2 _ _]); [intros i Hi; apply Hw; lia|exact Hb|].
  exists sp, pd, abs, st'. split_and!; [exact S1|exact Hw|exact S2].
Qed.

Lemma demo_word (l : list Z) abs st k : (forall i b, l !! i = Some b -> byte_at abs st (0x8048000 + Z.of_nat i) = b) -> (k + 4 <= length l)%nat ->
  word_from abs st (0x8048000 + Z.of_nat k) = le_decode (slice k 4 l).
Proof.
  intros Hb Hk. unfold word_from. f_equal. apply list_eq. intros j. unfold slice. rewrite list_lookup_fmap. destruct (decide (j < 4)%nat) as [Hj|Hj].
  - rewrite lookup_seqZ_lt, lookup_take_lt, lookup_drop by lia. destruct (lookup_lt_is_Some_2 l (k + j)) as [b E]; [lia|]. rewrite E. cbn. f_equal. rewrite <- (Hb _ _ E). f_equal. lia.
  - rewrite lookup_seqZ_ge, lookup_take_ge by lia. done.
Qed.

(** The handle 5 on the file at sector 1. *)
Definition demo_open_fs : fs (cache memory_disk) :=
  with_objects (allocated demo_cwd_fs) (<[5 := mk_file 3 0 false]> (files demo_cwd_fs)) (Inode.dirs demo_cwd_fs).

Lemma demo_open_names : demo_names_ok [1; 5] [(3, 1)] demo_open_fs.
Proof.
  apply names_objects; [apply names_allocated, demo_cwd_names|reflexivity| |].
  - intros d Hd. pose proof (no_dirs _ _ _ demo_cwd_names d Hd) as Hn. cbn in *. lia.
  - intros x. destruct (decide (5 = x)) as [<-|Hne]; [cbn; lia|]. rewrite lookup_insert_ne by done. intros Hx. pose proof (no_files _ _ _ demo_cwd_names x Hx) as Hn. cbn in *. lia.
Qed.

Lemma demo_open_same : same_disk demo_names_fs demo_open_fs.
Proof. apply same_disk_store; [exact (inv_store _ _ demo_files)|reflexivity|reflexivity]. Qed.

Definition demo_desc : desc := mk_desc 2 3 1 0.
Definition demo_sys (st : vm) (pd : Z) : sys (cache memory_disk) := mk_sys (mk_machine st demo_open_fs pd 0) [mk_fd 2 5 0] 3 [].

Lemma demo_session sp pd abs st : running sp pd abs st ->
  session (q := 1) (pm := 1) (im := demo_map_entry) (priv := demo_priv) [1; 5] [] sp pd abs (demo_sys st pd) [demo_desc].
Proof.
  intros Hr. split; [by split|exact demo_open_names|exact (closed_same _ _ _ demo_closed demo_open_same)| | | |].
  - constructor; [|constructor]. split; [reflexivity|reflexivity|split; discriminate|reflexivity].
  - apply NoDup_singleton.
  - apply NoDup_singleton.
  - split; [constructor; [cbn; lia|constructor]|cbn; lia].
Qed.

Lemma demo_length : file_len demo_open_fs 1 = 60.
Proof. rewrite (proj2 (same_byte demo_names_fs demo_open_fs 1 0 demo_open_same)). apply (demo_dir_idx 1023 0 false). Qed.

Lemma demo_data : length (file_slice demo_open_fs 1 60 0) = 60%nat.
Proof. unfold file_slice. rewrite length_map, length_seqZ, demo_length. reflexivity. Qed.

(** The arguments [ws] of a call at the start of the page. *)
Definition demo_stack (ws : list Z) : list Z := mjoin (map (le_encode 4) ws).

Lemma demo_call (a b c d : Z) : Forall is_u32 [a; b; c; d] ->
  exists sp pd abs st, running sp pd abs st /\ (forall x, (readable abs x -> 0x8048000 <= x < 0x8049000) /\ (0x8048000 <= x < 0x8049000 -> writable abs x)) /\
    (forall n, 0 <= n <= 4 -> arg_block abs 0x8048000 n) /\
    forall i w, [a; b; c; d] !! i = Some w -> arg_word abs (demo_sys st pd) 0x8048000 (Z.of_nat i) = w.
Proof.
  intros Hu. destruct (demo_memory (demo_stack [a; b; c; d])) as (sp & pd & abs & st & Hr & Hw & Hb).
  - cbn. lia.
  - unfold demo_stack. cbn [map mjoin list_join]. repeat apply Forall_app_2; try apply le_encode_bytes. constructor.
  - exists sp, pd, abs, st. split_and!; [exact Hr|exact Hw|intros n Hn x Hx; apply Hw; lia|]. intros i w Hi. unfold arg_word. cbn [demo_sys s_machine m_vm].
    assert (Hl : (i < 4)%nat) by (apply lookup_lt_Some in Hi; exact Hi).
    replace (0x8048000 + 4 * Z.of_nat i) with (0x8048000 + Z.of_nat (4 * i)) by lia. rewrite (demo_word (demo_stack [a; b; c; d]) abs st (4 * i) Hb) by (cbn; lia).
    assert (Hs : slice (4 * i) 4 (demo_stack [a; b; c; d]) = le_encode 4 w) by (destruct i as [|[|[|[|i]]]]; cbn in Hi; [| | | |lia]; injection Hi as <-; reflexivity).
    rewrite Hs, le_decode_encode. pose proof (Forall_lookup_1 _ _ _ _ Hu Hi) as Hw'. apply Z.mod_small. exact Hw'.
Qed.

Abbreviation demo_handler := (syscall_handler (@the_free_map (cache memory_disk) _) 2 100 (replicate 15 0) [] 0).
Abbreviation demo_word_at := (fun abs st pd => arg_word abs (demo_sys st pd) 0x8048000).

Lemma demo_read_request abs st pd buffer : is_u32 buffer -> buffer <> NULL -> arg_block abs buffer 1 -> (forall n, 0 <= n <= 4 -> arg_block abs 0x8048000 n) ->
  (forall i w, [SYS_READ; 2; buffer; 60] !! i = Some w -> demo_word_at abs st pd (Z.of_nat i) = w) -> requests abs (demo_sys st pd) 0x8048000 (CRead 2 buffer 60).
Proof.
  intros Hu Hn Hb Hblk Hw. pose proof (req_read abs (demo_sys st pd) 0x8048000 (Hblk 4 ltac:(lia)) (Hw O _ eq_refl)) as R.
  rewrite (Hw 1%nat _ eq_refl : demo_word_at abs st pd 1 = 2), (Hw 2%nat _ eq_refl : demo_word_at abs st pd 2 = buffer), (Hw 3%nat _ eq_refl : demo_word_at abs st pd 3 = 60) in R.
  apply R. by split_and!.
Qed.


Lemma valid_args_readable_witness : exists sp pd abs st, running sp pd abs st /\ is_valid_args 0x8048000 4 (demo_sys st pd) = Done (true, demo_sys st pd) /\
  arg 0x8048000 3 (demo_sys st pd) = Done (60, demo_sys st pd).
Proof.
  destruct (demo_call SYS_READ 2 0x8048800 60) as (sp & pd & abs & st & Hr & Hw & Hblk & Hargs); [repeat constructor; unfold SYS_READ; lia|].
  destruct (valid_args_readable sp pd abs (demo_sys st pd) 0x8048000 4) as (b & E & Hb & Harg).
  - by split.
  - unfold is_u32. lia.
  - lia.
  - assert (b = true) as -> by (apply Hb; split; apply Hw; lia). exists sp, pd, abs, st. split; [exact Hr|]. split; [exact E|]. rewrite (Harg eq_refl 3 ltac:(lia)).
    pose proof (Hargs 3%nat 60 eq_refl) as H3. unfold arg_word, word_from in H3. cbn [demo_sys s_machine m_vm] in *. change (Z.of_nat 3) with 3 in H3. by rewrite H3.
Defined.

(** tell (7) *)
Lemma bad_descriptor_panics_witness : exists sp pd abs st, running sp pd abs st /\ demo_handler 0x8048000 0 (demo_sys st pd) = Fault AssertFailed.
Proof.
  destruct (demo_call SYS_TELL 7 0 0) as (sp & pd & abs & st & Hr & Hw & Hblk & Hargs); [repeat constructor; unfold SYS_TELL; lia|]. exists sp, pd, abs, st. split; [exact Hr|].
  pose proof (req_tell abs (demo_sys st pd) 0x8048000 (Hblk 2 ltac:(lia)) (Hargs O _ eq_refl)) as R. rewrite (Hargs 1%nat _ eq_refl : demo_word_at abs st pd 1 = 7) in R.
  apply (bad_descriptor_panics (q := 1) (pm := 1) (im := demo_map_entry) (priv := demo_priv) [1; 5] [] sp pd abs 2 100 (replicate 15 0) [] 0
    (demo_sys st pd) [demo_desc] 0x8048000 0 (CTell (i32 7))); [exact (demo_session sp pd abs st Hr)|unfold is_u32; lia|exact R|reflexivity].
Defined.

(** 60 bytes are read to the last five bytes of the page. *)
Lemma short_buffer_panics_witness : exists sp pd abs st, running sp pd abs st /\ demo_handler 0x8048000 0 (demo_sys st pd) = Fault BadPointer.
Proof.
  destruct (demo_call SYS_READ 2 0x8048ffb 60) as (sp & pd & abs & st & Hr & Hw & Hblk & Hargs); [repeat constructor; unfold SYS_READ; lia|]. exists sp, pd, abs, st. split; [exact Hr|].
  assert (Hbuf : arg_block abs 0x8048ffb 1) by (intros x Hx; apply Hw; lia).
  apply (short_buffer_panics (q := 1) (pm := 1) (im := demo_map_entry) (priv := demo_priv) [1; 5] [] sp pd abs 2 100 (replicate 15 0) [] 0
    (demo_sys st pd) [demo_desc] 0x8048000 0 2 0x8048ffb 60 1 0 0x8049000).
  - exact (demo_session sp pd abs st Hr).
  - unfold is_u32. lia.
  - apply demo_read_request; [unfold is_u32; lia|discriminate|exact Hbuf|exact Hblk|exact Hargs].
  - reflexivity.
  - unfold MAX_FILE_BYTES. lia.
  - lia.
  - cbn [demo_sys s_machine m_fs]. rewrite demo_data. lia.
  - unfold PHYS_BASE. lia.
  - intros i Hi. apply Hw. lia.
  - destruct (present (PagedirStep.entry abs (0x8049000 / 4096))) eqn:Ep; [|done]. assert (Hx : readable abs 0x8049000) by (split; [unfold PHYS_BASE; lia|exact Ep]).
    apply Hw in Hx. lia.
Defined.

(** tell (2) *)
Lemma descriptor_table_typed_witness : exists st pd y', demo_handler 0x8048000 0 (demo_sys st pd) = Done (Returns (Resume 0), y') /\ fds_ok (demo_sys st pd) /\ fds_ok y'.
Proof.
  destruct (demo_call SYS_TELL 2 0 0) as (sp & pd & abs & st & Hr & Hw & Hblk & Hargs); [repeat constructor; unfold SYS_TELL; lia|].
  destruct (serve_tell (q := 1) (pm := 1) (im := demo_map_entry) (priv := demo_priv) [1; 5] [] sp pd abs 2 100 (replicate 15 0) [] 0 (demo_sys st pd) [demo_desc] 0x8048000 0
    (demo_session sp pd abs st Hr) ltac:(unfold is_u32; lia) (Hblk 2 ltac:(lia)) (Hargs O _ eq_refl)) as (y' & D' & E & _).
  { rewrite (Hargs 1%nat _ eq_refl : demo_word_at abs st pd 1 = 2). by exists (1, 0). }
  rewrite (Hargs 1%nat _ eq_refl : demo_word_at abs st pd 1 = 2) in E. change (fst (fst (call_spec _ _ _ _ _))) with 0 in E. exists st, pd, y'.
  assert (Hok : fds_ok (demo_sys st pd)).
  { split; [intros w Hw'%list_elem_of_singleton; subst w; left; split; [discriminate|reflexivity]|intros w Hw'%list_elem_of_singleton; subst w; cbn; lia|apply NoDup_singleton]. }
  split; [exact E|]. split; [exact Hok|].
  apply (descriptor_table_typed the_free_map 2 100 (replicate 15 0) [] 0 (demo_sys st pd) 0x8048000 0 (Returns (Resume (u32 0)))); [exact Hok|cbn; lia|exact E].
Defined.
