(* ===== verification/Wait.v ===== *)
(** * Waiting for processes: wait_status of userprog/process.c and threads/thread.c

    Each process shares a [struct wait_status] with its parent: the parent keeps
    it in its list of children until it has waited for the child or exits.  The
    structures live in a heap in which a freed one is missing, so that a use of
    it is a fault.  The head and the tail of the list of children are in the page
    of the parent's [struct thread], which is gone once the scheduler has freed
    it, so that the first or the last element of a list cannot be removed then.

    Operations are steps of the running thread [cur], each of them whole; a semaphore that is down
    makes the step wait, that is, it cannot be taken yet.  The lock of a
    structure is free between steps.  [malloc] is taken to succeed. *)

From stdpp Require Import options.
From S2P Require Import Prelude.
Local Open Scope Z_scope.
Local Open Scope kernel_scope.

(** ** State *)

Record wait_status := mk_ws {
  dead : Z; exit_status : Z; ws_tid : Z; reference_count : Z; done_loading : Z; load_error : Z
}.

(** The fields of [struct thread] that matter here, and whether its page is
    still allocated. *)
Record thread_ws := mk_thread_ws { t_ws : Z; children : list Z; t_page : bool }.

Record waits := mk_waits { heap : gmap Z wait_status; threads : gmap Z thread_ws; next_ws : Z }.

Abbreviation MW := (M waits).

Definition load_ws (p : Z) : MW wait_status :=
  let! s := get in match heap s !! p with Some w => ret w | None => fail BadPointer end.

Definition store_ws (p : Z) (w : wait_status) : MW unit :=
  let! _ := load_ws p in modify (fun s => mk_waits (<[p := w]> (heap s)) (threads s) (next_ws s)).

Definition load_thread (t : Z) : MW thread_ws :=
  let! s := get in
  match threads s !! t with
  | Some x => if t_page x then ret x else fail BadPointer
  | None => fail BadPointer
  end.

Definition store_thread (t : Z) (x : thread_ws) : MW unit := modify (fun s => mk_waits (heap s) (<[t := x]> (threads s)) (next_ws s)).

Definition set_exit_status (p status : Z) : MW unit :=
  let! w := load_ws p in store_ws p (mk_ws (dead w) status (ws_tid w) (reference_count w) (done_loading w) (load_error w)).
Definition set_load_error (p e : Z) : MW unit :=
  let! w := load_ws p in store_ws p (mk_ws (dead w) (exit_status w) (ws_tid w) (reference_count w) (done_loading w) e).
Definition set_reference_count (p n : Z) : MW unit :=
  let! w := load_ws p in store_ws p (mk_ws (dead w) (exit_status w) (ws_tid w) n (done_loading w) (load_error w)).
Definition set_dead (p v : Z) : MW unit :=
  let! w := load_ws p in store_ws p (mk_ws v (exit_status w) (ws_tid w) (reference_count w) (done_loading w) (load_error w)).
Definition set_done_loading (p v : Z) : MW unit :=
  let! w := load_ws p in store_ws p (mk_ws (dead w) (exit_status w) (ws_tid w) (reference_count w) v (load_error w)).

(** ** thread.c *)

(** [init_wait_status]; [malloc] gives an address that is in no use. *)
Definition init_ws (tid : Z) : MW Z := fun s =>
  Done (next_ws s, mk_waits (<[next_ws s := mk_ws 0 0 tid 2 0 0]> (heap s)) (threads s) (next_ws s + 1)).

(** The part of [thread_create] that concerns the wait status; [tid] is the
    result of [allocate_tid]. *)
Definition thread_create_ws (cur tid : Z) : MW unit :=
  let! ws := init_ws tid in
  store_thread tid (mk_thread_ws ws [] true) ;;
  let! t := load_thread cur in
  store_thread cur (mk_thread_ws (t_ws t) (ws :: children t) true).

(** ** process.c *)

Fixpoint find_child_ws (children_ws : list Z) (tid : Z) : MW Z :=
  match children_ws with
  | [] => ret 0
  | p :: l => let! w := load_ws p in if ws_tid w =? tid then ret p else find_child_ws l tid
  end.

(** The thread whose list holds [p]. *)
Definition list_owner (s : waits) (p : Z) : option (Z * thread_ws) :=
  List.find (fun x => bool_decide (p ∈ children (snd x))) (map_to_list (threads s)).

Definition at_end (p : Z) (l : list Z) : bool := bool_decide (hd_error l = Some p) || bool_decide (last l = Some p).

Definition list_remove_ws (p : Z) : MW unit :=
  let! s := get in
  match list_owner s p with
  | Some (o, t) =>
      if negb (t_page t) && at_end p (children t) then fail BadPointer
      else store_thread o (mk_thread_ws (t_ws t) (List.filter (fun x => negb (x =? p)) (children t)) (t_page t))
  | None => fail BadPointer
  end.

Definition free_ws (p : Z) : MW unit := modify (fun s => mk_waits (delete p (heap s)) (threads s) (next_ws s)).

Definition destroy_wait_status (ws : Z) : MW unit :=
  let! _ := load_ws ws in
  list_remove_ws ws ;;
  free_ws ws.

Definition decrement_and_destroy_if_zero (ws : Z) : MW bool :=
  let! w := load_ws ws in
  set_reference_count ws (reference_count w - 1) ;;
  let! w := load_ws ws in
  if reference_count w =? 0 then destroy_wait_status ws ;; ret true else ret false.

Fixpoint decrement_children (l : list Z) : MW unit :=
  match l with
  | [] => ret tt
  | p :: l => let! _ := decrement_and_destroy_if_zero p in decrement_children l
  end.

(** The next element is read before the present one is destroyed. *)
Definition decrement_all_references (cur ws : Z) : MW unit :=
  let! destroyed := decrement_and_destroy_if_zero ws in
  (if negb destroyed then let! w := load_ws ws in set_dead ws (dead w + 1) else ret tt) ;;
  let! t := load_thread cur in
  decrement_children (children t).

(** [process_execute], up to [sema_down (&ws->done_loading)] and from there on. *)
Definition execute_begin (cur tid : Z) : MW Z :=
  thread_create_ws cur tid ;;
  let! t := load_thread cur in
  find_child_ws (children t) tid.

Definition execute_end (ws tid : Z) : MW Z :=
  let! w := load_ws ws in
  if done_loading w =? 0 then fail WouldSleep
  else
    set_done_loading ws (done_loading w - 1) ;;
    let! w := load_ws ws in
    ret (if load_error w =? 0 then tid else -1).

(** The end of [start_process]: false when the program could not be loaded. *)
Definition loaded (cur : Z) (success : bool) : MW unit :=
  let! t := load_thread cur in
  let ws := t_ws t in
  (if success then ret tt else set_exit_status ws 1 ;; set_load_error ws 1) ;;
  let! w := load_ws ws in
  set_done_loading ws (done_loading w + 1).

(** [process_wait], up to [sema_down (&ws->dead)] and from there on. *)
Definition wait_begin (cur child_tid : Z) : MW Z := let! t := load_thread cur in find_child_ws (children t) child_tid.

Definition wait_end (ws : Z) : MW Z :=
  let! w := load_ws ws in
  if dead w =? 0 then fail WouldSleep
  else
    set_dead ws (dead w - 1) ;;
    let! w := load_ws ws in
    destroy_wait_status ws ;;
    ret (exit_status w).

(** The references [process_exit] drops for [thread_exit]. *)
Definition exit_references (cur : Z) : MW unit := let! t := load_thread cur in decrement_all_references cur (t_ws t).

(** [thread_exit_with_status] *)
Definition exit_with_status (cur status : Z) : MW unit :=
  let! t := load_thread cur in
  set_exit_status (t_ws t) status ;;
  exit_references cur.

(** [thread_schedule_tail] frees the page of a thread that has exited. *)
Definition reap (t : Z) : MW unit :=
  let! x := load_thread t in store_thread t (mk_thread_ws (t_ws x) (children x) false).

(** ** Processes *)

(** Where a thread is: running, in [sema_down] of [process_execute] or of
    [process_wait] for a child, or past [thread_exit]. *)
Inductive place := Running | Loading (ws child : Z) | Waiting (ws child : Z) | Dead.

#[global] Instance place_eq_dec : EqDecision place.
Proof. solve_decision. Defined.

Record world := mk_world { w_waits : waits; places : gmap Z place }.

Inductive event :=
  | Exec (p c : Z)                (* p starts the new process c *)
  | ExecDone (p c r : Z)          (* and gets r *)
  | LoadOk (c : Z)
  | LoadFail (c : Z)              (* the program of c cannot be loaded, c exits *)
  | WaitCall (p c : Z)            (* p goes to wait for c *)
  | WaitRefused (p c : Z)         (* or gets -1 at once *)
  | WaitDone (p c v : Z)          (* and gets v *)
  | Exit (c status : Z)
  | Reap (c : Z).

(** [Fault WouldSleep] for an event that cannot happen in this state. *)
Definition at_place (w : world) (t : Z) (x : place) (k : outcome world) : outcome world :=
  if decide (places w !! t = Some x) then k else Fault WouldSleep.

Definition run_in {A} (w : world) (m : MW A) (k : A -> gmap Z place) : outcome world :=
  match m (w_waits w) with Done (a, s) => Done (mk_world s (k a)) | Fault f => Fault f end.

Definition exec_event (e : event) (w : world) : outcome world :=
  let set t x := <[t := x]> (places w) in
  match e with
  | Exec p c =>
      at_place w p Running (if decide (places w !! c = None) then run_in w (execute_begin p c) (fun ws => <[c := Running]> (set p (Loading ws c))) else Fault WouldSleep)
  | ExecDone p c r =>
      match places w !! p with
      | Some (Loading ws c') =>
          if decide (c' = c) then run_in w (let! x := execute_end ws c in if x =? r then ret tt else fail WouldSleep) (fun _ => set p Running) else Fault WouldSleep
      | _ => Fault WouldSleep
      end
  | LoadOk c => at_place w c Running (run_in w (loaded c true) (fun _ => places w))
  | LoadFail c =>
      at_place w c Running (run_in w (loaded c false ;; exit_references c) (fun _ => set c Dead))
  | WaitCall p c =>
      at_place w p Running (run_in w (let! ws := wait_begin p c in if ws =? 0 then fail WouldSleep else ret ws) (fun ws => set p (Waiting ws c)))
  | WaitRefused p c =>
      at_place w p Running (run_in w (let! ws := wait_begin p c in if ws =? 0 then ret tt else fail WouldSleep) (fun _ => places w))
  | WaitDone p c v =>
      match places w !! p with
      | Some (Waiting ws c') =>
          if decide (c' = c) then run_in w (let! x := wait_end ws in if x =? v then ret tt else fail WouldSleep) (fun _ => set p Running) else Fault WouldSleep
      | _ => Fault WouldSleep
      end
  | Exit c status => at_place w c Running (run_in w (exit_with_status c status) (fun _ => set c Dead))
  | Reap c => at_place w c Dead (run_in w (reap c) (fun _ => places w))
  end.

Fixpoint run (es : list event) (w : world) : outcome world :=
  match es with
  | [] => Done w
  | e :: es => let? w := exec_event e w in run es w
  end.

(** The initial thread, which has no parent and no wait status. *)
Definition root : Z := 1.
Definition boot : world := mk_world (mk_waits ∅ {[root := mk_thread_ws 0 [] true]} 1) {[root := Running]}.
