(* ===== verification/WaitInv.v ===== *)
(** * The invariant of the wait statuses

    A thread that has not exited finds the status of each child it has not
    waited for in its list, with two references while the child runs and one
    after the child has exited; a status of a running thread is in the list of
    its parent.  Every event of [Wait] keeps this. *)

From stdpp Require Import options.
From S2P Require Import Prelude Wait.
Local Open Scope Z_scope.
Local Open Scope kernel_scope.

(** ** What the operations do when they do not fault *)

Ltac steps_of H :=
  repeat match type of H with
  | bind _ _ _ = Done _ => let a := fresh "a" in let s := fresh "s" in let E := fresh "E" in
      apply bind_inv in H as (a & s & E & H)
  end.

Lemma load_ws_inv p s w s' : load_ws p s = Done (w, s') -> s' = s /\ heap s !! p = Some w.
Proof. unfold load_ws, bind, get. destruct (heap s !! p); inversion 1; auto. Qed.

Lemma load_thread_inv t s x s' : load_thread t s = Done (x, s') -> s' = s /\ threads s !! t = Some x /\ t_page x = true.
Proof. unfold load_thread, bind, get. destruct (threads s !! t) as [y|]; [destruct (t_page y) eqn:? |]; inversion 1; subst; auto. Qed.

Definition with_ws (s : waits) (p : Z) (w : wait_status) : waits := mk_waits (<[p := w]> (heap s)) (threads s) (next_ws s).
Definition with_thread (s : waits) (t : Z) (x : thread_ws) : waits := mk_waits (heap s) (<[t := x]> (threads s)) (next_ws s).

Lemma store_ws_inv p w s s' u : store_ws p w s = Done (u, s') -> s' = with_ws s p w.
Proof. intros H. apply bind_inv in H as (a & s1 & E & H). apply load_ws_inv in E as [-> E]. by inversion H. Qed.

Lemma store_thread_inv t x s s' u : store_thread t x s = Done (u, s') -> s' = with_thread s t x.
Proof. by inversion 1. Qed.

(** What is left of a thread when [p] leaves its list. *)
Definition without (p : Z) (x : thread_ws) : thread_ws := mk_thread_ws (t_ws x) (List.filter (fun q => negb (q =? p)) (children x)) (t_page x).

Lemma without_elem p x q : q ∈ children (without p x) <-> q ∈ children x /\ q <> p.
Proof. unfold without. simpl. rewrite !list_elem_of_In, filter_In, negb_true_iff, Z.eqb_neq. done. Qed.

Lemma without_nodup p x : NoDup (children x) -> NoDup (children (without p x)).
Proof. rewrite !NoDup_ListNoDup. apply List.NoDup_filter. Qed.

Lemma list_owner_inv s p o x : list_owner s p = Some (o, x) -> threads s !! o = Some x /\ p ∈ children x.
Proof.
  intros H. apply find_some in H as [H1 H2]. apply bool_decide_eq_true_1 in H2. split; [|done].
  apply elem_of_map_to_list. by apply list_elem_of_In.
Qed.

Definition removed (s : waits) (p o : Z) (x : thread_ws) : waits :=
  mk_waits (delete p (heap s)) (<[o := without p x]> (threads s)) (next_ws s).

Lemma destroy_inv p s s' u :
  destroy_wait_status p s = Done (u, s') ->
  exists o x, threads s !! o = Some x /\ p ∈ children x /\ s' = removed s p o x.
Proof.
  intros H. unfold destroy_wait_status in H. steps_of H. apply load_ws_inv in E as [-> _].
  unfold list_remove_ws, bind, get in E0. destruct (list_owner s p) as [[o x]|] eqn:Ho; [|done].
  apply list_owner_inv in Ho as [? ?]. destruct (negb _ && _); [done|].
  exists o, x. split_and!; [done..|]. apply store_thread_inv in E0. inversion H; by subst.
Qed.

Lemma find_child_inv l t s p s' :
  find_child_ws l t s = Done (p, s') ->
  s' = s /\ ((p = 0 /\ forall q w, q ∈ l -> heap s !! q = Some w -> ws_tid w <> t) \/
             (p ∈ l /\ exists w, heap s !! p = Some w /\ ws_tid w = t)).
Proof.
  revert s. induction l as [|q l IH]; intros s H; cbn [find_child_ws] in H.
  - inversion H; subst. split; [done|]. left. split; [done|]. intros q w Hq. by apply not_elem_of_nil in Hq.
  - steps_of H. apply load_ws_inv in E as [-> E]. destruct (ws_tid a =? t) eqn:Ht.
    + apply Z.eqb_eq in Ht. inversion H; subst. split; [done|]. right. split; [left|eauto].
    + apply Z.eqb_neq in Ht. destruct (IH _ H) as [-> [[-> Hn]|[Hp Hw]]]; (split; [done|]).
      * left. split; [done|]. intros r w [->|Hr]%elem_of_cons Hw; [congruence|eauto].
      * right. split; [by right|done].
Qed.

Lemma execute_begin_inv p c s ws s' :
  p <> c -> execute_begin p c s = Done (ws, s') ->
  exists x, threads s !! p = Some x /\ t_page x = true /\ ws = next_ws s /\
    s' = mk_waits (<[next_ws s := mk_ws 0 0 c 2 0 0]> (heap s))
      (<[p := mk_thread_ws (t_ws x) (next_ws s :: children x) true]> (<[c := mk_thread_ws (next_ws s) [] true]> (threads s))) (next_ws s + 1).
Proof.
  intros Hpc H. unfold execute_begin, thread_create_ws in H. steps_of H. steps_of E.
  inversion E1; subst. apply store_thread_inv in E2 as ->. apply load_thread_inv in E3 as (-> & Ht & Hpg).
  apply store_thread_inv in E as ->. apply load_thread_inv in E0 as (-> & Ht' & _). simpl in Ht, Ht'.
  rewrite lookup_insert_ne in Ht by congruence. rewrite lookup_insert_eq in Ht'. injection Ht' as <-. eexists. split; [exact Ht|]. split; [exact Hpg|].
  cbn [children find_child_ws] in H. steps_of H. apply load_ws_inv in E as [-> E]. simpl in E.
  rewrite lookup_insert_eq in E. injection E as <-. cbn [ws_tid] in H. rewrite Z.eqb_refl in H.
  by inversion H.
Qed.

(** The fields a status keeps, and those it gets. *)
Definition ws_but (w : wait_status) (status loading err : Z) : wait_status :=
  mk_ws (dead w) status (ws_tid w) (reference_count w) loading err.
Definition ws_refs (w : wait_status) (d n : Z) : wait_status :=
  mk_ws d (exit_status w) (ws_tid w) n (done_loading w) (load_error w).

Lemma setter_inv (f : wait_status -> wait_status) p s s' u :
  (let! w := load_ws p in store_ws p (f w)) s = Done (u, s') ->
  exists w, heap s !! p = Some w /\ s' = with_ws s p (f w).
Proof. intros H. steps_of H. apply load_ws_inv in E as [-> E]. apply store_ws_inv in H. eauto. Qed.

Lemma set_exit_status_inv p v s s' u :
  set_exit_status p v s = Done (u, s') -> exists w, heap s !! p = Some w /\ s' = with_ws s p (ws_but w v (done_loading w) (load_error w)).
Proof. apply (setter_inv (fun w => ws_but w v (done_loading w) (load_error w))). Qed.

Lemma set_load_error_inv p v s s' u :
  set_load_error p v s = Done (u, s') -> exists w, heap s !! p = Some w /\ s' = with_ws s p (ws_but w (exit_status w) (done_loading w) v).
Proof. apply (setter_inv (fun w => ws_but w (exit_status w) (done_loading w) v)). Qed.

Lemma set_done_loading_inv p v s s' u :
  set_done_loading p v s = Done (u, s') -> exists w, heap s !! p = Some w /\ s' = with_ws s p (ws_but w (exit_status w) v (load_error w)).
Proof. apply (setter_inv (fun w => ws_but w (exit_status w) v (load_error w))). Qed.

Lemma set_dead_inv p v s s' u :
  set_dead p v s = Done (u, s') -> exists w, heap s !! p = Some w /\ s' = with_ws s p (ws_refs w v (reference_count w)).
Proof. apply (setter_inv (fun w => ws_refs w v (reference_count w))). Qed.

Lemma set_reference_count_inv p v s s' u :
  set_reference_count p v s = Done (u, s') -> exists w, heap s !! p = Some w /\ s' = with_ws s p (ws_refs w (dead w) v).
Proof. apply (setter_inv (fun w => ws_refs w (dead w) v)). Qed.

Lemma with_ws_lookup s p w : heap (with_ws s p w) !! p = Some w.
Proof. apply lookup_insert_eq. Qed.

Lemma with_ws_twice s p w w' : with_ws (with_ws s p w) p w' = with_ws s p w'.
Proof. unfold with_ws. simpl. by rewrite insert_insert_eq. Qed.

Lemma removed_with_ws s p w o x : removed (with_ws s p w) p o x = removed s p o x.
Proof. unfold removed, with_ws. simpl. by rewrite delete_insert_eq. Qed.

Lemma execute_end_inv ws c s r s' :
  execute_end ws c s = Done (r, s') ->
  exists w, heap s !! ws = Some w /\ exists n, s' = with_ws s ws (ws_but w (exit_status w) n (load_error w)).
Proof.
  unfold execute_end. intros H. steps_of H. apply load_ws_inv in E as [-> E].
  destruct (done_loading a =? 0); [done|]. steps_of H.
  apply set_done_loading_inv in E0 as (w & Hw & ->).
  apply load_ws_inv in E1 as [-> _]. inversion H; subst. exists w. split; [done|]. eexists. reflexivity.
Qed.

Lemma loaded_inv c b s u s' :
  loaded c b s = Done (u, s') ->
  exists x w, threads s !! c = Some x /\ heap s !! t_ws x = Some w /\
    exists st n e, s' = with_ws s (t_ws x) (ws_but w st n e) /\ (b = false -> st = 1).
Proof.
  unfold loaded. intros H. steps_of H.
  apply load_thread_inv in E as (-> & Ht & _). apply load_ws_inv in E1 as [-> Hw].
  apply set_done_loading_inv in H as (w & Hw' & ->).
  destruct b.
  - inversion E0; subst. eexists _, _. split; [done|]. split; [done|]. eexists _, _, _. split; [reflexivity|done].
  - steps_of E0.
    apply set_exit_status_inv in E as (w1 & Hw1 & ->).
    apply set_load_error_inv in E0 as (w2 & Hw2 & ->).
    rewrite with_ws_lookup in Hw2. injection Hw2 as <-. rewrite with_ws_twice, with_ws_lookup in Hw'. injection Hw' as <-.
    rewrite !with_ws_twice. eexists _, _. split; [done|]. split; [done|]. eexists _, _, _. split; [reflexivity|done].
Qed.

Lemma wait_end_inv ws s v s' :
  wait_end ws s = Done (v, s') ->
  exists w o x, heap s !! ws = Some w /\ dead w <> 0 /\ v = exit_status w /\
    threads s !! o = Some x /\ ws ∈ children x /\ s' = removed s ws o x.
Proof.
  unfold wait_end. intros H. steps_of H. apply load_ws_inv in E as [-> E].
  destruct (dead a =? 0) eqn:Hd; [done|]. apply Z.eqb_neq in Hd. steps_of H.
  apply set_dead_inv in E0 as (w & Hw & ->).
  apply load_ws_inv in E1 as [-> E1]. rewrite with_ws_lookup in E1. apply destroy_inv in E2 as (o & x & Ho & Hin & ->).
  rewrite E in Hw. injection Hw as ->. injection E1 as <-. inversion H; subst. rewrite removed_with_ws.
  exists w, o, x. done.
Qed.

Lemma decrement_inv ws s b s' :
  decrement_and_destroy_if_zero ws s = Done (b, s') ->
  exists w, heap s !! ws = Some w /\
    ((reference_count w = 1 /\ b = true /\ exists o x, threads s !! o = Some x /\ ws ∈ children x /\ s' = removed s ws o x) \/
     (reference_count w <> 1 /\ b = false /\ s' = with_ws s ws (ws_refs w (dead w) (reference_count w - 1)))).
Proof.
  unfold decrement_and_destroy_if_zero. intros H. steps_of H. apply load_ws_inv in E as [-> E].
  apply set_reference_count_inv in E0 as (w & Hw & ->).
  rewrite E in Hw. injection Hw as ->. apply load_ws_inv in E1 as [-> E1]. rewrite with_ws_lookup in E1. injection E1 as <-.
  cbn [reference_count ws_refs] in H. exists w. split; [done|]. destruct (reference_count w - 1 =? 0) eqn:Hr.
  - apply Z.eqb_eq in Hr. left. steps_of H. apply destroy_inv in E0 as (o & x & Ho & Hin & ->). inversion H; subst.
    rewrite removed_with_ws. split; [lia|]. split; [done|]. exists o, x. done.
  - apply Z.eqb_neq in Hr. right. inversion H; subst. split; [lia|]. done.
Qed.

(** ** The invariant *)

(** [E p c] is that [p] started [c], [W p c] that [p] has waited for it, [X c v]
    that [c] has exited with [v].  [pend] are the statuses in the list of a
    thread that is exiting whose reference it has yet to drop. *)
Definition holds (P : gmap Z place) (pend : list Z) (t q : Z) : Prop := P !! t <> Some Dead \/ q ∈ pend.

Record counted (X : Z -> Z -> Prop) (P : gmap Z place) (pend : list Z) (th : gmap Z thread_ws) (t q : Z) (w : wait_status) : Prop := mk_counted {
  c_dead : P !! ws_tid w = Some Dead -> holds P pend t q /\ dead w = 1 /\ reference_count w = 1 /\ X (ws_tid w) (exit_status w);
  c_alive : P !! ws_tid w <> Some Dead -> dead w = 0 /\ forall y, th !! ws_tid w = Some y -> t_ws y = q;
  c_two : P !! ws_tid w <> Some Dead -> holds P pend t q -> reference_count w = 2;
  c_one : P !! ws_tid w <> Some Dead -> ~ holds P pend t q -> reference_count w = 1
}.

Record Inv (E W X : Z -> Z -> Prop) (pend : list Z) (s : waits) (P : gmap Z place) : Prop := mk_Inv {
  i_known : forall t, is_Some (P !! t) <-> is_Some (threads s !! t);
  i_next : 0 < next_ws s;
  i_fresh : forall p w, heap s !! p = Some w -> 0 < p < next_ws s;
  i_page : forall t x, threads s !! t = Some x -> P !! t <> Some Dead -> t_page x = true;
  i_tid : forall p w, heap s !! p = Some w -> is_Some (P !! ws_tid w);
  i_unique : forall p q w w', heap s !! p = Some w -> heap s !! q = Some w' -> ws_tid w = ws_tid w' -> p = q;
  i_exec : forall p c, E p c -> is_Some (P !! p) /\ is_Some (P !! c);
  i_parent : forall p q c, E p c -> E q c -> p = q;
  i_waited : forall p c, W p c -> E p c;
  i_ended : forall c v, X c v -> P !! c = Some Dead;
  i_ended_once : forall c v v', X c v -> X c v' -> v = v';
  i_nodup : forall t x, threads s !! t = Some x -> NoDup (children x);
  i_apart : forall t x t' x' p, threads s !! t = Some x -> threads s !! t' = Some x' -> p ∈ children x -> p ∈ children x' -> t = t';
  i_child : forall t x q, threads s !! t = Some x -> q ∈ children x ->
    exists w, heap s !! q = Some w /\ E t (ws_tid w) /\ ~ W t (ws_tid w) /\ counted X P pend (threads s) t q w;
  i_kept : forall p c, E p c -> P !! p <> Some Dead -> ~ W p c ->
    exists x q w, threads s !! p = Some x /\ q ∈ children x /\ heap s !! q = Some w /\ ws_tid w = c;
  i_own : forall p c y, E p c -> P !! c <> Some Dead -> threads s !! c = Some y ->
    exists x w, threads s !! p = Some x /\ t_ws y ∈ children x /\ heap s !! t_ws y = Some w /\ ws_tid w = c;
  i_root : forall c y, threads s !! c = Some y -> (exists p, E p c) \/ t_ws y = 0;
  i_waiting : forall p ws c, P !! p = Some (Waiting ws c) ->
    exists x w, threads s !! p = Some x /\ ws ∈ children x /\ heap s !! ws = Some w /\ ws_tid w = c
}.

Section inv.
Context (E W X : Z -> Z -> Prop).
Implicit Types (s : waits) (P : gmap Z place) (pend : list Z).

Lemma place_lookup P t t' b : P !! t <> Some Dead -> b <> Dead -> <[t := b]> P !! t' = Some Dead <-> P !! t' = Some Dead.
Proof.
  intros Ha Hb. destruct (decide (t = t')) as [-> |]; [|by rewrite lookup_insert_ne].
  rewrite lookup_insert_eq. split; [intros [=]; done|done].
Qed.

Lemma counted_places P P' pend th t q w :
  (forall u, P' !! u = Some Dead <-> P !! u = Some Dead) -> counted X P pend th t q w -> counted X P' pend th t q w.
Proof.
  intros HP [H1 H2 H3 H4]. unfold holds in *. constructor; unfold holds; rewrite !HP; auto.
Qed.

(** A thread that has not exited goes on. *)
Lemma inv_place pend s P t a b :
  Inv E W X pend s P -> P !! t = Some a -> a <> Dead -> b <> Dead ->
  (forall ws c, b = Waiting ws c -> exists x w, threads s !! t = Some x /\ ws ∈ children x /\ heap s !! ws = Some w /\ ws_tid w = c) ->
  Inv E W X pend s (<[t := b]> P).
Proof.
  intros [] Ht Ha Hb Hw.
  assert (HP : forall u, <[t := b]> P !! u = Some Dead <-> P !! u = Some Dead) by (intros; apply place_lookup; congruence).
  assert (HS : forall u, is_Some (<[t := b]> P !! u) <-> is_Some (P !! u)).
  { intros u. destruct (decide (t = u)) as [<- |]; [|by rewrite lookup_insert_ne]. rewrite lookup_insert_eq, Ht. split; eauto. }
  constructor; try done.
  - intros u. rewrite HS. auto.
  - intros u x Hu. rewrite HP. eauto.
  - intros p w Hp. rewrite HS. eauto.
  - intros p c Hp. rewrite !HS. eauto.
  - intros c v Hc. rewrite HP. eauto.
  - intros u x q Hu Hq. destruct (i_child0 u x q Hu Hq) as (w & ? & ? & ? & ?). exists w. split_and!; try done. by eapply counted_places.
  - intros p c Hp. rewrite HP. eauto.
  - intros p c y Hp. rewrite HP. eauto.
  - intros p ws c. destruct (decide (t = p)) as [<- |]; [|rewrite lookup_insert_ne by done; eauto].
    rewrite lookup_insert_eq. intros [= ->]. eauto.
Qed.

(** A change of a status that the count does not depend on. *)
Lemma inv_heap pend pend' s P q w w' :
  Inv E W X pend s P -> heap s !! q = Some w -> ws_tid w' = ws_tid w ->
  (forall t x, threads s !! t = Some x -> q ∈ children x -> counted X P pend (threads s) t q w -> counted X P pend' (threads s) t q w') ->
  (forall t x r, threads s !! t = Some x -> r ∈ children x -> r <> q -> holds P pend' t r <-> holds P pend t r) ->
  Inv E W X pend' (with_ws s q w') P.
Proof.
  intros [] Hq Htid Hc Hh.
  assert (HL : forall p u, heap (with_ws s q w') !! p = Some u -> exists u', heap s !! p = Some u' /\ ws_tid u = ws_tid u').
  { intros p u. unfold with_ws. simpl. destruct (decide (q = p)) as [<- |]; [rewrite lookup_insert_eq|rewrite lookup_insert_ne by done; eauto].
    intros [= <-]. eauto. }
  assert (HR : forall p u, heap s !! p = Some u -> exists u', heap (with_ws s q w') !! p = Some u' /\ ws_tid u' = ws_tid u).
  { intros p u Hu. unfold with_ws. simpl. destruct (decide (q = p)) as [<- |]; [rewrite lookup_insert_eq|rewrite lookup_insert_ne by done; eauto].
    exists w'. split; [done|]. congruence. }
  constructor; try done.
  - intros p u Hu. destruct (HL p u Hu) as (u' & Hu' & _). eauto.
  - intros p u Hu. destruct (HL p u Hu) as (u' & Hu' & ->). eauto.
  - intros p r u v Hu Hv. destruct (HL p u Hu) as (u' & Hu' & ->), (HL r v Hv) as (v' & Hv' & ->). eauto.
  - intros t x r Ht Hr. destruct (i_child0 t x r Ht Hr) as (v & Hv & HE & HW & HC). unfold with_ws; simpl.
    destruct (decide (q = r)) as [<- |].
    + assert (v = w) as -> by congruence. exists w'. rewrite lookup_insert_eq, Htid. eauto.
    + exists v. rewrite lookup_insert_ne by done. split_and!; try done. specialize (Hh t x r Ht Hr ltac:(done)).
      destruct HC. constructor; rewrite ?Hh; auto.
  - intros p c Hp Hd Hn. destruct (i_kept0 p c Hp Hd Hn) as (x & r & u & Hx & Hr & Hu & <-). destruct (HR r u Hu) as (u' & Hu' & ?). eauto 8.
  - intros p c y Hp Hd Hy. destruct (i_own0 p c y Hp Hd Hy) as (x & u & Hx & Hr & Hu & <-). destruct (HR _ u Hu) as (u' & Hu' & ?). eauto 8.
  - intros p ws c Hp. destruct (i_waiting0 p ws c Hp) as (x & u & Hx & Hr & Hu & <-). destruct (HR _ u Hu) as (u' & Hu' & ?). eauto 8.
Qed.

(** The threads once [q] has left the list of [o]. *)
Definition same_but (q : Z) (y y' : thread_ws) : Prop :=
  t_ws y' = t_ws y /\ t_page y' = t_page y /\ (forall r, r ∈ children y' <-> r ∈ children y /\ r <> q) /\ (NoDup (children y) -> NoDup (children y')).

Lemma without_threads pend s P q o x t :
  Inv E W X pend s P -> threads s !! o = Some x -> q ∈ children x ->
  (forall y', <[o := without q x]> (threads s) !! t = Some y' -> exists y, threads s !! t = Some y /\ same_but q y y') /\
  (forall y, threads s !! t = Some y -> exists y', <[o := without q x]> (threads s) !! t = Some y' /\ same_but q y y').
Proof.
  intros HI Ho Hq.
  assert (Hx : same_but q x (without q x)) by (split; [done|]; split; [done|]; split; [intros r; apply without_elem|apply without_nodup]).
  assert (Hid : t <> o -> forall y, threads s !! t = Some y -> same_but q y y).
  { intros Hne y Hy. split; [done|]. split; [done|]. split; [|done]. intros r. split; [|tauto]. intros Hr. split; [done|]. intros ->.
    apply Hne. by eapply (i_apart _ _ _ _ _ _ HI). }
  destruct (decide (o = t)) as [<- |Hne].
  - rewrite lookup_insert_eq. split; [intros y' [= <-]; eauto|]. intros y Hy. assert (y = x) as -> by congruence. eauto.
  - rewrite lookup_insert_ne by done. split; intros y Hy; exists y; auto.
Qed.

Lemma dead_places P c : is_Some (P !! c) ->
  (forall u, is_Some (<[c := Dead]> P !! u) <-> is_Some (P !! u)) /\
  (forall u, P !! u = Some Dead -> <[c := Dead]> P !! u = Some Dead) /\
  (forall u, u <> c -> <[c := Dead]> P !! u = P !! u).
Proof.
  intros Hc. split_and!; intros u; (destruct (decide (c = u)) as [<- |]; [rewrite lookup_insert_eq|by rewrite lookup_insert_ne]); [|done..].
  split; eauto.
Qed.

Lemma removed_heap s q o x p u : heap (removed s q o x) !! p = Some u <-> heap s !! p = Some u /\ p <> q.
Proof. unfold removed. simpl. rewrite lookup_delete_Some. split; intros [? ?]; auto. Qed.

(** A status leaves the list of its thread and is freed: the child has exited,
    now or before, and the parent has exited or has just waited for it. *)
Lemma inv_remove (W' X' : Z -> Z -> Prop) pend pend' s P q o x w :
  Inv E W X pend s P -> threads s !! o = Some x -> q ∈ children x -> heap s !! q = Some w ->
  let c := ws_tid w in
  let P' := <[c := Dead]> P in
  (forall c', P !! o <> Some (Waiting q c')) ->
  (forall p c', W p c' -> W' p c') -> (forall p c', W' p c' -> W p c' \/ p = o /\ c' = c) -> (P !! o = Some Dead \/ W' o c) ->
  (forall c' v, X c' v -> X' c' v) -> (forall c' v, X' c' v -> X c' v \/ c' = c) -> (forall v v', X' c v -> X' c v' -> v = v') ->
  (forall t y r, threads s !! t = Some y -> r ∈ children y -> r <> q -> holds P' pend' t r <-> holds P pend t r) ->
  Inv E W' X' pend' (removed s q o x) P'.
Proof.
  intros HI Ho Hq Hw c P' Hnw HW1 HW2 HW3 HX1 HX2 HX3 Hh.
  pose proof (fun t => proj1 (without_threads pend s P q o x t HI Ho Hq)) as HT.
  pose proof (fun t => proj2 (without_threads pend s P q o x t HI Ho Hq)) as HT'.
  destruct HI. assert (HEc : E o c) by (destruct (i_child0 o x q Ho Hq) as (w' & Hw' & ? & _); rewrite Hw in Hw'; by injection Hw' as <-).
  destruct (dead_places P c (i_tid0 q w Hw)) as (HS & HD & HN). fold P' in HS, HD, HN.
  pose proof (fun p u => proj1 (removed_heap s q o x p u)) as HL. pose proof (fun p u Hu Hne => proj2 (removed_heap s q o x p u) (conj Hu Hne)) as HR.
  assert (Hq' : forall r u, heap s !! r = Some u -> r <> q -> ws_tid u <> c) by (intros r u Hr Hne Heq; eauto).
  constructor; try done.
  - intros t. rewrite HS, i_known0. split; intros [y Hy]; [destruct (HT' t y Hy) as (y' & ? & _)|destruct (HT t y Hy) as (y' & ? & _)]; eauto.
  - intros p u Hu. apply HL in Hu as [Hu _]. eauto.
  - intros t y Hy Hd. destruct (HT t y Hy) as (y' & Hy' & _ & -> & _). eauto.
  - intros p u Hu. apply HL in Hu as [Hu _]. rewrite HS. eauto.
  - intros p r u v Hu Hv. apply HL in Hu as [Hu _], Hv as [Hv _]. eauto.
  - intros p c' Hp. rewrite !HS. eauto.
  - intros p c' [Hp|[-> ->]]%HW2; eauto.
  - intros c' v [Hc | ->]%HX2; [eauto|]. unfold P'. by rewrite lookup_insert_eq.
  - intros c' v v' Hv Hv'. destruct (decide (c' = c)) as [-> |]; [eauto|]. apply HX2 in Hv as [Hv|], Hv' as [Hv'|]; eauto; done.
  - intros t y Hy. destruct (HT t y Hy) as (y' & Hy' & _ & _ & _ & Hnd). eauto.
  - intros t y t' y' p Hy Hy' Hp Hp'. destruct (HT t y Hy) as (z & Hz & _ & _ & Hin & _), (HT t' y' Hy') as (z' & Hz' & _ & _ & Hin' & _).
    apply Hin in Hp. apply Hin' in Hp'. destruct Hp, Hp'. eauto.
  - intros t y r Hy Hr. destruct (HT t y Hy) as (z & Hz & _ & _ & Hin & _). destruct (proj1 (Hin r) Hr) as [Hr1 Hne].
    destruct (i_child0 t z r Hz Hr1) as (u & Hu & HE & HWn & HC). exists u. split_and!; [by apply HR|done| |].
    + intros [?|[-> Hc]]%HW2; [done|]. by apply (Hq' r u).
    + specialize (Hh t z r Hz Hr1 Hne). specialize (Hq' r u Hu Hne). destruct HC as [C1 C2 C3 C4].
      constructor; rewrite (HN _ Hq'), ?Hh; auto.
      * intros Hd. destruct (C1 Hd) as (? & ? & ? & ?). auto.
      * intros Hd. destruct (C2 Hd) as [? C]. split; [done|]. intros y1 Hy1. destruct (HT _ _ Hy1) as (y2 & Hy2 & -> & _). eauto.
  - intros p c' Hp Hd Hn. destruct (i_kept0 p c' Hp) as (y & r & u & Hy & Hr & Hu & <-); [auto..|].
    assert (Hne : r <> q).
    { intros ->. assert (u = w) as -> by congruence. assert (p = o) as -> by eauto. destruct HW3 as [?|?]; auto. }
    destruct (HT' p y Hy) as (y' & Hy' & _ & _ & Hin & _). exists y', r, u. split_and!; auto. apply Hin. auto.
  - intros p c' y Hp Hd Hy. destruct (HT c' y Hy) as (y' & Hy' & -> & _).
    assert (c' <> c) by (intros ->; apply Hd; unfold P'; by rewrite lookup_insert_eq).
    destruct (i_own0 p c' y' Hp ltac:(rewrite <- HN by done; done) Hy') as (z & u & Hz & Hr & Hu & <-).
    assert (Hne : t_ws y' <> q) by (intros Heq; rewrite Heq in Hu; assert (u = w) as -> by congruence; done).
    destruct (HT' p z Hz) as (z' & Hz' & _ & _ & Hin & _). exists z', u. split_and!; auto. apply Hin. auto.
  - intros c' y Hy. destruct (HT c' y Hy) as (y' & Hy' & -> & _). eauto.
  - intros p ws c' Hp. assert (p <> c) by (intros ->; unfold P' in Hp; rewrite lookup_insert_eq in Hp; done).
    rewrite HN in Hp by done. destruct (i_waiting0 p ws c' Hp) as (z & u & Hz & Hr & Hu & <-).
    assert (Hne : ws <> q) by (intros ->; assert (p = o) as -> by eauto; by eapply Hnw).
    destruct (HT' p z Hz) as (z' & Hz' & _ & _ & Hin & _). exists z', u. split_and!; auto. apply Hin. auto.
Qed.

(** A new child: its status is at the front of the list of the parent. *)
Definition started (s : waits) (p c : Z) (x : thread_ws) : waits :=
  mk_waits (<[next_ws s := mk_ws 0 0 c 2 0 0]> (heap s))
    (<[p := mk_thread_ws (t_ws x) (next_ws s :: children x) true]> (<[c := mk_thread_ws (next_ws s) [] true]> (threads s))) (next_ws s + 1).

Lemma started_lookup s p c x t :
  p <> c -> threads s !! p = Some x -> threads s !! c = None -> t_page x = true ->
  (forall y', threads (started s p c x) !! t = Some y' ->
     t = c /\ y' = mk_thread_ws (next_ws s) [] true \/
     t <> c /\ exists y, threads s !! t = Some y /\ t_ws y' = t_ws y /\ t_page y' = t_page y /\
       children y' = (if decide (t = p) then next_ws s :: children y else children y)) /\
  (forall y, threads s !! t = Some y -> t <> c /\ exists y', threads (started s p c x) !! t = Some y' /\
       children y' = (if decide (t = p) then next_ws s :: children y else children y)).
Proof.
  intros Hpc Hp Hc Hx. unfold started. simpl. destruct (decide (t = p)) as [-> |Hne].
  - rewrite lookup_insert_eq. split; [intros y' [= <-]; right; split; [done|]; exists x; done|].
    intros y Hy. assert (y = x) as -> by congruence. split; [done|]. eexists. split; [reflexivity|done].
  - rewrite lookup_insert_ne by done. destruct (decide (t = c)) as [-> |Hn'].
    + rewrite lookup_insert_eq. split; [intros y' [= <-]; auto|]. intros y Hy. congruence.
    + rewrite lookup_insert_ne by done. split; [intros y' Hy; right; eauto 6|]. intros y Hy. eauto.
Qed.

Section exec.
Context (pend : list Z) (s : waits) (P : gmap Z place) (p c : Z) (x : thread_ws).
Context (HI : Inv E W X pend s P) (Hp : P !! p <> Some Dead) (Hx : threads s !! p = Some x) (Hc : P !! c = None).
Let n := next_ws s.
Let s' := started s p c x.
Let P' := <[c := Running]> P.

Lemma exec_ne : p <> c /\ threads s !! c = None /\ t_page x = true.
Proof using HI Hp Hx Hc.
  assert (Htc : threads s !! c = None).
  { apply eq_None_not_Some. intros H%(proj2 (i_known _ _ _ _ _ _ HI c)). rewrite Hc in H. by destruct H. }
  split_and!; [congruence|done|]. by apply (i_page _ _ _ _ _ _ HI p).
Qed.

Lemma exec_known u : is_Some (P !! u) -> u <> c /\ is_Some (P' !! u).
Proof using Hc. intros [y Hy]. assert (u <> c) by congruence. split; [done|]. unfold P'. rewrite lookup_insert_ne by done. eauto. Qed.

Lemma exec_dead u : P' !! u = Some Dead <-> P !! u = Some Dead.
Proof using Hc. apply place_lookup; congruence. Qed.

Lemma exec_old q w : heap s !! q = Some w -> q <> n /\ heap s' !! q = Some w.
Proof using HI.
  intros Hw. assert (q <> n) by (apply (i_fresh _ _ _ _ _ _ HI) in Hw; unfold n; lia).
  split; [done|]. unfold s', started. simpl. by rewrite lookup_insert_ne.
Qed.

Lemma exec_new : heap s' !! n = Some (mk_ws 0 0 c 2 0 0).
Proof. apply lookup_insert_eq. Qed.

Lemma exec_heap q w : heap s' !! q = Some w -> q = n /\ w = mk_ws 0 0 c 2 0 0 \/ q <> n /\ heap s !! q = Some w.
Proof.
  unfold s', started. simpl. fold n. destruct (decide (q = n)) as [-> |]; [rewrite lookup_insert_eq; intros [= <-]; auto|].
  rewrite lookup_insert_ne by done. auto.
Qed.

Lemma exec_thread t y : threads s' !! t = Some y ->
  t = c /\ y = mk_thread_ws n [] true \/
  t <> c /\ exists y', threads s !! t = Some y' /\ t_ws y = t_ws y' /\ t_page y = t_page y' /\
    children y = (if decide (t = p) then n :: children y' else children y').
Proof using HI Hp Hx Hc. destruct exec_ne as (? & ? & ?). by apply (started_lookup s p c x t). Qed.

Lemma exec_in t y q : threads s' !! t = Some y -> q ∈ children y ->
  t = p /\ q = n \/ q <> n /\ exists y', threads s !! t = Some y' /\ q ∈ children y'.
Proof using HI Hp Hx Hc.
  intros Hy Hq. destruct (exec_thread t y Hy) as [[-> ->]|(_ & y' & Hy' & _ & _ & Hch)]; [by apply not_elem_of_nil in Hq|].
  assert (Hold : q ∈ children y' -> q <> n).
  { intros Hin. destruct (i_child _ _ _ _ _ _ HI t y' q Hy' Hin) as (w & Hw & _). by apply exec_old in Hw as [? _]. }
  rewrite Hch in Hq. destruct (decide (t = p)) as [-> |]; [|eauto 6]. apply elem_of_cons in Hq as [-> |]; eauto 6.
Qed.

Lemma exec_kept t y : threads s !! t = Some y ->
  exists y', threads s' !! t = Some y' /\ forall q, q ∈ children y -> q ∈ children y'.
Proof using HI Hp Hx Hc.
  intros Hy. destruct exec_ne as (? & ? & ?). destruct (proj2 (started_lookup s p c x t ltac:(done) Hx ltac:(done) ltac:(done)) y Hy) as (_ & y' & Hy' & Hch).
  exists y'. split; [done|]. intros q Hq. rewrite Hch. destruct (decide (t = p)); [by right|done].
Qed.

Lemma exec_front : exists y, threads s' !! p = Some y /\ n ∈ children y.
Proof. unfold s', started. simpl. rewrite lookup_insert_eq. eexists. split; [reflexivity|]. left. Qed.

Lemma exec_counted t q w : is_Some (P !! ws_tid w) -> counted X P pend (threads s) t q w -> counted X P' pend (threads s') t q w.
Proof using HI Hp Hx Hc.
  intros Hk [C1 C2 C3 C4]. constructor; unfold holds in *; rewrite !exec_dead; auto. intros Hd. destruct (C2 Hd) as [? C]. split; [done|].
  intros y Hy. destruct (exec_thread _ _ Hy) as [[Heq _]|(_ & y' & Hy' & -> & _)]; [by destruct (exec_known _ Hk)|eauto].
Qed.

Lemma exec_child t y q : threads s' !! t = Some y -> q ∈ children y ->
  exists w, heap s' !! q = Some w /\ (E t (ws_tid w) \/ t = p /\ ws_tid w = c) /\ ~ W t (ws_tid w) /\ counted X P' pend (threads s') t q w.
Proof using HI Hp Hx Hc.
  intros Hy Hq. destruct (exec_in t y q Hy Hq) as [[-> ->]|(Hne & z & Hz & Hqz)].
  - eexists. split; [apply exec_new|]. simpl. split; [auto|]. split.
    + intros H. apply (i_waited _ _ _ _ _ _ HI), (i_exec _ _ _ _ _ _ HI) in H as [_ H]. by apply exec_known in H as [? _].
    + constructor; simpl; rewrite exec_dead, Hc; try done; [|intros _ H; destruct H; left; by rewrite exec_dead].
      intros _. split; [done|]. intros y' Hy'. destruct (exec_thread _ _ Hy') as [[_ ->]|[? _]]; done.
  - destruct (i_child _ _ _ _ _ _ HI t z q Hz Hqz) as (w & Hw & HE & HWn & HC). exists w.
    split; [by apply exec_old|]. split; [auto|]. split; [done|]. apply exec_counted; [|done]. by apply (i_tid _ _ _ _ _ _ HI q).
Qed.

Lemma exec_keeps a b : E a b \/ a = p /\ b = c -> P' !! a <> Some Dead -> ~ W a b ->
  exists y q w, threads s' !! a = Some y /\ q ∈ children y /\ heap s' !! q = Some w /\ ws_tid w = b.
Proof using HI Hp Hx Hc.
  intros Hab. rewrite exec_dead. intros Hd HWn. destruct (decide (a = p /\ b = c)) as [[-> ->]|Hne].
  - destruct exec_front as (y & Hy & Hin). eexists y, n, _. split_and!; [done..|apply exec_new|done].
  - destruct Hab as [Hab|]; [|done]. destruct (i_kept _ _ _ _ _ _ HI a b Hab Hd HWn) as (y & q & w & Hy & Hq & Hw & <-).
    destruct (exec_kept a y Hy) as (y' & Hy' & Hin). exists y', q, w. split_and!; [done|by apply Hin|by apply exec_old|done].
Qed.

Lemma exec_own a b y : E a b \/ a = p /\ b = c -> P' !! b <> Some Dead -> threads s' !! b = Some y ->
  exists z w, threads s' !! a = Some z /\ t_ws y ∈ children z /\ heap s' !! t_ws y = Some w /\ ws_tid w = b.
Proof using HI Hp Hx Hc.
  intros Hab. rewrite exec_dead. intros Hd Hy. destruct (exec_thread _ _ Hy) as [[-> ->]|(Hne & y' & Hy' & -> & _)].
  - simpl. assert (a = p) as ->.
    { destruct Hab as [Hab|[? _]]; [|done]. apply (i_exec _ _ _ _ _ _ HI) in Hab as [_ H]. by apply exec_known in H as [? _]. }
    destruct exec_front as (z & Hz & Hin). eexists z, _. split_and!; [done..|apply exec_new|done].
  - destruct Hab as [Hab|[_ ?]]; [|done]. destruct (i_own _ _ _ _ _ _ HI a b y' Hab Hd Hy') as (z & w & Hz & Hq & Hw & <-).
    destruct (exec_kept a z Hz) as (z' & Hz' & Hin). exists z', w. split_and!; [done|by apply Hin|by apply exec_old|done].
Qed.

Lemma inv_exec : Inv (fun a b => E a b \/ a = p /\ b = c) W X pend s' P'.
Proof using HI Hp Hx Hc.
  destruct exec_ne as (Hpc & Htc & Hpg).
  assert (Hsp : is_Some (P !! p)) by (apply (i_known _ _ _ _ _ _ HI); eauto).
  pose proof (i_next _ _ _ _ _ _ HI) as Hn.
  constructor.
  - intros t. split; intros [y Hy].
    + unfold P' in Hy. destruct (decide (c = t)) as [<- |]; [|rewrite lookup_insert_ne in Hy by done].
      * unfold s', started. simpl. rewrite lookup_insert_ne by done. rewrite lookup_insert_eq. eauto.
      * destruct (proj1 (i_known _ _ _ _ _ _ HI t) ltac:(eauto)) as [z Hz]. destruct (exec_kept t z Hz) as (y' & ? & _). eauto.
    + destruct (exec_thread _ _ Hy) as [[-> ->]|(? & y' & Hy' & _)]; [unfold P'; rewrite lookup_insert_eq; eauto|].
      apply exec_known, (i_known _ _ _ _ _ _ HI). eauto.
  - unfold s'. simpl. lia.
  - intros q w [[-> ->]|[_ Hw]]%exec_heap; unfold s'; simpl; [unfold n; lia|]. apply (i_fresh _ _ _ _ _ _ HI) in Hw. lia.
  - intros t y Hy. rewrite exec_dead. destruct (exec_thread _ _ Hy) as [[-> ->]|(? & y' & Hy' & _ & -> & _)]; [done|]. by apply (i_page _ _ _ _ _ _ HI).
  - intros q w [[-> ->]|[_ Hw]]%exec_heap; [simpl; unfold P'; rewrite lookup_insert_eq; eauto|]. by apply exec_known, (i_tid _ _ _ _ _ _ HI q).
  - intros q r w w' [[-> ->]|[_ Hw]]%exec_heap [[-> ->]|[_ Hw']]%exec_heap Heq; [done|exfalso|exfalso|by eapply (i_unique _ _ _ _ _ _ HI)].
    + apply (i_tid _ _ _ _ _ _ HI), exec_known in Hw' as [? _]. simpl in Heq. congruence.
    + apply (i_tid _ _ _ _ _ _ HI), exec_known in Hw as [? _]. simpl in Heq. congruence.
  - intros a b [[? ?]%(i_exec _ _ _ _ _ _ HI)|[-> ->]]; [split; by apply exec_known|].
    split; [by apply exec_known|]. unfold P'. rewrite lookup_insert_eq. eauto.
  - intros a b d [H1|[-> ->]] [H2|[-> Heq]]; [by eapply (i_parent _ _ _ _ _ _ HI)| | |done].
    + subst d. apply (i_exec _ _ _ _ _ _ HI) in H1 as [_ H1]. by apply exec_known in H1 as [? _].
    + apply (i_exec _ _ _ _ _ _ HI) in H2 as [_ H2]. by apply exec_known in H2 as [? _].
  - intros a b Hab. left. by apply (i_waited _ _ _ _ _ _ HI).
  - intros a v Ha. apply exec_dead. by apply (i_ended _ _ _ _ _ _ HI a v).
  - apply (i_ended_once _ _ _ _ _ _ HI).
  - intros t y Hy. destruct (exec_thread _ _ Hy) as [[-> ->]|(? & y' & Hy' & _ & _ & Hch)]; [constructor|]. rewrite Hch.
    pose proof (i_nodup _ _ _ _ _ _ HI t y' Hy'). destruct (decide (t = p)); [|done]. constructor; [|done].
    intros Hin. destruct (i_child _ _ _ _ _ _ HI t y' n Hy' Hin) as (w & Hw & _). by apply exec_old in Hw as [? _].
  - intros t y t' y' q Hy Hy' Hq Hq'. destruct (exec_in t y q Hy Hq) as [[-> ->]|(Hne & z & Hz & Hqz)], (exec_in t' y' _ Hy' Hq') as [[-> ?]|(Hne' & z' & Hz' & Hqz')]; try done.
    by eapply (i_apart _ _ _ _ _ _ HI).
  - apply exec_child.
  - apply exec_keeps.
  - apply exec_own.
  - intros b y Hy. destruct (exec_thread _ _ Hy) as [[-> ->]|(Hne & y' & Hy' & -> & _)]; [left; eauto|].
    destruct (i_root _ _ _ _ _ _ HI b y' Hy') as [[a Ha]|?]; eauto.
  - intros a ws b Ha. assert (a <> c) by (intros ->; unfold P' in Ha; rewrite lookup_insert_eq in Ha; done).
    unfold P' in Ha. rewrite lookup_insert_ne in Ha by done. destruct (i_waiting _ _ _ _ _ _ HI a ws b Ha) as (z & w & Hz & Hq & Hw & <-).
    destruct (exec_kept a z Hz) as (z' & Hz' & Hin). exists z', w. split_and!; [done|by apply Hin|by apply exec_old|done].
Qed.
End exec.

(** *** Exit *)

Section die.
Context (s : waits) (P : gmap Z place) (c : Z) (y : thread_ws) (w : wait_status).
Context (HI : Inv E W X [] s P) (Hc : P !! c <> Some Dead) (Hy : threads s !! c = Some y) (Hw : heap s !! t_ws y = Some w).
Let P' := <[c := Dead]> P.
Let X' := fun a v => X a v \/ a = c /\ v = exit_status w.

Lemma die_parent : exists p x, threads s !! p = Some x /\ E p c /\ ws_tid w = c /\ t_ws y ∈ children x /\ counted X P [] (threads s) p (t_ws y) w.
Proof using HI Hc Hy Hw.
  destruct (i_root _ _ _ _ _ _ HI c y Hy) as [[p Hp]|H0].
  - destruct (i_own _ _ _ _ _ _ HI p c y Hp Hc Hy) as (x & w' & Hx & Hin & Hw' & Htid). assert (w' = w) as -> by congruence.
    destruct (i_child _ _ _ _ _ _ HI p x _ Hx Hin) as (w' & Hw2 & HE & _ & HC). assert (w' = w) as -> by congruence. exists p, x. done.
  - rewrite H0 in Hw. apply (i_fresh _ _ _ _ _ _ HI) in Hw. lia.
Qed.

Lemma die_dead u : P' !! u <> Some Dead -> u <> c /\ P !! u <> Some Dead.
Proof. intros H. assert (u <> c) by (intros ->; apply H, lookup_insert_eq). split; [done|]. unfold P' in H. by rewrite lookup_insert_ne in H. Qed.

Lemma die_other u : u <> c -> P' !! u = P !! u.
Proof. intros H. unfold P'. by rewrite lookup_insert_ne. Qed.

Lemma die_known u : is_Some (P' !! u) <-> is_Some (P !! u).
Proof using HI Hy.
  destruct (decide (u = c)) as [-> |]; [|by rewrite die_other]. unfold P'. rewrite lookup_insert_eq. split; [|eauto].
  intros _. apply (i_known _ _ _ _ _ _ HI). eauto.
Qed.

Lemma die_holds t z r : threads s !! t = Some z -> r ∈ children z -> holds P' (children y) t r <-> holds P [] t r.
Proof using HI Hc Hy.
  intros Hz Hr. unfold holds. destruct (decide (t = c)) as [-> |Hne].
  - assert (z = y) as -> by congruence. split; [auto|]. intros _. by right.
  - rewrite die_other by done. split; [|intros [?|?%not_elem_of_nil]; [by left|done]]. intros [?|Hin]; [by left|].
    destruct Hne. by apply (i_apart _ _ _ _ _ _ HI t z c y r).
Qed.

Lemma die_once a v v' : X' a v -> X' a v' -> v = v'.
Proof using HI Hc.
  unfold X'. intros [H|[-> ->]] [H'|[? ->]]; subst; try done; [by eapply (i_ended_once _ _ _ _ _ _ HI)|..];
    by apply (i_ended _ _ _ _ _ _ HI) in H || by apply (i_ended _ _ _ _ _ _ HI) in H'.
Qed.

Lemma die_shared : reference_count w <> 1 ->
  Inv E W X' (children y) (with_ws s (t_ws y) (ws_refs w (dead w + 1) (reference_count w - 1))) P'.
Proof using HI Hc Hy Hw.
  intros Hr. destruct die_parent as (p & x & Hx & HE & Htid & Hin & [C1 C2 C3 C4]). rewrite Htid in C1, C2, C3, C4.
  set (w' := ws_refs w (dead w + 1) (reference_count w - 1)).
  assert (Hh : holds P [] p (t_ws y)) by (destruct (decide (P !! p = Some Dead)); [|by left]; destruct Hr; apply C4; [done|]; intros [?|?%not_elem_of_nil]; done).
  assert (HL : forall q u, heap (with_ws s (t_ws y) w') !! q = Some u -> exists u', heap s !! q = Some u' /\ ws_tid u = ws_tid u').
  { intros q u. unfold with_ws. simpl. destruct (decide (t_ws y = q)) as [<- |]; [rewrite lookup_insert_eq|rewrite lookup_insert_ne by done; eauto].
    intros [= <-]. eauto. }
  assert (HR : forall q u, heap s !! q = Some u -> exists u', heap (with_ws s (t_ws y) w') !! q = Some u' /\ ws_tid u' = ws_tid u).
  { intros q u Hu. unfold with_ws. simpl. destruct (decide (t_ws y = q)) as [<- |]; [rewrite lookup_insert_eq|rewrite lookup_insert_ne by done; eauto].
    exists w'. split; [done|]. simpl. congruence. }
  constructor; try apply HI.
  - intros t. rewrite die_known. apply HI.
  - intros q u Hu. destruct (HL q u Hu) as (u' & Hu' & _). by eapply (i_fresh _ _ _ _ _ _ HI).
  - intros t z Hz [_ Hd]%die_dead. by apply (i_page _ _ _ _ _ _ HI t).
  - intros q u Hu. destruct (HL q u Hu) as (u' & Hu' & ->). rewrite die_known. by eapply (i_tid _ _ _ _ _ _ HI).
  - intros q r u v Hu Hv. destruct (HL q u Hu) as (u' & Hu' & ->), (HL r v Hv) as (v' & Hv' & ->). by apply (i_unique _ _ _ _ _ _ HI).
  - intros a b Hab. rewrite !die_known. by apply (i_exec _ _ _ _ _ _ HI).
  - intros a v [Ha|[-> _]]; [|apply lookup_insert_eq]. apply (i_ended _ _ _ _ _ _ HI) in Ha. rewrite die_other; [done|congruence].
  - apply die_once.
  - intros t z r Hz Hr'. destruct (i_child _ _ _ _ _ _ HI t z r Hz Hr') as (u & Hu & HEu & HWn & [D1 D2 D3 D4]).
    pose proof (die_holds t z r Hz Hr') as Hhold. unfold with_ws. simpl. destruct (decide (t_ws y = r)) as [<- |Hne].
    + assert (u = w) as -> by congruence. rewrite lookup_insert_eq. exists w'. split_and!; [done..|].
      assert (t = p) as -> by (by eapply (i_apart _ _ _ _ _ _ HI t z p x)).
      constructor; cbn [w' ws_refs ws_tid]; rewrite Htid; intros Hd; [|by destruct Hd; apply lookup_insert_eq..].
      simpl. rewrite Hhold. split; [done|]. rewrite (proj1 (C2 Hc)), (C3 Hc Hh). split_and!; [done..|]. by right.
    + rewrite lookup_insert_ne by done. exists u. assert (ws_tid u <> c) by (intros Heq; apply Hne; eapply (i_unique _ _ _ _ _ _ HI); [done..|congruence]).
      split_and!; [done..|]. constructor; rewrite die_other, ?Hhold by done; auto.
      intros Hd. destruct (D1 Hd) as (? & ? & ? & ?). split_and!; try done. by left.
  - intros a b Hab [_ Hd]%die_dead Hn. destruct (i_kept _ _ _ _ _ _ HI a b Hab Hd Hn) as (z & r & u & Hz & Hr' & Hu & <-).
    destruct (HR r u Hu) as (u' & Hu' & ?). eauto 8.
  - intros a b z Hab [_ Hd]%die_dead Hz. destruct (i_own _ _ _ _ _ _ HI a b z Hab Hd Hz) as (z' & u & Hz' & Hr' & Hu & <-).
    destruct (HR _ u Hu) as (u' & Hu' & ?). eauto 8.
  - intros a ws b Ha. rewrite die_other in Ha by (intros ->; unfold P' in Ha; by rewrite lookup_insert_eq in Ha).
    destruct (i_waiting _ _ _ _ _ _ HI a ws b Ha) as (z & u & Hz & Hr' & Hu & <-). destruct (HR _ u Hu) as (u' & Hu' & ?). eauto 8.
Qed.

Lemma die_orphan o x : threads s !! o = Some x -> t_ws y ∈ children x -> reference_count w = 1 ->
  Inv E W X' (children y) (removed s (t_ws y) o x) P' /\ threads (removed s (t_ws y) o x) !! c = Some y.
Proof using HI Hc Hy Hw.
  intros Ho Hin Hr. destruct die_parent as (p & x' & Hx & HE & Htid & Hin' & [C1 C2 C3 C4]). rewrite Htid in C1, C2, C3, C4.
  assert (o = p) as -> by (by eapply (i_apart _ _ _ _ _ _ HI o x p x')). assert (x' = x) as -> by congruence.
  assert (Hd : P !! p = Some Dead) by (destruct (decide (P !! p = Some Dead)); [done|]; specialize (C3 Hc (or_introl ltac:(done))); lia).
  split; [|unfold removed; simpl; rewrite lookup_insert_ne by congruence; done]. unfold P'. rewrite <- Htid at 1.
  apply (inv_remove W X' [] (children y) s P (t_ws y) p x w HI Ho Hin Hw); rewrite ?Htid; unfold X'; auto; try congruence.
  - intros a v [?|[-> _]]; auto.
  - intros v v'. apply die_once.
  - intros t z r Hz Hr' _. by apply (die_holds t z).
Qed.
End die.
End inv.

(** The references an exiting thread drops, one by one. *)
Lemma inv_drop E W X l s P c x q b s' :
  Inv E W X (q :: l) s P -> P !! c = Some Dead -> threads s !! c = Some x -> q ∈ children x -> q ∉ l ->
  decrement_and_destroy_if_zero q s = Done (b, s') ->
  Inv E W X l s' P /\ exists x', threads s' !! c = Some x' /\ t_page x' = t_page x /\ forall r, r ∈ children x -> r <> q -> r ∈ children x'.
Proof.
  intros HI Hc Hx Hq Hl H. apply decrement_inv in H as (w & Hw & H).
  destruct (i_child _ _ _ _ _ _ HI c x q Hx Hq) as (w' & Hw' & HE & HWn & HC). assert (w' = w) as -> by congruence.
  assert (Hh : holds P (q :: l) c q) by (right; left).
  assert (Hrest : forall t y r, threads s !! t = Some y -> r ∈ children y -> r <> q -> holds P l t r <-> holds P (q :: l) t r).
  { intros t y r _ _ Hne. unfold holds. rewrite elem_of_cons. naive_solver. }
  destruct H as [(Hr & _ & o & y & Ho & Hin & ->)|(Hr & _ & ->)].
  - assert (o = c) as -> by (by eapply (i_apart _ _ _ _ _ _ HI o y c x)). assert (y = x) as -> by congruence.
    assert (Hd : P !! ws_tid w = Some Dead).
    { destruct (decide (P !! ws_tid w = Some Dead)) as [|Hn]; [done|]. pose proof (c_two _ _ _ _ _ _ _ HC Hn Hh). lia. }
    split; [|exists (without q x); unfold removed; simpl; rewrite lookup_insert_eq; split; [done|]; split; [done|]; intros r ? ?; by apply without_elem].
    rewrite <- (insert_id P (ws_tid w) Dead) by done.
    apply (inv_remove E W X W X (q :: l) l s P q c x w HI Hx Hq Hw); auto; try congruence.
    + apply (i_ended_once _ _ _ _ _ _ HI).
    + rewrite insert_id by done. exact Hrest.
  - split; [|eauto]. eapply inv_heap; [exact HI|exact Hw|done| |exact Hrest].
    intros t y Hy Hin _. assert (t = c) as -> by (by eapply (i_apart _ _ _ _ _ _ HI t y c x)). destruct HC as [C1 C2 C3 C4].
    assert (Hn : P !! ws_tid w <> Some Dead) by (intros Hd; destruct (C1 Hd) as (_ & _ & ? & _); lia).
    constructor; simpl; [done|auto| |]; intros _; unfold holds; [intros [?|?]; done|]. intros _. rewrite (C3 Hn Hh). lia.
Qed.

Lemma inv_drop_all E W X c P l s x u s' :
  Inv E W X l s P -> P !! c = Some Dead -> threads s !! c = Some x -> NoDup l -> (forall r, r ∈ l -> r ∈ children x) ->
  decrement_children l s = Done (u, s') -> Inv E W X [] s' P.
Proof.
  revert s x. induction l as [|q l IH]; intros s x HI Hc Hx Hnd Hsub H; cbn [decrement_children] in H; [by inversion H; subst|].
  apply NoDup_cons in Hnd as [Hq Hnd]. steps_of H.
  destruct (inv_drop E W X l s P c x q _ _ HI Hc Hx (Hsub q ltac:(left)) Hq E0) as (HI' & x' & Hx' & _ & Hkeep).
  apply (IH _ x' HI' Hc Hx' Hnd); [|done]. intros r Hr. apply Hkeep; [apply Hsub; by right|]. by intros ->.
Qed.

Lemma inv_exit E W X s P c y w u s' :
  Inv E W X [] s P -> P !! c <> Some Dead -> threads s !! c = Some y -> heap s !! t_ws y = Some w ->
  decrement_all_references c (t_ws y) s = Done (u, s') ->
  Inv E W (fun a v => X a v \/ a = c /\ v = exit_status w) [] s' (<[c := Dead]> P).
Proof.
  intros HI Hc Hy Hw H. unfold decrement_all_references in H. steps_of H.
  apply load_thread_inv in E2 as (-> & Hx & _). apply decrement_inv in E0 as (w' & Hw' & E0). assert (w' = w) as -> by congruence.
  pose proof (i_nodup _ _ _ _ _ _ HI c y Hy) as Hnd.
  destruct E0 as [(Hr & -> & o & x & Ho & Hin & ->)|(Hr & -> & ->)].
  - inversion E1; subst. destruct (die_orphan E W X s P c y w HI Hc Hy Hw o x Ho Hin Hr) as [HI' Hy'].
    assert (a1 = y) as -> by congruence. eapply inv_drop_all; [exact HI'|apply lookup_insert_eq|exact Hy'|done|done|exact H].
  - cbn [negb] in E1. steps_of E1. apply load_ws_inv in E0 as [-> E0]. rewrite with_ws_lookup in E0. injection E0 as <-.
    apply set_dead_inv in E1 as (w' & Hw2 & ->). rewrite with_ws_lookup in Hw2. injection Hw2 as <-.
    rewrite with_ws_twice in H, Hx. simpl in Hx. assert (a1 = y) as -> by congruence.
    pose proof (die_shared E W X s P c y w HI Hc Hy Hw Hr) as HI'.
    eapply inv_drop_all; [exact HI'|apply lookup_insert_eq|exact Hy|done|done|exact H].
Qed.

(** The status of a thread that has not exited may get another exit status. *)
Lemma inv_status E W X s P c y w st n e :
  Inv E W X [] s P -> P !! c <> Some Dead -> threads s !! c = Some y -> heap s !! t_ws y = Some w ->
  Inv E W X [] (with_ws s (t_ws y) (ws_but w st n e)) P.
Proof.
  intros HI Hc Hy Hw. destruct (die_parent E W X s P c y w HI Hc Hy Hw) as (p & x & Hx & _ & Htid & Hin & _).
  eapply inv_heap; [exact HI|exact Hw|done| |done]. intros t z _ _ [C1 C2 C3 C4]. constructor; simpl; auto. rewrite Htid. done.
Qed.

(** Any other change of a status leaves its exit status alone. *)
Lemma inv_loading E W X s P q w n e : Inv E W X [] s P -> heap s !! q = Some w -> Inv E W X [] (with_ws s q (ws_but w (exit_status w) n e)) P.
Proof.
  intros HI Hw. eapply inv_heap; [exact HI|exact Hw|done| |done]. intros t z _ _ [C1 C2 C3 C4]. constructor; simpl; auto.
Qed.

Lemma inv_wait_end E W X s P p q c v s' :
  Inv E W X [] s P -> P !! p = Some (Waiting q c) -> wait_end q s = Done (v, s') ->
  E p c /\ ~ W p c /\ X c v /\ Inv E (fun a b => W a b \/ a = p /\ b = c) X [] s' (<[p := Running]> P).
Proof.
  intros HI Hp H. apply wait_end_inv in H as (w & o & x & Hw & Hd & -> & Ho & Hin & ->).
  destruct (i_waiting _ _ _ _ _ _ HI p q c Hp) as (x' & w' & Hx & Hin' & Hw' & <-). assert (w' = w) as -> by congruence.
  assert (o = p) as -> by (by eapply (i_apart _ _ _ _ _ _ HI o x p x')). assert (x' = x) as -> by congruence.
  destruct (i_child _ _ _ _ _ _ HI p x q Hx Hin) as (w' & Hw2 & HE & HWn & HC). assert (w' = w) as -> by congruence.
  assert (Hdead : P !! ws_tid w = Some Dead).
  { destruct (decide (P !! ws_tid w = Some Dead)) as [|Hn]; [done|]. by destruct (c_alive _ _ _ _ _ _ _ HC Hn). }
  destruct (c_dead _ _ _ _ _ _ _ HC Hdead) as (_ & _ & _ & HX). split_and!; [done..|].
  assert (HI' : Inv E W X [] s (<[p := Running]> P)) by (eapply inv_place; [exact HI|exact Hp|done..]).
  assert (Hd' : <[p := Running]> P !! ws_tid w = Some Dead) by (rewrite lookup_insert_ne; [done|congruence]).
  rewrite <- (insert_id (<[p := Running]> P) (ws_tid w) Dead) by done.
  apply (inv_remove E W X _ X [] [] s _ q p x w HI' Hx Hin Hw); auto.
  - intros c'. by rewrite lookup_insert_eq.
  - apply (i_ended_once _ _ _ _ _ _ HI).
  - by rewrite insert_id by done.
Qed.

Lemma inv_reap E W X s P c u s' : Inv E W X [] s P -> P !! c = Some Dead -> reap c s = Done (u, s') -> Inv E W X [] s' P.
Proof.
  intros HI Hc H. unfold reap in H. steps_of H. apply load_thread_inv in E0 as (-> & Hx & _). apply store_thread_inv in H as ->.
  set (x := mk_thread_ws (t_ws a) (children a) false).
  assert (HT : forall t y, <[c := x]> (threads s) !! t = Some y -> exists y', threads s !! t = Some y' /\ t_ws y = t_ws y' /\ children y = children y' /\ (t <> c -> y = y')).
  { intros t y. destruct (decide (c = t)) as [<- |]; [rewrite lookup_insert_eq; intros [= <-]; exists a; done|rewrite lookup_insert_ne by done; eauto 6]. }
  assert (HT' : forall t y, threads s !! t = Some y -> exists y', <[c := x]> (threads s) !! t = Some y' /\ children y' = children y).
  { intros t y Hy. destruct (decide (c = t)) as [<- |]; [rewrite lookup_insert_eq; assert (y = a) as -> by congruence; eauto|rewrite lookup_insert_ne by done; eauto]. }
  destruct HI. constructor; unfold with_thread; simpl; try done.
  - intros t. rewrite i_known0. split; intros [y Hy]; [destruct (HT' t y Hy) as (? & ? & _)|destruct (HT t y Hy) as (? & ? & _)]; eauto.
  - intros t y Hy Hd. destruct (HT t y Hy) as (y' & Hy' & _ & _ & Heq). rewrite Heq in * by congruence. eauto.
  - intros t y Hy. destruct (HT t y Hy) as (y' & Hy' & _ & -> & _). eauto.
  - intros t y t' y' q Hy Hy'. destruct (HT t y Hy) as (z & Hz & _ & -> & _), (HT t' y' Hy') as (z' & Hz' & _ & -> & _). eauto.
  - intros t y q Hy. destruct (HT t y Hy) as (z & Hz & _ & -> & _). intros Hq.
    destruct (i_child0 t z q Hz Hq) as (w & ? & ? & ? & [C1 C2 C3 C4]). exists w. split_and!; try done. constructor; auto.
    intros Hd. destruct (C2 Hd) as [? C]. split; [done|]. intros y1 Hy1. destruct (HT _ _ Hy1) as (y2 & Hy2 & -> & _). eauto.
  - intros p b Hp Hd Hn. destruct (i_kept0 p b Hp Hd Hn) as (z & q & w & Hz & Hq & ?). destruct (HT' p z Hz) as (z' & ? & Hch).
    exists z', q, w. by rewrite Hch.
  - intros p b y Hp Hd Hy. destruct (HT b y Hy) as (y' & Hy' & -> & _). destruct (i_own0 p b y' Hp Hd Hy') as (z & w & Hz & Hq & ?).
    destruct (HT' p z Hz) as (z' & ? & Hch). exists z', w. by rewrite Hch.
  - intros b y Hy. destruct (HT b y Hy) as (y' & Hy' & -> & _). eauto.
  - intros p ws b Hp. destruct (i_waiting0 p ws b Hp) as (z & w & Hz & Hq & ?). destruct (HT' p z Hz) as (z' & ? & Hch). exists z', w. by rewrite Hch.
Qed.
