(* ===== verification/WaitProps.v ===== *)
(** * process_wait and exit

    What [process_wait] promises, over all sequences of events from boot, and
    when a process can exit. *)

From stdpp Require Import options.
From S2P Require Import Prelude Wait WaitInv.
Local Open Scope Z_scope.
Local Open Scope kernel_scope.

(** ** Histories *)

Definition started_by (es : list event) (p c : Z) : Prop := Exec p c ∈ es.
Definition waited (es : list event) (p c : Z) : Prop := exists v, WaitDone p c v ∈ es.
Definition ended (es : list event) (c v : Z) : Prop := Exit c v ∈ es \/ LoadFail c ∈ es /\ v = 1.

Lemma inv_ext E W X E' W' X' pend s P :
  (forall a b, E a b <-> E' a b) -> (forall a b, W a b <-> W' a b) -> (forall a b, X a b <-> X' a b) ->
  Inv E W X pend s P -> Inv E' W' X' pend s P.
Proof.
  intros HE HW HX HI. constructor; try (apply HI).
  - intros p c Hp%HE. by apply (i_exec _ _ _ _ _ _ HI).
  - intros p q c Hp%HE Hq%HE. by apply (i_parent _ _ _ _ _ _ HI p q c).
  - intros p c Hp%HW. apply HE. by apply (i_waited _ _ _ _ _ _ HI).
  - intros c v Hc%HX. by apply (i_ended _ _ _ _ _ _ HI c v).
  - intros c v v' Hv%HX Hv'%HX. by apply (i_ended_once _ _ _ _ _ _ HI c).
  - intros t x q Ht Hq. destruct (i_child _ _ _ _ _ _ HI t x q Ht Hq) as (w & ? & ? & ? & [C1 C2 C3 C4]). exists w. rewrite <- HE, <- HW.
    split_and!; try done. constructor; try done. rewrite <- HX. done.
  - intros p c Hp%HE Hd Hn. apply (i_kept _ _ _ _ _ _ HI p c Hp Hd). by rewrite HW.
  - intros p c y Hp%HE. by apply (i_own _ _ _ _ _ _ HI).
  - intros c y Hy. destruct (i_root _ _ _ _ _ _ HI c y Hy) as [[p ?%HE]|]; eauto.
Qed.

Lemma inv_boot : Inv (started_by []) (waited []) (ended []) [] (w_waits boot) (places boot).
Proof.
  assert (HT : forall t x, threads (w_waits boot) !! t = Some x -> t = root /\ x = mk_thread_ws 0 [] true).
  { intros t x H. simpl in H. by apply lookup_singleton_Some in H as [<- <-]. }
  constructor; unfold started_by, waited, ended; simpl; try done; try (intros *; rewrite ?lookup_empty; done).
  - intros t. rewrite !lookup_singleton_is_Some. done.
  - intros t x Ht. destruct (HT t x Ht) as [-> ->]. done.
  - intros p c []%not_elem_of_nil.
  - intros p q c []%not_elem_of_nil.
  - intros p c [v []%not_elem_of_nil].
  - intros c v [[]%not_elem_of_nil|[[]%not_elem_of_nil _]].
  - intros c v v' [[]%not_elem_of_nil|[[]%not_elem_of_nil _]].
  - intros t x Ht. destruct (HT t x Ht) as [-> ->]. constructor.
  - intros t x t' x' p Ht _ Hp. destruct (HT t x Ht) as [-> ->]. by apply not_elem_of_nil in Hp.
  - intros t x q Ht Hq. destruct (HT t x Ht) as [-> ->]. by apply not_elem_of_nil in Hq.
  - intros p c []%not_elem_of_nil.
  - intros p c y []%not_elem_of_nil.
  - intros c y Hy. destruct (HT c y Hy) as [-> ->]. auto.
  - intros p ws c H. apply lookup_singleton_Some in H as [_ ?]. done.
Qed.

Lemma at_place_inv w t a k w' : at_place w t a k = Done w' -> places w !! t = Some a /\ k = Done w'.
Proof. unfold at_place. case_decide; [auto|done]. Qed.

Lemma run_in_inv {A} w (m : MW A) k w' :
  run_in w m k = Done w' -> exists a s, m (w_waits w) = Done (a, s) /\ w' = mk_world s (k a).
Proof. unfold run_in. destruct (m (w_waits w)) as [[a s]|f]; [intros [= <-]; eauto|done]. Qed.

Lemma known_thread E W X s P t a : Inv E W X [] s P -> P !! t = Some a -> exists x, threads s !! t = Some x.
Proof. intros HI Ht. destruct (proj1 (i_known _ _ _ _ _ _ HI t) ltac:(eauto)) as [x Hx]. eauto. Qed.

Section event.
Context (E W X : Z -> Z -> Prop) (w : world) (HI : Inv E W X [] (w_waits w) (places w)).

Lemma event_exec p c w' : exec_event (Exec p c) w = Done w' ->
  Inv (fun a b => E a b \/ a = p /\ b = c) W X [] (w_waits w') (places w').
Proof using HI.
  simpl. intros [Hp H]%at_place_inv. case_decide as Hc; [|done]. apply run_in_inv in H as (ws & s & H & ->).
  assert (Hpc : p <> c) by congruence. apply (execute_begin_inv _ _ _ _ _ Hpc) in H as (x & Hx & Hpg & -> & ->). simpl.
  rewrite (insert_insert_ne (places w)) by done. eapply (inv_place _ _ _ _ _ _ _ Running); [|by rewrite lookup_insert_ne|done..].
  apply (inv_exec E W X [] (w_waits w) (places w) p c x HI); [congruence|done..].
Qed.

Lemma event_exec_done p c r w' : exec_event (ExecDone p c r) w = Done w' -> Inv E W X [] (w_waits w') (places w').
Proof using HI.
  simpl. destruct (places w !! p) as [[|ws c'| |]|] eqn:Hp; try done. case_decide; [subst c'|done].
  intros (a & s & H & ->)%run_in_inv. steps_of H. apply execute_end_inv in E0 as (u & Hu & n & ->).
  destruct (a0 =? r); [|done]. inversion H; subst. simpl. eapply inv_place; [|exact Hp|done..]. by apply inv_loading.
Qed.

Lemma event_load_ok c w' : exec_event (LoadOk c) w = Done w' -> Inv E W X [] (w_waits w') (places w').
Proof using HI.
  simpl. intros [Hc (a & s & H & ->)%run_in_inv]%at_place_inv. apply loaded_inv in H as (x & u & Hx & Hu & st & n & e & -> & _).
  simpl. apply (inv_status _ _ _ _ _ c); [done|congruence|done..].
Qed.

Lemma event_load_fail c w' : exec_event (LoadFail c) w = Done w' ->
  Inv E W (fun a v => X a v \/ a = c /\ v = 1) [] (w_waits w') (places w').
Proof using HI.
  simpl. intros [Hc (a & s & H & ->)%run_in_inv]%at_place_inv. unfold exit_references in H. steps_of H.
  apply loaded_inv in E0 as (x & u & Hx & Hu & st & n & e & -> & Hst). apply load_thread_inv in E1 as (-> & Hx' & _). simpl in Hx'.
  assert (a1 = x) as -> by congruence. rewrite <- (Hst eq_refl).
  refine (inv_exit E W X (with_ws (w_waits w) (t_ws x) (ws_but u st n e)) (places w) c x (ws_but u st n e) _ _ _ ltac:(congruence) Hx (with_ws_lookup _ _ _) H).
  simpl. apply (inv_status _ _ _ _ _ c); [done|congruence|done..].
Qed.

Lemma event_exit c v w' : exec_event (Exit c v) w = Done w' ->
  Inv E W (fun a u => X a u \/ a = c /\ u = v) [] (w_waits w') (places w').
Proof using HI.
  simpl. intros [Hc (a & s & H & ->)%run_in_inv]%at_place_inv. unfold exit_with_status, exit_references in H. steps_of H.
  apply load_thread_inv in E0 as (-> & Hx & _). apply set_exit_status_inv in E1 as (u & Hu & ->).
  apply load_thread_inv in E2 as (-> & Hx' & _). simpl in Hx'. assert (a2 = a0) as -> by congruence.
  refine (inv_exit E W X (with_ws (w_waits w) (t_ws a0) (ws_but u v (done_loading u) (load_error u))) (places w) c a0 (ws_but u v _ _) _ _ _ ltac:(congruence) Hx (with_ws_lookup _ _ _) H).
  simpl. apply (inv_status _ _ _ _ _ c); [done|congruence|done..].
Qed.

Lemma event_wait_call p c w' : exec_event (WaitCall p c) w = Done w' -> Inv E W X [] (w_waits w') (places w').
Proof using HI.
  simpl. intros [Hp (a & s & H & ->)%run_in_inv]%at_place_inv. unfold wait_begin in H. steps_of H. steps_of E0.
  apply load_thread_inv in E1 as (-> & Hx & _). apply find_child_inv in E0 as [-> Hf].
  destruct (a0 =? 0) eqn:Hz; [done|]. apply Z.eqb_neq in Hz. inversion H; subst.
  destruct Hf as [[? _]|(Hin & u & Hu & Htid)]; [done|]. simpl.
  eapply inv_place; [done|exact Hp|done..|]. intros ? ? [= <- <-]. eauto 8.
Qed.

Lemma event_refused p c w' : exec_event (WaitRefused p c) w = Done w' -> Inv E W X [] (w_waits w') (places w') /\ ~ (E p c /\ ~ W p c).
Proof using HI.
  simpl. intros [Hp (a & s & H & ->)%run_in_inv]%at_place_inv. unfold wait_begin in H. steps_of H. steps_of E0.
  apply load_thread_inv in E1 as (-> & Hx & _). apply find_child_inv in E0 as [-> Hf].
  destruct (a0 =? 0) eqn:Hz; [|done]. apply Z.eqb_eq in Hz. inversion H; subst. split; [done|]. intros [HE HWn].
  destruct (i_kept _ _ _ _ _ _ HI p c HE ltac:(congruence) HWn) as (x & q & u & Hx' & Hq & Hu & Htid).
  assert (a1 = x) as -> by congruence. destruct Hf as [[_ Hf]|(Hin & u' & Hu' & _)]; [by apply (Hf q u)|].
  apply (i_fresh _ _ _ _ _ _ HI) in Hu'. lia.
Qed.

Lemma event_wait_done p c v w' : exec_event (WaitDone p c v) w = Done w' ->
  E p c /\ ~ W p c /\ X c v /\ Inv E (fun a b => W a b \/ a = p /\ b = c) X [] (w_waits w') (places w').
Proof using HI.
  simpl. destruct (places w !! p) as [[| |ws c'|]|] eqn:Hp; try done. case_decide; [subst c'|done].
  intros (a & s & H & ->)%run_in_inv. steps_of H. destruct (a0 =? v) eqn:Hv; [|done]. apply Z.eqb_eq in Hv as <-. inversion H; subst.
  by apply (inv_wait_end _ _ _ (w_waits w) _ _ ws).
Qed.

Lemma event_reap c w' : exec_event (Reap c) w = Done w' -> Inv E W X [] (w_waits w') (places w').
Proof using HI. simpl. intros [Hc (a & s & H & ->)%run_in_inv]%at_place_inv. by eapply inv_reap. Qed.
End event.

Lemma run_snoc es e w : run (es ++ [e]) w = let? w := run es w in exec_event e w.
Proof.
  revert w. induction es as [|x es IH]; intros w; cbn [run app obind]; [by destruct (exec_event e w)|].
  destruct (exec_event x w); [apply IH|done].
Qed.

Ltac history := intros; unfold started_by, waited, ended; setoid_rewrite elem_of_app; setoid_rewrite list_elem_of_singleton; naive_solver.

(** Every sequence of events keeps the invariant. *)
Lemma inv_run es w : run es boot = Done w -> Inv (started_by es) (waited es) (ended es) [] (w_waits w) (places w).
Proof.
  revert w. induction es as [|e es IH] using rev_ind; intros w'; [intros [= <-]; apply inv_boot|].
  rewrite run_snoc. destruct (run es boot) as [w|] eqn:Hr; [|done]. intros H. specialize (IH w eq_refl). cbn [obind] in H.
  destruct e.
  - eapply inv_ext; [| | |exact (event_exec _ _ _ w IH _ _ _ H)]; history.
  - eapply inv_ext; [| | |exact (event_exec_done _ _ _ w IH _ _ _ _ H)]; history.
  - eapply inv_ext; [| | |exact (event_load_ok _ _ _ w IH _ _ H)]; history.
  - eapply inv_ext; [| | |exact (event_load_fail _ _ _ w IH _ _ H)]; history.
  - eapply inv_ext; [| | |exact (event_wait_call _ _ _ w IH _ _ _ H)]; history.
  - eapply inv_ext; [| | |exact (proj1 (event_refused _ _ _ w IH _ _ _ H))]; history.
  - eapply inv_ext; [| | |exact (proj2 (proj2 (proj2 (event_wait_done _ _ _ w IH _ _ _ _ H))))]; history.
  - eapply inv_ext; [| | |exact (event_exit _ _ _ w IH _ _ _ H)]; history.
  - eapply inv_ext; [| | |exact (event_reap _ _ _ w IH _ _ H)]; history.
Qed.

(** ** When the operations succeed *)

Section forward.
Context (E W X : Z -> Z -> Prop).

Lemma find_total l t s : (forall q, q ∈ l -> is_Some (heap s !! q)) -> exists p, find_child_ws l t s = Done (p, s).
Proof.
  induction l as [|q l IH]; intros Hl; cbn [find_child_ws]; [by eexists|].
  destruct (Hl q ltac:(left)) as [w Hw]. assert (Hq : load_ws q s = Done (w, s)) by (unfold load_ws, bind, get; by rewrite Hw).
  rewrite (bind_done _ _ _ _ _ Hq). destruct (ws_tid w =? t); [by eexists|]. apply IH. intros r Hr. apply Hl. by right.
Qed.

Lemma wait_begin_run pend s P p a c :
  Inv E W X pend s P -> P !! p = Some a -> a <> Dead -> exists q, wait_begin p c s = Done (q, s).
Proof.
  intros HI Hp Ha. destruct (proj1 (i_known _ _ _ _ _ _ HI p) ltac:(eauto)) as [x Hx].
  unfold wait_begin. rewrite (bind_done _ _ _ x s).
  - apply find_total. intros q Hq. destruct (i_child _ _ _ _ _ _ HI p x q Hx Hq) as (w & Hw & _). eauto.
  - unfold load_thread, bind, get. rewrite Hx, (i_page _ _ _ _ _ _ HI p x Hx) by congruence. done.
Qed.

Lemma list_owner_run pend s P o x q :
  Inv E W X pend s P -> threads s !! o = Some x -> q ∈ children x -> list_owner s q = Some (o, x).
Proof.
  intros HI Ho Hq. destruct (list_owner s q) as [[o' x']|] eqn:Hf.
  - apply list_owner_inv in Hf as [Ho' Hq']. assert (o' = o) as -> by (by eapply (i_apart _ _ _ _ _ _ HI o' x' o x)). congruence.
  - pose proof (find_none _ _ Hf (o, x)) as Hn. simpl in Hn. rewrite bool_decide_eq_true_2 in Hn by done.
    specialize (Hn ltac:(apply list_elem_of_In; by apply elem_of_map_to_list)). done.
Qed.

Lemma load_ws_run q s w : heap s !! q = Some w -> load_ws q s = Done (w, s).
Proof. intros H. unfold load_ws, bind, get. by rewrite H. Qed.

Lemma destroy_run pend s P o x q w :
  Inv E W X pend s P -> threads s !! o = Some x -> q ∈ children x -> heap s !! q = Some w ->
  destroy_wait_status q s = (if negb (t_page x) && at_end q (children x) then Fault BadPointer else Done (tt, removed s q o x)).
Proof.
  intros HI Ho Hq Hw. unfold destroy_wait_status. rewrite (bind_done _ _ _ _ _ (load_ws_run q s w Hw)).
  unfold list_remove_ws, bind, get. rewrite (list_owner_run pend s P o x q HI Ho Hq). by destruct (negb _ && _).
Qed.

Lemma destroy_ext q w s : is_Some (heap s !! q) -> destroy_wait_status q (with_ws s q w) = destroy_wait_status q s.
Proof.
  intros [w' Hw]. unfold destroy_wait_status. rewrite (bind_done _ _ _ _ _ (load_ws_run q s w' Hw)), (bind_done _ _ _ _ _ (load_ws_run q _ w (with_ws_lookup s q w))).
  unfold list_remove_ws, bind, get. change (list_owner (with_ws s q w) q) with (list_owner s q).
  destruct (list_owner s q) as [[o x]|]; [|done]. destruct (negb _ && _); [done|].
  exact (f_equal (fun z => Done (tt, z)) (removed_with_ws s q w o x)).
Qed.

Lemma set_run (f : wait_status -> wait_status) q s w :
  heap s !! q = Some w -> (let! w := load_ws q in store_ws q (f w)) s = Done (tt, with_ws s q (f w)).
Proof. intros H. unfold store_ws. by rewrite !(bind_done _ _ _ _ _ (load_ws_run q s w H)). Qed.

Lemma decrement_run q s w :
  heap s !! q = Some w ->
  decrement_and_destroy_if_zero q s =
    (if reference_count w =? 1 then (destroy_wait_status q ;; ret true) s
     else Done (false, with_ws s q (ws_refs w (dead w) (reference_count w - 1)))).
Proof.
  intros Hw. unfold decrement_and_destroy_if_zero. rewrite (bind_done _ _ _ _ _ (load_ws_run q s w Hw)).
  rewrite (bind_done _ _ _ _ _ (set_run (fun w' => ws_refs w' (dead w') (reference_count w - 1)) q s w Hw)).
  rewrite (bind_done _ _ _ _ _ (load_ws_run q _ _ (with_ws_lookup _ _ _))). cbn [ws_refs reference_count].
  destruct (reference_count w =? 1) eqn:H1; [apply Z.eqb_eq in H1|apply Z.eqb_neq in H1].
  - rewrite H1. unfold bind. simpl. by rewrite destroy_ext by eauto.
  - rewrite (proj2 (Z.eqb_neq _ _)) by lia. done.
Qed.

(** A thread whose page is there can drop its references. *)
Lemma drop_all_run c P l s x :
  Inv E W X l s P -> P !! c = Some Dead -> threads s !! c = Some x -> t_page x = true -> NoDup l -> (forall r, r ∈ l -> r ∈ children x) ->
  exists s', decrement_children l s = Done (tt, s').
Proof.
  revert s x. induction l as [|q l IH]; intros s x HI Hc Hx Hpg Hnd Hsub; cbn [decrement_children]; [by eexists|].
  apply NoDup_cons in Hnd as [Hq Hnd]. pose proof (Hsub q ltac:(left)) as Hin.
  destruct (i_child _ _ _ _ _ _ HI c x q Hx Hin) as (w & Hw & _).
  assert (Hrun : exists b s', decrement_and_destroy_if_zero q s = Done (b, s')).
  { rewrite (decrement_run q s w Hw). destruct (reference_count w =? 1); [|by eexists _, _].
    unfold bind. rewrite (destroy_run _ _ _ _ _ _ _ HI Hx Hin Hw), Hpg. by eexists _, _. }
  destruct Hrun as (b & s' & Hrun). rewrite (bind_done _ _ _ _ _ Hrun).
  destruct (inv_drop E W X l s P c x q b s' HI Hc Hx Hin Hq Hrun) as (HI' & x' & Hx' & Hpg' & Hkeep).
  apply (IH _ x' HI' Hc Hx'); [congruence|done|]. intros r Hr. apply Hkeep; [apply Hsub; by right|]. by intros ->.
Qed.
End forward.

(** The status a thread exits with is set first. *)
Lemma exit_run E W X s P c y w v :
  Inv E W X [] s P -> P !! c <> Some Dead -> threads s !! c = Some y -> heap s !! t_ws y = Some w ->
  exit_with_status c v s = decrement_all_references c (t_ws y) (with_ws s (t_ws y) (ws_but w v (done_loading w) (load_error w))).
Proof.
  intros HI Hc Hy Hw. pose proof (i_page _ _ _ _ _ _ HI c y Hy Hc) as Hpg. unfold exit_with_status, exit_references.
  rewrite (bind_done _ _ _ y s) by (unfold load_thread, bind, get; by rewrite Hy, Hpg).
  rewrite (bind_done _ _ _ _ _ (set_run (fun w => ws_but w v (done_loading w) (load_error w)) _ s w Hw)).
  eapply (bind_done (load_thread c) (fun t => decrement_all_references c (t_ws t)) _ y). unfold load_thread, bind, get. simpl. by rewrite Hy, Hpg.
Qed.

Lemma exit_shared_run E W X s P c y w :
  Inv E W X [] s P -> P !! c <> Some Dead -> threads s !! c = Some y -> heap s !! t_ws y = Some w -> reference_count w <> 1 ->
  exists s', decrement_all_references c (t_ws y) s = Done (tt, s').
Proof.
  intros HI Hc Hy Hw Hr. unfold decrement_all_references.
  rewrite (bind_done _ _ _ false (with_ws s (t_ws y) (ws_refs w (dead w) (reference_count w - 1)))).
  2:{ rewrite (decrement_run _ _ _ Hw), (proj2 (Z.eqb_neq _ _)) by done. done. }
  set (s1 := with_ws s (t_ws y) (ws_refs w (dead w + 1) (reference_count w - 1))). cbn [negb].
  rewrite (bind_done _ _ _ tt s1).
  2:{ rewrite (bind_done _ _ _ _ _ (load_ws_run _ _ _ (with_ws_lookup _ _ _))).
      unfold s1. rewrite <- (with_ws_twice s (t_ws y) (ws_refs w (dead w) (reference_count w - 1)) (ws_refs w (dead w + 1) _)).
      exact (set_run (fun w' => ws_refs w' (dead w + 1) (reference_count w')) _ _ _ (with_ws_lookup _ _ _)). }
  assert (Hpg : t_page y = true) by (by apply (i_page _ _ _ _ _ _ HI c)).
  rewrite (bind_done _ _ _ y s1) by (unfold load_thread, bind, get; simpl; by rewrite Hy, Hpg).
  pose proof (die_shared E W X s P c y w HI Hc Hy Hw Hr) as HI'.
  apply (drop_all_run _ _ _ c _ _ _ y HI'); [apply lookup_insert_eq|done|done|by apply (i_nodup _ _ _ _ _ _ HI c)|done].
Qed.

(** ** Theorems *)

Lemma waited_dec es p c : waited es p c \/ ~ waited es p c.
Proof.
  induction es as [|e es [[v Hv]|IH]]; [right; by intros [v []%not_elem_of_nil]|left; exists v; by right|].
  destruct e as [| | | | | |p' c' v| |]; try (right; intros [v' [?|?]%elem_of_cons]; [done|apply IH; by exists v']).
  destruct (decide (p' = p /\ c' = c)) as [[-> ->]|Hne]; [left; exists v; left|].
  right. intros [v' [[= -> -> ->]|?]%elem_of_cons]; [by destruct Hne|]. apply IH. by exists v'.
Qed.

(** C17: [process_wait (c)] called by [p] keeps its promise, over every sequence of
    events from boot.  It returns a value only for a child that [p] started, has
    not waited for and that has exited, and the value is the status the child
    exited with, 1 if its program could not be loaded; it returns -1 only for
    a thread that is not a child of [p] or for which it has waited before.
    It is never stuck: a call by a running thread waits for the child or is
    refused, and once the child has exited the one that waits gets the status. *)
Theorem process_wait_contract es w p c :
  run es boot = Done w ->
  (forall v w', exec_event (WaitDone p c v) w = Done w' -> started_by es p c /\ ~ waited es p c /\ ended es c v) /\
  (forall w', exec_event (WaitRefused p c) w = Done w' -> started_by es p c -> waited es p c) /\
  (places w !! p = Some Running -> exists w', exec_event (WaitCall p c) w = Done w' \/ exec_event (WaitRefused p c) w = Done w') /\
  (forall ws v, places w !! p = Some (Waiting ws c) -> ended es c v -> exists w', exec_event (WaitDone p c v) w = Done w').
Proof.
  intros HI%inv_run. split_and!.
  - intros v w' H. destruct (event_wait_done _ _ _ w HI p c v w' H) as (? & ? & ? & _). done.
  - intros w' H HE. destruct (event_refused _ _ _ w HI p c w' H) as [_ Hn]. destruct (waited_dec es p c) as [|HW]; [done|]. by destruct Hn.
  - intros Hp. destruct (wait_begin_run _ _ _ _ _ _ p Running c HI Hp ltac:(done)) as [q Hq]. simpl. unfold at_place, run_in.
    rewrite !decide_True by done. unfold bind. rewrite Hq. destruct (q =? 0); eexists; [by right|by left].
  - intros ws v Hp HX. destruct (i_waiting _ _ _ _ _ _ HI p ws c Hp) as (x & u & Hx & Hin & Hu & <-).
    pose proof (i_ended _ _ _ _ _ _ HI _ _ HX) as Hd.
    destruct (i_child _ _ _ _ _ _ HI p x ws Hx Hin) as (u' & Hu' & _ & _ & HC). assert (u' = u) as -> by congruence.
    destruct (c_dead _ _ _ _ _ _ _ HC Hd) as (_ & H1 & _ & HX'). pose proof (i_ended_once _ _ _ _ _ _ HI _ _ _ HX HX') as ->.
    assert (Hrun : wait_end ws (w_waits w) = Done (exit_status u, removed (w_waits w) ws p x)).
    { unfold wait_end. rewrite (bind_done _ _ _ _ _ (load_ws_run ws _ u Hu)), H1. cbn [Z.eqb].
      rewrite (bind_done _ _ _ tt (with_ws (w_waits w) ws (ws_refs u (1 - 1) (reference_count u))))
        by exact (set_run (fun w' => ws_refs w' (1 - 1) (reference_count w')) ws _ u Hu).
      rewrite (bind_done _ _ _ _ _ (load_ws_run _ _ _ (with_ws_lookup _ _ _))). unfold bind. rewrite destroy_ext by eauto.
      rewrite (destroy_run _ _ _ _ _ _ p x ws u HI Hx Hin Hu), (i_page _ _ _ _ _ _ HI p x Hx) by congruence. done. }
    simpl. rewrite Hp, decide_True by done. unfold run_in, bind. rewrite Hrun, Z.eqb_refl. by eexists.
Qed.

(** Two processes: 1 starts 2, 2 starts 3 and exits while 3 runs. *)
Definition family : list event := [Exec 1 2; LoadOk 2; ExecDone 1 2 2; Exec 2 3; LoadOk 3; ExecDone 2 3 3].
Definition after (es : list event) : world := match run es boot with Done w => w | Fault _ => boot end.

Lemma process_wait_contract_witness :
  (exists w', exec_event (WaitDone 1 2 7) (after (family ++ [WaitCall 1 2; Exit 2 7])) = Done w') /\
  (forall w', exec_event (WaitDone 1 2 0) (after (family ++ [WaitCall 1 2; Exit 2 7])) = Done w' -> ended (family ++ [WaitCall 1 2; Exit 2 7]) 2 0).
Proof.
  destruct (process_wait_contract (family ++ [WaitCall 1 2; Exit 2 7]) (after (family ++ [WaitCall 1 2; Exit 2 7])) 1 2
    ltac:(vm_compute; reflexivity)) as (H1 & _ & _ & H4).
  split.
  - apply (H4 1 7); [vm_compute; reflexivity|]. left. apply list_elem_of_In. simpl. tauto.
  - intros w' H. by destruct (H1 0 w' H) as (_ & _ & ?).
Defined.

(** The initial thread stays without a parent. *)
Lemma places_grow e w w' t : exec_event e w = Done w' -> is_Some (places w !! t) -> is_Some (places w' !! t).
Proof.
  intros H Ht. assert (Hset : forall u a, is_Some (<[u := a]> (places w) !! t)).
  { intros u a. destruct (decide (u = t)) as [-> |]; [rewrite lookup_insert_eq; eauto|by rewrite lookup_insert_ne]. }
  destruct e; simpl in H;
    lazymatch type of H with
    | at_place _ _ _ _ = _ => apply at_place_inv in H as [_ H]
    | _ => destruct (places w !! p) as [[| | |]|]; try done
    end; try (case_decide; [|done]); apply run_in_inv in H as (? & ? & _ & ->); simpl; auto.
  destruct (decide (c = t)) as [-> |]; [rewrite lookup_insert_eq; eauto|by rewrite lookup_insert_ne].
Qed.

Lemma root_no_parent es w : run es boot = Done w -> (forall p, ~ started_by es p root) /\ is_Some (places w !! root).
Proof.
  revert w. induction es as [|e es IH] using rev_ind; intros w'; [intros [= <-]; split; [intros p; apply not_elem_of_nil|by eexists]|].
  rewrite run_snoc. destruct (run es boot) as [w|] eqn:Hr; [|done]. cbn [obind]. intros H. destruct (IH w eq_refl) as [Hn Hs].
  split; [|by eapply places_grow]. intros p [Hp|Hp%list_elem_of_singleton]%elem_of_app; [by apply (Hn p)|]. subst e.
  simpl in H. apply at_place_inv in H as [_ H]. case_decide as Hd; [|done]. rewrite Hd in Hs. by destruct Hs.
Qed.

Lemma root_exit es w : run es boot = Done w -> exit_references root (w_waits w) = Fault BadPointer.
Proof.
  intros Hrun. apply root_no_parent in Hrun as Hr. destruct Hr as [Hn [a Ha]]. apply inv_run in Hrun as HI.
  destruct (known_thread _ _ _ _ _ _ _ HI Ha) as [x Hx]. destruct (i_root _ _ _ _ _ _ HI _ x Hx) as [[p Hp]|H0]; [by destruct (Hn p)|].
  assert (Hnone : heap (w_waits w) !! 0 = None) by (apply eq_None_not_Some; intros [u Hu]; apply (i_fresh _ _ _ _ _ _ HI) in Hu; lia).
  unfold exit_references, load_thread, bind, get. rewrite Hx. destruct (t_page x); [|done]. simpl.
  unfold decrement_all_references, decrement_and_destroy_if_zero, load_ws, bind, get. by rewrite H0, Hnone.
Qed.

(** Between the two halves of an exit the parent can exit and free the status. *)
Lemma exit_race : (let! _ := decrement_and_destroy_if_zero 2 in exit_with_status 2 0 ;; load_ws 2) (w_waits (after family)) = Fault BadPointer.
Proof. vm_compute. reflexivity. Qed.


